(* ===== verification/_CoqProject ===== *)
-Q . S2P
Prelude.v
Interact.v
Effect.v
GoText.v
Json.v
CidLib.v
Durable.v
Journal.v
JournalFacts.v
JournalOps.v
JournalThms.v
Trust.v
TrustFacts.v
TrustThms.v
Branch.v
NodeApi.v
BucketSync.v
BucketSyncFacts.v
BucketSyncThms.v
Cache.v
CacheFacts.v
CacheHistory.v
CacheThms.v
Paths.v
Staging.v
Overlay.v
StagingFacts.v
StagingWrites.v
StagingHistory.v
StagingBatches.v
StagingThms.v
StagingWitness.v
WritePlan.v
WritePlanFacts.v
WritePlanThms.v
Cas.v
CasStacks.v
CasThms.v
DirManifest.v
Chunks.v
Roots.v
Writeback.v
WritebackThms.v
Binding.v
BindingThms.v
WritebackWitness.v
PlainTree.v
Merge.v
MergeThms.v
FingerprintThms.v
MergeMain.v
MergeWitness.v
Registry.v
RegistryFacts.v
Install.v
InstallFacts.v
InstallRuns.v
InstallSwap.v
InstallThms.v
InstallWitness.v
History.v
Plans.v
PlansFacts.v
PlansRuns.v
PlanManifest.v
PlanBackup.v
PlanSync.v
PlanLinked.v
PlanFlow.v
PlanRuns.v
PublicationThms.v
PublicationLive.v
PublicationWitness.v
PlanBatch.v
StagedTree.v
Mount.v
MountRuns.v
MountThms.v
MountRecovery.v
MountWitness.v
