(* ===== verification/Prelude.v ===== *)
(** * Verification of the MALT client runtime

    MALT is a client for content-addressed, authenticated UnixFS trees.  A
    device keeps local state (which roots it trusts, what it changed, cached
    payload bytes, desired mounts), talks to a remote that it does not trust,
    and shows a writable file tree over an immutable verified one.  This
    library models that runtime from its Go sources and proves what it
    promises.

    ** The parts and how they interact

    A mounted file operation enters through the mount manager's binding, is
    staged as a journal operation over cached bodies, is read back through the
    overlay, and is later replayed: a planner computes a candidate tree, a
    write plan persists its blocks and graph at the remote, the candidate is
    recorded in the trust store, and the journal operations are completed
    under the fence "the base is still the accepted root".  Accepting a root
    is a separate, explicit action.  Backups go through the bucket workspace,
    which holds local candidates of a remote branch.

    ** Files

    - Prelude: Go errors and results, sequences, lists, maps and machine
      integers; the tactics and hint databases.
    - Interact: programs that call an untrusted party, as finite trees; their
      executions are all traces of calls and answers.
    - GoText, CidLib: the standard library's strings, utf8 and path
      functions that the sources call, unpadded URL base64, and the interface
      of content identifiers (a class of operations and a class of laws).
    - Json: runes, the decoder of encoding/json with the proof that its fuel is
      enough, and what is read back of a text that was written ([json_text]).
    - Durable: the discipline of every state file: a locked section reads,
      decodes, changes and atomically replaces one file (the writeAtomic
      functions of journal, trust, cache, bucketsync and mount).  The class
      [DurableLaws] is what a store promises: its loader accepts what its
      operations write; each store is an instance, and the theorems on
      sections and histories are proved once against the class.
    - Journal*: journal/store.go.  Trust*: trust/store.go and policy.go.
      Cache*: cache/store.go.  Branch, NodeApi: internal/bucketbranch,
      nodeapi/dataset.go.  BucketSync*: bucketsync/service.go.
    - Paths: unixfs/model/path.go, flat.go, the canonical paths of
      unixfs/staged_tree.go.  Staging, Overlay, Staging*: filesystem/staging
      (service.go and upload.go); Overlay is the abstract tree that the
      service refines.
    - WritePlan*: writeplan.  Roots: application/roots.go.  Writeback*:
      application/writeback.  Binding*: the writable binding of
      internal/runtime/writeback.go and the policy wrapper of the manager.
    - Registry*: filesystem/mount/store.go.  Mount*: filesystem/mount/
      manager.go.
    - Effect: actions on a state that may fail, the monad of the parts below.
    - Cas*: nodeapi/block.go, internal/cas (cas.go, verifying.go, memory,
      spool).  CasStacks: transport/hybrid/cas.go, transport/local/cas.go over
      its platform interface and platform_unix.go, which implements it with
      shards, temporary files and renames, application/add/add_cas_batch.go.
    - PlainTree, FingerprintThms: the scans and fingerprints of
      application/backup/merge.go and fingerprint.go.  Merge*: the three-way
      merge and copy of merge.go (MergeThms also has the facts on scans).
    - Install*: application/backup/install.go.  InstallFacts are the system
      calls, a small program logic and the recovery of one entry as undo
      steps, InstallRuns the invariant and recovery, InstallSwap the
      installation and the termination of recovery.
    - History, Plans*: application/backup/scheduler.go, plans.go and
      path_helpers.go, two more durable stores.  PlanManifest:
      plan_manifest.go and the destination checks of plan_restore.go.
    - PlanBackup: plan_backup.go.  PlanSync: plan_sync.go and the baseline of
      plan_restore.go.  They run over the history, the Bucket workspace and
      the trusted roots (type node), and log every request sent to the remote.
      PlanLinked: the seven states of journal and workspace and how each
      store call moves between them.  PlanFlow: a program logic for handlers,
      retry and new publication.  PlanRuns: the invariant of the whole
      handlers.  PublicationThms, PublicationLive, PublicationWitness: the
      guarantees.
    - PlanBatch: application/backup/batch.go and batch_runner.go.
    - DirManifest: unixfs/model/manifest_encoding.go,
      directory_manifest.go and manifest_cid.go.  Chunks: unixfs/model/
      payload.go and chunk_metadata.go, unixfs/measured_payload.go and
      chunked_file.go; readers are any functions that answer bytes and errors.
    - StagedTree: the staged tree of unixfs (staged_tree.go, staged_remove.go,
      staged_load.go, staged_materialize.go, projection.go, layout.go) and the
      candidate check of verified_facade.go, with the full rebuild of a tree
      as the reference of its materialisation.

    In each group the file with the plain name holds the definitions, Facts
    and similar names hold the lemmas, Thms the properties, and Witness
    concrete scenes at which the theorems are applied.

    ** Correspondence

    A Go function that can fail returns [result]; errors are values of
    [error] with the sentinels of the sources, so [errors.Is] is decidable.
    A struct is a record with the names of its fields; where two structs share
    a field name a prefix tells them apart.  A method on a store takes the
    file, the outcome of every system call it makes (an [io] record), the
    clock and random identifiers it reads, and returns its result with the new
    file; so "whatever system call fails" is a quantifier.  A critical section
    is atomic because the sources hold a process lock and a file lock around
    it; interleavings of processes and goroutines are the sequences of
    sections.  Services that use several stores are state passing over the
    product of their files; the remote, the planner, the platform adapter and
    other processes are functions of a step counter, so their answers are
    unconstrained and may change at every call.  The base tree under a staging
    overlay is one function: it is the immutable tree of one root.  The trust
    store that a backup handler reads (type [node] of PlanBackup) changes
    between calls but not inside one.  Integers
    that can overflow (sequence numbers, generations, tokens, revisions) are
    bounded by 2^64 and the guards or wrap-around are written out.

    ** What is proved

    - State files always load again after any history of calls and failures,
      a crash during a replacement leaves the old or the new state, and
      identities and statuses never go back (Journal, Cache, Trust,
      BucketSync, Durable).
    - Nothing becomes a trusted root without an explicit action, candidate
      acceptance is a compare-and-swap, and guarded work runs only while its
      root is accepted (Trust); verified cache entries come only from bytes
      that were hashed (Cache).
    - The staged namespace is a tree with a body for every staged file; stat,
      listings and reads answer exactly the abstract overlay; a write reads
      back; an upload batch is consistent and finished as a whole (Staging).
    - What an untrusted remote can and cannot make the client believe: blocks
      are acknowledged one by one under their own CIDs, children are installed
      before parents, receipts match the exact batch (WritePlan); staged work
      is completed only with evidence (Writeback); reports of a sync are
      backed (Binding); answers of a branch are bound to the request
      (NodeApi).
    - The mount manager owns every platform resource exactly once, mounts are
      exclusive and recorded, shutdown releases everything, and a restart
      with working ports restores the registry (Mount).
    - Reads of every store are authentic and receipts exact whatever the peer
      answers; the verifying store adds nothing to an honest one; the local
      store on a Unix file system never loses an acknowledged block, whatever
      system call fails (Cas).
    - The content fingerprint decides equality of trees; the merge takes the
      changed side of every path and reports the rest, and a copy is complete
      (PlainTree, Merge).
    - Installing several directories is all or nothing under every failure and
      any number of interrupted recoveries; recovery loses no tree, and ends
      when nothing fails (Install).
    - Bound directories stay apart whatever calls are made on the plan store,
      while links stay as they are and texts are UTF-8;
      a dataset is accepted for a plan exactly when it describes it (Plans,
      PlanManifest).
    - Over any history of backups, synchronisations and resolutions with any
      failures: one operation identity names one request, the journal and the
      workspace agree, only candidates recorded as trusted are published, a
      backup that reports success was applied, and an interrupted publication
      completes (Publication).
    - A directory manifest has one encoding and the parser accepts no other
      text (DirManifest); a measured payload is exactly the declared bytes of
      its reader, its chunk document reads back, and a chunked file is
      determined by its bytes (Chunks).
    - A batch attempts every plan, whatever happens to the others (PlanBatch).
    - Materialising an edited tree gives the root of a full rebuild, and doing
      it again writes nothing; a loaded tree that no edit touched writes
      nothing either; a checked candidate has every expected path with its
      kind and key (StagedTree).
    - Eight theorems describe histories in which the code does not do what it
      means to: a cache entry left without its body, a journal that a clock
      set back makes unloadable, colliding observation streams, an alias that
      is not UTF-8 and locks the trust store, a mountpoint that makes the
      mount registry unloadable, an unmount that forgets a stale mount, an
      installation journal that no recovery can use, and a merge that drops
      permission bits.

    ** Bounds and fuel

    The loops of the runtime that use fuel are the pruning sweep of the
    journal, at most once per operation plus one since each productive round
    removes an operation, and the depth-first visit of a plan's dependencies,
    bounded by the number of staged candidates plus one; both are shown to be
    enough, by termination theorems that state the exact result.  The JSON
    parser gets twice the length of its text (every two nested calls consume
    a byte; more fuel changes nothing, Json) and chunking the length of the
    data.  A loop over an [io.Reader] gets a number of rounds as an argument
    and reports when it used them up; for a reader that delivers its bytes
    within a given number of calls, rounds beyond that number are shown to be
    enough (Chunks).
    Batches are at most 4096 blocks and 8 MiB, as in the sources.

    ** Assumptions

    The laws of [CidLib] (a CID determines its text; the verifier of a codec
    and digest is deterministic), an injective digest where a transaction
    identifier must determine its operations, a root writer whose roots are a
    function of the root it starts from and the bindings and that changes
    nothing when it writes them again (UpdateStagedRoot, which
    authentication_adapter.go implements over malt-core), mount specifications
    whose recorded form is stable (without that a registry may not load, as
    one of the theorems shows), and the documented contract of the platform
    adapter (no session means that it owns no path; mounting reconciles a
    stale mount).  They are class arguments or premises of the theorems that
    use them, and the witnesses instantiate them.

    Built into Durable is that a state file that was written is read back as
    it was written.  encoding/json keeps that for texts that are valid UTF-8
    and replaces other bytes by U+FFFD.  The journal, the cache and the
    mount registry check their texts.  The histories of the trust store (TrustThms, [on_disk]) and
    of the plan store (PlansRuns, [plans_on_disk]) go through the document
    explicitly, with any texts in the first and UTF-8 texts as a premise of
    every call in the second; for the Bucket workspace, the backup history and
    the installation journal the texts are taken to be UTF-8.

    ** Not modelled

    The proof system of malt-core and everything that only drives it (proof
    readers, planner, Merkle DAG import), encryption and keyring, the
    FUSE shims, HTTP transports and daemon, configuration, command line: these
    call libraries whose code is outside the repository or perform I/O
    without state of their own.
    Of an installation, the loss of data that a power failure may cause in
    spite of the synchronisation calls is not modelled: a crash is a process
    that stops, that is, an environment in which all later calls fail.
    Of backup plans: the resolution of paths by the host is fixed during a
    run, the texts that are stored are valid UTF-8, the services of other plans
    may change the Bucket file between two sections but leave the workspace
    of the plan alone, random identities are new, and the plan lock is held
    for a whole call.  The restore of trees and the preparation of a merge
    checkout are ports of PlanSync; the merge and the installation that they
    end in are Merge and Install.
    Of the staged tree: that the roots a statter reports are those of the
    contents it reports is a premise ([settled]), since roots are proved by
    malt-core; nothing bounds the depth of a loaded tree, so a load has a
    depth as fuel and its facts hold for every depth at which it is finished.

    ** Plan

    The restore of branches, the typed mutation planner and the encrypted
    profile, in this order. *)

From stdpp Require Import base decidable gmap strings list sorting.
From Stdlib Require Import ZArith.

(** ** Go errors

    An error is modelled by the way it was built: [errors.New] for the
    package sentinels, [fmt.Errorf] with and without a [%w] verb, and
    [errors.Join].  The text is the format string; the formatted operands
    carry no behaviour. *)
Inductive error :=
  | ErrorsNew (text : string)
  | Errorf (text : string)
  | Wrapf (text : string) (inner : error)
  | ErrorsJoin (left right : error).

#[global] Instance error_eq_dec : EqDecision error.
Proof. solve_decision. Defined.

(** [errors.Is]: the target occurs in the tree of wrapped errors. *)
Fixpoint errors_Is (err target : error) : bool :=
  bool_decide (err = target) ||
  match err with
  | ErrorsNew _ | Errorf _ => false
  | Wrapf _ inner => errors_Is inner target
  | ErrorsJoin l r => errors_Is l target || errors_Is r target
  end.

(** ** Fallible results *)
Inductive result (A : Type) :=
  | Ok (a : A)
  | Err (e : error).
Arguments Ok {A} a.
Arguments Err {A} e.

#[global] Instance result_ret : MRet result := fun A a => Ok a.
#[global] Instance result_bind : MBind result := fun A B f m =>
  match m with Ok a => f a | Err e => Err e end.
#[global] Instance result_fmap : FMap result := fun A B f m =>
  match m with Ok a => Ok (f a) | Err e => Err e end.

(** [if cond { return err }]. *)
Definition fail_if (cond : bool) (e : error) : result unit :=
  if cond then Err e else Ok ().

(** [if err != nil { return fmt.Errorf("...: %w", err) }]. *)
Definition wrap_err {A} (text : string) (m : result A) : result A :=
  match m with Ok a => Ok a | Err e => Err (Wrapf text e) end.

(** Turn a missing value into an error. *)
Definition or_err {A} (o : option A) (e : error) : result A :=
  match o with Some a => Ok a | None => Err e end.

Definition is_ok {A} (m : result A) : bool :=
  match m with Ok _ => true | Err _ => false end.

(** [for ... range] with an early [return err]: the body transforms an
    accumulator or stops the loop. *)
Fixpoint foldM {A B} (f : A -> B -> result A) (a : A) (l : list B) : result A :=
  match l with
  | [] => Ok a
  | b :: l' => a' ← f a b; foldM f a' l'
  end.

Fixpoint mapM {A B} (f : A -> result B) (l : list A) : result (list B) :=
  match l with
  | [] => Ok []
  | a :: l' => b ← f a; bs ← mapM f l'; Ok (b :: bs)
  end.

Create HintDb malt.

Lemma bind_Ok {A B} (m : result A) (f : A -> result B) b :
  m ≫= f = Ok b <-> exists a, m = Ok a /\ f a = Ok b.
Proof. destruct m as [a|e]; cbn; naive_solver. Qed.

Section ResultLemmas.
Context {A B : Type}.

Lemma fail_if_Ok (c : bool) e u : fail_if c e = Ok u <-> c = false.
Proof. destruct c, u; cbn; naive_solver. Qed.

Lemma wrap_err_Ok t (m : result A) a : wrap_err t m = Ok a <-> m = Ok a.
Proof. destruct m; cbn; naive_solver. Qed.

Lemma or_err_Ok (o : option A) e a : or_err o e = Ok a <-> o = Some a.
Proof. destruct o; cbn; naive_solver. Qed.

Lemma is_ok_true (m : result A) : is_ok m = true <-> exists a, m = Ok a.
Proof. destruct m; cbn; naive_solver. Qed.

Lemma mapM_Forall2 (f : A -> result B) l l' :
  mapM f l = Ok l' <-> Forall2 (fun a b => f a = Ok b) l l'.
Proof.
  split.
  - revert l'. induction l as [|a l IH]; intros l' H; cbn in H.
    + injection H as <-. constructor.
    + apply bind_Ok in H as (b & Hb & H). apply bind_Ok in H as (bs & Hbs & H).
      injection H as <-. constructor; eauto.
  - induction 1 as [|a b l l' Hab _ IH]; cbn; [done|]. by rewrite Hab; cbn; rewrite IH.
Qed.

(** Every result of a mapped loop comes from an element. *)
Lemma mapM_elem (f : A -> result B) l l' b :
  mapM f l = Ok l' -> b ∈ l' -> exists a, a ∈ l /\ f a = Ok b.
Proof.
  intros H%mapM_Forall2. induction H as [|x y l l' Hxy _ IH]; intros Hb.
  - by apply not_elem_of_nil in Hb.
  - apply elem_of_cons in Hb as [->|Hb]; [exists x; split; [by left|done]|].
    destruct (IH Hb) as (a & Ha & E). exists a. split; [by right|done].
Qed.

(** A mapped loop that finishes ran its body on every element. *)
Lemma mapM_visits (f : A -> result B) l l' a : mapM f l = Ok l' -> a ∈ l -> exists b, f a = Ok b.
Proof.
  intros H%mapM_Forall2. induction H as [|x y l l' Hxy _ IH]; [by intros ?%not_elem_of_nil|].
  intros [->|Hin]%elem_of_cons; eauto.
Qed.

Lemma mapM_length (f : A -> result B) l l' : mapM f l = Ok l' -> length l' = length l.
Proof. intros H%mapM_Forall2. symmetry. by eapply Forall2_length. Qed.


(** Loop invariants for the [foldM] loops. *)
Lemma foldM_inv (P : A -> Prop) (f : A -> B -> result A) l a a' :
  P a -> (forall a b a', b ∈ l -> P a -> f a b = Ok a' -> P a') -> foldM f a l = Ok a' -> P a'.
Proof.
  revert a. induction l as [|b l IH]; intros a Ha Hstep H; cbn in H; [by injection H as <-|].
  apply bind_Ok in H as (a1 & H1 & H). eapply (IH a1); eauto.
  - eapply Hstep; [left | |]; eauto.
  - intros ??? Hin. apply Hstep. by right.
Qed.

Lemma foldM_app (f : A -> B -> result A) l1 l2 a :
  foldM f a (l1 ++ l2) = (a' ← foldM f a l1; foldM f a' l2).
Proof.
  revert a. induction l1 as [|b l1 IH]; intros a; cbn; [done|].
  destruct (f a b); cbn; [apply IH|done].
Qed.

(** A loop that finishes ran its body on every element. *)
Lemma foldM_visits (f : A -> B -> result A) l a a' b :
  foldM f a l = Ok a' -> b ∈ l -> exists a1 a2, f a1 b = Ok a2.
Proof.
  revert a. induction l as [|b0 l IH]; intros a H Hb; [by apply not_elem_of_nil in Hb|].
  cbn in H. apply bind_Ok in H as (a1 & H1 & H). apply elem_of_cons in Hb as [->|Hb]; eauto.
Qed.
End ResultLemmas.

(** A loop that leaves every element unchanged succeeds with its input. *)
Lemma mapM_id {A} (f : A -> result A) l : Forall (fun a => f a = Ok a) l -> mapM f l = Ok l.
Proof. intros H. apply mapM_Forall2. by apply Forall_Forall2_diag. Qed.

(** A validation loop succeeds when every element passes. *)
Lemma foldM_check {B} (g : B -> result unit) l :
  foldM (fun _ b => g b) () l = Ok () <-> Forall (fun b => g b = Ok ()) l.
Proof.
  induction l as [|b l IH]; cbn; [by split|]. rewrite Forall_cons.
  rewrite bind_Ok. split.
  - intros ([] & H1 & H2). by split; [|apply IH].
  - intros [H1 H2]. exists (). by split; [|apply IH].
Qed.

(** Distinct keys determine the elements of a list. *)
Lemma NoDup_key_inj {A K} (key : A -> K) l x y :
  NoDup (key <$> l) -> x ∈ l -> y ∈ l -> key x = key y -> x = y.
Proof.
  induction l as [|z l IH]; cbn; [by intros _ ?%not_elem_of_nil|].
  intros [Hz Hl]%NoDup_cons Hx Hy E.
  apply elem_of_cons in Hx as [->|Hx], Hy as [->|Hy]; auto.
  - destruct Hz. rewrite E. by apply list_elem_of_fmap_2.
  - destruct Hz. rewrite <- E. by apply list_elem_of_fmap_2.
Qed.

(** [simplify_result] inverts every hypothesis that says a monadic
    computation returned [Ok]: it exposes the intermediate values and turns
    the guards into boolean equations. *)
Ltac simplify_result_step :=
  match goal with
  | H : Ok _ = Ok _ |- _ => injection H as H
  | H : Ok _ = Err _ |- _ => discriminate H
  | H : Err _ = Ok _ |- _ => discriminate H
  | H : Err _ = Err _ |- _ => injection H as H
  | H : Some _ = Some _ |- _ => injection H as H
  | H : Some _ = None |- _ => discriminate H
  | H : None = Some _ |- _ => discriminate H
  | H : mbind _ _ = Ok _ |- _ =>
      let a := fresh "r" in let Ha := fresh "Hr" in
      apply bind_Ok in H as (a & Ha & H); cbn beta in H
  | H : fail_if _ _ = Ok ?u |- _ => apply fail_if_Ok in H; try clear u
  | H : wrap_err _ _ = Ok _ |- _ => apply wrap_err_Ok in H
  | H : or_err _ _ = Ok _ |- _ => apply or_err_Ok in H
  | H : mret _ = Ok _ |- _ => unfold mret, result_ret in H
  | H : (match ?x with (_, _) => _ end) = Ok _ |- _ => destruct x
  | H : (_, _) = (_, _) |- _ => injection H as H
  end.
Ltac simplify_result := repeat (simplify_result_step; subst).

(** [simplify_guards] turns the boolean guards that were passed into
    propositions. *)
Ltac simplify_guards_step :=
  match goal with
  | H : _ || _ = false |- _ => apply orb_false_iff in H as [? ?]
  | H : _ && _ = true |- _ => apply andb_true_iff in H as [? ?]
  | H : negb _ = false |- _ => apply negb_false_iff in H
  | H : negb _ = true |- _ => apply negb_true_iff in H
  | H : bool_decide _ = false |- _ => apply bool_decide_eq_false in H
  | H : bool_decide _ = true |- _ => apply bool_decide_eq_true in H
  | H : Z.ltb _ _ = false |- _ => apply Z.ltb_ge in H
  | H : Z.ltb _ _ = true |- _ => apply Z.ltb_lt in H
  | H : N.leb _ _ = false |- _ => apply N.leb_gt in H
  | H : N.leb _ _ = true |- _ => apply N.leb_le in H
  | H : N.ltb _ _ = false |- _ => apply N.ltb_ge in H
  | H : N.ltb _ _ = true |- _ => apply N.ltb_lt in H
  end.
Ltac simplify_guards := repeat simplify_guards_step.

(** Decide the equality tests that the context settles. *)
Ltac simpl_decide :=
  repeat match goal with
  | |- context [bool_decide (?a = ?b)] =>
      first [rewrite (bool_decide_eq_true_2 (a = b)) by congruence
            |rewrite (bool_decide_eq_false_2 (a = b)) by congruence]; cbn
  | H : context [bool_decide (?a = ?b)] |- _ =>
      first [rewrite (bool_decide_eq_true_2 (a = b)) in H by congruence
            |rewrite (bool_decide_eq_false_2 (a = b)) in H by congruence]; cbn in H
  end.

(** Case analysis on the innermost condition of a hypothesis. *)
Ltac case_in H :=
  match type of H with
  | context [if ?b then _ else _] => destruct b eqn:?
  | context [match ?x with _ => _ end] => destruct x eqn:?
  end.

(** ** Machine integers *)
Definition two64 : N := 2 ^ 64.
(** [uint64] arithmetic wraps around. *)
Definition u64 (x : N) : N := (x mod two64)%N.

Lemma u64_small x : (x < two64)%N -> u64 x = x.
Proof. apply N.mod_small. Qed.

(** Go times: nanoseconds on the wall clock; the zero time is [0]. *)
Definition time := Z.
Bind Scope Z_scope with time.
Definition time_IsZero (t : time) : bool := bool_decide (t = 0%Z).
Definition time_Before (t u : time) : bool := Z.ltb t u.

(** ** Sorting

    [sort.Slice] with a strict order on keys.  The model is the insertion
    sort by the key; for distinct keys every sorting algorithm computes the
    same list ([sort_by_unique]). *)
Section SortBy.
Context {A K : Type} (key : A -> K) (leb : K -> K -> bool).

Fixpoint insert_by (x : A) (l : list A) : list A :=
  match l with
  | [] => [x]
  | y :: l' => if leb (key x) (key y) then x :: l else y :: insert_by x l'
  end.

Fixpoint sort_by (l : list A) : list A :=
  match l with
  | [] => []
  | x :: l' => insert_by x (sort_by l')
  end.

Definition key_le (x y : A) : Prop := leb (key x) (key y) = true.

Lemma insert_by_Permutation x l : insert_by x l ≡ₚ x :: l.
Proof.
  induction l as [|y l IH]; cbn; [done|]. destruct (leb _ _); [done|].
  rewrite IH. constructor.
Qed.

Lemma sort_by_Permutation l : sort_by l ≡ₚ l.
Proof. induction l as [|x l IH]; cbn; [done|]. by rewrite insert_by_Permutation, IH. Qed.

Lemma elem_of_sort_by x l : x ∈ sort_by l <-> x ∈ l.
Proof. by rewrite sort_by_Permutation. Qed.

Context (leb_total : forall a b, leb a b = true \/ leb b a = true).
Context (leb_trans : forall a b c, leb a b = true -> leb b c = true -> leb a c = true).
Context (leb_antisym : forall a b, leb a b = true -> leb b a = true -> a = b).

Lemma insert_by_sorted x l : StronglySorted key_le l -> StronglySorted key_le (insert_by x l).
Proof.
  induction 1 as [|y l Hl IH Hy]; cbn; [repeat constructor|].
  destruct (leb (key x) (key y)) eqn:E.
  - repeat constructor; [done|done|done|].
    eapply Forall_impl; [exact Hy|]. intros z Hz. by apply (leb_trans _ (key y)).
  - constructor; [done|]. rewrite insert_by_Permutation. constructor; [|done].
    destruct (leb_total (key x) (key y)); [congruence|done].
Qed.

Lemma sort_by_sorted l : StronglySorted key_le (sort_by l).
Proof. induction l; cbn; [constructor|by apply insert_by_sorted]. Qed.

Lemma sort_by_id l : StronglySorted key_le l -> sort_by l = l.
Proof.
  induction 1 as [|x l Hl IH Hx]; cbn; [done|]. rewrite IH.
  destruct l as [|y l]; cbn; [done|].
  apply Forall_cons in Hx as [Hxy _]. unfold key_le in Hxy. by rewrite Hxy.
Qed.

(** A sorted permutation with distinct keys is unique, so the result does
    not depend on the sorting algorithm or on the map iteration order. *)
Lemma sorted_unique l1 l2 :
  NoDup (key <$> l1) -> l1 ≡ₚ l2 ->
  StronglySorted key_le l1 -> StronglySorted key_le l2 -> l1 = l2.
Proof.
  revert l2. induction l1 as [|x l1 IH]; intros l2 Hnd Hp H1 H2.
  - by apply Permutation_nil_l in Hp as ->.
  - destruct l2 as [|y l2]; [by apply Permutation_nil_r in Hp|].
    apply StronglySorted_inv in H1 as [H1 Hx]. apply StronglySorted_inv in H2 as [H2 Hy].
    cbn in Hnd. apply NoDup_cons in Hnd as [Hnx Hnd].
    assert (x = y) as ->.
    { assert (Hxin : x ∈ y :: l2) by (rewrite <- Hp; left).
      assert (Hyin : y ∈ x :: l1) by (rewrite Hp; left).
      apply elem_of_cons in Hxin as [->|Hxin]; [done|].
      apply elem_of_cons in Hyin as [->|Hyin]; [done|].
      rewrite Forall_forall in Hx, Hy.
      assert (key x = key y) as E by (apply leb_antisym; [by apply Hx|by apply Hy]).
      destruct Hnx. rewrite E. by apply list_elem_of_fmap_2. }
    f_equal. apply IH; eauto using Permutation_cons_inv.
Qed.

Lemma sort_by_unique l1 l2 :
  NoDup (key <$> l1) -> l1 ≡ₚ l2 -> sort_by l1 = sort_by l2.
Proof.
  intros Hnd Hp. apply sorted_unique; try apply sort_by_sorted.
  - by rewrite sort_by_Permutation.
  - by rewrite !sort_by_Permutation.
Qed.
End SortBy.
