(* ===== verification/Interact.v ===== *)
(** Programs that call out: a finite tree whose nodes are calls to an
    untrusted party and whose branches are its possible answers.  The trees
    are inductive because every loop of the modelled code runs over a finite
    list.  [exec] relates a program to each of its traces, [run] evaluates it
    against a handler with a state. *)

From stdpp Require Import base list.
From S2P Require Import Prelude.

Class Signature := { call : Type; answer : call -> Type }.

Section Programs.
Context {Sg : Signature}.

Inductive tree (A : Type) : Type :=
  | Return (a : A)
  | Call (c : call) (k : answer c -> tree A).
Arguments Return {A} a.
Arguments Call {A} c k.

(** A call with its answer. *)
Definition event : Type := {c : call & answer c}.
Definition ev (c : call) (a : answer c) : event := existT c a.

Fixpoint tree_bind {A B} (p : tree A) (f : A -> tree B) : tree B :=
  match p with
  | Return a => f a
  | Call c k => Call c (fun a => tree_bind (k a) f)
  end.

Fixpoint exec {A} (p : tree A) (tr : list event) (out : A) : Prop :=
  match p with
  | Return a => tr = [] /\ out = a
  | Call c k => exists a tr', tr = ev c a :: tr' /\ exec (k a) tr' out
  end.

Fixpoint run {St A} (h : forall c, St -> answer c * St) (p : tree A) (s : St) : A * St * list event :=
  match p with
  | Return a => (a, s, [])
  | Call c k =>
      let '(a, s1) := h c s in
      let '(out, s2, tr) := run h (k a) s1 in (out, s2, ev c a :: tr)
  end.

(** Every run of a handler is one of the traces. *)
Lemma run_exec {St A} (h : forall c, St -> answer c * St) (p : tree A) s out s' tr :
  run h p s = (out, s', tr) -> exec p tr out.
Proof.
  revert s out s' tr. induction p as [a|c k IH]; intros s out s' tr H; cbn in *; [by simplify_eq|].
  destruct (h c s) as [a s1]. destruct (run h (k a) s1) as [[out1 s2] tr1] eqn:E. simplify_eq.
  exists a, tr1. split; [done|]. by eapply IH.
Qed.

Lemma exec_bind {A B} (p : tree A) (f : A -> tree B) tr out :
  exec (tree_bind p f) tr out <->
  exists tr1 a tr2, tr = tr1 ++ tr2 /\ exec p tr1 a /\ exec (f a) tr2 out.
Proof.
  revert tr. induction p as [a|c k IH]; intros tr; cbn.
  - split; [intros H; by exists [], a, tr|]. intros (tr1 & b & tr2 & -> & [-> ->] & H). done.
  - split.
    + intros (a & tr' & -> & (tr1 & b & tr2 & -> & H1 & H2)%IH). exists (ev c a :: tr1), b, tr2. eauto 10.
    + intros (tr1 & b & tr2 & -> & (a & tr' & -> & H1) & H2). exists a, (tr' ++ tr2). split; [done|].
      apply IH. eauto 10.
Qed.

(** ** Programs that may fail *)
Definition P (A : Type) : Type := tree (result A).

#[global] Instance P_ret : MRet P := fun A a => Return (Ok a).
#[global] Instance P_bind : MBind P := fun A B f m =>
  tree_bind m (fun r => match r with Ok a => f a | Err e => Return (Err e) end).

Definition liftP {A} (r : result A) : P A := Return r.

Lemma exec_bind_Ok {A B} (m : P A) (f : A -> P B) tr b :
  exec (m ≫= f) tr (Ok b) <-> exists tr1 a tr2, tr = tr1 ++ tr2 /\ exec m tr1 (Ok a) /\ exec (f a) tr2 (Ok b).
Proof.
  unfold mbind, P_bind. rewrite exec_bind. split.
  - intros (tr1 & [a|e] & tr2 & -> & H1 & H2); [by exists tr1, a, tr2|]. by destruct H2.
  - intros (tr1 & a & tr2 & -> & H1 & H2). by exists tr1, (Ok a), tr2.
Qed.

(** What holds of both halves of a trace holds of a bind. *)
Lemma exec_bind_any {A B} (m : P A) (f : A -> P B) tr out :
  exec (m ≫= f) tr out ->
  (exists e, exec m tr (Err e) /\ out = Err e) \/
  exists tr1 a tr2, tr = tr1 ++ tr2 /\ exec m tr1 (Ok a) /\ exec (f a) tr2 out.
Proof.
  unfold mbind, P_bind. rewrite exec_bind. intros (tr1 & [a|e] & tr2 & -> & H1 & H2); [by right; exists tr1, a, tr2|].
  left. destruct H2 as [-> ->]. rewrite app_nil_r. eauto.
Qed.

Lemma exec_lift {A} (r : result A) tr out : exec (liftP r) tr out <-> tr = [] /\ out = r.
Proof. done. Qed.

Lemma exec_ret {A} (a : A) tr out : exec (mret (M := P) a) tr out <-> tr = [] /\ out = Ok a.
Proof. done. Qed.

(** A property of events that a program keeps to. *)
Definition only {A} (Q : event -> Prop) (p : tree A) : Prop := forall tr out, exec p tr out -> Forall Q tr.

Lemma only_bind {A B} Q (m : P A) (f : A -> P B) : only Q m -> (forall a, only Q (f a)) -> only Q (m ≫= f).
Proof.
  intros Hm Hf tr out [(e & H & _)|(tr1 & a & tr2 & -> & H1 & H2)]%exec_bind_any; [by eapply Hm|].
  apply Forall_app. split; [by eapply Hm|by eapply Hf].
Qed.

Lemma only_lift {A} Q (r : result A) : only Q (liftP r).
Proof. intros tr out [-> _]. constructor. Qed.

Lemma only_ret {A} Q (a : A) : only Q (mret (M := P) a).
Proof. intros tr out [-> _]. constructor. Qed.

Lemma only_call {A} Q c (k : answer c -> tree A) :
  (forall a, Q (ev c a)) -> (forall a, only Q (k a)) -> only Q (Call c k).
Proof. intros Hc Hk tr out (a & tr' & -> & H). constructor; [done|by eapply Hk]. Qed.

Lemma only_mono {A} (Q R : event -> Prop) (p : tree A) : (forall e, Q e -> R e) -> only Q p -> only R p.
Proof. intros HQR Hp tr out H. eapply Forall_impl; [by eapply Hp|done]. Qed.
End Programs.

#[global] Arguments Return {Sg A} a.
#[global] Arguments Call {Sg A} c k.

(** Take a successful execution of a chain of binds apart. *)
Ltac simplify_exec_step :=
  match goal with
  | H : exec (mbind _ _) _ (Ok _) |- _ =>
      let tr1 := fresh "tr" in let a := fresh "x" in let tr2 := fresh "tr" in
      let H1 := fresh "Hx" in let H2 := fresh "Hx" in
      apply exec_bind_Ok in H as (tr1 & a & tr2 & -> & H1 & H2); cbn beta in H2
  | H : exec (liftP _) _ _ |- _ => apply exec_lift in H as [-> H]
  | H : exec (mret _) _ _ |- _ => apply exec_ret in H as [-> H]
  | H : Ok _ = Ok _ |- _ => injection H as H
  | H : Ok _ = fail_if _ _ |- _ => symmetry in H; apply fail_if_Ok in H
  | H : Ok _ = Err _ |- _ => discriminate H
  | H : Err _ = Ok _ |- _ => discriminate H
  end.
Ltac simplify_exec := repeat (simplify_exec_step; subst).

Create HintDb trace.
#[export] Hint Resolve only_lift only_ret : trace.
