(* ===== verification/Effect.v ===== *)
(** Actions on a state that may fail: the shape of every method that reads and
    changes something outside of it.  An error does not undo the changes that
    were made before it. *)

From stdpp Require Import base strings list.
From S2P Require Import Prelude.

Definition Act (St A : Type) : Type := St -> result A * St.

#[global] Instance Act_ret St : MRet (Act St) := fun A a s => (Ok a, s).
#[global] Instance Act_bind St : MBind (Act St) := fun A B f m s =>
  match m s with (Ok a, s') => f a s' | (Err e, s') => (Err e, s') end.

Definition pure {St A} (r : result A) : Act St A := fun s => (r, s).
Definition reads {St A} (f : St -> result A) : Act St A := fun s => (f s, s).
Definition modify {St} (f : St -> St) : Act St unit := fun s => (Ok (), f s).
(** The error of an action as a value. *)
Definition outcome {St A} (m : Act St A) : Act St (result A) := fun s => let '(r, s') := m s in (Ok r, s').
(** [fmt.Errorf("text: %w", err)] around an action. *)
Definition wrapped {St A} (text : string) (m : Act St A) : Act St A := fun s =>
  let '(r, s') := m s in (wrap_err text r, s').

Section Traverse.
Context {St A B : Type} (f : A -> Act St B).

Fixpoint each (l : list A) : Act St (list B) :=
  match l with
  | [] => mret []
  | a :: l => b ← f a; bs ← each l; mret (b :: bs)
  end.
End Traverse.

Section Laws.
Context {St : Type}.

Lemma act_bind_Ok {A B} (m : Act St A) (f : A -> Act St B) s b s' :
  (m ≫= f) s = (Ok b, s') <-> exists a s1, m s = (Ok a, s1) /\ f a s1 = (Ok b, s').
Proof.
  unfold mbind, Act_bind. split; [destruct (m s) as [[a|e] s1]; [eauto|done]|]. by intros (a & s1 & -> & ?).
Qed.

Lemma act_bind_run {A B} (m : Act St A) (f : A -> Act St B) s a s1 : m s = (Ok a, s1) -> (m ≫= f) s = f a s1.
Proof. unfold mbind, Act_bind. by intros ->. Qed.

Lemma act_bind_fail {A B} (m : Act St A) (f : A -> Act St B) s e s1 : m s = (Err e, s1) -> (m ≫= f) s = (Err e, s1).
Proof. unfold mbind, Act_bind. by intros ->. Qed.

(** A relation between the states around an action, on every path. *)
Definition moves (R : St -> St -> Prop) {A} (m : Act St A) : Prop := forall s, R s (m s).2.

Lemma moves_ret R {A} (a : A) : (forall s, R s s) -> moves R (mret (M := Act St) a).
Proof. intros HR s. apply HR. Qed.
Lemma moves_pure R {A} (r : result A) : (forall s, R s s) -> moves R (pure (St := St) r).
Proof. intros HR s. apply HR. Qed.
Lemma moves_bind R {A B} (m : Act St A) (f : A -> Act St B) :
  (forall s1 s2 s3, R s1 s2 -> R s2 s3 -> R s1 s3) -> moves R m -> (forall a, moves R (f a)) -> moves R (m ≫= f).
Proof.
  intros HR Hm Hf s. specialize (Hm s). unfold mbind, Act_bind. destruct (m s) as [[a|e] s1]; [|done].
  eapply HR; [exact Hm|apply Hf].
Qed.
Lemma moves_pure_bind R {A B} (r : result A) (f : A -> Act St B) :
  (forall s, R s s) -> (forall a, r = Ok a -> moves R (f a)) -> moves R (pure r ≫= f).
Proof. intros HR Hf s. unfold mbind, Act_bind, pure. destruct r as [a|e]; [by apply Hf|apply HR]. Qed.
Lemma moves_outcome R {A} (m : Act St A) : moves R m -> moves R (outcome m).
Proof. intros Hm s. specialize (Hm s). unfold outcome. by destruct (m s). Qed.
Lemma moves_wrapped R {A} t (m : Act St A) : moves R m -> moves R (wrapped t m).
Proof. intros Hm s. specialize (Hm s). unfold wrapped. by destruct (m s). Qed.

Lemma pure_Ok {A} (r : result A) (s : St) a s' : pure r s = (Ok a, s') <-> r = Ok a /\ s' = s.
Proof. unfold pure. split; [by intros [= -> ->]|by intros [-> ->]]. Qed.
Lemma ret_Ok {A} (x a : A) (s s' : St) : mret (M := Act St) x s = (Ok a, s') <-> a = x /\ s' = s.
Proof. split; [by intros [= -> ->]|by intros [-> ->]]. Qed.
Lemma outcome_Ok {A} (m : Act St A) s r s' : outcome m s = (Ok r, s') -> m s = (r, s').
Proof. unfold outcome. destruct (m s). intros H; congruence. Qed.
Lemma wrapped_Ok {A} t (m : Act St A) s a s' : wrapped t m s = (Ok a, s') -> m s = (Ok a, s').
Proof. unfold wrapped. destruct (m s) as [[x|e] s1]; cbn; intros H; congruence. Qed.

Lemma reads_Ok {A} (f : St -> result A) s a s' : reads f s = (Ok a, s') <-> f s = Ok a /\ s' = s.
Proof. unfold reads. split; [by intros [= -> ->]|by intros [-> ->]]. Qed.

Lemma modify_Ok (f : St -> St) s u s' : modify f s = (Ok u, s') -> s' = f s.
Proof. by intros [= _ <-]. Qed.

(** A traversal that succeeds visits every element, in order. *)
Lemma each_Forall2 {A B} (f : A -> Act St B) (Q : A -> B -> Prop) l s bs s' :
  (forall a s b s', a ∈ l -> f a s = (Ok b, s') -> Q a b) -> each f l s = (Ok bs, s') -> Forall2 Q l bs.
Proof.
  revert s bs s'. induction l as [|a l IH]; intros s bs s' HQ H; cbn in H.
  { apply ret_Ok in H as [-> _]. constructor. }
  apply act_bind_Ok in H as (b & s1 & Hb & H). apply act_bind_Ok in H as (bs' & s2 & Hbs & H).
  apply ret_Ok in H as [-> _]. constructor; [eapply HQ; [left|done]|].
  eapply IH; [|exact Hbs]. intros a0 s0 b0 s0' Hin. eapply HQ. by right.
Qed.

Lemma moves_each R {A B} (f : A -> Act St B) l :
  (forall s, R s s) -> (forall s1 s2 s3, R s1 s2 -> R s2 s3 -> R s1 s3) -> (forall a, moves R (f a)) -> moves R (each f l).
Proof.
  intros H1 H2 Hf. induction l as [|a l IH]; cbn; [by apply moves_ret|].
  apply moves_bind; [done|apply Hf|]. intros b. apply moves_bind; [done|done|]. intros bs. by apply moves_ret.
Qed.
End Laws.

(** Take a successful chain of actions apart. *)
Ltac simplify_act_step :=
  match goal with
  | H : mbind _ _ _ = (Ok _, _) |- _ =>
      let a := fresh "x" in let s := fresh "s" in let H1 := fresh "Hm" in
      apply act_bind_Ok in H as (a & s & H1 & H); cbn beta in H
  | H : pure _ _ = (Ok _, _) |- _ => apply pure_Ok in H as [H ->]
  | H : mret _ _ = (Ok _, _) |- _ => apply ret_Ok in H as [-> ->]
  | H : reads _ _ = (Ok _, _) |- _ => apply reads_Ok in H as [H ->]
  | H : modify _ _ = (Ok _, _) |- _ => apply modify_Ok in H; subst
  | H : outcome _ _ = (Ok _, _) |- _ => apply outcome_Ok in H
  | H : wrapped _ _ _ = (Ok _, _) |- _ => apply wrapped_Ok in H
  | H : (Err _, _) = (Ok _, _) |- _ => discriminate H
  end.
Ltac simplify_act := repeat (first [simplify_act_step | simplify_result_step]; subst).
