(* ===== verification/GoText.v ===== *)
(** Go strings and the parts of the packages [strings], [unicode/utf8] and
    [path] that the modelled code calls.  A Go string is a sequence of bytes,
    here a [string] whose characters are the bytes; [range] over a string and
    the [unicode] predicates work on its UTF-8 encoding. *)

From stdpp Require Import base list strings sorting decidable sets.
From Stdlib Require Import Ascii ZArith.
From S2P Require Import Prelude.

Definition bytes (s : string) : list ascii := String.list_ascii_of_string s.
Definition of_bytes (l : list ascii) : string := String.string_of_list_ascii l.
Definition byte_str (l : list nat) : string := of_bytes (map ascii_of_nat l).

Definition in_range (lo hi : N) (a : ascii) : bool :=
  (lo <=? N_of_ascii a)%N && (N_of_ascii a <=? hi)%N.

Definition is_byte (n : N) (a : ascii) : bool := N.eqb (N_of_ascii a) n.

(** ** [strings.TrimSpace]

    [unicode.IsSpace] holds of the ASCII blanks 09..0D and 20, of U+0085 and
    U+00A0 (two bytes) and of U+1680, U+2000..U+200A, U+2028, U+2029, U+202F,
    U+205F and U+3000 (three bytes). *)
Definition space1 (a : ascii) : bool := in_range 9 13 a || is_byte 32 a.
Definition space2 (a b : ascii) : bool := is_byte 194 a && (is_byte 133 b || is_byte 160 b).
Definition space3 (a b c : ascii) : bool :=
  (is_byte 225 a && is_byte 154 b && is_byte 128 c) ||
  (is_byte 226 a && is_byte 128 b &&
     (in_range 128 138 c || is_byte 168 c || is_byte 169 c || is_byte 175 c)) ||
  (is_byte 226 a && is_byte 129 b && is_byte 159 c) ||
  (is_byte 227 a && is_byte 128 b && is_byte 128 c).

Section Trim.
Context (s2 : ascii -> ascii -> bool) (s3 : ascii -> ascii -> ascii -> bool).

(** Drop the blanks at the head of a byte list; [s2] and [s3] recognise the
    multi-byte blanks in reading order. *)
Fixpoint drop_space (l : list ascii) : list ascii :=
  match l with
  | [] => []
  | a :: l1 =>
      if space1 a then drop_space l1 else
      match l1 with
      | [] => l
      | b :: l2 =>
          if s2 a b then drop_space l2 else
          match l2 with
          | [] => l
          | c :: l3 => if s3 a b c then drop_space l3 else l
          end
      end
  end.

Definition starts_space (l : list ascii) : bool :=
  match l with
  | [] => false
  | a :: l1 => space1 a ||
      match l1 with
      | [] => false
      | b :: l2 => s2 a b || match l2 with [] => false | c :: _ => s3 a b c end
      end
  end.

Lemma drop_space_id l : starts_space l = false -> drop_space l = l.
Proof.
  destruct l as [|a [|b [|c l]]]; cbn; try done.
  - by destruct (space1 a).
  - by destruct (space1 a), (s2 a b).
  - by destruct (space1 a), (s2 a b), (s3 a b c).
Qed.

Lemma drop_space_spec l :
  starts_space (drop_space l) = false /\ exists p, l = p ++ drop_space l.
Proof.
  induction l as [l IH] using (induction_ltof1 _ (@length ascii)); unfold ltof in IH.
  destruct l as [|a l1]; [by split; [|exists []]|]. cbn [drop_space].
  destruct (space1 a) eqn:E1.
  { destruct (IH l1) as [H [p Hp]]; [cbn; lia|]. split; [done|].
    exists (a :: p). cbn. by f_equal. }
  destruct l1 as [|b l2].
  { cbn. rewrite E1. by split; [|exists []]. }
  destruct (s2 a b) eqn:E2.
  { destruct (IH l2) as [H [p Hp]]; [cbn; lia|]. split; [done|].
    exists (a :: b :: p). cbn. by do 2 f_equal. }
  destruct l2 as [|c l3].
  { cbn. rewrite E1, E2. by split; [|exists []]. }
  destruct (s3 a b c) eqn:E3.
  { destruct (IH l3) as [H [p Hp]]; [cbn; lia|]. split; [done|].
    exists (a :: b :: c :: p). cbn. by do 3 f_equal. }
  cbn. rewrite E1, E2, E3. by split; [|exists []].
Qed.

Lemma starts_space_app l l' : starts_space (l ++ l') = false -> starts_space l = false.
Proof.
  destruct l as [|a [|b [|c l]]]; cbn; try done; rewrite !orb_false_iff; naive_solver.
Qed.
End Trim.

Definition trim_left (l : list ascii) : list ascii := drop_space space2 space3 l.
Definition trim_right (l : list ascii) : list ascii :=
  rev (drop_space (fun b a => space2 a b) (fun c b a => space3 a b c) (rev l)).

Definition TrimSpace (s : string) : string := of_bytes (trim_right (trim_left (bytes s))).

Definition trimmed (s : string) : Prop := TrimSpace s = s.

Lemma of_bytes_bytes s : of_bytes (bytes s) = s.
Proof. apply String.string_of_list_ascii_of_string. Qed.

Lemma bytes_of_bytes l : bytes (of_bytes l) = l.
Proof. apply String.list_ascii_of_string_of_list_ascii. Qed.

Lemma trim_right_prefix l : exists t, l = trim_right l ++ t.
Proof.
  destruct (drop_space_spec (fun b a => space2 a b) (fun c b a => space3 a b c) (rev l))
    as [_ [p Hp]].
  exists (rev p). unfold trim_right. rewrite <- rev_app_distr, <- Hp. by rewrite rev_involutive.
Qed.

Lemma trim_right_idemp l : trim_right (trim_right l) = trim_right l.
Proof.
  unfold trim_right. rewrite rev_involutive. f_equal.
  apply drop_space_id, drop_space_spec.
Qed.

Lemma TrimSpace_idemp s : TrimSpace (TrimSpace s) = TrimSpace s.
Proof.
  unfold TrimSpace. rewrite bytes_of_bytes. f_equal.
  set (x := trim_left (bytes s)).
  assert (starts_space space2 space3 (trim_right x) = false) as H.
  { destruct (trim_right_prefix x) as [t Ht].
    apply (starts_space_app _ _ _ t). rewrite <- Ht. apply drop_space_spec. }
  unfold trim_left at 1. rewrite drop_space_id by done. apply trim_right_idemp.
Qed.

Lemma TrimSpace_trimmed s : trimmed (TrimSpace s).
Proof. apply TrimSpace_idemp. Qed.
#[export] Hint Resolve TrimSpace_trimmed : malt.

(** ** Bytes and substrings *)
Definition ContainsByte (n : N) (s : string) : bool := existsb (is_byte n) (bytes s).
(** [strings.ContainsRune(s, 0)]. *)
Definition ContainsNUL (s : string) : bool := ContainsByte 0 s.

Definition HasPrefix (s p : string) : bool := String.prefix p s.

Fixpoint strip_prefix (p s : string) : option string :=
  match p, s with
  | EmptyString, _ => Some s
  | String a p', String b s' => if ascii_dec a b then strip_prefix p' s' else None
  | String _ _, EmptyString => None
  end.
Definition TrimPrefix (s p : string) : string :=
  match strip_prefix p s with Some r => r | None => s end.

Fixpoint list_prefix (p l : list ascii) : bool :=
  match p, l with
  | [], _ => true
  | a :: p', b :: l' => bool_decide (a = b) && list_prefix p' l'
  | _ :: _, [] => false
  end.
Definition HasSuffix (s p : string) : bool := list_prefix (rev (bytes p)) (rev (bytes s)).

Fixpoint Contains (s sub : string) : bool :=
  String.prefix sub s ||
  match s with EmptyString => false | String _ s' => Contains s' sub end.

(** [strings.Split(s, sep)] for a one-byte separator. *)
Fixpoint Split (s : string) (sep : ascii) : list string :=
  match s with
  | EmptyString => [EmptyString]
  | String a s' =>
      if ascii_dec a sep then EmptyString :: Split s' sep
      else match Split s' sep with
           | [] => [String a EmptyString]
           | w :: ws => String a w :: ws
           end
  end.

Definition slash : ascii := ascii_of_nat 47.

Fixpoint join_slash (l : list string) : string :=
  match l with
  | [] => EmptyString
  | [w] => w
  | w :: l' => w +:+ String slash (join_slash l')
  end.

(** ** [utf8.ValidString] *)
Definition cont (a : ascii) : bool := in_range 128 191 a.

Fixpoint utf8_valid (l : list ascii) : bool :=
  match l with
  | [] => true
  | a :: l1 =>
      if in_range 0 127 a then utf8_valid l1 else
      match l1 with
      | [] => false
      | b :: l2 =>
          if in_range 194 223 a then cont b && utf8_valid l2 else
          match l2 with
          | [] => false
          | c :: l3 =>
              if is_byte 224 a then in_range 160 191 b && cont c && utf8_valid l3
              else if is_byte 237 a then in_range 128 159 b && cont c && utf8_valid l3
              else if in_range 225 239 a then cont b && cont c && utf8_valid l3
              else match l3 with
                   | [] => false
                   | d :: l4 =>
                       if is_byte 240 a
                       then in_range 144 191 b && cont c && cont d && utf8_valid l4
                       else if is_byte 244 a
                       then in_range 128 143 b && cont c && cont d && utf8_valid l4
                       else in_range 241 243 a && cont b && cont c && cont d && utf8_valid l4
                   end
          end
      end
  end.

Definition ValidString (s : string) : bool := utf8_valid (bytes s).

(** ** [path.Clean]

    The lexical simplification: empty and dot elements are dropped, and a
    dot-dot element removes the element before it, or is dropped at a root. *)
Definition clean_step (rooted : bool) (stack : list string) (elem : string) : list string :=
  if bool_decide (elem = EmptyString) || bool_decide (elem = ".") then stack
  else if bool_decide (elem = "..") then
    match stack with
    | top :: rest => if bool_decide (top = "..") then elem :: stack else rest
    | [] => if rooted then [] else [elem]
    end
  else elem :: stack.

Definition path_Clean (p : string) : string :=
  if bool_decide (p = EmptyString) then "." else
  let rooted := HasPrefix p "/" in
  let out := join_slash (rev (foldl (clean_step rooted) [] (Split p slash))) in
  if rooted then String slash out
  else if bool_decide (out = EmptyString) then "." else out.

(** ** String order *)
Lemma string_leb_trans a b c :
  String.leb a b = true -> String.leb b c = true -> String.leb a c = true.
Proof.
  intros H1 H2. apply Is_true_eq_true. change (String.le a c).
  transitivity b; by apply Is_true_eq_left.
Qed.

Definition leb_total := String.leb_total.
Definition leb_antisym := String.leb_antisym.

(** The two sorting instances of the development: by a string key and by an
    unsigned integer key. *)
Definition sort_by_string {A} (key : A -> string) : list A -> list A := sort_by key String.leb.
Definition sort_by_N {A} (key : A -> N) : list A -> list A := sort_by key N.leb.

Lemma sort_by_string_unique {A} (key : A -> string) l1 l2 :
  NoDup (key <$> l1) -> l1 ≡ₚ l2 -> sort_by_string key l1 = sort_by_string key l2.
Proof.
  apply sort_by_unique; eauto using string_leb_trans, leb_total, leb_antisym.
Qed.

Lemma sort_by_string_sorted {A} (key : A -> string) l :
  StronglySorted (key_le key String.leb) (sort_by_string key l).
Proof. apply sort_by_sorted; eauto using string_leb_trans, leb_total. Qed.

Lemma sort_by_N_sorted {A} (key : A -> N) l :
  StronglySorted (key_le key N.leb) (sort_by_N key l).
Proof. apply sort_by_sorted; intros *; rewrite ?N.leb_le; lia. Qed.

Lemma sort_by_N_unique {A} (key : A -> N) l1 l2 :
  NoDup (key <$> l1) -> l1 ≡ₚ l2 -> sort_by_N key l1 = sort_by_N key l2.
Proof. apply sort_by_unique; intros *; rewrite ?N.leb_le; lia. Qed.

Lemma sort_by_N_strict {A} (key : A -> N) l :
  NoDup (key <$> l) -> StronglySorted (fun a b => (key a < key b)%N) (sort_by_N key l).
Proof.
  intros Hnd. assert (NoDup (key <$> sort_by_N key l)) as Hnd'.
  { unfold sort_by_N. by rewrite sort_by_Permutation. }
  pose proof (sort_by_N_sorted key l) as Hs. induction Hs as [|x l' Hs IH Hx]; [constructor|].
  cbn [fmap list_fmap] in Hnd'. apply NoDup_cons in Hnd' as [Hn Hnd']. constructor; [by apply IH|].
  rewrite Forall_forall in *. intros y Hy. specialize (Hx y Hy). unfold key_le in Hx.
  apply N.leb_le in Hx. assert (key x <> key y); [|lia]. intros E. apply Hn. rewrite E.
  by apply list_elem_of_fmap_2.
Qed.

#[export] Instance string_app_assoc : Assoc (=) String.append.
Proof. intros a b c. induction a as [|x a IH]; [done|]. exact (f_equal (String x) IH). Qed.

Example TrimSpace_ascii : TrimSpace "  main " = "main".
Proof. reflexivity. Qed.
Example TrimSpace_nbsp :
  TrimSpace (byte_str [194; 160] +:+ "a b" +:+ byte_str [226; 128; 168]) = "a b".
Proof. reflexivity. Qed.
Example path_Clean_ex : path_Clean "a/./b/../../../c//d" = "../c/d".
Proof. reflexivity. Qed.
Example utf8_ex : ValidString (byte_str [240; 159; 154; 128]) = true /\
                  ValidString (byte_str [237; 160; 128]) = false.
Proof. done. Qed.

(** Proofs use the lemmas above; [cbn] leaves these operations folded. *)
#[global] Arguments TrimSpace : simpl never.
#[global] Arguments ValidString : simpl never.
#[global] Arguments ContainsNUL : simpl never.
#[global] Arguments ContainsByte : simpl never.
#[global] Arguments path_Clean : simpl never.
#[global] Arguments HasPrefix : simpl never.
#[global] Arguments HasSuffix : simpl never.
#[global] Arguments Contains : simpl never.
#[global] Arguments TrimPrefix : simpl never.
#[global] Arguments Split : simpl never.
#[global] Arguments sort_by_N : simpl never.
#[global] Arguments sort_by_string : simpl never.

(** ** Keys joined with NUL bytes *)
Definition nul : string := byte_str [0].

(** The first NUL byte splits a text in one way. *)
Lemma nul_split a b x y :
  a +:+ nul +:+ x = b +:+ nul +:+ y -> ContainsNUL a = false -> ContainsNUL b = false -> a = b /\ x = y.
Proof.
  change nul with (String Ascii.zero EmptyString). revert b.
  induction a as [|c a IH]; intros [|d b] H Ha Hb; cbn in H; injection H as H; subst.
  - done.
  - by vm_compute in Hb.
  - by vm_compute in Ha.
  - unfold ContainsNUL, ContainsByte in *. cbn in Ha, Hb. apply orb_false_iff in Ha as [_ Ha], Hb as [_ Hb].
    edestruct IH as [-> ->]; done.
Qed.

(** * [base64.RawURLEncoding.EncodeToString] of the standard library: three
    bytes become four digits of the URL-safe alphabet, without padding.  It is
    injective and its digits contain no separator, so it can be a component of
    a map key. *)

Definition alphabet : list ascii :=
  bytes "ABCDEFGHIJKLMNOPQRSTUVWXYZabcdefghijklmnopqrstuvwxyz0123456789-_".
Definition digit (n : N) : ascii := nth (N.to_nat n) alphabet Ascii.zero.

Fixpoint base64 (l : list ascii) : list ascii :=
  match l with
  | [] => []
  | [a] =>
      let a := N_of_ascii a in
      [digit (a / 4); digit (a mod 4 * 16)]%N
  | [a; b] =>
      let a := N_of_ascii a in let b := N_of_ascii b in
      [digit (a / 4); digit (a mod 4 * 16 + b / 16); digit (b mod 16 * 4)]%N
  | a :: b :: c :: l' =>
      let a := N_of_ascii a in let b := N_of_ascii b in let c := N_of_ascii c in
      [digit (a / 4); digit (a mod 4 * 16 + b / 16);
       digit (b mod 16 * 4 + c / 64); digit (c mod 64)]%N ++ base64 l'
  end.

Definition EncodeToString (s : string) : string := of_bytes (base64 (bytes s)).

Fixpoint index_of (a : ascii) (l : list ascii) : N :=
  match l with
  | [] => 0
  | b :: l' => if ascii_dec a b then 0 else N.succ (index_of a l')
  end.

Lemma digit_index n : (n < 64)%N -> index_of (digit n) alphabet = n.
Proof.
  intros H. assert (In (N.to_nat n) (seq 0 64)) as Hin by (apply in_seq; lia).
  assert (forallb (fun k => N.eqb (index_of (digit (N.of_nat k)) alphabet) (N.of_nat k)) (seq 0 64) = true) as HF
    by (vm_compute; reflexivity).
  rewrite forallb_forall in HF. specialize (HF _ Hin). rewrite N2Nat.id in HF. by apply N.eqb_eq in HF.
Qed.

Lemma digit_inj n m : digit n = digit m -> (n < 64)%N -> (m < 64)%N -> n = m.
Proof. intros H Hn Hm. rewrite <- (digit_index n), <- (digit_index m) by done. by rewrite H. Qed.

Lemma digit_elem n : (n < 64)%N -> digit n ∈ alphabet.
Proof. intros H. apply list_elem_of_In, nth_In. change (length alphabet) with 64. lia. Qed.

Lemma byte_bound a : (N_of_ascii a < 256)%N.
Proof. apply N_ascii_bounded. Qed.

Lemma byte_eq a b : N_of_ascii a = N_of_ascii b -> a = b.
Proof. intros H. rewrite <- (ascii_N_embedding a), <- (ascii_N_embedding b). by rewrite H. Qed.

(** Mixed-radix numerals have one reading. *)
Lemma radix_inj k q r q' r' :
  (q * k + r = q' * k + r' -> r < k -> r' < k -> q = q' /\ r = r')%N.
Proof. intros. assert (q = q')%N as -> by nia. split; [done|lia]. Qed.

Lemma divmod_eq k a b : (k <> 0 -> a / k = b / k -> a mod k = b mod k -> a = b)%N.
Proof. intros Hk H1 H2. rewrite (N.div_mod a k), (N.div_mod b k) by done. by rewrite H1, H2. Qed.

(** The ranges of the pieces of a byte. *)
Lemma div_lt a k m : (k <> 0 -> a < k * m -> a / k < m)%N.
Proof. intros Hk H. by apply N.Div0.div_lt_upper_bound. Qed.
Lemma mod_lt a k : (k <> 0 -> a mod k < k)%N.
Proof. apply N.mod_lt. Qed.

Lemma piece_bounds a :
  (N_of_ascii a / 4 < 64 /\ N_of_ascii a mod 4 < 4 /\ N_of_ascii a / 16 < 16 /\
   N_of_ascii a mod 16 < 16 /\ N_of_ascii a / 64 < 4 /\ N_of_ascii a mod 64 < 64)%N.
Proof.
  pose proof (byte_bound a). split_and!; first [by apply mod_lt|apply div_lt; lia].
Qed.

Ltac bounds :=
  repeat match goal with
  | a : ascii |- _ =>
      lazymatch goal with H : (N_of_ascii a / 4 < 64)%N /\ _ |- _ => fail | _ => pose proof (piece_bounds a) end
  end; destruct_and?.

Ltac undigit := bounds; repeat match goal with
  | H : digit _ = digit _ |- _ => apply digit_inj in H; [|lia|lia]
  end.

Lemma base64_inj l1 l2 : base64 l1 = base64 l2 -> l1 = l2.
Proof.
  revert l2. induction l1 as [l1 IH] using (induction_ltof1 _ (@length ascii)); unfold ltof in IH.
  intros l2 H. destruct l1 as [|a1 [|b1 [|c1 l1]]], l2 as [|a2 [|b2 [|c2 l2]]];
    cbn [base64 app] in H; try discriminate H; try done.
  - injection H as H1 H2. undigit. f_equal. apply byte_eq, (divmod_eq 4); lia.
  - injection H as H1 H2 H3. undigit. apply radix_inj in H2 as [H2 H2']; [|done|done].
    replace a2 with a1 by (apply byte_eq, (divmod_eq 4); lia).
    replace b2 with b1 by (apply byte_eq, (divmod_eq 16); lia). done.
  - injection H as H1 H2 H3 H4 H. apply IH in H as ->; [|cbn; lia]. undigit.
    apply radix_inj in H2 as [H2 H2']; [|done|done]. apply radix_inj in H3 as [H3 H3']; [|done|done].
    replace a2 with a1 by (apply byte_eq, (divmod_eq 4); lia).
    replace b2 with b1 by (apply byte_eq, (divmod_eq 16); lia).
    replace c2 with c1 by (apply byte_eq, (divmod_eq 64); lia). done.
Qed.

Lemma base64_alphabet l : forall a, a ∈ base64 l -> a ∈ alphabet.
Proof.
  induction l as [l IH] using (induction_ltof1 _ (@length ascii)); unfold ltof in IH.
  intros a Ha. destruct l as [|x [|y [|z l]]]; cbn [base64 app] in Ha; bounds;
    repeat (apply elem_of_cons in Ha as [->|Ha]; [apply digit_elem; lia|]);
    try (by apply not_elem_of_nil in Ha).
  eapply IH; [|exact Ha]. cbn. lia.
Qed.

(** The last separator splits a list in one way. *)
Lemma last_separator {A} (x : A) l1 r1 l2 r2 :
  l1 ++ x :: r1 = l2 ++ x :: r2 -> x ∉ r1 -> x ∉ r2 -> l1 = l2 /\ r1 = r2.
Proof.
  revert l2. induction l1 as [|a l1 IH]; intros [|b l2] H H1 H2; cbn in H; injection H as H; subst.
  - done.
  - destruct H1. set_solver.
  - destruct H2. set_solver.
  - edestruct IH as [-> ->]; done.
Qed.
