(* ===== verification/Json.v ===== *)
(** JSON text (the package [encoding/json] of the standard library, as the
    application model uses it) and the runes of a Go string.

    A decoded value is a tree; an object keeps its members in the order of the
    text, and decoding into a map takes the last member of a name.  A
    [json.RawMessage] is the tree of its text: decoding it later parses the same
    bytes again. *)

From stdpp Require Import base decidable gmap strings list.
From Stdlib Require Import Ascii ZArith Lia ZifyBool.
From S2P Require Import Prelude GoText.

(** ** Runes *)
Definition ReplacementChar : N := 0xFFFD.
Definition code (a : ascii) : N := N_of_ascii a.
Definition chr (n : N) : ascii := ascii_of_N n.

(** [utf8.DecodeRune] of a non-empty text, with what follows the rune; a byte
    that starts no valid sequence is one replacement character. *)
Definition decode_rune (a : ascii) (l1 : list ascii) : N * list ascii :=
  if in_range 0 127 a then (code a, l1) else
  match l1 with
  | b :: l2 =>
      if in_range 194 223 a && cont b then ((code a - 192) * 64 + (code b - 128), l2)%N else
      match l2 with
      | c :: l3 =>
          if (is_byte 224 a && in_range 160 191 b || is_byte 237 a && in_range 128 159 b ||
              (in_range 225 236 a || in_range 238 239 a) && cont b) && cont c
          then ((code a - 224) * 4096 + (code b - 128) * 64 + (code c - 128), l3)%N else
          match l3 with
          | d :: l4 =>
              if (is_byte 240 a && in_range 144 191 b || is_byte 244 a && in_range 128 143 b || in_range 241 243 a && cont b) && cont c && cont d
              then ((code a - 240) * 262144 + (code b - 128) * 4096 + (code c - 128) * 64 + (code d - 128), l4)%N
              else (ReplacementChar, l1)
          | [] => (ReplacementChar, l1)
          end
      | [] => (ReplacementChar, l1)
      end
  | [] => (ReplacementChar, l1)
  end.

Fixpoint runes_of (n : nat) (l : list ascii) : list N :=
  match n, l with
  | S n, a :: l1 => let '(r, l2) := decode_rune a l1 in r :: runes_of n l2
  | _, _ => []
  end.
(** The runes of [for _, r := range value]. *)
Definition runes (l : list ascii) : list N := runes_of (length l) l.

Definition is_surrogate (r : N) : bool := (0xD800 <=? r)%N && (r <? 0xE000)%N.

(** [utf8.EncodeRune]. *)
Definition EncodeRune (r : N) : list ascii :=
  let r := if is_surrogate r || (0x10FFFF <? r)%N then ReplacementChar else r in
  if (r <? 128)%N then [chr r]
  else if (r <? 2048)%N then [chr (192 + r / 64); chr (128 + r mod 64)]
  else if (r <? 65536)%N then [chr (224 + r / 4096); chr (128 + r / 64 mod 64); chr (128 + r mod 64)]
  else [chr (240 + r / 262144); chr (128 + r / 4096 mod 64); chr (128 + r / 64 mod 64); chr (128 + r mod 64)].

(** ** Strings *)
Definition quote : ascii := chr 34.
Definition backslash : ascii := chr 92.

Definition hex_value (a : ascii) : option N :=
  if in_range 48 57 a then Some (code a - 48)%N
  else if in_range 97 102 a then Some (code a - 87)%N
  else if in_range 65 70 a then Some (code a - 55)%N
  else None.
Definition hex4 (a b c d : ascii) : option N :=
  w ← hex_value a; x ← hex_value b; y ← hex_value c; z ← hex_value d; Some (((w * 16 + x) * 16 + y) * 16 + z)%N.

(** The escapes of one character. *)
Definition unescape (a : ascii) : option N :=
  if is_byte 34 a || is_byte 92 a || is_byte 47 a then Some (code a)
  else if is_byte 98 a then Some 8%N else if is_byte 102 a then Some 12%N else if is_byte 110 a then Some 10%N
  else if is_byte 114 a then Some 13%N else if is_byte 116 a then Some 9%N else None.

(** The rune of an escape [\uXXXX] followed by [l]: two escapes that are a
    surrogate pair are one rune, and a lone surrogate is replaced. *)
Definition unescape_u (r : N) (l : list ascii) : N * list ascii :=
  if negb (is_surrogate r) then (r, l) else
  match l with
  | s :: u :: a :: b :: c :: d :: l' =>
      match hex4 a b c d with
      | Some r1 =>
          if is_byte 92 s && is_byte 117 u && (r <? 0xDC00)%N && (0xDC00 <=? r1)%N && (r1 <? 0xE000)%N
          then ((r - 0xD800) * 1024 + (r1 - 0xDC00) + 0x10000, l')%N
          else (ReplacementChar, l)
      | None => (ReplacementChar, l)
      end
  | _ => (ReplacementChar, l)
  end.

(** A string after its opening quote: its bytes, and what follows it. *)
Fixpoint parse_string (fuel : nat) (l : list ascii) : option (list ascii * list ascii) :=
  match fuel, l with
  | S fuel, a :: l1 =>
      let more (r : N) (l2 : list ascii) := '(s, l3) ← parse_string fuel l2; Some (EncodeRune r ++ s, l3) in
      if is_byte 34 a then Some ([], l1)
      else if is_byte 92 a then
        match l1 with
        | e :: l2 =>
            match unescape e with
            | Some r => more r l2
            | None =>
                match l2 with
                | h1 :: h2 :: h3 :: h4 :: l3 =>
                    if is_byte 117 e then r ← hex4 h1 h2 h3 h4; let '(r', l4) := unescape_u r l3 in more r' l4 else None
                | _ => None
                end
            end
        | [] => None
        end
      else if in_range 0 31 a then None
      else let '(r, l2) := decode_rune a l1 in more r l2
  | _, _ => None
  end.

(** ** Values *)
Inductive json :=
  | JNull | JBool (b : bool) | JNumber (literal : list ascii) | JString (s : list ascii)
  | JArray (items : list json) | JObject (members : list (list ascii * json)).

Definition is_space (a : ascii) : bool := is_byte 32 a || is_byte 9 a || is_byte 10 a || is_byte 13 a.
Fixpoint skip (l : list ascii) : list ascii :=
  match l with a :: l' => if is_space a then skip l' else l | [] => [] end.

Definition digit (a : ascii) : bool := in_range 48 57 a.
Fixpoint digits (l : list ascii) : list ascii * list ascii :=
  match l with
  | a :: l' => if digit a then let '(ds, r) := digits l' in (a :: ds, r) else ([], l)
  | [] => ([], [])
  end.
Definition digits1 (l : list ascii) : option (list ascii * list ascii) :=
  match digits l with ([], _) => None | r => Some r end.

(** The parts of a number. *)
Definition int_part (l : list ascii) : option (list ascii * list ascii) :=
  match l with
  | a :: l' => if is_byte 48 a then Some ([a], l') else digits1 l
  | [] => None
  end.
Definition frac_part (l : list ascii) : option (list ascii * list ascii) :=
  match l with
  | a :: l' => if is_byte 46 a then '(ds, r) ← digits1 l'; Some (a :: ds, r) else Some ([], l)
  | [] => Some ([], [])
  end.
Definition exp_part (l : list ascii) : option (list ascii * list ascii) :=
  match l with
  | a :: l' =>
      if is_byte 101 a || is_byte 69 a then
        match l' with
        | s :: l'' => if is_byte 43 s || is_byte 45 s then '(ds, r) ← digits1 l''; Some (a :: s :: ds, r)
                      else '(ds, r) ← digits1 l'; Some (a :: ds, r)
        | [] => None
        end
      else Some ([], l)
  | [] => Some ([], [])
  end.
Definition sign_part (l : list ascii) : list ascii * list ascii :=
  match l with a :: l' => if is_byte 45 a then ([a], l') else ([], l) | [] => ([], []) end.
Definition parse_number (l : list ascii) : option (list ascii * list ascii) :=
  let '(sign, l0) := sign_part l in
  '(i, l1) ← int_part l0; '(f, l2) ← frac_part l1; '(e, l3) ← exp_part l2; Some (sign ++ i ++ f ++ e, l3).

Fixpoint strip (w l : list ascii) : option (list ascii) :=
  match w, l with
  | [], _ => Some l
  | a :: w', b :: l' => if ascii_dec a b then strip w' l' else None
  | _, [] => None
  end.

(** The nesting that the scanner allows. *)
Definition maxNestingDepth : N := 10000.

Fixpoint parse_value (fuel : nat) (depth : N) (l : list ascii) : option (json * list ascii) :=
  match fuel with
  | O => None
  | S fuel =>
      let deeper := (depth + 1 <=? maxNestingDepth)%N in
      match skip l with
      | [] => None
      | a :: l1 =>
          if is_byte 123 a then
            if negb deeper then None else
            match skip l1 with
            | b :: l2 => if is_byte 125 b then Some (JObject [], l2) else
                         '(ms, r) ← parse_members fuel (depth + 1) (b :: l2); Some (JObject ms, r)
            | [] => None
            end
          else if is_byte 91 a then
            if negb deeper then None else
            match skip l1 with
            | b :: l2 => if is_byte 93 b then Some (JArray [], l2) else
                         '(vs, r) ← parse_items fuel (depth + 1) (b :: l2); Some (JArray vs, r)
            | [] => None
            end
          else if is_byte 34 a then '(s, r) ← parse_string (length l1) l1; Some (JString s, r)
          else if is_byte 110 a then r ← strip (bytes "ull") l1; Some (JNull, r)
          else if is_byte 116 a then r ← strip (bytes "rue") l1; Some (JBool true, r)
          else if is_byte 102 a then r ← strip (bytes "alse") l1; Some (JBool false, r)
          else '(n, r) ← parse_number (a :: l1); Some (JNumber n, r)
      end
  end
with parse_items (fuel : nat) (depth : N) (l : list ascii) : option (list json * list ascii) :=
  match fuel with
  | O => None
  | S fuel =>
      '(v, l1) ← parse_value fuel depth l;
      match skip l1 with
      | a :: l2 => if is_byte 93 a then Some ([v], l2)
                   else if is_byte 44 a then '(vs, r) ← parse_items fuel depth l2; Some (v :: vs, r) else None
      | [] => None
      end
  end
with parse_members (fuel : nat) (depth : N) (l : list ascii) : option (list (list ascii * json) * list ascii) :=
  match fuel with
  | O => None
  | S fuel =>
      match skip l with
      | q :: l0 =>
          if negb (is_byte 34 q) then None else
          '(k, l1) ← parse_string (length l0) l0;
          match skip l1 with
          | c :: l2 =>
              if negb (is_byte 58 c) then None else
              '(v, l3) ← parse_value fuel depth l2;
              match skip l3 with
              | a :: l4 => if is_byte 125 a then Some ([(k, v)], l4)
                           else if is_byte 44 a then '(ms, r) ← parse_members fuel depth l4; Some ((k, v) :: ms, r) else None
              | [] => None
              end
          | [] => None
          end
      | [] => None
      end
  end.

(** [json.Unmarshal]: one value with blanks around it. *)
Definition Unmarshal (data : list ascii) : option json :=
  '(v, r) ← parse_value (2 * length data) 0 data;
  match skip r with [] => Some v | _ :: _ => None end.

(** Decoding a tree into a map, into a slice and into a string; [null] leaves
    the variable as it is. *)
Definition to_map (v : json) : option (list (list ascii * json)) :=
  match v with JNull => Some [] | JObject ms => Some ms | _ => None end.
Definition to_slice (v : json) : option (list json) :=
  match v with JNull => Some [] | JArray vs => Some vs | _ => None end.
Definition to_string (v : json) : option (list ascii) :=
  match v with JNull => Some [] | JString s => Some s | _ => None end.
Definition field (name : string) (ms : list (list ascii * json)) : option json :=
  snd <$> List.find (fun m => bool_decide (m.1 = bytes name)) (rev ms).

Example Unmarshal_ex : Unmarshal (bytes (" {" +:+ of_bytes [quote] +:+ "a" +:+ of_bytes [quote] +:+ ": [1.5e-3, null ,true,{}] } ")) =
  Some (JObject [(bytes "a", JArray [JNumber (bytes "1.5e-3"); JNull; JBool true; JObject []])]).
Proof. reflexivity. Qed.
Example Unmarshal_pair : Unmarshal (quote :: bytes "\ud83d\ude80\n\ud83d\u0041" ++ [quote]) =
  Some (JString (bytes (byte_str [240; 159; 154; 128; 10; 239; 191; 189; 65]))).
Proof. reflexivity. Qed.
Example Unmarshal_no : Unmarshal (bytes "[1,]") = None /\ Unmarshal (bytes "01") = None /\ Unmarshal (bytes "{} {}") = None.
Proof. done. Qed.

(** ** Runes and bytes *)
Lemma code_chr n : (n < 256)%N -> code (chr n) = n.
Proof. apply N_ascii_embedding. Qed.
Lemma chr_code a : chr (code a) = a.
Proof. apply ascii_N_embedding. Qed.
Lemma code_bound a : (code a < 256)%N.
Proof. apply N_ascii_bounded. Qed.

(** A scalar value: a code point that is not half of a surrogate pair. *)
Definition scalar (r : N) : Prop := (r <= 0x10FFFF)%N /\ is_surrogate r = false.

Ltac byte_arith :=
  unfold scalar, is_surrogate, cont, in_range, is_byte, ReplacementChar in *; change N_of_ascii with code in *;
  repeat match goal with H : context [code (chr ?n)] |- _ => rewrite (code_chr n) in H by lia end; rewrite ?code_chr by lia; lia.

Lemma div_steps r : exists q1 q2 q3 m1 m2 m3, (r / 64 = q1 /\ r mod 64 = m1 /\ r / 4096 = q2 /\ r / 64 mod 64 = m2 /\ r / 262144 = q3 /\ r / 4096 mod 64 = m3 /\
  r = 64 * q1 + m1 /\ q1 = 64 * q2 + m2 /\ q2 = 64 * q3 + m3 /\ m1 < 64 /\ m2 < 64 /\ m3 < 64)%N.
Proof.
  exists (r / 64)%N, (r / 4096)%N, (r / 262144)%N, (r mod 64)%N, (r / 64 mod 64)%N, (r / 4096 mod 64)%N.
  assert (r / 4096 = r / 64 / 64)%N as E1 by (rewrite N.Div0.div_div; done).
  assert (r / 262144 = r / 4096 / 64)%N as E2 by (rewrite N.Div0.div_div; done).
  pose proof (N.div_mod' r 64). pose proof (N.div_mod' (r / 64) 64). pose proof (N.div_mod' (r / 4096) 64).
  pose proof (N.mod_lt r 64). pose proof (N.mod_lt (r / 64) 64). pose proof (N.mod_lt (r / 4096) 64). lia.
Qed.

Lemma EncodeRune_scalar r : scalar r -> EncodeRune r =
  if (r <? 128)%N then [chr r]
  else if (r <? 2048)%N then [chr (192 + r / 64); chr (128 + r mod 64)]
  else if (r <? 65536)%N then [chr (224 + r / 4096); chr (128 + r / 64 mod 64); chr (128 + r mod 64)]
  else [chr (240 + r / 262144); chr (128 + r / 4096 mod 64); chr (128 + r / 64 mod 64); chr (128 + r mod 64)].
Proof. intros [H1 H2]. unfold EncodeRune. rewrite H2. destruct (N.ltb_spec 0x10FFFF r); [lia|done]. Qed.

Lemma EncodeRune_2 r : scalar r -> (128 <= r < 2048)%N -> EncodeRune r = [chr (192 + r / 64); chr (128 + r mod 64)].
Proof. intros Hs Hr. rewrite EncodeRune_scalar by done. destruct (N.ltb_spec r 128); [lia|]. by destruct (N.ltb_spec r 2048); [|lia]. Qed.
Lemma EncodeRune_3 r : scalar r -> (2048 <= r < 65536)%N -> EncodeRune r = [chr (224 + r / 4096); chr (128 + r / 64 mod 64); chr (128 + r mod 64)].
Proof.
  intros Hs Hr. rewrite EncodeRune_scalar by done. destruct (N.ltb_spec r 128); [lia|]. destruct (N.ltb_spec r 2048); [lia|]. by destruct (N.ltb_spec r 65536); [|lia].
Qed.
Lemma EncodeRune_4 r : scalar r -> (65536 <= r)%N ->
  EncodeRune r = [chr (240 + r / 262144); chr (128 + r / 4096 mod 64); chr (128 + r / 64 mod 64); chr (128 + r mod 64)].
Proof.
  intros Hs Hr. rewrite EncodeRune_scalar by done. destruct (N.ltb_spec r 128); [lia|]. destruct (N.ltb_spec r 2048); [lia|]. by destruct (N.ltb_spec r 65536); [lia|].
Qed.

(** What [EncodeRune] writes starts with a byte that [DecodeRune] reads with
    the rest as the same rune. *)
Lemma decode_EncodeRune r l : scalar r -> exists a l1, EncodeRune r ++ l = a :: l1 /\ decode_rune a l1 = (r, l).
Proof.
  intros Hr. rewrite (EncodeRune_scalar r Hr). destruct (div_steps r) as (q1 & q2 & q3 & m1 & m2 & m3 & -> & -> & -> & -> & -> & -> & E1 & E2 & E3 & B1 & B2 & B3).
  destruct (N.ltb_spec r 128); [|destruct (N.ltb_spec r 2048); [|destruct (N.ltb_spec r 65536)]]; eexists _, _; (split; [done|]); unfold decode_rune; cbn [app].
  - replace (in_range 0 127 (chr r)) with true by byte_arith. by rewrite code_chr by lia.
  - replace (in_range 0 127 _) with false by byte_arith. replace (in_range _ _ _ && _) with true by byte_arith. rewrite !code_chr by lia. f_equal. lia.
  - replace (in_range 0 127 _) with false by byte_arith. replace (in_range 194 _ _ && _) with false by byte_arith.
    match goal with |- (if ?b then _ else _) = _ => replace b with true by byte_arith end. rewrite !code_chr by lia. f_equal. lia.
  - assert (q3 <= 4)%N by (unfold scalar in Hr; lia). replace (in_range 0 127 _) with false by byte_arith. replace (in_range 194 _ _ && _) with false by byte_arith.
    match goal with |- (if ?b then _ else _) = _ => replace b with false by byte_arith end.
    match goal with |- (if ?b then _ else _) = _ => replace b with true by byte_arith end. rewrite !code_chr by lia. f_equal. lia.
Qed.

Ltac split_ands H := repeat (apply andb_true_iff in H as [H ?]).

Lemma chr_is n a : code a = n -> chr n = a.
Proof. intros <-. apply chr_code. Qed.

Ltac same_byte := apply chr_is; unfold cont, in_range, is_byte in *; change N_of_ascii with code in *; lia.

(** A valid text starts with the encoding of its first rune. *)
Lemma decode_valid a l1 : utf8_valid (a :: l1) = true -> let '(r, l2) := decode_rune a l1 in
  scalar r /\ EncodeRune r ++ l2 = a :: l1 /\ utf8_valid l2 = true.
Proof.
  pose proof (code_bound a) as Ba. cbn [utf8_valid]. unfold decode_rune. destruct (in_range 0 127 a) eqn:E1.
  { intros H. assert (code a < 128)%N by byte_arith. assert (scalar (code a)) by byte_arith. split_and!; [done| |done].
    rewrite EncodeRune_scalar by done. destruct (N.ltb_spec (code a) 128); [|lia]. by rewrite chr_code. }
  destruct l1 as [|b l2]; [done|]. destruct (in_range 194 223 a) eqn:E2.
  { intros [Hb Hv]%andb_true_iff. rewrite Hb. cbn [andb]. set (r := ((code a - 192) * 64 + (code b - 128))%N).
    assert (128 <= r < 2048)%N by byte_arith. assert (scalar r) by byte_arith. split_and!; [done| |done]. rewrite EncodeRune_2 by done.
    destruct (div_steps r) as (q1 & q2 & q3 & m1 & m2 & m3 & X1 & X2 & X3 & X4 & X5 & X6 & D1 & D2 & D3 & B1 & B2 & B3). rewrite ?X6, ?X4, ?X5, ?X3, ?X2, ?X1. clear X1 X2 X3 X4 X5 X6.
    cbn [app]. subst r. do 2 f_equal; same_byte. }
  cbn [andb]. destruct l2 as [|c l3]; [done|]. match goal with |- context [if ?b then (_, l3) else _] => destruct b eqn:E3 end.
  { intros H. assert (utf8_valid l3 = true) as Hv.
    { destruct (is_byte 224 a) eqn:A1; [by split_ands H|]. destruct (is_byte 237 a) eqn:A2; [by split_ands H|].
      destruct (in_range 225 239 a) eqn:A3; [by split_ands H|byte_arith]. }
    clear H. set (r := ((code a - 224) * 4096 + (code b - 128) * 64 + (code c - 128))%N).
    assert (2048 <= r < 65536)%N by byte_arith. assert (scalar r) by byte_arith. split_and!; [done| |done]. rewrite EncodeRune_3 by done.
    destruct (div_steps r) as (q1 & q2 & q3 & m1 & m2 & m3 & X1 & X2 & X3 & X4 & X5 & X6 & D1 & D2 & D3 & B1 & B2 & B3). rewrite ?X6, ?X4, ?X5, ?X3, ?X2, ?X1. clear X1 X2 X3 X4 X5 X6.
    cbn [app]. subst r. do 3 f_equal; same_byte. }
  intros H. destruct (is_byte 224 a) eqn:A1; [exfalso; split_ands H; byte_arith|]. destruct (is_byte 237 a) eqn:A2; [exfalso; split_ands H; byte_arith|].
  destruct (in_range 225 239 a) eqn:A3; [exfalso; split_ands H; byte_arith|]. destruct l3 as [|d l4]; [done|].
  match goal with |- context [if ?b then (_, l4) else _] => assert (b = true /\ utf8_valid l4 = true) as [E4 Hv] end.
  { destruct (is_byte 240 a) eqn:A4; [split_ands H; split; [byte_arith|done]|]. destruct (is_byte 244 a) eqn:A5; split_ands H; (split; [byte_arith|done]). }
  rewrite E4. clear H E3. set (r := ((code a - 240) * 262144 + (code b - 128) * 4096 + (code c - 128) * 64 + (code d - 128))%N).
  assert (65536 <= r <= 0x10FFFF)%N by byte_arith. assert (scalar r) by byte_arith. split_and!; [done| |done]. rewrite EncodeRune_4 by tauto.
  destruct (div_steps r) as (q1 & q2 & q3 & m1 & m2 & m3 & X1 & X2 & X3 & X4 & X5 & X6 & D1 & D2 & D3 & B1 & B2 & B3). rewrite ?X6, ?X4, ?X5, ?X3, ?X2, ?X1. clear X1 X2 X3 X4 X5 X6.
  cbn [app]. subst r. do 4 f_equal; same_byte.
Qed.

Lemma decode_rune_length a l1 : length (decode_rune a l1).2 <= length l1.
Proof.
  unfold decode_rune. destruct (in_range 0 127 a); [done|]. destruct l1 as [|b [|c [|d l4]]]; cbn [length snd];
    repeat match goal with |- context [if ?c then _ else _] => destruct c end; cbn [length snd]; lia.
Qed.

Lemma runes_of_valid n l : length l <= n -> utf8_valid l = true -> concat (EncodeRune <$> runes_of n l) = l /\ Forall scalar (runes_of n l).
Proof.
  revert l. induction n as [|n IH]; intros [|a l1] Hn Hv; try done; cbn in Hn; [lia|]. cbn [runes_of].
  pose proof (decode_valid a l1 Hv) as Hd. pose proof (decode_rune_length a l1) as Hl. destruct (decode_rune a l1) as [r l2]. cbn in Hl. destruct Hd as (Hr & He & Hv2).
  destruct (IH l2) as [H1 H2]; [lia|done|]. cbn [fmap list_fmap concat]. rewrite H1. split; [done|by constructor].
Qed.

(** ** Text that is valid stays valid *)
Lemma utf8_rune r l : scalar r -> utf8_valid (EncodeRune r ++ l) = utf8_valid l.
Proof.
  intros Hr. rewrite (EncodeRune_scalar r Hr). destruct (div_steps r) as (q1 & q2 & q3 & m1 & m2 & m3 & -> & -> & -> & -> & -> & -> & E1 & E2 & E3 & B1 & B2 & B3).
  destruct (N.ltb_spec r 128); [|destruct (N.ltb_spec r 2048); [|destruct (N.ltb_spec r 65536)]]; cbn [app utf8_valid].
  - by replace (in_range 0 127 (chr r)) with true by byte_arith.
  - replace (in_range 0 127 _) with false by byte_arith. replace (in_range _ _ _) with true by byte_arith. by replace (cont _) with true by byte_arith.
  - replace (in_range 0 127 _) with false by byte_arith. replace (in_range 194 _ _) with false by byte_arith.
    replace (cont (chr (128 + m1))) with true by byte_arith. rewrite !andb_true_r. destruct (is_byte 224 _) eqn:A1.
    { by replace (in_range 160 191 _) with true by byte_arith. }
    destruct (is_byte 237 _) eqn:A2; [by replace (in_range 128 159 _) with true by byte_arith|].
    replace (in_range 225 239 _) with true by byte_arith. by replace (cont _) with true by byte_arith.
  - assert (q3 <= 4)%N by (unfold scalar in Hr; lia). replace (in_range 0 127 _) with false by byte_arith. replace (in_range 194 _ _) with false by byte_arith.
    replace (is_byte 224 _) with false by byte_arith. replace (is_byte 237 _) with false by byte_arith. replace (in_range 225 _ _) with false by byte_arith.
    replace (cont (chr (128 + m1))) with true by byte_arith. replace (cont (chr (128 + m2))) with true by byte_arith. rewrite !andb_true_r.
    destruct (is_byte 240 _) eqn:A1; [by replace (in_range 144 191 _) with true by byte_arith|].
    destruct (is_byte 244 _) eqn:A2; [by replace (in_range 128 143 _) with true by byte_arith|].
    replace (in_range 241 243 _) with true by byte_arith. by replace (cont _) with true by byte_arith.
Qed.

Lemma utf8_ascii l l' : forallb (in_range 0 127) l = true -> utf8_valid (l ++ l') = utf8_valid l'.
Proof. induction l as [|a l IH]; [done|]. cbn. intros [H1 H2]%andb_true_iff. rewrite H1. by apply IH. Qed.

(** ** Every parser consumes its text, and its fuel is enough *)
Lemma skip_length l : length (skip l) <= length l.
Proof. induction l as [|a l IH]; [done|]. cbn. destruct (is_space a); cbn; lia. Qed.

Lemma skip_cons l a l1 : skip l = a :: l1 -> length l1 < length l.
Proof. intros E. pose proof (skip_length l) as H. rewrite E in H. cbn in H. lia. Qed.

Lemma unescape_u_length r l : length (unescape_u r l).2 <= length l.
Proof.
  unfold unescape_u. destruct (is_surrogate r); cbn [negb]; [|done]. destruct l as [|s [|u [|a [|b [|c [|d l]]]]]]; try done. cbn [length].
  destruct (hex4 a b c d) as [r1|]; cbn [snd length]; [|lia]. destruct (_ && _); cbn [snd length]; lia.
Qed.

Lemma parse_string_length f l s r : parse_string f l = Some (s, r) -> length r < length l.
Proof.
  revert l s r. induction f as [|f IH]; intros [|a l1] s r H; try done. cbn [parse_string] in H. destruct (is_byte 34 a); [simplify_eq; cbn; lia|].
  assert (forall n l2, ('(s0, l3) ← parse_string f l2; Some (EncodeRune n ++ s0, l3)) = Some (s, r) -> length r < length l2) as Hm.
  { intros n l2 E. destruct (parse_string f l2) as [[s0 l3]|] eqn:E2; cbn in E; [|done]. simplify_eq. by eapply IH. }
  destruct (is_byte 92 a).
  - destruct l1 as [|e l2]; [done|]. destruct (unescape e) as [n|]; [apply Hm in H; cbn; lia|]. destruct l2 as [|h1 [|h2 [|h3 [|h4 l3]]]]; try done.
    destruct (is_byte 117 e); [|done]. destruct (hex4 h1 h2 h3 h4) as [n|]; cbn [mbind option_bind] in H; [|done].
    pose proof (unescape_u_length n l3) as Hu. destruct (unescape_u n l3) as [n' l4]. apply Hm in H. cbn in *. lia.
  - destruct (in_range 0 31 a); [done|]. pose proof (decode_rune_length a l1) as Hu. destruct (decode_rune a l1) as [n l2]. apply Hm in H. cbn in *. lia.
Qed.

Lemma digits_length l : length (digits l).2 + length (digits l).1 = length l.
Proof. induction l as [|a l IH]; [done|]. cbn. destruct (digit a); [|done]. destruct (digits l); cbn in *. lia. Qed.
Lemma digits1_length l ds r : digits1 l = Some (ds, r) -> length r < length l.
Proof. unfold digits1. pose proof (digits_length l). destruct (digits l) as [[|d ds'] r']; [done|]. intros [= <- <-]. cbn in *. lia. Qed.
Lemma int_part_length l i r : int_part l = Some (i, r) -> length r < length l.
Proof. destruct l as [|a l]; [done|]. cbn. destruct (is_byte 48 a); [intros [= <- <-]; lia|apply digits1_length]. Qed.
Lemma frac_part_length l i r : frac_part l = Some (i, r) -> length r <= length l.
Proof.
  destruct l as [|a l]; cbn; [by intros [= <- <-]|]. destruct (is_byte 46 a); [|by intros [= <- <-]]. destruct (digits1 l) as [[ds r']|] eqn:E; cbn; [|done].
  intros [= <- <-]. apply digits1_length in E. lia.
Qed.
Lemma exp_part_length l i r : exp_part l = Some (i, r) -> length r <= length l.
Proof.
  destruct l as [|a l]; cbn; [by intros [= <- <-]|]. destruct (is_byte 101 a || is_byte 69 a); [|by intros [= <- <-]]. destruct l as [|s l]; [done|].
  destruct (is_byte 43 s || is_byte 45 s); [destruct (digits1 l) as [[ds r']|] eqn:E|destruct (digits1 (s :: l)) as [[ds r']|] eqn:E]; cbn [mbind option_bind]; try done;
    intros [= <- <-]; apply digits1_length in E; cbn in *; lia.
Qed.
Lemma parse_number_length l n r : parse_number l = Some (n, r) -> length r < length l.
Proof.
  unfold parse_number. assert (length (sign_part l).2 <= length l) as Hx by (destruct l as [|a l]; [done|]; cbn; destruct (is_byte 45 a); cbn; lia).
  destruct (sign_part l) as [sign l0]. cbn in Hx. destruct (int_part l0) as [[i l1]|] eqn:E1; cbn; [|done]. destruct (frac_part l1) as [[f l2]|] eqn:E2; cbn; [|done].
  destruct (exp_part l2) as [[e l3]|] eqn:E3; cbn; [|done]. intros [= <- <-]. apply int_part_length in E1. apply frac_part_length in E2. apply exp_part_length in E3. lia.
Qed.
Lemma strip_length w l r : strip w l = Some r -> length r <= length l.
Proof. revert l. induction w as [|a w IH]; intros [|b l]; cbn; try done; [by intros [= <-]|by intros [= <-]|]. destruct (ascii_dec a b); [|done]. intros H%IH. lia. Qed.

Lemma parse_length f d : (forall l v r, parse_value f d l = Some (v, r) -> length r < length l) /\
  (forall l v r, parse_items f d l = Some (v, r) -> length r < length l) /\ (forall l v r, parse_members f d l = Some (v, r) -> length r < length l).
Proof.
  revert d. induction f as [|f IH]; intros d; [done|]. split_and!; intros l v r H.
  - cbn [parse_value] in H. destruct (skip l) as [|a l1] eqn:E; [done|]. apply skip_cons in E. destruct (is_byte 123 a).
    { destruct (negb _); [done|]. destruct (skip l1) as [|b l2] eqn:E2; [done|]. pose proof (skip_cons _ _ _ E2). destruct (is_byte 125 b); [simplify_eq; lia|].
      destruct (parse_members f (d + 1) (b :: l2)) as [[ms r']|] eqn:E3; cbn in H; [|done]. simplify_eq. apply (IH (d + 1)%N) in E3. cbn in *. lia. }
    destruct (is_byte 91 a).
    { destruct (negb _); [done|]. destruct (skip l1) as [|b l2] eqn:E2; [done|]. pose proof (skip_cons _ _ _ E2). destruct (is_byte 93 b); [simplify_eq; lia|].
      destruct (parse_items f (d + 1) (b :: l2)) as [[ms r']|] eqn:E3; cbn in H; [|done]. simplify_eq. apply (IH (d + 1)%N) in E3. cbn in *. lia. }
    destruct (is_byte 34 a); [destruct (parse_string _ l1) as [[s r']|] eqn:E2; cbn in H; [|done]; simplify_eq; apply parse_string_length in E2; lia|].
    destruct (is_byte 110 a); [destruct (strip _ l1) as [r'|] eqn:E2; cbn in H; [|done]; simplify_eq; apply strip_length in E2; lia|].
    destruct (is_byte 116 a); [destruct (strip _ l1) as [r'|] eqn:E2; cbn in H; [|done]; simplify_eq; apply strip_length in E2; lia|].
    destruct (is_byte 102 a); [destruct (strip _ l1) as [r'|] eqn:E2; cbn in H; [|done]; simplify_eq; apply strip_length in E2; lia|].
    destruct (parse_number (a :: l1)) as [[n r']|] eqn:E2; cbn [mbind option_bind] in H; [|done]. simplify_eq. apply parse_number_length in E2. cbn in *. lia.
  - cbn [parse_items] in H. destruct (parse_value f d l) as [[x l1]|] eqn:E; cbn [mbind option_bind] in H; [|done]. apply (IH d) in E. destruct (skip l1) as [|a l2] eqn:E2; [done|].
    apply skip_cons in E2. destruct (is_byte 93 a); [simplify_eq; lia|]. destruct (is_byte 44 a); [|done]. destruct (parse_items f d l2) as [[vs r']|] eqn:E3; cbn in H; [|done].
    simplify_eq. apply (IH d) in E3. lia.
  - cbn [parse_members] in H. destruct (skip l) as [|q l0] eqn:E; [done|]. apply skip_cons in E. destruct (negb _); [done|].
    destruct (parse_string _ l0) as [[k l1]|] eqn:E1; cbn [mbind option_bind] in H; [|done]. apply parse_string_length in E1. destruct (skip l1) as [|c l2] eqn:E2; [done|]. apply skip_cons in E2.
    destruct (negb _); [done|]. destruct (parse_value f d l2) as [[x l3]|] eqn:E3; cbn [mbind option_bind] in H; [|done]. apply (IH d) in E3. destruct (skip l3) as [|a l4] eqn:E4; [done|].
    apply skip_cons in E4. destruct (is_byte 125 a); [simplify_eq; lia|]. destruct (is_byte 44 a); [|done]. destruct (parse_members f d l4) as [[ms r']|] eqn:E5; cbn in H; [|done].
    simplify_eq. apply (IH d) in E5. lia.
Qed.

Definition same_value (d : N) (l : list ascii) : Prop := forall f f', 2 * length l <= f -> 2 * length l <= f' -> parse_value f d l = parse_value f' d l.
Definition same_items (d : N) (l : list ascii) : Prop := forall f f', 2 * length l < f -> 2 * length l < f' -> parse_items f d l = parse_items f' d l.
Definition same_members (d : N) (l : list ascii) : Prop := forall f f', 2 * length l < f -> 2 * length l < f' -> parse_members f d l = parse_members f' d l.

Lemma parse_value_nil f d : parse_value f d [] = None.
Proof. by destruct f. Qed.

Lemma value_fuel d l : (forall l', length l' < length l -> same_items (d + 1) l' /\ same_members (d + 1) l') -> same_value d l.
Proof.
  intros IH f f' Hf Hf'. destruct l as [|c l]; [by rewrite !parse_value_nil|]. destruct f as [|f], f' as [|f']; try (cbn in *; lia). cbn [parse_value].
  destruct (skip (c :: l)) as [|a l1] eqn:E; [done|]. apply skip_cons in E. destruct (is_byte 123 a); [|destruct (is_byte 91 a); [|done]].
  - destruct (negb _); [done|]. destruct (skip l1) as [|b l2] eqn:E2; [done|]. pose proof (skip_cons _ _ _ E2). destruct (is_byte 125 b); [done|].
    destruct (IH (b :: l2)) as [_ IH2]; [cbn in *; lia|]. rewrite (IH2 f f') by (cbn in *; lia). done.
  - destruct (negb _); [done|]. destruct (skip l1) as [|b l2] eqn:E2; [done|]. pose proof (skip_cons _ _ _ E2). destruct (is_byte 93 b); [done|].
    destruct (IH (b :: l2)) as [IH2 _]; [cbn in *; lia|]. rewrite (IH2 f f') by (cbn in *; lia). done.
Qed.

Lemma items_fuel d l : (forall l', length l' <= length l -> same_value d l') -> (forall l', length l' < length l -> same_items d l') -> same_items d l.
Proof.
  intros Hv IH f f' Hf Hf'. destruct f as [|f], f' as [|f']; try lia. cbn [parse_items]. rewrite (Hv l ltac:(lia) f f') by lia.
  destruct (parse_value f' d l) as [[v l1]|] eqn:E; cbn [mbind option_bind]; [|done]. apply (proj1 (parse_length f' d)) in E. destruct (skip l1) as [|a l2] eqn:E2; [done|].
  apply skip_cons in E2. destruct (is_byte 93 a); [done|]. destruct (is_byte 44 a); [|done]. rewrite (IH l2 ltac:(lia) f f') by lia. done.
Qed.

Lemma members_fuel d l : (forall l', length l' <= length l -> same_value d l') -> (forall l', length l' < length l -> same_members d l') -> same_members d l.
Proof.
  intros Hv IH f f' Hf Hf'. destruct f as [|f], f' as [|f']; try lia. cbn [parse_members]. destruct (skip l) as [|q l0] eqn:E; [done|]. apply skip_cons in E.
  destruct (negb _); [done|]. destruct (parse_string _ l0) as [[k l1]|] eqn:E1; cbn [mbind option_bind]; [|done]. apply parse_string_length in E1. destruct (skip l1) as [|c l2] eqn:E2; [done|].
  apply skip_cons in E2. destruct (negb _); [done|]. rewrite (Hv l2 ltac:(lia) f f') by lia. destruct (parse_value f' d l2) as [[v l3]|] eqn:E3; cbn [mbind option_bind]; [|done].
  apply (proj1 (parse_length f' d)) in E3. destruct (skip l3) as [|a l4] eqn:E4; [done|]. apply skip_cons in E4. destruct (is_byte 125 a); [done|]. destruct (is_byte 44 a); [|done].
  rewrite (IH l4 ltac:(lia) f f') by lia. done.
Qed.

Lemma parse_fuel n d l : length l <= n -> same_value d l /\ same_items d l /\ same_members d l.
Proof.
  revert d l. induction n as [|n IH]; intros d l Hl.
  all: assert (forall d l', length l' < length l -> same_value d l' /\ same_items d l' /\ same_members d l') as Hs by (intros ? ? ?; first [lia|apply IH; lia]).
  all: assert (forall l', length l' <= length l -> same_value d l') as Hv by (intros l' ?; apply value_fuel; intros l'' ?; destruct (Hs (d + 1)%N l'') as (_ & ? & ?); [lia|done]).
  all: split_and!; [by apply Hv|apply items_fuel|apply members_fuel]; try done; intros l' H; by apply (Hs d l').
Qed.

(** The fuel of [Unmarshal] is enough: more of it changes nothing. *)
Lemma Unmarshal_fuel data n : 2 * length data <= n ->
  Unmarshal data = '(v, r) ← parse_value n 0 data; match skip r with [] => Some v | _ :: _ => None end.
Proof. intros H. unfold Unmarshal. destruct (parse_fuel (length data) 0 data) as (Hv & _ & _); [done|]. by rewrite (Hv (2 * length data) n). Qed.

(** ** A text through a document

    What is read back of a text that [json.Marshal] wrote: every byte that is
    not part of valid UTF-8 has become a replacement character. *)
Definition json_text (s : string) : string := of_bytes (concat (EncodeRune <$> runes (bytes s))).

Lemma EncodeRune_clamped r : exists r', scalar r' /\ EncodeRune r = EncodeRune r'.
Proof.
  destruct (is_surrogate r || (0x10FFFF <? r)%N) eqn:E.
  - exists ReplacementChar. split; [done|]. unfold EncodeRune at 1. by rewrite E.
  - exists r. split; [|done]. apply orb_false_iff in E as [? ?]. unfold scalar. split; [lia|done].
Qed.
Lemma encoded_valid rs : utf8_valid (concat (EncodeRune <$> rs)) = true.
Proof. induction rs as [|r rs IH]; [done|]. cbn. destruct (EncodeRune_clamped r) as (r' & Hr & ->). by rewrite utf8_rune. Qed.

Lemma json_text_valid s : ValidString (json_text s) = true.
Proof. unfold ValidString, json_text. rewrite bytes_of_bytes. apply encoded_valid. Qed.
Lemma json_text_id s : ValidString s = true -> json_text s = s.
Proof. intros H. unfold json_text, runes. destruct (runes_of_valid (length (bytes s)) (bytes s)) as [-> _]; [done|done|]. apply of_bytes_bytes. Qed.
Lemma json_text_twice s : json_text (json_text s) = json_text s.
Proof. apply json_text_id, json_text_valid. Qed.
#[global] Arguments json_text : simpl never.
