(* ===== verification/CidLib.v ===== *)
(** The interface of the content identifiers (github.com/ipfs/go-cid): the
    package is a dependency, so its operations are the fields of a class and
    what the runtime relies on are the laws of a second class.  [Cid] is the
    type of defined CIDs; [cid.Undef] is [None]. *)

From stdpp Require Import base list strings.
From Stdlib Require Import Ascii.
From S2P Require Import Prelude GoText.

Class CidLib := {
  Cid : Type;
  Cid_eq_dec :: EqDecision Cid;
  (** [cid.Parse], with [None] for its error. *)
  cid_Parse : string -> option Cid;
  (** [c.String()]. *)
  cid_String : Cid -> string;
  (** [c.Prefix().Sum(data)]. *)
  cid_Sum : Cid -> list ascii -> option Cid
}.

(** Documented behaviour: the textual form of a CID parses back to it, and it
    is a non-empty multibase string without blanks. *)
Class CidLaws (L : CidLib) : Prop := {
  cid_parse_string : forall c, cid_Parse (cid_String c) = Some c;
  cid_string_trimmed : forall c, trimmed (cid_String c);
  cid_string_nonempty : forall c, cid_String c <> EmptyString
}.

Section Canonical.
Context {L : CidLib}.

Definition parse_cid (raw : string) : result Cid := or_err (cid_Parse raw) (Errorf "invalid cid").

(** [canonicalCID] of trust/store.go: parse and print. *)
Definition canonicalCID (raw : string) : result string :=
  c ← parse_cid raw; Ok (cid_String c).

Definition canonicalOptionalCID (raw : string) : result string :=
  if bool_decide (raw = EmptyString) then Ok EmptyString else canonicalCID raw.

(** A string in the form that [canonicalCID] returns. *)
Definition canonical (s : string) : Prop := exists c, s = cid_String c.

Lemma canonicalCID_canonical raw s : canonicalCID raw = Ok s -> canonical s.
Proof. unfold canonicalCID. intros H. simplify_result. by eexists. Qed.

Context {LL : CidLaws L}.

Lemma cid_String_inj c c' : cid_String c = cid_String c' -> c = c'.
Proof. intros E. apply (inj Some). by rewrite <- !cid_parse_string, E. Qed.

Lemma canonicalCID_id s : canonical s -> canonicalCID s = Ok s.
Proof.
  intros [c ->]. unfold canonicalCID, parse_cid. by rewrite cid_parse_string.
Qed.

Lemma canonical_trimmed s : canonical s -> TrimSpace s = s.
Proof. intros [c ->]. apply cid_string_trimmed. Qed.

Lemma canonical_nonempty s : canonical s -> s <> EmptyString.
Proof. intros [c ->]. apply cid_string_nonempty. Qed.

Lemma canonicalOptionalCID_id s :
  s = EmptyString \/ canonical s -> canonicalOptionalCID s = Ok s.
Proof.
  unfold canonicalOptionalCID. intros [->|H]; [done|].
  rewrite bool_decide_eq_false_2 by by apply canonical_nonempty. by apply canonicalCID_id.
Qed.

Lemma canonicalOptionalCID_ok raw s :
  canonicalOptionalCID raw = Ok s -> s = EmptyString \/ canonical s.
Proof.
  unfold canonicalOptionalCID. case_bool_decide; intros H0; simplify_result; [by left|].
  right. by eapply canonicalCID_canonical.
Qed.
End Canonical.

#[global] Arguments canonicalCID : simpl never.
#[global] Arguments canonicalOptionalCID : simpl never.

#[export] Hint Resolve canonicalCID_canonical canonicalCID_id canonical_trimmed
  canonical_nonempty canonicalOptionalCID_id canonicalOptionalCID_ok : malt.

(** ** A concrete instance

    Identifiers are printed as [bafy] followed by a unary tally; the digest
    of a body is its length.  It satisfies the laws and makes every
    definition of the development computable on closed inputs. *)
Module TallyCid.
Fixpoint tally (n : nat) : string :=
  match n with O => EmptyString | S n' => String "a" (tally n') end.

Fixpoint untally (s : string) : option nat :=
  match s with
  | EmptyString => Some 0
  | String c s' => if ascii_dec c "a" then S <$> untally s' else None
  end.

#[global, refine] Instance lib : CidLib := {
  Cid := nat;
  cid_Parse s := match strip_prefix "bafy" s with Some r => untally r | None => None end;
  cid_String n := "bafy" +:+ tally n;
  cid_Sum _ data := Some (length data)
}.
Proof. Defined.

Lemma untally_tally n : untally (tally n) = Some n.
Proof. induction n as [|n IH]; cbn; [done|]. by rewrite IH. Qed.

Lemma bytes_tally n : bytes (tally n) = replicate n "a"%char.
Proof. unfold bytes. induction n as [|n IH]; cbn; [done|]. by rewrite IH. Qed.

Lemma tally_trimmed n : trimmed ("bafy" +:+ tally n).
Proof.
  unfold trimmed, TrimSpace. change (bytes ("bafy" +:+ tally n)) with
    ("b" :: "a" :: "f" :: "y" :: bytes (tally n))%char.
  rewrite bytes_tally. unfold trim_left. rewrite drop_space_id by done.
  unfold trim_right. rewrite drop_space_id; [rewrite rev_involutive|].
  - rewrite <- bytes_tally. apply (of_bytes_bytes ("bafy" +:+ tally n)).
  - destruct n as [|n]; [done|]. rewrite replicate_S_end.
    change ("b" :: "a" :: "f" :: "y" :: replicate n "a" ++ ["a"])%char
      with (("b" :: "a" :: "f" :: "y" :: replicate n "a") ++ ["a"])%char.
    rewrite rev_app_distr. cbn [rev app].
    set (r := (((rev _ ++ _) ++ _) ++ _) ++ _). clearbody r.
    unfold starts_space, space2, space3. destruct r as [|x [|y r]]; cbn; by rewrite ?andb_false_r.
Qed.

#[global] Instance laws : CidLaws lib.
Proof.
  split.
  - intros c. cbn. apply untally_tally.
  - apply tally_trimmed.
  - done.
Qed.
End TallyCid.
