(* ===== verification/Durable.v ===== *)
(** Durable state files.  Every store of the runtime keeps its state in one
    owner-private JSON file that is read and replaced inside a critical
    section held by a cross-process lock.  This file models that discipline
    once: the temporary-file-then-rename writer with its failure points, the
    critical section, and the contract [DurableLaws] between the writer of a
    store and its loader.

    The bytes of the file are abstracted to what they decode to: [Decodes s]
    for an encoding of [s], [Garbage] for anything else.  [encoding/json]
    reads back the value it wrote, so a completed write of [s] leaves
    [Decodes s]. *)

From stdpp Require Import base list strings.
From S2P Require Import Prelude.

(** The system calls whose failure is visible to the stores. *)
Inductive syscall :=
  | Mkdir | Lock | ReadFile | SecureExisting
  | Marshal | CreateTemp | SecureTemp | WriteTemp | ShortWrite | SyncTemp | CloseTemp
  | Rename | SyncParent | SecureTarget.

#[global] Instance syscall_eq_dec : EqDecision syscall.
Proof. solve_decision. Defined.

(** Which calls succeed during one critical section. *)
Definition io := syscall -> bool.
Definition io_ok : io := fun _ => true.
Definition io_fail (c : syscall) : io := fun c' => negb (bool_decide (c = c')).

Inductive content (A : Type) :=
  | Decodes (a : A)
  | Garbage.
Arguments Decodes {A} a.
Arguments Garbage {A}.

Definition file (A : Type) := option (content A).

(** ** The atomic writer *)
Record dir (A : Type) := Dir { target : file A; temp : file A }.
Arguments Dir {A} target temp.
Arguments target {A} d.
Arguments temp {A} d.

Section AtomicWrite.
Context {A : Type}.

(** The effect of a call that succeeds: a created temporary file is empty,
    a written one holds the whole encoding, and rename replaces the target. *)
Definition effect (a : A) (c : syscall) (d : dir A) : dir A :=
  match c with
  | CreateTemp => Dir (target d) (Some Garbage)
  | WriteTemp => Dir (target d) (Some (Decodes a))
  | Rename => match temp d with Some t => Dir (Some t) None | None => d end
  | _ => d
  end.

Definition syscall_error (c : syscall) : error :=
  match c with
  | ShortWrite => ErrorsNew "short write"
  | Rename => Errorf "replace file"
  | SyncParent => Errorf "sync directory"
  | SecureTarget => Errorf "protect file"
  | _ => Errorf "file operation"
  end.

(** Run the calls in order and stop at the first failure; the states passed
    through are recorded because a crash can leave any of them behind. *)
Fixpoint run (prog : list syscall) (w : io) (a : A) (d : dir A) : result unit * list (dir A) :=
  match prog with
  | [] => (Ok (), [d])
  | c :: prog' =>
      if w c then let '(r, ds) := run prog' w a (effect a c d) in (r, d :: ds)
      else (Err (syscall_error c), [d])
  end.

Fixpoint last_dir (d : dir A) (ds : list (dir A)) : dir A :=
  match ds with [] => d | d' :: ds' => last_dir d' ds' end.

(** The whole writer: run the calls, then [defer os.Remove(tmpName)]. *)
Definition writeAtomic (prog : list syscall) (w : io) (a : A) (f : file A) : result unit * file A :=
  let '(r, ds) := run prog w a (Dir f None) in (r, target (last_dir (Dir f None) ds)).

(** The order of calls in trust/store.go, journal/store.go and
    cache/store.go. *)
Definition synced_writer : list syscall :=
  [Marshal; CreateTemp; SecureTemp; WriteTemp; ShortWrite; SyncTemp; CloseTemp;
   Rename; SyncParent; SecureTarget].

(** bucketsync/service.go protects the renamed file and ignores the result
    of the directory sync. *)
Definition best_effort_writer : list syscall :=
  [Marshal; CreateTemp; SecureTemp; WriteTemp; SyncTemp; CloseTemp; Rename; SecureTarget].

(** A writer creates a temporary file, fills it and renames it, in that order
    and once each. *)
Inductive phase := NoTemp | EmptyTemp | FullTemp | Renamed.

Fixpoint ordered (ph : phase) (prog : list syscall) : bool :=
  match prog with
  | [] => match ph with Renamed => true | _ => false end
  | c :: prog' =>
      match ph, c with
      | NoTemp, CreateTemp => ordered EmptyTemp prog'
      | EmptyTemp, WriteTemp => ordered FullTemp prog'
      | FullTemp, Rename => ordered Renamed prog'
      | _, (CreateTemp | WriteTemp | Rename) => false
      | _, _ => ordered ph prog'
      end
  end.

Definition phase_dir (ph : phase) (f : file A) (a : A) : dir A :=
  match ph with
  | NoTemp => Dir f None
  | EmptyTemp => Dir f (Some Garbage)
  | FullTemp => Dir f (Some (Decodes a))
  | Renamed => Dir (Some (Decodes a)) None
  end.

Definition old_or_new (f : file A) (a : A) (d : dir A) : Prop :=
  target d = f \/ target d = Some (Decodes a).

Lemma phase_old_or_new ph f a : old_or_new f a (phase_dir ph f a).
Proof. destruct ph; cbn; [left|left|left|right]; done. Qed.

Lemma run_nonempty prog w a d : exists d' ds, (run prog w a d).2 = d' :: ds.
Proof.
  destruct prog as [|c prog]; cbn; [eauto|]. destruct (w c); [|cbn; eauto].
  destruct (run prog w a (effect a c d)); cbn; eauto.
Qed.

Lemma last_dir_cons d d0 ds : last_dir d (d0 :: ds) = last_dir d0 ds.
Proof. done. Qed.

Lemma run_ordered prog ph w f a :
  ordered ph prog = true ->
  let '(r, ds) := run prog w a (phase_dir ph f a) in
  Forall (old_or_new f a) ds /\
  (r = Ok () -> last_dir (phase_dir ph f a) ds = phase_dir Renamed f a) /\
  (w Rename = false -> ph <> Renamed -> Forall (fun d => target d = f) ds).
Proof.
  revert ph. induction prog as [|c prog IH]; intros ph Hord; cbn.
  { destruct ph; try done. split_and!; try done. repeat constructor; by right. }
  destruct (w c) eqn:Hw.
  2: { split_and!; [apply Forall_singleton, phase_old_or_new|done|].
       intros _ Hph. apply Forall_singleton. by destruct ph. }
  assert (exists ph', ordered ph' prog = true /\
    effect a c (phase_dir ph f a) = phase_dir ph' f a /\
    (c <> Rename -> ph <> Renamed -> ph' <> Renamed)) as (ph' & Hord' & -> & Hph').
  { destruct ph, c; cbn in Hord; try done; eexists; (split_and!; [exact Hord|done|done]). }
  specialize (IH ph' Hord').
  destruct (run prog w a (phase_dir ph' f a)) as [r ds] eqn:E.
  destruct (run_nonempty prog w a (phase_dir ph' f a)) as (d' & ds' & E'). rewrite E in E'.
  cbn in E'. subst ds. destruct IH as (IH1 & IH2 & IH3). split_and!.
  - constructor; [apply phase_old_or_new|done].
  - intros Hr. rewrite !last_dir_cons. specialize (IH2 Hr). by rewrite last_dir_cons in IH2.
  - intros HR Hph. constructor; [by destruct ph|]. apply IH3; [done|].
    apply Hph'; [|done]. intros ->. congruence.
Qed.

Lemma last_dir_in d ds d0 : last_dir d (d0 :: ds) ∈ d0 :: ds.
Proof.
  revert d0. induction ds as [|d1 ds IH]; intros d0; cbn; [by left|].
  right. apply (IH d1).
Qed.

(** The outcome of the writer: the old or the new content, the new content
    when it reports success, the old content when the rename failed. *)
Lemma writeAtomic_spec prog w a f r f' :
  ordered NoTemp prog = true -> writeAtomic prog w a f = (r, f') ->
  (f' = f \/ f' = Some (Decodes a)) /\
  (r = Ok () -> f' = Some (Decodes a)) /\ (w Rename = false -> f' = f).
Proof.
  intros Hord H. unfold writeAtomic in H. pose proof (run_ordered prog NoTemp w f a Hord) as Hrun.
  destruct (run_nonempty prog w a (Dir f None)) as (d' & ds & E).
  cbn [phase_dir] in Hrun. destruct (run prog w a (Dir f None)) as [r0 ds0].
  cbn in E. subst ds0. injection H as -> <-. destruct Hrun as (H1 & H2 & H3).
  pose proof (last_dir_in (Dir f None) ds d') as Hin. cbn [last_dir] in *. split_and!.
  - rewrite Forall_forall in H1. by apply H1.
  - intros Hr. by rewrite (H2 Hr).
  - intros HR. specialize (H3 HR ltac:(done)). rewrite Forall_forall in H3. by apply H3.
Qed.

Lemma writeAtomic_ok prog a f :
  ordered NoTemp prog = true -> writeAtomic prog io_ok a f = (Ok (), Some (Decodes a)).
Proof.
  intros Hord. destruct (writeAtomic prog io_ok a f) as [r f'] eqn:E.
  destruct (writeAtomic_spec _ _ _ _ _ _ Hord E) as (_ & Hok & _).
  assert (r = Ok ()) as ->; [|by rewrite (Hok eq_refl)].
  unfold writeAtomic in E. revert E. generalize (Dir f None).
  assert (forall p d, (run p io_ok a d).1 = Ok ()) as Hrun.
  { induction p as [|c p IH]; intros d; cbn; [done|].
    specialize (IH (effect a c d)). by destruct (run p io_ok a (effect a c d)). }
  intros d E. specialize (Hrun prog d). destruct (run prog io_ok a d). cbn in Hrun. by simplify_eq.
Qed.

(** The writers of the four stores. *)
Definition store_writers : list (list syscall) := [synced_writer; best_effort_writer].

(** Whatever system call fails and wherever the process stops between two
    of them, the target of a store's writer holds its old content or the
    complete new one; when the writer returns without error it is the new one,
    and when the rename fails the old one. *)
Theorem writer_crash_atomic prog w a f r ds :
  prog ∈ store_writers -> run prog w a (Dir f None) = (r, ds) ->
  Forall (old_or_new f a) ds /\
  (r = Ok () -> (writeAtomic prog w a f).2 = Some (Decodes a)) /\
  (w Rename = false -> Forall (fun d => target d = f) ds).
Proof.
  intros Hin E. assert (ordered NoTemp prog = true) as Hord.
  { unfold store_writers in Hin. rewrite !elem_of_cons in Hin. destruct Hin as [->|[->|[]%elem_of_nil]]; done. }
  pose proof (run_ordered prog NoTemp w f a Hord) as H. cbn [phase_dir] in H. rewrite E in H.
  destruct H as (H1 & H2 & H3). split_and!; [done| |by intros Hr; apply H3].
  intros ->. unfold writeAtomic. rewrite E. cbn [snd]. by rewrite H2.
Qed.
End AtomicWrite.

Lemma writer_crash_atomic_witness :
  Forall (fun d => target d = Some (Decodes 1)) (run synced_writer (io_fail Rename) 2 (Dir (Some (Decodes 1)) None)).2.
Proof.
  destruct (writer_crash_atomic synced_writer (io_fail Rename) 2 (Some (Decodes 1))
    (run synced_writer (io_fail Rename) 2 (Dir (Some (Decodes 1)) None)).1
    (run synced_writer (io_fail Rename) 2 (Dir (Some (Decodes 1)) None)).2) as (_ & _ & H);
    [by left|by destruct (run _ _ _ _)|exact (H eq_refl)].
Defined.

(** ** Critical sections *)

(** What a store promises about its state file: a decoder that validates and
    normalises, and the well-formed states it accepts. *)
Class DurableStore (St : Type) := {
  ds_empty : St;
  ds_decode : St -> result St;
  ds_wf : St -> Prop
}.

(** The contract between writer and loader: decoding yields well-formed
    states and is the identity on them. *)
Class DurableLaws (St : Type) {S : DurableStore St} : Prop := {
  ds_empty_wf : ds_wf ds_empty;
  ds_decode_wf : forall s s', ds_decode s = Ok s' -> ds_wf s';
  ds_wf_decode : forall s, ds_wf s -> ds_decode s = Ok s
}.

Section Critical.
Context {St : Type} {S : DurableStore St} (prog : list syscall).

(** [reloadLocked]: a missing file is the empty state. *)
Definition reload (w : io) (f : file St) : result St :=
  match f with
  | None => Ok ds_empty
  | Some c =>
      _ ← fail_if (negb (w ReadFile)) (Errorf "read state file");
      _ ← fail_if (negb (w SecureExisting)) (Errorf "protect state file");
      match c with
      | Garbage => Err (Errorf "decode state file")
      | Decodes s => ds_decode s
      end
  end.

(** Lock, reload, run the operation, and write when it asks for it.  An
    operation that fails leaves the file alone; the in-memory state is
    discarded because the next section reloads. *)
Definition critical {A} (w : io) (op : St -> result (A * option St)) (f : file St)
    : result A * file St :=
  match
    (_ ← fail_if (negb (w Mkdir)) (Errorf "create state directory");
     _ ← fail_if (negb (w Lock)) (Errorf "lock state file");
     s ← reload w f; op s)
  with
  | Err e => (Err e, f)
  | Ok (a, None) => (Ok a, f)
  | Ok (a, Some s') =>
      match writeAtomic prog w s' f with
      | (Ok _, f') => (Ok a, f')
      | (Err e, f') => (Err e, f')
      end
  end.

(** [withState(write, operation)]. *)
Definition with_state {A} (w : io) (write : bool) (op : St -> result (A * St)) (f : file St)
    : result A * file St :=
  critical w (fun s => '(a, s') ← op s; Ok (a, if write then Some s' else None)) f.

(** The file loads. *)
Definition loads (f : file St) : Prop :=
  match f with
  | None => True
  | Some Garbage => False
  | Some (Decodes s) => exists s', ds_decode s = Ok s'
  end.

(** The state that a reader of the file sees. *)
Definition view (f : file St) : option St :=
  match reload io_ok f with Ok s => Some s | Err _ => None end.

Context (Hprog : ordered NoTemp prog = true).

Lemma reload_view w f s : reload w f = Ok s -> view f = Some s.
Proof.
  unfold view, reload. destruct f as [c|]; intros H; simplify_result; [|done].
  destruct c; simplify_result; cbn; by rewrite ?H.
Qed.

(** Every outcome of a critical section: the file is untouched or holds the
    state computed by the operation from the state it loaded. *)
Lemma critical_inv {A} w (op : St -> result (A * option St)) f r f' :
  critical w op f = (r, f') ->
  (f' = f /\ (forall a, r = Ok a -> exists s, view f = Some s /\ op s = Ok (a, None)) \/
   exists s a s', view f = Some s /\ op s = Ok (a, Some s') /\
     (f' = f \/ f' = Some (Decodes s')) /\ (forall a', r = Ok a' -> a' = a /\ f' = Some (Decodes s'))).
Proof.
  intros H. unfold critical in H.
  destruct (mbind _ _) as [[a [s'|]]|e] eqn:E.
  - simplify_result. right. destruct (writeAtomic prog w s' f) as [rw fw] eqn:Ew.
    destruct (writeAtomic_spec _ _ _ _ _ _ Hprog Ew) as (H1 & H2 & _).
    eexists _, a, s'. split_and!; [by eapply reload_view|done| |].
    + destruct rw; simplify_eq; done.
    + intros a' ->. destruct rw as [[]|]; simplify_eq. by split; [|apply H2].
  - simplify_result. left. split; [done|]. intros a' [= <-].
    eexists. split; [by eapply reload_view|done].
  - simplify_eq. left. by split.
Qed.

Lemma with_state_inv {A} w write (op : St -> result (A * St)) f r f' :
  with_state w write op f = (r, f') ->
  (f' = f \/ exists s a s', write = true /\ view f = Some s /\ op s = Ok (a, s') /\
     f' = Some (Decodes s')) /\
  (forall a, r = Ok a -> exists s s', view f = Some s /\ op s = Ok (a, s') /\
     f' = if write then Some (Decodes s') else f).
Proof.
  intros H%critical_inv. destruct H as [[-> Hr]|(s & a & s' & Hv & Hop & Hf & Hr)].
  - split; [by left|]. intros a Ha. destruct (Hr a Ha) as (s & Hv & Hop).
    apply bind_Ok in Hop as ([a' s'] & Hop & E). destruct write; simplify_result. eauto.
  - apply bind_Ok in Hop as ([a0 s0] & Hop & E). destruct write; simplify_result. split.
    + destruct Hf as [->| ->]; [by left|right]. eauto 10.
    + intros a' Ha'. destruct (Hr a' Ha') as [-> ->]. eauto.
Qed.

(** A writing section reports an error and leaves the file alone, or it
    installs what its operation computed. *)
Lemma with_state_cases {A} w (op : St -> result (A * St)) f r f' :
  with_state w true op f = (r, f') ->
  (f' = f /\ is_ok r = false) \/
  exists s a s', view f = Some s /\ op s = Ok (a, s') /\ f' = Some (Decodes s') /\
    (forall a', r = Ok a' -> a' = a).
Proof.
  intros [Hf Hr]%with_state_inv. destruct r as [a|e].
  - destruct (Hr a eq_refl) as (s & s' & ? & ? & ->). right. exists s, a, s'. naive_solver.
  - destruct Hf as [->|(s & a & s' & _ & ? & ? & ->)]; [by left|]. right. exists s, a, s'. naive_solver.
Qed.

(** When no system call fails, a critical section does what its operation
    does to the visible state. *)
Lemma with_state_ok {A} write (op : St -> result (A * St)) f s a s' :
  view f = Some s -> op s = Ok (a, s') ->
  with_state io_ok write op f = (Ok a, if write then Some (Decodes s') else f).
Proof.
  intros Hv Hop. unfold view in Hv. unfold with_state, critical. cbn [io_ok negb fail_if mbind result_bind].
  destruct (reload io_ok f) as [s0|]; [|done]. injection Hv as ->. cbn [mbind result_bind].
  rewrite Hop. cbn [mbind result_bind]. destruct write; [|done]. by rewrite writeAtomic_ok.
Qed.

Lemma critical_ok {A} (op : St -> result (A * option St)) f s a s' :
  view f = Some s -> op s = Ok (a, Some s') ->
  critical io_ok op f = (Ok a, Some (Decodes s')).
Proof.
  intros Hv Hop. unfold view in Hv. unfold critical. cbn [io_ok negb fail_if mbind result_bind].
  destruct (reload io_ok f) as [s0|]; [|done]. injection Hv as ->. cbn [mbind result_bind].
  rewrite Hop. by rewrite writeAtomic_ok.
Qed.

Lemma critical_read {A} (op : St -> result (A * option St)) f s a :
  view f = Some s -> op s = Ok (a, None) -> critical io_ok op f = (Ok a, f).
Proof.
  intros Hv Hop. unfold view in Hv. unfold critical. cbn [io_ok negb fail_if mbind result_bind].
  destruct (reload io_ok f) as [s0|]; [|done]. injection Hv as ->. cbn [mbind result_bind].
  by rewrite Hop.
Qed.

Lemma critical_err_ok {A} (op : St -> result (A * option St)) f s e :
  view f = Some s -> op s = Err e -> critical io_ok op f = (Err e, f).
Proof.
  intros Hv Hop. unfold view in Hv. unfold critical. cbn [io_ok negb fail_if mbind result_bind].
  destruct (reload io_ok f) as [s0|]; [|done]. injection Hv as ->. cbn [mbind result_bind].
  by rewrite Hop.
Qed.

Lemma loads_view f : loads f -> exists s, view f = Some s.
Proof.
  unfold loads, view, reload. destruct f as [[s|]|]; [|done|by eexists]. intros [s' E]. cbn. rewrite E. eauto.
Qed.

Lemma with_state_err {A} w write (op : St -> result (A * St)) f s e :
  view f = Some s -> op s = Err e ->
  exists e', with_state w write op f = (Err e', f).
Proof.
  intros Hv Hop. destruct (with_state w write op f) as [r f'] eqn:E.
  destruct (with_state_inv w write op f r f' E) as [Hf Hr].
  assert (f' = f) as -> by (destruct Hf as [->|(s0 & a & s' & _ & Hv' & Hop' & _)]; congruence).
  destruct r as [a|e']; [|eauto]. destruct (Hr a eq_refl) as (s0 & s' & Hv' & Hop' & _). congruence.
Qed.

Context {SL : DurableLaws St}.

Lemma view_wf f s : view f = Some s -> ds_wf s.
Proof.
  unfold view, reload. destruct f as [[a|]|]; cbn; intros H; simplify_eq.
  - destruct (ds_decode a) eqn:E; simplify_eq. by eapply ds_decode_wf.
  - apply ds_empty_wf.
Qed.

Lemma view_Decodes s : ds_wf s -> view (Some (Decodes s)) = Some s.
Proof. intros H. unfold view. cbn. by rewrite ds_wf_decode. Qed.

Lemma loads_Decodes s : ds_wf s -> loads (Some (Decodes s)).
Proof. intros H. exists s. by apply ds_wf_decode. Qed.

Lemma view_loads f s : view f = Some s -> loads f.
Proof.
  unfold view, reload, loads. destruct f as [[a|]|]; cbn; [|done|done].
  destruct (ds_decode a); eauto. done.
Qed.

(** A critical section whose operation preserves well-formedness never
    leaves a file that does not load, whichever system call fails. *)
Lemma critical_loads {A} w (op : St -> result (A * option St)) f :
  (forall s a s', ds_wf s -> op s = Ok (a, Some s') -> ds_wf s') ->
  loads f -> loads (critical w op f).2.
Proof.
  intros Hop Hf. destruct (critical w op f) as [r f'] eqn:E. cbn.
  apply critical_inv in E as [[-> _]|(s & a & s' & Hv & Hs & [->| ->] & _)]; [done|done|].
  apply loads_Decodes. eapply Hop; [|done]. by eapply view_wf.
Qed.

Lemma with_state_loads {A} w write (op : St -> result (A * St)) f :
  (forall s a s', ds_wf s -> op s = Ok (a, s') -> ds_wf s') ->
  loads f -> loads (with_state w write op f).2.
Proof.
  intros Hop. apply critical_loads. intros s a s' Hs H.
  apply bind_Ok in H as ([a0 s0] & H & E). destruct write; simplify_result. eauto.
Qed.
End Critical.

#[global] Arguments writeAtomic : simpl never.
#[global] Arguments with_state : simpl never.
#[global] Arguments critical : simpl never.
