(* ===== verification/Journal.v ===== *)
(** The operation journal (journal/store.go): the durable, ordered record of
    local filesystem intents that the write-back and offline replay consume.

    Data model and operations of the store.  The state of [Store] is its file;
    every exported method is one critical section on it.  Methods that read
    the clock take the times they read, and methods that draw random
    identities take the drawn bytes. *)

From stdpp Require Import base decidable gmap strings list.
From S2P Require Import Prelude GoText CidLib Durable.

Definition journalVersion : N := 1.

Definition ErrNotFound := ErrorsNew "journal operation not found".
Definition ErrIdentityReuse :=
  ErrorsNew "journal operation identity was reused with different intent".
Definition ErrInvalidStatus := ErrorsNew "invalid journal status transition".
Definition ErrRequestFrozen := ErrorsNew "pending upload request identity is frozen".

(** [type Kind string] and [type Status string]: the declared constants, and
    any other text that a decoded file may contain. *)
Inductive Kind := KindWrite | KindMkdir | KindRename | KindUnlink | KindOther (s : string).
Inductive Status :=
  | StatusLocalDirty | StatusOfflineOnly | StatusPendingUpload
  | StatusConflicted | StatusCompleted | StatusSuperseded | StatusOther (s : string).

#[global] Instance Kind_eq_dec : EqDecision Kind.
Proof. solve_decision. Defined.
#[global] Instance Status_eq_dec : EqDecision Status.
Proof. solve_decision. Defined.

Record Intent := mkIntent {
  OperationID : string;
  RetryID : string;
  DatasetID : string;
  Branch : string;
  BaseRoot : string;
  BaseRevision : N;
  IntentKind : Kind;
  Path : string;
  Destination : string;
  PayloadCID : string;
  EncryptionEpoch : N
}.

#[global] Instance Intent_eq_dec : EqDecision Intent.
Proof. solve_decision. Defined.

Record Operation := mkOperation {
  op_Intent : Intent;
  Sequence : N;
  op_Status : Status;
  ConflictID : string;
  ResultRoot : string;
  ReplacementOperationID : string;
  CreatedAt : time;
  UpdatedAt : time
}.

#[global] Instance Operation_eq_dec : EqDecision Operation.
Proof. solve_decision. Defined.

Definition op_id (op : Operation) : string := OperationID (op_Intent op).
Definition op_retry (op : Operation) : string := RetryID (op_Intent op).

Record persistedState := mkState {
  Version : N;
  NextSequence : N;
  Operations : gmap string Operation;
  UsedOperationIDs : gmap string bool;
  UsedRetryIDs : gmap string bool
}.

Definition emptyState : persistedState := mkState journalVersion 1 ∅ ∅ ∅.

(** Reading a missing key of a [map[string]bool]. *)
Definition used (m : gmap string bool) (id : string) : bool := default false (m !! id).

(** ** Validation *)
Definition validKind (k : Kind) : bool :=
  match k with KindWrite | KindMkdir | KindRename | KindUnlink => true | KindOther _ => false end.

Definition validStatus (s : Status) : bool :=
  match s with
  | StatusLocalDirty | StatusOfflineOnly | StatusPendingUpload
  | StatusConflicted | StatusCompleted | StatusSuperseded => true
  | StatusOther _ => false
  end.

Definition allowedStatusTransition (current next : Status) : bool :=
  match current with
  | StatusLocalDirty =>
      match next with StatusOfflineOnly | StatusPendingUpload | StatusConflicted => true | _ => false end
  | StatusOfflineOnly =>
      match next with StatusLocalDirty | StatusPendingUpload | StatusConflicted => true | _ => false end
  | StatusPendingUpload =>
      match next with StatusConflicted | StatusCompleted => true | _ => false end
  | StatusConflicted | StatusCompleted | StatusSuperseded => false
  | StatusOther _ => false
  end.

Definition backslash : string := byte_str [92].

Definition normalizePath (value : string) : result string :=
  _ ← fail_if (bool_decide (value = EmptyString) || negb (ValidString value) ||
               ContainsNUL value || HasPrefix value "/" || Contains value backslash)
        (Errorf "path must be a non-empty relative slash path");
  let cleaned := path_Clean value in
  _ ← fail_if (bool_decide (cleaned = ".") || bool_decide (cleaned = "..") ||
               HasPrefix cleaned "../" || negb (bool_decide (cleaned = value)))
        (Errorf "path is not canonical");
  Ok cleaned.

#[global] Arguments normalizePath : simpl never.

Section Journal.
Context {L : CidLib}.

Definition normalizeIntent (i : Intent) : result Intent :=
  let operationID := TrimSpace (OperationID i) in
  let retryID := TrimSpace (RetryID i) in
  let datasetID := TrimSpace (DatasetID i) in
  let branch := TrimSpace (Branch i) in
  let baseRoot := TrimSpace (BaseRoot i) in
  let path := TrimSpace (Path i) in
  let destination := TrimSpace (Destination i) in
  let payloadCID := TrimSpace (PayloadCID i) in
  _ ← fail_if (bool_decide (operationID = EmptyString) || bool_decide (retryID = EmptyString) ||
               bool_decide (datasetID = EmptyString) || bool_decide (branch = EmptyString))
        (Errorf "journal operation, retry, dataset, and branch identities are required");
  _ ← fail_if (ContainsNUL operationID || ContainsNUL retryID ||
               ContainsNUL datasetID || ContainsNUL branch)
        (Errorf "journal identities contain NUL");
  _ ← fail_if (negb (ValidString operationID) || negb (ValidString retryID) ||
               negb (ValidString datasetID) || negb (ValidString branch))
        (Errorf "journal identities are not valid UTF-8");
  root ← wrap_err "journal base root" (canonicalCID baseRoot);
  _ ← fail_if (negb (validKind (IntentKind i))) (Errorf "unsupported journal operation kind");
  path ← wrap_err "journal path" (normalizePath path);
  let finish destination payload :=
    mkIntent operationID retryID datasetID branch root (BaseRevision i) (IntentKind i)
      path destination payload (EncryptionEpoch i) in
  match IntentKind i with
  | KindWrite =>
      _ ← fail_if (negb (bool_decide (destination = EmptyString)))
            (Errorf "write operation contains a destination");
      payload ← wrap_err "journal payload CID" (canonicalCID payloadCID);
      Ok (finish destination payload)
  | KindRename =>
      _ ← fail_if (negb (bool_decide (payloadCID = EmptyString)))
            (Errorf "rename operation contains a payload CID");
      destination ← wrap_err "journal rename destination" (normalizePath destination);
      _ ← fail_if (bool_decide (destination = path))
            (Errorf "journal rename source and destination are equal");
      Ok (finish destination payloadCID)
  | KindMkdir | KindUnlink =>
      _ ← fail_if (negb (bool_decide (destination = EmptyString)) ||
                   negb (bool_decide (payloadCID = EmptyString)))
            (Errorf "namespace operation contains payload or destination metadata");
      Ok (finish destination payloadCID)
  | KindOther _ => Ok (finish destination payloadCID)
  end.

Definition normalizeOperation (op : Operation) : result Operation :=
  intent ← normalizeIntent (op_Intent op);
  _ ← fail_if (bool_decide (Sequence op = 0%N) || negb (validStatus (op_Status op)) ||
               time_IsZero (CreatedAt op) || time_IsZero (UpdatedAt op) ||
               time_Before (UpdatedAt op) (CreatedAt op))
        (Errorf "operation lifecycle metadata is invalid");
  let conflictID := TrimSpace (ConflictID op) in
  let resultRoot := TrimSpace (ResultRoot op) in
  let replacement := TrimSpace (ReplacementOperationID op) in
  let conflicted := bool_decide (op_Status op = StatusConflicted) in
  let superseded := bool_decide (op_Status op = StatusSuperseded) in
  _ ← fail_if (negb (ValidString conflictID) || negb (ValidString replacement))
        (Errorf "operation lifecycle identity is not valid UTF-8");
  _ ← fail_if (conflicted && bool_decide (conflictID = EmptyString))
        (Errorf "conflicted operation has no conflict identity");
  _ ← fail_if (negb conflicted && negb superseded && negb (bool_decide (conflictID = EmptyString)))
        (Errorf "non-conflicted operation contains conflict identity");
  _ ← (if superseded
       then fail_if (bool_decide (replacement = EmptyString) || bool_decide (conflictID = EmptyString))
              (Errorf "superseded operation lacks conflict or replacement identity")
       else fail_if (negb (bool_decide (replacement = EmptyString)))
              (Errorf "non-superseded operation contains replacement identity"));
  root ← (if bool_decide (op_Status op = StatusCompleted)
          then wrap_err "completed operation result root" (canonicalCID resultRoot)
          else _ ← fail_if (negb (bool_decide (resultRoot = EmptyString)))
                     (Errorf "incomplete operation contains result root");
               Ok resultRoot);
  Ok (mkOperation intent (Sequence op) (op_Status op) conflictID root replacement
        (CreatedAt op) (UpdatedAt op)).

(** The batch identities: non-empty, trimmed, without duplicates. *)
Definition normalize_id_step (ids : list string) (value : string) : result (list string) :=
  let value := TrimSpace value in
  _ ← fail_if (bool_decide (value = EmptyString) || negb (ValidString value) || ContainsNUL value)
        (Errorf "journal operation identity is empty or invalid");
  _ ← fail_if (bool_decide (value ∈ ids))
        (Errorf "journal operation batch contains duplicate identity");
  Ok (ids ++ [value]).

Definition normalizeOperationIDs (values : list string) : result (list string) :=
  _ ← fail_if (bool_decide (values = [])) (Errorf "journal operation batch is empty");
  foldM normalize_id_step [] values.

(** ** Loading the file ([reloadLocked])

    The first loop normalises every record and collects the sequence numbers
    and retry identities; a Go map is ranged over in an unspecified order,
    here the order of [map_to_list]. *)
Record scan := mkScan {
  seenSequence : list N;
  seenRetry : list string;
  normalizedOps : list (string * Operation)
}.

Definition scan_step (next : persistedState) (acc : scan) (item : string * Operation) : result scan :=
  let '(id, operation) := item in
  normalized ← wrap_err "journal operation" (normalizeOperation operation);
  _ ← fail_if (negb (bool_decide (op_id normalized = id)) ||
               bool_decide (Sequence normalized = 0%N) ||
               (NextSequence next <=? Sequence normalized)%N)
        (Errorf "journal operation has invalid persisted identity or sequence");
  _ ← fail_if (bool_decide (Sequence normalized ∈ seenSequence acc))
        (Errorf "journal contains duplicate sequence");
  _ ← fail_if (bool_decide (op_retry normalized ∈ seenRetry acc))
        (Errorf "journal contains duplicate retry identity");
  _ ← fail_if (negb (used (UsedOperationIDs next) (op_id normalized)) ||
               negb (used (UsedRetryIDs next) (op_retry normalized)))
        (Errorf "journal operation is missing durable identity tombstones");
  Ok (mkScan (Sequence normalized :: seenSequence acc) (op_retry normalized :: seenRetry acc)
        ((id, normalized) :: normalizedOps acc)).

Definition check_tombstone (text : string) (_ : unit) (item : string * bool) : result unit :=
  let '(id, used) := item in
  fail_if (negb used || bool_decide (TrimSpace id = EmptyString) ||
           negb (bool_decide (TrimSpace id = id)) || negb (ValidString id)) (Errorf text).

Definition replacement_step (ops : gmap string Operation) (inbound : gmap string string)
    (item : string * Operation) : result (gmap string string) :=
  let '(id, operation) := item in
  if negb (bool_decide (op_Status operation = StatusSuperseded)) then Ok inbound else
  let target := ReplacementOperationID operation in
  _ ← match ops !! target with
      | None => Err (Errorf "superseded journal operation has an invalid replacement")
      | Some replacement =>
          fail_if ((Sequence replacement <=? Sequence operation)%N ||
                   negb (bool_decide (DatasetID (op_Intent replacement) = DatasetID (op_Intent operation))) ||
                   negb (bool_decide (Branch (op_Intent replacement) = Branch (op_Intent operation))))
            (Errorf "superseded journal operation has an invalid replacement")
      end;
  _ ← match inbound !! target with
      | Some _ => Err (Errorf "superseded journal operations share replacement")
      | None => Ok ()
      end;
  Ok (<[target := id]> inbound).

Definition decode (next : persistedState) : result persistedState :=
  _ ← fail_if (negb (bool_decide (Version next = journalVersion)) ||
               bool_decide (NextSequence next = 0%N))
        (Errorf "unsupported operation-journal version");
  sc ← foldM (scan_step next) (mkScan [] [] []) (map_to_list (Operations next));
  _ ← foldM (check_tombstone "journal contains an invalid operation identity tombstone") ()
        (map_to_list (UsedOperationIDs next));
  _ ← foldM (check_tombstone "journal contains an invalid retry identity tombstone") ()
        (map_to_list (UsedRetryIDs next));
  let ops := list_to_map (normalizedOps sc) in
  _ ← foldM (replacement_step ops) ∅ (map_to_list ops);
  Ok (mkState (Version next) (NextSequence next) ops (UsedOperationIDs next) (UsedRetryIDs next)).

(** ** Operations on the loaded state *)
Definition set_operation (s : persistedState) (op : Operation) : persistedState :=
  mkState (Version s) (NextSequence s) (<[op_id op := op]> (Operations s))
    (UsedOperationIDs s) (UsedRetryIDs s).

Definition appendLocked (now : time) (intent : Intent) (initial : Status) (s : persistedState)
    : result (Operation * persistedState) :=
  match Operations s !! OperationID intent with
  | Some existing =>
      _ ← fail_if (negb (bool_decide (op_Intent existing = intent))) ErrIdentityReuse;
      Ok (existing, s)
  | None =>
      _ ← fail_if (used (UsedOperationIDs s) (OperationID intent) ||
                   used (UsedRetryIDs s) (RetryID intent)) ErrIdentityReuse;
      let result := mkOperation intent (NextSequence s) initial EmptyString EmptyString EmptyString
                      now now in
      Ok (result,
          mkState (Version s) (u64 (NextSequence s + 1))
            (<[OperationID intent := result]> (Operations s))
            (<[OperationID intent := true]> (UsedOperationIDs s))
            (<[RetryID intent := true]> (UsedRetryIDs s)))
  end.

(** Go records are copied and then updated field by field. *)
Definition update_status (op : Operation) (next : Status) (conflictID resultRoot : string)
    (now : time) : Operation :=
  mkOperation (op_Intent op) (Sequence op) next conflictID resultRoot
    (ReplacementOperationID op) (CreatedAt op) now.

(** The closure that [transition] runs under the lock. *)
Definition transitionLocked (now : time) (operationID : string) (next : Status)
    (conflictID resultRoot : string) (s : persistedState) : result (Operation * persistedState) :=
  operation ← or_err (Operations s !! operationID) ErrNotFound;
  if bool_decide (op_Status operation = next) then
    _ ← fail_if (negb (bool_decide (ConflictID operation = conflictID)) ||
                 negb (bool_decide (ResultRoot operation = resultRoot))) ErrIdentityReuse;
    Ok (operation, s)
  else if negb (allowedStatusTransition (op_Status operation) next) then
    if bool_decide (op_Status operation = StatusPendingUpload) && bool_decide (next = StatusOfflineOnly)
    then Err ErrRequestFrozen
    else Err (Wrapf "status transition" ErrInvalidStatus)
  else
    let operation := update_status operation next conflictID resultRoot now in
    Ok (operation,
        mkState (Version s) (NextSequence s) (<[operationID := operation]> (Operations s))
          (UsedOperationIDs s) (UsedRetryIDs s)).

(** One pass of the three batch methods: select every record or fail, then
    write back the ones that change. *)
Definition store_changed (changes : Operation -> bool) (change : Operation -> Operation)
    (s : persistedState) (op : Operation) : persistedState :=
  if changes op then set_operation s (change op) else s.

Definition batchLocked (check : Operation -> result unit) (changes : Operation -> bool)
    (change : Operation -> Operation) (ids : list string) (s : persistedState)
    : result (list Operation * persistedState) :=
  selected ← mapM (fun id =>
      operation ← or_err (Operations s !! id) ErrNotFound;
      _ ← check operation; Ok operation) ids;
  Ok ((fun op => if changes op then change op else op) <$> selected,
      foldl (store_changed changes change) s selected).

Definition freeze_check (op : Operation) : result unit :=
  match op_Status op with
  | StatusLocalDirty | StatusOfflineOnly | StatusPendingUpload => Ok ()
  | _ => Err (Wrapf "status transition" ErrInvalidStatus)
  end.
Definition freezeBatchLocked (now : time) (ids : list string) :=
  batchLocked freeze_check
    (fun op => negb (bool_decide (op_Status op = StatusPendingUpload)))
    (fun op => update_status op StatusPendingUpload (ConflictID op) (ResultRoot op) now) ids.

Definition conflict_check (conflictID : string) (op : Operation) : result unit :=
  if bool_decide (op_Status op = StatusConflicted)
  then fail_if (negb (bool_decide (ConflictID op = conflictID))) ErrIdentityReuse
  else fail_if (negb (bool_decide (op_Status op = StatusPendingUpload)))
         (Wrapf "status transition" ErrInvalidStatus).
Definition conflictBatchLocked (now : time) (conflictID : string) (ids : list string) :=
  batchLocked (conflict_check conflictID)
    (fun op => negb (bool_decide (op_Status op = StatusConflicted)))
    (fun op => update_status op StatusConflicted conflictID (ResultRoot op) now) ids.

Definition complete_check (root : string) (op : Operation) : result unit :=
  if bool_decide (op_Status op = StatusCompleted)
  then fail_if (negb (bool_decide (ResultRoot op = root))) ErrIdentityReuse
  else fail_if (negb (bool_decide (op_Status op = StatusPendingUpload)))
         (Wrapf "status transition" ErrInvalidStatus).
Definition completeBatchLocked (now : time) (root : string) (ids : list string) :=
  batchLocked (complete_check root)
    (fun op => negb (bool_decide (op_Status op = StatusCompleted)))
    (fun op => update_status op StatusCompleted (ConflictID op) root now) ids.

Definition resolveLocked (now_append now_resolve : time) (operationID : string)
    (replacement : Intent) (initial : Status) (s : persistedState)
    : result ((Operation * Operation) * persistedState) :=
  current ← or_err (Operations s !! operationID) ErrNotFound;
  if bool_decide (op_Status current = StatusSuperseded) then
    _ ← fail_if (negb (bool_decide (ReplacementOperationID current = OperationID replacement)))
          ErrIdentityReuse;
    match Operations s !! OperationID replacement with
    | Some existing =>
        _ ← fail_if (negb (bool_decide (op_Intent existing = replacement))) ErrIdentityReuse;
        Ok ((current, existing), s)
    | None => Err ErrIdentityReuse
    end
  else
  _ ← fail_if (negb (bool_decide (op_Status current = StatusConflicted)))
        (Wrapf "status transition" ErrInvalidStatus);
  _ ← fail_if (negb (bool_decide (DatasetID replacement = DatasetID (op_Intent current))) ||
               negb (bool_decide (Branch replacement = Branch (op_Intent current))))
        (Errorf "replacement operation changes dataset or branch identity");
  match Operations s !! OperationID replacement with
  | Some _ => Err ErrIdentityReuse
  | None =>
      '(next, s1) ← appendLocked now_append replacement initial s;
      let current' := mkOperation (op_Intent current) (Sequence current) StatusSuperseded
                        (ConflictID current) (ResultRoot current) (op_id next)
                        (CreatedAt current) now_resolve in
      Ok ((current', next),
          mkState (Version s1) (NextSequence s1) (<[operationID := current']> (Operations s1))
            (UsedOperationIDs s1) (UsedRetryIDs s1))
  end.

(** [PruneCompleted]: seed the selection with the completed records, then
    sweep the superseded ones until a sweep adds nothing. *)
Definition prune_visit (acc : gset string * bool) (item : string * Operation) : gset string * bool :=
  let '(selected, changed) := acc in
  let '(id, operation) := item in
  if negb (bool_decide (op_Status operation = StatusSuperseded)) then acc
  else if negb (bool_decide (ReplacementOperationID operation ∈ selected)) then acc
  else if bool_decide (id ∈ selected) then acc
  else ({[id]} ∪ selected, true).

Definition prune_sweep (ops : gmap string Operation) (selected : gset string) : gset string * bool :=
  foldl prune_visit (selected, false) (map_to_list ops).

Fixpoint prune_loop (fuel : nat) (ops : gmap string Operation) (selected : gset string)
    : option (gset string) :=
  match fuel with
  | O => None
  | S fuel' =>
      let '(selected', changed) := prune_sweep ops selected in
      if changed then prune_loop fuel' ops selected' else Some selected'
  end.

Definition completed_ids (ops : gmap string Operation) : gset string :=
  dom (filter (fun kv => op_Status kv.2 = StatusCompleted) ops).

(** Deleting the selected keys one by one. *)
Definition delete_all (selected : gset string) (ops : gmap string Operation) : gmap string Operation :=
  foldr delete ops (elements selected).

(** A sweep that changes the selection adds a record of the journal, so one
    sweep more than there are records is enough ([prune_loop_terminates]). *)
Definition pruneLocked (s : persistedState) : result (nat * persistedState) :=
  match prune_loop (S (size (Operations s))) (Operations s) (completed_ids (Operations s)) with
  | None => Err (Errorf "out of fuel")
  | Some selected =>
      Ok (size selected,
          mkState (Version s) (NextSequence s) (delete_all selected (Operations s))
            (UsedOperationIDs s) (UsedRetryIDs s))
  end.

Definition by_sequence : list Operation -> list Operation := sort_by_N Sequence.

Definition listLocked (include : Status -> bool) (s : persistedState) : list Operation :=
  by_sequence (List.filter (fun op => include (op_Status op)) (map_to_list (Operations s)).*2).

(** ** The store: what [Durable] needs, and the exported methods *)

(** The states that the methods maintain and the loader accepts. *)
Record wf (s : persistedState) : Prop := {
  wf_version : Version s = journalVersion;
  wf_next : NextSequence s <> 0%N;
  wf_op : forall id op, Operations s !! id = Some op ->
    normalizeOperation op = Ok op /\ op_id op = id /\ (Sequence op < NextSequence s)%N /\
    used (UsedOperationIDs s) id = true /\ used (UsedRetryIDs s) (op_retry op) = true;
  wf_sequence : forall id1 id2 op1 op2,
    Operations s !! id1 = Some op1 -> Operations s !! id2 = Some op2 ->
    Sequence op1 = Sequence op2 -> id1 = id2;
  wf_retry : forall id1 id2 op1 op2,
    Operations s !! id1 = Some op1 -> Operations s !! id2 = Some op2 ->
    op_retry op1 = op_retry op2 -> id1 = id2;
  wf_used_op : forall id b, UsedOperationIDs s !! id = Some b ->
    b = true /\ id <> EmptyString /\ TrimSpace id = id /\ ValidString id = true;
  wf_used_retry : forall id b, UsedRetryIDs s !! id = Some b ->
    b = true /\ id <> EmptyString /\ TrimSpace id = id /\ ValidString id = true;
  wf_replacement : forall id op, Operations s !! id = Some op -> op_Status op = StatusSuperseded ->
    exists rep, Operations s !! ReplacementOperationID op = Some rep /\
      (Sequence op < Sequence rep)%N /\
      DatasetID (op_Intent rep) = DatasetID (op_Intent op) /\
      Branch (op_Intent rep) = Branch (op_Intent op);
  wf_inbound : forall id1 id2 op1 op2,
    Operations s !! id1 = Some op1 -> Operations s !! id2 = Some op2 ->
    op_Status op1 = StatusSuperseded -> op_Status op2 = StatusSuperseded ->
    ReplacementOperationID op1 = ReplacementOperationID op2 -> id1 = id2
}.

#[export] Instance journal_store : DurableStore persistedState :=
  {| ds_empty := emptyState; ds_decode := decode; ds_wf := wf |}.

Definition journal_file := file persistedState.

(** [withState] and the writer [writeLocked]. *)
Definition withState {A} (w : io) (write : bool) (op : persistedState -> result (A * persistedState))
    (f : journal_file) : result A * journal_file :=
  with_state synced_writer w write op f.

(** A method that first validates its arguments. *)
Definition method {A B} (args : result A) (f : journal_file)
    (body : A -> result B * journal_file) : result B * journal_file :=
  match args with Err e => (Err e, f) | Ok a => body a end.

Definition Open (w : io) (filePath : string) (f : journal_file) : result unit * journal_file :=
  method (fail_if (bool_decide (TrimSpace filePath = EmptyString))
            (Errorf "operation-journal path is empty")) f (fun _ =>
  withState w false (fun s => Ok ((), s)) f).

(** [randomID]: the prefix and the encoded random bytes, when the system
    source delivers them. *)
Definition randomID (random : option string) (prefix : string) : result string :=
  bytes ← or_err random (Errorf "read random bytes"); Ok (prefix +:+ bytes).

Definition NewIntent (random1 random2 : option string) (datasetID branch baseRoot : string)
    (baseRevision : N) (kind : Kind) (operationPath destination payloadCID : string)
    (encryptionEpoch : N) : result Intent :=
  operationID ← randomID random1 "op_";
  retryID ← randomID random2 "retry_";
  normalizeIntent (mkIntent operationID retryID datasetID branch baseRoot baseRevision kind
                     operationPath destination payloadCID encryptionEpoch).

Definition initial_check (initial : Status) (text : string) : result unit :=
  fail_if (negb (bool_decide (initial = StatusLocalDirty)) &&
           negb (bool_decide (initial = StatusOfflineOnly))) (Errorf text).

Definition Append (w : io) (now : time) (intent : Intent) (initial : Status) (f : journal_file)
    : result Operation * journal_file :=
  method (intent ← normalizeIntent intent;
          _ ← initial_check initial "new journal operation must be local_dirty or offline_only";
          Ok intent) f (fun intent =>
  withState w true (appendLocked now intent initial) f).

Definition transition (w : io) (now : time) (operationID : string) (next : Status)
    (conflictID resultRoot : string) (f : journal_file) : result Operation * journal_file :=
  let operationID := TrimSpace operationID in
  method (fail_if (bool_decide (operationID = EmptyString) || negb (ValidString operationID))
            (Errorf "journal operation identity is empty")) f (fun _ =>
  withState w true (transitionLocked now operationID next conflictID resultRoot) f).

Definition FreezeForUpload (w : io) (now : time) (operationID : string) (f : journal_file) :=
  transition w now operationID StatusPendingUpload EmptyString EmptyString f.

Definition MarkOffline (w : io) (now : time) (operationID : string) (f : journal_file) :=
  transition w now operationID StatusOfflineOnly EmptyString EmptyString f.

Definition conflict_identity (conflictID : string) : result string :=
  let conflictID := TrimSpace conflictID in
  _ ← fail_if (bool_decide (conflictID = EmptyString) || negb (ValidString conflictID))
        (Errorf "journal conflict identity is empty or not valid UTF-8");
  Ok conflictID.

Definition MarkConflicted (w : io) (now : time) (operationID conflictID : string) (f : journal_file) :=
  method (conflict_identity conflictID) f (fun conflictID =>
  transition w now operationID StatusConflicted conflictID EmptyString f).

Definition Complete (w : io) (now : time) (operationID resultRoot : string) (f : journal_file) :=
  method (wrap_err "journal result root" (canonicalCID (TrimSpace resultRoot))) f (fun root =>
  transition w now operationID StatusCompleted EmptyString root f).

(** The batch methods return the selected records in replay order. *)
Definition sorted_result (r : result (list Operation) * journal_file)
    : result (list Operation) * journal_file := (by_sequence <$> r.1, r.2).

Definition FreezeBatchForUpload (w : io) (now : time) (operationIDs : list string) (f : journal_file) :=
  method (normalizeOperationIDs operationIDs) f (fun ids =>
  sorted_result (withState w true (freezeBatchLocked now ids) f)).

Definition MarkBatchConflicted (w : io) (now : time) (operationIDs : list string)
    (conflictID : string) (f : journal_file) :=
  method (ids ← normalizeOperationIDs operationIDs;
          conflictID ← conflict_identity conflictID; Ok (ids, conflictID)) f (fun '(ids, conflictID) =>
  sorted_result (withState w true (conflictBatchLocked now conflictID ids) f)).

Definition CompleteBatch (w : io) (now : time) (operationIDs : list string) (resultRoot : string)
    (f : journal_file) :=
  method (ids ← normalizeOperationIDs operationIDs;
          root ← wrap_err "journal result root" (canonicalCID (TrimSpace resultRoot));
          Ok (ids, root)) f (fun '(ids, root) =>
  sorted_result (withState w true (completeBatchLocked now root ids) f)).

Definition ResolveConflict (w : io) (now_append now_resolve : time) (operationID : string)
    (replacement : Intent) (initial : Status) (f : journal_file) :=
  let operationID := TrimSpace operationID in
  method (_ ← fail_if (bool_decide (operationID = EmptyString) || negb (ValidString operationID))
                (Errorf "journal operation identity is empty");
          replacement ← normalizeIntent replacement;
          _ ← initial_check initial "replacement operation must be local_dirty or offline_only";
          _ ← fail_if (bool_decide (OperationID replacement = operationID)) ErrIdentityReuse;
          Ok replacement) f (fun replacement =>
  withState w true (resolveLocked now_append now_resolve operationID replacement initial) f).

Definition Get (w : io) (operationID : string) (f : journal_file) : result Operation * journal_file :=
  let operationID := TrimSpace operationID in
  method (fail_if (negb (ValidString operationID))
            (Errorf "journal operation identity is not valid UTF-8")) f (fun _ =>
  withState w false (fun s => op ← or_err (Operations s !! operationID) ErrNotFound; Ok (op, s)) f).

Definition list_ops (w : io) (include : Status -> bool) (f : journal_file)
    : result (list Operation) * journal_file :=
  withState w false (fun s => Ok (listLocked include s, s)) f.

Definition replayable_status (status : Status) : bool :=
  bool_decide (status = StatusLocalDirty) || bool_decide (status = StatusOfflineOnly) ||
  bool_decide (status = StatusPendingUpload).
Definition Replayable (w : io) (f : journal_file) := list_ops w replayable_status f.

Definition unfinished_status (status : Status) : bool :=
  negb (bool_decide (status = StatusCompleted)) && negb (bool_decide (status = StatusSuperseded)).
Definition Unfinished (w : io) (f : journal_file) := list_ops w unfinished_status f.

Definition List_all (w : io) (f : journal_file) := list_ops w (fun _ => true) f.

Definition PruneCompleted (w : io) (f : journal_file) : result nat * journal_file :=
  withState w true pruneLocked f.
End Journal.

#[global] Arguments normalizeIntent : simpl never.
#[global] Arguments normalizeOperation : simpl never.
