(* ===== verification/JournalFacts.v ===== *)
(** The journal's loader and its invariant.  Normalisation is idempotent, the
    loader accepts exactly the well-formed states, and every operation of
    [Journal] preserves well-formedness; so the store satisfies the contract
    [DurableLaws] of its state file. *)

From stdpp Require Import base decidable gmap strings list sorting.
From S2P Require Import Prelude GoText CidLib Durable Journal.

Section Normalize.
Context {L : CidLib} {LL : CidLaws L}.

Lemma normalizePath_id p q : normalizePath p = Ok q -> q = p /\ normalizePath q = Ok q.
Proof.
  unfold normalizePath. intros H. simplify_result.
  assert (path_Clean p = p) as E.
  { apply orb_false_iff in Hr0 as [_ Hr0]. by apply negb_false_iff, bool_decide_eq_true in Hr0. }
  rewrite !E in *. split; [done|]. rewrite Hr. cbn. by rewrite Hr0.
Qed.

(** Rewrite a normalised intent back through the normaliser. *)
Local Ltac renormalize :=
  unfold normalizeIntent; cbn;
  rewrite ?TrimSpace_idemp;
  repeat match goal with
  | H : _ = false |- _ => rewrite H; cbn
  | H : canonicalCID _ = Ok ?s |- context [TrimSpace ?s] =>
      rewrite (canonical_trimmed s) by eauto with malt
  | H : canonicalCID _ = Ok ?s |- context [canonicalCID ?s] =>
      rewrite (canonicalCID_id s) by eauto with malt; cbn
  | H : normalizePath ?p = Ok ?p |- _ => rewrite H; cbn
  end.

Lemma normalizeIntent_idemp i i' : normalizeIntent i = Ok i' -> normalizeIntent i' = Ok i'.
Proof.
  unfold normalizeIntent at 1. intros H. simplify_result.
  match goal with H : normalizePath _ = Ok _ |- _ => apply normalizePath_id in H as [-> Hp] end.
  destruct (IntentKind i) eqn:Ek; simplify_result.
  - renormalize. done.
  - renormalize. done.
  - match goal with H : normalizePath _ = Ok _ |- _ => apply normalizePath_id in H as [-> Hd] end.
    renormalize. done.
  - renormalize. done.
  - done.
Qed.

Lemma normalizeIntent_id_nonempty i i' :
  normalizeIntent i = Ok i' ->
  OperationID i' <> EmptyString /\ TrimSpace (OperationID i') = OperationID i' /\
  ValidString (OperationID i') = true /\
  RetryID i' <> EmptyString /\ TrimSpace (RetryID i') = RetryID i' /\
  ValidString (RetryID i') = true.
Proof.
  unfold normalizeIntent. intros H. simplify_result.
  simplify_guards.
  destruct (IntentKind i); simplify_result; cbn; rewrite !TrimSpace_idemp; done.
Qed.

(** What the normaliser demands of a stored record, by status. *)
Definition ident (s : string) : Prop :=
  s <> EmptyString /\ TrimSpace s = s /\ ValidString s = true.

Definition lifecycle (st : Status) (conflict root replacement : string) : Prop :=
  match st with
  | StatusLocalDirty | StatusOfflineOnly | StatusPendingUpload =>
      conflict = EmptyString /\ root = EmptyString /\ replacement = EmptyString
  | StatusConflicted => ident conflict /\ root = EmptyString /\ replacement = EmptyString
  | StatusCompleted => conflict = EmptyString /\ canonical root /\ replacement = EmptyString
  | StatusSuperseded => ident conflict /\ root = EmptyString /\ ident replacement
  | StatusOther _ => False
  end.

Record op_ok (op : Operation) : Prop := {
  ok_intent : normalizeIntent (op_Intent op) = Ok (op_Intent op);
  ok_seq : Sequence op <> 0%N;
  ok_created : CreatedAt op <> 0%Z;
  ok_updated : UpdatedAt op <> 0%Z;
  ok_order : (CreatedAt op <= UpdatedAt op)%Z;
  ok_life : lifecycle (op_Status op) (ConflictID op) (ResultRoot op) (ReplacementOperationID op)
}.

Lemma TrimSpace_empty : TrimSpace EmptyString = EmptyString.
Proof. reflexivity. Qed.

Lemma op_ok_normalize op : op_ok op -> normalizeOperation op = Ok op.
Proof.
  destruct op as [i n st c r rep ct ut]. intros [Hi Hn Hc Hu Ho Hl]; cbn in *.
  unfold normalizeOperation; cbn. rewrite Hi; cbn.
  rewrite (bool_decide_eq_false_2 (n = 0%N)) by done.
  unfold time_IsZero, time_Before.
  rewrite (bool_decide_eq_false_2 (ct = 0%Z)), (bool_decide_eq_false_2 (ut = 0%Z)) by done.
  rewrite (proj2 (Z.ltb_ge ut ct)) by lia. unfold lifecycle, ident in Hl.
  destruct st; try done; destruct_and?; simplify_eq; cbn; rewrite ?TrimSpace_empty; cbn;
    repeat match goal with
    | H : TrimSpace _ = _ |- _ => rewrite H; cbn
    | H : ValidString _ = true |- _ => rewrite H; cbn
    | H : ?x <> EmptyString |- _ => rewrite !(bool_decide_eq_false_2 (x = EmptyString)) by done; clear H; cbn
    | H : canonical ?x |- _ =>
        rewrite (canonical_trimmed x), (canonicalCID_id x) by done; clear H; cbn
    end; done.
Qed.

Lemma normalizeOperation_ok op op' : normalizeOperation op = Ok op' -> op_ok op'.
Proof.
  unfold normalizeOperation. intros H. simplify_result.
  unfold time_IsZero, time_Before in *. simplify_guards.
  split; cbn; [by eapply normalizeIntent_idemp|done|done|done|done|].
  destruct (op_Status op); cbn in *; simpl_decide; simplify_result; unfold ident;
    rewrite ?TrimSpace_idemp; simplify_guards; try done; split_and?; eauto with malt.
Qed.

Lemma normalizeOperation_idemp op op' :
  normalizeOperation op = Ok op' -> normalizeOperation op' = Ok op'.
Proof. intros H. by eapply op_ok_normalize, normalizeOperation_ok. Qed.

Lemma normalize_op_ok op : normalizeOperation op = Ok op <-> op_ok op.
Proof. split; eauto using normalizeOperation_ok, op_ok_normalize. Qed.
End Normalize.

(** ** The loader *)
Section Loader.
Context {L : CidLib} {LL : CidLaws L}.

Definition item_ok (next : persistedState) (item : string * Operation) : Prop :=
  op_ok item.2 /\ op_id item.2 = item.1 /\ (Sequence item.2 < NextSequence next)%N /\
  used (UsedOperationIDs next) item.1 = true /\
  used (UsedRetryIDs next) (op_retry item.2) = true.

Definition item_seq (item : string * Operation) : N := Sequence item.2.
Definition item_retry (item : string * Operation) : string := op_retry item.2.

Definition scan_inv (next : persistedState) (acc : scan) : Prop :=
  seenSequence acc = item_seq <$> normalizedOps acc /\
  seenRetry acc = item_retry <$> normalizedOps acc /\
  NoDup (seenSequence acc) /\ NoDup (seenRetry acc) /\
  Forall (item_ok next) (normalizedOps acc).

Lemma scan_step_inv next acc item acc' :
  scan_inv next acc -> scan_step next acc item = Ok acc' ->
  scan_inv next acc' /\ (normalizedOps acc').*1 = item.1 :: (normalizedOps acc).*1.
Proof.
  intros (H1 & H2 & H3 & H4 & H5) H. destruct item as [id op]. unfold scan_step in H.
  simplify_result. simplify_guards. split; [|done].
  split_and!; cbn; [by rewrite H1|by rewrite H2|by constructor|by constructor|].
  constructor; [|done]. split_and!; cbn; eauto using normalizeOperation_ok. congruence.
Qed.

Lemma scan_loop_inv next l acc acc' :
  scan_inv next acc -> foldM (scan_step next) acc l = Ok acc' ->
  scan_inv next acc' /\ (normalizedOps acc').*1 = reverse l.*1 ++ (normalizedOps acc).*1.
Proof.
  revert acc. induction l as [|item l IH]; intros acc Hinv H; cbn in H; simplify_result; [done|].
  apply scan_step_inv in Hr as [Hinv' Hk]; [|done].
  destruct (IH _ Hinv' H) as [Hfin Hk']. split; [done|].
  by rewrite Hk', Hk, fmap_cons, reverse_cons, <- app_assoc.
Qed.

Lemma scan_step_complete next acc item :
  item_ok next item -> item_seq item ∉ seenSequence acc -> item_retry item ∉ seenRetry acc ->
  scan_step next acc item =
    Ok (mkScan (item_seq item :: seenSequence acc) (item_retry item :: seenRetry acc)
          (item :: normalizedOps acc)).
Proof.
  destruct item as [id op]. intros (Hok & Hid & Hseq & Hu & Hr) Hns Hnr. cbn in *.
  rewrite (op_ok_normalize op) by done. cbn. rewrite Hid, Hu, Hr.
  destruct Hok as [_ Hs _ _ _ _]. unfold item_seq, item_retry in *. cbn in *.
  rewrite (bool_decide_eq_false_2 (Sequence op = 0%N)) by done.
  rewrite (proj2 (N.leb_gt _ _) Hseq).
  rewrite !(bool_decide_eq_false_2 (_ ∈ _)) by done. by rewrite bool_decide_eq_true_2.
Qed.

Lemma scan_loop_complete next l acc :
  Forall (item_ok next) l ->
  NoDup ((item_seq <$> l) ++ seenSequence acc) -> NoDup ((item_retry <$> l) ++ seenRetry acc) ->
  exists acc', foldM (scan_step next) acc l = Ok acc' /\
    normalizedOps acc' = reverse l ++ normalizedOps acc.
Proof.
  intros Hl. revert acc. induction Hl as [|item l Hi Hl IH]; intros acc Hs Hr; cbn [foldM]; [by eexists|].
  cbn in Hs, Hr. apply NoDup_cons in Hs as [Hs1 Hs], Hr as [Hr1 Hr].
  rewrite scan_step_complete; [|done|set_solver|set_solver]. cbn [mbind result_bind].
  destruct (IH (mkScan (item_seq item :: seenSequence acc) (item_retry item :: seenRetry acc)
                 (item :: normalizedOps acc))) as (acc' & -> & E); cbn [seenSequence seenRetry normalizedOps] in *.
  - rewrite <- Permutation_middle. by constructor.
  - rewrite <- Permutation_middle. by constructor.
  - eexists. split; [done|]. by rewrite E, reverse_cons, <- app_assoc.
Qed.

Definition tombstone_ok (item : string * bool) : Prop :=
  item.2 = true /\ item.1 <> EmptyString /\ TrimSpace item.1 = item.1 /\ ValidString item.1 = true.

Lemma check_tombstone_ok t item : check_tombstone t () item = Ok () <-> tombstone_ok item.
Proof.
  destruct item as [id b]. unfold check_tombstone, tombstone_ok. cbn. rewrite fail_if_Ok.
  rewrite !orb_false_iff, !negb_false_iff, bool_decide_eq_false, bool_decide_eq_true.
  split; intros; destruct_and!; split_and!; congruence.
Qed.

Lemma check_tombstones_ok t (m : gmap string bool) :
  foldM (check_tombstone t) () (map_to_list m) = Ok () <->
  forall id b, m !! id = Some b -> tombstone_ok (id, b).
Proof.
  rewrite (foldM_check (check_tombstone t ())), Forall_forall.
  setoid_rewrite check_tombstone_ok. split.
  - intros H id b E. apply H. by apply elem_of_map_to_list.
  - intros H [id b] E. apply H. by apply elem_of_map_to_list.
Qed.

(** The replacement graph: every superseded record points to a later record
    of the same dataset and branch, and no two share a target. *)
Definition replacement_ok (ops : gmap string Operation) (op : Operation) : Prop :=
  exists rep, ops !! ReplacementOperationID op = Some rep /\ (Sequence op < Sequence rep)%N /\
    DatasetID (op_Intent rep) = DatasetID (op_Intent op) /\
    Branch (op_Intent rep) = Branch (op_Intent op).

Definition superseded_targets (l : list (string * Operation)) : list string :=
  ReplacementOperationID ∘ snd <$> filter (fun it => op_Status it.2 = StatusSuperseded) l.

Lemma replacement_loop_spec ops l inbound :
  (exists inbound', foldM (replacement_step ops) inbound l = Ok inbound') <->
  (Forall (fun it => op_Status it.2 = StatusSuperseded -> replacement_ok ops it.2) l /\
   NoDup (superseded_targets l) /\ Forall (fun t => inbound !! t = None) (superseded_targets l)).
Proof.
  revert inbound. induction l as [|[id op] l IH]; intros inbound; cbn [foldM].
  { split; [|by eauto]. intros _. split_and!; constructor. }
  rewrite Forall_cons. unfold superseded_targets in *. rewrite filter_cons. cbn [snd].
  destruct (decide (op_Status op = StatusSuperseded)) as [Hs|Hs]; cbn [replacement_step].
  2: { rewrite bool_decide_eq_false_2 by done. cbn. rewrite IH. naive_solver. }
  rewrite bool_decide_eq_true_2 by done. rewrite fmap_cons, NoDup_cons, Forall_cons. cbn. split.
  - intros [inbound' H]. simplify_result.
    destruct (ops !! ReplacementOperationID op) as [rep|] eqn:Erep; simplify_result.
    destruct (inbound !! ReplacementOperationID op) eqn:Einb; simplify_result. simplify_guards.
    destruct (proj1 (IH _) (ex_intro _ _ H)) as (G1 & G2 & G3).
    rewrite Forall_forall in G3. split_and!; try done.
    + intros _. exists rep. by split_and!.
    + intros Hin. specialize (G3 _ Hin). by rewrite lookup_insert_eq in G3.
    + apply Forall_forall. intros t Ht. specialize (G3 t Ht). rewrite lookup_insert in G3.
      by case_decide.
  - intros [[Hok Hl] [[Hnin Hnd] [Hnone Hall]]].
    destruct (Hok Hs) as (rep & Erep & Hseq & Hds & Hbr). rewrite Erep.
    rewrite (proj2 (N.leb_gt _ _) Hseq), !bool_decide_eq_true_2 by done. cbn. rewrite Hnone. cbn.
    apply IH. split_and!; try done. rewrite Forall_forall in *. intros t Ht.
    rewrite lookup_insert_ne; [auto|]. intros <-. by apply Hnin.
Qed.

Lemma superseded_targets_NoDup (m : gmap string Operation) :
  NoDup (superseded_targets (map_to_list m)) <->
  forall id1 id2 op1 op2, m !! id1 = Some op1 -> m !! id2 = Some op2 ->
    op_Status op1 = StatusSuperseded -> op_Status op2 = StatusSuperseded ->
    ReplacementOperationID op1 = ReplacementOperationID op2 -> id1 = id2.
Proof.
  unfold superseded_targets. split.
  - intros Hnd id1 id2 op1 op2 H1 H2 Hs1 Hs2 E.
    assert ((id1, op1) = (id2, op2)) as [= -> _]; [|done].
    eapply NoDup_key_inj; [exact Hnd| | |done];
      apply list_elem_of_filter; split; try done; by apply elem_of_map_to_list.
  - intros H. apply NoDup_fmap_2_strong; [|apply NoDup_filter, NoDup_map_to_list].
    intros [id1 op1] [id2 op2] [Hs1 H1]%list_elem_of_filter [Hs2 H2]%list_elem_of_filter E.
    apply elem_of_map_to_list in H1, H2. cbn in *.
    assert (id1 = id2) as -> by eauto. congruence.
Qed.

Lemma replacements_loop_map (m : gmap string Operation) :
  (exists inbound, foldM (replacement_step m) ∅ (map_to_list m) = Ok inbound) <->
  (forall id op, m !! id = Some op -> op_Status op = StatusSuperseded -> replacement_ok m op) /\
  NoDup (superseded_targets (map_to_list m)).
Proof.
  rewrite replacement_loop_spec, Forall_forall. split.
  - intros (H1 & H2 & _). split; [|done]. intros id op H. by apply (H1 (id, op)), elem_of_map_to_list.
  - intros [H1 H2]. split_and!; [|done|].
    + intros [id op] H%elem_of_map_to_list. by apply (H1 id op).
    + apply Forall_forall. intros. apply lookup_empty.
Qed.

Lemma journal_decode_wf s s' : decode s = Ok s' -> wf s'.
Proof.
  unfold decode. intros H. simplify_result. simplify_guards.
  destruct (scan_loop_inv s (map_to_list (Operations s)) (mkScan [] [] []) r0) as [(E1 & E2 & N1 & N2 & Hok) Hk];
    [by repeat constructor|done|].
  cbn in Hk. rewrite app_nil_r in Hk.
  assert (NoDup (normalizedOps r0).*1) as Hkeys.
  { rewrite Hk, reverse_Permutation. apply NoDup_fst_map_to_list. }
  rewrite E1 in N1. rewrite E2 in N2. rewrite Forall_forall in Hok.
  assert (forall id op, (list_to_map (normalizedOps r0) : gmap string Operation) !! id = Some op <->
            (id, op) ∈ normalizedOps r0) as Hlook by (intros; by rewrite elem_of_list_to_map).
  destruct (proj1 (replacements_loop_map _) (ex_intro _ _ Hr3)) as [Hrep Hinb].
  destruct r1, r2. rewrite check_tombstones_ok in Hr1, Hr2.
  split; cbn; try done.
  - intros id op Hin%Hlook. destruct (Hok _ Hin) as (? & ? & ? & ? & ?).
    split_and!; try done. by apply op_ok_normalize.
  - intros id1 id2 op1 op2 H1%Hlook H2%Hlook E.
    by apply (f_equal fst (NoDup_key_inj item_seq _ _ _ N1 H1 H2 E)).
  - intros id1 id2 op1 op2 H1%Hlook H2%Hlook E.
    by apply (f_equal fst (NoDup_key_inj item_retry _ _ _ N2 H1 H2 E)).
  - by apply superseded_targets_NoDup.
Qed.

Lemma wf_item_ok s id op : wf s -> Operations s !! id = Some op -> item_ok s (id, op).
Proof.
  intros Hwf H. destruct (wf_op s Hwf id op H) as (Hn & Hid & Hs & Hu & Hr).
  split_and!; try done. by eapply normalizeOperation_ok.
Qed.

Lemma list_to_map_reverse (m : gmap string Operation) :
  list_to_map (reverse (map_to_list m)) = m.
Proof.
  rewrite (list_to_map_proper _ (map_to_list m)); [apply list_to_map_to_list| |].
  - rewrite fmap_reverse, reverse_Permutation. apply NoDup_fst_map_to_list.
  - by rewrite reverse_Permutation.
Qed.

Lemma journal_wf_decode s : wf s -> decode s = Ok s.
Proof.
  intros Hwf. pose proof Hwf as [Hv Hn Hop Hseq Hretry Huo Hur Hrep Hinb]. unfold decode.
  rewrite Hv. rewrite (bool_decide_eq_false_2 (NextSequence s = 0%N)) by done. cbn.
  destruct (scan_loop_complete s (map_to_list (Operations s)) (mkScan [] [] []))
    as (acc & -> & Hops); cbn [seenSequence seenRetry normalizedOps] in *.
  - apply Forall_forall. intros [id op] H%elem_of_map_to_list. by apply wf_item_ok.
  - rewrite app_nil_r. apply NoDup_fmap_2_strong; [|apply NoDup_map_to_list].
    intros [id1 op1] [id2 op2] H1%elem_of_map_to_list H2%elem_of_map_to_list E.
    assert (id1 = id2) as -> by eauto. congruence.
  - rewrite app_nil_r. apply NoDup_fmap_2_strong; [|apply NoDup_map_to_list].
    intros [id1 op1] [id2 op2] H1%elem_of_map_to_list H2%elem_of_map_to_list E.
    assert (id1 = id2) as -> by eauto. congruence.
  - cbn [mbind result_bind]. rewrite !(proj2 (check_tombstones_ok _ _)) by done.
    cbn [mbind result_bind]. rewrite Hops, app_nil_r, list_to_map_reverse.
    destruct (proj2 (replacements_loop_map (Operations s))) as [inb ->].
    + split; [exact Hrep|]. by apply superseded_targets_NoDup.
    + destruct s. cbn in *. by rewrite Hv.
Qed.

(** The loader only accepts records whose update does not precede their
    creation. *)
Lemma decode_keeps_order s s' id op :
  decode s = Ok s' -> Operations s !! id = Some op -> (CreatedAt op <= UpdatedAt op)%Z.
Proof.
  unfold decode. intros H Hop%elem_of_map_to_list. simplify_result.
  destruct (foldM_visits _ _ _ _ _ Hr0 Hop) as (a1 & a2 & Hs). unfold scan_step in Hs. simplify_result.
  match goal with H : normalizeOperation _ = Ok _ |- _ => unfold normalizeOperation in H end.
  simplify_result. unfold time_Before in *. simplify_guards. done.
Qed.

Lemma journal_wf_empty : wf emptyState.
Proof. split; cbn; try done; intros; by simplify_map_eq. Qed.

#[export] Instance journal_laws : DurableLaws persistedState.
Proof. split; [apply journal_wf_empty|apply journal_decode_wf|apply journal_wf_decode]. Qed.
End Loader.
