(* ===== verification/JournalOps.v ===== *)
(** The journal's operations: each preserves the invariant [wf], moves every
    record along the status graph, and never lets an identity come back.
    Pruning terminates and removes exactly the finished chains. *)

From stdpp Require Import base decidable gmap strings list sorting relations.
From S2P Require Import Prelude GoText CidLib Durable Journal JournalFacts.

Section Preserve.
Context {L : CidLib} {LL : CidLaws L}.

(** The clock has not gone back behind any record. *)
Definition clock_ok (now : time) (s : persistedState) : Prop :=
  now <> 0%Z /\ forall id op, Operations s !! id = Some op -> (CreatedAt op <= now)%Z.

Lemma wf_op_ok s id op : wf s -> Operations s !! id = Some op -> op_ok op.
Proof. intros Hwf H. by apply (wf_item_ok s id op Hwf H). Qed.

Lemma op_ok_update now s id op next c r :
  wf s -> clock_ok now s -> Operations s !! id = Some op ->
  lifecycle next c r (ReplacementOperationID op) -> op_ok (update_status op next c r now).
Proof.
  intros Hwf [Hnow Hclk] H Hl. destruct (wf_op_ok _ _ _ Hwf H). split; cbn; eauto.
Qed.

(** Replacing a record by one with the same intent and sequence. *)
Lemma wf_set s id op op' :
  wf s -> Operations s !! id = Some op ->
  op_Intent op' = op_Intent op -> Sequence op' = Sequence op ->
  op_ok op' -> op_Status op' <> StatusSuperseded ->
  wf (mkState (Version s) (NextSequence s) (<[id := op']> (Operations s))
        (UsedOperationIDs s) (UsedRetryIDs s)).
Proof.
  intros Hwf Hop Hi Hs Hok Hst.
  assert (forall id1 op1, <[id := op']> (Operations s) !! id1 = Some op1 ->
    exists op0, Operations s !! id1 = Some op0 /\ op_Intent op1 = op_Intent op0 /\
      Sequence op1 = Sequence op0 /\ (op1 = op0 \/ op1 = op')) as Hold.
  { intros id1 op1. rewrite lookup_insert. case_decide; intros H1; simplify_eq; eauto 7. }
  destruct Hwf as [Hv Hn Hwop Hseq Hretry Huo Hur Hrep Hinb].
  split; cbn; try done.
  - intros id1 op1 H1. destruct (Hold _ _ H1) as (op0 & H0 & Ei & Es & Hor).
    destruct (Hwop _ _ H0) as (Hno & Hid & Hlt & Hu & Hr). unfold op_id, op_retry in *.
    rewrite Ei, Es. split_and!; try done. destruct Hor as [->| ->]; [done|by apply normalize_op_ok].
  - intros id1 id2 op1 op2 (o1 & H1 & _ & E1 & _)%Hold (o2 & H2 & _ & E2 & _)%Hold E.
    eapply Hseq; eauto. congruence.
  - intros id1 id2 op1 op2 (o1 & H1 & E1 & _)%Hold (o2 & H2 & E2 & _)%Hold E.
    eapply Hretry; eauto. unfold op_retry in *. congruence.
  - intros id1 op1 H1 Hsup. destruct (Hold _ _ H1) as (op0 & H0 & _ & _ & [->| ->]); [|done].
    destruct (Hrep _ _ H0 Hsup) as (rep & Hrl & Hr).
    destruct (decide (id = ReplacementOperationID op0)) as [->|Hne].
    + exists op'. rewrite lookup_insert_eq. assert (rep = op) as -> by congruence.
      by rewrite Hi, Hs.
    + exists rep. by rewrite lookup_insert_ne.
  - intros id1 id2 op1 op2 H1 H2 S1 S2.
    destruct (Hold _ _ H1) as (o1 & H1' & _ & _ & [->| ->]); [|done].
    destruct (Hold _ _ H2) as (o2 & H2' & _ & _ & [->| ->]); [|done]. eauto.
Qed.

Lemma used_insert (m : gmap string bool) k id : used (<[k := true]> m) id = bool_decide (k = id) || used m id.
Proof. unfold used. rewrite lookup_insert. by repeat case_decide; simpl_decide. Qed.

Lemma used_false_lookup s id :
  wf s -> used (UsedOperationIDs s) id = false -> Operations s !! id = None.
Proof.
  intros Hwf H. destruct (Operations s !! id) as [op|] eqn:E; [|done].
  destruct (wf_op s Hwf id op E) as (_ & _ & _ & Hu & _). congruence.
Qed.

Lemma wf_append s now intent initial :
  wf s -> now <> 0%Z -> normalizeIntent intent = Ok intent ->
  (NextSequence s + 1 < two64)%N ->
  (initial = StatusLocalDirty \/ initial = StatusOfflineOnly) ->
  used (UsedOperationIDs s) (OperationID intent) = false ->
  used (UsedRetryIDs s) (RetryID intent) = false ->
  wf (mkState (Version s) (u64 (NextSequence s + 1))
       (<[OperationID intent :=
          mkOperation intent (NextSequence s) initial EmptyString EmptyString EmptyString now now]>
          (Operations s))
       (<[OperationID intent := true]> (UsedOperationIDs s))
       (<[RetryID intent := true]> (UsedRetryIDs s))).
Proof.
  intros Hwf Hnow Hi Hbound Hinit Huo Hur.
  pose proof (used_false_lookup _ _ Hwf Huo) as Hnone.
  destruct (normalizeIntent_id_nonempty _ _ Hi) as (I1 & I2 & I3 & I4 & I5 & I6).
  rewrite u64_small by done. set (new := mkOperation _ _ _ _ _ _ _ _).
  assert (op_ok new) as Hnew.
  { split; cbn; try done; [by apply Hwf|by destruct Hinit as [->| ->]]. }
  assert (op_Status new <> StatusSuperseded) as Hns by (by destruct Hinit as [->| ->]).
  pose proof Hwf as [Hv Hn Hwop Hseq Hretry Huo' Hur' Hrep Hinb].
  assert (forall id op, Operations s !! id = Some op -> op_retry op <> RetryID intent) as Hfr.
  { intros id op H E. destruct (Hwop _ _ H) as (_ & _ & _ & _ & Hu). congruence. }
  split; cbn; try done.
  - lia.
  - intros id op. rewrite lookup_insert. case_decide as E.
    + intros [= <-]. rewrite !used_insert. subst id. cbn. simpl_decide.
      split_and!; try done; [by apply op_ok_normalize|lia|].
      by rewrite (bool_decide_eq_true_2 (RetryID intent = op_retry new)).
    + intros H. destruct (Hwop _ _ H) as (? & ? & ? & Hu1 & Hu2).
      rewrite !used_insert, Hu1, Hu2, !orb_true_r. split_and!; try done. lia.
  - intros id1 id2 op1 op2. rewrite !lookup_insert. repeat case_decide; intros H1 H2 E; simplify_eq; try done.
    + destruct (Hwop _ _ H2) as (_ & _ & Hlt & _). cbn in E. lia.
    + destruct (Hwop _ _ H1) as (_ & _ & Hlt & _). cbn in E. lia.
    + eauto.
  - intros id1 id2 op1 op2. rewrite !lookup_insert. repeat case_decide; intros H1 H2 E; simplify_eq; try done.
    + by destruct (Hfr _ _ H2).
    + by destruct (Hfr _ _ H1).
    + eauto.
  - intros id b. rewrite lookup_insert. case_decide; intros H'; simplify_eq; [done|eauto].
  - intros id b. rewrite lookup_insert. case_decide; intros H'; simplify_eq; [done|eauto].
  - intros id op. rewrite lookup_insert. case_decide; intros H' S'; simplify_eq.
    destruct (Hrep _ _ H' S') as (rep & Hrl & Hr). exists rep. split; [|done].
    rewrite lookup_insert_ne; congruence.
  - intros id1 id2 op1 op2. rewrite !lookup_insert. repeat case_decide; intros H1 H2 S1 S2; simplify_eq; eauto.
Qed.

Lemma appendLocked_wf now intent initial s op s' :
  wf s -> now <> 0%Z -> normalizeIntent intent = Ok intent -> (NextSequence s + 1 < two64)%N ->
  (initial = StatusLocalDirty \/ initial = StatusOfflineOnly) ->
  appendLocked now intent initial s = Ok (op, s') -> wf s'.
Proof.
  intros Hwf Hnow Hi Hb Hinit H. unfold appendLocked in H.
  destruct (Operations s !! OperationID intent) as [ex|] eqn:E; simplify_result; [done|].
  simplify_guards. by apply wf_append.
Qed.

(** ** How the state evolves *)

(** The status graph: the transitions of [allowedStatusTransition], and the
    superseding of a resolved conflict. *)
Definition edge (a b : Status) : Prop :=
  allowedStatusTransition a b = true \/ (a = StatusConflicted /\ b = StatusSuperseded).
Definition progress : Status -> Status -> Prop := rtc edge.

(** A later version of the same record. *)
Definition later (op op' : Operation) : Prop :=
  op_Intent op = op_Intent op' /\ Sequence op = Sequence op' /\ CreatedAt op = CreatedAt op' /\
  progress (op_Status op) (op_Status op').

(** A record whose identities and sequence number were never issued before. *)
Definition fresh_in (s : persistedState) (op : Operation) : Prop :=
  used (UsedOperationIDs s) (op_id op) = false /\ used (UsedRetryIDs s) (op_retry op) = false /\
  (NextSequence s <= Sequence op)%N.

Record evolves (s s' : persistedState) : Prop := {
  ev_used_op : forall id, used (UsedOperationIDs s) id = true -> used (UsedOperationIDs s') id = true;
  ev_used_retry : forall id, used (UsedRetryIDs s) id = true -> used (UsedRetryIDs s') id = true;
  ev_next : (NextSequence s <= NextSequence s')%N;
  ev_op : forall id op', Operations s' !! id = Some op' ->
    (exists op, Operations s !! id = Some op /\ later op op') \/ (op_id op' = id /\ fresh_in s op')
}.

Lemma later_refl op : later op op.
Proof. split_and!; done. Qed.

Lemma later_trans a b c : later a b -> later b c -> later a c.
Proof.
  intros (?&?&?&?) (?&?&?&?). split_and!; [congruence|congruence|congruence|by etrans].
Qed.

Lemma fresh_in_earlier s1 s2 op : evolves s1 s2 -> fresh_in s2 op -> fresh_in s1 op.
Proof.
  intros [Ho Hr Hn _] (H1 & H2 & H3). split_and!; [| |lia].
  - destruct (used (UsedOperationIDs s1) (op_id op)) eqn:E; [|done]. apply Ho in E. congruence.
  - destruct (used (UsedRetryIDs s1) (op_retry op)) eqn:E; [|done]. apply Hr in E. congruence.
Qed.

#[export] Instance evolves_preorder : PreOrder evolves.
Proof.
  split.
  - intros s. split; try done. intros id op H. left. eauto using later_refl.
  - intros s1 s2 s3 H12 H23. pose proof H12 as [O1 R1 N1 E1]. pose proof H23 as [O2 R2 N2 E2].
    split; [eauto|eauto|lia|].
    intros id op3 H3. destruct (E2 _ _ H3) as [(op2 & H2 & Hl)|[Hid Hf]].
    + destruct (E1 _ _ H2) as [(op1 & H1 & Hl1)|[Hid Hf]].
      * left. eauto using later_trans.
      * right. destruct Hl as (Hi & Hs & _). unfold fresh_in, op_id, op_retry in *.
        by rewrite <- Hi, <- Hs.
    + right. eauto using fresh_in_earlier.
Qed.

Lemma evolves_set s id op op' :
  Operations s !! id = Some op -> later op op' ->
  evolves s (mkState (Version s) (NextSequence s) (<[id := op']> (Operations s))
               (UsedOperationIDs s) (UsedRetryIDs s)).
Proof.
  intros H Hl. split; cbn; try done. intros id1 op1. rewrite lookup_insert.
  case_decide; intros H1; simplify_eq; eauto using later_refl.
Qed.

Lemma appendLocked_evolves now intent initial s op s' :
  (NextSequence s + 1 < two64)%N ->
  appendLocked now intent initial s = Ok (op, s') ->
  evolves s s' /\ op_Intent op = intent /\ Operations s' !! OperationID intent = Some op.
Proof.
  intros Hb H. unfold appendLocked in H.
  destruct (Operations s !! OperationID intent) as [ex|] eqn:E; simplify_result; simplify_guards.
  { by subst. }
  cbn. rewrite lookup_insert_eq. split; [|done].
  split; cbn; [| |rewrite u64_small by done; lia|].
  - intros id Hu. by rewrite used_insert, Hu, orb_true_r.
  - intros id Hu. by rewrite used_insert, Hu, orb_true_r.
  - intros id op'. rewrite lookup_insert. case_decide; intros Hl; simplify_eq.
    + right. by repeat split.
    + eauto using later_refl.
Qed.

(** ** Single transitions *)
Lemma not_superseded_replacement op :
  op_ok op -> op_Status op <> StatusSuperseded -> ReplacementOperationID op = EmptyString.
Proof. intros [_ _ _ _ _ Hl] Hs. destruct (op_Status op); cbn in Hl; naive_solver. Qed.

Lemma allowed_not_final a b : allowedStatusTransition a b = true ->
  a <> StatusSuperseded /\ b <> StatusSuperseded /\ a <> StatusCompleted /\ a <> StatusConflicted.
Proof. by destruct a, b. Qed.

Lemma transitionLocked_wf now id next c r s op s' :
  wf s -> clock_ok now s -> lifecycle next c r EmptyString ->
  transitionLocked now id next c r s = Ok (op, s') -> wf s' /\ evolves s s'.
Proof.
  intros Hwf Hclk Hl H. unfold transitionLocked in H. simplify_result.
  case_bool_decide as Hsame; simplify_result; [done|].
  destruct (allowedStatusTransition _ next) eqn:Hal; cbn in H.
  2: { case_in H; simplify_result. }
  simplify_result. destruct (allowed_not_final _ _ Hal) as (Ha & Hb & _).
  split; [|apply (evolves_set _ _ r0); [done|]; repeat split; cbn; by apply rtc_once; left].
  apply (wf_set _ _ r0); try done. apply (op_ok_update now s id); try done.
  by rewrite (not_superseded_replacement r0) by eauto using wf_op_ok.
Qed.

(** ** Batches *)
Definition batch_change_ok (now : time) (check : Operation -> result unit)
    (changes : Operation -> bool) (change : Operation -> Operation) : Prop :=
  forall s id op, wf s -> clock_ok now s -> Operations s !! id = Some op ->
    check op = Ok () -> changes op = true ->
    op_ok (change op) /\ later op (change op) /\ op_Status (change op) <> StatusSuperseded.

Lemma batch_fold now check changes change sel s :
  batch_change_ok now check changes change ->
  wf s -> clock_ok now s -> NoDup (op_id <$> sel) ->
  Forall (fun op => Operations s !! op_id op = Some op /\ check op = Ok ()) sel ->
  let s' := foldl (store_changed changes change) s sel in wf s' /\ evolves s s'.
Proof.
  intros Hch. revert s. induction sel as [|op sel IH]; intros s Hwf Hclk Hnd Hall; cbn; [done|].
  cbn in Hnd. apply NoDup_cons in Hnd as [Hnin Hnd]. apply Forall_cons in Hall as [[Hop Hck] Hall].
  unfold store_changed at 2 4. destruct (changes op) eqn:Ec; [|eauto].
  destruct (Hch s (op_id op) op Hwf Hclk Hop Hck Ec) as (Hok & Hlat & Hst).
  assert (op_id (change op) = op_id op) as Hid.
  { destruct Hlat as (Hi & _). unfold op_id. by rewrite Hi. }
  assert (wf (set_operation s (change op)) /\ evolves s (set_operation s (change op))) as [Hwf' Hev].
  { unfold set_operation. rewrite Hid. destruct Hlat as (?&?&?&?).
    split; [by apply (wf_set _ _ op)|by apply (evolves_set _ _ op)]. }
  destruct (IH (set_operation s (change op)) Hwf') as [H1 H2].
  - split; [by apply Hclk|]. intros id op'. cbn. rewrite Hid, lookup_insert.
    case_decide; intros H'; simplify_eq; [|by eapply Hclk].
    destruct Hlat as (_ & _ & <- & _). by eapply Hclk.
  - done.
  - rewrite Forall_forall in *. intros op' Hin. destruct (Hall op' Hin) as [Hl' Hc'].
    split; [|done]. cbn. rewrite Hid, lookup_insert_ne; [done|].
    intros E. apply Hnin. rewrite E. by apply list_elem_of_fmap_2.
  - split; [done|]. by etrans.
Qed.

Lemma batch_selected check ids s sel :
  mapM (fun id => operation ← or_err (Operations s !! id) ErrNotFound; _ ← check operation; Ok operation)
    ids = Ok sel ->
  wf s -> NoDup ids ->
  op_id <$> sel = ids /\
  Forall (fun op => Operations s !! op_id op = Some op /\ check op = Ok ()) sel.
Proof.
  intros H%mapM_Forall2 Hwf Hnd. clear Hnd. induction H as [|id op ids sel Hid _ [IH1 IH2]]; cbn.
  { by split. }
  simplify_result. destruct r0. destruct (wf_op s Hwf _ _ Hr) as (_ & E & _).
  split; [by rewrite E|]. constructor; [|done]. by rewrite E.
Qed.

Lemma batchLocked_wf now check changes change ids s ops s' :
  batch_change_ok now check changes change ->
  wf s -> clock_ok now s -> NoDup ids ->
  batchLocked check changes change ids s = Ok (ops, s') -> wf s' /\ evolves s s'.
Proof.
  intros Hch Hwf Hclk Hnd H. unfold batchLocked in H. simplify_result.
  destruct (batch_selected _ _ _ _ Hr Hwf Hnd) as [E Hall].
  apply (batch_fold now check); try done. by rewrite E.
Qed.

(** What a batch does to every record. *)
Lemma store_changed_lookup changes change sel s id :
  NoDup (op_id <$> sel) ->
  Forall (fun op => Operations s !! op_id op = Some op) sel ->
  (forall op, op_id (change op) = op_id op) ->
  Operations (foldl (store_changed changes change) s sel) !! id =
    if bool_decide (id ∈ op_id <$> sel)
    then (fun op => if changes op then change op else op) <$> Operations s !! id
    else Operations s !! id.
Proof.
  intros Hnd Hall Hid. revert s Hnd Hall. induction sel as [|op sel IH]; intros s Hnd Hall; cbn [foldl]; [done|].
  rewrite fmap_cons in *. apply NoDup_cons in Hnd as [Hnin Hnd]. apply Forall_cons in Hall as [Hop Hall].
  assert (forall x, Operations (store_changed changes change s op) !! x =
    if bool_decide (x = op_id op) then Some (if changes op then change op else op) else Operations s !! x)
    as Hst.
  { clear IH. intros x. unfold store_changed, set_operation.
    destruct (changes op); cbn [Operations]; case_bool_decide; subst; try done.
    - by rewrite Hid, lookup_insert_eq.
    - by rewrite Hid, lookup_insert_ne. }
  rewrite IH; [|done|].
  - rewrite Hst. destruct (decide (id = op_id op)) as [->|Hne].
    + rewrite (bool_decide_eq_false_2 (op_id op ∈ _)) by done. simpl_decide.
      rewrite (bool_decide_eq_true_2 (op_id op ∈ _ :: _)) by by left. by rewrite Hop.
    + rewrite (bool_decide_eq_false_2 (id = op_id op)) by done. rewrite (bool_decide_ext (id ∈ op_id op :: _) (id ∈ op_id <$> sel)); [done|].
      rewrite elem_of_cons. naive_solver.
  - rewrite Forall_forall in *. intros op' Hin. rewrite Hst.
    rewrite bool_decide_eq_false_2; [auto|]. intros E. apply Hnin. rewrite <- E.
    by apply list_elem_of_fmap_2.
Qed.

Lemma batchLocked_lookup check changes change ids s ops s' id :
  (forall op, op_id (change op) = op_id op) -> wf s -> NoDup ids ->
  batchLocked check changes change ids s = Ok (ops, s') ->
  Operations s' !! id =
    (if bool_decide (id ∈ ids)
     then (fun op => if changes op then change op else op) <$> Operations s !! id
     else Operations s !! id) /\
  (id ∈ ids -> exists op, Operations s !! id = Some op /\ check op = Ok ()).
Proof.
  intros Hid Hwf Hnd H. unfold batchLocked in H. simplify_result.
  destruct (batch_selected _ _ _ _ Hr Hwf Hnd) as [<- Hall]. split.
  - apply store_changed_lookup; [done| |done]. by eapply Forall_impl; [exact Hall|]; intros ? [].
  - intros (op & -> & Hin)%list_elem_of_fmap. rewrite Forall_forall in Hall.
    destruct (Hall _ Hin). eauto.
Qed.

Lemma later_update op next c r now :
  edge (op_Status op) next -> later op (update_status op next c r now).
Proof. intros H. repeat split; cbn. by apply rtc_once. Qed.

Lemma freeze_change_ok now :
  batch_change_ok now freeze_check
    (fun op => negb (bool_decide (op_Status op = StatusPendingUpload)))
    (fun op => update_status op StatusPendingUpload (ConflictID op) (ResultRoot op) now).
Proof.
  intros s id op Hwf Hclk Hop Hck Hchg. simplify_guards. pose proof (wf_op_ok _ _ _ Hwf Hop) as Hok.
  assert (op_Status op = StatusLocalDirty \/ op_Status op = StatusOfflineOnly) as Hst.
  { unfold freeze_check in Hck. destruct (op_Status op); try done; auto. }
  split_and!; [|apply later_update; by destruct Hst as [->| ->]; left|done].
  apply (op_ok_update now s id); try done. destruct Hok as [_ _ _ _ _ Hl].
  by destruct Hst as [Hs|Hs]; rewrite Hs in Hl.
Qed.

Lemma pending_life op : op_ok op -> op_Status op = StatusPendingUpload ->
  ConflictID op = EmptyString /\ ResultRoot op = EmptyString /\ ReplacementOperationID op = EmptyString.
Proof. intros [_ _ _ _ _ Hl] Hs. by rewrite Hs in Hl. Qed.

Lemma conflict_change_ok now c :
  ident c ->
  batch_change_ok now (conflict_check c)
    (fun op => negb (bool_decide (op_Status op = StatusConflicted)))
    (fun op => update_status op StatusConflicted c (ResultRoot op) now).
Proof.
  intros Hc s id op Hwf Hclk Hop Hck Hchg. simplify_guards. unfold conflict_check in Hck.
  rewrite bool_decide_eq_false_2 in Hck by done. simplify_result. simplify_guards.
  destruct (pending_life op) as (_ & E2 & E3); [by eapply wf_op_ok|done|].
  split_and!; [|apply later_update; left; by rewrite Hck|done].
  apply (op_ok_update now s id); [done|done|done|]. by rewrite E2, E3.
Qed.

Lemma complete_change_ok now r :
  canonical r ->
  batch_change_ok now (complete_check r)
    (fun op => negb (bool_decide (op_Status op = StatusCompleted)))
    (fun op => update_status op StatusCompleted (ConflictID op) r now).
Proof.
  intros Hc s id op Hwf Hclk Hop Hck Hchg. simplify_guards. unfold complete_check in Hck.
  rewrite bool_decide_eq_false_2 in Hck by done. simplify_result. simplify_guards.
  destruct (pending_life op) as (E1 & _ & E3); [by eapply wf_op_ok|done|].
  split_and!; [|apply later_update; left; by rewrite Hck|done].
  apply (op_ok_update now s id); [done|done|done|]. by rewrite E1, E3.
Qed.

(** ** Resolving a conflict *)
Lemma wf_supersede s id rid cur next now :
  wf s -> clock_ok now s -> Operations s !! id = Some cur -> op_Status cur = StatusConflicted ->
  Operations s !! rid = Some next -> (Sequence cur < Sequence next)%N ->
  DatasetID (op_Intent next) = DatasetID (op_Intent cur) ->
  Branch (op_Intent next) = Branch (op_Intent cur) ->
  (forall id' op', Operations s !! id' = Some op' -> op_Status op' = StatusSuperseded ->
     ReplacementOperationID op' <> rid) ->
  let cur' := mkOperation (op_Intent cur) (Sequence cur) StatusSuperseded (ConflictID cur)
                (ResultRoot cur) rid (CreatedAt cur) now in
  let s' := mkState (Version s) (NextSequence s) (<[id := cur']> (Operations s))
              (UsedOperationIDs s) (UsedRetryIDs s) in
  wf s' /\ evolves s s'.
Proof.
  intros Hwf [Hnow Hclk] Hcur Hst Hnext Hlt Hds Hbr Hfree cur' s'.
  pose proof (wf_op_ok _ _ _ Hwf Hcur) as [O1 O2 O3 O4 O5 O6].
  destruct (wf_op s Hwf _ _ Hnext) as (_ & Hnid & _ & Huse & _).
  assert (ident rid) as Hrid.
  { destruct (wf_op_ok _ _ _ Hwf Hnext) as [Hi _ _ _ _ _].
    destruct (normalizeIntent_id_nonempty _ _ Hi) as (?&?&?&_). by rewrite <- Hnid. }
  assert (op_ok cur') as Hok.
  { rewrite Hst in O6. split; cbn; eauto. split_and!; apply O6 || apply Hrid. }
  split.
  2: { apply (evolves_set _ _ cur); [done|]. repeat split. cbn. rewrite Hst. apply rtc_once. by right. }
  assert (forall id1 op1, Operations s' !! id1 = Some op1 ->
    exists op0, Operations s !! id1 = Some op0 /\ op_Intent op1 = op_Intent op0 /\
      Sequence op1 = Sequence op0 /\ (op1 = op0 /\ id1 <> id \/ op1 = cur' /\ id1 = id)) as Hold.
  { intros id1 op1. cbn. rewrite lookup_insert. case_decide; intros H1; simplify_eq; eauto 8. }
  assert (forall id1 op1, Operations s !! id1 = Some op1 -> exists op2, Operations s' !! id1 = Some op2 /\
     op_Intent op2 = op_Intent op1 /\ Sequence op2 = Sequence op1) as Hnew.
  { intros id1 op1 H1. cbn. rewrite lookup_insert. case_decide; simplify_eq; eauto. }
  pose proof Hwf as [Hv Hn Hwop Hseq Hretry Huo Hur Hrep Hinb].
  split; try done.
  - intros id1 op1 H1. destruct (Hold _ _ H1) as (op0 & H0 & Ei & Es & Hor).
    destruct (Hwop _ _ H0) as (Hno & Hid & ? & Hu & Hr). unfold op_id, op_retry in *.
    rewrite Ei, Es. split_and!; try done. destruct Hor as [[-> _]|[-> _]]; [done|by apply normalize_op_ok].
  - intros id1 id2 op1 op2 (o1 & H1 & _ & E1 & _)%Hold (o2 & H2 & _ & E2 & _)%Hold E.
    eapply Hseq; eauto. congruence.
  - intros id1 id2 op1 op2 (o1 & H1 & E1 & _)%Hold (o2 & H2 & E2 & _)%Hold E.
    eapply Hretry; eauto. unfold op_retry in *. congruence.
  - intros id1 op1 H1 Hsup. destruct (Hold _ _ H1) as (op0 & H0 & _ & _ & [[-> _]|[-> ->]]).
    + destruct (Hrep _ _ H0 Hsup) as (rep & Hrl & Hr). destruct (Hnew _ _ Hrl) as (rep' & Hrl' & Ei & Es).
      exists rep'. by rewrite Ei, Es.
    + destruct (Hnew _ _ Hnext) as (rep' & Hrl' & Ei & Es). exists rep'. cbn. by rewrite Ei, Es.
  - intros id1 id2 op1 op2 H1 H2 S1 S2 E.
    destruct (Hold _ _ H1) as (o1 & H1' & _ & _ & [[-> _]|[-> ->]]);
    destruct (Hold _ _ H2) as (o2 & H2' & _ & _ & [[-> _]|[-> ->]]); try done.
    + eauto.
    + by destruct (Hfree _ _ H1' S1).
    + by destruct (Hfree _ _ H2' S2).
Qed.

Lemma resolveLocked_wf now1 now2 id replacement initial s res s' :
  wf s -> clock_ok now1 s -> (now1 <= now2)%Z -> now2 <> 0%Z ->
  (NextSequence s + 1 < two64)%N ->
  normalizeIntent replacement = Ok replacement ->
  (initial = StatusLocalDirty \/ initial = StatusOfflineOnly) ->
  OperationID replacement <> id ->
  resolveLocked now1 now2 id replacement initial s = Ok (res, s') -> wf s' /\ evolves s s'.
Proof.
  intros Hwf Hclk Hle Hn2 Hb Hi Hinit Hne H. unfold resolveLocked in H. simplify_result.
  case_bool_decide as Hsup.
  { simplify_result. destruct (Operations s !! OperationID replacement); simplify_result. done. }
  simplify_result. simplify_guards.
  destruct (Operations s !! OperationID replacement) as [?|] eqn:Enone; simplify_result.
  rename r into cur, Hr1 into Happ, p into s1, o into next.
  pose proof (appendLocked_wf _ _ _ _ _ _ Hwf (proj1 Hclk) Hi Hb Hinit Happ) as Hwf1.
  destruct (appendLocked_evolves _ _ _ _ _ _ Hb Happ) as (Hev & _ & Hlook).
  unfold appendLocked in Happ. rewrite Enone in Happ. simplify_result. cbn in Hlook.
  destruct (wf_op s Hwf _ _ Hr) as (_ & Hcid & Hseq & _).
  match type of Hlook with _ = Some ?o => set (next := o) in * end.
  match type of Hwf1 with wf ?st => set (s1 := st) in * end.
  destruct (wf_supersede s1 id (OperationID replacement) cur next now2) as [Hw He]; try done.
  - split; [done|]. intros id' op'. cbn. rewrite lookup_insert.
    case_decide; intros H'; simplify_eq; cbn; [lia|]. etrans; [by eapply Hclk|done].
  - cbn. by rewrite lookup_insert_ne.
  - intros id' op'. cbn. rewrite lookup_insert. case_decide; intros H' S' E; simplify_eq.
    + cbn in S'. by destruct Hinit as [->| ->].
    + destruct (wf_replacement s Hwf _ _ H' S') as (rep & Hrl & _). congruence.
  - split; [exact Hw|]. by transitivity s1.
Qed.

(** What a resolution returns and leaves behind, on its first run and on a
    repetition. *)
Lemma resolveLocked_spec now1 now2 id replacement initial s cur next s' :
  wf s -> OperationID replacement <> id ->
  resolveLocked now1 now2 id replacement initial s = Ok ((cur, next), s') ->
  op_Status cur = StatusSuperseded /\ ReplacementOperationID cur = op_id next /\
  op_Intent next = replacement /\ Operations s' !! id = Some cur /\
  Operations s' !! op_id next = Some next /\
  (exists cur0, Operations s !! id = Some cur0 /\ op_Intent cur = op_Intent cur0 /\
     ConflictID cur = ConflictID cur0).
Proof.
  intros Hwf Hne H. unfold resolveLocked in H. simplify_result. case_bool_decide as Hsup.
  - simplify_result. destruct (Operations s !! OperationID replacement) as [ex|] eqn:E; simplify_result.
    simplify_guards. subst. unfold op_id. split_and!; eauto.
  - simplify_result. simplify_guards.
    destruct (Operations s !! OperationID replacement) as [?|] eqn:E; simplify_result.
    unfold appendLocked in Hr1. rewrite E in Hr1. simplify_result. cbn.
    split_and!; eauto; [by rewrite lookup_insert_eq|].
    rewrite lookup_insert_ne by done. by rewrite lookup_insert_eq.
Qed.
End Preserve.

(** ** Pruning *)

(** The finished audit chains: a completed record, or a superseded record
    whose replacement is finished. *)
Inductive finished (ops : gmap string Operation) : string -> Prop :=
  | fin_completed id op :
      ops !! id = Some op -> op_Status op = StatusCompleted -> finished ops id
  | fin_superseded id op :
      ops !! id = Some op -> op_Status op = StatusSuperseded ->
      finished ops (ReplacementOperationID op) -> finished ops id.

Section Prune.
Context (ops : gmap string Operation).

Definition closed_on (l : list (string * Operation)) (sel : gset string) : Prop :=
  forall id op, (id, op) ∈ l -> op_Status op = StatusSuperseded ->
    ReplacementOperationID op ∈ sel -> id ∈ sel.

Lemma prune_visit_spec sel ch id op sel' ch' :
  prune_visit (sel, ch) (id, op) = (sel', ch') ->
  (sel' = sel /\ ch' = ch /\ closed_on [(id, op)] sel) \/
  (sel' = {[id]} ∪ sel /\ ch' = true /\ id ∉ sel /\
   op_Status op = StatusSuperseded /\ ReplacementOperationID op ∈ sel).
Proof.
  cbn. repeat case_bool_decide; cbn; intros [= <- <-].
  1: left; split_and!; [done..|]; intros ?? [= -> ->]%list_elem_of_singleton; done.
  1: right; done.
  all: left; split_and!; [done..|]; intros ?? [= -> ->]%list_elem_of_singleton; done.
Qed.

Lemma prune_fold_spec l sel ch sel' ch' :
  foldl prune_visit (sel, ch) l = (sel', ch') ->
  sel ⊆ sel' /\
  (ch' = false -> ch = false /\ sel' = sel /\ closed_on l sel) /\
  (ch' = true -> ch = true \/ size sel < size sel').
Proof.
  revert sel ch. induction l as [|[id op] l IH]; intros sel ch H; cbn [foldl] in H.
  { injection H as <- <-. split_and!; [done| |by left].
    intros ->. split_and!; try done. intros ?? Hin. by apply not_elem_of_nil in Hin. }
  destruct (prune_visit (sel, ch) (id, op)) as [sel1 ch1] eqn:E.
  destruct (IH _ _ H) as (IH1 & IH2 & IH3).
  apply prune_visit_spec in E as [(-> & -> & Hc)|(-> & -> & Hnin & _)].
  - split_and!; [done| |done]. intros Hf. destruct (IH2 Hf) as (Hch & Heq & Hcl).
    split_and!; [done|done|]. intros id' op' [Heq'|Hin]%elem_of_cons; [|by apply Hcl].
    apply Hc. rewrite Heq'. by left.
  - split_and!; [set_solver| |].
    + intros Hf. by destruct (IH2 Hf).
    + intros _. right. apply subseteq_size in IH1. rewrite size_union, size_singleton in IH1; [lia|set_solver].
Qed.

Lemma prune_fold_sound l sel ch sel' ch' :
  (forall id op, (id, op) ∈ l -> ops !! id = Some op) ->
  (forall id, id ∈ sel -> finished ops id) ->
  foldl prune_visit (sel, ch) l = (sel', ch') -> forall id, id ∈ sel' -> finished ops id.
Proof.
  revert sel ch. induction l as [|[id op] l IH]; intros sel ch Hl Hs H; cbn [foldl] in H.
  { by injection H as <- <-. }
  destruct (prune_visit (sel, ch) (id, op)) as [sel1 ch1] eqn:E.
  apply (IH sel1 ch1); [intros; apply Hl; by right| |done].
  apply prune_visit_spec in E as [(-> & -> & Hc)|(-> & -> & Hnin & Hst & Hrep)]; [done|].
  intros id' [->%elem_of_singleton|Hin]%elem_of_union; [|auto].
  eapply fin_superseded; [apply Hl; left|done|auto].
Qed.

Lemma finished_dom id : finished ops id -> id ∈ dom ops.
Proof. by destruct 1; apply elem_of_dom. Qed.

Lemma completed_ids_spec id :
  id ∈ completed_ids ops <-> exists op, ops !! id = Some op /\ op_Status op = StatusCompleted.
Proof.
  unfold completed_ids. rewrite elem_of_dom. unfold is_Some.
  setoid_rewrite map_lookup_filter_Some. done.
Qed.

(** Enough fuel: each further sweep selects one more record. *)
Lemma prune_loop_terminates fuel sel :
  (forall id, id ∈ sel -> finished ops id) -> size (dom ops) - size sel < fuel ->
  exists sel', prune_loop fuel ops sel = Some sel'.
Proof.
  revert sel. induction fuel as [|fuel IH]; intros sel Hs Hf; [lia|]. cbn. unfold prune_sweep.
  destruct (foldl prune_visit (sel, false) (map_to_list ops)) as [sel' ch'] eqn:E.
  destruct ch'; [|eauto].
  assert (forall id, id ∈ sel' -> finished ops id) as Hs'.
  { eapply (prune_fold_sound (map_to_list ops)); [|exact Hs|exact E].
    intros id op. apply elem_of_map_to_list. }
  apply IH; [done|]. destruct (prune_fold_spec _ _ _ _ _ E) as (_ & _ & [?|Hlt]); [done|done|].
  assert (sel' ⊆ dom ops) as Hsub%subseteq_size by (intros x Hx; by apply finished_dom, Hs'). lia.
Qed.

Lemma prune_loop_spec fuel sel sel' :
  (forall id, id ∈ sel -> finished ops id) -> prune_loop fuel ops sel = Some sel' ->
  (forall id, id ∈ sel' -> finished ops id) /\ sel ⊆ sel' /\ closed_on (map_to_list ops) sel'.
Proof.
  revert sel. induction fuel as [|fuel IH]; intros sel Hs H; [done|]. cbn in H. unfold prune_sweep in H.
  destruct (foldl prune_visit (sel, false) (map_to_list ops)) as [sel1 ch1] eqn:E.
  assert (forall id, id ∈ sel1 -> finished ops id) as Hs'.
  { eapply (prune_fold_sound (map_to_list ops)); [|exact Hs|exact E].
    intros id op. apply elem_of_map_to_list. }
  destruct (prune_fold_spec _ _ _ _ _ E) as (Hsub & Hfalse & _). destruct ch1.
  - destruct (IH _ Hs' H) as (H1 & H2 & H3). split_and!; [done|set_solver|done].
  - injection H as <-. destruct (Hfalse eq_refl) as (_ & -> & Hc). by split_and!.
Qed.

(** The selection is exactly the set of finished records. *)
Lemma prune_selection :
  exists sel, prune_loop (S (size ops)) ops (completed_ids ops) = Some sel /\
    forall id, id ∈ sel <-> finished ops id.
Proof.
  assert (forall id, id ∈ completed_ids ops -> finished ops id) as Hc.
  { intros id (op & H1 & H2)%completed_ids_spec. by eapply fin_completed. }
  destruct (prune_loop_terminates (S (size ops)) (completed_ids ops) Hc) as [sel E].
  { rewrite size_dom. lia. }
  exists sel. split; [done|]. destruct (prune_loop_spec _ _ _ Hc E) as (H1 & H2 & H3).
  intros id. split; [apply H1|]. induction 1 as [id op Hl Hs|id op Hl Hs _ IH].
  - apply H2, completed_ids_spec. eauto.
  - eapply H3; [by apply elem_of_map_to_list|done|done].
Qed.

Lemma delete_all_lookup sel id :
  delete_all sel ops !! id = if bool_decide (id ∈ sel) then None else ops !! id.
Proof.
  unfold delete_all. assert (forall l : list string,
    foldr delete ops l !! id = if bool_decide (id ∈ l) then None else ops !! id) as Hl.
  { induction l as [|x l IH]; cbn; [done|]. rewrite lookup_delete, IH.
    repeat case_decide; repeat case_bool_decide; set_solver. }
  rewrite Hl. by rewrite (bool_decide_ext (id ∈ elements sel) (id ∈ sel)) by apply elem_of_elements.
Qed.
End Prune.

(** The state after pruning: finished chains are gone, everything else and
    every tombstone stays. *)
Lemma pruneLocked_spec s :
  exists n s', pruneLocked s = Ok (n, s') /\
    Version s' = Version s /\ NextSequence s' = NextSequence s /\
    UsedOperationIDs s' = UsedOperationIDs s /\ UsedRetryIDs s' = UsedRetryIDs s /\
    (forall id, finished (Operations s) id -> Operations s' !! id = None) /\
    (forall id, ~ finished (Operations s) id -> Operations s' !! id = Operations s !! id) /\
    n + size (Operations s') = size (Operations s).
Proof.
  destruct (prune_selection (Operations s)) as (sel & E & Hsel).
  unfold pruneLocked. rewrite E. do 2 eexists. split; [done|]. cbn. split_and!; try done.
  - intros id Hf. rewrite delete_all_lookup, bool_decide_eq_true_2; [done|by apply Hsel].
  - intros id Hf. rewrite delete_all_lookup, bool_decide_eq_false_2; [done|by rewrite Hsel].
  - assert (sel ⊆ dom (Operations s)) as Hsub by (intros id Hid; by apply finished_dom, Hsel).
    assert (dom (delete_all sel (Operations s)) = dom (Operations s) ∖ sel) as Hdom.
    { apply set_eq. intros id. rewrite elem_of_difference, !elem_of_dom, delete_all_lookup.
      case_bool_decide; unfold is_Some; naive_solver. }
    rewrite <- !size_dom, Hdom, size_difference by done. apply subseteq_size in Hsub. lia.
Qed.

Section PrunePreserve.
Context {L : CidLib} {LL : CidLaws L}.

Lemma pruned_lookup s id op s' :
  (forall id, finished (Operations s) id -> Operations s' !! id = None) ->
  (forall id, ~ finished (Operations s) id -> Operations s' !! id = Operations s !! id) ->
  Operations s' !! id = Some op -> Operations s !! id = Some op /\ ~ finished (Operations s) id.
Proof.
  intros H1 H2 H. assert (~ finished (Operations s) id) as Hn.
  { intros Hf. rewrite H1 in H by done. done. }
  by rewrite <- H2.
Qed.

Lemma pruneLocked_wf s n s' : wf s -> pruneLocked s = Ok (n, s') -> wf s' /\ evolves s s'.
Proof.
  intros Hwf H. destruct (pruneLocked_spec s) as (n0 & s0 & E & Ev & En & Euo & Eur & Hgone & Hkeep & _).
  rewrite E in H. simplify_result.
  assert (forall id op, Operations s' !! id = Some op -> Operations s !! id = Some op) as Hold
    by (intros; by eapply pruned_lookup).
  split.
  2: { split; rewrite ?Euo, ?Eur, ?En; try done. intros id op Hl%Hold. left. eauto using later_refl. }
  pose proof Hwf as [Hv Hn Hwop Hseq Hretry Huo Hur Hrep Hinb].
  split; rewrite ?Ev, ?En, ?Euo, ?Eur; eauto.
  intros id op Hl Hs. destruct (pruned_lookup s id op s' Hgone Hkeep Hl) as [Hl0 Hnf].
  destruct (Hrep _ _ Hl0 Hs) as (rep & Hr & Hprops). exists rep. split; [|done].
  rewrite Hkeep; [done|]. intros Hf. apply Hnf. by eapply fin_superseded.
Qed.
End PrunePreserve.
