(* ===== verification/JournalThms.v ===== *)
(** What the journal guarantees over whole histories: whichever calls are
    made and whichever system calls fail, the file keeps loading, identities
    are never issued twice, and records only move forward. *)

From stdpp Require Import base decidable gmap strings list sorting relations.
From S2P Require Import Prelude GoText CidLib Durable Journal JournalFacts JournalOps.

(** ** Histories of calls *)
Inductive call :=
  | CallAppend (intent : Intent) (initial : Status)
  | CallFreeze (operationID : string)
  | CallFreezeBatch (operationIDs : list string)
  | CallOffline (operationID : string)
  | CallConflicted (operationID conflictID : string)
  | CallBatchConflicted (operationIDs : list string) (conflictID : string)
  | CallResolve (operationID : string) (replacement : Intent) (initial : Status)
  | CallComplete (operationID resultRoot : string)
  | CallCompleteBatch (operationIDs : list string) (resultRoot : string)
  | CallPrune.

Section Histories.
Context {L : CidLib} {LL : CidLaws L}.

(** The file after a call; [now1] and [now2] are the times it reads. *)
Definition exec (w : io) (now1 now2 : time) (c : call) (f : journal_file) : journal_file :=
  match c with
  | CallAppend intent initial => (Append w now1 intent initial f).2
  | CallFreeze id => (FreezeForUpload w now1 id f).2
  | CallFreezeBatch ids => (FreezeBatchForUpload w now1 ids f).2
  | CallOffline id => (MarkOffline w now1 id f).2
  | CallConflicted id cid => (MarkConflicted w now1 id cid f).2
  | CallBatchConflicted ids cid => (MarkBatchConflicted w now1 ids cid f).2
  | CallResolve id i st => (ResolveConflict w now1 now2 id i st f).2
  | CallComplete id root => (Complete w now1 id root f).2
  | CallCompleteBatch ids root => (CompleteBatch w now1 ids root f).2
  | CallPrune => (PruneCompleted w f).2
  end.

(** One call with the outcome of its system calls and the clock it saw. *)
Record event := Event { ev_io : io; ev_now1 : time; ev_now2 : time; ev_call : call }.
Definition apply (f : journal_file) (e : event) : journal_file :=
  exec (ev_io e) (ev_now1 e) (ev_now2 e) (ev_call e) f.

(** The clock does not run backwards and never shows the zero time. *)
Fixpoint clock_monotone (t : time) (h : list event) : Prop :=
  match h with
  | [] => True
  | e :: h' => (0 < ev_now1 e)%Z /\ (t <= ev_now1 e <= ev_now2 e)%Z /\ clock_monotone (ev_now2 e) h'
  end.

Definition step_ok (now : time) (s s' : persistedState) : Prop :=
  wf s' /\ evolves s s' /\ (NextSequence s' <= NextSequence s + 1)%N /\
  (forall id op', Operations s' !! id = Some op' -> Operations s !! id = None -> (CreatedAt op' <= now)%Z).

(** Operations that issue no sequence number add no record. *)
Lemma step_ok_no_new now s s' :
  wf s' -> evolves s s' -> NextSequence s' = NextSequence s -> step_ok now s s'.
Proof.
  intros Hwf Hev En. split_and!; [done|done|lia|]. intros id op' H Hnone.
  destruct (ev_op _ _ Hev _ _ H) as [(op & Hop & _)|[_ (_ & _ & Hle)]]; [congruence|].
  destruct (wf_op s' Hwf _ _ H) as (_ & _ & Hlt & _). lia.
Qed.

Lemma store_changed_next changes change s sel :
  NextSequence (foldl (store_changed changes change) s sel) = NextSequence s.
Proof.
  revert s. induction sel as [|op sel IH]; intros s; cbn; [done|]. rewrite IH.
  unfold store_changed. by destruct (changes op).
Qed.

Lemma step_ok_batch now check changes change ids s ops s' :
  batch_change_ok now check changes change -> wf s -> clock_ok now s -> NoDup ids ->
  batchLocked check changes change ids s = Ok (ops, s') -> step_ok now s s'.
Proof.
  intros Hch Hwf Hclk Hnd H. destruct (batchLocked_wf _ _ _ _ _ _ _ _ Hch Hwf Hclk Hnd H).
  apply step_ok_no_new; try done. unfold batchLocked in H. simplify_result. apply store_changed_next.
Qed.

Lemma step_ok_transition now id next c r s op s' :
  wf s -> clock_ok now s -> lifecycle next c r EmptyString ->
  transitionLocked now id next c r s = Ok (op, s') -> step_ok now s s'.
Proof.
  intros Hwf Hclk Hl H. destruct (transitionLocked_wf _ _ _ _ _ _ _ _ Hwf Hclk Hl H).
  apply step_ok_no_new; try done. unfold transitionLocked in H. simplify_result.
  repeat case_in H; simplify_result; done.
Qed.

Lemma step_ok_append now intent initial s op s' :
  wf s -> clock_ok now s -> normalizeIntent intent = Ok intent -> (NextSequence s + 1 < two64)%N ->
  (initial = StatusLocalDirty \/ initial = StatusOfflineOnly) ->
  appendLocked now intent initial s = Ok (op, s') -> step_ok now s s'.
Proof.
  intros Hwf Hclk Hi Hb Hinit H.
  pose proof (appendLocked_wf _ _ _ _ _ _ Hwf (proj1 Hclk) Hi Hb Hinit H) as Hwf'.
  destruct (appendLocked_evolves _ _ _ _ _ _ Hb H) as (Hev & _). split_and!; try done.
  - unfold appendLocked in H. destruct (Operations s !! _); simplify_result; [lia|]. cbn.
    rewrite u64_small by done. lia.
  - intros id op' Hl Hn. unfold appendLocked in H.
    destruct (Operations s !! OperationID intent); simplify_result; [congruence|].
    cbn in Hl. rewrite lookup_insert in Hl. case_decide; simplify_eq; cbn; lia.
Qed.

Lemma step_ok_resolve now1 now2 id replacement initial s res s' :
  wf s -> clock_ok now1 s -> (0 < now1 <= now2)%Z -> (NextSequence s + 1 < two64)%N ->
  normalizeIntent replacement = Ok replacement ->
  (initial = StatusLocalDirty \/ initial = StatusOfflineOnly) -> OperationID replacement <> id ->
  resolveLocked now1 now2 id replacement initial s = Ok (res, s') -> step_ok now2 s s'.
Proof.
  intros Hwf Hclk Hle Hb Hi Hinit Hne H.
  assert (wf s' /\ evolves s s') as [Hwf' Hev].
  { eapply (resolveLocked_wf now1 now2); eauto; lia. }
  split_and!; try done; unfold resolveLocked in H; simplify_result.
  - case_in H; simplify_result;
      destruct (Operations s !! OperationID replacement) eqn:E; simplify_result; try lia.
    unfold appendLocked in *. rewrite E in *. simplify_result. cbn. rewrite u64_small by done. lia.
  - intros id' op' Hl Hn. case_in H; simplify_result;
      destruct (Operations s !! OperationID replacement) eqn:E; simplify_result; try congruence.
    unfold appendLocked in *. rewrite E in *. simplify_result. cbn in Hl.
    rewrite !lookup_insert in Hl. repeat case_decide; simplify_eq; cbn; lia.
Qed.

Lemma normalizeOperationIDs_NoDup values ids : normalizeOperationIDs values = Ok ids -> NoDup ids.
Proof.
  unfold normalizeOperationIDs. intros H. simplify_result.
  refine (foldM_inv (fun l => NoDup l) normalize_id_step _ _ _ _ _ H); [constructor|].
  intros l v l' _ Hl Hs. unfold normalize_id_step in Hs. simplify_result. simplify_guards.
  apply NoDup_app. split_and!; [done| |apply NoDup_singleton].
  intros x Hx ->%list_elem_of_singleton. done.
Qed.

Lemma normalize_id_fold values acc ids :
  foldM normalize_id_step acc values = Ok ids -> ids = acc ++ (TrimSpace <$> values).
Proof.
  revert acc. induction values as [|v values IH]; intros acc H; cbn in H; simplify_result.
  - by rewrite app_nil_r.
  - unfold normalize_id_step in Hr. simplify_result. rewrite (IH _ H). by rewrite <- app_assoc.
Qed.

Lemma normalizeOperationIDs_trim values ids :
  normalizeOperationIDs values = Ok ids -> ids = TrimSpace <$> values.
Proof. unfold normalizeOperationIDs. intros H. simplify_result. by apply normalize_id_fold in H. Qed.

Lemma conflict_identity_ident raw c : conflict_identity raw = Ok c -> ident c.
Proof.
  unfold conflict_identity. intros H. simplify_result. simplify_guards.
  repeat split; [done|apply TrimSpace_idemp|done].
Qed.

Lemma initial_check_ok initial t :
  initial_check initial t = Ok () -> initial = StatusLocalDirty \/ initial = StatusOfflineOnly.
Proof.
  unfold initial_check. intros H. apply fail_if_Ok in H.
  destruct (decide (initial = StatusLocalDirty)); [by left|]. right.
  destruct (decide (initial = StatusOfflineOnly)); [done|]. by simpl_decide.
Qed.

Lemma journal_view_wf (f : journal_file) s : view f = Some s -> wf s.
Proof. exact (view_wf f s). Qed.

(** The file shows a state reached by one correct step from [s]. *)
Definition stepped (now : time) (s : persistedState) (f : journal_file) : Prop :=
  exists s', view f = Some s' /\ step_ok now s s'.

Lemma journal_step_ok_refl now s : wf s -> step_ok now s s.
Proof. intros. by apply step_ok_no_new. Qed.

Lemma step_ok_mono now1 now2 s s' : (now1 <= now2)%Z -> step_ok now1 s s' -> step_ok now2 s s'.
Proof. intros Hle (? & ? & ? & H). split_and!; try done. intros. etrans; [by eapply H|done]. Qed.

Lemma stepped_mono now1 now2 s f : (now1 <= now2)%Z -> stepped now1 s f -> stepped now2 s f.
Proof. intros Hle (s' & Hv & Hs). exists s'. eauto using step_ok_mono. Qed.

Lemma journal_withState_stepped {A} now w (op : persistedState -> result (A * persistedState)) f s :
  view f = Some s -> (forall a s', op s = Ok (a, s') -> step_ok now s s') ->
  stepped now s (withState w true op f).2.
Proof.
  intros Hv Hop. destruct (withState w true op f) as [r f'] eqn:E.
  apply with_state_inv in E as [[->|(s0 & a & s' & _ & Hv0 & Ho & ->)] _]; [| |done].
  - exists s. split; [done|]. apply journal_step_ok_refl. by eapply journal_view_wf.
  - assert (s0 = s) as -> by congruence. pose proof (Hop _ _ Ho) as Hst. exists s'.
    split; [|done]. apply view_Decodes. apply Hst.
Qed.

Lemma journal_method_stepped {A B} now (args : result A) f (body : A -> result B * journal_file) s :
  view f = Some s -> (forall a, args = Ok a -> stepped now s (body a).2) ->
  stepped now s (method args f body).2.
Proof.
  intros Hv H. destruct args as [a|e]; cbn; [by apply H|].
  exists s. split; [done|]. apply journal_step_ok_refl. by eapply journal_view_wf.
Qed.

Lemma journal_withState_ok {A} (op : persistedState -> result (A * persistedState)) f s a s' :
  view f = Some s -> op s = Ok (a, s') -> withState io_ok true op f = (Ok a, Some (Decodes s')).
Proof. intros Hv Hop. exact (with_state_ok synced_writer eq_refl true op f s a s' Hv Hop). Qed.

Lemma sorted_result_file r : (sorted_result r).2 = r.2.
Proof. done. Qed.

Lemma transition_stepped w now id next c r f s :
  view f = Some s -> clock_ok now s -> lifecycle next c r EmptyString ->
  stepped now s (transition w now id next c r f).2.
Proof.
  intros Hv Hclk Hl. apply journal_method_stepped; [done|]. intros _ _. apply journal_withState_stepped; [done|].
  intros op s'. apply step_ok_transition; try done. by eapply journal_view_wf.
Qed.

(** Every call takes the visible state one correct step. *)
Lemma journal_apply_stepped f e s :
  view f = Some s -> clock_ok (ev_now1 e) s -> (0 < ev_now1 e <= ev_now2 e)%Z ->
  (NextSequence s + 1 < two64)%N -> stepped (ev_now2 e) s (apply f e).
Proof.
  intros Hv Hclk Hle Hb. pose proof (journal_view_wf _ _ Hv) as Hwf.
  destruct e as [w now1 now2 c]; cbn [ev_io ev_now1 ev_now2 ev_call] in *. unfold apply. cbn.
  destruct c as [i st|id|ids|id|id cid|ids cid|id i st|id root|ids root|]; cbn [exec];
    lazymatch goal with
    | |- stepped _ _ (ResolveConflict _ _ _ _ _ _ _).2 => idtac
    | _ => eapply stepped_mono; [exact (proj2 Hle)|]
    end.
  - apply journal_method_stepped; [done|]. intros i' Hi. simplify_result. destruct r0.
    apply journal_withState_stepped; [done|]. intros op s'.
    apply step_ok_append; eauto using normalizeIntent_idemp, initial_check_ok.
  - by apply transition_stepped.
  - apply journal_method_stepped; [done|]. intros ids' Hids. rewrite sorted_result_file.
    apply journal_withState_stepped; [done|]. intros ops s'.
    apply step_ok_batch; eauto using freeze_change_ok, normalizeOperationIDs_NoDup.
  - by apply transition_stepped.
  - apply journal_method_stepped; [done|]. intros c' Hc. apply transition_stepped; try done.
    by split; [eapply conflict_identity_ident|].
  - apply journal_method_stepped; [done|]. intros [ids' c'] Hc. simplify_result. rewrite sorted_result_file.
    apply journal_withState_stepped; [done|]. intros ops s'.
    apply step_ok_batch; eauto using conflict_change_ok, conflict_identity_ident, normalizeOperationIDs_NoDup.
  - apply journal_method_stepped; [done|]. intros i' Hi. simplify_result. destruct r1. simplify_guards.
    apply journal_withState_stepped; [done|]. intros res s'.
    apply step_ok_resolve; eauto using normalizeIntent_idemp, initial_check_ok.
  - apply journal_method_stepped; [done|]. intros root' Hr. simplify_result.
    apply transition_stepped; try done. repeat split. by eapply canonicalCID_canonical.
  - apply journal_method_stepped; [done|]. intros [ids' root'] Hr. simplify_result. rewrite sorted_result_file.
    apply journal_withState_stepped; [done|]. intros ops s'.
    apply step_ok_batch; eauto using complete_change_ok, canonicalCID_canonical, normalizeOperationIDs_NoDup.
  - apply journal_withState_stepped; [done|]. intros n s' Hp. destruct (pruneLocked_wf _ _ _ Hwf Hp).
    apply step_ok_no_new; try done. destruct (pruneLocked_spec s) as (? & ? & E & _ & En & _).
    rewrite E in Hp. by simplify_result.
Qed.

(** The invariant along a history that started before time [t] and has made
    [k] calls. *)
Definition history_inv (t : time) (k : N) (s : persistedState) : Prop :=
  (forall id op, Operations s !! id = Some op -> (CreatedAt op <= t)%Z) /\ (NextSequence s <= k + 1)%N.

Lemma history_step t k f e s :
  view f = Some s -> history_inv t k s -> (0 < ev_now1 e)%Z -> (t <= ev_now1 e <= ev_now2 e)%Z ->
  (k + 2 < two64)%N ->
  exists s', view (apply f e) = Some s' /\ evolves s s' /\ history_inv (ev_now2 e) (k + 1) s'.
Proof.
  intros Hv [Hc Hn] Hpos Ht Hk.
  destruct (journal_apply_stepped f e s Hv) as (s' & Hv' & Hwf' & Hev & Hn' & Hnew); [|lia|lia|].
  { split; [lia|]. intros. etrans; [by eapply Hc|lia]. }
  exists s'. split_and!; try done. split; [|lia].
  intros id op' H. destruct (Operations s !! id) as [op|] eqn:E; [|by eapply Hnew].
  destruct (ev_op _ _ Hev _ _ H) as [(op0 & H0 & _ & _ & Ec & _)|[Hid (Hu & _)]].
  - rewrite <- Ec. etrans; [by eapply Hc|lia].
  - destruct (wf_op s (journal_view_wf _ _ Hv) _ _ E) as (_ & _ & _ & Hu' & _). congruence.
Qed.

Lemma journal_history_run h t k f s :
  view f = Some s -> history_inv t k s -> clock_monotone t h ->
  (k + N.of_nat (length h) + 1 < two64)%N ->
  exists s', view (foldl apply f h) = Some s' /\ evolves s s'.
Proof.
  revert t k f s. induction h as [|e h IH]; intros t k f s Hv Hinv Hclk Hk; cbn; [by exists s|].
  destruct Hclk as (Hpos & Ht & Hclk). cbn in Hk.
  destruct (history_step t k f e s) as (s1 & Hv1 & Hev1 & Hinv1); try done; [lia|].
  destruct (IH _ (k + 1)%N _ _ Hv1 Hinv1 Hclk) as (s' & Hv' & Hev'); [lia|].
  exists s'. split; [done|]. by transitivity s1.
Qed.

Lemma history_inv_empty t : history_inv t 0 emptyState.
Proof. split; cbn; [|lia]. intros id op H. by rewrite lookup_empty in H. Qed.

(** The journal of a fresh device after a history. *)
Definition journal_after (h : list event) : journal_file := foldl apply None h.

Lemma clock_monotone_app t h1 h2 :
  clock_monotone t (h1 ++ h2) -> clock_monotone t h1.
Proof. revert t. induction h1 as [|e h1 IH]; intros t; cbn; [done|]. naive_solver. Qed.

Lemma history_prefix h1 h2 :
  clock_monotone 0%Z (h1 ++ h2) -> (N.of_nat (length (h1 ++ h2)) + 1 < two64)%N ->
  exists s1 s2, view (journal_after h1) = Some s1 /\ view (journal_after (h1 ++ h2)) = Some s2 /\
    evolves s1 s2.
Proof.
  unfold journal_after. rewrite foldl_app. intros Hclk Hlen. rewrite length_app in Hlen.
  enough (forall t k f s, view f = Some s -> history_inv t k s -> clock_monotone t (h1 ++ h2) ->
    (k + N.of_nat (length h1) + N.of_nat (length h2) + 1 < two64)%N ->
    exists s1 s2, view (foldl apply f h1) = Some s1 /\
      view (foldl apply (foldl apply f h1) h2) = Some s2 /\ evolves s1 s2) as Hgen.
  { eapply (Hgen 0%Z 0%N); [reflexivity|apply history_inv_empty|done|lia]. }
  clear Hclk Hlen. induction h1 as [|e h1 IH]; intros t k f s Hv Hinv Hclk Hk; cbn in *.
  - exists s. destruct (journal_history_run h2 t k f s) as (s2 & ? & ?); try done; [lia|]. eauto.
  - destruct Hclk as (Hpos & Ht & Hclk).
    destruct (history_step t k f e s) as (s1 & Hv1 & _ & Hinv1); try done; [lia|].
    eapply (IH _ (k + 1)%N); eauto. lia.
Qed.
End Histories.

(** ** The guarantees *)
Section Guarantees.
Context {L : CidLib} {LL : CidLaws L}.

(** The outcome of recording a fresh intent. *)
Definition appended (now : time) (s : persistedState) (intent : Intent) (initial : Status)
    : Operation * persistedState :=
  let op := mkOperation intent (NextSequence s) initial EmptyString EmptyString EmptyString now now in
  (op, mkState (Version s) (u64 (NextSequence s + 1)) (<[OperationID intent := op]> (Operations s))
         (<[OperationID intent := true]> (UsedOperationIDs s)) (<[RetryID intent := true]> (UsedRetryIDs s))).

Lemma listLocked_elem include s op :
  wf s -> op ∈ listLocked include s <-> Operations s !! op_id op = Some op /\ include (op_Status op) = true.
Proof.
  intros Hwf. unfold listLocked, by_sequence, sort_by_N. rewrite elem_of_sort_by.
  rewrite list_elem_of_In, filter_In, <- list_elem_of_In, list_elem_of_fmap. split.
  - intros [([id op'] & -> & Hin%elem_of_map_to_list) Hi].
    destruct (wf_op s Hwf _ _ Hin) as (_ & Hid & _). cbn in *. by rewrite Hid.
  - intros [H Hi]. split; [|done]. exists (op_id op, op). by rewrite elem_of_map_to_list.
Qed.

Lemma listLocked_sorted include s :
  wf s -> StronglySorted (fun a b => (Sequence a < Sequence b)%N) (listLocked include s).
Proof.
  intros Hwf. apply sort_by_N_strict.
  assert (forall op, op ∈ (map_to_list (Operations s)).*2 -> Operations s !! op_id op = Some op) as Hin.
  { intros op ([id op'] & -> & Hin%elem_of_map_to_list)%list_elem_of_fmap. cbn.
    destruct (wf_op s Hwf _ _ Hin) as (_ & Hid & _). by rewrite Hid. }
  apply NoDup_fmap_2_strong.
  - intros x y Hx%list_elem_of_In Hy%list_elem_of_In E. apply filter_In in Hx as [Hx _], Hy as [Hy _].
    apply list_elem_of_In, Hin in Hx. apply list_elem_of_In, Hin in Hy.
    pose proof (wf_sequence s Hwf _ _ _ _ Hx Hy E). congruence.
  - apply NoDup_ListNoDup, List.NoDup_filter, NoDup_ListNoDup. apply NoDup_fmap_2_strong; [|apply NoDup_map_to_list].
    intros [i x] [j y] Hx%elem_of_map_to_list Hy%elem_of_map_to_list E. cbn in E. subst.
    destruct (wf_op s Hwf _ _ Hx) as (_ & <- & _), (wf_op s Hwf _ _ Hy) as (_ & <- & _). done.
Qed.


(** C1. The journal never locks itself out.  After any history of calls, with
    any system call of any call failing, the state file still loads, provided
    the wall clock did not run backwards and fewer than 2^64 calls were made. *)
Theorem journal_always_loads h :
  clock_monotone 0%Z h -> (N.of_nat (length h) + 1 < two64)%N -> loads (journal_after h).
Proof.
  intros Hclk Hlen.
  destruct (journal_history_run h 0%Z 0%N None emptyState) as (s & Hv & _);
    [reflexivity|apply history_inv_empty|done|lia|].
  by eapply view_loads.
Qed.

(** Identities are never reused.  If a record seen at some time and a
    record seen later share the operation identity or the retry identity, then
    they are the same operation: same intent, same sequence number, and the
    later status is reachable from the earlier one.  Pruning in between does
    not free an identity. *)
Theorem journal_identity_never_reused h1 h2 s1 s2 id1 id2 op1 op2 :
  clock_monotone 0%Z (h1 ++ h2) -> (N.of_nat (length (h1 ++ h2)) + 1 < two64)%N ->
  view (journal_after h1) = Some s1 -> view (journal_after (h1 ++ h2)) = Some s2 ->
  Operations s1 !! id1 = Some op1 -> Operations s2 !! id2 = Some op2 ->
  op_id op1 = op_id op2 \/ op_retry op1 = op_retry op2 ->
  id1 = id2 /\ later op1 op2.
Proof.
  intros Hclk Hlen Hv1 Hv2 H1 H2 Heq.
  destruct (history_prefix h1 h2 Hclk Hlen) as (s1' & s2' & Hv1' & Hv2' & Hev).
  simplify_eq. pose proof (journal_view_wf _ _ Hv1) as Hwf1. pose proof (journal_view_wf _ _ Hv2) as Hwf2.
  destruct (wf_op _ Hwf1 _ _ H1) as (_ & Hid1 & _ & Huo & Hur).
  destruct (wf_op _ Hwf2 _ _ H2) as (_ & Hid2 & _).
  destruct (ev_op _ _ Hev _ _ H2) as [(op0 & H0 & Hl)|[_ (Hfo & Hfr & _)]].
  - assert (id1 = id2) as ->; [|by simplify_eq].
    destruct Heq as [E|E]; [congruence|]. eapply (wf_retry _ Hwf1); eauto.
    destruct Hl as (Hi & _). unfold op_retry in *. congruence.
  - destruct Heq as [E|E]; congruence.
Qed.

(** The statuses that a record can still reach. *)
Definition reaches (a b : Status) : bool :=
  bool_decide (a = b) ||
  match a with
  | StatusLocalDirty | StatusOfflineOnly =>
      match b with StatusOther _ => false | _ => true end
  | StatusPendingUpload =>
      match b with StatusConflicted | StatusCompleted | StatusSuperseded => true | _ => false end
  | StatusConflicted => bool_decide (b = StatusSuperseded)
  | _ => false
  end.

Lemma reaches_edge a b c : edge a b -> reaches b c = true -> reaches a c = true.
Proof.
  intros [He|[-> ->]]; [destruct a, b; try done|];
    destruct c; cbn; intros H; simplify_guards; try done; cbn in H; by simpl_decide.
Qed.

Lemma progress_reaches a b : progress a b -> reaches a b = true.
Proof.
  induction 1 as [a|a b c He _ IH]; [unfold reaches; by rewrite bool_decide_eq_true_2|].
  by eapply reaches_edge.
Qed.

(** A frozen request stays frozen, and settled work stays settled.  A
    record once pending is later pending, conflicted, completed or superseded,
    with the retry identity it was frozen with; a record that automatic replay
    skips is never replayable again. *)
Theorem journal_status_never_regresses h1 h2 s1 s2 id op1 op2 :
  clock_monotone 0%Z (h1 ++ h2) -> (N.of_nat (length (h1 ++ h2)) + 1 < two64)%N ->
  view (journal_after h1) = Some s1 -> view (journal_after (h1 ++ h2)) = Some s2 ->
  Operations s1 !! id = Some op1 -> Operations s2 !! id = Some op2 ->
  (op_Status op1 = StatusPendingUpload ->
     op_retry op2 = op_retry op1 /\
     op_Status op2 ∈ [StatusPendingUpload; StatusConflicted; StatusCompleted; StatusSuperseded]) /\
  (replayable_status (op_Status op1) = false -> replayable_status (op_Status op2) = false).
Proof.
  intros Hclk Hlen Hv1 Hv2 H1 H2.
  destruct (history_prefix h1 h2 Hclk Hlen) as (s1' & s2' & Hv1' & Hv2' & Hev). simplify_eq.
  destruct (wf_op _ (journal_view_wf _ _ Hv1) _ _ H1) as (_ & _ & _ & Hu & _).
  destruct (ev_op _ _ Hev _ _ H2) as [(op0 & H0 & Hl)|[Hid (Hf & _)]]; [|congruence].
  simplify_eq. destruct Hl as (Hi & _ & _ & Hp%progress_reaches). split.
  - intros Hs. rewrite Hs in Hp. unfold op_retry. rewrite Hi. split; [done|].
    destruct (op_Status op2); try done; set_solver.
  - destruct (op_Status op1), (op_Status op2); done.
Qed.

(** Pruning terminates and removes exactly the finished audit chains: the
    completed records and the superseded records whose replacements lead to
    one.  Unfinished work and all identity tombstones are kept, and the
    reported count is the number of removed records. *)
Theorem prune_removes_exactly_finished (f : journal_file) s :
  view f = Some s ->
  exists n f' s', PruneCompleted io_ok f = (Ok n, f') /\ view f' = Some s' /\
    (forall id, Operations s' !! id = None <-> Operations s !! id = None \/ finished (Operations s) id) /\
    (forall id op, Operations s' !! id = Some op -> Operations s !! id = Some op) /\
    (forall id op, Operations s !! id = Some op -> unfinished_status (op_Status op) = true ->
       Operations s' !! id = Some op) /\
    UsedOperationIDs s' = UsedOperationIDs s /\ UsedRetryIDs s' = UsedRetryIDs s /\
    n + size (Operations s') = size (Operations s).
Proof.
  intros Hv. destruct (pruneLocked_spec s) as (n & s' & E & _ & _ & Eo & Er & Hgone & Hkeep & Hn).
  pose proof (journal_view_wf _ _ Hv) as Hwf. destruct (pruneLocked_wf _ _ _ Hwf E) as [Hwf' _].
  exists n, (Some (Decodes s')), s'.
  assert (forall id, finished (Operations s) id \/ ~ finished (Operations s) id) as Hdec.
  { destruct (prune_selection (Operations s)) as (sel & _ & Hsel). intros id. rewrite <- Hsel.
    destruct (decide (id ∈ sel)); auto. }
  split_and!; try done.
  - unfold PruneCompleted. by eapply journal_withState_ok.
  - by apply view_Decodes.
  - intros id. destruct (Hdec id) as [Hf|Hf].
    + rewrite Hgone by done. naive_solver.
    + rewrite Hkeep by done. naive_solver.
  - intros id op Hl. by eapply pruned_lookup.
  - intros id op Hl Hu. rewrite Hkeep; [done|]. intros Hf.
    destruct Hf as [? ? Hl' Hs|? ? Hl' Hs _]; simplify_eq; by rewrite Hs in Hu.
Qed.

(** Freezing a batch is all or nothing.  Whatever fails, the file is either
    unchanged, or every selected record was replayable before, is pending
    afterwards with its intent and sequence unchanged, and no other record
    moved; success is only reported in the second case. *)
Theorem freeze_batch_all_or_nothing w now ids (f : journal_file) s r f' :
  view f = Some s -> FreezeBatchForUpload w now ids f = (r, f') ->
  (f' = f /\ is_ok r = false) \/
  exists s', f' = Some (Decodes s') /\
    (forall id, id ∉ TrimSpace <$> ids -> Operations s' !! id = Operations s !! id) /\
    (forall id, id ∈ TrimSpace <$> ids -> exists op op',
       Operations s !! id = Some op /\ Operations s' !! id = Some op' /\
       replayable_status (op_Status op) = true /\ op_Status op' = StatusPendingUpload /\
       op_Intent op' = op_Intent op /\ Sequence op' = Sequence op).
Proof.
  intros Hv H. unfold FreezeBatchForUpload in H.
  destruct (normalizeOperationIDs ids) as [ids'|e] eqn:Eids; cbn in H; [|simplify_eq; by left].
  pose proof (normalizeOperationIDs_NoDup _ _ Eids) as Hnd.
  apply normalizeOperationIDs_trim in Eids as ->.
  destruct (withState w true (freezeBatchLocked now (TrimSpace <$> ids)) f) as [r0 f0] eqn:E.
  unfold sorted_result in H. cbn in H. injection H as <- <-.
  apply with_state_cases in E as [[-> Hr]|(s0 & a & s' & Hv' & Hop & -> & _)]; [| |done].
  { left. split; [done|]. by destruct r0. }
  assert (s0 = s) as -> by congruence. right. exists s'. split; [done|].
  pose proof (journal_view_wf _ _ Hv) as Hwf. unfold freezeBatchLocked in Hop.
  split; intros id Hid; eapply (batchLocked_lookup _ _ _ _ _ _ _ id) in Hop as [El Hck]; try done.
  - by rewrite bool_decide_eq_false_2 in El.
  - rewrite bool_decide_eq_true_2 in El by done. destruct (Hck Hid) as (op & Hop' & Hc).
    rewrite Hop' in El. eexists op, _. split_and!; [done|exact El|..]; clear -Hc;
      unfold freeze_check in Hc; destruct (op_Status op) eqn:Es; simplify_result; done.
Qed.

(** Recording an intent is exactly-once under retry.  Whatever happens to
    the first attempt (success, failure before or after the rename), repeating
    it records the intent once: one record with the next sequence number, the
    counter advanced by one, every other record untouched. *)
Theorem append_retry_exactly_once w now now' intent intent' initial (f : journal_file) s r1 f1 :
  view f = Some s -> normalizeIntent intent = Ok intent' ->
  (initial = StatusLocalDirty \/ initial = StatusOfflineOnly) ->
  (0 < now)%Z -> (0 < now')%Z -> (NextSequence s + 1 < two64)%N ->
  used (UsedOperationIDs s) (OperationID intent') = false ->
  used (UsedRetryIDs s) (RetryID intent') = false ->
  Append w now intent initial f = (r1, f1) ->
  exists op f2 s2, Append io_ok now' intent initial f1 = (Ok op, f2) /\ view f2 = Some s2 /\
    Operations s2 = <[OperationID intent' := op]> (Operations s) /\
    op_Intent op = intent' /\ op_Status op = initial /\ Sequence op = NextSequence s /\
    NextSequence s2 = (NextSequence s + 1)%N.
Proof.
  intros Hv Hi Hinit Hn Hn' Hb Hu Hr H. pose proof (journal_view_wf _ _ Hv) as Hwf.
  pose proof (normalizeIntent_idemp _ _ Hi) as Hi'.
  assert (forall w now f, Append w now intent initial f =
    withState w true (appendLocked now intent' initial) f) as EA.
  { intros. unfold Append. rewrite Hi. cbn. unfold initial_check. by destruct Hinit as [->| ->]. }
  rewrite EA in H. setoid_rewrite (EA io_ok).
  pose proof (fun t Ht => wf_append s t intent' initial Hwf Ht Hi' Hb Hinit Hu Hr) as Hwf1.
  assert (forall t, appendLocked t intent' initial s = Ok (appended t s intent' initial)) as Ea.
  { intros t. unfold appendLocked. rewrite (used_false_lookup s) by done. by rewrite Hu, Hr. }
  apply with_state_cases in H as [[-> _]|(s0 & a & s1 & Hv0 & Hop & -> & _)]; [| |done].
  - eexists _, _, _. split; [eapply journal_withState_ok; [exact Hv|apply Ea]|].
    split; [apply view_Decodes, Hwf1; lia|]. cbn. by rewrite u64_small.
  - assert (s0 = s) as -> by congruence. rewrite Ea in Hop. simplify_result.
    eexists _, _, _. split; [eapply journal_withState_ok; [apply view_Decodes, Hwf1; lia|]|].
    { unfold appendLocked, appended. cbn. rewrite lookup_insert_eq. cbn. by rewrite bool_decide_eq_true_2. }
    split; [apply view_Decodes, Hwf1; lia|]. cbn. by rewrite u64_small.
Qed.

(** Replay order.  [Replayable] returns exactly the records that still
    have to be replayed, in strictly increasing sequence order, and does not
    change the file. *)
Theorem replayable_sorted_and_exact (f : journal_file) s :
  view f = Some s ->
  exists ops, Replayable io_ok f = (Ok ops, f) /\
    StronglySorted (fun a b => (Sequence a < Sequence b)%N) ops /\
    (forall op, op ∈ ops <-> Operations s !! op_id op = Some op /\
       replayable_status (op_Status op) = true).
Proof.
  intros Hv. exists (listLocked replayable_status s). pose proof (journal_view_wf _ _ Hv) as Hwf.
  split.
  { unfold Replayable, list_ops, withState. by erewrite with_state_ok. }
  split; [by apply listLocked_sorted|].
  intros op. by apply listLocked_elem.
Qed.

(** Resolving a conflict is idempotent.  After a resolution took effect
    the conflicted record is superseded, keeps its conflict identity, and
    names a replacement with the requested intent and a later sequence
    number; repeating the call returns the same pair and changes nothing. *)
Theorem resolve_conflict_idempotent w n1 n2 n3 n4 id replacement initial (f : journal_file) s cur next f1 :
  view f = Some s -> clock_ok n1 s -> (0 < n1 <= n2)%Z -> (NextSequence s + 1 < two64)%N ->
  ResolveConflict w n1 n2 id replacement initial f = (Ok (cur, next), f1) ->
  op_Status cur = StatusSuperseded /\ ReplacementOperationID cur = op_id next /\
  (Sequence cur < Sequence next)%N /\ normalizeIntent replacement = Ok (op_Intent next) /\
  (exists cur0, Operations s !! TrimSpace id = Some cur0 /\ op_Intent cur = op_Intent cur0 /\
     ConflictID cur = ConflictID cur0) /\
  ResolveConflict io_ok n3 n4 id replacement initial f1 = (Ok (cur, next), f1).
Proof.
  intros Hv Hclk Hn Hb H. pose proof (journal_view_wf _ _ Hv) as Hwf.
  unfold ResolveConflict in *. set (args := mbind _ _) in *.
  destruct args as [rep|] eqn:Ea; cbn [method] in *; [|done]. unfold args in Ea. simplify_result. simplify_guards.
  destruct r1. apply with_state_inv in H as [_ H]; [|done].
  destruct (H _ eq_refl) as (s0 & s1 & Hv0 & Hop & ->). assert (s0 = s) as -> by congruence.
  assert (wf s1 /\ evolves s s1) as [Hwf1 _].
  { eapply (resolveLocked_wf n1 n2); try done; [lia|lia|by eapply normalizeIntent_idemp|by eapply initial_check_ok]. }
  destruct (resolveLocked_spec _ _ _ _ _ _ _ _ _ Hwf ltac:(done) Hop) as (Hs & Hrep & Hi & Hc & Hx & Hcur0).
  assert ((Sequence cur < Sequence next)%N) as Hlt.
  { destruct (wf_replacement _ Hwf1 _ _ Hc Hs) as (rp & Hrp & Hlt & _). rewrite Hrep in Hrp. congruence. }
  split_and!; try done; [congruence|].
  eapply journal_withState_ok; [by apply view_Decodes|].
  unfold resolveLocked. rewrite Hc. cbn [or_err mbind result_bind]. rewrite Hs.
  unfold op_id in Hrep, Hx. rewrite Hi in Hrep, Hx. rewrite Hrep, Hx.
  rewrite !bool_decide_eq_true_2 by done. done.
Qed.

(** C39. The loader rejects what a writer accepts when the clock runs backwards:
    freezing a record at a time before its creation reports success and leaves
    a file that no longer loads. *)
Theorem clock_regression_unloadable now id (f : journal_file) s op :
  view f = Some s -> Operations s !! TrimSpace id = Some op ->
  (op_Status op = StatusLocalDirty \/ op_Status op = StatusOfflineOnly) ->
  (0 < now < CreatedAt op)%Z ->
  exists op' f', FreezeForUpload io_ok now id f = (Ok op', f') /\ ~ loads f'.
Proof.
  intros Hv Hop Hst Hnow. pose proof (journal_view_wf _ _ Hv) as Hwf.
  destruct (wf_op s Hwf _ _ Hop) as (_ & Hid & _ & Hu & _).
  destruct (wf_used_op s Hwf (TrimSpace id) true) as (_ & Hne & _ & Hval).
  { unfold used in Hu. destruct (UsedOperationIDs s !! TrimSpace id) as [[]|]; done. }
  unfold FreezeForUpload, transition. rewrite bool_decide_eq_false_2, Hval by done. cbn [orb negb fail_if method].
  eexists _, _. split.
  - eapply journal_withState_ok; [exact Hv|]. unfold transitionLocked. rewrite Hop. cbn [or_err mbind result_bind].
    rewrite bool_decide_eq_false_2 by (destruct Hst; congruence).
    by destruct Hst as [->| ->].
  - intros [s' Hdec]. eapply (decode_keeps_order _ _ (TrimSpace id)) in Hdec;
      [|cbn; by rewrite lookup_insert_eq]. cbn in Hdec. lia.
Qed.
End Guarantees.

(** ** Witnesses

    A device that records two writes, freezes them, hits a conflict and
    resolves it, with system calls failing on the way. *)
Module Witness.
Definition write_intent (op retry path : string) : Intent :=
  mkIntent op retry "data" "main" "bafya" 3%N KindWrite path EmptyString "bafyaa" 0%N.
Definition early : list event :=
  [Event io_ok 5 5 (CallAppend (write_intent "op1" "retry1" "docs/a") StatusLocalDirty);
   Event (io_fail SyncParent) 6 6 (CallAppend (write_intent "op2" "retry2" "docs/b") StatusLocalDirty);
   Event io_ok 7 7 (CallFreezeBatch ["op1"; "op2"])].
Definition late : list event :=
  [Event (io_fail Rename) 8 8 (CallComplete "op1" "bafyaaa");
   Event io_ok 9 9 (CallComplete "op1" "bafyaaa");
   Event io_ok 9 9 (CallConflicted "op2" "conflict-1");
   Event io_ok 10 11 (CallResolve "op2" (write_intent "op3" "retry3" "docs/b") StatusLocalDirty);
   Event io_ok 12 12 CallPrune].
Definition seen (h : list event) : persistedState := default emptyState (view (journal_after h)).
Definition record (h : list event) (id : string) : Operation :=
  default (mkOperation (write_intent "x" "x" "x") 1%N StatusLocalDirty EmptyString EmptyString EmptyString 1 1)
    (Operations (seen h) !! id).

Ltac evaluate := vm_compute; reflexivity.

Lemma early_seen : view (journal_after early) = Some (seen early).
Proof. evaluate. Qed.
Lemma clock_early : clock_monotone 0 (early ++ late).
Proof. cbn. lia. Qed.

Lemma journal_always_loads_witness : loads (journal_after (early ++ late)).
Proof. apply journal_always_loads; [exact clock_early|reflexivity]. Defined.

Lemma journal_identity_never_reused_witness :
  "op2" = "op2" /\ later (record early "op2") (record (early ++ late) "op2").
Proof.
  apply (journal_identity_never_reused early late (seen early) (seen (early ++ late)));
    [exact clock_early|reflexivity|evaluate|evaluate|evaluate|evaluate|left; evaluate].
Defined.

Lemma journal_status_never_regresses_witness :
  op_Status (record (early ++ late) "op2") ∈
    [StatusPendingUpload; StatusConflicted; StatusCompleted; StatusSuperseded].
Proof.
  apply (journal_status_never_regresses early late (seen early) (seen (early ++ late)) "op2"
           (record early "op2") (record (early ++ late) "op2"));
    [exact clock_early|reflexivity|evaluate|evaluate|evaluate|evaluate|evaluate].
Defined.

Lemma prune_removes_exactly_finished_witness :
  exists n f', PruneCompleted io_ok (journal_after (early ++ take 4 late)) = (Ok n, f').
Proof.
  destruct (prune_removes_exactly_finished (journal_after (early ++ take 4 late))
              (seen (early ++ take 4 late))) as (n & f' & _ & H & _); [evaluate|eauto].
Defined.

Definition two_dirty : journal_file := journal_after (take 2 early).
Definition frozen := FreezeBatchForUpload (io_fail SyncParent) 7 ["op1"; " op2 "] two_dirty.

Lemma freeze_batch_all_or_nothing_witness :
  is_ok frozen.1 = false /\
  exists s' op, frozen.2 = Some (Decodes s') /\ Operations s' !! "op2" = Some op /\
    op_Status op = StatusPendingUpload.
Proof.
  split; [evaluate|].
  destruct (freeze_batch_all_or_nothing (io_fail SyncParent) 7 ["op1"; " op2 "] two_dirty
    (seen (take 2 early)) frozen.1 frozen.2) as [[E _]|(s' & E & _ & H)].
  - evaluate.
  - apply surjective_pairing.
  - vm_compute in E. discriminate E.
  - destruct (H "op2") as (op & op' & _ & H' & _ & Hs & _); [right; left|]. exists s', op'. exact (conj E (conj H' Hs)).
Defined.

Lemma append_retry_exactly_once_witness :
  exists op, (Append io_ok 8 (write_intent "op3" "retry3" "docs/c") StatusLocalDirty
     (Append (io_fail SyncParent) 7 (write_intent "op3" "retry3" "docs/c") StatusLocalDirty two_dirty).2).1
    = Ok op /\ Sequence op = 3%N.
Proof.
  destruct (append_retry_exactly_once (io_fail SyncParent) 7 8 (write_intent "op3" "retry3" "docs/c")
    (write_intent "op3" "retry3" "docs/c") StatusLocalDirty two_dirty (seen (take 2 early))
    (Append (io_fail SyncParent) 7 (write_intent "op3" "retry3" "docs/c") StatusLocalDirty two_dirty).1
    (Append (io_fail SyncParent) 7 (write_intent "op3" "retry3" "docs/c") StatusLocalDirty two_dirty).2)
    as (op & f2 & s2 & E & _ & _ & _ & _ & Es & _).
  - evaluate.
  - evaluate.
  - by left.
  - lia.
  - lia.
  - evaluate.
  - evaluate.
  - evaluate.
  - apply surjective_pairing.
  - exists op. rewrite E. split; [reflexivity|]. rewrite Es. evaluate.
Defined.

Lemma replayable_sorted_and_exact_witness :
  exists ops, Replayable io_ok two_dirty = (Ok ops, two_dirty) /\
    StronglySorted (fun a b => (Sequence a < Sequence b)%N) ops.
Proof.
  destruct (replayable_sorted_and_exact two_dirty (seen (take 2 early))) as (ops & ? & ? & _);
    [evaluate|eauto].
Defined.

Definition conflicted : journal_file := journal_after (early ++ take 3 late).
Definition resolution := write_intent "op3" "retry3" "docs/b".
Definition resolved (n1 n2 : time) (f : journal_file) :=
  ResolveConflict io_ok n1 n2 "op2" resolution StatusOfflineOnly f.
Definition resolved_pair : Operation * Operation :=
  match (resolved 10 11 conflicted).1 with
  | Ok p => p
  | Err _ => (record early "op1", record early "op1")
  end.

Lemma resolve_conflict_idempotent_witness :
  resolved 12 13 (resolved 10 11 conflicted).2 = (Ok resolved_pair, (resolved 10 11 conflicted).2).
Proof.
  destruct (resolve_conflict_idempotent io_ok 10 11 12 13 "op2" resolution StatusOfflineOnly conflicted
    (seen (early ++ take 3 late)) resolved_pair.1 resolved_pair.2 (resolved 10 11 conflicted).2)
    as (_ & _ & _ & _ & _ & E).
  - evaluate.
  - split; [done|]. intros id op H.
    assert (Forall (fun kv => (CreatedAt kv.2 <= 10)%Z) (map_to_list (Operations (seen (early ++ take 3 late))))) as HF
      by (vm_compute; repeat constructor; discriminate).
    rewrite Forall_forall in HF. by apply (HF (id, op)), elem_of_map_to_list.
  - lia.
  - evaluate.
  - evaluate.
  - exact E.
Defined.

Lemma clock_regression_unloadable_witness :
  exists op' f', FreezeForUpload io_ok 4 "op1" two_dirty = (Ok op', f') /\ ~ loads f'.
Proof.
  apply (clock_regression_unloadable 4 "op1" two_dirty (seen (take 2 early)) (record (take 2 early) "op1"));
    [evaluate|evaluate|left; evaluate|vm_compute; done].
Defined.
End Witness.
