(* ===== verification/Trust.v ===== *)
(** The trust store (trust/store.go, trust/policy.go): the roots that the local
    runtime accepted, kept apart from locally verified candidates and from
    remote observations.

    Data model and operations.  The state of [Store] is its file; each method
    is one critical section.  Methods that read the clock take the time they
    read. *)

From stdpp Require Import base decidable gmap strings list sorting.
From S2P Require Import Prelude GoText CidLib Durable.

Definition trustStoreVersion : N := 2.

Definition ErrNotFound := ErrorsNew "trusted-root alias not found".
Definition ErrNoAcceptedRoot := ErrorsNew "trusted-root alias has no accepted root".
Definition ErrCandidateNotFound := ErrorsNew "candidate root not found".
Definition ErrObservationNotFound := ErrorsNew "observed root not found".
Definition ErrStaleCandidate := ErrorsNew "candidate is based on a stale accepted root".
Definition ErrAcceptedRootChanged := ErrorsNew "accepted root changed before guarded operation".
Definition ErrStaleObservation := ErrorsNew "remote head observation is stale".
Definition ErrConflictingObservation :=
  ErrorsNew "remote head observation conflicts at the same revision".

Record CandidateRoot := mkCandidate {
  cand_Root : string;
  cand_BaseRoot : string;
  cand_Source : string;
  cand_ObservedAt : time
}.

Record AcceptedRootState := mkAccepted {
  acc_Root : string;
  acc_PreviousRoot : string;
  acc_Source : string;
  acc_AcceptedAt : time
}.

Record ObservedHead := mkObserved {
  obs_Source : string;
  obs_DatasetID : string;
  obs_Branch : string;
  obs_CommitID : string;
  obs_Root : string;
  obs_Revision : N;
  obs_ObservedAt : time
}.

Record RootState := mkRootState {
  Alias : string;
  Profile : string;
  Gateway : string;
  Accepted : option AcceptedRootState;
  Candidates : list CandidateRoot;
  ObservedHeads : list ObservedHead
}.

#[global] Instance CandidateRoot_eq_dec : EqDecision CandidateRoot.
Proof. solve_decision. Defined.
#[global] Instance AcceptedRootState_eq_dec : EqDecision AcceptedRootState.
Proof. solve_decision. Defined.
#[global] Instance ObservedHead_eq_dec : EqDecision ObservedHead.
Proof. solve_decision. Defined.
#[global] Instance RootState_eq_dec : EqDecision RootState.
Proof. solve_decision. Defined.

Record state := mkTrustState { trust_Version : N; Roots : gmap string RootState }.

Definition emptyState : state := mkTrustState trustStoreVersion ∅.

(** The zero value that a Go map yields for a missing alias. *)
Definition zeroRootState : RootState :=
  mkRootState EmptyString EmptyString EmptyString None [] [].

Definition normalizeAlias (alias : string) : string := TrimSpace alias.

(** ** Observations *)
Definition observationKey (value : ObservedHead) : string :=
  obs_Source value +:+ nul +:+ obs_DatasetID value +:+ nul +:+ obs_Branch value.

Definition sortObservations (values : list ObservedHead) : list ObservedHead :=
  sort_by_string observationKey values.

(** The loop of [upsertObservation]: replace the entry of the same stream, or
    append. *)
Fixpoint replace_observation (values : list ObservedHead) (incoming : ObservedHead)
    : result (list ObservedHead) :=
  match values with
  | [] => Ok [incoming]
  | existing :: values' =>
      if negb (bool_decide (observationKey existing = observationKey incoming)) then
        rest ← replace_observation values' incoming; Ok (existing :: rest)
      else
      _ ← fail_if (N.ltb (obs_Revision incoming) (obs_Revision existing))
            (Wrapf "observed revision" ErrStaleObservation);
      _ ← fail_if (bool_decide (obs_Revision incoming = obs_Revision existing) &&
                   (negb (bool_decide (obs_CommitID incoming = obs_CommitID existing)) ||
                    negb (bool_decide (obs_Root incoming = obs_Root existing))))
            (Wrapf "revision" ErrConflictingObservation);
      Ok (incoming :: values')
  end.

Definition upsertObservation (values : list ObservedHead) (incoming : ObservedHead)
    : result (list ObservedHead) :=
  out ← replace_observation values incoming; Ok (sortObservations out).

Definition removeCandidate (values : list CandidateRoot) (root : string) : list CandidateRoot :=
  List.filter (fun value => negb (bool_decide (cand_Root value = root))) values.

(** ** Promotion *)
Definition acceptRoot (value : RootState) (root source : string) (acceptedAt : time) : RootState :=
  let previous :=
    match Accepted value with
    | Some accepted => if negb (bool_decide (acc_Root accepted = root))
                       then acc_Root accepted else acc_PreviousRoot accepted
    | None => EmptyString
    end in
  mkRootState (Alias value) (Profile value) (Gateway value)
    (Some (mkAccepted root previous source acceptedAt))
    (match Accepted value with None => [] | Some _ => removeCandidate (Candidates value) root end)
    (ObservedHeads value).

Definition set_Alias (value : RootState) (alias : string) : RootState :=
  mkRootState alias (Profile value) (Gateway value) (Accepted value) (Candidates value)
    (ObservedHeads value).
Definition set_Remote (value : RootState) (profile gateway : string) : RootState :=
  mkRootState (Alias value) profile gateway (Accepted value) (Candidates value)
    (ObservedHeads value).
Definition set_Candidates (value : RootState) (candidates : list CandidateRoot) : RootState :=
  mkRootState (Alias value) (Profile value) (Gateway value) (Accepted value) candidates
    (ObservedHeads value).
Definition set_ObservedHeads (value : RootState) (heads : list ObservedHead) : RootState :=
  mkRootState (Alias value) (Profile value) (Gateway value) (Accepted value) (Candidates value) heads.

Definition put_root (s : state) (alias : string) (value : RootState) : state :=
  mkTrustState (trust_Version s) (<[alias := value]> (Roots s)).

(** [value := s.state.Roots[alias]; value.Alias = alias]. *)
Definition root_for (s : state) (alias : string) : RootState :=
  set_Alias (default zeroRootState (Roots s !! alias)) alias.

Section Trust.
Context {L : CidLib}.

Definition normalizeObservation (value : ObservedHead) : result ObservedHead :=
  let source := TrimSpace (obs_Source value) in
  let dataset := TrimSpace (obs_DatasetID value) in
  let branch := TrimSpace (obs_Branch value) in
  let commit := TrimSpace (obs_CommitID value) in
  let root := TrimSpace (obs_Root value) in
  _ ← fail_if (bool_decide (source = EmptyString) || bool_decide (dataset = EmptyString) ||
               bool_decide (branch = EmptyString))
        (Errorf "observed head source, dataset, and branch are required");
  if bool_decide (commit = EmptyString) then
    _ ← fail_if (negb (bool_decide (root = EmptyString)) || negb (bool_decide (obs_Revision value = 0%N)))
          (Errorf "empty observed head has a partial commit tuple");
    Ok (mkObserved source dataset branch commit root (obs_Revision value) (obs_ObservedAt value))
  else
  _ ← fail_if (bool_decide (root = EmptyString) || bool_decide (obs_Revision value = 0%N))
        (Errorf "observed head has an incomplete commit tuple");
  root ← wrap_err "observed head has invalid root" (canonicalCID root);
  Ok (mkObserved source dataset branch commit root (obs_Revision value) (obs_ObservedAt value)).

(** ** Loading ([reloadLocked], [normalizeRootState]) *)
Definition normalizeAccepted (accepted : AcceptedRootState) : result AcceptedRootState :=
  root ← wrap_err "invalid accepted root" (canonicalCID (acc_Root accepted));
  previous ← wrap_err "invalid previous root" (canonicalOptionalCID (acc_PreviousRoot accepted));
  let previous := if bool_decide (previous = root) then EmptyString else previous in
  Ok (mkAccepted root previous (acc_Source accepted) (acc_AcceptedAt accepted)).

Definition candidate_step (accepted : option AcceptedRootState) (candidates : list CandidateRoot)
    (candidate : CandidateRoot) : result (list CandidateRoot) :=
  root ← wrap_err "candidate has invalid root" (canonicalCID (cand_Root candidate));
  base ← wrap_err "candidate has invalid base root" (canonicalOptionalCID (cand_BaseRoot candidate));
  let candidate := mkCandidate root base (cand_Source candidate) (cand_ObservedAt candidate) in
  match accepted with
  | None =>
      _ ← fail_if (negb (bool_decide (base = EmptyString))) (Errorf "bootstrap candidate has a base root");
      Ok (removeCandidate candidates root ++ [candidate])
  | Some accepted =>
      _ ← fail_if (bool_decide (base = EmptyString)) (Errorf "candidate has no accepted base root");
      if bool_decide (root = acc_Root accepted) then Ok candidates
      else Ok (removeCandidate candidates root ++ [candidate])
  end.

Definition set_ObservedAt (value : ObservedHead) (at_ : time) : ObservedHead :=
  mkObserved (obs_Source value) (obs_DatasetID value) (obs_Branch value) (obs_CommitID value)
    (obs_Root value) (obs_Revision value) at_.

Definition observation_step (observations : list ObservedHead) (observation : ObservedHead)
    : result (list ObservedHead) :=
  _ ← fail_if (time_IsZero (obs_ObservedAt observation)) (Errorf "observation has no observation time");
  normalized ← wrap_err "observation is invalid" (normalizeObservation observation);
  let normalized := set_ObservedAt normalized (obs_ObservedAt observation) in
  wrap_err "observation is invalid" (upsertObservation observations normalized).

Definition normalizeRootState (alias : string) (value : RootState) : result RootState :=
  let canonicalAlias := normalizeAlias alias in
  _ ← fail_if (bool_decide (canonicalAlias = EmptyString) || negb (bool_decide (canonicalAlias = alias)))
        (Errorf "trust store contains invalid alias key");
  let given := if bool_decide (Alias value = EmptyString) then alias else Alias value in
  _ ← fail_if (negb (bool_decide (normalizeAlias given = alias)))
        (Errorf "trust-store alias contains mismatched identity");
  accepted ← match Accepted value with
             | None => Ok None
             | Some accepted => accepted ← normalizeAccepted accepted; Ok (Some accepted)
             end;
  candidates ← foldM (candidate_step accepted) [] (Candidates value);
  observations ← foldM observation_step [] (ObservedHeads value);
  _ ← fail_if (bool_decide (accepted = None) && bool_decide (candidates = []) &&
               bool_decide (observations = []))
        (Errorf "alias has no accepted root, candidate, or observation");
  Ok (mkRootState alias (Profile value) (Gateway value) accepted candidates observations).

Definition normalize_entry (item : string * RootState) : result (string * RootState) :=
  value ← normalizeRootState item.1 item.2; Ok (item.1, value).

Definition decode (next : state) : result state :=
  _ ← fail_if (negb (bool_decide (trust_Version next = trustStoreVersion)))
        (Errorf "unsupported trust-store version");
  entries ← mapM normalize_entry (map_to_list (Roots next));
  Ok (mkTrustState (trust_Version next) (list_to_map entries)).

(** ** The bodies of the methods under the lock; [None] when the method
    returns without writing. *)
Definition trustLocked (now : time) (alias root profile gateway source : string) (s : state)
    : result (RootState * option state) :=
  let value := acceptRoot (set_Remote (root_for s alias) profile gateway) root source now in
  Ok (value, Some (put_root s alias value)).

Definition addCandidateLocked (now : time) (alias root baseRoot source : string) (s : state)
    : result (RootState * option state) :=
  let value := root_for s alias in
  _ ← match Accepted value with
      | None => fail_if (negb (bool_decide (baseRoot = EmptyString)))
                  (Wrapf "bootstrap candidate has unexpected base" ErrStaleCandidate)
      | Some accepted => fail_if (negb (bool_decide (baseRoot = acc_Root accepted)))
                           (Wrapf "candidate base" ErrStaleCandidate)
      end;
  if match Accepted value with Some accepted => bool_decide (root = acc_Root accepted) | None => false end
  then Ok (value, None)
  else
    let value := set_Candidates value
                   (removeCandidate (Candidates value) root ++ [mkCandidate root baseRoot source now]) in
    Ok (value, Some (put_root s alias value)).

Definition observeLocked (alias : string) (observation : ObservedHead) (s : state)
    : result (RootState * option state) :=
  let value := root_for s alias in
  heads ← upsertObservation (ObservedHeads value) observation;
  let value := set_ObservedHeads value heads in
  Ok (value, Some (put_root s alias value)).

Definition acceptCandidateLocked (now : time) (alias root source : string) (s : state)
    : result (RootState * option state) :=
  value ← or_err (Roots s !! alias) ErrNotFound;
  candidate ← or_err (List.find (fun item => bool_decide (cand_Root item = root)) (Candidates value))
                ErrCandidateNotFound;
  _ ← match Accepted value with
      | None => fail_if (negb (bool_decide (cand_BaseRoot candidate = EmptyString)))
                  (Wrapf "bootstrap candidate base" ErrStaleCandidate)
      | Some accepted =>
          fail_if (bool_decide (cand_BaseRoot candidate = EmptyString) ||
                   negb (bool_decide (cand_BaseRoot candidate = acc_Root accepted)))
            (Wrapf "candidate base" ErrStaleCandidate)
      end;
  let value := acceptRoot value root source now in
  Ok (value, Some (put_root s alias value)).

Definition acceptObservedLocked (now : time) (alias root profile gateway source : string) (s : state)
    : result (RootState * option state) :=
  value ← or_err (Roots s !! alias) ErrNotFound;
  _ ← fail_if (negb (existsb (fun o => bool_decide (obs_Root o = root)) (ObservedHeads value)))
        ErrObservationNotFound;
  let value := acceptRoot (set_Remote value profile gateway) root source now in
  Ok (value, Some (put_root s alias value)).

(** ** The invariant of the file *)
Definition accepted_ok (a : AcceptedRootState) : Prop :=
  canonical (acc_Root a) /\ (acc_PreviousRoot a = EmptyString \/ canonical (acc_PreviousRoot a)) /\
  acc_PreviousRoot a <> acc_Root a.

Definition candidate_ok (accepted : option AcceptedRootState) (c : CandidateRoot) : Prop :=
  canonical (cand_Root c) /\
  match accepted with
  | None => cand_BaseRoot c = EmptyString
  | Some a => canonical (cand_BaseRoot c) /\ cand_Root c <> acc_Root a
  end.

Definition observation_ok (o : ObservedHead) : Prop :=
  normalizeObservation o = Ok o /\ obs_ObservedAt o <> 0%Z.

Record root_shape (alias : string) (v : RootState) : Prop := {
  ro_alias : alias <> EmptyString /\ TrimSpace alias = alias /\ Alias v = alias;
  ro_accepted : match Accepted v with None => True | Some a => accepted_ok a end;
  ro_candidates : Forall (candidate_ok (Accepted v)) (Candidates v);
  ro_candidates_nodup : NoDup (cand_Root <$> Candidates v);
  ro_observations : Forall observation_ok (ObservedHeads v);
  ro_observations_nodup : NoDup (observationKey <$> ObservedHeads v);
  ro_observations_sorted : StronglySorted (key_le observationKey String.leb) (ObservedHeads v)
}.

Definition root_ok (alias : string) (v : RootState) : Prop :=
  root_shape alias v /\ (Accepted v <> None \/ Candidates v <> [] \/ ObservedHeads v <> []).

Definition wf (s : state) : Prop :=
  trust_Version s = trustStoreVersion /\ forall alias v, Roots s !! alias = Some v -> root_ok alias v.

#[export] Instance trust_store : DurableStore state :=
  {| ds_empty := emptyState; ds_decode := decode; ds_wf := wf |}.

Definition trust_file := file state.

Definition locked {A} (w : io) (op : state -> result (A * option state)) (f : trust_file)
    : result A * trust_file := critical synced_writer w op f.

(** A method that first validates its arguments. *)
Definition method {A B} (args : result A) (f : trust_file) (body : A -> result B * trust_file)
    : result B * trust_file :=
  match args with Err e => (Err e, f) | Ok a => body a end.

(** ** The exported methods *)
Definition Open (w : io) (path : string) (f : trust_file) : result unit * trust_file :=
  method (fail_if (bool_decide (TrimSpace path = EmptyString)) (Errorf "trust-store path is empty")) f
    (fun _ => locked w (fun _ => Ok ((), None)) f).

Definition ListStates (w : io) (f : trust_file) : result (list RootState) * trust_file :=
  locked w (fun s => Ok (sort_by_string Alias (map_to_list (Roots s)).*2, None)) f.

Definition GetState (w : io) (alias : string) (f : trust_file) : result RootState * trust_file :=
  locked w (fun s => v ← or_err (Roots s !! normalizeAlias alias) ErrNotFound; Ok (v, None)) f.

(** The callback runs under the lock and may change other state [X]; [None]
    is the nil callback. *)
Definition WithAcceptedRoot {X} (w : io) (alias expectedRoot : string)
    (operation : option (X -> result unit * X)) (f : trust_file) (x : X) : result unit * X :=
  let alias := normalizeAlias alias in
  match
    (_ ← fail_if (bool_decide (alias = EmptyString)) (Errorf "trusted-root alias is empty");
     expected ← wrap_err "invalid expected accepted root" (canonicalCID expectedRoot);
     operation ← or_err operation (Errorf "accepted-root guarded operation is nil");
     (locked w (fun s =>
        value ← or_err (Roots s !! alias) ErrNotFound;
        accepted ← or_err (Accepted value) ErrNoAcceptedRoot;
        _ ← fail_if (negb (bool_decide (acc_Root accepted = expected)))
              (Wrapf "expected" ErrAcceptedRootChanged);
        Ok (operation, None)) f).1)
  with
  | Err e => (Err e, x)
  | Ok operation => operation x
  end.

Definition Trust (w : io) (now : time) (alias root profile gateway source : string) (f : trust_file) :=
  let alias := normalizeAlias alias in
  method (_ ← fail_if (bool_decide (alias = EmptyString)) (Errorf "trusted-root alias is empty");
          wrap_err "invalid trusted root" (canonicalCID root)) f (fun root =>
  locked w (trustLocked now alias root profile gateway source) f).

Definition AddCandidate (w : io) (now : time) (alias root baseRoot source : string) (f : trust_file) :=
  let alias := normalizeAlias alias in
  method (_ ← fail_if (bool_decide (alias = EmptyString)) (Errorf "candidate alias is empty");
          root ← wrap_err "invalid candidate root" (canonicalCID root);
          base ← (if negb (bool_decide (TrimSpace baseRoot = EmptyString))
                  then wrap_err "invalid candidate base root" (canonicalCID baseRoot)
                  else Ok EmptyString);
          Ok (root, base)) f (fun '(root, base) =>
  locked w (addCandidateLocked now alias root base source) f).

Definition ObserveHead (w : io) (now : time) (alias : string) (observation : ObservedHead)
    (f : trust_file) :=
  let alias := normalizeAlias alias in
  method (_ ← fail_if (bool_decide (alias = EmptyString)) (Errorf "observed-head alias is empty");
          normalizeObservation observation) f (fun observation =>
  locked w (observeLocked alias (set_ObservedAt observation now)) f).

Definition AcceptCandidate (w : io) (now : time) (alias root source : string) (f : trust_file) :=
  let alias := normalizeAlias alias in
  method (wrap_err "invalid candidate root" (canonicalCID root)) f (fun root =>
  locked w (acceptCandidateLocked now alias root source) f).

Definition AcceptObserved (w : io) (now : time) (alias root profile gateway source : string)
    (f : trust_file) :=
  let alias := normalizeAlias alias in
  method (wrap_err "invalid observed root" (canonicalCID root)) f (fun root =>
  locked w (acceptObservedLocked now alias root profile gateway source) f).

(** [AcceptedRoot] over any policy that answers [GetState]; [None] is the nil
    interface. *)
Definition AcceptedRoot (policy : option (string -> result RootState)) (alias : string)
    : result (Cid * RootState) :=
  getState ← or_err policy (Errorf "trusted-root policy is nil");
  record ← getState alias;
  accepted ← or_err (Accepted record) ErrNoAcceptedRoot;
  root ← wrap_err "accepted root is invalid" (parse_cid (acc_Root accepted));
  Ok (root, record).
End Trust.

#[global] Arguments normalizeObservation : simpl never.
#[global] Arguments observationKey : simpl never.
#[global] Arguments sortObservations : simpl never.
#[global] Arguments root_for : simpl never.
