(* ===== verification/TrustFacts.v ===== *)
(** The trust store's loader and the effect of each method: decoding is the
    identity on well-formed states and yields well-formed states, and every
    method keeps the state well-formed. *)

From stdpp Require Import base decidable gmap strings list sorting.
From S2P Require Import Prelude GoText CidLib Durable Trust.

(** ** Observation streams *)

(** A later observation of the same stream: the revision does not regress, and
    the same revision names the same commit. *)
Definition observed_after (o o' : ObservedHead) : Prop :=
  observationKey o' = observationKey o /\ (obs_Revision o <= obs_Revision o')%N /\
  (obs_Revision o = obs_Revision o' -> obs_CommitID o' = obs_CommitID o /\ obs_Root o' = obs_Root o).

#[export] Instance observed_after_preorder : PreOrder observed_after.
Proof.
  split.
  - intros o. split_and!; [done|lia|done].
  - intros a b c (K1 & L1 & E1) (K2 & L2 & E2). split_and!; [congruence|lia|].
    intros E. destruct E1 as [? ?]; [lia|]. destruct E2; [lia|]. split; congruence.
Qed.

Lemma replace_observation_spec values x out :
  replace_observation values x = Ok out -> NoDup (observationKey <$> values) ->
  NoDup (observationKey <$> out) /\ x ∈ out /\
  (forall o, o ∈ out -> o = x \/ o ∈ values) /\
  (forall o, o ∈ values -> (observationKey o <> observationKey x /\ o ∈ out) \/ observed_after o x).
Proof.
  revert out. induction values as [|v values IH]; intros out H Hnd; cbn in H.
  { simplify_result. split_and!; [apply NoDup_singleton|set_solver|set_solver|set_solver]. }
  cbn [fmap list_fmap] in Hnd. apply NoDup_cons in Hnd as [Hv Hnd]. case_bool_decide as Ek; cbn in H.
  - simplify_result. simplify_guards. split_and!; [|set_solver|set_solver|].
    + cbn [fmap list_fmap]. rewrite <- Ek. by constructor.
    + intros o [->|Ho]%elem_of_cons.
      * right. split_and!; [done|done|]. intros E. rewrite (bool_decide_eq_true_2 _ (eq_sym E)) in *.
        cbn in *. simplify_guards. done.
      * left. split; [|set_solver]. intros E. apply Hv. rewrite Ek, <- E. by apply list_elem_of_fmap_2.
  - simplify_result. destruct (IH _ Hr Hnd) as (H1 & H2 & H3 & H4). split_and!.
    + cbn [fmap list_fmap]. constructor; [|done].
      intros (o & E & [->|Ho]%H3)%list_elem_of_fmap; [congruence|].
      apply Hv. rewrite E. by apply list_elem_of_fmap_2.
    + set_solver.
    + set_solver.
    + intros o [->|Ho]%elem_of_cons; [left; set_solver|]. destruct (H4 o Ho) as [[? ?]|?]; [left; set_solver|by right].
Qed.

(** A new stream is appended. *)
Lemma replace_observation_fresh values x :
  observationKey x ∉ observationKey <$> values -> replace_observation values x = Ok (values ++ [x]).
Proof.
  induction values as [|v values IH]; cbn [replace_observation]; [done|]. cbn [fmap list_fmap]. intros H.
  rewrite bool_decide_eq_false_2 by set_solver. cbn [negb]. rewrite IH by set_solver. done.
Qed.

(** The streams of a list after an update: sorted, without duplicates. *)
Lemma upsertObservation_spec values x out :
  upsertObservation values x = Ok out -> NoDup (observationKey <$> values) ->
  NoDup (observationKey <$> out) /\ StronglySorted (key_le observationKey String.leb) out /\ x ∈ out /\
  (forall o, o ∈ out -> o = x \/ o ∈ values) /\
  (forall o, o ∈ values -> (observationKey o <> observationKey x /\ o ∈ out) \/ observed_after o x).
Proof.
  unfold upsertObservation. intros H Hnd. simplify_result.
  destruct (replace_observation_spec _ _ _ Hr Hnd) as (H1 & H2 & H3 & H4).
  unfold sortObservations, sort_by_string. setoid_rewrite elem_of_sort_by.
  split_and!; try done; [by rewrite sort_by_Permutation|apply sort_by_string_sorted].
Qed.

Lemma removeCandidate_elem l root c : c ∈ removeCandidate l root <-> c ∈ l /\ cand_Root c <> root.
Proof.
  unfold removeCandidate. rewrite list_elem_of_In, filter_In, <- list_elem_of_In.
  by rewrite negb_true_iff, bool_decide_eq_false.
Qed.

Lemma removeCandidate_nodup l root :
  NoDup (cand_Root <$> l) -> NoDup (cand_Root <$> removeCandidate l root).
Proof.
  induction l as [|c l IH]; cbn; [done|]. intros [Hc Hl]%NoDup_cons.
  case_bool_decide; cbn; [by apply IH|]. constructor; [|by apply IH].
  intros (c' & E & [Hin _]%removeCandidate_elem)%list_elem_of_fmap. apply Hc. rewrite E.
  by apply list_elem_of_fmap_2.
Qed.

Lemma removeCandidate_fresh l root : root ∉ cand_Root <$> l -> removeCandidate l root = l.
Proof.
  induction l as [|c l IH]; cbn; [done|]. intros H. rewrite bool_decide_eq_false_2 by set_solver.
  cbn. f_equal. apply IH. set_solver.
Qed.

(** Replacing the candidate for a root keeps the list free of duplicates. *)
Lemma replace_candidate_nodup l c :
  NoDup (cand_Root <$> l) -> NoDup (cand_Root <$> removeCandidate l (cand_Root c) ++ [c]).
Proof.
  intros H. rewrite fmap_app. apply NoDup_app. split_and!; [by apply removeCandidate_nodup| |apply NoDup_singleton].
  intros r (c' & -> & [_ Hne]%removeCandidate_elem)%list_elem_of_fmap E%list_elem_of_singleton. done.
Qed.

(** The loop that looks for a candidate finds the only one for its root. *)
Lemma find_candidate l r c :
  NoDup (cand_Root <$> l) -> c ∈ l -> cand_Root c = r ->
  List.find (fun item => bool_decide (cand_Root item = r)) l = Some c.
Proof.
  intros Hnd Hc E. destruct (List.find _ l) as [c'|] eqn:Ef.
  - apply List.find_some in Ef as [Hin E']. simplify_guards. f_equal.
    eapply (NoDup_key_inj cand_Root); eauto; [by apply list_elem_of_In|congruence].
  - eapply List.find_none in Ef; [|by apply list_elem_of_In]. by rewrite bool_decide_eq_true_2 in Ef.
Qed.

Section Loader.
Context {L : CidLib} {LL : CidLaws L}.

Lemma normalizeObservation_idemp o o' :
  normalizeObservation o = Ok o' -> normalizeObservation o' = Ok o'.
Proof.
  unfold normalizeObservation at 1. intros H. simplify_result.
  destruct (bool_decide (TrimSpace (obs_CommitID o) = EmptyString)) eqn:Ec; simplify_result;
    unfold normalizeObservation; cbn; rewrite !TrimSpace_idemp, Ec, Hr; cbn.
  - by rewrite Hr0.
  - simplify_guards. assert (canonical r0) as Hc by eauto with malt. rewrite (canonical_trimmed r0) by done.
    rewrite !bool_decide_eq_false_2 by eauto with malt. cbn. by rewrite (canonicalCID_id r0).
Qed.

Lemma normalizeObservation_time o o' t :
  normalizeObservation o = Ok o' -> normalizeObservation (set_ObservedAt o t) = Ok (set_ObservedAt o' t).
Proof.
  unfold normalizeObservation. cbn. intros H. simplify_result. rewrite Hr. cbn.
  case_bool_decide; simplify_result; rewrite ?Hr0, ?Hr1; cbn; done.
Qed.

Lemma observation_ok_new o o' now :
  normalizeObservation o = Ok o' -> now <> 0%Z -> observation_ok (set_ObservedAt o' now).
Proof.
  intros H Hnow. split; [|done]. apply normalizeObservation_idemp in H.
  by apply normalizeObservation_time with (t := now) in H.
Qed.

Lemma observation_step_ok acc o acc' :
  observation_step acc o = Ok acc' -> NoDup (observationKey <$> acc) -> Forall observation_ok acc ->
  NoDup (observationKey <$> acc') /\ StronglySorted (key_le observationKey String.leb) acc' /\
  Forall observation_ok acc'.
Proof.
  unfold observation_step. intros H Hnd Hall. simplify_result. unfold time_IsZero in Hr. simplify_guards.
  destruct (upsertObservation_spec _ _ _ H Hnd) as (H1 & H2 & _ & H3 & _). split_and!; try done.
  rewrite Forall_forall in *. intros o' [->|Ho']%H3; [|by apply Hall]. by eapply observation_ok_new.
Qed.

Lemma observation_loop_ok l l' :
  foldM observation_step [] l = Ok l' ->
  NoDup (observationKey <$> l') /\ StronglySorted (key_le observationKey String.leb) l' /\
  Forall observation_ok l'.
Proof.
  intros H. refine (foldM_inv (fun acc => NoDup (observationKey <$> acc) /\
    StronglySorted (key_le observationKey String.leb) acc /\ Forall observation_ok acc)
    observation_step _ _ _ _ _ H); [repeat constructor|].
  intros acc o acc' _ (Hnd & _ & Hall) Hs. by eapply observation_step_ok.
Qed.

Lemma observation_loop_id l acc :
  Forall observation_ok l -> NoDup (observationKey <$> acc ++ l) ->
  StronglySorted (key_le observationKey String.leb) (acc ++ l) ->
  foldM observation_step acc l = Ok (acc ++ l).
Proof.
  intros Hl. revert acc. induction Hl as [|o l [Ho Ht] Hl IH]; intros acc Hnd Hs; cbn [foldM].
  { by rewrite app_nil_r. }
  rewrite (cons_middle o acc l), (assoc_L (++)) in Hnd, Hs.
  assert (observation_step acc o = Ok (acc ++ [o])) as ->.
  { unfold observation_step, time_IsZero. rewrite bool_decide_eq_false_2 by done. cbn [fail_if mbind result_bind].
    rewrite Ho. cbn [wrap_err mbind result_bind].
    change (set_ObservedAt o (obs_ObservedAt o)) with (mkObserved (obs_Source o) (obs_DatasetID o)
      (obs_Branch o) (obs_CommitID o) (obs_Root o) (obs_Revision o) (obs_ObservedAt o)).
    assert (mkObserved (obs_Source o) (obs_DatasetID o) (obs_Branch o) (obs_CommitID o) (obs_Root o)
      (obs_Revision o) (obs_ObservedAt o) = o) as -> by by destruct o.
    unfold upsertObservation. rewrite replace_observation_fresh; cbn [mbind result_bind].
    - unfold sortObservations, sort_by_string. rewrite sort_by_id; [done|].
      by apply StronglySorted_app_1_l in Hs.
    - rewrite fmap_app in Hnd. apply NoDup_app in Hnd as [Hnd _]. rewrite fmap_app in Hnd.
      apply NoDup_app in Hnd as (_ & Hd & _). intros Hin. apply (Hd _ Hin). cbn. set_solver. }
  cbn [mbind result_bind]. rewrite IH by done. by rewrite <- (assoc_L (++)).
Qed.

Lemma candidate_step_ok accepted acc c acc' :
  candidate_step accepted acc c = Ok acc' -> NoDup (cand_Root <$> acc) ->
  Forall (candidate_ok accepted) acc ->
  NoDup (cand_Root <$> acc') /\ Forall (candidate_ok accepted) acc'.
Proof.
  unfold candidate_step. intros H Hnd Hall. simplify_result.
  apply canonicalOptionalCID_ok in Hr0. destruct accepted as [a|]; simplify_result.
  - simplify_guards. case_bool_decide; simplify_result; [done|].
    split; [by apply (replace_candidate_nodup acc (mkCandidate r r0 _ _))|].
    apply Forall_app. split; [|apply Forall_singleton; repeat split; cbn; eauto with malt; by destruct Hr0].
    rewrite Forall_forall in *. by intros c' [Hc' _]%removeCandidate_elem; apply Hall.
  - simplify_guards. subst r0. split; [by apply (replace_candidate_nodup acc (mkCandidate r EmptyString _ _))|].
    apply Forall_app. split; [|apply Forall_singleton; repeat split; cbn; eauto with malt].
    rewrite Forall_forall in *. by intros c' [Hc' _]%removeCandidate_elem; apply Hall.
Qed.

Lemma candidate_loop_id accepted l acc :
  Forall (candidate_ok accepted) l -> NoDup (cand_Root <$> acc ++ l) ->
  foldM (candidate_step accepted) acc l = Ok (acc ++ l).
Proof.
  intros Hl. revert acc. induction Hl as [|c l Hc Hl IH]; intros acc Hnd; cbn [foldM].
  { by rewrite app_nil_r. }
  assert (cand_Root c ∉ cand_Root <$> acc) as Hfresh.
  { rewrite fmap_app in Hnd. apply NoDup_app in Hnd as (_ & Hd & _). intros Hin.
    apply (Hd _ Hin). cbn. set_solver. }
  assert (candidate_step accepted acc c = Ok (acc ++ [c])) as ->.
  { unfold candidate_step. destruct Hc as [Hroot Hc]. rewrite canonicalCID_id by done.
    cbn [wrap_err mbind result_bind].
    assert (cand_BaseRoot c = EmptyString \/ canonical (cand_BaseRoot c)) as Hb.
    { destruct accepted; [right; apply Hc|by left]. }
    rewrite canonicalOptionalCID_id by done. cbn [wrap_err mbind result_bind].
    assert (mkCandidate (cand_Root c) (cand_BaseRoot c) (cand_Source c) (cand_ObservedAt c) = c) as ->
      by by destruct c.
    rewrite removeCandidate_fresh by done. destruct accepted as [a|].
    - destruct Hc as [Hcb Hne]. by rewrite !bool_decide_eq_false_2 by eauto with malt.
    - by rewrite bool_decide_eq_true_2. }
  cbn [mbind result_bind]. rewrite IH by by rewrite <- (assoc_L (++)). by rewrite <- (assoc_L (++)).
Qed.

Lemma normalizeAccepted_ok a a' : normalizeAccepted a = Ok a' -> accepted_ok a'.
Proof.
  unfold normalizeAccepted. intros H. simplify_result. apply canonicalOptionalCID_ok in Hr0.
  repeat split; cbn; eauto with malt; case_bool_decide; eauto with malt.
  apply canonicalCID_canonical, canonical_nonempty in Hr. congruence.
Qed.

Lemma normalizeAccepted_id a : accepted_ok a -> normalizeAccepted a = Ok a.
Proof.
  destruct a as [r p src t]. intros (Hr & Hp & Hne); cbn in *. unfold normalizeAccepted; cbn.
  rewrite canonicalCID_id by done. cbn. rewrite canonicalOptionalCID_id by done. cbn.
  by rewrite bool_decide_eq_false_2.
Qed.

Lemma normalizeRootState_ok alias v v' : normalizeRootState alias v = Ok v' -> root_ok alias v'.
Proof.
  unfold normalizeRootState. intros H. simplify_result. simplify_guards. unfold normalizeAlias in *.
  assert (match r1 with Some a => accepted_ok a | None => True end) as Hacc.
  { destruct (Accepted v); simplify_result; [by eapply normalizeAccepted_ok|done]. }
  apply observation_loop_ok in Hr3 as (Ho1 & Ho2 & Ho3).
  assert (NoDup (cand_Root <$> r2) /\ Forall (candidate_ok r1) r2) as [Hc1 Hc2].
  { refine (foldM_inv (fun acc => NoDup (cand_Root <$> acc) /\ Forall (candidate_ok r1) acc)
      (candidate_step r1) _ _ _ _ _ Hr2); [repeat constructor|].
    intros acc c acc' _ [? ?] Hs. by eapply candidate_step_ok. }
  split; [split; cbn; try done; split_and!; congruence|]. cbn.
  destruct r1; [by left|]. destruct r2; [|by right; left]. destruct r3; [done|by right; right].
Qed.

Lemma normalizeRootState_id alias v : root_ok alias v -> normalizeRootState alias v = Ok v.
Proof.
  intros [[(Hne & Ht & <-) Hacc Hc Hcn Ho Hon Hos] Hx]. unfold normalizeRootState, normalizeAlias.
  rewrite !Ht. rewrite (bool_decide_eq_false_2 _ Hne). rewrite !bool_decide_eq_true_2 by done.
  cbn [orb negb fail_if mbind result_bind].
  assert (match Accepted v with None => Ok None
          | Some a => a ← normalizeAccepted a; Ok (Some a) end = Ok (Accepted v)) as ->.
  { destruct (Accepted v); [by rewrite normalizeAccepted_id|done]. }
  cbn [mbind result_bind]. rewrite candidate_loop_id by done. cbn [mbind result_bind app].
  rewrite observation_loop_id by done. cbn [mbind result_bind app].
  assert (bool_decide (Accepted v = None) && bool_decide (Candidates v = []) &&
          bool_decide (ObservedHeads v = []) = false) as ->.
  { repeat case_bool_decide; naive_solver. }
  by destruct v.
Qed.

Lemma trust_decode_wf s s' : decode s = Ok s' -> wf s'.
Proof.
  unfold decode. intros H. simplify_result. simplify_guards. split; [done|].
  cbn. intros alias v Hl%elem_of_list_to_map_2.
  destruct (mapM_elem _ _ _ _ Hr0 Hl) as ([a0 v0] & _ & Hn). unfold normalize_entry in Hn. simplify_result.
  by eapply normalizeRootState_ok.
Qed.

Lemma trust_wf_decode s : wf s -> decode s = Ok s.
Proof.
  intros [Hv Hr]. unfold decode. rewrite Hv. cbn. rewrite mapM_id.
  - cbn. rewrite list_to_map_to_list. by destruct s; cbn in *; subst.
  - apply Forall_forall. intros [alias v] Hin%elem_of_map_to_list. unfold normalize_entry. cbn.
    by rewrite normalizeRootState_id by by apply Hr.
Qed.

Lemma trust_wf_empty : wf emptyState.
Proof. split; [done|]. intros alias v H. cbn [emptyState Roots] in H. by rewrite lookup_empty in H. Qed.

#[export] Instance trust_laws : DurableLaws state.
Proof. split; [exact trust_wf_empty|exact trust_decode_wf|exact trust_wf_decode]. Qed.

(** ** The methods keep the state well-formed *)
Lemma put_root_wf s alias v : wf s -> root_ok alias v -> wf (put_root s alias v).
Proof.
  intros [Hv Hr] H. split; [done|]. cbn. intros a u. rewrite lookup_insert.
  case_decide; [by intros [= <-]; subst|apply Hr].
Qed.

Lemma root_for_shape s alias :
  wf s -> alias <> EmptyString -> TrimSpace alias = alias -> root_shape alias (root_for s alias).
Proof.
  intros [_ Hr] Hne Ht. unfold root_for. destruct (Roots s !! alias) as [v|] eqn:E; cbn [default].
  - destruct (Hr _ _ E) as [[(_ & _ & _) ? ? ? ? ? ?] _]. by split.
  - split; cbn; try done; by constructor.
Qed.

Lemma set_Remote_shape alias v p g : root_shape alias v -> root_shape alias (set_Remote v p g).
Proof. intros [? ? ? ? ? ? ?]. by split. Qed.

Lemma acceptRoot_ok alias v root source now :
  root_shape alias v -> canonical root -> root_ok alias (acceptRoot v root source now).
Proof.
  intros [Ha Hacc Hc Hcn Ho Hon Hos] Hroot. split; [|by left]. split; cbn; try done.
  - destruct (Accepted v) as [a|]; cbn; [destruct Hacc as (H1 & H2 & H3)|].
    + case_bool_decide; cbn; repeat split; cbn; subst; auto.
    + repeat split; cbn; auto. by apply not_eq_sym, canonical_nonempty.
  - destruct (Accepted v) as [a|]; [|constructor]. rewrite Forall_forall in *.
    intros c [Hin Hne]%removeCandidate_elem. destruct (Hc c Hin) as (? & ? & ?). by repeat split.
  - destruct (Accepted v); [by apply removeCandidate_nodup|constructor].
Qed.

Lemma add_candidate_ok alias v root base source now :
  root_shape alias v -> canonical root ->
  match Accepted v with
  | None => base = EmptyString
  | Some a => base = acc_Root a /\ root <> acc_Root a
  end ->
  root_ok alias (set_Candidates v (removeCandidate (Candidates v) root ++ [mkCandidate root base source now])).
Proof.
  intros [Ha Hacc Hc Hcn Ho Hon Hos] Hroot Hb. split; cbn.
  2: { right; left. by destruct (removeCandidate (Candidates v) root). }
  split; cbn; try done.
  - apply Forall_app. split.
    + rewrite Forall_forall in *. by intros c [Hin _]%removeCandidate_elem; apply Hc.
    + apply Forall_singleton. split; [done|]. cbn. destruct (Accepted v); [|done].
      destruct Hb as [-> ?]. split; [|done]. apply Hacc.
  - by apply (replace_candidate_nodup (Candidates v) (mkCandidate root base source now)).
Qed.

Lemma observe_ok alias v o heads :
  root_shape alias v -> observation_ok o -> upsertObservation (ObservedHeads v) o = Ok heads ->
  root_ok alias (set_ObservedHeads v heads).
Proof.
  intros [Ha Hacc Hc Hcn Ho Hon Hos] Hok H.
  destruct (upsertObservation_spec _ _ _ H Hon) as (H1 & H2 & H3 & H4 & _). split; cbn.
  2: { right; right. intros ->. by apply not_elem_of_nil in H3. }
  split; cbn; try done. rewrite Forall_forall in *. intros o' [->|Hin]%H4; [done|by apply Ho].
Qed.
End Loader.
