(* ===== verification/TrustThms.v ===== *)
(** What the trust store guarantees: it always loads, nothing is promoted
    without an explicit action, candidates are accepted by compare-and-swap,
    and observed revisions never regress. *)

From stdpp Require Import base decidable gmap strings list sorting.
From Stdlib Require Import Ascii ZArith Lia.
From S2P Require Import Prelude GoText Json CidLib Durable Trust TrustFacts.

(** ** Histories of calls *)
Inductive call :=
  | CallTrust (alias root profile gateway source : string)
  | CallAddCandidate (alias root baseRoot source : string)
  | CallObserveHead (alias : string) (observation : ObservedHead)
  | CallAcceptCandidate (alias root source : string)
  | CallAcceptObserved (alias root profile gateway source : string).

Record event := Event { ev_io : io; ev_now : time; ev_call : call }.

Definition accepted_root (s : state) (alias : string) : option string :=
  v ← Roots s !! alias; acc_Root <$> Accepted v.

Definition heads (s : state) (alias : string) : list ObservedHead :=
  match Roots s !! alias with Some v => ObservedHeads v | None => [] end.

Section Histories.
Context {L : CidLib} {LL : CidLaws L}.

Definition apply (f : trust_file) (e : event) : trust_file :=
  let w := ev_io e in let now := ev_now e in
  match ev_call e with
  | CallTrust alias root profile gateway source => (Trust w now alias root profile gateway source f).2
  | CallAddCandidate alias root base source => (AddCandidate w now alias root base source f).2
  | CallObserveHead alias o => (ObserveHead w now alias o f).2
  | CallAcceptCandidate alias root source => (AcceptCandidate w now alias root source f).2
  | CallAcceptObserved alias root profile gateway source =>
      (AcceptObserved w now alias root profile gateway source f).2
  end.

(** The explicit promotions. *)
Definition promotes (c : call) (alias root : string) : Prop :=
  match c with
  | CallTrust a r _ _ _ | CallAcceptCandidate a r _ | CallAcceptObserved a r _ _ _ =>
      normalizeAlias a = alias /\ canonicalCID r = Ok root
  | _ => False
  end.

(** One call takes the visible state one step. *)
Definition step_ok (c : call) (s s' : state) : Prop :=
  wf s' /\
  (forall alias, accepted_root s' alias = accepted_root s alias \/
     exists root, accepted_root s' alias = Some root /\ promotes c alias root) /\
  (forall alias o, o ∈ heads s alias -> exists o', o' ∈ heads s' alias /\ observed_after o o').

Lemma trust_step_ok_refl c s : wf s -> step_ok c s s.
Proof. intros H. split_and!; [done|by left|]. intros alias o Ho. by exists o. Qed.

Lemma accepted_put s alias v a :
  accepted_root (put_root s alias v) a =
    if bool_decide (alias = a) then acc_Root <$> Accepted v else accepted_root s a.
Proof.
  unfold accepted_root, put_root. cbn [Roots]. rewrite lookup_insert.
  case_decide; case_bool_decide; done.
Qed.

Lemma heads_put s alias v a :
  heads (put_root s alias v) a = if bool_decide (alias = a) then ObservedHeads v else heads s a.
Proof.
  unfold heads, put_root. cbn [Roots]. rewrite lookup_insert. case_decide; case_bool_decide; done.
Qed.

Lemma root_for_accepted s alias : acc_Root <$> Accepted (root_for s alias) = accepted_root s alias.
Proof. unfold root_for, accepted_root. by destruct (Roots s !! alias). Qed.

Lemma root_for_heads s alias : ObservedHeads (root_for s alias) = heads s alias.
Proof. unfold root_for, heads. by destruct (Roots s !! alias). Qed.

(** Replacing one record. *)
Lemma step_ok_put c s alias v :
  wf s -> root_ok alias v ->
  (acc_Root <$> Accepted v = accepted_root s alias \/
   exists root, acc_Root <$> Accepted v = Some root /\ promotes c alias root) ->
  (forall o, o ∈ heads s alias -> exists o', o' ∈ ObservedHeads v /\ observed_after o o') ->
  step_ok c s (put_root s alias v).
Proof.
  intros Hwf Hv Hacc Hobs. split_and!; [by apply put_root_wf| |].
  - intros a. rewrite accepted_put. case_bool_decide; [by subst|by left].
  - intros a o. rewrite heads_put. case_bool_decide; [subst; apply Hobs|]. intros Ho. by exists o.
Qed.

Lemma step_ok_promote c s alias v root source now :
  wf s -> root_shape alias v -> canonicalCID root = Ok root -> ObservedHeads v = heads s alias ->
  promotes c alias root -> step_ok c s (put_root s alias (acceptRoot v root source now)).
Proof.
  intros Hwf Hv Hroot Hh Hp. apply step_ok_put; [done| | |].
  - apply acceptRoot_ok; eauto with malt.
  - right. exists root. done.
  - intros o Ho. exists o. cbn. by rewrite Hh.
Qed.

Lemma root_shape_of s alias v : wf s -> Roots s !! alias = Some v -> root_shape alias v.
Proof. intros [_ H] Hl. by apply H. Qed.

Lemma heads_of s alias v : Roots s !! alias = Some v -> ObservedHeads v = heads s alias.
Proof. unfold heads. by intros ->. Qed.

Lemma trust_view_wf (f : trust_file) s : view f = Some s -> wf s.
Proof. exact (view_wf f s). Qed.

(** A call leaves the file alone or writes a state one step further. *)
Definition stepped (c : call) (s : state) (f f' : trust_file) : Prop :=
  f' = f \/ exists s', f' = Some (Decodes s') /\ step_ok c s s'.

Lemma locked_stepped {A} c w (op : state -> result (A * option state)) (f : trust_file) s :
  view f = Some s -> (forall a s', op s = Ok (a, Some s') -> step_ok c s s') ->
  stepped c s f (locked w op f).2.
Proof.
  intros Hv Hop. destruct (locked w op f) as [r f'] eqn:E.
  apply critical_inv in E as [[-> _]|(s0 & a & s' & Hv0 & Ho & Hf & _)]; [by left| |done].
  assert (s0 = s) as -> by congruence. destruct Hf as [->| ->]; [by left|]. right. exists s'. split; [done|]. by eapply Hop.
Qed.

(** A section that only writes: success means that the new state is in place. *)
Lemma locked_written {A} w (op : state -> result (A * option state)) (f : trust_file) s r f' :
  view f = Some s -> locked w op f = (Ok r, f') -> (forall a, op s <> Ok (a, None)) ->
  exists s', op s = Ok (r, Some s') /\ f' = Some (Decodes s').
Proof.
  intros Hv H Hw. apply critical_inv in H as [[_ Hr]|(s0 & a & s' & Hv0 & Hop & _ & Hr)]; [| |done].
  - destruct (Hr _ eq_refl) as (s0 & Hv0 & Hop). assert (s0 = s) as -> by congruence. by destruct (Hw r).
  - destruct (Hr _ eq_refl) as [-> ->]. assert (s0 = s) as -> by congruence. eauto.
Qed.

Lemma trust_method_stepped {A B} c (args : result A) f (body : A -> result B * trust_file) s :
  (forall a, args = Ok a -> stepped c s f (body a).2) -> stepped c s f (method args f body).2.
Proof. intros H. destruct args as [a|e]; cbn; [by apply H|by left]. Qed.

Lemma canonicalCID_twice raw r : canonicalCID raw = Ok r -> canonicalCID r = Ok r.
Proof. eauto with malt. Qed.

Lemma addCandidate_step c now alias root base source s v s' :
  wf s -> alias <> EmptyString -> TrimSpace alias = alias -> canonical root ->
  addCandidateLocked now alias root base source s = Ok (v, Some s') -> step_ok c s s'.
Proof.
  intros Hwf Hne Ht Hroot H. unfold addCandidateLocked in H. simplify_result.
  match type of H with (if ?b then _ else _) = _ => destruct b eqn:E end; simplify_result.
  apply step_ok_put; [done| |left; cbn; apply root_for_accepted|].
  - apply (add_candidate_ok alias (root_for s alias)); [by apply root_for_shape|done|].
    destruct (Accepted (root_for s alias)); simplify_result; by simplify_guards.
  - intros o Ho. exists o. cbn. by rewrite root_for_heads.
Qed.

Lemma trust_apply_written f e s :
  view f = Some s -> ev_now e <> 0%Z -> stepped (ev_call e) s f (apply f e).
Proof.
  intros Hv Hnow. pose proof (trust_view_wf f s Hv) as Hwf.
  destruct e as [w now [a r p g src|a r b src|a o|a r src|a r p g src]];
    unfold apply; cbn [ev_io ev_now ev_call] in *; apply trust_method_stepped; try done.
  - intros root Hr. simplify_result. simplify_guards. apply locked_stepped; [done|]. intros v s' H.
    unfold trustLocked in H. simplify_result.
    apply step_ok_promote; [done| |by eapply canonicalCID_twice|apply root_for_heads|done].
    apply set_Remote_shape, root_for_shape; [done|done|apply TrimSpace_idemp].
  - intros [root base] Hr. simplify_result. simplify_guards. apply locked_stepped; [done|]. intros v s' H.
    eapply addCandidate_step; eauto using TrimSpace_idemp, canonicalCID_canonical.
  - intros o' Ho. simplify_result. simplify_guards. apply locked_stepped; [done|]. intros v s' H.
    unfold observeLocked in H. simplify_result.
    pose proof (root_for_shape s (normalizeAlias a) Hwf Hr (TrimSpace_idemp a)) as Hsh.
    apply step_ok_put; [done| |left; cbn; apply root_for_accepted|].
    + eapply observe_ok; eauto using observation_ok_new.
    + intros x. rewrite <- root_for_heads. intros Hx.
      destruct (upsertObservation_spec _ _ _ Hr0 (ro_observations_nodup _ _ Hsh)) as (_ & _ & Hin & _ & Hold).
      destruct (Hold x Hx) as [[_ ?]|?]; [by exists x|]. by eexists.
  - intros root Hr. simplify_result. apply locked_stepped; [done|]. intros v s' H.
    unfold acceptCandidateLocked in H. simplify_result.
    apply step_ok_promote; eauto using root_shape_of, heads_of, canonicalCID_twice. by split.
  - intros root Hr. simplify_result. apply locked_stepped; [done|]. intros v s' H.
    unfold acceptObservedLocked in H. simplify_result.
    apply step_ok_promote; eauto using root_shape_of, heads_of, canonicalCID_twice, set_Remote_shape;
      [exact (heads_of _ _ _ Hr0)|by split].
Qed.

Lemma trust_apply_stepped f e s :
  view f = Some s -> ev_now e <> 0%Z -> exists s', view (apply f e) = Some s' /\ step_ok (ev_call e) s s'.
Proof.
  intros Hv Hnow. destruct (trust_apply_written f e s Hv Hnow) as [->|(s' & -> & Hs)].
  - exists s. split; [done|]. apply trust_step_ok_refl. by eapply trust_view_wf.
  - exists s'. split; [|done]. apply view_Decodes, Hs.
Qed.

(** Any history takes the visible state through well-formed states. *)
Lemma trust_history_run h f s :
  view f = Some s -> Forall (fun e => ev_now e <> 0%Z) h ->
  exists s', view (foldl apply f h) = Some s' /\
    (forall alias root, accepted_root s' alias = Some root ->
       accepted_root s alias = Some root \/ exists e, e ∈ h /\ promotes (ev_call e) alias root) /\
    (forall alias o, o ∈ heads s alias -> exists o', o' ∈ heads s' alias /\ observed_after o o').
Proof.
  intros Hv Hh. revert f s Hv. induction Hh as [|e h He Hh IH]; intros f s Hv; cbn [foldl].
  { exists s. split_and!; [done|by left|]. intros alias o Ho. by exists o. }
  destruct (trust_apply_stepped f e s Hv He) as (s1 & Hv1 & _ & Hp1 & Ho1).
  destruct (IH _ _ Hv1) as (s' & Hv' & Hp & Ho). exists s'. split_and!; [done| |].
  - intros alias root H. destruct (Hp _ _ H) as [H1|(e' & Hin & Hpr)].
    + destruct (Hp1 alias) as [E|(r & E & Hpr)]; [left; congruence|].
      right. exists e. split; [by left|]. congruence.
    + right. exists e'. split; [by right|done].
  - intros alias o Hin. destruct (Ho1 _ _ Hin) as (o1 & Hin1 & Hb1).
    destruct (Ho _ _ Hin1) as (o2 & Hin2 & Hb2). exists o2. split; [done|]. by transitivity o1.
Qed.
End Histories.

(** ** The JSON document

    [writeLocked] marshals the state and [reloadLocked] decodes it strictly: a
    text that is not UTF-8 comes back changed, and two aliases that come back
    as one make a duplicate key, which the decoder refuses. *)
Section Document.
Definition json_candidate (c : CandidateRoot) : CandidateRoot :=
  mkCandidate (json_text (cand_Root c)) (json_text (cand_BaseRoot c)) (json_text (cand_Source c)) (cand_ObservedAt c).
Definition json_accepted (a : AcceptedRootState) : AcceptedRootState :=
  mkAccepted (json_text (acc_Root a)) (json_text (acc_PreviousRoot a)) (json_text (acc_Source a)) (acc_AcceptedAt a).
Definition json_observed (o : ObservedHead) : ObservedHead :=
  mkObserved (json_text (obs_Source o)) (json_text (obs_DatasetID o)) (json_text (obs_Branch o)) (json_text (obs_CommitID o))
    (json_text (obs_Root o)) (obs_Revision o) (obs_ObservedAt o).
Definition json_root (v : RootState) : RootState :=
  mkRootState (json_text (Alias v)) (json_text (Profile v)) (json_text (Gateway v)) (json_accepted <$> Accepted v)
    (json_candidate <$> Candidates v) (json_observed <$> ObservedHeads v).
Definition json_entry (item : string * RootState) : string * RootState := (json_text item.1, json_root item.2).
(** [None] when the document has a duplicate key. *)
Definition json_state (s : state) : option state :=
  let entries := json_entry <$> map_to_list (Roots s) in
  if bool_decide (NoDup entries.*1) then Some (mkTrustState (trust_Version s) (list_to_map entries)) else None.
(** What a file that a section left holds when it is read. *)
Definition on_disk (f : trust_file) : trust_file :=
  match f with
  | Some (Decodes s) => match json_state s with Some s' => Some (Decodes s') | None => Some Garbage end
  | f => f
  end.

Lemma json_candidate_twice c : json_candidate (json_candidate c) = json_candidate c.
Proof. unfold json_candidate. cbn. by rewrite !json_text_twice. Qed.
Lemma json_accepted_twice a : json_accepted (json_accepted a) = json_accepted a.
Proof. unfold json_accepted. cbn. by rewrite !json_text_twice. Qed.
Lemma json_observed_twice o : json_observed (json_observed o) = json_observed o.
Proof. unfold json_observed. cbn. by rewrite !json_text_twice. Qed.
Lemma json_root_twice v : json_root (json_root v) = json_root v.
Proof.
  unfold json_root. cbn. rewrite !json_text_twice, <- option_fmap_compose, <- !list_fmap_compose. f_equal.
  - destruct (Accepted v) as [a|]; [|done]. cbn. by rewrite json_accepted_twice.
  - apply list_fmap_ext. intros _ c _. apply json_candidate_twice.
  - apply list_fmap_ext. intros _ o _. apply json_observed_twice.
Qed.

Lemma json_state_lookup s s' alias v : json_state s = Some s' -> Roots s' !! alias = Some v ->
  exists a v0, Roots s !! a = Some v0 /\ alias = json_text a /\ v = json_root v0.
Proof.
  unfold json_state. case_bool_decide; [|done]. intros [= <-] Hl. cbn in Hl.
  apply elem_of_list_to_map_2, list_elem_of_fmap in Hl as ([a v0] & [= -> ->] & Hin%elem_of_map_to_list). eauto.
Qed.
Lemma json_state_twice s s' : json_state s = Some s' -> json_state s' = Some s'.
Proof.
  intros H. unfold json_state. assert (json_entry <$> map_to_list (Roots s') = map_to_list (Roots s')) as ->.
  { rewrite <- (list_fmap_id (map_to_list (Roots s'))) at 2. apply list_fmap_ext. intros i [a v] Hi%list_elem_of_lookup_2%elem_of_map_to_list.
    destruct (json_state_lookup _ _ _ _ H Hi) as (a0 & v0 & _ & -> & ->). unfold json_entry. cbn. by rewrite json_text_twice, json_root_twice. }
  rewrite bool_decide_eq_true_2 by apply NoDup_fst_map_to_list. rewrite list_to_map_to_list. by destruct s'.
Qed.
Lemma on_disk_twice f : on_disk (on_disk f) = on_disk f.
Proof. destruct f as [[s|]|]; try done. cbn. destruct (json_state s) as [s'|] eqn:E; [|done]. cbn. by rewrite (json_state_twice _ _ E). Qed.
End Document.

(** ** Histories through the document *)
Section Stored.
Context {L : CidLib} {LL : CidLaws L}.
(** CIDs print as valid UTF-8 (in fact as ASCII). *)
Context (Htext : forall c : Cid, ValidString (cid_String c) = true).

Definition apply_stored (f : trust_file) (e : event) : trust_file := on_disk (apply f e).

(** The explicit promotions, by the alias that the document shows. *)
Definition promotes_stored (c : call) (alias root : string) : Prop := exists a, json_text a = alias /\ promotes c a root.

Lemma json_canonical root : canonical root -> json_text root = root.
Proof using Htext. intros [c ->]. by apply json_text_id. Qed.

Lemma decode_accepted s s' alias : decode s = Ok s' -> forall root, accepted_root s' alias = Some root ->
  exists v a, Roots s !! alias = Some v /\ Accepted v = Some a /\ canonicalCID (acc_Root a) = Ok root.
Proof.
  intros H root Ha. unfold decode in H. simplify_result. unfold accepted_root in Ha. cbn [Roots] in Ha.
  destruct (list_to_map _ !! alias) as [v|] eqn:El; [|done]. apply elem_of_list_to_map_2 in El.
  destruct (mapM_elem _ _ _ _ Hr0 El) as ([a0 v0] & Hin%elem_of_map_to_list & Hn). unfold normalize_entry in Hn. simplify_result.
  cbn [fst snd] in Hr1. unfold normalizeRootState in Hr1. simplify_result. cbn in Ha. destruct (Accepted v0) as [acc|] eqn:Ea; simplify_result; [|done].
  exists v0, acc. split_and!; [done|done|]. match goal with H : normalizeAccepted _ = Ok _ |- _ => unfold normalizeAccepted in H end.
  simplify_result. cbn in Ha. congruence.
Qed.

(** What is accepted after a write was accepted in the state that was written. *)
Lemma stored_accepted s s' alias root : wf s -> view (on_disk (Some (Decodes s))) = Some s' -> accepted_root s' alias = Some root ->
  exists a, json_text a = alias /\ accepted_root s a = Some root.
Proof using LL Htext.
  intros Hwf Hv Ha. cbn [on_disk] in Hv. destruct (json_state s) as [j|] eqn:Ej; [|done].
  assert (decode j = Ok s') as Hd by (unfold view, reload in Hv; cbn in Hv; destruct (decode j); congruence).
  destruct (decode_accepted _ _ _ Hd _ Ha) as (v & a & Hl & Hac & Hc). destruct (json_state_lookup _ _ _ _ Ej Hl) as (a0 & v0 & Hl0 & -> & ->).
  exists a0. split; [done|]. unfold accepted_root. rewrite Hl0. cbn in *. destruct (Accepted v0) as [acc|] eqn:E0; [|done]. cbn in *.
  injection Hac as <-. destruct Hwf as [_ Hwf]. destruct (Hwf _ _ Hl0) as [[_ Hacc _ _ _ _ _] _]. rewrite E0 in Hacc. destruct Hacc as [Hcan _].
  cbn in Hc. rewrite json_canonical in Hc by done. rewrite canonicalCID_id in Hc by done. congruence.
Qed.

(** The aliases of a file that was read from a document. *)
Lemma stored_alias (f : trust_file) s alias root : on_disk f = f -> view f = Some s -> accepted_root s alias = Some root -> json_text alias = alias.
Proof.
  intros Hf Hv Ha. destruct f as [[x|]|]; [|done|by injection Hv as <-]. cbn [on_disk] in Hf.
  destruct (json_state x) as [j|] eqn:Ej; [|done]. injection Hf as ->.
  assert (decode x = Ok s) as Hd by (unfold view, reload in Hv; cbn in Hv; destruct (decode x); congruence).
  destruct (decode_accepted _ _ _ Hd _ Ha) as (v & a & Hl & _). destruct (json_state_lookup _ _ _ _ Ej Hl) as (a0 & v0 & _ & -> & _). apply json_text_twice.
Qed.

Lemma stored_step f e s s' alias root :
  on_disk f = f -> view f = Some s -> ev_now e <> 0%Z -> view (apply_stored f e) = Some s' -> accepted_root s' alias = Some root ->
  accepted_root s alias = Some root \/ promotes_stored (ev_call e) alias root.
Proof using LL Htext.
  intros Hf Hv Hnow Hv' Ha. unfold apply_stored in Hv'. destruct (trust_apply_written f e s Hv Hnow) as [E|(s1 & E & Hwf & Hp & _)]; rewrite E in Hv'.
  - left. rewrite Hf in Hv'. congruence.
  - destruct (stored_accepted _ _ _ _ Hwf Hv' Ha) as (a & <- & Ha1). destruct (Hp a) as [Es|(r & Er & Hpr)].
    + left. rewrite Es in Ha1. by rewrite (stored_alias f s a root).
    + right. exists a. split; [done|]. congruence.
Qed.

(** A file that cannot be read stays as it is. *)
Lemma unreadable_stays (f : trust_file) e : view f = None -> apply f e = f.
Proof.
  intros Hn. assert (forall A (op : state -> result (A * option state)), (locked (ev_io e) op f).2 = f) as Hl.
  { intros A op. destruct (locked (ev_io e) op f) as [r f'] eqn:E. apply critical_inv in E as [[-> _]|(s & _ & _ & Hv & _)]; [done|congruence|done]. }
  destruct e as [w now [a r p g src|a r b src|a o|a r src|a r p g src]]; unfold apply, Trust, AddCandidate, ObserveHead, AcceptCandidate, AcceptObserved, method;
    cbn [ev_io ev_now ev_call] in *; cbv zeta; first [destruct (mbind _ _) as [x|] | destruct (wrap_err _ _) as [x|]]; try done; try apply Hl. destruct x. apply Hl.
Qed.

Lemma stored_history h (f : trust_file) : forall s s' alias root,
  on_disk f = f -> view f = Some s -> Forall (fun e => ev_now e <> 0%Z) h -> view (foldl apply_stored f h) = Some s' ->
  accepted_root s' alias = Some root -> accepted_root s alias = Some root \/ exists e, e ∈ h /\ promotes_stored (ev_call e) alias root.
Proof using LL Htext.
  revert f. induction h as [|e h IH]; intros f s s' alias root Hf Hv Hh Hv' Ha; cbn [foldl] in Hv'.
  { left. congruence. }
  apply Forall_cons in Hh as [He Hh]. assert (on_disk (apply_stored f e) = apply_stored f e) as Hf1 by apply on_disk_twice.
  destruct (view (apply_stored f e)) as [s1|] eqn:Hv1.
  - destruct (IH _ _ _ _ _ Hf1 Hv1 Hh Hv' Ha) as [H1|(e' & Hin & Hp)]; [|right; exists e'; split; [by right|done]].
    destruct (stored_step _ _ _ _ _ _ Hf Hv He Hv1 H1) as [|Hp]; [by left|]. right. exists e. split; [by left|done].
  - exfalso. assert (forall h, view (foldl apply_stored (apply_stored f e) h) = None) as Hn; [|congruence].
    clear -Hv1 Hf1. induction h as [|e' h IH]; cbn [foldl]; [done|]. unfold apply_stored at 2. rewrite (unreadable_stays _ e' Hv1), Hf1. exact IH.
Qed.
End Stored.

(** ** The guarantees *)
Section Guarantees.
Context {L : CidLib} {LL : CidLaws L}.

(** The trust store never locks itself out as long as its texts are valid UTF-8,
    which the document then keeps: after any history of calls on a store that
    loads, with any system call of any call failing, it loads. *)
Theorem trust_always_loads h (f : trust_file) :
  loads f -> Forall (fun e => ev_now e <> 0%Z) h -> loads (foldl apply f h).
Proof.
  intros Hl Hh. destruct (loads_view f Hl) as [s Hv].
  destruct (trust_history_run h f s Hv Hh) as (s' & Hv' & _). by eapply view_loads.
Qed.

(** C2. Nothing is promoted without an explicit action.  Over any history of
    calls of any processes, with any texts and any failing system calls, and
    with every state going through the JSON document (where bytes that are not
    UTF-8 become replacement characters and colliding aliases make the file
    unreadable): if an alias has an accepted root at the end that it did not
    have before, then the history contains a Trust, AcceptCandidate or
    AcceptObserved call for that root and for an alias that the document shows
    as this one.  Adding candidates and observing heads never promotes.  The
    texts of CIDs are taken to be valid UTF-8. *)
Theorem no_promotion_without_action h (f : trust_file) s s' alias root :
  (forall c : Cid, ValidString (cid_String c) = true) ->
  on_disk f = f -> view f = Some s -> Forall (fun e => ev_now e <> 0%Z) h -> view (foldl apply_stored f h) = Some s' ->
  accepted_root s' alias = Some root -> accepted_root s alias <> Some root ->
  exists e a, e ∈ h /\ json_text a = alias /\ promotes (ev_call e) a root.
Proof.
  intros Ht Hf Hv Hh Hv' Hr Hne. destruct (stored_history Ht h f s s' alias root Hf Hv Hh Hv' Hr) as [|(e & He & a & Ha & Hp)]; [done|eauto].
Qed.

(** C7. An alias that is not valid UTF-8 can lock the trust store for good.  The
    document shows such an alias under another name; when a record with that
    name exists already, for instance because the same alias was trusted
    before, trusting the alias succeeds in every system call and leaves a
    document with a duplicate key.  No later call of any process can read the
    file, and each of them leaves it as it is. *)
Theorem foreign_alias_locks_store now alias root profile gateway source (f : trust_file) s v r h :
  on_disk f = f -> view f = Some s -> canonicalCID root = Ok r -> normalizeAlias alias <> EmptyString ->
  json_text (normalizeAlias alias) <> normalizeAlias alias -> Roots s !! json_text (normalizeAlias alias) = Some v ->
  let f' := apply_stored f (Event io_ok now (CallTrust alias root profile gateway source)) in
  is_ok (Trust io_ok now alias root profile gateway source f).1 = true /\ f' = Some Garbage /\ foldl apply_stored f' h = f'.
Proof.
  intros Hf Hv Hr Ha Hne Hl f'. set (a := normalizeAlias alias) in *.
  set (value := acceptRoot (set_Remote (root_for s a) profile gateway) r source now).
  assert (Trust io_ok now alias root profile gateway source f = (Ok value, Some (Decodes (put_root s a value)))) as Ht.
  { unfold Trust. fold a. rewrite bool_decide_eq_false_2, Hr by done. cbn [fail_if mbind result_bind wrap_err method].
    by eapply (critical_ok synced_writer eq_refl). }
  assert (json_state (put_root s a value) = None) as Hj.
  { unfold json_state. rewrite bool_decide_eq_false_2; [done|]. intros Hnd. rewrite <- list_fmap_compose in Hnd.
    assert (forall k, k ∈ dom (Roots (put_root s a value)) -> exists w, (k, w) ∈ map_to_list (Roots (put_root s a value))) as Hin.
    { intros k [w Hw]%elem_of_dom. exists w. by apply elem_of_map_to_list. }
    destruct (Hin a) as [w1 H1]; [cbn; rewrite dom_insert; set_solver|].
    destruct (Hin (json_text a)) as [w2 H2]; [cbn; rewrite dom_insert; apply elem_of_union; right; by apply elem_of_dom|].
    pose proof (NoDup_key_inj (fst ∘ json_entry) _ (a, w1) (json_text a, w2) Hnd H1 H2) as E.
    cbn in E. rewrite json_text_twice in E. specialize (E eq_refl). congruence. }
  assert (f' = Some Garbage) as ->.
  { unfold f', apply_stored. cbn [apply ev_io ev_now ev_call]. rewrite Ht. cbn. by rewrite Hj. }
  rewrite Ht. split_and!; [done|done|]. induction h as [|e h IH]; [done|]. cbn [foldl]. unfold apply_stored at 2. by rewrite unreadable_stays.
Qed.

(** Accepting a candidate is a compare-and-swap on the accepted root.  A
    recorded candidate is accepted exactly when its base is the root accepted
    now; the replaced root becomes the previous root and no other alias
    changes.  Otherwise the call reports a stale candidate and writes nothing. *)
Theorem accept_candidate_compare_and_swap now alias root source (f : trust_file) s r v c :
  view f = Some s -> canonicalCID root = Ok r -> Roots s !! normalizeAlias alias = Some v ->
  c ∈ Candidates v -> cand_Root c = r ->
  if bool_decide (cand_BaseRoot c = default EmptyString (accepted_root s (normalizeAlias alias)))
  then exists v' f', AcceptCandidate io_ok now alias root source f = (Ok v', f') /\
         view f' = Some (put_root s (normalizeAlias alias) v') /\
         Accepted v' = Some (mkAccepted r (cand_BaseRoot c) source now)
  else exists e, AcceptCandidate io_ok now alias root source f = (Err e, f) /\
         errors_Is e ErrStaleCandidate = true.
Proof.
  intros Hv Hroot Hl Hc Er. pose proof (trust_view_wf _ _ Hv) as Hwf.
  pose proof (root_shape_of _ _ _ Hwf Hl) as Hsh. unfold AcceptCandidate. rewrite Hroot. cbn [wrap_err method].
  assert (List.find (fun item => bool_decide (cand_Root item = r)) (Candidates v) = Some c) as Hfind
    by (by apply find_candidate; [apply Hsh|..]).
  assert (accepted_root s (normalizeAlias alias) = acc_Root <$> Accepted v) as Ea.
  { unfold accepted_root. by rewrite Hl. }
  pose proof (proj1 (Forall_forall _ _) (ro_candidates _ _ Hsh) c Hc) as [_ Hb].
  pose proof (ro_accepted _ _ Hsh) as Hacc. rewrite Ea.
  case_bool_decide as Hbase.
  - eexists (acceptRoot v r source now), _. split; [|split].
    + eapply (critical_ok synced_writer eq_refl); [exact Hv|]. unfold acceptCandidateLocked. rewrite Hl. cbn [or_err mbind result_bind].
      rewrite Hfind. cbn [or_err mbind result_bind]. destruct (Accepted v) as [a|]; cbn in Hbase.
      * destruct Hb as [Hcb _]. rewrite (bool_decide_eq_false_2 (cand_BaseRoot c = EmptyString)) by eauto with malt.
        by rewrite bool_decide_eq_true_2.
      * by rewrite bool_decide_eq_true_2.
    + apply view_Decodes. apply put_root_wf; [done|]. apply acceptRoot_ok; eauto with malt.
    + cbn. destruct (Accepted v) as [a|]; cbn in *; [|by rewrite Hbase].
      rewrite bool_decide_eq_false_2; [by rewrite Hbase|]. destruct Hb as [_ Hb]. congruence.
  - eexists. split; [eapply (critical_err_ok synced_writer); [exact Hv|]|].
    + unfold acceptCandidateLocked. rewrite Hl. cbn [or_err mbind result_bind]. rewrite Hfind.
      cbn [or_err mbind result_bind]. destruct (Accepted v) as [a|]; cbn in Hbase.
      * rewrite (bool_decide_eq_false_2 (cand_BaseRoot c = acc_Root a)) by done.
        rewrite orb_true_r. done.
      * done.
    + done.
Qed.

(** No lost update.  After one candidate was accepted, a competing
    candidate recorded against the same base is no longer acceptable. *)
Theorem competing_candidate_rejected w now now' alias root1 root2 source (f : trust_file) s v c2 r2 v1 f1 :
  view f = Some s -> Roots s !! normalizeAlias alias = Some v ->
  c2 ∈ Candidates v -> canonicalCID root2 = Ok r2 -> cand_Root c2 = r2 ->
  cand_BaseRoot c2 = default EmptyString (acc_Root <$> Accepted v) ->
  canonicalCID root1 <> Ok r2 ->
  AcceptCandidate w now alias root1 source f = (Ok v1, f1) ->
  exists e, AcceptCandidate io_ok now' alias root2 source f1 = (Err e, f1).
Proof.
  intros Hv Hl Hc2 Hr2 E2 Hb Hne H. pose proof (trust_view_wf _ _ Hv) as Hwf.
  pose proof (root_shape_of _ _ _ Hwf Hl) as Hsh. unfold AcceptCandidate in *. rewrite Hr2.
  destruct (canonicalCID root1) as [r1|] eqn:Hr1; [|done]. cbn [wrap_err method] in *.
  destruct (locked_written _ _ _ _ _ _ Hv H) as (s1 & Hop & ->);
    [intros a; unfold acceptCandidateLocked; intros ?; simplify_result|].
  unfold acceptCandidateLocked in Hop. rewrite Hl in Hop. simplify_result.
  assert (root_ok (normalizeAlias alias) (acceptRoot r r1 source now)) as Hok
    by (apply acceptRoot_ok; eauto with malt).
  pose proof (put_root_wf _ _ _ Hwf Hok) as Hwf1.
  assert (exists e, acceptCandidateLocked now' (normalizeAlias alias) (cand_Root c2) source
    (put_root s (normalizeAlias alias) (acceptRoot r r1 source now)) = Err e) as [e He].
  2: { exists e. eapply (critical_err_ok synced_writer); [by apply view_Decodes|done]. }
  match goal with H : List.find _ _ = Some _ |- _ => apply List.find_some in H as [Hin Er1] end. simplify_guards. subst r1. apply list_elem_of_In in Hin.
  unfold acceptCandidateLocked. cbn [Roots put_root]. rewrite lookup_insert_eq. cbn [or_err mbind result_bind].
  pose proof (proj1 (Forall_forall _ _) (ro_candidates _ _ Hsh) _ Hin) as [_ Hc1].
  unfold acceptRoot. cbn [Candidates Accepted]. destruct (Accepted r) as [a|]; [|cbn; eauto].
  rewrite (find_candidate _ _ c2); [|apply removeCandidate_nodup, Hsh| |done].
  2: { apply removeCandidate_elem. split; [done|]. congruence. }
  cbn [or_err mbind result_bind acc_Root]. rewrite (bool_decide_eq_false_2 (cand_BaseRoot c2 = cand_Root r0));
    [cbn [negb]; rewrite orb_true_r|].
  - eexists. reflexivity.
  - cbn in Hb. destruct Hc1 as [_ Hc1]. congruence.
Qed.

(** Observation streams are monotone.  Over any history, an observation
    of a stream is only ever replaced by one of the same stream whose revision
    is not smaller, and that names the same commit and root when the revision
    is the same. *)
Theorem observations_never_regress h (f : trust_file) s s' alias o :
  view f = Some s -> Forall (fun e => ev_now e <> 0%Z) h -> view (foldl apply f h) = Some s' ->
  o ∈ heads s alias -> exists o', o' ∈ heads s' alias /\ observed_after o o'.
Proof.
  intros Hv Hh Hv' Ho. destruct (trust_history_run h f s Hv Hh) as (s1 & Hv1 & _ & Hp).
  assert (s1 = s') as -> by congruence. by apply Hp.
Qed.

Lemma WithAcceptedRoot_fenced {X} w alias expected (op : option (X -> result unit * X))
    (f : trust_file) (x : X) r x' :
  WithAcceptedRoot w alias expected op f x = (r, x') ->
  (x' = x /\ is_ok r = false) \/
  exists s root run, view f = Some s /\ canonicalCID expected = Ok root /\
    accepted_root s (normalizeAlias alias) = Some root /\ op = Some run /\ run x = (r, x').
Proof.
  unfold WithAcceptedRoot. intros H. destruct (mbind _ _) as [run|e] eqn:E; [|simplify_eq; by left].
  right. simplify_result. destruct (locked _ _ _) as [rl fl] eqn:El. cbn in E. subst rl.
  apply critical_inv in El as [[_ Hread]|(s & a & s' & _ & Hop & _)]; [| |done].
  - destruct (Hread _ eq_refl) as (s & Hv & Hop). simplify_result. simplify_guards. subst.
    eexists s, _, run. split_and!; try done. unfold accepted_root.
    match goal with H : Roots s !! _ = Some _ |- _ => rewrite H end. cbn.
    match goal with H : Accepted _ = Some _ |- _ => by rewrite H end.
  - simplify_result.
Qed.

(** The fence.  A guarded operation runs only while the alias's accepted
    root is the expected one; in every other case the other state is left
    alone and an error is reported. *)
Theorem guarded_operation_fenced {X} w alias expected (op : option (X -> result unit * X))
    (f : trust_file) (x : X) r x' :
  WithAcceptedRoot w alias expected op f x = (r, x') ->
  (x' = x /\ is_ok r = false) \/
  exists s root run, view f = Some s /\ canonicalCID expected = Ok root /\
    accepted_root s (normalizeAlias alias) = Some root /\ op = Some run /\ run x = (r, x').
Proof. apply WithAcceptedRoot_fenced. Qed.

(** [AcceptedRoot] answers with the accepted root and with nothing else:
    it succeeds exactly when the store records an accepted root, and it never
    falls back to a candidate or to an observation. *)
Theorem accepted_root_exact (f : trust_file) s alias c v :
  view f = Some s ->
  AcceptedRoot (Some (fun a => (GetState io_ok a f).1)) alias = Ok (c, v) <->
  Roots s !! normalizeAlias alias = Some v /\ accepted_root s (normalizeAlias alias) = Some (cid_String c).
Proof.
  intros Hv. pose proof (trust_view_wf _ _ Hv) as Hwf.
  assert ((GetState io_ok alias f).1 = or_err (Roots s !! normalizeAlias alias) ErrNotFound) as Eg.
  { unfold GetState, locked. destruct (Roots s !! normalizeAlias alias) as [u|] eqn:E; cbn [or_err].
    - erewrite (critical_read synced_writer); [done|exact Hv|]. by rewrite E.
    - erewrite (critical_err_ok synced_writer); [done|exact Hv|]. by rewrite E. }
  unfold AcceptedRoot. cbn [or_err mbind result_bind]. rewrite Eg. unfold accepted_root. split.
  - intros H. simplify_result. rewrite Hr. cbn. rewrite Hr0. cbn. split; [done|].
    destruct (root_shape_of _ _ _ Hwf Hr) as [_ Hacc _ _ _ _ _]. rewrite Hr0 in Hacc.
    destruct Hacc as ([c' Ec] & _). unfold parse_cid in Hr1. rewrite Ec, cid_parse_string in Hr1.
    simplify_result. by rewrite Ec.
  - intros [-> H]. cbn in *. destruct (Accepted v) as [a|]; simplify_eq. cbn. injection H as ->.
    unfold parse_cid. by rewrite cid_parse_string.
Qed.

(** The streams are told apart by source, dataset and branch as long as
    these contain no NUL byte. *)
Theorem observation_key_injective o1 o2 :
  Forall (fun s => ContainsNUL s = false)
    [obs_Source o1; obs_DatasetID o1; obs_Source o2; obs_DatasetID o2] ->
  observationKey o1 = observationKey o2 ->
  obs_Source o1 = obs_Source o2 /\ obs_DatasetID o1 = obs_DatasetID o2 /\ obs_Branch o1 = obs_Branch o2.
Proof.
  intros H E. apply Forall_cons in H as [H1 H]. apply Forall_cons in H as [H2 H].
  apply Forall_cons in H as [H3 H]. apply Forall_cons in H as [H4 _].
  apply nul_split in E as [-> E]; [|done|done]. by apply nul_split in E as [-> ->].
Qed.

(** A method that observes a head, when no system call fails. *)
Lemma ObserveHead_runs now alias o heads' (f : trust_file) s :
  view f = Some s -> now <> 0%Z -> normalizeAlias alias <> EmptyString -> normalizeObservation o = Ok o ->
  upsertObservation (heads s (normalizeAlias alias)) (set_ObservedAt o now) = Ok heads' ->
  exists v f' s', ObserveHead io_ok now alias o f = (Ok v, f') /\ view f' = Some s' /\ heads s' (normalizeAlias alias) = heads'.
Proof.
  intros Hv Hnow Ha Ho Hu. pose proof (trust_view_wf _ _ Hv) as Hwf. rewrite <- root_for_heads in Hu.
  set (v := set_ObservedHeads (root_for s (normalizeAlias alias)) heads').
  exists v, (Some (Decodes (put_root s (normalizeAlias alias) v))), (put_root s (normalizeAlias alias) v). split_and!.
  - unfold ObserveHead. rewrite bool_decide_eq_false_2, Ho by done. cbn [fail_if mbind result_bind method].
    eapply (critical_ok synced_writer eq_refl); [exact Hv|]. unfold observeLocked. by rewrite Hu.
  - apply view_Decodes, put_root_wf; [done|]. eapply observe_ok; [|by eapply observation_ok_new|exact Hu].
    by apply root_for_shape; [..|apply TrimSpace_idemp].
  - rewrite heads_put, bool_decide_eq_true_2 by done. done.
Qed.

Lemma full_observation src d b c root rev at_ :
  Forall (fun t => TrimSpace t = t /\ t <> EmptyString) [src; d; b; c] -> canonical root -> rev <> 0%N ->
  normalizeObservation (mkObserved src d b c root rev at_) = Ok (mkObserved src d b c root rev at_).
Proof.
  intros H Hroot Hrev. apply Forall_cons in H as [[E1 N1] H]. apply Forall_cons in H as [[E2 N2] H]. apply Forall_cons in H as [[E3 N3] H].
  apply Forall_cons in H as [[E4 N4] _]. unfold normalizeObservation. cbn [obs_Source obs_DatasetID obs_Branch obs_CommitID obs_Root obs_Revision obs_ObservedAt].
  rewrite E1, E2, E3, E4, (canonical_trimmed root), !bool_decide_eq_false_2 by eauto with malt. cbn. by rewrite canonicalCID_id.
Qed.

Lemma text_length a b : String.length (a +:+ b) = String.length a + String.length b.
Proof. induction a as [|c a IH]; [done|]. change (S (String.length (a +:+ b)) = S (String.length a + String.length b)). by rewrite IH. Qed.

Lemma sort_one o : sortObservations [o] = [o].
Proof. unfold sortObservations, sort_by_string. apply Permutation_singleton_r, sort_by_Permutation. Qed.

(** C40. Observations of different datasets can replace each other.  Names may
    contain NUL bytes, and the key of a stream joins source, dataset and branch
    with NUL bytes: for any UTF-8 texts d, b and x, the dataset "d NUL b" with branch
    "x" and the dataset "d" with branch "b NUL x" are different streams, the
    store accepts observations of both for an alias without others, and after the second of them, with a
    larger revision, the head of the first stream is gone and only the head of
    the second is recorded. *)
Theorem observation_streams_collide now now' alias src d b x c1 root1 r1 c2 root2 r2 t (f : trust_file) s :
  Forall (fun t => ValidString t = true /\ TrimSpace t = t /\ t <> EmptyString) [src; d; x; d +:+ nul +:+ b; b +:+ nul +:+ x; c1; c2] ->
  canonical root1 -> canonical root2 -> (0 < r1 < r2)%N -> now <> 0%Z -> now' <> 0%Z ->
  view f = Some s -> normalizeAlias alias <> EmptyString -> heads s (normalizeAlias alias) = [] ->
  let o1 := mkObserved src (d +:+ nul +:+ b) x c1 root1 r1 t in
  let o2 := mkObserved src d (b +:+ nul +:+ x) c2 root2 r2 t in
  obs_DatasetID o1 <> obs_DatasetID o2 /\
  exists v1 f1 s1 v2 f2 s2,
    ObserveHead io_ok now alias o1 f = (Ok v1, f1) /\ view f1 = Some s1 /\ heads s1 (normalizeAlias alias) = [set_ObservedAt o1 now] /\
    ObserveHead io_ok now' alias o2 f1 = (Ok v2, f2) /\ view f2 = Some s2 /\ heads s2 (normalizeAlias alias) = [set_ObservedAt o2 now'].
Proof.
  intros Ht Hc1 Hc2 Hr Hn Hn' Hv Ha Hh o1 o2.
  repeat match goal with H : Forall _ (_ :: _) |- _ => apply Forall_cons in H as [[_ ?] ?] end. split.
  { cbn. intros E. apply (f_equal String.length) in E. rewrite !text_length in E. cbn in E. lia. }
  assert (observationKey o1 = observationKey o2) as Ek.
  { unfold observationKey, o1, o2. cbn [obs_Source obs_DatasetID obs_Branch]. by rewrite !(assoc_L String.append). }
  assert (normalizeObservation o1 = Ok o1 /\ normalizeObservation o2 = Ok o2) as [No1 No2].
  { split; apply full_observation; try done; try lia; repeat (apply Forall_cons_2; [done|]); apply Forall_nil_2. }
  destruct (ObserveHead_runs now alias o1 [set_ObservedAt o1 now] f s) as (v1 & f1 & s1 & Hrun1 & Hv1 & Hh1); try done.
  { rewrite Hh. unfold upsertObservation. cbn. by rewrite sort_one. }
  destruct (ObserveHead_runs now' alias o2 [set_ObservedAt o2 now'] f1 s1) as (v2 & f2 & s2 & Hrun2 & Hv2 & Hh2); try done.
  { rewrite Hh1. unfold upsertObservation. cbn [replace_observation].
    change (observationKey (set_ObservedAt o1 now)) with (observationKey o1). change (observationKey (set_ObservedAt o2 now')) with (observationKey o2).
    rewrite bool_decide_eq_true_2 by done. cbn [negb]. cbn [set_ObservedAt o1 o2 obs_Revision].
    destruct (N.ltb_spec r2 r1); [lia|]. rewrite (bool_decide_eq_false_2 (r2 = r1)) by lia. cbn [fail_if andb mbind result_bind]. by rewrite sort_one. }
  by exists v1, f1, s1, v2, f2, s2.
Qed.
End Guarantees.

(** ** Witnesses *)
Module Witness.
Definition observed (rev : N) (root : string) : ObservedHead :=
  mkObserved "gateway" "data" "main" "commit" root rev 1.
Definition start : list event :=
  [Event io_ok 1 (CallTrust "docs" "bafya" "p" "g" "user");
   Event io_ok 2 (CallAddCandidate " docs " "bafyaa" "bafya" "local");
   Event (io_fail SyncParent) 3 (CallAddCandidate "docs" "bafyaaa" "bafya" "local");
   Event io_ok 4 (CallObserveHead "docs" (observed 3 "bafyaaaa"))].
Definition continuation : list event :=
  [Event io_ok 5 (CallObserveHead "docs" (observed 2 "bafya"));
   Event io_ok 6 (CallObserveHead "docs" (observed 5 "bafyaa"));
   Event io_ok 7 (CallAcceptCandidate "docs" "bafyaa" "user")].
Definition store1 : trust_file := foldl apply None start.
Definition store2 : trust_file := foldl apply store1 continuation.
Definition seen (f : trust_file) : state := default emptyState (view f).
Definition docs (f : trust_file) : RootState := default zeroRootState (Roots (seen f) !! "docs").

Ltac evaluate := vm_compute; reflexivity.

Lemma trust_always_loads_witness : loads (foldl apply None (start ++ continuation)).
Proof. apply trust_always_loads; [exact I|]. repeat constructor; discriminate. Defined.

Lemma tally_text n : ValidString (cid_String (CidLib := TallyCid.lib) n) = true.
Proof.
  unfold ValidString. change (bytes _) with ("b" :: "a" :: "f" :: "y" :: bytes (TallyCid.tally n))%char. rewrite TallyCid.bytes_tally. induction n as [|n IH]; [reflexivity|]. exact IH.
Qed.

(** An alias that is not UTF-8 is promoted under the name that the document shows. *)
Definition stored1 : trust_file := foldl apply_stored None start.
Definition foreign : list event :=
  [Event io_ok 5 (CallAddCandidate "docs" "bafyaaa" "bafya" "local"); Event io_ok 6 (CallTrust (byte_str [255]) "bafyaa" "p" "g" "user")].
Lemma no_promotion_without_action_witness :
  exists e a, e ∈ foreign /\ json_text a = byte_str [239; 191; 189] /\ promotes (ev_call e) a "bafyaa".
Proof.
  apply (no_promotion_without_action foreign stored1 (seen stored1) (seen (foldl apply_stored stored1 foreign)));
    [exact tally_text|evaluate|evaluate|repeat constructor; discriminate|evaluate|evaluate|vm_compute; discriminate].
Defined.

(** The same alias, trusted twice. *)
Definition once : trust_file := foldl apply_stored None [Event io_ok 1 (CallTrust (byte_str [255]) "bafya" "p" "g" "user")].
Lemma foreign_alias_locks_store_witness :
  apply_stored once (Event io_ok 2 (CallTrust (byte_str [255]) "bafya" "p" "g" "user")) = Some Garbage.
Proof.
  destruct (foreign_alias_locks_store (L := TallyCid.lib) 2 (byte_str [255]) "bafya" "p" "g" "user" once (seen once)
    (default zeroRootState (Roots (seen once) !! byte_str [239; 191; 189])) "bafya" []) as (_ & H & _).
  - evaluate.
  - evaluate.
  - evaluate.
  - discriminate.
  - vm_compute. discriminate.
  - evaluate.
  - exact H.
Defined.

Lemma observation_streams_collide_witness :
  exists v1 f1 s1 v2 f2 s2,
    ObserveHead io_ok 8 "docs" (mkObserved "g" ("a" +:+ nul +:+ "b") "c" "k1" "bafya" 1 1) None = (Ok v1, f1) /\ view f1 = Some s1 /\
    heads s1 "docs" = [mkObserved "g" ("a" +:+ nul +:+ "b") "c" "k1" "bafya" 1 8] /\
    ObserveHead io_ok 9 "docs" (mkObserved "g" "a" ("b" +:+ nul +:+ "c") "k2" "bafyaa" 2 1) f1 = (Ok v2, f2) /\ view f2 = Some s2 /\
    heads s2 "docs" = [mkObserved "g" "a" ("b" +:+ nul +:+ "c") "k2" "bafyaa" 2 9].
Proof.
  destruct (observation_streams_collide (L := TallyCid.lib) 8 9 "docs" "g" "a" "b" "c" "k1" "bafya" 1 "k2" "bafyaa" 2 1 None emptyState) as [_ H].
  - repeat constructor; vm_compute; try reflexivity; discriminate.
  - by exists 1.
  - by exists 2.
  - vm_compute. split; reflexivity.
  - discriminate.
  - discriminate.
  - reflexivity.
  - discriminate.
  - reflexivity.
  - exact H.
Defined.

Lemma accept_candidate_compare_and_swap_witness :
  exists v' f', AcceptCandidate io_ok 7 "docs" "bafyaa" "user" store1 = (Ok v', f').
Proof.
  assert (H := accept_candidate_compare_and_swap (L := TallyCid.lib) 7 "docs" "bafyaa" "user" store1 (seen store1) "bafyaa"
    (docs store1) (mkCandidate "bafyaa" "bafya" "local" 2) ltac:(evaluate) ltac:(evaluate) ltac:(evaluate)
    ltac:(vm_compute; left) eq_refl).
  rewrite bool_decide_eq_true_2 in H by evaluate. destruct H as (v' & f' & E & _).
  exists v', f'. exact E.
Defined.

Lemma competing_candidate_rejected_witness :
  exists e, AcceptCandidate io_ok 8 "docs" "bafyaaa" "user"
    (AcceptCandidate io_ok 7 "docs" "bafyaa" "user" store1).2 =
    (Err e, (AcceptCandidate io_ok 7 "docs" "bafyaa" "user" store1).2).
Proof.
  apply (competing_candidate_rejected io_ok 7 8 "docs" "bafyaa" "bafyaaa" "user" store1 (seen store1)
    (docs store1) (mkCandidate "bafyaaa" "bafya" "local" 3) "bafyaaa"
    (docs (AcceptCandidate io_ok 7 "docs" "bafyaa" "user" store1).2));
    [evaluate|evaluate|vm_compute; right; left|evaluate|reflexivity|evaluate|vm_compute; discriminate|evaluate].
Defined.

Lemma observations_never_regress_witness :
  exists o', o' ∈ heads (seen store2) "docs" /\ observed_after (set_ObservedAt (observed 3 "bafyaaaa") 4) o'.
Proof.
  apply (observations_never_regress continuation store1 (seen store1));
    [evaluate|repeat constructor; discriminate|evaluate|vm_compute; left].
Defined.

Lemma guarded_operation_fenced_witness :
  accepted_root (seen store1) "docs" = Some "bafya".
Proof.
  destruct (guarded_operation_fenced io_ok "docs" "bafya" (Some (fun n : nat => (Ok (), S n))) store1 0
    (Ok ()) 1) as [[E _]|(s & r & run & Hv & Hr & Ha & _)].
  - evaluate.
  - discriminate E.
  - assert (s = seen store1) as -> by (unfold seen; rewrite Hv; reflexivity).
    vm_compute in Hr. injection Hr as <-. exact Ha.
Defined.

Lemma accepted_root_exact_witness :
  AcceptedRoot (Some (fun a => (GetState io_ok a store1).1)) "docs" = Ok ((1 : Cid (CidLib := TallyCid.lib)), docs store1).
Proof.
  apply (accepted_root_exact (L := TallyCid.lib) store1 (seen store1) "docs" 1 (docs store1)); [evaluate|].
  split; evaluate.
Defined.

Lemma observation_key_injective_witness :
  observationKey (observed 1 "bafya") = observationKey (observed 2 "bafyaa") /\
  obs_Branch (observed 1 "bafya") = obs_Branch (observed 2 "bafyaa").
Proof.
  split; [reflexivity|].
  apply (observation_key_injective (observed 1 "bafya") (observed 2 "bafyaa"));
    [repeat constructor|reflexivity].
Defined.
End Witness.
