(* ===== verification/Branch.v ===== *)
(** Branch selectors (internal/bucketbranch/branch.go) and the unpadded
    URL-safe base64 encoding of the standard library, which the workspace keys
    use. *)

From stdpp Require Import base decidable list strings sets.
From Stdlib Require Import Ascii ZArith.
From S2P Require Import Prelude GoText.

(** ** Selectors *)

(** [validIdentifier] ranges over runes; the accepted ones are ASCII, so the
    test is one on bytes. *)
Definition identifier_byte (a : ascii) : bool :=
  in_range 97 122 a || in_range 65 90 a || in_range 48 57 a ||
  is_byte 45 a || is_byte 95 a || is_byte 46 a.

Definition validIdentifier (value : string) : bool :=
  negb (bool_decide (value = EmptyString)) && (String.length value <=? 128)%nat &&
  forallb identifier_byte (bytes value).

Definition heads_prefix : string := "heads/".

Definition NormalizeExplicit (raw : string) : result string :=
  let raw := TrimPrefix (TrimSpace raw) heads_prefix in
  _ ← fail_if (bool_decide (raw = EmptyString) || bool_decide (raw = "main") ||
               HasPrefix raw "conflicts/" || (128 <? String.length raw)%nat ||
               HasPrefix raw "/" || HasSuffix raw "/" || Contains raw "..")
        (Errorf "invalid Bucket branch");
  _ ← fail_if (negb (forallb validIdentifier (Split raw slash))) (Errorf "invalid Bucket branch");
  if HasPrefix raw heads_prefix then Ok (heads_prefix +:+ raw) else Ok raw.

Definition NormalizeSelector (raw : string) : result string :=
  let raw := TrimSpace raw in
  if bool_decide (raw = EmptyString) || bool_decide (raw = "main") then Ok "main"
  else NormalizeExplicit raw.

Definition RefName (raw : string) : result string :=
  selector ← NormalizeSelector raw;
  if bool_decide (selector = "main") then Ok selector
  else Ok (heads_prefix +:+ TrimPrefix selector heads_prefix).

(** A byte that may occur in a branch name. *)
Definition branch_byte (a : ascii) : bool := identifier_byte a || is_byte 47 a.

(** Texts without blanks are trimmed. *)
Lemma branch_byte_not_space a : branch_byte a = true -> space1 a = false /\ (N_of_ascii a < 128)%N.
Proof.
  unfold branch_byte, identifier_byte, space1, in_range, is_byte. intros H.
  generalize dependent (N_of_ascii a). intros n.
  rewrite ?orb_true_iff, ?andb_true_iff, ?N.leb_le, ?N.eqb_eq.
  intros H. split; [|lia].
  apply orb_false_iff. rewrite andb_false_iff, !N.leb_gt, N.eqb_neq. lia.
Qed.

Lemma ascii_not_space l :
  (forall a, a ∈ l -> space1 a = false /\ (N_of_ascii a < 128)%N) ->
  starts_space space2 space3 l = false /\
  starts_space (fun b a => space2 a b) (fun c b a => space3 a b c) l = false.
Proof.
  intros H.
  assert (forall a n, a ∈ l -> (128 <= n)%N -> is_byte n a = false) as Hb.
  { intros a n Ha Hn. unfold is_byte. apply N.eqb_neq. destruct (H a Ha). lia. }
  destruct l as [|a [|b [|c l]]]; cbn; try done.
  - rewrite !(proj1 (H a ltac:(set_solver))). done.
  - rewrite !(proj1 (H a ltac:(set_solver))). unfold space2. by rewrite !Hb by (set_solver || lia).
  - rewrite !(proj1 (H a ltac:(set_solver))). unfold space2, space3. cbn.
    rewrite !Hb by (set_solver || lia). by rewrite ?andb_false_r.
Qed.

Lemma branch_bytes_trimmed s : forallb branch_byte (bytes s) = true -> TrimSpace s = s.
Proof.
  intros H. unfold TrimSpace, trim_left, trim_right.
  assert (forall a, a ∈ bytes s -> space1 a = false /\ (N_of_ascii a < 128)%N) as Hb.
  { intros a Ha. apply branch_byte_not_space. rewrite forallb_forall in H. by apply H, list_elem_of_In. }
  rewrite (drop_space_id space2 space3) by by apply ascii_not_space.
  rewrite drop_space_id.
  - by rewrite rev_involutive, of_bytes_bytes.
  - apply ascii_not_space. intros a Ha. apply Hb. by rewrite list_elem_of_In, in_rev, <- list_elem_of_In.
Qed.

Lemma Split_nonempty s sep : Split s sep <> [].
Proof.
  destruct s as [|a s]; unfold Split; fold Split; [done|].
  destruct (ascii_dec a sep), (Split s sep); done.
Qed.

(** The segments of a slash-separated text determine its bytes. *)
Lemma split_bytes (P : ascii -> bool) s :
  (forallb (fun w => forallb P (bytes w)) (Split s slash)) = true ->
  forallb (fun a => P a || is_byte 47 a) (bytes s) = true.
Proof.
  unfold bytes. induction s as [|a s IH]; [done|]. unfold Split; fold Split. cbn [String.list_ascii_of_string].
  destruct (ascii_dec a slash) as [->|Hne].
  - cbn. intros H. rewrite orb_true_r. by apply IH.
  - destruct (Split s slash) as [|w ws] eqn:E; [by apply Split_nonempty in E|].
    cbn. rewrite !andb_true_iff. intros [[Ha Hw] Hws]. rewrite Ha. split; [done|]. apply IH. cbn. by rewrite Hw, Hws.
Qed.

(** ** Prefixes *)
Lemma strip_prefix_Some p s r : strip_prefix p s = Some r <-> s = p +:+ r.
Proof.
  revert s. induction p as [|a p IH]; intros s; cbn.
  - split; [by intros [= ->]|by intros ->].
  - destruct s as [|b s]; [by split|]. destruct (ascii_dec a b) as [->|Hne].
    + rewrite IH. split; [by intros ->|by intros [= ->]].
    + split; [done|]. by intros [= E _].
Qed.

Lemma HasPrefix_strip s p : HasPrefix s p = true <-> exists r, strip_prefix p s = Some r.
Proof.
  unfold HasPrefix. revert s. induction p as [|a p IH]; intros s.
  { split; [by eexists|by destruct s]. }
  destruct s as [|b s]; [split; [done|by intros [? ?]]|]. cbn [String.prefix strip_prefix].
  destruct (ascii_dec a b); [apply IH|]. split; [done|by intros [? ?]].
Qed.

Lemma TrimPrefix_app p r : TrimPrefix (p +:+ r) p = r.
Proof. unfold TrimPrefix. by rewrite (proj2 (strip_prefix_Some p (p +:+ r) r)). Qed.

Lemma TrimPrefix_none s p : HasPrefix s p = false -> TrimPrefix s p = s.
Proof.
  intros H. unfold TrimPrefix. destruct (strip_prefix p s) eqn:E; [|done].
  assert (HasPrefix s p = true) by (apply HasPrefix_strip; eauto). congruence.
Qed.

(** ** The names behind the selectors *)
Definition explicit_ok (raw : string) : bool :=
  negb (bool_decide (raw = EmptyString) || bool_decide (raw = "main") ||
        HasPrefix raw "conflicts/" || (128 <? String.length raw)%nat ||
        HasPrefix raw "/" || HasSuffix raw "/" || Contains raw "..") &&
  forallb validIdentifier (Split raw slash).

(** The selector of a branch name. *)
Definition selector (raw : string) : string :=
  if HasPrefix raw heads_prefix then heads_prefix +:+ raw else raw.

#[local] Arguments HasPrefix : simpl never.
#[local] Arguments TrimSpace : simpl never.
#[local] Arguments String.append : simpl never.

Lemma NormalizeExplicit_unfold r :
  NormalizeExplicit r =
    let raw := TrimPrefix (TrimSpace r) heads_prefix in
    if explicit_ok raw then Ok (selector raw) else Err (Errorf "invalid Bucket branch").
Proof.
  unfold NormalizeExplicit, explicit_ok, selector. cbv zeta.
  set (raw := TrimPrefix _ _). destruct (bool_decide (raw = EmptyString) || _ || _ || _ || _ || _ || _); [done|].
  cbn [fail_if mbind result_bind negb andb]. destruct (forallb _ _); cbn [fail_if mbind result_bind negb]; [|done].
  by destruct (HasPrefix raw heads_prefix).
Qed.

Lemma selector_TrimPrefix raw : TrimPrefix (selector raw) heads_prefix = raw.
Proof.
  unfold selector. destruct (HasPrefix raw heads_prefix) eqn:E.
  - apply TrimPrefix_app.
  - by apply TrimPrefix_none.
Qed.

Lemma selector_inj raw1 raw2 : selector raw1 = selector raw2 -> raw1 = raw2.
Proof. intros H. rewrite <- (selector_TrimPrefix raw1), <- (selector_TrimPrefix raw2). by rewrite H. Qed.

Lemma bytes_app a b : bytes (a +:+ b) = bytes a ++ bytes b.
Proof.
  unfold bytes. induction a as [|c a IH]; [done|].
  change (String c a +:+ b) with (String c (a +:+ b)). cbn. by rewrite IH.
Qed.

Lemma explicit_branch_bytes raw : explicit_ok raw = true -> forallb branch_byte (bytes raw) = true.
Proof.
  unfold explicit_ok. intros [_ H]%andb_true_iff. apply (split_bytes identifier_byte).
  rewrite forallb_forall in *. intros w Hw. specialize (H w Hw).
  unfold validIdentifier in H. by apply andb_true_iff in H as [_ H].
Qed.

Lemma selector_trimmed raw : explicit_ok raw = true -> TrimSpace (selector raw) = selector raw.
Proof.
  intros H%explicit_branch_bytes. apply branch_bytes_trimmed. unfold selector.
  destruct (HasPrefix raw heads_prefix); [|done]. rewrite bytes_app, forallb_app, H. done.
Qed.

Lemma explicit_ok_not_main raw : explicit_ok raw = true -> raw <> EmptyString /\ raw <> "main".
Proof.
  unfold explicit_ok. intros [H _]%andb_true_iff. apply negb_true_iff in H.
  rewrite !orb_false_iff in H. destruct_and!. simplify_guards. done.
Qed.

Lemma selector_not_main raw : explicit_ok raw = true -> selector raw <> EmptyString /\ selector raw <> "main".
Proof.
  intros [H1 H2]%explicit_ok_not_main. unfold selector. by destruct (HasPrefix raw heads_prefix).
Qed.

(** What a normalised selector is. *)
Lemma NormalizeSelector_inv r s :
  NormalizeSelector r = Ok s -> s = "main" \/ exists raw, explicit_ok raw = true /\ s = selector raw.
Proof.
  unfold NormalizeSelector. destruct (_ || _); [intros [= <-]; by left|].
  rewrite NormalizeExplicit_unfold. cbv zeta. destruct (explicit_ok _) eqn:E; [|done].
  intros [= <-]. right. eauto.
Qed.

Lemma NormalizeSelector_selector raw : explicit_ok raw = true -> NormalizeSelector (selector raw) = Ok (selector raw).
Proof.
  intros H. destruct (selector_not_main raw H) as [H1 H2]. unfold NormalizeSelector.
  rewrite selector_trimmed by done. rewrite !bool_decide_eq_false_2 by done. cbn [orb].
  rewrite NormalizeExplicit_unfold. cbv zeta. rewrite selector_trimmed by done.
  by rewrite selector_TrimPrefix, H.
Qed.

Lemma NormalizeSelector_idemp_lemma r s : NormalizeSelector r = Ok s -> NormalizeSelector s = Ok s.
Proof.
  intros [->|(raw & H & ->)]%NormalizeSelector_inv; [done|]. by apply NormalizeSelector_selector.
Qed.

Lemma RefName_inv r n :
  RefName r = Ok n ->
  (n = "main" /\ NormalizeSelector r = Ok "main") \/
  exists raw, explicit_ok raw = true /\ NormalizeSelector r = Ok (selector raw) /\ n = heads_prefix +:+ raw.
Proof.
  unfold RefName. intros H. simplify_result.
  destruct (NormalizeSelector_inv _ _ Hr) as [->|(raw & Hok & ->)].
  - rewrite bool_decide_eq_true_2 in H by done. simplify_result. by left.
  - right. exists raw. rewrite bool_decide_eq_false_2 in H by by apply selector_not_main.
    rewrite selector_TrimPrefix in H. simplify_result. done.
Qed.

(** Selectors are stable and unambiguous.  Normalising a normalised
    selector changes nothing, so passing it through another adapter cannot
    select a different branch; and two selectors address the same registry ref
    only when they normalise to the same selector. *)
Theorem selector_stable_and_unambiguous r s :
  NormalizeSelector r = Ok s ->
  NormalizeSelector s = Ok s /\ RefName s = RefName r /\
  forall r' n, RefName r = Ok n -> RefName r' = Ok n -> NormalizeSelector r' = Ok s.
Proof.
  intros H. pose proof (NormalizeSelector_idemp_lemma _ _ H) as Hi. split_and!; [done| |].
  - unfold RefName. by rewrite H, Hi.
  - intros r' n [[-> H1]|(raw & _ & H1 & ->)]%RefName_inv [[E H2]|(raw' & _ & H2 & E)]%RefName_inv;
      [congruence|discriminate E|discriminate E|].
    apply (f_equal (fun s => TrimPrefix s heads_prefix)) in E. rewrite !TrimPrefix_app in E. congruence.
Qed.

Lemma selector_stable_and_unambiguous_witness :
  NormalizeSelector "heads/heads/x" = Ok "heads/heads/x" /\ RefName "heads/heads/x" = RefName " heads/heads/x ".
Proof.
  destruct (selector_stable_and_unambiguous " heads/heads/x " "heads/heads/x") as (H1 & H2 & _);
    [vm_compute; reflexivity|]. by split.
Defined.
