(* ===== verification/NodeApi.v ===== *)
(** Requests and results of a dataset branch (nodeapi/dataset.go): what is sent
    to an untrusted remote, and the checks that bind its answers to the request.
    The remote itself is an argument of the code that calls it. *)

From stdpp Require Import base decidable list strings.
From S2P Require Import Prelude GoText CidLib Branch.

Record ObservedHead := mkObservedHead {
  oh_DatasetID : string; oh_Name : string; oh_Kind : string; oh_State : string;
  oh_CommitID : string; oh_Root : string; oh_Revision : N; oh_CreatedBy : string;
  oh_CreatedAt : time; oh_UpdatedAt : time
}.

Record Commit := mkCommit {
  cm_ID : string; cm_DatasetID : string; cm_Root : string; cm_Parents : list string;
  cm_BaseRoot : string; cm_Author : string; cm_Credential : string; cm_ChangeSetCID : string;
  cm_Message : string; cm_CreatedAt : time
}.

Record Conflict := mkConflict {
  cf_Coordinate : string; cf_Base : string; cf_Local : string; cf_Remote : string
}.

Record ApplyRequest := mkApplyRequest {
  ar_OperationID : string; ar_Branch : string; ar_BaseCommit : string; ar_BaseRoot : string;
  ar_CandidateRoot : string; ar_BaseRevision : N; ar_ChangeSetCID : string; ar_Message : string;
  ar_MergePolicy : string
}.

Record ApplyResult := mkApplyResult {
  res_Status : string; res_Head : ObservedHead; res_Candidate : Commit; res_Commit : Commit;
  res_Branch : option ObservedHead; res_MergeBase : string; res_Conflicts : list Conflict
}.

Record DatasetBinding := mkBinding { bind_DatasetID : string; bind_Branch : string }.

#[global] Instance Conflict_eq_dec : EqDecision Conflict.
Proof. solve_decision. Defined.
#[global] Instance ApplyRequest_eq_dec : EqDecision ApplyRequest.
Proof. solve_decision. Defined.

Definition is_empty (s : string) : bool := bool_decide (s = EmptyString).

Definition NormalizeBranch (raw : string) : result string := NormalizeSelector raw.

Definition candidateParentsMatchRequest (candidate : Commit) (request : ApplyRequest)
    (allowMissing : bool) : bool :=
  if is_empty (ar_BaseCommit request) then bool_decide (cm_Parents candidate = [])
  else if bool_decide (cm_Parents candidate = [ar_BaseCommit request]) then true
  else allowMissing && bool_decide (cm_Parents candidate = []).

Definition refPointsToCommit (ref : ObservedHead) (commit : Commit) : bool :=
  bool_decide (oh_DatasetID ref = cm_DatasetID commit) && bool_decide (oh_CommitID ref = cm_ID commit) &&
  bool_decide (oh_Root ref = cm_Root commit).

Definition equalCommit (left right : Commit) : bool :=
  bool_decide (cm_ID left = cm_ID right) && bool_decide (cm_DatasetID left = cm_DatasetID right) &&
  bool_decide (cm_Root left = cm_Root right) && bool_decide (cm_Parents left = cm_Parents right) &&
  bool_decide (cm_BaseRoot left = cm_BaseRoot right) && bool_decide (cm_Author left = cm_Author right) &&
  bool_decide (cm_Credential left = cm_Credential right) &&
  bool_decide (cm_ChangeSetCID left = cm_ChangeSetCID right) &&
  bool_decide (cm_Message left = cm_Message right) && bool_decide (cm_CreatedAt left = cm_CreatedAt right).

Section NodeApi.
Context {L : CidLib}.

(** [if raw != "" { parse; raw = parsed.String() }]. *)
Definition canonical_if_set (text raw : string) : result string :=
  if negb (is_empty raw) then wrap_err text (canonicalCID raw) else Ok raw.

(** [if raw != "" { if _, err := cid.Parse(raw); err != nil { ... } }]. *)
Definition check_if_set (text raw : string) : result unit :=
  if negb (is_empty raw) then fail_if (negb (is_ok (parse_cid raw))) (Errorf text) else Ok ().

Definition NormalizeApplyRequest (selectedBranch : string) (request : ApplyRequest) : result ApplyRequest :=
  let operationID := TrimSpace (ar_OperationID request) in
  let baseCommit := TrimSpace (ar_BaseCommit request) in
  let baseRoot := TrimSpace (ar_BaseRoot request) in
  let candidateRoot := TrimSpace (ar_CandidateRoot request) in
  let changeSet := TrimSpace (ar_ChangeSetCID request) in
  let message := TrimSpace (ar_Message request) in
  let mergePolicy := TrimSpace (ar_MergePolicy request) in
  _ ← fail_if (negb (is_empty mergePolicy) && negb (bool_decide (mergePolicy = "preserve")))
        (Errorf "merge policy must be empty or preserve");
  branch ← NormalizeBranch (ar_Branch request);
  selected ← NormalizeBranch selectedBranch;
  _ ← fail_if (negb (is_empty (ar_Branch request)) && negb (bool_decide (branch = selected)))
        (Errorf "dataset apply branch does not match selected branch");
  let requestBranch := if negb (bool_decide (selected = "main")) then selected else EmptyString in
  _ ← fail_if (is_empty operationID || (256 <? String.length operationID)%nat)
        (Errorf "dataset apply operation ID must contain 1..256 bytes");
  candidate ← wrap_err "invalid candidate root" (canonicalCID candidateRoot);
  _ ← fail_if (negb (Bool.eqb (is_empty baseCommit) (is_empty baseRoot)) ||
               negb (Bool.eqb (is_empty baseCommit) (bool_decide (ar_BaseRevision request = 0%N))))
        (Errorf "dataset base commit, root, and non-zero revision must be supplied together");
  base ← canonical_if_set "invalid base root" baseRoot;
  change ← canonical_if_set "invalid change-set CID" changeSet;
  Ok (mkApplyRequest operationID requestBranch baseCommit base candidate (ar_BaseRevision request)
        change message mergePolicy).

Definition ValidateBinding (datasetID branch : string) (binding : DatasetBinding) : result unit :=
  branch ← NormalizeBranch branch;
  boundBranch ← wrap_err "remote dataset binding has invalid branch" (NormalizeBranch (bind_Branch binding));
  fail_if (is_empty (TrimSpace datasetID) || negb (bool_decide (bind_DatasetID binding = datasetID)) ||
           negb (bool_decide (boundBranch = branch)))
    (Errorf "remote dataset binding does not match").

Definition ValidateObservedHead (datasetID branch : string) (value : ObservedHead) : result unit :=
  wantName ← RefName branch;
  let wantKind := if negb (bool_decide (wantName = "main")) then "explicit" else "main" in
  _ ← fail_if (is_empty (TrimSpace datasetID) || negb (bool_decide (oh_DatasetID value = datasetID)) ||
               negb (bool_decide (oh_Name value = wantName)) || negb (bool_decide (oh_Kind value = wantKind)) ||
               negb (bool_decide (oh_State value = "open")))
        (Errorf "remote returned an invalid dataset head");
  if is_empty (oh_CommitID value) then
    fail_if (negb (is_empty (oh_Root value)) || negb (bool_decide (oh_Revision value = 0%N)))
      (Errorf "remote returned an invalid empty dataset head")
  else
  _ ← fail_if (is_empty (oh_Root value) || bool_decide (oh_Revision value = 0%N))
        (Errorf "remote returned an invalid dataset head tuple");
  fail_if (negb (is_ok (parse_cid (oh_Root value)))) (Errorf "remote returned an invalid dataset head root").

Definition check_parent (id : string) (seen : list string) (parent : string) : result (list string) :=
  _ ← fail_if (is_empty parent || bool_decide (parent = id)) (Errorf "invalid commit parent");
  _ ← fail_if (bool_decide (parent ∈ seen)) (Errorf "duplicate commit parent");
  Ok (parent :: seen).

Definition validateCommit (datasetID : string) (value : Commit) : result unit :=
  _ ← fail_if (is_empty (cm_ID value) || negb (bool_decide (cm_DatasetID value = datasetID)))
        (Errorf "commit identity does not match the selected dataset");
  _ ← fail_if (negb (is_ok (parse_cid (cm_Root value)))) (Errorf "invalid commit root");
  _ ← check_if_set "invalid commit base root" (cm_BaseRoot value);
  _ ← check_if_set "invalid commit change-set CID" (cm_ChangeSetCID value);
  _ ← foldM (check_parent (cm_ID value)) [] (cm_Parents value);
  Ok ().

Definition validateConflictRef (datasetID : string) (value : ObservedHead) : result unit :=
  _ ← fail_if (negb (bool_decide (oh_DatasetID value = datasetID)) ||
               negb (bool_decide (oh_Kind value = "conflict")) || negb (bool_decide (oh_State value = "open")) ||
               match Split (oh_Name value) slash with
               | [p0; p1; p2] => negb (bool_decide (p0 = "conflicts")) || is_empty p1 || is_empty p2
               | _ => true
               end)
        (Errorf "remote returned an invalid dataset conflict ref");
  _ ← fail_if (is_empty (oh_CommitID value) || is_empty (oh_Root value) ||
               bool_decide (oh_Revision value = 0%N))
        (Errorf "remote returned an empty dataset conflict ref");
  fail_if (negb (is_ok (parse_cid (oh_Root value)))) (Errorf "remote returned an invalid dataset conflict ref root").

(** The three cases of the status switch. *)
Definition check_fast_forward (request : ApplyRequest) (value : ApplyResult) : result unit :=
  _ ← fail_if (bool_decide (is_Some (res_Branch value)) || negb (bool_decide (res_Conflicts value = [])) ||
               negb (is_empty (res_MergeBase value)) || is_empty (oh_CommitID (res_Head value)))
        (Errorf "remote returned an inconsistent fast-forward dataset apply");
  _ ← fail_if (negb (equalCommit (res_Candidate value) (res_Commit value)) ||
               negb (bool_decide (cm_Root (res_Commit value) = ar_CandidateRoot request)))
        (Errorf "remote returned a fast-forward result for a different candidate");
  fail_if (negb (refPointsToCommit (res_Head value) (res_Commit value)))
    (Errorf "remote returned a fast-forward head that does not point to the final commit").

Definition check_merged (request : ApplyRequest) (value : ApplyResult) : result unit :=
  _ ← fail_if (bool_decide (ar_MergePolicy request = "preserve"))
        (Errorf "remote merged a candidate despite preserve policy");
  _ ← fail_if (bool_decide (is_Some (res_Branch value)) || negb (bool_decide (res_Conflicts value = [])) ||
               bool_decide (cm_ID (res_Candidate value) = cm_ID (res_Commit value)) ||
               is_empty (oh_CommitID (res_Head value)))
        (Errorf "remote returned an inconsistent merged dataset apply");
  _ ← fail_if (negb (bool_decide (res_MergeBase value = ar_BaseRoot request)))
        (Errorf "remote returned a merge result for a different base");
  _ ← fail_if (match cm_Parents (res_Commit value) with
               | [p0; p1] => is_empty p0 || bool_decide (p0 = cm_ID (res_Candidate value)) ||
                             negb (bool_decide (p1 = cm_ID (res_Candidate value)))
               | _ => true
               end)
        (Errorf "remote returned a merge commit with inconsistent parents");
  _ ← fail_if (is_empty (cm_BaseRoot (res_Commit value)))
        (Errorf "remote returned a merge commit without its remote base root");
  fail_if (negb (refPointsToCommit (res_Head value) (res_Commit value)))
    (Errorf "remote returned a merged head that does not point to the final commit").

Definition check_branched (datasetID : string) (request : ApplyRequest) (value : ApplyResult) : result unit :=
  match res_Branch value with
  | None => Err (Errorf "remote returned an inconsistent conflicted dataset apply")
  | Some branch =>
      _ ← fail_if (negb (equalCommit (res_Candidate value) (res_Commit value)) ||
                   bool_decide (res_Conflicts value = []) ||
                   negb (bool_decide (res_MergeBase value = ar_BaseRoot request)))
            (Errorf "remote returned an inconsistent conflicted dataset apply");
      _ ← validateConflictRef datasetID branch;
      fail_if (negb (refPointsToCommit branch (res_Candidate value)))
        (Errorf "remote returned a conflict branch that does not preserve the candidate")
  end.

Definition ValidateApplyResult (datasetID : string) (request : ApplyRequest) (value : ApplyResult)
    : result unit :=
  request ← NormalizeApplyRequest (ar_Branch request) request;
  _ ← ValidateObservedHead datasetID (ar_Branch request) (res_Head value);
  _ ← wrap_err "remote returned an invalid dataset candidate" (validateCommit datasetID (res_Candidate value));
  _ ← wrap_err "remote returned an invalid final dataset commit" (validateCommit datasetID (res_Commit value));
  let candidate := res_Candidate value in
  _ ← fail_if (negb (bool_decide (cm_Root candidate = ar_CandidateRoot request)))
        (Errorf "remote returned a dataset candidate for a different root");
  _ ← fail_if (negb (bool_decide (cm_BaseRoot candidate = ar_BaseRoot request)))
        (Errorf "remote returned a dataset candidate for a different base root");
  _ ← fail_if (negb (bool_decide (cm_ChangeSetCID candidate = ar_ChangeSetCID request)) ||
               negb (bool_decide (cm_Message candidate = ar_Message request)))
        (Errorf "remote returned a dataset candidate for different apply metadata");
  _ ← fail_if (negb (candidateParentsMatchRequest candidate request
                       (bool_decide (res_Status value = "branched"))))
        (Errorf "remote returned a dataset candidate with inconsistent parents");
  if bool_decide (res_Status value = "fast_forward") then check_fast_forward request value
  else if bool_decide (res_Status value = "merged") then check_merged request value
  else if bool_decide (res_Status value = "branched") then check_branched datasetID request value
  else Err (Errorf "remote returned unsupported dataset apply status").

(** ** Properties *)
Context {LL : CidLaws L}.

Lemma canonical_if_set_ok t raw s :
  canonical_if_set t raw = Ok s -> (s = EmptyString /\ raw = EmptyString) \/ canonical s.
Proof.
  unfold canonical_if_set, is_empty. case_bool_decide; cbn; intros H'; simplify_result; [by left|].
  right. eauto with malt.
Qed.

Lemma canonical_if_set_id t s : s = EmptyString \/ canonical s -> canonical_if_set t s = Ok s.
Proof.
  unfold canonical_if_set, is_empty. intros [->|H]; [done|].
  rewrite bool_decide_eq_false_2 by eauto with malt. cbn. by rewrite canonicalCID_id.
Qed.

Lemma canonical_if_set_empty t raw s :
  canonical_if_set t raw = Ok s -> is_empty s = is_empty raw.
Proof.
  unfold canonical_if_set, is_empty. case_bool_decide; cbn; intros H'; simplify_result.
  - by rewrite bool_decide_eq_true_2.
  - by rewrite bool_decide_eq_false_2 by eauto with malt.
Qed.

Lemma canonical_if_set_trim t raw s : canonical_if_set t (TrimSpace raw) = Ok s -> TrimSpace s = s.
Proof. intros [[-> _]|H]%canonical_if_set_ok; [done|eauto with malt]. Qed.

(** The branch field of a normalised request selects the branch. *)
Lemma request_branch_selects selected branch :
  NormalizeBranch selected = Ok branch ->
  NormalizeBranch (if negb (bool_decide (branch = "main")) then branch else EmptyString) = Ok branch.
Proof.
  intros H. destruct (decide (branch = "main")) as [->|Hne]; [reflexivity|].
  rewrite bool_decide_eq_false_2 by done. cbn [negb]. by eapply NormalizeSelector_idemp_lemma.
Qed.

(** A normalised request is a fixed point, for the branch it was normalised
    for and for its own branch. *)
Lemma NormalizeApplyRequest_fix selected selected' request request' :
  NormalizeApplyRequest selected request = Ok request' ->
  NormalizeBranch selected' = NormalizeBranch selected ->
  NormalizeApplyRequest selected' request' = Ok request'.
Proof.
  unfold NormalizeApplyRequest at 1. intros H Hsel. simplify_result.
  assert (canonical r4) as Hc by eauto with malt.
  pose proof (request_branch_selects _ _ Hr1) as Hb.
  unfold NormalizeApplyRequest. cbn [ar_OperationID ar_Branch ar_BaseCommit ar_BaseRoot ar_CandidateRoot
    ar_BaseRevision ar_ChangeSetCID ar_Message ar_MergePolicy].
  rewrite !TrimSpace_idemp, Hr, Hb, Hsel, Hr1. cbn [fail_if mbind result_bind].
  rewrite (bool_decide_eq_true_2 (r1 = r1)), andb_false_r, Hr3 by done. cbn [fail_if mbind result_bind].
  rewrite (canonical_trimmed r4), (canonicalCID_id r4) by done. cbn [wrap_err fail_if mbind result_bind].
  rewrite (canonical_if_set_trim _ _ _ Hr6), (canonical_if_set_trim _ _ _ Hr7).
  rewrite (canonical_if_set_empty _ _ _ Hr6), Hr5. cbn [fail_if mbind result_bind].
  rewrite !canonical_if_set_id; [done| |].
  - apply canonical_if_set_ok in Hr6 as [[-> _]|?]; auto.
  - apply canonical_if_set_ok in Hr7 as [[-> _]|?]; auto.
Qed.

(** The branch of a normalised request selects the same branch. *)
Lemma NormalizeApplyRequest_branch selected request request' :
  NormalizeApplyRequest selected request = Ok request' ->
  NormalizeBranch (ar_Branch request') = NormalizeBranch selected.
Proof.
  unfold NormalizeApplyRequest. intros H. simplify_result. cbn [ar_Branch]. rewrite Hr1.
  by eapply request_branch_selects.
Qed.

(** A normalised request is final: normalising it again, for the selected
    branch or for the branch it carries, returns it unchanged, so a retry sends
    the bytes that were sent first. *)
Theorem apply_request_normal_form selected request request' :
  NormalizeApplyRequest selected request = Ok request' ->
  NormalizeApplyRequest selected request' = Ok request' /\
  NormalizeApplyRequest (ar_Branch request') request' = Ok request'.
Proof.
  intros H. split; eapply NormalizeApplyRequest_fix; try exact H; [done|].
  by eapply NormalizeApplyRequest_branch.
Qed.

Lemma equalCommit_eq a b : equalCommit a b = true -> a = b.
Proof. unfold equalCommit. intros H. simplify_guards. destruct a, b; cbn in *; congruence. Qed.

Lemma refPointsToCommit_spec ref c :
  refPointsToCommit ref c = true ->
  oh_DatasetID ref = cm_DatasetID c /\ oh_CommitID ref = cm_ID c /\ oh_Root ref = cm_Root c.
Proof. unfold refPointsToCommit. intros H. by simplify_guards. Qed.

(** An accepted result is bound to the request.  Its candidate is the
    requested root on the requested base, and then: after a fast-forward the
    branch head is that candidate; after a merge (which the policy allowed) the
    head is a commit with the candidate as second parent; after a conflict the
    candidate is preserved as the head of a conflict branch. *)
Theorem apply_result_bound_to_request datasetID selected request request' value :
  NormalizeApplyRequest selected request = Ok request' ->
  ValidateApplyResult datasetID request' value = Ok () ->
  cm_Root (res_Candidate value) = ar_CandidateRoot request' /\
  cm_BaseRoot (res_Candidate value) = ar_BaseRoot request' /\
  oh_DatasetID (res_Head value) = datasetID /\ RefName selected = Ok (oh_Name (res_Head value)) /\
  ((res_Status value = "fast_forward" /\ oh_Root (res_Head value) = ar_CandidateRoot request' /\
    oh_CommitID (res_Head value) = cm_ID (res_Candidate value) /\ res_Conflicts value = []) \/
   (res_Status value = "merged" /\ ar_MergePolicy request' <> "preserve" /\
    oh_CommitID (res_Head value) = cm_ID (res_Commit value) /\
    oh_Root (res_Head value) = cm_Root (res_Commit value) /\
    exists p, cm_Parents (res_Commit value) = [p; cm_ID (res_Candidate value)] /\
      p <> EmptyString /\ p <> cm_ID (res_Candidate value)) \/
   (res_Status value = "branched" /\ res_Conflicts value <> [] /\
    exists branch, res_Branch value = Some branch /\ oh_Kind branch = "conflict" /\
      oh_Root branch = ar_CandidateRoot request' /\ oh_CommitID branch = cm_ID (res_Candidate value))).
Proof.
  intros Hn H. unfold ValidateApplyResult in H.
  rewrite (NormalizeApplyRequest_fix selected (ar_Branch request') _ _ Hn) in H
    by by eapply NormalizeApplyRequest_branch.
  cbn [mbind result_bind] in H. simplify_result. simplify_guards.
  assert (oh_DatasetID (res_Head value) = datasetID /\ RefName selected = Ok (oh_Name (res_Head value))) as [Hd Hnm].
  { match goal with H : ValidateObservedHead _ _ _ = _ |- _ => unfold ValidateObservedHead in H end.
    simplify_result. simplify_guards. split; [done|].
    pose proof (NormalizeApplyRequest_branch _ _ _ Hn) as Hb. unfold NormalizeBranch in Hb.
    match goal with H : RefName (ar_Branch _) = _ |- _ => unfold RefName in H |- *; rewrite Hb in H; rewrite H end.
    congruence. }
  split_and!; try done.
  repeat (case_in H; simplify_guards; [|try done]); [left|right; left|right; right].
  - unfold check_fast_forward in H. simplify_result. simplify_guards.
    match goal with H : equalCommit _ _ = true |- _ => apply equalCommit_eq in H end.
    match goal with H : refPointsToCommit _ _ = true |- _ => apply refPointsToCommit_spec in H end.
    destruct_and!. split_and!; congruence.
  - unfold check_merged in H. simplify_result. simplify_guards.
    match goal with H : refPointsToCommit _ _ = true |- _ => apply refPointsToCommit_spec in H end.
    destruct_and!. split_and!; try done.
    destruct (cm_Parents (res_Commit value)) as [|p0 [|p1 [|]]]; try done.
    simplify_guards. unfold is_empty in *. simplify_guards. exists p0. split_and!; [congruence|done|done].
  - unfold check_branched in H. destruct (res_Branch value) as [br|]; [|done]. simplify_result. simplify_guards.
    match goal with H : validateConflictRef _ _ = _ |- _ => unfold validateConflictRef in H end.
    simplify_result. simplify_guards.
    match goal with H : refPointsToCommit _ _ = true |- _ => apply refPointsToCommit_spec in H end.
    destruct_and!. split_and!; [done|done|]. exists br. split_and!; [done|done|congruence|congruence].
Qed.

(** An accepted head is a head: empty in all parts or in none. *)
Lemma ValidateObservedHead_tuple datasetID branch value :
  ValidateObservedHead datasetID branch value = Ok () ->
  (oh_CommitID value = EmptyString /\ oh_Root value = EmptyString /\ oh_Revision value = 0%N) \/
  (oh_CommitID value <> EmptyString /\ oh_Root value <> EmptyString /\ oh_Revision value <> 0%N /\
   is_ok (parse_cid (oh_Root value)) = true).
Proof.
  unfold ValidateObservedHead, is_empty. intros H. simplify_result.
  case_bool_decide; simplify_result; simplify_guards; [left|right]; done.
Qed.
End NodeApi.

#[global] Arguments NormalizeApplyRequest : simpl never.
#[global] Arguments ValidateObservedHead : simpl never.
#[global] Arguments ValidateApplyResult : simpl never.

(** ** Witnesses *)
Module Witness.
Definition request : ApplyRequest :=
  mkApplyRequest " push_1 " "heads/team" "c1" "bafya" "bafyaa" 3 EmptyString " msg " EmptyString.
Definition normalized : ApplyRequest :=
  mkApplyRequest "push_1" "team" "c1" "bafya" "bafyaa" 3 EmptyString "msg" EmptyString.
Definition commit : Commit :=
  mkCommit "c2" "data" "bafyaa" ["c1"] "bafya" "me" EmptyString EmptyString "msg" 5.
Definition head : ObservedHead :=
  mkObservedHead "data" "heads/team" "explicit" "open" "c2" "bafyaa" 4 EmptyString 1 5.
Definition value : ApplyResult :=
  mkApplyResult "fast_forward" head commit commit None EmptyString [].

Lemma apply_request_normal_form_witness :
  NormalizeApplyRequest "team" normalized = Ok normalized /\
  NormalizeApplyRequest (ar_Branch normalized) normalized = Ok normalized.
Proof. apply (apply_request_normal_form "team" request). vm_compute. reflexivity. Defined.

Lemma apply_result_bound_to_request_witness :
  cm_Root (res_Candidate value) = ar_CandidateRoot normalized /\ RefName "team" = Ok (oh_Name (res_Head value)).
Proof.
  destruct (apply_result_bound_to_request "data" "team" request normalized value) as (H1 & _ & _ & H2 & _);
    [vm_compute; reflexivity|vm_compute; reflexivity|]. split; assumption.
Defined.
End Witness.
