(* ===== verification/BucketSync.v ===== *)
(** Bucket synchronisation (bucketsync/service.go): the durable record of local
    candidates, of the base each was made from, and of the last observed remote
    head.

    The state of [Service] is its file; every method is one critical section,
    except [Push], which is three.  What other processes do to the file between
    the sections of a push is an argument, and so are the answers of the remote
    and the random identities. *)

From stdpp Require Import base decidable gmap strings list.
From S2P Require Import Prelude GoText CidLib Durable Branch NodeApi.

Definition bucketWorkspaceVersion : N := 3.
Definition ErrNotInitialized := ErrorsNew "Bucket workspace is not initialized".
Definition ErrNotStaged := ErrorsNew "Bucket candidate is not staged with its original base".

Record Head := mkHead { hd_CommitID : string; hd_Root : string; hd_Revision : N }.

#[global] Instance Head_eq_dec : EqDecision Head.
Proof. solve_decision. Defined.

Record Stash := mkStash {
  st_ID : string; st_PushID : string; st_CandidateRoot : string; st_Base : Head;
  st_ChangeSetCID : string; st_Message : string; st_RequestFrozen : bool; st_Status : string;
  st_Branch : string; st_Conflicts : list Conflict; st_CreatedAt : time; st_UpdatedAt : time
}.

Record Workspace := mkWorkspace {
  ws_BucketID : string; ws_Branch : string; ws_Initialized : bool; ws_Base : Head; ws_Remote : Head;
  ws_Stashes : list Stash; ws_UpdatedAt : time
}.

Record persistedState := mkBucketState { bs_Version : N; Workspaces : gmap string Workspace }.

Definition emptyState : persistedState := mkBucketState bucketWorkspaceVersion ∅.
Definition zeroHead : Head := mkHead EmptyString EmptyString 0.
Definition zeroWorkspace : Workspace :=
  mkWorkspace EmptyString EmptyString false zeroHead zeroHead [] 0.

Definition status_pending : string := "pending".
Definition status_branched : string := "branched".
Definition is_pending (st : Stash) : bool := bool_decide (st_Status st = status_pending).
Definition is_branched (st : Stash) : bool := bool_decide (st_Status st = status_branched).

(** ** Helpers *)
Definition monotonicHead (current incoming : Head) : result Head :=
  if (hd_Revision incoming <? hd_Revision current)%N then Ok current
  else if (hd_Revision current <? hd_Revision incoming)%N then Ok incoming
  else if negb (bool_decide (current = incoming))
  then Err (Errorf "revision identifies different commits or roots")
  else Ok current.

Definition hasPending (values : list Stash) : bool :=
  existsb (fun value => is_pending value || is_branched value) values.

Definition workspaceKey (bucketID branch : string) : string :=
  bucketID +:+ "@" +:+ EncodeToString branch.

Definition sameFrozenStash (existing restored : Stash) : bool :=
  bool_decide (st_ID existing = st_ID restored) && bool_decide (st_PushID existing = st_PushID restored) &&
  bool_decide (st_CandidateRoot existing = st_CandidateRoot restored) &&
  bool_decide (st_Base existing = st_Base restored) &&
  bool_decide (st_ChangeSetCID existing = st_ChangeSetCID restored) &&
  bool_decide (st_Message existing = st_Message restored) &&
  st_RequestFrozen existing && is_pending existing.

Definition conflictsFromRemote (values : list Conflict) : list Conflict :=
  sort_by_string cf_Coordinate values.

(** Field updates of the two records. *)
Definition set_heads (ws : Workspace) (base remote : Head) (now : time) : Workspace :=
  mkWorkspace (ws_BucketID ws) (ws_Branch ws) (ws_Initialized ws) base remote (ws_Stashes ws) now.
Definition set_Stashes (ws : Workspace) (stashes : list Stash) : Workspace :=
  mkWorkspace (ws_BucketID ws) (ws_Branch ws) (ws_Initialized ws) (ws_Base ws) (ws_Remote ws) stashes
    (ws_UpdatedAt ws).
Definition set_UpdatedAt (ws : Workspace) (now : time) : Workspace :=
  mkWorkspace (ws_BucketID ws) (ws_Branch ws) (ws_Initialized ws) (ws_Base ws) (ws_Remote ws)
    (ws_Stashes ws) now.
Definition set_Initialized (ws : Workspace) : Workspace :=
  mkWorkspace (ws_BucketID ws) (ws_Branch ws) true (ws_Base ws) (ws_Remote ws) (ws_Stashes ws)
    (ws_UpdatedAt ws).

Section BucketSync.
Context {L : CidLib}.

Definition validateHead (value : Head) : result unit :=
  if is_empty (hd_CommitID value) then
    fail_if (negb (is_empty (hd_Root value)) || negb (bool_decide (hd_Revision value = 0%N)))
      (Errorf "empty head has root or revision")
  else
  _ ← fail_if (is_empty (hd_Root value) || bool_decide (hd_Revision value = 0%N))
        (Errorf "non-empty head lacks root or revision");
  fail_if (negb (is_ok (parse_cid (hd_Root value)))) (Errorf "invalid cid").

Definition headFromRef (value : ObservedHead) : result Head :=
  let head := mkHead (oh_CommitID value) (oh_Root value) (oh_Revision value) in
  _ ← validateHead head; Ok head.

(** ** Loading ([reload]).  [request_frozen] is a field that every encoding of
    a stash contains, so the separate check of the raw bytes
    ([validateFreezeFields]) is part of what [Decodes] means. *)
Definition check_stash (stash : Stash) : result unit :=
  _ ← fail_if (is_empty (st_ID stash) || is_empty (st_PushID stash) ||
               (negb (is_pending stash) && negb (is_branched stash)))
        (Errorf "Bucket has an invalid stash");
  _ ← fail_if (negb (is_ok (parse_cid (st_CandidateRoot stash)))) (Errorf "Bucket stash root");
  wrap_err "Bucket stash base" (validateHead (st_Base stash)).

Definition check_workspace (item : string * Workspace) : result unit :=
  let '(id, ws) := item in
  _ ← match NormalizeSelector (ws_Branch ws) with
      | Ok branch => fail_if (negb (bool_decide (workspaceKey (ws_BucketID ws) branch = id)))
                       (Errorf "Bucket workspace key does not match record")
      | Err _ => Err (Errorf "Bucket workspace key does not match record")
      end;
  _ ← wrap_err "Bucket base" (validateHead (ws_Base ws));
  _ ← wrap_err "Bucket remote" (validateHead (ws_Remote ws));
  foldM (fun _ st => check_stash st) () (ws_Stashes ws).

(** The loop assigns the normalised branch to its own copy of the record, so
    the loaded state is the decoded one. *)
Definition decode (state : persistedState) : result persistedState :=
  _ ← fail_if (negb (bool_decide (bs_Version state = bucketWorkspaceVersion)))
        (Errorf "unsupported Bucket workspace version");
  _ ← foldM (fun _ item => check_workspace item) () (map_to_list (Workspaces state));
  Ok state.

Definition wf (s : persistedState) : Prop :=
  bs_Version s = bucketWorkspaceVersion /\
  forall id ws, Workspaces s !! id = Some ws -> check_workspace (id, ws) = Ok ().

#[export] Instance bucket_store : DurableStore persistedState :=
  {| ds_empty := emptyState; ds_decode := decode; ds_wf := wf |}.

Definition bucket_file := file persistedState.

Definition withState {A} (w : io) (write : bool) (op : persistedState -> result (A * persistedState))
    (f : bucket_file) : result A * bucket_file :=
  with_state best_effort_writer w write op f.

Definition method {A B} (args : result A) (f : bucket_file) (body : A -> result B * bucket_file)
    : result B * bucket_file :=
  match args with Err e => (Err e, f) | Ok a => body a end.

(** ** The service: one dataset and one branch *)
Record Service := mkService { svc_bucketID : string; svc_branch : string }.
Definition stateKey (svc : Service) : string := workspaceKey (svc_bucketID svc) (svc_branch svc).

Definition OpenRemoteBranch (w : io) (path : string) (remote : option DatasetBinding)
    (bucketID branch : string) (f : bucket_file) : result Service * bucket_file :=
  let bucketID := TrimSpace bucketID in
  method (branch ← NormalizeSelector branch;
          _ ← fail_if (is_empty (TrimSpace path) || bool_decide (remote = None) || is_empty bucketID)
                (Errorf "Bucket sync path, remote dataset capability, Bucket ID, and branch are required");
          binding ← or_err remote (Errorf "nil remote");
          _ ← ValidateBinding bucketID branch binding;
          Ok (mkService bucketID branch)) f (fun svc =>
  withState w false (fun s => Ok (svc, s)) f).

Definition OpenRemote (w : io) (path : string) (remote : option DatasetBinding) (bucketID : string)
    (f : bucket_file) := OpenRemoteBranch w path remote bucketID "main" f.

Definition workspace (svc : Service) (s : persistedState) : Workspace :=
  let value := default zeroWorkspace (Workspaces s !! stateKey svc) in
  mkWorkspace (svc_bucketID svc) (svc_branch svc) (ws_Initialized value) (ws_Base value)
    (ws_Remote value) (ws_Stashes value) (ws_UpdatedAt value).

Definition store (svc : Service) (ws : Workspace) (s : persistedState) : persistedState :=
  mkBucketState (bs_Version s) (<[stateKey svc := ws]> (Workspaces s)).

(** Advance the base when nothing is pending. *)
Definition advance_base (text : string) (stashes : list Stash) (base remote : Head) : result Head :=
  if negb (hasPending stashes) then wrap_err text (monotonicHead base remote) else Ok base.

Definition pullLocked (now : time) (svc : Service) (remote : Head) (s : persistedState)
    : result (Workspace * persistedState) :=
  let ws := set_Initialized (workspace svc s) in
  remote ← wrap_err "merge observed Bucket head" (monotonicHead (ws_Remote ws) remote);
  base ← advance_base "merge Bucket base" (ws_Stashes ws) (ws_Base ws) remote;
  let ws := set_heads ws base remote now in
  Ok (ws, store svc ws s).

Definition Pull (w : io) (now : time) (svc : Service) (observed : result (option ObservedHead))
    (f : bucket_file) : result Workspace * bucket_file :=
  method (response ← observed;
          head ← or_err response (Errorf "remote returned an empty dataset head response");
          _ ← ValidateObservedHead (svc_bucketID svc) (svc_branch svc) head;
          headFromRef head) f (fun remote =>
  withState w true (pullLocked now svc remote) f).

(** An undefined CID prints as nothing. *)
Definition cid_text (c : option Cid) : string :=
  match c with Some c => cid_String c | None => EmptyString end.

Definition CurrentBase (w : io) (svc : Service) (baseRoot : option Cid) (f : bucket_file)
    : result Head * bucket_file :=
  let want := cid_text baseRoot in
  withState w false (fun s =>
    let ws := workspace svc s in
    _ ← fail_if (negb (ws_Initialized ws)) ErrNotInitialized;
    _ ← fail_if (negb (bool_decide (hd_Root (ws_Base ws) = want)))
          (Errorf "candidate base root does not match staged workspace base");
    Ok (ws_Base ws, s)) f.

(** The identity of a new stash. *)
Definition randomID (random : option string) : result string :=
  or_err random (Errorf "read random bytes").

Definition stageLocked (now : time) (svc : Service) (random : option string) (candidateRoot : string)
    (base : Head) (changeSet message : string) (s : persistedState) : result (Stash * persistedState) :=
  let ws := workspace svc s in
  _ ← fail_if (negb (ws_Initialized ws)) ErrNotInitialized;
  match List.find (fun st => is_pending st && bool_decide (st_CandidateRoot st = candidateRoot))
          (ws_Stashes ws) with
  | Some existing =>
      _ ← fail_if (negb (bool_decide (st_Base existing = base)))
            (Errorf "candidate is already staged against a different base");
      Ok (existing, s)
  | None =>
      id ← randomID random;
      let stash := mkStash id ("push_" +:+ id) candidateRoot base changeSet (TrimSpace message) false
                     status_pending EmptyString [] now now in
      Ok (stash, store svc (set_UpdatedAt (set_Stashes ws (ws_Stashes ws ++ [stash])) now) s)
  end.

Definition Stage (w : io) (now : time) (svc : Service) (random : option string)
    (candidateRoot : option Cid) (base : Head) (changeSet : option Cid) (message : string)
    (f : bucket_file) : result Stash * bucket_file :=
  method (candidate ← or_err candidateRoot (Errorf "candidate root is undefined");
          _ ← wrap_err "candidate base" (validateHead base);
          Ok (cid_String candidate)) f (fun candidate =>
  withState w true (stageLocked now svc random candidate base (cid_text changeSet) message) f).

(** The loop of [RestorePending]: the matching stash, or nothing. *)
Fixpoint restore_scan (stashes : list Stash) (stash : Stash) : result (option Stash) :=
  match stashes with
  | [] => Ok None
  | existing :: rest =>
      if bool_decide (st_ID existing = st_ID stash) then
        _ ← fail_if (negb (sameFrozenStash existing stash))
              (Errorf "restored Bucket stash conflicts with local stash");
        Ok (Some existing)
      else
      _ ← fail_if (is_pending existing && bool_decide (st_CandidateRoot existing = st_CandidateRoot stash))
            (Errorf "restored Bucket stash candidate already has a different pending identity");
      restore_scan rest stash
  end.

Definition touch (stash : Stash) (now : time) : Stash :=
  mkStash (st_ID stash) (st_PushID stash) (st_CandidateRoot stash) (st_Base stash) (st_ChangeSetCID stash)
    (st_Message stash) (st_RequestFrozen stash) (st_Status stash) (st_Branch stash) (st_Conflicts stash)
    (st_CreatedAt stash) now.

Definition restoreLocked (now : time) (svc : Service) (stash : Stash) (s : persistedState)
    : result (Stash * persistedState) :=
  let ws := workspace svc s in
  _ ← fail_if (negb (ws_Initialized ws)) ErrNotInitialized;
  found ← restore_scan (ws_Stashes ws) stash;
  match found with
  | Some existing => Ok (existing, s)
  | None =>
      let stash := touch stash now in
      Ok (stash, store svc (set_UpdatedAt (set_Stashes ws (ws_Stashes ws ++ [stash])) now) s)
  end.

Definition trim_Message (stash : Stash) : Stash :=
  mkStash (st_ID stash) (st_PushID stash) (st_CandidateRoot stash) (st_Base stash) (st_ChangeSetCID stash)
    (TrimSpace (st_Message stash)) (st_RequestFrozen stash) (st_Status stash) (st_Branch stash)
    (st_Conflicts stash) (st_CreatedAt stash) (st_UpdatedAt stash).

Definition RestorePending (w : io) (now : time) (svc : Service) (stash : Stash) (f : bucket_file)
    : result Stash * bucket_file :=
  method (_ ← fail_if (is_empty (st_ID stash) || is_empty (st_PushID stash) || negb (is_pending stash) ||
                       negb (st_RequestFrozen stash))
                (Errorf "restored Bucket stash identity is incomplete");
          _ ← fail_if (negb (is_ok (parse_cid (st_CandidateRoot stash))))
                (Errorf "restored Bucket stash candidate");
          _ ← wrap_err "restored Bucket stash base" (validateHead (st_Base stash));
          _ ← check_if_set "restored Bucket stash change set" (st_ChangeSetCID stash);
          let stash := trim_Message stash in
          _ ← fail_if (time_IsZero (st_CreatedAt stash))
                (Errorf "restored Bucket stash creation time is missing");
          Ok stash) f (fun stash =>
  withState w true (restoreLocked now svc stash) f).

(** ** Push *)

(** The first section freezes the request of the stash. *)
Definition freeze_stash (now : time) (changeSet message : string) (st : Stash) : result Stash :=
  if st_RequestFrozen st then
    _ ← fail_if (negb (is_empty changeSet) && negb (bool_decide (changeSet = st_ChangeSetCID st)))
          (Errorf "Bucket retry change set differs from the persisted push request");
    _ ← fail_if (negb (is_empty message) && negb (bool_decide (message = st_Message st)))
          (Errorf "Bucket retry message differs from the persisted push request");
    Ok (touch st now)
  else
    Ok (mkStash (st_ID st) (st_PushID st) (st_CandidateRoot st) (st_Base st)
          (if negb (is_empty changeSet) then changeSet else st_ChangeSetCID st)
          (if negb (is_empty message) then message else st_Message st)
          true (st_Status st) (st_Branch st) (st_Conflicts st) (st_CreatedAt st) now).

Fixpoint freeze_scan (now : time) (candidateRoot changeSet message : string) (stashes : list Stash)
    : result (Stash * list Stash) :=
  match stashes with
  | [] => Err ErrNotStaged
  | st :: rest =>
      if negb (is_pending st) || negb (bool_decide (st_CandidateRoot st = candidateRoot)) then
        '(found, rest') ← freeze_scan now candidateRoot changeSet message rest;
        Ok (found, st :: rest')
      else
        st' ← freeze_stash now changeSet message st; Ok (st', st' :: rest)
  end.

Definition freezeLocked (now now2 : time) (svc : Service) (candidateRoot changeSet message : string)
    (s : persistedState) : result (Stash * persistedState) :=
  let ws := workspace svc s in
  _ ← fail_if (negb (ws_Initialized ws)) ErrNotInitialized;
  '(stash, stashes) ← freeze_scan now candidateRoot changeSet (TrimSpace message) (ws_Stashes ws);
  Ok (stash, store svc (set_UpdatedAt (set_Stashes ws stashes) now2) s).

(** The third section settles the stash with the answer of the remote. *)
Fixpoint settle_scan (now : time) (id : string) (value : ApplyResult) (stashes : list Stash) : list Stash :=
  match stashes with
  | [] => []
  | st :: rest =>
      if negb (bool_decide (st_ID st = id)) then st :: settle_scan now id value rest
      else if bool_decide (res_Status value = status_branched) then
        mkStash (st_ID st) (st_PushID st) (st_CandidateRoot st) (st_Base st) (st_ChangeSetCID st)
          (st_Message st) (st_RequestFrozen st) status_branched
          (match res_Branch value with Some branch => oh_Name branch | None => st_Branch st end)
          (conflictsFromRemote (res_Conflicts value)) (st_CreatedAt st) now :: rest
      else rest
  end.

Definition settleLocked (now now2 : time) (svc : Service) (id : string) (value : ApplyResult)
    (s : persistedState) : result (Workspace * persistedState) :=
  let current := workspace svc s in
  let current := set_Stashes current (settle_scan now id value (ws_Stashes current)) in
  head ← headFromRef (res_Head value);
  remote ← wrap_err "merge pushed Bucket head" (monotonicHead (ws_Remote current) head);
  base ← advance_base "merge pushed Bucket base" (ws_Stashes current) (ws_Base current) remote;
  let current := set_heads current base remote now2 in
  Ok (current, store svc current s).

(** The request of a stash. *)
Definition push_request (svc : Service) (stash : Stash) : result ApplyRequest :=
  NormalizeApplyRequest (svc_branch svc)
    (mkApplyRequest (st_PushID stash) (svc_branch svc) (hd_CommitID (st_Base stash)) (hd_Root (st_Base stash))
       (st_CandidateRoot stash) (hd_Revision (st_Base stash)) (st_ChangeSetCID stash) (st_Message stash)
       EmptyString).

(** The sections of a push, each with the outcome of its system calls and its
    clock. *)
Record section_env := SectionEnv { se_io : io; se_now : time; se_now2 : time }.

Definition push_freeze (e : section_env) (svc : Service) (candidateRoot : string)
    (changeSet : option Cid) (message : string) (f : bucket_file) : result Stash * bucket_file :=
  withState (se_io e) true (freezeLocked (se_now e) (se_now2 e) svc candidateRoot (cid_text changeSet) message) f.

Definition push_settle (e : section_env) (svc : Service) (id : string) (value : ApplyResult)
    (f : bucket_file) : result Workspace * bucket_file :=
  withState (se_io e) true (settleLocked (se_now e) (se_now2 e) svc id value) f.

(** [others1] and [others2] are what other processes do to the file between
    the sections; [apply] is the remote. *)
Definition Push (e1 e2 e3 : section_env) (others1 others2 : bucket_file -> bucket_file) (svc : Service)
    (candidateRoot changeSet : option Cid) (message : string) (observed : result (option ObservedHead))
    (apply : ApplyRequest -> result (option ApplyResult)) (f : bucket_file)
    : result (ApplyResult * Workspace) * bucket_file :=
  match candidateRoot with
  | None => (Err (Errorf "candidate root is undefined"), f)
  | Some candidate =>
      let '(frozen, f1) := push_freeze e1 svc (cid_String candidate) changeSet message f in
      match frozen with
      | Err e => (Err e, f1)
      | Ok stash =>
          let '(pulled, f2) := Pull (se_io e2) (se_now e2) svc observed (others1 f1) in
          match
            (_ ← pulled;
             request ← push_request svc stash;
             response ← apply request;
             value ← or_err response (Errorf "remote returned an empty dataset apply response");
             _ ← ValidateApplyResult (svc_bucketID svc) request value;
             Ok value)
          with
          | Err e => (Err e, f2)
          | Ok value =>
              let '(settled, f3) := push_settle e3 svc (st_ID stash) value (others2 f2) in
              match settled with
              | Err e => (Err e, f3)
              | Ok ws => (Ok (value, ws), f3)
              end
          end
      end
  end.

Definition StatusOf (w : io) (svc : Service) (f : bucket_file) : result Workspace * bucket_file :=
  withState w false (fun s => Ok (workspace svc s, s)) f.

(** ** Resolving a branched stash *)
Fixpoint resolve_scan (id candidateRoot : string) (stashes : list Stash) : result (list Stash) :=
  match stashes with
  | [] => Err (Errorf "branched Bucket stash was not found")
  | st :: rest =>
      if negb (bool_decide (st_ID st = id)) then
        rest' ← resolve_scan id candidateRoot rest; Ok (st :: rest')
      else
        _ ← fail_if (negb (is_branched st) || negb (bool_decide (st_CandidateRoot st = candidateRoot)))
              (Errorf "Bucket stash is not the selected branched candidate");
        Ok rest
  end.

Definition resolveLocked (now : time) (svc : Service) (id candidateRoot : string) (s : persistedState)
    : result (Workspace * persistedState) :=
  let ws := workspace svc s in
  stashes ← resolve_scan id candidateRoot (ws_Stashes ws);
  base ← advance_base "advance resolved Bucket base" stashes (ws_Base ws) (ws_Remote ws);
  let ws := set_heads (set_Stashes ws stashes) base (ws_Remote ws) now in
  Ok (ws, store svc ws s).

Definition ResolveBranched (w : io) (now : time) (svc : Service) (stashID candidateRoot : string)
    (f : bucket_file) : result Workspace * bucket_file :=
  let stashID := TrimSpace stashID in
  let candidateRoot := TrimSpace candidateRoot in
  method (_ ← fail_if (is_empty stashID) (Errorf "branched stash ID is empty");
          fail_if (negb (is_ok (parse_cid candidateRoot))) (Errorf "branched stash candidate")) f (fun _ =>
  withState w true (resolveLocked now svc stashID candidateRoot) f).
End BucketSync.

#[global] Arguments validateHead : simpl never.
#[global] Arguments workspaceKey : simpl never.
#[global] Arguments stateKey : simpl never.
#[global] Arguments workspace : simpl never.
#[global] Arguments monotonicHead : simpl never.
