(* ===== verification/BucketSyncFacts.v ===== *)
(** The steps of bucket synchronisation: every critical section keeps the file
    loadable and takes the workspace of its service one [ws_step]; the other
    workspaces are not touched. *)

From stdpp Require Import base decidable gmap strings list sets.
From S2P Require Import Prelude GoText CidLib Durable Branch NodeApi BucketSync.

(** ** Heads *)

(** [b] is the same head as [a] or one with a larger revision. *)
Definition head_after (a b : Head) : Prop :=
  (hd_Revision a <= hd_Revision b)%N /\ (hd_Revision a = hd_Revision b -> a = b).

#[export] Instance head_after_preorder : PreOrder head_after.
Proof.
  split.
  - intros a. by split; [lia|].
  - intros a b c [L1 E1] [L2 E2]. split; [lia|]. intros E. rewrite E1 by lia. apply E2. lia.
Qed.

Lemma monotonicHead_spec cur inc h :
  monotonicHead cur inc = Ok h -> head_after cur h /\ head_after inc h /\ (h = cur \/ h = inc).
Proof.
  unfold monotonicHead. destruct (N.ltb_spec (hd_Revision inc) (hd_Revision cur)) as [H1|H1].
  { intros [= <-]. split_and!; [done|split; [lia|lia]|by left]. }
  destruct (N.ltb_spec (hd_Revision cur) (hd_Revision inc)) as [H2|H2].
  { intros [= <-]. split_and!; [split; [lia|lia]|done|by right]. }
  case_bool_decide; cbn; intros E; simplify_result. split_and!; [done|done|by left].
Qed.

Lemma monotonicHead_after cur inc : head_after cur inc -> monotonicHead cur inc = Ok inc.
Proof.
  intros [H E]. unfold monotonicHead. destruct (N.ltb_spec (hd_Revision inc) (hd_Revision cur)); [lia|].
  destruct (N.ltb_spec (hd_Revision cur) (hd_Revision inc)); [done|].
  rewrite E by lia. by rewrite bool_decide_eq_true_2.
Qed.

(** ** Keys *)
Lemma EncodeToString_inj a b : EncodeToString a = EncodeToString b -> a = b.
Proof.
  unfold EncodeToString. intros H. apply (f_equal bytes) in H. rewrite !bytes_of_bytes in H.
  apply base64_inj, (f_equal of_bytes) in H. by rewrite !of_bytes_bytes in H.
Qed.

Lemma workspaceKey_inj b1 r1 b2 r2 :
  workspaceKey b1 r1 = workspaceKey b2 r2 -> b1 = b2 /\ r1 = r2.
Proof.
  unfold workspaceKey. intros H. apply (f_equal bytes) in H. rewrite !bytes_app in H.
  change (bytes "@") with [Ascii.ascii_of_nat 64] in H. cbn [app] in H.
  unfold EncodeToString in H. rewrite !bytes_of_bytes in H.
  assert (forall l, Ascii.ascii_of_nat 64 ∉ base64 l) as Hno.
  { intros l Hin%base64_alphabet. revert Hin. apply (bool_decide_eq_false (_ ∈ alphabet)). reflexivity. }
  apply last_separator in H as [H1 H2]; [|apply Hno|apply Hno]. split.
  - apply (f_equal of_bytes) in H1. by rewrite !of_bytes_bytes in H1.
  - apply base64_inj, (f_equal of_bytes) in H2. by rewrite !of_bytes_bytes in H2.
Qed.

Lemma stateKey_inj svc1 svc2 : stateKey svc1 = stateKey svc2 -> svc1 = svc2.
Proof. destruct svc1, svc2. intros [H1 H2]%workspaceKey_inj. cbn in *. by subst. Qed.

(** ** Stashes *)
Definition ids (ws : Workspace) : list string := st_ID <$> ws_Stashes ws.

(** A stash keeps what was captured when it was made, and a frozen request
    keeps its metadata. *)
Definition stash_evolves (a b : Stash) : Prop :=
  st_ID b = st_ID a /\ st_PushID b = st_PushID a /\ st_CandidateRoot b = st_CandidateRoot a /\
  st_Base b = st_Base a /\
  (st_RequestFrozen a = true ->
     st_RequestFrozen b = true /\ st_ChangeSetCID b = st_ChangeSetCID a /\ st_Message b = st_Message a).

#[export] Instance stash_evolves_preorder : PreOrder stash_evolves.
Proof.
  split.
  - intros a. split_and!; done.
  - intros a b c (A1 & A2 & A3 & A4 & A5) (B1 & B2 & B3 & B4 & B5).
    split_and!; try congruence. intros Hf. destruct (A5 Hf) as (F1 & F2 & F3).
    destruct (B5 F1) as (? & ? & ?). split_and!; congruence.
Qed.

(** One step of a workspace. *)
Record ws_step (ws ws' : Workspace) : Prop := {
  wss_remote : head_after (ws_Remote ws) (ws_Remote ws');
  wss_base : head_after (ws_Base ws) (ws_Base ws');
  wss_tracks : head_after (ws_Base ws') (ws_Remote ws');
  wss_pinned : hasPending (ws_Stashes ws') = true -> ws_Base ws' = ws_Base ws;
  wss_stashes : forall st', st' ∈ ws_Stashes ws' ->
    (exists st, st ∈ ws_Stashes ws /\ stash_evolves st st') \/ st_ID st' ∉ ids ws;
  wss_nodup : NoDup (ids ws')
}.

Definition ws_inv (ws : Workspace) : Prop :=
  head_after (ws_Base ws) (ws_Remote ws) /\ NoDup (ids ws).

Lemma ws_step_refl ws : ws_inv ws -> ws_step ws ws.
Proof. intros [H1 H2]. split; try done. intros st Hst. left. by exists st. Qed.

Lemma ws_step_inv ws ws' : ws_step ws ws' -> ws_inv ws'.
Proof. intros []. by split. Qed.

(** Steps that only change the stashes. *)
Lemma ws_step_stashes ws ws' :
  ws_inv ws -> ws_Base ws' = ws_Base ws -> ws_Remote ws' = ws_Remote ws -> NoDup (ids ws') ->
  (forall st', st' ∈ ws_Stashes ws' ->
     (exists st, st ∈ ws_Stashes ws /\ stash_evolves st st') \/ st_ID st' ∉ ids ws) ->
  ws_step ws ws'.
Proof. intros [H1 H2] Eb Er Hnd Hs. split; rewrite ?Eb, ?Er; done. Qed.

Lemma advance_base_spec text stashes base remote h :
  head_after base remote -> advance_base text stashes base remote = Ok h ->
  (hasPending stashes = true /\ h = base) \/ (hasPending stashes = false /\ h = remote).
Proof.
  intros Ha. unfold advance_base. destruct (hasPending stashes); cbn; intros H; simplify_result; [by left|].
  rewrite monotonicHead_after in H by done. simplify_result. by right.
Qed.

(** Steps that move the heads and keep or drop stashes. *)
Lemma ws_step_heads ws stashes head remote base text now ws0 :
  ws_inv ws -> ws_Base ws0 = ws_Base ws ->
  monotonicHead (ws_Remote ws) head = Ok remote -> ws_Stashes ws0 = stashes ->
  advance_base text stashes (ws_Base ws) remote = Ok base ->
  NoDup (st_ID <$> stashes) ->
  (forall st', st' ∈ stashes -> exists st, st ∈ ws_Stashes ws /\ stash_evolves st st') ->
  ws_step ws (set_heads ws0 base remote now).
Proof.
  intros [Ht Hnd] Eb Hm Es Ha Hnd' Hst. destruct (monotonicHead_spec _ _ _ Hm) as (H1 & H2 & _).
  assert (head_after (ws_Base ws) remote) as Hbr by by transitivity (ws_Remote ws).
  destruct (advance_base_spec _ _ _ _ _ Hbr Ha) as [[Hp ->]|[Hp ->]]; split; unfold ids;
    cbn [ws_Stashes ws_Base ws_Remote set_heads]; rewrite ?Es; try done; try congruence.
  all: intros st' Hin; left; by apply Hst.
Qed.

Lemma settle_scan_spec now id value l :
  NoDup (st_ID <$> l) ->
  NoDup (st_ID <$> settle_scan now id value l) /\
  (forall st', st' ∈ settle_scan now id value l -> exists st, st ∈ l /\ stash_evolves st st') /\
  (forall st, st ∈ l -> st_ID st <> id -> st ∈ settle_scan now id value l) /\
  (res_Status value <> status_branched -> id ∉ st_ID <$> settle_scan now id value l).
Proof.
  induction l as [|st l IH]; cbn [fmap list_fmap settle_scan]; intros Hnd.
  { split_and!; set_solver. }
  apply NoDup_cons in Hnd as [Hn Hnd]. destruct (IH Hnd) as (I1 & I2 & I3 & I4). case_bool_decide as Eid; cbn [negb].
  - case_bool_decide as Es.
    + cbn [fmap list_fmap]. split_and!.
      * by constructor.
      * intros st' [->|Hin]%elem_of_cons; [exists st; split; [left|by split_and!]|].
        exists st'. split; [by right|done].
      * intros st0 [->|Hin]%elem_of_cons Hne; [done|by right].
      * done.
    + split_and!; [done| | |by rewrite <- Eid].
      * intros st' Hin. exists st'. split; [by right|done].
      * intros st0 [->|Hin]%elem_of_cons Hne; [done|done].
  - cbn [fmap list_fmap]. split_and!.
    + constructor; [|done]. intros (st' & E & Hin)%list_elem_of_fmap.
      destruct (I2 _ Hin) as (st0 & Hin0 & (E0 & _)). apply Hn. rewrite E, E0. by apply list_elem_of_fmap_2.
    + intros st' [->|Hin]%elem_of_cons; [exists st; split; [left|done]|].
      destruct (I2 _ Hin) as (st0 & ? & ?). exists st0. split; [by right|done].
    + intros st0 [->|Hin]%elem_of_cons Hne; [by left|right; by apply I3].
    + intros Hs. specialize (I4 Hs). set_solver.
Qed.

Lemma resolve_scan_spec id c l l' :
  resolve_scan id c l = Ok l' -> NoDup (st_ID <$> l) ->
  NoDup (st_ID <$> l') /\ (forall st, st ∈ l' -> st ∈ l) /\ id ∉ st_ID <$> l' /\
  (forall st, st ∈ l -> st_ID st <> id -> st ∈ l').
Proof.
  revert l'. induction l as [|st l IH]; intros l' H Hnd; cbn in H; [done|].
  cbn [fmap list_fmap] in Hnd. apply NoDup_cons in Hnd as [Hn Hnd]. case_bool_decide as Eid; cbn in H; simplify_result.
  - split_and!; [done|set_solver|done|]. intros st0 [->|Hin]%elem_of_cons Hne; done.
  - destruct (IH _ Hr Hnd) as (I1 & I2 & I3 & I4). cbn [fmap list_fmap]. split_and!.
    + constructor; [|done]. intros (st' & E & Hin%I2)%list_elem_of_fmap. apply Hn. rewrite E.
      by apply list_elem_of_fmap_2.
    + set_solver.
    + set_solver.
    + intros st0 [->|Hin]%elem_of_cons Hne; [by left|right; by apply I4].
Qed.

Lemma freeze_stash_spec now cs m st st' :
  freeze_stash now cs m st = Ok st' ->
  stash_evolves st st' /\ st_RequestFrozen st' = true /\ st_Status st' = st_Status st.
Proof.
  unfold freeze_stash. destruct (st_RequestFrozen st) eqn:E; intros H; simplify_result;
    unfold stash_evolves; cbn; split_and!; try done; intros Hf; split_and!; congruence.
Qed.

Lemma freeze_scan_spec now c cs m l st l' :
  freeze_scan now c cs m l = Ok (st, l') -> NoDup (st_ID <$> l) ->
  st_ID <$> l' = st_ID <$> l /\ st ∈ l' /\ st_RequestFrozen st = true /\
  st_CandidateRoot st = c /\ is_pending st = true /\
  (forall st', st' ∈ l' -> exists st0, st0 ∈ l /\ stash_evolves st0 st' /\ st_Status st' = st_Status st0).
Proof.
  revert l' st. induction l as [|x l IH]; intros l' st H Hnd; cbn in H; [done|].
  cbn [fmap list_fmap] in Hnd. apply NoDup_cons in Hnd as [Hn Hnd].
  destruct (negb (is_pending x) || _) eqn:E; simplify_result.
  - destruct (IH _ _ Hr Hnd) as (I1 & I2 & I3 & I4 & I5 & I6). cbn [fmap list_fmap].
    split_and!; [by rewrite I1|by right|done|done|done|].
    intros st' [->|Hin]%elem_of_cons; [exists x; split; [left|done]|].
    destruct (I6 _ Hin) as (st0 & ? & ?). exists st0. split; [by right|done].
  - simplify_guards. destruct (freeze_stash_spec _ _ _ _ _ Hr) as (He & Hf & Hs).
    pose proof He as (E1 & _ & E3 & _). cbn [fmap list_fmap].
    split_and!; [by rewrite E1|by left|done|congruence| |].
    + unfold is_pending in *. by rewrite Hs.
    + intros st' [->|Hin]%elem_of_cons; [exists x; split; [left|done]|].
      exists st'. split; [by right|done].
Qed.

(** Freezing one stash loses none. *)
Lemma freeze_scan_keeps now c cs m l st l' :
  freeze_scan now c cs m l = Ok (st, l') ->
  forall st0, st0 ∈ l -> exists st', st' ∈ l' /\ stash_evolves st0 st' /\ st_Status st' = st_Status st0.
Proof.
  revert l' st. induction l as [|x l IH]; intros l' st H; cbn in H; [done|].
  destruct (negb (is_pending x) || _) eqn:E; simplify_result; intros st0 [->|Hin]%elem_of_cons.
  - exists x. split; [left|done].
  - destruct (IH _ _ Hr _ Hin) as (st' & ? & ?). exists st'. split; [by right|done].
  - destruct (freeze_stash_spec _ _ _ _ _ Hr) as (He & _ & Hs). eexists. split; [left|done].
  - exists st0. split; [by right|done].
Qed.

Lemma restore_scan_None l st : restore_scan l st = Ok None -> st_ID st ∉ st_ID <$> l.
Proof.
  induction l as [|x l IH]; cbn [restore_scan fmap list_fmap]; [set_solver|].
  case_bool_decide as E; intros H; simplify_result. apply IH in H. set_solver.
Qed.

(** Appending a stash with a new identity. *)
Lemma ws_step_append ws st now :
  ws_inv ws -> st_ID st ∉ ids ws ->
  ws_step ws (set_UpdatedAt (set_Stashes ws (ws_Stashes ws ++ [st])) now).
Proof.
  intros Hinv Hn. apply ws_step_stashes; try done.
  - unfold ids. cbn [ws_Stashes set_UpdatedAt set_Stashes]. rewrite fmap_app. apply NoDup_app.
    split_and!; [apply Hinv| |apply NoDup_singleton]. intros x Hx ->%list_elem_of_singleton. done.
  - cbn [ws_Stashes set_UpdatedAt set_Stashes]. intros st' [Hin| ->%list_elem_of_singleton]%elem_of_app; [|by right].
    left. by exists st'.
Qed.

Section Steps.
Context {L : CidLib} {LL : CidLaws L}.

(** ** The loader *)
Lemma decode_spec s s' : decode s = Ok s' <-> s' = s /\ wf s.
Proof.
  unfold decode, wf. split.
  - intros H. simplify_result. simplify_guards. split; [done|]. split; [done|].
    destruct r0. apply (foldM_check check_workspace) in Hr0. rewrite Forall_forall in Hr0.
    intros id ws Hl. by apply Hr0, elem_of_map_to_list.
  - intros [-> [Hv Hw]]. rewrite Hv. cbn [bool_decide negb fail_if mbind result_bind].
    rewrite bool_decide_eq_true_2 by done. cbn [negb fail_if mbind result_bind].
    rewrite (proj2 (foldM_check check_workspace (map_to_list (Workspaces s)))); [done|].
    apply Forall_forall. intros [id ws] Hin%elem_of_map_to_list. by apply Hw.
Qed.

Lemma bucket_wf_empty : wf emptyState.
Proof. split; [done|]. intros id ws H. cbn [emptyState Workspaces] in H. by rewrite lookup_empty in H. Qed.

#[export] Instance bucket_laws : DurableLaws persistedState.
Proof.
  split; [exact bucket_wf_empty| |].
  - intros s s' H. apply decode_spec in H as [-> H]. exact H.
  - intros s H. apply decode_spec. by split.
Qed.

(** ** Workspaces of a state *)
Definition svc_ok (svc : Service) : Prop := NormalizeSelector (svc_branch svc) = Ok (svc_branch svc).

(** The part of a workspace that the loader checks apart from its key. *)
Definition ws_ok (ws : Workspace) : Prop :=
  validateHead (ws_Base ws) = Ok () /\ validateHead (ws_Remote ws) = Ok () /\
  Forall (fun st => check_stash st = Ok ()) (ws_Stashes ws).

Lemma check_workspace_ok id ws :
  check_workspace (id, ws) = Ok () <->
  (exists branch, NormalizeSelector (ws_Branch ws) = Ok branch /\ workspaceKey (ws_BucketID ws) branch = id) /\
  ws_ok ws.
Proof.
  unfold check_workspace, ws_ok. rewrite <- (foldM_check check_stash). split.
  - intros H. simplify_result. destruct (NormalizeSelector (ws_Branch ws)); [|done]. simplify_result. simplify_guards.
    repeat match goal with u : unit |- _ => destruct u end. split; [eauto|done].
  - intros [(branch & -> & <-) (-> & -> & ->)]. by rewrite bool_decide_eq_true_2.
Qed.

Lemma validateHead_zero : validateHead zeroHead = Ok ().
Proof. reflexivity. Qed.

Lemma workspace_ok svc s : wf s -> ws_ok (workspace svc s).
Proof.
  intros [_ Hw]. unfold workspace, ws_ok. destruct (Workspaces s !! stateKey svc) as [ws|] eqn:E; cbn.
  - apply Hw, check_workspace_ok in E as [_ H]. exact H.
  - split_and!; [apply validateHead_zero..|constructor].
Qed.

Lemma workspace_store svc ws s :
  ws_BucketID ws = svc_bucketID svc -> ws_Branch ws = svc_branch svc -> workspace svc (store svc ws s) = ws.
Proof.
  intros E1 E2. unfold workspace, store. cbn [Workspaces]. rewrite lookup_insert_eq. cbn [default].
  destruct ws; cbn in *. by subst.
Qed.

Lemma workspace_store_ne svc svc' ws s : svc <> svc' -> workspace svc' (store svc ws s) = workspace svc' s.
Proof.
  intros Hne. unfold workspace, store. cbn [Workspaces].
  rewrite lookup_insert_ne; [done|]. intros E%stateKey_inj. done.
Qed.

Lemma store_wf svc ws s :
  wf s -> svc_ok svc -> ws_BucketID ws = svc_bucketID svc -> ws_Branch ws = svc_branch svc -> ws_ok ws ->
  wf (store svc ws s).
Proof.
  intros [Hv Hw] Hsvc E1 E2 Hok. split; [done|]. cbn [store Workspaces]. intros id ws'.
  rewrite lookup_insert. case_decide; [|apply Hw]. intros [= <-]. subst. apply check_workspace_ok.
  split; [|done]. exists (svc_branch svc). by rewrite E1, E2.
Qed.

(** One step of the whole state. *)
Definition state_inv (s : persistedState) : Prop := wf s /\ forall svc, ws_inv (workspace svc s).
Definition state_step (s s' : persistedState) : Prop :=
  wf s' /\ forall svc, ws_step (workspace svc s) (workspace svc s').

Lemma state_step_refl s : state_inv s -> state_step s s.
Proof. intros [Hwf Hi]. split; [done|]. intros svc. apply ws_step_refl, Hi. Qed.

Lemma state_step_inv s s' : state_step s s' -> state_inv s'.
Proof. intros [Hwf Hs]. split; [done|]. intros svc. by eapply ws_step_inv. Qed.

Lemma state_step_store svc ws' s :
  state_inv s -> svc_ok svc -> ws_BucketID ws' = svc_bucketID svc -> ws_Branch ws' = svc_branch svc ->
  ws_ok ws' -> ws_step (workspace svc s) ws' -> state_step s (store svc ws' s).
Proof.
  intros [Hwf Hi] Hsvc E1 E2 Hok Hst. split; [by apply store_wf|]. intros svc'.
  destruct (decide (stateKey svc = stateKey svc')) as [E%stateKey_inj|Hne].
  - subst svc'. by rewrite workspace_store.
  - rewrite workspace_store_ne by congruence. apply ws_step_refl, Hi.
Qed.

Lemma empty_inv : state_inv emptyState.
Proof.
  split; [exact bucket_wf_empty|]. intros svc. unfold workspace, emptyState. cbn [Workspaces].
  rewrite lookup_empty. split; cbn; [done|constructor].
Qed.

(** ** The sections *)
Lemma headFromRef_ok v h : headFromRef v = Ok h -> validateHead h = Ok ().
Proof. unfold headFromRef. intros H. simplify_result. by destruct r. Qed.

Lemma monotonicHead_valid cur inc h :
  validateHead cur = Ok () -> validateHead inc = Ok () -> monotonicHead cur inc = Ok h -> validateHead h = Ok ().
Proof. intros H1 H2 (_ & _ & [->| ->])%monotonicHead_spec; done. Qed.

Lemma advance_base_valid t l base remote h :
  validateHead base = Ok () -> validateHead remote = Ok () -> advance_base t l base remote = Ok h ->
  validateHead h = Ok ().
Proof.
  unfold advance_base. intros H1 H2 H. destruct (hasPending l); cbn in H; simplify_result; [done|].
  exact (monotonicHead_valid _ _ _ H1 H2 H).
Qed.

Lemma pullLocked_step now svc remote s ws s' :
  state_inv s -> svc_ok svc -> validateHead remote = Ok () ->
  pullLocked now svc remote s = Ok (ws, s') -> state_step s s' /\ workspace svc s' = ws.
Proof.
  intros Hinv Hsvc Hr H. unfold pullLocked in H. simplify_result.
  destruct (workspace_ok svc s (proj1 Hinv)) as (Hb & Hrm & Hst). split; [|by apply workspace_store].
  apply state_step_store; try done.
  - split_and!; cbn; eauto using monotonicHead_valid, advance_base_valid.
  - eapply (ws_step_heads _ (ws_Stashes (workspace svc s))); try done; [apply Hinv|apply Hinv|].
    intros st Hin. by exists st.
Qed.

Lemma is_ok_parse c : is_ok (parse_cid (cid_String c)) = true.
Proof. unfold parse_cid. by rewrite cid_parse_string. Qed.

Lemma stageLocked_step now svc random c base cs m s st s' :
  state_inv s -> svc_ok svc -> validateHead base = Ok () ->
  (forall id, random = Some id -> id <> EmptyString /\ id ∉ ids (workspace svc s)) ->
  stageLocked now svc random (cid_String c) base cs m s = Ok (st, s') -> state_step s s'.
Proof.
  intros Hinv Hsvc Hb Hfresh H. unfold stageLocked in H. simplify_result.
  destruct (List.find _ _); simplify_result; [by apply state_step_refl|].
  unfold randomID in *. simplify_result. destruct (Hfresh _ eq_refl) as [Hne Hnin].
  destruct (workspace_ok svc s (proj1 Hinv)) as (Hwb & Hwr & Hst).
  apply state_step_store; try done.
  - split_and!; [done|done|]. cbn [ws_Stashes set_UpdatedAt set_Stashes]. apply Forall_app. split; [done|].
    apply Forall_singleton. unfold check_stash, is_empty. cbn [st_ID st_PushID st_Status st_CandidateRoot st_Base is_pending is_branched].
    rewrite bool_decide_eq_false_2 by done. rewrite is_ok_parse. cbn. by rewrite Hb.
  - apply (ws_step_append (workspace svc s)); [apply Hinv|done].
Qed.

Lemma restoreLocked_step now svc st0 s st s' :
  state_inv s -> svc_ok svc -> check_stash st0 = Ok () ->
  restoreLocked now svc st0 s = Ok (st, s') -> state_step s s'.
Proof.
  intros Hinv Hsvc Hc H. unfold restoreLocked in H. simplify_result.
  destruct (r0 : option Stash); simplify_result; [by apply state_step_refl|].
  destruct (workspace_ok svc s (proj1 Hinv)) as (Hwb & Hwr & Hst).
  apply state_step_store; try done.
  - split_and!; [done|done|]. cbn [ws_Stashes set_UpdatedAt set_Stashes]. apply Forall_app. split; [done|].
    by apply Forall_singleton.
  - apply (ws_step_append (workspace svc s)); [apply Hinv|]. apply (restore_scan_None _ _ Hr0).
Qed.

Lemma evolves_check st st' :
  check_stash st = Ok () -> stash_evolves st st' ->
  is_pending st' = true \/ is_branched st' = true -> check_stash st' = Ok ().
Proof.
  unfold check_stash. intros H (E1 & E2 & E3 & E4 & _) Hs. rewrite E1, E2, E3, E4.
  simplify_result. rewrite Hr0. apply orb_false_iff in Hr as [-> _].
  destruct Hs as [-> | ->]; rewrite ?andb_false_r; cbn; by rewrite H.
Qed.

Lemma check_stash_status st : check_stash st = Ok () -> is_pending st = true \/ is_branched st = true.
Proof.
  unfold check_stash. intros H. simplify_result. apply orb_false_iff in Hr as [_ Hr].
  destruct (is_pending st), (is_branched st); auto.
Qed.

Lemma freezeLocked_step now now2 svc c cs m s st s' :
  state_inv s -> svc_ok svc -> freezeLocked now now2 svc c cs m s = Ok (st, s') ->
  state_step s s' /\ st ∈ ws_Stashes (workspace svc s') /\ st_RequestFrozen st = true /\
  st_CandidateRoot st = c /\ is_pending st = true.
Proof.
  intros Hinv Hsvc H. unfold freezeLocked in H. simplify_result.
  match goal with H : freeze_scan _ _ _ _ _ = Ok (?a, ?b) |- _ =>
    pose proof (freeze_scan_spec _ _ _ _ _ _ _ H (proj2 (proj2 Hinv svc))) as (E & Hin & Hf & Hc & Hp & Hev) end.
  destruct (workspace_ok svc s (proj1 Hinv)) as (Hwb & Hwr & Hst). rewrite workspace_store by done.
  split_and!; try done. apply state_step_store; try done.
  - split_and!; [done|done|]. cbn [ws_Stashes set_UpdatedAt set_Stashes]. apply Forall_forall.
    intros st' Hin'. destruct (Hev _ Hin') as (st0 & Hin0 & He & Hs). rewrite Forall_forall in Hst.
    specialize (Hst _ Hin0). eapply evolves_check; [done|done|].
    apply check_stash_status in Hst. unfold is_pending, is_branched in *. by rewrite Hs.
  - apply ws_step_stashes; try done; [apply Hinv| |].
    + unfold ids. cbn [ws_Stashes set_UpdatedAt set_Stashes]. rewrite E. apply Hinv.
    + intros st' Hin'. left. destruct (Hev _ Hin') as (st0 & ? & ? & _). by exists st0.
Qed.

Lemma settle_scan_checked now id value l :
  Forall (fun st => check_stash st = Ok ()) l ->
  Forall (fun st => check_stash st = Ok ()) (settle_scan now id value l).
Proof.
  induction 1 as [|st l Hst Hl IH]; cbn [settle_scan]; [constructor|].
  case_bool_decide; cbn [negb]; [|by constructor]. case_bool_decide; [|done]. constructor; [|done].
  eapply evolves_check; [exact Hst|by split_and!|by right].
Qed.

Lemma settleLocked_step now now2 svc id value s ws s' :
  state_inv s -> svc_ok svc -> settleLocked now now2 svc id value s = Ok (ws, s') ->
  state_step s s' /\ workspace svc s' = ws /\
  ws_Stashes ws = settle_scan now id value (ws_Stashes (workspace svc s)) /\
  (oh_Revision (res_Head value) <= hd_Revision (ws_Remote ws))%N.
Proof.
  intros Hinv Hsvc H. unfold settleLocked in H. simplify_result. rewrite workspace_store by done.
  destruct (workspace_ok svc s (proj1 Hinv)) as (Hwb & Hwr & Hst).
  destruct (settle_scan_spec now id value _ (proj2 (proj2 Hinv svc))) as (H1 & H2 & _).
  assert (validateHead r = Ok ()) as Hv by by eapply headFromRef_ok.
  assert (hd_Revision r = oh_Revision (res_Head value)) as Erev.
  { unfold headFromRef in Hr. by simplify_result. }
  cbn [ws_Stashes ws_Remote ws_Base set_Stashes set_heads] in *. split_and!; try done.
  - apply state_step_store; try done.
    + split_and!; cbn [ws_Stashes ws_Remote ws_Base set_heads set_Stashes].
      * eapply (advance_base_valid _ _ _ _ _ Hwb); [|exact Hr1]. exact (monotonicHead_valid _ _ _ Hwr Hv Hr0).
      * exact (monotonicHead_valid _ _ _ Hwr Hv Hr0).
      * by apply settle_scan_checked.
    + eapply ws_step_heads; try done. apply Hinv.
  - apply monotonicHead_spec in Hr0 as (_ & [Hle _] & _). lia.
Qed.

Lemma resolveLocked_step now svc id c s ws s' :
  state_inv s -> svc_ok svc -> resolveLocked now svc id c s = Ok (ws, s') -> state_step s s'.
Proof.
  intros Hinv Hsvc H. unfold resolveLocked in H. simplify_result.
  destruct (workspace_ok svc s (proj1 Hinv)) as (Hwb & Hwr & Hst).
  destruct (resolve_scan_spec _ _ _ _ Hr (proj2 (proj2 Hinv svc))) as (H1 & H2 & _).
  apply state_step_store; try done.
  - split_and!; cbn [ws_Stashes ws_Remote ws_Base set_heads set_Stashes]; [|done|].
    + by eapply (advance_base_valid _ _ _ _ _ Hwb).
    + rewrite Forall_forall in *. intros st Hin. by apply Hst, H2.
  - eapply (ws_step_heads _ _ (ws_Remote (workspace svc s))); try done; [apply Hinv| |].
    + by apply monotonicHead_after.
    + intros st Hin. exists st. split; [by apply H2|done].
Qed.
End Steps.
