(* ===== verification/BucketSyncThms.v ===== *)
(** What bucket synchronisation guarantees over any interleaving of the
    critical sections of any services on one file. *)

From stdpp Require Import base decidable gmap strings list sets.
From S2P Require Import Prelude GoText CidLib Durable Branch NodeApi BucketSync BucketSyncFacts.

(** ** Histories of critical sections *)
Section Histories.
Context {L : CidLib} {LL : CidLaws L}.

Inductive call :=
  | CallPull (observed : result (option ObservedHead))
  | CallStage (random : option string) (candidate : option Cid) (base : Head) (changeSet : option Cid)
      (message : string)
  | CallRestore (stash : Stash)
  | CallFreeze (candidate : string) (changeSet : option Cid) (message : string)
  | CallSettle (id : string) (value : ApplyResult)
  | CallResolve (id candidate : string).

Record event := Event { ev_svc : Service; ev_env : section_env; ev_call : call }.

Definition apply (f : bucket_file) (e : event) : bucket_file :=
  let svc := ev_svc e in let w := se_io (ev_env e) in let now := se_now (ev_env e) in
  match ev_call e with
  | CallPull observed => (Pull w now svc observed f).2
  | CallStage random candidate base changeSet message =>
      (Stage w now svc random candidate base changeSet message f).2
  | CallRestore stash => (RestorePending w now svc stash f).2
  | CallFreeze candidate changeSet message => (push_freeze (ev_env e) svc candidate changeSet message f).2
  | CallSettle id value => (push_settle (ev_env e) svc id value f).2
  | CallResolve id candidate => (ResolveBranched w now svc id candidate f).2
  end.

(** The service was opened for a normalised branch, and a random identity is
    not empty and not the identity of a stash that is already there. *)
Definition event_ok (s : persistedState) (e : event) : Prop :=
  svc_ok (ev_svc e) /\
  match ev_call e with
  | CallStage (Some id) _ _ _ _ => id <> EmptyString /\ id ∉ ids (workspace (ev_svc e) s)
  | _ => True
  end.

Definition seen (f : bucket_file) : persistedState := default emptyState (view f).

Fixpoint history_ok (f : bucket_file) (h : list event) : Prop :=
  match h with
  | [] => True
  | e :: h' => event_ok (seen f) e /\ history_ok (apply f e) h'
  end.

Lemma history_ok_app f h1 h2 :
  history_ok f (h1 ++ h2) -> history_ok f h1 /\ history_ok (foldl apply f h1) h2.
Proof.
  revert f. induction h1 as [|e h1 IH]; intros f; cbn; [done|]. intros [He H]. apply IH in H. naive_solver.
Qed.

Definition stepped (s : persistedState) (f : bucket_file) : Prop :=
  exists s', view f = Some s' /\ state_step s s'.

Lemma bucket_stepped_same s (f : bucket_file) : view f = Some s -> state_inv s -> stepped s f.
Proof. intros Hv Hi. exists s. split; [done|]. by apply state_step_refl. Qed.

Lemma bucket_withState_stepped {A} w (op : persistedState -> result (A * persistedState)) (f : bucket_file) s :
  view f = Some s -> state_inv s -> (forall a s', op s = Ok (a, s') -> state_step s s') ->
  stepped s (withState w true op f).2.
Proof.
  intros Hv Hi Hop. destruct (withState w true op f) as [r f'] eqn:E.
  apply with_state_cases in E as [[-> _]|(s0 & a & s' & Hv0 & Ho & -> & _)]; [by apply bucket_stepped_same| |done].
  assert (s0 = s) as -> by congruence. pose proof (Hop _ _ Ho) as Hst. exists s'. split; [|done].
  apply view_Decodes. apply Hst.
Qed.

Lemma bucket_method_stepped {A B} (args : result A) f (body : A -> result B * bucket_file) s :
  view f = Some s -> state_inv s -> (forall a, args = Ok a -> stepped s (body a).2) ->
  stepped s (method args f body).2.
Proof. intros Hv Hi H. destruct args as [a|e]; cbn; [by apply H|by apply bucket_stepped_same]. Qed.

Lemma bucket_apply_stepped f e s :
  view f = Some s -> state_inv s -> event_ok s e -> stepped s (apply f e).
Proof.
  intros Hv Hi [Hsvc Hev]. destruct e as [svc [w now now2] c]; unfold apply; cbn [ev_svc ev_env ev_call se_io se_now] in *.
  destruct c as [obs|rnd c b cs m|st|c cs m|id v|id c].
  - apply bucket_method_stepped; [done|done|]. intros h Hh. simplify_result. apply bucket_withState_stepped; [done|done|].
    intros ws s' H. eapply pullLocked_step; eauto using headFromRef_ok.
  - apply bucket_method_stepped; [done|done|]. intros c' Hc. simplify_result. apply bucket_withState_stepped; [done|done|].
    intros st s' H. destruct r0. eapply stageLocked_step; eauto. intros id ->. exact Hev.
  - apply bucket_method_stepped; [done|done|]. intros st' Hst. simplify_result. cbv zeta in Hst. simplify_result.
    apply bucket_withState_stepped; [done|done|]. intros st'' s' H. eapply restoreLocked_step; eauto.
    change (check_stash st = Ok ()). simplify_guards. destruct r1. unfold check_stash.
    repeat match goal with H : _ = _ :> bool |- _ => rewrite H; clear H end. cbn.
    match goal with H : validateHead _ = _ |- _ => by rewrite H end.
  - apply bucket_withState_stepped; [done|done|]. intros st s' H. by eapply freezeLocked_step.
  - apply bucket_withState_stepped; [done|done|]. intros ws s' H. by eapply settleLocked_step.
  - apply bucket_method_stepped; [done|done|]. intros u Hu. apply bucket_withState_stepped; [done|done|].
    intros ws s' H. by eapply resolveLocked_step.
Qed.

Lemma bucket_seen_view (f : bucket_file) s : view f = Some s -> seen f = s.
Proof. intros H. unfold seen. by rewrite H. Qed.

(** Any history of sections takes the state through steps; [R] is a relation
    that every step has and that composes. *)
Lemma bucket_history_run (R : persistedState -> persistedState -> Prop) h f s :
  (forall s, R s s) -> (forall s1 s2 s3, state_step s1 s2 -> R s2 s3 -> R s1 s3) ->
  view f = Some s -> state_inv s -> history_ok f h ->
  exists s', view (foldl apply f h) = Some s' /\ state_inv s' /\ R s s'.
Proof.
  intros Hrefl Hstep. revert f s. induction h as [|e h IH]; intros f s Hv Hi Hok; cbn [foldl]; [by exists s|].
  destruct Hok as [He Hok]. rewrite (bucket_seen_view _ _ Hv) in He.
  destruct (bucket_apply_stepped f e s Hv Hi He) as (s1 & Hv1 & Hs1).
  destruct (IH _ _ Hv1 (state_step_inv _ _ Hs1) Hok) as (s' & Hv' & Hi' & HR). eauto.
Qed.

(** The same with a condition on the states after each call. *)
Lemma history_run_while (P : persistedState -> Prop) (R : persistedState -> persistedState -> Prop) h f s :
  (forall s, R s s) -> (forall s1 s2 s3, P s2 -> state_step s1 s2 -> R s2 s3 -> R s1 s3) ->
  view f = Some s -> state_inv s -> history_ok f h ->
  (forall h1 h2, h = h1 ++ h2 -> h1 <> [] -> P (seen (foldl apply f h1))) ->
  exists s', view (foldl apply f h) = Some s' /\ R s s'.
Proof.
  intros Hrefl Hstep. revert f s. induction h as [|e h IH]; intros f s Hv Hi Hok HP; cbn [foldl]; [by exists s|].
  destruct Hok as [He Hok]. rewrite (bucket_seen_view _ _ Hv) in He.
  destruct (bucket_apply_stepped f e s Hv Hi He) as (s1 & Hv1 & Hs1).
  assert (P s1) as HP1. { rewrite <- (bucket_seen_view _ _ Hv1). exact (HP [e] h eq_refl ltac:(done)). }
  destruct (IH _ _ Hv1 (state_step_inv _ _ Hs1) Hok) as (s' & Hv' & HR).
  { intros h1 h2 -> Hne. exact (HP (e :: h1) h2 eq_refl ltac:(done)). }
  eauto.
Qed.
End Histories.

(** ** The guarantees *)
Section Guarantees.
Context {L : CidLib} {LL : CidLaws L}.

(** The workspace file never locks itself out: after any interleaving of
    sections, with any system call failing, it loads. *)
Theorem bucket_always_loads h :
  history_ok None h -> loads (foldl apply (None : bucket_file) h).
Proof.
  intros Hok. destruct (bucket_history_run (fun _ _ => True) h None emptyState) as (s & Hv & _);
    [done|done|done|apply empty_inv|done|]. by eapply view_loads.
Qed.

(** Heads only move forward.  Over any interleaving, the observed remote
    head and the base of every workspace are the same head or one with a larger
    revision, and the base never overtakes the remote. *)
Theorem bucket_heads_monotone h1 h2 svc s1 s2 :
  history_ok None (h1 ++ h2) ->
  view (foldl apply (None : bucket_file) h1) = Some s1 ->
  view (foldl apply (None : bucket_file) (h1 ++ h2)) = Some s2 ->
  head_after (ws_Remote (workspace svc s1)) (ws_Remote (workspace svc s2)) /\
  head_after (ws_Base (workspace svc s1)) (ws_Base (workspace svc s2)) /\
  head_after (ws_Base (workspace svc s2)) (ws_Remote (workspace svc s2)).
Proof.
  intros Hok Hv1 Hv2. apply history_ok_app in Hok as [Hok1 Hok2]. rewrite foldl_app in Hv2.
  destruct (bucket_history_run (fun _ _ => True) h1 None emptyState) as (s & Hv & Hi & _);
    [done|done|done|apply empty_inv|done|]. assert (s = s1) as -> by congruence.
  destruct (bucket_history_run (fun s s' => head_after (ws_Remote (workspace svc s)) (ws_Remote (workspace svc s')) /\
    head_after (ws_Base (workspace svc s)) (ws_Base (workspace svc s'))) h2 (foldl apply None h1) s1) as (s' & Hv' & Hi' & HR);
    [done| |exact Hv1|done|done|].
  - intros x y z [_ Hxy] [H1 H2]. destruct (Hxy svc) as [R1 R2 _ _ _ _]. split; etrans; eauto.
  - assert (s' = s2) as -> by congruence. destruct HR. split_and!; try done. apply Hi'.
Qed.

(** Pending work pins the base.  As long as a workspace has a pending or
    branched stash after every section of a history, its base does not move,
    whatever heads are observed. *)
Theorem pending_work_pins_base h (f : bucket_file) svc s s' :
  view f = Some s -> state_inv s -> history_ok f h ->
  (forall h1 h2, h = h1 ++ h2 -> h1 <> [] ->
     hasPending (ws_Stashes (workspace svc (seen (foldl apply f h1)))) = true) ->
  view (foldl apply f h) = Some s' ->
  ws_Base (workspace svc s') = ws_Base (workspace svc s).
Proof.
  intros Hv Hi Hok Hp Hv'.
  destruct (history_run_while (fun s => hasPending (ws_Stashes (workspace svc s)) = true)
    (fun s s' => ws_Base (workspace svc s') = ws_Base (workspace svc s)) h f s) as (s1 & Hv1 & HR);
    try done; [|by assert (s1 = s') as -> by congruence].
  intros x y z Hpy [_ Hxy] E. rewrite E. by apply (Hxy svc).
Qed.

(** A frozen push request never changes.  While a stash stays in its
    workspace, every retry submits the request that was frozen first: same push
    identity, base, candidate, change set and message. *)
Theorem frozen_request_never_changes h (f : bucket_file) svc s s' st st' :
  view f = Some s -> state_inv s -> history_ok f h ->
  st ∈ ws_Stashes (workspace svc s) -> st_RequestFrozen st = true ->
  (forall h1 h2, h = h1 ++ h2 -> h1 <> [] -> st_ID st ∈ ids (workspace svc (seen (foldl apply f h1)))) ->
  view (foldl apply f h) = Some s' -> st' ∈ ws_Stashes (workspace svc s') -> st_ID st' = st_ID st ->
  st_RequestFrozen st' = true /\ push_request svc st' = push_request svc st.
Proof.
  intros Hv Hi Hok Hst Hf Hp Hv' Hst' Eid.
  destruct (history_run_while (fun s => st_ID st ∈ ids (workspace svc s))
    (fun s s' => forall a b, a ∈ ws_Stashes (workspace svc s) -> b ∈ ws_Stashes (workspace svc s') ->
       st_ID a = st_ID st -> st_ID b = st_ID st -> NoDup (ids (workspace svc s)) -> stash_evolves a b) h f s)
    as (s1 & Hv1 & HR); try done.
  - intros x a b Ha Hb Ea Eb Hnd. assert (a = b) as ->; [|done].
    apply (NoDup_key_inj st_ID (ws_Stashes (workspace svc x))); [exact Hnd|done|done|congruence].
  - intros x y z (b0 & Eb0 & Hb0)%list_elem_of_fmap [_ Hxy] IH a c Ha Hc Ea Ec Hnd.
    destruct (Hxy svc) as [_ _ _ _ Hev Hnd'].
    destruct (Hev _ Hb0) as [(a0 & Ha0 & He)|Hn].
    + assert (a0 = a) as ->.
      { pose proof (proj1 He). apply (NoDup_key_inj st_ID (ws_Stashes (workspace svc x))); [exact Hnd|done|done|congruence]. }
      transitivity b0; [done|]. by apply IH.
    + destruct Hn. rewrite <- Eb0, <- Ea. by apply list_elem_of_fmap_2.
  - assert (s1 = s') as -> by congruence.
    destruct (HR st st' Hst Hst' eq_refl Eid (proj2 (proj2 Hi svc))) as (_ & E2 & E3 & E4 & E5).
    destruct (E5 Hf) as (F1 & F2 & F3). split; [done|]. unfold push_request. by rewrite E2, E3, E4, F2, F3.
Qed.

Lemma bucket_view_wf (f : bucket_file) s : view f = Some s -> wf s.
Proof. exact (view_wf f s). Qed.

Lemma bucket_withState_ok {A} (op : persistedState -> result (A * persistedState)) (f : bucket_file) s a s' :
  view f = Some s -> op s = Ok (a, s') -> withState io_ok true op f = (Ok a, Some (Decodes s')).
Proof. intros Hv Hop. exact (with_state_ok best_effort_writer eq_refl true op f s a s' Hv Hop). Qed.

Lemma withState_done {A} w (op : persistedState -> result (A * persistedState)) (f : bucket_file) s a f' :
  view f = Some s -> withState w true op f = (Ok a, f') ->
  exists s', op s = Ok (a, s') /\ f' = Some (Decodes s').
Proof.
  intros Hv H. apply with_state_inv in H as [_ H]; [|done].
  destruct (H _ eq_refl) as (s0 & s' & Hv0 & Hop & ->). assert (s0 = s) as -> by congruence. eauto.
Qed.

(** What a pull reports.  After a successful pull the recorded remote is
    the observed head or a newer one, no stash was touched, and the base is the
    remote head unless local work is pending, in which case it is unchanged. *)
Theorem pull_advances_base w now svc head (f : bucket_file) s ws f' :
  view f = Some s -> state_inv s -> svc_ok svc ->
  Pull w now svc (Ok (Some head)) f = (Ok ws, f') ->
  (oh_Revision head <= hd_Revision (ws_Remote ws))%N /\ ws_Initialized ws = true /\
  ws_Stashes ws = ws_Stashes (workspace svc s) /\
  ws_Base ws = (if hasPending (ws_Stashes ws) then ws_Base (workspace svc s) else ws_Remote ws) /\
  exists s', view f' = Some s' /\ workspace svc s' = ws.
Proof.
  intros Hv Hi Hsvc H. unfold Pull in H. set (args := mbind _ _) in H.
  destruct args as [remote|] eqn:Ea; [|done]. unfold args in Ea.
  cbn [mbind result_bind or_err] in Ea. clear args. simplify_result. cbn [method] in H.
  destruct (withState_done _ _ _ _ _ _ Hv H) as (s' & Hop & ->).
  assert (validateHead remote = Ok ()) as Hrv by by eapply headFromRef_ok.
  assert (oh_Revision head = hd_Revision remote) as Erev by (unfold headFromRef in Ea; by simplify_result).
  pose proof Hop as Hpull. unfold pullLocked in Hpull. simplify_result.
  match goal with H : monotonicHead _ _ = Ok _, H' : advance_base _ _ _ _ = Ok _ |- _ =>
    rename H into Hm; rename H' into Ha; destruct (monotonicHead_spec _ _ _ Hm) as (Hm1 & [Hle _] & _) end.
  destruct (pullLocked_step _ _ _ _ _ _ Hi Hsvc Hrv Hop) as [[Hwf' Hst] Ews].
  cbn [ws_Remote ws_Stashes ws_Initialized ws_Base set_heads set_Initialized] in *.
  split_and!; try done.
  - by rewrite <- Erev in Hle.
  - eapply advance_base_spec in Ha; [|etrans; [apply (proj2 Hi svc)|exact Hm1]].
    by destruct Ha as [[-> ->]|[-> ->]].
  - eexists. split; [by apply view_Decodes|done].
Qed.

Lemma find_app_snoc {A} (p : A -> bool) l x :
  List.find p l = None -> p x = true -> List.find p (l ++ [x]) = Some x.
Proof. induction l as [|y l IH]; cbn; intros H Hx; [by rewrite Hx|]. destruct (p y); [done|]. by apply IH. Qed.

(** Staging is idempotent.  Repeating a successful staging of a candidate
    on the same base, with any metadata and any random source, returns the same
    stash with its original push identity and changes nothing. *)
Theorem stage_idempotent w now now' svc random random' c base cs cs' m m' (f : bucket_file) s st f1 :
  view f = Some s -> state_inv s -> svc_ok svc ->
  (forall id, random = Some id -> id <> EmptyString /\ id ∉ ids (workspace svc s)) ->
  Stage w now svc random (Some c) base cs m f = (Ok st, f1) ->
  st_CandidateRoot st = cid_String c /\ st_Base st = base /\ is_pending st = true /\
  Stage io_ok now' svc random' (Some c) base cs' m' f1 = (Ok st, f1).
Proof.
  intros Hv Hi Hsvc Hfresh H. unfold Stage in *. cbn [or_err mbind result_bind] in *.
  destruct (validateHead base) as [[]|] eqn:Hb; cbn [wrap_err mbind result_bind method] in *; [|done].
  destruct (withState_done _ _ _ _ _ _ Hv H) as (s1 & Hop & ->).
  destruct (stageLocked_step _ _ _ _ _ _ _ _ _ _ Hi Hsvc Hb Hfresh Hop) as [Hwf1 _].
  enough (st_CandidateRoot st = cid_String c /\ st_Base st = base /\ is_pending st = true /\
    ws_Initialized (workspace svc s1) = true /\
    List.find (fun x => is_pending x && bool_decide (st_CandidateRoot x = cid_String c))
      (ws_Stashes (workspace svc s1)) = Some st) as (E1 & E2 & E3 & E4 & E5).
  { split_and!; try done. eapply bucket_withState_ok; [by apply view_Decodes|].
    unfold stageLocked. rewrite E4. cbn [negb fail_if mbind result_bind]. rewrite E5.
    by rewrite bool_decide_eq_true_2. }
  unfold stageLocked in Hop. simplify_result.
  destruct (List.find _ _) as [ex|] eqn:Ef; simplify_result; simplify_guards.
  - pose proof (List.find_some _ _ Ef) as [_ Hp]. simplify_guards. done.
  - rewrite workspace_store by done. cbn [st_CandidateRoot st_Base ws_Initialized ws_Stashes set_UpdatedAt set_Stashes].
    split_and!; try done. apply find_app_snoc; [done|]. cbn. by rewrite bool_decide_eq_true_2.
Qed.

(** What a successful push means.  The remote answered the frozen request
    of a stash of the pushed candidate with a result that is bound to it; the
    stash is gone unless the result was a conflict; and the recorded remote head
    is at least the one in the result.  Other processes may use the file between
    the sections. *)
Theorem push_success e1 e2 e3 others1 others2 svc c cs m observed remote (f : bucket_file) s value ws f' :
  view f = Some s -> state_inv s -> svc_ok svc ->
  (forall g, exists s, view (others2 g) = Some s /\ state_inv s) ->
  Push e1 e2 e3 others1 others2 svc (Some c) cs m observed remote f = (Ok (value, ws), f') ->
  exists stash request,
    st_CandidateRoot stash = cid_String c /\ st_RequestFrozen stash = true /\
    push_request svc stash = Ok request /\ remote request = Ok (Some value) /\
    ValidateApplyResult (svc_bucketID svc) request value = Ok () /\
    (res_Status value <> status_branched -> st_ID stash ∉ ids ws) /\
    (oh_Revision (res_Head value) <= hd_Revision (ws_Remote ws))%N /\
    exists s', view f' = Some s' /\ workspace svc s' = ws.
Proof.
  intros Hv Hi Hsvc Ho H. unfold Push in H.
  destruct (push_freeze e1 svc (cid_String c) cs m f) as [[stash|] f1] eqn:Efr; [|done].
  destruct (withState_done _ _ _ _ _ _ Hv Efr) as (s1 & Hop1 & ->).
  destruct (freezeLocked_step _ _ _ _ _ _ _ _ _ Hi Hsvc Hop1) as (_ & _ & Hfrozen & Hcand & _).
  destruct (Pull _ _ _ _ _) as [pulled f2]. destruct (mbind _ _) as [value'|] eqn:Em; [|done]. simplify_result.
  destruct (push_settle e3 svc (st_ID stash) value' (others2 f2)) as [[ws'|] f3] eqn:Es; [|done].
  injection H as -> -> ->. destruct (Ho f2) as (s2 & Hv2 & Hi2).
  destruct (withState_done _ _ _ _ _ _ Hv2 Es) as (s3 & Hop3 & ->).
  destruct (settleLocked_step _ _ _ _ _ _ _ _ Hi2 Hsvc Hop3) as ([Hwf3 _] & Ews & Est & Hrev).
  match goal with u : unit |- _ => destruct u end.
  match goal with H : push_request _ _ = Ok ?rq |- _ => exists stash, rq end. split_and!; try done.
  - intros Hne. unfold ids. rewrite Est.
    by apply (settle_scan_spec (se_now e3) (st_ID stash) value _ (proj2 (proj2 Hi2 svc))).
  - exists s3. split; [by apply view_Decodes|done].
Qed.

(** Every stash of [s] is still in [s'], in the same status. *)
Definition keeps_work (svc : Service) (s s' : persistedState) : Prop :=
  forall st, st ∈ ws_Stashes (workspace svc s) ->
    exists st', st' ∈ ws_Stashes (workspace svc s') /\ stash_evolves st st' /\ st_Status st' = st_Status st.

Lemma freeze_keeps_work e svc c cs m (f : bucket_file) s r f1 :
  view f = Some s -> state_inv s -> svc_ok svc -> push_freeze e svc c cs m f = (r, f1) ->
  exists s1, view f1 = Some s1 /\ state_inv s1 /\ keeps_work svc s s1.
Proof.
  intros Hv Hi Hsvc H. apply with_state_cases in H as [[-> _]|(s0 & a & s1 & Hv0 & Hop & -> & _)]; [| |done].
  { exists s. split_and!; try done. intros st Hst. by exists st. }
  assert (s0 = s) as -> by congruence.
  destruct (freezeLocked_step _ _ _ _ _ _ _ _ _ Hi Hsvc Hop) as (Hst & _). exists s1.
  split_and!; [apply view_Decodes, Hst|by eapply state_step_inv|]. unfold freezeLocked in Hop. simplify_result.
  unfold keeps_work. rewrite workspace_store by done. intros st Hin.
  eapply freeze_scan_keeps in Hin; [|done]. exact Hin.
Qed.

Lemma pull_keeps_work w now svc observed (f : bucket_file) s r f1 :
  view f = Some s -> state_inv s -> svc_ok svc -> Pull w now svc observed f = (r, f1) ->
  exists s1, view f1 = Some s1 /\ keeps_work svc s s1.
Proof.
  intros Hv Hi Hsvc H. assert (keeps_work svc s s) as Hrefl by (intros st Hst; by exists st).
  unfold Pull in H. set (args := mbind _ _) in H. destruct args as [remote|] eqn:Ea; cbn [method] in H; [|simplify_eq; eauto].
  apply with_state_cases in H as [[-> _]|(s0 & a & s1 & Hv0 & Hop & -> & _)]; [eauto| |done].
  assert (s0 = s) as -> by congruence. assert (validateHead remote = Ok ()) as Hrv.
  { unfold args in Ea. simplify_result. by eapply headFromRef_ok. }
  destruct (pullLocked_step _ _ _ _ _ _ Hi Hsvc Hrv Hop) as [[Hwf _] _]. exists s1.
  split; [by apply view_Decodes|]. unfold pullLocked in Hop. simplify_result.
  unfold keeps_work. rewrite workspace_store by done. exact Hrefl.
Qed.

(** A failed push loses nothing.  When the remote does not answer, the push
    reports an error and every stash is still there with its push identity,
    base and status, whatever failed on the way. *)
Theorem failed_push_keeps_work e1 e2 e3 svc c cs m observed err (f : bucket_file) s r f' :
  view f = Some s -> state_inv s -> svc_ok svc ->
  Push e1 e2 e3 (fun g => g) (fun g => g) svc (Some c) cs m observed (fun _ => Err err) f = (r, f') ->
  is_ok r = false /\ exists s', view f' = Some s' /\ keeps_work svc s s'.
Proof.
  intros Hv Hi Hsvc H. unfold Push in H.
  destruct (push_freeze e1 svc (cid_String c) cs m f) as [frozen f1] eqn:Efr.
  destruct (freeze_keeps_work _ _ _ _ _ _ _ _ _ Hv Hi Hsvc Efr) as (s1 & Hv1 & Hi1 & Hk1).
  destruct frozen as [stash|e]; [|simplify_eq; split; [done|eauto]].
  destruct (Pull _ _ _ _ f1) as [pulled f2] eqn:Ep.
  destruct (pull_keeps_work _ _ _ _ _ _ _ _ Hv1 Hi1 Hsvc Ep) as (s2 & Hv2 & Hk2).
  destruct (mbind _ _) as [value|e] eqn:Em; simplify_result; simplify_eq.
  split; [done|]. exists s2. split; [done|]. intros st Hst.
  destruct (Hk1 st Hst) as (st1 & H1 & He1 & Hs1). destruct (Hk2 st1 H1) as (st2 & H2 & He2 & Hs2).
  exists st2. split_and!; [done|by transitivity st1|congruence].
Qed.

(** Two bucket and branch pairs never share a record of the file. *)
Theorem workspace_key_injective bucket1 branch1 bucket2 branch2 :
  workspaceKey bucket1 branch1 = workspaceKey bucket2 branch2 -> bucket1 = bucket2 /\ branch1 = branch2.
Proof. apply workspaceKey_inj. Qed.
End Guarantees.

(** ** Witnesses *)
Module Witness.
Definition svc : Service := mkService "bucket" "team".
Definition env (now : time) : section_env := SectionEnv io_ok now now.
Definition remote_head (commit root : string) (rev : N) : ObservedHead :=
  mkObservedHead "bucket" "heads/team" "explicit" "open" commit root rev EmptyString 1 1.
Definition base : Head := mkHead "c1" "bafya" 1.
Definition pulls (commit root : string) (rev : N) : call :=
  CallPull (Ok (Some (remote_head commit root rev))).
Definition start : list event :=
  [Event svc (env 1) (pulls "c1" "bafya" 1);
   Event svc (env 2) (CallStage (Some "id1") (Some 2 : option (Cid (CidLib := TallyCid.lib))) base None " note ")].
Definition retry : list event :=
  [Event svc (SectionEnv (io_fail SecureTarget) 3 3) (CallFreeze "bafyaa" None EmptyString);
   Event svc (env 4) (pulls "c5" "bafyaaaa" 5);
   Event svc (env 5) (CallFreeze "bafyaa" None EmptyString)].
Definition file1 : bucket_file := foldl apply None start.
Definition file2 : bucket_file := foldl apply None (start ++ take 1 retry).
Definition stash_of (f : bucket_file) : Stash :=
  default (mkStash EmptyString EmptyString EmptyString zeroHead EmptyString EmptyString false EmptyString
             EmptyString [] 0 0) (head (ws_Stashes (workspace svc (seen f)))).

Ltac evaluate := vm_compute; reflexivity.

(** A property of all non-empty prefixes, checked one by one. *)
Fixpoint all_prefixes {A} (P : list A -> Prop) (h : list A) : Prop :=
  match h with [] => True | a :: h' => P [a] /\ all_prefixes (fun t => P (a :: t)) h' end.

Lemma prefixes {A} (P : list A -> Prop) h :
  all_prefixes P h -> forall h1 h2, h = h1 ++ h2 -> h1 <> [] -> P h1.
Proof.
  revert P. induction h as [|a h IH]; intros P Hall [|b h1] h2 E Hne; try done.
  injection E as -> E. destruct Hall as [H1 Hall]. destruct h1 as [|c h1]; [exact H1|].
  exact (IH (fun t => P (b :: t)) Hall _ _ E ltac:(done)).
Qed.

Lemma svc_witness_ok : svc_ok svc.
Proof. evaluate. Qed.

Lemma start_ok : history_ok None (start ++ retry).
Proof.
  repeat split; try exact svc_witness_ok; [discriminate|].
  apply (bool_decide_eq_false (_ ∈ _)). evaluate.
Qed.

Lemma inv_of (h : list event) (s : persistedState) :
  history_ok None h -> view (foldl apply None h) = Some s -> state_inv s.
Proof.
  intros Hok Hv. destruct (bucket_history_run (fun _ _ => True) h None emptyState) as (s' & Hv' & Hi & _);
    [done|done|done|apply empty_inv|done|]. congruence.
Qed.

Lemma file1_inv : state_inv (seen file1).
Proof.
  apply (inv_of start); [|evaluate].
  exact (proj1 (history_ok_app None start retry start_ok)).
Qed.

Lemma file2_inv : state_inv (seen file2).
Proof.
  apply (inv_of (start ++ take 1 retry)); [|evaluate].
  exact (proj1 (history_ok_app None (start ++ take 1 retry) (drop 1 retry) start_ok)).
Qed.

Lemma bucket_always_loads_witness : loads (foldl apply None (start ++ retry)).
Proof. apply bucket_always_loads. exact start_ok. Defined.

Lemma bucket_heads_monotone_witness :
  head_after (ws_Remote (workspace svc (seen file1)))
             (ws_Remote (workspace svc (seen (foldl apply None (start ++ retry))))).
Proof.
  destruct (bucket_heads_monotone start retry svc (seen file1) (seen (foldl apply None (start ++ retry))))
    as (H & _ & _); [exact start_ok|evaluate|evaluate|exact H].
Defined.

Lemma pending_work_pins_base_witness :
  ws_Base (workspace svc (seen (foldl apply file1 retry))) = ws_Base (workspace svc (seen file1)).
Proof.
  apply (pending_work_pins_base retry file1 svc (seen file1) (seen (foldl apply file1 retry))).
  - evaluate.
  - exact file1_inv.
  - exact (proj2 (history_ok_app None start retry start_ok)).
  - apply (prefixes (fun h => hasPending (ws_Stashes (workspace svc (seen (foldl apply file1 h)))) = true)).
    split; [evaluate|split; [evaluate|split; [evaluate|exact I]]].
  - evaluate.
Defined.

Lemma frozen_request_never_changes_witness :
  push_request svc (stash_of (foldl apply file2 (drop 1 retry))) = push_request svc (stash_of file2).
Proof.
  destruct (frozen_request_never_changes (drop 1 retry) file2 svc (seen file2)
    (seen (foldl apply file2 (drop 1 retry))) (stash_of file2) (stash_of (foldl apply file2 (drop 1 retry))))
    as [_ H].
  - evaluate.
  - exact file2_inv.
  - exact (proj2 (history_ok_app None (start ++ take 1 retry) (drop 1 retry) start_ok)).
  - vm_compute. left.
  - evaluate.
  - apply (prefixes (fun h => st_ID (stash_of file2) ∈ ids (workspace svc (seen (foldl apply file2 h))))).
    split; [vm_compute; left|split; [vm_compute; left|exact I]].
  - evaluate.
  - vm_compute. left.
  - evaluate.
  - exact H.
Defined.

Definition pulled : result Workspace * bucket_file :=
  Pull io_ok 9 svc (Ok (Some (remote_head "c5" "bafyaaaa" 5))) file1.
Lemma pull_advances_base_witness :
  ws_Base (workspace svc (seen pulled.2)) = base.
Proof.
  destruct (pull_advances_base io_ok 9 svc (remote_head "c5" "bafyaaaa" 5) file1 (seen file1)
    (workspace svc (seen pulled.2)) pulled.2) as (_ & _ & _ & E & _).
  - evaluate.
  - exact file1_inv.
  - exact svc_witness_ok.
  - evaluate.
  - rewrite E. evaluate.
Defined.

Definition staged (now : time) (random : option string) (f : bucket_file) : result Stash * bucket_file :=
  Stage io_ok now svc random (Some 2 : option (Cid (CidLib := TallyCid.lib))) base None "m" f.
Definition file0 : bucket_file := foldl apply None (take 1 start).
Lemma stage_idempotent_witness :
  (staged 9 (Some "id9") (staged 3 (Some "id3") file0).2).1 = (staged 3 (Some "id3") file0).1.
Proof.
  destruct (stage_idempotent (L := TallyCid.lib) io_ok 3 9 svc (Some "id3") (Some "id9") 2 base None None "m" "m"
    file0 (seen file0) (stash_of (staged 3 (Some "id3") file0).2) (staged 3 (Some "id3") file0).2) as (_ & _ & _ & E).
  - evaluate.
  - apply (inv_of (take 1 start)); [|evaluate]. exact (conj (proj1 start_ok) I).
  - exact svc_witness_ok.
  - intros id [= <-]. split; [discriminate|]. apply (bool_decide_eq_false (_ ∈ _)). evaluate.
  - evaluate.
  - apply (f_equal fst) in E. etransitivity; [exact E|]. evaluate.
Defined.

Definition commit : Commit :=
  mkCommit "c2" "bucket" "bafyaa" ["c1"] "bafya" "me" EmptyString EmptyString "note" 5.
Definition answer : ApplyResult :=
  mkApplyResult "fast_forward" (remote_head "c2" "bafyaa" 2) commit commit None EmptyString [].
Definition others (g : bucket_file) : bucket_file := file1.
Definition push_run :=
  Push (env 6) (env 7) (env 8) (fun g => g) others svc (Some 2 : option (Cid (CidLib := TallyCid.lib))) None
    EmptyString (Ok (Some (remote_head "c1" "bafya" 1))) (fun _ => Ok (Some answer)) file1.

Lemma push_success_witness :
  exists stash request, push_request svc stash = Ok request /\ st_ID stash ∉ ids (workspace svc (seen push_run.2)).
Proof.
  destruct (push_success (L := TallyCid.lib) (env 6) (env 7) (env 8) (fun g => g) others svc 2 None EmptyString
    (Ok (Some (remote_head "c1" "bafya" 1))) (fun _ => Ok (Some answer)) file1 (seen file1) answer
    (workspace svc (seen push_run.2)) push_run.2) as (stash & rq & _ & _ & Hrq & _ & _ & Hgone & _).
  - evaluate.
  - exact file1_inv.
  - exact svc_witness_ok.
  - intros g. exists (seen file1). split; [evaluate|exact file1_inv].
  - evaluate.
  - exists stash, rq. split; [exact Hrq|]. apply Hgone. discriminate.
Defined.

Definition failed_run :=
  Push (env 6) (env 7) (env 8) (fun g => g) (fun g => g) svc (Some 2 : option (Cid (CidLib := TallyCid.lib))) None
    EmptyString (Ok (Some (remote_head "c1" "bafya" 1))) (fun _ => Err (Errorf "offline")) file1.
Lemma failed_push_keeps_work_witness :
  exists s', view failed_run.2 = Some s' /\ keeps_work svc (seen file1) s'.
Proof.
  destruct (failed_push_keeps_work (L := TallyCid.lib) (env 6) (env 7) (env 8) svc 2 None EmptyString
    (Ok (Some (remote_head "c1" "bafya" 1))) (Errorf "offline") file1 (seen file1) failed_run.1 failed_run.2)
    as (_ & H).
  - evaluate.
  - exact file1_inv.
  - exact svc_witness_ok.
  - apply surjective_pairing.
  - exact H.
Defined.

Lemma workspace_key_injective_witness :
  workspaceKey "a@b" "main" = workspaceKey "a@b" "main" /\ "main" = "main".
Proof.
  split; [reflexivity|]. apply (workspace_key_injective "a@b" "main" "a@b" "main"). reflexivity.
Defined.
End Witness.
