(* ===== verification/Cache.v ===== *)
(** The payload cache (cache/store.go): non-authoritative local payload bytes,
    each bound to a dataset, branch, root, revision, payload CID and encryption
    epoch.

    The state is the cache directory: the metadata file, the files under
    [blobs/], and the names of the other files in the root.  Every method is a
    critical section that reloads the metadata and removes orphaned files. *)

From stdpp Require Import base decidable gmap strings list.
From Stdlib Require Import Ascii ZArith.
From S2P Require Import Prelude GoText CidLib Durable.

Definition metadataVersion : N := 1.
Definition ErrMiss := ErrorsNew "cache entry not found".
Definition ErrBindingMismatch :=
  ErrorsNew "cache entry exists under a different root, revision, or encryption epoch".
Definition ErrNotVerified := ErrorsNew "cache entry is not verified clean data".
Definition ErrCorrupt := ErrorsNew "cache payload is missing or corrupt".
Definition ErrInvalidState := ErrorsNew "invalid cache state transition".
Definition ErrBodyTooLarge := ErrorsNew "cache payload exceeds configured read limit".

Inductive State :=
  | StateUnmaterializedRemote | StateVerifiedClean | StateLocalDirty | StatePendingUpload
  | StateCandidate | StateConflicted | StateOfflineOnly | StateStale | StateOther (s : string).

#[global] Instance State_eq_dec : EqDecision State.
Proof. solve_decision. Defined.

Definition body := list ascii.

(** ** State machine *)
Definition validState (value : State) : bool :=
  match value with StateOther _ => false | _ => true end.

Definition isLocalBodyState (value : State) : bool :=
  match value with
  | StateLocalDirty | StatePendingUpload | StateCandidate | StateConflicted | StateOfflineOnly => true
  | _ => false
  end.

Definition allowedTransition (current next : State) : bool :=
  bool_decide (current = next) ||
  match current with
  | StateVerifiedClean | StateUnmaterializedRemote => bool_decide (next = StateStale)
  | StateLocalDirty =>
      bool_decide (next = StatePendingUpload) || bool_decide (next = StateOfflineOnly) ||
      bool_decide (next = StateConflicted) || bool_decide (next = StateStale)
  | StateOfflineOnly =>
      bool_decide (next = StatePendingUpload) || bool_decide (next = StateLocalDirty) ||
      bool_decide (next = StateConflicted) || bool_decide (next = StateStale)
  | StatePendingUpload =>
      bool_decide (next = StateCandidate) || bool_decide (next = StateConflicted) ||
      bool_decide (next = StateStale)
  | StateCandidate =>
      bool_decide (next = StatePendingUpload) || bool_decide (next = StateLocalDirty) ||
      bool_decide (next = StateOfflineOnly) || bool_decide (next = StateConflicted) ||
      bool_decide (next = StateStale)
  | StateConflicted =>
      bool_decide (next = StateLocalDirty) || bool_decide (next = StateOfflineOnly) ||
      bool_decide (next = StateStale)
  | StateStale | StateOther _ => false
  end.

Definition allowedPut (current next : State) : bool :=
  bool_decide (current = next) ||
  match current with
  | StateUnmaterializedRemote | StateStale =>
      bool_decide (next = StateVerifiedClean) || bool_decide (next = StateLocalDirty) ||
      bool_decide (next = StateOfflineOnly)
  | _ => false
  end.

(** ** Range capture

    [rangeCapture] keeps the part of a stream that a range read asked for, over
    64-bit offsets. *)
Record rangeCapture := mkCapture {
  rc_offset : N; rc_seen : N; rc_body : body; rc_copied : nat
}.

(** [copy(dst[at:], src)]: as many bytes as fit. *)
Definition copy_into (dst : body) (at_ : nat) (src : body) : body * nat :=
  let n := Nat.min (length dst - at_) (length src) in
  (take at_ dst ++ take n src ++ drop (at_ + n) dst, n).

Definition capture_Write (w : rangeCapture) (chunk : body) : rangeCapture :=
  let start := rc_seen w in
  let end_ := u64 (start + N.of_nat (length chunk)) in
  let w := mkCapture (rc_offset w) end_ (rc_body w) (rc_copied w) in
  let wantedEnd := u64 (rc_offset w + N.of_nat (length (rc_body w))) in
  if (end_ <=? rc_offset w)%N || (wantedEnd <=? start)%N then w else
  let copyStart := if (start <? rc_offset w)%N then rc_offset w else start in
  let copyEnd := if (wantedEnd <? end_)%N then wantedEnd else end_ in
  let sourceStart := N.to_nat (copyStart - start) in
  let sourceEnd := N.to_nat (copyEnd - start) in
  let destination := N.to_nat (copyStart - rc_offset w) in
  let '(body', n) := copy_into (rc_body w) destination (take (sourceEnd - sourceStart) (drop sourceStart chunk)) in
  mkCapture (rc_offset w) end_ body' (rc_copied w + n).

(** The number of bytes a range read wants. *)
Definition wanted_bytes (size offset len : N) : N :=
  if negb (bool_decide (len = 0%N)) && (offset <? size)%N then
    let end_ := u64 (offset + len) in
    let end_ := if (end_ <? offset)%N || (size <? end_)%N then size else end_ in
    (end_ - offset)%N
  else 0.

(** ** Data *)
Definition maxInt : N := 2 ^ 63 - 1.

(** What the cache needs from the multihash library and from SHA-256:
    [bindingID] is the hexadecimal digest of the encoded binding, and
    [SumStream_matches c data] says that [mh.SumStream] of [data] with the
    parameters of [c] is the hash of [c]. *)
Record Binding {L : CidLib} := mkBinding {
  b_DatasetID : string; b_Branch : string; b_Root : option Cid; b_Revision : N; b_CID : option Cid;
  b_EncryptionEpoch : N
}.

#[global] Arguments mkBinding {L} b_DatasetID b_Branch b_Root b_Revision b_CID b_EncryptionEpoch.

#[global] Instance Binding_eq_dec {L : CidLib} : EqDecision Binding.
Proof. solve_decision. Defined.

Class CacheLib {L : CidLib} := {
  bindingID : Binding -> string;
  SumStream_matches : Cid -> body -> bool
}.

(** The JSON form of a binding is faithful when its strings are UTF-8. *)
Definition utf8_binding {L : CidLib} (b : Binding) : bool :=
  ValidString (b_DatasetID b) && ValidString (b_Branch b).

(** Documented behaviour: the stream digest agrees with the digest of the whole
    body, and distinct bindings of UTF-8 strings have distinct digests. *)
Class CacheLaws {L : CidLib} (C : CacheLib) : Prop := {
  SumStream_Sum : forall c data, SumStream_matches c data = true <-> cid_Sum c data = Some c;
  bindingID_inj : forall b1 b2, utf8_binding b1 = true -> utf8_binding b2 = true ->
    bindingID b1 = bindingID b2 -> b1 = b2
}.

Record VerificationEvidence := mkEvidence { ve_Profile : string; ve_Evidence : body; ve_VerifiedAt : time }.

#[global] Instance VerificationEvidence_eq_dec : EqDecision VerificationEvidence.
Proof. solve_decision. Defined.

Section Cache.
Context {L : CidLib} {C : CacheLib}.

Record Entry := mkEntry {
  e_Binding : Binding; e_State : State; e_Verification : option VerificationEvidence;
  e_BodyPresent : bool; e_Size : Z; e_UpdatedAt : time
}.

Record metadata := mkMetadata { md_Version : N; Entries : gmap string Entry }.
Definition emptyMetadata : metadata := mkMetadata metadataVersion ∅.

(** The directory of the cache. *)
Record cache_dir := mkDir {
  meta : file metadata; blobs : gmap string body; root_files : list string
}.

(** Which system calls of a section succeed: those on the metadata file, those
    on a body file, and the removal of a file by name. *)
Record cache_io := mkIO { io_meta : io; io_body : io; io_remove : string -> bool; io_read : bool }.
Definition cio_ok : cache_io := mkIO io_ok io_ok (fun _ => true) true.

Definition blob_name (id : string) : string := id +:+ ".blob".

(** ** Validation *)
Definition normalizeBinding (b : Binding) : result Binding :=
  let dataset := TrimSpace (b_DatasetID b) in
  let branch := TrimSpace (b_Branch b) in
  _ ← fail_if (bool_decide (dataset = EmptyString) || bool_decide (branch = EmptyString) ||
               negb (ValidString dataset) || negb (ValidString branch) ||
               ContainsNUL dataset || ContainsNUL branch)
        (Errorf "cache dataset and branch are required");
  match b_Root b, b_CID b with
  | Some root, Some payload =>
      root ← wrap_err "cache root" (parse_cid (cid_String root));
      payload ← wrap_err "cache payload CID" (parse_cid (cid_String payload));
      Ok (mkBinding dataset branch (Some root) (b_Revision b) (Some payload) (b_EncryptionEpoch b))
  | _, _ => Err (Errorf "cache root and payload CID are required")
  end.

Definition evidence_complete (v : VerificationEvidence) : bool :=
  negb (time_IsZero (ve_VerifiedAt v)) && negb (bool_decide (TrimSpace (ve_Profile v) = EmptyString)) &&
  ValidString (ve_Profile v) && negb (bool_decide (ve_Evidence v = [])).

Definition has_verification (e : Entry) : bool :=
  match e_Verification e with Some _ => true | None => false end.

Definition normalizeEntry (e : Entry) : result Entry :=
  binding ← normalizeBinding (e_Binding e);
  _ ← fail_if (negb (validState (e_State e)) || time_IsZero (e_UpdatedAt e) || (e_Size e <? 0)%Z)
        (Errorf "invalid state metadata");
  _ ← fail_if (negb (e_BodyPresent e) && negb (bool_decide (e_Size e = 0%Z)))
        (Errorf "bodyless entry has a nonzero size");
  _ ← match e_State e with
      | StateUnmaterializedRemote =>
          fail_if (e_BodyPresent e || negb (bool_decide (e_Size e = 0%Z)) || has_verification e)
            (Errorf "unmaterialized entry contains body or verification metadata")
      | StateVerifiedClean =>
          fail_if (match e_Verification e with
                   | None => true
                   | Some v => negb (e_BodyPresent e) || negb (evidence_complete v)
                   end)
            (Errorf "verified-clean entry lacks verification evidence or body")
      | StateLocalDirty | StatePendingUpload | StateCandidate | StateConflicted | StateOfflineOnly =>
          fail_if (negb (e_BodyPresent e) || has_verification e)
            (Errorf "local mutation entry lacks a body or contains verification evidence")
      | StateStale => fail_if (has_verification e) (Errorf "stale entry contains verification evidence")
      | StateOther _ => Ok ()
      end;
  Ok (mkEntry binding (e_State e) (e_Verification e) (e_BodyPresent e) (e_Size e) (e_UpdatedAt e)).

Definition verifyPayloadCID (expected : option Cid) (data : body) : result unit :=
  match expected with
  | None => Err (Errorf "compute cached payload CID")
  | Some c =>
      actual ← or_err (cid_Sum c data) (Errorf "compute cached payload CID");
      fail_if (negb (bool_decide (actual = c))) (Errorf "payload CID mismatch")
  end.

(** ** Loading *)
Definition normalize_entry (item : string * Entry) : result (string * Entry) :=
  let '(id, e) := item in
  normalized ← wrap_err "cache entry" (normalizeEntry e);
  _ ← fail_if (negb (bool_decide (bindingID (e_Binding normalized) = id)))
        (Errorf "cache entry has mismatched binding identity");
  Ok (id, normalized).

Definition decode (next : metadata) : result metadata :=
  _ ← fail_if (negb (bool_decide (md_Version next = metadataVersion)))
        (Errorf "unsupported cache metadata version");
  entries ← mapM normalize_entry (map_to_list (Entries next));
  Ok (mkMetadata (md_Version next) (list_to_map entries)).

Definition wf (m : metadata) : Prop :=
  md_Version m = metadataVersion /\
  forall id e, Entries m !! id = Some e -> normalizeEntry e = Ok e /\ bindingID (e_Binding e) = id.

#[export] Instance cache_store : DurableStore metadata :=
  {| ds_empty := emptyMetadata; ds_decode := decode; ds_wf := wf |}.

(** [reconcileLocked]: remove the unreferenced bodies, then the leftover
    metadata files; the first removal that fails ends the section. *)
Definition referenced (m : metadata) (name : string) : bool :=
  existsb (fun kv : string * Entry => e_BodyPresent kv.2 && bool_decide (blob_name kv.1 = name))
    (map_to_list (Entries m)).

Definition orphan_blob (m : metadata) (name : string) : bool :=
  negb (referenced m name) && (HasSuffix name ".blob" || HasPrefix name ".cache-body-").

Fixpoint remove_blobs (rm : string -> bool) (m : metadata) (names : list string) (bs : gmap string body)
    : result unit * gmap string body :=
  match names with
  | [] => (Ok (), bs)
  | name :: rest =>
      if orphan_blob m name then
        if rm name then remove_blobs rm m rest (delete name bs)
        else (Err (Errorf "remove orphaned cache body"), bs)
      else remove_blobs rm m rest bs
  end.

Fixpoint remove_temps (rm : string -> bool) (names : list string) : result unit * list string :=
  match names with
  | [] => (Ok (), [])
  | name :: rest =>
      if HasPrefix name ".cache-metadata-" then
        if rm name then remove_temps rm rest
        else (Err (Errorf "remove orphaned cache metadata"), name :: rest)
      else let '(r, rest') := remove_temps rm rest in (r, name :: rest')
  end.

Definition reconcileLocked (w : cache_io) (m : metadata) (d : cache_dir) : result unit * cache_dir :=
  let '(r, bs) := remove_blobs (io_remove w) m (map_to_list (blobs d)).*1 (blobs d) in
  match r with
  | Err e => (Err e, mkDir (meta d) bs (root_files d))
  | Ok _ =>
      let '(r, roots) := remove_temps (io_remove w) (root_files d) in
      (r, mkDir (meta d) bs roots)
  end.

(** [writeMetadataLocked] and [writeBodyLocked]. *)
Definition writeMetadata (w : cache_io) (m : metadata) (d : cache_dir) : result unit * cache_dir :=
  let '(r, f) := writeAtomic synced_writer (io_meta w) (mkMetadata metadataVersion (Entries m)) (meta d) in
  (r, mkDir f (blobs d) (root_files d)).

Definition blob_file (o : option body) : file body := Decodes <$> o.

Definition writeBody (w : cache_io) (id : string) (data : body) (d : cache_dir) : result unit * cache_dir :=
  let '(r, f) := writeAtomic synced_writer (io_body w) data (blob_file (blobs d !! blob_name id)) in
  (r, mkDir (meta d)
        (match f with Some (Decodes data) => <[blob_name id := data]> (blobs d) | _ => blobs d end)
        (root_files d)).

(** [removeFile] on a body; a file that does not exist is no error. *)
Definition removeBody (w : cache_io) (id : string) (d : cache_dir) : bool * cache_dir :=
  match blobs d !! blob_name id with
  | None => (true, d)
  | Some _ =>
      if io_remove w (blob_name id)
      then (true, mkDir (meta d) (delete (blob_name id) (blobs d)) (root_files d))
      else (false, d)
  end.

(** [withState]: the operation runs on the loaded metadata; it may itself
    change the directory. *)
Definition withState {A} (w : cache_io) (write : bool)
    (operation : metadata -> cache_dir -> result (A * metadata) * cache_dir) (d : cache_dir)
    : result A * cache_dir :=
  match
    (_ ← fail_if (negb (io_meta w Mkdir)) (Errorf "create cache directory");
     _ ← fail_if (negb (io_meta w Lock)) (Errorf "lock cache metadata");
     reload (io_meta w) (meta d))
  with
  | Err e => (Err e, d)
  | Ok m =>
      match reconcileLocked w m d with
      | (Err e, d1) => (Err e, d1)
      | (Ok _, d1) =>
          match operation m d1 with
          | (Err e, d2) => (Err e, d2)
          | (Ok (a, m'), d2) =>
              if write then
                match writeMetadata w m' d2 with (Ok _, d3) => (Ok a, d3) | (Err e, d3) => (Err e, d3) end
              else (Ok a, d2)
          end
      end
  end.

(** An operation that only reads the directory. *)
Definition pure_op {A} (op : metadata -> cache_dir -> result (A * metadata)) (m : metadata) (d : cache_dir)
    : result (A * metadata) * cache_dir := (op m d, d).

Definition method {A B} (args : result A) (d : cache_dir) (run : A -> result B * cache_dir)
    : result B * cache_dir :=
  match args with Err e => (Err e, d) | Ok a => run a end.

Definition put_entry (m : metadata) (id : string) (e : Entry) : metadata :=
  mkMetadata (md_Version m) (<[id := e]> (Entries m)).

(** ** The methods *)
Definition Open (w : cache_io) (directory : string) (d : cache_dir) : result unit * cache_dir :=
  method (fail_if (bool_decide (TrimSpace directory = EmptyString)) (Errorf "cache directory is empty")) d (fun _ =>
  withState w false (pure_op (fun m _ => Ok ((), m))) d).

Definition recordLocked (now : time) (b : Binding) (m : metadata) : result (Entry * metadata) :=
  match Entries m !! bindingID b with
  | Some existing => Ok (existing, m)
  | None =>
      let e := mkEntry b StateUnmaterializedRemote None false 0 now in
      Ok (e, put_entry m (bindingID b) e)
  end.
Definition RecordRemote (w : cache_io) (now : time) (b : Binding) (d : cache_dir) : result Entry * cache_dir :=
  method (normalizeBinding b) d (fun b =>
  withState w true (pure_op (fun m _ => recordLocked now b m)) d).

(** [putWithBody]: body first, then metadata; a metadata failure removes a body
    that the old metadata did not reference. *)
Definition putLocked (w : cache_io) (e : Entry) (data : body) (m : metadata) (d : cache_dir)
    : result (unit * metadata) * cache_dir :=
  let id := bindingID (e_Binding e) in
  let existing := Entries m !! id in
  if match existing with Some ex => negb (allowedPut (e_State ex) (e_State e)) | None => false end
  then (Err (Wrapf "Put cannot replace" ErrInvalidState), d) else
  match writeBody w id data d with
  | (Err err, d1) => (Err err, d1)
  | (Ok _, d1) =>
      match writeMetadata w (put_entry m id e) d1 with
      | (Ok _, d2) => (Ok ((), put_entry m id e), d2)
      | (Err err, d2) =>
          if match existing with Some ex => negb (e_BodyPresent ex) | None => true end then
            let '(removed, d3) := removeBody w id d2 in
            if removed then (Err err, d3)
            else (Err (ErrorsJoin err (Errorf "remove uncommitted cache body")), d3)
          else (Err err, d2)
      end
  end.

Definition PutVerified (w : cache_io) (now : time) (b : Binding) (data : body) (v : VerificationEvidence)
    (d : cache_dir) : result Entry * cache_dir :=
  method (b ← normalizeBinding b;
          let v := mkEvidence (TrimSpace (ve_Profile v)) (ve_Evidence v) (ve_VerifiedAt v) in
          _ ← fail_if (bool_decide (ve_Profile v = EmptyString) || negb (ValidString (ve_Profile v)) ||
                       bool_decide (ve_Evidence v = []) || time_IsZero (ve_VerifiedAt v))
                (Errorf "verified cache evidence is incomplete");
          _ ← verifyPayloadCID (b_CID b) data;
          Ok (mkEntry b StateVerifiedClean (Some v) true (Z.of_nat (length data)) now)) d (fun e =>
  let '(r, d') := withState w false (putLocked w e data) d in (_ ← r; Ok e, d')).

Definition PutLocal (w : cache_io) (now : time) (b : Binding) (data : body) (st : State) (d : cache_dir)
    : result Entry * cache_dir :=
  method (b ← normalizeBinding b;
          _ ← fail_if (negb (bool_decide (st = StateLocalDirty)) && negb (bool_decide (st = StateOfflineOnly)))
                (Wrapf "cannot stage local body" ErrInvalidState);
          _ ← verifyPayloadCID (b_CID b) data;
          Ok (mkEntry b st None true (Z.of_nat (length data)) now)) d (fun e =>
  let '(r, d') := withState w false (putLocked w e data) d in (_ ← r; Ok e, d')).

Definition set_stale (e : Entry) (now : time) : Entry :=
  mkEntry (e_Binding e) StateStale None (e_BodyPresent e) (e_Size e) now.

Definition markCorruptLocked {A} (w : cache_io) (now : time) (id : string) (e : Entry) (cause : error)
    (m : metadata) (d : cache_dir) : result A * cache_dir :=
  match writeMetadata w (put_entry m id (set_stale e now)) d with
  | (Ok _, d') => (Err cause, d')
  | (Err err, d') => (Err (ErrorsJoin cause (Wrapf "persist stale cache state" err)), d')
  end.

Definition hasRelatedBinding (m : metadata) (b : Binding) : bool :=
  existsb (fun kv : string * Entry =>
    bool_decide (b_DatasetID (e_Binding kv.2) = b_DatasetID b) &&
    bool_decide (b_Branch (e_Binding kv.2) = b_Branch b) && bool_decide (b_CID (e_Binding kv.2) = b_CID b))
    (map_to_list (Entries m)).

(** [os.ReadFile] of a body. *)
Definition read_body (w : cache_io) (id : string) (d : cache_dir) : option body :=
  if io_read w then blobs d !! blob_name id else None.

Definition readVerifiedLocked (w : cache_io) (now : time) (b : Binding) (m : metadata) (d : cache_dir)
    : result ((body * Entry) * metadata) * cache_dir :=
  let id := bindingID b in
  match Entries m !! id with
  | None => (Err (if hasRelatedBinding m b then ErrBindingMismatch else ErrMiss), d)
  | Some value =>
      if negb (bool_decide (e_State value = StateVerifiedClean)) || negb (has_verification value)
      then (Err ErrNotVerified, d)
      else if negb (e_BodyPresent value) then markCorruptLocked w now id value ErrCorrupt m d
      else match read_body w id d with
           | None => markCorruptLocked w now id value (ErrorsJoin ErrCorrupt (Errorf "read body")) m d
           | Some data =>
               if negb (bool_decide (Z.of_nat (length data) = e_Size value))
               then markCorruptLocked w now id value ErrCorrupt m d
               else match verifyPayloadCID (b_CID b) data with
                    | Err err => markCorruptLocked w now id value (ErrorsJoin ErrCorrupt err) m d
                    | Ok _ => (Ok ((data, value), m), d)
                    end
           end
  end.

Definition sameEvidence (l r : VerificationEvidence) : bool :=
  bool_decide (ve_Profile l = ve_Profile r) && bool_decide (ve_VerifiedAt l = ve_VerifiedAt r) &&
  bool_decide (ve_Evidence l = ve_Evidence r).

Definition invalidateLocked (now : time) (b : Binding) (rejected : VerificationEvidence) (m : metadata)
    : result (unit * metadata) :=
  e ← or_err (Entries m !! bindingID b) ErrMiss;
  match e_Verification e with
  | Some v => if negb (sameEvidence v rejected) then Ok ((), m)
              else Ok ((), put_entry m (bindingID b) (set_stale e now))
  | None => Ok ((), m)
  end.

Definition invalidate (w : cache_io) (now : time) (b : Binding) (rejected : VerificationEvidence)
    (d : cache_dir) : result unit * cache_dir :=
  withState w true (pure_op (fun m _ => invalidateLocked now b rejected m)) d.

(** The verifier is the caller's; [None] is the nil interface.  [w1], [now1] and
    [w2], [now2] belong to the reading and the invalidating section. *)
Definition ReadVerified (w1 w2 : cache_io) (now1 now2 : time) (b : Binding)
    (verifier : option (Binding -> VerificationEvidence -> result unit)) (d : cache_dir)
    : result (body * Entry) * cache_dir :=
  method (verifier ← or_err verifier (Errorf "cache proof verifier is nil");
          b ← normalizeBinding b; Ok (verifier, b)) d (fun '(verifier, b) =>
  match withState w1 false (readVerifiedLocked w1 now1 b) d with
  | (Err e, d1) => (Err e, d1)
  | (Ok (data, e), d1) =>
      match e_Verification e with
      | None => (Err (Errorf "unreachable"), d1)
      | Some v =>
          match verifier b v with
          | Ok _ => (Ok (data, e), d1)
          | Err err =>
              let verificationErr := Wrapf "verify cached ProofList evidence" err in
              match invalidate w2 now2 b v d1 with
              | (Ok _, d2) => (Err verificationErr, d2)
              | (Err e2, d2) => (Err (ErrorsJoin verificationErr (Wrapf "persist invalid cache evidence" e2)), d2)
              end
          end
      end
  end).

(** ** Local bodies *)
Definition openBounded (w : cache_io) (id : string) (e : Entry) (maxBytes : N) (d : cache_dir) : result body :=
  _ ← fail_if (negb (isLocalBodyState (e_State e)) || negb (e_BodyPresent e) || (e_Size e <? 0)%Z) ErrInvalidState;
  _ ← fail_if ((maxBytes <? Z.to_N (e_Size e))%N || (maxInt <? Z.to_N (e_Size e))%N)
        (Wrapf "size" ErrBodyTooLarge);
  data ← or_err (read_body w id d) (ErrorsJoin ErrCorrupt (Errorf "open body"));
  _ ← fail_if (negb (bool_decide (Z.of_nat (length data) = e_Size e))) ErrCorrupt;
  Ok data.

(** The stream is limited to [size] bytes and must end there. *)
Definition verifyLocalStream (data : body) (payload : option Cid) (size : Z) : result unit :=
  let limited := take (Z.to_nat size) data in
  match payload with
  | None => Err ErrCorrupt
  | Some c =>
      _ ← fail_if (negb (bool_decide (length limited = Z.to_nat size)) || negb (SumStream_matches c limited)) ErrCorrupt;
      fail_if (negb (bool_decide (drop (Z.to_nat size) data = []))) ErrCorrupt
  end.

Definition readBoundedLocked (w : cache_io) (b : Binding) (maxBytes : N) (m : metadata) (d : cache_dir)
    : result ((body * Entry) * metadata) :=
  value ← or_err (Entries m !! bindingID b) ErrMiss;
  _ ← fail_if (bool_decide (e_State value = StateVerifiedClean) ||
               bool_decide (e_State value = StateUnmaterializedRemote) ||
               bool_decide (e_State value = StateStale) || negb (e_BodyPresent value)) ErrInvalidState;
  data ← openBounded w (bindingID b) value maxBytes d;
  let n := Z.to_nat (e_Size value) in
  _ ← fail_if (negb (bool_decide (length (take n data) = n))) (ErrorsJoin ErrCorrupt (Errorf "unexpected EOF"));
  _ ← fail_if (negb (bool_decide (drop n data = []))) ErrCorrupt;
  match verifyPayloadCID (b_CID b) (take n data) with
  | Err err => Err (ErrorsJoin ErrCorrupt err)
  | Ok _ => Ok ((take n data, value), m)
  end.

Definition ReadLocalBounded (w : cache_io) (b : Binding) (maxBytes : N) (d : cache_dir)
    : result (body * Entry) * cache_dir :=
  method (normalizeBinding b) d (fun b => withState w false (pure_op (readBoundedLocked w b maxBytes)) d).
Definition ReadLocal (w : cache_io) (b : Binding) (d : cache_dir) := ReadLocalBounded w b maxInt d.

Definition verifyLocked (w : cache_io) (b : Binding) (maxBytes : N) (m : metadata) (d : cache_dir)
    : result (Entry * metadata) :=
  e ← or_err (Entries m !! bindingID b) ErrMiss;
  data ← openBounded w (bindingID b) e maxBytes d;
  _ ← verifyLocalStream data (b_CID (e_Binding e)) (e_Size e);
  Ok (e, m).
Definition VerifyLocal (w : cache_io) (b : Binding) (maxBytes : N) (d : cache_dir) : result Entry * cache_dir :=
  method (normalizeBinding b) d (fun b => withState w false (pure_op (verifyLocked w b maxBytes)) d).

(** [split] is how the digest reads the stream: the chunks that reach the
    capture, in order. *)
Definition readRangeLocked (w : cache_io) (split : body -> list body) (b : Binding) (offset len maxBytes : N)
    (m : metadata) (d : cache_dir) : result ((body * Entry) * metadata) :=
  value ← or_err (Entries m !! bindingID b) ErrMiss;
  data ← openBounded w (bindingID b) value maxBytes d;
  let wanted := wanted_bytes (Z.to_N (e_Size value)) offset len in
  _ ← fail_if (maxInt <? wanted)%N ErrBodyTooLarge;
  let capture := mkCapture offset 0 (replicate (N.to_nat wanted) Ascii.zero) 0 in
  _ ← verifyLocalStream data (b_CID (e_Binding value)) (e_Size value);
  let capture := foldl capture_Write capture (split data) in
  _ ← fail_if (negb (bool_decide (rc_copied capture = length (rc_body capture)))) ErrCorrupt;
  Ok ((rc_body capture, value), m).
Definition ReadLocalRange (w : cache_io) (split : body -> list body) (b : Binding) (offset len maxBytes : N)
    (d : cache_dir) : result (body * Entry) * cache_dir :=
  method (normalizeBinding b) d (fun b =>
  withState w false (pure_op (readRangeLocked w split b offset len maxBytes)) d).

(** ** State changes *)
Definition transitionLocked (now : time) (b : Binding) (next : State) (m : metadata) : result (Entry * metadata) :=
  e ← or_err (Entries m !! bindingID b) ErrMiss;
  _ ← fail_if (negb (allowedTransition (e_State e) next)) (Wrapf "transition" ErrInvalidState);
  let e := mkEntry (e_Binding e) next
             (if negb (bool_decide (next = StateVerifiedClean)) then None else e_Verification e)
             (e_BodyPresent e) (e_Size e) now in
  Ok (e, put_entry m (bindingID b) e).
Definition Transition (w : cache_io) (now : time) (b : Binding) (next : State) (d : cache_dir)
    : result Entry * cache_dir :=
  method (normalizeBinding b) d (fun b => withState w true (pure_op (fun m _ => transitionLocked now b next m)) d).

Definition reconcileStateLocked (w : cache_io) (now : time) (b : Binding) (next : State) (maxBytes : N)
    (m : metadata) (d : cache_dir) : result (Entry * metadata) * cache_dir :=
  match
    (e ← or_err (Entries m !! bindingID b) ErrMiss;
     _ ← fail_if (negb (isLocalBodyState (e_State e)) || negb (e_BodyPresent e))
           (Wrapf "cannot reconcile" ErrInvalidState);
     data ← openBounded w (bindingID b) e maxBytes d;
     _ ← verifyLocalStream data (b_CID (e_Binding e)) (e_Size e);
     Ok (mkEntry (e_Binding e) next None (e_BodyPresent e) (e_Size e) now))
  with
  | Err err => (Err err, d)
  | Ok e =>
      match writeMetadata w (put_entry m (bindingID b) e) d with
      | (Ok _, d') => (Ok (e, put_entry m (bindingID b) e), d')
      | (Err err, d') => (Err err, d')
      end
  end.
Definition ReconcileLocalStateBounded (w : cache_io) (now : time) (b : Binding) (next : State) (maxBytes : N)
    (d : cache_dir) : result Entry * cache_dir :=
  method (b ← normalizeBinding b;
          _ ← fail_if (negb (isLocalBodyState next)) (Wrapf "cannot reconcile local body" ErrInvalidState);
          Ok b) d (fun b =>
  withState w false (reconcileStateLocked w now b next maxBytes) d).
Definition ReconcileLocalState (w : cache_io) (now : time) (b : Binding) (next : State) (d : cache_dir) :=
  ReconcileLocalStateBounded w now b next maxInt d.

Definition Inspect (w : cache_io) (b : Binding) (d : cache_dir) : result Entry * cache_dir :=
  method (normalizeBinding b) d (fun b =>
  withState w false (pure_op (fun m _ => e ← or_err (Entries m !! bindingID b) ErrMiss; Ok (e, m))) d).

Definition List_all (w : cache_io) (d : cache_dir) : result (list Entry) * cache_dir :=
  withState w false (pure_op (fun m _ =>
    Ok (sort_by_string (fun e => bindingID (e_Binding e)) (map_to_list (Entries m)).*2, m))) d.

Definition removeLocked (w : cache_io) (b : Binding) (m : metadata) (d : cache_dir)
    : result (unit * metadata) * cache_dir :=
  let id := bindingID b in
  match Entries m !! id with
  | None => (Err ErrMiss, d)
  | Some _ =>
      let '(removed, d1) := removeBody w id d in
      if negb removed then (Err (Errorf "remove cache body"), d1) else
      let m' := mkMetadata (md_Version m) (delete id (Entries m)) in
      match writeMetadata w m' d1 with
      | (Ok _, d2) => (Ok ((), m'), d2)
      | (Err err, d2) => (Err err, d2)
      end
  end.
Definition Remove (w : cache_io) (b : Binding) (d : cache_dir) : result unit * cache_dir :=
  method (normalizeBinding b) d (fun b => withState w false (removeLocked w b) d).
End Cache.

#[global] Arguments normalizeBinding : simpl never.
#[global] Arguments normalizeEntry : simpl never.
#[global] Arguments verifyPayloadCID : simpl never.
#[global] Arguments capture_Write : simpl never.
#[global] Arguments writeMetadata : simpl never.
#[global] Arguments withState : simpl never.
