(* ===== verification/CacheFacts.v ===== *)
(** The loader of the cache, the range capture, and the effect of a critical
    section on the metadata and on the bodies. *)

From stdpp Require Import base decidable gmap strings list.
From Stdlib Require Import Ascii ZArith.
From S2P Require Import Prelude GoText CidLib Durable Branch Cache.

(** ** Range capture *)

(** The part of [p] that a capture of [k] bytes at [off] keeps. *)
Definition slice (off k : nat) (p : body) : body := take k (drop off p).

(** The capture after the stream delivered [p]. *)
Definition captured (off k : nat) (p : body) : rangeCapture :=
  mkCapture (N.of_nat off) (N.of_nat (length p))
    (slice off k p ++ replicate (k - length (slice off k p)) Ascii.zero) (length (slice off k p)).

Lemma slice_length off k p : length (slice off k p) = Nat.min k (length p - off).
Proof. unfold slice. by rewrite length_take, length_drop. Qed.

(** Copying right after the filled part extends it. *)
Lemma copy_into_fill (l src : body) n :
  length src <= n ->
  copy_into (l ++ replicate n Ascii.zero) (length l) src =
    ((l ++ src) ++ replicate (n - length src) Ascii.zero, length src).
Proof.
  intros H. unfold copy_into. rewrite length_app, length_replicate.
  replace (Nat.min (length l + n - length l) (length src)) with (length src) by lia.
  rewrite take_app_length, firstn_all. rewrite drop_app_ge by lia.
  replace (length l + length src - length l) with (length src) by lia.
  by rewrite drop_replicate, <- (assoc_L (++)).
Qed.

(** The bytes that a new chunk adds to a slice. *)
Lemma slice_app off k p chunk :
  off < length p + length chunk -> length p < off + k ->
  slice off k (p ++ chunk) =
    slice off k p ++
    take (Nat.min (off + k) (length p + length chunk) - Nat.max off (length p))
      (drop (Nat.max off (length p) - length p) chunk).
Proof.
  intros H1 H2. unfold slice. destruct (decide (off <= length p)) as [Hle|Hgt].
  - rewrite drop_app_le by done. rewrite take_app. rewrite length_drop.
    replace (Nat.max off (length p)) with (length p) by lia. rewrite Nat.sub_diag, drop_0. f_equal.
    destruct (decide (length p + length chunk <= off + k)).
    + rewrite !take_ge by lia. done.
    + f_equal. lia.
  - rewrite drop_app_ge by lia. rewrite (drop_ge p) by lia. rewrite take_nil. cbn [app].
    replace (Nat.max off (length p)) with off by lia.
    destruct (decide (length p + length chunk <= off + k)).
    + rewrite !take_ge; rewrite ?length_drop; lia || done.
    + f_equal. lia.
Qed.

Lemma slice_before off k p chunk : length p + length chunk <= off -> slice off k (p ++ chunk) = slice off k p.
Proof. intros H. unfold slice. by rewrite !drop_ge by (rewrite ?length_app; lia). Qed.

Lemma slice_after off k p chunk : off + k <= length p -> slice off k (p ++ chunk) = slice off k p.
Proof.
  intros H. unfold slice. rewrite drop_app_le by lia. rewrite take_app_le; [done|]. rewrite length_drop. lia.
Qed.

Lemma capture_step off k p chunk :
  (N.of_nat (length (p ++ chunk)) < two64)%N -> (N.of_nat (off + k) < two64)%N ->
  capture_Write (captured off k p) chunk = captured off k (p ++ chunk).
Proof.
  intros Hp Hk. rewrite length_app in Hp. unfold captured at 1.
  unfold capture_Write. cbv zeta. cbn [rc_offset rc_seen rc_body rc_copied].
  assert (length (slice off k p ++ replicate (k - length (slice off k p)) Ascii.zero) = k) as Hlen.
  { rewrite length_app, length_replicate, slice_length. lia. }
  rewrite Hlen. rewrite !u64_small by lia.
  replace (N.of_nat (length p) + N.of_nat (length chunk))%N with (N.of_nat (length (p ++ chunk)))
    by (rewrite length_app; lia).
  unfold captured. cbn [rc_offset rc_seen rc_body rc_copied].
  destruct (N.leb_spec (N.of_nat (length (p ++ chunk))) (N.of_nat off)) as [H1|H1]; cbn [orb].
  { rewrite slice_before; [done|]. rewrite length_app in H1. lia. }
  destruct (N.leb_spec (N.of_nat off + N.of_nat k) (N.of_nat (length p))) as [H2|H2].
  { rewrite slice_after; [done|lia]. }
  rewrite length_app in H1. rewrite slice_app by lia.
  set (s := Nat.max off (length p)). set (e := Nat.min (off + k) (length p + length chunk)).
  assert ((if (N.of_nat (length p) <? N.of_nat off)%N then N.of_nat off else N.of_nat (length p)) = N.of_nat s) as ->.
  { destruct (N.ltb_spec (N.of_nat (length p)) (N.of_nat off)); lia. }
  assert ((if (N.of_nat off + N.of_nat k <? N.of_nat (length (p ++ chunk)))%N then (N.of_nat off + N.of_nat k)%N
           else N.of_nat (length (p ++ chunk))) = N.of_nat e) as ->.
  { rewrite length_app. destruct (N.ltb_spec (N.of_nat off + N.of_nat k) (N.of_nat (length p + length chunk))); lia. }
  replace (N.to_nat (N.of_nat s - N.of_nat (length p))) with (s - length p) by lia.
  replace (N.to_nat (N.of_nat e - N.of_nat (length p))) with (e - length p) by lia.
  replace (N.to_nat (N.of_nat s - N.of_nat off)) with (length (slice off k p)) by (rewrite slice_length; lia).
  replace (e - length p - (s - length p)) with (e - s) by lia.
  set (src := take (e - s) (drop (s - length p) chunk)).
  assert (length src = e - s) as Hsrc by (unfold src; rewrite length_take, length_drop; lia).
  rewrite copy_into_fill by (rewrite slice_length; lia).
  rewrite !length_app. do 2 f_equal. f_equal. lia.
Qed.

Lemma capture_stream off k chunks p :
  (N.of_nat (length (p ++ mjoin chunks)) < two64)%N -> (N.of_nat (off + k) < two64)%N ->
  foldl capture_Write (captured off k p) chunks = captured off k (p ++ mjoin chunks).
Proof.
  revert p. induction chunks as [|c chunks IH]; intros p Hp Hk; cbn [foldl mjoin list_join].
  { by rewrite app_nil_r. }
  cbn [mjoin list_join] in Hp. rewrite capture_step; [|rewrite !length_app in *; lia|done].
  rewrite IH; [by rewrite <- (assoc_L (++))|by rewrite <- (assoc_L (++))|done].
Qed.

Lemma captured_start off k :
  captured off k [] = mkCapture (N.of_nat off) 0 (replicate k Ascii.zero) 0.
Proof. unfold captured, slice. rewrite drop_nil, take_nil. cbn. by rewrite Nat.sub_0_r. Qed.

(** A range read wants what the range and the body have in common. *)
Lemma wanted_bytes_min size offset len :
  (size < two64)%N -> (offset < two64)%N -> (len < two64)%N ->
  wanted_bytes size offset len = N.min len (size - offset).
Proof.
  intros Hs Ho Hl. unfold wanted_bytes. case_bool_decide as E; cbn [negb andb]; [subst; lia|].
  destruct (N.ltb_spec offset size) as [H|H]; [|lia].
  destruct (decide (offset + len < two64)%N) as [Hsum|Hsum].
  - rewrite u64_small by done. destruct (N.ltb_spec (offset + len) offset); [lia|]. cbn [orb].
    destruct (N.ltb_spec size (offset + len)); lia.
  - assert (u64 (offset + len) = offset + len - two64)%N as ->.
    { unfold u64. symmetry. apply (N.mod_unique _ _ 1); lia. }
    destruct (N.ltb_spec (offset + len - two64) offset); [cbn [orb]; lia|lia].
Qed.

(** A complete stream, however it is cut into chunks, leaves the range. *)
Lemma range_captured chunks data offset len :
  mjoin chunks = data -> (N.of_nat (length data) < two64)%N -> (offset < two64)%N -> (len < two64)%N ->
  let out := take (N.to_nat len) (drop (N.to_nat offset) data) in
  let wanted := N.to_nat (wanted_bytes (N.of_nat (length data)) offset len) in
  foldl capture_Write (mkCapture offset 0 (replicate wanted Ascii.zero) 0) chunks =
    mkCapture offset (N.of_nat (length data)) out (length out) /\ length out = wanted.
Proof.
  intros Hj Hd Ho Hl. cbv zeta. rewrite wanted_bytes_min by done.
  set (k := N.to_nat (N.min len (N.of_nat (length data) - offset))).
  assert (length (take (N.to_nat len) (drop (N.to_nat offset) data)) = k) as Hk.
  { rewrite length_take, length_drop. unfold k. lia. }
  split; [|done].
  assert (slice (N.to_nat offset) k data = take (N.to_nat len) (drop (N.to_nat offset) data)) as Hs.
  { unfold slice. rewrite <- Hk. rewrite length_take. destruct (Nat.min_spec (N.to_nat len) (length (drop (N.to_nat offset) data))) as [[? ->]|[? ->]]; [done|].
    by rewrite firstn_all, take_ge. }
  pose proof (capture_stream (N.to_nat offset) k chunks []) as H. rewrite captured_start, app_nil_l, Hj in H.
  rewrite N2Nat.id in H. rewrite H; [|done|unfold k; lia].
  unfold captured. rewrite Hs, Hk, Nat.sub_diag. cbn [replicate]. by rewrite app_nil_r, N2Nat.id.
Qed.

(** ** The loader *)
Section Loader.
Context {L : CidLib} {C : CacheLib} {LL : CidLaws L} {CL : CacheLaws C}.

Lemma parse_printed c : parse_cid (cid_String c) = Ok c.
Proof. unfold parse_cid. by rewrite cid_parse_string. Qed.

Lemma normalizeBinding_inv b b' :
  normalizeBinding b = Ok b' ->
  b_Root b' = b_Root b /\ b_CID b' = b_CID b /\ (exists c, b_CID b' = Some c) /\ normalizeBinding b' = Ok b'.
Proof.
  unfold normalizeBinding at 1. intros H. simplify_result.
  destruct (b_Root b) as [root|] eqn:Er; [|done]. destruct (b_CID b) as [c|] eqn:Ec; [|done].
  rewrite !parse_printed in H. cbn in H. simplify_result. cbn. split_and!; [done|done|eauto|].
  unfold normalizeBinding. cbn. rewrite !TrimSpace_idemp, Hr. cbn. by rewrite !parse_printed.
Qed.

Lemma normalizeEntry_idemp e e' : normalizeEntry e = Ok e' -> normalizeEntry e' = Ok e'.
Proof.
  unfold normalizeEntry at 1. intros H. simplify_result.
  match goal with H : normalizeBinding _ = Ok ?b |- _ => apply normalizeBinding_inv in H as (_ & _ & _ & Hb) end.
  unfold normalizeEntry. cbn [e_Binding e_State e_Verification e_BodyPresent e_Size e_UpdatedAt has_verification].
  rewrite Hb. cbn [mbind result_bind]. rewrite Hr0, Hr1. cbn [fail_if mbind result_bind].
  unfold has_verification in *. cbn [e_Verification].
  match goal with H : _ = Ok ?u |- _ => rewrite H; done end.
Qed.

Lemma cache_decode_wf s s' : decode s = Ok s' -> wf s'.
Proof.
  unfold decode. intros H. simplify_result. simplify_guards. split; [done|].
  cbn [Entries]. intros id e Hl%elem_of_list_to_map_2.
  destruct (mapM_elem _ _ _ _ Hr0 Hl) as ([id0 e0] & _ & Hn). unfold normalize_entry in Hn. simplify_result.
  simplify_guards. split; [by eapply normalizeEntry_idemp|done].
Qed.

Lemma cache_wf_decode s : wf s -> decode s = Ok s.
Proof.
  intros [Hv Hr]. unfold decode. rewrite Hv. rewrite bool_decide_eq_true_2 by done. cbn [negb fail_if mbind result_bind].
  rewrite mapM_id.
  - cbn. rewrite list_to_map_to_list. by destruct s; cbn in *; subst.
  - apply Forall_forall. intros [id e] Hin%elem_of_map_to_list. destruct (Hr _ _ Hin) as [E1 E2].
    unfold normalize_entry. rewrite E1. cbn. by rewrite bool_decide_eq_true_2.
Qed.

Lemma cache_wf_empty : wf emptyMetadata.
Proof. split; [done|]. intros id e H. cbn [emptyMetadata Entries] in H. by rewrite lookup_empty in H. Qed.

#[export] Instance cache_laws : DurableLaws metadata.
Proof. split; [exact cache_wf_empty|exact cache_decode_wf|exact cache_wf_decode]. Qed.

Lemma put_entry_wf m id e :
  wf m -> normalizeEntry e = Ok e -> bindingID (e_Binding e) = id ->
  wf (mkMetadata metadataVersion (Entries (put_entry m id e))).
Proof.
  intros [Hv Hr] H1 H2. split; [done|]. cbn [put_entry Entries]. intros id' e'. rewrite lookup_insert.
  case_decide; [by intros [= <-]; subst|apply Hr].
Qed.

(** ** Bodies *)
Lemma append_inj_r a b s : a +:+ s = b +:+ s -> a = b.
Proof.
  intros H. apply (f_equal bytes) in H. rewrite !bytes_app in H. apply app_inv_tail in H.
  apply (f_equal of_bytes) in H. by rewrite !of_bytes_bytes in H.
Qed.

Lemma blob_name_inj a b : blob_name a = blob_name b -> a = b.
Proof. apply append_inj_r. Qed.

Lemma referenced_entry m id e :
  Entries m !! id = Some e -> e_BodyPresent e = true -> referenced m (blob_name id) = true.
Proof.
  intros Hl Hb. unfold referenced. apply existsb_exists. exists (id, e).
  split; [by apply list_elem_of_In, elem_of_map_to_list|]. cbn. by rewrite Hb, bool_decide_eq_true_2.
Qed.

Lemma remove_blobs_spec rm m names bs r bs' name :
  remove_blobs rm m names bs = (r, bs') ->
  (orphan_blob m name = false -> bs' !! name = bs !! name) /\
  (r = Ok () -> orphan_blob m name = true -> name ∈ names -> bs' !! name = None) /\
  (bs' !! name = None \/ bs' !! name = bs !! name).
Proof.
  revert bs. induction names as [|n names IH]; intros bs H; cbn in H.
  { simplify_eq. split_and!; [done| |by right]. intros _ _ Hin. by apply not_elem_of_nil in Hin. }
  destruct (orphan_blob m n) eqn:Eo.
  - destruct (rm n).
    + destruct (IH _ H) as (I1 & I2 & I3). split_and!.
      * intros Hn. rewrite I1 by done. apply lookup_delete_ne. congruence.
      * intros Hr Ho [->|Hin]%elem_of_cons; [|by apply I2].
        destruct I3 as [E|E]; [done|]. rewrite E. apply lookup_delete_eq.
      * destruct (decide (n = name)) as [->|Hne].
        -- left. destruct I3 as [E|E]; [done|]. rewrite E. apply lookup_delete_eq.
        -- by rewrite lookup_delete_ne in I3.
    + simplify_eq. split_and!; [done|done|by right].
  - destruct (IH _ H) as (I1 & I2 & I3). split_and!; [done| |done].
    intros Hr Ho [->|Hin]%elem_of_cons; [congruence|by apply I2].
Qed.

Lemma reconcile_meta w m d : meta (reconcileLocked w m d).2 = meta d.
Proof.
  unfold reconcileLocked. destruct (remove_blobs _ _ _ _) as [[|] bs]; [|done].
  by destruct (remove_temps _ _).
Qed.

(** Reconciling never removes a referenced body. *)
Lemma reconcile_keeps w m d id e :
  Entries m !! id = Some e -> e_BodyPresent e = true ->
  blobs (reconcileLocked w m d).2 !! blob_name id = blobs d !! blob_name id.
Proof.
  intros Hl Hb. unfold reconcileLocked. destruct (remove_blobs _ _ _ _) as [r bs] eqn:E.
  assert (bs !! blob_name id = blobs d !! blob_name id) as Hk.
  { eapply (remove_blobs_spec _ _ _ _ _ _ (blob_name id)) in E as (I1 & _). apply I1.
    unfold orphan_blob. by rewrite (referenced_entry _ _ _ Hl Hb). }
  destruct r; [|done]. by destruct (remove_temps _ _).
Qed.

(** ** Critical sections *)

(** The metadata after a call: unchanged, or a state related to the old one. *)
Definition outcome (P : metadata -> metadata -> Prop) (d d' : cache_dir) : Prop :=
  meta d' = meta d \/ exists m m', view (meta d) = Some m /\ P m m' /\ meta d' = Some (Decodes m').

(** The version that the writer stamps. *)
Definition stamped (m : metadata) : metadata := mkMetadata metadataVersion (Entries m).

Lemma writeMetadata_spec w m d r d' :
  writeMetadata w m d = (r, d') ->
  blobs d' = blobs d /\ (meta d' = meta d \/ meta d' = Some (Decodes (stamped m))) /\
  (r = Ok () -> meta d' = Some (Decodes (stamped m))).
Proof.
  unfold writeMetadata, stamped. destruct (writeAtomic _ _ _ _) as [r0 f] eqn:E. intros [= <- <-].
  apply writeAtomic_spec in E as (H1 & H2 & _); [|done]. cbn. auto.
Qed.

Lemma writeMetadata_ok m d :
  writeMetadata cio_ok m d = (Ok (), mkDir (Some (Decodes (stamped m))) (blobs d) (root_files d)).
Proof. unfold writeMetadata. cbn [io_meta cio_ok]. by rewrite writeAtomic_ok. Qed.

Lemma withState_outcome {A} P w write (op : metadata -> cache_dir -> result (A * metadata) * cache_dir) d :
  (forall m d1, view (meta d1) = Some m -> wf m ->
     outcome P d1 (op m d1).2 /\
     (write = true -> meta (op m d1).2 = meta d1 /\
        forall a m', (op m d1).1 = Ok (a, m') -> P m (stamped m'))) ->
  outcome P d (withState w write op d).2.
Proof.
  intros Hop. unfold withState. destruct (mbind _ _) as [m|] eqn:E; [|by left]. simplify_result.
  assert (view (meta d) = Some m) as Hv by by eapply (reload_view (io_meta w)).
  assert (wf m) as Hwf by exact (view_wf _ _ Hv).
  destruct (reconcileLocked w m d) as [rr d1] eqn:Er.
  assert (meta d1 = meta d) as Em by (rewrite <- (reconcile_meta w m d), Er; done).
  destruct rr; [|left; done].
  specialize (Hop m d1 ltac:(by rewrite Em) Hwf). destruct (op m d1) as [ro d2]. cbn [fst snd] in Hop.
  destruct Hop as [Ho Hw]. assert (outcome P d d2) as Ho2 by (unfold outcome in *; by rewrite Em in Ho).
  destruct ro as [[x m']|]; [|done]. destruct write; [|done].
  destruct (Hw eq_refl) as [Em2 HP]. destruct (writeMetadata w m' d2) as [rw d3] eqn:Ew.
  destruct (writeMetadata_spec _ _ _ _ _ Ew) as (_ & Hm & _).
  assert (outcome P d d3) as Ho3; [|by destruct rw].
  destruct Hm as [Hm|Hm]; [left; congruence|]. right. exists m, (stamped m'). eauto.
Qed.

(** What a section that only reads and then writes the metadata does. *)
Lemma pure_outcome {A} P w (op : metadata -> cache_dir -> result (A * metadata)) d :
  (forall m d1 a m', wf m -> op m d1 = Ok (a, m') -> P m (stamped m')) ->
  outcome P d (withState w true (pure_op op) d).2.
Proof.
  intros Hop. apply withState_outcome. intros m d1 _ Hwf. split; [by left|]. intros _. split; [done|].
  intros a m' H. exact (Hop m d1 a m' Hwf H).
Qed.

Lemma read_outcome {A} P w (op : metadata -> cache_dir -> result (A * metadata)) d :
  outcome P d (withState w false (pure_op op) d).2.
Proof. apply withState_outcome. intros m d1 _ _. split; [by left|done]. Qed.

Lemma write_outcome P w m m' d d' r :
  view (meta d) = Some m -> P m (stamped m') -> writeMetadata w m' d = (r, d') -> outcome P d d'.
Proof.
  intros Hv HP H. destruct (writeMetadata_spec _ _ _ _ _ H) as (_ & [E|E] & _); [by left|]. right. eauto.
Qed.

Lemma outcome_meta P d d1 d2 : outcome P d1 d2 -> meta d1 = meta d -> outcome P d d2.
Proof. unfold outcome. by intros H E; rewrite E in H. Qed.

Lemma outcome_then_meta P d d1 d2 : outcome P d d1 -> meta d2 = meta d1 -> outcome P d d2.
Proof. unfold outcome. by intros H E; rewrite E. Qed.

Lemma writeBody_meta w id data d : meta (writeBody w id data d).2 = meta d.
Proof. unfold writeBody. by destruct (writeAtomic _ _ _ _). Qed.

Lemma removeBody_meta w id d : meta (removeBody w id d).2 = meta d.
Proof. unfold removeBody. destruct (blobs d !! _); [|done]. by destruct (io_remove _ _). Qed.

(** ** Sections whose system calls succeed *)
Lemma remove_blobs_all m names bs : (remove_blobs (fun _ => true) m names bs).1 = Ok ().
Proof. revert bs. induction names as [|n names IH]; intros bs; cbn; [done|]. destruct (orphan_blob m n); apply IH. Qed.

Lemma remove_temps_all names : (remove_temps (fun _ => true) names).1 = Ok ().
Proof.
  induction names as [|n names IH]; cbn; [done|]. destruct (HasPrefix _ _); [done|].
  by destruct (remove_temps _ names).
Qed.

Lemma reconcile_ok m d : (reconcileLocked cio_ok m d).1 = Ok ().
Proof.
  unfold reconcileLocked, cio_ok. cbn [io_remove]. pose proof (remove_blobs_all m (map_to_list (blobs d)).*1 (blobs d)) as H.
  destruct (remove_blobs _ _ _ _) as [r bs]. cbn [fst] in H. subst.
  pose proof (remove_temps_all (root_files d)) as H. by destruct (remove_temps _ _).
Qed.

(** The directory that the operation of a section sees. *)
Definition swept (w : cache_io) (m : metadata) (d : cache_dir) : cache_dir := (reconcileLocked w m d).2.

Lemma withState_run {A} write (op : metadata -> cache_dir -> result (A * metadata) * cache_dir) d m :
  view (meta d) = Some m ->
  withState cio_ok write op d =
    match op m (swept cio_ok m d) with
    | (Err e, d2) => (Err e, d2)
    | (Ok (a, m'), d2) =>
        if write then (Ok a, mkDir (Some (Decodes (stamped m'))) (blobs d2) (root_files d2)) else (Ok a, d2)
    end.
Proof.
  intros Hv. unfold withState, swept. change (io_meta cio_ok) with io_ok. cbn [io_ok negb fail_if mbind result_bind].
  unfold view in Hv. destruct (reload io_ok (meta d)) as [m0|]; [|done]. injection Hv as ->.
  pose proof (reconcile_ok m d) as H. destruct (reconcileLocked cio_ok m d) as [r d1]. cbn [fst snd] in *. subst.
  destruct (op m d1) as [[[a m']|] d2]; [|done]. destruct write; [|done].
  by rewrite writeMetadata_ok.
Qed.

(** What a section that returned did: it loaded the metadata, swept the
    directory and ran its operation. *)
Lemma withState_Ok {A} w (op : metadata -> cache_dir -> result (A * metadata) * cache_dir) d a d' :
  withState w false op d = (Ok a, d') ->
  exists m m', view (meta d) = Some m /\ reconcileLocked w m d = (Ok (), swept w m d) /\
    op m (swept w m d) = (Ok (a, m'), d').
Proof.
  unfold withState, swept. destruct (mbind _ _) as [m|] eqn:E; [|done]. simplify_result. intros H.
  assert (view (meta d) = Some m) as Hv by by eapply (reload_view (io_meta w)).
  destruct (reconcileLocked w m d) as [[[]|] d1] eqn:Er; [|done].
  destruct (op m d1) as [[[x m']|] d2] eqn:Eo; [|done]. simplify_eq. exists m, m'. rewrite Er. cbn. by rewrite Eo.
Qed.

Lemma pure_section_Ok {A} w (op : metadata -> cache_dir -> result (A * metadata)) d a d' :
  withState w false (pure_op op) d = (Ok a, d') ->
  exists m m', view (meta d) = Some m /\ op m (swept w m d) = Ok (a, m') /\ d' = swept w m d.
Proof. intros (m & m' & Hv & _ & H)%withState_Ok. unfold pure_op in H. simplify_eq. eauto. Qed.

Lemma swept_body w m d id e :
  Entries m !! id = Some e -> e_BodyPresent e = true -> blobs (swept w m d) !! blob_name id = blobs d !! blob_name id.
Proof. apply reconcile_keeps. Qed.

Lemma swept_meta w m d : meta (swept w m d) = meta d.
Proof. apply reconcile_meta. Qed.

Lemma verifyPayloadCID_Ok c data u : verifyPayloadCID (Some c) data = Ok u <-> cid_Sum c data = Some c.
Proof.
  destruct u. unfold verifyPayloadCID. split.
  - intros H. simplify_result. by simplify_guards; subst.
  - intros ->. cbn. by rewrite bool_decide_eq_true_2.
Qed.

(** ** Local bodies *)
Lemma openBounded_Ok w id e maxBytes d data :
  openBounded w id e maxBytes d = Ok data ->
  isLocalBodyState (e_State e) = true /\ e_BodyPresent e = true /\ blobs d !! blob_name id = Some data /\
  e_Size e = Z.of_nat (length data) /\ (N.of_nat (length data) <= maxBytes)%N /\ (N.of_nat (length data) <= maxInt)%N.
Proof.
  unfold openBounded, read_body. intros H. simplify_result. simplify_guards. destruct (io_read w); [|done].
  split_and!; try done; lia.
Qed.

Lemma openBounded_run id e maxBytes d data :
  isLocalBodyState (e_State e) = true -> e_BodyPresent e = true -> blobs d !! blob_name id = Some data ->
  e_Size e = Z.of_nat (length data) -> (N.of_nat (length data) <= maxBytes)%N -> (N.of_nat (length data) <= maxInt)%N ->
  openBounded cio_ok id e maxBytes d = Ok data.
Proof.
  intros H1 H2 H3 H4 H5 H6. unfold openBounded. rewrite H1, H2, H4.
  assert ((Z.of_nat (length data) <? 0)%Z = false) as -> by (apply Z.ltb_ge; lia).
  assert ((maxBytes <? Z.to_N (Z.of_nat (length data)))%N = false) as -> by (apply N.ltb_ge; lia).
  assert ((maxInt <? Z.to_N (Z.of_nat (length data)))%N = false) as -> by (apply N.ltb_ge; lia).
  assert (read_body cio_ok id d = Some data) as -> by done.
  cbn [negb orb fail_if or_err mbind result_bind]. by rewrite bool_decide_eq_true_2.
Qed.

Lemma verifyLocalStream_Ok data c u :
  verifyLocalStream data (Some c) (Z.of_nat (length data)) = Ok u <-> cid_Sum c data = Some c.
Proof.
  destruct u. rewrite <- SumStream_Sum. unfold verifyLocalStream. cbv zeta.
  rewrite Nat2Z.id, firstn_all, drop_ge by lia. rewrite !bool_decide_eq_true_2 by done.
  by destruct (SumStream_matches c data).
Qed.
End Loader.
