(* ===== verification/CacheHistory.v ===== *)
(** Histories of cache calls: what one call may do to the metadata and to the
    referenced bodies, whatever system calls fail. *)

From stdpp Require Import base decidable gmap strings list.
From Stdlib Require Import Ascii ZArith.
From S2P Require Import Prelude GoText CidLib Durable Cache CacheFacts.

Section Histories.
Context {L : CidLib} {C : CacheLib} {LL : CidLaws L} {CL : CacheLaws C}.

(** ** Entries *)
Definition state_ok (st : State) (present : bool) (v : option VerificationEvidence) : Prop :=
  match st with
  | StateUnmaterializedRemote => present = false /\ v = None
  | StateVerifiedClean => present = true /\ exists x, v = Some x /\ evidence_complete x = true
  | StateLocalDirty | StatePendingUpload | StateCandidate | StateConflicted | StateOfflineOnly =>
      present = true /\ v = None
  | StateStale => v = None
  | StateOther _ => False
  end.

Record entry_ok (e : Entry) : Prop := {
  eo_binding : normalizeBinding (e_Binding e) = Ok (e_Binding e);
  eo_time : e_UpdatedAt e <> 0%Z;
  eo_size : (0 <= e_Size e)%Z;
  eo_bodyless : e_BodyPresent e = false -> e_Size e = 0%Z;
  eo_state : state_ok (e_State e) (e_BodyPresent e) (e_Verification e)
}.

Lemma normalizeEntry_ok e : normalizeEntry e = Ok e <-> entry_ok e.
Proof.
  split.
  - intros H. unfold normalizeEntry, time_IsZero, has_verification in H. simplify_result.
    match goal with H : mkEntry _ _ _ _ _ _ = e |- _ => apply (f_equal e_Binding) in H; cbn in H; subst end.
    simplify_guards. split; try done.
    + intros Hb. rewrite Hb in *. cbn in *. by simplify_guards.
    + unfold state_ok. destruct (e_State e); try done; simplify_result; destruct (e_Verification e) eqn:Ev;
        simplify_guards; try done; split; eauto.
  - intros [Hb Ht Hs Hbl Hst]. unfold normalizeEntry, time_IsZero, has_verification. rewrite Hb. cbn [mbind result_bind].
    rewrite (bool_decide_eq_false_2 _ Ht). assert ((e_Size e <? 0)%Z = false) as -> by (apply Z.ltb_ge; done).
    assert (validState (e_State e) = true) as -> by by destruct (e_State e). cbn [negb orb fail_if mbind result_bind].
    assert (negb (e_BodyPresent e) && negb (bool_decide (e_Size e = 0%Z)) = false) as ->.
    { destruct (e_BodyPresent e); [done|]. by rewrite bool_decide_eq_true_2 by auto. }
    cbn [fail_if mbind result_bind]. unfold state_ok in Hst.
    destruct e as [b [] v bp sz t]; cbn in *; try done; destruct_and?; subst; cbn; try done.
    + by rewrite bool_decide_eq_true_2 by auto.
    + destruct H0 as (x & -> & Hx). by rewrite Hx.
Qed.

Lemma wf_entry_ok m id e : wf m -> Entries m !! id = Some e -> entry_ok e /\ bindingID (e_Binding e) = id.
Proof. intros [_ H] Hl. destruct (H _ _ Hl) as [H1 H2]. by apply normalizeEntry_ok in H1. Qed.

(** ** Histories *)
Inductive call :=
  | CallRecordRemote (b : Binding)
  | CallPutVerified (b : Binding) (data : body) (v : VerificationEvidence)
  | CallPutLocal (b : Binding) (data : body) (st : State)
  | CallReadVerified (b : Binding) (verifier : option (Binding -> VerificationEvidence -> result unit))
  | CallReadLocal (b : Binding) (maxBytes : N)
  | CallTransition (b : Binding) (next : State)
  | CallReconcile (b : Binding) (next : State) (maxBytes : N)
  | CallRemove (b : Binding)
  (** Anything may happen to the bodies outside of the cache's control. *)
  | Tamper (bs : gmap string body).

Record event := Event { ev_io : cache_io; ev_io2 : cache_io; ev_now : time; ev_now2 : time; ev_call : call }.

Definition apply (d : cache_dir) (e : event) : cache_dir :=
  let w := ev_io e in let now := ev_now e in
  match ev_call e with
  | CallRecordRemote b => (RecordRemote w now b d).2
  | CallPutVerified b data v => (PutVerified w now b data v d).2
  | CallPutLocal b data st => (PutLocal w now b data st d).2
  | CallReadVerified b verifier => (ReadVerified w (ev_io2 e) now (ev_now2 e) b verifier d).2
  | CallReadLocal b maxBytes => (ReadLocalBounded w b maxBytes d).2
  | CallTransition b next => (Transition w now b next d).2
  | CallReconcile b next maxBytes => (ReconcileLocalStateBounded w now b next maxBytes d).2
  | CallRemove b => (Remove w b d).2
  | Tamper bs => mkDir (meta d) bs (root_files d)
  end.

(** The only way to make an entry verified: the caller's evidence for a body
    whose digest is the payload CID. *)
Definition proven (c : call) (e : Entry) : Prop :=
  match c with
  | CallPutVerified b data v =>
      normalizeBinding b = Ok (e_Binding e) /\ verifyPayloadCID (b_CID (e_Binding e)) data = Ok () /\
      e_Verification e = Some (mkEvidence (TrimSpace (ve_Profile v)) (ve_Evidence v) (ve_VerifiedAt v))
  | _ => False
  end.

Definition clean_in (m : metadata) (e : Entry) : Prop :=
  exists e0, Entries m !! bindingID (e_Binding e) = Some e0 /\ e_State e0 = StateVerifiedClean /\
    e_Verification e0 = e_Verification e /\ e_Binding e0 = e_Binding e.

(** The entry that a call may drop. *)
Definition removes (c : call) (id : string) : Prop :=
  match c with
  | CallRemove b => exists b', normalizeBinding b = Ok b' /\ bindingID b' = id
  | _ => False
  end.

Definition has_body (m : metadata) (id : string) : Prop :=
  exists e, Entries m !! id = Some e /\ e_BodyPresent e = true.

Definition meta_step (c : call) (m m' : metadata) : Prop :=
  wf m' /\
  (forall id e', Entries m' !! id = Some e' -> e_State e' = StateVerifiedClean ->
     clean_in m e' \/ proven c e') /\
  (forall id, has_body m id -> has_body m' id \/ removes c id).

Lemma stamped_wf m : wf m -> stamped m = m.
Proof. intros [Hv _]. destruct m; cbn in *. by subst. Qed.

Lemma meta_step_refl c m : wf m -> meta_step c m m.
Proof.
  intros Hwf. split_and!; [done| |by left]. intros id e He Hs. left. exists e.
  destruct (wf_entry_ok _ _ _ Hwf He) as [_ ->]. done.
Qed.

Lemma meta_step_put c m id e :
  wf m -> entry_ok e -> bindingID (e_Binding e) = id ->
  (e_State e = StateVerifiedClean -> clean_in m e \/ proven c e) ->
  (has_body m id -> e_BodyPresent e = true) ->
  meta_step c m (stamped (put_entry m id e)).
Proof.
  intros Hwf He Hid Hc Hb. split_and!; [apply put_entry_wf; [done|by apply normalizeEntry_ok|done]| |].
  - unfold stamped, put_entry. cbn [Entries]. intros id' e'. rewrite lookup_insert. case_decide.
    + intros [= <-] Hs. by apply Hc.
    + intros Hl Hs. by apply (proj1 (proj2 (meta_step_refl c m Hwf)) id').
  - intros id' Hid'. left. unfold has_body, stamped, put_entry. cbn [Entries]. rewrite lookup_insert.
    case_decide; [subst; eauto|done].
Qed.

Lemma meta_step_delete c m id :
  wf m -> removes c id -> meta_step c m (stamped (mkMetadata (md_Version m) (delete id (Entries m)))).
Proof.
  intros Hwf Hrm. pose proof Hwf as [Hv Hr]. unfold stamped. cbn [Entries]. split_and!.
  - split; [done|]. cbn [Entries]. intros id' e [_ Hl]%lookup_delete_Some. by apply Hr.
  - cbn [Entries]. intros id' e [_ Hl]%lookup_delete_Some Hs. by apply (proj1 (proj2 (meta_step_refl c m Hwf)) id').
  - intros id' (e & Hl & Hb). destruct (decide (id = id')) as [->|Hne]; [by right|]. left. exists e.
    cbn [Entries]. by rewrite lookup_delete_ne.
Qed.

Lemma has_body_entry m id e : has_body m id -> Entries m !! id = Some e -> e_BodyPresent e = true.
Proof. intros (e0 & Hl & Hb) H. congruence. Qed.

Lemma stale_ok e now : entry_ok e -> now <> 0%Z -> entry_ok (set_stale e now).
Proof. intros [? ? ? ? ?] Hn. by split. Qed.

Lemma meta_step_stale c m id e now :
  wf m -> Entries m !! id = Some e -> now <> 0%Z -> meta_step c m (stamped (put_entry m id (set_stale e now))).
Proof.
  intros Hwf Hl Hn. destruct (wf_entry_ok _ _ _ Hwf Hl) as [Hok Hid].
  apply meta_step_put; [done|by apply stale_ok|done|done|]. intros Hb. exact (has_body_entry _ _ _ Hb Hl).
Qed.

Lemma putLocked_writes P w e data m d :
  view (meta d) = Some m -> P m (stamped (put_entry m (bindingID (e_Binding e)) e)) ->
  outcome P d (putLocked w e data m d).2.
Proof.
  intros Hv HP. unfold putLocked. cbv zeta. destruct (match Entries m !! _ with Some _ => _ | None => _ end); [by left|].
  destruct (writeBody w _ data d) as [[|] d1] eqn:Eb;
    assert (meta d1 = meta d) as Em by (rewrite <- (writeBody_meta w (bindingID (e_Binding e)) data d), Eb; done); [|by left].
  destruct (writeMetadata w _ d1) as [rw d2] eqn:Ew.
  assert (outcome P d d2) as Ho.
  { apply (outcome_meta _ _ d1); [|done]. eapply (write_outcome _ w m); [by rewrite Em|exact HP|exact Ew]. }
  destruct rw; [done|]. destruct (match Entries m !! _ with Some _ => _ | None => _ end); [|done].
  destruct (removeBody w _ d2) as [[] d3] eqn:Erm; cbn [snd];
    apply (outcome_then_meta _ _ d2); try done; rewrite <- (removeBody_meta w (bindingID (e_Binding e)) d2), Erm; done.
Qed.

Lemma putLocked_outcome c w e data m d :
  view (meta d) = Some m -> wf m -> entry_ok e -> (e_State e = StateVerifiedClean -> proven c e) ->
  e_BodyPresent e = true -> outcome (meta_step c) d (putLocked w e data m d).2.
Proof. intros Hv Hwf He Hc Hbp. apply putLocked_writes; [done|]. apply meta_step_put; auto. Qed.

Lemma method_outcome {A B} P (args : result A) d (run : A -> result B * cache_dir) :
  (forall a, args = Ok a -> outcome P d (run a).2) -> outcome P d (method args d run).2.
Proof. intros H. destruct args; [by apply H|by left]. Qed.

Lemma verified_entry_ok b (data : body) v now :
  normalizeBinding b = Ok b -> now <> 0%Z -> TrimSpace (ve_Profile v) = ve_Profile v ->
  ve_Profile v <> EmptyString -> ValidString (ve_Profile v) = true -> ve_Evidence v <> [] -> ve_VerifiedAt v <> 0%Z ->
  entry_ok (mkEntry b StateVerifiedClean (Some v) true (Z.of_nat (length data)) now).
Proof.
  intros Hb Hn Ht Hp Hv He Ha. split; cbn; try done; [lia|]. split; [done|]. exists v. split; [done|].
  unfold evidence_complete, time_IsZero. rewrite Ht, Hv. by rewrite !bool_decide_eq_false_2.
Qed.

Lemma cache_view_Decodes m : wf m -> view (Some (Decodes m)) = Some m.
Proof. intros H. apply (view_Decodes (S := cache_store) m). exact H. Qed.

Lemma outcome_trans c d1 d2 d3 :
  outcome (meta_step c) d1 d2 -> outcome (meta_step c) d2 d3 -> outcome (meta_step c) d1 d3.
Proof.
  intros [E1|(m1 & m2 & Hv1 & H1 & E1)] H2; [by apply (outcome_meta _ _ d2)|].
  destruct H2 as [E2|(m2' & m3 & Hv2 & H2 & E2)].
  - right. exists m1, m2. split_and!; [done|done|congruence].
  - rewrite E1 in Hv2. rewrite (cache_view_Decodes m2 (proj1 H1)) in Hv2. simplify_eq. right. exists m1, m3.
    split_and!; [done| |done]. destruct H2 as (Hwf3 & H2 & H2b), H1 as (_ & H1 & H1b). split_and!; [done| |].
    + intros id e He Hs. destruct (H2 id e He Hs) as [(e0 & Hl & Hs0 & Ev & Eb)|?]; [|by right].
      destruct (H1 _ e0 Hl Hs0) as [(e1 & Hl1 & Hs1 & Ev1 & Eb1)|Hp].
      * left. exists e1. rewrite <- Eb. split_and!; congruence.
      * right. destruct c; try done. unfold proven in *. by rewrite <- Ev, <- Eb.
    + intros id Hb. destruct (H1b id Hb) as [Hb2|?]; [by apply H2b|by right].
Qed.

Lemma transition_ok e next now :
  entry_ok e -> now <> 0%Z -> allowedTransition (e_State e) next = true ->
  entry_ok (mkEntry (e_Binding e) next
    (if negb (bool_decide (next = StateVerifiedClean)) then None else e_Verification e)
    (e_BodyPresent e) (e_Size e) now).
Proof.
  intros [H1 H2 H3 H4 H5] Hn Ha. split; cbn; try done.
  destruct (e_State e), next; cbn in Ha; simplify_guards; try discriminate Ha; cbn in *; try done; naive_solver.
Qed.

Lemma put_method_outcome c w e data d :
  entry_ok e -> (e_State e = StateVerifiedClean -> proven c e) -> e_BodyPresent e = true ->
  outcome (meta_step c) d (let '(r, d') := withState w false (putLocked w e data) d in (_ ← r; Ok e, d')).2.
Proof.
  intros He Hc Hbp.
  assert (outcome (meta_step c) d (withState w false (putLocked w e data) d).2) as H.
  { apply withState_outcome. intros m d1 Hv Hwf. split; [|done]. by apply putLocked_outcome. }
  by destruct (withState w false (putLocked w e data) d).
Qed.

Lemma readVerified_outcome c w now b m d :
  view (meta d) = Some m -> wf m -> now <> 0%Z -> outcome (meta_step c) d (readVerifiedLocked w now b m d).2.
Proof.
  intros Hv Hwf Hn. unfold readVerifiedLocked. cbv zeta.
  destruct (Entries m !! bindingID b) as [e|] eqn:El; [|by left].
  assert (forall A cause, outcome (meta_step c) d (@markCorruptLocked _ A w now (bindingID b) e cause m d).2) as Hm.
  { intros A cause. unfold markCorruptLocked. destruct (writeMetadata _ _ _) as [rw d2] eqn:Ew.
    assert (outcome (meta_step c) d d2); [|by destruct rw].
    eapply write_outcome; [exact Hv| |exact Ew]. by apply meta_step_stale. }
  destruct (_ || _); [by left|]. destruct (negb (e_BodyPresent e)); [apply Hm|].
  destruct (read_body w (bindingID b) d); [|apply Hm]. destruct (negb _); [apply Hm|].
  destruct (verifyPayloadCID _ _); [by left|apply Hm].
Qed.

Lemma invalidate_outcome c w now b v d :
  now <> 0%Z -> outcome (meta_step c) d (invalidate w now b v d).2.
Proof.
  intros Hn. apply pure_outcome. intros m d1 a m' Hwf H. unfold invalidateLocked in H. simplify_result.
  destruct (e_Verification r); [destruct (negb _)|]; simplify_result;
    rewrite ?(stamped_wf m' Hwf), ?(stamped_wf m Hwf); auto using meta_step_refl.
  by apply meta_step_stale.
Qed.

Lemma apply_outcome d e :
  ev_now e <> 0%Z -> ev_now2 e <> 0%Z -> outcome (meta_step (ev_call e)) d (apply d e).
Proof.
  destruct e as [w w2 now now2 c]; cbn [ev_now ev_now2 ev_call]. intros Hn Hn2.
  destruct c as [b|b data v|b data st|b verifier|b n|b next|b next n|b|bs]; unfold apply; cbn [ev_io ev_io2 ev_now ev_now2 ev_call].
  - apply method_outcome. intros b' (_ & _ & _ & Hb)%normalizeBinding_inv. apply pure_outcome.
    intros m d1 a m' Hwf H. unfold recordLocked in H.
    destruct (Entries m !! bindingID b') eqn:El; simplify_result; [rewrite (stamped_wf m' Hwf); by apply meta_step_refl|].
    apply meta_step_put; [done|by split|done|done|]. intros (e0 & Hl & _). congruence.
  - apply method_outcome. intros e He. simplify_result. cbv zeta in He. simplify_result. cbn [ve_Profile ve_Evidence ve_VerifiedAt] in *.
    unfold time_IsZero in *. simplify_guards.
    match goal with H : normalizeBinding _ = Ok _ |- _ => pose proof H as Hnb; apply normalizeBinding_inv in H as (_ & _ & _ & Hb) end.
    match goal with u : unit |- _ => destruct u end.
    apply put_method_outcome; [|intros _; done|done]. apply verified_entry_ok; cbn; auto using TrimSpace_idemp.
  - apply method_outcome. intros e He. simplify_result.
    match goal with H : normalizeBinding _ = Ok _ |- _ => apply normalizeBinding_inv in H as (_ & _ & _ & Hb) end.
    match goal with H : negb _ && negb _ = false |- _ => apply andb_false_iff in H end.
    assert (st = StateLocalDirty \/ st = StateOfflineOnly) as Hst by (destruct_or!; simplify_guards; auto).
    apply put_method_outcome; [|by destruct Hst as [->| ->]|done].
    split; cbn; try done; [lia|by destruct Hst as [->| ->]].
  - apply method_outcome. intros [vf b'] Hb.
    assert (outcome (meta_step (CallReadVerified b verifier)) d (withState w false (readVerifiedLocked w now b') d).2) as H1.
    { apply withState_outcome. intros m d1 Hv Hwf. split; [|done]. by apply readVerified_outcome. }
    destruct (withState w false (readVerifiedLocked w now b') d) as [[[data e]|] d1]; [|done].
    destruct (e_Verification e) as [v|]; [|done]. destruct (vf b' v); [done|].
    assert (outcome (meta_step (CallReadVerified b verifier)) d1 (invalidate w2 now2 b' v d1).2) as H2
      by by apply invalidate_outcome.
    cbn [snd] in H1. destruct (invalidate w2 now2 b' v d1) as [[|] d2]; by eapply outcome_trans.
  - apply method_outcome. intros b' _. apply read_outcome.
  - apply method_outcome. intros b' _. apply pure_outcome. intros m d1 a m' Hwf H. unfold transitionLocked in H.
    simplify_result. simplify_guards. destruct (wf_entry_ok _ _ _ Hwf Hr) as [Hok Hid].
    apply meta_step_put; [done|by apply transition_ok|done| |intros Hb; exact (has_body_entry _ _ _ Hb Hr)].
    cbn [e_State]. intros ->. left.
    exists r. cbn [e_Binding e_Verification]. rewrite Hid. split_and!; try done.
    destruct (e_State r); cbn in *; try done; by simplify_guards.
  - apply method_outcome. intros b' Hb. simplify_result. simplify_guards. apply withState_outcome. intros m d1 Hv Hwf.
    split; [|done]. unfold reconcileStateLocked. destruct (mbind _ _) as [e|] eqn:Em; [|by left]. simplify_result.
    destruct (writeMetadata _ _ _) as [rw d2] eqn:Ew.
    assert (outcome (meta_step (CallReconcile b next n)) d1 d2); [|by destruct rw].
    eapply write_outcome; [exact Hv| |exact Ew].
    match goal with H : Entries m !! _ = Some _ |- _ => destruct (wf_entry_ok _ _ _ Hwf H) as [[? ? ? ? Hso] Hid] end.
    apply meta_step_put; [done| |done|by destruct next|by simplify_guards].
    simplify_guards. split; cbn; try done. match goal with H : e_BodyPresent _ = true |- _ => rewrite H end.
    by destruct next.
  - apply method_outcome. intros b' Hb'. apply withState_outcome. intros m d1 Hv Hwf. split; [|done].
    unfold removeLocked. cbv zeta. destruct (Entries m !! bindingID b'); [|by left].
    destruct (removeBody w (bindingID b') d1) as [rm d2] eqn:Er.
    assert (meta d2 = meta d1) as Em by (rewrite <- (removeBody_meta w (bindingID b') d1), Er; done).
    destruct (negb rm); [by left|]. destruct (writeMetadata _ _ _) as [rw d3] eqn:Ew.
    assert (outcome (meta_step (CallRemove b)) d1 d3); [|by destruct rw].
    apply (outcome_meta _ _ d2); [|done]. eapply (write_outcome _ w m); [by rewrite Em| |exact Ew].
    apply meta_step_delete; [done|]. by exists b'.
  - by left.
Qed.
End Histories.

(** ** Bodies *)
Section Bodies.
Context {L : CidLib} {C : CacheLib} {LL : CidLaws L} {CL : CacheLaws C}.

Lemma cache_view_wf (f : file metadata) m : view f = Some m -> wf m.
Proof. exact (view_wf f m). Qed.

(** A section keeps a referenced body when its operation does. *)
Lemma withState_blobs {A} w write (op : metadata -> cache_dir -> result (A * metadata) * cache_dir) d m id :
  view (meta d) = Some m -> has_body m id ->
  (forall d1, blobs (op m d1).2 !! blob_name id = blobs d1 !! blob_name id) ->
  blobs (withState w write op d).2 !! blob_name id = blobs d !! blob_name id.
Proof.
  intros Hv (e & Hl & Hb) Hop. unfold withState. destruct (mbind _ _) as [m0|] eqn:E; [|done]. simplify_result.
  assert (m0 = m) as ->.
  { match goal with H : reload _ _ = Ok _ |- _ => apply reload_view in H end. congruence. }
  pose proof (reconcile_keeps w m d id e Hl Hb) as Hk.
  destruct (reconcileLocked w m d) as [[|] d1]; [|done]. specialize (Hop d1).
  destruct (op m d1) as [[[x m']|] d2]; cbn [snd] in *; [|congruence]. destruct write; [|cbn; congruence].
  destruct (writeMetadata w m' d2) as [rw d3] eqn:Ew.
  destruct (writeMetadata_spec _ _ _ _ _ Ew) as (Eb & _). destruct rw; cbn [snd]; congruence.
Qed.

Lemma writeBody_blobs w id data d name :
  name <> blob_name id -> blobs (writeBody w id data d).2 !! name = blobs d !! name.
Proof.
  intros Hne. unfold writeBody. destruct (writeAtomic _ _ _ _) as [r [[data'|]|]]; cbn; try done.
  by rewrite lookup_insert_ne.
Qed.

Lemma removeBody_blobs w id d name :
  name <> blob_name id -> blobs (removeBody w id d).2 !! name = blobs d !! name.
Proof.
  intros Hne. unfold removeBody. destruct (blobs d !! blob_name id); [|done]. destruct (io_remove _ _); [|done].
  cbn. by rewrite lookup_delete_ne.
Qed.

Lemma writeMetadata_blobs w m d : blobs (writeMetadata w m d).2 = blobs d.
Proof. destruct (writeMetadata w m d) as [r d'] eqn:E. by apply writeMetadata_spec in E as (? & _). Qed.

Lemma putLocked_blobs w e data m d id :
  bindingID (e_Binding e) <> id ->
  blobs (putLocked w e data m d).2 !! blob_name id = blobs d !! blob_name id.
Proof.
  intros Hne. assert (blob_name id <> blob_name (bindingID (e_Binding e))) as Hn
    by (intros E%blob_name_inj; congruence).
  unfold putLocked. cbv zeta. destruct (match Entries m !! _ with Some _ => _ | None => _ end); [done|].
  pose proof (writeBody_blobs w (bindingID (e_Binding e)) data d _ Hn) as H1.
  destruct (writeBody w _ data d) as [[|] d1]; [|done].
  pose proof (writeMetadata_blobs w (put_entry m (bindingID (e_Binding e)) e) d1) as H2.
  destruct (writeMetadata w _ d1) as [[|] d2]; cbn [snd] in *; [congruence|].
  destruct (match Entries m !! _ with Some _ => _ | None => _ end); [|cbn; congruence].
  pose proof (removeBody_blobs w (bindingID (e_Binding e)) d2 _ Hn) as H3.
  destruct (removeBody w _ d2) as [[] d3]; cbn [snd] in *; congruence.
Qed.

(** The calls that may replace or drop the body of an entry. *)
Definition touches (c : call) (id : string) : Prop :=
  match c with
  | CallPutVerified b _ _ | CallPutLocal b _ _ | CallRemove b =>
      exists b', normalizeBinding b = Ok b' /\ bindingID b' = id
  | Tamper _ => True
  | _ => False
  end.

Lemma method_blobs {A B} (args : result A) d (run : A -> result B * cache_dir) name :
  (forall a, args = Ok a -> blobs (run a).2 !! name = blobs d !! name) ->
  blobs (method args d run).2 !! name = blobs d !! name.
Proof. intros H. destruct args; [by apply H|done]. Qed.

Lemma put_method_blobs w e data d m id :
  view (meta d) = Some m -> has_body m id -> bindingID (e_Binding e) <> id ->
  blobs (let '(r, d') := withState w false (putLocked w e data) d in (_ ← r; Ok e, d')).2 !! blob_name id =
  blobs d !! blob_name id.
Proof.
  intros Hv Hb Hne. pose proof (withState_blobs w false (putLocked w e data) d m id Hv Hb) as H.
  rewrite <- H by (intros d1; by apply putLocked_blobs). by destruct (withState w false (putLocked w e data) d).
Qed.

Lemma readVerified_blobs w now b m d : blobs (readVerifiedLocked w now b m d).2 = blobs d.
Proof.
  unfold readVerifiedLocked. cbv zeta. destruct (Entries m !! bindingID b) as [e|]; [|done].
  assert (forall A cause, blobs (@markCorruptLocked _ A w now (bindingID b) e cause m d).2 = blobs d) as Hm.
  { intros A cause. unfold markCorruptLocked.
    pose proof (writeMetadata_blobs w (put_entry m (bindingID b) (set_stale e now)) d) as H.
    by destruct (writeMetadata _ _ _) as [[|] d2]. }
  destruct (_ || _); [done|]. destruct (negb (e_BodyPresent e)); [apply Hm|].
  destruct (read_body w (bindingID b) d); [|apply Hm]. destruct (negb _); [apply Hm|].
  by destruct (verifyPayloadCID _ _).
Qed.

(** A section that is one step of a call that removes nothing keeps [has_body]. *)
Lemma outcome_has_body c d d' m id :
  outcome (meta_step c) d d' -> view (meta d) = Some m -> has_body m id -> ~ removes c id ->
  exists m', view (meta d') = Some m' /\ has_body m' id.
Proof.
  intros [E|(m0 & m' & Hv0 & (Hwf & _ & Hb) & E)] Hv Hid Hr; rewrite E; [eauto|].
  assert (m0 = m) as -> by congruence. exists m'. split; [by apply cache_view_Decodes|].
  destruct (Hb id Hid); done.
Qed.

Lemma apply_blobs d e m id :
  view (meta d) = Some m -> has_body m id -> ~ touches (ev_call e) id -> ev_now e <> 0%Z ->
  blobs (apply d e) !! blob_name id = blobs d !! blob_name id.
Proof.
  destruct e as [w w2 now now2 c]; cbn [ev_call ev_now]. intros Hv Hb Ht Hn.
  destruct c as [b|b data v|b data st|b verifier|b n|b next|b next n|b|bs]; unfold apply; cbn [ev_io ev_io2 ev_now ev_now2 ev_call] in *.
  - apply method_blobs. intros b' _. by eapply withState_blobs.
  - apply method_blobs. intros e He. simplify_result. cbv zeta in He. simplify_result.
    eapply put_method_blobs; [done|done|]. cbn [e_Binding]. intros E. apply Ht. by eexists.
  - apply method_blobs. intros e He. simplify_result. eapply put_method_blobs; [done|done|]. cbn [e_Binding]. intros E. apply Ht. by eexists.
  - apply method_blobs. intros [vf b'] _.
    assert (blobs (withState w false (readVerifiedLocked w now b') d).2 !! blob_name id = blobs d !! blob_name id) as H1.
    { eapply withState_blobs; [done|done|]. intros d1. by rewrite readVerified_blobs. }
    assert (outcome (meta_step (CallReadVerified b verifier)) d (withState w false (readVerifiedLocked w now b') d).2) as H2.
    { apply withState_outcome. intros m1 d1 Hv1 Hwf1. split; [|done]. by apply readVerified_outcome. }
    destruct (withState w false (readVerifiedLocked w now b') d) as [[[data e]|] d1]; [|done].
    destruct (e_Verification e) as [v|]; [|done]. destruct (vf b' v); [done|]. cbn [snd] in *.
    destruct (outcome_has_body _ _ _ _ id H2 Hv Hb ltac:(done)) as (m1 & Hv1 & Hb1).
    assert (blobs (invalidate w2 now2 b' v d1).2 !! blob_name id = blobs d1 !! blob_name id) as H3
      by by eapply withState_blobs.
    destruct (invalidate w2 now2 b' v d1) as [[|] d2]; cbn [snd] in *; congruence.
  - apply method_blobs. intros b' _. by eapply withState_blobs.
  - apply method_blobs. intros b' _. by eapply withState_blobs.
  - apply method_blobs. intros b' _. eapply withState_blobs; [done|done|]. intros d1. unfold reconcileStateLocked.
    destruct (mbind _ _) as [e|]; [|done].
    pose proof (writeMetadata_blobs w (put_entry m (bindingID b') e) d1) as H.
    destruct (writeMetadata _ _ _) as [[|] d2]; cbn [snd] in *; by rewrite H.
  - apply method_blobs. intros b' Hb'. eapply withState_blobs; [done|done|]. intros d1. unfold removeLocked. cbv zeta.
    destruct (Entries m !! bindingID b'); [|done].
    pose proof (removeBody_blobs w (bindingID b') d1 (blob_name id)) as H1.
    destruct (removeBody w (bindingID b') d1) as [rm d2]. cbn [snd] in H1.
    assert (blobs d2 !! blob_name id = blobs d1 !! blob_name id) as H1'.
    { apply H1. intros E%blob_name_inj. apply Ht. by eexists. }
    destruct (negb rm); [done|].
    pose proof (writeMetadata_blobs w (mkMetadata (md_Version m) (delete (bindingID b') (Entries m))) d2) as H2.
    destruct (writeMetadata _ _ _) as [[|] d3]; cbn [snd] in *; congruence.
  - by destruct Ht.
Qed.
End Bodies.
