(* ===== verification/CacheThms.v ===== *)
(** What the cache guarantees: it always loads, verified data only comes from a
    verified put, reads return exactly the bytes of the bound payload, and
    referenced bodies are never removed as orphans. *)

From stdpp Require Import base decidable gmap strings list.
From Stdlib Require Import Ascii ZArith.
From S2P Require Import Prelude GoText CidLib Durable Cache CacheFacts CacheHistory.

Section Guarantees.
Context {L : CidLib} {C : CacheLib} {LL : CidLaws L} {CL : CacheLaws C}.

(** The clock never reads the zero time. *)
Definition clocked (e : event) : Prop := ev_now e <> 0%Z /\ ev_now2 e <> 0%Z.

Lemma step_view d e m :
  view (meta d) = Some m -> clocked e ->
  exists m', view (meta (apply d e)) = Some m' /\ meta_step (ev_call e) m m'.
Proof.
  intros Hv [H1 H2]. destruct (apply_outcome d e H1 H2) as [E|(m0 & m' & Hv0 & Hs & E)]; rewrite E.
  - exists m. split; [done|]. apply meta_step_refl. by eapply cache_view_wf.
  - assert (m0 = m) as -> by congruence. exists m'. split; [|done]. by apply cache_view_Decodes; destruct Hs.
Qed.

Lemma history_view evs d m :
  view (meta d) = Some m -> Forall clocked evs -> exists m', view (meta (foldl apply d evs)) = Some m'.
Proof.
  revert d m. induction evs as [|e evs IH]; intros d m Hv Hc; [eauto|]. apply Forall_cons in Hc as [He Hc].
  destruct (step_view d e m Hv He) as (m1 & Hv1 & _). by apply (IH (apply d e) m1).
Qed.

(** After any sequence of cache calls, with system calls failing anywhere
    and bodies changed behind its back, the metadata still loads and the cache
    can be opened again. *)
Theorem cache_always_loads evs d m directory :
  view (meta d) = Some m -> Forall clocked evs -> TrimSpace directory <> EmptyString ->
  (Open cio_ok directory (foldl apply d evs)).1 = Ok ().
Proof.
  intros Hv Hc Hd. destruct (history_view evs d m Hv Hc) as [m' Hv'].
  unfold Open. rewrite bool_decide_eq_false_2 by done. cbn [fail_if method]. by rewrite (withState_run _ _ _ m').
Qed.

(** C3. A verified-clean entry was verified clean before, with the same
    binding and evidence, or a [PutVerified] of the history stored it with that
    evidence and a body whose digest is the payload CID of the binding. *)
Theorem verified_clean_provenance evs d m m' id e :
  view (meta d) = Some m -> Forall clocked evs -> view (meta (foldl apply d evs)) = Some m' ->
  Entries m' !! id = Some e -> e_State e = StateVerifiedClean ->
  clean_in m e \/ exists ev, ev ∈ evs /\ proven (ev_call ev) e.
Proof.
  intros Hv Hc Hv'. revert id e. revert d m Hv Hv'. induction evs as [|ev evs IH]; intros d m Hv Hv' id e He Hs.
  - cbn in Hv'. assert (m' = m) as -> by congruence. left.
    destruct (wf_entry_ok _ _ _ (cache_view_wf _ _ Hv) He) as [_ Hid]. exists e. by rewrite Hid.
  - apply Forall_cons in Hc as [Hev Hc]. destruct (step_view d ev m Hv Hev) as (m1 & Hv1 & _ & Hm & _).
    destruct (IH Hc (apply d ev) m1 Hv1 Hv' id e He Hs) as [(e1 & Hl1 & Hs1 & Ev1 & Eb1)|(ev' & Hin & Hp)];
      [|right; exists ev'; split; [by right|done]].
    destruct (Hm _ e1 Hl1 Hs1) as [(e0 & Hl0 & Hs0 & Ev0 & Eb0)|Hp].
    + left. exists e0. rewrite <- Eb1. split_and!; congruence.
    + right. exists ev. split; [by left|]. destruct (ev_call ev); try done. unfold proven in *. by rewrite <- Ev1, <- Eb1.
Qed.

(** A history that neither puts nor removes an entry, whatever fails in
    it, leaves the body of that entry as it was, and the entry still refers to
    it: sweeping orphans never touches a referenced body. *)
Theorem referenced_body_survives evs d m id :
  view (meta d) = Some m -> has_body m id ->
  Forall (fun e => clocked e /\ ~ touches (ev_call e) id) evs ->
  blobs (foldl apply d evs) !! blob_name id = blobs d !! blob_name id /\
  exists m', view (meta (foldl apply d evs)) = Some m' /\ has_body m' id.
Proof.
  revert d m. induction evs as [|ev evs IH]; intros d m Hv Hb Hc; [eauto|].
  apply Forall_cons in Hc as [[Hev Ht] Hc]. destruct (step_view d ev m Hv Hev) as (m1 & Hv1 & _ & _ & Hk).
  destruct (Hk id Hb) as [Hb1|Hr].
  2:{ destruct Ht. by destruct (ev_call ev). }
  destruct (IH _ _ Hv1 Hb1 Hc) as [E1 E2]. split; [|done]. cbn [foldl]. rewrite E1.
  eapply apply_blobs; [done|done|done|apply Hev].
Qed.

(** After [Open] the cache holds no orphan: of the files that were in
    [blobs/] exactly the unreferenced [.blob] and [.cache-body-] files are gone,
    the others are as they were. *)
Theorem open_removes_exactly_orphans w directory d d' :
  Open w directory d = (Ok (), d') ->
  exists m, view (meta d) = Some m /\ meta d' = meta d /\
    forall name, blobs d' !! name = if orphan_blob m name then None else blobs d !! name.
Proof.
  unfold Open. destruct (fail_if _ _); [|done]. cbn [method]. intros (m & m' & Hv & Hr & H)%withState_Ok.
  unfold pure_op in H. simplify_eq. exists m'. split_and!; [done|apply swept_meta|]. intros name.
  unfold reconcileLocked in Hr. unfold swept, reconcileLocked in *.
  destruct (remove_blobs _ _ _ _) as [[[]|] bs] eqn:E; [|done].
  destruct (remove_blobs_spec _ _ _ _ _ _ name E) as (I1 & I2 & I3).
  destruct (remove_temps _ _) as [rt roots]. cbn [snd blobs] in *. destruct (orphan_blob m' name) eqn:Eo; [|by apply I1].
  destruct (blobs d !! name) as [data|] eqn:El.
  - apply I2; [done|done|]. apply list_elem_of_fmap. exists (name, data). split; [done|]. by apply elem_of_map_to_list.
  - by destruct I3.
Qed.

(** ** Verified reads *)
Lemma normalized_utf8 b b' : normalizeBinding b = Ok b' -> utf8_binding b' = true.
Proof.
  intros H. unfold normalizeBinding in H. simplify_result. destruct (b_Root b), (b_CID b); try done. simplify_result.
  simplify_guards. unfold utf8_binding. cbn. by apply andb_true_iff.
Qed.

Lemma wf_binding m b b' e :
  wf m -> normalizeBinding b = Ok b' -> Entries m !! bindingID b' = Some e -> e_Binding e = b'.
Proof.
  intros Hwf Hb Hl. destruct (wf_entry_ok _ _ _ Hwf Hl) as [[He _ _ _ _] Hid].
  apply bindingID_inj; eauto using normalized_utf8.
Qed.

(** A read that was accepted: the entry, its evidence and its body. *)
Record vouched (m : metadata) (d : cache_dir) (b : Binding) (data : body) (e : Entry) : Prop := {
  vo_entry : Entries m !! bindingID b = Some e;
  vo_binding : e_Binding e = b;
  vo_clean : e_State e = StateVerifiedClean;
  vo_body : blobs d !! blob_name (bindingID b) = Some data;
  vo_cid : exists c, b_CID b = Some c /\ cid_Sum c data = Some c
}.

Lemma readVerifiedLocked_Ok w now b b' m d r m' d' :
  wf m -> normalizeBinding b = Ok b' ->
  readVerifiedLocked w now b' m (swept w m d) = (Ok (r, m'), d') ->
  vouched m d b' r.1 r.2 /\ d' = swept w m d.
Proof.
  intros Hwf Hb H. unfold readVerifiedLocked in H. cbv zeta in H.
  destruct (Entries m !! bindingID b') as [e|] eqn:El; [|done].
  assert (forall A cause x d2, @markCorruptLocked _ A w now (bindingID b') e cause m (swept w m d) <> (Ok x, d2)) as Hm.
  { intros A cause x d2. unfold markCorruptLocked. by destruct (writeMetadata _ _ _) as [[|] ?]. }
  destruct (_ || _) eqn:Eg; [done|]. destruct (negb (e_BodyPresent e)) eqn:Ep; [by apply Hm in H|].
  destruct (read_body _ _ _) as [data|] eqn:Er; [|by apply Hm in H].
  destruct (negb (bool_decide (Z.of_nat _ = _))); [by apply Hm in H|].
  destruct (verifyPayloadCID _ _) as [u|] eqn:Ev; [|by apply Hm in H]. simplify_guards. simplify_eq. split; [|done].
  split; cbn; try done; [by eapply wf_binding| |].
  - unfold read_body in Er. destruct (io_read w); [|done]. by rewrite (swept_body _ _ _ _ _ El) in Er.
  - destruct (normalizeBinding_inv _ _ Hb) as (_ & _ & (c & Hc) & _). exists c. split; [done|].
    rewrite Hc in Ev. by apply verifyPayloadCID_Ok in Ev.
Qed.

(** [ReadVerified] only returns the stored body of a verified-clean entry
    of exactly the requested binding, when the digest of the body is the
    payload CID and the caller's verifier accepts the stored evidence; the
    metadata is unchanged. *)
Theorem read_verified_sound w1 w2 now1 now2 b verifier d data e d' :
  ReadVerified w1 w2 now1 now2 b verifier d = (Ok (data, e), d') ->
  exists m b' vf v, view (meta d) = Some m /\ normalizeBinding b = Ok b' /\ vouched m d b' data e /\
    verifier = Some vf /\ e_Verification e = Some v /\ is_ok (vf b' v) = true /\ meta d' = meta d.
Proof.
  unfold ReadVerified. intros H. destruct (mbind _ _) as [[vf b']|] eqn:Ea; [|done]. simplify_result. cbn [method] in H.
  destruct (withState w1 false _ d) as [[[data1 e1]|] d1] eqn:Ew; [|done].
  apply withState_Ok in Ew as (m & m' & Hv & _ & Hop).
  eapply readVerifiedLocked_Ok in Hop as [Hvo Ed]; [|by eapply cache_view_wf|done]. subst. cbn [fst snd] in *.
  destruct (e_Verification e1) as [v|] eqn:Eev; [|done].
  destruct (vf b' v) eqn:Evf; [|by destruct (invalidate _ _ _ _ _) as [[|] ?]]. simplify_eq.
  exists m, b', vf, v. rewrite Evf. split_and!; try done. apply swept_meta.
Qed.

(** The metadata file now holds [m] with the entry of [id] demoted. *)
Definition demoted (m : metadata) (id : string) (e : Entry) (now : time) (d : cache_dir) : Prop :=
  meta d = Some (Decodes (stamped (put_entry m id (set_stale e now)))).

Lemma readVerifiedLocked_Err now b m d e err d' :
  Entries m !! bindingID b = Some e -> e_State e = StateVerifiedClean -> is_Some (e_Verification e) ->
  readVerifiedLocked cio_ok now b m d = (Err err, d') -> demoted m (bindingID b) e now d'.
Proof.
  intros Hl Hs [v Hv] H. unfold readVerifiedLocked in H. cbv zeta in H. rewrite Hl in H.
  assert (forall A cause, @markCorruptLocked _ A cio_ok now (bindingID b) e cause m d =
    (Err cause, mkDir (Some (Decodes (stamped (put_entry m (bindingID b) (set_stale e now))))) (blobs d) (root_files d))) as Hm.
  { intros A cause. unfold markCorruptLocked. by rewrite writeMetadata_ok. }
  rewrite Hs in H. unfold has_verification in H. rewrite Hv in H. rewrite bool_decide_eq_true_2 in H by done.
  cbn [negb orb] in H. rewrite !Hm in H. destruct (negb (e_BodyPresent e)); [by simplify_eq|].
  destruct (read_body _ _ _); [|rewrite ?Hm in H; by simplify_eq].
  destruct (negb _); [rewrite ?Hm in H; by simplify_eq|].
  destruct (verifyPayloadCID _ _); [done|]. rewrite ?Hm in H. by simplify_eq.
Qed.

Lemma demoted_view m id e now d :
  wf m -> Entries m !! id = Some e -> now <> 0%Z -> demoted m id e now d ->
  view (meta d) = Some (stamped (put_entry m id (set_stale e now))).
Proof.
  intros Hwf Hl Hn ->. apply cache_view_Decodes.
  apply (meta_step_stale (Tamper ∅) m id e now Hwf Hl Hn).
Qed.

(** When [ReadVerified] refuses a verified-clean entry (body missing,
    truncated, of another digest, or evidence that the caller's verifier
    rejects) and its writes succeed, the entry is stale afterwards and carries
    no evidence: no later read serves it, whatever verifier it brings. *)
Theorem rejected_entry_is_demoted now1 now2 b b' vf d m e err d' :
  view (meta d) = Some m -> normalizeBinding b = Ok b' -> now1 <> 0%Z -> now2 <> 0%Z ->
  Entries m !! bindingID b' = Some e -> e_State e = StateVerifiedClean ->
  ReadVerified cio_ok cio_ok now1 now2 b (Some vf) d = (Err err, d') ->
  (exists m' now, view (meta d') = Some m' /\ Entries m' !! bindingID b' = Some (set_stale e now)) /\
  forall t1 t2 vf', (ReadVerified cio_ok cio_ok t1 t2 b (Some vf') d').1 = Err ErrNotVerified.
Proof.
  intros Hv Hb Hn1 Hn2 Hl Hs H. pose proof (cache_view_wf _ _ Hv) as Hwf.
  destruct (wf_entry_ok _ _ _ Hwf Hl) as [[_ _ _ _ Hso] Hid]. rewrite Hs in Hso. destruct Hso as [_ (v & Hev & _)].
  assert (exists now, now <> 0%Z /\ demoted m (bindingID b') e now d') as (now & Hn & Hd).
  { unfold ReadVerified in H. rewrite Hb in H. cbn [or_err mbind result_bind method] in H.
    rewrite (withState_run false _ d m Hv) in H.
    destruct (readVerifiedLocked cio_ok now1 b' m (swept cio_ok m d)) as [[[[data e1] m1]|] d1] eqn:Er.
    2:{ simplify_eq. exists now1. split; [done|]. eapply readVerifiedLocked_Err; eauto. }
    pose proof (readVerifiedLocked_Ok _ _ _ _ _ _ _ _ _ Hwf Hb Er) as [Hvo ->].
    destruct Hvo as [Hl1 _ _ _ _]. cbn [fst snd] in *. assert (e1 = e) as -> by congruence.
    rewrite Hev in H. destruct (vf b' v); [done|]. exists now2. split; [done|].
    unfold invalidate in H. rewrite (withState_run true _ _ m) in H by by rewrite swept_meta.
    unfold pure_op, invalidateLocked in H. rewrite Hl in H. cbn [or_err mbind result_bind] in H. rewrite Hev in H.
    assert (sameEvidence v v = true) as Hsame by (unfold sameEvidence; by rewrite !bool_decide_eq_true_2).
    rewrite Hsame in H. cbn [negb] in H. by simplify_eq. }
  pose proof (demoted_view _ _ _ _ _ Hwf Hl Hn Hd) as Hv'.
  split; [eexists _, now; split; [done|]; cbn; apply lookup_insert_eq|].
  intros t1 t2 vf'. unfold ReadVerified. rewrite Hb. cbn [or_err mbind result_bind method].
  rewrite (withState_run false _ d' _ Hv'). unfold readVerifiedLocked. cbv zeta.
  assert (Entries (stamped (put_entry m (bindingID b') (set_stale e now))) !! bindingID b' = Some (set_stale e now)) as ->
    by (cbn; apply lookup_insert_eq). done.
Qed.

(** ** Local reads *)

(** A local body of the binding [b]: the entry, its bytes, and their digest. *)
Record local_body (m : metadata) (d : cache_dir) (b : Binding) (e : Entry) (full : body) : Prop := {
  lb_entry : Entries m !! bindingID b = Some e;
  lb_binding : e_Binding e = b;
  lb_local : isLocalBodyState (e_State e) = true;
  lb_body : blobs d !! blob_name (bindingID b) = Some full;
  lb_size : e_Size e = Z.of_nat (length full);
  lb_cid : exists c, b_CID b = Some c /\ cid_Sum c full = Some c
}.

(** The chunks of a reader are the stream. *)
Definition chunking (split : body -> list body) : Prop := forall data, mjoin (split data) = data.

Lemma readRangeLocked_Ok w split b b' offset len maxBytes m d r m' :
  wf m -> normalizeBinding b = Ok b' -> chunking split -> (offset < two64)%N -> (len < two64)%N ->
  readRangeLocked w split b' offset len maxBytes m (swept w m d) = Ok (r, m') ->
  exists full, local_body m d b' r.2 full /\ (N.of_nat (length full) <= maxBytes)%N /\
    r.1 = take (N.to_nat len) (drop (N.to_nat offset) full).
Proof.
  intros Hwf Hb Hsp Ho Hl H. unfold readRangeLocked in H. cbv zeta in H. simplify_result.
  match goal with H : Entries _ !! _ = Some _ |- _ => rename H into He end.
  match goal with H : openBounded _ _ _ _ _ = Ok ?x |- _ => rename x into full; apply openBounded_Ok in H as (H1 & H2 & H3 & H4 & H5 & H6) end.
  rewrite H4 in *. replace (Z.to_N (Z.of_nat (length full))) with (N.of_nat (length full)) in * by lia.
  pose proof (wf_binding _ _ _ _ Hwf Hb He) as Eb.
  destruct (normalizeBinding_inv _ _ Hb) as (_ & _ & (c & Hc) & _).
  destruct (range_captured (split full) full offset len) as [Hr Hk]; [by apply Hsp|unfold maxInt, two64 in *; lia|done|done|].
  exists full. cbn [fst snd]. rewrite Hr. split_and!; [|done|done]. split; try done.
  - by rewrite (swept_body _ _ _ _ _ He) in H3.
  - exists c. split; [done|]. rewrite Eb, Hc in *. by eapply verifyLocalStream_Ok.
Qed.

Lemma ReadLocalRange_exact w split b offset len maxBytes d out e d' :
  chunking split -> (offset < two64)%N -> (len < two64)%N ->
  ReadLocalRange w split b offset len maxBytes d = (Ok (out, e), d') ->
  exists m b' full, view (meta d) = Some m /\ normalizeBinding b = Ok b' /\ local_body m d b' e full /\
    (N.of_nat (length full) <= maxBytes)%N /\ out = take (N.to_nat len) (drop (N.to_nat offset) full).
Proof.
  intros Hsp Ho Hl H. unfold ReadLocalRange in H. destruct (normalizeBinding b) as [b'|] eqn:Eb; [|done].
  cbn [method] in H. apply pure_section_Ok in H as (m & m' & Hv & Hop & ->).
  eapply readRangeLocked_Ok in Hop as (full & Hlb & Hm & E); [|by eapply cache_view_wf|done..].
  exists m, b', full. done.
Qed.

(** C31. [ReadLocalRange] returns exactly the requested range of the stored
    body (clipped at its end, for every 64-bit offset and length, even when
    their sum wraps around), the whole body having the payload CID as its
    digest, and this does not depend on how the body is read in chunks. *)
Theorem read_range_exact w split b offset len maxBytes d out e d' :
  chunking split -> (offset < two64)%N -> (len < two64)%N ->
  ReadLocalRange w split b offset len maxBytes d = (Ok (out, e), d') ->
  exists m b' full, view (meta d) = Some m /\ normalizeBinding b = Ok b' /\ local_body m d b' e full /\
    (N.of_nat (length full) <= maxBytes)%N /\ out = take (N.to_nat len) (drop (N.to_nat offset) full).
Proof. apply ReadLocalRange_exact. Qed.

Lemma put_Ok w e e' data d d' :
  (let '(r, d') := withState w false (putLocked w e data) d in (_ ← r; Ok e, d')) = (Ok e', d') ->
  e' = e /\ exists m, view (meta d) = Some m /\
    meta d' = Some (Decodes (stamped (put_entry m (bindingID (e_Binding e)) e))) /\
    blobs d' !! blob_name (bindingID (e_Binding e)) = Some data.
Proof.
  intros H. destruct (withState w false (putLocked w e data) d) as [[[]|] d2] eqn:Ew; [|done]. cbn in H. simplify_eq.
  split; [done|]. apply withState_Ok in Ew as (m & m' & Hv & _ & Hop). exists m. split; [done|].
  unfold putLocked in Hop. cbv zeta in Hop. destruct (match Entries m !! _ with Some _ => _ | None => _ end); [done|].
  unfold writeBody in Hop. destruct (writeAtomic _ _ _ _) as [rb f] eqn:Eb.
  apply writeAtomic_spec in Eb as (_ & Hok & _); [|done]. destruct rb as [[]|]; [|done]. rewrite (Hok eq_refl) in Hop.
  destruct (writeMetadata _ _ _) as [[[]|] d3] eqn:Ew.
  - destruct (writeMetadata_spec _ _ _ _ _ Ew) as (Hbl & _ & Hm). simplify_eq. split; [by apply Hm|].
    rewrite Hbl. cbn. apply lookup_insert_eq.
  - destruct (match Entries m !! _ with Some _ => _ | None => _ end); [|done].
    by destruct (removeBody _ _ _) as [[] ?].
Qed.

Lemma local_open m d b e full maxBytes :
  wf m -> local_body m d b e full -> (N.of_nat (length full) <= maxBytes)%N -> (N.of_nat (length full) <= maxInt)%N ->
  openBounded cio_ok (bindingID b) e maxBytes (swept cio_ok m d) = Ok full.
Proof.
  intros Hwf [H1 H2 H3 H4 H5 _] Hm Hi. destruct (wf_entry_ok _ _ _ Hwf H1) as [[_ _ _ _ Hso] _].
  assert (e_BodyPresent e = true) as Hp by (destruct (e_State e); cbn in H3; try done; apply Hso).
  apply openBounded_run; try done. by rewrite (swept_body _ _ _ _ e).
Qed.

(** Every read of a local body returns its bytes. *)
Lemma local_reads m d b b' e full maxBytes :
  view (meta d) = Some m -> normalizeBinding b = Ok b' -> local_body m d b' e full ->
  (N.of_nat (length full) <= maxBytes)%N -> (N.of_nat (length full) <= maxInt)%N ->
  (ReadLocalBounded cio_ok b maxBytes d).1 = Ok (full, e) /\
  (VerifyLocal cio_ok b maxBytes d).1 = Ok e /\
  forall split offset len, chunking split -> (offset < two64)%N -> (len < two64)%N ->
    (ReadLocalRange cio_ok split b offset len maxBytes d).1 =
      Ok (take (N.to_nat len) (drop (N.to_nat offset) full), e).
Proof.
  intros Hv Hb Hlb Hm Hi. pose proof (local_open _ _ _ _ _ _ (cache_view_wf _ _ Hv) Hlb Hm Hi) as Ho.
  pose proof Hlb as [H1 H2 H3 H4 H5 (c & Hc & Hsum)].
  assert (verifyLocalStream full (b_CID (e_Binding e)) (e_Size e) = Ok ()) as Hvs.
  { rewrite H2, Hc, H5. by apply verifyLocalStream_Ok. }
  split_and!.
  - unfold ReadLocalBounded. rewrite Hb. cbn [method]. rewrite (withState_run _ _ _ m Hv).
    unfold pure_op, readBoundedLocked. rewrite H1. cbn [or_err mbind result_bind]. rewrite Ho.
    assert (bool_decide (e_State e = StateVerifiedClean) || bool_decide (e_State e = StateUnmaterializedRemote) ||
      bool_decide (e_State e = StateStale) || negb (e_BodyPresent e) = false) as ->.
    { destruct (wf_entry_ok _ _ _ (cache_view_wf _ _ Hv) H1) as [[_ _ _ _ Hso] _].
      destruct (e_State e); cbn in H3; try done; by destruct Hso as [-> _]. }
    cbn [fail_if mbind result_bind]. rewrite H5, Nat2Z.id, firstn_all, drop_ge by done.
    rewrite !bool_decide_eq_true_2 by done. cbn [negb fail_if mbind result_bind].
    rewrite Hc. by rewrite (proj2 (verifyPayloadCID_Ok c full ()) Hsum).
  - unfold VerifyLocal. rewrite Hb. cbn [method]. rewrite (withState_run _ _ _ m Hv).
    unfold pure_op, verifyLocked. rewrite H1. cbn [or_err mbind result_bind]. rewrite Ho.
    cbn [mbind result_bind]. by rewrite Hvs.
  - intros split offset len Hsp Hof Hle. unfold ReadLocalRange. rewrite Hb. cbn [method]. rewrite (withState_run _ _ _ m Hv).
    unfold pure_op, readRangeLocked. rewrite H1. cbn [or_err mbind result_bind]. rewrite Ho.
    cbn [mbind result_bind]. cbv zeta. rewrite Hvs, H5.
    replace (Z.to_N (Z.of_nat (length full))) with (N.of_nat (length full)) by lia.
    destruct (range_captured (split full) full offset len) as [Hr Hk];
      [by apply Hsp|unfold maxInt, two64 in *; lia|done|done|].
    assert ((maxInt <? wanted_bytes (N.of_nat (length full)) offset len)%N = false) as ->.
    { apply N.ltb_ge. rewrite wanted_bytes_min; [lia|unfold maxInt, two64 in *; lia|done|done]. }
    cbn [fail_if mbind result_bind]. rewrite Hr. cbn [rc_copied rc_body]. by rewrite bool_decide_eq_true_2.
Qed.

(** A successful put leaves a local body. *)
Lemma put_local_body w now b data st d e d1 :
  now <> 0%Z -> PutLocal w now b data st d = (Ok e, d1) ->
  exists m b', view (meta d1) = Some m /\ normalizeBinding b = Ok b' /\ local_body m d1 b' e data.
Proof.
  intros Hn H. unfold PutLocal in H. destruct (mbind _ _) as [e0|] eqn:Ea; [|done]. cbn [method] in H.
  simplify_result. apply put_Ok in H as (-> & m & Hv & Hmeta & Hbl). cbn [e_Binding] in *.
  match goal with H : normalizeBinding b = Ok ?x |- _ => rename x into b'; rename H into Hb end.
  destruct (normalizeBinding_inv _ _ Hb) as (_ & _ & (c & Hc) & Hid).
  match goal with H : negb _ && negb _ = false |- _ => apply andb_false_iff in H end.
  assert (st = StateLocalDirty \/ st = StateOfflineOnly) as Hst by (destruct_or!; simplify_guards; auto).
  set (e0 := mkEntry b' st None true (Z.of_nat (length data)) now) in *.
  assert (view (meta d1) = Some (stamped (put_entry m (bindingID b') e0))) as Hv1.
  { rewrite Hmeta. apply cache_view_Decodes. apply put_entry_wf; [by eapply cache_view_wf| |done].
    apply normalizeEntry_ok. split; cbn; try done; [lia|by destruct Hst as [->| ->]]. }
  eexists _, b'. split_and!; [exact Hv1|done|]. split; cbn; try done.
  - apply lookup_insert_eq.
  - by destruct Hst as [->| ->].
  - exists c. split; [done|]. rewrite Hc in *. by eapply verifyPayloadCID_Ok.
Qed.

(** A body that [PutLocal] accepted is read back byte for byte, whole, by
    range or as a verification, by any of its readers with a sufficient limit,
    with the entry that the put returned. *)
Theorem put_local_round_trip w now b data st d e d1 maxBytes :
  now <> 0%Z -> (N.of_nat (length data) <= maxInt)%N -> (N.of_nat (length data) <= maxBytes)%N ->
  PutLocal w now b data st d = (Ok e, d1) ->
  (ReadLocalBounded cio_ok b maxBytes d1).1 = Ok (data, e) /\
  (VerifyLocal cio_ok b maxBytes d1).1 = Ok e /\
  forall split offset len, chunking split -> (offset < two64)%N -> (len < two64)%N ->
    (ReadLocalRange cio_ok split b offset len maxBytes d1).1 =
      Ok (take (N.to_nat len) (drop (N.to_nat offset) data), e).
Proof.
  intros Hn Hi Hm H. apply put_local_body in H as (m & b' & Hv & Hb & Hlb); [|done]. by eapply local_reads.
Qed.

(** The directory sync after the rename of the metadata file fails; every other
    system call succeeds. *)
Definition unsynced : cache_io := mkIO (io_fail SyncParent) io_ok (fun _ => true) true.

Lemma writeMetadata_unsynced m d :
  exists err, writeMetadata unsynced m d = (Err err, mkDir (Some (Decodes (stamped m))) (blobs d) (root_files d)).
Proof. by eexists. Qed.

Lemma withState_unsynced {A} (op : metadata -> cache_dir -> result (A * metadata) * cache_dir) d m :
  view (meta d) = Some m ->
  withState unsynced false op d =
    match op m (swept unsynced m d) with (Err e, d2) => (Err e, d2) | (Ok (a, _), d2) => (Ok a, d2) end.
Proof.
  intros Hv. unfold withState, swept. change (reload (io_meta unsynced) (meta d)) with (reload io_ok (meta d)).
  change (io_meta unsynced Mkdir) with true. change (io_meta unsynced Lock) with true.
  cbn [negb fail_if mbind result_bind].
  unfold view in Hv. destruct (reload io_ok (meta d)) as [m0|]; [|done]. injection Hv as ->.
  pose proof (reconcile_ok m d) as H. change (reconcileLocked unsynced m d) with (reconcileLocked cio_ok m d).
  destruct (reconcileLocked cio_ok m d) as [r d1]. cbn [fst snd] in *. by subst.
Qed.

(** C38. When only the directory sync after the rename fails, the first
    [PutLocal] of a binding reports an error and removes the body, but the
    renamed metadata already refers to it: the entry is left without its
    body. *)
Theorem failed_put_leaves_entry_without_body now b b' data d m :
  view (meta d) = Some m -> normalizeBinding b = Ok b' -> Entries m !! bindingID b' = None -> now <> 0%Z ->
  verifyPayloadCID (b_CID b') data = Ok () ->
  exists err d' m' e, PutLocal unsynced now b data StateLocalDirty d = (Err err, d') /\
    view (meta d') = Some m' /\ Entries m' !! bindingID b' = Some e /\ e_BodyPresent e = true /\
    blobs d' !! blob_name (bindingID b') = None.
Proof.
  intros Hv Hb Hl Hn Hp. destruct (normalizeBinding_inv _ _ Hb) as (_ & _ & _ & Hid).
  unfold PutLocal. rewrite Hb. cbn [mbind result_bind]. rewrite (bool_decide_eq_true_2 (StateLocalDirty = StateLocalDirty)) by done.
  cbn [negb andb fail_if mbind result_bind]. rewrite Hp. cbn [mbind result_bind method].
  set (e := mkEntry b' StateLocalDirty None true (Z.of_nat (length data)) now).
  rewrite (withState_unsynced _ d m Hv). unfold putLocked. cbv zeta. change (e_Binding e) with b'. rewrite Hl.
  set (id := bindingID b'). set (d1 := swept unsynced m d).
  assert (writeBody unsynced id data d1 = (Ok (), mkDir (meta d1) (<[blob_name id := data]> (blobs d1)) (root_files d1))) as ->.
  { unfold writeBody. cbn [unsynced io_body]. by rewrite writeAtomic_ok. }
  destruct (writeMetadata_unsynced (put_entry m id e)
    (mkDir (meta d1) (<[blob_name id := data]> (blobs d1)) (root_files d1))) as [err ->].
  unfold removeBody. cbn [blobs meta root_files unsynced io_remove]. rewrite lookup_insert_eq.
  eexists _, _, _, _. split; [reflexivity|]. cbn [meta blobs]. split_and!.
  - apply cache_view_Decodes. apply put_entry_wf; [by eapply cache_view_wf| |done].
    apply normalizeEntry_ok. split; cbn; try done; lia.
  - cbn. apply lookup_insert_eq.
  - done.
  - apply lookup_delete_eq.
Qed.
End Guarantees.

(** ** Witnesses *)

(** A concrete digest: the binary code of the binding. *)
Module DigitDigest.
Fixpoint digits (p : positive) : string :=
  match p with
  | xH => EmptyString
  | xO p' => String "0" (digits p')
  | xI p' => String "1" (digits p')
  end.

Lemma digits_inj p q : digits p = digits q -> p = q.
Proof. revert q. induction p; intros [q|q|] H; simplify_eq/=; f_equal; auto. Qed.

Definition fields (b : Binding (L := TallyCid.lib)) : list positive :=
  [encode (b_DatasetID b); encode (b_Branch b); encode (b_Root b : option nat); encode (b_Revision b);
   encode (b_CID b : option nat); encode (b_EncryptionEpoch b)].

#[global, refine] Instance digest_lib : CacheLib (L := TallyCid.lib) := {
  bindingID b := digits (encode (fields b));
  SumStream_matches c data := bool_decide (length data = c)
}.
Proof. Defined.

#[global] Instance digest_laws : CacheLaws digest_lib.
Proof.
  split.
  - intros c data. cbn. rewrite bool_decide_eq_true. naive_solver.
  - intros [] [] _ _ H%digits_inj%(inj encode). unfold fields in H.
    injection H as H1 H2 H3 H4 H5 H6. by apply (inj encode) in H1, H2, H3, H4, H5, H6; subst.
Qed.
End DigitDigest.

Module Witness.
Definition clean : Binding (L := TallyCid.lib) := mkBinding "d" "m" (Some 1) 1 (Some 3) 0.
Definition dirty : Binding (L := TallyCid.lib) := mkBinding " d " "m" (Some 1) 1 (Some 4) 0.
Definition dirty' : Binding (L := TallyCid.lib) := mkBinding "d" "m" (Some 1) 1 (Some 4) 0.
Definition evidence := mkEvidence "profile" (bytes "proof") 9.
Definition abc := bytes "abc".
Definition abcd := bytes "abcd".
Definition accept (_ : Binding (L := TallyCid.lib)) (_ : VerificationEvidence) : result unit := Ok ().
Definition reject (_ : Binding (L := TallyCid.lib)) (_ : VerificationEvidence) : result unit := Err (Errorf "bad proof").
Definition flaky : cache_io := mkIO (io_fail SyncParent) io_ok (fun _ => true) true.
Definition disk0 : cache_dir := mkDir None {["stray.blob" := abc]} [".cache-metadata-1"].
Definition filling : list event :=
  [Event cio_ok cio_ok 1 1 (CallPutVerified clean abc evidence);
   Event cio_ok cio_ok 2 2 (CallPutLocal dirty abcd StateLocalDirty)].
Definition working : list event :=
  [Event flaky cio_ok 3 3 (CallTransition dirty StatePendingUpload);
   Event cio_ok flaky 4 4 (CallReadVerified clean (Some reject))].
Definition disk1 : cache_dir := foldl apply disk0 filling.
Definition disk2 : cache_dir := foldl apply disk1 working.
Definition seen (d : cache_dir) : metadata := default emptyMetadata (view (meta d)).
Definition entry_of (d : cache_dir) (b : Binding) : Entry :=
  default (mkEntry b StateStale None false 0 0) (Entries (seen d) !! bindingID b).
Definition halves (data : body) : list body := [take 2 data; drop 2 data].

Ltac evaluate := vm_compute; reflexivity.
Ltac ticking := repeat constructor; discriminate.

Lemma cache_seen_view d : bool_decide (is_Some (view (meta d))) = true -> view (meta d) = Some (seen d).
Proof. intros [m H]%bool_decide_eq_true. unfold seen. by rewrite H. Qed.

Lemma first_of {A B} (x : A * B) a : x.1 = a -> x = (a, x.2).
Proof. by destruct x; intros <-. Qed.

Lemma halves_chunking : chunking halves.
Proof. intros data. unfold halves. cbn [mjoin list_join]. by rewrite app_nil_r, take_drop. Qed.

Lemma cache_always_loads_witness : (Open cio_ok "dir" (foldl apply disk0 (filling ++ working))).1 = Ok ().
Proof. apply (cache_always_loads _ disk0 emptyMetadata); [evaluate|ticking|evaluate || discriminate]. Defined.

Lemma verified_clean_provenance_witness :
  clean_in emptyMetadata (entry_of disk1 clean) \/
  exists ev, ev ∈ filling /\ proven (ev_call ev) (entry_of disk1 clean).
Proof.
  apply (verified_clean_provenance (C := DigitDigest.digest_lib) filling disk0 emptyMetadata (seen disk1) (bindingID clean)
    (entry_of disk1 clean));
    [evaluate|ticking|apply cache_seen_view; evaluate|evaluate|evaluate].
Defined.

Lemma referenced_body_survives_witness : blobs disk2 !! blob_name (bindingID clean) = Some abc.
Proof.
  destruct (referenced_body_survives working disk1 (seen disk1) (bindingID clean)) as [E _].
  - apply cache_seen_view. evaluate.
  - exists (entry_of disk1 clean). split; evaluate.
  - repeat constructor; try discriminate; exact id.
  - etransitivity; [exact E|]. evaluate.
Defined.

Lemma open_removes_exactly_orphans_witness :
  exists m, view (meta disk0) = Some m /\ blobs (Open cio_ok "dir" disk0).2 !! "stray.blob" =
    (if orphan_blob m "stray.blob" then None else blobs disk0 !! "stray.blob").
Proof.
  destruct (open_removes_exactly_orphans cio_ok "dir" disk0 (Open cio_ok "dir" disk0).2) as (m & Hv & _ & H).
  - apply first_of. evaluate.
  - exists m. split; [exact Hv|]. exact (H "stray.blob").
Defined.

Lemma read_verified_sound_witness :
  exists m b', view (meta disk1) = Some m /\ vouched m disk1 b' abc (entry_of disk1 clean).
Proof.
  destruct (read_verified_sound (C := DigitDigest.digest_lib) cio_ok cio_ok 5 6 clean (Some accept) disk1 abc (entry_of disk1 clean)
    (ReadVerified cio_ok cio_ok 5 6 clean (Some accept) disk1).2) as (m & b' & vf & v & Hv & _ & H & _).
  - apply first_of. evaluate.
  - exists m, b'. split; [exact Hv|exact H].
Defined.

Lemma failed_put_leaves_entry_without_body_witness :
  exists err d', PutLocal unsynced 3 dirty abcd StateLocalDirty disk0 = (Err err, d') /\
    blobs d' !! blob_name (bindingID dirty') = None.
Proof.
  destruct (failed_put_leaves_entry_without_body (C := DigitDigest.digest_lib) 3 dirty dirty' abcd disk0 emptyMetadata)
    as (err & d' & m' & e & H1 & _ & _ & _ & H2); [evaluate|evaluate|evaluate|discriminate|evaluate|].
  exists err, d'. split; [exact H1|exact H2].
Defined.

Lemma rejected_entry_is_demoted_witness :
  (ReadVerified cio_ok cio_ok 7 8 clean (Some accept)
     (ReadVerified cio_ok cio_ok 5 6 clean (Some reject) disk1).2).1 = Err ErrNotVerified.
Proof.
  destruct (ReadVerified cio_ok cio_ok 5 6 clean (Some reject) disk1) as [[|err] d'] eqn:E.
  - assert (is_ok (ReadVerified cio_ok cio_ok 5 6 clean (Some reject) disk1).1 = false) as H by evaluate.
    rewrite E in H. discriminate H.
  - destruct (rejected_entry_is_demoted (C := DigitDigest.digest_lib) 5 6 clean clean reject disk1 (seen disk1) (entry_of disk1 clean) err d')
      as [_ H]; [apply cache_seen_view; evaluate|evaluate|discriminate|discriminate|evaluate|evaluate|exact E|]. exact (H 7%Z 8%Z accept).
Defined.

Lemma read_range_exact_witness :
  exists m b' full, local_body m disk1 b' (entry_of disk1 dirty') full /\
    bytes "bc" = take 2 (drop 1 full) /\ view (meta disk1) = Some m.
Proof.
  destruct (read_range_exact (C := DigitDigest.digest_lib) cio_ok halves dirty 1 2 10 disk1 (bytes "bc") (entry_of disk1 dirty')
    (ReadLocalRange cio_ok halves dirty 1 2 10 disk1).2 halves_chunking) as (m & b' & full & Hv & _ & H & _ & Eo).
  - reflexivity.
  - reflexivity.
  - apply first_of. evaluate.
  - exists m, b', full. split; [exact H|]. split; [exact Eo|exact Hv].
Defined.

Lemma put_local_round_trip_witness :
  (ReadLocalBounded cio_ok dirty 10 (PutLocal cio_ok 3 dirty abcd StateOfflineOnly disk0).2).1 =
    Ok (abcd, mkEntry dirty' StateOfflineOnly None true 4 3).
Proof.
  destruct (put_local_round_trip (C := DigitDigest.digest_lib) cio_ok 3 dirty abcd StateOfflineOnly disk0
    (mkEntry dirty' StateOfflineOnly None true 4 3)
    (PutLocal cio_ok 3 dirty abcd StateOfflineOnly disk0).2 10) as (H & _);
    [discriminate|vm_compute; discriminate|vm_compute; discriminate|apply first_of; evaluate|exact H].
Defined.
End Witness.
