(* ===== verification/Paths.v ===== *)
(** Paths: the relative-path policy of the UnixFS application model
    (unixfs/model/path.go, unixfs/model/flat.go, unixfs/staged_tree.go) and the
    prefix arithmetic of the staging overlay (filesystem/staging/service.go). *)

From stdpp Require Import base decidable strings list.
From Stdlib Require Import Ascii.
From S2P Require Import Prelude GoText Branch.

Definition ErrReservedPath := ErrorsNew "unixfs path uses a reserved segment".
Definition ErrInvalidPath := ErrorsNew "unixfs path contains an unsupported segment".

(** ** The path policy

    The runes that are refused are ASCII, so in valid UTF-8 the rune loop is a
    loop over bytes. *)
Definition isPortableSegment (segment : string) : bool :=
  negb (bool_decide (segment = EmptyString) || bool_decide (segment = ".") || bool_decide (segment = "..") ||
        negb (ValidString segment)) &&
  forallb (fun a => negb (is_byte 0 a || is_byte 47 a || is_byte 92 a)) (bytes segment).

Definition check_segment (segment : string) : result string :=
  _ ← fail_if (HasPrefix segment "@") (Wrapf "segment" ErrReservedPath);
  _ ← fail_if (negb (isPortableSegment segment)) (Wrapf "segment" ErrInvalidPath);
  Ok segment.

Definition ParsePath (path : string) : result (list string) :=
  if bool_decide (path = EmptyString) then Ok [] else
  _ ← fail_if (HasPrefix path "/" || HasSuffix path "/")
        (Wrapf "path must be relative and must not end with /" ErrInvalidPath);
  mapM check_segment (Split path slash).

Definition ParseFlatPath (path : string) : result (list string) :=
  if bool_decide (path = EmptyString) then Ok [] else
  mapM (fun segment =>
    _ ← fail_if (negb (isPortableSegment segment)) (Wrapf "path" ErrInvalidPath); Ok segment) (Split path slash).

(** The label of a path in the global flat index. *)
Definition FlatPathLabel (path : string) : result string :=
  if bool_decide (path = EmptyString) then Ok "@payload" else
  _ ← ParseFlatPath path;
  Ok (if HasPrefix path "@" then "/" +:+ path else path).

(** U+FEFF. *)
Definition bom : string := byte_str [239; 187; 191].

(** [strings.ReplaceAll(p, "\\", "/")]. *)
Fixpoint slashes (s : string) : string :=
  match s with
  | EmptyString => EmptyString
  | String a s' => String (if is_byte 92 a then slash else a) (slashes s')
  end.

Definition CanonicalStagedPath (raw : string) : string :=
  let p := TrimPrefix (path_Clean ("/" +:+ slashes (TrimSpace raw))) "/" in
  if bool_decide (p = ".") then EmptyString else p.

Definition check_lossless (segment : string) : result string :=
  _ ← fail_if (negb (bool_decide (TrimSpace segment = segment)) || HasPrefix segment bom || HasSuffix segment bom)
        (Wrapf "path segment is not losslessly canonical" ErrInvalidPath);
  Ok segment.

Definition ParseCanonicalStagedPath (raw : string) : result (list string) :=
  segments ← ParsePath raw;
  _ ← mapM check_lossless segments;
  _ ← fail_if (negb (bool_decide (join_slash segments = raw)) || negb (bool_decide (CanonicalStagedPath raw = raw)))
        (Wrapf "path is not in losslessly canonical staging form" ErrInvalidPath);
  Ok segments.

(** ** Prefixes of paths *)
Definition isWithin (value ancestor : string) : bool :=
  bool_decide (ancestor = EmptyString) || bool_decide (value = ancestor) || HasPrefix value (ancestor +:+ "/").
Definition isStrictDescendant (value ancestor : string) : bool :=
  negb (bool_decide (value = ancestor)) && isWithin value ancestor.

Definition joinPath (parent name : string) : string :=
  if bool_decide (parent = EmptyString) then name
  else if bool_decide (name = EmptyString) then parent
  else parent +:+ "/" +:+ name.

Definition replacePrefix (value from to : string) : string :=
  if bool_decide (value = from) then to else joinPath to (TrimPrefix value (from +:+ "/")).

(** [path.Dir] of a canonical relative path: everything before the last slash,
    or the empty path (the code maps ["."] to it). *)
Definition parent_of (canonical : string) : string :=
  match rev (Split canonical slash) with [] => EmptyString | _ :: rest => join_slash (rev rest) end.

(** [strings.Cut(s, "/")], the part before the first slash. *)
Definition cut_slash (s : string) : string :=
  match Split s slash with w :: _ => w | [] => EmptyString end.

(** ** Slash-free names *)
Definition no_slash (s : string) : bool := negb (ContainsByte 47 s).

Lemma bytes_inj s t : bytes s = bytes t -> s = t.
Proof. intros H. apply (f_equal of_bytes) in H. by rewrite !of_bytes_bytes in H. Qed.

Lemma append_empty_r s : s +:+ EmptyString = s.
Proof. induction s as [|a s IH]; [done|]. exact (f_equal (String a) IH). Qed.

Lemma app_split_slash c name a r :
  no_slash name = true ->
  c +:+ "/" +:+ name = a +:+ "/" +:+ r ->
  (c = a /\ name = r) \/ exists t, c = a +:+ "/" +:+ t /\ r = t +:+ "/" +:+ name.
Proof.
  intros Hn H. apply (f_equal bytes) in H. rewrite !bytes_app in H. cbn in H.
  apply app_eq_app in H as [l [[Hc Hr]|[Ha Hname]]].
  - destruct l as [|x l]; cbn in Hr.
    + left. rewrite app_nil_r in Hc. split; apply bytes_inj; [done|]. injection Hr as ->. done.
    + right. injection Hr as <- Hr. exists (of_bytes l). split; apply bytes_inj; rewrite !bytes_app; cbn;
        rewrite bytes_of_bytes; done.
  - destruct l as [|x l]; cbn in Hname.
    + left. rewrite app_nil_r in Ha. split; apply bytes_inj; [done|]. by injection Hname as ->.
    + exfalso. injection Hname as <- Hname. apply (f_equal (existsb (is_byte 47))) in Hname.
      rewrite existsb_app in Hname. cbn in Hname. rewrite orb_true_r in Hname.
      unfold no_slash, ContainsByte in Hn. rewrite Hname in Hn. done.
Qed.

(** ** Prefix arithmetic *)
Lemma isWithin_spec v a :
  isWithin v a = true <-> a = EmptyString \/ v = a \/ exists r, v = a +:+ "/" +:+ r.
Proof.
  unfold isWithin. rewrite !orb_true_iff, !bool_decide_eq_true, HasPrefix_strip.
  assert ((exists r, strip_prefix (a +:+ "/") v = Some r) <-> exists r, v = a +:+ "/" +:+ r) as ->; [|naive_solver].
  split; intros [r H]; exists r.
  - apply strip_prefix_Some in H. by rewrite (assoc_L String.append).
  - apply strip_prefix_Some. by rewrite <- (assoc_L String.append).
Qed.

(** Paths that do not end in a slash. *)
Definition untailed (p : string) : Prop := forall a, p <> a +:+ "/".

Lemma tail_cases (r : string) : r = EmptyString \/ exists b x, r = b +:+ String x EmptyString.
Proof.
  induction r as [|a r IH]; [by left|]. right. destruct IH as [->|(b & x & ->)].
  - by exists EmptyString, a.
  - by exists (String a b), x.
Qed.

Lemma append_last_inj a b x y : a +:+ String x EmptyString = b +:+ String y EmptyString -> a = b /\ x = y.
Proof.
  intros H. apply (f_equal bytes) in H. rewrite !bytes_app in H. cbn in H. apply app_inj_tail in H as [H ->].
  split; [by apply bytes_inj|done].
Qed.

(** Only the last part of a joined path decides whether it ends in a slash. *)
Lemma untailed_app a r : r <> EmptyString -> untailed (a +:+ r) <-> untailed r.
Proof.
  intros Hr. destruct (tail_cases r) as [->|(b & x & ->)]; [done|]. unfold untailed. split; intros H c E.
  - apply (H (a +:+ c)). rewrite E. by rewrite (assoc_L String.append).
  - rewrite (assoc_L String.append) in E. apply append_last_inj in E as [_ ->]. by apply (H b).
Qed.

Lemma untailed_empty : untailed EmptyString.
Proof. intros a H. by destruct a. Qed.

Lemma no_slash_untailed s : no_slash s = true -> untailed s.
Proof.
  intros H a ->. unfold no_slash, ContainsByte in H. rewrite bytes_app, existsb_app in H. cbn in H.
  by rewrite orb_true_r in H.
Qed.

Lemma untailed_below v a r : untailed v -> v = a +:+ "/" +:+ r -> r <> EmptyString /\ untailed r.
Proof.
  intros Hv ->. assert (r <> EmptyString) as Hr by (intros ->; by apply (Hv a)). split; [done|].
  rewrite (assoc_L String.append) in Hv. by apply untailed_app in Hv.
Qed.

Lemma joinPath_below p r : p <> EmptyString -> r <> EmptyString -> joinPath p r = p +:+ "/" +:+ r.
Proof. intros H1 H2. unfold joinPath. by rewrite !bool_decide_eq_false_2. Qed.

Lemma slash_longer a r : a +:+ "/" +:+ r <> a.
Proof.
  intros H. apply (f_equal (fun s => length (bytes s))) in H. rewrite !bytes_app, !length_app in H. cbn in H. lia.
Qed.

Lemma replacePrefix_same from to : replacePrefix from from to = to.
Proof. unfold replacePrefix. by rewrite bool_decide_eq_true_2. Qed.

Lemma replacePrefix_below from to r :
  to <> EmptyString -> r <> EmptyString -> replacePrefix (from +:+ "/" +:+ r) from to = to +:+ "/" +:+ r.
Proof.
  intros Ht Hr. unfold replacePrefix. rewrite bool_decide_eq_false_2 by apply slash_longer.
  rewrite (assoc_L String.append), TrimPrefix_app. by apply joinPath_below.
Qed.

(** Moving a path from below one directory to below another and back. *)
Lemma replacePrefix_round v from to :
  untailed v -> from <> EmptyString -> to <> EmptyString -> isWithin v from = true ->
  isWithin (replacePrefix v from to) to = true /\ replacePrefix (replacePrefix v from to) to from = v.
Proof.
  intros Hv Hf Ht [->|[->|[r Hr]]]%isWithin_spec; [done| |].
  - rewrite replacePrefix_same, replacePrefix_same. split; [|done]. apply isWithin_spec. auto.
  - destruct (untailed_below _ _ _ Hv Hr) as [Hne _]. subst v. rewrite !replacePrefix_below by done.
    split; [|done]. apply isWithin_spec. eauto.
Qed.

Lemma replacePrefix_untailed v from to :
  untailed v -> from <> EmptyString -> to <> EmptyString -> untailed to -> isWithin v from = true ->
  untailed (replacePrefix v from to) /\ replacePrefix v from to <> EmptyString.
Proof.
  intros Hv Hf Ht Hut [->|[->|[r Hr]]]%isWithin_spec; [done| |].
  - by rewrite replacePrefix_same.
  - destruct (untailed_below _ _ _ Hv Hr) as [Hne Hu]. subst v. rewrite replacePrefix_below by done.
    rewrite (assoc_L String.append). split; [by apply untailed_app|]. by destruct to.
Qed.

(** ** Children *)
Definition child_name (name : string) : Prop := name <> EmptyString /\ no_slash name = true.

Lemma joinPath_child c name : child_name name -> joinPath c name <> EmptyString /\ untailed (joinPath c name).
Proof.
  intros [Hn Hs]. unfold joinPath. case_bool_decide; [by split; [|apply no_slash_untailed]|].
  rewrite bool_decide_eq_false_2 by done. split; [by destruct c|].
  rewrite (assoc_L String.append). apply untailed_app; [done|]. by apply no_slash_untailed.
Qed.

Lemma no_slash_app a r : no_slash (a +:+ "/" +:+ r) = false.
Proof. unfold no_slash, ContainsByte. rewrite !bytes_app, !existsb_app. cbn. by rewrite orb_true_r. Qed.

(** A child is within a path when it is that path or its directory is. *)
Lemma within_child c name a :
  child_name name -> a <> EmptyString ->
  isWithin (joinPath c name) a = true <-> joinPath c name = a \/ isWithin c a = true.
Proof.
  intros [Hn Hs] Ha. rewrite !isWithin_spec. unfold joinPath. case_bool_decide as Ec.
  - subst c. split.
    + intros [?|[?|[r Hr]]]; [done|by left|]. subst name. by rewrite no_slash_app in Hs.
    + intros [?|[?|[?|[r Hr]]]]; auto. by destruct a.
  - rewrite bool_decide_eq_false_2 by done. split.
    + intros [?|[?|[r Hr]]]; [done|by left|]. right.
      destruct (app_split_slash _ _ _ _ Hs Hr) as [[-> ->]|(t & -> & ->)]; [auto|eauto].
    + intros [?|[?|[?|[r Hr]]]]; [auto|done| |].
      * subst c. eauto.
      * subst c. right. right. exists (r +:+ "/" +:+ name). by rewrite !(assoc_L String.append).
Qed.

Lemma replacePrefix_child c name from to :
  child_name name -> untailed c -> from <> EmptyString -> to <> EmptyString -> isWithin c from = true ->
  replacePrefix (joinPath c name) from to = joinPath (replacePrefix c from to) name.
Proof.
  intros [Hn Hs] Hc Hf Ht [->|[->|[r Hr]]]%isWithin_spec; [done| |].
  - rewrite (joinPath_below from name) by done. rewrite replacePrefix_below by done.
    by rewrite replacePrefix_same, joinPath_below.
  - destruct (untailed_below _ _ _ Hc Hr) as [Hne _]. subst c.
    assert (from +:+ "/" +:+ r <> EmptyString) as Hne2 by by destruct from.
    rewrite joinPath_below by done. rewrite replacePrefix_below by done.
    rewrite (joinPath_below (to +:+ "/" +:+ r)) by (by destruct to || done).
    rewrite <- !(assoc_L String.append). rewrite replacePrefix_below; [done|done|by destruct r].
Qed.

Lemma joinPath_child_inj c c' name name' :
  child_name name -> child_name name' -> joinPath c name = joinPath c' name' -> c = c' /\ name = name'.
Proof.
  intros [Hn Hs] [Hn' Hs']. unfold joinPath. rewrite (bool_decide_eq_false_2 (name = _)), (bool_decide_eq_false_2 (name' = _)) by done.
  repeat case_bool_decide; subst; intros E.
  - done.
  - subst name. by rewrite no_slash_app in Hs.
  - subst name'. by rewrite no_slash_app in Hs'.
  - destruct (app_split_slash _ _ _ _ Hs E) as [?|(t & -> & ->)]; [done|]. by rewrite no_slash_app in Hs'.
Qed.

Lemma joinPath_longer c name : child_name name -> joinPath c name <> c.
Proof.
  intros [Hn _]. unfold joinPath. case_bool_decide; [by subst|]. rewrite bool_decide_eq_false_2 by done. apply slash_longer.
Qed.

(** ** Splitting at slashes *)
Lemma join_cons w l : l <> [] -> join_slash (w :: l) = w +:+ String slash (join_slash l).
Proof. by destruct l. Qed.

Lemma Split_cons a s : Split (String a s) slash =
  if ascii_dec a slash then EmptyString :: Split s slash
  else match Split s slash with [] => [String a EmptyString] | w :: ws => String a w :: ws end.
Proof. done. Qed.

Lemma join_Split s : join_slash (Split s slash) = s.
Proof.
  induction s as [|a s IH]; [done|]. rewrite Split_cons. pose proof (Split_nonempty s slash) as Hne.
  destruct (ascii_dec a slash) as [->|Hd].
  - rewrite join_cons by done. by rewrite IH.
  - destruct (Split s slash) as [|w [|w' ws]]; [done| |]; cbn in *; by rewrite <- IH.
Qed.

Lemma Split_no_slash s : no_slash s = true -> Split s slash = [s].
Proof.
  unfold no_slash, ContainsByte. induction s as [|a s IH]; [done|]. rewrite Split_cons. cbn.
  rewrite negb_orb. intros [Ha Hs]%andb_true_iff. unfold bytes in *. rewrite (IH Hs).
  destruct (ascii_dec a slash) as [->|]; done.
Qed.

Lemma Split_app_slash c name :
  no_slash name = true -> Split (c +:+ "/" +:+ name) slash = Split c slash ++ [name].
Proof.
  intros Hn. induction c as [|a c IH].
  - change (EmptyString +:+ "/" +:+ name) with (String slash name). rewrite Split_cons.
    destruct (ascii_dec slash slash); [|done]. by rewrite Split_no_slash.
  - change (String a c +:+ "/" +:+ name) with (String a (c +:+ "/" +:+ name)). rewrite !Split_cons, IH.
    destruct (ascii_dec a slash); [done|]. pose proof (Split_nonempty c slash). by destruct (Split c slash).
Qed.

Lemma parent_of_child c name : child_name name -> parent_of (joinPath c name) = c.
Proof.
  intros [Hn Hs]. unfold parent_of, joinPath. case_bool_decide; [subst; by rewrite Split_no_slash|].
  rewrite bool_decide_eq_false_2 by done. rewrite Split_app_slash by done.
  rewrite rev_app_distr. cbn [rev app]. rewrite rev_involutive. apply join_Split.
Qed.

Lemma Split_elem s w : w ∈ Split s slash -> no_slash w = true.
Proof.
  revert w. induction s as [|a s IH]; intros w.
  { by intros ->%list_elem_of_singleton. }
  rewrite Split_cons. destruct (ascii_dec a slash) as [->|Hd].
  - intros [->|H]%elem_of_cons; [done|by apply IH].
  - pose proof (Split_nonempty s slash). destruct (Split s slash) as [|w0 ws]; [done|].
    intros [->|Hw]%elem_of_cons; [|apply IH; by right].
    unfold no_slash, ContainsByte. change (bytes (String a w0)) with (a :: bytes w0). cbn [existsb].
    rewrite negb_orb. apply andb_true_iff. split.
    + unfold is_byte. apply negb_true_iff, N.eqb_neq. intros E. apply Hd.
      rewrite <- (ascii_N_embedding a), E. done.
    + apply (IH w0). by left.
Qed.

Lemma cut_slash_no_slash s : no_slash (cut_slash s) = true.
Proof.
  unfold cut_slash. destruct (Split s slash) as [|w ws] eqn:E; [done|]. apply (Split_elem s). rewrite E. by left.
Qed.

Lemma cut_slash_child name : no_slash name = true -> cut_slash name = name.
Proof. intros H. unfold cut_slash. by rewrite Split_no_slash. Qed.

(** ** Cleaned paths *)
Lemma join_slash_untailed l : Forall child_name l -> untailed (join_slash l).
Proof.
  induction 1 as [|w l [Hw Hs] Hl IH]; [apply untailed_empty|]. destruct l as [|w' l]; [by apply no_slash_untailed|].
  rewrite join_cons by done. change (w +:+ String slash (join_slash (w' :: l))) with (w +:+ "/" +:+ join_slash (w' :: l)).
  rewrite (assoc_L String.append). apply untailed_app; [|done].
  apply Forall_cons in Hl as [[Hw' _] _]. destruct l; cbn; [done|]. by destruct w'.
Qed.

Lemma clean_step_names rooted stack elem :
  Forall child_name stack -> no_slash elem = true -> Forall child_name (clean_step rooted stack elem).
Proof.
  intros Hs He. unfold clean_step. repeat case_bool_decide; cbn [orb]; try done.
  - destruct stack as [|top rest]; [by destruct rooted; repeat constructor; subst|].
    case_bool_decide; [by constructor; subst|]. by apply Forall_cons in Hs as [_ Hs].
  - by constructor.
Qed.

Lemma path_Clean_untailed p : HasPrefix p "/" = false -> path_Clean p = p -> untailed p.
Proof.
  intros Hr. unfold path_Clean. rewrite Hr. case_bool_decide as H0; [by intros <-|]. cbv zeta.
  set (out := join_slash _). assert (untailed out) as Hout.
  { apply join_slash_untailed, Forall_rev.
    assert (forall l stack, Forall (fun w => no_slash w = true) l -> Forall child_name stack ->
      Forall child_name (foldl (clean_step false) stack l)) as Hfold.
    { induction l as [|w l IH]; intros stack Hl Hs; cbn; [done|]. apply Forall_cons in Hl as [Hw Hl].
      apply IH; [done|]. by apply clean_step_names. }
    apply Hfold; [|constructor]. apply Forall_forall. intros w Hw. by eapply Split_elem. }
  clearbody out. case_bool_decide; [|by intros <-]. intros <-. by apply no_slash_untailed.
Qed.

(** ** Trimmed paths *)
Lemma TrimSpace_no_space w :
  TrimSpace w = w ->
  starts_space space2 space3 (bytes w) = false /\
  starts_space (fun b a => space2 a b) (fun c b a => space3 a b c) (rev (bytes w)) = false.
Proof.
  intros H. unfold TrimSpace in H. apply (f_equal bytes) in H. rewrite bytes_of_bytes in H.
  destruct (drop_space_spec space2 space3 (bytes w)) as [Hl [p Hp]].
  destruct (trim_right_prefix (trim_left (bytes w))) as [t Ht].
  assert (p = [] /\ t = []) as [-> ->].
  { assert (length (bytes w) = length p + (length (bytes w) + length t)) as Hlen.
    { rewrite Hp at 1. rewrite length_app. f_equal. change (drop_space space2 space3 (bytes w)) with (trim_left (bytes w)).
      rewrite Ht at 1. by rewrite length_app, H. }
    split; apply length_zero_iff_nil; lia. }
  cbn in Hp. rewrite <- Hp in Hl. split; [done|].
  unfold trim_left in H. rewrite <- Hp in H. unfold trim_right in H. rewrite <- H at 1. rewrite rev_involutive.
  apply drop_space_spec.
Qed.

Lemma no_space_trimmed w :
  starts_space space2 space3 (bytes w) = false ->
  starts_space (fun b a => space2 a b) (fun c b a => space3 a b c) (rev (bytes w)) = false -> TrimSpace w = w.
Proof.
  intros H1 H2. unfold TrimSpace, trim_left, trim_right. rewrite (drop_space_id space2 space3) by done.
  rewrite drop_space_id by done. by rewrite rev_involutive, of_bytes_bytes.
Qed.

(** A slash ends a multi-byte blank. *)
Lemma starts_space_slash s2 s3 l r :
  (forall a, s2 a slash = false) -> (forall a c, s3 a slash c = false) -> (forall a b, s3 a b slash = false) ->
  l <> [] -> starts_space s2 s3 l = false -> starts_space s2 s3 (l ++ slash :: r) = false.
Proof.
  intros H2 H3 H4 Hne Hs. destruct l as [|a [|b [|c l]]]; [done| | |done]; cbn in *; rewrite ?H2, ?H3, ?H4.
  - rewrite orb_false_r in Hs. rewrite Hs. destruct r; [done|]. by rewrite H3.
  - apply orb_false_iff in Hs as [-> Hs]. by rewrite orb_false_r in *.
Qed.

Lemma join_snoc l w : l <> [] -> join_slash (l ++ [w]) = join_slash l +:+ String slash w.
Proof.
  induction l as [|v l IH]; [done|]. intros _. destruct l as [|v' l]; [done|].
  cbn [app]. rewrite !join_cons by done. cbn [app] in IH. rewrite IH by done.
  change (String slash (join_slash (v' :: l) +:+ String slash w)) with (String slash (join_slash (v' :: l)) +:+ String slash w).
  by rewrite (assoc_L String.append).
Qed.

Lemma bytes_nonempty w : w <> EmptyString -> bytes w <> [].
Proof. by destruct w. Qed.

(** A path of trimmed segments is trimmed. *)
Lemma join_trimmed l : Forall (fun w => w <> EmptyString /\ TrimSpace w = w) l -> TrimSpace (join_slash l) = join_slash l.
Proof.
  intros Hl. destruct l as [|w l]; [done|]. apply no_space_trimmed.
  - apply Forall_cons in Hl as [[Hne Hw] Hl]. apply TrimSpace_no_space in Hw as [Hw _].
    destruct l as [|w' l]; [done|]. rewrite join_cons by done. rewrite bytes_app.
    change (bytes (String slash ?x)) with (slash :: bytes x).
    apply starts_space_slash; [| | |by apply bytes_nonempty|done]; intros; unfold space2, space3; cbn; by rewrite ?andb_false_r.
  - destruct (@exists_last _ (w :: l)) as (l' & v & E); [done|]. rewrite E in *.
    apply Forall_app in Hl as [_ [[Hne Hv] _]%Forall_cons]. apply TrimSpace_no_space in Hv as [_ Hv].
    destruct l' as [|v' l']; [done|]. rewrite join_snoc by done. rewrite bytes_app, rev_app_distr.
    change (bytes (String slash v)) with (slash :: bytes v). cbn [rev]. rewrite <- (assoc_L (++)).
    apply starts_space_slash; [| | | |done]; intros; unfold space2, space3; cbn; rewrite ?andb_false_r; try done.
    intros Hr. apply (f_equal (@rev ascii)) in Hr. rewrite rev_involutive in Hr. by apply bytes_nonempty in Hr.
Qed.

Lemma isPortableSegment_child w : isPortableSegment w = true -> child_name w.
Proof.
  unfold isPortableSegment. intros [H1 H2]%andb_true_iff. apply negb_true_iff in H1. simplify_guards. split; [done|].
  unfold no_slash, ContainsByte. apply negb_true_iff. apply not_true_is_false. intros (a & Ha & Hb)%existsb_exists.
  rewrite forallb_forall in H2. specialize (H2 a Ha). rewrite Hb in H2. by rewrite orb_true_r in H2.
Qed.

(** What the staging path parser accepts. *)
Lemma ParseCanonicalStagedPath_spec raw segs :
  ParseCanonicalStagedPath raw = Ok segs ->
  join_slash segs = raw /\ TrimSpace raw = raw /\ Forall child_name segs /\ untailed raw.
Proof.
  unfold ParseCanonicalStagedPath. intros H. simplify_result. simplify_guards. subst raw.
  match goal with H : ParsePath _ = Ok _ |- _ => rename H into Hp end.
  match goal with H : mapM check_lossless _ = Ok _ |- _ => rename H into Hl end.
  assert (Forall (fun w => child_name w /\ TrimSpace w = w) segs) as Hsegs.
  { apply Forall_forall. intros w Hw. split.
    - unfold ParsePath in Hp. case_bool_decide; simplify_result; [by apply elem_of_nil in Hw|].
      match goal with H : mapM check_segment _ = Ok _ |- _ => destruct (mapM_elem _ _ _ _ H Hw) as (w0 & _ & Hc) end.
      unfold check_segment in Hc. simplify_result. simplify_guards. by apply isPortableSegment_child.
    - apply mapM_Forall2 in Hl. apply list_elem_of_lookup in Hw as [i Hi].
      destruct (Forall2_lookup_l _ _ _ _ _ Hl Hi) as (w0 & _ & Hc). unfold check_lossless in Hc. simplify_result.
      by simplify_guards. }
  split_and!; [done| | |].
  - apply join_trimmed. eapply Forall_impl; [exact Hsegs|]. intros w [[? _] ?]. done.
  - eapply Forall_impl; [exact Hsegs|]. by intros w [? _].
  - apply join_slash_untailed. eapply Forall_impl; [exact Hsegs|]. by intros w [? _].
Qed.
