(* ===== verification/Staging.v ===== *)
(** The staging filesystem (filesystem/staging/service.go, upload.go): local
    mutations of an immutable verified tree, recorded as journal operations over
    cached bodies and replayed on every read.

    The state of a service is the cache directory, the journal file and the
    number of calls into the two stores so far; the environment says, for every
    one of those calls, which system calls fail, what the clock reads, which
    random identifiers are drawn and whether the context was cancelled. *)

From stdpp Require Import base decidable gmap strings list.
From Stdlib Require Import Ascii ZArith.
From S2P Require Import Prelude GoText CidLib Durable Journal Cache Paths.

Definition LocalFsyncProfile : string := "malt.local-journal-fsync/v1".
Definition DefaultMaxStagedFileBytes : N := 256 * 2 ^ 20.

Definition ErrAlreadyExists := ErrorsNew "filesystem path already exists".
Definition ErrNotEmpty := ErrorsNew "filesystem directory is not empty".
Definition ErrClosed := ErrorsNew "staged filesystem handle is closed".
Definition ErrServiceClosed := ErrorsNew "filesystem staging service is closed".
Definition ErrFileTooLarge := ErrBodyTooLarge.
Definition ErrNoPendingUpload := ErrorsNew "filesystem staging has no pending upload".
Definition ErrUploadConflict := ErrorsNew "filesystem staging contains an unresolved conflict".
Definition ErrUploadBatch := ErrorsNew "filesystem staging upload batch is stale or invalid".
(** unixfs/verified_facade.go *)
Definition ErrPathNotFound := ErrorsNew "unixfs path not found".
Definition ErrNotDirectory := ErrorsNew "unixfs path is not a directory".
Definition ErrNotFile := ErrorsNew "unixfs path is not a file".

Definition StagedKindDirectory : string := "dir".
Definition StagedKindFile : string := "file".

(** ** The verified base *)
Record View {L : CidLib} := mkView {
  v_DatasetID : string; v_Branch : string; v_Root : option Cid; v_Revision : N; v_EncryptionEpoch : N
}.
#[global] Arguments mkView {L} v_DatasetID v_Branch v_Root v_Revision v_EncryptionEpoch.

Record Info {L : CidLib} := mkInfo {
  i_Path : string; i_Name : string; i_Kind : string; i_NodeRoot : option Cid; i_Payload : option Cid;
  i_StorageKind : string; i_Size : N
}.
#[global] Arguments mkInfo {L} i_Path i_Name i_Kind i_NodeRoot i_Payload i_StorageKind i_Size.

Definition IsDir {L : CidLib} (i : Info) : bool := bool_decide (i_Kind i = StagedKindDirectory).

Record DirEntry := mkDirEntry { de_Name : string; de_Kind : string }.

(** The interface [Base]: reads of the immutable tree below the overlay. *)
Class Base {L : CidLib} := {
  base_Stat : View -> string -> result Info;
  base_ReadDir : View -> string -> result (list DirEntry);
  base_ReadFileRange : View -> string -> N -> N -> result (body * Info)
}.

(** The raw CID of a body (go-multihash and go-cid), and the truncated digest
    of a transaction (crypto/sha256, encoding/hex). *)
Class StageLib {L : CidLib} := {
  raw_Sum : body -> option Cid;
  transaction_digest : list ascii -> string
}.

(** Documented behaviour: the raw CID of a body is the CID that its own prefix
    computes for it. *)
Class StageLaws {L : CidLib} (S : StageLib) : Prop := {
  raw_Sum_Sum : forall data c, raw_Sum data = Some c -> cid_Sum c data = Some c
}.

(** ** Paths *)
Definition canonicalPath (raw : string) (allowRoot : bool) : result string :=
  if bool_decide (raw = EmptyString) && allowRoot then Ok EmptyString else
  segments ← ParseCanonicalStagedPath raw;
  _ ← fail_if (bool_decide (segments = [])) (Errorf "filesystem staging path must not be root");
  Ok (join_slash segments).

(** [path.Base] of a canonical path. *)
Definition base_name (canonical : string) : string := List.last (Split canonical slash) EmptyString.

Definition validateIdentity (value : string) : result unit :=
  fail_if (bool_decide (value = EmptyString) || negb (bool_decide (TrimSpace value = value)) ||
           negb (ValidString value) || ContainsNUL value)
    (Errorf "filesystem staging View identity is empty or not canonical UTF-8").

Definition initialStatus (offline : bool) : Status := if offline then StatusOfflineOnly else StatusLocalDirty.
Definition cacheState (offline : bool) : State := if offline then StateOfflineOnly else StateLocalDirty.

Definition isLocalState (state : State) : bool :=
  match state with
  | StateLocalDirty | StateOfflineOnly | StatePendingUpload | StateCandidate | StateConflicted => true
  | _ => false
  end.

(** The bytes of a file after a write at an offset: zeros fill a gap. *)
Definition write_at (old : body) (offset : nat) (data : body) : body :=
  let end_ := offset + length data in
  let padded := old ++ replicate (end_ - length old) Ascii.zero in
  take offset padded ++ data ++ drop end_ padded.

(** [make([]byte, size)] and [copy]. *)
Definition resize (old : body) (size : nat) : body :=
  take size old ++ replicate (size - length old) Ascii.zero.

(** Where a path of before [operations] is after them. *)
Fixpoint forwardPath (value : string) (operations : list Operation) : option string :=
  match operations with
  | [] => Some value
  | operation :: rest =>
      let i := op_Intent operation in
      match IntentKind i with
      | KindUnlink => if isWithin value (Path i) then None else forwardPath value rest
      | KindWrite => if isStrictDescendant value (Path i) then None else forwardPath value rest
      | KindRename =>
          if isWithin value (Path i) then forwardPath (replacePrefix value (Path i) (Destination i)) rest
          else if isWithin value (Destination i) then None
          else forwardPath value rest
      | _ => forwardPath value rest
      end
  end.

(** The name that [value] adds to the listing of [parent]. *)
Definition immediateCandidate (parent value : string) : option string :=
  if bool_decide (value = parent) || negb (isWithin value parent) then None else
  let relative := if bool_decide (parent = EmptyString) then value else TrimPrefix value (parent +:+ "/") in
  let name := cut_slash relative in
  if bool_decide (name = EmptyString) then None else Some name.

Definition addImmediateCandidate (candidates : gset string) (parent value : string) : gset string :=
  match immediateCandidate parent value with Some name => {[name]} ∪ candidates | None => candidates end.

Section Staging.
Context {L : CidLib} {C : CacheLib} {B : Base} {SL : StageLib}.

Definition validateView (view : View) : result unit :=
  _ ← validateIdentity (v_DatasetID view);
  _ ← validateIdentity (v_Branch view);
  match v_Root view with
  | Some _ => Ok ()
  | None => Err (Errorf "filesystem staging View is incomplete")
  end.

Definition root_text (view : View) : string :=
  match v_Root view with Some c => cid_String c | None => EmptyString end.

Definition rawCID (data : body) : result Cid := or_err (raw_Sum data) (Errorf "multihash sum").

Definition bindingFor (view : View) (payload : Cid) : Binding :=
  mkBinding (v_DatasetID view) (v_Branch view) (v_Root view) (v_Revision view) (Some payload) (v_EncryptionEpoch view).

Definition bindingFromOperation (operation : Operation) : Binding :=
  let i := op_Intent operation in
  mkBinding (DatasetID i) (Branch i) (cid_Parse (BaseRoot i)) (BaseRevision i) (cid_Parse (PayloadCID i))
    (EncryptionEpoch i).

Definition localInfo (canonical kind : string) (payload : option Cid) (size : N) : Info :=
  mkInfo canonical (if bool_decide (canonical = EmptyString) then EmptyString else base_name canonical)
    kind None payload "raw" size.

(** ** The environment and the monad of the service *)
Record env := mkEnv {
  en_cache : nat -> cache_io;
  en_journal : nat -> io;
  en_now : nat -> time;
  en_random : nat -> option string * option string;
  en_cancelled : nat -> option error;
  (** How the range reader cuts a body into chunks, and the order in which the
      runtime visits a map. *)
  en_split : body -> list body;
  en_order : list (Binding * State) -> list (Binding * State)
}.

Record world := mkWorld { w_cache : cache_dir; w_journal : journal_file; w_tick : nat }.

Definition M (A : Type) : Type := world -> result A * world.

#[global] Instance M_ret : MRet M := fun A a w => (Ok a, w).
#[global] Instance M_bind : MBind M := fun A B f m w =>
  match m w with (Ok a, w') => f a w' | (Err e, w') => (Err e, w') end.

Definition lift {A} (r : result A) : M A := fun w => (r, w).
(** The error of a call as a value. *)
Definition try {A} (m : M A) : M (result A) := fun w => let '(r, w') := m w in (Ok r, w').

Context (E : env).

Definition cache_call {A} (op : cache_io -> time -> cache_dir -> result A * cache_dir) : M A := fun w =>
  let t := w_tick w in
  let '(r, d) := op (en_cache E t) (en_now E t) (w_cache w) in (r, mkWorld d (w_journal w) (S t)).
Definition journal_call {A} (op : io -> time -> journal_file -> result A * journal_file) : M A := fun w =>
  let t := w_tick w in
  let '(r, f) := op (en_journal E t) (en_now E t) (w_journal w) in (r, mkWorld (w_cache w) f (S t)).
Definition ctx_Err : M unit := fun w =>
  (match en_cancelled E (w_tick w) with Some e => Err e | None => Ok () end,
   mkWorld (w_cache w) (w_journal w) (S (w_tick w))).
Definition draw : M (option string * option string) := fun w =>
  (Ok (en_random E (w_tick w)), mkWorld (w_cache w) (w_journal w) (S (w_tick w))).

(** ** The service *)
Record service := mkService { sv_maxFile : N; sv_closed : bool; sv_release : list string }.

Definition stagedFileLimit (s : service) : N :=
  if negb (bool_decide (sv_maxFile s = 0%N)) then sv_maxFile s else DefaultMaxStagedFileBytes.

Definition requireStagedSize (s : service) (size : N) : result unit :=
  fail_if (stagedFileLimit s <? size)%N (Wrapf "size" ErrFileTooLarge).

Definition enter {A} (s : service) (m : M A) : M A :=
  if sv_closed s then lift (Err ErrServiceClosed) else m.

(** The operations of a view, in replay order. *)
Definition in_view (view : View) (operation : Operation) : bool :=
  let i := op_Intent operation in
  negb (bool_decide (op_Status operation = StatusSuperseded) ||
        negb (bool_decide (DatasetID i = v_DatasetID view)) || negb (bool_decide (Branch i = v_Branch view)) ||
        negb (bool_decide (BaseRoot i = root_text view)) || negb (bool_decide (BaseRevision i = v_Revision view)) ||
        negb (bool_decide (EncryptionEpoch i = v_EncryptionEpoch view))).

Definition operations (view : View) : M (list Operation) :=
  _ ← lift (validateView view);
  all ← journal_call (fun w _ f => Journal.List_all w f);
  mret (by_sequence (filter (fun op => in_view view op = true) all)).

Definition VerifyLocal (s : service) (b : Binding) : M Entry :=
  cache_call (fun w _ d => Cache.VerifyLocal w b (stagedFileLimit s) d).
Definition ReadLocalBounded (s : service) (b : Binding) : M (body * Entry) :=
  cache_call (fun w _ d => Cache.ReadLocalBounded w b (stagedFileLimit s) d).

Definition zeroBinding : Binding := mkBinding EmptyString EmptyString None 0 None 0.

Record resolvedNode := mkResolved {
  rn_info : Info; rn_local : bool; rn_remotePath : string; rn_binding : Binding; rn_createdAt : nat
}.

(** The loop of [resolveAt] over the operations before [limit], latest first;
    [canonical] is the requested path, [mapped] the path it had then. *)
Fixpoint resolve_loop (s : service) (view : View) (canonical mapped : string) (latest_first : list Operation)
    : M resolvedNode :=
  match latest_first with
  | [] =>
      info ← lift (base_Stat view mapped);
      let info := mkInfo canonical (if bool_decide (canonical = EmptyString) then EmptyString else base_name canonical)
                    (i_Kind info) (i_NodeRoot info) (i_Payload info) (i_StorageKind info) (i_Size info) in
      mret (mkResolved info false mapped zeroBinding 0)
  | operation :: rest =>
      let i := op_Intent operation in
      match IntentKind i with
      | KindWrite =>
          if bool_decide (mapped = Path i) then
            let binding := bindingFromOperation operation in
            entry ← VerifyLocal s binding;
            mret (mkResolved (localInfo canonical StagedKindFile (b_CID binding) (Z.to_N (e_Size entry)))
                    true EmptyString binding 0)
          else if isStrictDescendant mapped (Path i) then lift (Err ErrNotDirectory)
          else resolve_loop s view canonical mapped rest
      | KindMkdir =>
          if bool_decide (mapped = Path i) then
            mret (mkResolved (localInfo canonical StagedKindDirectory None 0) true EmptyString zeroBinding (S (length rest)))
          else if isStrictDescendant mapped (Path i) then lift (Err ErrPathNotFound)
          else resolve_loop s view canonical mapped rest
      | KindUnlink =>
          if isWithin mapped (Path i) then lift (Err ErrPathNotFound)
          else resolve_loop s view canonical mapped rest
      | KindRename =>
          if isWithin mapped (Destination i)
          then resolve_loop s view canonical (replacePrefix mapped (Destination i) (Path i)) rest
          else if isWithin mapped (Path i) then lift (Err ErrPathNotFound)
          else resolve_loop s view canonical mapped rest
      | KindOther _ => resolve_loop s view canonical mapped rest
      end
  end.

Definition resolveAt (s : service) (view : View) (ops : list Operation) (limit : nat) (canonical : string)
    : M resolvedNode :=
  _ ← ctx_Err;
  resolve_loop s view canonical canonical (rev (take limit ops)).

Definition statAt (s : service) (view : View) (ops : list Operation) (limit : nat) (canonical : string) : M Info :=
  resolved ← resolveAt s view ops limit canonical;
  mret (rn_info resolved).

(** ** Directories *)

(** The path that an operation creates. *)
Definition target_of (operation : Operation) : option string :=
  let i := op_Intent operation in
  match IntentKind i with
  | KindWrite | KindMkdir => Some (Path i)
  | KindRename => Some (Destination i)
  | _ => None
  end.

Definition add_forward (canonical : string) (candidates : gset string) (path : string) (later : list Operation)
    : gset string :=
  match forwardPath path later with
  | Some current => addImmediateCandidate candidates canonical current
  | None => candidates
  end.

Fixpoint local_candidates (canonical : string) (candidates : gset string) (ops : list Operation) : gset string :=
  match ops with
  | [] => candidates
  | operation :: later =>
      local_candidates canonical
        (match target_of operation with
         | Some target => add_forward canonical candidates target later
         | None => candidates
         end) later
  end.

Definition base_candidates (canonical remotePath : string) (entries : list DirEntry) (ops : list Operation) : gset string :=
  foldl (fun acc entry => add_forward canonical acc (joinPath remotePath (de_Name entry)) ops) ∅ entries.

(** The entries of the candidates that exist. *)
Fixpoint list_names (s : service) (view : View) (ops : list Operation) (canonical : string) (names : list string)
    : M (list DirEntry) :=
  match names with
  | [] => mret []
  | name :: rest =>
      info ← try (statAt s view ops (length ops) (joinPath canonical name));
      match info with
      | Ok info =>
          entries ← list_names s view ops canonical rest;
          mret (mkDirEntry name (i_Kind info) :: entries)
      | Err e =>
          if errors_Is e ErrPathNotFound then list_names s view ops canonical rest else lift (Err e)
      end
  end.

Definition readDirAt (s : service) (view : View) (ops : list Operation) (canonical : string) : M (list DirEntry) :=
  resolved ← resolveAt s view ops (length ops) canonical;
  _ ← lift (fail_if (negb (IsDir (rn_info resolved))) ErrNotDirectory);
  candidates ← (if rn_local resolved then mret ∅ else
                entries ← lift (base_ReadDir view (rn_remotePath resolved));
                mret (base_candidates canonical (rn_remotePath resolved) entries ops));
  let candidates := local_candidates canonical candidates (drop (rn_createdAt resolved) ops) in
  list_names s view ops canonical (sort_by_string id (elements candidates)).

Definition requireParentDirectory (s : service) (view : View) (ops : list Operation) (canonical : string) : M unit :=
  info ← statAt s view ops (length ops) (parent_of canonical);
  lift (fail_if (negb (IsDir info)) ErrNotDirectory).

(** ** Bodies *)
Definition PutLocal (b : Binding) (data : body) (st : State) : M Entry :=
  cache_call (fun w now d => Cache.PutLocal w now b data st d).

Definition ensureLocalBody (s : service) (b : Binding) (data : body) (offline : bool) : M unit :=
  entry ← try (cache_call (fun w _ d => Cache.Inspect w b d));
  match entry with
  | Err e =>
      if errors_Is e ErrMiss then _ ← PutLocal b data (cacheState offline); mret () else lift (Err e)
  | Ok entry =>
      match e_State entry with
      | StateVerifiedClean | StateUnmaterializedRemote =>
          _ ← cache_call (fun w now d => Cache.Transition w now b StateStale d);
          _ ← PutLocal b data (cacheState offline); mret ()
      | StateStale => _ ← PutLocal b data (cacheState offline); mret ()
      | _ =>
          existing ← ReadLocalBounded s b;
          lift (fail_if (negb (bool_decide (existing.1 = data)))
                  (Errorf "local cache body does not match its content identity"))
      end
  end.

(** [journal.NewIntent] and [Append]. *)
Definition appendIntent (view : View) (kind : Kind) (path destination payload : string) (offline : bool)
    : M Operation :=
  random ← draw;
  intent ← lift (Journal.NewIntent random.1 random.2 (v_DatasetID view) (v_Branch view) (root_text view)
                   (v_Revision view) kind path destination payload (v_EncryptionEpoch view));
  journal_call (fun w now f => Journal.Append w now intent (initialStatus offline) f).

Definition appendNamespace (view : View) (kind : Kind) (path destination : string) (offline : bool) : M Operation :=
  _ ← ctx_Err;
  appendIntent view kind path destination EmptyString offline.

Definition currentFileBodyLocked (s : service) (view : View) (ops : list Operation) (canonical : string) : M body :=
  resolved ← resolveAt s view ops (length ops) canonical;
  _ ← lift (fail_if (IsDir (rn_info resolved)) ErrNotFile);
  let size := i_Size (rn_info resolved) in
  _ ← lift (fail_if (maxInt <? size)%N (Errorf "filesystem file exceeds local address space"));
  _ ← lift (requireStagedSize s size);
  if rn_local resolved then r ← ReadLocalBounded s (rn_binding resolved); mret r.1 else
  r ← lift (base_ReadFileRange view (rn_remotePath resolved) 0 size);
  _ ← lift (fail_if (negb (bool_decide (N.of_nat (length r.1) = size))) (Errorf "verified base returned other size"));
  mret r.1.

Definition stageWriteBodyLocked (s : service) (view : View) (ops : list Operation) (canonical : string) (data : body)
    (offline : bool) : M Operation :=
  _ ← lift (requireStagedSize s (N.of_nat (length data)));
  _ ← requireParentDirectory s view ops canonical;
  info ← try (statAt s view ops (length ops) canonical);
  _ ← lift (match info with
            | Ok info => fail_if (IsDir info) ErrNotFile
            | Err e => if errors_Is e ErrPathNotFound then Ok () else Err e
            end);
  payload ← lift (rawCID data);
  let binding := bindingFor view payload in
  _ ← ensureLocalBody s binding data offline;
  _ ← ctx_Err;
  appendIntent view KindWrite canonical EmptyString (cid_String payload) offline.

(** ** Mutations *)
Definition StageWrite (s : service) (view : View) (rawPath : string) (data : body) (offline : bool) : M Operation :=
  enter s (
  _ ← ctx_Err;
  canonical ← lift (canonicalPath rawPath false);
  _ ← lift (requireStagedSize s (N.of_nat (length data)));
  ops ← operations view;
  stageWriteBodyLocked s view ops canonical data offline).

(** [None] is the zero operation of a write that changes nothing. *)
Definition StageWriteAt (s : service) (view : View) (rawPath : string) (offset : N) (data : body) (offline : bool)
    : M (option Operation) :=
  enter s (
  _ ← ctx_Err;
  canonical ← lift (canonicalPath rawPath false);
  if bool_decide (data = []) then mret None else
  let end_ := u64 (offset + N.of_nat (length data)) in
  _ ← lift (fail_if ((end_ <? offset)%N || (maxInt <? end_)%N)
              (Errorf "filesystem offset write exceeds local address space"));
  _ ← lift (requireStagedSize s end_);
  ops ← operations view;
  old ← currentFileBodyLocked s view ops canonical;
  op ← stageWriteBodyLocked s view ops canonical (write_at old (N.to_nat offset) data) offline;
  mret (Some op)).

Definition StageTruncate (s : service) (view : View) (rawPath : string) (size : N) (offline : bool)
    : M (option Operation) :=
  enter s (
  _ ← ctx_Err;
  canonical ← lift (canonicalPath rawPath false);
  _ ← lift (fail_if (maxInt <? size)%N (Errorf "filesystem truncate exceeds local address space"));
  _ ← lift (requireStagedSize s size);
  ops ← operations view;
  old ← currentFileBodyLocked s view ops canonical;
  if bool_decide (size = N.of_nat (length old)) then mret None else
  op ← stageWriteBodyLocked s view ops canonical (resize old (N.to_nat size)) offline;
  mret (Some op)).

Definition StageMkdir (s : service) (view : View) (rawPath : string) (offline : bool) : M Operation :=
  enter s (
  canonical ← lift (canonicalPath rawPath false);
  ops ← operations view;
  _ ← requireParentDirectory s view ops canonical;
  info ← try (statAt s view ops (length ops) canonical);
  _ ← lift (match info with
            | Ok _ => Err ErrAlreadyExists
            | Err e => if errors_Is e ErrPathNotFound then Ok () else Err e
            end);
  appendNamespace view KindMkdir canonical EmptyString offline).

Definition stageRemove (s : service) (view : View) (rawPath : string) (directory offline : bool) : M Operation :=
  canonical ← lift (canonicalPath rawPath false);
  ops ← operations view;
  info ← statAt s view ops (length ops) canonical;
  _ ← lift (fail_if (negb (Bool.eqb directory (IsDir info))) (if directory then ErrNotDirectory else ErrNotFile));
  _ ← (if directory then
         entries ← readDirAt s view ops canonical;
         lift (fail_if (negb (bool_decide (length entries = 0))) ErrNotEmpty)
       else mret ());
  appendNamespace view KindUnlink canonical EmptyString offline.
Definition StageUnlink (s : service) (view : View) (rawPath : string) (offline : bool) : M Operation :=
  enter s (stageRemove s view rawPath false offline).
Definition StageRemoveDir (s : service) (view : View) (rawPath : string) (offline : bool) : M Operation :=
  enter s (stageRemove s view rawPath true offline).

Definition StageRename (s : service) (view : View) (rawSource rawDestination : string) (offline : bool)
    : M Operation :=
  enter s (
  source ← lift (canonicalPath rawSource false);
  destination ← lift (canonicalPath rawDestination false);
  _ ← lift (fail_if (bool_decide (source = destination) || isWithin destination source)
              (Errorf "rename destination is equal to or below its source"));
  ops ← operations view;
  sourceInfo ← statAt s view ops (length ops) source;
  _ ← requireParentDirectory s view ops destination;
  destinationInfo ← try (statAt s view ops (length ops) destination);
  _ ← match destinationInfo with
      | Ok info =>
          _ ← lift (fail_if (negb (Bool.eqb (IsDir sourceInfo) (IsDir info)))
                      (if IsDir sourceInfo then ErrNotDirectory else ErrNotFile));
          if IsDir info then
            entries ← readDirAt s view ops destination;
            lift (fail_if (negb (bool_decide (length entries = 0))) ErrNotEmpty)
          else mret ()
      | Err e => if errors_Is e ErrPathNotFound then mret () else lift (Err e)
      end;
  appendNamespace view KindRename source destination offline).

(** ** Reads *)
Definition Stat (s : service) (view : View) (rawPath : string) : M Info :=
  enter s (
  canonical ← lift (canonicalPath rawPath true);
  ops ← operations view;
  statAt s view ops (length ops) canonical).

Definition ReadDir (s : service) (view : View) (rawPath : string) : M (list DirEntry) :=
  enter s (
  canonical ← lift (canonicalPath rawPath true);
  ops ← operations view;
  readDirAt s view ops canonical).

(** A handle is pinned to what [Open] resolved. *)
Record Handle := mkHandle { h_view : View; h_resolved : resolvedNode; h_closed : bool }.

Definition handle_Info (h : Handle) : Info := rn_info (h_resolved h).
Definition handle_Close (h : Handle) : Handle := mkHandle (h_view h) (h_resolved h) true.

Definition Open (s : service) (view : View) (rawPath : string) : M Handle :=
  enter s (
  canonical ← lift (canonicalPath rawPath false);
  ops ← operations view;
  resolved ← resolveAt s view ops (length ops) canonical;
  _ ← lift (fail_if (IsDir (rn_info resolved)) ErrNotFile);
  mret (mkHandle view resolved false)).

Definition handle_Read (s : service) (h : Handle) (offset len : N) : M body :=
  if h_closed h then lift (Err ErrClosed) else
  enter s (
  let resolved := h_resolved h in
  if rn_local resolved then
    r ← cache_call (fun w _ d => Cache.ReadLocalRange w (en_split E) (rn_binding resolved) offset len (stagedFileLimit s) d);
    mret r.1
  else r ← lift (base_ReadFileRange (h_view h) (rn_remotePath resolved) offset len); mret r.1).

Definition ReadFileRange (s : service) (view : View) (rawPath : string) (offset len : N) : M (body * Info) :=
  handle ← Open s view rawPath;
  data ← handle_Read s handle offset len;
  mret (data, handle_Info handle).

(** ** Durability *)
Record FsyncResult := mkFsync {
  fs_Profile : string; fs_MaxSequence : N; fs_LocalDurable : bool; fs_RemotePersisted : bool;
  fs_CandidateRoot : string; fs_RootAccepted : bool
}.

Fixpoint fsync_loop (s : service) (sequence : N) (ops : list Operation) : M N :=
  match ops with
  | [] => mret sequence
  | operation :: rest =>
      let sequence := if (sequence <? Sequence operation)%N then Sequence operation else sequence in
      if negb (bool_decide (IntentKind (op_Intent operation) = KindWrite)) then fsync_loop s sequence rest else
      r ← try (VerifyLocal s (bindingFromOperation operation));
      match r with
      | Err e => lift (Err (Wrapf "fsync local payload for operation" e))
      | Ok _ => fsync_loop s sequence rest
      end
  end.

Definition Fsync (s : service) (view : View) : M FsyncResult :=
  enter s (
  _ ← ctx_Err;
  ops ← operations view;
  sequence ← fsync_loop s 0 ops;
  mret (mkFsync LocalFsyncProfile sequence true false EmptyString false)).

(** ** Upload and reconciliation *)
Definition cacheStateForOperation (status : Status) : option (State * nat) :=
  match status with
  | StatusConflicted => Some (StateConflicted, 5)
  | StatusPendingUpload => Some (StatePendingUpload, 4)
  | StatusLocalDirty => Some (StateLocalDirty, 3)
  | StatusOfflineOnly => Some (StateOfflineOnly, 2)
  | StatusCompleted => Some (StateCandidate, 1)
  | _ => None
  end.

(** The map from bindings to wanted states, as an association list. *)
Fixpoint want (b : Binding) (state : State) (rank : nat) (wanted : list (Binding * (State * nat)))
    : list (Binding * (State * nat)) :=
  match wanted with
  | [] => [(b, (state, rank))]
  | (b', (state', rank')) :: rest =>
      if bool_decide (b' = b)
      then (if rank' <? rank then (b, (state, rank)) else (b', (state', rank'))) :: rest
      else (b', (state', rank')) :: want b state rank rest
  end.

Definition want_operation (wanted : list (Binding * (State * nat))) (operation : Operation)
    : list (Binding * (State * nat)) :=
  if negb (bool_decide (IntentKind (op_Intent operation) = KindWrite)) ||
     bool_decide (op_Status operation = StatusSuperseded) then wanted else
  match cacheStateForOperation (op_Status operation) with
  | Some (state, rank) => want (bindingFromOperation operation) state rank wanted
  | None => wanted
  end.

Definition desiredByBinding (ops : list Operation) : list (Binding * State) :=
  (fun '(b, (state, _)) => (b, state)) <$> foldl want_operation [] ops.

Fixpoint reconcile_each (s : service) (wanted : list (Binding * State)) : M unit :=
  match wanted with
  | [] => mret ()
  | (b, state) :: rest =>
      r ← try (cache_call (fun w now d => Cache.ReconcileLocalStateBounded w now b state (stagedFileLimit s) d));
      match r with
      | Err e => lift (Err (Wrapf "reconcile local cache payload" e))
      | Ok _ => reconcile_each s rest
      end
  end.

Definition reconcileCacheStates (s : service) (ops : list Operation) : M unit :=
  reconcile_each s (en_order E (desiredByBinding ops)).

Fixpoint verify_referenced (s : service) (ops : list Operation) : M unit :=
  match ops with
  | [] => mret ()
  | operation :: rest =>
      if negb (bool_decide (IntentKind (op_Intent operation) = KindWrite)) ||
         bool_decide (op_Status operation = StatusSuperseded) then verify_referenced s rest else
      r ← try (VerifyLocal s (bindingFromOperation operation));
      match r with
      | Err e => lift (Err (Wrapf "journal operation local payload" e))
      | Ok _ => verify_referenced s rest
      end
  end.

Definition referenced_bindings (ops : list Operation) : list Binding :=
  bindingFromOperation <$> filter (fun op => IntentKind (op_Intent op) = KindWrite) ops.

(** The removals of unreferenced bodies; their errors are joined. *)
Fixpoint remove_unreferenced (refs : list Binding) (entries : list Entry) (failures : list error) : M (list error) :=
  match entries with
  | [] => mret failures
  | entry :: rest =>
      if negb (isLocalState (e_State entry)) || bool_decide (e_Binding entry ∈ refs)
      then remove_unreferenced refs rest failures else
      r ← try (cache_call (fun w _ d => Cache.Remove w (e_Binding entry) d));
      match r with
      | Err e => if errors_Is e ErrMiss then remove_unreferenced refs rest failures
                 else remove_unreferenced refs rest (failures ++ [Wrapf "remove unreferenced local cache body" e])
      | Ok _ => remove_unreferenced refs rest failures
      end
  end.

(** [errors.Join] of a list. *)
Definition join_errors (failures : list error) : result unit :=
  match failures with
  | [] => Ok ()
  | e :: rest => Err (foldl ErrorsJoin e rest)
  end.

Definition Reconcile (s : service) : M unit :=
  enter s (
  _ ← ctx_Err;
  ops ← journal_call (fun w _ f => Journal.List_all w f);
  _ ← verify_referenced s ops;
  _ ← reconcileCacheStates s ops;
  entries ← cache_call (fun w _ d => Cache.List_all w d);
  failures ← remove_unreferenced (referenced_bindings ops) entries [];
  lift (join_errors failures)).

Record UploadPayload := mkPayload { up_CID : option Cid; up_Body : body }.
Record UploadBatch := mkBatch {
  ub_View : View; ub_TransactionID : string; ub_Operations : list Operation; ub_Pending : list Operation;
  ub_Payloads : list UploadPayload
}.

(** The map from payload CIDs to bodies, as an association list. *)
Fixpoint put_payload (p : UploadPayload) (payloads : list UploadPayload) : list UploadPayload :=
  match payloads with
  | [] => [p]
  | p' :: rest => if bool_decide (up_CID p' = up_CID p) then p :: rest else p' :: put_payload p rest
  end.

Definition cid_text_of (c : option Cid) : string := match c with Some c => cid_String c | None => EmptyString end.

Fixpoint payload_loop (s : service) (payloads : list UploadPayload) (ops : list Operation) : M (list UploadPayload) :=
  match ops with
  | [] => mret (sort_by_string (fun p => cid_text_of (up_CID p)) payloads)
  | operation :: rest =>
      if negb (bool_decide (IntentKind (op_Intent operation) = KindWrite)) then payload_loop s payloads rest else
      let b := bindingFromOperation operation in
      r ← try (ReadLocalBounded s b);
      match r with
      | Err e => lift (Err (Wrapf "read upload payload for operation" e))
      | Ok r => payload_loop s (put_payload (mkPayload (b_CID b) r.1) payloads) rest
      end
  end.
Definition uploadPayloads (s : service) (ops : list Operation) : M (list UploadPayload) := payload_loop s [] ops.

(** [binary.BigEndian.PutUint64]. *)
Definition byte_at (value : N) (shift : N) : ascii := ascii_of_N ((value / 2 ^ shift) mod 256).
Definition writeUploadUint64 (value : N) : list ascii :=
  [byte_at value 56; byte_at value 48; byte_at value 40; byte_at value 32;
   byte_at value 24; byte_at value 16; byte_at value 8; byte_at value 0].
Definition writeUploadString (value : string) : list ascii :=
  writeUploadUint64 (N.of_nat (length (bytes value))) ++ bytes value.

Definition kind_text (kind : Kind) : string :=
  match kind with
  | KindWrite => "write" | KindMkdir => "mkdir" | KindRename => "rename" | KindUnlink => "unlink"
  | KindOther s => s
  end.

Definition transaction_view (view : View) : list ascii :=
  writeUploadString (v_DatasetID view) ++ writeUploadString (v_Branch view) ++ writeUploadString (root_text view) ++
  writeUploadUint64 (v_Revision view) ++ writeUploadUint64 (v_EncryptionEpoch view).
Definition transaction_operation (operation : Operation) : list ascii :=
  let i := op_Intent operation in
  writeUploadUint64 (Sequence operation) ++ writeUploadString (OperationID i) ++ writeUploadString (RetryID i) ++
  writeUploadString (DatasetID i) ++ writeUploadString (Branch i) ++ writeUploadString (BaseRoot i) ++
  writeUploadUint64 (BaseRevision i) ++ writeUploadString (kind_text (IntentKind i)) ++
  writeUploadString (Path i) ++ writeUploadString (Destination i) ++ writeUploadString (PayloadCID i) ++
  writeUploadUint64 (EncryptionEpoch i).
Definition transaction_bytes (view : View) (ops : list Operation) : list ascii :=
  transaction_view view ++ mjoin (transaction_operation <$> ops).
Definition uploadTransactionID (view : View) (ops : list Operation) : string :=
  "fs-" +:+ transaction_digest (transaction_bytes view ops).

(** The identities to freeze; a conflicted record stops the upload. *)
Fixpoint pending_ids (ids : list string) (ops : list Operation) : result (list string) :=
  match ops with
  | [] => Ok ids
  | operation :: rest =>
      match op_Status operation with
      | StatusConflicted => Err (Wrapf "operation" ErrUploadConflict)
      | StatusLocalDirty | StatusOfflineOnly | StatusPendingUpload => pending_ids (ids ++ [op_id operation]) rest
      | _ => pending_ids ids rest
      end
  end.

Definition wrapM {A} (text : string) (m : M A) : M A := fun w => let '(r, w') := m w in (wrap_err text r, w').

Definition PrepareUpload (s : service) (view : View) : M UploadBatch :=
  enter s (
  _ ← ctx_Err;
  ops ← operations view;
  ids ← lift (pending_ids [] ops);
  _ ← lift (fail_if (bool_decide (ids = [])) ErrNoPendingUpload);
  _ ← wrapM "freeze filesystem upload batch"
        (journal_call (fun w now f => Journal.FreezeBatchForUpload w now ids f));
  ops ← operations view;
  _ ← wrapM "reconcile pending upload cache state" (reconcileCacheStates s ops);
  payloads ← uploadPayloads s ops;
  let pending := filter (fun op => op_id op ∈ ids) ops in
  mret (mkBatch view (uploadTransactionID view ops) ops pending payloads)).

(** The map from identities to operations: the last one wins. *)
Definition find_op (ops : list Operation) (id : string) : option Operation :=
  List.find (fun op => bool_decide (op_id op = id)) (rev ops).

(** The scan of the batch's operations: identities are unique, and every record
    is pending or completed with a root. *)
Fixpoint check_batch_ops (seen : list string) (ops : list Operation) : result unit :=
  match ops with
  | [] => Ok ()
  | operation :: rest =>
      _ ← fail_if (bool_decide (op_id operation ∈ seen)) ErrUploadBatch;
      _ ← match op_Status operation with
          | StatusPendingUpload => Ok ()
          | StatusCompleted => _ ← or_err (cid_Parse (ResultRoot operation)) ErrUploadBatch; Ok ()
          | _ => Err ErrUploadBatch
          end;
      check_batch_ops (op_id operation :: seen) rest
  end.

Fixpoint check_batch_pending (ops : list Operation) (seen : list string) (pending : list Operation)
    : result (list string) :=
  match pending with
  | [] => Ok seen
  | operation :: rest =>
      _ ← fail_if (bool_decide (op_id operation ∈ seen) ||
                   negb (bool_decide (find_op ops (op_id operation) = Some operation)) ||
                   negb (bool_decide (op_Status operation = StatusPendingUpload))) ErrUploadBatch;
      check_batch_pending ops (op_id operation :: seen) rest
  end.

Definition validateUploadBatch (batch : UploadBatch) : result unit :=
  _ ← match validateView (ub_View batch) with Err _ => Err (Wrapf "view" ErrUploadBatch) | Ok _ => Ok () end;
  _ ← fail_if (bool_decide (ub_Operations batch = []) || bool_decide (ub_Pending batch = []) ||
               negb (bool_decide (ub_TransactionID batch = uploadTransactionID (ub_View batch) (ub_Operations batch))))
        ErrUploadBatch;
  _ ← check_batch_ops [] (ub_Operations batch);
  seen ← check_batch_pending (ub_Operations batch) [] (ub_Pending batch);
  fail_if (negb (bool_decide (length seen =
             length (filter (fun op => op_Status op = StatusPendingUpload) (ub_Operations batch))))) ErrUploadBatch.

Definition requireTargetSnapshot (current pending : list Operation) (validTarget : Operation -> bool) : result unit :=
  _ ← mapM (fun expected =>
        match find_op current (op_id expected) with
        | Some op => fail_if (negb (bool_decide (Sequence op = Sequence expected)) ||
                              negb (bool_decide (op_Intent op = op_Intent expected)) || negb (validTarget op))
                       (Wrapf "pending operation changed" ErrUploadBatch)
        | None => Err (Wrapf "pending operation changed" ErrUploadBatch)
        end) pending;
  Ok ().

Definition requireCompletionSnapshot (current pending : list Operation) (candidate : string) : result unit :=
  requireTargetSnapshot current pending (fun op =>
    bool_decide (op_Status op = StatusPendingUpload) ||
    (bool_decide (op_Status op = StatusCompleted) && bool_decide (ResultRoot op = candidate))).
Definition requireConflictSnapshot (current pending : list Operation) (conflictID : string) : result unit :=
  requireTargetSnapshot current pending (fun op =>
    bool_decide (op_Status op = StatusPendingUpload) ||
    (bool_decide (op_Status op = StatusConflicted) && bool_decide (ConflictID op = conflictID))).

(** The common part of the three ways to finish a batch. *)
Definition finish_batch (s : service) (batch : UploadBatch) (check : list Operation -> result unit)
    (run : io -> time -> journal_file -> result (list Operation) * journal_file) (text1 text2 : string)
    : M (list Operation) :=
  current ← operations (ub_View batch);
  _ ← lift (check current);
  finished ← wrapM text1 (journal_call run);
  current ← operations (ub_View batch);
  _ ← wrapM text2 (reconcileCacheStates s current);
  mret finished.

Definition CompleteUpload (s : service) (batch : UploadBatch) (candidate : option Cid) : M (list Operation) :=
  enter s (
  _ ← ctx_Err;
  _ ← lift (fail_if (bool_decide (candidate = None) || bool_decide (candidate = v_Root (ub_View batch)))
              (Wrapf "candidate is undefined or equal to its base" ErrUploadBatch));
  _ ← lift (validateUploadBatch batch);
  finish_batch s batch (fun current => requireCompletionSnapshot current (ub_Pending batch) (cid_text_of candidate))
    (fun w now f => Journal.CompleteBatch w now (op_id <$> ub_Pending batch) (cid_text_of candidate) f)
    "complete filesystem upload batch" "reconcile completed upload cache state").

Definition CompleteNoChange (s : service) (batch : UploadBatch) : M (list Operation) :=
  enter s (
  _ ← ctx_Err;
  _ ← lift (validateUploadBatch batch);
  finish_batch s batch (fun current => requireCompletionSnapshot current (ub_Pending batch) (root_text (ub_View batch)))
    (fun w now f => Journal.CompleteBatch w now (op_id <$> ub_Pending batch) (root_text (ub_View batch)) f)
    "complete no-change filesystem upload batch" "reconcile completed no-change upload cache state").

Definition MarkUploadConflicted (s : service) (batch : UploadBatch) (conflictID : string) : M (list Operation) :=
  enter s (
  _ ← ctx_Err;
  _ ← lift (validateUploadBatch batch);
  finish_batch s batch (fun current => requireConflictSnapshot current (ub_Pending batch) (TrimSpace conflictID))
    (fun w now f => Journal.MarkBatchConflicted w now (op_id <$> ub_Pending batch) (TrimSpace conflictID) f)
    "conflict filesystem upload batch" "reconcile conflicted upload cache state").

(** ** Life cycle *)

(** Release the leases, latest first; those whose release fails are kept. *)
Definition Close (ok : string -> bool) (s : service) : result unit * service :=
  if sv_closed s && bool_decide (sv_release s = []) then (Ok (), s) else
  let failed := filter (fun lock => ok lock = false) (sv_release s) in
  (join_errors ((fun _ => Errorf "release lease") <$> failed), mkService (sv_maxFile s) true failed).

Definition absoluteStatePath (abs : string -> option string) (value : string) : result string :=
  _ ← fail_if (bool_decide (TrimSpace value = EmptyString)) (Errorf "filesystem staging path is empty");
  or_err (abs (path_Clean value)) (Errorf "resolve filesystem staging path").

(** Acquire the leases in order; a failure releases the ones already held. *)
Fixpoint acquire (ok : string -> bool) (previous : option string) (held : list string) (locks : list string)
    : result (list string) :=
  match locks with
  | [] => Ok held
  | lock :: rest =>
      if bool_decide (previous = Some lock) then acquire ok (Some lock) held rest
      else if ok lock then acquire ok (Some lock) (held ++ [lock]) rest
      else Err (Errorf "acquire filesystem staging lease")
  end.

(** [New] with a base; [abs] is [filepath.Abs] and [lock_ok] says which leases
    can be acquired.  An error ends with no service and all leases released. *)
Definition New (abs : string -> option string) (lock_ok : string -> bool) (cacheDirectory journalPath : string)
    (leaseTimeout : Z) (maxStagedFileBytes : N) : M service :=
  let maxFile := if bool_decide (maxStagedFileBytes = 0%N) then DefaultMaxStagedFileBytes else maxStagedFileBytes in
  _ ← lift (fail_if (maxInt <? maxFile)%N (Errorf "filesystem staging file limit exceeds local address space"));
  cacheDirectory ← lift (absoluteStatePath abs cacheDirectory);
  journalPath ← lift (absoluteStatePath abs journalPath);
  _ ← lift (fail_if (leaseTimeout <? 0)%Z (Errorf "filesystem staging lease timeout must not be negative"));
  let locks := sort_by_string id
    [path_Clean (cacheDirectory +:+ "/" +:+ ".malt-staging.lease"); journalPath +:+ ".staging.lease"] in
  held ← lift (acquire lock_ok None [] locks);
  _ ← cache_call (fun w _ d => Cache.Open w cacheDirectory d);
  _ ← journal_call (fun w _ f => Journal.Open w journalPath f);
  let s := mkService maxFile false held in
  _ ← wrapM "reconcile filesystem staging" (Reconcile s);
  mret s.
End Staging.
