(* ===== verification/Overlay.v ===== *)
(** The overlay as a tree: what a sequence of staged operations does to the
    namespace of the base, and how the backward search of the service and the
    forward replay of its listings relate to it. *)

From stdpp Require Import base decidable gmap strings list.
From S2P Require Import Prelude GoText Branch CidLib Journal Cache Paths Staging.

(** ** Abstract namespace

    A tree gives the node at every path: its kind and where its content is. *)
Section Overlay.
Context {L : CidLib} {B : Base}.

Inductive source := FromBase (path : string) | FromCache (b : Binding).
Record node := mkNode { n_kind : string; n_source : option source }.
Definition tree := string -> option node.

Definition base_tree (view : View) : tree := fun p =>
  match base_Stat view p with Ok info => Some (mkNode (i_Kind info) (Some (FromBase p))) | Err _ => None end.

Definition directory_node : node := mkNode StagedKindDirectory None.
Definition file_node (op : Operation) : node :=
  mkNode StagedKindFile (Some (FromCache (bindingFromOperation op))).

(** The meaning of one operation.  A file or a new directory has nothing below
    it; a rename moves the whole subtree and replaces what was there. *)
Definition apply_op (t : tree) (op : Operation) : tree := fun p =>
  let i := op_Intent op in
  match IntentKind i with
  | KindWrite =>
      if bool_decide (p = Path i) then Some (file_node op)
      else if isStrictDescendant p (Path i) then None else t p
  | KindMkdir =>
      if bool_decide (p = Path i) then Some directory_node
      else if isStrictDescendant p (Path i) then None else t p
  | KindUnlink => if isWithin p (Path i) then None else t p
  | KindRename =>
      if isWithin p (Destination i) then t (replacePrefix p (Destination i) (Path i))
      else if isWithin p (Path i) then None else t p
  | KindOther _ => t p
  end.

Definition overlay (ops : list Operation) (t : tree) : tree := foldl apply_op t ops.

(** ** Backward search *)
Inductive place :=
  | AtWrite (op : Operation)
  | AtMkdir (created : nat)
  | AtBase (mapped : string)
  | Gone (e : error).

Fixpoint locate (mapped : string) (latest_first : list Operation) : place :=
  match latest_first with
  | [] => AtBase mapped
  | op :: rest =>
      let i := op_Intent op in
      match IntentKind i with
      | KindWrite =>
          if bool_decide (mapped = Path i) then AtWrite op
          else if isStrictDescendant mapped (Path i) then Gone ErrNotDirectory else locate mapped rest
      | KindMkdir =>
          if bool_decide (mapped = Path i) then AtMkdir (S (length rest))
          else if isStrictDescendant mapped (Path i) then Gone ErrPathNotFound else locate mapped rest
      | KindUnlink => if isWithin mapped (Path i) then Gone ErrPathNotFound else locate mapped rest
      | KindRename =>
          if isWithin mapped (Destination i) then locate (replacePrefix mapped (Destination i) (Path i)) rest
          else if isWithin mapped (Path i) then Gone ErrPathNotFound else locate mapped rest
      | KindOther _ => locate mapped rest
      end
  end.

(** The node that a place stands for. *)
Definition node_at (t : tree) (pl : place) : option node :=
  match pl with
  | AtWrite op => Some (file_node op)
  | AtMkdir _ => Some directory_node
  | AtBase mapped => t mapped
  | Gone _ => None
  end.

Lemma overlay_locate ops t p : overlay ops t p = node_at t (locate p (rev ops)).
Proof.
  revert p. induction ops as [|op ops IH] using rev_ind; intros p; [done|].
  unfold overlay. rewrite foldl_app. cbn [foldl]. rewrite rev_app_distr. cbn [rev app locate].
  unfold apply_op. cbv zeta. destruct (IntentKind (op_Intent op));
    repeat (case_bool_decide || case_match); try done; apply IH.
Qed.

(** ** Forward replay *)

(** What the journal guarantees of the paths of an operation. *)
Definition op_paths_ok (op : Operation) : Prop :=
  let i := op_Intent op in
  Path i <> EmptyString /\ untailed (Path i) /\
  (IntentKind i = KindRename -> Destination i <> EmptyString /\ untailed (Destination i)).

Lemma isStrictDescendant_within v a :
  v <> a -> isStrictDescendant v a = isWithin v a.
Proof. intros H. unfold isStrictDescendant. by rewrite bool_decide_eq_false_2. Qed.

Lemma isWithin_refl v : isWithin v v = true.
Proof. apply isWithin_spec. auto. Qed.

(** The index of a created directory counts the operations up to its own. *)
Definition created_at (pl : place) : nat := match pl with AtMkdir n => n | _ => 0 end.

Lemma created_at_le p rops : created_at (locate p rops) <= length rops.
Proof.
  revert p. induction rops as [|op rops IH]; intros p; cbn; [lia|].
  destruct (IntentKind (op_Intent op)); repeat (case_bool_decide || case_match); cbn; try lia;
    (etransitivity; [apply IH|lia]).
Qed.

Definition is_dir_place (pl : place) : bool :=
  match pl with AtMkdir _ | AtBase _ => true | _ => false end.
Definition is_gone (pl : place) : bool := match pl with Gone _ => true | _ => false end.

(** An operation of [rops] (latest first) creates a path that the later ones
    move to [q]. *)
Definition created_in (rops later : list Operation) (created : nat) (q : string) : Prop :=
  exists post op pre t, rops = post ++ op :: pre /\ target_of op = Some t /\
    forwardPath t (rev post ++ later) = Some q /\ created <= length pre.

Lemma created_in_cons op rops later created q :
  created_in rops (op :: later) created q -> created_in (op :: rops) later created q.
Proof.
  intros (post & op' & pre & t & -> & Ht & Hf & Hc). exists (op :: post), op', pre, t.
  split_and!; try done. cbn [rev]. by rewrite <- (assoc_L (++)).
Qed.

#[local] Ltac pass :=
  match goal with
  | Hstep : forall c' later', _, Hc : untailed ?c |- context [?op :: ?rops] =>
      eapply (Hstep c _ Hc eq_refl eq_refl); [|reflexivity];
      rewrite ?isStrictDescendant_within by done;
      repeat match goal with H : isWithin _ _ = _ |- _ => rewrite H end; done
  end.

(** The child of a directory is created by an operation after the directory
    was, or lies in the base below the place of the directory. *)
Lemma child_origin name rops c later q :
  child_name name -> untailed c -> Forall op_paths_ok rops ->
  forwardPath (joinPath c name) later = Some q ->
  is_dir_place (locate c rops) = true -> is_gone (locate (joinPath c name) rops) = false ->
  created_in rops later (created_at (locate c rops)) q \/
  exists m, locate c rops = AtBase m /\ locate (joinPath c name) rops = AtBase (joinPath m name) /\
    forwardPath (joinPath m name) (rev rops ++ later) = Some q.
Proof.
  intros Hn. revert c later. induction rops as [|op rops IH]; intros c later Hc Hops Hf Hd Hg.
  { right. by exists c. }
  apply Forall_cons in Hops as [(Hp & Hup & Hren) Hops].
  assert (forall c' later', untailed c' -> locate c (op :: rops) = locate c' rops ->
    locate (joinPath c name) (op :: rops) = locate (joinPath c' name) rops ->
    forwardPath (joinPath c' name) (op :: later) = Some q -> later' = later ->
    created_in (op :: rops) later (created_at (locate c (op :: rops))) q \/
    exists m, locate c (op :: rops) = AtBase m /\ locate (joinPath c name) (op :: rops) = AtBase (joinPath m name) /\
      forwardPath (joinPath m name) (rev (op :: rops) ++ later) = Some q) as Hstep.
  { intros c' later' Hc' E1 E2 Hf' _. rewrite E1 in Hd |- *. rewrite E2 in Hg |- *.
    destruct (IH c' (op :: later) Hc' Hops Hf' Hd Hg) as [Hin|(m & Em & Eq & Hfm)].
    - left. by apply created_in_cons.
    - right. exists m. cbn [rev]. rewrite <- (assoc_L (++)). done. }
  assert (forall t, target_of op = Some t -> joinPath c name = t -> created_at (locate c (op :: rops)) <= length rops ->
    created_in (op :: rops) later (created_at (locate c (op :: rops))) q) as Hhere.
  { intros t Ht <- Hle. by exists [], op, rops, (joinPath c name). }
  pose proof (within_child c name (Path (op_Intent op)) Hn Hp) as Hw.
  cbn [locate] in Hd, Hg. cbn [locate] in Hstep, Hhere |- *. cbn [forwardPath] in Hstep.
  unfold target_of in Hhere. destruct (IntentKind (op_Intent op)) eqn:Ek.
  - case_bool_decide as E1; [done|]. rewrite isStrictDescendant_within in Hd, Hstep, Hhere |- * by done.
    destruct (isWithin c _) eqn:Ew; [done|].
    case_bool_decide as E2; [left; apply (Hhere _ eq_refl E2), created_at_le|].
    rewrite isStrictDescendant_within in Hstep |- * by done.
    destruct (isWithin (joinPath c name) _) eqn:Ew2; [destruct (proj1 Hw eq_refl); congruence|]. pass.
  - case_bool_decide as E1.
    { exfalso. subst c. rewrite bool_decide_eq_false_2 in Hg by by apply joinPath_longer.
      rewrite isStrictDescendant_within in Hg by by apply joinPath_longer.
      rewrite (proj2 Hw) in Hg; [done|]. right. apply isWithin_refl. }
    rewrite isStrictDescendant_within in Hd, Hstep, Hhere |- * by done.
    destruct (isWithin c _) eqn:Ew; [done|].
    case_bool_decide as E2; [left; apply (Hhere _ eq_refl E2), created_at_le|].
    rewrite isStrictDescendant_within in Hstep |- * by done.
    destruct (isWithin (joinPath c name) _) eqn:Ew2; [destruct (proj1 Hw eq_refl); congruence|]. pass.
  - destruct (Hren eq_refl) as [Hdne Hdu]. pose proof (within_child c name _ Hn Hdne) as Hw'.
    destruct (isWithin c (Destination _)) eqn:Ed.
    + rewrite (proj2 Hw' (or_intror eq_refl)) in *.
      destruct (replacePrefix_untailed c _ _ Hc Hdne Hp Hup Ed) as [Hu' _].
      apply (Hstep _ later Hu' eq_refl); [by rewrite replacePrefix_child| |done].
      destruct (replacePrefix_round (joinPath c name) (Destination (op_Intent op)) (Path (op_Intent op))) as [R1 R2];
        [by apply joinPath_child|done|done|by apply Hw'; right|].
      rewrite replacePrefix_child in R1, R2 by done. by rewrite R1, R2.
    + destruct (isWithin c (Path _)) eqn:Ew; [done|].
      destruct (isWithin (joinPath c name) (Destination _)) eqn:Ed2.
      { destruct (proj1 Hw' eq_refl) as [E|]; [|congruence]. left. apply (Hhere _ eq_refl E), created_at_le. }
      destruct (isWithin (joinPath c name) (Path _)) eqn:Ew2; [done|].
      pass.
  - destruct (isWithin c _) eqn:Ew; [done|].
    destruct (isWithin (joinPath c name) _) eqn:Ew2; [done|]. pass.
  - pass.
Qed.

(** ** Trees *)
Definition dir_at (t : tree) (p : string) : Prop := exists n, t p = Some n /\ n_kind n = StagedKindDirectory.

(** The root is a directory, and whatever exists lies in a directory. *)
Definition is_tree (t : tree) : Prop :=
  dir_at t EmptyString /\
  forall c name, child_name name -> untailed c -> t (joinPath c name) <> None -> dir_at t c.

(** What the service checks before it appends an operation. *)
Definition guarded (t : tree) (op : Operation) : Prop :=
  let i := op_Intent op in
  match IntentKind i with
  | KindWrite | KindMkdir => dir_at t (parent_of (Path i))
  | KindRename => dir_at t (parent_of (Destination i)) /\ isWithin (Destination i) (Path i) = false
  | _ => True
  end.

Lemma empty_not_within a : a <> EmptyString -> isWithin EmptyString a = false.
Proof.
  intros Ha. apply not_true_is_false. intros [?|[?|[r Hr]]]%isWithin_spec; [done|by subst|]. by destruct a.
Qed.

Lemma child_not_below c name a : child_name name -> joinPath c name = a -> isWithin c a = false.
Proof.
  intros Hn <-. apply not_true_is_false. intros [E|[E|[r E]]]%isWithin_spec.
  - by destruct (joinPath_child c name Hn).
  - by destruct (joinPath_longer c name Hn).
  - destruct (joinPath_child c name Hn) as [Hne _].
    apply (f_equal (fun s => length (bytes s))) in E. rewrite !bytes_app, !length_app in E.
    unfold joinPath in E. destruct Hn as [Hn _]. case_bool_decide as Hc; [subst c; cbn in E; lia|].
    rewrite bool_decide_eq_false_2 in E by done. rewrite !bytes_app, !length_app in E. cbn in E. lia.
Qed.

Lemma parent_dir t c name p : child_name name -> joinPath c name = p -> dir_at t (parent_of p) -> dir_at t c.
Proof. intros Hn <-. by rewrite parent_of_child. Qed.

(** Creating a node in a directory keeps the tree. *)
Lemma tree_create (t t' : tree) p n :
  is_tree t -> p <> EmptyString -> dir_at t (parent_of p) ->
  (forall q, t' q = if bool_decide (q = p) then Some n else if isStrictDescendant q p then None else t q) ->
  is_tree t'.
Proof.
  intros [Hroot Ht] Hp Hd Ht'. assert (forall q, isWithin q p = false -> t' q = t q) as Hout.
  { intros q Hq. rewrite Ht'. case_bool_decide; [subst; by rewrite isWithin_refl in Hq|].
    by rewrite isStrictDescendant_within, Hq by done. }
  split.
  { unfold dir_at. rewrite Hout; [done|]. by apply empty_not_within. }
  intros c name Hn Hc H. destruct (isWithin c p) eqn:Ew.
  { destruct H. rewrite Ht'. assert (joinPath c name <> p) as Hne.
    { intros E. by rewrite (child_not_below c name p Hn E) in Ew. }
    rewrite bool_decide_eq_false_2, isStrictDescendant_within by done.
    rewrite (proj2 (within_child c name p Hn Hp)) by by right. done. }
  unfold dir_at. rewrite Hout by done. destruct (decide (joinPath c name = p)) as [E|Hne]; [by eapply parent_dir|].
  apply (Ht c name); [done|done|]. rewrite <- (Hout (joinPath c name)); [done|].
  apply not_true_is_false. intros [?|?]%within_child; [done|congruence|done|done].
Qed.

Lemma tree_rename (t : tree) src dst :
  is_tree t -> src <> EmptyString -> dst <> EmptyString -> untailed src -> dir_at t (parent_of dst) ->
  isWithin dst src = false ->
  is_tree (fun p => if isWithin p dst then t (replacePrefix p dst src) else if isWithin p src then None else t p).
Proof.
  intros [Hroot Ht] Hs Hd Hus Hpar Hnot. split.
  { unfold dir_at. by rewrite !empty_not_within. }
  intros c name Hn Hc. unfold dir_at. destruct (isWithin c dst) eqn:Ew.
  - rewrite (proj2 (within_child c name dst Hn Hd)) by by right. rewrite replacePrefix_child by done.
    intros H. apply (Ht _ name Hn); [|done]. by destruct (replacePrefix_untailed c dst src Hc Hd Hs Hus Ew).
  - destruct (decide (joinPath c name = dst)) as [E|Hne].
    + intros _. assert (isWithin c src = false) as ->.
      { apply not_true_is_false. intros Hw. apply not_true_iff_false in Hnot. apply Hnot. rewrite <- E.
        apply within_child; [done|done|by right]. }
      by eapply parent_dir.
    + assert (isWithin (joinPath c name) dst = false) as ->.
      { apply not_true_is_false. intros [?|?]%within_child; [done|congruence|done|done]. }
      destruct (isWithin c src) eqn:Ews.
      * rewrite (proj2 (within_child c name src Hn Hs)) by by right. done.
      * destruct (isWithin (joinPath c name) src); [done|]. by apply Ht.
Qed.

Lemma tree_step t op : is_tree t -> op_paths_ok op -> guarded t op -> is_tree (apply_op t op).
Proof.
  intros Ht (Hp & Hup & Hren) Hg. unfold guarded in Hg. cbv zeta in Hg.
  destruct (IntentKind (op_Intent op)) eqn:Ek.
  - eapply (tree_create t _ (Path (op_Intent op)) (file_node op)); [done..|]. intros q. unfold apply_op. by rewrite Ek.
  - eapply (tree_create t _ (Path (op_Intent op)) directory_node); [done..|]. intros q. unfold apply_op. by rewrite Ek.
  - destruct (Hren eq_refl) as [Hd _], Hg as [Hg1 Hg2].
    pose proof (tree_rename t _ _ Ht Hp Hd Hup Hg1 Hg2) as H. unfold apply_op. by rewrite Ek.
  - destruct Ht as [Hroot Ht]. unfold apply_op. rewrite Ek. split.
    { unfold dir_at. by rewrite empty_not_within. }
    intros c name Hn Hc. unfold dir_at. destruct (isWithin (joinPath c name) _) eqn:Ew; [done|].
    assert (isWithin c (Path (op_Intent op)) = false) as ->; [|by apply Ht].
    apply not_true_is_false. intros Hw. apply not_true_iff_false in Ew. apply Ew. apply within_child; auto.
  - unfold apply_op. by rewrite Ek.
Qed.

Lemma overlay_snoc ops op t : overlay (ops ++ [op]) t = apply_op (overlay ops t) op.
Proof. unfold overlay. by rewrite foldl_app. Qed.

(** ** Candidates of a listing *)
Lemma immediateCandidate_child c name : child_name name -> immediateCandidate c (joinPath c name) = Some name.
Proof.
  intros Hn. unfold immediateCandidate. rewrite bool_decide_eq_false_2 by by apply joinPath_longer. cbn [orb].
  assert (isWithin (joinPath c name) c = true) as ->.
  { destruct (decide (c = EmptyString)) as [->|Hne]; [done|]. apply within_child; auto using isWithin_refl. }
  cbn [negb]. cbv zeta. unfold joinPath. destruct Hn as [Hne Hs].
  destruct (decide (c = EmptyString)) as [Hc|Hc]; [rewrite !(bool_decide_eq_true_2 (c = EmptyString)) by done|
    rewrite !(bool_decide_eq_false_2 (c = EmptyString)) by done].
  - rewrite cut_slash_child by done. by rewrite bool_decide_eq_false_2.
  - rewrite !(bool_decide_eq_false_2 (name = EmptyString)) by done. rewrite (assoc_L String.append), TrimPrefix_app.
    rewrite cut_slash_child by done. by rewrite bool_decide_eq_false_2.
Qed.

Lemma immediateCandidate_name c v name : immediateCandidate c v = Some name -> child_name name.
Proof.
  unfold immediateCandidate. destruct (_ || _); [done|]. cbv zeta. case_bool_decide as Hn; [done|].
  intros [= <-]. split; [done|]. apply cut_slash_no_slash.
Qed.

Lemma add_forward_spec c cs p later name :
  name ∈ add_forward c cs p later <->
  name ∈ cs \/ exists cur, forwardPath p later = Some cur /\ immediateCandidate c cur = Some name.
Proof.
  unfold add_forward, addImmediateCandidate. destruct (forwardPath p later) as [cur|]; [|naive_solver].
  destruct (immediateCandidate c cur) as [n|] eqn:E; [|naive_solver]. rewrite elem_of_union, elem_of_singleton. naive_solver.
Qed.

Lemma local_candidates_spec c cs ops name :
  name ∈ local_candidates c cs ops <->
  name ∈ cs \/ exists pre op later t cur, ops = pre ++ op :: later /\ target_of op = Some t /\
    forwardPath t later = Some cur /\ immediateCandidate c cur = Some name.
Proof.
  revert cs. induction ops as [|op ops IH]; intros cs; cbn [local_candidates].
  { split; [by left|]. intros [?|(pre & op & later & t & cur & H & _)]; [done|]. by destruct pre. }
  rewrite IH. split.
  - intros [H|(pre & op' & later & t & cur & -> & H)].
    + destruct (target_of op) as [t|] eqn:Et; [|by left]. apply add_forward_spec in H as [?|(cur & Hf & Hi)]; [by left|].
      right. by exists [], op, ops, t, cur.
    + right. exists (op :: pre), op', later, t, cur. done.
  - intros [H|(pre & op' & later & t & cur & E & Ht & Hf & Hi)].
    + left. destruct (target_of op); [|done]. apply add_forward_spec. by left.
    + destruct pre as [|op0 pre]; cbn in E; simplify_eq.
      * left. rewrite Ht. apply add_forward_spec. right. eauto.
      * right. exists pre, op', later, t, cur. done.
Qed.

Lemma base_candidates_spec c remote entries ops name :
  name ∈ base_candidates c remote entries ops <->
  exists entry cur, entry ∈ entries /\ forwardPath (joinPath remote (de_Name entry)) ops = Some cur /\
    immediateCandidate c cur = Some name.
Proof.
  unfold base_candidates.
  assert (forall cs, name ∈ foldl (fun acc entry => add_forward c acc (joinPath remote (de_Name entry)) ops) cs entries <->
    name ∈ cs \/ exists entry cur, entry ∈ entries /\ forwardPath (joinPath remote (de_Name entry)) ops = Some cur /\
    immediateCandidate c cur = Some name) as H; [|rewrite H; set_solver].
  induction entries as [|e entries IH]; intros cs; cbn [foldl].
  { split; [by left|]. intros [?|(e & cur & []%elem_of_nil & _)]. done. }
  rewrite IH, add_forward_spec. setoid_rewrite elem_of_cons. naive_solver.
Qed.
End Overlay.
