(* ===== verification/StagingFacts.v ===== *)
(** The monad of the staging service, its backward search as a place of the
    overlay, and the effect of its calls on the two stores. *)

From stdpp Require Import base decidable gmap strings list sorting.
From Stdlib Require Import Ascii ZArith.
From S2P Require Import Prelude GoText Branch CidLib Durable Journal JournalFacts JournalOps JournalThms Cache CacheFacts CacheHistory CacheThms Paths Staging Overlay.

(** ** Errors of another kind

    The staging service tells a missing path and a missing body from other
    failures; the errors of the stores themselves are neither. *)
Inductive telling : error -> Prop :=
  | tells_path : telling ErrPathNotFound
  | tells_miss : telling ErrMiss.

Definition alien {A} (target : error) (r : result A) : Prop := forall e, r = Err e -> errors_Is e target = false.

Section Alien.
Context {L : CidLib} {C : CacheLib} (target : error) (Ht : telling target).

Lemma alien_Ok {A} (a : A) : alien target (Ok a).
Proof. by intros e. Qed.
Lemma alien_Err {A} e : errors_Is e target = false -> alien target (@Err A e).
Proof. by intros H e' [= <-]. Qed.
Lemma alien_bind {A B} (m : result A) (f : A -> result B) :
  alien target m -> (forall a, alien target (f a)) -> alien target (m ≫= f).
Proof. intros Hm Hf. destruct m as [a|e]; [apply Hf|]. intros e' [= <-]. by apply Hm. Qed.
Lemma alien_fail_if c e : errors_Is e target = false -> alien target (fail_if c e).
Proof. intros H. destruct c; [by apply alien_Err|apply alien_Ok]. Qed.
Lemma alien_or_err {A} (o : option A) e : errors_Is e target = false -> alien target (or_err o e).
Proof. intros H. destruct o; [apply alien_Ok|by apply alien_Err]. Qed.
Lemma alien_wrap {A} text (m : result A) : alien target m -> alien target (wrap_err text m).
Proof. intros H. destruct m as [a|e]; [apply alien_Ok|]. intros e' [= <-]. cbn.
  rewrite bool_decide_eq_false_2 by (by destruct Ht). by apply H.
Qed.
Lemma alien_mapM {A B} (f : A -> result B) l : (forall a, alien target (f a)) -> alien target (mapM f l).
Proof.
  intros Hf. induction l as [|a l IH]; [apply alien_Ok|]. cbn. apply alien_bind; [done|]. intros b.
  apply alien_bind; [done|]. intros bs. apply alien_Ok.
Qed.

#[local] Ltac foreign :=
  repeat first
    [ apply alien_Ok | apply alien_Err; by destruct Ht | apply alien_fail_if; by destruct Ht
    | apply alien_or_err; by destruct Ht | apply alien_wrap | apply alien_bind; [|intros] | apply alien_mapM; intros
    | case_match ].

Lemma normalizeBinding_alien b : alien target (normalizeBinding b).
Proof. unfold normalizeBinding, parse_cid. cbv zeta. foreign. Qed.

Lemma reload_alien w (f : file metadata) : alien target (reload w f).
Proof.
  unfold reload. cbn [ds_empty ds_decode cache_store]. unfold decode, normalize_entry, normalizeEntry.
  foreign; apply normalizeBinding_alien.
Qed.

Lemma reconcileLocked_alien w m d : alien target (Cache.reconcileLocked w m d).1.
Proof.
  assert (forall names bs, alien target (remove_blobs (io_remove w) m names bs).1) as H1.
  { intros names. induction names as [|n names IH]; intros bs; cbn; [apply alien_Ok|].
    destruct (orphan_blob m n); [|apply IH]. destruct (io_remove w n); [apply IH|]. cbn. foreign. }
  assert (forall names, alien target (remove_temps (io_remove w) names).1) as H2.
  { intros names. induction names as [|n names IH]; cbn; [apply alien_Ok|].
    destruct (HasPrefix n _); [destruct (io_remove w n); [apply IH|]; cbn; foreign|].
    destruct (remove_temps _ names). exact IH. }
  unfold Cache.reconcileLocked. specialize (H1 (map_to_list (blobs d)).*1 (blobs d)).
  destruct (remove_blobs _ _ _ _) as [[|] bs]; [|exact H1]. specialize (H2 (root_files d)).
  destruct (remove_temps _ _). exact H2.
Qed.

(** A reading section fails by itself, or gives what its operation gives on the
    metadata it loaded. *)
Lemma read_section_cases {A} w (op : metadata -> cache_dir -> result (A * metadata)) d r d1 :
  Cache.withState w false (pure_op op) d = (r, d1) ->
  meta d1 = meta d /\
  ((exists e, r = Err e /\ errors_Is e target = false) \/
   exists m, Durable.view (meta d) = Some m /\ r = (x ← op m (swept w m d); Ok x.1)).
Proof.
  unfold Cache.withState. intros H.
  assert (alien target (_ ← fail_if (negb (io_meta w Mkdir)) (Errorf "create cache directory");
     _ ← fail_if (negb (io_meta w Lock)) (Errorf "lock cache metadata"); reload (io_meta w) (meta d))) as Hl.
  { foreign; apply reload_alien. }
  destruct (mbind _ _) as [m|e] eqn:E; [|simplify_eq; split; [done|left]; eauto].
  simplify_result. pose proof (reconcileLocked_alien w m d) as Hal. pose proof (reconcile_meta w m d) as Hm.
  match goal with H : reload _ _ = Ok _ |- _ => apply reload_view in H as Hv end. unfold swept.
  destruct (Cache.reconcileLocked w m d) as [[|] d2] eqn:Er; cbn [fst snd] in *;
    [|simplify_eq; split; [done|left]; eauto].
  unfold pure_op in H. destruct (op m d2) as [[x m']|e] eqn:Eo; simplify_eq; split; try done; right; exists m;
    by rewrite Er; cbn [snd]; rewrite Eo.
Qed.
End Alien.

Section VerifyAlien.
Context {L : CidLib} {C : CacheLib}.

Lemma VerifyLocal_alien w b maxBytes d : alien ErrPathNotFound (Cache.VerifyLocal w b maxBytes d).1.
Proof.
  unfold Cache.VerifyLocal, Cache.method. pose proof (normalizeBinding_alien _ tells_path b) as Hb.
  destruct (normalizeBinding b) as [b'|]; [|intros e0 [= <-]; by apply Hb].
  destruct (Cache.withState _ _ _ _) as [r d1] eqn:E.
  apply (read_section_cases _ tells_path) in E as [_ [(e & -> & He)|(m & _ & ->)]]; [by intros e' [= <-]|]. cbn [fst].
  apply alien_bind; [|intros; apply alien_Ok]. unfold verifyLocked, openBounded, verifyLocalStream.
  repeat first [apply alien_Ok | apply alien_Err; done | apply alien_fail_if; done | apply alien_or_err; done
               | apply alien_bind; [|intros] | case_match].
Qed.
End VerifyAlien.

(** ** The monad *)
Section Monad.
Context {L : CidLib} {C : CacheLib} {B : Base} {SL : StageLib}.

Lemma M_bind_Ok {X Y} (m : M X) (f : X -> M Y) w y w' :
  (m ≫= f) w = (Ok y, w') -> exists x w1, m w = (Ok x, w1) /\ f x w1 = (Ok y, w').
Proof. unfold mbind, M_bind. destruct (m w) as [[x|] w1]; [eauto|done]. Qed.

Lemma M_bind_run {X Y} (m : M X) (f : X -> M Y) w x w1 : m w = (Ok x, w1) -> (m ≫= f) w = f x w1.
Proof. unfold mbind, M_bind. by intros ->. Qed.

Lemma lift_Ok {X} (r : result X) (w : world) x w' : lift r w = (Ok x, w') -> r = Ok x /\ w' = w.
Proof. unfold lift. by intros [= -> ->]. Qed.

Lemma mret_Ok {X} (x : X) (w : world) y w' : mret (M := M) x w = (Ok y, w') -> y = x /\ w' = w.
Proof. unfold mret, M_ret. by intros [= -> ->]. Qed.

Lemma try_Ok {X} (m : M X) w r w' : try m w = (Ok r, w') -> m w = (r, w').
Proof. unfold try. destruct (m w). by intros [= -> ->]. Qed.

Lemma wrapM_Ok {X} text (m : M X) w x w' : wrapM text m w = (Ok x, w') -> m w = (Ok x, w').
Proof. unfold wrapM. destruct (m w) as [[x'|] w1]; cbn; by intros [= -> ->]. Qed.

Lemma enter_Ok {X} s (m : M X) w x w' : enter s m w = (Ok x, w') -> sv_closed s = false /\ m w = (Ok x, w').
Proof. unfold enter. destruct (sv_closed s); [done|auto]. Qed.

(** Steps that leave the journal, or both stores, alone. *)
Definition keeps_journal {X} (m : M X) : Prop := forall w, w_journal (m w).2 = w_journal w.

Lemma keeps_bind {X Y} (m : M X) (f : X -> M Y) :
  keeps_journal m -> (forall x, keeps_journal (f x)) -> keeps_journal (m ≫= f).
Proof.
  intros Hm Hf w. unfold mbind, M_bind. specialize (Hm w). destruct (m w) as [[x|] w1]; cbn in *; [|done].
  by rewrite Hf.
Qed.
Lemma keeps_lift {X} (r : result X) : keeps_journal (lift r).
Proof. done. Qed.
Lemma keeps_mret {X} (x : X) : keeps_journal (mret (M := M) x).
Proof. done. Qed.
Lemma keeps_try {X} (m : M X) : keeps_journal m -> keeps_journal (try m).
Proof. intros H w. unfold try. specialize (H w). by destruct (m w). Qed.
End Monad.

Ltac simplify_M :=
  repeat match goal with
  | H : mbind _ _ _ = (Ok _, _) |- _ => apply M_bind_Ok in H as (? & ? & ? & H)
  | H : lift _ _ = (Ok _, _) |- _ => apply lift_Ok in H as [? ->]
  | H : mret _ _ = (Ok _, _) |- _ => apply mret_Ok in H as [-> ->]
  | H : try _ _ = (Ok _, _) |- _ => apply try_Ok in H
  | H : wrapM _ _ _ = (Ok _, _) |- _ => apply wrapM_Ok in H
  | H : enter _ _ _ = (Ok _, _) |- _ => apply enter_Ok in H as [? H]
  end.

Create HintDb keeps.

Section Effects.
Context {L : CidLib} {C : CacheLib} {B : Base} {SL : StageLib} (E : env).

Lemma keeps_cache_call {X} (op : cache_io -> time -> cache_dir -> result X * cache_dir) :
  keeps_journal (cache_call E op).
Proof. intros w. unfold cache_call. by destruct (op _ _ _). Qed.
Lemma keeps_ctx : keeps_journal (ctx_Err E).
Proof. done. Qed.

Hint Resolve keeps_bind keeps_lift keeps_mret keeps_try keeps_cache_call keeps_ctx : keeps.

(** [ctx_Err] and the places only count. *)
Definition ticked (w : world) : world := mkWorld (w_cache w) (w_journal w) (S (w_tick w)).

Lemma ctx_Err_Ok w u w' : ctx_Err E w = (Ok u, w') -> w' = ticked w.
Proof. unfold ctx_Err. destruct (en_cancelled E (w_tick w)); by intros [= _ <-]. Qed.

Definition place_info (view : View) (canonical : string) (info : Info) : Info :=
  mkInfo canonical (if bool_decide (canonical = EmptyString) then EmptyString else base_name canonical)
    (i_Kind info) (i_NodeRoot info) (i_Payload info) (i_StorageKind info) (i_Size info).

Definition resolve_place (s : service) (view : View) (canonical : string) (pl : place) : M resolvedNode :=
  match pl with
  | AtWrite op =>
      let binding := bindingFromOperation op in
      entry ← VerifyLocal E s binding;
      mret (mkResolved (localInfo canonical StagedKindFile (b_CID binding) (Z.to_N (e_Size entry)))
              true EmptyString binding 0)
  | AtMkdir n => mret (mkResolved (localInfo canonical StagedKindDirectory None 0) true EmptyString zeroBinding n)
  | AtBase m =>
      info ← lift (base_Stat view m);
      mret (mkResolved (place_info view canonical info) false m zeroBinding 0)
  | Gone e => lift (Err e)
  end.

Lemma resolve_loop_place s view canonical mapped rops :
  resolve_loop E s view canonical mapped rops = resolve_place s view canonical (locate mapped rops).
Proof.
  revert mapped. induction rops as [|op rops IH]; intros mapped; [done|].
  cbn [resolve_loop locate]. cbv zeta. destruct (IntentKind (op_Intent op));
    repeat (case_bool_decide || case_match); try done; apply IH.
Qed.

Lemma resolveAt_place s view ops canonical :
  resolveAt E s view ops (length ops) canonical =
    (_ ← ctx_Err E; resolve_place s view canonical (locate canonical (rev ops))).
Proof. unfold resolveAt. by rewrite firstn_all, resolve_loop_place. Qed.

Lemma keeps_resolve s view ops canonical : keeps_journal (resolveAt E s view ops (length ops) canonical).
Proof.
  rewrite resolveAt_place. apply keeps_bind; [apply keeps_ctx|]. intros _.
  destruct (locate _ _); cbn [resolve_place]; unfold VerifyLocal; eauto with keeps.
Qed.
Hint Resolve keeps_resolve : keeps.

Lemma keeps_statAt s view ops canonical : keeps_journal (statAt E s view ops (length ops) canonical).
Proof. unfold statAt. eauto with keeps. Qed.
Hint Resolve keeps_statAt : keeps.

Lemma keeps_list_names s view ops canonical names : keeps_journal (list_names E s view ops canonical names).
Proof.
  induction names as [|n names IH]; cbn [list_names]; [apply keeps_mret|].
  apply keeps_bind; [eauto with keeps|]. intros [info|e]; [eauto with keeps|]. destruct (errors_Is _ _); eauto with keeps.
Qed.
Hint Resolve keeps_list_names : keeps.

Lemma keeps_readDirAt s view ops canonical : keeps_journal (readDirAt E s view ops canonical).
Proof.
  unfold readDirAt. apply keeps_bind; [eauto with keeps|]. intros r. apply keeps_bind; [eauto with keeps|]. intros _.
  apply keeps_bind; [|eauto with keeps]. destruct (rn_local r); eauto with keeps.
Qed.

Lemma keeps_parent s view ops canonical : keeps_journal (requireParentDirectory E s view ops canonical).
Proof. unfold requireParentDirectory. eauto with keeps. Qed.

Lemma keeps_ensure s b data offline : keeps_journal (ensureLocalBody E s b data offline).
Proof.
  unfold ensureLocalBody, PutLocal, ReadLocalBounded. apply keeps_bind; [eauto with keeps|].
  intros [e|e]; [destruct (e_State e)|destruct (errors_Is _ _)]; eauto 6 with keeps.
Qed.

(** The clock never reads the zero time. *)
Definition ticking : Prop := forall t, en_now E t <> 0%Z.

(** ** What a search returns *)

(** The error of a cancelled context is not a missing path. *)
Definition sane : Prop := forall t e, en_cancelled E t = Some e -> errors_Is e ErrPathNotFound = false.

Lemma resolveAt_Ok s view ops canonical w r w' :
  resolveAt E s view ops (length ops) canonical w = (Ok r, w') ->
  exists n, overlay ops (base_tree view) canonical = Some n /\ n_kind n = i_Kind (rn_info r).
Proof.
  rewrite resolveAt_place, overlay_locate. intros H. simplify_M.
  destruct (locate canonical (rev ops)) as [op|n|m|e]; cbn [resolve_place node_at] in *; simplify_M.
  - by eexists.
  - by eexists.
  - unfold base_tree. match goal with H : base_Stat _ _ = _ |- _ => rewrite H end. by eexists.
  - done.
Qed.

Lemma resolveAt_missing s view ops canonical w e w' :
  sane -> resolveAt E s view ops (length ops) canonical w = (Err e, w') -> errors_Is e ErrPathNotFound = true ->
  overlay ops (base_tree view) canonical = None.
Proof.
  intros Hs. rewrite resolveAt_place, overlay_locate. unfold mbind, M_bind, ctx_Err.
  destruct (en_cancelled E (w_tick w)) as [e0|] eqn:Ec; [intros [= <- _] H; by rewrite (Hs _ _ Ec) in H|].
  destruct (locate canonical (rev ops)) as [op|n|m|e0]; cbn [resolve_place node_at]; [| | |done].
  - unfold mbind, M_bind, VerifyLocal, cache_call.
    match goal with |- context [Cache.VerifyLocal ?w ?b ?n ?d] =>
      pose proof (VerifyLocal_alien w b n d) as Ha; destruct (Cache.VerifyLocal w b n d) as [[x|e1] d1] end; [done|].
    intros [= <- _] H. by rewrite (Ha e1 eq_refl) in H.
  - done.
  - unfold base_tree, lift, mbind, M_bind. by destruct (base_Stat view m).
Qed.

Lemma statAt_Ok s view ops canonical w info w' :
  statAt E s view ops (length ops) canonical w = (Ok info, w') ->
  exists n, overlay ops (base_tree view) canonical = Some n /\ n_kind n = i_Kind info.
Proof. unfold statAt. intros H. simplify_M. by eapply resolveAt_Ok. Qed.

Lemma statAt_missing s view ops canonical w e w' :
  sane -> statAt E s view ops (length ops) canonical w = (Err e, w') -> errors_Is e ErrPathNotFound = true ->
  overlay ops (base_tree view) canonical = None.
Proof.
  intros Hs H He. unfold statAt, mbind, M_bind in H.
  destruct (resolveAt _ _ _ _ _ _ _) as [[r|e0] w1] eqn:Er; [done|]. injection H as <- <-. by eapply resolveAt_missing.
Qed.
End Effects.

#[export] Hint Resolve keeps_bind keeps_lift keeps_mret keeps_try keeps_cache_call keeps_ctx keeps_resolve
  keeps_statAt keeps_list_names keeps_readDirAt keeps_parent keeps_ensure : keeps.

(** * Listings and searches of the staging service against the overlay tree. *)

(** ** The operations of a view *)
Section Operations.
Context {L : CidLib} {LL : CidLaws L} {C : CacheLib} {B : Base} {SL : StageLib} (E : env).

(** The listing of a journal state that [operations] computes. *)
Definition view_ops (view : View) (js : persistedState) : list Operation :=
  by_sequence (filter (fun op => in_view view op = true) (listLocked (fun _ => true) js)).

Lemma List_all_Ok w (f : journal_file) all f' :
  Journal.List_all w f = (Ok all, f') ->
  exists js, Durable.view f = Some js /\ all = listLocked (fun _ => true) js /\ f' = f.
Proof.
  intros H. unfold Journal.List_all, list_ops, Journal.withState in H.
  apply (with_state_inv synced_writer eq_refl) in H as [_ H].
  destruct (H _ eq_refl) as (js & js' & Hv & Hop & ->). simplify_eq. eauto.
Qed.

Lemma operations_Ok view w ops w' :
  operations E view w = (Ok ops, w') ->
  exists js, Durable.view (w_journal w) = Some js /\ ops = view_ops view js /\ validateView view = Ok () /\
    w_journal w' = w_journal w /\ w_cache w' = w_cache w.
Proof.
  unfold operations. intros H. simplify_M. destruct x. unfold journal_call in *.
  destruct (Journal.List_all _ _) as [r f] eqn:El. simplify_eq.
  apply List_all_Ok in El as (js & Hv & -> & ->). exists js. done.
Qed.

Lemma view_ops_elem view js op :
  Journal.wf js -> op ∈ view_ops view js <-> Operations js !! op_id op = Some op /\ in_view view op = true.
Proof.
  intros Hwf. unfold view_ops, by_sequence, sort_by_N. rewrite elem_of_sort_by, list_elem_of_filter.
  rewrite listLocked_elem by done. naive_solver.
Qed.

Lemma view_ops_sorted view js :
  Journal.wf js -> StronglySorted (fun a b => (Sequence a < Sequence b)%N) (view_ops view js).
Proof.
  intros Hwf. apply sort_by_N_strict. pose proof (listLocked_sorted (fun _ => true) js Hwf) as Hl.
  assert (NoDup (Sequence <$> listLocked (fun _ => true) js)) as Hnd.
  { clear -Hl. induction Hl as [|a l Hl IH Ha]; cbn; [constructor|]. constructor; [|done].
    intros (b & Eb & Hb)%list_elem_of_fmap. rewrite Forall_forall in Ha. specialize (Ha b Hb). lia. }
  apply NoDup_fmap_2_strong; [|by apply NoDup_filter, (NoDup_fmap_1 Sequence)].
  intros x y [_ Hx]%list_elem_of_filter [_ Hy]%list_elem_of_filter. by apply (NoDup_key_inj Sequence _ _ _ Hnd).
Qed.

(** The journal only records paths without a trailing slash. *)
Lemma normalizePath_ok p q : normalizePath p = Ok q -> q <> EmptyString /\ untailed q.
Proof.
  intros H. destruct (normalizePath_id _ _ H) as [-> _]. unfold normalizePath in H. simplify_result. simplify_guards.
  split; [done|]. by apply path_Clean_untailed.
Qed.

Lemma normalizeIntent_paths i : normalizeIntent i = Ok i ->
  Path i <> EmptyString /\ untailed (Path i) /\
  (IntentKind i = KindRename -> Destination i <> EmptyString /\ untailed (Destination i)).
Proof.
  unfold normalizeIntent. intros H. simplify_result.
  match goal with H : normalizePath _ = Ok ?q |- _ => apply normalizePath_ok in H as Hp; rename q into path end.
  assert (path = Path i) as ->.
  { destruct (IntentKind i) eqn:Ek; simplify_result; match goal with H : _ = i |- _ => by rewrite <- H end. }
  split_and!; [apply Hp|apply Hp|]. intros Ek. rewrite Ek in *. simplify_result.
  match goal with H : normalizePath (TrimSpace (Destination i)) = Ok ?q |- _ =>
    apply normalizePath_ok in H as Hd; assert (q = Destination i) as ->; [|done] end.
  match goal with H : mkIntent _ _ _ _ _ _ _ _ _ _ _ = i |- _ => by rewrite <- H end.
Qed.

Lemma view_ops_paths view js : Journal.wf js -> Forall op_paths_ok (view_ops view js).
Proof.
  intros Hwf. apply Forall_forall. intros op [Hl _]%view_ops_elem; [|done].
  destruct (wf_op js Hwf _ _ Hl) as (Hn & _). apply normalize_op_ok in Hn as [Hi _ _ _ _ _].
  by apply normalizeIntent_paths.
Qed.
End Operations.

(** ** Listings *)

(** What the service relies on in its base: the namespace is a tree, and a
    listing names every child. *)
Class BaseLaws {L : CidLib} {B : Base} (view : View) : Prop := {
  base_is_tree : is_tree (base_tree view);
  base_lists : forall p entries name, base_ReadDir view p = Ok entries -> child_name name ->
    base_tree view (joinPath p name) <> None -> exists entry, entry ∈ entries /\ de_Name entry = name
}.

Section Listing.
Context {L : CidLib} {LL : CidLaws L} {C : CacheLib} {B : Base} {SL : StageLib} (E : env).

(** The result of [list_names]: the names that exist, with their kinds. *)
Lemma list_names_Ok s view ops canonical names w entries w' :
  sane E -> list_names E s view ops canonical names w = (Ok entries, w') ->
  sublist (de_Name <$> entries) names /\
  forall name kind, mkDirEntry name kind ∈ entries <->
    name ∈ names /\ exists n, overlay ops (base_tree view) (joinPath canonical name) = Some n /\ n_kind n = kind.
Proof.
  intros Hs. revert w entries. induction names as [|name names IH]; intros w entries H; cbn [list_names] in H.
  { simplify_M. cbn. split; [constructor|]. intros n k. rewrite !elem_of_nil. naive_solver. }
  simplify_M. destruct x as [info|e].
  - simplify_M. match goal with H : list_names _ _ _ _ _ _ _ = (Ok ?es, _) |- _ => apply IH in H as [IH1 IH2]; rename es into rest end.
    match goal with H : statAt _ _ _ _ _ _ _ = _ |- _ => apply statAt_Ok in H as (nd & Hn & Hk) end.
    split; [by constructor|]. intros name' kind. rewrite !elem_of_cons, IH2. split.
    + intros [[= -> ->]|[? ?]]; [eauto|eauto].
    + intros [[->|?] (n & Hn' & Hk')]; [left|eauto]. simplify_eq. by rewrite Hk.
  - destruct (errors_Is e ErrPathNotFound) eqn:He; [|simplify_M; done].
    match goal with H : statAt _ _ _ _ _ _ _ = _ |- _ => apply statAt_missing in H as Hm; [|done|done] end.
    match goal with H : list_names _ _ _ _ _ _ _ = _ |- _ => apply IH in H as [IH1 IH2] end.
    split; [by constructor|]. intros name' kind. rewrite IH2, elem_of_cons. split; [naive_solver|].
    intros [[->|?] ?]; [|eauto]. naive_solver.
Qed.

(** The place that a resolved directory has. *)
Lemma resolved_dir s view ops canonical w r w' :
  resolveAt E s view ops (length ops) canonical w = (Ok r, w') -> IsDir (rn_info r) = true ->
  is_dir_place (locate canonical (rev ops)) = true /\ rn_createdAt r = created_at (locate canonical (rev ops)) /\
  (forall m, locate canonical (rev ops) = AtBase m -> rn_local r = false /\ rn_remotePath r = m).
Proof.
  rewrite resolveAt_place. intros H Hd. simplify_M.
  destruct (locate canonical (rev ops)) as [op|n|m|e]; cbn [resolve_place] in *; simplify_M; try done.
  split_and!; [done|done|]. by intros m' [= <-].
Qed.

Lemma created_in_split ops created q :
  created_in (rev ops) [] created q ->
  exists pre op later t, drop created ops = pre ++ op :: later /\ target_of op = Some t /\ forwardPath t later = Some q.
Proof.
  intros (post & op & pre & t & Hr & Ht & Hf & Hc). rewrite app_nil_r in Hf.
  assert (ops = rev pre ++ op :: rev post) as ->.
  { rewrite <- (rev_involutive ops), Hr, rev_app_distr. cbn [rev]. by rewrite <- (assoc_L (++)). }
  exists (drop created (rev pre)), op, (rev post), t. split_and!; [|done|done].
  rewrite drop_app_le; [done|]. by rewrite length_rev.
Qed.

(** Every child that exists is among the candidates. *)
Lemma child_candidate s view ops canonical w r w1 entries name :
  BaseLaws view -> child_name name -> untailed canonical -> Forall op_paths_ok ops ->
  resolveAt E s view ops (length ops) canonical w = (Ok r, w1) -> IsDir (rn_info r) = true ->
  (rn_local r = false -> base_ReadDir view (rn_remotePath r) = Ok entries) ->
  overlay ops (base_tree view) (joinPath canonical name) <> None ->
  name ∈ local_candidates canonical
    (if rn_local r then ∅ else base_candidates canonical (rn_remotePath r) entries ops) (drop (rn_createdAt r) ops).
Proof.
  intros HB Hn Hu Hops Hres Hd Hent Hov. destruct (resolved_dir _ _ _ _ _ _ _ Hres Hd) as (Hpl & Hcr & Hbase).
  rewrite overlay_locate in Hov.
  destruct (child_origin name (rev ops) canonical [] (joinPath canonical name)) as [Hin|(m & Em & Eq & Hf)]; auto.
  - by apply Forall_rev.
  - by destruct (locate (joinPath canonical name) (rev ops)).
  - apply local_candidates_spec. right. rewrite Hcr.
    destruct (created_in_split _ _ _ Hin) as (pre & op & later & t & H1 & H2 & H3).
    exists pre, op, later, t, (joinPath canonical name). split_and!; auto using immediateCandidate_child.
  - apply local_candidates_spec. left. destruct (Hbase m Em) as [Hloc Hrem]. rewrite Hloc. rewrite Hrem in *.
    rewrite Eq in Hov. cbn [node_at] in Hov.
    destruct (base_lists m entries name (Hent Hloc) Hn Hov) as (entry & Hin & Hname).
    apply base_candidates_spec. exists entry, (joinPath canonical name). rewrite Hname.
    rewrite rev_involutive, app_nil_r in Hf. auto using immediateCandidate_child.
Qed.

Lemma candidate_name canonical cs ops name :
  (forall n, n ∈ cs -> child_name n) -> name ∈ local_candidates canonical cs ops -> child_name name.
Proof.
  intros Hcs [?|(pre & op & later & t & cur & _ & _ & _ & Hi)]%local_candidates_spec; [auto|].
  by eapply immediateCandidate_name.
Qed.

Lemma readDirAt_exact s view ops canonical w entries w' :
  sane E -> BaseLaws view -> untailed canonical -> Forall op_paths_ok ops ->
  readDirAt E s view ops canonical w = (Ok entries, w') ->
  dir_at (overlay ops (base_tree view)) canonical /\ NoDup (de_Name <$> entries) /\
  StronglySorted (key_le de_Name String.leb) entries /\
  forall name kind, mkDirEntry name kind ∈ entries <->
    child_name name /\ exists n, overlay ops (base_tree view) (joinPath canonical name) = Some n /\ n_kind n = kind.
Proof.
  intros Hs HB Hu Hops H. unfold readDirAt in H. simplify_M. cbv zeta in H.
  match goal with H : resolveAt _ _ _ _ _ _ _ = (Ok ?x, _) |- _ => rename x into r; rename H into Hres end.
  apply fail_if_Ok in H1. apply negb_false_iff in H1. rename H1 into Hd.
  assert (exists es, x3 = (if rn_local r then ∅ else base_candidates canonical (rn_remotePath r) es ops) /\
    (rn_local r = false -> base_ReadDir view (rn_remotePath r) = Ok es)) as (es & -> & Hes).
  { destruct (rn_local r); simplify_M; [by exists []|]. by eexists. }
  apply list_names_Ok in H as [Hsub Hin]; [|done].
  set (cs := local_candidates _ _ _) in *.
  assert (StronglySorted (key_le id String.leb) (sort_by_string id (elements cs))) as Hsorted
    by apply sort_by_string_sorted.
  assert (NoDup (sort_by_string id (elements cs))) as Hnd.
  { unfold sort_by_string. rewrite sort_by_Permutation. apply NoDup_elements. }
  destruct (resolveAt_Ok _ _ _ _ _ _ _ _ Hres) as (nd & Hnd1 & Hk). split_and!.
  - exists nd. split; [done|]. rewrite Hk. by apply bool_decide_eq_true in Hd.
  - by eapply sublist_NoDup.
  - clear -Hsub Hsorted. remember (sort_by_string id (elements cs)) as names. clear Heqnames cs.
    revert names Hsub Hsorted. induction entries as [|e entries IH]; intros names Hsub Hsorted; [constructor|].
    cbn in Hsub. apply sublist_cons_l in Hsub as (k1 & k2 & -> & Hsub).
    apply StronglySorted_app_1_r in Hsorted. apply StronglySorted_inv in Hsorted as [Hs1 Hall].
    constructor; [by eapply IH|]. apply Forall_forall. intros e' He'. apply (proj1 (Forall_forall _ _) Hall).
    eapply sublist_subseteq; [exact Hsub|]. change (de_Name e' ∈ de_Name <$> entries). by apply list_elem_of_fmap_2.
  - intros name kind. rewrite Hin. unfold sort_by_string. rewrite elem_of_sort_by, elem_of_elements. split.
    + intros [Hc ?]. split; [|done]. eapply candidate_name; [|exact Hc]. intros n Hn. destruct (rn_local r); [set_solver|].
      apply base_candidates_spec in Hn as (e & cur & _ & _ & Hi). by eapply immediateCandidate_name.
    + intros [Hn (n & Hov & Hkd)]. split; [|by exists n]. eapply child_candidate; eauto. by rewrite Hov.
Qed.
End Listing.
