(* ===== verification/StagingWrites.v ===== *)
(** The bodies that staged operations refer to: what the calls of the staging
    service do to the local bodies of the cache. *)

From stdpp Require Import base decidable gmap strings list sorting.
From Stdlib Require Import Ascii ZArith.
From S2P Require Import Prelude GoText Branch CidLib Durable Journal JournalFacts JournalOps JournalThms Cache CacheFacts CacheHistory CacheThms Paths Staging Overlay StagingFacts.

Section Holding.
Context {L : CidLib} {LL : CidLaws L} {C : CacheLib} {CL : CacheLaws C}.

(** The cache has [full] as the local body of a binding. *)
Definition holds (d : cache_dir) (b : Binding) (full : body) : Prop :=
  exists m b' e, Durable.view (meta d) = Some m /\ normalizeBinding b = Ok b' /\ local_body m d b' e full.

(** A change of the metadata that keeps the local entry at [id]: its state may
    become another local one. *)
Definition local_stays (id : string) (m m' : metadata) : Prop :=
  Cache.wf m' /\ forall e, Entries m !! id = Some e -> isLocalBodyState (e_State e) = true ->
  exists e', Entries m' !! id = Some e' /\ e_Binding e' = e_Binding e /\ isLocalBodyState (e_State e') = true /\
    e_Size e' = e_Size e.

Lemma local_has_body m d b e full : Cache.wf m -> local_body m d b e full -> has_body m (bindingID b).
Proof.
  intros Hwf [H1 _ H3 _ _ _]. exists e. split; [done|]. destruct (wf_entry_ok _ _ _ Hwf H1) as [[_ _ _ _ Hso] _].
  destruct (e_State e); cbn in H3; try done; apply Hso.
Qed.

(** A section keeps a body when it keeps the entry and the file. *)
Lemma section_holds {A} w write (op : metadata -> cache_dir -> result (A * metadata) * cache_dir) d b b' full :
  holds d b full -> normalizeBinding b = Ok b' ->
  (forall m e, Durable.view (meta d) = Some m -> local_body m d b' e full ->
     outcome (local_stays (bindingID b')) d (withState w write op d).2 /\
     forall d1, blobs (op m d1).2 !! blob_name (bindingID b') = blobs d1 !! blob_name (bindingID b')) ->
  holds (withState w write op d).2 b full.
Proof.
  intros (m & b0 & e & Hv & Hb & Hlb) Hb' Hop. assert (b0 = b') as -> by congruence.
  destruct (Hop m e Hv Hlb) as [Ho Hbl]. pose proof (cache_view_wf _ _ Hv) as Hwf.
  pose proof (withState_blobs w write op d m _ Hv (local_has_body _ _ _ _ _ Hwf Hlb) Hbl) as Hfile.
  destruct Hlb as [H1 H2 H3 H4 H5 H6]. destruct Ho as [Em|(m0 & m' & Hv0 & [Hwf' Hs] & Em)].
  - exists m, b', e. rewrite Em. split_and!; [done|done|]. split; try done. by rewrite Hfile.
  - assert (m0 = m) as -> by congruence. destruct (Hs e H1 H3) as (e' & He' & Eb & El & Es).
    exists m', b', e'. rewrite Em. split_and!; [by apply cache_view_Decodes|done|]. split; try congruence.
Qed.

Lemma local_stays_refl id m : Cache.wf m -> local_stays id m m.
Proof. intros H. split; [done|]. intros e He Hl. by exists e. Qed.

Lemma local_stays_put id m id' e :
  Cache.wf m -> entry_ok e -> bindingID (e_Binding e) = id' ->
  (id' = id -> exists e0, Entries m !! id = Some e0 /\ e_Binding e = e_Binding e0 /\
     isLocalBodyState (e_State e) = true /\ e_Size e = e_Size e0) ->
  local_stays id m (stamped (put_entry m id' e)).
Proof.
  intros Hwf Hok Hid Hsame. split; [by apply put_entry_wf; [|apply normalizeEntry_ok|]|].
  intros e0 He0 Hl. unfold stamped, put_entry. cbn [Entries]. rewrite lookup_insert. case_decide as Ed; [|by exists e0].
  destruct (Hsame Ed) as (e1 & H1 & H2 & H3 & H4). simplify_eq. by exists e.
Qed.

(** Calls that only read. *)
Lemma read_holds {A} w (op : metadata -> cache_dir -> result (A * metadata)) d b full :
  holds d b full -> holds (withState w false (pure_op op) d).2 b full.
Proof.
  intros H. pose proof H as (m & b' & e & _ & Hb & _). eapply section_holds; [done|done|]. intros m0 e0 _ _.
  split; [apply read_outcome|done].
Qed.

Lemma method_holds {A X} (args : result A) d (run : A -> result X * cache_dir) b full :
  holds d b full -> (forall a, args = Ok a -> holds (run a).2 b full) -> holds (method args d run).2 b full.
Proof. intros H Hr. destruct args; [by apply Hr|done]. Qed.

Lemma VerifyLocal_holds w b0 n d b full : holds d b full -> holds (Cache.VerifyLocal w b0 n d).2 b full.
Proof. intros H. apply method_holds; [done|]. intros b1 _. by apply read_holds. Qed.
Lemma ReadLocalBounded_holds w b0 n d b full : holds d b full -> holds (Cache.ReadLocalBounded w b0 n d).2 b full.
Proof. intros H. apply method_holds; [done|]. intros b1 _. by apply read_holds. Qed.
Lemma ReadLocalRange_holds w sp b0 o k n d b full : holds d b full -> holds (Cache.ReadLocalRange w sp b0 o k n d).2 b full.
Proof. intros H. apply method_holds; [done|]. intros b1 _. by apply read_holds. Qed.
Lemma Inspect_holds w b0 d b full : holds d b full -> holds (Cache.Inspect w b0 d).2 b full.
Proof. intros H. apply method_holds; [done|]. intros b1 _. by apply read_holds. Qed.
Lemma List_all_holds w d b full : holds d b full -> holds (Cache.List_all w d).2 b full.
Proof. intros H. by apply read_holds. Qed.

(** The entry of a body that is held. *)
Definition entry_at (d : cache_dir) (b : Binding) (oe : option Entry) : Prop :=
  exists m b', Durable.view (meta d) = Some m /\ normalizeBinding b = Ok b' /\ Entries m !! bindingID b' = oe.

(** A put or a transition of a binding whose entry is not local keeps the
    bodies that are held. *)
Definition not_local (d : cache_dir) (b : Binding) : Prop :=
  exists oe, entry_at d b oe /\ forall e, oe = Some e -> isLocalBodyState (e_State e) = false.

Lemma not_local_other d b0 full b1 b' m e :
  not_local d b0 -> normalizeBinding b0 = Ok b1 -> Durable.view (meta d) = Some m -> local_body m d b' e full ->
  bindingID b1 <> bindingID b'.
Proof.
  intros (oe & (m0 & b2 & Hv0 & Hb2 & Hoe) & Hnl) Hb1 Hv [H1 _ H3 _ _ _] E0.
  assert (oe = Some e) as Hs by congruence. by rewrite (Hnl e Hs) in H3.
Qed.

Lemma PutLocal_holds w now b0 data st d b full :
  now <> 0%Z -> not_local d b0 -> holds d b full -> holds (Cache.PutLocal w now b0 data st d).2 b full.
Proof.
  intros Hn Hnl H. unfold Cache.PutLocal. apply method_holds; [done|]. intros e0 He0. simplify_result.
  match goal with H : negb _ && negb _ = false |- _ => apply andb_false_iff in H end.
  assert (st = StateLocalDirty \/ st = StateOfflineOnly) as Hst by (destruct_or!; simplify_guards; auto).
  match goal with H : normalizeBinding b0 = Ok ?x |- _ => rename x into b1; rename H into Hb1 end.
  destruct (normalizeBinding_inv _ _ Hb1) as (_ & _ & _ & Hid).
  match goal with |- context [putLocked w ?e data] => set (e1 := e) end.
  assert (holds (withState w false (putLocked w e1 data) d).2 b full) as Hh;
    [|by destruct (withState w false (putLocked w e1 data) d)].
  pose proof H as (m0 & b' & e' & _ & Hb & _). eapply section_holds; [done|done|]. intros m e Hv Hlb.
  pose proof (not_local_other _ _ _ _ _ _ _ Hnl Hb1 Hv Hlb) as Hne. split.
  - apply withState_outcome. intros m1 d1 Hv1 Hwf1. split; [|done]. apply putLocked_writes; [done|].
    apply local_stays_put; [done| |done|done]. split; cbn; try done; [lia|by destruct Hst as [->| ->]].
  - intros d1. by apply putLocked_blobs.
Qed.

Lemma entry_state_ok e next now :
  entry_ok e -> e_BodyPresent e = true -> isLocalBodyState next = true -> now <> 0%Z ->
  entry_ok (mkEntry (e_Binding e) next None (e_BodyPresent e) (e_Size e) now).
Proof. intros [H1 H2 H3 H4 H5] Hp Hn Hnow. split; cbn; try done. by rewrite Hp; destruct next. Qed.

Lemma Transition_holds w now b0 next d b full :
  now <> 0%Z -> not_local d b0 -> holds d b full -> holds (Cache.Transition w now b0 next d).2 b full.
Proof.
  intros Hn Hnl H. unfold Cache.Transition. apply method_holds; [done|]. intros b1 Hb1.
  pose proof H as (m0 & b' & e' & _ & Hb & _). eapply section_holds; [done|done|]. intros m e Hv Hlb.
  pose proof (not_local_other _ _ _ _ _ _ _ Hnl Hb1 Hv Hlb) as Hne. split; [|done].
  apply pure_outcome. intros m1 d1 a m' Hwf1 Ht. unfold transitionLocked in Ht. simplify_result. simplify_guards.
  match goal with H : Entries m1 !! _ = Some ?x |- _ => destruct (wf_entry_ok _ _ _ Hwf1 H) as [Hok Hid] end.
  apply local_stays_put; [done|by apply transition_ok|done|done].
Qed.

Lemma ReconcileLocalState_holds w now b0 next n d b full :
  now <> 0%Z -> holds d b full -> holds (Cache.ReconcileLocalStateBounded w now b0 next n d).2 b full.
Proof.
  intros Hn H. unfold Cache.ReconcileLocalStateBounded. apply method_holds; [done|]. intros b1 Hb1. simplify_result.
  simplify_guards. pose proof H as (m0 & b' & e' & _ & Hb & _). eapply section_holds; [done|done|]. intros m e Hv Hlb. split.
  - apply withState_outcome. intros m1 d1 Hv1 Hwf1. split; [|done]. unfold reconcileStateLocked.
    destruct (mbind _ _) as [e1|] eqn:E1; [|by left]. simplify_result. simplify_guards.
    match goal with H : Entries m1 !! _ = Some _ |- _ => rename H into Hl; destruct (wf_entry_ok _ _ _ Hwf1 Hl) as [Hok Hid] end.
    destruct (writeMetadata _ _ d1) as [rw d2] eqn:Ew. assert (outcome (local_stays (bindingID b')) d1 d2) as Ho; [|by destruct rw].
    eapply write_outcome; [done| |exact Ew]. apply local_stays_put; [done|by apply entry_state_ok|done|].
    intros Eid. rewrite <- Eid. cbn. eauto.
  - intros d1. unfold reconcileStateLocked. destruct (mbind _ _) as [e1|]; [|done].
    pose proof (writeMetadata_blobs w (put_entry m (bindingID b1) e1) d1) as Hw.
    destruct (writeMetadata _ _ _) as [[|] d2]; cbn [snd] in *; by rewrite Hw.
Qed.

Lemma Remove_holds w b0 d b b1 b' full :
  normalizeBinding b0 = Ok b1 -> normalizeBinding b = Ok b' -> bindingID b1 <> bindingID b' ->
  holds d b full -> holds (Cache.Remove w b0 d).2 b full.
Proof.
  intros Hb1 Hb Hne H. unfold Cache.Remove. apply method_holds; [done|]. intros b2 Hb2.
  assert (b2 = b1) as -> by congruence. assert (forall d1, blobs (removeBody w (bindingID b1) d1).2 !! blob_name (bindingID b') = blobs d1 !! blob_name (bindingID b')) as Hrb.
  { intros d1. apply removeBody_blobs. intros E0%blob_name_inj. congruence. }
  eapply section_holds; [done|done|]. intros m e Hv Hlb. split.
  - apply withState_outcome. intros m1 d1 Hv1 Hwf1. split; [|done]. unfold removeLocked. cbv zeta.
    destruct (Entries m1 !! bindingID b1) as [ex|]; [|by left].
    pose proof (removeBody_meta w (bindingID b1) d1) as Hm. destruct (removeBody w _ d1) as [rm d2]. cbn [snd] in Hm.
    destruct (negb rm); [by left|]. destruct (writeMetadata _ _ d2) as [rw d3] eqn:Ew.
    assert (outcome (local_stays (bindingID b')) d1 d3) as Ho; [|by destruct rw].
    apply (outcome_meta _ _ d2); [|done]. eapply (write_outcome _ w m1); [by rewrite Hm| |exact Ew]. split.
    + apply (meta_step_delete (CallRemove b0)); [done|]. by exists b1.
    + intros e1 He1 Hl1. exists e1. unfold stamped. cbn [Entries]. by rewrite lookup_delete_ne.
  - intros d1. unfold removeLocked. cbv zeta. destruct (Entries m !! bindingID b1); [|done].
    specialize (Hrb d1). destruct (removeBody w _ d1) as [rm d2]. cbn [snd] in Hrb. destruct (negb rm); [done|].
    pose proof (writeMetadata_blobs w (mkMetadata (md_Version m) (delete (bindingID b1) (Entries m))) d2) as H2.
    destruct (writeMetadata _ _ _) as [[|] d3]; cbn [snd] in *; congruence.
Qed.

(** ** How a body comes to be held *)
Lemma PutLocal_puts w now b data st d e d1 :
  now <> 0%Z -> Cache.PutLocal w now b data st d = (Ok e, d1) -> holds d1 b data.
Proof. intros Hn H. apply put_local_body in H as (m & b' & Hv & Hb & Hlb); [|done]. by exists m, b', e. Qed.

Lemma opened_local m d b b' e w n full :
  Cache.wf m -> normalizeBinding b = Ok b' -> Entries m !! bindingID b' = Some e ->
  openBounded w (bindingID b') e n (swept w m d) = Ok full ->
  (exists c, b_CID b' = Some c /\ cid_Sum c full = Some c) -> local_body m d b' e full.
Proof.
  intros Hwf Hb He Ho Hc. apply openBounded_Ok in Ho as (H1 & H2 & H3 & H4 & _).
  pose proof (wf_binding _ _ _ _ Hwf Hb He) as Eb. split; try done. by rewrite (swept_body _ _ _ _ _ He) in H3.
Qed.

Lemma VerifyLocal_finds w b n d e d1 :
  Cache.VerifyLocal w b n d = (Ok e, d1) -> exists full, holds d b full /\ e_Size e = Z.of_nat (length full) /\
    (N.of_nat (length full) <= n)%N.
Proof.
  unfold Cache.VerifyLocal. destruct (normalizeBinding b) as [b'|] eqn:Hb; [|done]. cbn [method].
  intros (m & m' & Hv & Hop & ->)%pure_section_Ok. unfold verifyLocked in Hop. simplify_result.
  match goal with H : openBounded _ _ _ _ _ = Ok ?x |- _ => rename x into full; rename H into Ho end.
  match goal with H : Entries _ !! _ = Some _ |- _ => rename H into He end.
  pose proof (cache_view_wf _ _ Hv) as Hwf. pose proof (wf_binding _ _ _ _ Hwf Hb He) as Eb.
  destruct (normalizeBinding_inv _ _ Hb) as (_ & _ & (c & Hc) & _).
  pose proof (openBounded_Ok _ _ _ _ _ _ Ho) as (_ & _ & _ & Hsz & Hle & _). exists full. split_and!; [|done|done].
  exists m', b', e. split_and!; [done|done|]. eapply opened_local; try done. exists c. split; [done|].
  match goal with H : verifyLocalStream _ _ _ = Ok _ |- _ => rewrite Eb, Hc, Hsz in H; by apply verifyLocalStream_Ok in H end.
Qed.

Lemma ReadLocalBounded_finds w b n d data e d1 :
  Cache.ReadLocalBounded w b n d = (Ok (data, e), d1) -> holds d b data.
Proof.
  unfold Cache.ReadLocalBounded. destruct (normalizeBinding b) as [b'|] eqn:Hb; [|done]. cbn [method].
  intros (m & m' & Hv & Hop & ->)%pure_section_Ok. unfold readBoundedLocked in Hop. simplify_result.
  match goal with H : openBounded _ _ _ _ _ = Ok ?x |- _ => rename x into full; rename H into Ho end.
  match goal with H : Entries _ !! _ = Some _ |- _ => rename H into He end.
  destruct (verifyPayloadCID _ _) eqn:Ec; [|done]. simplify_result.
  pose proof (openBounded_Ok _ _ _ _ _ _ Ho) as (_ & _ & _ & Hsz & _).
  assert (take (Z.to_nat (e_Size e)) full = full) as Et by (by rewrite Hsz, Nat2Z.id, firstn_all).
  rewrite Et in *. destruct (normalizeBinding_inv _ _ Hb) as (_ & _ & (c & Hc) & _).
  exists m', b', e. split_and!; [done|done|]. eapply opened_local; try done; [by eapply cache_view_wf|]. exists c.
  split; [done|]. rewrite Hc in Ec. by apply verifyPayloadCID_Ok in Ec.
Qed.

Lemma Inspect_entry w b d r d1 :
  Cache.Inspect w b d = (r, d1) -> (forall e, r = Ok e -> entry_at d1 b (Some e)) /\
  (forall e, r = Err e -> errors_Is e ErrMiss = true -> entry_at d1 b None).
Proof.
  unfold Cache.Inspect. pose proof (normalizeBinding_alien _ tells_miss b) as Ha.
  destruct (normalizeBinding b) as [b'|err] eqn:Hb; cbn [method].
  - intros [Hm [(e0 & -> & He0)|(m & Hv & ->)]]%(read_section_cases _ tells_miss).
    + split; [done|]. intros e [= <-] He. by rewrite He0 in He.
    + rewrite <- Hm in Hv. destruct (Entries m !! bindingID b') as [e0|] eqn:El; cbn; split; intros e; try done.
      * intros [= <-]. by exists m, b'.
      * intros _ _. by exists m, b'.
  - intros [= <- <-]. split; [done|]. intros e [= <-] He. by rewrite (Ha err eq_refl) in He.
Qed.
Lemma write_section_Ok {A} w (op : metadata -> cache_dir -> result (A * metadata)) d a d' :
  Cache.withState w true (pure_op op) d = (Ok a, d') ->
  exists m m', Durable.view (meta d) = Some m /\ op m (swept w m d) = Ok (a, m') /\ meta d' = Some (Decodes (stamped m')).
Proof.
  unfold Cache.withState, swept. destruct (mbind _ _) as [m|] eqn:E; [|done]. simplify_result. intros H.
  assert (Durable.view (meta d) = Some m) as Hv by by eapply (reload_view (io_meta w)).
  destruct (reconcileLocked w m d) as [[[]|] d1] eqn:Er; [|done]. unfold pure_op in H.
  destruct (op m d1) as [[x m']|] eqn:Eo; [|done]. destruct (writeMetadata w m' d1) as [[[]|] d3] eqn:Ew; [|done].
  simplify_eq. exists m, m'. rewrite Er. cbn [snd]. split_and!; try done.
  destruct (writeMetadata_spec _ _ _ _ _ Ew) as (_ & _ & Hm). by apply Hm.
Qed.

Lemma Transition_entry w now b next d e d1 :
  now <> 0%Z -> Cache.Transition w now b next d = (Ok e, d1) -> entry_at d1 b (Some e) /\ e_State e = next.
Proof.
  intros Hn. unfold Cache.Transition. destruct (normalizeBinding b) as [b'|] eqn:Hb; [|done]. cbn [method].
  intros (m & m' & Hv & Hop & Hm)%write_section_Ok. unfold transitionLocked in Hop. simplify_result. simplify_guards.
  split; [|done]. pose proof (cache_view_wf _ _ Hv) as Hwf.
  match goal with H : Entries m !! _ = Some ?x |- _ => destruct (wf_entry_ok _ _ _ Hwf H) as [Hok Hid] end.
  eexists _, b'. split_and!; [rewrite Hm; apply cache_view_Decodes|done|unfold stamped, put_entry; cbn; apply lookup_insert_eq].
  apply put_entry_wf; [done| |done]. apply normalizeEntry_ok. by apply transition_ok.
Qed.
End Holding.

(** ** The calls of the service *)
Create HintDb bodies.

Section Service.
Context {L : CidLib} {LL : CidLaws L} {C : CacheLib} {CL : CacheLaws C} {B : Base} {SL : StageLib} (E : env)
  (Htick : ticking E).

Definition keeps_bodies {X} (m : M X) : Prop :=
  forall w b full, holds (w_cache w) b full -> holds (w_cache (m w).2) b full.

Lemma bodies_bind {X Y} (m : M X) (f : X -> M Y) :
  keeps_bodies m -> (forall x, keeps_bodies (f x)) -> keeps_bodies (m ≫= f).
Proof.
  intros Hm Hf w b full H. unfold mbind, M_bind. specialize (Hm w b full H). destruct (m w) as [[x|] w1]; [|done].
  by apply Hf.
Qed.
Lemma bodies_lift {X} (r : result X) : keeps_bodies (lift r).
Proof. by intros w b full. Qed.
Lemma bodies_mret {X} (x : X) : keeps_bodies (mret (M := M) x).
Proof. by intros w b full. Qed.
Lemma bodies_try {X} (m : M X) : keeps_bodies m -> keeps_bodies (try m).
Proof. intros H w b full Hh. unfold try. specialize (H w b full Hh). by destruct (m w). Qed.
Lemma bodies_wrapM {X} text (m : M X) : keeps_bodies m -> keeps_bodies (wrapM text m).
Proof. intros H w b full Hh. unfold wrapM. specialize (H w b full Hh). by destruct (m w). Qed.
Lemma bodies_enter {X} s (m : M X) : keeps_bodies m -> keeps_bodies (enter s m).
Proof. intros H. unfold enter. destruct (sv_closed s); [apply bodies_lift|done]. Qed.
Lemma bodies_cache {X} (op : cache_io -> time -> cache_dir -> result X * cache_dir) :
  (forall w now d b full, now <> 0%Z -> holds d b full -> holds (op w now d).2 b full) -> keeps_bodies (cache_call E op).
Proof.
  intros H w b full Hh. unfold cache_call. specialize (H (en_cache E (w_tick w)) (en_now E (w_tick w)) (w_cache w) b full (Htick _) Hh).
  by destruct (op _ _ _).
Qed.
Lemma bodies_journal {X} (op : io -> time -> journal_file -> result X * journal_file) : keeps_bodies (journal_call E op).
Proof. intros w b full Hh. unfold journal_call. by destruct (op _ _ _). Qed.
Lemma bodies_ctx : keeps_bodies (ctx_Err E).
Proof. by intros w b full. Qed.
Lemma bodies_draw : keeps_bodies (draw E).
Proof. by intros w b full. Qed.

#[local] Hint Resolve bodies_bind bodies_lift bodies_mret bodies_try bodies_wrapM bodies_journal bodies_ctx bodies_draw : bodies.

Lemma bodies_verify s b : keeps_bodies (VerifyLocal E s b).
Proof. apply bodies_cache. intros. by apply VerifyLocal_holds. Qed.
Lemma bodies_read s b : keeps_bodies (ReadLocalBounded E s b).
Proof. apply bodies_cache. intros. by apply ReadLocalBounded_holds. Qed.
#[local] Hint Resolve bodies_verify bodies_read : bodies.

Lemma bodies_operations view : keeps_bodies (operations E view).
Proof. unfold operations. eauto with bodies. Qed.
Lemma bodies_resolve s view ops canonical : keeps_bodies (resolveAt E s view ops (length ops) canonical).
Proof.
  rewrite resolveAt_place. apply bodies_bind; [apply bodies_ctx|]. intros _.
  destruct (locate _ _); cbn [resolve_place]; eauto with bodies.
Qed.
#[local] Hint Resolve bodies_operations bodies_resolve : bodies.
Lemma bodies_statAt s view ops canonical : keeps_bodies (statAt E s view ops (length ops) canonical).
Proof. unfold statAt. eauto with bodies. Qed.
#[local] Hint Resolve bodies_statAt : bodies.

Lemma bodies_list_names s view ops canonical names : keeps_bodies (list_names E s view ops canonical names).
Proof.
  induction names as [|n names IH]; cbn [list_names]; [apply bodies_mret|].
  apply bodies_bind; [eauto with bodies|]. intros [info|e]; [eauto with bodies|]. destruct (errors_Is _ _); eauto with bodies.
Qed.
#[local] Hint Resolve bodies_list_names : bodies.

Lemma bodies_readDirAt s view ops canonical : keeps_bodies (readDirAt E s view ops canonical).
Proof.
  unfold readDirAt. apply bodies_bind; [eauto with bodies|]. intros r. apply bodies_bind; [eauto with bodies|]. intros _.
  apply bodies_bind; [|eauto with bodies]. destruct (rn_local r); eauto with bodies.
Qed.
Lemma bodies_parent s view ops canonical : keeps_bodies (requireParentDirectory E s view ops canonical).
Proof. unfold requireParentDirectory. eauto with bodies. Qed.
Lemma bodies_append view kind path destination payload offline :
  keeps_bodies (appendIntent E view kind path destination payload offline).
Proof. unfold appendIntent. eauto with bodies. Qed.
#[local] Hint Resolve bodies_readDirAt bodies_parent bodies_append : bodies.

Lemma bodies_appendNamespace view kind path destination offline :
  keeps_bodies (appendNamespace E view kind path destination offline).
Proof. unfold appendNamespace. eauto with bodies. Qed.
Lemma bodies_current s view ops canonical : keeps_bodies (currentFileBodyLocked E s view ops canonical).
Proof.
  unfold currentFileBodyLocked. apply bodies_bind; [eauto with bodies|]. intros r. cbv zeta.
  do 3 (apply bodies_bind; [apply bodies_lift|]; intros _). destruct (rn_local r); eauto 8 with bodies.
Qed.
#[local] Hint Resolve bodies_appendNamespace bodies_current : bodies.

(** What making sure of a body may do, whatever its result. *)
Definition ensures (b0 : Binding) (data : body) (w : world) (res : result unit * world) : Prop :=
  (forall b full, holds (w_cache w) b full -> holds (w_cache res.2) b full) /\
  (is_ok res.1 = true -> holds (w_cache res.2) b0 data) /\ w_journal res.2 = w_journal w.

(** Putting a body where no local one is. *)
Lemma put_where b0 data offline w :
  not_local (w_cache w) b0 -> ensures b0 data w ((_ ← PutLocal E b0 data (cacheState offline); mret ()) w).
Proof.
  intros Hnl. unfold PutLocal, cache_call, mbind, M_bind.
  pose proof (fun b full => PutLocal_holds (en_cache E (w_tick w)) (en_now E (w_tick w)) b0 data (cacheState offline)
    (w_cache w) b full (Htick _) Hnl) as Hk.
  destruct (Cache.PutLocal _ _ _ _ _ _) as [[e|e] d1] eqn:Ep; cbn in *; split_and!; auto; try done.
  intros _. by eapply PutLocal_puts.
Qed.

Lemma read_where s b0 data w :
  ensures b0 data w ((existing ← ReadLocalBounded E s b0;
    lift (fail_if (negb (bool_decide (existing.1 = data)))
      (Errorf "local cache body does not match its content identity"))) w).
Proof.
  unfold ReadLocalBounded, cache_call, mbind, M_bind, lift.
  pose proof (fun b full => ReadLocalBounded_holds (en_cache E (w_tick w)) b0 (stagedFileLimit s) (w_cache w) b full) as Hk.
  destruct (Cache.ReadLocalBounded _ _ _ _) as [[[body0 e0]|err] d2] eqn:Er; cbn [w_cache w_journal snd fst] in *;
    split_and!; auto; try done.
  cbn [fst snd]. case_bool_decide as Eb; [|done]. intros _. subst. apply Hk. by eapply ReadLocalBounded_finds.
Qed.

Lemma ensures_after {X} b0 data w (m : M X) (f : X -> M unit) :
  keeps_journal m -> (forall b full, holds (w_cache w) b full -> holds (w_cache (m w).2) b full) ->
  (forall x w1, m w = (Ok x, w1) -> ensures b0 data w1 (f x w1)) -> ensures b0 data w ((m ≫= f) w).
Proof.
  intros Hj Hb Hf. unfold mbind, M_bind. specialize (Hj w). destruct (m w) as [[x|e] w1]; cbn [snd] in *.
  - destruct (Hf x w1 eq_refl) as (H1 & H2 & H3). split_and!; auto. by rewrite H3.
  - split_and!; auto. done.
Qed.

(** [ensureLocalBody] keeps every body that is held, and holds its own. *)
Lemma ensure_spec s b0 data offline w : ensures b0 data w (ensureLocalBody E s b0 data offline w).
Proof.
  unfold ensureLocalBody. apply ensures_after; [eauto with keeps| |].
  { intros b full H. unfold try, cache_call. pose proof (Inspect_holds (en_cache E (w_tick w)) b0 _ b full H) as Hi.
    by destruct (Cache.Inspect _ _ _). }
  intros r w1 H%try_Ok. unfold cache_call in H. destruct (Cache.Inspect _ _ _) as [ri d1] eqn:Ei.
  apply Inspect_entry in Ei as [Hok Hmiss]. simplify_eq. set (w1 := mkWorld d1 (w_journal w) (S (w_tick w))) in *.
  change d1 with (w_cache w1) in Hok, Hmiss. clearbody w1. destruct r as [e|e].
  - assert (isLocalBodyState (e_State e) = false -> not_local (w_cache w1) b0) as Hnl.
    { intros Hs. exists (Some e). split; [by apply Hok|]. by intros e' [= <-]. }
    assert (isLocalBodyState (e_State e) = false ->
      ensures b0 data w1 ((_ ← cache_call E (fun w now d => Cache.Transition w now b0 StateStale d);
             _ ← PutLocal E b0 data (cacheState offline); mret ()) w1)) as Htrans.
    { intros Hs. apply ensures_after; [eauto with keeps| |].
      - intros b full H. unfold cache_call.
        pose proof (Transition_holds (en_cache E (w_tick w1)) (en_now E (w_tick w1)) b0 StateStale _ b full (Htick _) (Hnl Hs) H) as Hi.
        by destruct (Cache.Transition _ _ _ _ _).
      - intros e1 w2 H. apply put_where. unfold cache_call in H. destruct (Cache.Transition _ _ _ _ _) as [rt d2] eqn:Et.
        simplify_eq. apply Transition_entry in Et as [He1 Hst]; [|done]. exists (Some e1). split; [done|].
        intros e' [= <-]. by rewrite Hst. }
    destruct (e_State e); auto using put_where, read_where.
  - destruct (errors_Is e ErrMiss) eqn:He; [|by split_and!]. apply put_where. exists None.
    split; [by apply (Hmiss e)|done].
Qed.
End Service.

(** * Mutations of the staging service: every successful one appends a single
    operation to the view, whose guards keep the overlay a tree. *)

(** Lists sorted by a strictly increasing key are determined by their
    elements. *)
Lemma strict_ext {A} (key : A -> N) l1 l2 :
  StronglySorted (fun a b => (key a < key b)%N) l1 -> StronglySorted (fun a b => (key a < key b)%N) l2 ->
  (forall x, x ∈ l1 <-> x ∈ l2) -> l1 = l2.
Proof.
  revert l2. induction l1 as [|a l1 IH]; intros [|b l2] H1 H2 Hm.
  - done.
  - exfalso. apply (elem_of_nil b), Hm. by left.
  - exfalso. apply (elem_of_nil a), Hm. by left.
  - apply StronglySorted_inv in H1 as [H1 Ha], H2 as [H2 Hb]. rewrite Forall_forall in Ha, Hb.
    assert (a = b) as ->.
    { assert (a ∈ b :: l2) as [->|Hab]%elem_of_cons by (apply Hm; by left); [done|].
      assert (b ∈ a :: l1) as [->|Hba]%elem_of_cons by (apply Hm; by left); [done|].
      specialize (Ha _ Hba). specialize (Hb _ Hab). lia. }
    f_equal. apply IH; [done|done|]. intros o. specialize (Hm o). rewrite !elem_of_cons in Hm. split; intros Ho.
    + destruct (proj1 Hm (or_intror Ho)) as [->|]; [|done]. specialize (Ha _ Ho). lia.
    + destruct (proj2 Hm (or_intror Ho)) as [->|]; [|done]. specialize (Hb _ Ho). lia.
Qed.

Section Append.
Context {L : CidLib} {LL : CidLaws L} {C : CacheLib} {B : Base} {SL : StageLib} (E : env).

Lemma canonicalPath_Ok raw allowRoot p :
  canonicalPath raw allowRoot = Ok p ->
  p = raw /\ TrimSpace p = p /\ untailed p /\ (allowRoot = false -> p <> EmptyString).
Proof.
  unfold canonicalPath. destruct (bool_decide (raw = EmptyString) && allowRoot) eqn:Eg.
  - apply andb_true_iff in Eg as [->%bool_decide_eq_true ->]. intros [= <-]. split_and!; [done|done|apply untailed_empty|done].
  - intros H. simplify_result. simplify_guards.
    match goal with H : ParseCanonicalStagedPath _ = _ |- _ => apply ParseCanonicalStagedPath_spec in H as (E1 & E2 & E3 & E4) end.
    rewrite E1. split_and!; [done|done|done|]. intros _ Hr. rewrite Hr in E1.
    destruct E3 as [|w l [Hw _] _]; [done|]. destruct l; cbn in E1; [done|]. by destruct w.
Qed.

Lemma normalizeIntent_fields i i' :
  normalizeIntent i = Ok i' ->
  OperationID i' = TrimSpace (OperationID i) /\ DatasetID i' = TrimSpace (DatasetID i) /\
  Branch i' = TrimSpace (Branch i) /\ canonicalCID (TrimSpace (BaseRoot i)) = Ok (BaseRoot i') /\
  BaseRevision i' = BaseRevision i /\ IntentKind i' = IntentKind i /\ Path i' = TrimSpace (Path i) /\
  Destination i' = TrimSpace (Destination i) /\ EncryptionEpoch i' = EncryptionEpoch i /\
  (IntentKind i = KindWrite -> canonicalCID (TrimSpace (PayloadCID i)) = Ok (PayloadCID i')).
Proof.
  unfold normalizeIntent. intros H. simplify_result.
  repeat match goal with H : wrap_err _ _ = Ok _ |- _ => apply wrap_err_Ok in H end.
  match goal with H : normalizePath _ = Ok _ |- _ => apply normalizePath_id in H as [-> _] end.
  destruct (IntentKind i) eqn:Ek; simplify_result;
    repeat match goal with H : wrap_err _ _ = Ok _ |- _ => apply wrap_err_Ok in H end;
    try match goal with H : normalizePath _ = Ok _ |- _ => apply normalizePath_id in H as [-> _] end;
    cbn; split_and!; try done.
Qed.

(** The operation that an append of the service records for a view. *)
Record records (view : View) (kind : Kind) (path destination payload : string) (op : Operation) : Prop := {
  rec_view : in_view view op = true;
  rec_kind : IntentKind (op_Intent op) = kind;
  rec_path : Path (op_Intent op) = path;
  rec_destination : Destination (op_Intent op) = destination;
  rec_payload : kind = KindWrite -> canonicalCID (TrimSpace payload) = Ok (PayloadCID (op_Intent op))
}.

Lemma validateView_Ok view :
  validateView view = Ok () ->
  TrimSpace (v_DatasetID view) = v_DatasetID view /\ TrimSpace (v_Branch view) = v_Branch view /\
  (exists c, v_Root view = Some c /\ root_text view = cid_String c).
Proof.
  unfold validateView, validateIdentity. intros H. simplify_result. simplify_guards.
  unfold root_text. destruct (v_Root view); [eauto|done].
Qed.

Lemma canonicalCID_text c : canonicalCID (TrimSpace (cid_String c)) = Ok (cid_String c).
Proof. rewrite cid_string_trimmed. apply canonicalCID_id. by eexists. Qed.

(** A new operation is last in every view it belongs to. *)
Lemma append_view_ops view js now intent initial op js' :
  Journal.wf js -> Journal.wf js' -> Operations js !! OperationID intent = None ->
  (NextSequence js + 1 < two64)%N -> appendLocked now intent initial js = Ok (op, js') ->
  op_Intent op = intent /\ op_Status op = initial /\
  view_ops view js' = view_ops view js ++ (if in_view view op then [op] else []).
Proof.
  intros Hwf Hwf' Hfresh Hb H. unfold appendLocked in H. rewrite Hfresh in H. simplify_result.
  split_and!; [done|done|]. set (op := mkOperation _ _ _ _ _ _ _ _) in *. set (js' := mkState _ _ _ _ _) in *.
  assert (forall o, o ∈ view_ops view js -> (Sequence o < NextSequence js)%N) as Hlt.
  { intros o [Ho _]%view_ops_elem; [|done]. by destruct (wf_op js Hwf _ _ Ho) as (_ & _ & ? & _). }
  assert (StronglySorted (fun a b => (Sequence a < Sequence b)%N) (view_ops view js ++ (if in_view view op then [op] else []))) as Hs2.
  { apply StronglySorted_app_2; [|by apply view_ops_sorted|destruct (in_view view op); repeat constructor].
    intros a b Ha Hb'. destruct (in_view view op); [|by apply elem_of_nil in Hb'].
    apply list_elem_of_singleton in Hb' as ->. by apply Hlt. }
  assert (forall o, o ∈ view_ops view js' <-> o ∈ view_ops view js ++ (if in_view view op then [op] else [])) as Hmem.
  { intros o. rewrite elem_of_app, !view_ops_elem by done. unfold js'. cbn [Operations]. rewrite lookup_insert. split.
    - intros [Hl Hv]. case_decide as Ed; [|by left]. injection Hl as <-. right. rewrite Hv. by left.
    - intros [[Hl Hv]|Hin].
      + rewrite decide_False; [done|]. intros Ed. rewrite <- Ed in Hl. congruence.
      + destruct (in_view view op) eqn:Ev; [|by apply elem_of_nil in Hin]. apply list_elem_of_singleton in Hin as ->.
        by rewrite decide_True. }
  by apply (strict_ext Sequence); [by apply view_ops_sorted| |].
Qed.
End Append.

(** ** One mutation *)
Section Outcome.
Context {L : CidLib} {LL : CidLaws L} {C : CacheLib} {CL : CacheLaws C} {B : Base} {SL : StageLib} (E : env).

(** The namespace that a journal file shows through a view. *)
Definition namespace (view : View) (js : persistedState) : tree := overlay (view_ops view js) (base_tree view).

(** What a write refers to is in the cache. *)
Definition backs (d : cache_dir) (op : Operation) : Prop :=
  IntentKind (op_Intent op) = KindWrite -> exists full, holds d (bindingFromOperation op) full.

(** What a mutation may do to the journal, whatever fails on the way: nothing
    that any view sees, or one new operation, last in every view it belongs to,
    that the guards admit and whose body is there. *)
Definition one_step (view : View) (w w' : world) : Prop :=
  forall js, Durable.view (w_journal w) = Some js -> (NextSequence js + 1 < two64)%N ->
  exists js', Durable.view (w_journal w') = Some js' /\ (NextSequence js' <= NextSequence js + 1)%N /\
    ((forall v, view_ops v js' = view_ops v js) \/
     exists op, validateView view = Ok () /\ in_view view op = true /\ guarded (namespace view js) op /\
       op_paths_ok op /\ backs (w_cache w') op /\
       forall v, view_ops v js' = view_ops v js ++ (if in_view v op then [op] else [])).

Definition steps {X} (view : View) (m : M X) (w : world) : Prop := one_step view w (m w).2.

Lemma one_step_same view w w' : w_journal w' = w_journal w -> one_step view w w'.
Proof. intros Ej js Hv _. exists js. rewrite Ej. split_and!; [done|lia|by left]. Qed.

Lemma steps_bind {X Y} view (m : M X) (f : X -> M Y) w :
  keeps_journal m -> (forall x w1, m w = (Ok x, w1) -> w_journal w1 = w_journal w -> steps view (f x) w1) ->
  steps view (m ≫= f) w.
Proof.
  intros Hk Hf. unfold steps, mbind, M_bind. specialize (Hk w). destruct (m w) as [[x|] w1] eqn:Em; cbn [snd] in *.
  - specialize (Hf x w1 eq_refl Hk). unfold steps, one_step in Hf. by rewrite Hk in Hf.
  - by apply one_step_same.
Qed.

Lemma steps_keeps {X} view (m : M X) w : keeps_journal m -> steps view m w.
Proof. intros Hk. by apply one_step_same. Qed.

(** Nothing comes after the append but its result. *)
Lemma steps_then {X Y} view (m : M X) (f : X -> Y) w :
  steps view m w -> steps view (x ← m; mret (f x)) w.
Proof. intros Hm. unfold steps, mbind, M_bind in *. by destruct (m w) as [[x|] w1]. Qed.

Lemma operations_keeps view : keeps_journal (operations E view).
Proof.
  intros w. unfold operations, mbind, M_bind, lift. destruct (validateView view); [|done].
  unfold journal_call. destruct (Journal.List_all _ _) as [[all|] f] eqn:El; cbn.
  - by apply List_all_Ok in El as (js & _ & _ & ->).
  - unfold Journal.List_all, list_ops, Journal.withState in El.
    apply (with_state_inv synced_writer eq_refl) in El as [[->|(s & x & s' & Hf & _)] _]; done.
Qed.

(** The guards of an operation that is about to be recorded. *)
Definition admits (t : tree) (kind : Kind) (path destination : string) : Prop :=
  path <> EmptyString /\ untailed path /\ TrimSpace path = path /\ TrimSpace destination = destination /\
  match kind with
  | KindWrite | KindMkdir => dir_at t (parent_of path)
  | KindRename => destination <> EmptyString /\ untailed destination /\
      dir_at t (parent_of destination) /\ isWithin destination path = false
  | KindUnlink => True
  | KindOther _ => False
  end.

Lemma admits_guarded t kind path destination op :
  admits t kind path destination -> IntentKind (op_Intent op) = kind -> Path (op_Intent op) = path ->
  Destination (op_Intent op) = destination -> guarded t op /\ op_paths_ok op.
Proof.
  intros (H1 & H2 & H3 & H4 & H5) Ek Ep Ed. unfold guarded, op_paths_ok. cbv zeta. rewrite Ek, Ep, Ed.
  destruct kind; split_and!; try done; naive_solver.
Qed.

Lemma NewIntent_fields r1 r2 view kind path destination payload intent :
  validateView view = Ok () -> TrimSpace path = path -> TrimSpace destination = destination ->
  Journal.NewIntent r1 r2 (v_DatasetID view) (v_Branch view) (root_text view) (v_Revision view) kind path
    destination payload (v_EncryptionEpoch view) = Ok intent ->
  normalizeIntent intent = Ok intent /\ IntentKind intent = kind /\ Path intent = path /\ Destination intent = destination /\
  DatasetID intent = v_DatasetID view /\ Branch intent = v_Branch view /\ BaseRoot intent = root_text view /\
  BaseRevision intent = v_Revision view /\ EncryptionEpoch intent = v_EncryptionEpoch view /\
  (kind = KindWrite -> canonicalCID (TrimSpace payload) = Ok (PayloadCID intent)).
Proof.
  intros (Hds & Hbr & c & Hroot & Htext)%validateView_Ok Hp Hd H. unfold Journal.NewIntent in H. simplify_result.
  pose proof (normalizeIntent_idemp _ _ H) as Hid. apply normalizeIntent_fields in H. cbn in H.
  rewrite Hp, Hd, Hds, Hbr, Htext, canonicalCID_text in H. rewrite Htext. naive_solver.
Qed.

Lemma new_in_view view op :
  op_Status op <> StatusSuperseded -> DatasetID (op_Intent op) = v_DatasetID view ->
  Branch (op_Intent op) = v_Branch view -> BaseRoot (op_Intent op) = root_text view ->
  BaseRevision (op_Intent op) = v_Revision view -> EncryptionEpoch (op_Intent op) = v_EncryptionEpoch view ->
  in_view view op = true.
Proof.
  intros H1 H2 H3 H4 H5 H6. unfold in_view. rewrite H2, H3, H4, H5, H6.
  rewrite (bool_decide_eq_false_2 (op_Status op = StatusSuperseded)) by done. by rewrite !bool_decide_eq_true_2.
Qed.

(** An append leaves the journal as every view sees it, or adds one operation
    to the end of the views it belongs to. *)
Lemma appendIntent_cases view kind path destination payload offline w js r w' :
  ticking E -> validateView view = Ok () -> TrimSpace path = path -> TrimSpace destination = destination ->
  Durable.view (w_journal w) = Some js -> (NextSequence js + 1 < two64)%N ->
  appendIntent E view kind path destination payload offline w = (r, w') ->
  w_cache w' = w_cache w /\
  exists js', Durable.view (w_journal w') = Some js' /\ (NextSequence js' <= NextSequence js + 1)%N /\
    ((forall v, view_ops v js' = view_ops v js) /\ (forall op, r = Ok op -> Operations js !! op_id op <> None) \/
     exists op, records view kind path destination payload op /\ (forall op', r = Ok op' -> op' = op) /\
       forall v, view_ops v js' = view_ops v js ++ (if in_view v op then [op] else [])).
Proof.
  intros Htick Hval Htp Htd Hv Hroom H. unfold appendIntent, draw, mbind, M_bind, lift in H.
  assert (forall e, w_cache w' = w_cache w -> w_journal w' = w_journal w -> r = Err e -> w_cache w' = w_cache w /\
    exists js', Durable.view (w_journal w') = Some js' /\ (NextSequence js' <= NextSequence js + 1)%N /\
      ((forall v, view_ops v js' = view_ops v js) /\ (forall op, r = Ok op -> Operations js !! op_id op <> None) \/
       exists op, records view kind path destination payload op /\ (forall op', r = Ok op' -> op' = op) /\
         forall v, view_ops v js' = view_ops v js ++ (if in_view v op then [op] else []))) as Hsame.
  { intros e Ec Ej ->. split; [done|]. exists js. rewrite Ej. split_and!; [done|lia|]. left. split; [done|]. by intros op. }
  destruct (Journal.NewIntent _ _ _ _ _ _ _ _ _ _ _) as [intent|e] eqn:Hint; [|simplify_eq; by eapply Hsame].
  destruct (NewIntent_fields _ _ _ _ _ _ _ _ Hval Htp Htd Hint) as (Hnorm & Hk & Hp & Hd & Hds & Hbr & Hro & Hrev & Hep & Hpay).
  unfold journal_call in H. cbn [w_tick w_journal w_cache] in H. destruct (Journal.Append _ _ _ _ _) as [r0 f] eqn:Ea.
  simplify_eq. cbn [w_cache w_journal] in Hsame |- *. unfold Journal.Append in Ea. rewrite Hnorm in Ea.
  assert (initial_check (initialStatus offline) "new journal operation must be local_dirty or offline_only" = Ok ()) as Hic
    by by destruct offline.
  rewrite Hic in Ea. cbn [mbind result_bind Journal.method] in Ea.
  apply (with_state_cases synced_writer eq_refl) in Ea as [[-> Hr]|(js0 & op & js' & Hv0 & Hop & -> & Hr)].
  { destruct r as [|e]; [done|]. by apply (Hsame e). }
  split; [done|]. assert (js0 = js) as -> by congruence. pose proof (journal_view_wf _ _ Hv) as Hwf.
  assert (Journal.wf js') as Hwf'.
  { apply (appendLocked_wf _ _ _ _ _ _ Hwf (Htick _) Hnorm Hroom) in Hop; [done|]. by destruct offline; auto. }
  exists js'. split; [by apply (view_Decodes (S := journal_store))|].
  destruct (Operations js !! OperationID intent) as [ex|] eqn:Eex.
  { unfold appendLocked in Hop. rewrite Eex in Hop. simplify_result. simplify_guards. split; [lia|]. left. split; [done|].
    intros op' Ho. rewrite (Hr op' Ho). unfold op_id. congruence. }
  destruct (append_view_ops view js _ _ _ _ _ Hwf Hwf' Eex Hroom Hop) as (Ei & Est & _).
  assert (NextSequence js' = u64 (NextSequence js + 1)) as Hns
    by (unfold appendLocked in Hop; rewrite Eex in Hop; by simplify_result).
  split; [rewrite Hns, u64_small by done; lia|]. right. exists op. split_and!.
  - split; rewrite ?Ei; try done. apply new_in_view; rewrite ?Ei, ?Est; try done. by destruct offline.
  - done.
  - intros v. by apply (append_view_ops v js _ _ _ _ _ Hwf Hwf' Eex Hroom Hop).
Qed.

(** The binding of a recorded write. *)
Lemma records_binding view path destination c op :
  validateView view = Ok () -> records view KindWrite path destination (cid_String c) op ->
  bindingFromOperation op = bindingFor view c.
Proof.
  intros (_ & _ & root & Hroot & Htext)%validateView_Ok [Hv _ _ _ Hp]. specialize (Hp eq_refl).
  rewrite canonicalCID_text in Hp. injection Hp as Hp. unfold in_view in Hv. simplify_guards.
  unfold bindingFromOperation, bindingFor. cbv zeta. rewrite <- Hp, cid_parse_string.
  match goal with H : BaseRoot _ = _ |- _ => rewrite H end. rewrite Htext, cid_parse_string. congruence.
Qed.

(** Recording an admitted operation is one step. *)
Lemma appendIntent_steps view kind path destination payload offline w :
  ticking E -> validateView view = Ok () ->
  (forall js, Durable.view (w_journal w) = Some js -> admits (namespace view js) kind path destination) ->
  (kind = KindWrite -> exists c full, payload = cid_String c /\ holds (w_cache w) (bindingFor view c) full) ->
  steps view (appendIntent E view kind path destination payload offline) w.
Proof.
  intros Htick Hval Had Hbody js Hv Hroom. specialize (Had js Hv). pose proof Had as (_ & _ & Htp & Htd & _).
  destruct (appendIntent E view kind path destination payload offline w) as [r w'] eqn:Ea.
  destruct (appendIntent_cases _ _ _ _ _ _ _ _ _ _ Htick Hval Htp Htd Hv Hroom Ea)
    as (Hcache & js' & Hv' & Hn & [[Hsame _]|(op & Hrec & _ & Hops)]); exists js'; split_and!; auto.
  right. exists op. pose proof Hrec as [Hr1 Hr2 Hr3 Hr4 _]. destruct (admits_guarded _ _ _ _ op Had Hr2 Hr3 Hr4).
  split_and!; try done. intros Hk. assert (kind = KindWrite) as -> by congruence. destruct (Hbody eq_refl) as (c & full & -> & Hh).
  exists full. cbn [snd]. by rewrite Hcache, (records_binding _ _ _ _ _ Hval Hrec).
Qed.
End Outcome.

(** ** The seven mutations *)
Section Mutations.
Context {L : CidLib} {LL : CidLaws L} {C : CacheLib} {CL : CacheLaws C} {B : Base} {SL : StageLib} (E : env) (Htick : ticking E).

#[local] Hint Resolve operations_keeps : keeps.

(** The operations were listed from the journal of [w]. *)
Definition listed (view : View) (ops : list Operation) (w : world) : Prop :=
  validateView view = Ok () /\ forall js, Durable.view (w_journal w) = Some js -> ops = view_ops view js.

Lemma listed_journal view ops w w' : listed view ops w -> w_journal w' = w_journal w -> listed view ops w'.
Proof. intros [H1 H2] E1. split; [done|]. by rewrite E1. Qed.

Lemma operations_listed view w ops w' : operations E view w = (Ok ops, w') -> listed view ops w'.
Proof.
  intros (js & Hv & -> & Hval & Hj & _)%operations_Ok. split; [done|]. rewrite Hj. intros js' Hv'. by simplify_eq.
Qed.

Lemma steps_enter {X} view s (m : M X) w : steps view m w -> steps view (enter s m) w.
Proof. unfold enter. destruct (sv_closed s); [|done]. intros _. apply steps_keeps, keeps_lift. Qed.

(** Every mutation lists the operations of its view before it looks at them. *)
Lemma steps_operations {X} view (f : list Operation -> M X) w :
  (forall ops w1, listed view ops w1 -> steps view (f ops) w1) -> steps view (ops ← operations E view; f ops) w.
Proof. intros Hf. apply steps_bind; [apply operations_keeps|]. intros ops w1 H _. by eapply Hf, operations_listed. Qed.

(** A read in between. *)
Lemma steps_read {X Y} view ops (m : M X) (f : X -> M Y) w :
  keeps_journal m -> listed view ops w ->
  (forall x w1, m w = (Ok x, w1) -> listed view ops w1 -> steps view (f x) w1) -> steps view (m ≫= f) w.
Proof. intros Hk Hl Hf. apply steps_bind; [done|]. intros x w1 H Hj. apply Hf; [done|by eapply listed_journal]. Qed.

Lemma steps_guard {X Y} view (r : result X) (f : X -> M Y) w :
  (forall x, r = Ok x -> steps view (f x) w) -> steps view (x ← lift r; f x) w.
Proof. intros Hf. apply steps_bind; [done|]. intros x w1 [H ->]%lift_Ok _. by apply Hf. Qed.

Lemma parent_is_dir s view ops canonical w u w' :
  requireParentDirectory E s view ops canonical w = (Ok u, w') ->
  dir_at (overlay ops (base_tree view)) (parent_of canonical).
Proof.
  unfold requireParentDirectory. intros H. simplify_M.
  match goal with H : statAt _ _ _ _ _ _ _ = _ |- _ => apply statAt_Ok in H as (n & Hn & Hk) end.
  match goal with H : fail_if _ _ = _ |- _ => apply fail_if_Ok, negb_false_iff, bool_decide_eq_true in H end.
  exists n. split; [done|congruence].
Qed.

Lemma append_listed view ops kind path destination payload offline w :
  listed view ops w -> admits (overlay ops (base_tree view)) kind path destination ->
  (kind = KindWrite -> exists c full, payload = cid_String c /\ holds (w_cache w) (bindingFor view c) full) ->
  steps view (appendIntent E view kind path destination payload offline) w.
Proof.
  intros [Hval Hops] Had Hbody. apply appendIntent_steps; [done|done| |done]. intros js Hv. unfold namespace. by rewrite <- (Hops js Hv).
Qed.

Lemma namespace_listed view ops kind path destination offline w :
  kind <> KindWrite -> listed view ops w -> admits (overlay ops (base_tree view)) kind path destination ->
  steps view (appendNamespace E view kind path destination offline) w.
Proof.
  intros Hk Hl Had. unfold appendNamespace. eapply steps_read; [apply keeps_ctx|done|]. intros _ w1 _ Hl1.
  by eapply append_listed.
Qed.

#[local] Ltac reads := eapply steps_read; [solve [eauto with keeps]|eassumption|].

Lemma write_body_steps s view ops raw canonical data offline w :
  listed view ops w -> canonicalPath raw false = Ok canonical ->
  steps view (stageWriteBodyLocked E s view ops canonical data offline) w.
Proof.
  intros Hl Hc. unfold stageWriteBodyLocked. apply steps_guard. intros _ _. reads. intros u w1 Hpar Hl1. reads.
  intros info w2 _ Hl2. apply steps_guard. intros _ _. apply steps_guard. intros payload _. cbv zeta. reads.
  intros u3 w3 Hens Hl3. reads. intros u4 w4 ->%ctx_Err_Ok Hl4. eapply append_listed; [done| |].
  - apply canonicalPath_Ok in Hc as (-> & Ht & Hu & Hne). split_and!; auto. by eapply parent_is_dir.
  - intros _. exists payload, data. split; [done|].
    pose proof (ensure_spec E Htick s (bindingFor view payload) data offline w2) as (_ & H & _). rewrite Hens in H. by apply H.
Qed.

Lemma StageWrite_steps s view raw data offline w : steps view (StageWrite E s view raw data offline) w.
Proof.
  apply steps_enter, steps_bind; [apply keeps_ctx|]. intros _ w1 _ _. apply steps_guard. intros canonical Hc.
  apply steps_guard. intros _ _. apply steps_operations. intros ops w2 Hl. by eapply write_body_steps.
Qed.

Lemma keeps_body s view ops canonical : keeps_journal (currentFileBodyLocked E s view ops canonical).
Proof.
  unfold currentFileBodyLocked, ReadLocalBounded. apply keeps_bind; [apply keeps_resolve|]. intros r. cbv zeta.
  do 3 (apply keeps_bind; [apply keeps_lift|]; intros _). destruct (rn_local r); eauto 8 with keeps.
Qed.
#[local] Hint Resolve keeps_body : keeps.

Lemma StageWriteAt_steps s view raw offset data offline w :
  steps view (StageWriteAt E s view raw offset data offline) w.
Proof.
  apply steps_enter, steps_bind; [apply keeps_ctx|]. intros _ w1 _ _. apply steps_guard. intros canonical Hc.
  case_bool_decide; [apply steps_keeps, keeps_mret|]. cbv zeta. apply steps_guard. intros _ _. apply steps_guard.
  intros _ _. apply steps_operations. intros ops w2 Hl. reads. intros old w3 _ Hl3.
  apply steps_then. by eapply write_body_steps.
Qed.

Lemma StageTruncate_steps s view raw size offline w : steps view (StageTruncate E s view raw size offline) w.
Proof.
  apply steps_enter, steps_bind; [apply keeps_ctx|]. intros _ w1 _ _. apply steps_guard. intros canonical Hc.
  apply steps_guard. intros _ _. apply steps_guard. intros _ _. apply steps_operations. intros ops w2 Hl. reads.
  intros old w3 _ Hl3. case_bool_decide; [apply steps_keeps, keeps_mret|].
  apply steps_then. by eapply write_body_steps.
Qed.

Lemma StageMkdir_steps s view raw offline w : steps view (StageMkdir E s view raw offline) w.
Proof.
  apply steps_enter, steps_guard. intros canonical Hc. apply steps_operations. intros ops w1 Hl. reads.
  intros u w2 Hpar Hl2. reads. intros info w3 _ Hl3. apply steps_guard. intros _ _.
  eapply namespace_listed; [done|done|]. apply canonicalPath_Ok in Hc as (-> & Ht & Hu & Hne). split_and!; auto.
  by eapply parent_is_dir.
Qed.

Lemma stageRemove_steps s view raw directory offline w : steps view (stageRemove E s view raw directory offline) w.
Proof.
  apply steps_guard. intros canonical Hc. apply steps_operations. intros ops w1 Hl. reads.
  intros info w2 _ Hl2. apply steps_guard. intros _ _. eapply steps_read; [destruct directory; eauto with keeps|done|].
  intros _ w3 _ Hl3. eapply namespace_listed; [done|done|]. apply canonicalPath_Ok in Hc as (-> & Ht & Hu & Hne). split_and!; auto.
Qed.

Lemma StageRename_steps s view src dst offline w : steps view (StageRename E s view src dst offline) w.
Proof.
  apply steps_enter, steps_guard. intros source Hs. apply steps_guard. intros destination Hd. apply steps_guard.
  intros u Hnot%fail_if_Ok. simplify_guards. apply steps_operations. intros ops w1 Hl. reads. intros info w2 _ Hl2. reads.
  intros u' w3 Hpar Hl3. reads. intros info' w4 _ Hl4. eapply steps_read; [|done|].
  { destruct info' as [i|e]; [|destruct (errors_Is _ _); eauto with keeps]. apply keeps_bind; [eauto with keeps|].
    intros _. destruct (IsDir i); eauto with keeps. }
  intros _ w5 _ Hl5. eapply namespace_listed; [done|done|].
  apply canonicalPath_Ok in Hs as (-> & Hst & Hsu & Hsn), Hd as (-> & Hdt & Hdu & Hdn).
  apply parent_is_dir in Hpar. split_and!; auto.
Qed.
End Mutations.
