(* ===== verification/StagingHistory.v ===== *)
(** Upload batches: freezing, completing and conflicting staged operations
    changes their status only, so the namespace of every view stays as it is. *)

From stdpp Require Import base decidable gmap strings list sorting.
From Stdlib Require Import Ascii ZArith.
From S2P Require Import Prelude GoText Branch CidLib Durable Journal JournalFacts JournalOps JournalThms Cache CacheFacts CacheHistory CacheThms Paths Staging Overlay StagingFacts StagingWrites.

Section Restatus.
Context {L : CidLib} {LL : CidLaws L} {C : CacheLib} {B : Base} {SL : StageLib}.

Lemma related_l {A X} (P : A -> X -> Prop) x my : option_Forall2 P (Some x) my -> exists y, my = Some y /\ P x y.
Proof. inversion 1; eauto. Qed.
Lemma related_r {A X} (P : A -> X -> Prop) mx y : option_Forall2 P mx (Some y) -> exists x, mx = Some x /\ P x y.
Proof. inversion 1; eauto. Qed.

(** The tree depends on the intents only. *)
Lemma overlay_intents l1 l2 (t : tree) : op_Intent <$> l1 = op_Intent <$> l2 -> overlay l1 t = overlay l2 t.
Proof.
  revert l2 t. induction l1 as [|op1 l1 IH]; intros [|op2 l2] t H; try done. rewrite !fmap_cons in H. injection H as H1 H2.
  unfold overlay in *. cbn [foldl]. rewrite (IH l2) by done. f_equal. unfold apply_op, file_node, bindingFromOperation.
  by rewrite H1.
Qed.

(** The same operations, with statuses related by [T]. *)
Definition same_but (T : Status -> Status -> Prop) (op op' : Operation) : Prop :=
  op_Intent op' = op_Intent op /\ Sequence op' = Sequence op /\ T (op_Status op) (op_Status op').

Definition restatus_by (T : Status -> Status -> Prop) (js js' : persistedState) : Prop :=
  NextSequence js' = NextSequence js /\ forall id, option_Forall2 (same_but T) (Operations js !! id) (Operations js' !! id).

(** Nothing becomes or ceases to be superseded; nothing becomes completed. *)
Definition keeps_superseded (s s' : Status) : Prop := s' = StatusSuperseded <-> s = StatusSuperseded.
Definition completes_nothing (s s' : Status) : Prop := s' = StatusCompleted -> s = StatusCompleted.

Definition same_operation := same_but keeps_superseded.
Definition restatus := restatus_by keeps_superseded.

#[global] Instance keeps_superseded_refl : Reflexive keeps_superseded.
Proof. done. Qed.
#[global] Instance completes_nothing_refl : Reflexive completes_nothing.
Proof. intros s. unfold completes_nothing. done. Qed.
#[global] Instance completes_nothing_trans : Transitive completes_nothing.
Proof. unfold completes_nothing. intros s1 s2 s3. naive_solver. Qed.

Lemma in_view_same v op op' : same_operation op op' -> in_view v op' = in_view v op.
Proof.
  intros (Hi & _ & Hs). unfold in_view. rewrite Hi. do 6 f_equal. apply bool_decide_ext, Hs.
Qed.

Lemma sorted_fmap_key {A} (key : A -> N) (g : A -> A) l :
  Forall (fun x => key (g x) = key x) l -> StronglySorted (fun a b => (key a < key b)%N) l ->
  StronglySorted (fun a b => (key a < key b)%N) (g <$> l).
Proof.
  intros Hk Hs. induction Hs as [|a l Hs IH Ha]; [constructor|]. apply Forall_cons in Hk as [Hka Hk]. rewrite fmap_cons.
  constructor; [by apply IH|]. rewrite Forall_forall in *. intros y (x & -> & Hx)%list_elem_of_fmap.
  rewrite Hka, (Hk x Hx). by apply Ha.
Qed.

Lemma restatus_view_ops v js js' :
  Journal.wf js -> Journal.wf js' -> restatus js js' ->
  op_Intent <$> view_ops v js' = op_Intent <$> view_ops v js.
Proof.
  intros Hwf Hwf' [_ Hr]. set (g := fun op => default op (Operations js' !! op_id op)).
  assert (forall op, op ∈ view_ops v js -> Operations js' !! op_id op = Some (g op) /\ same_operation op (g op)) as Hg.
  { intros op [Hl _]%view_ops_elem; [|done]. specialize (Hr (op_id op)). rewrite Hl in Hr. apply related_l in Hr as (op' & Hl' & Hs).
    unfold g. by rewrite Hl'. }
  assert (view_ops v js' = g <$> view_ops v js) as ->.
  { apply (strict_ext Sequence); [by apply view_ops_sorted| |].
    - apply sorted_fmap_key; [|by apply view_ops_sorted]. apply Forall_forall. intros op Hop. by destruct (Hg op Hop) as [_ (_ & -> & _)].
    - intros op'. rewrite list_elem_of_fmap. split.
      + intros [Hl' Hin]%view_ops_elem; [|done]. specialize (Hr (op_id op')). rewrite Hl' in Hr.
        apply related_r in Hr as (op & Hl & Hs). exists op.
        assert (op_id op = op_id op') as Hid by (destruct (wf_op js Hwf _ _ Hl) as (_ & E & _); congruence).
        split; [unfold g; by rewrite Hid, Hl'|]. apply view_ops_elem; [done|]. rewrite Hid. split; [done|].
        by rewrite <- (in_view_same v op op').
      + intros (op & -> & Hop). destruct (Hg op Hop) as [Hl Hs]. apply view_ops_elem in Hop as [_ Hin]; [|done].
        apply view_ops_elem; [done|]. rewrite (in_view_same v op) by done. split; [|done].
        destruct Hs as (Hi & _). unfold op_id at 1. by rewrite Hi. }
  rewrite <- list_fmap_compose. apply list_fmap_ext. intros i op Hop. apply list_elem_of_lookup_2 in Hop.
  by destruct (Hg op Hop) as [_ (? & _)].
Qed.

#[global] Instance restatus_by_refl T `{!Reflexive T} : Reflexive (restatus_by T).
Proof. intros js. split; [done|]. intros id. destruct (Operations js !! id); by constructor. Qed.
#[global] Instance restatus_by_trans T `{!Transitive T} : Transitive (restatus_by T).
Proof.
  intros js1 js2 js3 [N1 H1] [N2 H2]. split; [congruence|]. intros id. specialize (H1 id). specialize (H2 id).
  destruct H1 as [op1 op2 (I1 & S1 & T1)|]; inversion H2 as [? op3 (I2 & S2 & T2)|]; subst; constructor.
  split_and!; [congruence|congruence|by etransitivity].
Qed.
Lemma restatus_refl js : restatus js js.
Proof. unfold restatus. reflexivity. Qed.

(** ** Loading *)
Lemma scan_loop_maps next l acc acc' :
  foldM (scan_step next) acc l = Ok acc' ->
  exists l', normalizedOps acc' = reverse l' ++ normalizedOps acc /\
    Forall2 (fun a b => b.1 = a.1 /\ normalizeOperation a.2 = Ok b.2) l l'.
Proof.
  revert acc. induction l as [|item l IH]; intros acc H; cbn in H; simplify_result; [by exists []|].
  apply IH in H as (l' & Hl' & Hf). destruct item as [id op]. unfold scan_step in Hr. simplify_result.
  match goal with H : normalizeOperation _ = Ok ?x |- _ => exists ((id, x) :: l') end.
  rewrite Hl'. cbn [normalizedOps]. rewrite reverse_cons, <- (assoc_L (++)). split; [done|]. by constructor.
Qed.

(** Loading normalises every record in its place. *)
Lemma decode_lookup js js' :
  Journal.decode js = Ok js' ->
  NextSequence js' = NextSequence js /\
  forall id, option_Forall2 (fun op op' => normalizeOperation op = Ok op') (Operations js !! id) (Operations js' !! id).
Proof.
  unfold Journal.decode. intros H. simplify_result. split; [done|]. cbn [Operations].
  match goal with H : foldM (scan_step _) _ _ = Ok _ |- _ => apply scan_loop_maps in H as (l' & -> & Hf) end.
  cbn [normalizedOps]. rewrite app_nil_r. set (m := list_to_map (M := gmap string Operation) (reverse l')).
  assert ((map_to_list (Operations js)).*1 = l'.*1) as Hk.
  { clear -Hf. induction Hf as [|a b l l' [Hab _] _ IH]; [done|]. rewrite !fmap_cons. by rewrite Hab, IH. }
  assert (forall id op', m !! id = Some op' <-> (id, op') ∈ l') as Hm.
  { intros id op'. unfold m. rewrite <- elem_of_reverse. symmetry. apply elem_of_list_to_map.
    rewrite fmap_reverse, reverse_Permutation, <- Hk. apply NoDup_fst_map_to_list. }
  intros id. destruct (m !! id) as [op'|] eqn:Em.
  - apply Hm, list_elem_of_lookup in Em as [i Hi]. destruct (Forall2_lookup_r _ _ _ _ _ Hf Hi) as ([id0 op] & Hi0 & Hid & Hn).
    cbn in Hid, Hn. subst id0. apply list_elem_of_lookup_2, elem_of_map_to_list in Hi0. rewrite Hi0. by constructor.
  - destruct (Operations js !! id) as [op|] eqn:Eo; [|constructor]. exfalso.
    apply elem_of_map_to_list, list_elem_of_lookup in Eo as [i Hi].
    destruct (Forall2_lookup_l _ _ _ _ _ Hf Hi) as ([id0 op'] & Hi0 & Hid & _). cbn in Hid. subst id0.
    apply list_elem_of_lookup_2, Hm in Hi0. congruence.
Qed.

Lemma normalizeOperation_same op op' :
  normalizeIntent (op_Intent op) = Ok (op_Intent op) -> normalizeOperation op = Ok op' ->
  op_Intent op' = op_Intent op /\ Sequence op' = Sequence op /\ op_Status op' = op_Status op.
Proof. intros Hi H. unfold normalizeOperation in H. simplify_result. cbn. split_and!; congruence. Qed.

(** ** Batches of the journal *)
Section Batches.
Context (T : Status -> Status -> Prop) `{!Reflexive T}.

Lemma batch_restatus check changes change ids js ops js' :
  Journal.wf js -> NoDup ids -> (forall op, op_Intent (change op) = op_Intent op) ->
  (forall op, Sequence (change op) = Sequence op) ->
  (forall op, check op = Ok () -> T (op_Status op) (op_Status (change op))) ->
  batchLocked check changes change ids js = Ok (ops, js') -> restatus_by T js js'.
Proof.
  intros Hwf Hnd Hi Hseq Hck H. split.
  - unfold batchLocked in H. simplify_result. apply store_changed_next.
  - intros id. destruct (batchLocked_lookup check changes change ids js ops js' id) as [El Hc]; try done.
    { intros op. unfold op_id. by rewrite Hi. }
    rewrite El. case_bool_decide as Hid; [|destruct (Operations js !! id); by constructor].
    destruct (Hc Hid) as (op & Hl & Hok). rewrite Hl. constructor. destruct (changes op); [split_and!; auto|by split_and!].
Qed.

(** The three batch methods of the journal. *)
Lemma batch_method w lock (f : journal_file) r f' js js' :
  sorted_result (Journal.withState w true lock f) = (r, f') ->
  (forall ops js', lock js = Ok (ops, js') -> restatus_by T js js') ->
  Durable.view f = Some js -> Durable.view f' = Some js' -> restatus_by T js js'.
Proof.
  intros H Hl Hv Hv'. destruct (Journal.withState w true lock f) as [r0 f0] eqn:Ew. unfold sorted_result in H. cbn in H.
  injection H as <- <-. apply (with_state_cases synced_writer eq_refl) in Ew as [[-> _]|(js0 & ops & js1 & Hv0 & Hop & -> & _)].
  - assert (js' = js) as -> by congruence. reflexivity.
  - assert (js0 = js) as -> by congruence. specialize (Hl _ _ Hop).
    assert (Journal.decode js1 = Ok js') as Hd.
    { unfold Durable.view in Hv'. cbn in Hv'. by destruct (Journal.decode js1); simplify_eq. }
    apply decode_lookup in Hd as [Hn Hd]. destruct Hl as [Hn1 Hl]. split; [congruence|]. intros id. specialize (Hl id). specialize (Hd id).
    destruct (Operations js !! id) as [op|] eqn:Eo.
    + apply related_l in Hl as (op1 & E1 & Hs1). rewrite E1 in Hd. apply related_l in Hd as (op' & -> & Hn').
      destruct (wf_op js (journal_view_wf _ _ Hv) _ _ Eo) as (Hok & _). apply normalize_op_ok in Hok as [Hi _ _ _ _ _].
      destruct Hs1 as (Hs1 & Hs2 & Hs3). apply normalizeOperation_same in Hn' as (N1 & N2 & N3); [|by rewrite Hs1].
      constructor. split_and!; [congruence|congruence|]. by rewrite N3.
    + destruct (Operations js1 !! id); [by inversion Hl|]. inversion Hd. constructor.
Qed.

Lemma FreezeBatch_restatus w now ids (f : journal_file) r f' js js' :
  (forall op, freeze_check op = Ok () -> T (op_Status op) StatusPendingUpload) ->
  Journal.FreezeBatchForUpload w now ids f = (r, f') -> Durable.view f = Some js -> Durable.view f' = Some js' ->
  restatus_by T js js'.
Proof.
  intros HT H Hv Hv'. unfold Journal.FreezeBatchForUpload in H. destruct (normalizeOperationIDs ids) as [ids'|] eqn:Ei; cbn in H.
  - apply normalizeOperationIDs_NoDup in Ei. eapply batch_method; [exact H| |done|done]. intros ops js1.
    apply batch_restatus; try done. by eapply journal_view_wf.
  - simplify_eq. reflexivity.
Qed.

Lemma CompleteBatch_restatus w now ids root (f : journal_file) r f' js js' :
  (forall root op, complete_check root op = Ok () -> T (op_Status op) StatusCompleted) ->
  Journal.CompleteBatch w now ids root f = (r, f') -> Durable.view f = Some js -> Durable.view f' = Some js' ->
  restatus_by T js js'.
Proof.
  intros HT H Hv Hv'. unfold Journal.CompleteBatch in H. destruct (normalizeOperationIDs ids) as [ids'|] eqn:Ei; cbn in H.
  - destruct (wrap_err _ _) as [root'|]; cbn in H; [|simplify_eq; reflexivity].
    apply normalizeOperationIDs_NoDup in Ei. eapply batch_method; [exact H| |done|done]. intros ops js1.
    apply batch_restatus; try done; [by eapply journal_view_wf|]. intros op Hc. by eapply HT.
  - simplify_eq. reflexivity.
Qed.

Lemma MarkBatchConflicted_restatus w now ids c (f : journal_file) r f' js js' :
  (forall c op, conflict_check c op = Ok () -> T (op_Status op) StatusConflicted) ->
  Journal.MarkBatchConflicted w now ids c f = (r, f') -> Durable.view f = Some js -> Durable.view f' = Some js' ->
  restatus_by T js js'.
Proof.
  intros HT H Hv Hv'. unfold Journal.MarkBatchConflicted in H. destruct (normalizeOperationIDs ids) as [ids'|] eqn:Ei; cbn in H.
  - destruct (conflict_identity c) as [c'|]; cbn in H; [|simplify_eq; reflexivity].
    apply normalizeOperationIDs_NoDup in Ei. eapply batch_method; [exact H| |done|done]. intros ops js1.
    apply batch_restatus; try done; [by eapply journal_view_wf|]. intros op Hc. by eapply HT.
  - simplify_eq. reflexivity.
Qed.
End Batches.

Lemma freeze_superseded op : freeze_check op = Ok () -> keeps_superseded (op_Status op) StatusPendingUpload.
Proof. unfold freeze_check. intros H. split; [done|]. by destruct (op_Status op). Qed.
Lemma complete_superseded root op : complete_check root op = Ok () -> keeps_superseded (op_Status op) StatusCompleted.
Proof. unfold complete_check. intros H. split; [done|]. intros Es. by rewrite Es in H. Qed.
Lemma conflict_superseded c op : conflict_check c op = Ok () -> keeps_superseded (op_Status op) StatusConflicted.
Proof. unfold conflict_check. intros H. split; [done|]. intros Es. by rewrite Es in H. Qed.
End Restatus.

(** ** What a call may do to the journal *)
Section Calls.
Context {L : CidLib} {LL : CidLaws L} {C : CacheLib} {CL : CacheLaws C} {B : Base} {SL : StageLib} (E : env).

(** The journal before and after a call are related. *)
Definition relates (Rel : persistedState -> persistedState -> Prop) {X} (m : M X) : Prop := forall w js js',
  Durable.view (w_journal w) = Some js -> Durable.view (w_journal (m w).2) = Some js' -> Rel js js'.

(** At most the statuses change. *)
Notation restatuses := (relates restatus).

Section Relates.
Context (Rel : persistedState -> persistedState -> Prop) `{!Reflexive Rel}.

Lemma relates_keeps {X} (m : M X) : keeps_journal m -> relates Rel m.
Proof. intros Hk w js js' Hv Hv'. rewrite Hk in Hv'. by simplify_eq. Qed.
Lemma relates_after {X Y} (m : M X) (f : X -> M Y) :
  keeps_journal m -> (forall x, relates Rel (f x)) -> relates Rel (m ≫= f).
Proof.
  intros Hk Hf w js js' Hv Hv'. unfold mbind, M_bind in Hv'. specialize (Hk w). destruct (m w) as [[x|e] w1]; cbn in *.
  - apply (Hf x w1); [by rewrite Hk|done].
  - rewrite Hk in Hv'. by simplify_eq.
Qed.
Lemma relates_then {X Y} (m : M X) (f : X -> M Y) :
  relates Rel m -> (forall x, keeps_journal (f x)) -> relates Rel (m ≫= f).
Proof.
  intros Hm Hf w js js' Hv Hv'. unfold mbind, M_bind in Hv'. specialize (Hm w js js' Hv). destruct (m w) as [[x|e] w1]; cbn in *; [|auto].
  rewrite Hf in Hv'. auto.
Qed.
Lemma relates_journal {X} (op : io -> time -> journal_file -> result X * journal_file) :
  (forall w now f r f' js js', op w now f = (r, f') -> Durable.view f = Some js -> Durable.view f' = Some js' -> Rel js js') ->
  relates Rel (journal_call E op).
Proof.
  intros H w js js' Hv Hv'. unfold journal_call in Hv'. destruct (op _ _ _) as [r f'] eqn:Eo. cbn in Hv'. eauto.
Qed.
Lemma relates_wrapM {X} text (m : M X) : relates Rel m -> relates Rel (wrapM text m).
Proof. intros H w js js' Hv Hv'. unfold wrapM in Hv'. specialize (H w js js' Hv). destruct (m w). auto. Qed.
Lemma relates_enter {X} s (m : M X) : relates Rel m -> relates Rel (enter s m).
Proof. intros H. unfold enter. destruct (sv_closed s); [|done]. apply relates_keeps, keeps_lift. Qed.
End Relates.

Lemma keeps_wrapM {X} text (m : M X) : keeps_journal m -> keeps_journal (wrapM text m).
Proof. intros H w. unfold wrapM. specialize (H w). by destruct (m w). Qed.
#[local] Hint Resolve keeps_wrapM operations_keeps : keeps.

Lemma keeps_reconcile_each s wanted : keeps_journal (reconcile_each E s wanted).
Proof.
  induction wanted as [|[b st] wanted IH]; cbn [reconcile_each]; [apply keeps_mret|].
  apply keeps_bind; [eauto with keeps|]. intros [x|e]; eauto with keeps.
Qed.
#[local] Hint Resolve keeps_reconcile_each : keeps.
Lemma keeps_reconcileCacheStates s ops : keeps_journal (reconcileCacheStates E s ops).
Proof. apply keeps_reconcile_each. Qed.
Lemma keeps_payloads s payloads ops : keeps_journal (payload_loop E s payloads ops).
Proof.
  revert payloads. induction ops as [|op ops IH]; intros payloads; cbn [payload_loop]; [apply keeps_mret|].
  destruct (negb _); [apply IH|]. apply keeps_bind; [unfold ReadLocalBounded; eauto with keeps|]. intros [x|e]; eauto with keeps.
Qed.
#[local] Hint Resolve keeps_reconcileCacheStates keeps_payloads : keeps.

Section Upload.
Context (T : Status -> Status -> Prop) `{!Reflexive T}.

Lemma PrepareUpload_relates s view :
  (forall op, freeze_check op = Ok () -> T (op_Status op) StatusPendingUpload) ->
  relates (restatus_by T) (PrepareUpload E s view).
Proof.
  intros HT. apply relates_enter; [apply _|]. apply relates_after; [apply _|eauto with keeps|]. intros _.
  apply relates_after; [apply _|eauto with keeps|]. intros ops.
  do 2 (apply relates_after; [apply _|eauto with keeps|]; intros ?).
  apply relates_then; [|unfold uploadPayloads; eauto 8 with keeps].
  apply relates_wrapM, relates_journal. intros. by eapply FreezeBatch_restatus.
Qed.

Lemma finish_relates s batch check run t1 t2 :
  (forall w now f r f' js js', run w now f = (r, f') -> Durable.view f = Some js -> Durable.view f' = Some js' ->
     restatus_by T js js') ->
  relates (restatus_by T) (finish_batch E s batch check run t1 t2).
Proof.
  intros Hrun. unfold finish_batch. do 2 (apply relates_after; [apply _|eauto with keeps|]; intros ?).
  apply relates_then; [by apply relates_wrapM, relates_journal|eauto 8 with keeps].
Qed.

Lemma MarkUploadConflicted_relates s batch c :
  (forall c op, conflict_check c op = Ok () -> T (op_Status op) StatusConflicted) ->
  relates (restatus_by T) (MarkUploadConflicted E s batch c).
Proof.
  intros HT. apply relates_enter; [apply _|]. do 2 (apply relates_after; [apply _|eauto with keeps|]; intros ?).
  apply finish_relates. intros. by eapply MarkBatchConflicted_restatus.
Qed.
End Upload.

Lemma PrepareUpload_restatuses s view : restatuses (PrepareUpload E s view).
Proof. apply PrepareUpload_relates; [apply _|apply freeze_superseded]. Qed.
Lemma CompleteUpload_restatuses s batch candidate : restatuses (CompleteUpload E s batch candidate).
Proof.
  apply relates_enter; [exact restatus_refl|]. do 3 (apply relates_after; [exact restatus_refl|eauto with keeps|]; intros ?).
  apply finish_relates; [apply _|]. intros. by eapply CompleteBatch_restatus; [apply _|apply complete_superseded|..].
Qed.
Lemma CompleteNoChange_restatuses s batch : restatuses (CompleteNoChange E s batch).
Proof.
  apply relates_enter; [exact restatus_refl|]. do 2 (apply relates_after; [exact restatus_refl|eauto with keeps|]; intros ?).
  apply finish_relates; [apply _|]. intros. by eapply CompleteBatch_restatus; [apply _|apply complete_superseded|..].
Qed.
Lemma MarkUploadConflicted_restatuses s batch c : restatuses (MarkUploadConflicted E s batch c).
Proof. apply MarkUploadConflicted_relates; [apply _|apply conflict_superseded]. Qed.
End Calls.

Notation restatuses := (relates restatus).

(** * Histories of requests to a staging service, whatever its system calls do:
    the namespace of every view stays a tree and every staged write keeps its
    body. *)

Section Histories.
Context {L : CidLib} {LL : CidLaws L} {C : CacheLib} {CL : CacheLaws C} {B : Base} {SL : StageLib}.

Inductive request :=
  | ReqWrite (view : View) (path : string) (data : body) (offline : bool)
  | ReqWriteAt (view : View) (path : string) (offset : N) (data : body) (offline : bool)
  | ReqTruncate (view : View) (path : string) (size : N) (offline : bool)
  | ReqMkdir (view : View) (path : string) (offline : bool)
  | ReqUnlink (view : View) (path : string) (offline : bool)
  | ReqRemoveDir (view : View) (path : string) (offline : bool)
  | ReqRename (view : View) (source destination : string) (offline : bool)
  | ReqStat (view : View) (path : string)
  | ReqReadDir (view : View) (path : string)
  | ReqRead (view : View) (path : string) (offset len : N)
  | ReqFsync (view : View)
  | ReqReconcile
  | ReqPrepare (view : View)
  | ReqComplete (batch : UploadBatch) (candidate : option Cid)
  | ReqNoChange (batch : UploadBatch)
  | ReqConflict (batch : UploadBatch) (conflictID : string).

Context (E : env).

Definition serve (s : service) (w : world) (req : request) : world :=
  match req with
  | ReqWrite view path data offline => (StageWrite E s view path data offline w).2
  | ReqWriteAt view path offset data offline => (StageWriteAt E s view path offset data offline w).2
  | ReqTruncate view path size offline => (StageTruncate E s view path size offline w).2
  | ReqMkdir view path offline => (StageMkdir E s view path offline w).2
  | ReqUnlink view path offline => (StageUnlink E s view path offline w).2
  | ReqRemoveDir view path offline => (StageRemoveDir E s view path offline w).2
  | ReqRename view source destination offline => (StageRename E s view source destination offline w).2
  | ReqStat view path => (Stat E s view path w).2
  | ReqReadDir view path => (ReadDir E s view path w).2
  | ReqRead view path offset len => (ReadFileRange E s view path offset len w).2
  | ReqFsync view => (Fsync E s view w).2
  | ReqReconcile => (Reconcile E s w).2
  | ReqPrepare view => (PrepareUpload E s view w).2
  | ReqComplete batch candidate => (CompleteUpload E s batch candidate w).2
  | ReqNoChange batch => (CompleteNoChange E s batch w).2
  | ReqConflict batch conflictID => (MarkUploadConflicted E s batch conflictID w).2
  end.

(** ** A journal that does not load is left alone *)
Definition stuck {X} (m : M X) : Prop := forall w, Durable.view (w_journal w) = None -> w_journal (m w).2 = w_journal w.

Lemma stuck_keeps {X} (m : M X) : keeps_journal m -> stuck m.
Proof. intros H w _. apply H. Qed.
Lemma stuck_bind {X Y} (m : M X) (f : X -> M Y) : stuck m -> (forall x, stuck (f x)) -> stuck (m ≫= f).
Proof.
  intros Hm Hf w Hv. unfold mbind, M_bind. specialize (Hm w Hv). destruct (m w) as [[x|e] w1]; cbn in *; [|done].
  rewrite Hf; [done|]. by rewrite Hm.
Qed.
Lemma stuck_enter {X} s (m : M X) : stuck m -> stuck (enter s m).
Proof. intros H. unfold enter. by destruct (sv_closed s). Qed.

(** Every call that writes the journal lists its operations first. *)
Lemma stuck_operations {X} view (f : list Operation -> M X) : stuck (ops ← operations E view; f ops).
Proof.
  intros w Hv. unfold mbind, M_bind. pose proof (operations_keeps E view w) as Hk.
  destruct (operations E view w) as [[ops|e] w1] eqn:Eo; [|done].
  apply operations_Ok in Eo as (js & Hv' & _). congruence.
Qed.
Lemma stuck_after {X Y} (m : M X) (f : X -> M Y) : keeps_journal m -> (forall x, stuck (f x)) -> stuck (m ≫= f).
Proof. intros Hm. by apply stuck_bind, stuck_keeps. Qed.

(** ** One request *)

(** What a request may do to the journal. *)
Definition moved (w w' : world) : Prop :=
  (Durable.view (w_journal w) = None -> w_journal w' = w_journal w) /\
  forall js js', Durable.view (w_journal w) = Some js -> (NextSequence js + 1 < two64)%N ->
    Durable.view (w_journal w') = Some js' ->
    (NextSequence js' <= NextSequence js + 1)%N /\
    ((forall v, op_Intent <$> view_ops v js' = op_Intent <$> view_ops v js) \/
     exists view op, validateView view = Ok () /\ in_view view op = true /\ guarded (namespace view js) op /\
       op_paths_ok op /\ backs (w_cache w') op /\
       forall v, view_ops v js' = view_ops v js ++ (if in_view v op then [op] else [])).

Lemma moved_steps {X} view (m : M X) w : stuck m -> steps view m w -> moved w (m w).2.
Proof.
  intros Hs Hst. split; [apply Hs|]. intros js js' Hv Hroom Hv'.
  destruct (Hst js Hv Hroom) as (js1 & Hv1 & Hn & [H|(op & H)]); assert (js1 = js') as -> by congruence; split; try done.
  - left. intros v. by rewrite H.
  - right. by exists view, op.
Qed.
Lemma moved_restatus {X} (m : M X) w : stuck m -> restatuses m -> moved w (m w).2.
Proof.
  intros Hs Hr. split; [apply Hs|]. intros js js' Hv _ Hv'. pose proof (Hr w js js' Hv Hv') as H.
  split; [destruct H as [-> _]; lia|]. left. intros v. by apply restatus_view_ops; [eapply journal_view_wf..|].
Qed.
Lemma moved_keeps {X} (m : M X) w : keeps_journal m -> moved w (m w).2.
Proof. intros H. apply moved_restatus; [by apply stuck_keeps|by apply relates_keeps; [exact restatus_refl|]]. Qed.

Lemma keeps_enter {X} s (m : M X) : keeps_journal m -> keeps_journal (enter s m).
Proof. intros H. unfold enter. by destruct (sv_closed s). Qed.
#[local] Hint Resolve keeps_enter operations_keeps : keeps.

Lemma List_all_keeps : keeps_journal (journal_call E (fun w _ f => Journal.List_all w f)).
Proof.
  intros w. unfold journal_call. destruct (Journal.List_all _ _) as [[all|e] f] eqn:El; cbn.
  - by apply List_all_Ok in El as (js & _ & _ & ->).
  - unfold Journal.List_all, list_ops, Journal.withState in El.
    apply (with_state_inv synced_writer eq_refl) in El as [[->|(s & x & s' & Hf & _)] _]; done.
Qed.

Lemma keeps_fsync s n ops : keeps_journal (fsync_loop E s n ops).
Proof.
  revert n. induction ops as [|op ops IH]; intros n; cbn [fsync_loop]; [apply keeps_mret|]. cbv zeta.
  destruct (negb _); [apply IH|]. apply keeps_bind; [unfold VerifyLocal; eauto with keeps|]. intros [x|e]; eauto with keeps.
Qed.
Lemma keeps_verify_referenced s ops : keeps_journal (verify_referenced E s ops).
Proof.
  induction ops as [|op ops IH]; cbn [verify_referenced]; [apply keeps_mret|].
  destruct (_ || _); [apply IH|]. apply keeps_bind; [unfold VerifyLocal; eauto with keeps|]. intros [x|e]; eauto with keeps.
Qed.
Lemma keeps_remove refs entries failures : keeps_journal (remove_unreferenced E refs entries failures).
Proof.
  revert failures. induction entries as [|e entries IH]; intros failures; cbn [remove_unreferenced]; [apply keeps_mret|].
  destruct (_ || _); [apply IH|]. apply keeps_bind; [eauto with keeps|]. intros [x|er]; [apply IH|].
  destruct (errors_Is _ _); apply IH.
Qed.
#[local] Hint Resolve List_all_keeps keeps_fsync keeps_verify_referenced keeps_remove keeps_reconcileCacheStates : keeps.

Lemma keeps_open s view path : keeps_journal (Open E s view path).
Proof. unfold Open. apply keeps_enter. eauto 6 with keeps. Qed.
Lemma keeps_handle s h offset len : keeps_journal (handle_Read E s h offset len).
Proof. unfold handle_Read. destruct (h_closed h); [apply keeps_lift|]. apply keeps_enter. cbv zeta. destruct (rn_local _); eauto with keeps. Qed.
#[local] Hint Resolve keeps_open keeps_handle : keeps.

Lemma PrepareUpload_stuck s view : stuck (PrepareUpload E s view).
Proof. apply stuck_enter. apply stuck_after; [eauto with keeps|]; intros ?. apply stuck_operations. Qed.
Lemma CompleteUpload_stuck s batch candidate : stuck (CompleteUpload E s batch candidate).
Proof. apply stuck_enter. do 3 (apply stuck_after; [eauto with keeps|]; intros ?). apply stuck_operations. Qed.
Lemma CompleteNoChange_stuck s batch : stuck (CompleteNoChange E s batch).
Proof. apply stuck_enter. do 2 (apply stuck_after; [eauto with keeps|]; intros ?). apply stuck_operations. Qed.
Lemma MarkUploadConflicted_stuck s batch c : stuck (MarkUploadConflicted E s batch c).
Proof. apply stuck_enter. do 2 (apply stuck_after; [eauto with keeps|]; intros ?). apply stuck_operations. Qed.

Lemma serve_moved s w req : ticking E -> moved w (serve s w req).
Proof.
  intros Htick. destruct req; cbn [serve].
  - apply (moved_steps view); [|by apply StageWrite_steps]. apply stuck_enter.
    do 3 (apply stuck_after; [eauto with keeps|]; intros ?). apply stuck_operations.
  - apply (moved_steps view); [|by apply StageWriteAt_steps]. apply stuck_enter.
    do 2 (apply stuck_after; [eauto with keeps|]; intros ?). case_bool_decide; [apply stuck_keeps, keeps_mret|]. cbv zeta.
    do 2 (apply stuck_after; [eauto with keeps|]; intros ?). apply stuck_operations.
  - apply (moved_steps view); [|by apply StageTruncate_steps]. apply stuck_enter.
    do 4 (apply stuck_after; [eauto with keeps|]; intros ?). apply stuck_operations.
  - apply (moved_steps view); [|by apply StageMkdir_steps]. apply stuck_enter.
    apply stuck_after; [eauto with keeps|]; intros ?. apply stuck_operations.
  - apply (moved_steps view); [|by apply steps_enter, stageRemove_steps]. apply stuck_enter.
    apply stuck_after; [eauto with keeps|]; intros ?. apply stuck_operations.
  - apply (moved_steps view); [|by apply steps_enter, stageRemove_steps]. apply stuck_enter.
    apply stuck_after; [eauto with keeps|]; intros ?. apply stuck_operations.
  - apply (moved_steps view); [|by apply StageRename_steps]. apply stuck_enter.
    do 3 (apply stuck_after; [eauto with keeps|]; intros ?). apply stuck_operations.
  - apply moved_keeps. unfold Stat. eauto 6 with keeps.
  - apply moved_keeps. unfold ReadDir. eauto 6 with keeps.
  - apply moved_keeps. unfold ReadFileRange. eauto 6 with keeps.
  - apply moved_keeps. unfold Fsync. eauto 6 with keeps.
  - apply moved_keeps. unfold Reconcile. apply keeps_enter. eauto 10 with keeps.
  - apply moved_restatus; [apply PrepareUpload_stuck|apply PrepareUpload_restatuses].
  - apply moved_restatus; [apply CompleteUpload_stuck|apply CompleteUpload_restatuses].
  - apply moved_restatus; [apply CompleteNoChange_stuck|apply CompleteNoChange_restatuses].
  - apply moved_restatus; [apply MarkUploadConflicted_stuck|apply MarkUploadConflicted_restatuses].
Qed.

(** ** Bodies *)
#[local] Hint Resolve bodies_bind bodies_lift bodies_mret bodies_try bodies_wrapM bodies_journal bodies_ctx bodies_draw
  bodies_enter bodies_verify bodies_read bodies_operations bodies_resolve bodies_statAt bodies_readDirAt bodies_parent
  bodies_append bodies_appendNamespace bodies_current : bodies.

Section Bodies.
Context (Htick : ticking E).

#[local] Ltac each :=
  repeat first [solve [auto with bodies] | apply bodies_enter | apply bodies_bind; [solve [auto with bodies]|intros ?]].

Lemma bodies_ensure s b data offline : keeps_bodies (ensureLocalBody E s b data offline).
Proof. intros w b' full H. pose proof (ensure_spec E Htick s b data offline w) as (Hk & _). by apply Hk. Qed.
#[local] Hint Resolve bodies_ensure : bodies.
Lemma bodies_write_body s view ops canonical data offline :
  keeps_bodies (stageWriteBodyLocked E s view ops canonical data offline).
Proof. unfold stageWriteBodyLocked. each. Qed.
#[local] Hint Resolve bodies_write_body : bodies.

Lemma bodies_fsync s n ops : keeps_bodies (fsync_loop E s n ops).
Proof.
  revert n. induction ops as [|op ops IH]; intros n; cbn [fsync_loop]; [apply bodies_mret|]. cbv zeta.
  destruct (negb _); [apply IH|]. apply bodies_bind; [each|]. intros [x|e]; each.
Qed.
Lemma bodies_verify_referenced s ops : keeps_bodies (verify_referenced E s ops).
Proof.
  induction ops as [|op ops IH]; cbn [verify_referenced]; [apply bodies_mret|].
  destruct (_ || _); [apply IH|]. apply bodies_bind; [each|]. intros [x|e]; each.
Qed.
Lemma bodies_reconcile s ops : keeps_bodies (reconcileCacheStates E s ops).
Proof.
  unfold reconcileCacheStates. induction (en_order E (desiredByBinding ops)) as [|[b st] wanted IH]; cbn [reconcile_each]; [apply bodies_mret|].
  apply bodies_bind; [|intros [x|e]; each]. apply bodies_try, bodies_cache; [done|].
  intros. by apply ReconcileLocalState_holds.
Qed.
Lemma bodies_payloads s payloads ops : keeps_bodies (payload_loop E s payloads ops).
Proof.
  revert payloads. induction ops as [|op ops IH]; intros payloads; cbn [payload_loop]; [apply bodies_mret|].
  destruct (negb _); [apply IH|]. apply bodies_bind; [each|]. intros [x|e]; each.
Qed.
Lemma bodies_handle s h offset len : keeps_bodies (handle_Read E s h offset len).
Proof.
  unfold handle_Read. destruct (h_closed h); [apply bodies_lift|]. apply bodies_enter. cbv zeta. destruct (rn_local _); [|each].
  apply bodies_bind; [|intros ?; each]. apply bodies_cache; [done|]. intros. by apply ReadLocalRange_holds.
Qed.
#[local] Hint Resolve bodies_fsync bodies_verify_referenced bodies_reconcile bodies_payloads bodies_handle : bodies.

Lemma bodies_open s view path : keeps_bodies (Open E s view path).
Proof. unfold Open. each. Qed.
#[local] Hint Resolve bodies_open : bodies.
Lemma bodies_finish s batch check run t1 t2 : keeps_bodies (finish_batch E s batch check run t1 t2).
Proof. unfold finish_batch. each. Qed.
#[local] Hint Resolve bodies_finish : bodies.

(** Every request but a reconciliation keeps every local body. *)
Lemma serve_bodies s req w b full :
  req <> ReqReconcile -> holds (w_cache w) b full -> holds (w_cache (serve s w req)) b full.
Proof.
  intros Hreq. assert (forall X (m : M X), keeps_bodies m -> holds (w_cache w) b full -> holds (w_cache (m w).2) b full) as Hk
    by (intros X m Hm; apply Hm).
  destruct req; try done; cbn [serve]; apply Hk.
  - unfold StageWrite. each.
  - unfold StageWriteAt. apply bodies_enter. each.
    case_bool_decide; cbv zeta; each.
  - unfold StageTruncate. apply bodies_enter. each.
    case_bool_decide; each.
  - unfold StageMkdir. each.
  - unfold StageUnlink, stageRemove. each.
  - unfold StageRemoveDir, stageRemove. each.
  - unfold StageRename. apply bodies_enter. each.
    apply bodies_bind; [|intros ?; each]. destruct x5 as [i|e]; [|destruct (errors_Is _ _); each].
    apply bodies_bind; [each|]. intros _. destruct (IsDir i); each.
  - unfold Stat. each.
  - unfold ReadDir. each.
  - unfold ReadFileRange. each.
  - unfold Fsync. each.
  - unfold PrepareUpload, uploadPayloads. each.
  - unfold CompleteUpload. each.
  - unfold CompleteNoChange. each.
  - unfold MarkUploadConflicted. each.
Qed.

(** The binding of a recorded operation is in normal form. *)
Lemma operation_binding js id op b' :
  Journal.wf js -> Operations js !! id = Some op -> normalizeBinding (bindingFromOperation op) = Ok b' ->
  b' = bindingFromOperation op.
Proof.
  intros Hwf Hl Hb. destruct (wf_op js Hwf _ _ Hl) as (Hok & _). apply normalize_op_ok in Hok as [Hi _ _ _ _ _].
  apply normalizeIntent_fields in Hi as (_ & Hd & Hbr & _). unfold normalizeBinding, bindingFromOperation in Hb.
  cbn in Hb. rewrite <- Hd, <- Hbr in Hb. unfold bindingFromOperation. cbv zeta. simplify_result.
  destruct (cid_Parse (BaseRoot _)) as [r|], (cid_Parse (PayloadCID _)) as [c|]; try done.
  rewrite !parse_printed in Hb. cbn in Hb. by simplify_result.
Qed.

Lemma remove_keeps refs entries failures w b full :
  Forall (fun e => normalizeBinding (e_Binding e) = Ok (e_Binding e)) entries -> b ∈ refs ->
  normalizeBinding b = Ok b -> holds (w_cache w) b full ->
  holds (w_cache (remove_unreferenced E refs entries failures w).2) b full.
Proof.
  intros Hn Hb Hbn. revert w failures. induction Hn as [|e entries He _ IH]; intros w failures H; cbn [remove_unreferenced]; [done|].
  destruct (negb (isLocalState (e_State e)) || bool_decide (e_Binding e ∈ refs)) eqn:Eg; [by apply IH|]. simplify_guards.
  unfold try, cache_call. unfold mbind, M_bind.
  assert (bindingID (e_Binding e) <> bindingID b) as Hne.
  { intros E0%bindingID_inj; [congruence|by eapply normalized_utf8..]. }
  pose proof (Remove_holds (en_cache E (w_tick w)) (e_Binding e) (w_cache w) b (e_Binding e) b full He Hbn Hne H) as Hh.
  destruct (Cache.Remove _ _ _) as [[u|er] d1]; [by apply IH|]. destruct (errors_Is er ErrMiss); by apply IH.
Qed.

Lemma List_all_normal w d entries d1 :
  Cache.List_all w d = (Ok entries, d1) -> Forall (fun e => normalizeBinding (e_Binding e) = Ok (e_Binding e)) entries.
Proof.
  intros (m & m' & Hv & Hop & _)%pure_section_Ok. simplify_eq. apply Forall_forall. intros e He.
  unfold sort_by_string in He. rewrite elem_of_sort_by in He. apply list_elem_of_fmap in He as ([id e0] & -> & Hin).
  apply elem_of_map_to_list in Hin. destruct (wf_entry_ok _ _ _ (cache_view_wf _ _ Hv) Hin) as [[Hn _ _ _ _] _]. done.
Qed.

(** A reconciliation keeps the bodies of the recorded writes. *)
Lemma Reconcile_keeps s w js op full :
  Durable.view (w_journal w) = Some js -> op ∈ listLocked (fun _ => true) js -> IntentKind (op_Intent op) = KindWrite ->
  holds (w_cache w) (bindingFromOperation op) full ->
  holds (w_cache (Reconcile E s w).2) (bindingFromOperation op) full.
Proof.
  intros Hv Hop Hk H. unfold Reconcile, enter. destruct (sv_closed s); [done|]. set (b := bindingFromOperation op) in *.
  assert (normalizeBinding b = Ok b) as Hbn.
  { pose proof H as (m & b' & e & _ & Hb & _). pose proof (journal_view_wf _ _ Hv) as Hwf.
    apply listLocked_elem in Hop as [Hl _]; [|done]. pose proof (operation_binding _ _ _ _ Hwf Hl Hb) as ->. exact Hb. }
  unfold mbind at 1, M_bind at 1, ctx_Err. destruct (en_cancelled E (w_tick w)); [done|].
  unfold mbind at 1, M_bind at 1, journal_call. cbn [w_tick w_journal w_cache].
  destruct (Journal.List_all _ _) as [[ops|e] f] eqn:El; [|done].
  apply List_all_Ok in El as (js0 & Hv0 & -> & ->). assert (js0 = js) as -> by congruence.
  set (w1 := mkWorld _ _ _). assert (holds (w_cache w1) b full) as H1 by done. clearbody w1.
  assert (forall X Y (m : M X) (g : X -> M Y) w, keeps_bodies m -> holds (w_cache w) b full ->
    (forall x w', m w = (Ok x, w') -> holds (w_cache w') b full -> holds (w_cache (g x w').2) b full) ->
    holds (w_cache ((m ≫= g) w).2) b full) as Hbind.
  { intros X Y m g w0 Hm H0 Hg. unfold mbind, M_bind. specialize (Hm w0 b full H0). destruct (m w0) as [[x|e] w2]; [|done].
    by apply Hg. }
  apply Hbind; [each|done|]. intros _ w2 _ H2. apply Hbind; [each|done|]. intros _ w3 _ H3.
  apply Hbind; [|done|].
  { apply bodies_cache; [done|]. intros. by apply List_all_holds. }
  intros entries w4 Hl4 H4. unfold cache_call in Hl4. destruct (Cache.List_all _ _) as [re d4] eqn:Ed. simplify_eq.
  unfold mbind, M_bind.
  pose proof (remove_keeps (referenced_bindings (listLocked (fun _ => true) js)) entries []
    (mkWorld d4 (w_journal w3) (S (w_tick w3))) b full (List_all_normal _ _ _ _ Ed)) as Hr.
  destruct (remove_unreferenced _ _ _ _ _) as [[fs|e] w5]; cbn [snd] in Hr; apply Hr; try done;
    apply list_elem_of_fmap; exists op; split; try done; by apply list_elem_of_filter.
Qed.
End Bodies.
End Histories.
