(* ===== verification/StagingBatches.v ===== *)
(** Contents of staged files: what the reads return and what the writes leave. *)

From stdpp Require Import base decidable gmap strings list sorting.
From Stdlib Require Import Ascii ZArith.
From S2P Require Import Prelude GoText Branch CidLib Durable Journal JournalFacts JournalOps JournalThms Cache CacheFacts CacheHistory CacheThms Paths Staging Overlay StagingFacts StagingWrites StagingHistory.

(** ** Bytes *)
Lemma padded_lookup (old : body) n i :
  (old ++ replicate (n - length old) Ascii.zero) !! i =
    if decide (i < length old) then old !! i else if decide (i < n) then Some Ascii.zero else None.
Proof.
  case_decide; [by rewrite lookup_app_l by lia|]. rewrite lookup_app_r by lia.
  case_decide; [by rewrite lookup_replicate_2 by lia|]. by apply lookup_ge_None_2; rewrite length_replicate; lia.
Qed.

(** The bytes that a write at an offset leaves. *)
Lemma write_at_lookup old offset data i :
  write_at old offset data !! i =
    if decide (offset <= i < offset + length data) then data !! (i - offset)
    else if decide (i < length old) then old !! i
    else if decide (i < offset) then Some Ascii.zero else None.
Proof.
  unfold write_at, body in *. cbv zeta. set (padded := old ++ _).
  assert (length padded = Nat.max (length old) (offset + length data)) as Hl
    by (unfold padded; rewrite length_app, length_replicate; lia).
  assert (length (take offset padded) = offset) as Ht by (rewrite length_take; lia).
  destruct (decide (i < offset)).
  - rewrite (decide_False (P := offset <= i < _)) by lia. rewrite lookup_app_l, lookup_take_lt by lia. unfold padded. rewrite padded_lookup.
    case_decide; [done|]. by rewrite !decide_True by lia.
  - rewrite lookup_app_r by lia. rewrite Ht. destruct (decide (i < offset + length data)).
    + rewrite decide_True by lia. by rewrite lookup_app_l by lia.
    + rewrite (decide_False (P := offset <= i < _)) by lia. rewrite lookup_app_r, lookup_drop by lia.
      replace (offset + length data + (i - offset - length data)) with i by lia. unfold padded. rewrite padded_lookup.
      case_decide; [done|]. case_decide; [lia|done].
Qed.

Lemma resize_lookup old size i :
  resize old size !! i =
    if decide (i < size) then (if decide (i < length old) then old !! i else Some Ascii.zero) else None.
Proof.
  unfold resize, body in *. destruct (decide (i < size)).
  - destruct (decide (i < length old)).
    + by rewrite lookup_app_l, lookup_take_lt by (rewrite ?length_take; lia).
    + rewrite lookup_app_r by (rewrite length_take; lia). rewrite lookup_replicate_2; [done|]. rewrite length_take. lia.
  - apply lookup_ge_None_2. rewrite length_app, length_take, length_replicate. lia.
Qed.

Section Content.
Context {L : CidLib} {LL : CidLaws L} {C : CacheLib} {CL : CacheLaws C} {B : Base} {SL : StageLib}.

(** The bytes of a file of the namespace. *)
Definition content (view : View) (d : cache_dir) (n : node) (full : body) : Prop :=
  match n_source n with
  | Some (FromCache b) => holds d b full
  | Some (FromBase p) => exists info info', base_Stat view p = Ok info /\
      base_ReadFileRange view p 0 (i_Size info) = Ok (full, info') /\ N.of_nat (length full) = i_Size info
  | None => False
  end.

(** No system call fails, nothing is cancelled. *)
Record healthy (E : env) : Prop := {
  he_cache : forall t, en_cache E t = cio_ok;
  he_journal : forall t, en_journal E t = io_ok;
  he_alive : forall t, en_cancelled E t = None;
  he_split : chunking (en_split E)
}.

Lemma keeps_run {X} (m : M X) w r w' : keeps_journal m -> m w = (r, w') -> w_journal w' = w_journal w.
Proof. intros H Hm. specialize (H w). by rewrite Hm in H. Qed.

(** ** Reading *)
Section Reading.
Context (E : env).

Lemma operations_run view w js :
  (forall t, en_journal E t = io_ok) -> validateView view = Ok () -> Durable.view (w_journal w) = Some js ->
  operations E view w = (Ok (view_ops view js), ticked w).
Proof.
  intros Hh Hval Hv. unfold operations, mbind, M_bind, lift. rewrite Hval. unfold journal_call. rewrite Hh.
  unfold Journal.List_all, list_ops, Journal.withState.
  by rewrite (with_state_ok synced_writer eq_refl false _ (w_journal w) js _ js Hv eq_refl).
Qed.

Lemma ctx_run w : healthy E -> ctx_Err E w = (Ok (), ticked w).
Proof. intros Hh. unfold ctx_Err. by rewrite (he_alive _ Hh). Qed.

Lemma from_cache view ops p n b :
  overlay ops (base_tree view) p = Some n -> n_source n = Some (FromCache b) ->
  exists op, locate p (rev ops) = AtWrite op /\ b = bindingFromOperation op /\ n = file_node op.
Proof.
  rewrite overlay_locate. destruct (locate p (rev ops)) as [op|k|m|e]; cbn; intros H Hs; try done; simplify_eq.
  - cbn in Hs. simplify_eq. eauto.
  - unfold base_tree in H. by destruct (base_Stat view m); simplify_eq.
Qed.

(** A staged file is read back from the cache. *)
Lemma staged_read s view raw js n b full offset len w :
  healthy E -> sv_closed s = false -> validateView view = Ok () -> canonicalPath raw false = Ok raw ->
  Durable.view (w_journal w) = Some js -> namespace view js raw = Some n -> n_source n = Some (FromCache b) ->
  holds (w_cache w) b full -> (N.of_nat (length full) <= stagedFileLimit s)%N -> (N.of_nat (length full) <= maxInt)%N ->
  (offset < two64)%N -> (len < two64)%N ->
  exists info w', ReadFileRange E s view raw offset len w =
      (Ok (take (N.to_nat len) (drop (N.to_nat offset) full), info), w') /\
    i_Path info = raw /\ i_Kind info = StagedKindFile /\ i_Size info = N.of_nat (length full).
Proof.
  intros Hh Hcl Hval Hc Hv Hn Hsrc Hhold Hlim Hmax Ho Hl.
  destruct (from_cache _ _ _ _ _ Hn Hsrc) as (op & Hloc & -> & ->). set (b := bindingFromOperation op) in *.
  pose proof Hhold as (m & b' & e & Hm & Hb & Hlb).
  destruct (local_reads m _ b b' e full (stagedFileLimit s) Hm Hb Hlb Hlim Hmax) as (_ & Hver & _).
  destruct (Cache.VerifyLocal cio_ok b (stagedFileLimit s) (w_cache w)) as [r1 d1] eqn:Ever. cbn in Hver. subst r1.
  assert (holds d1 b full) as (m1 & b1 & e1 & Hm1 & Hb1 & Hlb1).
  { pose proof (VerifyLocal_holds cio_ok b (stagedFileLimit s) _ _ _ Hhold) as H. by rewrite Ever in H. }
  destruct (local_reads m1 d1 b b1 e1 full (stagedFileLimit s) Hm1 Hb1 Hlb1 Hlim Hmax) as (_ & _ & Hrange).
  specialize (Hrange (en_split E) offset len (he_split _ Hh) Ho Hl).
  destruct (Cache.ReadLocalRange cio_ok (en_split E) b offset len (stagedFileLimit s) d1) as [r2 d2] eqn:Erange. cbn in Hrange. subst r2.
  assert (Open E s view raw w =
    (Ok (mkHandle view (mkResolved (localInfo raw StagedKindFile (b_CID b) (Z.to_N (e_Size e))) true EmptyString b 0) false),
    mkWorld d1 (w_journal w) (S (S (S (w_tick w)))))) as Hopen.
  { unfold Open, enter. rewrite Hcl. rewrite Hc. rewrite (M_bind_run _ _ w raw w) by done.
    rewrite (M_bind_run _ _ _ _ _ (operations_run view w js (he_journal _ Hh) Hval Hv)). rewrite resolveAt_place.
    unfold mbind at 1, M_bind at 1. rewrite (M_bind_run _ _ _ _ _ (ctx_run _ Hh)). rewrite Hloc. cbn [resolve_place].
    unfold VerifyLocal, cache_call, mbind, M_bind. cbn [ticked w_tick w_cache w_journal]. rewrite (he_cache _ Hh).
    fold b. by rewrite Ever. }
  unfold ReadFileRange. rewrite (M_bind_run _ _ _ _ _ Hopen). unfold handle_Read, enter. rewrite Hcl. cbn [h_closed h_resolved rn_local rn_binding].
  unfold cache_call, mbind, M_bind. cbn [w_tick w_cache w_journal]. rewrite (he_cache _ Hh), Erange. cbn.
  eexists _, _. split; [done|]. cbn. split_and!; try done. destruct Hlb as [_ _ _ _ Hsz _]. rewrite Hsz. lia.
Qed.
End Reading.

(** ** Writing *)
Section Writing.
Context (E : env) (Htick : ticking E).

#[local] Hint Resolve operations_keeps : keeps.

(** What a successful write of new content leaves. *)
Record installed (view : View) (path : string) (data : body) (js : persistedState) (op : Operation) (w' : world) : Prop := {
  in_journal : exists js', Durable.view (w_journal w') = Some js' /\
    (forall p, namespace view js' p = apply_op (namespace view js) op p) /\ namespace view js' path = Some (file_node op);
  in_body : holds (w_cache w') (bindingFromOperation op) data
}.

Lemma recorded_node t op path :
  IntentKind (op_Intent op) = KindWrite -> Path (op_Intent op) = path -> apply_op t op path = Some (file_node op).
Proof. intros Hk Hp. unfold apply_op. cbv zeta. rewrite Hk, Hp. by rewrite bool_decide_eq_true_2. Qed.

Lemma write_body_installs s view ops raw data offline w op w' js :
  stageWriteBodyLocked E s view ops raw data offline w = (Ok op, w') -> listed view ops w ->
  Durable.view (w_journal w) = Some js -> (NextSequence js + 1 < two64)%N -> canonicalPath raw false = Ok raw ->
  Operations js !! op_id op = None ->
  installed view raw data js op w' /\ (N.of_nat (length data) <= stagedFileLimit s)%N.
Proof.
  intros H [Hval Hops] Hv Hroom Hc Hnew. unfold stageWriteBodyLocked in H. simplify_M. cbv zeta in *. simplify_M.
  match goal with H : ensureLocalBody _ _ _ _ _ _ = _ |- _ => rename H into Hens end.
  match goal with H : ctx_Err _ _ = _ |- _ => apply ctx_Err_Ok in H as -> end.
  match goal with H : requireParentDirectory _ _ _ _ _ _ = _ |- _ => apply keeps_run in H as Hj1; [|auto with keeps] end.
  match goal with H : statAt _ _ _ _ _ _ _ = _ |- _ => apply keeps_run in H as Hj2; [|auto with keeps] end.
  match goal with H : ensureLocalBody ?E ?s ?b ?d ?o ?w = _ |- _ =>
    pose proof (ensure_spec E Htick s b d o w) as (_ & Hbody & Hj3); rewrite Hens in Hbody, Hj3; cbn [fst snd] in Hbody, Hj3 end.
  specialize (Hbody eq_refl). match type of Hens with context [bindingFor view ?p] => rename p into payload end.
  destruct (canonicalPath_Ok _ _ _ Hc) as (_ & Htrim & _).
  match goal with H : appendIntent _ _ _ _ _ _ _ ?w0 = _ |- _ => rename H into Happ; assert (w_journal w0 = w_journal w) as Hj
    by (cbn; congruence) end.
  pose proof Hv as Hv0. rewrite <- Hj in Hv0.
  destruct (appendIntent_cases _ _ _ _ _ _ _ _ _ _ _ Htick Hval Htrim (eq_refl : TrimSpace EmptyString = EmptyString) Hv0 Hroom Happ)
    as (Hcache & js' & Hv' & _ & [[_ Hold]|(op0 & Hrec & Hop & Hview)]).
  { by destruct (Hold op eq_refl). }
  assert (op0 = op) as -> by (symmetry; by apply Hop). pose proof Hrec as [Hin Hk Hp _ _]. split.
  - split.
    + exists js'. split; [done|]. unfold namespace. rewrite Hview, Hin, overlay_snoc. split; [done|]. by apply recorded_node.
    + rewrite Hcache, (records_binding _ _ _ _ _ Hval Hrec). done.
  - match goal with H : requireStagedSize _ _ = Ok _ |- _ => unfold requireStagedSize in H; apply fail_if_Ok, N.ltb_ge in H end. done.
Qed.

Lemma holds_unique d b f1 f2 : holds d b f1 -> holds d b f2 -> f1 = f2.
Proof.
  intros (m1 & b1 & e1 & Hm1 & Hb1 & [_ _ _ Hl1 _ _]) (m2 & b2 & e2 & Hm2 & Hb2 & [_ _ _ Hl2 _ _]). congruence.
Qed.

Lemma verified_body w b n d e d1 :
  Cache.VerifyLocal w b n d = (Ok e, d1) ->
  exists full, holds d b full /\ holds d1 b full /\ e_Size e = Z.of_nat (length full).
Proof.
  intros Ev. destruct (VerifyLocal_finds _ _ _ _ _ _ Ev) as (full & H & Hs & _). exists full. split_and!; [done| |done].
  pose proof (VerifyLocal_holds w b n d b full H) as H1. by rewrite Ev in H1.
Qed.

(** The bytes that an update starts from. *)
Lemma current_body s view ops path w old w' :
  currentFileBodyLocked E s view ops path w = (Ok old, w') ->
  exists n, overlay ops (base_tree view) path = Some n /\ content view (w_cache w) n old.
Proof.
  unfold currentFileBodyLocked. intros H. simplify_M. cbv zeta in *. simplify_M.
  match goal with H : resolveAt _ _ _ _ _ _ _ = _ |- _ => rewrite resolveAt_place in H; rename H into Hres end.
  simplify_M. match goal with H : ctx_Err _ _ = _ |- _ => apply ctx_Err_Ok in H as -> end.
  rewrite overlay_locate. destruct (locate path (rev ops)) as [op|k|m|e]; cbn [resolve_place node_at] in *.
  - simplify_M. cbn [rn_local rn_binding rn_info] in *. simplify_M. eexists. split; [done|]. cbn.
    match goal with H : VerifyLocal _ _ _ _ = _ |- _ => unfold VerifyLocal, cache_call in H end.
    destruct (Cache.VerifyLocal _ _ _ _) as [rv d1] eqn:Ev. simplify_eq.
    apply verified_body in Ev as (full & Hhold & Hhold1 & _).
    match goal with H : ReadLocalBounded _ _ _ _ = _ |- _ => unfold ReadLocalBounded, cache_call in H end.
    destruct (Cache.ReadLocalBounded _ _ _ _) as [rr d2] eqn:Er. simplify_eq. cbn [w_cache ticked w_tick] in *.
    destruct x as [old0 e0]. apply ReadLocalBounded_finds in Er. cbn [fst]. by rewrite (holds_unique _ _ _ _ Er Hhold1).
  - simplify_M. cbn [rn_info] in *. match goal with H : fail_if (IsDir _) _ = Ok _ |- _ => by apply fail_if_Ok in H end.
  - simplify_M. cbn [rn_local rn_info rn_remotePath] in *. simplify_M. eexists.
    match goal with H : base_Stat view m = Ok ?i |- _ => unfold base_tree; rewrite H; split; [done|]; cbn [content n_source]; exists i end.
    match goal with H : fail_if (negb _) _ = Ok _ |- _ => apply fail_if_Ok, negb_false_iff, bool_decide_eq_true in H end.
    match goal with H : base_ReadFileRange _ _ _ _ = Ok ?x |- _ => destruct x as [full i']; exists i' end. done.
  - done.
Qed.

End Writing.

(** An installed file reads back. *)
Lemma installed_reads E s view raw data js op w offset len :
  healthy E -> installed view raw data js op w -> sv_closed s = false -> (sv_maxFile s <= maxInt)%N ->
  validateView view = Ok () -> canonicalPath raw false = Ok raw -> (N.of_nat (length data) <= stagedFileLimit s)%N ->
  (offset < two64)%N -> (len < two64)%N ->
  exists info w', ReadFileRange E s view raw offset len w =
      (Ok (take (N.to_nat len) (drop (N.to_nat offset) data), info), w') /\
    i_Kind info = StagedKindFile /\ i_Size info = N.of_nat (length data).
Proof.
  intros Hh [(js' & Hv & _ & Hn) Hbody] Hcl Hmax Hval Hc Hlim Ho Hl.
  assert (N.of_nat (length data) <= maxInt)%N as Hmi.
  { unfold stagedFileLimit in Hlim. case_bool_decide; cbn [negb] in Hlim; [|lia].
    assert (DefaultMaxStagedFileBytes <= maxInt)%N by done. lia. }
  destruct (staged_read E s view raw js' _ _ data offset len w Hh Hcl Hval Hc Hv Hn eq_refl Hbody Hlim Hmi Ho Hl)
    as (info & w' & H1 & _ & H2 & H3). eauto.
Qed.
End Content.

(** * Preparing and finishing upload batches. *)

Section Effects.
Context {L : CidLib} {LL : CidLaws L} {C : CacheLib} {CL : CacheLaws C} {B : Base} {SL : StageLib}.

(** What a successful batch method of the journal leaves in the file. *)
Definition batch_done (check : Operation -> result unit) (changes : Operation -> bool) (change : Operation -> Operation)
    (ids : list string) (js js' : persistedState) : Prop :=
  (forall id, id ∈ ids -> exists op, Operations js !! id = Some op /\ check op = Ok ()) /\
  forall id, option_Forall2 (fun op op' =>
      normalizeOperation (if bool_decide (id ∈ ids) then if changes op then change op else op else op) = Ok op')
    (Operations js !! id) (Operations js' !! id).

Lemma batch_effect w check changes change ids (f : journal_file) r f' js js' :
  NoDup ids -> (forall op, op_Intent (change op) = op_Intent op) ->
  sorted_result (Journal.withState w true (batchLocked check changes change ids) f) = (Ok r, f') ->
  Durable.view f = Some js -> Durable.view f' = Some js' -> batch_done check changes change ids js js'.
Proof.
  intros Hnd Hi H Hv Hv'. destruct (Journal.withState _ _ _ f) as [r0 f0] eqn:Ew. unfold sorted_result in H. cbn in H.
  injection H as Hr <-. destruct r0 as [ops|]; [|done]. pose proof (journal_view_wf _ _ Hv) as Hwf.
  apply (with_state_cases synced_writer eq_refl) in Ew as [[Ef Hr0]|(js0 & a & js1 & Hv0 & Hop & -> & _)]; [done|].
  assert (js0 = js) as -> by congruence.
  assert (Journal.decode js1 = Ok js') as Hd.
  { unfold Durable.view in Hv'. cbn in Hv'. by destruct (Journal.decode js1); simplify_eq. }
  apply decode_lookup in Hd as [_ Hd].
  assert (forall op, op_id (change op) = op_id op) as Hid by (intros op; unfold op_id; by rewrite Hi).
  split; intros id; destruct (batchLocked_lookup check changes change ids js a js1 id Hid Hwf Hnd Hop) as [El Hc]; [exact Hc|].
  specialize (Hd id). rewrite El in Hd. case_bool_decide; [|done]. destruct (Operations js !! id) as [op|];
    [|inversion Hd; constructor].
  cbn in Hd. by apply related_l in Hd as (op' & -> & Hn); constructor.
Qed.

(** The loader leaves what is already well formed. *)
Lemma normal_same op op' : op_ok op -> normalizeOperation op = Ok op' -> op' = op.
Proof. intros Hok H. rewrite (op_ok_normalize op Hok) in H. by simplify_eq. Qed.

Lemma batch_untouched check changes change ids js js' id :
  Journal.wf js -> batch_done check changes change ids js js' -> id ∉ ids -> Operations js' !! id = Operations js !! id.
Proof.
  intros Hwf [_ Hb] Hid. specialize (Hb id). rewrite bool_decide_eq_false_2 in Hb by done.
  destruct (Operations js !! id) as [op|] eqn:El; [|by inversion Hb]. apply related_l in Hb as (op' & -> & Hn).
  f_equal. apply normal_same; [|done]. by eapply wf_op_ok.
Qed.

(** The identities of recorded operations are in normal form. *)
Lemma recorded_id_trimmed js id op : Journal.wf js -> Operations js !! id = Some op -> TrimSpace (op_id op) = op_id op.
Proof.
  intros Hwf Hl. destruct (wf_op_ok _ _ _ Hwf Hl) as [Hi _ _ _ _ _]. apply normalizeIntent_fields in Hi as (Hid & _).
  unfold op_id. by rewrite <- Hid.
Qed.

Lemma trimmed_ids js (ids : list string) : Journal.wf js -> (forall id, id ∈ ids -> exists op, Operations js !! id = Some op) -> TrimSpace <$> ids = ids.
Proof.
  intros Hwf Hin. rewrite <- (list_fmap_id ids) at 2. apply list_fmap_ext. intros i id Hl. apply list_elem_of_lookup_2 in Hl.
  destruct (Hin id Hl) as [op Hop]. pose proof (recorded_id_trimmed _ _ _ Hwf Hop).
  destruct (wf_op js Hwf _ _ Hop) as (_ & E & _). cbn. congruence.
Qed.

(** ** Selecting what to freeze *)
Lemma pending_ids_spec acc ops ids :
  pending_ids acc ops = Ok ids ->
  (forall id, id ∈ ids <-> id ∈ acc \/ exists op, op ∈ ops /\ op_id op = id /\
     (op_Status op = StatusLocalDirty \/ op_Status op = StatusOfflineOnly \/ op_Status op = StatusPendingUpload)) /\
  Forall (fun op => op_Status op <> StatusConflicted) ops.
Proof.
  revert acc. induction ops as [|op ops IH]; intros acc H; cbn [pending_ids] in H.
  { simplify_result. split; [|constructor]. intros id. split; [by left|]. intros [?|(op & []%elem_of_nil & _)]. done. }
  assert (forall acc', (forall id, id ∈ acc' <-> id ∈ acc \/ id = op_id op /\
      (op_Status op = StatusLocalDirty \/ op_Status op = StatusOfflineOnly \/ op_Status op = StatusPendingUpload)) ->
    op_Status op <> StatusConflicted -> pending_ids acc' ops = Ok ids ->
    (forall id, id ∈ ids <-> id ∈ acc \/ exists op0, op0 ∈ op :: ops /\ op_id op0 = id /\
     (op_Status op0 = StatusLocalDirty \/ op_Status op0 = StatusOfflineOnly \/ op_Status op0 = StatusPendingUpload)) /\
    Forall (fun op => op_Status op <> StatusConflicted) (op :: ops)) as Hstep.
  { intros acc' Hacc Hc Hp. apply IH in Hp as [H1 H2]. split; [|by constructor]. intros id. rewrite H1, Hacc.
    setoid_rewrite elem_of_cons. naive_solver. }
  destruct (op_Status op) eqn:Es; try done; apply (Hstep _) in H; try done; intros id;
    rewrite ?elem_of_app, ?list_elem_of_singleton; naive_solver.
Qed.
End Effects.

(** ** A batch that was just prepared is valid *)
Section Prepare.
Context {L : CidLib} {LL : CidLaws L} {C : CacheLib} {CL : CacheLaws C} {B : Base} {SL : StageLib}.

Lemma view_ops_NoDup view js : Journal.wf js -> NoDup (op_id <$> view_ops view js).
Proof.
  intros Hwf. pose proof (view_ops_sorted view js Hwf) as Hs. apply NoDup_fmap_2_strong.
  - intros x y [Hx _]%view_ops_elem [Hy _]%view_ops_elem Hxy; try done. congruence.
  - clear -Hs. induction Hs as [|a l Hs IH Ha]; constructor; [|done]. intros Hin. rewrite Forall_forall in Ha.
    specialize (Ha a Hin). lia.
Qed.

Lemma find_unique ops op :
  NoDup (op_id <$> ops) -> op ∈ ops -> List.find (fun o => bool_decide (op_id o = op_id op)) ops = Some op.
Proof.
  induction ops as [|o ops IH]; intros Hnd Hin; [by apply elem_of_nil in Hin|]. rewrite fmap_cons in Hnd.
  apply NoDup_cons in Hnd as [Hno Hnd]. cbn [List.find]. apply elem_of_cons in Hin as [->|Hin].
  - by rewrite bool_decide_eq_true_2.
  - rewrite bool_decide_eq_false_2; [by apply IH|]. intros E. apply Hno. rewrite E. by apply list_elem_of_fmap_2.
Qed.

Lemma find_op_in ops op : NoDup (op_id <$> ops) -> op ∈ ops -> find_op ops (op_id op) = Some op.
Proof.
  intros Hnd Hin. pose proof (Permutation_rev ops) as Hp. apply find_unique; [by rewrite <- Hp|by rewrite <- Hp].
Qed.

Definition batch_status (op : Operation) : Prop :=
  op_Status op = StatusPendingUpload \/ op_Status op = StatusCompleted /\ is_Some (cid_Parse (ResultRoot op)).

Lemma check_batch_ops_run seen ops :
  NoDup (op_id <$> ops) -> Forall (fun op => op_id op ∉ seen) ops -> Forall batch_status ops -> check_batch_ops seen ops = Ok ().
Proof.
  revert seen. induction ops as [|op ops IH]; intros seen Hnd Hs Hb; [done|]. cbn [check_batch_ops].
  rewrite fmap_cons in Hnd. apply NoDup_cons in Hnd as [Hno Hnd]. apply Forall_cons in Hs as [Hs1 Hs], Hb as [Hb1 Hb].
  rewrite bool_decide_eq_false_2 by done. cbn [fail_if mbind result_bind].
  assert (match op_Status op with
          | StatusPendingUpload => Ok ()
          | StatusCompleted => _ ← or_err (cid_Parse (ResultRoot op)) ErrUploadBatch; Ok ()
          | _ => Err ErrUploadBatch
          end = Ok ()) as ->.
  { destruct Hb1 as [->|[-> [c Hc]]]; [done|]. by rewrite Hc. }
  cbn [mbind result_bind]. apply IH; [done| |done]. rewrite Forall_forall in *. intros o Ho. rewrite not_elem_of_cons.
  split; [|by apply Hs]. intros E. apply Hno. rewrite <- E. by apply list_elem_of_fmap_2.
Qed.

Lemma check_batch_pending_run ops seen pending :
  NoDup (op_id <$> pending) -> Forall (fun op => op_id op ∉ seen) pending ->
  Forall (fun op => find_op ops (op_id op) = Some op /\ op_Status op = StatusPendingUpload) pending ->
  exists seen', check_batch_pending ops seen pending = Ok seen' /\ length seen' = length seen + length pending.
Proof.
  revert seen. induction pending as [|op pending IH]; intros seen Hnd Hs Hb; cbn [check_batch_pending]; [exists seen; cbn; split; [done|lia]|].
  rewrite fmap_cons in Hnd. apply NoDup_cons in Hnd as [Hno Hnd]. apply Forall_cons in Hs as [Hs1 Hs], Hb as [[Hb1 Hb2] Hb].
  rewrite (bool_decide_eq_false_2 (op_id op ∈ seen)), !bool_decide_eq_true_2 by done. cbn [negb orb fail_if mbind result_bind].
  destruct (IH (op_id op :: seen)) as (seen' & -> & Hl); [done| |done|].
  - rewrite Forall_forall in *. intros o Ho. rewrite not_elem_of_cons. split; [|by apply Hs]. intros E. apply Hno. rewrite <- E.
    by apply list_elem_of_fmap_2.
  - exists seen'. split; [done|]. cbn in Hl |- *. lia.
Qed.

(** The statuses after a freeze. *)
Lemma freeze_done w now ids (f : journal_file) r f' js js' :
  Journal.FreezeBatchForUpload w now ids f = (Ok r, f') -> Durable.view f = Some js -> Durable.view f' = Some js' ->
  TrimSpace <$> ids = ids ->
  batch_done freeze_check (fun op => negb (bool_decide (op_Status op = StatusPendingUpload)))
    (fun op => update_status op StatusPendingUpload (ConflictID op) (ResultRoot op) now) ids js js'.
Proof.
  intros H Hv Hv' Ht. unfold Journal.FreezeBatchForUpload in H. destruct (normalizeOperationIDs ids) as [ids'|] eqn:Ei; [|done].
  cbn in H. pose proof (normalizeOperationIDs_NoDup _ _ Ei). apply normalizeOperationIDs_trim in Ei as ->. rewrite Ht in *.
  by eapply batch_effect.
Qed.

Lemma frozen_status ids now js js' id op' :
  Journal.wf js ->
  batch_done freeze_check (fun op => negb (bool_decide (op_Status op = StatusPendingUpload)))
    (fun op => update_status op StatusPendingUpload (ConflictID op) (ResultRoot op) now) ids js js' ->
  Operations js' !! id = Some op' ->
  exists op, Operations js !! id = Some op /\ op_Intent op' = op_Intent op /\
    op_Status op' = if bool_decide (id ∈ ids) then StatusPendingUpload else op_Status op.
Proof.
  intros Hwf [_ Hb] Hl'. specialize (Hb id). rewrite Hl' in Hb. apply related_r in Hb as (op & Hl & Hn). exists op.
  split; [done|]. destruct (wf_op_ok _ _ _ Hwf Hl) as [Hi _ _ _ _ _].
  apply normalizeOperation_same in Hn as (H1 & _ & H3).
  - rewrite H1, H3. case_bool_decide; [|done]. case_bool_decide; done.
  - case_bool_decide; [|done]. by destruct (negb _).
Qed.
End Prepare.

(** ** Payloads *)
Section Payloads.
Context {L : CidLib} {LL : CidLaws L} {C : CacheLib} {CL : CacheLaws C} {B : Base} {SL : StageLib} (E : env).

(** A payload whose bytes have its CID as their digest. *)
Definition authentic (p : UploadPayload) : Prop := exists c, up_CID p = Some c /\ cid_Sum c (up_Body p) = Some c.

Lemma put_payload_spec p l :
  NoDup (up_CID <$> l) -> Forall authentic l -> authentic p ->
  NoDup (up_CID <$> put_payload p l) /\ Forall authentic (put_payload p l) /\
  forall c, c ∈ up_CID <$> put_payload p l <-> c = up_CID p \/ c ∈ up_CID <$> l.
Proof.
  intros Hnd Ha Hp. induction l as [|q l IH]; cbn [put_payload].
  { split_and!; [by apply NoDup_singleton|by constructor|]. intros c. cbn. set_solver. }
  rewrite fmap_cons in Hnd. apply NoDup_cons in Hnd as [Hno Hnd]. apply Forall_cons in Ha as [Hq Ha].
  case_bool_decide as Eq.
  - rewrite !fmap_cons. split_and!; [constructor; [by rewrite <- Eq|done]|by constructor|]. intros c. rewrite !elem_of_cons, Eq. naive_solver.
  - destruct (IH Hnd Ha) as (I1 & I2 & I3). rewrite !fmap_cons. split_and!; [|by constructor|].
    + constructor; [|done]. rewrite I3. intros [?|?]; congruence.
    + intros c. rewrite !elem_of_cons, I3. naive_solver.
Qed.

Lemma payload_loop_Ok s acc ops w res w' :
  NoDup (up_CID <$> acc) -> Forall authentic acc -> payload_loop E s acc ops w = (Ok res, w') ->
  NoDup (up_CID <$> res) /\ Forall authentic res /\
  forall c, c ∈ up_CID <$> res <-> c ∈ up_CID <$> acc \/
    exists op, op ∈ ops /\ IntentKind (op_Intent op) = KindWrite /\ b_CID (bindingFromOperation op) = c.
Proof.
  revert acc w. induction ops as [|op ops IH]; intros acc w Hnd Ha H; cbn [payload_loop] in H.
  { simplify_M. unfold sort_by_string.
    pose proof (sort_by_Permutation (fun p => cid_text_of (up_CID p)) String.leb acc) as Hp. split_and!.
    { by rewrite Hp. } { by rewrite Hp. }
    intros c. rewrite Hp. split; [by left|]. intros [?|(op & []%elem_of_nil & _)]. done. }
  case_bool_decide as Ek; cbn [negb] in H.
  - cbv zeta in H. simplify_M. destruct x as [[data e]|err]; [|done].
    match goal with H : ReadLocalBounded _ _ _ _ = _ |- _ => unfold ReadLocalBounded, cache_call in H end.
    destruct (Cache.ReadLocalBounded _ _ _ _) as [rr d1] eqn:Er. simplify_eq.
    apply ReadLocalBounded_finds in Er as (m & b' & e' & _ & Hb & [_ _ _ _ _ (c0 & Hc0 & Hsum)]).
    destruct (normalizeBinding_inv _ _ Hb) as (_ & Hcid & _).
    destruct (put_payload_spec (mkPayload (b_CID (bindingFromOperation op)) data) acc) as (P1 & P2 & P3); [done|done| |].
    { exists c0. cbn [up_CID up_Body]. split; [congruence|done]. }
    destruct (IH _ _ P1 P2 H) as (I1 & I2 & I3). split_and!; [done|done|]. intros c. rewrite I3, P3. cbn [up_CID].
    setoid_rewrite elem_of_cons. naive_solver.
  - destruct (IH _ _ Hnd Ha H) as (I1 & I2 & I3). split_and!; [done|done|]. intros c. rewrite I3.
    setoid_rewrite elem_of_cons. naive_solver.
Qed.

Lemma filter_agree {A} (P Q : A -> Prop) `{!forall x, Decision (P x), !forall x, Decision (Q x)} (l : list A) :
  (forall x, x ∈ l -> P x <-> Q x) -> filter P l = filter Q l.
Proof.
  induction l as [|x l IH]; intros Hag; [done|]. rewrite !filter_cons.
  rewrite IH by (intros y Hy; apply Hag; by right). pose proof (Hag x ltac:(by left)). repeat case_decide; naive_solver.
Qed.

(** A batch whose parts fit together is valid. *)
Lemma batch_valid view ops pending payloads :
  validateView view = Ok () -> NoDup (op_id <$> ops) -> Forall batch_status ops ->
  pending = filter (fun op => op_Status op = StatusPendingUpload) ops -> pending <> [] ->
  validateUploadBatch (mkBatch view (uploadTransactionID view ops) ops pending payloads) = Ok ().
Proof.
  intros Hval Hnd Hst -> Hne. unfold validateUploadBatch. cbn [ub_View ub_Operations ub_Pending ub_TransactionID].
  assert (ops <> []) as Hno by (by intros ->). rewrite Hval.
  rewrite !bool_decide_eq_false_2, (bool_decide_eq_true_2 (uploadTransactionID _ _ = _)) by done.
  cbn [negb orb fail_if mbind result_bind]. rewrite check_batch_ops_run; [|done|apply Forall_forall; set_solver|done].
  cbn [mbind result_bind].
  destruct (check_batch_pending_run ops [] (filter (fun op => op_Status op = StatusPendingUpload) ops)) as (seen & -> & Hl).
  - apply NoDup_fmap_2_strong; [|by apply NoDup_filter, (NoDup_fmap_1 op_id)].
    intros x y [_ Hx]%list_elem_of_filter [_ Hy]%list_elem_of_filter. by apply (NoDup_key_inj op_id _ _ _ Hnd).
  - apply Forall_forall. set_solver.
  - apply Forall_forall. intros op [Hs Hin]%list_elem_of_filter. split; [by apply find_op_in|done].
  - cbn [mbind result_bind]. rewrite Hl. by rewrite bool_decide_eq_true_2.
Qed.

(** After the freeze every operation of the view is pending or completed, and
    the pending ones are those that were selected. *)
Lemma freeze_snapshot view js js' ids w now (f : journal_file) r f' :
  Journal.FreezeBatchForUpload w now ids f = (Ok r, f') -> Durable.view f = Some js -> Durable.view f' = Some js' ->
  pending_ids [] (view_ops view js) = Ok ids ->
  restatus js js' /\
  forall op', op' ∈ view_ops view js' -> batch_status op' /\ (op_id op' ∈ ids <-> op_Status op' = StatusPendingUpload).
Proof.
  intros Ef Hv Hv' [Hids Hnoc]%pending_ids_spec. pose proof (journal_view_wf _ _ Hv) as Hwf. pose proof (journal_view_wf _ _ Hv') as Hwf'.
  assert (TrimSpace <$> ids = ids) as Htrim.
  { apply (trimmed_ids js); [done|]. intros id [[]%elem_of_nil|(op & [Hl _]%view_ops_elem & <- & _)]%Hids; eauto. }
  pose proof (freeze_done _ _ _ _ _ _ _ _ Ef Hv Hv' Htrim) as Hdone.
  pose proof (FreezeBatch_restatus keeps_superseded _ _ _ _ _ _ _ _ freeze_superseded Ef Hv Hv') as Hre. split; [done|].
  intros op' [Hl' Hin']%view_ops_elem; [|done].
  destruct (frozen_status _ _ _ _ _ _ Hwf Hdone Hl') as (op & Hl & Hi & Hs).
  assert (op_id op = op_id op') as Hid by (destruct (wf_op js Hwf _ _ Hl) as (_ & E0 & _); done).
  assert (op ∈ view_ops view js) as Ho.
  { apply view_ops_elem; [done|]. rewrite Hid. split; [done|]. rewrite <- Hin'. symmetry. apply in_view_same.
    destruct Hre as [_ Hre]. specialize (Hre (op_id op')). rewrite Hl, Hl' in Hre. by inversion Hre. }
  case_bool_decide as Hm; [by split; [left|]|].
  assert (op_Status op' = StatusCompleted) as Hcomp.
  { rewrite Forall_forall in Hnoc. specialize (Hnoc op Ho). destruct (wf_op_ok _ _ _ Hwf Hl) as [_ _ _ _ _ Hlife].
    rewrite Hs. assert (in_view view op = true) as Hv2 by (apply view_ops_elem in Ho as [_ ?]; done). unfold in_view in Hv2. simplify_guards.
    destruct (op_Status op) eqn:Es; try done; exfalso; apply Hm, Hids; right; exists op; rewrite Es; auto. }
  split; [|split; [done|congruence]]. right. split; [done|]. destruct (wf_op_ok _ _ _ Hwf' Hl') as [_ _ _ _ _ Hlife].
  rewrite Hcomp in Hlife. destruct Hlife as (_ & [c ->] & _). rewrite cid_parse_string. eauto.
Qed.

(** Some selected operation is still there. *)
Lemma pending_nonempty view js js' ids :
  Journal.wf js -> Journal.wf js' -> restatus js js' -> pending_ids [] (view_ops view js) = Ok ids -> ids <> [] ->
  filter (fun op => op_id op ∈ ids) (view_ops view js') <> [].
Proof.
  intros Hwf Hwf' Hre [Hids _]%pending_ids_spec Hne E0. destruct ids as [|id ids']; [done|].
  destruct (proj1 (Hids id)) as [[]%elem_of_nil|(op & Ho & Hid & _)]; [by left|].
  assert (op_Intent op ∈ op_Intent <$> view_ops view js') as (op' & Hi & Ho')%list_elem_of_fmap.
  { rewrite (restatus_view_ops view js js') by done. by apply list_elem_of_fmap_2. }
  assert (op' ∈ filter (fun op => op_id op ∈ id :: ids') (view_ops view js')) as Hf
    by (apply list_elem_of_filter; split; [apply elem_of_cons; left; unfold op_id in *; congruence|done]).
  rewrite E0 in Hf. by apply elem_of_nil in Hf.
Qed.

Lemma PrepareUpload_effect s view w batch w' :
  PrepareUpload E s view w = (Ok batch, w') ->
  validateUploadBatch batch = Ok () /\ ub_View batch = view /\
  (exists js', Durable.view (w_journal w') = Some js' /\ ub_Operations batch = view_ops view js') /\
  (forall op, op ∈ ub_Pending batch <-> op ∈ ub_Operations batch /\ op_Status op = StatusPendingUpload) /\
  NoDup (up_CID <$> ub_Payloads batch) /\ Forall authentic (ub_Payloads batch) /\
  (forall c, c ∈ up_CID <$> ub_Payloads batch <->
     exists op, op ∈ ub_Operations batch /\ IntentKind (op_Intent op) = KindWrite /\ b_CID (bindingFromOperation op) = c).
Proof.
  intros H. unfold PrepareUpload in H. simplify_M. cbv zeta in *. simplify_M.
  match goal with H : ctx_Err _ _ = _ |- _ => apply ctx_Err_Ok in H as -> end.
  match goal with H : operations _ _ (ticked w) = _ |- _ => apply operations_Ok in H as (js & Hv & -> & Hval & Hj & _) end.
  match goal with H : pending_ids _ _ = Ok ?x |- _ => rename x into ids; rename H into Hids end.
  match goal with H : fail_if _ _ = Ok _ |- _ => apply fail_if_Ok, bool_decide_eq_false in H as Hne end.
  match goal with H : journal_call _ _ _ = _ |- _ => unfold journal_call in H end.
  destruct (Journal.FreezeBatchForUpload _ _ _ _) as [rf f'] eqn:Ef. simplify_eq.
  match goal with H : operations _ _ _ = _ |- _ => apply operations_Ok in H as (js' & Hv' & -> & _ & Hj' & _) end.
  match goal with H : reconcileCacheStates _ _ _ _ = _ |- _ => apply keeps_run in H as Hj2; [|apply keeps_reconcileCacheStates] end.
  match goal with H : uploadPayloads _ _ _ _ = _ |- _ => pose proof (keeps_run _ _ _ _ (keeps_payloads E s [] _) H) as Hj3;
    apply payload_loop_Ok in H as (Hp1 & Hp2 & Hp3); [|by apply NoDup_nil|constructor] end.
  cbn [w_journal ticked] in *. rewrite Hj in Ef. pose proof (journal_view_wf _ _ Hv) as Hwf. pose proof (journal_view_wf _ _ Hv') as Hwf'.
  destruct (freeze_snapshot _ _ _ _ _ _ _ _ _ Ef Hv Hv' Hids) as [Hre Hst].
  assert (filter (fun op => op_id op ∈ ids) (view_ops view js') =
          filter (fun op => op_Status op = StatusPendingUpload) (view_ops view js')) as Hfil.
  { apply filter_agree. intros op Ho. by apply Hst. }
  split_and!; cbn [ub_View ub_Operations ub_Pending ub_Payloads]; try done.
  - apply batch_valid; [done|by apply view_ops_NoDup|apply Forall_forall; intros op Ho; by apply Hst|done|].
    by apply (pending_nonempty view js js' ids).
  - exists js'. split; [congruence|done].
  - intros op. rewrite Hfil, list_elem_of_filter. naive_solver.
  - intros c. rewrite Hp3. set_solver.
Qed.

(** What [PrepareUpload] hands out is a consistent snapshot: the batch
    passes its own validation, its operations are those of the view, in order,
    none local any more, its pending ones are exactly those that wait for the
    upload, and its payloads are the bodies of its writes, each once, with
    digests that match their CIDs. *)
Theorem prepared_batch_is_consistent s view w batch w' :
  PrepareUpload E s view w = (Ok batch, w') ->
  validateUploadBatch batch = Ok () /\ ub_View batch = view /\
  (exists js', Durable.view (w_journal w') = Some js' /\ ub_Operations batch = view_ops view js') /\
  (forall op, op ∈ ub_Pending batch <-> op ∈ ub_Operations batch /\ op_Status op = StatusPendingUpload) /\
  NoDup (up_CID <$> ub_Payloads batch) /\ Forall authentic (ub_Payloads batch) /\
  (forall c, c ∈ up_CID <$> ub_Payloads batch <->
     exists op, op ∈ ub_Operations batch /\ IntentKind (op_Intent op) = KindWrite /\ b_CID (bindingFromOperation op) = c).
Proof. apply PrepareUpload_effect. Qed.
End Payloads.

(** ** Finishing a batch *)
Section Finish.
Context {L : CidLib} {LL : CidLaws L} {C : CacheLib} {CL : CacheLaws C} {B : Base} {SL : StageLib} (E : env).

Lemma find_op_Some ops id op : find_op ops id = Some op -> op ∈ ops /\ op_id op = id.
Proof.
  unfold find_op. intros H. apply List.find_some in H as [Hin%in_rev Hid]. apply list_elem_of_In in Hin. by apply bool_decide_eq_true in Hid.
Qed.

Lemma target_snapshot current pending valid :
  requireTargetSnapshot current pending valid = Ok () ->
  forall p, p ∈ pending -> exists op, op ∈ current /\ op_id op = op_id p /\ Sequence op = Sequence p /\
    op_Intent op = op_Intent p /\ valid op = true.
Proof.
  unfold requireTargetSnapshot. intros H p Hp. simplify_result.
  match goal with H : mapM _ _ = Ok _ |- _ => apply mapM_Forall2 in H as Hf end.
  apply list_elem_of_lookup in Hp as [i Hi]. destruct (Forall2_lookup_l _ _ _ _ _ Hf Hi) as (u & _ & Hu).
  destruct (find_op current (op_id p)) as [op|] eqn:Eo; [|done]. apply find_op_Some in Eo as [Hin Hid].
  simplify_result. simplify_guards. eauto 6.
Qed.

Lemma complete_done w now ids c (f : journal_file) r f' js js' :
  Journal.CompleteBatch w now ids (cid_String c) f = (Ok r, f') -> Durable.view f = Some js -> Durable.view f' = Some js' ->
  TrimSpace <$> ids = ids ->
  batch_done (complete_check (cid_String c)) (fun op => negb (bool_decide (op_Status op = StatusCompleted)))
    (fun op => update_status op StatusCompleted (ConflictID op) (cid_String c) now) ids js js'.
Proof.
  intros H Hv Hv' Ht. unfold Journal.CompleteBatch in H. destruct (normalizeOperationIDs ids) as [ids'|] eqn:Ei; [|done].
  rewrite canonicalCID_text in H. cbn in H. pose proof (normalizeOperationIDs_NoDup _ _ Ei).
  apply normalizeOperationIDs_trim in Ei as ->. rewrite Ht in *. by eapply batch_effect.
Qed.

Lemma completed_root op op' :
  normalizeOperation op = Ok op' -> op_Status op = StatusCompleted -> canonicalCID (TrimSpace (ResultRoot op)) = Ok (ResultRoot op').
Proof.
  unfold normalizeOperation. intros H Hs. rewrite Hs in H. rewrite (bool_decide_eq_true_2 (StatusCompleted = _)) in H by done.
  simplify_result. done.
Qed.

Lemma completed_record ids c now js js' id :
  Journal.wf js ->
  batch_done (complete_check (cid_String c)) (fun op => negb (bool_decide (op_Status op = StatusCompleted)))
    (fun op => update_status op StatusCompleted (ConflictID op) (cid_String c) now) ids js js' ->
  id ∈ ids ->
  exists op op', Operations js !! id = Some op /\ Operations js' !! id = Some op' /\ op_Intent op' = op_Intent op /\
    Sequence op' = Sequence op /\ op_Status op' = StatusCompleted /\ ResultRoot op' = cid_String c.
Proof.
  intros Hwf [Hck Hb] Hid. destruct (Hck id Hid) as (op & Hl & Hc). specialize (Hb id). rewrite Hl in Hb.
  rewrite bool_decide_eq_true_2 in Hb by done. apply related_l in Hb as (op' & Hl' & Hn). exists op, op'.
  pose proof (wf_op_ok _ _ _ Hwf Hl) as Hok. unfold complete_check in Hc. case_bool_decide as Hs; cbn [negb] in Hn.
  - apply normal_same in Hn as ->; [|done]. simplify_result. simplify_guards. by split_and!.
  - pose proof Hn as (H1 & H2 & H3)%normalizeOperation_same; [|by destruct Hok]. split_and!; try done.
    apply completed_root in Hn; [|done]. cbn in Hn. rewrite canonicalCID_text in Hn. by simplify_result.
Qed.

(** What becomes of a batch that is finished with the root [c]. *)
Definition finished_with (c : Cid) (batch : UploadBatch) (js js' : persistedState) : Prop :=
  (forall p, p ∈ ub_Pending batch -> exists op op',
     Operations js !! op_id p = Some op /\ op_Intent op = op_Intent p /\ Sequence op = Sequence p /\
     (op_Status op = StatusPendingUpload \/ op_Status op = StatusCompleted /\ ResultRoot op = cid_String c) /\
     Operations js' !! op_id p = Some op' /\ op_Intent op' = op_Intent p /\ Sequence op' = Sequence p /\
     op_Status op' = StatusCompleted /\ ResultRoot op' = cid_String c) /\
  (forall id, id ∉ op_id <$> ub_Pending batch -> Operations js' !! id = Operations js !! id).

Lemma finish_effect s batch c t1 t2 w finished w' js :
  finish_batch E s batch (fun current => requireCompletionSnapshot current (ub_Pending batch) (cid_String c))
    (fun w now f => Journal.CompleteBatch w now (op_id <$> ub_Pending batch) (cid_String c) f) t1 t2 w = (Ok finished, w') ->
  Durable.view (w_journal w) = Some js ->
  exists js', Durable.view (w_journal w') = Some js' /\ finished_with c batch js js'.
Proof.
  intros H Hv. unfold finish_batch in H. simplify_M.
  match goal with H : operations _ _ w = _ |- _ => apply operations_Ok in H as (js0 & Hv0 & -> & _ & Hj & _) end.
  assert (js0 = js) as -> by congruence. clear Hv0. pose proof (journal_view_wf _ _ Hv) as Hwf.
  match goal with H : requireCompletionSnapshot _ _ _ = Ok ?u |- _ => destruct u; rename H into Hreq end.
  pose proof (target_snapshot _ _ _ Hreq) as Hsnap.
  match goal with H : journal_call _ _ _ = _ |- _ => unfold journal_call in H end.
  destruct (Journal.CompleteBatch _ _ _ _ _) as [rf f'] eqn:Ef. simplify_eq.
  match goal with H : operations _ _ _ = _ |- _ => apply operations_Ok in H as (js' & Hv' & -> & _ & Hj' & _) end.
  match goal with H : reconcileCacheStates _ _ _ _ = _ |- _ => apply keeps_run in H as Hj2; [|apply keeps_reconcileCacheStates] end.
  cbn [w_journal] in *. rewrite Hj in Ef.
  assert (TrimSpace <$> (op_id <$> ub_Pending batch) = op_id <$> ub_Pending batch) as Htrim.
  { apply (trimmed_ids js); [done|]. intros id (p & -> & Hp)%list_elem_of_fmap. destruct (Hsnap p Hp) as (op & Ho & <- & _).
    apply view_ops_elem in Ho as [Ho _]; eauto. }
  pose proof (complete_done _ _ _ _ _ _ _ _ _ Ef Hv Hv' Htrim) as Hdone.
  exists js'. split; [congruence|]. split; [|by intros id; eapply batch_untouched].
  intros p Hp. destruct (Hsnap p Hp) as (op & Ho & Hid & Hseq & Hint & Hval). apply view_ops_elem in Ho as [Hl _]; [|done].
  rewrite Hid in Hl. destruct (completed_record _ _ _ _ _ (op_id p) Hwf Hdone) as (op0 & op' & Hl0 & Hl' & Hi' & Hs' & Hst & Hrr);
    [by apply list_elem_of_fmap_2|]. assert (op0 = op) as -> by congruence. exists op, op'.
  apply orb_true_iff in Hval. split_and!; try done; try congruence.
  destruct Hval as [Hp1|Hp1]; [left|right; apply andb_true_iff in Hp1 as [Hp1 Hp2]]; simplify_guards; done.
Qed.

Lemma CompleteUpload_effect s batch candidate w finished w' js :
  CompleteUpload E s batch candidate w = (Ok finished, w') -> Durable.view (w_journal w) = Some js ->
  exists c js', candidate = Some c /\ v_Root (ub_View batch) <> Some c /\ Durable.view (w_journal w') = Some js' /\
    finished_with c batch js js'.
Proof.
  intros H Hv. unfold CompleteUpload in H. simplify_M.
  match goal with H : ctx_Err _ _ = _ |- _ => apply ctx_Err_Ok in H as -> end.
  match goal with H : fail_if _ _ = Ok _ |- _ => apply fail_if_Ok in H end. simplify_guards. destruct candidate as [c|]; [|done].
  match goal with H : finish_batch _ _ _ _ _ _ _ _ = _ |- _ => apply (finish_effect _ _ c _ _ _ _ _ js) in H as (js' & Hv' & Hf) end; [|done].
  exists c, js'. split_and!; [done|congruence|done|done].
Qed.

Lemma CompleteNoChange_effect s batch c w finished w' js :
  v_Root (ub_View batch) = Some c ->
  CompleteNoChange E s batch w = (Ok finished, w') -> Durable.view (w_journal w) = Some js ->
  exists js', Durable.view (w_journal w') = Some js' /\ finished_with c batch js js'.
Proof.
  intros Hc H Hv. unfold CompleteNoChange, root_text in H. rewrite Hc in H. simplify_M.
  match goal with H : ctx_Err _ _ = _ |- _ => apply ctx_Err_Ok in H as -> end.
  match goal with H : finish_batch _ _ _ _ _ _ _ _ = _ |- _ => by apply (finish_effect _ _ c _ _ _ _ _ js) in H end.
Qed.

(** [CompleteUpload] finishes its batch and nothing else: it needs a
    candidate that differs from the base, every pending operation still there
    with the same sequence number and intent and not finished otherwise, and
    afterwards exactly those operations are completed with the candidate as
    their result; no other record changes. *)
Theorem complete_upload_finishes_batch s batch candidate w finished w' js :
  CompleteUpload E s batch candidate w = (Ok finished, w') -> Durable.view (w_journal w) = Some js ->
  exists c js', candidate = Some c /\ v_Root (ub_View batch) <> Some c /\ Durable.view (w_journal w') = Some js' /\
    finished_with c batch js js'.
Proof. apply CompleteUpload_effect. Qed.
End Finish.

(** ** The identity of a transaction *)
Section Transaction.
Context {L : CidLib} {SL : StageLib}.

Lemma byte_at_inj x y shift : byte_at x shift = byte_at y shift -> ((x / 2 ^ shift) mod 256 = (y / 2 ^ shift) mod 256)%N.
Proof.
  unfold byte_at. intros H. apply (f_equal N_of_ascii) in H. rewrite !N_ascii_embedding in H; [done|apply N.mod_lt; lia..].
Qed.

(** The eight bytes determine a 64-bit number. *)
Lemma base256 x : (x < two64)%N ->
  (x = (x / 2 ^ 56) mod 256 * 2 ^ 56 + (x / 2 ^ 48) mod 256 * 2 ^ 48 + (x / 2 ^ 40) mod 256 * 2 ^ 40 +
       (x / 2 ^ 32) mod 256 * 2 ^ 32 + (x / 2 ^ 24) mod 256 * 2 ^ 24 + (x / 2 ^ 16) mod 256 * 2 ^ 16 +
       (x / 2 ^ 8) mod 256 * 2 ^ 8 + (x / 2 ^ 0) mod 256 * 2 ^ 0)%N.
Proof. unfold two64. intros H. cbn [N.pow Pos.pow] in *. zify. Z.to_euclidean_division_equations. lia. Qed.

Lemma uint64_prefix x y a b :
  (x < two64)%N -> (y < two64)%N -> writeUploadUint64 x ++ a = writeUploadUint64 y ++ b -> x = y /\ a = b.
Proof.
  intros Hx Hy H. unfold writeUploadUint64 in H. cbn [app] in H.
  injection H as H1 H2 H3 H4 H5 H6 H7 H8 ->. split; [|done]. rewrite (base256 x Hx), (base256 y Hy).
  by rewrite (byte_at_inj _ _ _ H1), (byte_at_inj _ _ _ H2), (byte_at_inj _ _ _ H3), (byte_at_inj _ _ _ H4),
    (byte_at_inj _ _ _ H5), (byte_at_inj _ _ _ H6), (byte_at_inj _ _ _ H7), (byte_at_inj _ _ _ H8).
Qed.

Definition encodable (s : string) : Prop := (N.of_nat (length (bytes s)) < two64)%N.

Lemma string_prefix s t a b :
  encodable s -> encodable t -> writeUploadString s ++ a = writeUploadString t ++ b -> s = t /\ a = b.
Proof.
  intros Hs Ht H. unfold writeUploadString in H. rewrite <- !(assoc_L (++)) in H.
  apply uint64_prefix in H as [Hl H]; [|done|done]. apply app_inj_1 in H as [H ->]; [|lia]. split; [|done]. by apply bytes_inj.
Qed.

(** What fits in the encoding: 64-bit numbers, strings whose lengths are 64-bit
    numbers, and the four kinds. *)
Definition encodable_op (op : Operation) : Prop :=
  let i := op_Intent op in
  (Sequence op < two64)%N /\ (BaseRevision i < two64)%N /\ (EncryptionEpoch i < two64)%N /\
  Forall encodable [OperationID i; RetryID i; DatasetID i; Branch i; BaseRoot i; Path i; Destination i; PayloadCID i] /\
  match IntentKind i with KindOther _ => False | _ => True end.
Definition encodable_view (view : View) : Prop :=
  (v_Revision view < two64)%N /\ (v_EncryptionEpoch view < two64)%N /\
  Forall encodable [v_DatasetID view; v_Branch view; root_text view].

Lemma kind_text_encodable k : match k with KindOther _ => False | _ => True end -> encodable (kind_text k).
Proof. by destruct k. Qed.
Lemma kind_text_inj k k' :
  match k with KindOther _ => False | _ => True end -> match k' with KindOther _ => False | _ => True end ->
  kind_text k = kind_text k' -> k = k'.
Proof. by destruct k, k'. Qed.

#[local] Ltac decode_step :=
  match goal with
  | H : writeUploadUint64 _ ++ _ = _ |- _ => let E := fresh "E" in apply uint64_prefix in H as [E H]; [|done|done]
  | H : writeUploadString _ ++ _ = _ |- _ => let E := fresh "E" in apply string_prefix in H as [E H]; [|done|done]
  end.

Lemma operation_prefix op op' a b :
  encodable_op op -> encodable_op op' -> transaction_operation op ++ a = transaction_operation op' ++ b ->
  op_Intent op = op_Intent op' /\ Sequence op = Sequence op' /\ a = b.
Proof.
  intros (H1 & H2 & H3 & H4 & H5) (H1' & H2' & H3' & H4' & H5') H. rewrite !Forall_cons in H4, H4'. destruct_and!.
  pose proof (kind_text_encodable _ H5). pose proof (kind_text_encodable _ H5').
  unfold transaction_operation in H. cbv zeta in H. rewrite <- !(assoc_L (++)) in H. repeat decode_step. split_and!; [|done|done].
  match goal with H : kind_text _ = kind_text _ |- _ => apply kind_text_inj in H; [|done|done] end.
  destruct (op_Intent op), (op_Intent op'); cbn in *; congruence.
Qed.

Lemma operation_nonempty op : transaction_operation op <> [].
Proof. unfold transaction_operation, writeUploadUint64. cbn. done. Qed.

Lemma operations_code ops ops' :
  Forall encodable_op ops -> Forall encodable_op ops' ->
  mjoin (transaction_operation <$> ops) = mjoin (transaction_operation <$> ops') ->
  (fun op => (op_Intent op, Sequence op)) <$> ops = (fun op => (op_Intent op, Sequence op)) <$> ops'.
Proof.
  intros Ho. revert ops'. induction Ho as [|op ops Hop _ IH]; intros [|op' ops'] Ho' H; rewrite ?fmap_cons in H; cbn [mjoin list_join] in H.
  - done.
  - symmetry in H. apply app_eq_nil in H as [H _]. by apply operation_nonempty in H.
  - apply app_eq_nil in H as [H _]. by apply operation_nonempty in H.
  - apply Forall_cons in Ho' as [Hop' Ho']. apply operation_prefix in H as (H1 & H2 & H3); [|done|done].
    rewrite !fmap_cons. f_equal; [congruence|by apply IH].
Qed.

(** The bytes that identify an upload determine it: two uploads with the
    same transaction bytes are for the same dataset, branch, root, revision and
    epoch and consist of the same intents with the same sequence numbers in the
    same order.  (Statuses and times do not enter, so a retry has the identity
    of the first attempt.) *)
Theorem transaction_bytes_determine_upload view view' ops ops' :
  encodable_view view -> encodable_view view' -> Forall encodable_op ops -> Forall encodable_op ops' ->
  transaction_bytes view ops = transaction_bytes view' ops' ->
  (v_DatasetID view = v_DatasetID view' /\ v_Branch view = v_Branch view' /\ root_text view = root_text view' /\
   v_Revision view = v_Revision view' /\ v_EncryptionEpoch view = v_EncryptionEpoch view') /\
  (fun op => (op_Intent op, Sequence op)) <$> ops = (fun op => (op_Intent op, Sequence op)) <$> ops'.
Proof.
  intros (H1 & H2 & H3) (H1' & H2' & H3') Ho Ho' H. rewrite !Forall_cons in H3, H3'. destruct_and!.
  unfold transaction_bytes, transaction_view in H. rewrite <- !(assoc_L (++)) in H. repeat decode_step.
  split; [by split_and!|by apply operations_code].
Qed.
End Transaction.
