(* ===== verification/StagingThms.v ===== *)
(** The properties of the staging filesystem. *)

From stdpp Require Import base decidable gmap strings list sorting.
From Stdlib Require Import Ascii ZArith.
From S2P Require Import Prelude GoText Branch CidLib Durable Journal JournalFacts JournalOps JournalThms Cache CacheFacts CacheHistory CacheThms Paths Staging Overlay StagingFacts StagingWrites StagingHistory StagingBatches.

Section Histories.
Context {L : CidLib} {LL : CidLaws L} {C : CacheLib} {CL : CacheLaws C} {B : Base} {SL : StageLib} (E : env).

(** There is room for [k] more sequence numbers. *)
Definition roomy (k : nat) (w : world) : Prop :=
  forall js, Durable.view (w_journal w) = Some js -> (NextSequence js + N.of_nat k < two64)%N.

(** When the journal loads, the namespace of a view is a tree. *)
Definition treelike (v : View) (w : world) : Prop :=
  forall js, Durable.view (w_journal w) = Some js -> is_tree (namespace v js).

(** When the journal loads, every write that is not superseded has its body. *)
Definition backed (w : world) : Prop :=
  forall js id op, Durable.view (w_journal w) = Some js -> Operations js !! id = Some op ->
    op_Status op <> StatusSuperseded -> IntentKind (op_Intent op) = KindWrite ->
    exists full, holds (w_cache w) (bindingFromOperation op) full.

Lemma moved_loaded w w' js' :
  moved w w' -> Durable.view (w_journal w') = Some js' -> exists js, Durable.view (w_journal w) = Some js.
Proof.
  intros [Hn _] Hv'. destruct (Durable.view (w_journal w)) as [js|] eqn:Hv; [eauto|]. rewrite (Hn eq_refl) in Hv'. congruence.
Qed.

Lemma moved_roomy k w w' : moved w w' -> roomy (S k) w -> roomy k w'.
Proof.
  intros Hm Hr js' Hv'. destruct (moved_loaded _ _ _ Hm Hv') as [js Hv]. specialize (Hr js Hv).
  destruct (proj2 Hm js js' Hv) as [Hn _]; [lia|done|]. lia.
Qed.

Lemma in_view_unique v1 v2 op :
  validateView v1 = Ok () -> validateView v2 = Ok () -> in_view v1 op = true -> in_view v2 op = true -> v1 = v2.
Proof.
  intros (_ & _ & c1 & E1 & T1)%validateView_Ok (_ & _ & c2 & E2 & T2)%validateView_Ok H1 H2.
  unfold in_view in H1, H2. simplify_guards. destruct v1, v2; cbn in *.
  assert (Some c1 = Some c2) as E3 by (rewrite <- !cid_parse_string; congruence). congruence.
Qed.

Lemma moved_tree v w w' :
  validateView v = Ok () -> moved w w' -> roomy 1 w -> treelike v w -> treelike v w'.
Proof.
  intros Hval Hm Hr Ht js' Hv'. destruct (moved_loaded _ _ _ Hm Hv') as [js Hv]. specialize (Hr js Hv). specialize (Ht js Hv).
  destruct (proj2 Hm js js' Hv) as [_ [H|(view & op & Hw & Hin & Hg & Hok & _ & Hops)]]; [lia|done| |].
  - unfold namespace. by rewrite (overlay_intents _ _ _ (H v)).
  - unfold namespace. rewrite Hops. destruct (in_view v op) eqn:Ev; [|by rewrite app_nil_r].
    rewrite (in_view_unique view v op) in Hg by done. rewrite overlay_snoc. by apply tree_step.
Qed.

Lemma history_tree s v reqs w :
  ticking E -> validateView v = Ok () -> roomy (length reqs) w -> treelike v w ->
  treelike v (foldl (serve E s) w reqs).
Proof.
  intros Htick Hval. revert w. induction reqs as [|req reqs IH]; intros w Hr Ht; [done|]. cbn [foldl].
  pose proof (serve_moved E s w req Htick) as Hm. apply IH; [by eapply moved_roomy|].
  eapply moved_tree; [done|exact Hm| |done]. intros js Hv. specialize (Hr js Hv). cbn in Hr. lia.
Qed.

(** C4. Whatever requests a service serves, in whatever order and for whatever
    views, and whichever of their system calls fail, the namespace that a view
    shows stays a tree: its root is a directory and every node lies in a
    directory.  (The sequence numbers must not run out.) *)
Theorem staged_namespace_is_tree s v reqs w :
  ticking E -> validateView v = Ok () -> roomy (length reqs) w -> treelike v w ->
  treelike v (foldl (serve E s) w reqs).
Proof. apply history_tree. Qed.

(** The view that an operation belongs to. *)
Definition view_of (op : Operation) : View :=
  let i := op_Intent op in
  mkView (DatasetID i) (Branch i) (cid_Parse (BaseRoot i)) (BaseRevision i) (EncryptionEpoch i).

Lemma in_view_of js id op :
  Journal.wf js -> Operations js !! id = Some op -> op_Status op <> StatusSuperseded -> op ∈ view_ops (view_of op) js.
Proof.
  intros Hwf Hl Hs. destruct (wf_op js Hwf _ _ Hl) as (Hok & Hid & _). apply view_ops_elem; [done|]. rewrite Hid. split; [done|].
  apply normalize_op_ok in Hok as [Hi _ _ _ _ _]. apply normalizeIntent_fields in Hi as (_ & _ & _ & Hr & _).
  apply canonicalCID_canonical in Hr as [c Hc]. apply new_in_view; try done. unfold view_of, root_text. cbn.
  by rewrite Hc, cid_parse_string.
Qed.

Lemma serve_holds s w req js v op full :
  ticking E -> Durable.view (w_journal w) = Some js -> op ∈ view_ops v js -> IntentKind (op_Intent op) = KindWrite ->
  holds (w_cache w) (bindingFromOperation op) full ->
  holds (w_cache (serve E s w req)) (bindingFromOperation op) full.
Proof.
  intros Htick Hv Hop Hk H. assert (req = ReqReconcile \/ req <> ReqReconcile) as [->|Hr] by (destruct req; auto; right; discriminate).
  - eapply Reconcile_keeps; try done. apply view_ops_elem in Hop as [Hl _]; [|by eapply journal_view_wf].
    apply listLocked_elem; [by eapply journal_view_wf|done].
  - by apply serve_bodies.
Qed.

Lemma serve_backed s w req : ticking E -> roomy 1 w -> backed w -> backed (serve E s w req).
Proof.
  intros Htick Hr Hb js' id op' Hv' Hl' Hs Hk. pose proof (serve_moved E s w req Htick) as Hm.
  destruct (moved_loaded _ _ _ Hm Hv') as [js Hv]. specialize (Hr js Hv).
  pose proof (in_view_of js' id op' (journal_view_wf _ _ Hv') Hl' Hs) as Hin'. set (v := view_of op') in *.
  assert (forall op, op ∈ view_ops v js -> IntentKind (op_Intent op) = KindWrite ->
    exists full, holds (w_cache (serve E s w req)) (bindingFromOperation op) full) as Hold.
  { intros op Hop Hkop. pose proof Hop as [Hl Hiv]%view_ops_elem; [|by eapply journal_view_wf].
    destruct (Hb js (op_id op) op Hv Hl) as [full H]; [|done|exists full; by eapply serve_holds].
    unfold in_view in Hiv. by simplify_guards. }
  destruct (proj2 Hm js js' Hv) as [_ [H|(view & op & _ & _ & _ & _ & Hbk & Hops)]]; [lia|done| |].
  - assert (op_Intent op' ∈ op_Intent <$> view_ops v js) as (op & Ei & Hop)%list_elem_of_fmap.
    { rewrite <- H. by apply list_elem_of_fmap_2. }
    assert (bindingFromOperation op' = bindingFromOperation op) as -> by (unfold bindingFromOperation; by rewrite Ei).
    apply Hold; [done|congruence].
  - rewrite Hops in Hin'. apply elem_of_app in Hin' as [Hin'|Hin']; [by apply Hold|].
    destruct (in_view v op); [|by apply elem_of_nil in Hin']. apply list_elem_of_singleton in Hin' as ->. by apply Hbk.
Qed.

Lemma history_backed s reqs w :
  ticking E -> roomy (length reqs) w -> backed w -> backed (foldl (serve E s) w reqs).
Proof.
  intros Htick. revert w. induction reqs as [|req reqs IH]; intros w Hr Hb; [done|]. cbn [foldl].
  pose proof (serve_moved E s w req Htick) as Hm. apply IH; [by eapply moved_roomy|].
  apply serve_backed; [done| |done]. intros js Hv. specialize (Hr js Hv). cbn in Hr. lia.
Qed.

(** C28. The journal never refers to a body that is not in the cache: after any
    requests, whichever of their system calls fail, every recorded write that
    is not superseded has its body in the cache, complete and with the digest
    of its CID.  (A write stores its body before it records its intent, and a
    reconciliation removes no referenced body.) *)
Theorem staged_bodies_present s reqs w :
  ticking E -> roomy (length reqs) w -> backed w -> backed (foldl (serve E s) w reqs).
Proof. apply history_backed. Qed.
End Histories.

(** ** Reads *)
Section Reads.
Context {L : CidLib} {LL : CidLaws L} {C : CacheLib} {CL : CacheLaws C} {B : Base} {SL : StageLib} (E : env).

(** [Stat] answers from the namespace: a node that it describes is there,
    with that kind, and a path that it reports missing is not there. *)
Theorem stat_answers_namespace s view raw w js :
  sane E -> (forall t, en_journal E t = io_ok) -> validateView view = Ok () -> canonicalPath raw true = Ok raw ->
  sv_closed s = false -> Durable.view (w_journal w) = Some js ->
  match (Stat E s view raw w).1 with
  | Ok info => exists n, namespace view js raw = Some n /\ n_kind n = i_Kind info
  | Err e => errors_Is e ErrPathNotFound = true -> namespace view js raw = None
  end.
Proof.
  intros Hs Hj Hval Hc Hcl Hv. unfold Stat, enter. rewrite Hcl, Hc. rewrite (M_bind_run _ _ w raw w) by done.
  rewrite (M_bind_run _ _ _ _ _ (operations_run E view w js Hj Hval Hv)).
  destruct (statAt _ _ _ _ _ _ _) as [[info|e] w'] eqn:Es; cbn [fst]; unfold namespace.
  - by eapply statAt_Ok.
  - intros He. by eapply statAt_missing.
Qed.

(** C29. [ReadDir] lists a directory of the namespace exactly: a name is listed,
    with its kind, when the namespace has a child of that name, and only then;
    the names are in order, each once. *)
Theorem read_dir_lists_namespace s view raw w entries w' :
  sane E -> BaseLaws view -> ReadDir E s view raw w = (Ok entries, w') ->
  exists js, Durable.view (w_journal w) = Some js /\ dir_at (namespace view js) raw /\
    NoDup (de_Name <$> entries) /\ StronglySorted (key_le de_Name String.leb) entries /\
    forall name kind, mkDirEntry name kind ∈ entries <->
      child_name name /\ exists n, namespace view js (joinPath raw name) = Some n /\ n_kind n = kind.
Proof.
  intros Hs HB H. unfold ReadDir in H. simplify_M.
  match goal with H : canonicalPath _ _ = _ |- _ => apply canonicalPath_Ok in H as (-> & _ & Hu & _) end.
  match goal with H : operations _ _ _ = _ |- _ => apply operations_Ok in H as (js & Hv & -> & _) end.
  exists js. split; [done|]. eapply readDirAt_exact; try done. apply view_ops_paths. by eapply journal_view_wf.
Qed.

(** A range that [ReadFileRange] returns is the one of the file that the
    namespace shows: for a staged file the exact bytes of its verified body in
    the cache, cut at its end, and for a file of the base what the base returns
    for the path that the file had there. *)
Theorem staged_read_sound s view raw offset len w out info w' :
  chunking (en_split E) -> (offset < two64)%N -> (len < two64)%N ->
  ReadFileRange E s view raw offset len w = (Ok (out, info), w') ->
  exists js n, Durable.view (w_journal w) = Some js /\ namespace view js raw = Some n /\ n_kind n = i_Kind info /\
    match n_source n with
    | Some (FromCache b) => exists full, holds (w_cache w) b full /\
        out = take (N.to_nat len) (drop (N.to_nat offset) full) /\ i_Size info = N.of_nat (length full)
    | Some (FromBase p) => exists info', base_ReadFileRange view p offset len = Ok (out, info')
    | None => False
    end.
Proof.
  intros Hsp Ho Hl H. unfold ReadFileRange, Open in H. simplify_M.
  unfold mret, M_ret in H. injection H as <- <- <-.
  match goal with H : canonicalPath _ _ = _ |- _ => apply canonicalPath_Ok in H as (-> & _) end.
  match goal with H : operations _ _ _ = _ |- _ => apply operations_Ok in H as (js & Hv & -> & Hval & Hj & Hcache) end.
  match goal with H : resolveAt _ _ _ _ _ _ _ = _ |- _ => rewrite resolveAt_place in H end. simplify_M.
  match goal with H : ctx_Err _ _ = _ |- _ => apply ctx_Err_Ok in H as -> end. simplify_eq.
  exists js. unfold namespace. rewrite overlay_locate.
  destruct (locate raw (rev (view_ops view js))) as [op|k|m|e]; cbn [resolve_place node_at] in *; [| | |done].
  - simplify_M. unfold handle_Read in *. simplify_M. cbn [h_closed h_view h_resolved handle_Info rn_local rn_binding rn_info] in *. simplify_M.
    match goal with H : VerifyLocal _ _ _ _ = _ |- _ => unfold VerifyLocal, cache_call in H end.
    destruct (Cache.VerifyLocal _ _ _ _) as [rv d1] eqn:Ev. simplify_eq.
    match goal with H : cache_call _ _ _ = _ |- _ => unfold cache_call in H end.
    destruct (Cache.ReadLocalRange _ _ _ _ _ _ _) as [[[o e1]|] d2] eqn:Er; [|done]. simplify_eq. cbn [w_cache ticked w_tick] in *.
    apply verified_body in Ev as (full & Hhold & Hhold1 & Hsz).
    apply ReadLocalRange_exact in Er as (m2 & b2 & full2 & Hm2 & Hb2 & Hl2 & _ & Hout); [|done..].
    eexists. split; [done|]. split; [done|]. split; [done|]. cbn [n_source file_node].
    exists full. rewrite Hcache in Hhold. split_and!; [done| |cbn; rewrite Hsz; lia]. cbn. rewrite Hout.
    assert (holds d1 (bindingFromOperation op) full2) as Hh2 by by exists m2, b2, e1. by rewrite (holds_unique _ _ _ _ Hh2 Hhold1).
  - simplify_M. match goal with H : fail_if (IsDir _) _ = Ok _ |- _ => by apply fail_if_Ok in H end.
  - simplify_M. unfold handle_Read in *. simplify_M. cbn [h_closed h_view h_resolved handle_Info rn_local rn_remotePath rn_info] in *. simplify_M.
    unfold base_tree. match goal with H : base_Stat view m = Ok _ |- _ => rewrite H end. eexists. split; [done|]. split; [done|].
    split; [done|]. cbn. match goal with H : base_ReadFileRange _ _ _ _ = Ok ?x |- _ => destruct x as [o i']; exists i' end. done.
Qed.
End Reads.

(** ** Writes *)
Section Writes.
Context {L : CidLib} {LL : CidLaws L} {C : CacheLib} {CL : CacheLaws C} {B : Base} {SL : StageLib} (E E' : env)
  (Htick : ticking E) (Hh : healthy E').

(** Every range of a file reads as the range of [data]. *)
Definition reads_as (s : service) (view : View) (raw : string) (data : body) (w : world) : Prop :=
  forall offset len, (offset < two64)%N -> (len < two64)%N ->
  exists info w', ReadFileRange E' s view raw offset len w =
      (Ok (take (N.to_nat len) (drop (N.to_nat offset) data), info), w') /\
    i_Kind info = StagedKindFile /\ i_Size info = N.of_nat (length data).

(** The namespace after an operation. *)
Definition shows (view : View) (w : world) (t : tree) : Prop :=
  exists js, Durable.view (w_journal w) = Some js /\ forall p, namespace view js p = t p.

Lemma installed_shows view raw data js op w : installed view raw data js op w -> shows view w (apply_op (namespace view js) op).
Proof. intros [(js' & Hv & Hn & _) _]. by exists js'. Qed.

(** C30. A write that [StageWrite] accepted changes the namespace by its one
    operation, and from then on every range of the file reads back the bytes
    that were written. *)
Theorem staged_write_reads_back s view raw data offline w op w' js :
  Durable.view (w_journal w) = Some js -> (NextSequence js + 1 < two64)%N -> (sv_maxFile s <= maxInt)%N ->
  StageWrite E s view raw data offline w = (Ok op, w') -> Operations js !! op_id op = None ->
  shows view w' (apply_op (namespace view js) op) /\ reads_as s view raw data w'.
Proof.
  intros Hv Hroom Hmax H Hnew. unfold StageWrite in H. simplify_M.
  match goal with H : ctx_Err _ _ = _ |- _ => apply ctx_Err_Ok in H as -> end.
  match goal with H : canonicalPath _ _ = Ok ?x |- _ => rename H into Hc; pose proof (canonicalPath_Ok _ _ _ Hc) as (-> & _) end.
  match goal with H : operations _ _ _ = _ |- _ => pose proof (operations_listed _ _ _ _ _ H) as Hl;
    apply operations_Ok in H as (js0 & Hv0 & -> & Hval & Hj & _) end.
  destruct (write_body_installs E Htick s view _ raw data offline _ op w' js H Hl) as [Hin Hlim]; try done.
  { by rewrite Hj. }
  split; [by eapply installed_shows|]. intros offset len Ho Hle. by eapply installed_reads.
Qed.

(** A write at an offset keeps the rest of the file: the new bytes are the
    old ones, with zeros between their end and the offset, overwritten by the
    data; they are what the file reads as afterwards. *)
Theorem offset_write_content s view raw offset data offline w op w' js :
  Durable.view (w_journal w) = Some js -> (NextSequence js + 1 < two64)%N -> (sv_maxFile s <= maxInt)%N ->
  StageWriteAt E s view raw offset data offline w = (Ok (Some op), w') -> Operations js !! op_id op = None ->
  exists n old new, namespace view js raw = Some n /\ content view (w_cache w) n old /\
    (forall i, new !! i =
       if decide (N.to_nat offset <= i < N.to_nat offset + length data) then data !! (i - N.to_nat offset)
       else if decide (i < length old) then old !! i
       else if decide (i < N.to_nat offset) then Some Ascii.zero else None) /\
    shows view w' (apply_op (namespace view js) op) /\ reads_as s view raw new w'.
Proof.
  intros Hv Hroom Hmax H Hnew. unfold StageWriteAt in H. simplify_M.
  match goal with H : ctx_Err _ _ = _ |- _ => apply ctx_Err_Ok in H as -> end.
  match goal with H : canonicalPath _ _ = Ok ?x |- _ => rename H into Hc; pose proof (canonicalPath_Ok _ _ _ Hc) as (-> & _) end.
  case_bool_decide; [simplify_M; done|]. cbv zeta in H. simplify_M.
  match goal with H : operations _ _ _ = _ |- _ => pose proof (operations_listed _ _ _ _ _ H) as Hl;
    apply operations_Ok in H as (js0 & Hv0 & -> & Hval & Hj & Hcache) end.
  assert (js0 = js) as -> by (cbn in Hv0; congruence).
  match goal with H : currentFileBodyLocked _ _ _ _ _ _ = (Ok ?x, _) |- _ => rename x into old; rename H into Hcur end.
  pose proof (keeps_run _ _ _ _ (keeps_body E s view _ raw) Hcur) as Hj2.
  destruct (current_body E s view _ raw _ _ _ Hcur) as (n & Hn & Hold). rewrite Hcache in Hold. simplify_eq.
  unfold mret, M_ret in H. injection H as -> ->.
  match goal with H : stageWriteBodyLocked _ _ _ _ _ ?d _ _ = _ |- _ =>
    destruct (write_body_installs E Htick s view _ raw d offline _ op w' js H) as [Hin Hlim]; try done;
    [by eapply listed_journal|rewrite Hj2, Hj; done|] end.
  exists n, old, (write_at old (N.to_nat offset) data). split_and!; [done|done|by intros i; apply write_at_lookup| |].
  - by eapply installed_shows.
  - intros o len Ho Hle. by eapply installed_reads.
Qed.

(** Truncating a file to its own size does nothing; to another size, it
    leaves the first bytes and adds zeros up to the size. *)
Theorem truncate_content s view raw size offline w res w' js :
  Durable.view (w_journal w) = Some js -> (NextSequence js + 1 < two64)%N -> (sv_maxFile s <= maxInt)%N ->
  StageTruncate E s view raw size offline w = (Ok res, w') ->
  (forall op, res = Some op -> Operations js !! op_id op = None) ->
  exists n old, namespace view js raw = Some n /\ content view (w_cache w) n old /\
  match res with
  | None => w_journal w' = w_journal w /\ N.of_nat (length old) = size
  | Some op => exists new,
      (forall i, new !! i =
         if decide (i < N.to_nat size) then (if decide (i < length old) then old !! i else Some Ascii.zero) else None) /\
      shows view w' (apply_op (namespace view js) op) /\ reads_as s view raw new w'
  end.
Proof.
  intros Hv Hroom Hmax H Hnew. unfold StageTruncate in H. simplify_M.
  match goal with H : ctx_Err _ _ = _ |- _ => apply ctx_Err_Ok in H as -> end.
  match goal with H : canonicalPath _ _ = Ok ?x |- _ => rename H into Hc; pose proof (canonicalPath_Ok _ _ _ Hc) as (-> & _) end.
  match goal with H : operations _ _ _ = _ |- _ => pose proof (operations_listed _ _ _ _ _ H) as Hl;
    apply operations_Ok in H as (js0 & Hv0 & -> & Hval & Hj & Hcache) end.
  assert (js0 = js) as -> by (cbn in Hv0; congruence).
  match goal with H : currentFileBodyLocked _ _ _ _ _ _ = (Ok ?x, _) |- _ => rename x into old; rename H into Hcur end.
  pose proof (keeps_run _ _ _ _ (keeps_body E s view _ raw) Hcur) as Hj2.
  destruct (current_body E s view _ raw _ _ _ Hcur) as (n & Hn & Hold). rewrite Hcache in Hold.
  exists n, old. split; [done|]. split; [done|]. case_bool_decide as Hsz; simplify_M.
  - split; [cbn in *; congruence|done].
  - match goal with H : stageWriteBodyLocked _ _ _ _ _ ?d _ _ = (Ok ?op, _) |- _ =>
      destruct (write_body_installs E Htick s view _ raw d offline _ op _ js H) as [Hin Hlim]; try done;
      [by eapply listed_journal|rewrite Hj2, Hj; done|by apply Hnew|exists d] end.
    split; [by intros i; apply resize_lookup|]. split; [by eapply installed_shows|].
    intros o len Ho Hle. by eapply installed_reads.
Qed.
End Writes.
