(* ===== verification/StagingWitness.v ===== *)
(** The staging theorems at a concrete service: a base with one file and one
    directory, over the tally CIDs and the digit digests. *)

From stdpp Require Import base decidable gmap strings list sorting.
From Stdlib Require Import Ascii ZArith.
From S2P Require Import Prelude GoText Branch CidLib Durable Journal JournalFacts JournalOps JournalThms Cache CacheFacts CacheHistory CacheThms Paths Staging Overlay StagingFacts StagingWrites StagingHistory StagingBatches StagingThms.

Module Demo.
Import TallyCid DigitDigest CacheThms.Witness.

Definition dir_info : Info (L := TallyCid.lib) := mkInfo EmptyString EmptyString StagedKindDirectory None None "map" 0.
Definition file_info : Info (L := TallyCid.lib) := mkInfo EmptyString EmptyString StagedKindFile None None "raw" 3.

#[global] Instance base : Base (L := TallyCid.lib) := {
  base_Stat _ p := if bool_decide (p = EmptyString) || bool_decide (p = "docs") then Ok dir_info
                   else if bool_decide (p = "a") then Ok file_info else Err ErrPathNotFound;
  base_ReadDir _ p := if bool_decide (p = EmptyString) then Ok [mkDirEntry "a" "file"; mkDirEntry "docs" "dir"]
                      else if bool_decide (p = "docs") then Ok [] else Err ErrPathNotFound;
  base_ReadFileRange _ p offset len :=
    if bool_decide (p = "a") then Ok (take (N.to_nat len) (drop (N.to_nat offset) abc), file_info) else Err ErrPathNotFound
}.
#[global] Instance stage_lib : StageLib (L := TallyCid.lib) := {
  raw_Sum data := Some (length data);
  transaction_digest l := TallyCid.tally (length l)
}.
#[global] Instance stage_laws : StageLaws stage_lib.
Proof. split. by intros data c [= <-]. Qed.

Definition demo_view : View (L := TallyCid.lib) := mkView "d" "main" (Some 1) 1 0.
Definition demo_service : service := mkService 0 false [].

(** A clock that ticks, fresh identities, and system calls that may fail. *)
Definition demo_env (cache : nat -> cache_io) (journal : nat -> io) : env (L := TallyCid.lib) :=
  mkEnv cache journal (fun t => Z.of_nat t + 1)%Z (fun t => (Some (TallyCid.tally (S t)), Some (TallyCid.tally (S t))))
    (fun _ => None) halves (fun l => l).
Definition good : env := demo_env (fun _ => cio_ok) (fun _ => io_ok).
(** The parent directory of the journal cannot be synced at first. *)
Definition rough : env := demo_env (fun _ => cio_ok) (fun t => if t <? 8 then io_fail SyncParent else io_ok).

Definition start : world := mkWorld (mkDir None ∅ []) None 0.
Definition requests : list (request (L := TallyCid.lib)) :=
  [ReqMkdir demo_view "docs/x" false; ReqWrite demo_view "docs/x/f" abcd false;
   ReqRename demo_view "docs" "b" false; ReqReconcile; ReqPrepare demo_view].
Definition later : world := foldl (serve (C := digest_lib) rough demo_service) start requests.
Definition js_of (w : world (L := TallyCid.lib)) : persistedState := default emptyState (Durable.view (w_journal w)).

Lemma js_view w : bool_decide (is_Some (Durable.view (w_journal w))) = true -> Durable.view (w_journal w) = Some (js_of w).
Proof. intros [m H]%bool_decide_eq_true. unfold js_of. by rewrite H. Qed.

Lemma demo_ticking cache journal : StagingFacts.ticking (demo_env cache journal).
Proof. intros t. cbn. lia. Qed.


(** The base is a tree, and its listings are complete. *)
Lemma base_paths c name :
  child_name name -> base_tree demo_view (joinPath c name) <> None -> c = EmptyString /\ (name = "a" \/ name = "docs").
Proof.
  intros [Hn Hs] H. unfold base_tree in H. cbn in H.
  assert (joinPath c name = EmptyString \/ joinPath c name = "docs" \/ joinPath c name = "a") as Hp.
  { repeat case_bool_decide; cbn in H; auto. done. }
  clear H. unfold joinPath in Hp. rewrite !(bool_decide_eq_false_2 (name = EmptyString)) in Hp by done.
  case_bool_decide as Hc; [naive_solver|]. exfalso.
  destruct c as [|c1 [|c2 [|c3 [|c4 [|c5 c]]]]]; cbn in Hp; destruct_or!; simplify_eq.
Qed.

#[global] Instance demo_base : BaseLaws demo_view.
Proof.
  split.
  - split; [by exists (mkNode StagedKindDirectory (Some (FromBase EmptyString)))|].
    intros c name Hn _ [-> _]%base_paths; [|done]. by exists (mkNode StagedKindDirectory (Some (FromBase EmptyString))).
  - intros p entries name Hr Hn [-> Hname]%base_paths; [|done]. cbn in Hr. injection Hr as <-.
    destruct Hname as [->| ->]; [exists (mkDirEntry "a" "file")|exists (mkDirEntry "docs" "dir")]; (split; [|done]); [by left|by right; left].
Qed.

Lemma start_journal js : Durable.view (w_journal start) = Some js -> js = emptyState.
Proof. by intros [= <-]. Qed.

Lemma staged_namespace_is_tree_witness :
  bool_decide (is_Some (Durable.view (w_journal later))) = true /\ treelike demo_view later.
Proof.
  split; [evaluate|].
  apply (staged_namespace_is_tree (C := digest_lib) rough demo_service demo_view requests start); [apply demo_ticking|evaluate|..].
  - intros js ->%start_journal. reflexivity.
  - intros js ->%start_journal. change (is_tree (base_tree demo_view)). apply base_is_tree.
Defined.

Lemma staged_bodies_present_witness : backed (C := digest_lib) later.
Proof.
  apply (staged_bodies_present (C := digest_lib) rough demo_service requests start); [apply demo_ticking|..].
  - intros js ->%start_journal. reflexivity.
  - intros js id op ->%start_journal H. discriminate H.
Defined.

Lemma good_sane : sane good.
Proof. intros t e H. discriminate H. Qed.
Lemma good_healthy : healthy good.
Proof. split; try done. apply halves_chunking. Qed.

Lemma stat_answers_namespace_witness :
  exists n, namespace demo_view (js_of later) "b/x" = Some n /\ n_kind n = StagedKindDirectory.
Proof.
  pose proof (stat_answers_namespace (C := digest_lib) good demo_service demo_view "b/x" later (js_of later)
    good_sane (fun _ => eq_refl) eq_refl ltac:(evaluate) eq_refl ltac:(apply js_view; evaluate)) as H.
  assert ((Stat (C := digest_lib) good demo_service demo_view "b/x" later).1 =
    Ok (localInfo "b/x" StagedKindDirectory None 0)) as Hr by evaluate.
  rewrite Hr in H. exact H.
Defined.

#[local] Notation listed_root := (ReadDir (C := digest_lib) good demo_service demo_view EmptyString later).
Definition root_entries : list DirEntry := [mkDirEntry "a" "file"; mkDirEntry "b" "dir"].
Lemma listed_root_is : listed_root = (Ok root_entries, listed_root.2).
Proof. apply (first_of listed_root). evaluate. Qed.

Lemma read_dir_lists_namespace_witness :
  exists js, Durable.view (w_journal later) = Some js /\ dir_at (namespace demo_view js) EmptyString /\
    NoDup (de_Name <$> root_entries) /\ StronglySorted (key_le de_Name String.leb) root_entries /\
    forall name kind, mkDirEntry name kind ∈ root_entries <->
      child_name name /\ exists n, namespace demo_view js (joinPath EmptyString name) = Some n /\ n_kind n = kind.
Proof.
  apply (read_dir_lists_namespace (C := digest_lib) good demo_service demo_view EmptyString later root_entries listed_root.2);
    [apply good_sane|apply demo_base|exact listed_root_is].
Defined.

#[local] Notation read_file := (ReadFileRange (C := digest_lib) good demo_service demo_view "b/x/f" 1 2 later).
Definition read_info : Info := localInfo "b/x/f" StagedKindFile (Some 4) 4.
Lemma read_file_is : read_file = (Ok (bytes "bc", read_info), read_file.2).
Proof. apply (first_of read_file). evaluate. Qed.

Lemma staged_read_sound_witness :
  exists js n, Durable.view (w_journal later) = Some js /\ namespace demo_view js "b/x/f" = Some n /\ n_kind n = i_Kind read_info /\
    match n_source n with
    | Some (FromCache b) => exists full, holds (w_cache later) b full /\
        bytes "bc" = take (N.to_nat 2) (drop (N.to_nat 1) full) /\ i_Size read_info = N.of_nat (length full)
    | Some (FromBase p) => exists info', base_ReadFileRange demo_view p 1 2 = Ok (bytes "bc", info')
    | None => False
    end.
Proof.
  apply (staged_read_sound (C := digest_lib) good demo_service demo_view "b/x/f" 1 2 later (bytes "bc") read_info read_file.2);
    [apply halves_chunking|reflexivity|reflexivity|exact read_file_is].
Defined.

(** ** Writes *)
Definition no_operation : Operation :=
  mkOperation (mkIntent EmptyString EmptyString EmptyString EmptyString EmptyString 0 KindWrite EmptyString EmptyString EmptyString 0)
    0 StatusLocalDirty EmptyString EmptyString EmptyString 0 0.
Definition recorded (r : result Operation) : Operation := match r with Ok op => op | Err _ => no_operation end.

Lemma later_loads : Durable.view (w_journal later) = Some (js_of later).
Proof. apply js_view. evaluate. Qed.

#[local] Notation wrote := (StageWrite (C := digest_lib) good demo_service demo_view "b/g" abc true later).
Lemma wrote_is : wrote = (Ok (recorded wrote.1), wrote.2).
Proof. apply (first_of wrote). evaluate. Qed.

Lemma staged_write_reads_back_witness :
  shows demo_view wrote.2 (apply_op (namespace demo_view (js_of later)) (recorded wrote.1)) /\
  reads_as (C := digest_lib) good demo_service demo_view "b/g" abc wrote.2.
Proof.
  apply (staged_write_reads_back (C := digest_lib) good good (demo_ticking _ _) good_healthy demo_service demo_view "b/g" abc true later
    (recorded wrote.1) wrote.2 (js_of later) later_loads); [evaluate|discriminate|exact wrote_is|evaluate].
Defined.

#[local] Notation wrote_at := (StageWriteAt (C := digest_lib) good demo_service demo_view "a" 5 (bytes "xy") false later).
Definition wrote_op : Operation := recorded (match wrote_at.1 with Ok (Some op) => Ok op | _ => Err ErrClosed end).
Lemma wrote_at_is : wrote_at = (Ok (Some wrote_op), wrote_at.2).
Proof. apply (first_of wrote_at). evaluate. Qed.

Lemma offset_write_content_witness :
  exists n old new, namespace demo_view (js_of later) "a" = Some n /\ content (C := digest_lib) demo_view (w_cache later) n old /\
    new !! 6 = Some "y"%char /\ reads_as (C := digest_lib) good demo_service demo_view "a" new wrote_at.2.
Proof.
  destruct (offset_write_content (C := digest_lib) good good (demo_ticking _ _) good_healthy demo_service demo_view "a" 5 (bytes "xy") false
    later wrote_op wrote_at.2 (js_of later) later_loads) as (n & old & new & H1 & H2 & H3 & _ & H4);
    [evaluate|discriminate|exact wrote_at_is|evaluate|].
  exists n, old, new. split; [exact H1|]. split; [exact H2|]. split; [rewrite H3; reflexivity|exact H4].
Defined.

#[local] Notation cut := (StageTruncate (C := digest_lib) good demo_service demo_view "b/x/f" 2 false later).
Definition cut_op : Operation := recorded (match cut.1 with Ok (Some op) => Ok op | _ => Err ErrClosed end).
Lemma cut_is : cut = (Ok (Some cut_op), cut.2).
Proof. apply (first_of cut). evaluate. Qed.

Lemma only_some {A} (P : A -> Prop) (o : A) : P o -> forall x, Some o = Some x -> P x.
Proof. by intros H x [= <-]. Qed.
Lemma cut_is_new : Operations (js_of later) !! op_id cut_op = None.
Proof. evaluate. Qed.

Lemma truncate_content_witness :
  exists n old, namespace demo_view (js_of later) "b/x/f" = Some n /\ content (C := digest_lib) demo_view (w_cache later) n old /\
    exists new, (forall i, new !! i =
         if decide (i < 2) then (if decide (i < length old) then old !! i else Some Ascii.zero) else None) /\
      reads_as (C := digest_lib) good demo_service demo_view "b/x/f" new cut.2.
Proof.
  destruct (truncate_content (C := digest_lib) good good (demo_ticking _ _) good_healthy demo_service demo_view "b/x/f" 2 false
    later (Some cut_op) cut.2 (js_of later) later_loads) as (n & old & H1 & H2 & new & H3 & _ & H4);
    [evaluate|discriminate|exact cut_is|exact (only_some (fun op => Operations (js_of later) !! op_id op = None) cut_op cut_is_new)|].
  exists n, old. split; [exact H1|]. split; [exact H2|]. exists new. split; [exact H3|exact H4].
Defined.

(** ** Uploads *)
#[local] Notation prepared := (PrepareUpload (C := digest_lib) good demo_service demo_view later).
Definition no_batch : UploadBatch := mkBatch demo_view EmptyString [] [] [].
Definition batch : UploadBatch := match prepared.1 with Ok b => b | Err _ => no_batch end.

Lemma prepared_is : prepared = (Ok batch, prepared.2).
Proof. apply (first_of prepared). evaluate. Qed.

Lemma prepared_batch_is_consistent_witness :
  length (ub_Pending batch) = 3 /\ validateUploadBatch batch = Ok () /\ NoDup (up_CID <$> ub_Payloads batch).
Proof.
  destruct (prepared_batch_is_consistent (C := digest_lib) good demo_service demo_view later batch prepared.2 prepared_is)
    as (H1 & _ & _ & _ & H2 & _). split; [evaluate|]. split; [exact H1|exact H2].
Defined.

#[local] Notation completed := (CompleteUpload (C := digest_lib) good demo_service batch (Some 7) prepared.2).
Definition finished_ops : list Operation := match completed.1 with Ok l => l | Err _ => [] end.
Lemma completed_is : completed = (Ok finished_ops, completed.2).
Proof. apply (first_of completed). evaluate. Qed.

Lemma complete_upload_finishes_batch_witness :
  exists c js', Some 7 = Some c /\ Durable.view (w_journal completed.2) = Some js' /\
    forall p, p ∈ ub_Pending batch -> exists op', Operations js' !! op_id p = Some op' /\ op_Status op' = StatusCompleted.
Proof.
  destruct (complete_upload_finishes_batch (C := digest_lib) good demo_service batch (Some 7) prepared.2
    finished_ops completed.2 (js_of prepared.2)) as (c & js' & H1 & _ & H2 & H3 & _);
    [exact completed_is|apply js_view; evaluate|].
  exists c, js'. split; [exact H1|]. split; [exact H2|]. intros p Hp.
  destruct (H3 p Hp) as (op & op' & _ & _ & _ & _ & Hl & _ & _ & Hs & _). exists op'. split; [exact Hl|exact Hs].
Defined.

(** The same write before and after it was frozen. *)
Definition small (status : Status) (now : time) : Operation :=
  mkOperation (mkIntent "op" "retry" "d" "main" "bafya" 1 KindWrite "b/g" EmptyString "bafyaaa" 0) 4 status
    EmptyString EmptyString EmptyString 1 now.
Lemma small_encodable status now : Forall encodable_op [small status now].
Proof. repeat constructor. Qed.

Lemma transaction_bytes_determine_upload_witness :
  (fun op => (op_Intent op, Sequence op)) <$> [small StatusLocalDirty 1] =
  (fun op => (op_Intent op, Sequence op)) <$> [small StatusPendingUpload 5].
Proof.
  assert (encodable_view demo_view) as Hv by (repeat constructor).
  apply (transaction_bytes_determine_upload demo_view demo_view [small StatusLocalDirty 1] [small StatusPendingUpload 5] Hv Hv
    (small_encodable _ _) (small_encodable _ _)). reflexivity.
Defined.
End Demo.
