(* ===== verification/WritePlan.v ===== *)
(** Write plans (writeplan/plan.go, blocks.go, staging.go): the local
    preparation of blocks and authentication candidates, and their persistence
    by an untrusted remote.

    Everything outside the process is a call of the effect signature [Remote]:
    the context, the private spool and the owners' readers of local bytes, the
    remote block store and the remote graph.  A theorem about [exec] holds for
    whatever they answer. *)

From stdpp Require Import base decidable gmap strings list.
From Stdlib Require Import Ascii ZArith.
From S2P Require Import Prelude Interact GoText CidLib Cache.

(** ** malt-core

    Candidates, batches and receipts are types of malt-core; the plan reads a
    few fields and calls their [Validate] methods. *)
Class CandidateLib {L : CidLib} := {
  (** [c.Prefix().Codec]. *)
  cid_Codec : Cid -> N;
  (** [cid.Raw]. *)
  codec_Raw : N;
  Descriptor : Type;
  Descriptor_eq_dec :: EqDecision Descriptor;
  (** [descriptor.Layout == maltcid.Map]. *)
  layout_Map : Descriptor -> bool;
  (** [maltcid.ParseRoot], with [None] for its error. *)
  ParseRoot : Cid -> option Descriptor;
  Candidate : Type;
  cand_Root : Candidate -> string;
  cand_Previous : Candidate -> string;
  cand_PayloadCID : Candidate -> option Cid;
  (** The targets of [candidate.State.Entries]. *)
  cand_Entries : Candidate -> list (option Cid);
  cand_Validate : Candidate -> result unit;
  (** [json.Marshal] then [json.Unmarshal]. *)
  cand_copy : Candidate -> result Candidate
}.

Record AuthenticationBatch `{CandidateLib} := mkAuthBatch {
  ab_TransactionID : string; ab_Base : string; ab_Root : string; ab_Candidates : list Candidate
}.
#[global] Arguments mkAuthBatch {L H} ab_TransactionID ab_Base ab_Root ab_Candidates.

Class BatchLib `{CandidateLib} := {
  Receipt : Type;
  batch_Validate : AuthenticationBatch -> result unit;
  batch_copy : AuthenticationBatch -> result AuthenticationBatch;
  receipt_Validate : Receipt -> AuthenticationBatch -> result unit
}.

(** Documented behaviour: the JSON forms of the protocol round trip. *)
Class BatchLaws `{BL : BatchLib} : Prop := {
  cand_copy_same : forall c c', cand_copy c = Ok c' -> c' = c;
  batch_copy_same : forall b b', batch_copy b = Ok b' -> b' = b
}.

(** [c.String()]; the undefined CID prints as the bare multibase prefix. *)
Definition cid_text {L : CidLib} (c : option Cid) : string :=
  match c with Some c => cid_String c | None => "b" end.

(** internal/cas, nodeapi/ports.go *)
Record CasBlock := mkCasBlock { cb_Data : body; cb_Codec : N }.
Record PutResult {L : CidLib} := mkPutResult { pr_CID : option Cid; pr_Status : string }.
#[global] Arguments mkPutResult {L} pr_CID pr_Status.

Definition PutStatusStored : string := "stored".
Definition PutStatusAlreadyPresent : string := "already_present".
Definition PutStatusDuplicate : string := "duplicate".
Definition PutStatusNewlyPersisted : string := "newly_persisted".
Definition PutStatusDuplicateInRequest : string := "duplicate_in_request".
Definition IsValidPutStatus (status : string) : bool :=
  bool_decide (status ∈ [PutStatusStored; PutStatusAlreadyPresent; PutStatusDuplicate;
                         PutStatusNewlyPersisted; PutStatusDuplicateInRequest]).

Section WritePlan.
Context {L : CidLib} {CA : CandidateLib} {BL : BatchLib}.

(** ** The outside *)
Inductive remote_call :=
  | CtxErr
  | SpoolGet (key : Cid)
  | OwnerRead (reader : nat)
  | PutWithCodec (data : body) (codec : N)
  | PutBatch (blocks : list CasBlock)
  | Materialize (candidate : Candidate)
  | MaterializeBatch (batch : AuthenticationBatch).

Definition remote_answer (c : remote_call) : Type :=
  match c with
  | CtxErr => option error
  | SpoolGet _ | OwnerRead _ => result body
  | PutWithCodec _ _ => result (option Cid)
  | PutBatch _ => result (list PutResult)
  | Materialize _ => result (option Cid)
  | MaterializeBatch _ => result Receipt
  end.

#[export] Instance Remote : Signature := {| call := remote_call; answer := remote_answer |}.

Definition ask (c : remote_call) {A} (k : remote_answer c -> P A) : P A := @Call Remote (result A) c k.

Definition ctx_Err : P unit := ask CtxErr (fun a => liftP (match a with Some e => Err e | None => Ok () end)).

(** ** Plans *)

(** The closures that read owner-local bytes: the frozen copy made by [Bytes],
    a block of the private spool, or a reader supplied by another owner. *)
Inductive reader := Frozen (data : body) | Spooled (key : Cid) | Owned (id : nat).

Definition read_with (r : reader) : P body :=
  match r with
  | Frozen data => mret data
  | Spooled key => ask (SpoolGet key) liftP
  | Owned id => ask (OwnerRead id) liftP
  end.

Record Block := mkBlock { blk_CID : option Cid; blk_Read : option reader }.

Definition Bytes (key : option Cid) (data : body) : Block := mkBlock key (Some (Frozen data)).

Record Plan := mkPlan {
  pl_Base : option Cid; pl_Root : option Cid; pl_TransactionID : string;
  pl_Candidates : list Candidate; pl_Blocks : list Block; pl_Required : list (option Cid)
}.

Definition candidateTargets (candidate : Candidate) : list (option Cid) :=
  match cand_PayloadCID candidate with Some c => [Some c] | None => [] end ++ cand_Entries candidate.

(** The roots a candidate depends on. *)
Definition dependencies (candidate : Candidate) : list string :=
  cand_Previous candidate :: (cid_text <$> candidateTargets candidate).

Definition parse_root (c : option Cid) : result Descriptor :=
  match c with Some c => or_err (ParseRoot c) (Errorf "parse root") | None => Err (Errorf "parse root") end.

(** The first loop of [validate]: the position of every planned root. *)
Fixpoint index_candidates (i : nat) (seen : gmap string nat) (candidates : list Candidate)
    : result (gmap string nat) :=
  match candidates with
  | [] => Ok seen
  | candidate :: rest =>
      _ ← cand_Validate candidate;
      _ ← fail_if (bool_decide (is_Some (seen !! cand_Root candidate))) (Errorf "duplicate planned candidate");
      index_candidates (S i) (<[cand_Root candidate := i]> seen) rest
  end.

Definition check_dependency (seen : gmap string nat) (i : nat) (root : string) : result unit :=
  match seen !! root with
  | Some position => fail_if (i <=? position) (Errorf "write plan dependency is not child-before-parent")
  | None => Ok ()
  end.

Fixpoint check_order (seen : gmap string nat) (i : nat) (candidates : list Candidate) : result unit :=
  match candidates with
  | [] => Ok ()
  | candidate :: rest =>
      _ ← mapM (check_dependency seen i) (dependencies candidate);
      check_order seen (S i) rest
  end.

Definition check_terminal (candidates : list Candidate) (root : string) (e : error) : result unit :=
  match last candidates with
  | Some candidate => fail_if (negb (bool_decide (cand_Root candidate = root))) e
  | None => Ok ()
  end.

Definition available (b : Block) : bool := bool_decide (is_Some (blk_CID b)) && bool_decide (is_Some (blk_Read b)).

Definition validate (p : Plan) : result unit :=
  _ ← parse_root (pl_Root p);
  _ ← match pl_Base p with Some base => _ ← parse_root (Some base); Ok () | None => Ok () end;
  seen ← index_candidates 0 ∅ (pl_Candidates p);
  _ ← check_order seen 0 (pl_Candidates p);
  _ ← check_terminal (pl_Candidates p) (cid_text (pl_Root p)) (Errorf "write plan final candidate differs from Root");
  fail_if (negb (forallb available (pl_Blocks p))) (Errorf "write plan has an unavailable block").

(** ** Blocks *)
Definition maxBatchBlocks : Z := 4096.
Definition maxBatchBytes : Z := 8 * 2 ^ 20.

Definition blen (data : body) : Z := Z.of_nat (length data).

(** [None] in a position that [validate] excludes is the nil dereference of
    the source. *)
Definition readBlock (b : Block) : P body :=
  _ ← ctx_Err;
  r ← liftP (or_err (blk_Read b) (Errorf "nil block reader"));
  data ← read_with r;
  _ ← liftP (match blk_CID b with
             | Some c => fail_if (negb (bool_decide (cid_Sum c data = Some c)))
                           (Errorf "local write-plan bytes differ from CID")
             | None => Err (Errorf "local write-plan bytes differ from CID")
             end);
  mret data.

Fixpoint check_blocks (blocks : list Block) : P unit :=
  match blocks with
  | [] => mret ()
  | b :: rest => _ ← readBlock b; check_blocks rest
  end.

(** The acknowledgement of one batch. *)
Definition check_results (expected : list (option Cid)) (results : list PutResult) : result unit :=
  _ ← fail_if (negb (bool_decide (length results = length expected)))
        (Errorf "remote CAS returned a wrong number of results");
  _ ← mapM (fun '(want, got) =>
        _ ← fail_if (negb (bool_decide (pr_CID got = want))) (Errorf "remote CAS substituted planned CID");
        fail_if (negb (IsValidPutStatus (pr_Status got))) (Errorf "remote CAS returned unsupported write status"))
        (zip expected results);
  Ok ().

Definition flush (pending : list CasBlock) (expected : list (option Cid)) : P unit :=
  match pending with
  | [] => mret ()
  | _ => ask (PutBatch pending) (fun r => liftP (results ← r; check_results expected results))
  end.

Definition codec_of (b : Block) : N := match blk_CID b with Some c => cid_Codec c | None => 0 end.

Definition put_single (b : Block) (data : body) : P unit :=
  ask (PutWithCodec data (codec_of b)) (fun r =>
  liftP (got ← r; fail_if (negb (bool_decide (got = blk_CID b))) (Errorf "remote CAS substituted planned CID"))).

(** The second pass; [pending], [expected] and [size] are the open batch. *)
Fixpoint write_blocks (batching : bool) (pending : list CasBlock) (expected : list (option Cid)) (size : Z)
    (blocks : list Block) : P unit :=
  match blocks with
  | [] => flush pending expected
  | b :: rest =>
      data ← readBlock b;
      if negb batching || (maxBatchBytes <? blen data)%Z then
        _ ← flush pending expected;
        _ ← put_single b data;
        write_blocks batching [] [] 0 rest
      else
        let entry := mkCasBlock data (codec_of b) in
        if (Z.of_nat (length pending) =? maxBatchBlocks)%Z || (maxBatchBytes - size <? blen data)%Z then
          _ ← flush pending expected;
          write_blocks batching [entry] [blk_CID b] (blen data) rest
        else
          write_blocks batching (pending ++ [entry]) (expected ++ [blk_CID b]) (size + blen data) rest
  end.

(** A block writer, with its optional batch capability; [None] is nil. *)
Definition persistBlocks (p : Plan) (writer : option bool) : P unit :=
  _ ← liftP (fail_if (negb (bool_decide (pl_Blocks p = [])) && bool_decide (writer = None))
               (Errorf "write plan requires a block writer"));
  _ ← check_blocks (pl_Blocks p);
  write_blocks (default false writer) [] [] 0 (pl_Blocks p).

(** ** Persisting a plan *)
Fixpoint install (candidates : list Candidate) : P unit :=
  match candidates with
  | [] => mret ()
  | candidate :: rest =>
      outbound ← liftP (cand_copy candidate);
      _ ← ask (Materialize outbound) (fun r =>
            liftP (got ← r; fail_if (negb (bool_decide (cid_text got = cand_Root candidate)))
                              (Errorf "remote graph substituted planned Root")));
      install rest
  end.

Definition Persist (p : Plan) (blocks : option bool) (remote : bool) : P unit :=
  _ ← liftP (validate p);
  _ ← liftP (fail_if (negb remote) (Errorf "write plan requires a candidate writer"));
  _ ← persistBlocks p blocks;
  install (pl_Candidates p).

Definition batch_of (p : Plan) : AuthenticationBatch :=
  mkAuthBatch (pl_TransactionID p) (cid_text (pl_Base p)) (cid_text (pl_Root p)) (pl_Candidates p).

Definition PersistBatch (p : Plan) (blocks : option bool) (remote : bool) : P Receipt :=
  _ ← liftP (validate p);
  let batch := batch_of p in
  _ ← liftP (batch_Validate batch);
  _ ← liftP (fail_if (negb remote) (Errorf "write plan requires a batch writer"));
  _ ← persistBlocks p blocks;
  outbound ← liftP (batch_copy batch);
  ask (MaterializeBatch outbound) (fun r =>
  liftP (receipt ← r; _ ← receipt_Validate receipt batch; Ok receipt)).

(** ** Staging *)

(** The local write ports of the layout compilers.  [st_source] and
    [st_blocks] say whether the read-through sources are present. *)
Record Staging := mkStaging {
  st_keys : list Cid; st_candidates : list Candidate; st_roots : gmap string nat; st_sourceRoots : gset string
}.
Definition NewStaging : Staging := mkStaging [] [] ∅ ∅.

(** [PutWithCodec] once the spool has stored the block under [key]. *)
Definition stage_block (key : Cid) (s : Staging) : Staging :=
  if bool_decide (key ∈ st_keys s) then s
  else mkStaging (st_keys s ++ [key]) (st_candidates s) (st_roots s) (st_sourceRoots s).

(** [Get]: the private spool, or the read-through source. *)
Definition stage_Get (source : option (Cid -> P body)) (key : Cid) (s : Staging) : P body :=
  if bool_decide (key ∈ st_keys s) then ask (SpoolGet key) liftP
  else match source with
       | Some get => get key
       | None => liftP (Err (Errorf "planned block is unavailable"))
       end.

(** The answer of the candidate source, if there is one. *)
Definition AuthenticationCandidate (source : option (Cid -> result (option Candidate))) (root : Cid) (s : Staging)
    : result Candidate * Staging :=
  match source with
  | Some get =>
      match get root with
      | Err e => (Err e, s)
      | Ok None => (Err (Errorf "source substituted planned before-image"), s)
      | Ok (Some candidate) =>
          if negb (bool_decide (cand_Root candidate = cid_String root))
          then (Err (Errorf "source substituted planned before-image"), s)
          else (Ok candidate,
                mkStaging (st_keys s) (st_candidates s) (st_roots s) ({[cid_String root]} ∪ st_sourceRoots s))
      end
  | None =>
      (match st_roots s !! cid_String root with
       | Some index =>
           match st_candidates s !! index with
           | Some candidate => cand_copy candidate
           | None => Err (Errorf "index out of range")
           end
       | None => Err (Errorf "planned candidate is unavailable")
       end, s)
  end.

Definition MaterializeAuthentication (cancelled : option error) (candidate : Candidate) (s : Staging)
    : result Cid * Staging :=
  match
    (_ ← match cancelled with Some e => Err e | None => Ok () end;
     _ ← cand_Validate candidate;
     root ← or_err (cid_Parse (cand_Root candidate)) (Errorf "cid.MustParse");
     if bool_decide (is_Some (st_roots s !! cand_Root candidate)) then Ok (root, s)
     else
       copy ← cand_copy candidate;
       Ok (root, mkStaging (st_keys s) (st_candidates s ++ [copy])
                   (<[cand_Root candidate := length (st_candidates s)]> (st_roots s)) (st_sourceRoots s)))
  with
  | Ok (root, s') => (Ok root, s')
  | Err e => (Err e, s)
  end.

(** The staged candidate of a root. *)
Definition staged (s : Staging) (key : string) : option Candidate :=
  index ← st_roots s !! key; st_candidates s !! index.

(** The recursive closure [visit], with the set [needed] threaded through the
    calls; the fuel bounds the depth. *)
Fixpoint visit (s : Staging) (fuel : nat) (key : string) (needed : gset string) : gset string :=
  match fuel with
  | O => needed
  | S fuel' =>
      if bool_decide (key ∈ needed) || bool_decide (key ∈ st_sourceRoots s) then needed
      else match staged s key with
           | None => needed
           | Some candidate =>
               foldl (fun acc k => visit s fuel' k acc) ({[key]} ∪ needed) (dependencies candidate)
           end
  end.

Definition visit_fuel (s : Staging) : nat := S (size (st_roots s)).

Definition needed_roots (s : Staging) (root : option Cid) : gset string :=
  visit s (visit_fuel s) (cid_text root) ∅.

Definition stage_Plan (base root : option Cid) (s : Staging) : result Plan :=
  let needed := needed_roots s root in
  candidates ← mapM cand_copy (filter (fun c => cand_Root c ∈ needed) (st_candidates s));
  _ ← check_terminal candidates (cid_text root) (Errorf "final Root is not the terminal prepared candidate");
  let p := mkPlan base root EmptyString candidates
             ((fun key => mkBlock (Some key) (Some (Spooled key))) <$> st_keys s) [] in
  _ ← validate p;
  Ok p.
End WritePlan.
