(* ===== verification/WritePlanFacts.v ===== *)
(** The executions of a write plan, for every behaviour of the remote. *)

From stdpp Require Import base decidable gmap strings list.
From Stdlib Require Import Ascii ZArith Lia.
From S2P Require Import Prelude Interact GoText CidLib Cache WritePlan.

Section Events.
Context {L : CidLib} {CA : CandidateLib} {BL : BatchLib}.

(** What an event shows of the block store and of the graph. *)
Definition block_writes (e : event) : list (CasBlock * option Cid) :=
  let 'existT c a := e in
  match c return remote_answer c -> list (CasBlock * option Cid) with
  | PutWithCodec data codec => fun a => match a with Ok got => [(mkCasBlock data codec, got)] | Err _ => [] end
  | PutBatch blocks => fun a => match a with Ok results => zip blocks (pr_CID <$> results) | Err _ => [] end
  | _ => fun _ => []
  end a.

Definition batch_request (e : event) : option (list CasBlock) :=
  match projT1 e with PutBatch blocks => Some blocks | _ => None end.

Definition materialized (e : event) : option (Candidate * result (option Cid)) :=
  let 'existT c a := e in
  match c return remote_answer c -> option (Candidate * result (option Cid)) with
  | Materialize candidate => fun a => Some (candidate, a) | _ => fun _ => None end a.

Definition batch_materialized (e : event) : option (AuthenticationBatch * result Receipt) :=
  let 'existT c a := e in
  match c return remote_answer c -> option (AuthenticationBatch * result Receipt) with
  | MaterializeBatch batch => fun a => Some (batch, a) | _ => fun _ => None end a.

(** The events that change nothing outside the process. *)
Definition is_local (e : event) : Prop :=
  match projT1 e with CtxErr | SpoolGet _ | OwnerRead _ => True | _ => False end.
(** The events before the graph is touched. *)
Definition no_graph (e : event) : Prop :=
  match projT1 e with Materialize _ | MaterializeBatch _ => False | _ => True end.

(** The blocks acknowledged along a trace, in the order of the requests. *)
Definition acked (tr : list event) : list (CasBlock * option Cid) := mjoin (block_writes <$> tr).

Lemma acked_app tr1 tr2 : acked (tr1 ++ tr2) = acked tr1 ++ acked tr2.
Proof. unfold acked. by rewrite fmap_app, join_app. Qed.

Lemma acked_local tr : Forall is_local tr -> acked tr = [].
Proof.
  induction 1 as [|[c a] tr He _ IH]; [done|].
  change (block_writes (existT c a) ++ acked tr = []). rewrite IH. by destruct c.
Qed.

Lemma local_no_graph e : is_local e -> no_graph e.
Proof. unfold is_local, no_graph. by destruct (projT1 e). Qed.

Lemma no_graph_materialized e x : no_graph e -> materialized e = Some x -> False.
Proof. destruct e as [[] a]; cbn; done. Qed.
Lemma no_graph_batch e x : no_graph e -> batch_materialized e = Some x -> False.
Proof. destruct e as [[] a]; cbn; done. Qed.

(** ** Reading *)
Lemma ctx_local : only is_local ctx_Err.
Proof. apply only_call; [done|]. intros a. apply only_lift. Qed.

Lemma read_with_local r : only is_local (read_with r).
Proof. destruct r; cbn; [apply only_ret| |]; (apply only_call; [done|]; intros a; apply only_lift). Qed.

Lemma readBlock_local b : only is_local (readBlock b).
Proof.
  unfold readBlock. repeat (apply only_bind; [|intros ?]); auto using ctx_local, read_with_local, only_lift, only_ret.
Qed.

Lemma check_blocks_local blocks : only is_local (check_blocks blocks).
Proof. induction blocks as [|b blocks IH]; cbn [check_blocks]; [apply only_ret|]. by apply only_bind; [apply readBlock_local|]. Qed.

(** The body handed on is the one the CID names. *)
Definition body_of (b : Block) (data : body) : Prop := exists c, blk_CID b = Some c /\ cid_Sum c data = Some c.

Lemma readBlock_body b tr data : exec (readBlock b) tr (Ok data) -> Forall is_local tr /\ body_of b data.
Proof.
  intros H. split; [by eapply readBlock_local|]. unfold readBlock in H. simplify_exec.
  destruct (blk_CID b) as [c|] eqn:Ec; [|done]. simplify_exec. simplify_guards. by exists c.
Qed.

(** ** The second pass *)
Definition planned (b : Block) (data : body) : CasBlock * option Cid := (mkCasBlock data (codec_of b), blk_CID b).

Lemma check_results_Ok expected results :
  check_results expected results = Ok () -> pr_CID <$> results = expected.
Proof.
  unfold check_results. intros H. simplify_result. simplify_guards.
  match goal with H : mapM _ _ = Ok ?x |- _ => apply mapM_Forall2 in H as Hm; clear H; revert results x Hr Hm end.
  induction expected as [|want expected IH]; intros [|got results] r0 Hlen Hm; try done.
  cbn [zip zip_with] in Hm. inversion Hm as [|? ? ? l' Hh Ht]; subst. simplify_result. simplify_guards. cbn.
  f_equal; [done|]. eapply IH; [|done]. cbn in Hlen. lia.
Qed.

Lemma flush_Ok pending expected tr :
  length pending = length expected ->
  exec (flush pending expected) tr (Ok ()) -> acked tr = zip pending expected.
Proof.
  intros Hlen H. destruct pending as [|x pending]; [by destruct H as [-> _]|].
  destruct H as (a & tr' & -> & [-> H]). destruct a as [results|e]; [|done]. cbn in H.
  symmetry in H. apply check_results_Ok in H as <-. unfold acked. cbn. by rewrite app_nil_r.
Qed.

Lemma put_single_Ok b data tr :
  exec (put_single b data) tr (Ok ()) -> acked tr = [planned b data].
Proof.
  intros (a & tr' & -> & [-> H]). destruct a as [got|e]; [|done]. cbn in H.
  symmetry in H. apply fail_if_Ok in H. simplify_guards. subst. done.
Qed.

Lemma zip_app {A B} (l1 l2 : list A) (k1 k2 : list B) :
  length l1 = length k1 -> zip (l1 ++ l2) (k1 ++ k2) = zip l1 k1 ++ zip l2 k2.
Proof. intros H. by apply zip_with_app. Qed.

Lemma write_blocks_Ok batching pending expected size blocks tr :
  length pending = length expected ->
  exec (write_blocks batching pending expected size blocks) tr (Ok ()) ->
  exists datas, Forall2 body_of blocks datas /\
    acked tr = zip pending expected ++ zip_with planned blocks datas.
Proof.
  revert pending expected size tr. induction blocks as [|b blocks IH]; intros pending expected size tr Hlen H;
    cbn [write_blocks] in H.
  { exists []. split; [constructor|]. cbn. rewrite app_nil_r. by apply flush_Ok. }
  apply exec_bind_Ok in H as (t1 & x & t2 & -> & [Hloc Hb]%readBlock_body & H).
  rewrite acked_app, (acked_local _ Hloc). cbn [app]. case_in H; [|case_in H].
  - apply exec_bind_Ok in H as (t3 & [] & t4 & -> & Hf%flush_Ok & H); [|done].
    apply exec_bind_Ok in H as (t5 & [] & t6 & -> & Hp%put_single_Ok & H).
    apply IH in H as (datas & Hd & E); [|done]. exists (x :: datas). split; [by constructor|].
    by rewrite !acked_app, Hf, Hp, E.
  - apply exec_bind_Ok in H as (t3 & [] & t4 & -> & Hf%flush_Ok & H); [|done].
    apply IH in H as (datas & Hd & E); [|done]. exists (x :: datas). split; [by constructor|]. by rewrite acked_app, Hf, E.
  - apply IH in H as (datas & Hd & E); [|rewrite !length_app; cbn; lia].
    exists (x :: datas). split; [by constructor|]. rewrite E, zip_app by done. by rewrite <- app_assoc.
Qed.

Lemma flush_keeps (Q : event -> Prop) pending expected :
  (forall e, batch_request e = Some pending -> pending <> [] -> Q e) -> only Q (flush pending expected).
Proof.
  intros HQ. destruct pending as [|x pending]; [apply only_ret|]. apply only_call; [|intros a; apply only_lift].
  intros a. by apply HQ.
Qed.

Lemma flush_no_graph pending expected : only no_graph (flush pending expected).
Proof. destruct pending; [apply only_ret|]. apply only_call; [done|]. intros a. apply only_lift. Qed.

Lemma write_blocks_no_graph batching pending expected size blocks :
  only no_graph (write_blocks batching pending expected size blocks).
Proof.
  revert pending expected size. induction blocks as [|b blocks IH]; intros; cbn [write_blocks]; [apply flush_no_graph|].
  apply only_bind; [eapply only_mono, readBlock_local; apply local_no_graph|]. intros data.
  destruct (_ || _); [|destruct (_ || _)]; auto;
    repeat (apply only_bind; [|intros ?]); auto using flush_no_graph.
  apply only_call; [done|]. intros ?. apply only_lift.
Qed.

Lemma persistBlocks_no_graph p writer : only no_graph (persistBlocks p writer).
Proof.
  unfold persistBlocks. repeat (apply only_bind; [|intros ?]); auto using write_blocks_no_graph, only_lift.
  eapply only_mono, check_blocks_local. apply local_no_graph.
Qed.

(** ** The size of the batches *)
Definition batch_bytes (blocks : list CasBlock) : Z := foldr (fun b n => blen (cb_Data b) + n)%Z 0%Z blocks.

Definition bounded_batch (e : event) : Prop :=
  forall blocks, batch_request e = Some blocks ->
    blocks <> [] /\ (Z.of_nat (length blocks) <= maxBatchBlocks)%Z /\ (batch_bytes blocks <= maxBatchBytes)%Z.

Lemma batch_bytes_app l1 l2 : batch_bytes (l1 ++ l2) = (batch_bytes l1 + batch_bytes l2)%Z.
Proof. induction l1 as [|b l1 IH]; [done|]. cbn [app batch_bytes foldr] in *. fold (batch_bytes (l1 ++ l2)). fold (batch_bytes l1). lia. Qed.

Definition open_batch (pending : list CasBlock) (size : Z) : Prop :=
  size = batch_bytes pending /\ (Z.of_nat (length pending) <= maxBatchBlocks)%Z /\ (size <= maxBatchBytes)%Z.

Lemma flush_bounded pending expected size : open_batch pending size -> only bounded_batch (flush pending expected).
Proof.
  intros (-> & Hl & Hb). apply flush_keeps. intros e He Hne blocks He'. by assert (blocks = pending) as -> by congruence.
Qed.

Lemma local_bounded e : is_local e -> bounded_batch e.
Proof. unfold is_local, bounded_batch, batch_request. by destruct (projT1 e). Qed.

Lemma open_empty : open_batch [] 0.
Proof. by split_and!. Qed.

Lemma open_one data codec :
  (maxBatchBytes <? blen data)%Z = false -> open_batch [mkCasBlock data codec] (blen data).
Proof. intros H. simplify_guards. split_and!; cbn; [lia|done|done]. Qed.

Lemma open_more pending size data codec :
  open_batch pending size -> (Z.of_nat (length pending) =? maxBatchBlocks)%Z = false ->
  (maxBatchBytes - size <? blen data)%Z = false ->
  open_batch (pending ++ [mkCasBlock data codec]) (size + blen data).
Proof.
  intros (-> & Hl & Hb) Hn%Z.eqb_neq H. simplify_guards. split_and!.
  - rewrite batch_bytes_app. cbn. lia.
  - rewrite length_app. cbn. lia.
  - lia.
Qed.

Lemma write_blocks_bounded batching pending expected size blocks :
  open_batch pending size -> only bounded_batch (write_blocks batching pending expected size blocks).
Proof.
  revert pending expected size. induction blocks as [|b blocks IH]; intros pending expected size Ho; cbn [write_blocks].
  { by eapply flush_bounded. }
  apply only_bind; [eapply only_mono, readBlock_local; apply local_bounded|]. intros data.
  destruct (negb batching || (maxBatchBytes <? blen data)%Z) eqn:E1; [|destruct (_ || (maxBatchBytes - _ <? _)%Z) eqn:E2].
  - apply only_bind; [by eapply flush_bounded|]. intros _. apply only_bind; [|intros _; apply IH, open_empty].
    apply only_call; [done|]. intros a. apply only_lift.
  - apply only_bind; [by eapply flush_bounded|]. intros _. apply IH, open_one. by apply orb_false_iff in E1 as [_ ?].
  - apply orb_false_iff in E1 as [_ E1], E2 as [E2 E3]. apply IH. by apply open_more.
Qed.

(** ** Candidates on the wire *)
Lemma install_prefix candidates tr out tr1 e tr2 c a :
  (forall c c', cand_copy c = Ok c' -> c' = c) ->
  exec (install candidates) tr out -> tr = tr1 ++ e :: tr2 -> materialized e = Some (c, a) ->
  exists before after, candidates = before ++ c :: after /\
    Forall2 (fun d e => exists got, materialized e = Some (d, Ok got) /\ cid_text got = cand_Root d) before tr1.
Proof.
  intros Hcopy. revert tr tr1. induction candidates as [|d candidates IH]; intros tr tr1 H Htr He.
  { destruct H as [-> _]. by destruct tr1. }
  cbn [install] in H. apply exec_bind_any in H as [(err & [-> _] & _)|(t1 & d' & t2 & -> & [-> Hd] & H)]; [by destruct tr1|].
  symmetry in Hd. apply Hcopy in Hd as ->.
  assert (forall a' t, materialized (ev (Sg := Remote) (Materialize d) a' : event) = Some (c, a) ->
    t = [] -> exists before after, d :: candidates = before ++ c :: after /\
    Forall2 (fun d (e : event) => exists got, materialized e = Some (d, Ok got) /\ cid_text got = cand_Root d) before t) as Hfirst.
  { intros a' t E ->. cbn in E. simplify_eq. by exists [], candidates. }
  apply exec_bind_any in H as [(err & (a' & t & E & [-> _]) & _)|(t1 & [] & t3 & E & (a' & t & -> & [-> Hack]) & H)].
  - cbn [app] in Htr. rewrite E in Htr. destruct tr1 as [|? [|]]; simplify_eq/=. eapply Hfirst; eauto.
  - cbn [app] in *. rewrite E in Htr. destruct tr1 as [|e1 tr1]; simplify_eq/=; [by eapply Hfirst|].
    eapply IH in H as (before & after & -> & Hb); [|done|done]. exists (d :: before), after. split; [done|].
    constructor; [|done]. destruct a' as [got|]; [|done]. cbn in Hack. symmetry in Hack. apply fail_if_Ok in Hack.
    simplify_guards. by exists got.
Qed.

(** ** Validation *)
Lemma index_candidates_spec i seen candidates seen' :
  index_candidates i seen candidates = Ok seen' ->
  Forall (fun c => cand_Validate c = Ok ()) candidates /\
  (forall k n, seen' !! k = Some n <->
     seen !! k = Some n \/ exists j c, candidates !! j = Some c /\ cand_Root c = k /\ n = i + j) /\
  NoDup (cand_Root <$> candidates) /\ Forall (fun c => seen !! cand_Root c = None) candidates.
Proof.
  revert i seen. induction candidates as [|c candidates IH]; intros i seen H; cbn [index_candidates] in H.
  { simplify_result. split_and!; try constructor; [|]; [by left|]. intros [?|(j & c & E & _)]; done. }
  simplify_result. destruct r. simplify_guards. apply IH in H as (Hv & Hs & Hnd & Hfresh). clear IH.
  assert (seen !! cand_Root c = None) as Hc by (apply eq_None_not_Some; done).
  rewrite Forall_forall in Hfresh. split_and!.
  - by constructor.
  - intros k n. rewrite Hs. split.
    + intros [E|(j & c' & Ej & Ek & ->)].
      * apply lookup_insert_Some in E as [[<- <-]|[_ E]]; [right|by left]. exists 0, c. cbn. split_and!; [done|done|lia].
      * right. exists (S j), c'. cbn. split_and!; [done|done|lia].
    + intros [E|(j & c' & Ej & Ek & ->)].
      * left. rewrite lookup_insert_ne by congruence. done.
      * destruct j as [|j]; cbn in Ej.
        -- simplify_eq. left. rewrite lookup_insert_eq. f_equal. lia.
        -- right. exists j, c'. split_and!; [done|done|lia].
  - rewrite fmap_cons. apply NoDup_cons. split; [|done]. intros (c' & E & Hin)%list_elem_of_fmap.
    specialize (Hfresh _ Hin). rewrite <- E, lookup_insert_eq in Hfresh. done.
  - constructor; [done|]. apply Forall_forall. intros c' Hin. specialize (Hfresh _ Hin).
    by apply lookup_insert_None in Hfresh as [? _].
Qed.

Lemma check_order_spec seen i candidates :
  check_order seen i candidates = Ok () ->
  forall j c k n, candidates !! j = Some c -> k ∈ dependencies c -> seen !! k = Some n -> n < i + j.
Proof.
  revert i. induction candidates as [|c0 candidates IH]; intros i H j c k n Hj Hk Hn; [done|].
  cbn [check_order] in H. simplify_result. destruct j as [|j]; cbn in Hj.
  - simplify_eq. eapply mapM_visits in Hr as (u & Hu); [|done]. unfold check_dependency in Hu. rewrite Hn in Hu.
    simplify_result. apply Nat.leb_gt in Hu. lia.
  - eapply IH in H; eauto. lia.
Qed.
End Events.
