(* ===== verification/WritePlanThms.v ===== *)
(** Write plans: what a remote has acknowledged when a plan is persisted, the
    order of what it sees, and which staged candidates a plan contains. *)

From stdpp Require Import base decidable gmap strings list.
From Stdlib Require Import Ascii ZArith Lia.
From S2P Require Import Prelude Interact GoText CidLib Cache WritePlan WritePlanFacts.

Section Persisting.
Context {L : CidLib} {CA : CandidateLib} {BL : BatchLib}.

Lemma persistBlocks_Ok p writer tr :
  exec (persistBlocks p writer) tr (Ok ()) ->
  exists datas, Forall2 body_of (pl_Blocks p) datas /\ acked tr = zip_with planned (pl_Blocks p) datas.
Proof.
  intros H. unfold persistBlocks in H. apply exec_bind_Ok in H as (t0 & [] & t & -> & [-> _] & H).
  apply exec_bind_Ok in H as (t1 & [] & t2 & -> & H1%check_blocks_local & H2).
  apply write_blocks_Ok in H2 as (datas & Hd & E); [|done]. exists datas. split; [done|].
  cbn [app]. by rewrite acked_app, (acked_local _ H1), E.
Qed.

(** A successful write of the blocks is acknowledged block by block: along any
    execution, whatever the remote answered, the acknowledged requests are, in
    order and each exactly once, the planned blocks under their own CIDs and
    codecs, with bytes that hash to those CIDs. *)
Theorem blocks_acknowledged_exactly p writer tr :
  exec (persistBlocks p writer) tr (Ok ()) ->
  exists datas, Forall2 body_of (pl_Blocks p) datas /\ acked tr = zip_with planned (pl_Blocks p) datas.
Proof. apply persistBlocks_Ok. Qed.

(** No batch request is empty, longer than 4096 blocks or larger than 8 MiB,
    on any path through the loop and whatever the remote answers. *)
Theorem batches_bounded p writer tr out :
  exec (persistBlocks p writer) tr out -> Forall bounded_batch tr.
Proof.
  revert tr out. unfold persistBlocks. apply only_bind; [apply only_lift|]. intros _.
  apply only_bind; [eapply only_mono, check_blocks_local; apply local_bounded|]. intros _.
  apply write_blocks_bounded, open_empty.
Qed.

Lemma persistBlocks_checked p writer tr out :
  exec (persistBlocks p writer) tr out ->
  Forall is_local tr /\ is_ok out = false \/
  exists tr1 tr2, tr = tr1 ++ tr2 /\ exec (check_blocks (pl_Blocks p)) tr1 (Ok ()).
Proof.
  intros H. unfold persistBlocks in H.
  apply exec_bind_any in H as [(e & [-> _] & ->)|(t0 & [] & t & -> & [-> _] & H)]; [left; by split|]. cbn [app].
  apply exec_bind_any in H as [(e & H & ->)|(t1 & [] & t2 & -> & H1 & H2)]; [|right; eauto].
  left. split; [by eapply check_blocks_local|done].
Qed.

(** No remote side effect happens before the plan was validated and every one
    of its local blocks was read and found to match its CID. *)
Theorem local_checks_precede_remote_effects p writer remote tr out :
  exec (PersistBatch p writer remote) tr out -> ~ Forall is_local tr ->
  validate p = Ok () /\
  exists tr1 tr2, tr = tr1 ++ tr2 /\ exec (check_blocks (pl_Blocks p)) tr1 (Ok ()) /\ Forall is_local tr1.
Proof.
  intros H Hn. unfold PersistBatch in H.
  apply exec_bind_any in H as [(e & [-> _] & _)|(t0 & [] & t & -> & [-> Hv] & H)]; [by destruct Hn; constructor|].
  split; [by symmetry|].
  apply exec_bind_any in H as [(e & [-> _] & _)|(t1 & [] & t2 & -> & [-> _] & H)]; [by destruct Hn; constructor|].
  apply exec_bind_any in H as [(e & [-> _] & _)|(t1 & [] & t3 & -> & [-> _] & H)]; [by destruct Hn; constructor|].
  cbn [app] in *.
  apply exec_bind_any in H as [(e & H & _)|(t1 & [] & t4 & -> & H & H')];
    apply persistBlocks_checked in H as [[? ?]|(tr1 & tr2 & -> & Hc)]; try done.
  - exists tr1, tr2. split_and!; [done|done|by eapply check_blocks_local].
  - exists tr1, (tr2 ++ t4). split_and!; [by rewrite app_assoc|done|by eapply check_blocks_local].
Qed.

Context {BW : BatchLaws}.

Lemma PersistBatch_Ok p writer remote tr receipt :
  exec (PersistBatch p writer remote) tr (Ok receipt) ->
  validate p = Ok () /\ receipt_Validate receipt (batch_of p) = Ok () /\
  exists tr1 e datas, tr = tr1 ++ [e] /\ batch_materialized e = Some (batch_of p, Ok receipt) /\
    Forall no_graph tr1 /\ Forall2 body_of (pl_Blocks p) datas /\ acked tr1 = zip_with planned (pl_Blocks p) datas.
Proof.
  intros H. unfold PersistBatch in H.
  apply exec_bind_Ok in H as (t0 & [] & t & -> & [-> Hv] & H).
  apply exec_bind_Ok in H as (t1 & [] & t2 & -> & [-> Hb] & H).
  apply exec_bind_Ok in H as (t3 & [] & t4 & -> & [-> _] & H).
  apply exec_bind_Ok in H as (t5 & [] & t6 & -> & Hp & H).
  apply exec_bind_Ok in H as (t7 & out & t8 & -> & [-> Hc] & H). cbn [app].
  symmetry in Hc. apply batch_copy_same in Hc as ->.
  destruct H as (a & t9 & -> & [-> H]). destruct a as [r|]; [|done]. cbn in H. symmetry in H. simplify_result. destruct r0.
  split_and!; [done|done|].
  pose proof (persistBlocks_no_graph _ _ _ _ Hp) as Hng. apply persistBlocks_Ok in Hp as (datas & Hd & E).
  exists t5, (ev (Sg := Remote) (MaterializeBatch (batch_of p)) (Ok receipt)), datas. by split_and!.
Qed.

(** A successful [PersistBatch] ends with the one graph request of the
    execution: the exact batch of the plan (transaction, base, root and
    candidates), answered with a receipt that validates against it, after every
    planned block was acknowledged. *)
Theorem batch_receipt_exact p writer remote tr receipt :
  exec (PersistBatch p writer remote) tr (Ok receipt) ->
  validate p = Ok () /\ receipt_Validate receipt (batch_of p) = Ok () /\
  exists tr1 e datas, tr = tr1 ++ [e] /\ batch_materialized e = Some (batch_of p, Ok receipt) /\
    Forall no_graph tr1 /\ Forall2 body_of (pl_Blocks p) datas /\ acked tr1 = zip_with planned (pl_Blocks p) datas.
Proof. apply PersistBatch_Ok. Qed.

(** In a valid plan the planned dependencies of a candidate precede it. *)
Lemma validate_order p before c after d :
  validate p = Ok () -> pl_Candidates p = before ++ c :: after -> d ∈ pl_Candidates p ->
  cand_Root d ∈ dependencies c -> d ∈ before.
Proof.
  unfold validate. intros H E Hd Hdep. simplify_result.
  match goal with H : index_candidates _ _ _ = _ |- _ => apply index_candidates_spec in H as (_ & Hs & _) end.
  match goal with H : check_order _ _ _ = Ok ?u |- _ => destruct u; pose proof (check_order_spec _ _ _ H) as Ho end.
  apply list_elem_of_lookup in Hd as [n Hn]. assert (n < 0 + length before) as Hlt.
  { eapply Ho; [rewrite E; by apply list_lookup_middle|done|]. apply Hs. right. by exists n, d. }
  rewrite E, lookup_app_l in Hn by lia. by eapply list_elem_of_lookup_2.
Qed.

Lemma acked_graph (before : list Candidate) (tr : list event) :
  Forall2 (fun d e => exists got, materialized e = Some (d, Ok got) /\ cid_text got = cand_Root d) before tr -> acked tr = [].
Proof.
  induction 1 as [|d [c a] before tr (got & He & _) _ IH]; [done|].
  change (block_writes (existT c a) ++ acked tr = []). rewrite IH. by destruct c.
Qed.

(** Child before parent on the wire: when [Persist] sends a candidate, every
    block of the plan was acknowledged, and every root that the candidate
    depends on and that the plan installs was already installed and
    acknowledged under exactly that root, whether or not the call later
    fails. *)
Theorem dependencies_installed_first p writer remote tr out tr1 e tr2 c a :
  exec (Persist p writer remote) tr out -> tr = tr1 ++ e :: tr2 -> materialized e = Some (c, a) ->
  (exists datas, Forall2 body_of (pl_Blocks p) datas /\ acked tr1 = zip_with planned (pl_Blocks p) datas) /\
  forall d, d ∈ pl_Candidates p -> cand_Root d ∈ dependencies c ->
    exists e' got, e' ∈ tr1 /\ materialized e' = Some (d, Ok got) /\ cid_text got = cand_Root d.
Proof.
  intros H -> He. unfold Persist in H.
  apply exec_bind_any in H as [(? & [E _] & _)|(t0 & [] & t & E & [-> Hv] & H)]; [by destruct tr1|]. cbn in E. subst t.
  apply exec_bind_any in H as [(? & [E _] & _)|(t1 & [] & t2 & E & [-> _] & H)]; [by destruct tr1|]. cbn in E. subst t2.
  apply exec_bind_any in H as [(? & H & _)|(tb & [] & tc & E & Hb & H)].
  { apply persistBlocks_no_graph in H. apply Forall_app in H as [_ [H _]%Forall_cons].
    by destruct (no_graph_materialized _ _ H He). }
  assert (exists tr1', tr1 = tb ++ tr1' /\ tc = tr1' ++ e :: tr2) as (tr1' & -> & ->).
  { apply app_eq_inv in E as [(k & -> & E)|(k & -> & E)]; [eauto|]. destruct k as [|e' k].
    - exists []. rewrite !app_nil_r. done.
    - cbn in E. simplify_eq. apply persistBlocks_no_graph in Hb. apply Forall_app in Hb as [_ [Hb _]%Forall_cons].
      by destruct (no_graph_materialized _ _ Hb He). }
  apply persistBlocks_Ok in Hb as (datas & Hd & Ea).
  eapply install_prefix in H as (before & after & Ec & Hi); [|apply cand_copy_same|done|done].
  split; [exists datas; split; [done|]; by rewrite acked_app, (acked_graph _ _ Hi), app_nil_r|].
  intros d Hd' Hdep. assert (d ∈ before) as Hin by (eapply validate_order; eauto).
  apply list_elem_of_lookup in Hin as [n Hn]. eapply Forall2_lookup_l in Hi as (e' & He' & got & Hg & Et); [|done].
  exists e', got. split_and!; [|done|done]. apply elem_of_app. right. by eapply list_elem_of_lookup_2.
Qed.
End Persisting.

(** ** Which candidates a plan contains *)
Section Planning.
Context {L : CidLib} {CA : CandidateLib} {BL : BatchLib}.

(** A root that the plan must install: staged here, and not an installed
    before-image of the source. *)
Definition fresh_root (s : Staging) (k : string) (c : Candidate) : Prop :=
  k ∉ st_sourceRoots s /\ staged s k = Some c.

Inductive needs (s : Staging) (start : string) : string -> Prop :=
  | needs_start c : fresh_root s start c -> needs s start start
  | needs_step k c k' c' :
      needs s start k -> fresh_root s k c -> k' ∈ dependencies c -> fresh_root s k' c' -> needs s start k'.

Lemma needs_fresh s start k : needs s start k -> exists c, fresh_root s k c.
Proof. destruct 1; eauto. Qed.

Lemma needs_trans s a b c : needs s a b -> needs s b c -> needs s a c.
Proof. intros Hab. induction 1; [done|]. econstructor; eauto. Qed.

(** Nothing is left to follow from [k]. *)
Definition covered (s : Staging) (seen : gset string) (k : string) : Prop :=
  k ∈ seen \/ forall c, ~ fresh_root s k c.
Definition closed_after (s : Staging) (before after : gset string) : Prop :=
  before ⊆ after /\
  forall k c, k ∈ after -> k ∉ before -> fresh_root s k c -> Forall (covered s after) (dependencies c).

Lemma covered_mono s X Y k : X ⊆ Y -> covered s X k -> covered s Y k.
Proof. intros HXY [H|H]; [left; set_solver|by right]. Qed.

Lemma visit_sound s fuel key needed k :
  k ∈ visit s fuel key needed -> k ∈ needed \/ needs s key k.
Proof.
  revert key needed k. induction fuel as [|fuel IH]; intros key needed k H; [by left|]. cbn [visit] in H.
  case_in H; [by left|]. destruct (staged s key) as [c|] eqn:Es; [|by left]. simplify_guards.
  assert (fresh_root s key c) as Hf by done.
  assert (forall ks acc, ks ⊆ dependencies c -> k ∈ foldl (fun acc k => visit s fuel k acc) acc ks ->
    k ∈ acc \/ needs s key k) as Hfold.
  { induction ks as [|k0 ks IHks]; intros acc Hsub Hk; [by left|]. cbn [foldl] in Hk.
    apply IHks in Hk as [Hk|?]; [|by right|set_solver]. apply IH in Hk as [?|Hk]; [by left|right].
    assert (exists c0, fresh_root s k0 c0) as [c0 Hc0] by (clear -Hk; induction Hk; eauto).
    eapply needs_trans; [|exact Hk]. econstructor; [by econstructor|done|set_solver|done]. }
  apply Hfold in H as [H|?]; [|by right|done]. apply elem_of_union in H as [->%elem_of_singleton|?]; [right|by left].
  by econstructor.
Qed.

(** What is still to visit. *)
Definition unseen (s : Staging) (needed : gset string) : nat := size (dom (st_roots s) ∖ needed).

Lemma unseen_mono s X Y : X ⊆ Y -> unseen s Y <= unseen s X.
Proof. intros H. apply subseteq_size. set_solver. Qed.

Lemma unseen_add s key c needed : staged s key = Some c -> key ∉ needed -> unseen s ({[key]} ∪ needed) < unseen s needed.
Proof.
  intros Hs Hk. apply subset_size. unfold staged in Hs. destruct (st_roots s !! key) as [i|] eqn:E; [|done].
  assert (key ∈ dom (st_roots s)) by (by apply elem_of_dom). set_solver.
Qed.

Lemma fresh_root_fun s k c c' : fresh_root s k c -> fresh_root s k c' -> c = c'.
Proof. intros [_ H1] [_ H2]. congruence. Qed.

Lemma visit_closed s fuel key needed :
  unseen s needed < fuel ->
  covered s (visit s fuel key needed) key /\ closed_after s needed (visit s fuel key needed).
Proof.
  revert key needed. induction fuel as [|fuel IH]; intros key needed Hf; [lia|]. cbn [visit].
  assert (closed_after s needed needed) as Hrefl by (split; set_solver).
  destruct (bool_decide (key ∈ needed)) eqn:E1; cbn [orb]; simplify_guards; [by split; [left|]|].
  destruct (bool_decide (key ∈ st_sourceRoots s)) eqn:E2; simplify_guards.
  { split; [|done]. right. intros c [? _]. done. }
  destruct (staged s key) as [c|] eqn:Es; [|by split; [right; intros c [_ ?]; congruence|]].
  assert (forall ks acc, {[key]} ∪ needed ⊆ acc ->
    let after := foldl (fun acc k => visit s fuel k acc) acc ks in
    Forall (covered s after) ks /\ closed_after s acc after) as Hfold.
  { induction ks as [|k0 ks IHks]; intros acc Hacc; cbn [foldl]; [split; [constructor|split; set_solver]|].
    destruct (IH k0 acc) as [Hc [Hsub Hcl]].
    { pose proof (unseen_add s key c needed Es E1). pose proof (unseen_mono s _ _ Hacc). lia. }
    destruct (IHks (visit s fuel k0 acc)) as [Hcs [Hsub' Hcl']]; [set_solver|].
    split; [constructor; [by eapply covered_mono|done]|]. split; [set_solver|]. intros k c0 Hk Hnk Hfr.
    destruct (decide (k ∈ visit s fuel k0 acc)) as [Hin|Hin]; [|by apply (Hcl' k)].
    eapply Forall_impl; [by apply (Hcl k)|]. intros k1. by apply covered_mono. }
  destruct (Hfold (dependencies c) ({[key]} ∪ needed)) as [Hcs [Hsub Hcl]]; [done|].
  split; [left; set_solver|]. split; [set_solver|]. intros k c0 Hk Hnk Hfr.
  destruct (decide (k = key)) as [->|Hne]; [|apply (Hcl k); set_solver].
  by rewrite (fresh_root_fun s key c0 c) by done.
Qed.

(** The depth-first search finds exactly the roots the final root needs, and
    its fuel is enough. *)
Lemma needed_roots_spec s root k : k ∈ needed_roots s root <-> needs s (cid_text root) k.
Proof.
  unfold needed_roots. split; [by intros [?%elem_of_empty|?]%visit_sound|]. intros H.
  destruct (visit_closed s (visit_fuel s) (cid_text root) ∅) as [Hc [_ Hcl]].
  { unfold visit_fuel, unseen. rewrite difference_empty_L, size_dom. lia. }
  induction H as [c Hf|k c k' c' H IH Hf Hd Hf'].
  - destruct Hc as [|Hc]; [done|]. by destruct (Hc c).
  - specialize (Hcl k c IH (not_elem_of_empty _) Hf). rewrite Forall_forall in Hcl.
    destruct (Hcl k' Hd) as [|Hn]; [done|]. by destruct (Hn c').
Qed.

(** ** The histories of a staging area *)
Inductive stages : Staging -> Prop :=
  | stages_new : stages NewStaging
  | stages_block s key : stages s -> stages (stage_block key s)
  | stages_read s source root : stages s -> stages (AuthenticationCandidate source root s).2
  | stages_materialize s cancelled c : stages s -> stages (MaterializeAuthentication cancelled c s).2.

Record staging_ok (s : Staging) : Prop := {
  so_index : forall k i, st_roots s !! k = Some i -> exists c, st_candidates s !! i = Some c /\ cand_Root c = k;
  so_root : forall i c, st_candidates s !! i = Some c -> st_roots s !! cand_Root c = Some i;
  so_keys : NoDup (st_keys s)
}.

Context {BW : BatchLaws}.

Lemma materialize_ok s cancelled c : staging_ok s -> staging_ok (MaterializeAuthentication cancelled c s).2.
Proof.
  intros Hs. unfold MaterializeAuthentication. destruct (mbind _ _) as [[root s']|e] eqn:E; [|done]. cbn.
  simplify_result. case_bool_decide as Hn; simplify_result; [done|].
  match goal with H : cand_copy _ = Ok _ |- _ => apply cand_copy_same in H as -> end.
  apply eq_None_not_Some in Hn. destruct Hs as [Hi Hro Hk]. split; cbn; [| |done].
  - intros k i [[<- <-]|[Hne (c' & Hc' & <-)%Hi]]%lookup_insert_Some.
    + exists c. by rewrite list_lookup_middle.
    + exists c'. split; [|done]. by apply lookup_app_l_Some.
  - intros i c' [Hl|[Hge Hl]]%lookup_app_Some.
    + rewrite lookup_insert_ne; [by apply Hro|]. intros E. apply Hro in Hl. congruence.
    + apply list_lookup_singleton_Some in Hl as [Hl <-]. rewrite lookup_insert_eq. f_equal. lia.
Qed.

Lemma stages_ok s : stages s -> staging_ok s.
Proof.
  induction 1 as [|s key _ [Hi Hr Hk]|s source root _ Hs|s cancelled c _ Hs].
  - by split; cbn; [intros ?? ?%lookup_empty_Some| |constructor].
  - unfold stage_block. case_bool_decide as Hin; [done|]. split; cbn; [done|done|].
    apply NoDup_app. split_and!; [done| |apply NoDup_singleton]. intros x Hx ->%list_elem_of_singleton. done.
  - unfold AuthenticationCandidate. destruct source as [get|]; [|done].
    destruct (get root) as [[c|]|]; [|done|done]. case_match; [done|]. destruct Hs. by split.
  - by apply materialize_ok.
Qed.

Lemma staged_candidate s c : staging_ok s -> c ∈ st_candidates s <-> staged s (cand_Root c) = Some c.
Proof.
  intros [Hi Hr _]. unfold staged. split.
  - intros [i Hl]%list_elem_of_lookup. by rewrite (Hr _ _ Hl).
  - destruct (st_roots s !! cand_Root c) as [i|]; [|done]. cbn. by intros ?%list_elem_of_lookup_2.
Qed.

Lemma mapM_copy l l' : mapM cand_copy l = Ok l' -> l' = l.
Proof.
  intros H%mapM_Forall2. induction H as [|c c' l l' Hc _ ->]; [done|]. by apply cand_copy_same in Hc as ->.
Qed.

(** C8. A plan made from a staging area contains exactly the staged candidates
    that the final root transitively depends on (its previous versions and
    targets), without those of installed before-images and without superseded
    provisional states; the dependencies that it installs come first, no root
    is installed twice, and its blocks are the staged ones. *)
Theorem plan_is_dependency_closed s base root p :
  stages s -> stage_Plan base root s = Ok p ->
  (forall c, c ∈ pl_Candidates p <-> staged s (cand_Root c) = Some c /\ needs s (cid_text root) (cand_Root c)) /\
  (forall before c after d, pl_Candidates p = before ++ c :: after -> d ∈ pl_Candidates p ->
     cand_Root d ∈ dependencies c -> d ∈ before) /\
  NoDup (cand_Root <$> pl_Candidates p) /\ blk_CID <$> pl_Blocks p = Some <$> st_keys s.
Proof.
  intros Hs%stages_ok H. unfold stage_Plan in H. simplify_result.
  match goal with H : mapM _ _ = Ok _ |- _ => apply mapM_copy in H as -> end.
  match goal with H : validate _ = Ok ?u |- _ => destruct u; pose proof H as Hv end. cbn [pl_Candidates pl_Blocks].
  split_and!.
  - intros c. rewrite list_elem_of_filter, needed_roots_spec, staged_candidate by done. naive_solver.
  - intros before c after d E Hd. by eapply (validate_order _ before c after d Hv).
  - unfold validate in Hv. simplify_result.
    match goal with H : index_candidates _ _ _ = _ |- _ => by apply index_candidates_spec in H as (_ & _ & ? & _) end.
  - by rewrite <- list_fmap_compose.
Qed.
End Planning.
