(* ===== verification/Cas.v ===== *)
(** Content-addressed stores (nodeapi/block.go, internal/cas, transport/hybrid,
    transport/local, application/add/add_cas_batch.go).

    A store is a record of actions on the state of whatever lies behind it,
    with an option for each interface that a Go value may or may not
    implement; [None] is the undefined CID.  A wrapper such as
    [VerifyingReader] is a function from stores to stores, so a theorem about a
    wrapper over an arbitrary store and state holds for any untrusted peer. *)

From stdpp Require Import base decidable gmap strings list.
From Stdlib Require Import Ascii ZArith.
From S2P Require Import Prelude Effect GoText CidLib Cache WritePlan.

Definition ErrNotFound := ErrorsNew "cas: block not found".
Definition ErrCorruptedBlock := ErrorsNew "cas: returned block does not match requested CID".
Definition errReadOnlyCAS := ErrorsNew "cas: underlying reader does not support writes".

(** What the stores call of go-cid and go-multihash. *)
Class BlockLib {L : CidLib} := {
  (** [mh.Sum(data, mh.SHA2_256, -1)], with [None] for its error. *)
  mh_Sum : body -> option (list ascii);
  (** [cid.NewCidV1]. *)
  NewCidV1 : N -> list ascii -> Cid;
  (** [c.Prefix().Codec] and [c.Type()]. *)
  cid_Type : Cid -> N;
  (** The digest of [mh.Decode(c.Hash())], empty when it fails. *)
  cid_Digest : Cid -> list ascii
}.

(** Documented behaviour: the prefix of a version 1 CID holds its codec and
    hash function, so it computes the same CID for the same bytes. *)
Class BlockLaws {L : CidLib} (B : BlockLib) : Prop := {
  v1_Sum : forall codec data h, mh_Sum data = Some h -> cid_Sum (NewCidV1 codec h) data = Some (NewCidV1 codec h)
}.

(** [cid.Raw]. *)
Definition Raw : N := 0x55.

Definition NormalizeCodec (codec : N) : N := if bool_decide (codec = 0%N) then Raw else codec.

Section Blocks.
Context {L : CidLib} {BK : BlockLib}.

Definition CIDForBlock (block : CasBlock) : result Cid :=
  let codec := if bool_decide (cb_Codec block = 0%N) then Raw else cb_Codec block in
  hash ← or_err (mh_Sum (cb_Data block)) (Errorf "multihash");
  Ok (NewCidV1 codec hash).

(** ** Stores *)
Record Store (St : Type) := mkStore {
  st_Get : option Cid -> Act St body;
  st_Has : option Cid -> Act St bool;
  (** The interfaces Writer, TypedWriter, BatchReader and BatchWriter. *)
  st_Put : option (body -> Act St (option Cid));
  st_PutWithCodec : option (body -> N -> Act St (option Cid));
  st_HasBatch : option (list (option Cid) -> Act St (list bool));
  st_PutBatch : option (list CasBlock -> Act St (list PutResult))
}.
#[global] Arguments mkStore {St} st_Get st_Has st_Put st_PutWithCodec st_HasBatch st_PutBatch.
#[global] Arguments st_Get {St} s.
#[global] Arguments st_Has {St} s.
#[global] Arguments st_Put {St} s.
#[global] Arguments st_PutWithCodec {St} s.
#[global] Arguments st_HasBatch {St} s.
#[global] Arguments st_PutBatch {St} s.

Definition corrupted (text : string) : error := Wrapf text ErrCorruptedBlock.

(** ** internal/cas/cas.go *)
Section Generic.
Context {St : Type}.

Definition put_block (writer : Store St) (put : body -> Act St (option Cid)) (block : CasBlock) : Act St PutResult :=
  let codec := NormalizeCodec (cb_Codec block) in
  blockCID ← (if bool_decide (codec = Raw) then put (cb_Data block) else
                match st_PutWithCodec writer with
                | Some typed => typed (cb_Data block) codec
                | None => pure (Err (Errorf "writer does not implement cas.TypedWriter"))
                end);
  mret (mkPutResult blockCID PutStatusStored).

(** [writer] implements Writer, with [put]. *)
Definition PutBlocks (writer : Store St) (put : body -> Act St (option Cid)) (blocks : list CasBlock)
    : Act St (list PutResult) :=
  match blocks, st_PutBatch writer with
  | [], _ => mret []
  | _, Some batch =>
      results ← batch blocks;
      _ ← pure (fail_if (negb (length results =? length blocks)) (Errorf "batch writer returned a wrong number of results"));
      mret results
  | _, None => each (put_block writer put) blocks
  end.

(** ** internal/cas/verifying.go *)
Definition cidForData (want : Cid) (data : body) : result Cid := or_err (cid_Sum want data) (Errorf "sum").

Definition check_body (c : Cid) (data : body) : result body :=
  match cidForData c data with
  | Err _ => Err (corrupted "sum")
  | Ok got => _ ← fail_if (negb (bool_decide (got = c))) (corrupted "got"); Ok data
  end.

Definition v_Get (inner : Store St) (c : option Cid) : Act St body :=
  match c with
  | None => pure (Err (corrupted "undefined CID"))
  | Some key => data ← st_Get inner c; pure (check_body key data)
  end.

Definition v_Has (inner : Store St) (c : option Cid) : Act St bool :=
  match c with
  | None => pure (Err (corrupted "undefined CID"))
  | Some _ => st_Has inner c
  end.

Definition check_defined (text : string) (cids : list (option Cid)) : result unit :=
  fail_if (bool_decide (None ∈ cids)) (corrupted text).

Definition v_HasBatch (inner : Store St) (cids : list (option Cid)) : Act St (list bool) :=
  match cids with
  | [] => mret []
  | _ =>
      _ ← pure (check_defined "batch CID is undefined" cids);
      match st_HasBatch inner with
      | Some hasBatch =>
          results ← hasBatch cids;
          _ ← pure (fail_if (negb (length results =? length cids)) (corrupted "reader returned a wrong number of results"));
          mret results
      | None => each (v_Has inner) cids
      end
  end.

Definition verifyPutResult (got : option Cid) (data : body) (requestedCodec : N) : result (option Cid) :=
  match got with
  | None => Err (corrupted "writer returned undefined CID")
  | Some _ =>
      match CIDForBlock (mkCasBlock data requestedCodec) with
      | Err _ => Err (corrupted "canonical CID")
      | Ok want => _ ← fail_if (negb (bool_decide (Some want = got))) (corrupted "writer returned another CID"); Ok got
      end
  end.

Definition v_Put (inner : Store St) (data : body) : Act St (option Cid) :=
  match st_Put inner with
  | None => pure (Err errReadOnlyCAS)
  | Some put => got ← put data; pure (verifyPutResult got data Raw)
  end.

Definition v_PutWithCodec (inner : Store St) (data : body) (codec : N) : Act St (option Cid) :=
  match st_PutWithCodec inner with
  | Some typed => got ← typed data codec; pure (verifyPutResult got data codec)
  | None => if bool_decide (NormalizeCodec codec = Raw) then v_Put inner data else pure (Err errReadOnlyCAS)
  end.

Definition verify_result (block : CasBlock) (r : PutResult) : result unit :=
  _ ← wrap_err "batch result" (verifyPutResult (pr_CID r) (cb_Data block) (cb_Codec block));
  fail_if (negb (IsValidPutStatus (pr_Status r))) (corrupted "unsupported status").

Fixpoint verify_results (blocks : list CasBlock) (results : list PutResult) : result unit :=
  match blocks, results with
  | block :: blocks, r :: results => _ ← verify_result block r; verify_results blocks results
  | _, _ => Ok ()
  end.

Definition verifyBatchResults (blocks : list CasBlock) (results : list PutResult) : result unit :=
  _ ← fail_if (negb (length results =? length blocks)) (corrupted "writer returned a wrong number of results");
  verify_results blocks results.

Definition v_put_one (inner : Store St) (b : CasBlock) : Act St PutResult :=
  got ← v_PutWithCodec inner (cb_Data b) (NormalizeCodec (cb_Codec b));
  mret (mkPutResult got PutStatusStored).

Definition v_PutBatch (inner : Store St) (blocks : list CasBlock) : Act St (list PutResult) :=
  match blocks with
  | [] => mret []
  | _ =>
      match st_PutBatch inner, st_Put inner with
      | Some batch, _ =>
          results ← batch blocks;
          _ ← pure (verifyBatchResults blocks results);
          mret results
      | None, None => pure (Err errReadOnlyCAS)
      | None, Some _ => each (v_put_one inner) blocks
      end
  end.

Definition VerifyingReader (inner : Store St) : Store St :=
  mkStore (v_Get inner) (v_Has inner) (Some (v_Put inner)) (Some (v_PutWithCodec inner))
    (Some (v_HasBatch inner)) (Some (v_PutBatch inner)).
End Generic.

(** ** internal/cas/memory/store.go

    [cancelled t] is [ctx.Err()] at its [t]-th evaluation. *)
Section Memory.
Context (cancelled : nat -> option error).

Record memory := mkMemory { me_blocks : gmap string body; me_tick : nat }.

Definition mem_ctx : Act memory unit := fun s =>
  (match cancelled (me_tick s) with Some e => Err e | None => Ok () end, mkMemory (me_blocks s) (S (me_tick s))).

Definition mem_Get (c : option Cid) : Act memory body :=
  _ ← mem_ctx;
  match c with
  | None => pure (Err (corrupted "undefined CID"))
  | Some c => reads (fun s => or_err (me_blocks s !! cid_String c) (Wrapf "block" ErrNotFound))
  end.

Definition mem_Has (c : option Cid) : Act memory bool :=
  _ ← mem_ctx;
  match c with
  | None => pure (Err (corrupted "undefined CID"))
  | Some c => reads (fun s => Ok (bool_decide (is_Some (me_blocks s !! cid_String c))))
  end.

Definition mem_PutWithCodec (data : body) (codec : N) : Act memory (option Cid) :=
  _ ← mem_ctx;
  c ← pure (CIDForBlock (mkCasBlock data codec));
  _ ← modify (fun s => mkMemory (<[cid_String c := data]> (me_blocks s)) (me_tick s));
  mret (Some c).

Definition mem_Put (data : body) : Act memory (option Cid) := mem_PutWithCodec data Raw.

Definition Memory : Store memory := mkStore mem_Get mem_Has (Some mem_Put) (Some mem_PutWithCodec) None None.
End Memory.

(** ** internal/cas/spool/store.go

    The directory holds one file per block.  [sio t] says
    what the system calls of the [t]-th method call answer: what remains on the
    disk of a write that fails, and whether the removal after a failure works. *)
Section Spool.
Record spool_io := mkSpoolIo {
  si_ctx : option error; si_open : option error; si_write : option (error * body); si_close : option error;
  si_remove : bool; si_read : option error
}.
Context (sio : nat -> spool_io).

Definition maxBlockBytes : N := 64 * 2 ^ 20.

Record spool := mkSpool { sp_files : gmap string body; sp_tick : nat }.

Definition spool_call : Act spool spool_io := fun s => (Ok (sio (sp_tick s)), mkSpool (sp_files s) (S (sp_tick s))).
Definition write_file (name : string) (data : body) (s : spool) : spool := mkSpool (<[name := data]> (sp_files s)) (sp_tick s).
Definition remove_file (io : spool_io) (name : string) (s : spool) : spool :=
  mkSpool (if si_remove io then base.delete name (sp_files s) else sp_files s) (sp_tick s).

Definition err_of (o : option error) : result unit := match o with Some e => Err e | None => Ok () end.

Definition spool_write (io : spool_io) (key : Cid) (data : body) : Act spool (option Cid) := fun s =>
  match si_open io, sp_files s !! cid_String key with
  | Some e, _ => (Err e, s)
  | None, Some _ => (Ok (Some key), s)
  | None, None =>
      match si_write io, si_close io with
      | Some (e, partial), _ => (Err e, remove_file io (cid_String key) (write_file (cid_String key) partial s))
      | None, Some e => (Err e, remove_file io (cid_String key) (write_file (cid_String key) data s))
      | None, None => (Ok (Some key), write_file (cid_String key) data s)
      end
  end.

Definition spool_PutWithCodec (data : body) (codec : N) : Act spool (option Cid) :=
  io ← spool_call;
  _ ← pure (err_of (si_ctx io));
  _ ← pure (fail_if (maxBlockBytes <? N.of_nat (length data))%N (Errorf "snapshot spool block is invalid"));
  key ← pure (CIDForBlock (mkCasBlock data codec));
  spool_write io key data.

Definition spool_Put (data : body) : Act spool (option Cid) := spool_PutWithCodec data Raw.

Definition spool_Get (c : option Cid) : Act spool body :=
  io ← spool_call;
  _ ← pure (err_of (si_ctx io));
  match c with
  | None => pure (Err (Errorf "snapshot spool block identity is invalid"))
  | Some key => reads (fun s =>
      _ ← err_of (si_read io);
      data ← or_err (sp_files s !! cid_String key) (Errorf "file does not exist");
      _ ← fail_if (maxBlockBytes <? N.of_nat (length data))%N (Errorf "snapshot spool block exceeds");
      computed ← CIDForBlock (mkCasBlock data (cid_Type key));
      _ ← fail_if (negb (bool_decide (computed = key))) (Errorf "snapshot spool block bytes do not match CID");
      Ok data)
  end.
End Spool.
End Blocks.
