(* ===== verification/CasStacks.v ===== *)
(** Stores built over others: the hybrid of an authoritative store and a cache
    (transport/hybrid/cas.go), the durable local store over a platform
    directory (transport/local/cas.go) with its Unix platform
    (transport/local/platform_unix.go), and the deduplicating batcher of the
    add workflow (application/add/add_cas_batch.go). *)

From stdpp Require Import base decidable gmap strings list.
From Stdlib Require Import Ascii ZArith.
From S2P Require Import Prelude Effect GoText CidLib Cache WritePlan Cas.

Section Stacks.
Context {L : CidLib} {BK : BlockLib}.

(** ** Hybrid

    Both stores act on one state; [ctx] is [ctx.Err()] and [observe] the
    optional callback for cache failures. *)
Section Hybrid.
Context {St : Type} (ctx : Act St unit) (observe : option (error -> Act St unit)).

(** A store that implements nodeapi.CAS. *)
Record NodeCAS := mkNodeCAS {
  nc_Get : option Cid -> Act St body;
  nc_Has : option Cid -> Act St bool;
  nc_Put : body -> Act St (option Cid);
  nc_PutWithCodec : body -> N -> Act St (option Cid);
  nc_HasBatch : option (list (option Cid) -> Act St (list bool));
  nc_PutBatch : option (list CasBlock -> Act St (list PutResult))
}.
Definition as_store (c : NodeCAS) : Store St :=
  mkStore (nc_Get c) (nc_Has c) (Some (nc_Put c)) (Some (nc_PutWithCodec c)) (nc_HasBatch c) (nc_PutBatch c).

Context (primary cache : NodeCAS).

Definition observeCacheError (e : error) : Act St unit :=
  match observe with
  | Some f => fun s => (Ok (), (f e s).2)
  | None => mret ()
  end.

Definition fill (want : Cid) (data : body) (codec : N) : Act St unit :=
  cancelled ← outcome ctx;
  match cancelled with
  | Err _ => mret ()
  | Ok _ =>
      answer ← outcome (nc_PutWithCodec cache data codec);
      match answer with
      | Err e => observeCacheError e
      | Ok got => if bool_decide (got = Some want) then mret () else observeCacheError (corrupted "hybrid cache returned another CID")
      end
  end.

Definition verifiedGet (source : NodeCAS) (key : Cid) : Act St body :=
  data ← nc_Get source (Some key);
  pure (_ ← fail_if (negb (bool_decide (cid_Sum key data = Some key))) (corrupted "hybrid source body does not match"); Ok data).

Definition h_PutWithCodec (data : body) (codec : N) : Act St (option Cid) :=
  want ← pure (CIDForBlock (mkCasBlock data codec));
  got ← nc_PutWithCodec primary data codec;
  _ ← pure (fail_if (negb (bool_decide (got = Some want))) (corrupted "hybrid primary returned another CID"));
  _ ← fill want data codec;
  mret (Some want).

Definition h_Put (data : body) : Act St (option Cid) := h_PutWithCodec data Raw.

(** Read the primary and fill the cache. *)
Definition h_read_through (key : Cid) : Act St body :=
  data ← verifiedGet primary key;
  _ ← fill key data (cid_Type key);
  mret data.

Definition h_Get (c : option Cid) : Act St body :=
  match c with
  | None => pure (Err (corrupted "hybrid CAS key is undefined"))
  | Some key =>
      hit ← outcome (verifiedGet cache key);
      match hit with
      | Ok data => mret data
      | Err e =>
          _ ← (if errors_Is e ErrNotFound then mret () else observeCacheError e);
          _ ← ctx;
          h_read_through key
      end
  end.

Definition h_Has (c : option Cid) : Act St bool :=
  match c with
  | None => pure (Err (corrupted "hybrid CAS key is undefined"))
  | Some _ => nc_Has primary c
  end.

Fixpoint fill_results (blocks : list CasBlock) (results : list PutResult) : Act St unit :=
  match blocks, results with
  | block :: blocks, r :: results =>
      _ ← pure (fail_if (negb (IsValidPutStatus (pr_Status r))) (corrupted "unsupported status"));
      _ ← (match pr_CID r with Some want => fill want (cb_Data block) (cb_Codec block) | None => mret () end);
      fill_results blocks results
  | _, _ => mret ()
  end.

Definition h_PutBatch (blocks : list CasBlock) : Act St (list PutResult) :=
  match blocks with
  | [] => mret []
  | _ =>
      results ← v_PutBatch (as_store primary) blocks;
      _ ← fill_results blocks results;
      mret results
  end.

Definition h_HasBatch (keys : list (option Cid)) : Act St (list bool) :=
  match keys with
  | [] => mret []
  | _ =>
      _ ← pure (check_defined "hybrid CAS batch CID is undefined" keys);
      match nc_HasBatch primary with
      | Some batch =>
          answer ← batch keys;
          _ ← pure (fail_if (negb (length answer =? length keys)) (corrupted "hybrid primary returned a wrong number of results"));
          mret answer
      | None => each (nc_Has primary) keys
      end
  end.

Definition Hybrid : NodeCAS := mkNodeCAS h_Get h_Has h_Put h_PutWithCodec (Some h_HasBatch) (Some h_PutBatch).
End Hybrid.

(** ** Local store

    The platform directory is a record of actions on its own state; the state
    of the store adds the flag of the first [Close] and whether the platform
    owner is still held. *)
Section Local.
Context {PSt : Type}.

Record blockStore := mkBlockStore {
  pf_readBlock : string -> string -> Z -> Act PSt body;
  pf_writeBlock : string -> string -> body -> Act PSt unit;
  pf_ensureDurable : string -> Act PSt unit;
  pf_close : Act PSt unit
}.

Definition MaxInt64 : Z := 2 ^ 63 - 1.
Definition DefaultMaxBlockBytes : Z := 64 * 2 ^ 20.
Definition DefaultMaxBatchBytes : Z := 64 * 2 ^ 20.
Definition DefaultMaxBatchBlocks : Z := 4096.
Definition errCASClosed := ErrorsNew "local CAS is closed".

Record limits := mkLimits { li_BlockBytes : Z; li_BatchBytes : Z; li_BatchBlocks : Z }.

Definition or_default (x d : Z) : Z := if bool_decide (x = 0%Z) then d else x.

(** The limits that [Open] settles on. *)
Definition open_limits (o : limits) : result limits :=
  let block := or_default (li_BlockBytes o) DefaultMaxBlockBytes in
  let batch := or_default (li_BatchBytes o) DefaultMaxBatchBytes in
  let blocks := or_default (li_BatchBlocks o) DefaultMaxBatchBlocks in
  _ ← fail_if ((block <? 1)%Z || bool_decide (block = MaxInt64)) (Errorf "local CAS max block bytes");
  _ ← fail_if ((batch <? 1)%Z || bool_decide (batch = MaxInt64)) (Errorf "local CAS max batch bytes");
  _ ← fail_if (blocks <? 1)%Z (Errorf "local CAS max batch blocks must be positive");
  Ok (mkLimits block batch blocks).

Record local := mkLocal { lo_terminal : bool; lo_platform : bool; lo_world : PSt }.

Context (platform : blockStore) (lim : limits) (ctx : Act PSt unit).

Definition on_platform {A} (m : Act PSt A) : Act local A := fun s =>
  let '(r, w) := m (lo_world s) in (r, mkLocal (lo_terminal s) (lo_platform s) w).
Definition ctx_now : Act local unit := on_platform ctx.

Definition ready : Act local unit := fun s =>
  (if lo_terminal s then Err errCASClosed else
     fail_if (negb (lo_platform s)) (Errorf "local CAS is nil or uninitialized"), s).

Definition hexadecimal (n : nat) : ascii := nth n (bytes "0123456789abcdef") "0"%char.

Definition blockIdentity (key : Cid) : string * string :=
  let shard :=
    match cid_Digest key with
    | [] => "00"
    | d :: _ => let n := nat_of_ascii d in of_bytes [hexadecimal (n / 16); hexadecimal (n mod 16)]
    end in
  (shard, cid_String key +:+ ".block").

Definition readBlock (c : option Cid) : Act local body :=
  _ ← ctx_now;
  match c with
  | None => pure (Err (corrupted "local CAS key is undefined"))
  | Some key =>
      let '(shard, name) := blockIdentity key in
      data ← on_platform (pf_readBlock platform shard name (li_BlockBytes lim));
      _ ← ctx_now;
      pure (_ ← fail_if (negb (bool_decide (cid_Sum key data = Some key))) (corrupted "local CAS body does not match"); Ok data)
  end.

(** Write the block, read it back and make it durable. *)
Definition install_block (key : Cid) (data : body) : Act local string :=
  let '(shard, name) := blockIdentity key in
  _ ← on_platform (pf_writeBlock platform shard name data);
  _ ← wrapped "verify installed local CAS block" (readBlock (Some key));
  _ ← wrapped "confirm installed local CAS block durability" (on_platform (pf_ensureDurable platform shard));
  mret PutStatusStored.

Definition putLocked (key : Cid) (data : body) : Act local string :=
  present ← outcome (readBlock (Some key));
  match present with
  | Ok _ =>
      _ ← wrapped "confirm existing local CAS block durability"
            (on_platform (pf_ensureDurable platform (blockIdentity key).1));
      mret PutStatusAlreadyPresent
  | Err e =>
      if negb (errors_Is e ErrNotFound) && negb (errors_Is e ErrCorruptedBlock) then pure (Err e)
      else install_block key data
  end.

Definition l_PutWithCodec (data : body) (codec : N) : Act local (option Cid) :=
  _ ← ready;
  _ ← ctx_now;
  _ ← pure (fail_if (li_BlockBytes lim <? Z.of_nat (length data))%Z (Errorf "local CAS block exceeds"));
  key ← pure (wrap_err "compute local CAS CID" (CIDForBlock (mkCasBlock data codec)));
  _ ← putLocked key data;
  mret (Some key).

Definition l_Put (data : body) : Act local (option Cid) := l_PutWithCodec data Raw.

Definition l_Get (c : option Cid) : Act local body := _ ← ready; readBlock c.

Definition l_Has (c : option Cid) : Act local bool :=
  _ ← ready;
  answer ← outcome (readBlock c);
  match answer with
  | Ok _ => mret true
  | Err e => if errors_Is e ErrNotFound then mret false else pure (Err e)
  end.

(** The first loop of [PutBatch]: sizes and keys. *)
Fixpoint batch_keys (total : Z) (blocks : list CasBlock) : result (list Cid) :=
  match blocks with
  | [] => Ok []
  | block :: rest =>
      let size := Z.of_nat (length (cb_Data block)) in
      _ ← fail_if ((li_BlockBytes lim <? size)%Z || (li_BatchBytes lim - size <? total)%Z) (Errorf "local CAS batch exceeds");
      key ← wrap_err "compute local CAS batch CID" (CIDForBlock block);
      keys ← batch_keys (total + size) rest;
      Ok (key :: keys)
  end.

Fixpoint put_each (seen : gset string) (blocks : list (Cid * CasBlock)) : Act local (list PutResult) :=
  match blocks with
  | [] => mret []
  | (key, block) :: rest =>
      _ ← ctx_now;
      if bool_decide (cid_String key ∈ seen) then
        results ← put_each seen rest;
        mret (mkPutResult (Some key) PutStatusDuplicateInRequest :: results)
      else
        status ← wrapped "store local CAS batch block" (putLocked key (cb_Data block));
        results ← put_each ({[cid_String key]} ∪ seen) rest;
        mret (mkPutResult (Some key) status :: results)
  end.

Definition l_PutBatch (blocks : list CasBlock) : Act local (list PutResult) :=
  _ ← ready;
  _ ← ctx_now;
  match blocks with
  | [] => mret []
  | _ =>
      _ ← pure (fail_if (li_BatchBlocks lim <? Z.of_nat (length blocks))%Z (Errorf "local CAS batch exceeds blocks"));
      keys ← pure (batch_keys 0 blocks);
      put_each ∅ (zip keys blocks)
  end.

Definition l_HasBatch (keys : list (option Cid)) : Act local (list bool) :=
  _ ← ready;
  _ ← ctx_now;
  match keys with
  | [] => mret []
  | _ =>
      _ ← pure (fail_if (li_BatchBlocks lim <? Z.of_nat (length keys))%Z (Errorf "local CAS has batch exceeds CIDs"));
      _ ← pure (check_defined "local CAS batch CID is undefined" keys);
      each l_Has keys
  end.

Definition l_Close : Act local unit := fun s =>
  if lo_platform s then
    let '(r, w) := pf_close platform (lo_world s) in
    (r, mkLocal true (negb (is_ok r)) w)
  else (Ok (), mkLocal true false (lo_world s)).

Definition Local_CAS : NodeCAS := mkNodeCAS l_Get l_Has l_Put l_PutWithCodec (Some l_HasBatch) (Some l_PutBatch).
End Local.

(** ** The Unix platform of the local store (transport/local/platform_unix.go)

    The state is what the blocks directory holds: shards with the metadata and
    the files that the code inspects, and which of the two pinned handles are
    open.  The environment decides which system call fails, what [ctx.Err()]
    answers, the random bytes of temporary names and how much one [Write]
    takes.  Descriptors of shards and files are named by what they were opened
    on: no other process renames entries during one call. *)
Section Unix.

Inductive file_kind := KRegular | KDirectory | KSymlink | KSocket | KOther.
#[global] Instance file_kind_eq : EqDecision file_kind.
Proof. solve_decision. Defined.

Record inode := mkInode { in_kind : file_kind; in_links : Z; in_mode : Z; in_uid : Z; in_data : body }.
Record shard_dir := mkShard { sd_kind : file_kind; sd_mode : Z; sd_uid : Z; sd_files : gmap string inode }.
Record platformStore := mkUnix { ux_shards : gmap string shard_dir; ux_blocks : bool; ux_root : bool; ux_tick : nat }.

Record uenv := mkUEnv {
  ue_fail : nat -> option error; ue_ctx : nat -> option error; ue_nofile : nat -> bool;
  ue_random : nat -> result (list ascii); ue_written : nat -> nat; ue_euid : Z; ue_umask : Z
}.
Context (E : uenv).

Definition ENOENT := ErrorsNew "no such file or directory".
Definition EEXIST := ErrorsNew "file exists".
Definition ELOOP := ErrorsNew "too many levels of symbolic links".
Definition ENOTDIR := ErrorsNew "not a directory".
Definition EISDIR := ErrorsNew "is a directory".
Definition EACCES := ErrorsNew "permission denied".
Definition EPERM := ErrorsNew "operation not permitted".
Definition ENXIO := ErrorsNew "no such device or address".
Definition ENODEV := ErrorsNew "no such device".
Definition ErrShortWrite := ErrorsNew "short write".

Definition ux_ticked (w : platformStore) : platformStore := mkUnix (ux_shards w) (ux_blocks w) (ux_root w) (S (ux_tick w)).
Definition with_shards (f : gmap string shard_dir -> gmap string shard_dir) (w : platformStore) : platformStore :=
  mkUnix (f (ux_shards w)) (ux_blocks w) (ux_root w) (ux_tick w).
Definition with_file (shard name : string) (f : option inode -> option inode) : platformStore -> platformStore :=
  with_shards (alter (fun d => mkShard (sd_kind d) (sd_mode d) (sd_uid d) (partial_alter f name (sd_files d))) shard).

(** A system call: it fails and changes nothing, or takes effect. *)
Definition call {A} (act : Act platformStore A) : Act platformStore A := fun w =>
  match ue_fail E (ux_tick w) with Some e => (Err e, ux_ticked w) | None => act (ux_ticked w) end.
Definition find_shard (shard : string) (w : platformStore) : result shard_dir := or_err (ux_shards w !! shard) ENOENT.
Definition find_file (shard name : string) (w : platformStore) : result inode :=
  d ← find_shard shard w; or_err (sd_files d !! name) ENOENT.

Definition u_ctx : Act platformStore unit := fun w =>
  (match ue_ctx E (ux_tick w) with Some e => Err e | None => Ok () end, ux_ticked w).
(** [os.NewFile] returned nil. *)
Definition no_handle : Act platformStore bool := fun w => (Ok (ue_nofile E (ux_tick w)), ux_ticked w).
(** [Sync] of a directory and [Close]: the entries stay. *)
Definition flushed : Act platformStore unit := call (pure (Ok ())).

Definition mkdirat (shard : string) : Act platformStore unit := call (fun w =>
  match ux_shards w !! shard with
  | Some _ => (Err EEXIST, w)
  | None => (Ok (), with_shards (<[shard := mkShard KDirectory (Z.land 448 (Z.lnot (ue_umask E))) (ue_euid E) ∅]>) w)
  end).
Definition open_directory (shard : string) : Act platformStore unit := call (reads (fun w =>
  d ← find_shard shard w;
  match sd_kind d with KDirectory => Ok () | KSymlink => Err ELOOP | _ => Err ENOTDIR end)).
Definition stat_shard (shard : string) : Act platformStore shard_dir := call (reads (find_shard shard)).
Definition chmod_shard (shard : string) : Act platformStore unit := call (fun w =>
  (Ok (), with_shards (alter (fun d => mkShard (sd_kind d) 448 (sd_uid d) (sd_files d)) shard) w)).

Definition open_file (shard name : string) : Act platformStore unit := call (reads (fun w =>
  f ← find_file shard name w;
  match in_kind f with KSymlink => Err ELOOP | KSocket => Err ENXIO | _ => Ok () end)).
Definition stat_file (shard name : string) : Act platformStore inode := call (reads (find_file shard name)).
(** [io.ReadAll(io.LimitReader(file, limit))]. *)
Definition read_limited (shard name : string) (limit : Z) : Act platformStore body := call (reads (fun w =>
  f ← find_file shard name w; Ok (take (Z.to_nat limit) (in_data f)))).
Definition create_exclusive (shard name : string) : Act platformStore unit := call (fun w =>
  match find_shard shard w with
  | Err e => (Err e, w)
  | Ok d =>
      match sd_files d !! name with
      | Some _ => (Err EEXIST, w)
      | None =>
          (Ok (), with_file shard name (fun _ => Some (mkInode KRegular 1 (Z.land 384 (Z.lnot (ue_umask E))) (ue_euid E) [])) w)
      end
  end).
Definition chmod_file (shard name : string) : Act platformStore unit := call (fun w =>
  (Ok (), with_file shard name (fmap (fun f => mkInode (in_kind f) (in_links f) 384 (in_uid f) (in_data f))) w)).
(** One [Write]: some of the bytes are appended, also when it fails. *)
Definition write_some (shard name : string) (data : body) : Act platformStore nat := fun w =>
  let n := ue_written E (ux_tick w) `min` length data in
  (match ue_fail E (ux_tick w) with Some e => Err e | None => Ok n end,
   with_file shard name (fmap (fun f => mkInode (in_kind f) (in_links f) (in_mode f) (in_uid f) (in_data f ++ take n data))) (ux_ticked w)).
Definition unlinkat (shard name : string) : Act platformStore unit := call (fun w =>
  (_ ← find_file shard name w; Ok (), with_file shard name (fun _ => None) w)).
Definition renameat (shard source target : string) : Act platformStore unit := call (fun w =>
  match find_file shard source w with
  | Err e => (Err e, w)
  | Ok f =>
      match find_file shard target w with
      | Ok (mkInode KDirectory _ _ _ _) => (Err EISDIR, w)
      | _ => (Ok (), with_file shard target (fun _ => Some f) (with_file shard source (fun _ => None) w))
      end
  end).

Definition unsafeUnixBlockMetadata (f : inode) : bool :=
  negb (bool_decide (in_kind f = KRegular)) || (1 <? in_links f)%Z || negb (Z.land (in_mode f) 511 =? 384)%Z ||
  negb (in_uid f =? ue_euid E)%Z.
Definition unsafeUnixShardMetadata (d : shard_dir) : bool :=
  negb (bool_decide (sd_kind d = KDirectory)) || negb (Z.land (sd_mode d) 511 =? 448)%Z || negb (sd_uid d =? ue_euid E)%Z.

Definition requireUnixDirectory (shard : string) : Act platformStore unit :=
  d ← wrapped "inspect local CAS shard" (stat_shard shard);
  _ ← pure (fail_if (negb (bool_decide (sd_kind d = KDirectory))) (Errorf "local CAS shard is not a directory"));
  pure (fail_if (negb (sd_uid d =? ue_euid E)%Z) (Errorf "local CAS shard is not owned by the current user")).

(** [fmt.Errorf("%w: %v", nodeapi.ErrCorruptedBlock, err)]. *)
Definition as_corrupted {A} (m : Act platformStore A) : Act platformStore A := fun w =>
  match m w with (Ok a, w') => (Ok a, w') | (Err _, w') => (Err (corrupted "directory"), w') end.

(** The error of [openShard] when the shard cannot be opened. *)
Definition openShard_error (shard : string) (create : bool) (e : error) : Act platformStore unit :=
  let absent := Err (Wrapf "local CAS shard is absent" ErrNotFound) in
  let other := Err (Wrapf "open local CAS shard without following links" e) in
  if errors_Is e ENOENT && negb create then pure absent else
  if errors_Is e ELOOP || errors_Is e ENOTDIR then pure (Err (corrupted "local CAS shard path is unsafe")) else
  if errors_Is e EACCES || errors_Is e EPERM then
    inspected ← outcome (stat_shard shard);
    pure match inspected with
         | Ok d => if unsafeUnixShardMetadata d then Err (corrupted "local CAS shard is not safely searchable") else other
         | Err inspectErr => if errors_Is inspectErr ENOENT && negb create then absent else other
         end
  else pure other.

Definition openShard (shard : string) (create : bool) : Act platformStore unit :=
  created ← (if create then
    made ← outcome (mkdirat shard);
    match made with
    | Ok _ => mret true
    | Err e => if errors_Is e EEXIST then mret false else pure (Err (Wrapf "create local CAS shard" e))
    end else mret false);
  opened ← outcome (open_directory shard);
  match opened with
  | Err e => openShard_error shard create e
  | Ok _ =>
      none ← no_handle;
      _ ← pure (fail_if none (Errorf "open local CAS shard handle"));
      _ ← as_corrupted (requireUnixDirectory shard);
      stat ← wrapped "inspect local CAS shard" (stat_shard shard);
      _ ← pure (fail_if (negb created && negb (Z.land (sd_mode stat) 320 =? 320)%Z) (corrupted "local CAS shard is not safely searchable"));
      _ ← (if create then wrapped "protect local CAS shard" (chmod_shard shard)
           else pure (fail_if (negb (Z.land (sd_mode stat) 511 =? 448)%Z) (corrupted "local CAS shard is not owner-private")));
      if create then wrapped "sync local CAS blocks directory" flushed else mret ()
  end.

(** The error of [readBlock] when the block cannot be opened. *)
Definition readBlock_error (shard name : string) (e : error) : Act platformStore body :=
  let absent := Err (Wrapf "local CAS block is absent" ErrNotFound) in
  let other := Err (Wrapf "open local CAS block without following links" e) in
  if errors_Is e ENOENT then pure absent else
  if errors_Is e ELOOP || errors_Is e ENOTDIR then pure (Err (corrupted "local CAS block path is unsafe")) else
  if errors_Is e EACCES || errors_Is e EPERM || errors_Is e ENXIO || errors_Is e ENODEV then
    inspected ← outcome (stat_file shard name);
    pure match inspected with
         | Ok f => if unsafeUnixBlockMetadata f then Err (corrupted "local CAS block exists but is unreadable") else other
         | Err inspectErr => if errors_Is inspectErr ENOENT then absent else other
         end
  else pure other.

Definition u_readBlock (shard name : string) (maxBytes : Z) : Act platformStore body :=
  _ ← u_ctx;
  _ ← openShard shard false;
  opened ← outcome (open_file shard name);
  match opened with
  | Err e => readBlock_error shard name e
  | Ok _ =>
      none ← no_handle;
      _ ← pure (fail_if none (Errorf "open local CAS block handle"));
      stat ← wrapped "inspect local CAS block" (stat_file shard name);
      _ ← pure (fail_if (negb (bool_decide (in_kind stat = KRegular)) || (1 <? in_links stat)%Z)
                  (corrupted "local CAS block must be a regular file without additional hard links"));
      _ ← pure (fail_if (negb (Z.land (in_mode stat) 511 =? 384)%Z || negb (in_uid stat =? ue_euid E)%Z)
                  (corrupted "local CAS block is not owner-private"));
      _ ← pure (fail_if (maxBytes <? Z.of_nat (length (in_data stat)))%Z (corrupted "local CAS block exceeds"));
      data ← wrapped "read local CAS block" (read_limited shard name (maxBytes + 1));
      _ ← pure (fail_if (maxBytes <? Z.of_nat (length data))%Z (corrupted "local CAS block exceeds"));
      _ ← u_ctx;
      mret data
  end.

Definition EncodeToString (l : list ascii) : string :=
  of_bytes (l ≫= fun b => let n := nat_of_ascii b in [hexadecimal (n / 16); hexadecimal (n mod 16)]).
Definition randomTemporaryName : Act platformStore string := fun w =>
  (value ← wrap_err "generate local CAS temporary name" (ue_random E (ux_tick w));
   Ok (".malt-cas-" +:+ EncodeToString value +:+ ".block"), ux_ticked w).

(** Every round writes a byte or stops, so [length data] rounds are enough. *)
Fixpoint write_rounds (rounds : nat) (shard name : string) (data : body) : Act platformStore unit :=
  match data, rounds with
  | [], _ => mret ()
  | _, O => pure (Err ErrShortWrite)
  | _, S rounds =>
      _ ← u_ctx;
      written ← write_some shard name data;
      if written =? 0 then pure (Err ErrShortWrite) else write_rounds rounds shard name (drop written data)
  end.
Definition writeAllWithContext (shard name : string) (data : body) : Act platformStore unit :=
  write_rounds (length data) shard name data.

(** The temporary file is removed unless it was installed. *)
Definition unless_installed (shard name : string) (m : Act platformStore unit) : Act platformStore unit := fun w =>
  match m w with
  | (Ok _, w') => (Ok (), w')
  | (Err e, w') => (Err e, (unlinkat shard name w').2)
  end.

(** The temporary file gets its mode and its bytes and is closed. *)
Definition fill_temporary (shard temporaryName : string) (data : body) : Act platformStore unit :=
  none ← no_handle;
  _ ← pure (fail_if none (Errorf "open local CAS temporary block handle"));
  _ ← wrapped "protect local CAS temporary block" (chmod_file shard temporaryName);
  _ ← wrapped "write local CAS temporary block" (writeAllWithContext shard temporaryName data);
  _ ← wrapped "sync local CAS temporary block" flushed;
  _ ← u_ctx;
  wrapped "close local CAS temporary block" flushed.

Definition u_writeBlock (shard name : string) (data : body) : Act platformStore unit :=
  _ ← u_ctx;
  _ ← openShard shard true;
  temporaryName ← randomTemporaryName;
  _ ← wrapped "create local CAS temporary block" (create_exclusive shard temporaryName);
  _ ← unless_installed shard temporaryName (
    _ ← fill_temporary shard temporaryName data;
    wrapped "install local CAS block" (renameat shard temporaryName name));
  wrapped "sync local CAS shard" flushed.

Definition u_ensureDurable (shard : string) : Act platformStore unit :=
  _ ← u_ctx;
  _ ← openShard shard false;
  _ ← each (fun description => _ ← u_ctx; wrapped ("sync " +:+ description) flushed)
        ["local CAS shard"; "local CAS blocks directory"; "local CAS boundary"];
  mret ().

Definition closeHandle (held : bool) : Act platformStore unit := if held then flushed else mret ().
Definition u_close : Act platformStore unit := fun w =>
  let '(r1, w1) := closeHandle (ux_blocks w) w in
  let '(r2, w2) := closeHandle (ux_root w) w1 in
  (match r1, r2 with
   | Ok _, r | r, Ok _ => r
   | Err e1, Err e2 => Err (ErrorsJoin e1 e2)
   end, mkUnix (ux_shards w2) false false (ux_tick w2)).

Definition Unix_store : blockStore := mkBlockStore u_readBlock u_writeBlock u_ensureDurable u_close.
End Unix.

(** ** The batcher of the add workflow *)
Section Batcher.
Context {St : Type} (inner : Store St) (put : body -> Act St (option Cid)).

Record batcher := mkBatcher {
  ba_blocks : list CasBlock; ba_seen : gmap string Cid; ba_uploaded : nat; ba_inner : St
}.

Definition newAddCASBatcher (s : St) : batcher := mkBatcher [] ∅ 0 s.

Definition a_PutWithCodec (data : body) (codec : N) : Act batcher (option Cid) := fun b =>
  match CIDForBlock (mkCasBlock data codec) with
  | Err e => (Err e, b)
  | Ok blockCID =>
      (Ok (Some blockCID),
       match ba_seen b !! cid_String blockCID with
       | Some _ => b
       | None => mkBatcher (ba_blocks b ++ [mkCasBlock data codec]) (<[cid_String blockCID := blockCID]> (ba_seen b))
                   (ba_uploaded b) (ba_inner b)
       end)
  end.

Definition a_Put (data : body) : Act batcher (option Cid) := a_PutWithCodec data Raw.

Definition a_Get (c : option Cid) : Act batcher body := fun b =>
  let '(r, s) := st_Get inner c (ba_inner b) in (r, mkBatcher (ba_blocks b) (ba_seen b) (ba_uploaded b) s).

Fixpoint check_flushed (blocks : list CasBlock) (results : list PutResult) : result unit :=
  match blocks, results with
  | block :: blocks, r :: results =>
      want ← CIDForBlock block;
      _ ← fail_if (negb (bool_decide (pr_CID r = Some want))) (Errorf "CAS batch flush returned another CID");
      check_flushed blocks results
  | _, _ => Ok ()
  end.

Definition Flush : Act batcher unit := fun b =>
  match ba_blocks b with
  | [] => (Ok (), b)
  | blocks =>
      let '(r, s) := PutBlocks inner put blocks (ba_inner b) in
      let kept := mkBatcher blocks (ba_seen b) (ba_uploaded b) s in
      match r with
      | Err e => (Err e, kept)
      | Ok results =>
          match (_ ← fail_if (negb (length results =? length blocks)) (Errorf "CAS batch flush returned a wrong number of results");
                 check_flushed blocks results) with
          | Err e => (Err e, kept)
          | Ok _ => (Ok (), mkBatcher [] ∅ (ba_uploaded b + length blocks) s)
          end
      end
  end.
End Batcher.
End Stacks.
#[global] Arguments NodeCAS {L} St.
#[global] Arguments blockStore PSt : clear implicits.
#[global] Arguments local PSt : clear implicits.
#[global] Arguments batcher {L} St.
