(* ===== verification/CasThms.v ===== *)
(** What the content-addressed stores guarantee over untrusted ones. *)

From stdpp Require Import base decidable gmap strings list.
From Stdlib Require Import Ascii ZArith.
From S2P Require Import Prelude Effect GoText CidLib Cache WritePlan Cas CasStacks Branch Paths.

Section Theorems.
Context {L : CidLib} {BK : BlockLib}.

(** ** Reads *)

(** A read that only returns bytes of the CID it was asked for. *)
Definition authentic {St} (get : option Cid -> Act St body) : Prop :=
  forall c s data s', get c s = (Ok data, s') -> exists key, c = Some key /\ cid_Sum key data = Some key.

Lemma check_body_Ok key data d : check_body key data = Ok d -> d = data /\ cid_Sum key data = Some key.
Proof.
  unfold check_body, cidForData. destruct (cid_Sum key data) as [got|]; cbn; [|done]. intros H.
  simplify_result. simplify_guards. by subst.
Qed.

Lemma verifying_authentic {St} (inner : Store St) : authentic (v_Get inner).
Proof.
  intros [key|] s data s' H; [|done]. unfold v_Get in H. simplify_act.
  match goal with H : check_body _ _ = _ |- _ => apply check_body_Ok in H as [-> ?] end. eauto.
Qed.

Lemma verifiedGet_authentic {St} (source : NodeCAS St) key s data s' :
  verifiedGet source key s = (Ok data, s') -> cid_Sum key data = Some key.
Proof. unfold verifiedGet. intros H. simplify_act. by simplify_guards. Qed.

Lemma hybrid_authentic {St} ctx observe (primary cache : NodeCAS St) : authentic (h_Get ctx observe primary cache).
Proof.
  intros [key|] s data s' H; [|done]. exists key. split; [done|]. unfold h_Get in H. apply act_bind_Ok in H as (hit & s1 & Hh & H).
  apply outcome_Ok in Hh. destruct hit as [d|e]; simplify_act; [by eapply verifiedGet_authentic|].
  unfold h_read_through in H. simplify_act. by eapply verifiedGet_authentic.
Qed.

Lemma readBlock_authentic {PSt} (platform : blockStore PSt) lim ctx : authentic (readBlock platform lim ctx).
Proof.
  intros [key|] s data s' H; unfold readBlock in H; simplify_act. exists key. split; [done|].
  destruct (blockIdentity key). simplify_act. by simplify_guards.
Qed.

Lemma local_authentic {PSt} (platform : blockStore PSt) lim ctx : authentic (l_Get platform lim ctx).
Proof. intros c s data s' H. unfold l_Get in H. simplify_act. by eapply readBlock_authentic. Qed.

Context {BKL : BlockLaws BK}.

Lemma CIDForBlock_Sum block c : CIDForBlock block = Ok c -> cid_Sum c (cb_Data block) = Some c.
Proof. unfold CIDForBlock. intros H. simplify_result. by apply v1_Sum. Qed.

Lemma spool_authentic sio : authentic (spool_Get sio).
Proof.
  intros [key|] s data s' H; unfold spool_Get in H; simplify_act. exists key. split; [done|]. simplify_guards. subst.
  match goal with H : CIDForBlock _ = _ |- _ => by apply CIDForBlock_Sum in H end.
Qed.

(** C19. No store, whatever lies behind it, returns bytes that do not hash to the
    CID it was asked for: not the verifying wrapper over any reader, not the
    hybrid of any primary and cache, not the local store over any disk, and not
    the spool after any failed writes. *)
Theorem every_read_is_authentic :
  (forall St (inner : Store St), authentic (st_Get (VerifyingReader inner))) /\
  (forall St ctx observe (primary cache : NodeCAS St), authentic (nc_Get (Hybrid ctx observe primary cache))) /\
  (forall PSt (platform : blockStore PSt) lim ctx, authentic (nc_Get (Local_CAS platform lim ctx))) /\
  (forall sio, authentic (spool_Get sio)).
Proof.
  split_and!; intros; [apply verifying_authentic|apply hybrid_authentic|apply local_authentic|apply spool_authentic].
Qed.

(** ** Writes *)

(** A receipt for a block: its own CID, and a status of the protocol. *)
Definition exact (block : CasBlock) (r : PutResult) : Prop :=
  exists c, CIDForBlock block = Ok c /\ pr_CID r = Some c /\ IsValidPutStatus (pr_Status r) = true.
Definition exact_writes {St} (put : list CasBlock -> Act St (list PutResult)) : Prop :=
  forall blocks s results s', put blocks s = (Ok results, s') -> Forall2 exact blocks results.

Lemma CIDForBlock_normal data codec : CIDForBlock (mkCasBlock data (NormalizeCodec codec)) = CIDForBlock (mkCasBlock data codec).
Proof. unfold CIDForBlock, NormalizeCodec. cbn. repeat case_bool_decide; try done. Qed.

Lemma verifyPutResult_Ok got data codec c :
  verifyPutResult got data codec = Ok c -> c = got /\ exists want, CIDForBlock (mkCasBlock data codec) = Ok want /\ got = Some want.
Proof.
  unfold verifyPutResult. destruct got as [g|]; [|done]. destruct (CIDForBlock _) as [want|]; [|done]. intros H.
  simplify_result. simplify_guards. split; [done|]. eauto.
Qed.

Lemma verify_results_exact blocks results :
  verifyBatchResults blocks results = Ok () -> Forall2 exact blocks results.
Proof.
  unfold verifyBatchResults. intros H. simplify_result. simplify_guards.
  match goal with H : (_ =? _) = true |- _ => apply Nat.eqb_eq in H as Hl; clear H end.
  revert results Hl H. induction blocks as [|b blocks IH]; intros [|r results] Hl H; cbn in *; try done.
  simplify_result. constructor; [|apply IH; [lia|done]]. unfold verify_result in *. simplify_result. simplify_guards.
  match goal with H : verifyPutResult _ _ _ = _ |- _ => apply verifyPutResult_Ok in H as (_ & want & Hw & E) end.
  destruct b as [data codec]. exists want. by split_and!.
Qed.

Lemma v_Put_exact {St} (inner : Store St) data s got s' :
  v_Put inner data s = (Ok got, s') -> exists c, CIDForBlock (mkCasBlock data Raw) = Ok c /\ got = Some c.
Proof.
  unfold v_Put. destruct (st_Put inner); intros H; simplify_act. apply verifyPutResult_Ok in H as (-> & want & Hw & ->). eauto.
Qed.

Lemma v_PutWithCodec_exact {St} (inner : Store St) data codec s got s' :
  v_PutWithCodec inner data codec s = (Ok got, s') -> exists c, CIDForBlock (mkCasBlock data codec) = Ok c /\ got = Some c.
Proof.
  unfold v_PutWithCodec. destruct (st_PutWithCodec inner); intros H.
  - simplify_act. apply verifyPutResult_Ok in H as (-> & want & Hw & ->). eauto.
  - case_bool_decide as E; [|done]. apply v_Put_exact in H. rewrite <- CIDForBlock_normal, E. done.
Qed.

Lemma verifying_exact {St} (inner : Store St) : exact_writes (v_PutBatch inner).
Proof.
  intros blocks s results s' H. unfold v_PutBatch in H. destruct blocks as [|b blocks]; [simplify_act; constructor|].
  destruct (st_PutBatch inner) as [batch|]; [|destruct (st_Put inner) as [put|]; [|done]].
  - simplify_act. match goal with H : verifyBatchResults _ _ = Ok ?u |- _ => destruct u; by apply verify_results_exact in H end.
  - eapply each_Forall2; [|exact H]. intros [data codec] s1 r s1' _ Hp. unfold v_put_one in Hp. simplify_act.
    match goal with H : v_PutWithCodec _ _ _ _ = _ |- _ => apply v_PutWithCodec_exact in H as (c & Hc & ->) end.
    rewrite CIDForBlock_normal in Hc. exists c. by split_and!.
Qed.

Lemma hybrid_exact {St} ctx observe (primary cache : NodeCAS St) : exact_writes (h_PutBatch ctx observe primary cache).
Proof.
  intros blocks s results s' H. unfold h_PutBatch in H. destruct blocks as [|b blocks]; [simplify_act; constructor|].
  simplify_act. by eapply verifying_exact.
Qed.

Lemma PutBlocks_exact {St} (inner : Store St) : exact_writes (PutBlocks (VerifyingReader inner) (v_Put inner)).
Proof.
  intros blocks s results s' H. destruct blocks as [|b blocks]; cbn in H; [simplify_act; constructor|].
  simplify_act. by eapply verifying_exact.
Qed.

Section Local.
Context {PSt : Type} (platform : blockStore PSt) (lim : limits) (ctx : Act PSt unit).

Lemma batch_keys_Ok total blocks keys : batch_keys lim total blocks = Ok keys -> Forall2 (fun b c => CIDForBlock b = Ok c) blocks keys.
Proof.
  revert total keys. induction blocks as [|b blocks IH]; intros total keys H; cbn in H; simplify_result; constructor; eauto.
Qed.

Lemma putLocked_status key data s st s' : putLocked platform lim ctx key data s = (Ok st, s') -> IsValidPutStatus st = true.
Proof.
  unfold putLocked, install_block. destruct (blockIdentity key) as [shard name]. intros H. apply act_bind_Ok in H as (present & s1 & _ & H).
  destruct present as [d|e]; [by simplify_act|]. destruct (_ && _); [done|]. by simplify_act.
Qed.

Lemma put_each_exact seen blocks keys s results s' :
  Forall2 (fun b c => CIDForBlock b = Ok c) blocks keys -> put_each platform lim ctx seen (zip keys blocks) s = (Ok results, s') ->
  Forall2 exact blocks results.
Proof.
  intros Hk. revert seen s results s'. induction Hk as [|b c blocks keys Hc _ IH]; intros seen s results s' H; cbn in H.
  { simplify_act. constructor. }
  apply act_bind_Ok in H as (u & s1 & _ & H). case_bool_decide; simplify_act; constructor; eauto; exists c; split_and!; try done.
  by eapply putLocked_status.
Qed.

Lemma local_exact : exact_writes (l_PutBatch platform lim ctx).
Proof.
  intros blocks s results s' H. unfold l_PutBatch in H. simplify_act. destruct blocks as [|b blocks]; [simplify_act; constructor|].
  simplify_act. eapply put_each_exact; [|exact H]. by eapply batch_keys_Ok.
Qed.
End Local.

(** Every receipt of a successful batch write is exact: as many receipts as
    blocks, in their order, each for the canonical CID of its block under the
    requested codec and with a known status, for any store behind the verifying
    wrapper (called directly or by [PutBlocks]), any primary and cache of the
    hybrid and any disk of the local store. *)
Theorem every_receipt_is_exact :
  (forall St (inner : Store St), exact_writes (v_PutBatch inner) /\ exact_writes (PutBlocks (VerifyingReader inner) (v_Put inner))) /\
  (forall St ctx observe (primary cache : NodeCAS St), exact_writes (h_PutBatch ctx observe primary cache)) /\
  (forall PSt (platform : blockStore PSt) lim ctx, exact_writes (l_PutBatch platform lim ctx)).
Proof.
  split_and!; intros; [split; [apply verifying_exact|apply PutBlocks_exact]|apply hybrid_exact|apply local_exact].
Qed.
End Theorems.

(** * The contract of an honest store, the implementations that keep it, and
    what their clients get: the verifying wrapper is transparent, the local
    store never damages a block, and the batcher loses none. *)

Section Contract.
Context {L : CidLib} {BK : BlockLib}.

(** ** Honest stores

    On every state of [I], reads return bytes of their CID and writes report
    the canonical CID; every operation stays in [I]. *)
Class Honest {St} (S : Store St) (I : St -> Prop) : Prop := {
  ho_get : forall c s r s', I s -> st_Get S (Some c) s = (r, s') ->
    I s' /\ forall data, r = Ok data -> cid_Sum c data = Some c;
  ho_put : forall put data s r s', st_Put S = Some put -> I s -> put data s = (r, s') ->
    I s' /\ forall got, r = Ok got -> exists c, CIDForBlock (mkCasBlock data Raw) = Ok c /\ got = Some c;
  ho_typed : forall put data codec s r s', st_PutWithCodec S = Some put -> I s -> put data codec s = (r, s') ->
    I s' /\ forall got, r = Ok got -> exists c, CIDForBlock (mkCasBlock data codec) = Ok c /\ got = Some c;
  ho_has_batch : forall has cids s r s', st_HasBatch S = Some has -> I s -> has cids s = (r, s') ->
    I s' /\ forall l, r = Ok l -> length l = length cids;
  ho_put_batch : forall put blocks s r s', st_PutBatch S = Some put -> I s -> put blocks s = (r, s') ->
    I s' /\ forall l, r = Ok l -> Forall2 exact blocks l
}.

(** The same call on the wrapper as on the store. *)
Definition agrees {St A B} (I : St -> Prop) (f g : A -> Act St B) (a : A) : Prop := forall s, I s -> f a s = g a s.

Lemma check_body_pass c data : cid_Sum c data = Some c -> check_body c data = Ok data.
Proof. intros H. unfold check_body, cidForData. rewrite H. cbn. by rewrite bool_decide_eq_true_2. Qed.

Lemma verifyPutResult_pass data codec c : CIDForBlock (mkCasBlock data codec) = Ok c -> verifyPutResult (Some c) data codec = Ok (Some c).
Proof. intros H. unfold verifyPutResult. rewrite H. cbn. by rewrite bool_decide_eq_true_2. Qed.

Lemma verifyBatchResults_pass blocks results : Forall2 exact blocks results -> verifyBatchResults blocks results = Ok ().
Proof.
  intros H. unfold verifyBatchResults. rewrite (Forall2_length _ _ _ H), Nat.eqb_refl. cbn.
  induction H as [|[data codec] r blocks results (c & Hc & E & Hst) _ IH]; [done|]. cbn [verify_results].
  unfold verify_result. cbn [cb_Data cb_Codec]. rewrite E, (verifyPutResult_pass _ _ _ Hc), Hst. cbn. done.
Qed.

(** The verifying wrapper changes nothing over an honest store: for every
    operation that the store implements, with a defined CID or a non-empty
    batch, the answer, the error and the next state are the store's own. *)
Theorem verifying_is_transparent {St} (S : Store St) (I : St -> Prop) :
  Honest S I ->
  (forall c, agrees I (v_Get S) (st_Get S) (Some c)) /\ (forall c, agrees I (v_Has S) (st_Has S) (Some c)) /\
  (forall put data, st_Put S = Some put -> agrees I (v_Put S) put data) /\
  (forall put data codec, st_PutWithCodec S = Some put -> agrees I (v_PutWithCodec S data) (put data) codec) /\
  (forall has cids, st_HasBatch S = Some has -> cids <> [] -> None ∉ cids -> agrees I (v_HasBatch S) has cids) /\
  (forall put blocks, st_PutBatch S = Some put -> blocks <> [] -> agrees I (v_PutBatch S) put blocks).
Proof.
  intros HS. split_and!.
  - intros c s Hi. unfold v_Get, mbind, Act_bind. destruct (st_Get S (Some c) s) as [[data|e] s'] eqn:E; [|done].
    destruct (ho_get _ _ _ _ Hi E) as [_ H]. unfold pure. by rewrite (check_body_pass _ _ (H data eq_refl)).
  - done.
  - intros put data Hp s Hi. unfold v_Put. rewrite Hp. unfold mbind, Act_bind. destruct (put data s) as [[got|e] s'] eqn:E; [|done].
    destruct (ho_put _ _ _ _ _ Hp Hi E) as [_ H]. destruct (H got eq_refl) as (c & Hc & ->). unfold pure. by rewrite (verifyPutResult_pass _ _ _ Hc).
  - intros put data codec Hp s Hi. unfold v_PutWithCodec. rewrite Hp. unfold mbind, Act_bind. destruct (put data codec s) as [[got|e] s'] eqn:E; [|done].
    destruct (ho_typed _ _ _ _ _ _ Hp Hi E) as [_ H]. destruct (H got eq_refl) as (c & Hc & ->). unfold pure. by rewrite (verifyPutResult_pass _ _ _ Hc).
  - intros has cids Hh Hn Hd s Hi. unfold v_HasBatch, check_defined. rewrite Hh, bool_decide_eq_false_2 by done.
    destruct cids as [|c cids]; [done|]. unfold mbind, Act_bind, pure. cbn [fail_if]. destruct (has (c :: cids) s) as [[l|e] s'] eqn:E; [|done].
    destruct (ho_has_batch _ _ _ _ _ Hh Hi E) as [_ H]. by rewrite (H l eq_refl), Nat.eqb_refl.
  - intros put blocks Hp Hn s Hi. unfold v_PutBatch. rewrite Hp. destruct blocks as [|b blocks]; [done|].
    unfold mbind, Act_bind, pure. destruct (put (b :: blocks) s) as [[l|e] s'] eqn:E; [|done].
    destruct (ho_put_batch _ _ _ _ _ Hp Hi E) as [_ H]. by rewrite (verifyBatchResults_pass _ _ (H l eq_refl)).
Qed.

Context {LL : CidLaws L} {BKL : BlockLaws BK}.

(** ** The memory store *)

(** Every block is stored under the CID of its bytes. *)
Definition mem_ok (s : memory) : Prop := forall c data, me_blocks s !! cid_String c = Some data -> cid_Sum c data = Some c.

Lemma mem_typed_spec cancelled data codec s r s' :
  mem_PutWithCodec cancelled data codec s = (r, s') -> mem_ok s ->
  mem_ok s' /\ forall got, r = Ok got ->
    exists c, CIDForBlock (mkCasBlock data codec) = Ok c /\ got = Some c /\ me_blocks s' = <[cid_String c := data]> (me_blocks s).
Proof.
  unfold mem_PutWithCodec, mbind, Act_bind, mem_ctx, pure, modify. destruct (cancelled _); [by intros [= <- <-] ?|].
  destruct (CIDForBlock _) as [c|e] eqn:Ec; [|by intros [= <- <-] ?]. intros [= <- <-] Hok. cbn. split; [|intros got [= <-]; eauto].
  intros c' data'. cbn. destruct (decide (cid_String c' = cid_String c)) as [->%cid_String_inj|Hn].
  - rewrite lookup_insert_eq. intros [= <-]. by apply CIDForBlock_Sum in Ec.
  - rewrite lookup_insert_ne by done. apply Hok.
Qed.

#[export] Instance memory_honest cancelled : Honest (Memory cancelled) mem_ok.
Proof.
  split; cbn; try done.
  - intros c s r s' Hok. unfold mem_Get, mbind, Act_bind, mem_ctx, reads. destruct (cancelled _); [by intros [= <- <-]|].
    intros [= <- <-]. split; [done|]. cbn. intros data H. apply or_err_Ok in H. by apply Hok.
  - intros put data s r s' [= <-] Hok H. destruct (mem_typed_spec _ _ _ _ _ _ H Hok) as [? Hr]. split; [done|].
    intros got E. destruct (Hr got E) as (c & ? & ? & _). eauto.
  - intros put data codec s r s' [= <-] Hok H. destruct (mem_typed_spec _ _ _ _ _ _ H Hok) as [? Hr]. split; [done|].
    intros got E. destruct (Hr got E) as (c & ? & ? & _). eauto.
Qed.

(** ** The local store

    What a platform directory promises to the store, as proved for the Unix
    platform below: reads change nothing and return what is stored, a write
    keeps every block or replaces the one it is for by the new bytes, and
    synchronisation changes nothing. *)
Class PlatformLaws {PSt} (platform : blockStore PSt) (ctx : Act PSt unit)
    (disk : PSt -> string * string -> option body) : Prop := {
  pl_read : forall sh n m w r w', pf_readBlock platform sh n m w = (r, w') ->
    disk w' = disk w /\ forall data, r = Ok data -> disk w (sh, n) = Some data;
  pl_write : forall sh n data w r w', pf_writeBlock platform sh n data w = (r, w') ->
    forall k d, disk w k = Some d -> disk w' k = Some d \/ k = (sh, n) /\ disk w' k = Some data;
  pl_ensure : forall sh w r w', pf_ensureDurable platform sh w = (r, w') -> disk w' = disk w;
  pl_ctx : forall w r w', ctx w = (r, w') -> disk w' = disk w
}.

Section Local.
Context {PSt : Type} (platform : blockStore PSt) (lim : limits) (ctx : Act PSt unit) (disk : PSt -> string * string -> option body).
Context {PL : PlatformLaws platform ctx disk}.

Definition on_disk (s : local PSt) : string * string -> option body := disk (lo_world s).

(** The block is there and intact. *)
Definition intact (s : local PSt) (key : Cid) : Prop :=
  exists data, on_disk s (blockIdentity key) = Some data /\ cid_Sum key data = Some key.
Definition keeps_blocks (s s' : local PSt) : Prop := forall key, intact s key -> intact s' key.

Lemma blockIdentity_inj key key' : blockIdentity key = blockIdentity key' -> key = key'.
Proof. unfold blockIdentity. intros [= _ E]. apply cid_String_inj. apply (f_equal bytes) in E. rewrite !bytes_app in E.
  apply app_inv_tail in E. by rewrite <- (of_bytes_bytes (cid_String key)), E, of_bytes_bytes. Qed.

Lemma same_disk_keeps s s' : on_disk s' = on_disk s -> keeps_blocks s s'.
Proof. intros E key. unfold intact. by rewrite E. Qed.

Lemma ctx_now_disk s : on_disk (ctx_now ctx s).2 = on_disk s.
Proof. unfold ctx_now, on_platform. destruct (ctx (lo_world s)) as [r w] eqn:E. by apply pl_ctx in E. Qed.

Lemma readBlock_disk c s : on_disk (readBlock platform lim ctx c s).2 = on_disk s.
Proof.
  unfold readBlock, mbind, Act_bind. pose proof (ctx_now_disk s) as H. destruct (ctx_now ctx s) as [[u|e] s1]; cbn in H; [|done].
  destruct c as [key|]; [|done]. destruct (blockIdentity key) as [sh n]. unfold on_platform.
  destruct (pf_readBlock platform sh n _ (lo_world s1)) as [[data|e] w] eqn:E; apply pl_read in E as [E _]; cbn; [|by rewrite <- H].
  pose proof (ctx_now_disk (mkLocal (lo_terminal s1) (lo_platform s1) w)) as H2. destruct (ctx_now ctx _) as [[?|?] s2]; cbn in *; rewrite H2;
    unfold on_disk in *; cbn; congruence.
Qed.

Lemma readBlock_intact key s data s' : readBlock platform lim ctx (Some key) s = (Ok data, s') -> intact s key.
Proof.
  intros H. pose proof (readBlock_authentic _ _ _ _ _ _ _ H) as (key' & [= <-] & Hs). exists data. split; [|done].
  unfold readBlock in H. apply act_bind_Ok in H as (u & s1 & Hc & H). pose proof (ctx_now_disk s) as Hd. rewrite Hc in Hd. cbn in Hd.
  destruct (blockIdentity key) as [sh n]. simplify_act. unfold on_platform in *.
  destruct (pf_readBlock platform sh n _ (lo_world s1)) as [r w] eqn:E. simplify_eq. apply pl_read in E as [_ E]. rewrite <- Hd. by apply E.
Qed.

Lemma ensure_disk sh s : on_disk (on_platform (pf_ensureDurable platform sh) s).2 = on_disk s.
Proof. unfold on_platform. destruct (pf_ensureDurable platform sh (lo_world s)) as [r w] eqn:E. by apply pl_ensure in E. Qed.

Lemma write_keeps key data s r s' : cid_Sum key data = Some key ->
  on_platform (pf_writeBlock platform (blockIdentity key).1 (blockIdentity key).2 data) s = (r, s') -> keeps_blocks s s'.
Proof.
  intros Hs. unfold on_platform. destruct (pf_writeBlock _ _ _ _ _) as [r0 w] eqn:E. intros [= <- <-].
  intros key' (d & Hd & Hs'). unfold intact, on_disk in *. cbn.
  destruct (pl_write _ _ _ _ _ _ E _ _ Hd) as [H|[Ei H]]; [eauto|]. rewrite <- surjective_pairing in Ei.
  apply blockIdentity_inj in Ei as ->. eauto.
Qed.

Lemma keeps_trans s1 s2 s3 : keeps_blocks s1 s2 -> keeps_blocks s2 s3 -> keeps_blocks s1 s3.
Proof. intros H1 H2 key Hk. by apply H2, H1. Qed.

Lemma keeps_disk {A} (m : Act (local PSt) A) : (forall s, on_disk (m s).2 = on_disk s) -> moves keeps_blocks m.
Proof. intros H s. apply same_disk_keeps, H. Qed.

Lemma disk_keeps_bind {A B} (m : Act (local PSt) A) (f : A -> Act (local PSt) B) :
  moves keeps_blocks m -> (forall a, moves keeps_blocks (f a)) -> moves keeps_blocks (m ≫= f).
Proof. apply moves_bind, keeps_trans. Qed.

Lemma keeps_done {A} (r : result A) : moves keeps_blocks (pure r).
Proof. apply keeps_disk. done. Qed.
Lemma keeps_ret {A} (a : A) : moves keeps_blocks (mret a).
Proof. apply keeps_disk. done. Qed.

Lemma putLocked_keeps key data : cid_Sum key data = Some key -> moves keeps_blocks (putLocked platform lim ctx key data).
Proof.
  intros Hs. unfold putLocked. apply disk_keeps_bind; [apply moves_outcome, keeps_disk, readBlock_disk|]. intros [d|e].
  { apply disk_keeps_bind; [apply moves_wrapped, keeps_disk, ensure_disk|intros; apply keeps_ret]. }
  destruct (_ && _); [apply keeps_done|]. unfold install_block. destruct (blockIdentity key) as [sh n] eqn:Ei.
  apply disk_keeps_bind; [|intros _; apply disk_keeps_bind; [apply moves_wrapped, keeps_disk, readBlock_disk|]; intros _;
    apply disk_keeps_bind; [apply moves_wrapped, keeps_disk, ensure_disk|intros; apply keeps_ret]].
  intros s. destruct (on_platform (pf_writeBlock platform sh n data) s) as [r s'] eqn:E. eapply write_keeps; [exact Hs|]. rewrite Ei. exact E.
Qed.

Lemma putLocked_intact key data s st s' :
  cid_Sum key data = Some key -> putLocked platform lim ctx key data s = (Ok st, s') -> intact s' key.
Proof.
  intros Hs H. unfold putLocked in H. apply act_bind_Ok in H as (present & s1 & Hp & H). apply outcome_Ok in Hp.
  assert (forall sh x s0 s0', on_platform (pf_ensureDurable platform sh) s0 = (Ok x, s0') -> intact s0 key -> intact s0' key) as Hen.
  { intros sh x s0 s0' Hx Hi. pose proof (ensure_disk sh s0) as Hd. rewrite Hx in Hd. by apply (same_disk_keeps s0). }
  destruct present as [d|e].
  - pose proof (readBlock_disk (Some key) s) as Hd. rewrite Hp in Hd. apply readBlock_intact in Hp.
    apply act_bind_Ok in H as (x & s2 & Hx & H). simplify_act. eapply Hen; [exact Hx|]. by apply (same_disk_keeps s).
  - destruct (_ && _); [done|]. unfold install_block in H. destruct (blockIdentity key) as [sh n].
    apply act_bind_Ok in H as (x & s2 & _ & H). apply act_bind_Ok in H as (d & s3 & Hr & H). apply wrapped_Ok in Hr.
    apply act_bind_Ok in H as (y & s4 & Hy & H). simplify_act. eapply Hen; [exact Hy|].
    pose proof (readBlock_disk (Some key) s2) as Hd. rewrite Hr in Hd. apply readBlock_intact in Hr. by apply (same_disk_keeps s2).
Qed.

Lemma put_each_keeps seen blocks keys :
  Forall2 (fun b c => CIDForBlock b = Ok c) blocks keys -> moves keeps_blocks (put_each platform lim ctx seen (zip keys blocks)).
Proof.
  intros Hk. revert seen. induction Hk as [|b c blocks keys Hc _ IH]; intros seen; cbn; [apply keeps_ret|].
  apply disk_keeps_bind; [apply keeps_disk, ctx_now_disk|]. intros _. case_bool_decide.
  - apply disk_keeps_bind; [apply IH|intros; apply keeps_ret].
  - apply disk_keeps_bind; [by apply moves_wrapped, putLocked_keeps, CIDForBlock_Sum|]. intros st.
    apply disk_keeps_bind; [apply IH|intros; apply keeps_ret].
Qed.

Lemma put_each_intact seen blocks keys s results s' :
  Forall2 (fun b c => CIDForBlock b = Ok c) blocks keys -> put_each platform lim ctx seen (zip keys blocks) s = (Ok results, s') ->
  (forall key, cid_String key ∈ seen -> intact s key) -> Forall (intact s') keys.
Proof.
  intros Hk. revert seen s results. induction Hk as [|b c blocks keys Hc Hk IH]; intros seen s results H Hseen; cbn in H; [constructor|].
  apply act_bind_Ok in H as (u & s1 & Hu & H). pose proof (ctx_now_disk s) as Hd. rewrite Hu in Hd.
  assert (forall key, cid_String key ∈ seen -> intact s1 key) as Hseen1 by (intros key Hin; apply (same_disk_keeps s), Hseen; done).
  pose proof (put_each_keeps seen blocks keys Hk) as Hkeep. case_bool_decide as Hin; apply act_bind_Ok in H as (x & s2 & Hx & H).
  - apply ret_Ok in H as [-> ->]. constructor; [|by eapply IH]. specialize (Hkeep s1). rewrite Hx in Hkeep. by apply Hkeep, Hseen1.
  - apply wrapped_Ok in Hx. apply act_bind_Ok in H as (rs & s3 & Hrs & H). apply ret_Ok in H as [-> ->].
    pose proof (putLocked_intact _ _ _ _ _ (CIDForBlock_Sum _ _ Hc) Hx) as Hi.
    pose proof (put_each_keeps ({[cid_String c]} ∪ seen) blocks keys Hk s2) as Hkeep2. rewrite Hrs in Hkeep2.
    constructor; [by apply Hkeep2|]. eapply IH; [exact Hrs|]. intros key [->%elem_of_singleton%cid_String_inj|Hin']%elem_of_union; [done|].
    pose proof (putLocked_keeps c (cb_Data b) (CIDForBlock_Sum _ _ Hc) s1) as Hk1. rewrite Hx in Hk1. by apply Hk1, Hseen1.
Qed.

Lemma l_PutBatch_keeps blocks : moves keeps_blocks (l_PutBatch platform lim ctx blocks).
Proof.
  assert (forall s, keeps_blocks s s) as Hr by (intros s; by apply same_disk_keeps).
  unfold l_PutBatch. apply disk_keeps_bind; [by apply keeps_disk|]. intros _. apply disk_keeps_bind; [apply keeps_disk, ctx_now_disk|]. intros _.
  destruct blocks as [|b blocks]; [apply keeps_ret|]. apply disk_keeps_bind; [apply keeps_done|]. intros _.
  apply moves_pure_bind; [done|]. intros keys Hk. by eapply put_each_keeps, batch_keys_Ok.
Qed.

Lemma l_PutBatch_stores blocks s r s' :
  l_PutBatch platform lim ctx blocks s = (r, s') ->
  keeps_blocks s s' /\
  forall results, r = Ok results -> Forall (fun b => exists key, CIDForBlock b = Ok key /\ intact s' key) blocks.
Proof.
  intros H. split.
  - pose proof (l_PutBatch_keeps blocks s) as Hk. by rewrite H in Hk.
  - intros results ->. unfold l_PutBatch in H. apply act_bind_Ok in H as (? & s1 & _ & H). apply act_bind_Ok in H as (? & s2 & _ & H).
    destruct blocks as [|b blocks]; [constructor|]. simplify_act.
    match goal with H : batch_keys _ _ _ = Ok _ |- _ => apply batch_keys_Ok in H as Hk end.
    apply put_each_intact with (blocks := b :: blocks) in H; [|done|set_solver]. clear -Hk H.
    induction Hk as [|b' c bs ks Hc _ IH]; [constructor|]. apply Forall_cons in H as [? ?]. constructor; eauto.
Qed.
End Local.

(** ** The Unix platform keeps its promise *)
Section Unix.
Context (E : uenv).
#[local] Notation place := platformStore.
Create HintDb same_shards.

(** What is stored: the body of a file that passes the checks of the reader, in
    a shard that does. *)
Definition stored_in (shards : gmap string shard_dir) (k : string * string) : option body :=
  d ← shards !! k.1; f ← sd_files d !! k.2;
  if unsafeUnixShardMetadata E d || unsafeUnixBlockMetadata E f then None else Some (in_data f).
Definition unix_disk (w : place) : string * string -> option body := stored_in (ux_shards w).

(** No shard changed. *)
Definition same_shards (w w' : place) : Prop := ux_shards w' = ux_shards w.
(** Stored blocks stay, except perhaps those under [but]. *)
Definition kept (but : string * string -> Prop) (w w' : place) : Prop :=
  forall k d, ~ but k -> unix_disk w k = Some d -> unix_disk w' k = Some d.

Lemma same_blocks_refl w : same_shards w w.
Proof. done. Qed.
Lemma same_blocks_trans w1 w2 w3 : same_shards w1 w2 -> same_shards w2 w3 -> same_shards w1 w3.
Proof. unfold same_shards. congruence. Qed.
Lemma kept_trans but w1 w2 w3 : kept but w1 w2 -> kept but w2 w3 -> kept but w1 w3.
Proof. intros H1 H2 k d Hk Hd. by apply H2, H1. Qed.
Lemma same_kept but w w' : same_shards w w' -> kept but w w'.
Proof. intros Hs k d _. unfold unix_disk. by rewrite Hs. Qed.
Lemma same_disk w w' : same_shards w w' -> unix_disk w' = unix_disk w.
Proof. intros Hs. unfold unix_disk. by rewrite Hs. Qed.
Lemma moves_kept but {A} (m : Act place A) : moves same_shards m -> moves (kept but) m.
Proof. intros H s. apply same_kept, H. Qed.

Lemma moves_call (R : place -> place -> Prop) {A} (act : Act place A) :
  (forall w, R w (ux_ticked w)) -> (forall w, R w (act (ux_ticked w)).2) -> moves R (call E act).
Proof. intros H1 H2 w. unfold call. destruct (ue_fail E (ux_tick w)); [apply H1|apply H2]. Qed.
Lemma moves_reads {A} (f : place -> result A) : moves same_shards (call E (reads f)).
Proof. by apply moves_call. Qed.
Lemma moves_flushed : moves same_shards (flushed E).
Proof. by apply moves_call. Qed.
Lemma moves_ctx : moves same_shards (u_ctx E).
Proof. done. Qed.
Lemma moves_handle : moves same_shards (no_handle E).
Proof. done. Qed.
Lemma moves_random : moves same_shards (randomTemporaryName E).
Proof. done. Qed.
Lemma moves_corrupted (R : place -> place -> Prop) {A} (m : Act place A) : moves R m -> moves R (as_corrupted m).
Proof. intros H s. specialize (H s). unfold as_corrupted. by destruct (m s) as [[?|?] ?]. Qed.

#[local] Hint Resolve moves_reads moves_flushed moves_ctx moves_handle moves_random same_blocks_refl same_blocks_trans : same_shards.
#[local] Hint Extern 5 (moves same_shards _) => apply moves_reads : same_shards.
(** Take an action apart whose system calls only read. *)
Ltac still :=
  repeat first
    [ solve [auto 2 with same_shards nocore]
    | apply moves_bind; [exact same_blocks_trans| |intros ?]
    | apply moves_ret; exact same_blocks_refl | apply moves_pure; exact same_blocks_refl
    | apply moves_outcome | apply moves_wrapped | apply moves_corrupted
    | case_match ].

Lemma openShard_error_same sh c e : moves same_shards (openShard_error E sh c e).
Proof. unfold openShard_error. cbv zeta. still. Qed.
Lemma readBlock_error_same sh n e : moves same_shards (readBlock_error E sh n e).
Proof. unfold readBlock_error. cbv zeta. still. Qed.
Lemma require_same sh : moves same_shards (requireUnixDirectory E sh).
Proof. unfold requireUnixDirectory. still. Qed.
#[local] Hint Resolve openShard_error_same readBlock_error_same require_same : same_shards.

Lemma openShard_same sh : moves same_shards (openShard E sh false).
Proof. unfold openShard. still. Qed.
#[local] Hint Resolve openShard_same : same_shards.
Lemma ensure_same sh : moves same_shards (u_ensureDurable E sh).
Proof. unfold u_ensureDurable. cbn [each]. still. Qed.
Lemma read_same sh n m : moves same_shards (u_readBlock E sh n m).
Proof. unfold u_readBlock. still. Qed.

(** A shard that was opened for reading is safe. *)
Lemma call_Ok {A} (act : Act place A) w a w' : call E act w = (Ok a, w') -> act (ux_ticked w) = (Ok a, w').
Proof. unfold call. by destruct (ue_fail E (ux_tick w)). Qed.
Lemma find_shard_Ok sh (w : place) d : find_shard sh w = Ok d -> ux_shards w !! sh = Some d.
Proof. apply or_err_Ok. Qed.
Lemma find_file_Ok sh n (w : place) f : find_file sh n w = Ok f -> exists d, ux_shards w !! sh = Some d /\ sd_files d !! n = Some f.
Proof. unfold find_file. intros H. simplify_result. unfold find_shard in *. repeat match goal with H : or_err _ _ = Ok _ |- _ => apply or_err_Ok in H end. eauto. Qed.

Lemma shards_with f (w : place) : ux_shards (with_shards f w) = f (ux_shards w).
Proof. done. Qed.
Lemma shards_ticked (w : place) : ux_shards (ux_ticked w) = ux_shards w.
Proof. done. Qed.

Lemma moves_run {A} (R : place -> place -> Prop) (m : Act place A) w r w' : moves R m -> m w = (r, w') -> R w w'.
Proof. intros H Hm. specialize (H w). by rewrite Hm in H. Qed.

Lemma stat_shard_Ok sh w d w' : stat_shard E sh w = (Ok d, w') -> ux_shards w !! sh = Some d /\ same_shards w w'.
Proof. intros H%call_Ok. apply reads_Ok in H as [H ->]. by apply find_shard_Ok in H. Qed.
Lemma stat_file_Ok sh n w f w' : stat_file E sh n w = (Ok f, w') ->
  same_shards w w' /\ exists d, ux_shards w !! sh = Some d /\ sd_files d !! n = Some f.
Proof. intros H%call_Ok. apply reads_Ok in H as [H ->]. split; [done|]. by apply find_file_Ok in H. Qed.

Lemma openShard_error_fails sh c e w u w' : openShard_error E sh c e w <> (Ok u, w').
Proof.
  unfold openShard_error. cbv zeta. destruct (_ && _); [done|]. destruct (errors_Is e ELOOP || _); [done|].
  destruct (_ || _); [|done]. intros H. simplify_act. by repeat case_match.
Qed.
Lemma readBlock_error_fails sh n e w d w' : readBlock_error E sh n e w <> (Ok d, w').
Proof.
  unfold readBlock_error. cbv zeta. destruct (errors_Is e ENOENT); [done|]. destruct (errors_Is e ELOOP || _); [done|].
  destruct (_ || _); [|done]. intros H. simplify_act. by repeat case_match.
Qed.

Lemma requireUnixDirectory_Ok sh w u w' : requireUnixDirectory E sh w = (Ok u, w') ->
  same_shards w w' /\ exists d, ux_shards w !! sh = Some d /\ sd_kind d = KDirectory /\ sd_uid d = ue_euid E.
Proof.
  intros H. unfold requireUnixDirectory in H. simplify_act. simplify_guards.
  match goal with H : stat_shard _ _ _ = _ |- _ => apply stat_shard_Ok in H as [Hd Hs] end. split; [done|]. eexists. split_and!; [done|done|lia].
Qed.
Lemma as_corrupted_Ok {A} (m : Act place A) w a w' : as_corrupted m w = (Ok a, w') -> m w = (Ok a, w').
Proof. unfold as_corrupted. destruct (m w) as [[]]; congruence. Qed.

(** A shard that was opened is safe. *)
Lemma openShard_safe sh c w u w' : openShard E sh c w = (Ok u, w') ->
  exists d, ux_shards w' !! sh = Some d /\ unsafeUnixShardMetadata E d = false.
Proof.
  intros H. unfold openShard in H. apply act_bind_Ok in H as (created & w1 & _ & H). apply act_bind_Ok in H as (opened & w2 & _ & H).
  destruct opened as [[]|e]; [|by apply openShard_error_fails in H].
  apply act_bind_Ok in H as (none & w3 & _ & H). apply act_bind_Ok in H as (? & w4 & [_ ->]%pure_Ok & H).
  apply act_bind_Ok in H as (? & w5 & (Es & d & Hd & Hk & Hu)%as_corrupted_Ok%requireUnixDirectory_Ok & H).
  apply act_bind_Ok in H as (stat & w6 & [Hst Es2]%wrapped_Ok%stat_shard_Ok & H). rewrite Es, Hd in Hst. injection Hst as <-.
  apply act_bind_Ok in H as (? & w7 & [_ ->]%pure_Ok & H). apply act_bind_Ok in H as (? & w8 & H8 & H). destruct c.
  - apply wrapped_Ok, call_Ok in H8. injection H8 as _ <-. apply wrapped_Ok in H.
    apply (moves_run same_shards) in H; [|apply moves_flushed]. rewrite H.
    rewrite shards_with, lookup_alter_eq, shards_ticked, Es2, Es, Hd. eexists. split; [done|]. unfold unsafeUnixShardMetadata. cbn.
    rewrite Hk, Hu, bool_decide_eq_true_2, !Z.eqb_refl by done. done.
  - apply pure_Ok in H8 as [Hm ->]. apply ret_Ok in H as [_ ->]. simplify_result. simplify_guards. exists d. rewrite Es2, Es, Hd. split; [done|].
    unfold unsafeUnixShardMetadata. rewrite Hk, Hu, bool_decide_eq_true_2, Z.eqb_refl by done. cbn. by rewrite Hm.
Qed.

Lemma u_readBlock_stored sh n m w data w' : u_readBlock E sh n m w = (Ok data, w') -> unix_disk w (sh, n) = Some data.
Proof.
  intros H. unfold u_readBlock in H. apply act_bind_Ok in H as (? & w1 & H1 & H). apply act_bind_Ok in H as (? & w2 & H2 & H).
  apply (moves_run same_shards) in H1; [|apply moves_ctx]. pose proof (openShard_safe _ _ _ _ _ H2) as (d & Hd & Hsafe).
  apply (moves_run same_shards) in H2; [|apply openShard_same]. apply act_bind_Ok in H as (opened & w3 & H3 & H).
  apply (moves_run same_shards) in H3; [|still]. destruct opened as [[]|e]; [|by apply readBlock_error_fails in H].
  apply act_bind_Ok in H as (none & w4 & H4 & H). apply (moves_run same_shards) in H4; [|apply moves_handle].
  apply act_bind_Ok in H as (? & w5 & [_ ->]%pure_Ok & H).
  apply act_bind_Ok in H as (f & w6 & (H6 & d' & Hd' & Hf)%wrapped_Ok%stat_file_Ok & H).
  apply act_bind_Ok in H as (? & w7 & [Hk ->]%pure_Ok & H). apply act_bind_Ok in H as (? & w8 & [Hp ->]%pure_Ok & H).
  apply act_bind_Ok in H as (? & w9 & [Hl ->]%pure_Ok & H). apply act_bind_Ok in H as (got & w10 & Hx & H).
  apply act_bind_Ok in H as (? & w11 & [_ ->]%pure_Ok & H). apply act_bind_Ok in H as (? & w12 & _ & H). apply ret_Ok in H as [-> ->].
  apply wrapped_Ok, call_Ok, reads_Ok in Hx as [Hx _]. simplify_result. simplify_guards.
  match goal with H : find_file _ _ _ = Ok _ |- _ => apply find_file_Ok in H as (d'' & Hd'' & Hf'') end. unfold same_shards in *. cbn in Hd''.
  assert (d' = d) as -> by congruence. assert (d'' = d) as -> by congruence. rewrite Hf in Hf''. injection Hf'' as <-.
  unfold unix_disk, stored_in. cbn. rewrite <- H1, <- H2, Hd. cbn. rewrite Hf. cbn. rewrite Hsafe. cbn.
  assert (unsafeUnixBlockMetadata E f = false) as ->.
  { unfold unsafeUnixBlockMetadata. rewrite bool_decide_eq_true_2, (proj2 (Z.ltb_ge _ _)) by (done || lia).
    by repeat match goal with H : (_ =? _)%Z = true |- _ => rewrite H end. }
  f_equal. rewrite take_ge by lia. done.
Qed.

(** ** Writing a block *)
Definition at_file (sh n : string) (k : string * string) : Prop := k = (sh, n).

Lemma stored_other sh n f shards k : k <> (sh, n) ->
  stored_in (alter (fun d => mkShard (sd_kind d) (sd_mode d) (sd_uid d) (partial_alter f n (sd_files d))) sh shards) k = stored_in shards k.
Proof.
  intros Hk. destruct k as [sh' n']. unfold stored_in. cbn [fst snd]. destruct (decide (sh' = sh)) as [->|Hs].
  - rewrite lookup_alter_eq. destruct (shards !! sh) as [d|]; [|done]. cbn. rewrite lookup_partial_alter_ne by congruence. done.
  - by rewrite lookup_alter_ne by done.
Qed.
Lemma with_file_kept sh n f (w : place) : kept (at_file sh n) w (with_file sh n f w).
Proof. intros k d Hk Hd. unfold unix_disk, with_file. rewrite shards_with, stored_other; done. Qed.

Lemma mkdirat_kept but sh : moves (kept but) (mkdirat E sh).
Proof.
  apply moves_call; [by intros w; apply same_kept|]. intros w. rewrite shards_ticked.
  destruct (ux_shards w !! sh) as [d|] eqn:Ed; [by apply same_kept|]. intros [sh' n'] b _ Hb. unfold unix_disk, stored_in in *. cbn [snd fst] in *.
  rewrite shards_with, lookup_insert_ne; [done|]. intros ->. by rewrite Ed in Hb.
Qed.
Lemma chmod_shard_kept but sh : moves (kept but) (chmod_shard E sh).
Proof.
  apply moves_call; [by intros w; apply same_kept|]. intros w [sh' n'] b _ Hb. unfold unix_disk, stored_in in *. cbn [snd fst] in *.
  rewrite shards_with, shards_ticked. destruct (decide (sh' = sh)) as [->|Hs]; [|by rewrite lookup_alter_ne].
  rewrite lookup_alter_eq. destruct (ux_shards w !! sh) as [d|]; [|done]. cbn in *. destruct (sd_files d !! n') as [f|]; [|done]. cbn in *.
  destruct (unsafeUnixShardMetadata E d) eqn:Eu; [done|]. unfold unsafeUnixShardMetadata in *. cbn [sd_kind sd_mode sd_uid].
  apply orb_false_iff in Eu as [[E1 E2]%orb_false_iff E3]. rewrite E1, E3. exact Hb.
Qed.

Lemma openShard_kept but sh : moves (kept but) (openShard E sh true).
Proof.
  assert (forall A (m : Act place A), moves same_shards m -> moves (kept but) m) as Hsame by (intros A m; apply moves_kept).
  unfold openShard. repeat first
    [ solve [apply Hsame; still] | apply mkdirat_kept | apply chmod_shard_kept | apply moves_outcome | apply moves_wrapped
    | apply moves_bind; [apply kept_trans| |intros ?] | case_match ].
Qed.

(** The file of this name and the shard around it. *)
Definition file_is (sh n : string) (f : inode) (w : place) : Prop :=
  exists d, ux_shards w !! sh = Some d /\ sd_files d !! n = Some f /\ unsafeUnixShardMetadata E d = false.
Lemma file_is_same sh n f w w' : same_shards w w' -> file_is sh n f w -> file_is sh n f w'.
Proof. unfold file_is. by intros ->. Qed.
Lemma with_file_is sh n f g (w : place) : file_is sh n f w -> file_is sh n (g f) (with_file sh n (fmap g) w).
Proof.
  intros (d & Hd & Hf & Hu). unfold file_is, with_file. rewrite shards_with, lookup_alter_eq, Hd. eexists. split; [done|]. cbn.
  rewrite lookup_partial_alter_eq, Hf. done.
Qed.

Lemma write_rounds_kept rounds sh n data : moves (kept (at_file sh n)) (write_rounds E rounds sh n data).
Proof.
  revert data. induction rounds as [|rounds IH]; intros [|b data]; try (by intros w; apply same_kept). cbn [write_rounds].
  apply moves_bind; [apply kept_trans|apply moves_kept, moves_ctx|intros _]. apply moves_bind; [apply kept_trans| |intros k].
  - intros w. unfold write_some. cbn. eapply kept_trans; [|apply with_file_kept]. by apply same_kept.
  - destruct (k =? 0); [by intros w; apply same_kept|apply IH].
Qed.

Lemma write_rounds_Ok rounds sh n data f w u w' :
  file_is sh n f w -> write_rounds E rounds sh n data w = (Ok u, w') ->
  file_is sh n (mkInode (in_kind f) (in_links f) (in_mode f) (in_uid f) (in_data f ++ data)) w'.
Proof.
  revert data f w. induction rounds as [|rounds IH]; intros [|b data] f w Hf H; cbn [write_rounds] in H; try done;
    try (apply ret_Ok in H as [_ ->]; rewrite app_nil_r; by destruct f).
  apply act_bind_Ok in H as (? & w1 & H1 & H). apply (moves_run same_shards) in H1; [|apply moves_ctx].
  apply act_bind_Ok in H as (k & w2 & H2 & H). destruct (k =? 0); [done|]. unfold write_some in H2.
  destruct (ue_fail E (ux_tick w1)); [done|]. injection H2 as <- <-.
  apply (IH _ (mkInode (in_kind f) (in_links f) (in_mode f) (in_uid f) (in_data f ++ take (ue_written E (ux_tick w1) `min` length (b :: data)) (b :: data)))) in H.
  - cbn [in_data in_kind in_links in_mode in_uid] in H. by rewrite <- (assoc_L (++)), take_drop in H.
  - apply (with_file_is sh n f (fun f => mkInode (in_kind f) (in_links f) (in_mode f) (in_uid f) (in_data f ++ take _ (b :: data)))).
    eapply file_is_same; [|exact Hf]. done.
Qed.

(** What a write leaves of the stored blocks. *)
Definition replaced (sh n : string) (data : body) (tmp : string) (w w' : place) : Prop :=
  forall k d, k <> (sh, tmp) -> unix_disk w k = Some d -> unix_disk w' k = Some d \/ k = (sh, n) /\ unix_disk w' k = Some data.
Lemma kept_replaced sh n data tmp w w' : kept (at_file sh tmp) w w' -> replaced sh n data tmp w w'.
Proof. intros H k d Hk Hd. left. by apply H. Qed.
Lemma replaced_kept sh n data tmp w w' w'' : replaced sh n data tmp w w' -> kept (at_file sh tmp) w' w'' -> replaced sh n data tmp w w''.
Proof. intros H1 H2 k d Hk Hd. destruct (H1 k d Hk Hd) as [H|[? H]]; [left|right; split; [done|]]; by apply H2. Qed.
Lemma kept_then_replaced sh n data tmp w w' w'' : kept (at_file sh tmp) w w' -> replaced sh n data tmp w' w'' -> replaced sh n data tmp w w''.
Proof. intros H1 H2 k d Hk Hd. by apply H2, H1. Qed.

(** The complete temporary file. *)
Definition finished_file (data : body) : inode := mkInode KRegular 1 384 (ue_euid E) data.

Lemma fill_kept sh tmp data : moves (kept (at_file sh tmp)) (fill_temporary E sh tmp data).
Proof.
  assert (forall A (m : Act place A), moves same_shards m -> moves (kept (at_file sh tmp)) m) as Hsame by (intros A m; apply moves_kept).
  unfold fill_temporary, writeAllWithContext. repeat first
    [ solve [apply Hsame; still] | apply write_rounds_kept | apply moves_wrapped | apply moves_bind; [apply kept_trans| |intros ?] ].
  apply moves_call; [by intros w; apply same_kept|]. intros w. eapply kept_trans; [|apply with_file_kept]. by apply same_kept.
Qed.

Lemma fill_Ok sh tmp data mode w u w' : file_is sh tmp (mkInode KRegular 1 mode (ue_euid E) []) w ->
  fill_temporary E sh tmp data w = (Ok u, w') -> file_is sh tmp (finished_file data) w'.
Proof.
  intros Hf H. unfold fill_temporary in H. apply act_bind_Ok in H as (? & w1 & H1 & H). apply (moves_run same_shards) in H1; [|apply moves_handle].
  apply act_bind_Ok in H as (? & w2 & [_ ->]%pure_Ok & H). apply act_bind_Ok in H as (? & w3 & H3%wrapped_Ok%call_Ok & H). injection H3 as _ <-.
  apply act_bind_Ok in H as (? & w4 & H4%wrapped_Ok & H). apply act_bind_Ok in H as (? & w5 & H5%wrapped_Ok & H).
  apply act_bind_Ok in H as (? & w6 & H6 & H). apply wrapped_Ok in H.
  apply (moves_run same_shards) in H5, H6, H; [|apply moves_flushed|apply moves_ctx|apply moves_flushed].
  eapply (file_is_same _ _ _ w4); [unfold same_shards in *; congruence|]. unfold writeAllWithContext in H4.
  eapply (write_rounds_Ok _ _ _ _ (mkInode KRegular 1 384 (ue_euid E) [])) in H4; [done|].
  apply (with_file_is sh tmp _ (fun f => mkInode (in_kind f) (in_links f) 384 (in_uid f) (in_data f))) in Hf.
  unfold file_is, with_file in *. rewrite shards_with in *. by rewrite shards_ticked, H1.
Qed.

Lemma rename_replaced sh tmp n data w r w' : file_is sh tmp (finished_file data) w ->
  renameat E sh tmp n w = (r, w') -> replaced sh n data tmp w w'.
Proof.
  intros (ds & Hd & Hf & Hu). unfold renameat, call. destruct (ue_fail E (ux_tick w)); [intros [= <- <-]; apply kept_replaced; by apply same_kept|].
  assert (find_file sh tmp (ux_ticked w) = Ok (finished_file data)) as ->.
  { unfold find_file, find_shard. rewrite shards_ticked, Hd. cbn. by rewrite Hf. }
  set (w1 := with_file sh n _ _). intros H. assert (same_shards w w' \/ w' = w1) as [Hs| ->].
  { repeat case_match; simplify_eq; first [by right|by left]. }
  { by apply kept_replaced, same_kept. }
  intros k d Hk Hkd. unfold w1, with_file, unix_disk. rewrite !shards_with. destruct (decide (k = (sh, n))) as [->|Hn].
  - right. split; [done|]. unfold stored_in. cbn [fst snd]. rewrite shards_ticked, !lookup_alter_eq, Hd. cbn -[unsafeUnixBlockMetadata].
    rewrite lookup_partial_alter_eq. cbn -[unsafeUnixBlockMetadata]. change (unsafeUnixShardMetadata E _) with (unsafeUnixShardMetadata E ds).
    rewrite Hu. unfold unsafeUnixBlockMetadata, finished_file. cbn. by rewrite bool_decide_eq_true_2, !Z.eqb_refl by done.
  - left. rewrite !stored_other by done. done.
Qed.

(** The temporary name was free, and the file under it is empty and ours. *)
Lemma create_file_Ok sh tmp w u w' ds : ux_shards w !! sh = Some ds -> unsafeUnixShardMetadata E ds = false ->
  create_exclusive E sh tmp w = (Ok u, w') ->
  unix_disk w (sh, tmp) = None /\ kept (at_file sh tmp) w w' /\ exists mode, file_is sh tmp (mkInode KRegular 1 mode (ue_euid E) []) w'.
Proof.
  intros Hd Hu H%call_Ok. unfold find_shard in H. rewrite shards_ticked, Hd in H. cbn [or_err] in H.
  destruct (sd_files ds !! tmp) eqn:Ef; [done|]. injection H as _ <-. split_and!.
  - unfold unix_disk, stored_in. cbn [fst snd]. rewrite Hd. cbn. by rewrite Ef.
  - eapply kept_trans; [|apply with_file_kept]. by apply same_kept.
  - eexists. unfold file_is, with_file. rewrite shards_with, shards_ticked, lookup_alter_eq, Hd. eexists. split; [done|]. cbn.
    by rewrite lookup_partial_alter_eq.
Qed.
Lemma create_Err sh tmp w e w' : create_exclusive E sh tmp w = (Err e, w') -> same_shards w w'.
Proof. unfold create_exclusive, call. repeat case_match; by intros [= <- <-]. Qed.
Lemma unlink_kept sh tmp : moves (kept (at_file sh tmp)) (unlinkat E sh tmp).
Proof. apply moves_call; [by intros w; apply same_kept|]. intros w. eapply kept_trans; [|apply with_file_kept]. by apply same_kept. Qed.

Lemma installed_replaced sh tmp n data mode w : file_is sh tmp (mkInode KRegular 1 mode (ue_euid E) []) w ->
  replaced sh n data tmp w
    (unless_installed E sh tmp (_ ← fill_temporary E sh tmp data; wrapped "install local CAS block" (renameat E sh tmp n)) w).2.
Proof.
  intros Hf. unfold unless_installed, mbind, Act_bind. pose proof (fill_kept sh tmp data w) as Hk.
  destruct (fill_temporary E sh tmp data w) as [[u|e] w1] eqn:Ef; cbn in Hk; cbn [snd].
  2: { eapply kept_then_replaced; [exact Hk|]. apply kept_replaced, unlink_kept. }
  apply (fill_Ok _ _ _ mode) in Ef; [|done]. eapply kept_then_replaced; [exact Hk|]. unfold wrapped.
  destruct (renameat E sh tmp n w1) as [[v|e] w2] eqn:Er; cbn [wrap_err]; apply (rename_replaced _ _ _ data) in Er; try done.
  eapply replaced_kept; [exact Er|]. apply unlink_kept.
Qed.

Lemma u_writeBlock_replaces sh n data w r w' : u_writeBlock E sh n data w = (r, w') ->
  forall k d, unix_disk w k = Some d -> unix_disk w' k = Some d \/ k = (sh, n) /\ unix_disk w' k = Some data.
Proof.
  unfold u_writeBlock, mbind at 1, Act_bind at 1. destruct (u_ctx E w) as [[u|e] w1] eqn:E1; (apply (moves_run same_shards) in E1; [|apply moves_ctx]).
  2: { intros [= <- <-] k d Hd. left. by rewrite (same_disk _ _ E1). }
  unfold mbind at 1, Act_bind at 1. pose proof (openShard_kept (fun _ => False) sh w1) as Hk.
  destruct (openShard E sh true w1) as [[[]|e] w2] eqn:E2; cbn in Hk.
  2: { intros [= <- <-] k d Hd. left. apply Hk; [by intros []|]. by rewrite (same_disk _ _ E1). }
  apply openShard_safe in E2 as (ds & Hds & Hu). unfold mbind at 1, Act_bind at 1, randomTemporaryName.
  assert (forall k d, unix_disk w k = Some d -> unix_disk (ux_ticked w2) k = Some d) as Hsofar.
  { intros k d Hd. apply Hk; [by intros []|]. by rewrite (same_disk _ _ E1). }
  destruct (mbind _ _) as [tmp|e]; [|intros [= <- <-]; eauto].
  unfold mbind at 1, Act_bind at 1, wrapped at 1. destruct (create_exclusive E sh tmp (ux_ticked w2)) as [[v|e] w3] eqn:E3; cbn [wrap_err].
  2: { apply create_Err in E3. intros [= <- <-] k d Hd. left. rewrite (same_disk _ _ E3). eauto. }
  apply (create_file_Ok _ _ _ _ _ ds) in E3 as (Hfree & Hk3 & mode & Hf); [|done|done].
  pose proof (installed_replaced sh tmp n data mode w3 Hf) as Hrep. intros H k d Hd.
  assert (same_shards (unless_installed E sh tmp (_ ← fill_temporary E sh tmp data; wrapped "install local CAS block" (renameat E sh tmp n)) w3).2 w') as Hend.
  { unfold mbind at 1, Act_bind at 1 in H. destruct (unless_installed _ _ _ _ w3) as [[x|e] w4]; [|by injection H as <- <-].
    apply (moves_run same_shards) in H; [done|]. apply moves_wrapped, moves_flushed. }
  rewrite (same_disk _ _ Hend). apply Hsofar in Hd. apply (Hrep k d).
  - intros ->. congruence.
  - apply Hk3; [|done]. intros ->. congruence.
Qed.

#[global] Instance unix_platform_laws : PlatformLaws (Unix_store E) (u_ctx E) unix_disk.
Proof.
  split.
  - intros sh n m w r w' H. cbn in H. split; [|intros data ->; by eapply u_readBlock_stored].
    apply (moves_run same_shards) in H; [|apply read_same]. by apply same_disk.
  - intros sh n data w r w' H. by eapply u_writeBlock_replaces.
  - intros sh w r w' H. apply (moves_run same_shards) in H; [|apply ensure_same]. by apply same_disk.
  - intros w r w' H. apply (moves_run same_shards) in H; [|apply moves_ctx]. by apply same_disk.
Qed.

(** C32. The local store on a Unix directory never damages a block: whichever
    system calls of a batch write fail, at any point of any block of the batch,
    every block that could be read before, with bytes that hash to its CID,
    still can be.  When the batch succeeds, every block of it is stored in a
    safe file with bytes that hash to its CID, also where something else was
    before.  No other process changes the directory during the call. *)
Theorem local_store_keeps_blocks lim blocks s r s' :
  l_PutBatch (Unix_store E) lim (u_ctx E) blocks s = (r, s') ->
  keeps_blocks unix_disk s s' /\
  forall results, r = Ok results -> Forall (fun b => exists key, CIDForBlock b = Ok key /\ intact unix_disk s' key) blocks.
Proof. apply l_PutBatch_stores, unix_platform_laws. Qed.
End Unix.

(** ** The batcher *)
Section Batcher.
Context {St : Type} (inner : Store St) (put : body -> Act St (option Cid)).

Definition put_one (p : CasBlock) : Act (batcher St) (option Cid) := a_PutWithCodec (cb_Data p) (cb_Codec p).
Definition acknowledged (p : CasBlock) (c : option Cid) : Prop := exists k, CIDForBlock p = Ok k /\ c = Some k.

(** What is pending: one block for every CID that was handed out. *)
Record pending (puts : list CasBlock) (b : batcher St) : Prop := {
  pe_distinct : NoDup (CIDForBlock <$> ba_blocks b);
  pe_covers : forall p, p ∈ puts -> CIDForBlock p ∈ CIDForBlock <$> ba_blocks b;
  pe_asked : forall q, q ∈ ba_blocks b -> q ∈ puts;
  pe_seen : forall c, is_Some (ba_seen b !! cid_String c) <-> Ok c ∈ CIDForBlock <$> ba_blocks b
}.

Lemma put_one_pending puts p b c b' :
  pending puts b -> put_one p b = (Ok c, b') -> pending (puts ++ [p]) b' /\ acknowledged p c /\ ba_inner b' = ba_inner b /\ ba_uploaded b' = ba_uploaded b.
Proof.
  intros [H1 H2 H3 H4]. unfold put_one, a_PutWithCodec. destruct p as [data codec]. cbn.
  destruct (CIDForBlock (mkCasBlock data codec)) as [k|e] eqn:Ek; [|done]. intros [= <- <-].
  destruct (ba_seen b !! cid_String k) as [k'|] eqn:Es; (split_and!; [|by exists k|done|done]).
  - assert (Ok k ∈ CIDForBlock <$> ba_blocks b) as Hin by (apply H4; eauto). split; [done| |set_solver|done].
    intros p [Hp| ->%list_elem_of_singleton]%elem_of_app; [by apply H2|by rewrite Ek].
  - assert (Ok k ∉ CIDForBlock <$> ba_blocks b) as Hn by (rewrite <- H4, Es; by intros [? ?]).
    split; cbn; rewrite ?fmap_app; cbn; rewrite ?Ek.
    + apply NoDup_app. split_and!; [done| |apply NoDup_singleton]. intros x Hx ->%list_elem_of_singleton. done.
    + intros p [Hp| ->%list_elem_of_singleton]%elem_of_app; [|rewrite Ek]; apply elem_of_app; [left; by apply H2|right; by left].
    + set_solver.
    + intros c. rewrite elem_of_app, list_elem_of_singleton, <- H4. destruct (decide (c = k)) as [->|Hc].
      * rewrite lookup_insert_eq. naive_solver.
      * rewrite lookup_insert_ne by (intros E; by apply Hc, cid_String_inj). naive_solver.
Qed.

Lemma put_all_pending puts s cids b :
  each put_one puts (newAddCASBatcher s) = (Ok cids, b) ->
  pending puts b /\ Forall2 acknowledged puts cids /\ ba_inner b = s /\ ba_uploaded b = 0.
Proof.
  assert (forall done0 b0, pending done0 b0 -> each put_one puts b0 = (Ok cids, b) ->
    pending (done0 ++ puts) b /\ Forall2 acknowledged puts cids /\ ba_inner b = ba_inner b0 /\ ba_uploaded b = ba_uploaded b0) as Hgen.
  { revert cids. induction puts as [|p puts IH]; intros cids done0 b0 H0 H; cbn in H.
    { simplify_act. rewrite app_nil_r. by split_and!. }
    apply act_bind_Ok in H as (c & b1 & Hc & H). apply act_bind_Ok in H as (cs & b2 & Hcs & H). apply ret_Ok in H as [-> ->].
    destruct (put_one_pending _ _ _ _ _ H0 Hc) as (H1 & Ha & E1 & E2).
    destruct (IH _ _ _ H1 Hcs) as (H2 & Hf & E3 & E4). rewrite <- app_assoc in H2. split_and!; [done|by constructor|congruence|congruence]. }
  intros H. apply (Hgen []) in H; [done|]. split; cbn; try set_solver; [constructor|].
  intros c. rewrite lookup_empty. split; [by intros [? ?]|set_solver].
Qed.

Lemma check_flushed_Ok blocks results : length results = length blocks ->
  check_flushed blocks results = Ok () -> Forall2 (fun p r => acknowledged p (pr_CID r)) blocks results.
Proof.
  revert results. induction blocks as [|b blocks IH]; intros [|r results] Hl H; cbn in *; try done; try constructor;
    simplify_result; simplify_guards; [by eexists|apply IH; [lia|done]].
Qed.

(** Nothing that was put into the batcher is lost or sent twice.  A put
    answers with the canonical CID at once; the pending blocks are the puts
    with one block for each CID.  When a flush succeeds, the store behind was
    asked to write exactly these blocks and answered every one with its CID;
    when it fails, all of them are still pending. *)
Theorem flush_acknowledges_every_block puts s cids b r b' :
  each put_one puts (newAddCASBatcher s) = (Ok cids, b) -> Flush inner put b = (r, b') ->
  Forall2 acknowledged puts cids /\ pending puts b /\
  match r with
  | Err _ => ba_blocks b' = ba_blocks b /\ ba_seen b' = ba_seen b
  | Ok _ => ba_blocks b' = [] /\ ba_seen b' = (if bool_decide (puts = []) then ba_seen b else ∅) /\
      ba_uploaded b' = length (ba_blocks b) /\
      exists results, Forall2 (fun p r => acknowledged p (pr_CID r)) (ba_blocks b) results /\
        PutBlocks inner put (ba_blocks b) s = (Ok results, ba_inner b')
  end.
Proof.
  intros (Hp & Ha & Ei & Eu)%put_all_pending Hf. split_and!; [done..|]. unfold Flush in Hf.
  destruct (ba_blocks b) as [|q blocks] eqn:Eb.
  - simplify_eq. rewrite Eb. assert (puts = []) as ->.
    { destruct puts as [|p puts]; [done|]. pose proof (pe_covers _ _ Hp p) as Hc. rewrite Eb in Hc. set_solver. }
    split_and!; [done|done|done|]. exists []. split; [constructor|done].
  - rewrite Ei in *. destruct (PutBlocks inner put (q :: blocks) s) as [[results|e] s'] eqn:Ef; [|by simplify_eq].
    destruct (fail_if _ _ ≫= _) as [u|e] eqn:Ec; simplify_eq; [|done]. simplify_result. destruct u. simplify_guards.
    match goal with H : (_ =? _) = true |- _ => apply Nat.eqb_eq in H as Hl end. cbn [ba_blocks ba_seen ba_uploaded ba_inner].
    split_and!; [done| |by rewrite Eu|exists results; split; [by apply check_flushed_Ok|done]].
    case_bool_decide as En; [|done]. pose proof (pe_asked _ _ Hp q) as Hq. rewrite Eb, En in Hq. set_solver.
Qed.
End Batcher.
End Contract.

(** * The store theorems at concrete stores. *)

Module Stores.
#[global] Instance blocks : BlockLib (L := TallyCid.lib) := {|
  mh_Sum data := Some data; NewCidV1 _ h := length h; cid_Type _ := Raw; cid_Digest _ := []
|}.
#[global] Instance blocks_laws : BlockLaws (L := TallyCid.lib) blocks.
Proof. split. by intros codec data h [= <-]. Qed.

Definition one : body := bytes "a".
Definition two : body := bytes "bc".
Definition never (t : nat) : option error := None.

Definition holding (data : body) : memory := mkMemory {[ "bafy" +:+ TallyCid.tally (length data) := data ]} 0.

Lemma holding_ok data : mem_ok (L := TallyCid.lib) (holding data).
Proof.
  intros c d. unfold holding. cbn [me_blocks]. rewrite lookup_singleton_Some. intros [E <-].
  apply (cid_String_inj (L := TallyCid.lib) (length data)) in E as <-. done.
Qed.

(** A peer that always answers with the same bytes. *)
Definition liar : Store (L := TallyCid.lib) unit :=
  mkStore (fun _ s => (Ok two, s)) (fun _ s => (Ok true, s)) None None None None.

Lemma every_read_is_authentic_witness :
  (exists e, v_Get (L := TallyCid.lib) liar (Some (1 : nat)) () = (Err e, ())) /\
  (exists data, v_Get (L := TallyCid.lib) liar (Some (2 : nat)) () = (Ok data, ()) /\ cid_Sum (CidLib := TallyCid.lib) (2 : nat) data = Some (2 : nat)).
Proof.
  split; [eexists; vm_compute; reflexivity|]. exists two. split; [reflexivity|].
  destruct (every_read_is_authentic (L := TallyCid.lib)) as (H & _).
  destruct (H unit liar (Some (2 : nat)) () two () eq_refl) as (key & E & Hs). injection E as <-. exact Hs.
Defined.

Lemma verifying_is_transparent_witness :
  v_Get (L := TallyCid.lib) (Memory never) (Some (1 : nat)) (holding one) = mem_Get never (Some (1 : nat)) (holding one).
Proof.
  destruct (verifying_is_transparent (L := TallyCid.lib) (Memory never) mem_ok (memory_honest never)) as (H & _).
  exact (H 1 (holding one) (holding_ok one)).
Defined.

(** A directory whose file for the second block is corrupt; a call writes one
    byte at a time, and the system call at [bad] fails. *)
Definition unix_env (bad : option nat) : uenv :=
  mkUEnv (fun t => if bool_decide (bad = Some t) then Some EPERM else None) (fun _ => None) (fun _ => false)
    (fun t => Ok [ascii_of_nat t]) (fun _ => 1) 1000 18.
Definition block_file (data : body) : inode := mkInode KRegular 1 384 1000 data.
Definition lims : limits := mkLimits 16 64 8.
Definition corrupt : local platformStore :=
  mkLocal false true
    (mkUnix {[ "00" := mkShard KDirectory 448 1000
                 {[ (blockIdentity (L := TallyCid.lib) 2).2 := block_file one; (blockIdentity (L := TallyCid.lib) 1).2 := block_file one ]} ]}
       true true 0).
Definition batch : list CasBlock := [mkCasBlock one 0; mkCasBlock two 0; mkCasBlock one Raw].
Definition stored (bad : option nat) :=
  l_PutBatch (L := TallyCid.lib) (Unix_store (unix_env bad)) lims (u_ctx (unix_env bad)) batch corrupt.

(** The batch succeeds, and with a failing rename it fails and keeps the first
    block. *)
Lemma local_store_keeps_blocks_witness :
  pr_Status <$> (match (stored None).1 with Ok l => l | Err _ => [] end) = [PutStatusAlreadyPresent; PutStatusStored; PutStatusDuplicateInRequest] /\
  Forall (fun b => exists key, CIDForBlock (L := TallyCid.lib) b = Ok key /\ intact (L := TallyCid.lib) (unix_disk (unix_env None)) (stored None).2 key) batch /\
  is_ok (stored (Some 57)).1 = false /\
  intact (L := TallyCid.lib) (unix_disk (unix_env (Some 57))) (stored (Some 57)).2 1.
Proof.
  split; [vm_compute; reflexivity|]. split.
  - destruct (local_store_keeps_blocks (L := TallyCid.lib) (unix_env None) lims batch corrupt (stored None).1 (stored None).2) as [_ H2].
    + apply surjective_pairing.
    + apply (H2 (match (stored None).1 with Ok l => l | Err _ => [] end)). vm_compute. reflexivity.
  - split; [vm_compute; reflexivity|].
    destruct (local_store_keeps_blocks (L := TallyCid.lib) (unix_env (Some 57)) lims batch corrupt (stored (Some 57)).1 (stored (Some 57)).2) as [H1 _].
    + apply surjective_pairing.
    + apply H1. exists one. split; vm_compute; reflexivity.
Defined.

Definition puts : list CasBlock := [mkCasBlock one Raw; mkCasBlock two Raw; mkCasBlock one Raw].
Definition filled := each (put_one (L := TallyCid.lib)) puts (newAddCASBatcher (holding one)).
Definition flushed := Flush (Memory never) (mem_Put (L := TallyCid.lib) never) filled.2.

Lemma flush_acknowledges_every_block_witness :
  ba_blocks flushed.2 = [] /\ ba_uploaded flushed.2 = 2 /\
  exists results, Forall2 (fun p r => acknowledged (L := TallyCid.lib) p (pr_CID r)) (ba_blocks filled.2) results.
Proof.
  destruct (flush_acknowledges_every_block (L := TallyCid.lib) (Memory never) (mem_Put never) puts (holding one)
    (match filled.1 with Ok l => l | Err _ => [] end) filled.2 (Ok ()) flushed.2) as (_ & _ & H1 & _ & H2 & results & H3 & _).
  - vm_compute. reflexivity.
  - vm_compute. reflexivity.
  - split; [exact H1|]. split; [rewrite H2; vm_compute; reflexivity|]. exists results. exact H3.
Defined.
End Stores.
