(* ===== verification/DirManifest.v ===== *)
(** The directory manifests of the UnixFS application model
    (unixfs/model/manifest_encoding.go, directory_manifest.go, manifest_cid.go):
    the canonical encoder, the parser that accepts nothing else, and their
    agreement. *)

From stdpp Require Import base decidable gmap strings list sorting.
From Stdlib Require Import Ascii ZArith Lia ZifyBool.
From S2P Require Import Prelude GoText CidLib Cache WritePlan Effect Cas Json.

Definition ErrInvalidManifest := ErrorsNew "invalid directory manifest".
Definition invalid (text : string) : error := Wrapf text ErrInvalidManifest.

Definition DirectoryManifestVersionV2 : Z := 2.
Definition DirectoryManifestCodec : N := 0x310002.
Definition DirectoryEntryTypeDir : string := "dir".
Definition DirectoryEntryTypeFile : string := "file".

Record DirectoryEntry := mkDirectoryEntry { dn_Name : string; dn_Type : string }.
Record DirectoryManifest := mkDirectoryManifest { dn_Version : Z; dn_Entries : list DirectoryEntry }.
Record DirectoryManifestBlock := mkManifestBlock { db_Codec : N; db_Data : list ascii }.

(** ** Validation *)
Definition validateImmediateChildName (name : string) : result unit :=
  _ ← fail_if (bool_decide (name = EmptyString)) (Errorf "empty child name");
  _ ← fail_if (negb (ValidString name)) (Errorf "child name is not valid UTF-8");
  _ ← fail_if (bool_decide (name = ".") || bool_decide (name = "..")) (Errorf "child name must not be a dot segment");
  _ ← fail_if (ContainsNUL name) (Errorf "child name must not contain NUL");
  _ ← fail_if (Contains name "/") (Errorf "immediate child name must not contain '/'");
  fail_if (Contains name "\") (Errorf "immediate child name must not contain '\'").

(** One round of the loop over the entries; the state is the previous name,
    [None] before the first entry. *)
Definition check_entry (previous : option string) (entry : DirectoryEntry) : result (option string) :=
  _ ← match validateImmediateChildName (dn_Name entry) with Ok u => Ok u | Err _ => Err (invalid "entries") end;
  _ ← fail_if (negb (bool_decide (dn_Type entry = DirectoryEntryTypeDir)) && negb (bool_decide (dn_Type entry = DirectoryEntryTypeFile)))
        (invalid "unsupported type");
  _ ← match previous with
      | None => Ok ()
      | Some name =>
          if String.leb (dn_Name entry) name
          then Err (if bool_decide (dn_Name entry = name) then invalid "duplicate entry" else invalid "entries must be sorted by UTF-8 bytes")
          else Ok ()
      end;
  Ok (Some (dn_Name entry)).

Definition validateDirectoryManifest (manifest : DirectoryManifest) : result unit :=
  _ ← fail_if (negb (bool_decide (dn_Version manifest = DirectoryManifestVersionV2))) (invalid "unsupported version");
  _ ← foldM check_entry None (dn_Entries manifest);
  Ok ().

Definition normalizeDirectoryEntries (entries : list DirectoryEntry) : result (list DirectoryEntry) :=
  let normalized := sort_by_string dn_Name entries in
  _ ← validateDirectoryManifest (mkDirectoryManifest DirectoryManifestVersionV2 normalized);
  Ok normalized.

(** ** The canonical encoding *)
Definition hex_digit (n : N) : ascii := nth (N.to_nat n) (bytes "0123456789abcdef") Ascii.zero.

Definition escape_rune (r : N) : list ascii :=
  if (r =? 34)%N then [backslash; quote]
  else if (r =? 92)%N then [backslash; backslash]
  else if (r =? 8)%N then bytes "\b"
  else if (r =? 12)%N then bytes "\f"
  else if (r =? 10)%N then bytes "\n"
  else if (r =? 13)%N then bytes "\r"
  else if (r =? 9)%N then bytes "\t"
  else if (r <? 0x20)%N then bytes "\u00" ++ [hex_digit (r / 16); hex_digit (r mod 16)]
  else EncodeRune r.

Definition appendJSONString (value : string) : list ascii := quote :: concat (escape_rune <$> runes (bytes value)) ++ [quote].

(** A quoted word of the format. *)
Definition word (w : string) : list ascii := quote :: bytes w ++ [quote].

Definition entry_bytes (entry : DirectoryEntry) : list ascii :=
  bytes "{" ++ word "name" ++ bytes ":" ++ appendJSONString (dn_Name entry) ++ bytes "," ++ word "type" ++ bytes ":" ++ appendJSONString (dn_Type entry) ++ bytes "}".

Fixpoint entries_bytes (entries : list DirectoryEntry) : list ascii :=
  match entries with
  | [] => []
  | [entry] => entry_bytes entry
  | entry :: entries => entry_bytes entry ++ bytes "," ++ entries_bytes entries
  end.

Definition marshalDirectoryEntries (entries : list DirectoryEntry) : result (list ascii) :=
  normalized ← normalizeDirectoryEntries entries;
  Ok (bytes "{" ++ word "entries" ++ bytes ":[" ++ entries_bytes normalized ++ bytes "]}").

(** ** The parser *)
Definition only_keys (keys : list string) (ms : list (list ascii * json)) : bool := forallb (fun m => bool_decide (m.1 ∈ bytes <$> keys)) ms.

Definition parse_entry (object : list (list ascii * json)) : result DirectoryEntry :=
  _ ← fail_if (negb (only_keys ["name"; "type"] object)) (invalid "unknown field");
  match field "name" object, field "type" object with
  | Some nameRaw, Some typeRaw =>
      name ← or_err (to_string nameRaw) (invalid "name");
      type ← or_err (to_string typeRaw) (invalid "type");
      Ok (mkDirectoryEntry (of_bytes name) (of_bytes type))
  | _, _ => Err (invalid "name and type are required")
  end.

Definition parseDirectoryJSON (data : list ascii) : result DirectoryManifest :=
  _ ← fail_if (negb (utf8_valid data)) (invalid "manifest is not UTF-8");
  raw ← or_err (v ← Unmarshal data; to_map v) (invalid "json");
  _ ← fail_if (negb (only_keys ["entries"] raw)) (invalid "unknown field");
  encodedEntries ← or_err (field "entries" raw) (invalid "missing required field entries");
  values ← or_err (to_slice encodedEntries) (invalid "invalid entries array");
  entryObjects ← mapM (fun v => or_err (to_map v) (invalid "invalid entries array")) values;
  entries ← mapM parse_entry entryObjects;
  let manifest := mkDirectoryManifest DirectoryManifestVersionV2 entries in
  _ ← validateDirectoryManifest manifest;
  canonical ← marshalDirectoryEntries entries;
  _ ← fail_if (negb (bool_decide (data = canonical))) (invalid "V2 manifest bytes are not canonical");
  Ok manifest.

(** ** The exported functions *)
Definition EncodeDirectoryManifest (entries : list DirectoryEntry) : result DirectoryManifestBlock :=
  data ← marshalDirectoryEntries entries; Ok (mkManifestBlock DirectoryManifestCodec data).
Definition DirectoryManifestPayload (entries : list DirectoryEntry) : result (list ascii) :=
  block ← EncodeDirectoryManifest entries; Ok (db_Data block).

Section Cids.
Context {L : CidLib} {BK : BlockLib}.

Definition newManifestCID (payload : list ascii) : result Cid :=
  digest ← wrap_err "create manifest multihash" (or_err (mh_Sum payload) (Errorf "multihash"));
  Ok (NewCidV1 DirectoryManifestCodec digest).
Definition NewDirectoryManifestCID (payload : list ascii) : result Cid := newManifestCID payload.
Definition IsDirectoryManifestCID (value : option Cid) : bool :=
  match value with Some c => bool_decide (cid_Type c = DirectoryManifestCodec) | None => false end.
Definition ParseDirectoryManifest (key : option Cid) (data : list ascii) : result DirectoryManifest :=
  _ ← fail_if (negb (IsDirectoryManifestCID key)) (Errorf "unsupported UnixFS directory manifest codec");
  parseDirectoryJSON data.
End Cids.

(** ** The encoder writes what the decoder reads *)
Lemma hex_digit_value n : (n < 16)%N -> hex_value (hex_digit n) = Some n.
Proof.
  intros H. assert (forallb (fun k => bool_decide (hex_value (hex_digit (N.of_nat k)) = Some (N.of_nat k))) (seq 0 16) = true) as Ha by reflexivity.
  rewrite forallb_forall in Ha. specialize (Ha (N.to_nat n)). rewrite N2Nat.id in Ha. apply bool_decide_eq_true in Ha; [done|]. apply in_seq. lia.
Qed.

Lemma hex4_byte r : (r < 256)%N -> hex4 "0" "0" (hex_digit (r / 16)) (hex_digit (r mod 16)) = Some r.
Proof.
  intros H. pose proof (N.div_mod' r 16) as H0. pose proof (N.mod_lt r 16 ltac:(done)) as H1. revert H0 H1. generalize (r / 16)%N (r mod 16)%N. intros q m H0 H1. unfold hex4. replace (hex_value "0") with (Some 0%N) by reflexivity.
  cbn [mbind option_bind]. rewrite (hex_digit_value q) by lia. cbn [mbind option_bind]. rewrite (hex_digit_value m) by lia. cbn [mbind option_bind]. f_equal. lia.
Qed.

Lemma escape_rune_nonempty r : exists a l, escape_rune r = a :: l.
Proof.
  unfold escape_rune. repeat match goal with |- context [if ?b then _ else _] => destruct b; [eexists _, _; reflexivity|] end.
  unfold EncodeRune. repeat match goal with |- context [if ?b then [_] else _] => destruct b; [eexists _, _; reflexivity|] end.
  repeat match goal with |- context [if ?b then _ :: _ else _] => destruct b; [eexists _, _; reflexivity|] end. eexists _, _; reflexivity.
Qed.

Lemma EncodeRune_ascii r : (r < 128)%N -> EncodeRune r = [chr r].
Proof. intros H. rewrite EncodeRune_scalar by (unfold scalar, is_surrogate; lia). by destruct (N.ltb_spec r 128); [|lia]. Qed.

Lemma parse_escaped f r l : scalar r -> parse_string (S f) (escape_rune r ++ l) = '(s, l3) ← parse_string f l; Some (EncodeRune r ++ s, l3).
Proof.
  intros Hr. unfold escape_rune.
  repeat match goal with |- context [if (r =? ?n)%N then _ else _] => destruct (N.eqb_spec r n) as [->|?]; [reflexivity|] end.
  destruct (N.ltb_spec r 0x20).
  - cbn [app bytes String.list_ascii_of_string parse_string].
    replace (is_byte 34 "\") with false by reflexivity. replace (is_byte 92 "\") with true by reflexivity. cbn [app]. replace (unescape "u") with (@None N) by reflexivity.
    replace (is_byte 117 "u") with true by reflexivity. rewrite hex4_byte by lia. cbn [mbind option_bind].
    destruct Hr as [_ Hs]. unfold unescape_u. by rewrite Hs.
  - destruct (decode_EncodeRune r l Hr) as (a & l1 & E & Hd). rewrite E. cbn [parse_string]. rewrite Hd.
    assert (is_byte 34 a = false /\ is_byte 92 a = false /\ in_range 0 31 a = false) as (-> & -> & ->); [|done].
    destruct (N.ltb_spec r 128).
    + rewrite EncodeRune_ascii in E by done. cbn [app] in E. injection E as <- <-. byte_arith.
    + rewrite EncodeRune_scalar in E by done. destruct (N.ltb_spec r 128); [lia|].
      destruct (div_steps r) as (q1 & q2 & q3 & m1 & m2 & m3 & X1 & X2 & X3 & X4 & X5 & X6 & E1 & E2 & E3 & B1 & B2 & B3). rewrite X1, X3, X5 in E.
      destruct (N.ltb_spec r 2048); [|destruct (N.ltb_spec r 65536)]; injection E as <- _; unfold scalar in Hr; byte_arith.
Qed.

Lemma parse_quoted rs f l : Forall scalar rs -> length rs < f -> parse_string f (concat (escape_rune <$> rs) ++ quote :: l) = Some (concat (EncodeRune <$> rs), l).
Proof.
  revert f. induction rs as [|r rs IH]; intros f Hr Hf; (destruct f as [|f]; [cbn in Hf; lia|]); [done|]. cbn in Hf. cbn [fmap list_fmap concat]. rewrite <- app_assoc.
  inversion_clear Hr. rewrite parse_escaped by done. by rewrite IH by (done || lia).
Qed.

Lemma escaped_length rs : length rs <= length (concat (escape_rune <$> rs)).
Proof. induction rs as [|r rs IH]; [done|]. cbn. destruct (escape_rune_nonempty r) as (a & l & ->). cbn. rewrite length_app. lia. Qed.

(** What follows the opening quote of an encoded string. *)
Definition tail_of (s : string) (l : list ascii) : list ascii := concat (escape_rune <$> runes (bytes s)) ++ quote :: l.

Lemma appendJSONString_app s l : appendJSONString s ++ l = quote :: tail_of s l.
Proof. unfold appendJSONString, tail_of. cbn. by rewrite <- app_assoc. Qed.

Lemma parse_tail s l : ValidString s = true -> parse_string (length (tail_of s l)) (tail_of s l) = Some (bytes s, l).
Proof.
  intros Hv. destruct (runes_of_valid (length (bytes s)) (bytes s)) as [Hc Hs]; [done|done|]. fold (runes (bytes s)) in Hc, Hs. unfold tail_of. rewrite parse_quoted; [by rewrite Hc|done|].
  rewrite length_app. cbn. pose proof (escaped_length (runes (bytes s))). lia.
Qed.

Lemma value_string f d s l : ValidString s = true -> parse_value (S f) d (appendJSONString s ++ l) = Some (JString (bytes s), l).
Proof. intros Hv. rewrite appendJSONString_app. change (parse_value (S f) d (quote :: tail_of s l)) with ('(s, r) ← parse_string (length (tail_of s l)) (tail_of s l); Some (JString s, r)). by rewrite parse_tail. Qed.

Lemma members_step f d k v vb rest : ValidString k = true -> parse_value f d (vb ++ rest) = Some (v, rest) ->
  parse_members (S f) d (appendJSONString k ++ bytes ":" ++ vb ++ rest) =
  match skip rest with
  | a :: l4 => if is_byte 125 a then Some ([(bytes k, v)], l4)
               else if is_byte 44 a then '(ms, r) ← parse_members f d l4; Some ((bytes k, v) :: ms, r) else None
  | [] => None
  end.
Proof.
  intros Hk Hv. rewrite appendJSONString_app.
  change (parse_members (S f) d (quote :: tail_of k (bytes ":" ++ vb ++ rest))) with
    ('(k0, l1) ← parse_string (length (tail_of k (bytes ":" ++ vb ++ rest))) (tail_of k (bytes ":" ++ vb ++ rest));
     match skip l1 with
     | c :: l2 => if negb (is_byte 58 c) then None else
         '(v, l3) ← parse_value f d l2;
         match skip l3 with
         | a :: l4 => if is_byte 125 a then Some ([(k0, v)], l4) else if is_byte 44 a then '(ms, r) ← parse_members f d l4; Some ((k0, v) :: ms, r) else None
         | [] => None
         end
     | [] => None
     end).
  rewrite parse_tail by done. cbn [mbind option_bind]. change (skip (bytes ":" ++ vb ++ rest)) with (":"%char :: (vb ++ rest)).
  replace (is_byte 58 ":") with true by reflexivity. cbn [negb]. by rewrite Hv.
Qed.

Lemma members_more f d k v vb tl : ValidString k = true -> parse_value f d (vb ++ bytes "," ++ tl) = Some (v, bytes "," ++ tl) ->
  parse_members (S f) d (appendJSONString k ++ bytes ":" ++ vb ++ bytes "," ++ tl) = '(ms, r) ← parse_members f d tl; Some ((bytes k, v) :: ms, r).
Proof. intros Hk Hv. by erewrite members_step. Qed.
Lemma members_last f d k v vb tl : ValidString k = true -> parse_value f d (vb ++ bytes "}" ++ tl) = Some (v, bytes "}" ++ tl) ->
  parse_members (S f) d (appendJSONString k ++ bytes ":" ++ vb ++ bytes "}" ++ tl) = Some ([(bytes k, v)], tl).
Proof. intros Hk Hv. by erewrite members_step. Qed.

Definition entry_json (e : DirectoryEntry) : json := JObject [(bytes "name", JString (bytes (dn_Name e))); (bytes "type", JString (bytes (dn_Type e)))].
Definition text_ok (e : DirectoryEntry) : Prop := ValidString (dn_Name e) = true /\ ValidString (dn_Type e) = true.

Lemma word_plain w : w = "name" \/ w = "type" \/ w = "entries" -> word w = appendJSONString w /\ ValidString w = true.
Proof. by intros [->|[->| ->]]. Qed.

Lemma value_object f d x : (d < 100)%N -> parse_value (S f) d (bytes "{" ++ quote :: x) = '(ms, r) ← parse_members f (d + 1) (quote :: x); Some (JObject ms, r).
Proof.
  intros Hd. change (parse_value (S f) d (bytes "{" ++ quote :: x)) with
    (if negb (d + 1 <=? maxNestingDepth)%N then None else '(ms, r) ← parse_members f (d + 1) (quote :: x); Some (JObject ms, r)).
  by replace (d + 1 <=? maxNestingDepth)%N with true by (unfold maxNestingDepth; lia).
Qed.

Lemma value_entry f d e l : text_ok e -> (d < 100)%N -> parse_value (4 + f) d (entry_bytes e ++ l) = Some (entry_json e, l).
Proof.
  intros [Hn Ht] Hd. destruct (word_plain "name") as [W1 V1], (word_plain "type") as [W2 V2]; [tauto..|]. unfold entry_bytes. rewrite W1, W2, <- !app_assoc.
  change (4 + f)%nat with (S (3 + f)). rewrite (appendJSONString_app "name"), value_object, <- appendJSONString_app by lia.
  erewrite (members_more (2 + f) (d + 1) "name"); [|done|by apply value_string]. by erewrite (members_last (1 + f) (d + 1) "type"); [|done|by apply value_string].
Qed.

Lemma items_bytes f d es l : es <> [] -> Forall text_ok es -> (d < 100)%N -> length es + 4 <= f ->
  parse_items f d (entries_bytes es ++ bytes "]" ++ l) = Some (entry_json <$> es, l).
Proof.
  intros Hne He Hd. revert f. induction He as [|e es Ht He IH]; intros f Hf; [done|]. cbn [length] in Hf. destruct f as [|f]; [lia|]. cbn [parse_items].
  replace f with (4 + (f - 4)) by lia. destruct es as [|e2 es].
  - cbn [entries_bytes]. rewrite value_entry by done. reflexivity.
  - change (entries_bytes (e :: e2 :: es)) with (entry_bytes e ++ bytes "," ++ entries_bytes (e2 :: es)). rewrite <- !app_assoc, value_entry by done. cbn [mbind option_bind].
    match goal with |- context [skip (bytes "," ++ ?x)] => change (skip (bytes "," ++ x)) with (","%char :: x) end. cbv beta iota.
    replace (is_byte 93 ",") with false by reflexivity. replace (is_byte 44 ",") with true by reflexivity. rewrite IH; [done|done|]. cbn in *. lia.
Qed.

Lemma value_array f d es l : Forall text_ok es -> (d < 50)%N -> length es + 4 <= f ->
  parse_value (S f) d (bytes "[" ++ entries_bytes es ++ bytes "]" ++ l) = Some (JArray (entry_json <$> es), l).
Proof.
  intros He Hd Hf. set (body := entries_bytes es ++ _).
  change (parse_value (S f) d (bytes "[" ++ body)) with
    (if negb (d + 1 <=? maxNestingDepth)%N then None else
       match skip body with
       | b :: l2 => if is_byte 93 b then Some (JArray [], l2) else '(vs, r) ← parse_items f (d + 1) (b :: l2); Some (JArray vs, r)
       | [] => None
       end).
  replace (d + 1 <=? maxNestingDepth)%N with true by (unfold maxNestingDepth; lia). cbn [negb]. destruct es as [|e es]; [done|].
  assert (exists b l2, body = b :: l2 /\ is_byte 93 b = false /\ skip body = body) as (b & l2 & E & Hb & Hs) by (subst body; destruct es; by eexists _, _).
  rewrite Hs, E, Hb, <- E. subst body. by rewrite items_bytes by (done || lia).
Qed.

Definition manifest_bytes (es : list DirectoryEntry) : list ascii := bytes "{" ++ word "entries" ++ bytes ":[" ++ entries_bytes es ++ bytes "]}".
Definition manifest_json (es : list DirectoryEntry) : json := JObject [(bytes "entries", JArray (entry_json <$> es))].

Lemma Unmarshal_manifest es : Forall text_ok es -> Unmarshal (manifest_bytes es) = Some (manifest_json es).
Proof.
  intros He. destruct (word_plain "entries") as [W V]; [tauto|]. rewrite (Unmarshal_fuel _ (2 + (S (length es + 4) + 2 * length (manifest_bytes es)))) by lia.
  unfold manifest_bytes at 2. rewrite W. set (n := 2 * length (manifest_bytes es)). clearbody n. change (bytes ":[") with (bytes ":" ++ bytes "["). change (bytes "]}") with (bytes "]" ++ bytes "}" ++ []).
  rewrite <- !app_assoc. change (2 + (S (length es + 4) + n)) with (S (1 + (S (length es + 4) + n))).
  rewrite (appendJSONString_app "entries"), value_object, <- appendJSONString_app by lia. change (0 + 1)%N with 1%N.
  assert (parse_value (S (length es + 4) + n) 1 ((bytes "[" ++ entries_bytes es ++ bytes "]") ++ bytes "}" ++ []) = Some (JArray (entry_json <$> es), bytes "}" ++ [])) as Hv.
  { rewrite <- !app_assoc. change (S (length es + 4) + n)%nat with (S (length es + 4 + n)). apply value_array; [done|done|lia]. }
  pose proof (members_last _ _ "entries" _ _ _ V Hv) as Hm. rewrite <- !app_assoc in Hm. change (1 + (S (length es + 4) + n)) with (S (S (length es + 4) + n)). rewrite Hm. done.
Qed.

Lemma utf8_escaped r l : scalar r -> utf8_valid (escape_rune r ++ l) = utf8_valid l.
Proof.
  intros Hr. unfold escape_rune. repeat match goal with |- context [if (r =? ?n)%N then _ else _] => destruct (N.eqb_spec r n) as [->|?]; [reflexivity|] end.
  destruct (N.ltb_spec r 0x20); [|by apply utf8_rune]. apply utf8_ascii. rewrite forallb_app. pose proof (N.div_mod' r 16) as H0. pose proof (N.mod_lt r 16 ltac:(done)) as H1. revert H0 H1.
  generalize (r / 16)%N (r mod 16)%N. intros q m H0 H1. assert (forall k, (k < 16)%N -> in_range 0 127 (hex_digit k) = true) as Hk; [|cbn [forallb]; by rewrite !Hk by lia].
  intros k Hk. pose proof (hex_digit_value k Hk) as E. unfold hex_value in E. destruct (in_range 0 127 (hex_digit k)) eqn:Ek; [done|].
  replace (in_range 48 57 (hex_digit k)) with false in E by byte_arith. replace (in_range 97 102 (hex_digit k)) with false in E by byte_arith.
  by replace (in_range 65 70 (hex_digit k)) with false in E by byte_arith.
Qed.

Lemma utf8_string s l : ValidString s = true -> utf8_valid (appendJSONString s ++ l) = utf8_valid l.
Proof.
  intros Hv. destruct (runes_of_valid (length (bytes s)) (bytes s)) as [_ Hs]; [done|done|]. fold (runes (bytes s)) in Hs. rewrite appendJSONString_app. unfold tail_of.
  change (utf8_valid (quote :: ?x)) with (utf8_valid x). induction Hs as [|r rs Hr Hs IH]; [done|]. cbn [fmap list_fmap concat]. by rewrite <- app_assoc, utf8_escaped.
Qed.

Lemma utf8_entry e l : text_ok e -> utf8_valid (entry_bytes e ++ l) = utf8_valid l.
Proof.
  intros [Hn Ht]. unfold entry_bytes. rewrite <- !app_assoc. rewrite (utf8_ascii (bytes "{")), (utf8_ascii (word "name")), (utf8_ascii (bytes ":")) by done. rewrite utf8_string by done.
  rewrite (utf8_ascii (bytes ",")), (utf8_ascii (word "type")), (utf8_ascii (bytes ":")) by done. rewrite utf8_string by done. by rewrite (utf8_ascii (bytes "}")).
Qed.

Lemma utf8_entries es l : Forall text_ok es -> utf8_valid (entries_bytes es ++ l) = utf8_valid l.
Proof.
  induction 1 as [|e es He Hes IH]; [done|]. destruct es as [|e2 es]; [by apply utf8_entry|].
  change (entries_bytes (e :: e2 :: es)) with (entry_bytes e ++ bytes "," ++ entries_bytes (e2 :: es)). rewrite <- !app_assoc, utf8_entry by done. by rewrite (utf8_ascii (bytes ",")).
Qed.

Lemma utf8_manifest es : Forall text_ok es -> utf8_valid (manifest_bytes es) = true.
Proof. intros He. unfold manifest_bytes. rewrite (utf8_ascii (bytes "{")), (utf8_ascii (word "entries")), (utf8_ascii (bytes ":[")) by done. by rewrite utf8_entries. Qed.

(** ** What validation accepts *)
Definition before (a b : DirectoryEntry) : Prop := String.leb (dn_Name b) (dn_Name a) = false.

#[local] Instance before_trans : Transitive before.
Proof.
  intros a b c Hab Hbc. unfold before in *. destruct (String.leb (dn_Name c) (dn_Name a)) eqn:E; [|done]. rewrite <- Hbc. symmetry.
  eapply string_leb_trans; [exact E|]. destruct (leb_total (dn_Name a) (dn_Name b)); congruence.
Qed.

Lemma check_entry_Ok previous e next : check_entry previous e = Ok next ->
  next = Some (dn_Name e) /\ validateImmediateChildName (dn_Name e) = Ok () /\ (dn_Type e = DirectoryEntryTypeDir \/ dn_Type e = DirectoryEntryTypeFile) /\
  match previous with Some name => String.leb (dn_Name e) name = false | None => True end.
Proof.
  unfold check_entry. intros H. apply bind_Ok in H as ([] & H1 & H). apply bind_Ok in H as ([] & H2 & H). apply bind_Ok in H as ([] & H3 & H). injection H as <-.
  split_and!; [done| | |].
  - destruct (validateImmediateChildName _) as [[]|]; done.
  - apply fail_if_Ok, andb_false_iff in H2. rewrite !negb_false_iff, !bool_decide_eq_true in H2. done.
  - destruct previous as [name|]; [|done]. by destruct (String.leb _ _).
Qed.

Definition entry_ok (e : DirectoryEntry) : Prop :=
  validateImmediateChildName (dn_Name e) = Ok () /\ (dn_Type e = DirectoryEntryTypeDir \/ dn_Type e = DirectoryEntryTypeFile).

Lemma check_entries_Ok es previous next : foldM check_entry previous es = Ok next ->
  Forall entry_ok es /\ Sorted before es /\ match previous, es with Some name, e :: _ => String.leb (dn_Name e) name = false | _, _ => True end.
Proof.
  revert previous. induction es as [|e es IH]; intros previous H; [by destruct previous|]. cbn [foldM] in H. apply bind_Ok in H as (p & H1 & H2).
  apply check_entry_Ok in H1 as (-> & H3 & H4 & H5). destruct (IH _ H2) as (H6 & H7 & H8). split_and!; [by constructor| |by destruct previous].
  constructor; [done|]. destruct es as [|e2 es]; constructor. exact H8.
Qed.

Lemma entry_text e : entry_ok e -> text_ok e.
Proof.
  intros [H1 H2]. split; [|by destruct H2 as [-> | ->]]. unfold validateImmediateChildName in H1.
  apply bind_Ok in H1 as ([] & _ & H1). apply bind_Ok in H1 as ([] & H1 & _). by apply fail_if_Ok, negb_false_iff in H1.
Qed.

Lemma validated m : validateDirectoryManifest m = Ok () ->
  dn_Version m = 2%Z /\ Forall entry_ok (dn_Entries m) /\ StronglySorted before (dn_Entries m).
Proof.
  unfold validateDirectoryManifest. intros H. apply bind_Ok in H as ([] & H1 & H). apply bind_Ok in H as (next & H2 & _). apply fail_if_Ok in H1. apply negb_false_iff, bool_decide_eq_true in H1.
  apply check_entries_Ok in H2 as (H2 & H3 & _). split_and!; [done|done|]. apply Sorted_StronglySorted; [apply before_trans|done].
Qed.

Lemma before_sorted es : StronglySorted before es -> sort_by_string dn_Name es = es /\ NoDup (dn_Name <$> es).
Proof.
  intros H. split.
  - apply sort_by_id. induction H as [|e es Hs IH He]; constructor; [done|]. eapply Forall_impl; [exact He|]. intros b Hb. unfold before, key_le in *.
    destruct (leb_total (dn_Name e) (dn_Name b)); congruence.
  - induction H as [|e es Hs IH He]; [constructor|]. cbn. constructor; [|done]. intros (b & Eb & Hb)%list_elem_of_fmap. rewrite Forall_forall in He. specialize (He b Hb).
    unfold before in He. rewrite <- Eb in He. pose proof (leb_total (dn_Name e) (dn_Name e)). naive_solver congruence.
Qed.

Lemma normalized es es' : normalizeDirectoryEntries es = Ok es' ->
  es' = sort_by_string dn_Name es /\ Forall entry_ok es' /\ StronglySorted before es' /\ validateDirectoryManifest (mkDirectoryManifest 2 es') = Ok ().
Proof.
  unfold normalizeDirectoryEntries. intros H. apply bind_Ok in H as ([] & H1 & H). injection H as <-. destruct (validated _ H1) as (_ & H2 & H3). done.
Qed.

Lemma normalize_fixed es : validateDirectoryManifest (mkDirectoryManifest 2 es) = Ok () -> normalizeDirectoryEntries es = Ok es.
Proof.
  intros H. destruct (validated _ H) as (_ & _ & Hs). unfold normalizeDirectoryEntries. destruct (before_sorted es Hs) as [-> _].
  change DirectoryManifestVersionV2 with 2%Z. by rewrite H.
Qed.

Lemma marshal_Ok es data : marshalDirectoryEntries es = Ok data <-> exists es', normalizeDirectoryEntries es = Ok es' /\ data = manifest_bytes es'.
Proof.
  unfold marshalDirectoryEntries. split.
  - intros H. apply bind_Ok in H as (es' & H & E). injection E as <-. by exists es'.
  - intros (es' & -> & ->). done.
Qed.

(** ** The parser on the encoding *)
Lemma parse_entry_json e : exists ms, to_map (entry_json e) = Some ms /\ parse_entry ms = Ok e.
Proof.
  eexists. split; [reflexivity|]. unfold parse_entry. change (only_keys _ _) with true. cbn [negb fail_if mbind result_bind].
  match goal with |- context [field "name" ?ms] => change (field "name" ms) with (Some (JString (bytes (dn_Name e)))); change (field "type" ms) with (Some (JString (bytes (dn_Type e)))) end.
  cbn [to_string or_err mbind result_bind]. rewrite !of_bytes_bytes. by destruct e.
Qed.

Lemma parse_entries es : exists objects, mapM (fun v => or_err (to_map v) (invalid "invalid entries array")) (entry_json <$> es) = Ok objects /\ mapM parse_entry objects = Ok es.
Proof.
  induction es as [|e es (objects & H1 & H2)]; [by exists []|]. destruct (parse_entry_json e) as (ms & E1 & E2). exists (ms :: objects).
  cbn [fmap list_fmap mapM]. rewrite E1, H1, E2, H2. done.
Qed.

Lemma parse_manifest es : validateDirectoryManifest (mkDirectoryManifest 2 es) = Ok () -> parseDirectoryJSON (manifest_bytes es) = Ok (mkDirectoryManifest 2 es).
Proof.
  intros Hv. destruct (validated _ Hv) as (_ & He & _). cbn in He. assert (Forall text_ok es) as Ht by (eapply Forall_impl; [exact He|apply entry_text]).
  unfold parseDirectoryJSON. rewrite utf8_manifest by done. cbn [negb fail_if mbind result_bind]. rewrite Unmarshal_manifest by done.
  change (or_err (v ← Some (manifest_json es); to_map v) (invalid "json")) with (@Ok (list (list ascii * json)) [(bytes "entries", JArray (entry_json <$> es))]). cbn [mbind result_bind].
  change (only_keys _ _) with true. change (field _ _) with (Some (JArray (entry_json <$> es))). cbn [negb fail_if or_err to_slice mbind result_bind].
  destruct (parse_entries es) as (objects & H1 & H2). rewrite H1. cbn [mbind result_bind]. rewrite H2. cbn [mbind result_bind]. change DirectoryManifestVersionV2 with 2%Z. rewrite Hv. cbn [mbind result_bind].
  rewrite (proj2 (marshal_Ok es (manifest_bytes es))) by (exists es; split; [by apply normalize_fixed|done]). cbn [mbind result_bind]. by rewrite bool_decide_eq_true_2.
Qed.

(** The parser accepts exactly the canonical text of a valid manifest: bytes
    parse to a manifest if and only if that manifest is valid and the encoder
    writes those bytes for its entries. *)
Theorem manifest_parser_accepts_canonical data m :
  parseDirectoryJSON data = Ok m <-> validateDirectoryManifest m = Ok () /\ marshalDirectoryEntries (dn_Entries m) = Ok data.
Proof.
  split.
  - unfold parseDirectoryJSON. intros H. apply bind_Ok in H as ([] & _ & H). apply bind_Ok in H as (raw & _ & H). apply bind_Ok in H as ([] & _ & H). apply bind_Ok in H as (enc & _ & H).
    apply bind_Ok in H as (values & _ & H). apply bind_Ok in H as (objects & _ & H). apply bind_Ok in H as (entries & _ & H). apply bind_Ok in H as ([] & Hv & H).
    apply bind_Ok in H as (canonical & Hc & H). apply bind_Ok in H as ([] & Hd & H). injection H as <-. apply fail_if_Ok, negb_false_iff, bool_decide_eq_true in Hd as ->. done.
  - intros [Hv (es' & Hn & ->)%marshal_Ok]. destruct m as [version es]. destruct (validated _ Hv) as (E & _ & _). cbn in *. subst version. rewrite normalize_fixed in Hn by done. injection Hn as <-.
    by apply parse_manifest.
Qed.

(** C24. Manifests have one encoding: whatever order a directory is listed in, the
    encoder writes the same bytes, the parser reads the sorted entries back from
    them, and two lists of entries have the same encoding only if they have the
    same entries. *)
Theorem manifest_encoding_is_canonical es data :
  marshalDirectoryEntries es = Ok data ->
  parseDirectoryJSON data = Ok (mkDirectoryManifest DirectoryManifestVersionV2 (sort_by_string dn_Name es)) /\
  forall es', marshalDirectoryEntries es' = Ok data <-> es' ≡ₚ es.
Proof.
  intros (es1 & Hn & ->)%marshal_Ok. destruct (normalized _ _ Hn) as (E & _ & Hs & Hv). destruct (before_sorted _ Hs) as [_ Hd]. pose proof (parse_manifest _ Hv) as Hp. subst es1. split; [exact Hp|].
  intros es'. split.
  - intros (es2 & Hn' & E')%marshal_Ok. destruct (normalized _ _ Hn') as (E2 & _ & _ & Hv'). pose proof (parse_manifest _ Hv') as Hp'. rewrite <- E', Hp in Hp'. injection Hp' as Hp'.
    rewrite E2 in Hp'. unfold sort_by_string in Hp'. rewrite <- (sort_by_Permutation dn_Name String.leb es'), <- Hp'. apply sort_by_Permutation.
  - intros Hperm. apply marshal_Ok. exists (sort_by_string dn_Name es). split; [|done]. assert (NoDup (dn_Name <$> es')) as Hd'.
    { rewrite Hperm. unfold sort_by_string in Hd. by rewrite sort_by_Permutation in Hd. }
    unfold normalizeDirectoryEntries. rewrite (sort_by_string_unique dn_Name es' es) by done. change DirectoryManifestVersionV2 with 2%Z. by rewrite Hv.
Qed.

Definition sample : list DirectoryEntry := [mkDirectoryEntry (byte_str [114; 34; 195; 169; 9; 1]) "file"; mkDirectoryEntry "docs" "dir"].
Example sample_round : (d ← marshalDirectoryEntries sample; parseDirectoryJSON d) = Ok (mkDirectoryManifest 2 [mkDirectoryEntry "docs" "dir"; mkDirectoryEntry (byte_str [114; 34; 195; 169; 9; 1]) "file"]).
Proof. vm_compute. reflexivity. Qed.

Lemma manifest_encoding_is_canonical_witness : exists data,
  parseDirectoryJSON data = Ok (mkDirectoryManifest DirectoryManifestVersionV2 (sort_by_string dn_Name sample)) /\
  forall es', marshalDirectoryEntries es' = Ok data <-> es' ≡ₚ sample.
Proof. eexists. apply manifest_encoding_is_canonical. vm_compute. reflexivity. Defined.
