(* ===== verification/Chunks.v ===== *)
(** File payloads of the UnixFS application: splitting bytes into chunks, the
    metadata document of a chunked file, and the materialisation of a payload
    from a reader (unixfs/model/payload.go and chunk_metadata.go,
    unixfs/measured_payload.go, unixfs/chunked_file.go). *)

From stdpp Require Import base decidable gmap strings list.
From Stdlib Require Import Ascii ZArith Lia ZifyBool.
From S2P Require Import Prelude GoText CidLib Cache WritePlan Paths Effect Cas Json DirManifest.

(** [AuthenticationSteps]: the labels of a path of nested directories. *)
Definition AuthenticationSteps (path : string) : result (list (list ascii)) :=
  ParsePath path ≫= fun segments => Ok (map bytes segments).

(** ** Readers

    An [io.Reader] is a type of states with a function that says what a call of
    [Read] with a buffer of a size returns: bytes, perhaps an error, and the next
    state.  Nothing else is assumed of it here. *)
Definition EOF : error := ErrorsNew "EOF".
Definition ErrUnexpectedEOF : error := ErrorsNew "unexpected EOF".
(** The errors that [StreamPayloadChunks] takes for the end of the stream. *)
Definition is_end (e : error) : bool := errors_Is e EOF || errors_Is e ErrUnexpectedEOF.
(** A loop of the model that ran out of rounds; no Go function returns it. *)
Definition out_of_rounds : error := Errorf "out of rounds".

Section Reading.
Context {R : Type} (Read : nat -> R -> list ascii * option error * R).

(** The loop of [io.ReadAtLeast] with the whole buffer as the minimum: a full
    buffer drops the error that came with its last bytes. *)
Fixpoint read_full (rounds want : nat) (r : R) : list ascii * option error * R :=
  match rounds with
  | O => ([], Some out_of_rounds, r)
  | S rounds =>
      let '(l, err, r1) := Read want r in
      if bool_decide (want <= length l) then (l, None, r1) else
      match err with
      | None => let '(l2, err2, r2) := read_full rounds (want - length l) r1 in (l ++ l2, err2, r2)
      | Some e => (l, Some e, r1)
      end
  end.
Definition ReadFull (rounds want : nat) (r : R) : list ascii * option error * R :=
  let '(l, err, r1) := read_full rounds want r in
  (l, if bool_decide (err = Some EOF) && bool_decide (0 < length l) then Some ErrUnexpectedEOF else err, r1).

(** [io.ReadAll]; [room] is the free space of its buffer at each call. *)
Fixpoint ReadAll (rounds : nat) (room : nat -> nat) (r : R) : result (list ascii * R) :=
  match rounds with
  | O => Err out_of_rounds
  | S rounds =>
      match Read (S (room rounds)) r with
      | (l, None, r1) => '(l2, r2) ← ReadAll rounds room r1; Ok (l ++ l2, r2)
      | (l, Some e, r1) => if bool_decide (e = EOF) then Ok (l, r1) else Err e
      end
  end.

(** ** Chunks *)
Fixpoint stream {St} (loops rounds chunkSize : nat) (emit : list ascii -> Act St unit) (r : R) : Act St R :=
  match loops with
  | O => pure (Err out_of_rounds)
  | S loops =>
      let '(l, readErr, r1) := ReadFull rounds chunkSize r in
      let emitted := if bool_decide (0 < length l) then emit l else mret () in
      match readErr with
      | None => _ ← emitted; stream loops rounds chunkSize emit r1
      | Some e => if is_end e then _ ← emitted; mret r1 else pure (Err e)
      end
  end.

Definition StreamPayloadChunks {St} (rounds : nat) (r : R) (chunkSize : Z) (emit : list ascii -> Act St unit) : Act St R :=
  _ ← pure (fail_if (chunkSize <=? 0)%Z (Errorf "chunk size must be positive"));
  stream rounds rounds (Z.to_nat chunkSize) emit r.

(** [declaredSizeReader]. *)
Record sized := mkSized { sz_reader : R; sz_expected : N; sz_remaining : N }.
Definition TooLong : error := Errorf "payload contains more than the declared bytes".
Definition InvalidCount : error := Errorf "payload reader returned invalid byte count".

Definition sized_Read (n : nat) (s : sized) : list ascii * option error * sized :=
  if bool_decide (n = 0) then ([], None, s) else
  if bool_decide (sz_remaining s = 0%N) then
    let '(extra, err, r) := Read 1 (sz_reader s) in
    ([], if bool_decide (0 < length extra) then Some TooLong else err, mkSized r (sz_expected s) 0)
  else
    let size := Nat.min n (N.to_nat (sz_remaining s)) in
    let '(l, err, r) := Read size (sz_reader s) in
    if bool_decide (size < length l) then ([], Some InvalidCount, mkSized r (sz_expected s) (sz_remaining s))
    else (l, err, mkSized r (sz_expected s) (sz_remaining s - N.of_nat (length l))).
Definition newDeclaredSizeReader (r : R) (expected : N) : sized := mkSized r expected expected.
Definition validateComplete (s : sized) : result unit := fail_if (negb (bool_decide (sz_remaining s = 0%N))) (Errorf "payload is shorter than declared").
End Reading.
#[global] Arguments sized R : clear implicits.

Fixpoint split_chunks (fuel n : nat) (data : list ascii) : list (list ascii) :=
  match fuel, data with
  | S fuel, _ :: _ => take n data :: split_chunks fuel n (drop n data)
  | _, _ => []
  end.
Definition chunks (n : nat) (data : list ascii) : list (list ascii) := split_chunks (length data) n data.

Definition PayloadChunks (data : list ascii) (chunkSize : Z) : result (list (list ascii)) :=
  _ ← fail_if (chunkSize <=? 0)%Z (Errorf "chunk size must be positive");
  Ok (chunks (Z.to_nat chunkSize) data).

(** ** The metadata document *)
Definition ChunkMetadataProfile : string := "malt.unixfs.chunks/1".
Record ChunkMetadata := mkChunkMetadata { cm_Profile : string; cm_ChunkSize : N; cm_TotalSize : N; cm_Mode : option N }.

Definition expected_count (total chunk : N) : N := if (0 <? total)%N then ((total - 1) / chunk + 1)%N else 0%N.
Definition Validate (m : ChunkMetadata) (count : N) : result unit :=
  _ ← fail_if (negb (bool_decide (cm_Profile m = ChunkMetadataProfile)) || bool_decide (cm_ChunkSize m = 0%N)) (Errorf "invalid chunk metadata profile or width");
  fail_if (negb (bool_decide (expected_count (cm_TotalSize m) (cm_ChunkSize m) = count))) (Errorf "chunk metadata does not match authenticated count").

(** Decimal text of an unsigned integer; twenty digits hold 64 bits. *)
Fixpoint dec_digits (fuel : nat) (n : N) : list ascii :=
  match fuel with
  | O => []
  | S fuel => if (n <? 10)%N then [chr (48 + n)] else dec_digits fuel (n / 10) ++ [chr (48 + n mod 10)]
  end.
Definition decimal (n : N) : list ascii := dec_digits 20 n.
(** [strconv.ParseUint(s, 10, bits)]. *)
Definition digits_value (l : list ascii) : N := foldl (fun acc a => acc * 10 + (code a - 48))%N 0%N l.
Definition ParseUint (bits : N) (l : list ascii) : option N :=
  if negb (bool_decide (l = [])) && forallb digit l && (digits_value l <? 2 ^ bits)%N then Some (digits_value l) else None.

Definition quoted (l : list ascii) : list ascii := quote :: l ++ [quote].

(** [json.Marshal]; the profile is the one word that validation lets pass, and
    needs no escapes. *)
Definition marshal_metadata (m : ChunkMetadata) : list ascii :=
  bytes "{" ++ word "profile" ++ bytes ":" ++ word (cm_Profile m) ++ bytes "," ++
  word "chunk_size" ++ bytes ":" ++ quoted (decimal (cm_ChunkSize m)) ++ bytes "," ++
  word "total_size" ++ bytes ":" ++ quoted (decimal (cm_TotalSize m)) ++
  match cm_Mode m with None => [] | Some mode => bytes "," ++ word "mode" ++ bytes ":" ++ decimal mode end ++ bytes "}".

Definition encode (m : ChunkMetadata) (count : N) : result (list ascii) := _ ← Validate m count; Ok (marshal_metadata m).
Definition EncodeFileMetadata (total chunk count mode : N) : result (list ascii) := encode (mkChunkMetadata ChunkMetadataProfile chunk total (Some mode)) count.
Definition EncodeChunkMetadata (total chunk count : N) : result (list ascii) := encode (mkChunkMetadata ChunkMetadataProfile chunk total None) count.

(** [foldName] of the decoder: names of fields match up to case, where a long s
    and a Kelvin sign are also letters. *)
Definition fold_rune (r : N) : N :=
  if (97 <=? r)%N && (r <=? 122)%N then (r - 32)%N else if (r =? 0x17F)%N then 83%N else if (r =? 0x212A)%N then 75%N else r.
Definition names (field : string) (key : list ascii) : bool := bool_decide (fold_rune <$> runes key = fold_rune <$> runes (bytes field)).

(** The value of a field with the option [string]: [None] for an error,
    [Some None] for [null], which changes nothing. *)
Definition quoted_uint (v : json) : option (option N) :=
  match v with
  | JNull => Some None
  | JString l => if bool_decide (l = bytes "null") then Some None else n ← ParseUint 64 l; Some (Some n)
  | _ => None
  end.
Definition set_field (m : ChunkMetadata) (member : list ascii * json) : option ChunkMetadata :=
  let '(key, v) := member in
  if names "profile" key then
    match v with
    | JNull => Some m
    | JString s => Some (mkChunkMetadata (of_bytes s) (cm_ChunkSize m) (cm_TotalSize m) (cm_Mode m))
    | _ => None
    end
  else if names "chunk_size" key then
    n ← quoted_uint v; Some (mkChunkMetadata (cm_Profile m) (default (cm_ChunkSize m) n) (cm_TotalSize m) (cm_Mode m))
  else if names "total_size" key then
    n ← quoted_uint v; Some (mkChunkMetadata (cm_Profile m) (cm_ChunkSize m) (default (cm_TotalSize m) n) (cm_Mode m))
  else if names "mode" key then
    match v with
    | JNull => Some (mkChunkMetadata (cm_Profile m) (cm_ChunkSize m) (cm_TotalSize m) None)
    | JNumber l => n ← ParseUint 32 l; Some (mkChunkMetadata (cm_Profile m) (cm_ChunkSize m) (cm_TotalSize m) (Some n))
    | _ => None
    end
  else Some m.
Definition zeroMetadata : ChunkMetadata := mkChunkMetadata EmptyString 0 0 None.
Definition unmarshal_metadata (data : list ascii) : option ChunkMetadata :=
  v ← Unmarshal data;
  match v with
  | JNull => Some zeroMetadata
  | JObject ms => foldl (fun acc member => m ← acc; set_field m member) (Some zeroMetadata) ms
  | _ => None
  end.

(** Identity multihashes and typed roots (go-multihash, malt-core). *)
Inductive RootLayout := LayoutMap | LayoutList | LayoutOther.
Class InlineLib {L : CidLib} := {
  (** [mh.Encode(data, mh.IDENTITY)]. *)
  mh_Identity : list ascii -> option (list ascii);
  (** The digest of [mh.Decode(key.Hash())] when its code is the identity. *)
  cid_Identity : Cid -> option (list ascii);
  (** [maltcid.ParseRoot]: the layout of a typed root. *)
  root_Layout : Cid -> option RootLayout
}.
(** Documented behaviour: an identity CID holds its bytes, and is their CID. *)
Class InlineLaws {L : CidLib} {BK : BlockLib} (IL : InlineLib) : Prop := {
  identity_holds : forall data h, mh_Identity data = Some h ->
    cid_Identity (NewCidV1 Raw h) = Some data /\ cid_Sum (NewCidV1 Raw h) data = Some (NewCidV1 Raw h) /\ cid_Type (NewCidV1 Raw h) = Raw
}.

Section Metadata.
Context {L : CidLib} {BK : BlockLib}.

Definition VerifyPayloadCID (key : option Cid) (data : list ascii) : result unit :=
  match key with
  | None => Err (Errorf "missing metadata payload CID")
  | Some key => fail_if (negb (bool_decide (cid_Sum key data = Some key))) (Errorf "metadata bytes do not match payload CID")
  end.

Definition ParseChunkMetadata (key : option Cid) (data : list ascii) (count : N) : result ChunkMetadata :=
  _ ← VerifyPayloadCID key data;
  _ ← fail_if (negb (bool_decide (cid_Type <$> key = Some Raw))) (Errorf "chunk metadata requires raw JSON content");
  m ← or_err (unmarshal_metadata data) (Errorf "json");
  _ ← Validate m count;
  _ ← fail_if (negb (bool_decide (marshal_metadata m = data))) (Errorf "noncanonical chunk metadata JSON");
  Ok m.

Section Inline.
Context {IL : InlineLib}.
Definition InlineChunkMetadata (total chunk count : N) : result Cid :=
  data ← EncodeChunkMetadata total chunk count;
  hash ← or_err (mh_Identity data) (Errorf "multihash");
  Ok (NewCidV1 Raw hash).
Definition ParseInlineChunkMetadata (key : Cid) (count : N) : result ChunkMetadata :=
  digest ← or_err (cid_Identity key) (Errorf "inline chunk metadata required");
  ParseChunkMetadata (Some key) digest count.

Definition StorageKindFromCID (c : option Cid) : string :=
  match c with
  | None => EmptyString
  | Some c =>
      if bool_decide (cid_Type c = Raw) || bool_decide (cid_Type c = DirectoryManifestCodec) then "raw" else
      match root_Layout c with
      | Some LayoutMap => "prefix"
      | Some LayoutList => "positional"
      | Some LayoutOther | None => EmptyString
      end
  end.
End Inline.

(** ** Materialisation *)
Section Materialize.
Context {R : Type} (Read : nat -> R -> list ascii * option error * R) {St : Type}.

(** [StagedBlockStore], its optional [Flush], and [PositionalPayloadWriter]. *)
Context (put : list ascii -> Act St (option Cid)) (flush : option (Act St unit)) (create : list (option Cid) -> option Cid -> Act St Cid).

(** The chunks that are stored so far are part of the state of the callback. *)
Definition put_chunk (chunk : list ascii) : Act (St * list (option Cid)) unit := fun '(s, cids) =>
  match put chunk s with
  | (Ok c, s') => (Ok (), (s', cids ++ [c]))
  | (Err e, s') => (Err (Wrapf "upload payload chunk" e), (s', cids))
  end.

(** [rounds] bounds the loops that call the reader. *)
Definition MaterializeMeasuredPayload (rounds : nat) (r : R) (totalSize : N) (chunkSize : Z) : Act St Cid := fun s =>
  match StreamPayloadChunks (sized_Read Read) rounds (newDeclaredSizeReader r totalSize) chunkSize put_chunk (s, []) with
  | (Err e, (s1, _)) => (Err e, s1)
  | (Ok sz, (s1, cids)) =>
      (_ ← pure (validateComplete sz);
       _ ← pure (fail_if (bool_decide (cids = [])) (Errorf "empty chunk sequence"));
       metadata ← pure (EncodeChunkMetadata totalSize (Z.to_N chunkSize) (N.of_nat (length cids)));
       payload ← wrapped "upload chunk metadata" (put metadata);
       _ ← pure (VerifyPayloadCID payload metadata);
       _ ← (match flush with Some flush => wrapped "flush payload chunks" flush | None => mret () end);
       create cids payload) s1
  end.

Definition MaterializeStagedFilePayload (rounds : nat) (room : nat -> nat) (r : R) (size chunkSize : Z) : Act St (option Cid * bool) :=
  _ ← pure (fail_if (size <? 0)%Z (Errorf "file size must not be negative"));
  _ ← pure (fail_if (chunkSize <=? 0)%Z (Errorf "chunk size must be positive"));
  if (size <=? chunkSize)%Z then
    '(data, sz) ← pure (ReadAll (sized_Read Read) rounds room (newDeclaredSizeReader r (Z.to_N size)));
    _ ← pure (validateComplete sz);
    payload ← put data;
    mret (payload, false)
  else
    payload ← MaterializeMeasuredPayload rounds r (Z.to_N size) chunkSize;
    mret (Some payload, true).
End Materialize.

(** ** Chunked files *)
Section Files.
Context {St Label : Type} (ctx : result unit).

(** [FileBlockStore], the labels of positions and the builder of roots. *)
Context (putFile : list ascii -> bool -> Act St (option Cid)) (EncodeIndex : N -> Label) (build : Cid -> list (Label * Cid) -> Act St Cid).

Definition put_checked (isMetadata : bool) (data : list ascii) : Act St Cid :=
  key ← putFile data isMetadata;
  pure (match CIDForBlock (mkCasBlock data Raw) with
        | Ok expected => if bool_decide (key = Some expected) then Ok expected else Err ErrCorruptedBlock
        | Err _ => Err ErrCorruptedBlock
        end).

Definition WriteChunkedFile (data : list ascii) (mode : N) (chunkSize : Z) : Act St Cid :=
  _ ← pure ctx;
  _ ← pure (fail_if (chunkSize <=? 0)%Z (Errorf "chunk size must be positive"));
  keys ← each (put_checked false) (chunks (Z.to_nat chunkSize) data);
  metadata ← pure (EncodeFileMetadata (N.of_nat (length data)) (Z.to_N chunkSize) (N.of_nat (length keys)) mode);
  payload ← put_checked true metadata;
  build payload (imap (fun i key => (EncodeIndex (N.of_nat i), key)) keys).
End Files.
End Metadata.

(** ** Chunks of a text *)
Lemma split_chunks_fuel f f' n data : 0 < n -> length data <= f -> length data <= f' -> split_chunks f n data = split_chunks f' n data.
Proof.
  intros Hn. revert f' data. induction f as [|f IH]; intros [|f'] [|a data] H H'; try done; try (cbn in *; lia). cbn [split_chunks]. f_equal.
  apply IH; rewrite length_drop; cbn in *; lia.
Qed.

Lemma chunks_nil n : chunks n [] = [].
Proof. done. Qed.
Lemma chunks_cons n data : 0 < n -> data <> [] -> chunks n data = take n data :: chunks n (drop n data).
Proof.
  intros Hn Hd. destruct data as [|a data]; [done|]. unfold chunks at 1. cbn [length split_chunks]. f_equal. apply split_chunks_fuel; [done|rewrite length_drop; cbn; lia|done].
Qed.

Lemma chunks_ind_on (P : list ascii -> Prop) n : 0 < n -> P [] -> (forall data, data <> [] -> P (drop n data) -> P data) -> forall data, P data.
Proof.
  intros Hn H0 H1 data. remember (length data) as k eqn:E. revert data E. induction k as [k IH] using lt_wf_ind. intros data ->. destruct data as [|a data]; [done|]. apply H1; [done|].
  eapply IH; [|reflexivity]. rewrite length_drop. cbn. lia.
Qed.

Lemma chunks_length n data : 0 < n -> N.of_nat (length (chunks n data)) = expected_count (N.of_nat (length data)) (N.of_nat n).
Proof.
  intros Hn. revert data. apply (chunks_ind_on _ n Hn); [done|intros data Hd IH]. rewrite chunks_cons by done. cbn [length]. rewrite Nat2N.inj_succ, IH, length_drop.
  destruct data as [|a data]; [done|]. set (k := length (a :: data)). assert (0 < k) as Hk by (cbn; lia). clearbody k. unfold expected_count.
  destruct (N.ltb_spec 0 (N.of_nat k)); [|lia]. destruct (N.ltb_spec 0 (N.of_nat (k - n))).
  - replace (N.of_nat k - 1)%N with (N.of_nat (k - n) - 1 + 1 * N.of_nat n)%N by lia. rewrite N.div_add by lia. lia.
  - rewrite N.div_small by lia. done.
Qed.

Lemma chunks_concat n data : 0 < n -> concat (chunks n data) = data.
Proof. intros Hn. revert data. apply (chunks_ind_on _ n Hn); [done|intros data Hd IH]. rewrite chunks_cons by done. cbn. by rewrite IH, take_drop. Qed.

Lemma chunks_sizes n data : 0 < n -> Forall (fun c => 0 < length c <= n) (chunks n data).
Proof.
  intros Hn. revert data. apply (chunks_ind_on _ n Hn); [constructor|intros data Hd IH]. rewrite chunks_cons by done. constructor; [|done]. rewrite length_take.
  destruct data; [done|]. cbn. lia.
Qed.

(** ** Reading *)
Section Reads.
Context {R : Type} (Read : nat -> R -> list ascii * option error * R).

(** Calls of [Read] that return the bytes [l], none of which ends the stream:
    each returned no error or filled its buffer. *)
Inductive taken : R -> list ascii -> R -> Prop :=
  | taken_none r : taken r [] r
  | taken_more n r l e r1 l2 r2 :
      0 < n -> Read n r = (l, e, r1) -> length l <= n -> e = None \/ length l = n -> taken r1 l2 r2 -> taken r (l ++ l2) r2.
(** The bytes that successive calls return up to the first that reports an end:
    [io.EOF] or [io.ErrUnexpectedEOF], plain or wrapped. *)
Inductive drawn (r : R) : list ascii -> Prop :=
  | drawn_end l r1 n l2 e r2 :
      taken r l r1 -> 0 < n -> Read n r1 = (l2, Some e, r2) -> length l2 <= n -> is_end e = true -> drawn r (l ++ l2).

(** A reader that behaves as [io.Reader] documents it, and returns [data] within
    [k] calls whatever buffers it gets: every call returns at most a buffer of
    the bytes that are left; [io.EOF] comes with or after the last bytes, and
    again with no bytes in the call after. *)
Definition at_end (r : R) : Prop := forall n, 0 < n -> exists r', Read n r = ([], Some EOF, r').
Fixpoint delivers (k : nat) (r : R) (data : list ascii) : Prop :=
  match k with
  | O => False
  | S k => forall n, 0 < n -> exists l e r' rest, Read n r = (l, e, r') /\ length l <= n /\ data = l ++ rest /\
      (e = None /\ delivers k r' rest \/ e = Some EOF /\ rest = [] /\ at_end r')
  end.

Lemma taken_drawn r1 l r2 l' : taken r1 l r2 -> drawn r2 l' -> drawn r1 (l ++ l').
Proof.
  intros Ht [l1 r3 n l2 e r4 H1 H2 H3 H4 H5]. rewrite (assoc_L (++)). eapply drawn_end; [|exact H2|exact H3|exact H4|exact H5].
  clear -Ht H1. induction Ht as [|n r l e r1 l2' r2 Hn Hr Hl He _ IH]; [done|]. rewrite <- (assoc_L (++)). eapply taken_more; eauto.
Qed.
Lemma taken_one n r l e r1 : 0 < n -> Read n r = (l, e, r1) -> length l <= n -> e = None \/ length l = n -> taken r l r1.
Proof. intros. rewrite <- (app_nil_r l). eapply taken_more; eauto using taken_none. Qed.
Lemma drawn_one n r l e r1 : 0 < n -> Read n r = (l, Some e, r1) -> length l <= n -> is_end e = true -> drawn r l.
Proof. intros. eapply (drawn_end _ []); eauto using taken_none. Qed.

Lemma taken_at_end r l r1 : at_end r -> taken r l r1 -> l = [] /\ r1 = r.
Proof.
  intros Ha Ht. inversion Ht as [|n r0 l1 e r2 l2 r3 Hn Hr Hl He _]; subst; [done|]. destruct (Ha n Hn) as (r' & Hr'). rewrite Hr in Hr'. injection Hr' as -> -> ->.
  destruct He as [|He]; [done|]. cbn in He. lia.
Qed.
Lemma taken_delivers r l r1 : taken r l r1 -> forall k data, delivers k r data ->
  exists rest, data = l ++ rest /\ ((exists k', delivers k' r1 rest) \/ rest = [] /\ at_end r1).
Proof.
  induction 1 as [r|n r l e r1 l2 r2 Hn Hr Hl He Ht IH]; intros [|k] data Hd; [done|exists data; eauto|done|].
  destruct (Hd n Hn) as (l' & e' & r' & rest & Hr' & _ & -> & Hcase). rewrite Hr in Hr'. injection Hr' as <- <- <-.
  destruct Hcase as [[_ Hd']|(_ & -> & Ha)].
  - destruct (IH k rest Hd') as (rest' & -> & H). exists rest'. by rewrite (assoc_L (++)).
  - destruct (taken_at_end _ _ _ Ha Ht) as [-> ->]. exists []. rewrite !app_nil_r. eauto.
Qed.
(** The bytes of such a reader are what is drawn from it. *)
Lemma drawn_delivers k r data data' : delivers k r data -> drawn r data' -> data' = data.
Proof.
  intros Hd [l r1 n l2 e r2 Ht Hn Hr _ _]. destruct (taken_delivers _ _ _ Ht _ _ Hd) as (rest & -> & [([|k'] & Hd')|[-> Ha]]); [done| |].
  - destruct (Hd' n Hn) as (l' & e' & r' & rest' & Hr' & _ & -> & Hcase). rewrite Hr in Hr'. injection Hr' as <- <- <-.
    destruct Hcase as [[? _]|(_ & -> & _)]; [done|]. by rewrite app_nil_r.
  - destruct (Ha n Hn) as (r' & Hr'). rewrite Hr in Hr'. by injection Hr' as -> _ _.
Qed.

(** ** Through the reader of a declared size *)
#[local] Notation sRead := (sized_Read Read).

Definition bad (e : option error) : Prop := exists b, e = Some b /\ is_end b = false.

Lemma sized_step n s l e s' : 0 < n -> sRead n s = (l, e, s') ->
  (bad e /\ l = []) \/ exists m, 0 < m <= n /\ Read m (sz_reader s) = (l, e, sz_reader s') /\ length l <= m /\
    sz_remaining s = (sz_remaining s' + N.of_nat (length l))%N.
Proof.
  intros Hn H. unfold sized_Read in H. rewrite bool_decide_eq_false_2 in H by lia. case_bool_decide as Hz.
  - destruct (Read 1 (sz_reader s)) as [[extra err] r] eqn:Er. injection H as <- <- <-. case_bool_decide as Hx; [left; split; [by exists TooLong|done]|].
    destruct extra; [|cbn in Hx; lia]. right. exists 1. cbn. split_and!; try done; lia.
  - destruct (Read _ (sz_reader s)) as [[got err] r] eqn:Er. case_bool_decide as Hx; injection H as <- <- <-; [left; split; [by exists InvalidCount|done]|].
    right. eexists. split_and!; [..|exact Er| |]; cbn; lia.
Qed.

Lemma read_full_sized rounds want s l e s' : 0 < want -> read_full sRead rounds want s = (l, e, s') ->
  bad e \/ sz_remaining s = (sz_remaining s' + N.of_nat (length l))%N /\
  match e with
  | None => length l = want /\ taken (sz_reader s) l (sz_reader s')
  | Some _ => length l < want /\ drawn (sz_reader s) l
  end.
Proof.
  revert want s l. induction rounds as [|rounds IH]; intros want s l Hw H; cbn [read_full] in H; [injection H as <- <- <-; left; by exists out_of_rounds|].
  destruct (sRead want s) as [[l1 e1] s1] eqn:E1. pose proof (sized_step _ _ _ _ _ Hw E1) as Hstep. case_bool_decide as Hl.
  - injection H as <- <- <-. right. destruct Hstep as [[_ ->]|(m & Hm & Hr & Hlm & Hrem)]; [cbn in Hl; lia|].
    split; [done|]. split; [lia|]. eapply taken_one; [|exact Hr|done|right]; lia.
  - destruct e1 as [b|].
    + injection H as <- <- <-. destruct Hstep as [[Hb _]|(m & Hm & Hr & Hlm & Hrem)]; [by left|]. destruct (is_end b) eqn:Eb; [|left; by exists b].
      right. split; [done|]. split; [lia|]. eapply drawn_one; [|exact Hr|done|done]. lia.
    + destruct Hstep as [[(b & ? & _) _]|(m & Hm & Hr & Hlm & Hrem)]; [done|].
      destruct (read_full sRead rounds (want - length l1) s1) as [[l2 e2] s2] eqn:E2. injection H as <- <- <-.
      destruct (IH (want - length l1) s1 l2) as [Hb|[Hrem2 Hc]]; [lia|exact E2|by left|]. right. rewrite length_app. split; [lia|].
      assert (taken (sz_reader s) l1 (sz_reader s1)) as Ht by (eapply taken_one; [|exact Hr|done|by left]; lia). destruct e2 as [e2|].
      * split; [lia|]. eapply taken_drawn; [exact Ht|apply Hc].
      * split; [lia|]. destruct Hc as [_ Hc]. clear -Ht Hc. induction Ht as [|n r l e r1 l2' r2 Hn Hr Hl He _ IH]; [done|].
        rewrite <- (assoc_L (++)). eapply taken_more; eauto.
Qed.

Lemma ReadFull_sized rounds want s l e s' : 0 < want -> ReadFull sRead rounds want s = (l, e, s') ->
  bad e \/ sz_remaining s = (sz_remaining s' + N.of_nat (length l))%N /\
  match e with
  | None => length l = want /\ taken (sz_reader s) l (sz_reader s')
  | Some _ => length l < want /\ drawn (sz_reader s) l
  end.
Proof.
  intros Hw H. unfold ReadFull in H. destruct (read_full sRead rounds want s) as [[l0 e0] s0] eqn:E0. injection H as <- <- <-.
  apply read_full_sized in E0 as [(b & -> & Hb)|[Hrem Hc]]; [|right|done].
  - left. exists b. rewrite bool_decide_eq_false_2; [done|]. by intros [= ->].
  - split; [done|]. destruct (bool_decide (e0 = Some EOF)) eqn:Ee; [apply bool_decide_eq_true in Ee as ->; by case_bool_decide|done].
Qed.

Section Stream.
Context {St : Type} (emit : list ascii -> Act St unit).

(** What a stream that succeeded has emitted. *)
Lemma stream_drawn loops rounds n s x s' x' : 0 < n -> stream sRead loops rounds n emit s x = (Ok s', x') ->
  exists data u, drawn (sz_reader s) data /\ sz_remaining s = (sz_remaining s' + N.of_nat (length data))%N /\
    each emit (chunks n data) x = (Ok u, x').
Proof.
  intros Hn. revert s x. induction loops as [|loops IH]; intros s x H; [done|]. cbn [stream] in H.
  destruct (ReadFull sRead rounds n s) as [[l e] s1] eqn:E1. apply ReadFull_sized in E1 as [(b & -> & Hb)|[Hrem Hc]]; [by rewrite Hb in H| |done].
  destruct e as [e|].
  - destruct (is_end e); [|done]. destruct Hc as [Hl Hd]. apply act_bind_Ok in H as ([] & x1 & He & H). apply ret_Ok in H as [-> ->]. exists l.
    case_bool_decide as Hp.
    + rewrite chunks_cons, take_ge, drop_ge by (first [lia | by intros ->; cbn in Hp; lia]). eexists. split_and!; [done|done|]. cbn [each].
      rewrite (act_bind_run _ _ _ _ _ He). done.
    + destruct l; [|cbn in Hp; lia]. apply ret_Ok in He as [_ ->]. by exists [].
  - destruct Hc as [Hl Ht]. apply act_bind_Ok in H as ([] & x1 & He & H). rewrite bool_decide_eq_true_2 in He by lia.
    destruct (IH _ _ H) as (data & u & Hd & Hrem2 & Heach). exists (l ++ data), (() :: u). split_and!.
    + by eapply taken_drawn.
    + rewrite length_app. lia.
    + assert (l ++ data <> []) as Hne by (destruct l; [cbn in Hl; lia|done]). rewrite chunks_cons, take_app_length', drop_app_length' by done. cbn [each].
      rewrite (act_bind_run _ _ _ _ _ He), (act_bind_run _ _ _ _ _ Heach). done.
Qed.

Definition then_reader {A} (s : sized R) (x : result A * St) : result (sized R) * St := (match x.1 with Ok _ => Ok s | Err e => Err e end, x.2).

(** The rest of the stream is [data], and as much is declared to be left. *)
Definition ready (k : nat) (s : sized R) (data : list ascii) : Prop :=
  sz_remaining s = N.of_nat (length data) /\ (delivers k (sz_reader s) data \/ data = [] /\ at_end (sz_reader s)).

Lemma sized_ready k s data n : 0 < n -> ready k s data -> exists l e s' rest,
  sRead n s = (l, e, s') /\ length l <= n /\ data = l ++ rest /\
  ((e = None /\ exists k', k' < k /\ ready k' s' rest) \/
   e = Some EOF /\ rest = [] /\ sz_remaining s' = 0%N /\ (data <> [] -> 0 < k /\ ready 0 s' [])).
Proof.
  intros Hn [Hrem Hr]. unfold sized_Read. rewrite bool_decide_eq_false_2 by lia. destruct Hr as [Hd|[-> Ha]].
  - destruct k as [|k]; [done|]. case_bool_decide as Hz.
    + assert (data = []) as -> by (destruct data; [done|cbn in Hrem; lia]).
      destruct (Hd 1 ltac:(lia)) as (l & e & r' & rest & -> & _ & Hnil & Hc). symmetry in Hnil. apply app_nil in Hnil as [-> ->]. cbn.
      eexists [], e, _, []. split_and!; [done|cbn; lia|done|]. destruct Hc as [[-> Hd']|(-> & _ & Ha)]; [left|right; done].
      split; [done|]. exists k. split; [lia|]. split; [done|]. by left.
    + destruct (Hd (Nat.min n (N.to_nat (sz_remaining s))) ltac:(lia)) as (l & e & r' & rest & -> & Hl & -> & Hc).
      rewrite bool_decide_eq_false_2 by lia. rewrite length_app in Hrem. eexists l, e, _, rest. split_and!; [done|lia|done|].
      destruct Hc as [[-> Hd']|(-> & -> & Ha)]; [left|right].
      * split; [done|]. exists k. split; [lia|]. split; [cbn; lia|]. by left.
      * cbn in Hrem |- *. split_and!; [done|done|lia|]. intros _. split; [lia|]. split; [cbn; lia|]. by right.
  - rewrite bool_decide_eq_true_2 by (cbn in Hrem; lia). destruct (Ha 1 ltac:(lia)) as (r' & ->). cbn.
    eexists [], (Some EOF), _, []. split_and!; [done|cbn; lia|done|]. right. done.
Qed.

Lemma read_full_ready rounds k want s data : 0 < want -> k < rounds -> ready k s data ->
  if bool_decide (want <= length data)
  then exists s' k', read_full sRead rounds want s = (take want data, None, s') /\ k' < k /\ ready k' s' (drop want data)
  else exists s', read_full sRead rounds want s = (data, Some EOF, s') /\ sz_remaining s' = 0%N.
Proof.
  revert k want s data. induction rounds as [|rounds IH]; intros k want s data Hw Hk Hr; [lia|]. cbn [read_full].
  destruct (sized_ready k s data want Hw Hr) as (l & e & s1 & rest & -> & Hl & -> & Hc). rewrite length_app.
  destruct (decide (want <= length l)) as [Hf|Hf]; [rewrite (bool_decide_eq_true_2 (want <= length l)) by done|rewrite (bool_decide_eq_false_2 (want <= length l)) by done].
  - rewrite bool_decide_eq_true_2, take_app_length', drop_app_length' by lia. destruct Hc as [(-> & k' & ? & ?)|(-> & -> & _ & Hd)]; [eauto|].
    destruct Hd as [? ?]; [rewrite app_nil_r; intros ->; cbn in Hf; lia|]. eauto.
  - destruct Hc as [(-> & k' & Hk' & Hr')|(-> & -> & Hz & _)].
    + specialize (IH k' (want - length l) s1 rest ltac:(lia) ltac:(lia) Hr'). case_bool_decide as Hc.
      * destruct IH as (s' & k'' & -> & ? & ?). rewrite bool_decide_eq_true_2, take_app_ge, drop_app_ge by lia. exists s', k''. split_and!; [done|lia|done].
      * destruct IH as (s' & -> & ?). rewrite bool_decide_eq_false_2 by lia. eauto.
    + rewrite app_nil_r in *. rewrite bool_decide_eq_false_2 by (cbn; lia). eauto.
Qed.

Lemma stream_ready loops rounds n k s data : 0 < n -> k < loops -> k < rounds -> ready k s data ->
  exists s', sz_remaining s' = 0%N /\ forall x, stream sRead loops rounds n emit s x = then_reader s' (each emit (chunks n data) x).
Proof.
  intros Hn. revert k s data. induction loops as [|loops IH]; intros k s data Hl Hk Hr; [lia|]. cbn [stream].
  pose proof (read_full_ready rounds k n s data Hn Hk Hr) as H. unfold ReadFull. case_bool_decide as Hc.
  - destruct H as (s1 & k' & -> & Hk' & Hr'). rewrite (bool_decide_eq_false_2 (None = Some EOF)) by done. cbn [andb].
    destruct (IH k' s1 (drop n data) ltac:(lia) ltac:(lia) Hr') as (s' & Hz & Hs). exists s'. split; [done|]. intros x.
    rewrite bool_decide_eq_true_2 by (rewrite length_take; lia). rewrite chunks_cons by (first [done | intros ->; cbn in Hc; lia]). cbn [each].
    unfold mbind, Act_bind. destruct (emit (take n data) x) as [[[]|e] x1]; [|done]. rewrite Hs. by destruct (each emit _ x1) as [[?|?] ?].
  - destruct H as (s1 & -> & Hz). exists s1. split; [done|]. intros x. rewrite bool_decide_eq_true_2 by done. cbn [andb].
    assert (forall b : bool, is_end (if b then ErrUnexpectedEOF else EOF) = true) as Hend by by intros [].
    case_bool_decide as Hp.
    + rewrite chunks_cons, take_ge, drop_ge, chunks_nil by (first [lia | intros ->; cbn in Hp; lia]). cbn [each]. change (is_end ErrUnexpectedEOF) with true. cbn iota.
      unfold mbind, Act_bind. by destruct (emit data x) as [[[]|e] x1].
    + destruct data; [|cbn in Hp; lia]. done.
Qed.
End Stream.

(** [io.ReadAll] through the reader of a declared size. *)
Lemma read_all_drawn rounds room s l s' : ReadAll sRead rounds room s = Ok (l, s') ->
  drawn (sz_reader s) l /\ sz_remaining s = (sz_remaining s' + N.of_nat (length l))%N.
Proof.
  revert s l. induction rounds as [|rounds IH]; intros s l H; [done|]. cbn [ReadAll] in H. destruct (sRead (S (room rounds)) s) as [[l1 e1] s1] eqn:E1.
  apply sized_step in E1; [|lia]. destruct e1 as [e1|].
  - case_bool_decide as He; [|done]. injection H as <- <-. subst e1. destruct E1 as [[(b & [= <-] & ?) _]|(m & Hm & Hr & Hl & Hrem)]; [done|].
    split; [|done]. eapply drawn_one; [|exact Hr|done|done]. lia.
  - destruct E1 as [[(b & ? & _) _]|(m & Hm & Hr & Hl & Hrem)]; [done|]. apply bind_Ok in H as ([l2 s2] & H2 & H). injection H as <- <-.
    apply IH in H2 as [Hd Hrem2]. rewrite length_app. split; [|lia]. eapply taken_drawn; [|exact Hd]. eapply taken_one; [|exact Hr|done|by left]. lia.
Qed.

Lemma read_all_ready rounds room k s data : k < rounds -> ready k s data ->
  exists s', ReadAll sRead rounds room s = Ok (data, s') /\ sz_remaining s' = 0%N.
Proof.
  revert k s data. induction rounds as [|rounds IH]; intros k s data Hk Hr; [lia|]. cbn [ReadAll].
  destruct (sized_ready k s data (S (room rounds)) ltac:(lia) Hr) as (l & e & s1 & rest & -> & Hl & -> & [(-> & k' & Hk' & Hr')|(-> & -> & Hz & _)]).
  - destruct (IH k' s1 rest ltac:(lia) Hr') as (s' & -> & ?). cbn. eauto.
  - rewrite bool_decide_eq_true_2 by done. rewrite app_nil_r. eauto.
Qed.
End Reads.

Section Materialize.
Context {L : CidLib} {BK : BlockLib} {R : Type} (Read : nat -> R -> list ascii * option error * R) {St : Type}.
Context (put : list ascii -> Act St (option Cid)) (flush : option (Act St unit)) (create : list (option Cid) -> option Cid -> Act St Cid).

Lemma put_chunks cs s acc u s' cids : each (put_chunk put) cs (s, acc) = (Ok u, (s', cids)) <-> u = replicate (length cs) () /\ exists new, cids = acc ++ new /\ each put cs s = (Ok new, s').
Proof.
  revert s acc u s' cids. induction cs as [|c cs IH]; intros s acc u s' cids; cbn [each].
  - split; [intros [= <- <- <-]; split; [done|]; exists []; by rewrite app_nil_r|]. intros (-> & new & -> & [= <- <-]). by rewrite app_nil_r.
  - unfold mbind, Act_bind. cbn. destruct (put c s) as [[k|e] s1]; [|split; [done|naive_solver]]. destruct (each (put_chunk put) cs (s1, acc ++ [k])) as [[v|e] [s2 cids2]] eqn:E.
    + apply IH in E as (-> & new & -> & ->). cbn. split.
      * intros [= <- <- <-]. split; [done|]. exists (k :: new). by rewrite <- app_assoc.
      * intros (-> & new' & -> & [= <- <-]). by rewrite <- app_assoc.
    + split; [done|]. intros (-> & new & -> & H1). destruct (each put cs s1) as [[new'|e'] s3] eqn:E3; [|done]. exfalso.
      assert (each (put_chunk put) cs (s1, acc ++ [k]) = (Ok (replicate (length cs) ()), (s3, (acc ++ [k]) ++ new'))) as E' by (apply IH; eauto). by rewrite E in E'.
Qed.

Definition chunk_document (total chunkSize : N) : list ascii := marshal_metadata (mkChunkMetadata ChunkMetadataProfile chunkSize total None).

Lemma each_length {A B} (f : A -> Act St B) l s bs s' : each f l s = (Ok bs, s') -> length bs = length l.
Proof. intros He. symmetry. eapply Forall2_length, (each_Forall2 f (fun _ _ => True)); [|exact He]. done. Qed.

Lemma document_count data chunkSize : (0 < chunkSize)%Z ->
  EncodeChunkMetadata (N.of_nat (length data)) (Z.to_N chunkSize) (N.of_nat (length (chunks (Z.to_nat chunkSize) data))) = Ok (chunk_document (N.of_nat (length data)) (Z.to_N chunkSize)).
Proof.
  intros Hc. unfold EncodeChunkMetadata, encode, Validate. cbn. rewrite (bool_decide_eq_true_2 (ChunkMetadataProfile = ChunkMetadataProfile)) by done. rewrite (bool_decide_eq_false_2 (Z.to_N chunkSize = 0%N)) by lia.
  rewrite chunks_length by lia. rewrite Z_nat_N. cbn. by rewrite bool_decide_eq_true_2.
Qed.

(** The bytes [data] stored as a measured payload: the chunks in order, then the
    document with their width and total size, whose receipt must be the CID of
    the document; the root is made of these receipts. *)
Definition stored (chunkSize : Z) (data : list ascii) (s : St) (root : Cid) (s' : St) : Prop :=
  let document := chunk_document (N.of_nat (length data)) (Z.to_N chunkSize) in
  exists cids payload s1 s2 s3,
    each put (chunks (Z.to_nat chunkSize) data) s = (Ok cids, s1) /\ put document s1 = (Ok payload, s2) /\
    VerifyPayloadCID payload document = Ok () /\
    match flush with Some flush => flush s2 = (Ok (), s3) | None => s3 = s2 end /\ create cids payload s3 = (Ok root, s').

(** What follows the stream. *)
Lemma finish_measured data chunkSize cids s1 s root s' : (0 < chunkSize)%Z -> each put (chunks (Z.to_nat chunkSize) data) s = (Ok cids, s1) ->
  (_ ← pure (fail_if (bool_decide (cids = [])) (Errorf "empty chunk sequence"));
   metadata ← pure (EncodeChunkMetadata (N.of_nat (length data)) (Z.to_N chunkSize) (N.of_nat (length cids)));
   payload ← wrapped "upload chunk metadata" (put metadata);
   _ ← pure (VerifyPayloadCID payload metadata);
   _ ← (match flush with Some flush => wrapped "flush payload chunks" flush | None => mret () end);
   create cids payload) s1 = (Ok root, s') <-> data <> [] /\ stored chunkSize data s root s'.
Proof.
  intros Hc He. assert (length cids = length (chunks (Z.to_nat chunkSize) data)) as Hlen by (by eapply each_length). rewrite Hlen, document_count by done.
  assert (cids = [] <-> data = []) as Hne.
  { split; [intros ->|intros ->; by destruct cids]. destruct data; [done|]. rewrite chunks_cons in Hlen by (done || lia). done. }
  split.
  - intros Hm. apply act_bind_Ok in Hm as ([] & s0 & H0 & Hm). apply pure_Ok in H0 as [H0 ->]. apply fail_if_Ok, bool_decide_eq_false in H0.
    apply act_bind_Ok in Hm as (doc & s0' & H0' & Hm). apply pure_Ok in H0' as [[= <-] ->]. apply act_bind_Ok in Hm as (payload & s2 & H4%wrapped_Ok & Hm).
    apply act_bind_Ok in Hm as ([] & s0' & H0' & Hm). apply pure_Ok in H0' as [H5 ->]. apply act_bind_Ok in Hm as ([] & s3 & H6 & Hm).
    split; [by rewrite <- Hne|]. exists cids, payload, s1, s2, s3. split_and!; try done. destruct flush; [by apply wrapped_Ok in H6|by injection H6].
  - intros (Hd & cids' & payload & s1' & s2 & s3 & H3 & H4 & H5 & H6 & H7). rewrite He in H3. injection H3 as <- <-.
    unfold mbind, Act_bind, pure. rewrite bool_decide_eq_false_2 by (by rewrite Hne). cbn [fail_if]. unfold wrapped. rewrite H4. cbn [wrap_err]. rewrite H5.
    destruct flush as [fl|]; [by rewrite H6|]. by subst s3.
Qed.

Lemma measured_sound rounds r total chunkSize s root s' : (0 < chunkSize)%Z ->
  MaterializeMeasuredPayload Read put flush create rounds r total chunkSize s = (Ok root, s') ->
  exists data, drawn Read r data /\ N.of_nat (length data) = total /\ data <> [] /\ stored chunkSize data s root s'.
Proof.
  intros Hc H. unfold MaterializeMeasuredPayload in H. destruct (StreamPayloadChunks _ _ _ _ _ _) as [[sz|e] [s1 cids]] eqn:Es; [|done].
  unfold StreamPayloadChunks in Es. replace (chunkSize <=? 0)%Z with false in Es by lia. apply stream_drawn in Es as (data & u & Hd & Hrem & He); [|lia].
  apply put_chunks in He as (_ & new & -> & He). cbn [app] in H. apply act_bind_Ok in H as ([] & s0 & H0 & H). apply pure_Ok in H0 as [Hv ->].
  unfold validateComplete in Hv. apply fail_if_Ok, negb_false_iff, bool_decide_eq_true in Hv. cbn in Hrem, Hd. assert (N.of_nat (length data) = total) as Ht by lia.
  rewrite <- Ht in H. apply (finish_measured data chunkSize new s1 s root s' Hc He) in H as [? ?]. eauto 6.
Qed.

Lemma measured_complete rounds k r data chunkSize s root s' : (0 < chunkSize)%Z -> delivers Read k r data -> k < rounds ->
  data <> [] -> stored chunkSize data s root s' ->
  MaterializeMeasuredPayload Read put flush create rounds r (N.of_nat (length data)) chunkSize s = (Ok root, s').
Proof.
  intros Hc Hd Hk Hne Hst. pose proof Hst as (cids & payload & s1 & s2 & s3 & He & _). unfold MaterializeMeasuredPayload, StreamPayloadChunks.
  replace (chunkSize <=? 0)%Z with false by lia.
  destruct (stream_ready Read (put_chunk put) rounds rounds (Z.to_nat chunkSize) k (newDeclaredSizeReader r (N.of_nat (length data))) data) as (sz & Hz & Hs);
    [lia|lia|lia|split; [done|by left]|]. unfold mbind at 1, Act_bind at 1, pure at 1. cbn [fail_if]. rewrite Hs.
  assert (each (put_chunk put) (chunks (Z.to_nat chunkSize) data) (s, []) = (Ok (replicate (length (chunks (Z.to_nat chunkSize) data)) ()), (s1, cids))) as ->
    by (apply put_chunks; eauto). cbn [then_reader fst snd].
  assert (validateComplete sz = Ok ()) as -> by (unfold validateComplete; by rewrite bool_decide_eq_true_2).
  exact (proj2 (finish_measured data chunkSize cids s1 s root s' Hc He) (conj Hne Hst)).
Qed.

(** C26. A measured payload is exactly the declared bytes.  Whatever a reader
    does, and however often it is called, a payload is created only for bytes
    that successive calls of [Read] returned, as many as were declared and at
    least one, up to a call that reported [io.EOF] or [io.ErrUnexpectedEOF]:
    the chunks of those bytes are stored in order, then the document with their
    width and total size, whose receipt must be the CID of the document, and
    the root is made of these receipts.  For a reader that behaves as
    [io.Reader] documents, with enough rounds for its calls, the payload is
    created if and only if its bytes are as many as were declared, at least
    one, and the store accepts them in this way. *)
Theorem measured_payload_is_exact r total chunkSize s root s' :
  (0 < chunkSize)%Z ->
  (forall rounds, MaterializeMeasuredPayload Read put flush create rounds r total chunkSize s = (Ok root, s') ->
     exists data, drawn Read r data /\ N.of_nat (length data) = total /\ data <> [] /\ stored chunkSize data s root s') /\
  (forall k data rounds, delivers Read k r data -> k < rounds ->
     MaterializeMeasuredPayload Read put flush create rounds r total chunkSize s = (Ok root, s') <->
     N.of_nat (length data) = total /\ data <> [] /\ stored chunkSize data s root s').
Proof.
  intros Hc. split; [intros rounds; by apply measured_sound|]. intros k data rounds Hd Hk. split.
  - intros (data' & Hdr & H)%measured_sound; [|done]. by rewrite (drawn_delivers _ _ _ _ _ Hd Hdr) in H.
  - intros (<- & Hne & Hst). by eapply measured_complete.
Qed.

(** A small file is one block of exactly the declared bytes. *)
Lemma small_payload_is_exact rounds room r size chunkSize s payload measured s' :
  (0 <= size <= chunkSize)%Z -> (0 < chunkSize)%Z ->
  (MaterializeStagedFilePayload Read put flush create rounds room r size chunkSize s = (Ok (payload, measured), s') ->
   measured = false /\ exists data, drawn Read r data /\ Z.of_nat (length data) = size /\ put data s = (Ok payload, s')) /\
  (forall k data, delivers Read k r data -> k < rounds -> Z.of_nat (length data) = size -> put data s = (Ok payload, s') ->
   MaterializeStagedFilePayload Read put flush create rounds room r size chunkSize s = (Ok (payload, false), s')).
Proof.
  intros Hs Hc. unfold MaterializeStagedFilePayload. replace (size <? 0)%Z with false by lia. replace (chunkSize <=? 0)%Z with false by lia.
  replace (size <=? chunkSize)%Z with true by lia. cbn [fail_if]. unfold mbind, Act_bind, pure. split.
  - destruct (ReadAll _ _ _ _) as [[data sz]|e] eqn:Er; [|done]. apply read_all_drawn in Er as [Hd Hrem]. cbn in Hd, Hrem. unfold validateComplete.
    case_bool_decide as Hz; [|done]. cbn [negb fail_if]. destruct (put data s) as [[k|e] s1] eqn:Ep; [|done]. intros [= <- <- <-]. split; [done|].
    exists data. split_and!; [done|lia|done].
  - intros k data Hd Hk <- Hp. destruct (read_all_ready Read rounds room k (newDeclaredSizeReader r (Z.to_N (Z.of_nat (length data)))) data) as (sz & -> & Hz);
      [done|split; [cbn; lia|by left]|]. unfold validateComplete. rewrite bool_decide_eq_true_2 by done. cbn [negb fail_if]. by rewrite Hp.
Qed.
End Materialize.

(** ** The metadata document *)
Lemma digit_chr n : (n < 10)%N -> digit (chr (48 + n)) = true /\ (code (chr (48 + n)) - 48 = n)%N.
Proof. intros H. unfold digit, in_range. change N_of_ascii with code. rewrite code_chr by lia. lia. Qed.

Lemma div10 n : exists q m, (n / 10 = q /\ n mod 10 = m /\ n = 10 * q + m /\ m < 10)%N.
Proof. exists (n / 10)%N, (n mod 10)%N. pose proof (N.div_mod' n 10). pose proof (N.mod_lt n 10 ltac:(done)). done. Qed.

(** Decimal digits: what they are worth, that all are digits, and that the
    first is not a zero unless it is the only one. *)
Lemma dec_digits_spec f n : (n < 10 ^ N.of_nat f)%N -> f <> 0 ->
  digits_value (dec_digits f n) = n /\ forallb digit (dec_digits f n) = true /\
  exists a l, dec_digits f n = a :: l /\ (is_byte 48 a = true -> l = [] /\ n = 0%N).
Proof.
  revert n. induction f as [|f IH]; intros n Hn Hf; [done|]. cbn [dec_digits]. destruct (N.ltb_spec n 10) as [H|H].
  - destruct (digit_chr n H) as [H1 H2]. split_and!; [unfold digits_value; cbn [foldl]; lia|cbn [forallb]; by rewrite H1|]. exists (chr (48 + n)), []. split; [done|].
    intros E. split; [done|]. unfold is_byte in E. change N_of_ascii with code in E. rewrite code_chr in E by lia. lia.
  - destruct (div10 n) as (q & m & -> & -> & En & Hm). destruct (digit_chr m Hm) as [H1 H2]. assert (f <> 0) as Hf' by (intros ->; cbn in Hn; lia).
    rewrite Nat2N.inj_succ, N.pow_succ_r in Hn by lia. destruct (IH q ltac:(lia) Hf') as (Hv & Hd & a & l & E & Hz). split_and!.
    + unfold digits_value in *. rewrite foldl_app, Hv. cbn [foldl]. lia.
    + rewrite forallb_app, Hd. cbn [forallb]. by rewrite H1.
    + rewrite E. exists a, (l ++ [chr (48 + m)]). split; [done|]. intros Ha. destruct (Hz Ha) as [_ ->]. lia.
Qed.

Lemma decimal_spec n : (n < 2 ^ 64)%N ->
  digits_value (decimal n) = n /\ forallb digit (decimal n) = true /\ exists a l, decimal n = a :: l /\ (is_byte 48 a = true -> l = []).
Proof.
  intros H. destruct (dec_digits_spec 20 n) as (H1 & H2 & a & l & H3 & H4); [change (N.of_nat 20) with 20%N; lia|done|]. split_and!; [done|done|].
  exists a, l. split; [done|]. intros Ha. by apply H4.
Qed.

Lemma ParseUint_decimal bits n : (n < 2 ^ bits)%N -> (n < 2 ^ 64)%N -> ParseUint bits (decimal n) = Some n.
Proof.
  intros Hb Hn. destruct (decimal_spec n Hn) as (H1 & H2 & a & l & H3 & _). unfold ParseUint. rewrite H1, H2, bool_decide_eq_false_2 by (by rewrite H3).
  by destruct (N.ltb_spec n (2 ^ bits)); [|lia].
Qed.

(** *** Plain text is encoded as it is *)
Definition plain (a : ascii) : bool := in_range 32 126 a && negb (is_byte 34 a) && negb (is_byte 92 a).

Lemma runes_plain f l : forallb plain l = true -> length l <= f -> runes_of f l = code <$> l.
Proof.
  revert l. induction f as [|f IH]; intros [|a l] Hp Hl; try done; [cbn in Hl; lia|]. cbn in Hp. apply andb_true_iff in Hp as [Ha Hp]. cbn [runes_of]. unfold decode_rune.
  replace (in_range 0 127 a) with true by (unfold plain in Ha; byte_arith). cbn in Hl. by rewrite IH by (done || lia).
Qed.

Lemma escape_plain l : forallb plain l = true -> concat (escape_rune <$> (code <$> l)) = l.
Proof.
  induction l as [|a l IH]; [done|]. cbn [forallb]. intros [Ha Hp]%andb_true_iff. cbn [fmap list_fmap concat]. rewrite IH by done. assert (escape_rune (code a) = [a]) as ->; [|done].
  assert (32 <= code a <= 126 /\ code a <> 34 /\ code a <> 92)%N as (H1 & H2 & H3) by (unfold plain in Ha; byte_arith). unfold escape_rune.
  repeat match goal with |- context [(code a =? ?n)%N] => destruct (N.eqb_spec (code a) n); [lia|] end. destruct (N.ltb_spec (code a) 0x20); [lia|]. rewrite EncodeRune_ascii by lia. by rewrite chr_code.
Qed.

Lemma quoted_plain l : forallb plain l = true -> quoted l = appendJSONString (of_bytes l) /\ ValidString (of_bytes l) = true.
Proof.
  intros Hp. unfold appendJSONString, ValidString, quoted, runes. rewrite bytes_of_bytes, runes_plain, escape_plain by done. split; [done|].
  rewrite <- (app_nil_r l), utf8_ascii; [done|]. apply forallb_forall. intros a Ha. rewrite forallb_forall in Hp. specialize (Hp a Ha). unfold plain in Hp. byte_arith.
Qed.

Lemma decimal_plain n : (n < 2 ^ 64)%N -> forallb plain (decimal n) = true.
Proof.
  intros H. destruct (decimal_spec n H) as (_ & Hd & _). rewrite forallb_forall in *. intros a Ha. specialize (Hd a Ha). unfold plain, digit in *. byte_arith.
Qed.

(** *** Reading numbers back *)
Lemma digits_app ds l : forallb digit ds = true -> match l with a :: _ => digit a = false | [] => True end -> digits (ds ++ l) = (ds, l).
Proof.
  intros Hd Hl. induction ds as [|a ds IH]; cbn [app].
  - destruct l as [|a l]; [done|]. cbn. by rewrite Hl.
  - cbn in Hd |- *. apply andb_true_iff in Hd as [-> Hd]. by rewrite IH.
Qed.

Lemma value_number f d n l : (n < 2 ^ 64)%N -> parse_value (S f) d (decimal n ++ bytes "}" ++ l) = Some (JNumber (decimal n), bytes "}" ++ l).
Proof.
  intros Hn. destruct (decimal_spec n Hn) as (_ & Hd & a & ds & E & Hz). rewrite E in *. cbn in Hd. apply andb_true_iff in Hd as [Ha Hd]. cbn [app parse_value skip].
  unfold digit in Ha. replace (is_space a) with false by (unfold is_space; byte_arith). replace (is_byte 123 a) with false by byte_arith. replace (is_byte 91 a) with false by byte_arith.
  replace (is_byte 34 a) with false by byte_arith. replace (is_byte 110 a) with false by byte_arith. replace (is_byte 116 a) with false by byte_arith. replace (is_byte 102 a) with false by byte_arith.
  assert (parse_number (a :: ds ++ bytes "}" ++ l) = Some (a :: ds, bytes "}" ++ l)) as ->; [|done].
  unfold parse_number, sign_part. replace (is_byte 45 a) with false by byte_arith. unfold int_part. destruct (is_byte 48 a) eqn:E0.
  - by rewrite (Hz eq_refl).
  - unfold digits1. change (a :: ds ++ bytes "}" ++ l) with ((a :: ds) ++ bytes "}" ++ l). rewrite digits_app by (done || (cbn [forallb]; unfold digit at 1; by rewrite Ha)).
    cbn [mbind option_bind]. replace (frac_part (bytes "}" ++ l)) with (Some (@nil ascii, bytes "}" ++ l)) by reflexivity. cbn [mbind option_bind].
    replace (exp_part (bytes "}" ++ l)) with (Some (@nil ascii, bytes "}" ++ l)) by reflexivity. cbn. by rewrite app_nil_r.
Qed.

(** *** The document reads back *)
Definition widths (m : ChunkMetadata) : Prop :=
  (cm_ChunkSize m < 2 ^ 64)%N /\ (cm_TotalSize m < 2 ^ 64)%N /\ match cm_Mode m with Some mode => (mode < 2 ^ 32)%N | None => True end.

Definition metadata_members (m : ChunkMetadata) : list (list ascii * json) :=
  [(bytes "profile", JString (bytes ChunkMetadataProfile)); (bytes "chunk_size", JString (decimal (cm_ChunkSize m)));
   (bytes "total_size", JString (decimal (cm_TotalSize m)))] ++ match cm_Mode m with Some mode => [(bytes "mode", JNumber (decimal mode))] | None => [] end.

Lemma value_decimal f d n l : (n < 2 ^ 64)%N -> parse_value (S f) d (quoted (decimal n) ++ l) = Some (JString (decimal n), l).
Proof. intros H. destruct (quoted_plain (decimal n) (decimal_plain n H)) as [-> Hv]. rewrite value_string by done. by rewrite bytes_of_bytes. Qed.

Lemma Unmarshal_metadata m : cm_Profile m = ChunkMetadataProfile -> widths m -> Unmarshal (marshal_metadata m) = Some (JObject (metadata_members m)).
Proof.
  intros Hp (H1 & H2 & H3). rewrite (Unmarshal_fuel _ (6 + 2 * length (marshal_metadata m))) by lia. generalize (2 * length (marshal_metadata m)). intros n. unfold marshal_metadata. rewrite Hp.
  change (word "profile") with (appendJSONString "profile"). change (word ChunkMetadataProfile) with (appendJSONString ChunkMetadataProfile). change (word "chunk_size") with (appendJSONString "chunk_size").
  change (word "total_size") with (appendJSONString "total_size"). change (word "mode") with (appendJSONString "mode"). change (6 + n) with (S (5 + n)).
  rewrite (appendJSONString_app "profile"), value_object, <- appendJSONString_app by lia. unfold metadata_members.
  erewrite (members_more (4 + n) 1 "profile"); [|done|by apply value_string]. erewrite (members_more (3 + n) 1 "chunk_size"); [|done|by apply value_decimal]. destruct (cm_Mode m) as [mode|].
  - rewrite <- !app_assoc. erewrite (members_more (2 + n) 1 "total_size"); [|done|by apply value_decimal].
    change (bytes "}") with (bytes "}" ++ []). erewrite (members_last (1 + n) 1 "mode"); [|done|apply value_number; lia]. done.
  - cbn [app]. change (bytes "}") with (bytes "}" ++ []). erewrite (members_last (2 + n) 1 "total_size"); [|done|by apply value_decimal]. done.
Qed.

Lemma quoted_uint_decimal n : (n < 2 ^ 64)%N -> quoted_uint (JString (decimal n)) = Some (Some n).
Proof.
  intros H. unfold quoted_uint. rewrite bool_decide_eq_false_2; [by rewrite ParseUint_decimal|]. intros E. destruct (decimal_spec n H) as (_ & Hd & _). by rewrite E in Hd.
Qed.

Lemma set_profile m s : set_field m (bytes "profile", JString s) = Some (mkChunkMetadata (of_bytes s) (cm_ChunkSize m) (cm_TotalSize m) (cm_Mode m)).
Proof. reflexivity. Qed.
Lemma set_chunk m v : set_field m (bytes "chunk_size", v) = n ← quoted_uint v; Some (mkChunkMetadata (cm_Profile m) (default (cm_ChunkSize m) n) (cm_TotalSize m) (cm_Mode m)).
Proof. reflexivity. Qed.
Lemma set_total m v : set_field m (bytes "total_size", v) = n ← quoted_uint v; Some (mkChunkMetadata (cm_Profile m) (cm_ChunkSize m) (default (cm_TotalSize m) n) (cm_Mode m)).
Proof. reflexivity. Qed.
Lemma set_mode m l : set_field m (bytes "mode", JNumber l) = n ← ParseUint 32 l; Some (mkChunkMetadata (cm_Profile m) (cm_ChunkSize m) (cm_TotalSize m) (Some n)).
Proof. reflexivity. Qed.

Lemma unmarshal_marshal m : cm_Profile m = ChunkMetadataProfile -> widths m -> unmarshal_metadata (marshal_metadata m) = Some m.
Proof.
  intros Hp Hw. unfold unmarshal_metadata. rewrite Unmarshal_metadata by done. destruct Hw as (H1 & H2 & H3). cbn [mbind option_bind]. unfold metadata_members. rewrite foldl_app. cbn [foldl mbind option_bind].
  rewrite set_profile. cbn [mbind option_bind]. rewrite set_chunk, quoted_uint_decimal by done. cbn [mbind option_bind]. rewrite set_total, quoted_uint_decimal by done. cbn [mbind option_bind].
  destruct m as [profile chunk total mode]. cbn in Hp, H3. subst profile. cbn [cm_Profile cm_ChunkSize cm_TotalSize cm_Mode default]. rewrite of_bytes_bytes. destruct mode as [mode|]; [|done].
  cbn [foldl mbind option_bind]. rewrite set_mode, ParseUint_decimal by lia. done.
Qed.

Lemma ParseUint_bound bits l n : ParseUint bits l = Some n -> (n < 2 ^ bits)%N.
Proof. unfold ParseUint. destruct (_ && _) eqn:E; [|done]. intros [= <-]. apply andb_true_iff in E as [_ E]. by apply N.ltb_lt. Qed.

Lemma quoted_uint_bound v n : quoted_uint v = Some (Some n) -> (n < 2 ^ 64)%N.
Proof.
  destruct v; try done. cbn. case_bool_decide; [done|]. destruct (ParseUint 64 s) as [k|] eqn:E; [|done]. intros [= <-]. by eapply ParseUint_bound.
Qed.

Lemma set_field_widths m member m' : widths m -> set_field m member = Some m' -> widths m'.
Proof.
  intros (H1 & H2 & H3) H. destruct member as [key v]. unfold set_field in H. destruct (names "profile" key); [destruct v; simplify_eq; done|].
  destruct (names "chunk_size" key); [destruct (quoted_uint v) as [[n|]|] eqn:E; cbn in H; simplify_eq; (split_and!; [|done|done]); cbn; [by eapply quoted_uint_bound|done]|].
  destruct (names "total_size" key); [destruct (quoted_uint v) as [[n|]|] eqn:E; cbn in H; simplify_eq; (split_and!; [done| |done]); cbn; [by eapply quoted_uint_bound|done]|].
  destruct (names "mode" key); [|simplify_eq; done]. destruct v; try done; [simplify_eq; done|]. destruct (ParseUint 32 literal) as [n|] eqn:E; cbn in H; [|done]. simplify_eq.
  split_and!; [done|done|]. cbn. by eapply ParseUint_bound.
Qed.

Lemma set_fields_widths ms acc m : (forall a, acc = Some a -> widths a) -> foldl (fun acc member => m ← acc; set_field m member) acc ms = Some m -> widths m.
Proof.
  revert acc. induction ms as [|x ms IH]; intros acc Ha H; [by apply Ha|]. eapply IH; [|exact H]. intros a Hx. destruct acc as [b|]; [|done]. cbn in Hx. eapply set_field_widths; [by apply Ha|exact Hx].
Qed.

Lemma unmarshal_widths data m : unmarshal_metadata data = Some m -> widths m.
Proof.
  unfold unmarshal_metadata. destruct (Unmarshal data) as [v|]; cbn [mbind option_bind]; [|done]. assert (widths zeroMetadata) as Hz by done. destruct v; try done; [by intros [= <-]|].
  apply set_fields_widths. by intros a [= <-].
Qed.

Section Documents.
Context {L : CidLib} {BK : BlockLib}.

Lemma chunk_metadata_document key data count m :
  ParseChunkMetadata key data count = Ok m <->
  VerifyPayloadCID key data = Ok () /\ cid_Type <$> key = Some Raw /\ encode m count = Ok data /\ widths m.
Proof.
  unfold ParseChunkMetadata, encode. split.
  - intros H. apply bind_Ok in H as ([] & H1 & H). apply bind_Ok in H as ([] & H2 & H). apply bind_Ok in H as (m' & H3 & H). apply bind_Ok in H as ([] & H4 & H). apply bind_Ok in H as ([] & H5 & H).
    injection H as <-. apply fail_if_Ok, negb_false_iff, bool_decide_eq_true in H2, H5. apply or_err_Ok, unmarshal_widths in H3. rewrite H4. cbn [mbind result_bind]. rewrite H5. done.
  - intros (H1 & H2 & H3 & H4). apply bind_Ok in H3 as ([] & Hv & H3). injection H3 as <-. rewrite H1. cbn [mbind result_bind]. rewrite bool_decide_eq_true_2 by done. cbn [negb fail_if mbind result_bind].
    assert (cm_Profile m = ChunkMetadataProfile) as Hp.
    { unfold Validate in Hv. apply bind_Ok in Hv as ([] & Hv & _). apply fail_if_Ok, orb_false_iff in Hv as [Hv _]. by apply negb_false_iff, bool_decide_eq_true in Hv. }
    rewrite unmarshal_marshal by done. cbn [or_err mbind result_bind]. rewrite Hv. cbn [mbind result_bind]. by rewrite bool_decide_eq_true_2.
Qed.

(** C27. Chunk metadata has one text.  A document is accepted for a CID and an
    authenticated chunk count if and only if it hashes to the CID, the CID is a
    raw one, and the document is the encoding of metadata of the declared widths
    that agrees with the count. *)
Theorem chunk_metadata_round_trips key data count m :
  ParseChunkMetadata key data count = Ok m <->
  VerifyPayloadCID key data = Ok () /\ cid_Type <$> key = Some Raw /\ encode m count = Ok data /\ widths m.
Proof. apply chunk_metadata_document. Qed.

(** Metadata bound in an identity CID reads back from the CID alone. *)
Lemma inline_round_trip {IL : InlineLib} {LW : InlineLaws IL} total chunk count key :
  (total < 2 ^ 64)%N -> (chunk < 2 ^ 64)%N -> InlineChunkMetadata total chunk count = Ok key ->
  ParseInlineChunkMetadata key count = Ok (mkChunkMetadata ChunkMetadataProfile chunk total None).
Proof.
  intros Ht Hc H. unfold InlineChunkMetadata in H. apply bind_Ok in H as (data & H1 & H). apply bind_Ok in H as (h & H2 & H). injection H as <-. apply or_err_Ok in H2.
  destruct (identity_holds data h H2) as (E1 & E2 & E3). unfold ParseInlineChunkMetadata. rewrite E1. cbn [or_err mbind result_bind]. apply chunk_metadata_document. split_and!; [|by cbn; rewrite E3|exact H1|done].
  cbn. by rewrite bool_decide_eq_true_2.
Qed.

Section Files.
Context {St Label : Type} (ctx : result unit) (putFile : list ascii -> bool -> Act St (option Cid)) (EncodeIndex : N -> Label) (build : Cid -> list (Label * Cid) -> Act St Cid).

Lemma put_checked_Ok isMetadata data s key s' : put_checked putFile isMetadata data s = (Ok key, s') -> CIDForBlock (mkCasBlock data Raw) = Ok key.
Proof. intros H. unfold put_checked in H. apply act_bind_Ok in H as (k & s1 & _ & H). apply pure_Ok in H as [H _]. destruct (CIDForBlock _); [|done]. by case_bool_decide; simplify_eq. Qed.

(** A chunked file is determined by its bytes.  Whatever the block store
    answers, the root that is built for a file binds, position by position, the
    CIDs of its chunks and, as its payload, the CID of the metadata document for
    its size, mode and chunk width. *)
Lemma chunked_file_is_exact data mode chunkSize s root s' :
  WriteChunkedFile ctx putFile EncodeIndex build data mode chunkSize s = (Ok root, s') ->
  exists keys payload s1, Forall2 (fun chunk key => CIDForBlock (mkCasBlock chunk Raw) = Ok key) (chunks (Z.to_nat chunkSize) data) keys /\
    CIDForBlock (mkCasBlock (marshal_metadata (mkChunkMetadata ChunkMetadataProfile (Z.to_N chunkSize) (N.of_nat (length data)) (Some mode))) Raw) = Ok payload /\
    build payload (imap (fun i key => (EncodeIndex (N.of_nat i), key)) keys) s1 = (Ok root, s').
Proof.
  intros H. unfold WriteChunkedFile in H. apply act_bind_Ok in H as ([] & s0 & _ & H). apply act_bind_Ok in H as ([] & s1 & _ & H). apply act_bind_Ok in H as (keys & s2 & H1 & H).
  apply act_bind_Ok in H as (doc & s3 & H2 & H). apply pure_Ok in H2 as [H2 ->]. apply act_bind_Ok in H as (payload & s4 & H3 & H). exists keys, payload, s4. split_and!; [| |done].
  - eapply each_Forall2; [|exact H1]. intros a s5 b s6 _. apply put_checked_Ok.
  - unfold EncodeFileMetadata, encode in H2. apply bind_Ok in H2 as ([] & _ & H2). injection H2 as <-. by eapply put_checked_Ok.
Qed.
End Files.
End Documents.

(** *** A concrete payload *)
Module Payloads.
Definition log_put (data : list ascii) : Act (list (list ascii)) (option nat) := fun s => (Ok (Some (length data)), s ++ [data]).
Definition log_create (cids : list (option nat)) (payload : option nat) : Act (list (list ascii)) nat := fun s => (Ok (length cids), s).
(** A reader of pieces: each call answers from the first, the end comes with the
    last one. *)
Definition pieces_Read (n : nat) (ps : list (list ascii)) : list ascii * option error * list (list ascii) :=
  match ps with
  | [] => ([], Some EOF, [])
  | l :: ps =>
      if bool_decide (length l <= n) then (l, if bool_decide (ps = []) then Some EOF else None, ps)
      else (take n l, None, drop n l :: ps)
  end.
Definition weight (ps : list (list ascii)) : nat := sum_list_with (fun l => S (length l)) ps.

Lemma pieces_deliver k ps : weight ps < k -> delivers pieces_Read k ps (concat ps).
Proof.
  revert ps. induction k as [|k IH]; intros ps Hw; [lia|]. intros n Hn. destruct ps as [|l ps].
  { exists [], (Some EOF), [], []. split_and!; [done|cbn; lia|done|]. right. split_and!; [done|done|]. intros m Hm. by exists []. }
  unfold weight in Hw. cbn in Hw. cbn [pieces_Read concat]. case_bool_decide as Hl.
  - exists l, (if bool_decide (ps = []) then Some EOF else None), ps, (concat ps). split_and!; [done|done|done|]. case_bool_decide as Hp.
    + right. subst ps. split_and!; [done|done|]. intros m Hm. by exists [].
    + left. split; [done|]. apply IH. unfold weight. lia.
  - exists (take n l), None, (drop n l :: ps), (drop n l ++ concat ps). split_and!; [done|rewrite length_take; lia|by rewrite (assoc_L (++)), take_drop|].
    left. split; [done|]. apply (IH (drop n l :: ps)). unfold weight. cbn. rewrite length_drop. lia.
Qed.

Definition pieces_abc : list (list ascii) := [bytes "a"; []; bytes "bcde"].
Definition stored_abc : list (list ascii) := [bytes "ab"; bytes "cd"; bytes "e"; chunk_document 5 2].

Lemma measured_payload_is_exact_witness :
  MaterializeMeasuredPayload (L := TallyCid.lib) pieces_Read log_put None log_create 20 pieces_abc 5 2 [] = (Ok 3, stored_abc) /\
  drawn pieces_Read pieces_abc (bytes "abcde").
Proof.
  destruct (measured_payload_is_exact (L := TallyCid.lib) pieces_Read log_put None log_create pieces_abc 5 2 [] 3 stored_abc) as [H1 H2]; [done|].
  assert (delivers pieces_Read 10 pieces_abc (bytes "abcde")) as Hd by (apply (pieces_deliver 10 pieces_abc); vm_compute; lia).
  assert (MaterializeMeasuredPayload (L := TallyCid.lib) pieces_Read log_put None log_create 20 pieces_abc 5 2 [] = (Ok 3, stored_abc)) as Hm.
  { apply (H2 10 (bytes "abcde") 20 Hd); [lia|]. split; [reflexivity|]. split; [discriminate|]. eexists _, _, _, _, _. split_and!; reflexivity. }
  split; [exact Hm|]. destruct (H1 20 Hm) as (data & Hdr & _). by rewrite (drawn_delivers _ _ _ _ _ Hd Hdr) in Hdr.
Defined.

(** Identifiers that are the bytes themselves. *)
#[local] Instance bytes_cid : CidLib := {| Cid := list ascii; cid_Parse s := Some (bytes s); cid_String c := of_bytes c; cid_Sum _ data := Some data |}.
#[local] Instance bytes_blocks : BlockLib := {| mh_Sum data := Some data; NewCidV1 _ h := h; cid_Type _ := Raw; cid_Digest c := c |}.
#[local] Instance bytes_inline : InlineLib := {| mh_Identity data := Some data; cid_Identity c := Some c; root_Layout _ := None |}.
#[local] Instance bytes_inline_laws : InlineLaws bytes_inline.
Proof. split. by intros data h [= <-]. Qed.

Example inline_example : exists key, InlineChunkMetadata 5 2 3 = Ok key /\ ParseInlineChunkMetadata key 3 = Ok (mkChunkMetadata ChunkMetadataProfile 2 5 None).
Proof. eexists. split; [reflexivity|]. by apply inline_round_trip. Qed.
End Payloads.
