(* ===== verification/Roots.v ===== *)
(** Root use cases (application/roots.go): selection, candidate recording and
    fenced completion over the trust store. *)

From stdpp Require Import base decidable gmap strings list.
From Stdlib Require Import ZArith.
From S2P Require Import Prelude GoText CidLib Durable Trust TrustFacts TrustThms.

Section Roots.
Context {L : CidLib}.

Record RootSelection := mkSelection { sel_Root : Cid; sel_Alias : string }.

(** [Roots]: the policy is the trust store on [f], or nil for an explicit
    selector. *)
Definition LookupAlias (w : io) (policy : option trust_file) (alias : string) : result RootSelection :=
  f ← or_err policy (Errorf "trusted-root application is nil");
  let alias := TrimSpace alias in
  _ ← fail_if (bool_decide (alias = EmptyString)) (Errorf "trusted-root alias is empty");
  r ← wrap_err "lookup trusted-root alias" (Trust.AcceptedRoot (Some (fun a => (GetState w a f).1)) alias);
  Ok (mkSelection r.1 (Alias r.2)).

(** An explicit CID, or an accepted alias. *)
Definition Select (w : io) (policy : option trust_file) (raw : string) : result RootSelection :=
  let raw := TrimSpace raw in
  match cid_Parse raw with
  | Some root => Ok (mkSelection root EmptyString)
  | None =>
      _ ← or_err policy (Errorf "not an explicit CID");
      wrap_err "neither a CID nor a trusted-root alias" (LookupAlias w policy raw)
  end.

Definition roots_AcceptedRoot (w : io) (f : trust_file) (alias : string) : result Cid :=
  sel_Root <$> LookupAlias w (Some f) alias.

(** [CompleteIfAccepted]: [Ok false] means that the root had changed. *)
Definition CompleteIfAccepted {X} (w : io) (alias : string) (expected : option Cid) (operation : X -> result unit * X)
    (f : trust_file) (x : X) : result bool * X :=
  match expected with
  | None => (Err (Errorf "expected accepted root is undefined"), x)
  | Some c =>
      let '(r, x') := WithAcceptedRoot w alias (cid_String c) (Some operation) f x in
      (match r with
       | Ok _ => Ok true
       | Err e => if errors_Is e ErrAcceptedRootChanged then Ok false else Err e
       end, x')
  end.

Definition cid_or_empty (c : option Cid) : string := match c with Some c => cid_String c | None => EmptyString end.

Definition RecordCandidate (w : io) (now : time) (alias : string) (candidateRoot baseRoot : option Cid) (source : string)
    (f : trust_file) : result RootState * trust_file :=
  if bool_decide (TrimSpace alias = EmptyString) then (Err (Errorf "candidate alias is empty"), f) else
  match candidateRoot with
  | None => (Err (Errorf "candidate root must be defined"), f)
  | Some c => AddCandidate w now alias (cid_String c) (cid_or_empty baseRoot) source f
  end.

Definition ObserveCandidate (w : io) (now : time) (alias : string) (candidateRoot baseRoot : option Cid) (source : string)
    (f : trust_file) : result unit * trust_file :=
  let '(r, f') := RecordCandidate w now alias candidateRoot baseRoot source f in (_ ← r; Ok (), f').

Definition HasCandidate (w : io) (alias : string) (candidateRoot baseRoot : option Cid) (f : trust_file) : result bool :=
  match candidateRoot with
  | None => Err (Errorf "candidate inspection request is incomplete")
  | Some c =>
      state ← (GetState w alias f).1;
      Ok (existsb (fun candidate => bool_decide (cand_Root candidate = cid_String c) &&
                                    bool_decide (cand_BaseRoot candidate = cid_or_empty baseRoot)) (Candidates state))
  end.

Definition roots_ObserveHead (w : io) (now : time) (alias source datasetID branch commitID : string) (root : option Cid)
    (revision : N) (f : trust_file) : result unit * trust_file :=
  let '(r, f') := ObserveHead w now alias
                    (mkObserved source datasetID branch commitID (cid_or_empty root) revision 0) f in (_ ← r; Ok (), f').

Definition roots_AcceptCandidate (w : io) (now : time) (alias : string) (candidate : option Cid) (source : string)
    (f : trust_file) : result RootState * trust_file :=
  match candidate with
  | None => (Err (Errorf "candidate root is undefined"), f)
  | Some c => AcceptCandidate w now alias (cid_String c) source f
  end.

Definition roots_AcceptObserved (w : io) (now : time) (alias : string) (observed : option Cid)
    (profile gateway source : string) (f : trust_file) : result RootState * trust_file :=
  match observed with
  | None => (Err (Errorf "observed root is undefined"), f)
  | Some c => AcceptObserved w now alias (cid_String c) profile gateway source f
  end.
End Roots.
