(* ===== verification/Writeback.v ===== *)
(** Verified write-back (application/writeback/service.go, authentication.go):
    one replay takes the staged operations of a view, has a planner compute the
    candidate, persists it through a write plan, records the candidate with the
    trust store and completes the batch under the accepted-root fence.

    The state is the trust file, the staging state and the remote with the log
    of what it was asked and answered.  Other processes share the trust file:
    the environment says which calls they make before each of ours; the fence
    excludes them while a completion runs. *)

From stdpp Require Import base decidable gmap strings list.
From Stdlib Require Import Ascii ZArith.
From S2P Require Import Prelude GoText CidLib Durable Trust TrustThms Journal Cache Paths Staging Interact WritePlan Roots.

Definition ResultProfile : string := "malt.filesystem-verified-writeback/v1".
Definition ErrStaleAcceptedView := ErrorsNew "filesystem write-back selected accepted root is stale".

(** The first twelve bytes of the SHA-256 digest, in hexadecimal. *)
Class WritebackLib := { conflict_digest : list ascii -> string }.

Section Writeback.
Context {L : CidLib} {C : CacheLib} {B : Base} {SL : StageLib} {CA : CandidateLib} {BL : BatchLib} {WL : WritebackLib}.
(** The state of the remote. *)
Context {R : Type}.

Record wb_env := mkWbEnv {
  we_staging : env; we_service : service;
  we_alias : string; we_source : string;
  we_trust_io : nat -> io; we_now : nat -> time;
  (** What other processes did to the trust file before our [t]-th call. *)
  we_others : nat -> list TrustThms.event;
  (** The branch of the [select] on the gate: [Some e] when the context won. *)
  we_select : option error;
  (** The planner, and the answers of the remote. *)
  we_prepare : Cid -> list Operation -> R -> result Plan * R;
  we_answer : forall c : remote_call, R -> remote_answer c * R;
  we_batching : bool;
  (** The order in which the runtime visits a map. *)
  we_order : list UploadPayload -> list UploadPayload
}.

Record wb_world := mkWb {
  wb_trust : trust_file; wb_staging : world; wb_remote : R; wb_log : list event; wb_tick : nat
}.

Record Result := mkResult {
  re_Profile : string; re_TransactionID : string; re_BaseRoot : option Cid; re_CandidateRoot : option Cid; re_Completed : list Operation;
  re_Receipt : option Receipt; re_NoAuthenticatedChange : bool; re_RemotePersisted : bool; re_CandidateStored : bool;
  re_RootAccepted : bool
}.
Definition zeroResult : Result := mkResult EmptyString EmptyString None None [] None false false false false.

Context (E : wb_env).

(** ** Calls *)
Definition W (A : Type) : Type := wb_world -> result A * wb_world.

Definition others (w : wb_world) : trust_file := foldl TrustThms.apply (wb_trust w) (we_others E (wb_tick w)).

Definition trust_read {A} (op : io -> trust_file -> result A) : W A := fun w =>
  let f := others w in
  (op (we_trust_io E (wb_tick w)) f, mkWb f (wb_staging w) (wb_remote w) (wb_log w) (S (wb_tick w))).
Definition trust_write {A} (op : io -> time -> trust_file -> result A * trust_file) : W A := fun w =>
  let t := wb_tick w in
  let '(r, f) := op (we_trust_io E t) (we_now E t) (others w) in
  (r, mkWb f (wb_staging w) (wb_remote w) (wb_log w) (S t)).
Definition queue {A} (m : M A) : W A := fun w =>
  let '(r, st) := m (wb_staging w) in (r, mkWb (wb_trust w) st (wb_remote w) (wb_log w) (wb_tick w)).
Definition planner (base : Cid) (ops : list Operation) : W Plan := fun w =>
  let '(r, rem) := we_prepare E base ops (wb_remote w) in
  (r, mkWb (wb_trust w) (wb_staging w) rem (wb_log w) (wb_tick w)).
Definition remotely {A} (p : P A) : W A := fun w =>
  let '(r, rem, tr) := run (we_answer E) p (wb_remote w) in
  (r, mkWb (wb_trust w) (wb_staging w) rem (wb_log w ++ tr) (wb_tick w)).

Definition accepted_now : W Cid := trust_read (fun io f => roots_AcceptedRoot io f (we_alias E)).

(** [CompleteIfAccepted] around a queue operation whose result the closure
    stores in a variable. *)
Definition fence (expected : option Cid) (m : M (list Operation)) (w : wb_world)
    : result bool * list Operation * wb_world :=
  let f := others w in
  let '(r, (st, completed)) :=
    CompleteIfAccepted (we_trust_io E (wb_tick w)) (we_alias E) expected
      (fun x : world * list Operation =>
         let '(r, st) := m x.1 in
         match r with Ok ops => (Ok (), (st, ops)) | Err e => (Err e, (st, [])) end)
      f (wb_staging w, []) in
  (r, completed, mkWb f st (wb_remote w) (wb_log w) (S (wb_tick w))).

(** A method returns a result and an error. *)
Definition outcome : Type := Result * option error.
Definition fails (res : Result) (e : error) : wb_world -> outcome * wb_world := fun w => ((res, Some e), w).
Definition attempt {A} (res : Result) (m : W A) (k : A -> wb_world -> outcome * wb_world) (w : wb_world)
    : outcome * wb_world :=
  match m w with (Ok a, w') => k a w' | (Err e, w') => ((res, Some e), w') end.

(** ** Replay *)
Definition check_payload (p : UploadPayload) : result unit :=
  match up_CID p with
  | None => Err (Errorf "staged payload CID is undefined")
  | Some c =>
      computed ← or_err (cid_Sum c (up_Body p)) (Errorf "compute staged payload CID");
      fail_if (negb (bool_decide (computed = c))) (Errorf "staged payload bytes do not match CID")
  end.
Definition validateAvailablePayloads (payloads : list UploadPayload) : result unit :=
  _ ← mapM check_payload payloads; Ok ().

Definition acceptedRootConflictID (base : option Cid) (current candidate : Cid) : string :=
  "accepted-root-advanced-" +:+
  conflict_digest (bytes (cid_text base +:+ byte_str [0] +:+ cid_String current +:+ byte_str [0] +:+ cid_String candidate)).

Definition stale_view : error := Wrapf "accepted root advanced" ErrStaleAcceptedView.

(** The accepted root advanced: keep the batch as a conflict. *)
Definition preserve_conflict (res : Result) (view : View) (batch : UploadBatch) (current root : Cid) (text : string)
    (w : wb_world) : outcome * wb_world :=
  match queue (MarkUploadConflicted (we_staging E) (we_service E) batch (acceptedRootConflictID (v_Root view) current root)) w with
  | (Ok _, w') => ((res, Some stale_view), w')
  | (Err e, w') => ((res, Some (ErrorsJoin stale_view (Wrapf text e))), w')
  end.

Definition set_stored (r : Result) : Result :=
  mkResult (re_Profile r) (re_TransactionID r) (re_BaseRoot r) (re_CandidateRoot r) (re_Completed r) (re_Receipt r)
    (re_NoAuthenticatedChange r) (re_RemotePersisted r) true (re_RootAccepted r).
Definition set_completed (r : Result) (ops : list Operation) : Result :=
  mkResult (re_Profile r) (re_TransactionID r) (re_BaseRoot r) (re_CandidateRoot r) ops (re_Receipt r)
    (re_NoAuthenticatedChange r) (re_RemotePersisted r) (re_CandidateStored r) (re_RootAccepted r).
Definition set_noChange (r : Result) : Result :=
  mkResult (re_Profile r) (re_TransactionID r) (re_BaseRoot r) (re_CandidateRoot r) (re_Completed r) (re_Receipt r)
    true (re_RemotePersisted r) (re_CandidateStored r) (re_RootAccepted r).
Definition set_persisted (r : Result) (root : Cid) (receipt : Receipt) : Result :=
  mkResult (re_Profile r) (re_TransactionID r) (re_BaseRoot r) (Some root) (re_Completed r) (Some receipt)
    (re_NoAuthenticatedChange r) true (re_CandidateStored r) (re_RootAccepted r).

Definition completeCandidate (view : View) (batch : UploadBatch) (root : Cid) (res : Result) (w : wb_world)
    : outcome * wb_world :=
  match trust_write (fun io now f => ObserveCandidate io now (we_alias E) (Some root) (v_Root view) (we_source E) f) w with
  | (Err err, w1) =>
      match accepted_now w1 with
      | (Ok current, w2) =>
          if negb (bool_decide (Some current = v_Root view))
          then preserve_conflict res view batch current root "preserve write-back conflict" w2
          else ((res, Some (Wrapf "record verified filesystem candidate" err)), w2)
      | (Err _, w2) => ((res, Some (Wrapf "record verified filesystem candidate" err)), w2)
      end
  | (Ok _, w1) =>
      let res := set_stored res in
      match fence (v_Root view) (CompleteUpload (we_staging E) (we_service E) batch (Some root)) w1 with
      | (Err e, _, w2) => ((res, Some (Wrapf "complete verified write-back under accepted-root fence" e)), w2)
      | (Ok false, _, w2) =>
          match accepted_now w2 with
          | (Err e, w3) => ((res, Some (Wrapf "read advanced accepted root" e)), w3)
          | (Ok current, w3) => preserve_conflict res view batch current root "preserve verified write-back conflict" w3
          end
      | (Ok true, completed, w2) => ((set_completed res completed, None), w2)
      end
  end.

(** The CIDs of the staged writes; each must be raw. *)
Fixpoint staged_keys (ops : list Operation) : result (list Cid) :=
  match ops with
  | [] => Ok []
  | op :: rest =>
      if bool_decide (IntentKind (op_Intent op) = KindWrite) then
        match cid_Parse (PayloadCID (op_Intent op)) with
        | Some c => if bool_decide (cid_Codec c = codec_Raw) then keys ← staged_keys rest; Ok (c :: keys)
                    else Err (Errorf "staged write requires a raw payload CID")
        | None => Err (Errorf "staged write requires a raw payload CID")
        end
      else staged_keys rest
  end.

Definition find_payload (payloads : list UploadPayload) (key : option Cid) : option UploadPayload :=
  List.find (fun p => bool_decide (up_CID p = key)) (rev payloads).

(** The frozen bodies that the plan consumes, as a map by CID. *)
Definition select_step (keys : list Cid) (payloads selected : list UploadPayload) (key : option Cid)
    : result (list UploadPayload) :=
  if bool_decide (key ∈ Some <$> keys) then
    p ← or_err (find_payload payloads key) (Errorf "typed plan requires unavailable payload");
    Ok (put_payload p selected)
  else Ok selected.
Definition select_payloads (keys : list Cid) (payloads : list UploadPayload) (required : list (option Cid))
    : result (list UploadPayload) := foldM (select_step keys payloads) [] required.

Definition payload_block (p : UploadPayload) : Block := Bytes (up_CID p) (up_Body p).

(** The plan that is sent. *)
Definition submitted (plan : Plan) (batch : UploadBatch) (selected : list UploadPayload) : Plan :=
  mkPlan (pl_Base plan) (pl_Root plan) (ub_TransactionID batch) (pl_Candidates plan)
    (pl_Blocks plan ++ (payload_block <$> we_order E selected)) (pl_Required plan).

Definition replayAuthentication (view : View) (batch : UploadBatch) (base : Cid) (res : Result)
    : wb_world -> outcome * wb_world :=
  attempt res (planner base (ub_Operations batch)) (fun plan =>
  match pl_Root plan with
  | None => fails res (Errorf "typed planner returned no Root")
  | Some root =>
      if negb (bool_decide (pl_Base plan = v_Root view)) then fails res (Errorf "typed plan substituted base Root") else
      if bool_decide (Some root = v_Root view) then fun w =>
        match fence (v_Root view) (CompleteNoChange (we_staging E) (we_service E) batch) w with
        | (Err e, completed, w1) => ((set_completed res completed, Some e), w1)
        | (Ok false, completed, w1) =>
            let res := set_completed res completed in
            match accepted_now w1 with
            | (Err e, w2) => ((res, Some e), w2)
            | (Ok current, w2) =>
                match queue (MarkUploadConflicted (we_staging E) (we_service E) batch
                               (acceptedRootConflictID (v_Root view) current root)) w2 with
                | (Ok _, w3) => ((res, Some ErrStaleAcceptedView), w3)
                | (Err e, w3) => ((res, Some e), w3)
                end
            end
        | (Ok true, completed, w1) => ((set_noChange (set_completed res completed), None), w1)
        end
      else
      attempt res (fun w => (keys ← staged_keys (ub_Operations batch); select_payloads keys (ub_Payloads batch) (pl_Required plan), w))
        (fun selected =>
      attempt res (remotely (PersistBatch (submitted plan batch selected) (Some (we_batching E)) true)) (fun receipt =>
      completeCandidate view batch root (set_persisted res root receipt)))
  end).

Definition Replay (view : View) : wb_world -> outcome * wb_world :=
  match we_select E with
  | Some e => fails zeroResult e
  | None =>
      attempt zeroResult (fun w => let '(r, w') := accepted_now w in (wrap_err "select local accepted root" r, w')) (fun accepted =>
      if negb (bool_decide (Some accepted = v_Root view)) then fails zeroResult (Wrapf "selected" ErrStaleAcceptedView) else
      attempt zeroResult (queue (PrepareUpload (we_staging E) (we_service E) view)) (fun batch =>
      let res := mkResult ResultProfile (ub_TransactionID batch) (v_Root view) None [] None false false false false in
      attempt res (fun w => (validateAvailablePayloads (ub_Payloads batch), w)) (fun _ =>
      replayAuthentication view batch accepted res)))
  end.
End Writeback.
