(* ===== verification/WritebackThms.v ===== *)
(** What a write-back replay does: it never accepts a root, completes staged
    work only against a valid receipt and under the accepted-root fence, and on
    success everything it reports is durable. *)

From stdpp Require Import base decidable gmap strings list sorting.
From Stdlib Require Import Ascii ZArith.
From S2P Require Import Prelude GoText Branch CidLib Durable Trust TrustFacts TrustThms Journal JournalFacts JournalOps JournalThms Cache CacheFacts CacheHistory CacheThms Paths Staging Overlay StagingFacts StagingWrites StagingHistory StagingBatches Interact WritePlan WritePlanFacts WritePlanThms Roots Writeback.

Section Trust.
Context {L : CidLib} {LL : CidLaws L} {C : CacheLib} {B : Base} {SL : StageLib} {CA : CandidateLib} {BL : BatchLib} {WL : WritebackLib}.
Context {R : Type} (E : wb_env (R := R)).
#[local] Notation place := (wb_world (R := R)).

(** ** The trust file *)

(** What may happen to the trust file: calls of other processes, and our own
    candidate recording. *)
Definition allowed (e : TrustThms.event) : Prop :=
  (exists t, e ∈ we_others E t) \/
  exists t root base, e = TrustThms.Event (we_trust_io E t) (we_now E t) (TrustThms.CallAddCandidate (we_alias E) root base (we_source E)).

Definition grows (w w' : place) : Prop :=
  exists h, wb_trust w' = foldl TrustThms.apply (wb_trust w) h /\ Forall allowed h.

#[global] Instance grows_refl : Reflexive grows.
Proof. intros w. by exists []. Qed.
#[global] Instance grows_trans : Transitive grows.
Proof.
  intros w1 w2 w3 (h1 & E1 & H1) (h2 & E2 & H2). exists (h1 ++ h2). rewrite foldl_app, <- E1. split; [done|]. by apply Forall_app.
Qed.

Lemma grows_same (w w' : place) : wb_trust w' = wb_trust w -> grows w w'.
Proof. intros H. by exists []. Qed.

Lemma grows_others (w : place) f' w' : f' = others E w -> wb_trust w' = f' -> grows w w'.
Proof.
  intros -> H. exists (we_others E (wb_tick w)). split; [done|]. apply Forall_forall. intros e He. left. eauto.
Qed.

Lemma read_grows {A} (op : io -> trust_file -> result A) (w : place) : grows w (trust_read E op w).2.
Proof. by eapply grows_others. Qed.

Lemma queue_grows {A} (m : M A) (w : place) : grows w (queue m w).2.
Proof. apply grows_same. unfold queue. by destruct (m _). Qed.

Lemma fence_grows expected m w : grows w (fence E expected m w).2.
Proof. eapply grows_others; [done|]. unfold fence. by destruct (CompleteIfAccepted _ _ _ _ _ _) as [r [st ops]]. Qed.

Lemma observe_grows root view w :
  grows w (trust_write E (fun io now f => ObserveCandidate io now (we_alias E) root (v_Root view) (we_source E) f) w).2.
Proof.
  unfold trust_write, ObserveCandidate, RecordCandidate.
  assert (grows w (mkWb (others E w) (wb_staging w) (wb_remote w) (wb_log w) (S (wb_tick w)))) as Ho by by eapply grows_others.
  case_bool_decide; [done|]. destruct root as [c|]; [|done]. etransitivity; [exact Ho|].
  set (e := TrustThms.Event (we_trust_io E (wb_tick w)) (we_now E (wb_tick w))
              (TrustThms.CallAddCandidate (we_alias E) (cid_String c) (cid_or_empty (v_Root view)) (we_source E))).
  exists [e]. split; [cbn; by destruct (AddCandidate _ _ _ _ _ _ _)|].
  constructor; [|done]. right. by eexists _, _, _.
Qed.

Definition growing (k : place -> outcome * place) : Prop := forall w, grows w (k w).2.

Lemma growing_fails res e : growing (fails res e).
Proof. intros w. reflexivity. Qed.
Lemma growing_attempt {A} res (m : W (R := R) A) k :
  (forall w : place, grows w (m w).2) -> (forall a, growing (k a)) -> growing (attempt res m k).
Proof.
  intros Hm Hk w. unfold attempt. specialize (Hm w). destruct (m w) as [[a|e] w']; [|done].
  etransitivity; [exact Hm|apply Hk].
Qed.

Lemma preserve_grows res view batch current root text : growing (preserve_conflict E res view batch current root text).
Proof.
  intros w. unfold preserve_conflict.
  pose proof (queue_grows (MarkUploadConflicted (we_staging E) (we_service E) batch (acceptedRootConflictID (v_Root view) current root)) w) as H.
  by destruct (queue _ w) as [[|] w'].
Qed.

Lemma completeCandidate_grows view batch root res : growing (completeCandidate E view batch root res).
Proof.
  intros w. unfold completeCandidate. pose proof (observe_grows (Some root) view w) as H.
  destruct (trust_write E _ w) as [[[]|err] w1]; cbn in H; (etransitivity; [exact H|]); clear H.
  - pose proof (fence_grows (v_Root view) (CompleteUpload (we_staging E) (we_service E) batch (Some root)) w1) as H.
    destruct (fence E _ _ w1) as [[[[]|e] completed] w2]; cbn in H; (etransitivity; [exact H|]); try reflexivity. clear H.
    pose proof (read_grows (fun io f => roots_AcceptedRoot io f (we_alias E)) w2) as H. unfold accepted_now.
    destruct (trust_read E _ w2) as [[current|e] w3]; cbn in H; (etransitivity; [exact H|]); [apply preserve_grows|reflexivity].
  - pose proof (read_grows (fun io f => roots_AcceptedRoot io f (we_alias E)) w1) as H. unfold accepted_now.
    destruct (trust_read E _ w1) as [[current|e] w2]; cbn in H; (etransitivity; [exact H|]); [|reflexivity].
    destruct (negb _); [apply preserve_grows|reflexivity].
Qed.

Lemma replayAuthentication_grows view batch base res : growing (replayAuthentication E view batch base res).
Proof.
  apply growing_attempt; [intros w; apply grows_same; unfold planner; by destruct (we_prepare _ _ _ _)|]. intros plan.
  destruct (pl_Root plan) as [root|]; [|apply growing_fails]. destruct (negb _); [apply growing_fails|].
  destruct (bool_decide _).
  - intros w. pose proof (fence_grows (v_Root view) (CompleteNoChange (we_staging E) (we_service E) batch) w) as H.
    destruct (fence E _ _ w) as [[[[]|e] completed] w1]; cbn in H; try done. etransitivity; [exact H|]. clear H.
    pose proof (read_grows (fun io f => roots_AcceptedRoot io f (we_alias E)) w1) as H. unfold accepted_now.
    destruct (trust_read E _ w1) as [[current|e] w2]; cbn in H; [|done]. etransitivity; [exact H|].
    pose proof (queue_grows (MarkUploadConflicted (we_staging E) (we_service E) batch (acceptedRootConflictID (v_Root view) current root)) w2) as Hq.
    by destruct (queue _ w2) as [[|] w3].
  - apply growing_attempt; [reflexivity|]. intros selected. apply growing_attempt.
    + intros w. apply grows_same. unfold remotely. by destruct (run _ _ _) as [[? ?] ?].
    + intros receipt. apply completeCandidate_grows.
Qed.

Lemma Replay_grows view : growing (Replay E view).
Proof.
  unfold Replay. destruct (we_select E); [apply growing_fails|]. apply growing_attempt.
  - intros w. unfold accepted_now. pose proof (read_grows (fun io f => roots_AcceptedRoot io f (we_alias E)) w) as H.
    by destruct (trust_read E _ w).
  - intros accepted. destruct (negb _); [apply growing_fails|]. apply growing_attempt; [apply queue_grows|]. intros batch.
    apply growing_attempt; [reflexivity|]. intros _. apply replayAuthentication_grows.
Qed.

(** A replay never accepts a root, whatever the remote and the planner answer
    and whichever system call fails: if an alias has a new accepted root when it
    returns, another process promoted that root explicitly meanwhile. *)
Theorem writeback_never_accepts view w out w' s s' alias root :
  Replay E view w = (out, w') ->
  (forall t, we_now E t <> 0%Z) -> (forall t, Forall (fun e => TrustThms.ev_now e <> 0%Z) (we_others E t)) ->
  Durable.view (wb_trust w) = Some s -> Durable.view (wb_trust w') = Some s' ->
  accepted_root s' alias = Some root -> accepted_root s alias <> Some root ->
  exists t e, e ∈ we_others E t /\ promotes (TrustThms.ev_call e) alias root.
Proof.
  intros H Hnow Hoth Hv Hv' Ha Hne. destruct (Replay_grows view w) as (h & Eh & Hh). rewrite H in Eh. cbn in Eh.
  destruct (trust_history_run h _ _ Hv) as (s1 & Hv1 & Hp & _).
  { rewrite Forall_forall in *. intros e He. destruct (Hh e He) as [(t & Ht)|(t & r & b & ->)]; [|apply Hnow].
    specialize (Hoth t). rewrite Forall_forall in Hoth. by apply Hoth. }
  rewrite <- Eh in Hv1. assert (s1 = s') as -> by congruence. destruct (Hp _ _ Ha) as [|(e & He & Hpr)]; [done|].
  rewrite Forall_forall in Hh. destruct (Hh e He) as [(t & Ht)|(t & r & b & ->)]; [eauto|done].
Qed.
End Trust.

(** ** Completion *)
Section Completion.
Context {L : CidLib} {LL : CidLaws L} {C : CacheLib} {CL : CacheLaws C} {B : Base} {SL : StageLib}.
Context {CA : CandidateLib} {BL : BatchLib} {BW : BatchLaws} {WL : WritebackLib}.
Context {R : Type} (E : wb_env (R := R)).
#[local] Notation place := (wb_world (R := R)).

(** No operation became completed. *)
Definition quiet (w w' : world) : Prop :=
  (Durable.view (w_journal w) = None -> w_journal w' = w_journal w) /\
  forall js js', Durable.view (w_journal w) = Some js -> Durable.view (w_journal w') = Some js' ->
    restatus_by completes_nothing js js'.

#[local] Instance quiet_refl : Reflexive quiet.
Proof. intros w. split; [done|]. intros js js' Hv Hv'. assert (js' = js) as -> by congruence. reflexivity. Qed.
#[local] Instance quiet_trans : Transitive quiet.
Proof.
  intros w1 w2 w3 [N1 H1] [N2 H2]. split.
  - intros Hn. rewrite N2; [by apply N1|]. by rewrite N1.
  - intros js1 js3 Hv1 Hv3. destruct (Durable.view (w_journal w2)) as [js2|] eqn:Hv2.
    + etransitivity; [by apply H1|by apply H2].
    + rewrite N2 in Hv3 by done. congruence.
Qed.

Lemma quiet_run {X} (m : M X) w : stuck m -> relates (restatus_by completes_nothing) m -> quiet w (m w).2.
Proof. intros Hs Hr. split; [apply Hs|]. intros js js'. apply Hr. Qed.

Lemma prepare_quiet s view w : quiet w (PrepareUpload (we_staging E) s view w).2.
Proof. apply quiet_run; [apply PrepareUpload_stuck|]. by apply PrepareUpload_relates; [apply _|intros ? ? ?]. Qed.
Lemma conflict_quiet s batch c w : quiet w (MarkUploadConflicted (we_staging E) s batch c w).2.
Proof. apply quiet_run; [apply MarkUploadConflicted_stuck|]. by apply MarkUploadConflicted_relates; [apply _|intros ? ? ? ?]. Qed.

Lemma queue_quiet {A} (m : M A) (w : place) : quiet (wb_staging w) (m (wb_staging w)).2 -> quiet (wb_staging w) (wb_staging (queue m w).2).
Proof. unfold queue. by destruct (m _). Qed.

(** ** The fence *)

(** The view's root is the accepted root of the alias in this trust file. *)
Definition accepted_in (f : trust_file) (view : View) : Prop :=
  exists s, Durable.view f = Some s /\ accepted_root s (normalizeAlias (we_alias E)) = Some (root_text view).

Lemma fence_cases view m (w : place) r completed w' :
  fence E (v_Root view) m w = (r, completed, w') ->
  wb_trust w' = others E w /\ wb_remote w' = wb_remote w /\ wb_log w' = wb_log w /\
  (wb_staging w' = wb_staging w /\ completed = [] /\ r <> Ok true \/
   wb_staging w' = (m (wb_staging w)).2 /\ v_Root view <> None /\
   accepted_in (others E w) view /\
   (r = Ok true -> (m (wb_staging w)).1 = Ok completed)).
Proof.
  unfold fence, CompleteIfAccepted. destruct (v_Root view) as [c|] eqn:Ec; [|intros [= <- <- <-]; split_and!; try done; by left].
  destruct (WithAcceptedRoot _ _ _ _ _ _) as [r0 [st ops]] eqn:Ew. intros [= <- <- <-]. cbn. split_and!; try done.
  apply WithAcceptedRoot_fenced in Ew as [[E1 E2]|(s & root & run & Hv & Hc & Ha & [= <-] & Hrun)].
  - simplify_eq. left. split_and!; try done. destruct r0 as [[]|e]; [done|]. by destruct (errors_Is _ _).
  - right. rewrite canonicalCID_id in Hc by by exists c. injection Hc as <-. cbn in Hrun.
    destruct (m (wb_staging w)) as [[ops'|e] st']; simplify_eq; cbn; split_and!; try done;
      try (exists s; split; [done|]; unfold root_text; by rewrite Ec).
    by destruct (errors_Is _ _).
Qed.

(** ** When an operation may become completed *)

(** The trust file at the second trust call of a replay that started in [w]:
    other processes ran before the first call and before this one. *)
Definition second_file (w : place) : trust_file :=
  foldl TrustThms.apply (others E w) (we_others E (S (wb_tick w))).
(** The recording of the candidate, our second trust call when there is one. *)
Definition recording (view : View) (root : Cid) (t : nat) : TrustThms.event :=
  TrustThms.Event (we_trust_io E t) (we_now E t) (TrustThms.CallAddCandidate (we_alias E) (cid_String root) (root_text view) (we_source E)).
(** The trust file at the third trust call of a replay that recorded [root]. *)
Definition third_file (view : View) (root : Cid) (w : place) : trust_file :=
  foldl TrustThms.apply (TrustThms.apply (second_file w) (recording view root (S (wb_tick w)))) (we_others E (S (S (wb_tick w)))).

(** What justifies that the replay completed operations of its batch: the answer
    that the planner gave to this call, and the trust file at the moment of the
    completion. *)
Definition justified (view : View) (res : Result) (w w' : place) : Prop :=
  exists batch base plan root,
    (PrepareUpload (we_staging E) (we_service E) view (wb_staging w)).1 = Ok batch /\ v_Root view = Some base /\
    (we_prepare E base (ub_Operations batch) (wb_remote w)).1 = Ok plan /\ pl_Base plan = Some base /\ pl_Root plan = Some root /\
    (root = base /\ accepted_in (second_file w) view \/
     root <> base /\ accepted_in (third_file view root w) view /\
     let b := mkAuthBatch (ub_TransactionID batch) (cid_String base) (cid_String root) (pl_Candidates plan) in
     exists tr e receipt, wb_log w' = wb_log w ++ tr ++ [e] /\ batch_materialized e = Some (b, Ok receipt) /\
       receipt_Validate receipt b = Ok () /\ re_TransactionID res = ub_TransactionID batch /\
       re_CandidateRoot res = Some root /\ re_Receipt res = Some receipt).

Definition careful (view : View) (w : place) (r : outcome * place) : Prop :=
  quiet (wb_staging w) (wb_staging r.2) \/ justified view r.1.1 w r.2.

Lemma read_staging {A} (op : io -> trust_file -> result A) (w : place) : wb_staging (trust_read E op w).2 = wb_staging w.
Proof. done. Qed.

Lemma preserve_quiet res view batch current root text w0 (w : place) :
  quiet w0 (wb_staging w) -> quiet w0 (wb_staging (preserve_conflict E res view batch current root text w).2).
Proof.
  intros H. etransitivity; [exact H|]. unfold preserve_conflict.
  pose proof (queue_quiet _ w (conflict_quiet (we_service E) batch (acceptedRootConflictID (v_Root view) current root) (wb_staging w))) as Hq.
  by destruct (queue _ w) as [[|] w'].
Qed.

(** Under the fence, a batch operation is the only step that completes. *)
Lemma fence_careful view m w0 (w : place) r completed w' :
  quiet w0 (wb_staging w) -> fence E (v_Root view) m w = (r, completed, w') ->
  wb_log w' = wb_log w /\ (quiet w0 (wb_staging w') /\ r <> Ok true \/ accepted_in (others E w) view).
Proof.
  intros Hq (_ & _ & Hl & [(Es & _ & Hr)|(_ & _ & Hf & _)])%fence_cases; (split; [done|]).
  - left. by rewrite Es.
  - by right.
Qed.

Lemma accepted_staging (w : place) r w' : accepted_now E w = (r, w') -> wb_staging w' = wb_staging w /\ wb_log w' = wb_log w.
Proof. by intros [= <- <-]. Qed.

Lemma preserve_log res view batch current root text (w : place) :
  wb_log (preserve_conflict E res view batch current root text w).2 = wb_log w /\
  (preserve_conflict E res view batch current root text w).1.1 = res.
Proof. unfold preserve_conflict, queue. by destruct (MarkUploadConflicted _ _ _ _ _) as [[|] w']. Qed.

(** The recording of a candidate is one trust event. *)
Lemma observe_trust view root base (w : place) r w' :
  v_Root view = Some base ->
  trust_write E (fun io now f => ObserveCandidate io now (we_alias E) (Some root) (v_Root view) (we_source E) f) w = (r, w') ->
  wb_staging w' = wb_staging w /\ wb_log w' = wb_log w /\ wb_tick w' = S (wb_tick w) /\
  (r = Ok () -> wb_trust w' = TrustThms.apply (others E w) (recording view root (wb_tick w))).
Proof.
  intros Hb. unfold trust_write, ObserveCandidate, RecordCandidate, recording, root_text. rewrite Hb. cbn.
  case_bool_decide; [by intros [= <- <-]|]. destruct (AddCandidate _ _ _ _ _ _ _) as [[v|] f']; by intros [= <- <-].
Qed.

(** What completing a candidate may do: nothing becomes completed, or the fence
    held right after the recording; the log and the receipt are untouched. *)
Lemma completeCandidate_careful view batch root base res w0 (w : place) r :
  v_Root view = Some base -> quiet w0 (wb_staging w) -> completeCandidate E view batch root res w = r ->
  quiet w0 (wb_staging r.2) \/
  accepted_in (foldl TrustThms.apply (TrustThms.apply (others E w) (recording view root (wb_tick w))) (we_others E (S (wb_tick w)))) view /\
  wb_log r.2 = wb_log w /\ re_TransactionID r.1.1 = re_TransactionID res /\ re_CandidateRoot r.1.1 = re_CandidateRoot res /\
  re_Receipt r.1.1 = re_Receipt res.
Proof.
  intros Hb Hq <-. unfold completeCandidate. destruct (trust_write E _ w) as [ro w1] eqn:Et.
  apply (observe_trust view root base) in Et as (Es & El & Ek & Ef); [|done]. rewrite <- El. destruct ro as [[]|err].
  - rewrite <- Ef, <- Ek by done. change (foldl _ (wb_trust w1) _) with (others E w1).
    destruct (fence E _ _ w1) as [[r completed] w2] eqn:Efe. apply (fence_careful view _ w0) in Efe as [El2 Hf]; [|by rewrite Es].
    destruct r as [[]|e].
    + destruct Hf as [[_ []]|Hf]; [done|]. by right.
    + destruct (accepted_now E w2) as [[current|e] w3] eqn:Ea; apply accepted_staging in Ea as [Es3 El3].
      * destruct Hf as [[Hq2 _]|Hf]; [left; apply preserve_quiet; by rewrite Es3|]. right. split; [done|].
        destruct (preserve_log (set_stored res) view batch current root "preserve verified write-back conflict" w3) as [Ep Er].
        rewrite Er, Ep. split; [congruence|done].
      * destruct Hf as [[Hq2 _]|Hf]; [left; cbn; by rewrite Es3|]. right. split_and!; try done. cbn. congruence.
    + destruct Hf as [[Hq2 _]|Hf]; [by left|]. by right.
  - left. destruct (accepted_now E w1) as [[current|e] w2] eqn:Ea; apply accepted_staging in Ea as [Es2 _]; [|cbn; by rewrite Es2, Es].
    destruct (negb _); [apply preserve_quiet|cbn]; by rewrite Es2, Es.
Qed.

Lemma remotely_Ok p (w : place) receipt w' :
  remotely E (PersistBatch p (Some (we_batching E)) true) w = (Ok receipt, w') ->
  wb_trust w' = wb_trust w /\ wb_tick w' = wb_tick w /\ wb_staging w' = wb_staging w /\ exists tr, wb_log w' = wb_log w ++ tr /\
    exec (PersistBatch p (Some (we_batching E)) true) tr (Ok receipt).
Proof.
  unfold remotely. destruct (run _ _ _) as [[r rem] tr] eqn:Er. intros [= -> <-]. split_and!; [done|done|done|].
  exists tr. split; [done|]. by eapply run_exec.
Qed.

Lemma remotely_staging {A} (p : P A) (w : place) r w' : remotely E p w = (r, w') -> wb_staging w' = wb_staging w /\ wb_trust w' = wb_trust w.
Proof. unfold remotely. destruct (run _ _ _) as [[? ?] ?]. by intros [= _ <-]. Qed.

Lemma replayAuthentication_careful view batch base res w0 (w : place) :
  v_Root view = Some base -> (PrepareUpload (we_staging E) (we_service E) view (wb_staging w0)).1 = Ok batch ->
  quiet (wb_staging w0) (wb_staging w) -> wb_log w = wb_log w0 -> wb_remote w = wb_remote w0 ->
  wb_trust w = others E w0 -> wb_tick w = S (wb_tick w0) -> re_TransactionID res = ub_TransactionID batch ->
  careful view w0 (replayAuthentication E view batch base res w).
Proof.
  intros Hb Hprep Hq Hlog Hrem Htr Htick Hid. unfold replayAuthentication, attempt at 1.
  destruct (planner E base _ w) as [rp w1] eqn:Ep. unfold planner in Ep. rewrite Hrem in Ep.
  destruct (we_prepare E base (ub_Operations batch) (wb_remote w0)) as [rp' rem] eqn:Eprep. injection Ep as <- <-.
  set (w1 := mkWb _ _ _ _ _). assert (others E w1 = second_file w0) as Ho.
  { unfold others at 1. cbn. by rewrite Htr, Htick. }
  destruct rp' as [plan|e]; [|by left]. destruct (pl_Root plan) as [root|] eqn:Er; [|by left].
  destruct (negb _) eqn:Eb; [by left|]. simplify_guards. rewrite Hb in Eb. case_bool_decide as Hroot.
  - rewrite Hb in Hroot. injection Hroot as ->.
    destruct (fence E _ _ w1) as [[r completed] w2] eqn:Ef. apply (fence_careful view _ (wb_staging w0)) in Ef as [El2 Hf]; [|done].
    destruct Hf as [[Hq2 Hne]|Hf]; [left|right; exists batch, base, plan, base; rewrite Eprep, <- Ho; split_and!; try done; by left].
    destruct r as [[]|e]; [done| |done].
    destruct (accepted_now E w2) as [[current|e] w3] eqn:Ea; apply accepted_staging in Ea as [Es3 _]; [|cbn; by rewrite Es3].
    pose proof (queue_quiet _ w3 (conflict_quiet (we_service E) batch (acceptedRootConflictID (v_Root view) current base) (wb_staging w3))) as Hq3.
    rewrite Es3 in Hq3 at 1. destruct (queue _ w3) as [[|] w4]; (etransitivity; [exact Hq2|exact Hq3]).
  - unfold attempt. destruct (mbind _ _) as [selected|e]; [|by left].
    destruct (remotely E _ w1) as [[receipt|e] w2] eqn:Em; [|apply remotely_staging in Em as [Es2 _]; left; cbn; by rewrite Es2].
    apply remotely_Ok in Em as (Et2 & Ek2 & Es2 & tr & El2 & (_ & Hval & tr1 & ev & datas & -> & Hev & _)%PersistBatch_Ok).
    assert (root <> base) as Hne by congruence.
    edestruct (completeCandidate_careful view batch root base (set_persisted res root receipt) (wb_staging w0) w2) as [Hc|(Hf & Hl & Ht & Hcr & Hrc)];
      [done|by rewrite Es2|done|by left|right].
    exists batch, base, plan, root. rewrite Eprep. split_and!; try done. right. split_and!; [done| |].
    + unfold others in Hf, Ho. rewrite Et2, Ek2, Ho in Hf. cbn in Hf. by rewrite Htick in Hf.
    + exists tr1, ev, receipt. unfold batch_of in Hev, Hval. cbn in Hev, Hval. rewrite Er, Eb in Hev, Hval. cbn in Hl, Ht, Hcr, Hrc, El2 |- *.
      split_and!; [by rewrite Hl, El2, Hlog|done|done|congruence|done|done].
Qed.

Lemma Replay_careful view w : careful view w (Replay E view w).
Proof.
  unfold Replay. destruct (we_select E); [by left|]. unfold attempt at 1, accepted_now at 1, trust_read.
  destruct (roots_AcceptedRoot _ _ _) as [accepted|e]; [|by left]. cbn [wrap_err].
  destruct (negb _) eqn:Ev; [by left|]. simplify_guards. unfold attempt at 1, queue. cbn [wb_staging wb_trust wb_remote wb_log wb_tick].
  pose proof (prepare_quiet (we_service E) view (wb_staging w)) as Hq.
  destruct (PrepareUpload _ _ _ _) as [[batch|e] st] eqn:Ep; cbn in Hq; [|by left].
  unfold attempt at 1. destruct (validateAvailablePayloads _); [|by left].
  apply replayAuthentication_careful; try done. by rewrite Ep.
Qed.

(** C6. Staged work is completed only on evidence.  If an operation is completed
    after a replay, successful or not, and was not before, then the planner's
    answer to this very call (for the prepared batch, on the view's root and
    the remote as it was) names a root, and the view's root was the accepted
    root of the alias in the trust file at the moment of the completion: after
    everything other processes did up to then, and after the recording of the
    candidate when there is one.  If the planned root differs from the view's,
    the last thing the remote answered is a receipt that validates against the
    exact batch of this transaction, from the view's root to the planned root
    with the candidates of the plan, and it is the receipt the result reports. *)
Theorem completion_needs_evidence view w res err w' js js' id op' :
  Replay E view w = ((res, err), w') ->
  Durable.view (w_journal (wb_staging w)) = Some js -> Durable.view (w_journal (wb_staging w')) = Some js' ->
  Operations js' !! id = Some op' -> op_Status op' = StatusCompleted ->
  (forall op, Operations js !! id = Some op -> op_Status op <> StatusCompleted) ->
  justified view res w w'.
Proof.
  intros H Hv Hv' Hl Hs Hn. pose proof (Replay_careful view w) as [[_ Hq]|Hj]; rewrite H in *; [|done].
  destruct (Hq js js' Hv Hv') as [_ Hq']. specialize (Hq' id). rewrite Hl in Hq'. apply related_r in Hq' as (op & Ho & _ & _ & HT).
  by destruct (Hn op Ho (HT Hs)).
Qed.
End Completion.

(** * What a successful write-back replay has achieved: the batch is completed in
    the journal with the candidate it reports, the candidate is recorded, the
    remote has acknowledged every block the candidate needs, and the accepted
    root is still the view's. *)

Section Success.
Context {L : CidLib} {LL : CidLaws L} {C : CacheLib} {CL : CacheLaws C} {B : Base} {SL : StageLib}.
Context {CA : CandidateLib} {BL : BatchLib} {BW : BatchLaws} {WL : WritebackLib}.
Context {R : Type} (E : wb_env (R := R)).
#[local] Notation place := (wb_world (R := R)).

(** ** Recording the candidate *)
Definition candidate_in (s : state) (alias root base : string) : Prop :=
  exists v c, Roots s !! alias = Some v /\ c ∈ Candidates v /\ Trust.cand_Root c = root /\ cand_BaseRoot c = base.

Lemma addCandidate_written now alias root base source s v out :
  root <> base -> base <> EmptyString -> addCandidateLocked now alias root base source s = Ok (v, out) ->
  exists s', out = Some s' /\ candidate_in s' alias root base.
Proof.
  intros Hne Hb H. unfold addCandidateLocked in H. simplify_result.
  assert (match Accepted (root_for s alias) with Some accepted => bool_decide (root = acc_Root accepted) | None => false end = false) as Ef.
  { destruct (Accepted (root_for s alias)) as [acc|]; [|done]. simplify_result. simplify_guards. apply bool_decide_eq_false. congruence. }
  rewrite Ef in H. simplify_result. eexists. split; [done|]. unfold candidate_in, put_root. cbn [Roots].
  eexists _, _. split; [by rewrite lookup_insert_eq|]. cbn. split; [apply elem_of_app; right; by left|done].
Qed.

Lemma AddCandidate_records io now alias root base source (f : trust_file) s v f' :
  root <> base -> Durable.view f = Some s ->
  AddCandidate io now alias (cid_String root) (cid_String base) source f = (Ok v, f') ->
  exists s', Durable.view f' = Some s' /\ candidate_in s' (normalizeAlias alias) (cid_String root) (cid_String base).
Proof.
  intros Hne Hv H. unfold AddCandidate in H. cbv zeta in H. destruct (mbind _ _) as [[r b]|e] eqn:Ea; [|done].
  cbn [Trust.method] in H. simplify_result. simplify_guards.
  match goal with H : (if negb (bool_decide (TrimSpace _ = _)) then _ else _) = _ |- _ => rename H into Hb end.
  rewrite (cid_string_trimmed base), bool_decide_eq_false_2 in Hb by apply cid_string_nonempty. cbn [negb] in Hb.
  simplify_result. repeat match goal with H : canonicalCID (cid_String ?c) = Ok _ |- _ =>
    rewrite canonicalCID_id in H by (by exists c); injection H as <- end.
  assert (cid_String root <> cid_String base) as Hne' by (intros Eq%cid_String_inj; done).
  pose proof (trust_view_wf _ _ Hv) as Hwf. eapply locked_written in H as (s' & Hop & ->); [|done|].
  - exists s'. destruct (addCandidate_written _ _ _ _ _ _ _ _ Hne' (cid_string_nonempty base) Hop) as (s1 & [= <-] & Hc).
    split; [|done]. apply (addCandidate_step (TrustThms.CallAddCandidate alias EmptyString EmptyString source)) in Hop as (Hwf' & _);
      [|done|done|apply TrimSpace_idemp|by exists root]. by apply view_Decodes.
  - intros a Ha. by destruct (addCandidate_written _ _ _ _ _ _ _ _ Hne' (cid_string_nonempty base) Ha) as (? & ? & _).
Qed.

(** The candidate was recorded at some moment of the call. *)
Definition recorded_candidate (root : Cid) (view : View) (w w' : place) : Prop :=
  exists h1 h2 s, Forall (allowed E) (h1 ++ h2) /\ wb_trust w' = foldl TrustThms.apply (wb_trust w) (h1 ++ h2) /\
    Durable.view (foldl TrustThms.apply (wb_trust w) h1) = Some s /\
    candidate_in s (normalizeAlias (we_alias E)) (cid_String root) (root_text view).

Lemma locked_view {A} io (op : state -> result (A * option state)) (f : trust_file) r f' :
  locked io op f = (Ok r, f') -> exists s, Durable.view f = Some s.
Proof.
  intros H. apply critical_inv in H as [[_ Hr]|(s & _ & _ & Hv & _)]; [|by eauto|done].
  destruct (Hr _ eq_refl) as (s & Hv & _). eauto.
Qed.

Lemma observe_records root base view w0 (w w1 : place) :
  v_Root view = Some base -> root <> base -> grows E w0 w ->
  trust_write E (fun io now f => ObserveCandidate io now (we_alias E) (Some root) (v_Root view) (we_source E) f) w = (Ok (), w1) ->
  wb_staging w1 = wb_staging w /\ wb_log w1 = wb_log w /\ wb_remote w1 = wb_remote w /\
  recorded_candidate root view w0 w1.
Proof.
  intros Hb Hne (h & Eh & Hh) H. unfold trust_write, ObserveCandidate, RecordCandidate in H. rewrite Hb in H. cbn in H.
  case_bool_decide; [done|]. destruct (AddCandidate _ _ _ _ _ _ _) as [[v|] f'] eqn:Ea; [|done]. injection H as <-. split_and!; try done.
  set (e := TrustThms.Event (we_trust_io E (wb_tick w)) (we_now E (wb_tick w))
              (TrustThms.CallAddCandidate (we_alias E) (cid_String root) (cid_String base) (we_source E))).
  assert (exists s, Durable.view (others E w) = Some s) as [s Hs].
  { unfold AddCandidate in Ea. destruct (mbind _ _) as [[r b]|]; [|done]. by apply locked_view in Ea. }
  destruct (AddCandidate_records _ _ _ _ _ _ _ _ _ _ Hne Hs Ea) as (s' & Hs' & Hc).
  exists (h ++ we_others E (wb_tick w) ++ [e]), [], s'. rewrite app_nil_r, !foldl_app, <- Eh. cbn [foldl].
  change (foldl TrustThms.apply (wb_trust w) (we_others E (wb_tick w))) with (others E w).
  assert (TrustThms.apply (others E w) e = f') as -> by (unfold e; cbn; by rewrite Ea).
  split_and!; [|done|done|unfold root_text; by rewrite Hb].
  rewrite !Forall_app. split_and!; [done| |].
  - apply Forall_forall. intros e' He'. left. eauto.
  - constructor; [|done]. right. by eexists _, _, _.
Qed.

Lemma recorded_grows root view w0 w1 w2 : recorded_candidate root view w0 w1 -> grows E w1 w2 -> recorded_candidate root view w0 w2.
Proof.
  intros (h1 & h2 & s & Ha & E1 & Hv & Hc) (h & E2 & Hh). exists h1, (h2 ++ h), s. rewrite (assoc_L (++)).
  split_and!; [by apply Forall_app|rewrite E2, E1, <- foldl_app; done|done|done].
Qed.

(** ** The payloads that are sent *)
Lemma put_payload_keys p l c : c ∈ up_CID <$> put_payload p l <-> c = up_CID p \/ c ∈ up_CID <$> l.
Proof.
  induction l as [|q l IH]; cbn [put_payload]; [cbn; set_solver|]. case_bool_decide as Hq; rewrite !fmap_cons, !elem_of_cons.
  - rewrite Hq. naive_solver.
  - rewrite IH. naive_solver.
Qed.

Lemma select_payloads_covers keys payloads required acc selected :
  foldM (select_step keys payloads) acc required = Ok selected ->
  (forall c, c ∈ up_CID <$> acc -> c ∈ up_CID <$> selected) /\
  forall key, key ∈ required -> key ∈ Some <$> keys -> key ∈ up_CID <$> selected.
Proof.
  revert acc. induction required as [|key required IH]; intros acc H; cbn in H; simplify_result.
  { split; [done|]. by intros key ?%not_elem_of_nil. }
  apply IH in H as [H1 H2]. unfold select_step in Hr. case_bool_decide as Hk; simplify_result.
  - match goal with H : find_payload _ _ = Some ?x |- _ => rename x into p; apply List.find_some in H as [_ Hp] end.
    simplify_guards. subst key. split.
    + intros c Hc. apply H1, put_payload_keys. by right.
    + intros key [->|Hin]%elem_of_cons Hkey; [|by apply H2]. apply H1, put_payload_keys. by left.
  - split; [done|]. intros key' [->|Hin]%elem_of_cons; [done|by apply H2].
Qed.

Lemma staged_keys_writes ops keys op c :
  staged_keys ops = Ok keys -> op ∈ ops -> IntentKind (op_Intent op) = KindWrite ->
  cid_Parse (PayloadCID (op_Intent op)) = Some c -> c ∈ keys.
Proof.
  revert keys. induction ops as [|op0 ops IH]; intros keys H Hin Hk Hc; [by apply not_elem_of_nil in Hin|].
  cbn [staged_keys] in H. apply elem_of_cons in Hin as [->|Hin].
  - rewrite bool_decide_eq_true_2, Hc in H by done. case_bool_decide; simplify_result. by left.
  - case_bool_decide; [|eauto]. destruct (cid_Parse (PayloadCID (op_Intent op0))); [|done]. case_bool_decide; simplify_result. right. eauto.
Qed.

(** Every staged body that the plan requires is among the acknowledged blocks. *)
Definition delivered (batch : UploadBatch) (plan : Plan) (tr : list event) : Prop :=
  (forall b, b ∈ pl_Blocks plan -> exists data, body_of b data /\ planned b data ∈ acked tr) /\
  forall op c, op ∈ ub_Operations batch -> IntentKind (op_Intent op) = KindWrite ->
    cid_Parse (PayloadCID (op_Intent op)) = Some c -> Some c ∈ pl_Required plan ->
    exists data, cid_Sum c data = Some c /\ (mkCasBlock data (cid_Codec c), Some c) ∈ acked tr.

Lemma acked_each (blocks : list Block) (datas : list body) (tr : list event) b :
  Forall2 body_of blocks datas -> acked tr = zip_with planned blocks datas -> b ∈ blocks ->
  exists data, body_of b data /\ planned b data ∈ acked tr.
Proof.
  intros Hd Ha [i Hi]%list_elem_of_lookup. destruct (Forall2_lookup_l _ _ _ _ _ Hd Hi) as (data & Hdi & Hb).
  exists data. split; [done|]. rewrite Ha. apply (list_elem_of_lookup_2 _ i). apply lookup_zip_with_Some. eauto.
Qed.

Lemma submitted_delivered batch plan keys selected datas tr :
  (forall l, we_order E l ≡ₚ l) -> staged_keys (ub_Operations batch) = Ok keys ->
  select_payloads keys (ub_Payloads batch) (pl_Required plan) = Ok selected ->
  Forall2 body_of (pl_Blocks (submitted E plan batch selected)) datas ->
  acked tr = zip_with planned (pl_Blocks (submitted E plan batch selected)) datas ->
  delivered batch plan tr.
Proof.
  intros Hord Hkeys Hsel Hd Ha. split.
  - intros b Hb. eapply acked_each; [done|done|]. cbn. apply elem_of_app. by left.
  - intros op c Hop Hk Hc Hreq. apply select_payloads_covers in Hsel as [_ Hsel].
    assert (Some c ∈ up_CID <$> selected) as (p & Hp & Hin)%list_elem_of_fmap.
    { apply Hsel; [done|]. apply list_elem_of_fmap_2. by eapply staged_keys_writes. }
    destruct (acked_each _ _ tr (payload_block p) Hd Ha) as (data & (c' & Hc' & Hs) & Hack).
    { cbn. apply elem_of_app. right. apply list_elem_of_fmap_2. by rewrite Hord. }
    cbn in Hc'. assert (c' = c) as -> by congruence. exists data. split; [done|].
    unfold planned, codec_of in Hack. cbn in Hack. by rewrite <- Hp in Hack.
Qed.

(** ** Success *)
Definition accepted_at_end (view : View) (w' : place) : Prop := accepted_in E (wb_trust w') view.

Lemma fence_success view m (w : place) completed w' :
  fence E (v_Root view) m w = (Ok true, completed, w') ->
  wb_log w' = wb_log w /\ m (wb_staging w) = (Ok completed, wb_staging w') /\ accepted_at_end view w'.
Proof.
  intros (Et & _ & El & [(_ & _ & [])|(Es & _ & Hf & Hr)])%fence_cases; [done|]. split_and!; [done| |].
  - specialize (Hr eq_refl). destruct (m (wb_staging w)); cbn in *; congruence.
  - unfold accepted_at_end. by rewrite Et.
Qed.

Lemma completeCandidate_success view batch root base res w0 (w : place) res' w' js :
  v_Root view = Some base -> root <> base -> grows E w0 w -> Durable.view (w_journal (wb_staging w)) = Some js ->
  completeCandidate E view batch root res w = ((res', None), w') ->
  wb_log w' = wb_log w /\ (exists completed, res' = set_completed (set_stored res) completed) /\
  recorded_candidate root view w0 w' /\ accepted_at_end view w' /\
  exists js', Durable.view (w_journal (wb_staging w')) = Some js' /\ finished_with root batch js js'.
Proof.
  intros Hb Hne Hg Hv H. unfold completeCandidate in H. destruct (trust_write E _ w) as [[[]|err] w1] eqn:Et.
  - destruct (observe_records _ _ _ _ _ _ Hb Hne Hg Et) as (Es & El & _ & Hrec).
    destruct (fence E _ _ w1) as [[[[]|e] completed] w2] eqn:Ef; [| |done].
    + injection H as <- <-. pose proof (fence_grows E (v_Root view) (CompleteUpload (we_staging E) (we_service E) batch (Some root)) w1) as Hg2.
      rewrite Ef in Hg2. cbn in Hg2. apply fence_success in Ef as (El2 & Hm & Ha). rewrite Es in Hm.
      apply (CompleteUpload_effect _ _ _ _ _ _ _ js) in Hm as (c & js' & [= <-] & _ & Hv' & Hf); [|done].
      split_and!; [congruence|by eexists|by eapply recorded_grows|done|by exists js'].
    + destruct (accepted_now E w2) as [[current|e] w3]; [|done]. unfold preserve_conflict in H.
      by destruct (queue _ w3) as [[|] w4].
  - destruct (accepted_now E w1) as [[current|e] w2]; [|done]. destruct (negb _); [|done]. unfold preserve_conflict in H.
    by destruct (queue _ w2) as [[|] w4].
Qed.

(** The planner's answer to this call: the plan for the prepared batch, from the
    base, with the remote as it was. *)
Definition planned_here (batch : UploadBatch) (base root : Cid) (plan : Plan) (w : place) : Prop :=
  (we_prepare E base (ub_Operations batch) (wb_remote w)).1 = Ok plan /\ pl_Base plan = Some base /\ pl_Root plan = Some root.

(** What a replay that reports a candidate has delivered to the remote. *)
Definition persisted (view : View) (batch : UploadBatch) (plan : Plan) (root : Cid) (res : Result) (w w' : place) : Prop :=
  exists tr e receipt, wb_log w' = wb_log w ++ tr ++ [e] /\
    batch_materialized e = Some (mkAuthBatch (ub_TransactionID batch) (root_text view) (cid_String root) (pl_Candidates plan), Ok receipt) /\
    re_Receipt res = Some receipt /\ delivered batch plan tr.

Lemma replayAuthentication_success view batch base res w0 (w : place) res' w' js :
  (forall l, we_order E l ≡ₚ l) -> v_Root view = Some base -> ub_View batch = view ->
  re_NoAuthenticatedChange res = false ->
  grows E w0 w -> wb_log w = wb_log w0 -> wb_remote w = wb_remote w0 -> Durable.view (w_journal (wb_staging w)) = Some js ->
  replayAuthentication E view batch base res w = ((res', None), w') ->
  re_TransactionID res' = re_TransactionID res /\ re_BaseRoot res' = re_BaseRoot res /\ accepted_at_end view w' /\
  exists plan root js', planned_here batch base root plan w0 /\
    Durable.view (w_journal (wb_staging w')) = Some js' /\ finished_with root batch js js' /\
    if re_NoAuthenticatedChange res' then root = base /\ wb_log w' = wb_log w0
    else root <> base /\ re_CandidateRoot res' = Some root /\ re_RemotePersisted res' = true /\ re_CandidateStored res' = true /\
      recorded_candidate root view w0 w' /\ persisted view batch plan root res' w0 w'.
Proof.
  intros Hord Hb Hview Hnc Hg Hlog Hrem Hv H. unfold replayAuthentication, attempt at 1 in H.
  destruct (planner E base _ w) as [rp w1] eqn:Ep. unfold planner in Ep. rewrite Hrem in Ep.
  destruct (we_prepare E base (ub_Operations batch) (wb_remote w0)) as [rp' rem] eqn:Eprep. injection Ep as <- <-.
  set (w1 := mkWb _ _ _ _ _) in H. assert (grows E w0 w1) as Hg1 by (etransitivity; [exact Hg|by apply grows_same]).
  destruct rp' as [plan|e]; [|done]. destruct (pl_Root plan) as [root|] eqn:Er; [|done].
  destruct (negb _) eqn:Eb; [done|]. simplify_guards.
  assert (planned_here batch base root plan w0) as Hplan by (split_and!; [by rewrite Eprep|congruence|done]).
  case_bool_decide as Hroot.
  - destruct (fence E _ _ w1) as [[[[]|e] completed] w2] eqn:Ef; [| |done].
    + injection H as <- <-. apply fence_success in Ef as (El & Hm & Ha).
      apply (CompleteNoChange_effect _ _ _ base _ _ _ js) in Hm as (js' & Hv' & Hf); [|congruence|done].
      assert (root = base) as -> by congruence.
      split_and!; try done. exists plan, base, js'. split_and!; [done|done|done|]. cbn. split; [done|]. rewrite El. done.
    + destruct (accepted_now E w2) as [[current|e] w3]; [|done]. by destruct (queue _ w3) as [[|] w4].
  - unfold attempt in H. destruct (mbind _ _) as [selected|e] eqn:Esel; [|done]. apply bind_Ok in Esel as (keys & Hkeys & Hsel).
    destruct (remotely E _ w1) as [[receipt|e] w2] eqn:Em; [|done].
    apply remotely_Ok in Em as (Et2 & _ & Es2 & tr & El2 & (_ & Hval & tr1 & ev & datas & -> & Hev & _ & Hd & Ha)%PersistBatch_Ok).
    eapply (completeCandidate_success view batch root base _ w0 w2 res' w' js) in H
      as (El3 & [completed ->] & Hrec & Hacc & js' & Hv' & Hf); [|done|congruence|etransitivity; [exact Hg1|by apply grows_same]|by rewrite Es2].
    split_and!; [done|done|done|]. exists plan, root, js'. split_and!; [done|done|done|]. cbn. rewrite Hnc.
    split_and!; [congruence|done|done|done|done|].
    exists tr1, ev, receipt. split_and!; [|by rewrite Hev; unfold batch_of, root_text; cbn; rewrite Er, Eb, Hb|done|].
    + rewrite El3, El2. cbn. by rewrite Hlog.
    + by eapply submitted_delivered.
Qed.

Lemma Replay_success view w res w' :
  (forall l, we_order E l ≡ₚ l) -> Replay E view w = ((res, None), w') ->
  exists batch base plan root js', (PrepareUpload (we_staging E) (we_service E) view (wb_staging w)).1 = Ok batch /\
    v_Root view = Some base /\ planned_here batch base root plan w /\ re_TransactionID res = ub_TransactionID batch /\ re_BaseRoot res = Some base /\
    accepted_at_end view w' /\
    Durable.view (w_journal (wb_staging w')) = Some js' /\
    (forall p, p ∈ ub_Pending batch -> exists op', Operations js' !! op_id p = Some op' /\ op_Intent op' = op_Intent p /\
       op_Status op' = StatusCompleted /\ ResultRoot op' = cid_String root) /\
    if re_NoAuthenticatedChange res then root = base /\ wb_log w' = wb_log w
    else root <> base /\ re_CandidateRoot res = Some root /\ re_RemotePersisted res = true /\ re_CandidateStored res = true /\
      recorded_candidate root view w w' /\ persisted view batch plan root res w w'.
Proof.
  intros Hord H. unfold Replay in H. destruct (we_select E); [done|]. unfold attempt at 1 in H.
  pose proof (read_grows E (fun io f => roots_AcceptedRoot io f (we_alias E)) w) as Hg.
  assert (wb_remote (accepted_now E w).2 = wb_remote w) as Erem by done.
  destruct (accepted_now E w) as [[accepted|e] w1] eqn:Ea; unfold accepted_now in Ea; rewrite Ea in Hg; cbn in Hg;
    apply accepted_staging in Ea as [Es El]; cbn in H; [|done].
  destruct (negb _) eqn:Eb; [done|]. simplify_guards. unfold attempt at 1 in H.
  pose proof (queue_grows E (PrepareUpload (we_staging E) (we_service E) view) w1) as Hg1.
  unfold queue in H, Hg1. rewrite Es in H, Hg1.
  destruct (PrepareUpload _ _ _ (wb_staging w)) as [[batch|e] st] eqn:Epr; [|done]. cbn in Hg1.
  pose proof Epr as (_ & Hview & (js & Hv & _) & _)%PrepareUpload_effect. unfold attempt at 1 in H.
  destruct (validateAvailablePayloads _); [|done].
  apply (replayAuthentication_success _ _ _ _ w _ _ _ js) in H as (H1 & H2 & H3 & plan & root & js' & Hpl & Hv' & [Hf _] & Hrest);
    try done; try (by etransitivity).
  exists batch, accepted, plan, root, js'. split_and!; try done; [by rewrite H2|].
  intros p Hp. destruct (Hf p Hp) as (op & op' & _ & _ & _ & _ & ? & ? & _ & ? & ?). eauto 10.
Qed.

(** C5. A replay that succeeds has done everything it reports.  For the batch it
    prepared and the plan that the planner answered to this call, every pending
    operation is completed in the journal, with the root of the plan as its
    result; the view's root is still the accepted root of the alias at the end.
    When the planned root differs from the base, it is the reported candidate,
    was recorded as a candidate on the base, and the remote answered the exact
    batch of the transaction (with the candidates of this plan) with the
    reported receipt, after acknowledging every block of this plan and every
    staged body it requires.  Otherwise nothing was written to the remote. *)
Theorem replay_success_is_durable view w res w' :
  (forall l, we_order E l ≡ₚ l) -> Replay E view w = ((res, None), w') ->
  exists batch base plan root js', (PrepareUpload (we_staging E) (we_service E) view (wb_staging w)).1 = Ok batch /\
    v_Root view = Some base /\ planned_here batch base root plan w /\ re_TransactionID res = ub_TransactionID batch /\ re_BaseRoot res = Some base /\
    accepted_at_end view w' /\
    Durable.view (w_journal (wb_staging w')) = Some js' /\
    (forall p, p ∈ ub_Pending batch -> exists op', Operations js' !! op_id p = Some op' /\ op_Intent op' = op_Intent p /\
       op_Status op' = StatusCompleted /\ ResultRoot op' = cid_String root) /\
    if re_NoAuthenticatedChange res then root = base /\ wb_log w' = wb_log w
    else root <> base /\ re_CandidateRoot res = Some root /\ re_RemotePersisted res = true /\ re_CandidateStored res = true /\
      recorded_candidate root view w w' /\ persisted view batch plan root res w w'.
Proof. apply Replay_success. Qed.
End Success.
