(* ===== verification/Binding.v ===== *)
(** The writable binding of a mount (internal/runtime/writeback.go): the file
    operations a platform adapter calls, over the staging service and the
    write-back replay, and the policy wrapper of filesystem/mount/manager.go. *)

From stdpp Require Import base decidable gmap strings list.
From Stdlib Require Import Ascii ZArith.
From S2P Require Import Prelude GoText CidLib Durable Trust TrustThms Journal Cache Paths Staging Interact WritePlan Roots Writeback.

(** filesystem/service *)
Definition ErrHandleClosed := ErrorsNew "filesystem handle is closed".
(** filesystem/mount; the first two carry the texts of the staging sentinels in
    the source and are distinct values; the prefix keeps them distinct here. *)
Definition MountErrAlreadyExists := ErrorsNew "mount: filesystem path already exists".
Definition MountErrNotEmpty := ErrorsNew "mount: filesystem directory is not empty".
Definition MountErrFileTooLarge := ErrorsNew "filesystem file exceeds configured limit".
Definition ErrWritePolicyViolation := ErrorsNew "mount write policy was violated".

Definition mapStagingError (err : error) : error :=
  if errors_Is err ErrAlreadyExists then MountErrAlreadyExists
  else if errors_Is err ErrNotEmpty then MountErrNotEmpty
  else if errors_Is err ErrFileTooLarge then MountErrFileTooLarge
  else if errors_Is err ErrClosed || errors_Is err ErrServiceClosed then ErrHandleClosed
  else err.

Record SyncResult := mkSync {
  sy_LocalDurable : bool; sy_RemotePersisted : bool; sy_CandidateRoot : string; sy_RootAccepted : bool
}.
Definition zeroSync : SyncResult := mkSync false false EmptyString false.

Section Binding.
Context {L : CidLib} {C : CacheLib} {B : Base} {SL : StageLib} {CA : CandidateLib} {BL : BatchLib} {WL : WritebackLib}.
Context {R : Type}.

(** [bi_release] is the remaining release callback; its outcome is an argument
    of [Close]. *)
Record binding := mkBind {
  bi_view : View; bi_staged : option service; bi_replay : bool; bi_closing : bool; bi_closed : bool; bi_release : bool
}.

Context (E : wb_env (R := R)).
#[local] Notation SE := (we_staging E).

Definition mapped {A} (m : M A) : M A := fun w =>
  let '(r, w') := m w in (match r with Ok a => Ok a | Err e => Err (mapStagingError e) end, w').

(** [enter]: the service, unless the binding is closing. *)
Definition inside {A} (b : binding) (m : service -> M A) : M A :=
  match bi_staged b with
  | Some s => if bi_closing b || bi_closed b then lift (Err ErrHandleClosed) else m s
  | None => lift (Err ErrHandleClosed)
  end.

Definition b_Stat (b : binding) (path : string) : M Info := inside b (fun s => mapped (Staging.Stat SE s (bi_view b) path)).
Definition b_ReadDir (b : binding) (path : string) : M (list DirEntry) :=
  inside b (fun s => mapped (Staging.ReadDir SE s (bi_view b) path)).
Definition b_Open (b : binding) (path : string) : M Handle := inside b (fun s => mapped (Staging.Open SE s (bi_view b) path)).
Definition b_Read (b : binding) (h : Handle) (offset len : N) : M body :=
  match bi_staged b with
  | Some s => mapped (handle_Read SE s h offset len)
  | None => lift (Err ErrHandleClosed)
  end.

Definition b_Create (b : binding) (path : string) : M Info := inside b (fun s =>
  found ← try (Staging.Stat SE s (bi_view b) path);
  _ ← lift (match found with
            | Ok _ => Err MountErrAlreadyExists
            | Err e => if errors_Is e ErrPathNotFound then Ok () else Err (mapStagingError e)
            end);
  _ ← mapped (StageWrite SE s (bi_view b) path [] false);
  mapped (Staging.Stat SE s (bi_view b) path)).

Definition b_WriteAt (b : binding) (path : string) (offset : N) (data : body) : M Info := inside b (fun s =>
  _ ← mapped (StageWriteAt SE s (bi_view b) path offset data false);
  mapped (Staging.Stat SE s (bi_view b) path)).
Definition b_Truncate (b : binding) (path : string) (size : N) : M Info := inside b (fun s =>
  _ ← mapped (StageTruncate SE s (bi_view b) path size false);
  mapped (Staging.Stat SE s (bi_view b) path)).
Definition b_Mkdir (b : binding) (path : string) : M Info := inside b (fun s =>
  _ ← mapped (StageMkdir SE s (bi_view b) path false);
  mapped (Staging.Stat SE s (bi_view b) path)).
Definition b_Rename (b : binding) (source destination : string) : M unit := inside b (fun s =>
  if bool_decide (source = destination) then _ ← mapped (Staging.Stat SE s (bi_view b) source); mret ()
  else _ ← mapped (StageRename SE s (bi_view b) source destination false); mret ()).
Definition b_Unlink (b : binding) (path : string) : M unit := inside b (fun s =>
  _ ← mapped (StageUnlink SE s (bi_view b) path false); mret ()).
Definition b_RemoveDir (b : binding) (path : string) : M unit := inside b (fun s =>
  _ ← mapped (StageRemoveDir SE s (bi_view b) path false); mret ()).

Definition validCandidateRoot (base candidate : option Cid) : bool :=
  match base, candidate with
  | Some base, Some candidate =>
      negb (bool_decide (candidate = base)) &&
      match ParseRoot candidate with
      | Some next => layout_Map next && bool_decide (ParseRoot base = Some next)
      | None => false
      end
  | _, _ => false
  end.

(** The checks on a replay's result. *)
Definition sync_of (view : View) (local : SyncResult) (replayed : Result) : SyncResult * option error :=
  if negb (bool_decide (re_Profile replayed = ResultProfile)) || re_RootAccepted replayed
  then (local, Some (Errorf "filesystem write-back returned an invalid trust result")) else
  if re_NoAuthenticatedChange replayed then
    if re_RemotePersisted replayed || bool_decide (is_Some (re_CandidateRoot replayed)) || re_CandidateStored replayed
    then (local, Some (Errorf "filesystem no-change write-back returned a remote candidate claim"))
    else (mkSync true false EmptyString false, None)
  else if negb (re_RemotePersisted replayed) || negb (re_CandidateStored replayed) ||
          negb (validCandidateRoot (v_Root view) (re_CandidateRoot replayed))
  then (local, Some (Errorf "filesystem write-back did not persist and record an exact candidate"))
  else (mkSync true true (cid_text (re_CandidateRoot replayed)) false, None).

Definition b_Sync (b : binding) (w : wb_world) : (SyncResult * option error) * wb_world :=
  match bi_staged b with
  | None => ((zeroSync, Some ErrHandleClosed), w)
  | Some s =>
      if bi_closing b || bi_closed b then ((zeroSync, Some ErrHandleClosed), w) else
      match queue (Fsync SE s (bi_view b)) w with
      | (Err e, w1) => ((zeroSync, Some (mapStagingError e)), w1)
      | (Ok local, w1) =>
          let result := mkSync (fs_LocalDurable local) (fs_RemotePersisted local) (fs_CandidateRoot local) false in
          if negb (bool_decide (fs_Profile local = LocalFsyncProfile)) || negb (fs_LocalDurable local) || fs_RootAccepted local ||
             (fs_RemotePersisted local && bool_decide (TrimSpace (fs_CandidateRoot local) = EmptyString))
          then ((zeroSync, Some (Errorf "filesystem staging returned an invalid local fsync result")), w1) else
          if negb (bi_replay b) then ((result, Some (Errorf "filesystem write-back replayer is nil")), w1) else
          match Replay E (bi_view b) w1 with
          | ((_, Some e), w2) => if errors_Is e ErrNoPendingUpload then ((result, None), w2) else ((result, Some e), w2)
          | ((replayed, None), w2) => (sync_of (bi_view b) result replayed, w2)
          end
      end
  end.

(** [policyWritableFilesystem.Sync]. *)
Definition policy_Sync (b : binding) (w : wb_world) : (SyncResult * option error) * wb_world :=
  let '((result, err), w') := b_Sync b w in
  let violation text := Some (match err with
                              | Some e => ErrorsJoin e (Wrapf text ErrWritePolicyViolation)
                              | None => Wrapf text ErrWritePolicyViolation
                              end) in
  if sy_RootAccepted result then ((zeroSync, violation "mount sync reported accepted-root promotion"), w') else
  if sy_RemotePersisted result && (negb (sy_LocalDurable result) || bool_decide (TrimSpace (sy_CandidateRoot result) = EmptyString))
  then ((zeroSync, violation "remote persistence lacks local durability or candidate root"), w')
  else ((result, err), w').

(** [Close]: [unlock] says which leases can be released, [released] whether the
    release callback succeeds. *)
Definition b_Close (unlock : string -> bool) (released : bool) (b : binding) : result unit * binding :=
  if bi_closed b then (Ok (), b) else
  match bi_staged b with
  | None => (Err (Errorf "filesystem write-back staging is nil"),
             mkBind (bi_view b) None (bi_replay b) true (bi_closed b) (bi_release b))
  | Some s =>
      let '(r, s') := Staging.Close unlock s in
      let b := mkBind (bi_view b) (Some s') (bi_replay b) true (bi_closed b) (bi_release b) in
      match r with
      | Err e => (Err e, b)
      | Ok _ =>
          if bi_release b && negb released then (Err (Errorf "release binding"), b)
          else (Ok (), mkBind (bi_view b) (Some s') (bi_replay b) true true false)
      end
  end.
End Binding.
