(* ===== verification/BindingThms.v ===== *)
(** The writable binding of a mount, composed with the staging service and the
    write-back replay: every operation is a short history of staging requests,
    so the invariants of the staging filesystem hold for mounts, and a sync
    reports only what is durable. *)

From stdpp Require Import base decidable gmap strings list sorting.
From Stdlib Require Import Ascii ZArith.
From S2P Require Import Prelude GoText Branch CidLib Durable Trust TrustFacts TrustThms Journal JournalFacts JournalOps JournalThms Cache CacheFacts CacheHistory CacheThms Paths Staging Overlay StagingFacts StagingWrites StagingHistory StagingBatches StagingThms Interact WritePlan WritePlanFacts WritePlanThms Roots Writeback WritebackThms Binding.

Section Requests.
Context {L : CidLib} {C : CacheLib} {B : Base} {SL : StageLib}.
Context {CA : CandidateLib} {BL : BatchLib} {WL : WritebackLib}.
Context {R : Type} (E : wb_env (R := R)).
#[local] Notation place := (wb_world (R := R)).
#[local] Notation SE := (we_staging E).
#[local] Notation s := (we_service E).

(** The staging state moved by at most [n] requests. *)
Definition serves (n : nat) (w w' : world) : Prop :=
  exists reqs, length reqs <= n /\ w' = foldl (serve SE s) w reqs.

Lemma serves_none n w : serves n w w.
Proof. exists []. cbn. split; [lia|done]. Qed.
Lemma serves_one n w req : serves (S n) w (serve SE s w req).
Proof. exists [req]. cbn. split; [lia|done]. Qed.
Lemma serves_app n m w1 w2 w3 : serves n w1 w2 -> serves m w2 w3 -> serves (n + m) w1 w3.
Proof. intros (r1 & H1 & ->) (r2 & H2 & ->). exists (r1 ++ r2). rewrite length_app, foldl_app. split; [lia|done]. Qed.
Lemma serves_le n m w w' : n <= m -> serves n w w' -> serves m w w'.
Proof. intros Hnm (r & H & ->). exists r. split; [lia|done]. Qed.

(** ** Replay *)
Lemma queue_serves {A} (m : M A) (w : place) req :
  (m (wb_staging w)).2 = serve SE s (wb_staging w) req -> serves 1 (wb_staging w) (wb_staging (queue m w).2).
Proof. intros H. unfold queue. destruct (m _) as [r st]. cbn in *. subst. apply serves_one. Qed.

Lemma fence_serves expected m (w : place) req :
  (m (wb_staging w)).2 = serve SE s (wb_staging w) req -> serves 1 (wb_staging w) (wb_staging (fence E expected m w).2).
Proof.
  intros H. unfold fence, CompleteIfAccepted. destruct expected as [c|]; [|apply serves_none].
  destruct (WithAcceptedRoot _ _ _ _ _ _) as [r0 [st ops]] eqn:Ew. cbn.
  apply WithAcceptedRoot_fenced in Ew as [[[= -> _] _]|(? & ? & run & _ & _ & _ & [= <-] & Hrun)]; [apply serves_none|].
  cbn in Hrun. destruct (m (wb_staging w)) as [[ops'|e] st']; cbn in H; simplify_eq; apply serves_one.
Qed.

Lemma trust_write_staging {A} (op : io -> time -> trust_file -> result A * trust_file) (w : place) :
  wb_staging (trust_write E op w).2 = wb_staging w.
Proof. unfold trust_write. by destruct (op _ _ _). Qed.

Lemma preserve_serves res view batch current root text (w : place) :
  serves 1 (wb_staging w) (wb_staging (preserve_conflict E res view batch current root text w).2).
Proof.
  unfold preserve_conflict. set (c := acceptedRootConflictID _ _ _).
  pose proof (queue_serves (MarkUploadConflicted SE s batch c) w (ReqConflict batch c) eq_refl) as H.
  by destruct (queue _ w) as [[|] w'].
Qed.

Lemma completeCandidate_serves view batch root res (w : place) :
  serves 2 (wb_staging w) (wb_staging (completeCandidate E view batch root res w).2).
Proof.
  unfold completeCandidate.
  pose proof (trust_write_staging (fun io now f => ObserveCandidate io now (we_alias E) (Some root) (v_Root view) (we_source E) f) w) as Es.
  destruct (trust_write E _ w) as [[[]|err] w1]; cbn in Es; rewrite <- Es.
  - pose proof (fence_serves (v_Root view) (CompleteUpload SE s batch (Some root)) w1 (ReqComplete batch (Some root)) eq_refl) as H.
    destruct (fence E _ _ w1) as [[[[]|e] completed] w2]; cbn in H; try (eapply serves_le; [|exact H]; lia).
    destruct (accepted_now E w2) as [[current|e] w3] eqn:Ea; pose proof Ea as [Es3 _]%(accepted_staging E); cbn; rewrite <- Es3 in H.
    + eapply (serves_app 1 1); [exact H|apply preserve_serves].
    + eapply serves_le; [|exact H]; lia.
  - destruct (accepted_now E w1) as [[current|e] w2] eqn:Ea; pose proof Ea as [Es3 _]%(accepted_staging E); cbn; rewrite <- Es3;
      [|apply serves_none]. destruct (negb _); [eapply serves_le; [|apply preserve_serves]; lia|apply serves_none].
Qed.

Lemma attempt_pure {A} res (r : result A) k (w : place) n :
  (forall a, serves n (wb_staging w) (wb_staging (k a w).2)) ->
  serves n (wb_staging w) (wb_staging (attempt res (fun w => (r, w)) k w).2).
Proof. intros H. unfold attempt. destruct r; [done|apply serves_none]. Qed.

Lemma replayAuthentication_serves view batch base res (w : place) :
  serves 2 (wb_staging w) (wb_staging (replayAuthentication E view batch base res w).2).
Proof.
  unfold replayAuthentication, attempt at 1, planner. destruct (we_prepare _ _ _ _) as [[plan|e] rem]; [|apply serves_none].
  set (w1 := mkWb _ _ _ _ _). change (wb_staging w) with (wb_staging w1).
  destruct (pl_Root plan) as [root|]; [|apply serves_none]. destruct (negb _); [apply serves_none|]. case_bool_decide.
  - pose proof (fence_serves (v_Root view) (CompleteNoChange SE s batch) w1 (ReqNoChange batch) eq_refl) as H1.
    destruct (fence E _ _ w1) as [[[[]|e] completed] w2]; cbn in H1; try (eapply serves_le; [|exact H1]; lia).
    destruct (accepted_now E w2) as [[current|e] w3] eqn:Ea; pose proof Ea as [Es3 _]%(accepted_staging E); cbn; rewrite <- Es3 in H1;
      [|eapply serves_le; [|exact H1]; lia].
    set (c := acceptedRootConflictID _ _ _).
    pose proof (queue_serves (MarkUploadConflicted SE s batch c) w3 (ReqConflict batch c) eq_refl) as H2.
    destruct (queue _ w3) as [[|] w4]; (eapply (serves_app 1 1); [exact H1|exact H2]).
  - apply attempt_pure. intros selected. unfold attempt.
    destruct (remotely E _ w1) as [[receipt|e] w2] eqn:Em; pose proof Em as [Es2 _]%(remotely_staging E); rewrite <- Es2;
      [apply completeCandidate_serves|apply serves_none].
Qed.

Lemma Replay_serves view (w : place) : serves 3 (wb_staging w) (wb_staging (Replay E view w).2).
Proof.
  unfold Replay. destruct (we_select E); [apply serves_none|]. unfold attempt at 1.
  destruct (accepted_now E w) as [[accepted|e] w1] eqn:Ea; pose proof Ea as [Es _]%(accepted_staging E); cbn; rewrite <- Es; [|apply serves_none].
  destruct (negb _); [apply serves_none|]. unfold attempt at 1.
  pose proof (queue_serves (PrepareUpload SE s view) w1 (ReqPrepare view) eq_refl) as H1.
  destruct (queue _ w1) as [[batch|e] w2]; cbn in H1; [|eapply serves_le; [|exact H1]; lia].
  eapply (serves_app 1 2); [exact H1|]. apply attempt_pure. intros _. apply replayAuthentication_serves.
Qed.
End Requests.

(** ** The operations of a binding *)
Section Operations.
Context {L : CidLib} {LL : CidLaws L} {C : CacheLib} {CL : CacheLaws C} {B : Base} {SL : StageLib}.
Context {CA : CandidateLib} {BL : BatchLib} {BW : BatchLaws} {WL : WritebackLib}.
Context {R : Type} (E : wb_env (R := R)).
#[local] Notation place := (wb_world (R := R)).
#[local] Notation SE := (we_staging E).
#[local] Notation s := (we_service E).

Inductive file_op :=
  | OpStat (path : string) | OpReadDir (path : string) | OpRead (path : string) (offset len : N)
  | OpCreate (path : string) | OpWriteAt (path : string) (offset : N) (data : body) | OpTruncate (path : string) (size : N)
  | OpMkdir (path : string) | OpRename (source destination : string) | OpUnlink (path : string) | OpRemoveDir (path : string)
  | OpSync.

Definition b_ReadFile (b : binding) (path : string) (offset len : N) : M body :=
  h ← b_Open E b path; b_Read E b h offset len.

Definition perform (b : binding) (w : place) (op : file_op) : place :=
  match op with
  | OpStat path => (queue (b_Stat E b path) w).2
  | OpReadDir path => (queue (b_ReadDir E b path) w).2
  | OpRead path offset len => (queue (b_ReadFile b path offset len) w).2
  | OpCreate path => (queue (b_Create E b path) w).2
  | OpWriteAt path offset data => (queue (b_WriteAt E b path offset data) w).2
  | OpTruncate path size => (queue (b_Truncate E b path size) w).2
  | OpMkdir path => (queue (b_Mkdir E b path) w).2
  | OpRename source destination => (queue (b_Rename E b source destination) w).2
  | OpUnlink path => (queue (b_Unlink E b path) w).2
  | OpRemoveDir path => (queue (b_RemoveDir E b path) w).2
  | OpSync => (b_Sync E b w).2
  end.

(** A computation over the staging state that is at most [n] requests. *)
Definition short {A} (n : nat) (m : M A) : Prop := forall w, serves E n w (m w).2.

Lemma short_request {A} (m : M A) req : (forall w, (m w).2 = serve SE s w req) -> short 1 m.
Proof. intros H w. rewrite H. apply serves_one. Qed.
Lemma short_lift {A} n (r : result A) : short n (lift r).
Proof. intros w. apply serves_none. Qed.
Lemma short_mret {A} n (a : A) : short n (mret (M := M) a).
Proof. intros w. apply serves_none. Qed.
Lemma short_mapped {A} n (m : M A) : short n m -> short n (mapped m).
Proof. intros H w. unfold mapped. specialize (H w). by destruct (m w). Qed.
Lemma short_try {A} n (m : M A) : short n m -> short n (try m).
Proof. intros H w. unfold try. specialize (H w). by destruct (m w). Qed.
Lemma short_bind {A A'} n k (m : M A) (f : A -> M A') : short n m -> (forall a, short k (f a)) -> short (n + k) (m ≫= f).
Proof.
  intros Hm Hf w. unfold mbind, M_bind. specialize (Hm w). destruct (m w) as [[a|e] w']; cbn in *.
  - eapply serves_app; [exact Hm|apply Hf].
  - eapply serves_le; [|exact Hm]. lia.
Qed.
Lemma short_le {A} n k (m : M A) : n <= k -> short n m -> short k m.
Proof. intros Hnk H w. by eapply serves_le. Qed.
Lemma short_inside {A} n b (m : service -> M A) : bi_staged b = Some s -> short n (m s) -> short n (inside b m).
Proof. intros Hb H. unfold inside. rewrite Hb. destruct (_ || _); [apply short_lift|done]. Qed.
Lemma short_queue {A} n (m : M A) (w : place) : short n m -> serves E n (wb_staging w) (wb_staging (queue m w).2).
Proof. intros H. unfold queue. specialize (H (wb_staging w)). by destruct (m _). Qed.

Lemma short_stat view path : short 1 (mapped (Staging.Stat SE s view path)).
Proof. by apply short_mapped, (short_request _ (ReqStat view path)). Qed.

Lemma short_stat_after {A} view path (m : M A) : short 1 m -> short 2 (_ ← mapped m; mapped (Staging.Stat SE s view path)).
Proof. intros H. apply (short_bind 1 1); [by apply short_mapped|]. intros _. apply short_stat. Qed.
Lemma short_unit_after {A} (m : M A) : short 1 m -> short 1 (_ ← mapped m; mret ()).
Proof. intros H. apply (short_bind 1 0); [by apply short_mapped|]. intros _. apply short_mret. Qed.

Lemma short_read b path offset len : bi_staged b = Some s -> short 1 (b_ReadFile b path offset len).
Proof.
  intros Hb w. unfold b_ReadFile, b_Open, inside. rewrite Hb. destruct (bi_closing b || bi_closed b); [apply serves_none|].
  replace ((mapped (Staging.Open SE s (bi_view b) path) ≫= λ h, b_Read E b h offset len) w).2
    with (serve SE s w (ReqRead (bi_view b) path offset len)); [apply serves_one|].
  cbn [serve]. unfold ReadFileRange, mbind, M_bind, mapped, b_Read. rewrite Hb.
  destruct (Staging.Open SE s (bi_view b) path w) as [[h|e] w1]; [|done]. unfold mapped.
  by destruct (handle_Read SE s h offset len w1) as [[data|e] w2].
Qed.

Lemma Sync_serves b (w : place) : bi_staged b = Some s -> serves E 4 (wb_staging w) (wb_staging (b_Sync E b w).2).
Proof.
  intros Hb. unfold b_Sync. rewrite Hb. destruct (bi_closing b || bi_closed b); [apply serves_none|].
  pose proof (queue_serves E (Fsync SE s (bi_view b)) w (ReqFsync (bi_view b)) eq_refl) as H1.
  destruct (queue _ w) as [[local|e] w1]; cbn in H1; [|eapply serves_le; [|exact H1]; lia]. cbv zeta.
  destruct (_ || _); [eapply serves_le; [|exact H1]; lia|]. destruct (negb _); [eapply serves_le; [|exact H1]; lia|].
  eapply (serves_app E 1 3); [exact H1|]. pose proof (Replay_serves E (bi_view b) w1) as H2.
  destruct (Replay E _ w1) as [[res [e|]] w2]; [|done]. by destruct (errors_Is _ _).
Qed.

Lemma perform_serves b op (w : place) : bi_staged b = Some s -> serves E 4 (wb_staging w) (wb_staging (perform b w op)).
Proof.
  intros Hb. destruct op; cbn [perform]; [| | | | | | | | | |by apply Sync_serves];
    apply short_queue; (eapply (short_le 1); [lia|by apply short_read]) || apply short_inside; try done.
  - eapply (short_le 1); [lia|]. apply short_stat.
  - eapply (short_le 1); [lia|]. by apply short_mapped, (short_request _ (ReqReadDir (bi_view b) path)).
  - apply (short_bind 1 3); [apply short_try; by apply (short_request _ (ReqStat (bi_view b) path))|]. intros found.
    apply (short_bind 0 3); [apply short_lift|]. intros _. eapply (short_le 2); [lia|]. apply short_stat_after.
    by apply (short_request _ (ReqWrite (bi_view b) path [] false)).
  - eapply (short_le 2); [lia|]. apply short_stat_after. by apply (short_request _ (ReqWriteAt (bi_view b) path offset data false)).
  - eapply (short_le 2); [lia|]. apply short_stat_after. by apply (short_request _ (ReqTruncate (bi_view b) path size false)).
  - eapply (short_le 2); [lia|]. apply short_stat_after. by apply (short_request _ (ReqMkdir (bi_view b) path false)).
  - eapply (short_le 1); [lia|]. case_bool_decide; apply short_unit_after.
    + by apply (short_request _ (ReqStat (bi_view b) source)).
    + by apply (short_request _ (ReqRename (bi_view b) source destination false)).
  - eapply (short_le 1); [lia|]. apply short_unit_after. by apply (short_request _ (ReqUnlink (bi_view b) path false)).
  - eapply (short_le 1); [lia|]. apply short_unit_after. by apply (short_request _ (ReqRemoveDir (bi_view b) path false)).
Qed.

Lemma history_serves b ops (w : place) :
  bi_staged b = Some s -> serves E (4 * length ops) (wb_staging w) (wb_staging (foldl (perform b) w ops)).
Proof.
  intros Hb. revert w. induction ops as [|op ops IH]; intros w; cbn [foldl]; [apply serves_none|].
  replace (4 * length (op :: ops)) with (4 + 4 * length ops) by (cbn; lia).
  eapply serves_app; [by apply perform_serves|apply IH].
Qed.

(** A mounted filesystem stays sound: after any sequence of file operations and
    syncs through a binding, whatever fails underneath, whatever the remote and
    the planner answer and whatever other processes do to the trust store, the
    namespace of the view is a tree and every staged write that is not
    superseded has its verified body. *)
Theorem mounted_filesystem_stays_sound b v ops (w : place) :
  ticking SE -> bi_staged b = Some s -> validateView v = Ok () -> roomy (4 * length ops) (wb_staging w) ->
  treelike v (wb_staging w) -> backed (wb_staging w) ->
  treelike v (wb_staging (foldl (perform b) w ops)) /\ backed (wb_staging (foldl (perform b) w ops)).
Proof.
  intros Htick Hb Hval Hroom Ht Hbk. destruct (history_serves b ops w Hb) as (reqs & Hlen & ->).
  assert (roomy (length reqs) (wb_staging w)) as Hr by (intros js Hv; specialize (Hroom js Hv); lia).
  split; [by apply history_tree|by apply history_backed].
Qed.

(** ** Sync *)

(** Remote persistence is reported only for what the remote persisted: when a
    sync reports it, the replay of this very call completed the batch of the
    view, the reported candidate differs from the base and has its layout, it
    was recorded with the trust store but not accepted, and the remote holds
    the batch and the blocks of the plan computed in this call. *)
Theorem sync_reports_are_backed b (w : place) r w' :
  (forall l, we_order E l ≡ₚ l) -> b_Sync E b w = ((r, None), w') -> sy_RemotePersisted r = true ->
  sy_LocalDurable r = true /\ sy_RootAccepted r = false /\
  exists sv w1 res batch base plan root js', bi_staged b = Some sv /\ w1 = (queue (Fsync SE sv (bi_view b)) w).2 /\
    Replay E (bi_view b) w1 = ((res, None), w') /\
    (PrepareUpload (we_staging E) (we_service E) (bi_view b) (wb_staging w1)).1 = Ok batch /\
    v_Root (bi_view b) = Some base /\ sy_CandidateRoot r = cid_String root /\ validCandidateRoot (Some base) (Some root) = true /\
    accepted_at_end E (bi_view b) w' /\ recorded_candidate E root (bi_view b) w1 w' /\
    planned_here E batch base root plan w1 /\ persisted (bi_view b) batch plan root res w1 w' /\
    Durable.view (w_journal (wb_staging w')) = Some js' /\
    (forall p, p ∈ ub_Pending batch -> exists op', Operations js' !! op_id p = Some op' /\
       op_Status op' = StatusCompleted /\ ResultRoot op' = cid_String root).
Proof.
  intros Hord H Hp. unfold b_Sync in H. destruct (bi_staged b) as [sv|] eqn:Eb; [|done].
  destruct (bi_closing b || bi_closed b); [done|]. destruct (queue (Fsync SE sv (bi_view b)) w) as [[local|e] w1] eqn:Ef; [|done].
  assert (fs_RemotePersisted local = false) as Hl.
  { unfold queue in Ef. destruct (Fsync SE sv (bi_view b) (wb_staging w)) as [rf st] eqn:Efs. simplify_eq.
    unfold Fsync in Efs. simplify_M. done. }
  cbv zeta in H. destruct (_ || _ || _ || _); [done|]. destruct (negb (bi_replay b)); [done|].
  destruct (Replay E (bi_view b) w1) as [[res [e|]] w2] eqn:Er.
  { destruct (errors_Is _ _); [|done]. injection H as <- <-. cbn in Hp. congruence. }
  unfold sync_of in H. destruct (negb (bool_decide _) || re_RootAccepted res); [done|]. destruct (re_NoAuthenticatedChange res) eqn:Enc.
  { destruct (_ || _ || _); [done|]. by injection H as <- <-. }
  destruct (negb _ || _ || _) eqn:Ev; [done|]. simplify_guards. injection H as <- <-. split_and!; [done|done|].
  destruct (Replay_success E (bi_view b) w1 res w2 Hord Er) as (batch & base & plan & root & js' & Hprep & Hb & Hplan & _ & _ & Hacc & Hv & Hops & Hrest).
  rewrite Enc in Hrest. destruct Hrest as (Hne & Hc & _ & _ & Hrec & Hpers).
  exists sv, w1, res, batch, base, plan, root, js'. rewrite Hc, Hb in *. split_and!; try done; [by rewrite Ef|].
  intros p Hpend. destruct (Hops p Hpend) as (op' & ? & _ & ? & ?). eauto.
Qed.
End Operations.
