(* ===== verification/WritebackWitness.v ===== *)
(** The write-plan, write-back and binding theorems at a concrete service: a
    remote that answers honestly, over the staged operations of the staging
    witness. *)

From stdpp Require Import base decidable gmap strings list sorting.
From Stdlib Require Import Ascii ZArith Lia.
From S2P Require Import Prelude GoText Branch CidLib Durable Trust TrustThms Journal JournalFacts JournalOps JournalThms Cache CacheFacts CacheHistory CacheThms Paths Staging Overlay StagingFacts StagingWrites StagingHistory StagingBatches StagingThms StagingWitness Interact WritePlan WritePlanFacts WritePlanThms Roots Writeback WritebackThms Binding BindingThms.

Module Scene.
Import TallyCid DigitDigest CacheThms.Witness StagingWitness.Demo.

(** ** A small candidate protocol *)
Record plain := mkPlain { p_root : string; p_previous : string; p_payload : option nat; p_entries : list (option nat) }.

#[global, refine] Instance plain_lib : CandidateLib (L := TallyCid.lib) := {
  cid_Codec _ := 85%N; codec_Raw := 85%N;
  Descriptor := unit; layout_Map _ := true; ParseRoot _ := Some ();
  Candidate := plain; cand_Root := p_root; cand_Previous := p_previous;
  cand_PayloadCID := p_payload; cand_Entries := p_entries;
  cand_Validate _ := Ok (); cand_copy c := Ok c
}.
Proof. Defined.
#[global] Instance plain_batches : BatchLib (H := plain_lib) := {
  Receipt := string;
  batch_Validate _ := Ok (); batch_copy b := Ok b;
  receipt_Validate r b := fail_if (negb (bool_decide (r = ab_TransactionID b))) (Errorf "receipt mismatch")
}.
#[global] Instance plain_laws : BatchLaws.
Proof. split; by intros ? ? [= <-]. Qed.
#[global] Instance plain_writeback : WritebackLib := { conflict_digest l := tally (length l) }.

(** A remote that does what it is asked, and counts the requests. *)
Definition honest (c : remote_call) (n : nat) : remote_answer c * nat :=
  match c return remote_answer c * nat with
  | CtxErr => (None, n)
  | SpoolGet key => (Ok (replicate key "s"%char), n)
  | OwnerRead _ => (Err (Errorf "no owner"), n)
  | PutWithCodec data _ => (Ok (Some (length data)), S n)
  | PutBatch blocks => (Ok ((fun b => mkPutResult (Some (length (cb_Data b))) PutStatusStored) <$> blocks), S n)
  | Materialize c => (Ok (cid_Parse (cand_Root c)), S n)
  | MaterializeBatch b => (Ok (ab_TransactionID b), S n)
  end.

(** A plan with a child and a parent, and a spooled and a frozen block. *)
Definition child : plain := mkPlain (cid_String 5) "b" (Some 3) [].
Definition parent : plain := mkPlain (cid_String 9) (cid_String 1) None [Some 5].
Definition demo_plan : Plan :=
  mkPlan (Some 1) (Some 9) EmptyString [child; parent] [mkBlock (Some 3) (Some (Spooled 3))] [Some 4; Some 5].
Definition full_plan : Plan :=
  mkPlan (Some 1) (Some 9) "tx" [child; parent] (pl_Blocks demo_plan ++ [Bytes (Some 4) abcd]) [].

#[local] Notation prepared := (PrepareUpload (C := digest_lib) good demo_service demo_view later).
#[local] Notation ran p := (run (Sg := Remote) honest p 0).

Lemma run_traces {A} (p : P (Sg := Remote) A) out : (ran p).1.1 = out -> exec p (ran p).2 out.
Proof. intros <-. apply (run_exec (Sg := Remote) honest p 0 (ran p).1.1 (ran p).1.2 (ran p).2). by destruct (ran p) as [[? ?] ?]. Qed.

Lemma blocks_acknowledged_exactly_witness :
  exists datas, Forall2 body_of (pl_Blocks full_plan) datas /\
    acked (ran (persistBlocks full_plan (Some true))).2 = zip_with planned (pl_Blocks full_plan) datas.
Proof.
  apply (blocks_acknowledged_exactly full_plan (Some true)). apply run_traces. evaluate.
Defined.

Lemma batches_bounded_witness : Forall bounded_batch (ran (persistBlocks full_plan (Some true))).2.
Proof.
  apply (batches_bounded full_plan (Some true) _ (Ok ())). apply run_traces. evaluate.
Defined.

#[local] Notation sent := (ran (PersistBatch full_plan (Some true) true)).
Lemma local_checks_precede_remote_effects_witness :
  validate full_plan = Ok () /\
  exists tr1 tr2, sent.2 = tr1 ++ tr2 /\ exec (check_blocks (pl_Blocks full_plan)) tr1 (Ok ()) /\ Forall is_local tr1.
Proof.
  apply (local_checks_precede_remote_effects full_plan (Some true) true sent.2 (Ok "tx")).
  - apply run_traces. evaluate.
  - intros H. rewrite Forall_forall in H.
    assert (batch_materialized <$> last sent.2 = Some (Some (batch_of full_plan, Ok "tx"))) as Hl by evaluate.
    destruct (last sent.2) as [e|] eqn:E; [|discriminate Hl]. apply last_Some_elem_of in E. specialize (H e E).
    destruct e as [[] a]; try discriminate Hl; exact H.
Defined.

Lemma batch_receipt_exact_witness :
  receipt_Validate "tx" (batch_of full_plan) = Ok () /\
  exists tr1 e, sent.2 = tr1 ++ [e] /\ batch_materialized e = Some (batch_of full_plan, Ok "tx") /\ Forall no_graph tr1.
Proof.
  destruct (batch_receipt_exact full_plan (Some true) true sent.2 "tx") as (_ & H1 & tr1 & e & datas & H2 & H3 & H4 & _).
  - apply run_traces. evaluate.
  - split; [exact H1|]. exists tr1, e. split; [exact H2|]. split; [exact H3|exact H4].
Defined.

#[local] Notation installed := (ran (Persist full_plan (Some true) true)).
Lemma dependencies_installed_first_witness :
  exists e' got, e' ∈ take 8 installed.2 /\ materialized e' = Some (child, Ok got) /\ cid_text got = cand_Root child.
Proof.
  destruct (dependencies_installed_first full_plan (Some true) true installed.2 (Ok ()) (take 8 installed.2)
    (default (ev (Sg := Remote) CtxErr None) (installed.2 !! 8)) (drop 9 installed.2) parent (Ok (Some 9))) as [_ H].
  - apply run_traces. evaluate.
  - evaluate.
  - evaluate.
  - destruct (H child) as (e' & got & H1 & H2 & H3); [left|vm_compute; right; left|].
    exists e', got. split; [exact H1|]. split; [exact H2|exact H3].
Defined.

(** ** Staging *)
Definition staged_area : Staging :=
  (MaterializeAuthentication None parent
    (MaterializeAuthentication None (mkPlain (cid_String 6) "b" None [])
      (MaterializeAuthentication None child (stage_block 3 NewStaging)).2).2).2.

Definition staged_plan : Plan :=
  mkPlan (Some 1) (Some 9) EmptyString [child; parent] [mkBlock (Some 3) (Some (Spooled 3))] [].

Lemma plan_is_dependency_closed_witness :
  (child ∈ [child; parent] <-> staged staged_area (cand_Root child) = Some child /\ needs staged_area (cid_String 9) (cand_Root child)) /\
  NoDup (cand_Root <$> [child; parent]).
Proof.
  destruct (plan_is_dependency_closed staged_area (pl_Base staged_plan) (pl_Root staged_plan) staged_plan) as (H1 & _ & H2 & _).
  - repeat constructor.
  - evaluate.
  - split; [apply (H1 child)|exact H2].
Defined.

(** ** Replays *)
Lemma outcome_of {A B W} (r : (A * option B) * W) : r.1.2 = None -> r = ((r.1.1, None), r.2).
Proof. by destruct r as [[a b] w]; cbn; intros ->. Qed.

Definition alias : string := "docs".
Definition trusted : trust_file :=
  foldl TrustThms.apply None [TrustThms.Event io_ok 1 (TrustThms.CallTrust alias (cid_String 1) "p" "g" "user")].

Definition scene_env (others : nat -> list TrustThms.event) : wb_env (R := nat) :=
  mkWbEnv good demo_service alias "mount" (fun _ => io_ok) (fun t => Z.of_nat t + 9)%Z others None
    (fun _ _ n => (Ok demo_plan, n)) honest true (fun l => l).
Definition alone : wb_env := scene_env (fun _ => []).
(** Another process promotes the candidate as soon as it is recorded. *)
Definition promotion : TrustThms.event :=
  TrustThms.Event io_ok 20 (TrustThms.CallAcceptCandidate alias (cid_String 9) "user").
Definition crowded : wb_env := scene_env (fun t => if t =? 2 then [promotion] else []).

Definition before : wb_world := mkWb trusted later 0 [] 0.

#[local] Notation replayed := (Replay (C := digest_lib) alone demo_view before).
Lemma replayed_is : replayed = ((replayed.1.1, None), replayed.2).
Proof. apply outcome_of. evaluate. Qed.

Lemma same_order (l : list (UploadPayload (L := TallyCid.lib))) : (fun l => l) l ≡ₚ l.
Proof. done. Qed.

Lemma same_ok {A} (a b : A) : Ok a = Ok b -> b = a.
Proof. by intros [= <-]. Qed.
Lemma prepared_batch : prepared.1 = Ok batch.
Proof. evaluate. Qed.

Lemma replay_success_is_durable_witness :
  exists root js', re_CandidateRoot replayed.1.1 = Some root /\ re_RemotePersisted replayed.1.1 = true /\
    Durable.view (w_journal (wb_staging replayed.2)) = Some js' /\
    (forall p, p ∈ ub_Pending batch -> exists op', Operations js' !! op_id p = Some op' /\ op_Status op' = StatusCompleted /\
       ResultRoot op' = cid_String root) /\
    accepted_at_end alone demo_view replayed.2.
Proof.
  destruct (replay_success_is_durable (C := digest_lib) alone demo_view before replayed.1.1 replayed.2 same_order replayed_is)
    as (b & base & plan & root & js' & Hb & _ & Hpl & _ & _ & Ha & Hv & Hops & H).
  assert (re_NoAuthenticatedChange replayed.1.1 = false) as Hn by evaluate. rewrite Hn in H. destruct H as (_ & Hc & Hp & _).
  assert (b = batch) as ->.
  { apply (same_ok _ _ (eq_trans (eq_sym prepared_batch) Hb)). }
  exists root, js'. split; [exact Hc|]. split; [exact Hp|]. split; [exact Hv|]. split; [|exact Ha].
  intros p Hpend. destruct (Hops p Hpend) as (op' & H1 & _ & H2 & H3). exists op'. split; [exact H1|]. split; [exact H2|exact H3].
Defined.

Definition first_id : string := match ub_Pending batch with p :: _ => op_id p | [] => EmptyString end.
Definition first_op (w : wb_world (R := nat)) : Operation := default no_operation (Operations (js_of (wb_staging w)) !! first_id).

Lemma some_default {A} (d : A) (o : option A) : bool_decide (is_Some o) = true -> o = Some (default d o).
Proof. by intros [a ->]%bool_decide_eq_true. Qed.

Lemma completion_needs_evidence_witness :
  justified (C := digest_lib) alone demo_view replayed.1.1 before replayed.2.
Proof.
  apply (completion_needs_evidence (C := digest_lib) alone demo_view before replayed.1.1 None replayed.2
    (js_of later) (js_of (wb_staging replayed.2)) first_id (first_op replayed.2)).
  - exact replayed_is.
  - exact later_loads.
  - apply js_view. evaluate.
  - apply some_default. evaluate.
  - evaluate.
  - intros op Ho. assert (op_Status <$> Operations (js_of later) !! first_id = Some StatusPendingUpload) as H by evaluate.
    rewrite Ho in H. injection H as ->. discriminate.
Defined.

#[local] Notation raced := (Replay (C := digest_lib) crowded demo_view before).
Definition accepted_state (f : trust_file) : state := default Trust.emptyState (Durable.view f).

Lemma writeback_never_accepts_witness :
  exists t e, e ∈ we_others crowded t /\ promotes (TrustThms.ev_call e) alias (cid_String 9).
Proof.
  apply (writeback_never_accepts (C := digest_lib) crowded demo_view before raced.1 raced.2
    (accepted_state trusted) (accepted_state (wb_trust raced.2))).
  - apply surjective_pairing.
  - intros t. cbn. lia.
  - intros t. cbn. destruct (t =? 2); repeat constructor. discriminate.
  - evaluate.
  - apply some_default. evaluate.
  - evaluate.
  - vm_compute. discriminate.
Defined.

(** ** A mounted filesystem *)
Definition mounted : binding := mkBind demo_view (Some demo_service) true false false true.
Definition session : list file_op :=
  [OpMkdir "docs/y"; OpCreate "docs/y/g"; OpWriteAt "docs/y/g" 0 abc; OpSync; OpRename "docs/y" "z"; OpUnlink "a"].
Definition fresh : wb_world := mkWb trusted start 0 [] 0.

Lemma mounted_filesystem_stays_sound_witness :
  treelike demo_view (wb_staging (foldl (perform (C := digest_lib) alone mounted) fresh session)) /\
  backed (C := digest_lib) (wb_staging (foldl (perform (C := digest_lib) alone mounted) fresh session)).
Proof.
  apply (mounted_filesystem_stays_sound (C := digest_lib) alone mounted demo_view session fresh).
  - apply demo_ticking.
  - reflexivity.
  - evaluate.
  - intros js ->%start_journal. reflexivity.
  - intros js ->%start_journal. change (is_tree (base_tree demo_view)). apply base_is_tree.
  - intros js id op ->%start_journal H. discriminate H.
Defined.

#[local] Notation synced := (b_Sync (C := digest_lib) alone mounted before).
Lemma synced_is : synced = ((synced.1.1, None), synced.2).
Proof. apply outcome_of. evaluate. Qed.

Lemma sync_reports_are_backed_witness :
  sy_LocalDurable synced.1.1 = true /\ sy_RootAccepted synced.1.1 = false /\
  exists root, sy_CandidateRoot synced.1.1 = cid_String root /\ validCandidateRoot (Some 1) (Some root) = true.
Proof.
  destruct (sync_reports_are_backed (C := digest_lib) alone mounted before synced.1.1 synced.2 same_order synced_is ltac:(evaluate))
    as (H1 & H2 & sv & w1 & res & b & base & plan & root & js' & _ & _ & _ & _ & Hb & Hc & Hv & _).
  split; [exact H1|]. split; [exact H2|]. exists root. split; [exact Hc|].
  cbn in Hb. injection Hb as <-. exact Hv.
Defined.
End Scene.
