(* ===== verification/PlainTree.v ===== *)
(** Plaintext trees of a backup and their scans (application/backup/merge.go,
    fingerprint.go, path_helpers.go).

    A tree is what the host filesystem holds below a path; the scans turn it
    into the map from relative paths to nodes that merging, comparison and the
    content fingerprint work on. *)

From stdpp Require Import base decidable gmap strings list.
From Stdlib Require Import Ascii ZArith.
From S2P Require Import Prelude GoText Cache Staging.

(** What [Lstat] reports: the mode bits, the size and the modification time. *)
Record attr := mkAttr { at_mode : N; at_size : N; at_mtime : N }.

(** Directories, regular files, symbolic links, and everything else. *)
Inductive ftree :=
  | FDir (a : attr) (entries : list (string * ftree))
  | FFile (a : attr) (data : body)
  | FLink (a : attr) (target : string)
  | FOther (a : attr).

Definition attr_of (t : ftree) : attr :=
  match t with FDir a _ | FFile a _ | FLink a _ | FOther a => a end.
Definition is_dir (t : ftree) : bool := match t with FDir _ _ => true | _ => false end.

(** [mode.Perm()]. *)
Definition Perm (mode : N) : N := N.land mode 511.

(** [hex.EncodeToString] of [sha256.Sum256]. *)
Class Sha256 := { sha256_hex : list ascii -> string }.

Record treeNode := mkNode { Kind : string; Mode : N; Digest : string; Link : string; Source : body }.
#[global] Instance treeNode_eq_dec : EqDecision treeNode.
Proof. solve_decision. Defined.

Definition kind_dir : string := "dir".
Definition kind_file : string := "file".
Definition kind_symlink : string := "symlink".

(** [filepath.Join(relative, name)] for a relative path and an entry name. *)
Definition under (relative name : string) : string :=
  if bool_decide (relative = EmptyString) then name else relative +:+ "/" +:+ name.

Section Scan.
Context {SH : Sha256}.

(** The walk below a node.  [Source] stands for what opening the recorded
    path reads; the scan of an [os.Root] does not record it. *)
Fixpoint scan_node (keep : bool) (relative : string) (t : ftree) : result (gmap string treeNode) :=
  match t with
  | FDir a entries =>
      below ← (fix go (entries : list (string * ftree)) : result (gmap string treeNode) :=
                 match entries with
                 | [] => Ok ∅
                 | (name, t) :: rest =>
                     here ← scan_node keep (under relative name) t;
                     others ← go rest;
                     Ok (here ∪ others)
                 end) entries;
      Ok (<[relative := mkNode kind_dir (at_mode a) EmptyString EmptyString []]> below)
  | FFile a data => Ok {[relative := mkNode kind_file (at_mode a) (sha256_hex data) EmptyString (if keep then data else [])]}
  | FLink a target => Ok {[relative := mkNode kind_symlink (at_mode a) EmptyString target []]}
  | FOther _ => Err (Errorf "unsupported filesystem object")
  end.

Fixpoint scan_entries (keep : bool) (relative : string) (entries : list (string * ftree)) : result (gmap string treeNode) :=
  match entries with
  | [] => Ok ∅
  | (name, t) :: rest =>
      here ← scan_node keep (under relative name) t;
      others ← scan_entries keep relative rest;
      Ok (here ∪ others)
  end.

Definition scanPlaintextRoot (t : ftree) : result (gmap string treeNode) :=
  match t with
  | FDir _ entries => scan_entries false EmptyString entries
  | _ => Err (Errorf "not a directory")
  end.

(** A missing snapshot is an empty one. *)
Definition scanPlaintextTree (o : option ftree) : result (gmap string treeNode) :=
  match o with
  | None => Ok ∅
  | Some (FDir _ entries) => scan_entries true EmptyString entries
  | Some _ => Err (Errorf "merge snapshot root is not a safe directory")
  end.

Definition sameTreeNode (left right : option treeNode) : bool :=
  match left, right with
  | Some l, Some r =>
      bool_decide (Kind l = Kind r) && bool_decide (Perm (Mode l) = Perm (Mode r)) &&
      bool_decide (Digest l = Digest r) && bool_decide (Link l = Link r)
  | None, None => true
  | _, _ => false
  end.

Definition samePlaintextTree (left right : option ftree) : result bool :=
  leftNodes ← scanPlaintextTree left;
  rightNodes ← scanPlaintextTree right;
  if negb (size leftNodes =? size rightNodes) then Ok false else
  Ok (forallb (fun e => sameTreeNode (Some e.2) (rightNodes !! e.1)) (map_to_list leftNodes)).

(** ** Content fingerprint *)
Definition writeMergeField (value : string) : list ascii := writeUploadString value.

(** [binary.BigEndian.PutUint32]. *)
Definition put_uint32 (v : N) : list ascii :=
  [byte_at v 24; byte_at v 16; byte_at v 8; byte_at v 0].

Definition node_bytes (e : string * treeNode) : list ascii :=
  writeMergeField e.1 ++ writeMergeField (Kind e.2) ++ put_uint32 (Perm (Mode e.2)) ++
  writeMergeField (Digest e.2) ++ writeMergeField (Link e.2).

Definition fingerprint_bytes (nodes : gmap string treeNode) : list ascii :=
  concat (node_bytes <$> sort_by_string fst (map_to_list nodes)).

Definition plaintextNodeFingerprint (nodes : gmap string treeNode) : string :=
  "sha256:" +:+ sha256_hex (fingerprint_bytes nodes).

Definition plaintextContentFingerprint (t : ftree) : result string :=
  nodes ← scanPlaintextRoot t; Ok (plaintextNodeFingerprint nodes).

(** ** Source fingerprint

    The local change detector also covers sizes and modification times.  The
    entries of a directory are visited in the order of their names. *)
Definition metadata_bytes (a : attr) : list ascii :=
  writeUploadUint64 (at_mode a) ++ writeUploadUint64 (at_size a) ++ writeUploadUint64 (at_mtime a).

Fixpoint insert_entry (e : string * list ascii) (l : list (string * list ascii)) : list (string * list ascii) :=
  match l with
  | [] => [e]
  | x :: l' => if String.leb e.1 x.1 then e :: l else x :: insert_entry e l'
  end.

Fixpoint walk_bytes (display : string) (t : ftree) : result (list ascii) :=
  let header := writeMergeField display ++ metadata_bytes (attr_of t) in
  match t with
  | FDir _ entries =>
      below ← (fix go (entries : list (string * ftree)) : result (list (string * list ascii)) :=
                 match entries with
                 | [] => Ok []
                 | (name, t) :: rest =>
                     here ← walk_bytes (under display name) t;
                     others ← go rest;
                     Ok (insert_entry (name, here) others)
                 end) entries;
      Ok (header ++ concat (snd <$> below))
  | FFile _ data => Ok (header ++ data)
  | FLink _ target => Ok (header ++ writeMergeField target)
  | FOther _ => Err (Errorf "unsupported filesystem object in backup")
  end.

Definition fingerprintPinnedSource (displayName : string) (root : ftree) : result string :=
  _ ← fail_if (bool_decide (displayName = EmptyString)) (Errorf "pinned source is incomplete");
  stream ← wrap_err "fingerprint backup source" (walk_bytes displayName root);
  Ok ("sha256:" +:+ sha256_hex stream).
End Scan.
