(* ===== verification/Merge.v ===== *)
(** The three-way merge of plaintext snapshots (application/backup/merge.go).

    The destination is the map of what was created below it.  The umask, the
    order in which the runtime visits a map and the outcome of every system
    call are arguments. *)

From stdpp Require Import base decidable gmap strings list sorting.
From Stdlib Require Import Ascii ZArith.
From S2P Require Import Prelude Effect GoText Cache PlainTree.

(** The choice for one path: [None] is a conflict, [Some None] no node. *)
Definition choose (baseNode localNode remoteNode : option treeNode) : option (option treeNode) :=
  if sameTreeNode localNode remoteNode then Some localNode
  else if sameTreeNode localNode baseNode then Some remoteNode
  else if sameTreeNode remoteNode baseNode then Some localNode
  else None.

Section Maps.
Context (base local remote : gmap string treeNode).

Definition merge_paths : gset string := dom base ∪ dom local ∪ dom remote.
Definition choice (path : string) : option (option treeNode) := choose (base !! path) (local !! path) (remote !! path).

Definition merge_conflicts : list string :=
  sort_by_string id (filter (fun p => choice p = None) (elements merge_paths)).

(** The selected nodes, without the paths at which there is none. *)
Definition selected : gmap string treeNode :=
  list_to_map (omap (fun p => match choice p with Some (Some n) => Some (p, n) | _ => None end) (elements merge_paths)).
End Maps.

(** The strict ancestors of a relative path: [filepath.Dir] until ["."]. *)
Fixpoint prefixes (acc : string) (segments : list string) : list string :=
  match segments with
  | [] | [_] => []
  | s :: rest => let p := under acc s in p :: prefixes p rest
  end.
Definition ancestors (path : string) : list string := prefixes EmptyString (Split path slash).

Definition orphan (nodes : gmap string treeNode) (path : string) : bool :=
  existsb (fun parent => match nodes !! parent with
                         | Some n => negb (bool_decide (Kind n = kind_dir))
                         | None => true
                         end) (ancestors path).

(** [strings.Count(path, "/")]. *)
Definition depth (path : string) : nat := length (filter (fun a => a = slash) (bytes path)).

Definition path_le (p q : string) : Prop :=
  depth p < depth q \/ depth p = depth q /\ String.leb p q = true.
#[global] Instance path_le_dec p q : Decision (path_le p q).
Proof. unfold path_le. apply _. Defined.

(** ** Writing the result *)
Section Write.
(** The umask, and what the [t]-th system call answers. *)
Context (umask : N) (fault : nat -> option error).

Record destination := mkDest { ds_nodes : gmap string treeNode; ds_tick : nat }.

Definition sys : Act destination unit := fun d =>
  (match fault (ds_tick d) with Some e => Err e | None => Ok () end, mkDest (ds_nodes d) (S (ds_tick d))).

(** The permission bits of a file created with [mode]. *)
Definition masked (mode : N) : N := N.ldiff (Perm mode) umask.
Definition created (n : treeNode) : treeNode :=
  if bool_decide (Kind n = kind_symlink) then n else mkNode (Kind n) (masked (Mode n)) (Digest n) (Link n) (Source n).

Definition parent_is_dir (d : destination) (path : string) : bool :=
  negb (orphan (ds_nodes d) path).

(** A failed create leaves nothing; a copy can fail after its file was made. *)
Definition create (path : string) (n : treeNode) : Act destination unit :=
  _ ← sys;
  _ ← reads (fun d => fail_if (negb (parent_is_dir d path)) (Errorf "no such file or directory"));
  _ ← reads (fun d => fail_if (bool_decide (is_Some (ds_nodes d !! path))) (Errorf "file exists"));
  modify (fun d => mkDest (<[path := created n]> (ds_nodes d)) (ds_tick d)).

(** [os.Mkdir] with an existing path accepted. *)
Definition make_dir (path : string) (n : treeNode) : Act destination unit :=
  exists_ ← reads (fun d => Ok (bool_decide (is_Some (ds_nodes d !! path))));
  if (exists_ : bool) then sys else create path n.

(** [copyMergeFile]: create exclusively, then copy, synchronise and close. *)
Definition copyMergeFile (path : string) (n : treeNode) : Act destination unit :=
  _ ← create path n; sys.

Definition write_node (ctx : nat -> option error) (e : string * treeNode) : Act destination unit :=
  _ ← reads (fun d => match ctx (ds_tick d) with Some err => Err err | None => Ok () end);
  if bool_decide (Kind e.2 = kind_dir) then make_dir e.1 e.2
  else if bool_decide (Kind e.2 = kind_file) then copyMergeFile e.1 e.2
  else if bool_decide (Kind e.2 = kind_symlink) then create e.1 e.2
  else pure (Err (Errorf "unsupported merge node kind")).

(** The order of creation: by depth, then by name. *)
Definition ordered (nodes : gmap string treeNode) : list (string * treeNode) :=
  merge_sort (fun a b => path_le a.1 b.1) (map_to_list nodes).

(** The paths that conflict, empty when the destination was written.  [visit]
    is the order in which the selected map is visited. *)
Definition mergeMaps (ctx : nat -> option error) (visit : list string -> list string)
    (base local remote : gmap string treeNode) : Act destination (list string) :=
  match merge_conflicts base local remote with
  | [] =>
      let nodes := selected base local remote in
      match filter (fun p => orphan nodes p = true) (visit (fst <$> map_to_list nodes)) with
      | p :: _ => mret [p]
      | [] =>
          _ ← sys;
          _ ← each (write_node ctx) (ordered nodes);
          mret []
      end
  | conflicts => mret conflicts
  end.

Context {SH : Sha256}.

Definition mergePlaintextTrees (ctx : nat -> option error) (visit : list string -> list string)
    (base local remote : option ftree) : Act destination (list string) :=
  baseNodes ← pure (wrap_err "scan merge base" (scanPlaintextTree base));
  localNodes ← pure (wrap_err "scan local candidate" (scanPlaintextTree local));
  remoteNodes ← pure (wrap_err "scan remote candidate" (scanPlaintextTree remote));
  mergeMaps ctx visit baseNodes localNodes remoteNodes.

Definition copyPlaintextTree (ctx : nat -> option error) (visit : list string -> list string)
    (source : option ftree) : Act destination unit :=
  conflicts ← mergePlaintextTrees ctx visit source source source;
  pure (fail_if (negb (bool_decide (conflicts = []))) (Errorf "copying a stable plaintext tree unexpectedly conflicted")).
End Write.
