(* ===== verification/MergeThms.v ===== *)
(** What the three-way merge does: which paths conflict, what the destination
    holds afterwards, and that a copy never conflicts. *)

From stdpp Require Import base decidable gmap strings list sorting.
From Stdlib Require Import Ascii ZArith.
From S2P Require Import Prelude Effect GoText Branch Cache Paths PlainTree Merge Staging StagingBatches.

(** ** The choice at one path *)
Lemma same_refl n : sameTreeNode n n = true.
Proof. destruct n as [n|]; cbn; [|done]. by rewrite !bool_decide_eq_true_2. Qed.

Lemma same_sym n m : sameTreeNode n m = sameTreeNode m n.
Proof.
  destruct n as [n|], m as [m|]; cbn; try done. f_equal; [f_equal; [f_equal|]|]; apply bool_decide_ext; by split; intros ->.
Qed.

Lemma same_trans n m k : sameTreeNode n m = true -> sameTreeNode m k = true -> sameTreeNode n k = true.
Proof.
  destruct n as [n|], m as [m|], k as [k|]; cbn; try done. intros H1 H2. simplify_guards. rewrite !bool_decide_eq_true_2 by congruence. done.
Qed.

(** Both sides changed the path, differently. *)
Definition clash (b l r : option treeNode) : Prop :=
  sameTreeNode l b = false /\ sameTreeNode r b = false /\ sameTreeNode l r = false.

Lemma choose_None b l r : choose b l r = None <-> clash b l r.
Proof. unfold choose, clash. destruct (sameTreeNode l r), (sameTreeNode l b), (sameTreeNode r b); naive_solver. Qed.

Lemma choose_swap b l r :
  match choose b l r, choose b r l with
  | Some n, Some m => sameTreeNode n m = true
  | None, None => True
  | _, _ => False
  end.
Proof.
  unfold choose. rewrite (same_sym r l). destruct (sameTreeNode l r) eqn:E; [done|].
  destruct (sameTreeNode l b) eqn:E1, (sameTreeNode r b) eqn:E2; try apply same_refl; try done.
  rewrite (same_sym r b) in E2. by rewrite (same_trans _ _ _ E1 E2) in E.
Qed.

Section Selected.
Context (base local remote : gmap string treeNode).

Lemma choice_outside p : p ∉ merge_paths base local remote -> choice base local remote p = Some None.
Proof.
  unfold merge_paths, choice. intros H. assert (base !! p = None) as -> by (apply not_elem_of_dom; set_solver).
  assert (local !! p = None) as -> by (apply not_elem_of_dom; set_solver).
  by assert (remote !! p = None) as -> by (apply not_elem_of_dom; set_solver).
Qed.

Lemma selected_lookup p : selected base local remote !! p = mjoin (choice base local remote p).
Proof.
  unfold selected. set (f := fun p => match choice base local remote p with Some (Some n) => Some (p, n) | _ => None end).
  assert (forall l, NoDup l -> NoDup (omap f l).*1) as Hnd.
  { intros l. induction 1 as [|q l Hq _ IH]; cbn; [constructor|]. unfold f at 1. destruct (choice base local remote q) as [[n|]|]; cbn; try done.
    constructor; [|done]. intros ((q' & m) & Eq & Hin)%list_elem_of_fmap. cbn in Eq. subst q'. apply list_elem_of_omap in Hin as (q' & Hq' & E).
    unfold f in E. destruct (choice base local remote q') as [[?|]|]; simplify_eq. done. }
  apply option_eq. intros n. rewrite <- elem_of_list_to_map by apply Hnd, NoDup_elements. rewrite list_elem_of_omap. split.
  - intros (q & _ & E). unfold f in E. destruct (choice base local remote q) as [[m|]|] eqn:Ec; simplify_eq. by rewrite Ec.
  - intros E. destruct (choice base local remote p) as [[m|]|] eqn:Ec; simplify_eq/=. exists p. unfold f. rewrite Ec. split; [|done].
    apply elem_of_elements. destruct (decide (p ∈ merge_paths base local remote)) as [|Hn]; [done|]. by rewrite (choice_outside _ Hn) in Ec.
Qed.

Lemma elem_of_conflicts p :
  p ∈ merge_conflicts base local remote <-> clash (base !! p) (local !! p) (remote !! p).
Proof.
  unfold merge_conflicts, sort_by_string. rewrite elem_of_sort_by, list_elem_of_filter, elem_of_elements. unfold choice. rewrite choose_None. split; [naive_solver|].
  intros H. split; [done|]. destruct (decide (p ∈ merge_paths base local remote)) as [|Hn]; [done|].
  apply choice_outside in Hn. unfold choice in Hn. apply choose_None in H. congruence.
Qed.
End Selected.

(** Nothing conflicts exactly when every path has a choice. *)
Lemma no_conflicts base local remote :
  merge_conflicts base local remote = [] <-> forall p, exists o, choice base local remote p = Some o.
Proof.
  split.
  - intros H p. destruct (choice base local remote p) as [o|] eqn:E; [eauto|]. apply choose_None, elem_of_conflicts in E. rewrite H in E. set_solver.
  - intros H. destruct (merge_conflicts base local remote) as [|p l] eqn:E; [done|].
    assert (p ∈ merge_conflicts base local remote) as Hp by (rewrite E; by left). apply elem_of_conflicts, choose_None in Hp.
    destruct (H p) as [o Ho]. unfold choice in Ho. congruence.
Qed.

(** ** Ancestors *)
Lemma depth_app a b : depth (a +:+ b) = depth a + depth b.
Proof. unfold depth. by rewrite bytes_app, filter_app, length_app. Qed.

Lemma depth_slash : depth "/" = 1.
Proof. reflexivity. Qed.

Lemma depth_no_slash s : no_slash s = true -> depth s = 0.
Proof.
  unfold no_slash, ContainsByte, depth. intros H. apply negb_true_iff in H. induction (bytes s) as [|a l IH]; [done|]. cbn in H.
  apply orb_false_iff in H as [Ha Hl]. rewrite filter_cons_False; [by apply IH|]. intros ->. done.
Qed.

Lemma length_Split s : length (Split s slash) = S (depth s).
Proof.
  induction s as [|a s IH]; [done|]. rewrite Split_cons. unfold depth. change (bytes (String a s)) with (a :: bytes s).
  destruct (ascii_dec a slash) as [->|Hn].
  - rewrite filter_cons_True by done. cbn. by rewrite IH.
  - rewrite filter_cons_False by done. pose proof (Split_nonempty s slash). destruct (Split s slash); [done|]. exact IH.
Qed.

Definition start (acc : string) : nat := if bool_decide (acc = EmptyString) then 0 else S (depth acc).

Lemma prefixes_depth acc segments a :
  Forall (fun s => depth s = 0) segments -> a ∈ prefixes acc segments -> depth a + 2 <= start acc + length segments.
Proof.
  revert acc. induction segments as [|s segments IH]; intros acc Hs Ha; cbn in Ha; [set_solver|].
  apply Forall_cons in Hs as [Hs Hf]. destruct segments as [|s' rest]; [set_solver|].
  assert (depth (under acc s) = start acc) as Hd.
  { unfold under, start. case_bool_decide; [done|]. rewrite !depth_app, Hs, depth_slash. lia. }
  apply elem_of_cons in Ha as [->|Ha]; [rewrite Hd; cbn; lia|]. specialize (IH _ Hf Ha).
  assert (start (under acc s) <= S (start acc)) by (rewrite <- Hd; unfold start; case_bool_decide; lia). cbn in *. lia.
Qed.

Lemma ancestors_shallower path a : a ∈ ancestors path -> depth a < depth path.
Proof.
  intros H%prefixes_depth.
  - rewrite length_Split in H. change (start EmptyString) with 0 in H. lia.
  - apply Forall_forall. intros s Hs. by apply depth_no_slash, (Split_elem path).
Qed.

(** ** Writing *)
Section Write.
Context (umask : N) (fault : nat -> option error) (ctx : nat -> option error).

Lemma create_Ok path n d d' : create umask fault path n d = (Ok (), d') -> ds_nodes d' = <[path := created umask n]> (ds_nodes d).
Proof. unfold create. intros H. simplify_act. unfold sys in *. simplify_eq. done. Qed.

Lemma write_node_Ok e d d' : ds_nodes d !! e.1 = None -> write_node umask fault ctx e d = (Ok (), d') ->
  ds_nodes d' = <[e.1 := created umask e.2]> (ds_nodes d).
Proof.
  intros Hn. unfold write_node. intros H. apply act_bind_Ok in H as (u & s & Hu & H). apply reads_Ok in Hu as [_ ->].
  case_bool_decide; [|case_bool_decide; [|case_bool_decide; [|done]]].
  - unfold make_dir in H. apply act_bind_Ok in H as (b & s & Hb & H). apply reads_Ok in Hb as [Hb ->]. injection Hb as <-.
    rewrite Hn, bool_decide_eq_false_2 in H by (by intros [? ?]). by apply create_Ok in H.
  - unfold copyMergeFile in H. apply act_bind_Ok in H as ([] & s & Hb%create_Ok & H). unfold sys in H. simplify_eq. done.
  - by apply create_Ok in H.
Qed.

Lemma write_all_Ok l d r d' : NoDup l.*1 -> (forall e, e ∈ l -> ds_nodes d !! e.1 = None) -> each (write_node umask fault ctx) l d = (Ok r, d') ->
  ds_nodes d' = list_to_map (prod_map id (created umask) <$> l) ∪ ds_nodes d.
Proof.
  revert d r. induction l as [|e l IH]; intros d r Hnd Hfresh H; cbn in H.
  { simplify_act. cbn. by rewrite map_empty_union. }
  apply act_bind_Ok in H as ([] & d1 & He & H). apply act_bind_Ok in H as (r1 & d2 & Hl & H). simplify_act.
  apply NoDup_cons in Hnd as [Hn Hnd]. apply write_node_Ok in He; [|apply Hfresh; by left].
  apply IH in Hl; [|done|].
  - rewrite Hl, He. cbn. destruct e as [p n]. cbn. rewrite <- insert_union_r; [by rewrite insert_union_l|].
    apply not_elem_of_list_to_map_1. rewrite <- list_fmap_compose. intros ([q m] & Eq & Hin)%list_elem_of_fmap. cbn in Eq. subst q.
    apply Hn. by apply (list_elem_of_fmap_2 fst) in Hin.
  - intros e' He'. rewrite He, lookup_insert_ne; [apply Hfresh; by right|]. intros E. apply Hn. rewrite E. by apply list_elem_of_fmap_2.
Qed.

Lemma ordered_perm nodes : ordered nodes ≡ₚ map_to_list nodes.
Proof. apply merge_sort_Permutation. Qed.

Lemma created_map (nodes : gmap string treeNode) l : l ≡ₚ map_to_list nodes -> list_to_map (prod_map id (created umask) <$> l) = created umask <$> nodes.
Proof.
  intros Hp. assert (NoDup l.*1) as Hnd by (rewrite Hp; apply NoDup_fst_map_to_list). apply map_eq. intros p. apply option_eq. intros n.
  rewrite <- elem_of_list_to_map.
  - rewrite list_elem_of_fmap, lookup_fmap, fmap_Some. split.
    + intros ([q m] & [= -> ->] & Hin). exists m. split; [|done]. apply elem_of_map_to_list. by rewrite <- Hp.
    + intros (m & Hm & ->). exists (p, m). split; [done|]. rewrite Hp. by apply elem_of_map_to_list.
  - rewrite <- list_fmap_compose. erewrite list_fmap_ext; [exact Hnd|]. by intros i [q m].
Qed.

(** ** Without failures every node is created *)
#[local] Instance path_le_total : Total (fun a b : string * treeNode => path_le a.1 b.1).
Proof.
  intros [p n] [q m]. unfold path_le. cbn. destruct (Nat.lt_trichotomy (depth p) (depth q)) as [|[E|]]; [by left; left| |by right; left].
  destruct (String.leb_total p q); [left|right]; right; auto.
Qed.
#[local] Instance path_le_trans : Transitive (fun a b : string * treeNode => path_le a.1 b.1).
Proof.
  intros [p n] [q m] [r k]. unfold path_le. cbn. intros [?|[? ?]] [?|[? ?]]; try (left; lia). right. split; [lia|]. by eapply string_leb_trans.
Qed.

Lemma ordered_sorted nodes : StronglySorted (fun a b => path_le a.1 b.1) (ordered nodes).
Proof. apply Sorted_StronglySorted; [apply _|]. apply Sorted_merge_sort. apply _. Qed.

(** What comes before a node contains everything that is shallower. *)
Lemma ordered_before nodes before e after e' :
  ordered nodes = before ++ e :: after -> e' ∈ ordered nodes -> depth e'.1 < depth e.1 -> e' ∈ before.
Proof.
  intros E Hin Hd. pose proof (ordered_sorted nodes) as Hs. rewrite E in Hin, Hs. apply elem_of_app in Hin as [|[->|Hin]%elem_of_cons]; [done|lia|].
  apply StronglySorted_app in Hs as (_ & _ & Hs). apply StronglySorted_inv in Hs as [_ Hs]. rewrite Forall_forall in Hs.
  specialize (Hs _ Hin). unfold path_le in Hs. lia.
Qed.

Definition known (n : treeNode) : Prop := Kind n ∈ [kind_dir; kind_file; kind_symlink].

Lemma created_Kind n : Kind (created umask n) = Kind n.
Proof. unfold created. by case_bool_decide. Qed.

Context (Hf : forall t, fault t = None) (Hc : forall t, ctx t = None).

Lemma sys_runs d : sys fault d = (Ok (), mkDest (ds_nodes d) (S (ds_tick d))).
Proof. unfold sys. by rewrite Hf. Qed.

Lemma create_runs path n d : orphan (ds_nodes d) path = false -> ds_nodes d !! path = None ->
  exists d', create umask fault path n d = (Ok (), d').
Proof.
  intros Ho Hn. unfold create. rewrite (act_bind_run _ _ _ _ _ (sys_runs d)). unfold mbind, Act_bind, reads, parent_is_dir. cbn [ds_nodes].
  rewrite Ho, Hn. cbn. by eexists.
Qed.

Lemma write_node_runs e d : known e.2 -> orphan (ds_nodes d) e.1 = false -> ds_nodes d !! e.1 = None ->
  exists d', write_node umask fault ctx e d = (Ok (), d').
Proof.
  intros Hk Ho Hn. destruct (create_runs e.1 e.2 d Ho Hn) as (d1 & H1).
  assert (reads (fun d => match ctx (ds_tick d) with Some err => Err err | None => Ok () end) d = (Ok (), d)) as Hr by (unfold reads; by rewrite Hc).
  unfold write_node. rewrite (act_bind_run _ _ _ _ _ Hr).
  case_bool_decide; [|case_bool_decide; [|case_bool_decide]].
  - unfold make_dir, mbind, Act_bind, reads. rewrite Hn, bool_decide_eq_false_2 by (by intros [? ?]). eauto.
  - unfold copyMergeFile. rewrite (act_bind_run _ _ _ _ _ H1), sys_runs. eauto.
  - eauto.
  - exfalso. unfold known in Hk. set_solver.
Qed.

Lemma orphan_false nodes path :
  orphan nodes path = false <-> forall a, a ∈ ancestors path -> exists n, nodes !! a = Some n /\ Kind n = kind_dir.
Proof.
  unfold orphan. rewrite <- not_true_iff_false, existsb_exists. split.
  - intros H a Ha. destruct (nodes !! a) as [n|] eqn:E.
    + exists n. split; [done|]. apply dec_stable. intros Hk. destruct H. exists a. rewrite E, bool_decide_eq_false_2 by done. split; [by apply list_elem_of_In|done].
    + destruct H. exists a. rewrite E. split; [by apply list_elem_of_In|done].
  - intros H (a & Ha%list_elem_of_In & Hx). destruct (H a Ha) as (n & E & Hk). by rewrite E, bool_decide_eq_true_2 in Hx.
Qed.

Lemma write_all_runs nodes before after d :
  map_Forall (fun _ n => known n) nodes -> map_Forall (fun p _ => orphan nodes p = false) nodes ->
  ordered nodes = before ++ after -> ds_nodes d = list_to_map (prod_map id (created umask) <$> before) ->
  exists r d', each (write_node umask fault ctx) after d = (Ok r, d').
Proof.
  intros Hk Ho. revert before d. induction after as [|e after IH]; intros before d E Hd; [by eexists _, _|].
  assert (NoDup (ordered nodes).*1) as Hnd by (rewrite ordered_perm; apply NoDup_fst_map_to_list).
  assert (e ∈ ordered nodes) as He by (rewrite E; set_solver). rewrite ordered_perm in He.
  assert (nodes !! e.1 = Some e.2) as Hl by (apply elem_of_map_to_list; by destruct e).
  assert (ds_nodes d !! e.1 = None) as Hn.
  { rewrite Hd. apply not_elem_of_list_to_map_1. rewrite <- list_fmap_compose. intros ([q m] & Eq & Hin)%list_elem_of_fmap. cbn in Eq.
    rewrite E, fmap_app in Hnd. apply NoDup_app in Hnd as (_ & Hnd & _). apply (Hnd e.1); [|left]. rewrite Eq. by apply (list_elem_of_fmap_2 fst) in Hin. }
  destruct (write_node_runs e d (Hk _ _ Hl)) as (d1 & H1); [|done|].
  - apply orphan_false. intros a Ha. specialize (Ho _ _ Hl). cbn in Ho. rewrite orphan_false in Ho. destruct (Ho a Ha) as (n & Hn1 & Hn2).
    exists (created umask n). split; [|by rewrite created_Kind]. rewrite Hd. apply elem_of_list_to_map_1.
    + rewrite <- list_fmap_compose. erewrite list_fmap_ext; [|intros i [q m] _; reflexivity]. rewrite E, fmap_app in Hnd. by apply NoDup_app in Hnd as (? & _).
    + apply list_elem_of_fmap. exists (a, n). split; [done|]. eapply ordered_before; [exact E| |cbn; by apply ancestors_shallower].
      rewrite ordered_perm. by apply elem_of_map_to_list.
  - cbn [each]. rewrite (act_bind_run _ _ _ _ _ H1). destruct (IH (before ++ [e]) d1) as (r & d2 & H2).
    + by rewrite <- app_assoc.
    + apply write_node_Ok in H1; [|done]. rewrite H1, Hd, fmap_app. cbn. destruct e as [p n]. cbn. rewrite list_to_map_snoc; [done|].
      by rewrite Hd in Hn; apply not_elem_of_list_to_map_2 in Hn.
    + rewrite (act_bind_run _ _ _ _ _ H2). by eexists _, _.
Qed.
End Write.

(** * Scans of well-formed trees: the paths they contain, and what a content
    fingerprint determines. *)

(** Names as a directory has them: not empty, without a slash, distinct. *)
Fixpoint wf_tree (t : ftree) : Prop :=
  match t with
  | FDir _ entries =>
      NoDup (entries.*1) /\
      (fix go (entries : list (string * ftree)) : Prop :=
         match entries with [] => True | (name, t) :: rest => child_name name /\ wf_tree t /\ go rest end) entries
  | _ => True
  end.

Lemma wf_entries a entries : wf_tree (FDir a entries) <-> NoDup (entries.*1) /\ Forall (fun e => child_name e.1 /\ wf_tree e.2) entries.
Proof.
  cbn. f_equiv. induction entries as [|[name t] rest IH]; [by split|]. rewrite Forall_cons, IH. cbn. naive_solver.
Qed.

Fixpoint ftree_rect' (P : ftree -> Prop) (Hd : forall a entries, Forall (fun e => P e.2) entries -> P (FDir a entries))
    (Hf : forall a data, P (FFile a data)) (Hl : forall a target, P (FLink a target)) (Ho : forall a, P (FOther a)) (t : ftree) : P t :=
  match t with
  | FDir a entries => Hd a entries
      ((fix go (entries : list (string * ftree)) : Forall (fun e => P e.2) entries :=
          match entries with [] => Forall_nil_2 _ | e :: rest => Forall_cons_2 _ _ _ (ftree_rect' P Hd Hf Hl Ho e.2) (go rest) end) entries)
  | FFile a data => Hf a data
  | FLink a target => Hl a target
  | FOther a => Ho a
  end.

(** ** Paths as lists of names *)
Definition path_of (names : list string) : string := foldl under EmptyString names.

Lemma path_of_snoc names n : path_of (names ++ [n]) = under (path_of names) n.
Proof. unfold path_of. by rewrite foldl_app. Qed.

Lemma path_of_nonempty names : Forall child_name names -> names <> [] -> path_of names <> EmptyString.
Proof.
  destruct names as [|n names _] using rev_ind; [done|]. intros [_ H]%Forall_app _. rewrite path_of_snoc. apply Forall_singleton in H as [H _].
  unfold under. case_bool_decide as E; [done|]. intros Ex. destruct (path_of names); [by apply E|done].
Qed.

Lemma Split_path names : Forall child_name names -> names <> [] -> Split (path_of names) slash = names.
Proof.
  induction names as [|n names IH] using rev_ind; [done|]. intros [Hf Hn]%Forall_app _. rewrite path_of_snoc. apply Forall_singleton in Hn as [Hn Hs].
  destruct (decide (names = [])) as [->|Hne]; [by apply Split_no_slash|]. unfold under.
  rewrite bool_decide_eq_false_2 by by apply path_of_nonempty. by rewrite Split_app_slash, IH.
Qed.

Lemma path_of_inj a b : Forall child_name a -> Forall child_name b -> path_of a = path_of b -> a = b.
Proof.
  intros Ha Hb E. destruct (decide (a = [])) as [->|Na], (decide (b = [])) as [->|Nb]; [done| | |].
  - by destruct (path_of_nonempty b Hb Nb).
  - by destruct (path_of_nonempty a Ha Na).
  - by rewrite <- (Split_path a Ha Na), <- (Split_path b Hb Nb), E.
Qed.

Lemma prefixes_path names pre a : a ∈ prefixes (path_of pre) names ->
  exists q, q <> [] /\ q `prefix_of` names /\ length q < length names /\ a = path_of (pre ++ q).
Proof.
  revert pre. induction names as [|n names IH]; intros pre Ha; cbn in Ha; [set_solver|]. destruct names as [|n' rest]; [set_solver|].
  rewrite <- path_of_snoc in Ha. apply elem_of_cons in Ha as [->|Ha].
  - exists [n]. split_and!; [done|by exists (n' :: rest)|cbn; lia|done].
  - destruct (IH _ Ha) as (q & Hq & [k Ek] & Hl & ->). exists (n :: q). split_and!; [done|exists k; by rewrite Ek|cbn in *; lia|].
    by rewrite <- app_assoc.
Qed.

(** Every path of a map lies below [pre], and what lies above it is a directory. *)
Definition closed (pre : list string) (m : gmap string treeNode) : Prop :=
  map_Forall (fun p n => known n /\ exists q, q <> [] /\ Forall child_name q /\ p = path_of (pre ++ q) /\
    forall q', q' <> [] -> q' `prefix_of` q -> length q' < length q ->
      exists n', m !! path_of (pre ++ q') = Some n' /\ Kind n' = kind_dir) m.

(** The same for the map of one entry, whose own node is included. *)
Definition rooted (at_ : list string) (m : gmap string treeNode) : Prop :=
  map_Forall (fun p n => known n /\ exists q, Forall child_name q /\ p = path_of (at_ ++ q) /\
    forall q', q' `prefix_of` q -> length q' < length q ->
      exists n', m !! path_of (at_ ++ q') = Some n' /\ Kind n' = kind_dir) m.

Section Scans.
Context {SH : Sha256}.

Lemma scan_node_dir keep relative a entries :
  scan_node keep relative (FDir a entries) =
  (below ← scan_entries keep relative entries; Ok (<[relative := mkNode kind_dir (at_mode a) EmptyString EmptyString []]> below)).
Proof.
  cbn. f_equal. induction entries as [|[name t] rest IH]; [done|]. cbn. by rewrite IH.
Qed.

Lemma known_dir m : known (mkNode kind_dir m EmptyString EmptyString []).
Proof. unfold known. cbn. set_solver. Qed.

Lemma path_under pre n : under (path_of pre) n = path_of (pre ++ [n]).
Proof. by rewrite path_of_snoc. Qed.

(** A map below [pre ++ [name]] is a map below [pre]. *)
Lemma rooted_closed pre name m : child_name name -> rooted (pre ++ [name]) m -> closed pre m.
Proof.
  intros Hn H p n Hp. destruct (H p n Hp) as (Hk & q & Hq & -> & Hup). split; [done|]. exists (name :: q).
  split_and!; [done|by constructor|by rewrite <- app_assoc|]. intros q' Hne [k E] Hl. destruct q' as [|x q']; [done|]. injection E as <- Ek.
  specialize (Hup q'). rewrite <- !app_assoc in Hup. apply Hup; [by exists k|cbn in Hl; lia].
Qed.

Lemma closed_rooted pre m a : Forall child_name pre -> pre <> [] -> closed pre m ->
  rooted pre (<[path_of pre := mkNode kind_dir a EmptyString EmptyString []]> m).
Proof.
  intros Hf Hne H p n [[<- <-]|[Hp Hl]]%lookup_insert_Some.
  - split; [apply known_dir|]. exists []. split_and!; [constructor|by rewrite app_nil_r|]. intros q' _ Hlen. cbn in Hlen. lia.
  - destruct (H p n Hl) as (Hk & q & Hq & Hqf & -> & Hup). split; [done|]. exists q. split_and!; [done|done|]. intros q' Hpre Hlen.
    destruct (decide (q' = [])) as [->|Hq']; [rewrite app_nil_r, lookup_insert_eq; eauto|].
    destruct (Hup q' Hq' Hpre Hlen) as (n' & Hn' & Hkd). exists n'. split; [|done]. rewrite lookup_insert_ne; [done|].
    intros E. apply path_of_inj in E; [|done|].
    + apply (f_equal length) in E. rewrite length_app in E. destruct q'; [done|cbn in E; lia].
    + apply Forall_app. split; [done|]. destruct Hpre as [k ->]. by apply Forall_app in Hqf as [? _].
Qed.

(** Maps below different names have no path in common. *)
Lemma rooted_disjoint pre name m names : Forall child_name pre -> child_name name -> rooted (pre ++ [name]) m -> name ∉ names ->
  forall m', Forall child_name names ->
    map_Forall (fun p _ => exists name' q, name' ∈ names /\ Forall child_name q /\ p = path_of (pre ++ name' :: q)) m' -> m ##ₘ m'.
Proof.
  intros Hpre Hn Hr Hnot m' Hns H'. apply map_disjoint_spec. intros p n n' Hp Hp'. destruct (Hr _ _ Hp) as (_ & q & Hq & -> & _).
  destruct (H' _ _ Hp') as (name' & q' & Hin & Hq' & E). rewrite <- app_assoc in E. apply path_of_inj in E.
  - apply app_inv_head in E. injection E as -> _. done.
  - apply Forall_app. split; [done|]. by constructor.
  - apply Forall_app. split; [done|]. constructor; [|done]. rewrite Forall_forall in Hns. by apply Hns.
Qed.

Lemma closed_union pre m m' : m ##ₘ m' -> closed pre m -> closed pre m' -> closed pre (m ∪ m').
Proof.
  intros Hd H H' p n [Hp|Hp]%lookup_union_Some; [| |done].
  - destruct (H p n Hp) as (Hk & q & ? & ? & -> & Hup). split; [done|]. exists q. split_and!; [done..|]. intros q' ? ? ?.
    destruct (Hup q') as (n' & Hn' & ?); [done..|]. exists n'. split; [|done]. by apply lookup_union_Some_l.
  - destruct (H' p n Hp) as (Hk & q & ? & ? & -> & Hup). split; [done|]. exists q. split_and!; [done..|]. intros q' ? ? ?.
    destruct (Hup q') as (n' & Hn' & ?); [done..|]. exists n'. split; [|done]. by apply lookup_union_Some_r.
Qed.

Definition scans_rooted (keep : bool) (t : ftree) : Prop := forall at_ m, Forall child_name at_ -> at_ <> [] -> wf_tree t ->
  scan_node keep (path_of at_) t = Ok m -> rooted at_ m.

Lemma scan_entries_closed keep entries : Forall (fun e => scans_rooted keep e.2) entries -> forall pre m,
  Forall child_name pre -> NoDup (entries.*1) -> Forall (fun e => child_name e.1 /\ wf_tree e.2) entries ->
  scan_entries keep (path_of pre) entries = Ok m ->
  closed pre m /\ map_Forall (fun p _ => exists name q, name ∈ entries.*1 /\ Forall child_name q /\ p = path_of (pre ++ name :: q)) m.
Proof.
  induction 1 as [|[name t] rest Ht _ IH]; intros pre m Hpre Hnd Hwf H; cbn in H; [simplify_result; split; by apply map_Forall_empty|].
  cbn in Hnd. apply NoDup_cons in Hnd as [Hnot Hnd]. apply Forall_cons in Hwf as [[Hc Hw] Hwf]. cbn in Hc, Hw, Ht.
  simplify_result. match goal with H : scan_node _ _ _ = Ok ?x |- _ => rename x into here; rename H into Hh end.
  match goal with H : scan_entries _ _ _ = Ok ?x |- _ => rename x into others; rename H into Ho end.
  rewrite path_under in Hh. apply Ht in Hh; [|apply Forall_app; split; [done|by apply Forall_singleton]|by destruct pre|done].
  destruct (IH _ _ Hpre Hnd Hwf Ho) as [Hcl Hkeys].
  assert (Forall child_name rest.*1) as Hnames.
  { apply Forall_fmap. eapply Forall_impl; [exact Hwf|]. by intros e [? _]. }
  pose proof (rooted_disjoint pre name here rest.*1 Hpre Hc Hh Hnot others Hnames Hkeys) as Hd. split.
  - apply closed_union; [done|by eapply rooted_closed|done].
  - intros p n [Hp|Hp]%lookup_union_Some; [| |done].
    + destruct (Hh _ _ Hp) as (_ & q & Hq & -> & _). exists name, q. split_and!; [by left|done|by rewrite <- app_assoc].
    + destruct (Hkeys _ _ Hp) as (n' & q & ? & ? & ?). exists n', q. split_and!; [by right|done|done].
Qed.

Lemma scan_node_rooted keep t : scans_rooted keep t.
Proof.
  induction t as [a entries IH|a data|a target|a] using ftree_rect'; intros at_ m Hat Hne Hwf H.
  - rewrite scan_node_dir in H. apply wf_entries in Hwf as [Hnd Hwf]. simplify_result. apply closed_rooted; [done|done|].
    eapply scan_entries_closed; eauto.
  - cbn in H. simplify_result. intros p n [<- <-]%lookup_singleton_Some. split; [unfold known; cbn; set_solver|]. exists [].
    split_and!; [constructor|by rewrite app_nil_r|]. intros q' _ Hl. cbn in Hl. lia.
  - cbn in H. simplify_result. intros p n [<- <-]%lookup_singleton_Some. split; [unfold known; cbn; set_solver|]. exists [].
    split_and!; [constructor|by rewrite app_nil_r|]. intros q' _ Hl. cbn in Hl. lia.
  - done.
Qed.

Lemma scan_closed keep entries m : Forall (fun e => child_name e.1 /\ wf_tree e.2) entries -> NoDup (entries.*1) ->
  scan_entries keep EmptyString entries = Ok m -> closed [] m.
Proof.
  intros Hwf Hnd H. eapply (scan_entries_closed keep entries _ [] m); eauto. Unshelve. apply Forall_forall. intros e _. apply scan_node_rooted.
Qed.

(** Nothing in a scan lacks its directory. *)
Lemma closed_no_orphan m p n : closed [] m -> m !! p = Some n -> orphan m p = false.
Proof.
  intros H Hp. destruct (H p n Hp) as (_ & q & Hq & Hqf & -> & Hup). apply orphan_false. intros a Ha. unfold ancestors in Ha.
  rewrite Split_path in Ha by done. apply (prefixes_path _ []) in Ha as (q' & Hq' & Hpre & Hl & ->). by apply Hup.
Qed.
End Scans.
