(* ===== verification/FingerprintThms.v ===== *)
(** The content fingerprint decides equality of plaintext trees. *)

From stdpp Require Import base decidable gmap strings list sorting.
From Stdlib Require Import Ascii ZArith.
From S2P Require Import Prelude GoText Cache Paths Staging StagingBatches PlainTree Merge MergeThms.

(** What comparison and fingerprint look at. *)
Definition facet (n : treeNode) : string * N * string * string := (Kind n, Perm (Mode n), Digest n, Link n).
Definition strip (n : treeNode) : treeNode := mkNode (Kind n) (Mode n) (Digest n) (Link n) [].

Definition strip_all (m : gmap string treeNode) : gmap string treeNode := strip <$> m.

Lemma facet_strip n : facet (strip n) = facet n.
Proof. done. Qed.

Lemma same_facet o o' : sameTreeNode o o' = true <-> facet <$> o = facet <$> o'.
Proof.
  destruct o as [n|], o' as [n'|]; cbn; [|naive_solver..]. unfold facet. split.
  - intros H. simplify_guards. congruence.
  - intros [= -> -> -> ->]. by rewrite !bool_decide_eq_true_2.
Qed.

Section Scans.
Context {SH : Sha256}.

Lemma scan_strip_entries entries :
  Forall (fun e => forall relative, scan_node false relative e.2 = strip_all <$> scan_node true relative e.2) entries ->
  forall relative, scan_entries false relative entries = strip_all <$> scan_entries true relative entries.
Proof.
  induction 1 as [|[name t] rest Ht _ IH]; intros relative; cbn; [unfold strip_all; by rewrite fmap_empty|]. cbn in Ht. rewrite Ht, IH.
  destruct (scan_node true (under relative name) t) as [here|]; [|done]. destruct (scan_entries true relative rest) as [others|]; [|done].
  cbn. unfold strip_all. by rewrite map_fmap_union.
Qed.

Lemma scan_strip t relative : scan_node false relative t = strip_all <$> scan_node true relative t.
Proof.
  revert relative. induction t as [a entries IH|a data|a target|a] using ftree_rect'; intros relative; [|by cbn; unfold strip_all; rewrite ?map_fmap_singleton..].
  rewrite !scan_node_dir, (scan_strip_entries _ IH). destruct (scan_entries true relative entries) as [m|]; [|done]. cbn. unfold strip_all. by rewrite fmap_insert.
Qed.

Lemma scanRoot_strip a entries : scanPlaintextRoot (FDir a entries) = strip_all <$> scanPlaintextTree (Some (FDir a entries)).
Proof. cbn. apply scan_strip_entries. apply Forall_forall. intros e _ relative. apply scan_strip. Qed.

(** ** Encoding *)
Lemma uint32_prefix x y a b : (x < 512)%N -> (y < 512)%N -> put_uint32 x ++ a = put_uint32 y ++ b -> x = y /\ a = b.
Proof.
  intros Hx Hy H. unfold put_uint32 in H. cbn [app] in H. injection H as _ _ H1 H2 ->. split; [|done].
  apply byte_at_inj in H1, H2. cbn [N.pow Pos.pow] in *. zify. Z.to_euclidean_division_equations. lia.
Qed.

Lemma Perm_small mode : (Perm mode < 512)%N.
Proof. unfold Perm. change 511%N with (N.ones 9). rewrite N.land_ones. by apply N.mod_lt. Qed.

(** Lengths that fit in 64 bits. *)
Definition fits (e : string * treeNode) : Prop :=
  encodable e.1 /\ encodable (Kind e.2) /\ encodable (Digest e.2) /\ encodable (Link e.2).

Lemma node_bytes_prefix e e' a b : fits e -> fits e' -> node_bytes e ++ a = node_bytes e' ++ b ->
  e.1 = e'.1 /\ facet e.2 = facet e'.2 /\ a = b.
Proof.
  intros (H1 & H2 & H3 & H4) (H1' & H2' & H3' & H4') H. unfold node_bytes, writeMergeField in H. rewrite <- !(assoc_L (++)) in H.
  apply string_prefix in H as [E1 H]; [|done|done]. apply string_prefix in H as [E2 H]; [|done|done].
  apply uint32_prefix in H as [E3 H]; [|apply Perm_small|apply Perm_small].
  apply string_prefix in H as [E4 H]; [|done|done]. apply string_prefix in H as [E5 H]; [|done|done].
  split_and!; [done| |done]. unfold facet. by rewrite E2, E3, E4, E5.
Qed.

Lemma node_bytes_nonempty e : node_bytes e <> [].
Proof. done. Qed.

Lemma nodes_code l l' : Forall fits l -> Forall fits l' -> concat (node_bytes <$> l) = concat (node_bytes <$> l') ->
  prod_map id facet <$> l = prod_map id facet <$> l'.
Proof.
  intros Hl. revert l'. induction Hl as [|e l He _ IH]; intros [|e' l'] Hl' H; try done.
  apply Forall_cons in Hl' as [He' Hl']. rewrite !fmap_cons in *. cbn in H.
  apply node_bytes_prefix in H as (E1 & E2 & E3); [|done|done]. f_equal; [|by apply IH]. destruct e, e'. cbn in *. unfold prod_map. cbn. by rewrite E1, E2.
Qed.

Definition facets (m : gmap string treeNode) : gmap string (string * N * string * string) := facet <$> m.
Definition all_fit (m : gmap string treeNode) : Prop := map_Forall (fun p n => fits (p, n)) m.

Lemma sorted_fit m : all_fit m -> Forall fits (sort_by_string fst (map_to_list m)).
Proof.
  intros H. apply Forall_forall. intros [p n]. unfold sort_by_string. rewrite elem_of_sort_by, elem_of_map_to_list. apply H.
Qed.

(** The sorted list of facets is that of the map of facets. *)
Lemma sorted_facets m : prod_map id facet <$> sort_by_string fst (map_to_list m) = sort_by_string fst (map_to_list (facets m)).
Proof.
  unfold facets. rewrite map_to_list_fmap. unfold sort_by_string. generalize (map_to_list m). intros l. induction l as [|[p n] l IH]; [done|]. cbn [sort_by fmap list_fmap].
  rewrite <- IH. generalize (sort_by fst String.leb l). clear. intros l. induction l as [|[q k] l IH]; [done|]. cbn.
  destruct (String.leb p q); [done|]. cbn. by rewrite IH.
Qed.

Definition facet_bytes (e : string * (string * N * string * string)) : list ascii :=
  writeMergeField e.1 ++ writeMergeField e.2.1.1.1 ++ put_uint32 e.2.1.1.2 ++ writeMergeField e.2.1.2 ++ writeMergeField e.2.2.

Lemma bytes_facets m m' : all_fit m -> all_fit m' -> fingerprint_bytes m = fingerprint_bytes m' <-> facets m = facets m'.
Proof.
  intros H H'. unfold fingerprint_bytes. split.
  - intros E%nodes_code; [|by apply sorted_fit..]. rewrite !sorted_facets in E. apply map_to_list_inj.
    rewrite <- (sort_by_Permutation fst String.leb (map_to_list (facets m))), <- (sort_by_Permutation fst String.leb (map_to_list (facets m'))).
    unfold sort_by_string in E. by rewrite E.
  - intros E. assert (forall m0, node_bytes <$> sort_by_string fst (map_to_list m0) = facet_bytes <$> sort_by_string fst (map_to_list (facets m0))) as Hb.
    { intros m0. rewrite <- sorted_facets, <- list_fmap_compose. apply list_fmap_ext. by intros i [p n] _. }
    by rewrite !Hb, E.
Qed.

Lemma facets_strip m : facets (strip_all m) = facets m.
Proof. unfold facets, strip_all. rewrite <- map_fmap_compose. by apply map_fmap_ext. Qed.

Lemma samePlaintextTree_facets o o' m m' :
  scanPlaintextTree o = Ok m -> scanPlaintextTree o' = Ok m' -> samePlaintextTree o o' = Ok (bool_decide (facets m = facets m')).
Proof.
  intros H H'. unfold samePlaintextTree. rewrite H, H'. cbn [mbind result_bind]. destruct (size m =? size m') eqn:Es; cbn [negb].
  - f_equal. apply Nat.eqb_eq in Es. apply eq_true_iff_eq. rewrite forallb_forall, bool_decide_eq_true. split.
    + intros Hall. apply map_eq. intros p. unfold facets. rewrite !lookup_fmap. destruct (m !! p) as [n|] eqn:Ep.
      { apply (same_facet (Some n)). apply (Hall (p, n)). by apply list_elem_of_In, elem_of_map_to_list. }
      destruct (m' !! p) as [n'|] eqn:Ep'; [|done]. exfalso.
      assert (dom m ⊆ dom m') as Hsub.
      { intros q [n Hq]%elem_of_dom. specialize (Hall (q, n)). cbn in Hall. destruct (m' !! q) eqn:Eq; [apply elem_of_dom; eauto|].
        discriminate Hall. by apply list_elem_of_In, elem_of_map_to_list. }
      assert (dom m ≡ dom m') as Hdom by (apply set_subseteq_size_equiv; [done|]; rewrite !size_dom; lia).
      assert (p ∈ dom m) as [n Hn]%elem_of_dom by (apply Hdom, elem_of_dom; eauto). congruence.
    + intros E [p n] Hin%list_elem_of_In%elem_of_map_to_list. cbn. apply (same_facet (Some n)).
      apply (f_equal (lookup p)) in E. unfold facets in E. by rewrite !lookup_fmap, Hin in E.
  - rewrite bool_decide_eq_false_2; [done|]. intros E. apply Nat.eqb_neq in Es. apply Es.
    by apply (f_equal size) in E; unfold facets in E; rewrite !map_size_fmap in E.
Qed.

(** C18. The content fingerprint decides equality of trees: two trees have the same
    fingerprint exactly when comparing them path by path finds the same kinds,
    permissions, file contents and link targets, for a digest without
    collisions. *)
Theorem fingerprint_decides_equality a entries a' entries' f f' :
  (forall x y, sha256_hex x = sha256_hex y -> x = y) ->
  (forall m, scanPlaintextRoot (FDir a entries) = Ok m -> all_fit m) ->
  (forall m, scanPlaintextRoot (FDir a' entries') = Ok m -> all_fit m) ->
  plaintextContentFingerprint (FDir a entries) = Ok f -> plaintextContentFingerprint (FDir a' entries') = Ok f' ->
  samePlaintextTree (Some (FDir a entries)) (Some (FDir a' entries')) = Ok (bool_decide (f = f')).
Proof.
  intros Hinj Hfit Hfit'. unfold plaintextContentFingerprint. intros H H'. simplify_result.
  match goal with H : scanPlaintextRoot (FDir a entries) = Ok ?x |- _ => rename x into m, H into Hm end.
  match goal with H : scanPlaintextRoot (FDir a' entries') = Ok ?x |- _ => rename x into m', H into Hm' end.
  pose proof (Hfit m Hm) as Hf. pose proof (Hfit' m' Hm') as Hf'. rewrite scanRoot_strip in Hm, Hm'.
  destruct (scanPlaintextTree (Some (FDir a entries))) as [k|] eqn:Ek; [|done]. destruct (scanPlaintextTree (Some (FDir a' entries'))) as [k'|] eqn:Ek'; [|done].
  injection Hm as <-. injection Hm' as <-. rewrite (samePlaintextTree_facets _ _ _ _ Ek Ek'). f_equal. apply bool_decide_ext.
  rewrite <- (facets_strip k), <- (facets_strip k'), <- bytes_facets by done. unfold plaintextNodeFingerprint. split; [by intros ->|].
  intros E. apply Hinj. by injection E.
Qed.
End Scans.
