(* ===== verification/MergeMain.v ===== *)
(** The theorems on merging and copying plaintext snapshots. *)

From stdpp Require Import base decidable gmap strings list sorting.
From Stdlib Require Import Ascii ZArith.
From S2P Require Import Prelude Effect GoText Cache Paths PlainTree Merge MergeThms FingerprintThms.

Section Main.
Context {SH : Sha256} (umask : N) (fault ctx : nat -> option error) (visit : list string -> list string).
Context (Hvisit : forall l, visit l ≡ₚ l).

Lemma mergeMaps_Ok b l r d conflicts d' :
  ds_nodes d = ∅ -> mergeMaps umask fault ctx visit b l r d = (Ok conflicts, d') ->
  if bool_decide (conflicts = []) then
    merge_conflicts b l r = [] /\ ds_nodes d' = created umask <$> selected b l r /\
    forall p n, selected b l r !! p = Some n -> orphan (selected b l r) p = false
  else d' = d /\
    (conflicts = merge_conflicts b l r \/
     merge_conflicts b l r = [] /\ exists p n, conflicts = [p] /\ selected b l r !! p = Some n /\ orphan (selected b l r) p = true).
Proof using Hvisit.
  intros Hd H. unfold mergeMaps in H. destruct (merge_conflicts b l r) as [|c cs] eqn:Ec.
  2: { simplify_act. rewrite bool_decide_eq_false_2 by done. by split; [|left]. }
  destruct (filter _ _) as [|p ps] eqn:Ef; simplify_act.
  - rewrite bool_decide_eq_true_2 by done.
    match goal with H : sys _ _ = _ |- _ => unfold sys in H; simplify_eq end.
    match goal with H : each _ _ _ = _ |- _ => apply write_all_Ok in H; [|rewrite ordered_perm; apply NoDup_fst_map_to_list|intros e _; cbn; by rewrite Hd] end.
    split_and!; [done| |].
    + match goal with H : ds_nodes _ = _ ∪ _ |- _ => rewrite H end. cbn [ds_nodes]. rewrite Hd, map_union_empty.
      apply created_map, ordered_perm.
    + intros p n Hp. apply not_true_is_false. intros Ho. assert (p ∈ ([] : list string)) as Hin; [|set_solver]. rewrite <- Ef.
      apply list_elem_of_filter. split; [done|]. rewrite Hvisit. apply list_elem_of_fmap. exists (p, n). split; [done|]. by apply elem_of_map_to_list.
  - rewrite bool_decide_eq_false_2 by done. split; [done|]. right. split; [done|].
    assert (p ∈ p :: ps) as Hin by left. rewrite <- Ef in Hin. apply list_elem_of_filter in Hin as [Ho Hin]. rewrite Hvisit in Hin.
    apply list_elem_of_fmap in Hin as ([q n] & -> & Hin%elem_of_map_to_list). eauto.
Qed.

(** What only one side changed comes from that side, and what both changed
    alike from either. *)
Definition three_way (b l r result : option treeNode) : Prop :=
  (sameTreeNode l b = true -> sameTreeNode result r = true) /\
  (sameTreeNode r b = true -> sameTreeNode result l = true) /\
  (sameTreeNode l r = true -> sameTreeNode result l = true).

Lemma choose_three_way b l r o : choose b l r = Some o -> three_way b l r o.
Proof.
  unfold choose, three_way. destruct (sameTreeNode l r) eqn:E1; [|destruct (sameTreeNode l b) eqn:E2; [|destruct (sameTreeNode r b) eqn:E3]];
    intros [= <-]; split_and!; intros H; try done; try apply same_refl.
  exfalso. rewrite (same_sym r b) in H. by rewrite (same_trans _ _ _ E2 H) in E1.
Qed.

(** C17. The merge is a three-way merge.  When it returns no conflict, the empty
    destination holds at every path the three-way result of the snapshots, up
    to the umask, and every node lies in a directory.  When it returns
    conflicts, nothing was written, and they are either exactly the paths that
    both sides changed differently, or there is none of those and it is a path
    that was merged below something that is not a directory. *)
Theorem merge_is_three_way base local remote d conflicts d' :
  ds_nodes d = ∅ -> mergePlaintextTrees umask fault ctx visit base local remote d = (Ok conflicts, d') ->
  exists b l r, scanPlaintextTree base = Ok b /\ scanPlaintextTree local = Ok l /\ scanPlaintextTree remote = Ok r /\
  if bool_decide (conflicts = []) then
    exists result, ds_nodes d' = created umask <$> result /\ (forall p, three_way (b !! p) (l !! p) (r !! p) (result !! p)) /\
      (forall p n, result !! p = Some n -> orphan result p = false) /\ forall p, ~ clash (b !! p) (l !! p) (r !! p)
  else d' = d /\
    ((forall p, p ∈ conflicts <-> clash (b !! p) (l !! p) (r !! p)) \/
     (forall p, ~ clash (b !! p) (l !! p) (r !! p)) /\
     exists p n, conflicts = [p] /\ selected b l r !! p = Some n /\ orphan (selected b l r) p = true).
Proof using Hvisit.
  intros Hd H. unfold mergePlaintextTrees in H. apply act_bind_Ok in H as (b & s1 & Hb & H). apply pure_Ok in Hb as [Hb ->].
  apply act_bind_Ok in H as (l & s2 & Hl & H). apply pure_Ok in Hl as [Hl ->]. apply act_bind_Ok in H as (r & s3 & Hr & H). apply pure_Ok in Hr as [Hr ->].
  apply wrap_err_Ok in Hb, Hl, Hr. exists b, l, r. split_and!; [done..|]. apply mergeMaps_Ok in H; [|done].
  assert (merge_conflicts b l r = [] -> forall p, ~ clash (b !! p) (l !! p) (r !! p)) as Hno.
  { intros E p Hp%elem_of_conflicts. rewrite E in Hp. set_solver. }
  case_bool_decide.
  - destruct H as (Ec & E & Ho). exists (selected b l r). split_and!; [done| |done|by apply Hno].
    intros p. rewrite selected_lookup. destruct (proj1 (no_conflicts b l r) Ec p) as [o Eo]. rewrite Eo. by apply choose_three_way.
  - destruct H as [-> [->|(Ec & p & n & H)]]; (split; [done|]); [left; intros p; apply elem_of_conflicts|right]. split; [by apply Hno|eauto].
Qed.

(** ** Copies *)
Lemma selected_self m : selected m m m = m.
Proof. apply map_eq. intros p. rewrite selected_lookup. unfold choice, choose. by rewrite same_refl. Qed.

Lemma conflicts_self m : merge_conflicts m m m = [].
Proof. apply no_conflicts. intros p. unfold choice, choose. rewrite same_refl. eauto. Qed.

Lemma copy_runs a entries m d :
  (forall t, fault t = None) -> (forall t, ctx t = None) -> wf_tree (FDir a entries) ->
  scanPlaintextTree (Some (FDir a entries)) = Ok m -> ds_nodes d = ∅ ->
  exists d', copyPlaintextTree umask fault ctx visit (Some (FDir a entries)) d = (Ok (), d') /\ ds_nodes d' = created umask <$> m.
Proof using Hvisit.
  intros Hf Hc [Hnd Hwf]%wf_entries Hm Hd. pose proof (scan_closed _ _ _ Hwf Hnd Hm) as Hcl.
  assert (forall p n, m !! p = Some n -> orphan m p = false) as Hno by (intros p n; by apply closed_no_orphan).
  assert (exists d', mergeMaps umask fault ctx visit m m m d = (Ok [], d')) as (d' & H).
  { unfold mergeMaps. rewrite conflicts_self, selected_self.
    destruct (filter _ _) as [|p ps] eqn:Ef.
    - rewrite (act_bind_run _ _ _ _ _ (sys_runs fault Hf d)).
      destruct (write_all_runs umask fault ctx Hf Hc m [] (ordered m) (mkDest (ds_nodes d) (S (ds_tick d)))) as (r & d' & H); [| |done|done|].
      + intros p n Hp. by destruct (Hcl p n Hp).
      + intros p n Hp. by eapply Hno.
      + rewrite (act_bind_run _ _ _ _ _ H). by eexists.
    - exfalso. assert (p ∈ p :: ps) as Hin by left. rewrite <- Ef in Hin. apply list_elem_of_filter in Hin as [Ho Hin]. rewrite Hvisit in Hin.
      apply list_elem_of_fmap in Hin as ([q n] & -> & Hin%elem_of_map_to_list). cbn in Ho. by rewrite (Hno _ _ Hin) in Ho. }
  exists d'. pose proof (mergeMaps_Ok _ _ _ _ _ _ Hd H) as Hr. rewrite bool_decide_eq_true_2 in Hr by done. destruct Hr as (_ & E & _).
  rewrite selected_self in E. split; [|done]. unfold copyPlaintextTree, mergePlaintextTrees. unfold pure, mbind, Act_bind. rewrite Hm. cbn. by rewrite H.
Qed.
(** C33. Copying a snapshot never conflicts and always completes when no system
    call fails: the copy holds every node of the snapshot, with its kind,
    content and link target, and with the permissions that the umask leaves. *)
Theorem copy_is_complete a entries m d :
  (forall t, fault t = None) -> (forall t, ctx t = None) -> wf_tree (FDir a entries) ->
  scanPlaintextTree (Some (FDir a entries)) = Ok m -> ds_nodes d = ∅ ->
  exists d', copyPlaintextTree umask fault ctx visit (Some (FDir a entries)) d = (Ok (), d') /\ ds_nodes d' = created umask <$> m.
Proof using Hvisit. apply copy_runs. Qed.

Lemma ldiff_same x y : N.ldiff x y = x <-> N.land x y = 0%N.
Proof.
  split; intros H.
  - apply N.bits_inj. intros i. rewrite N.land_spec, N.bits_0. apply (f_equal (fun z => N.testbit z i)) in H. rewrite N.ldiff_spec in H.
    by destruct (N.testbit x i), (N.testbit y i).
  - apply N.bits_inj. intros i. rewrite N.ldiff_spec. apply (f_equal (fun z => N.testbit z i)) in H. rewrite N.land_spec, N.bits_0 in H.
    by destruct (N.testbit x i), (N.testbit y i).
Qed.

Lemma created_same n : sameTreeNode (Some (created umask n)) (Some n) = bool_decide (Kind n = kind_symlink \/ N.land (Perm (Mode n)) umask = 0%N).
Proof.
  unfold sameTreeNode, created. destruct (decide (Kind n = kind_symlink)) as [Hk|Hk].
  - rewrite (bool_decide_eq_true_2 (Kind n = kind_symlink)) by done. rewrite !bool_decide_eq_true_2 by auto. done.
  - rewrite (bool_decide_eq_false_2 (Kind n = kind_symlink)) by done. cbn. rewrite (bool_decide_eq_true_2 (Kind n = Kind n)), (bool_decide_eq_true_2 (Digest n = Digest n)), (bool_decide_eq_true_2 (Link n = Link n)) by done.
    rewrite !andb_true_r. apply bool_decide_ext. unfold masked. rewrite <- ldiff_same. unfold Perm.
    assert (N.land (N.ldiff (N.land (Mode n) 511) umask) 511 = N.ldiff (N.land (Mode n) 511) umask) as ->.
    { apply N.bits_inj. intros i. rewrite N.land_spec, !N.ldiff_spec, !N.land_spec. by destruct (N.testbit (Mode n) i), (N.testbit 511 i), (N.testbit umask i). }
    naive_solver.
Qed.

(** C35. A copy drops the permissions that the umask masks.  The copy of any
    snapshot without failing calls succeeds, and a node of the copy differs
    from the node it was copied from exactly when the node is not a symbolic
    link and the umask clears one of its permission bits; comparing the copy
    with its source then reports a change that nobody made. *)
Theorem copy_drops_masked_permissions a entries m d p n :
  (forall t, fault t = None) -> (forall t, ctx t = None) -> wf_tree (FDir a entries) ->
  scanPlaintextTree (Some (FDir a entries)) = Ok m -> ds_nodes d = ∅ -> m !! p = Some n ->
  exists d', copyPlaintextTree umask fault ctx visit (Some (FDir a entries)) d = (Ok (), d') /\
    (sameTreeNode (ds_nodes d' !! p) (Some n) = false <-> Kind n <> kind_symlink /\ N.land (Perm (Mode n)) umask <> 0%N).
Proof using Hvisit.
  intros Hf Hc Hwf Hm Hd Hp. destruct (copy_runs a entries m d Hf Hc Hwf Hm Hd) as (d' & H & E). exists d'. split; [done|].
  rewrite E, lookup_fmap, Hp. cbn [fmap option_fmap option_map]. rewrite created_same, bool_decide_eq_false. tauto.
Qed.
End Main.
