(* ===== verification/MergeWitness.v ===== *)
(** Merges of small snapshots. *)

From stdpp Require Import base decidable gmap strings list sorting.
From Stdlib Require Import Ascii ZArith.
From S2P Require Import Prelude Effect GoText Cache Paths PlainTree Merge MergeThms FingerprintThms MergeMain.

Module Snapshots.
(** A digest without collisions. *)
#[global] Instance transparent : Sha256 := {| sha256_hex := of_bytes |}.
Lemma transparent_inj x y : sha256_hex x = sha256_hex y -> x = y.
Proof. cbn. intros E. by rewrite <- (bytes_of_bytes x), E, bytes_of_bytes. Qed.

Definition file (mode : N) (text : string) : ftree := FFile (mkAttr mode (N.of_nat (length (bytes text))) 0) (bytes text).
Definition dir (entries : list (string * ftree)) : ftree := FDir (mkAttr 448 0 0) entries.
Definition quiet (t : nat) : option error := None.
Definition empty : destination := mkDest ∅ 0.
Definition in_order (l : list string) : list string := l.
Lemma in_order_perm l : in_order l ≡ₚ l.
Proof. done. Qed.

(** The local side edits [a], the remote side removes [d/b] and adds [d/c]. *)
Definition before : ftree := dir [("a", file 384 "one"); ("d", dir [("b", file 384 "two")])].
Definition mine : ftree := dir [("a", file 384 "edited"); ("d", dir [("b", file 384 "two")])].
Definition theirs : ftree := dir [("a", file 384 "one"); ("d", dir [("c", file 384 "three")])].
Definition merged := mergePlaintextTrees 0 quiet quiet in_order (Some before) (Some mine) (Some theirs) empty.

Lemma merge_is_three_way_witness :
  merged.1 = Ok [] /\ exists b l r, scanPlaintextTree (Some before) = Ok b /\ scanPlaintextTree (Some mine) = Ok l /\
    scanPlaintextTree (Some theirs) = Ok r /\ exists result, ds_nodes merged.2 = created 0 <$> result /\
      forall p, three_way (b !! p) (l !! p) (r !! p) (result !! p).
Proof.
  split; [vm_compute; reflexivity|].
  destruct (merge_is_three_way 0 quiet quiet in_order in_order_perm (Some before) (Some mine) (Some theirs) empty [] merged.2)
    as (b & l & r & Hb & Hl & Hr & result & H1 & H2 & _).
  - reflexivity.
  - vm_compute. reflexivity.
  - exists b, l, r. split; [exact Hb|]. split; [exact Hl|]. split; [exact Hr|]. exists result. split; [exact H1|exact H2].
Defined.

Definition nodes_of (t : ftree) : gmap string treeNode := match scanPlaintextTree (Some t) with Ok m => m | Err _ => ∅ end.

Lemma before_wf : wf_tree before.
Proof. apply wf_entries. split; [|repeat constructor; try done; try set_solver]; repeat (constructor; [set_solver|]); constructor. Qed.

Lemma copy_is_complete_witness :
  exists d', copyPlaintextTree 63 quiet quiet in_order (Some before) empty = (Ok (), d') /\ ds_nodes d' = created 63 <$> nodes_of before.
Proof.
  apply (copy_is_complete 63 quiet quiet in_order in_order_perm (mkAttr 448 0 0) [("a", file 384 "one"); ("d", dir [("b", file 384 "two")])]).
  - reflexivity.
  - reflexivity.
  - exact before_wf.
  - vm_compute. reflexivity.
  - reflexivity.
Defined.

Definition fingerprint_of (t : ftree) : string := match plaintextContentFingerprint t with Ok f => f | Err _ => EmptyString end.
Definition fit_b (e : string * treeNode) : bool :=
  forallb (fun s => (N.of_nat (length (bytes s)) <? two64)%N) [e.1; Kind e.2; Digest e.2; Link e.2].
Lemma fit_by t m : (match scanPlaintextRoot t with Ok m => forallb fit_b (map_to_list m) | Err _ => true end) = true ->
  scanPlaintextRoot t = Ok m -> all_fit m.
Proof.
  intros H E p n Hp. rewrite E, forallb_forall in H. specialize (H (p, n)). rewrite <- list_elem_of_In, elem_of_map_to_list in H. specialize (H Hp).
  unfold fit_b in H. cbn in H. rewrite !andb_true_iff in H. destruct H as (H1 & H2 & H3 & H4 & _).
  apply N.ltb_lt in H1, H2, H3, H4. by split_and!.
Qed.

Lemma fingerprint_decides_equality_witness :
  samePlaintextTree (Some before) (Some mine) = Ok (bool_decide (fingerprint_of before = fingerprint_of mine)).
Proof.
  apply (fingerprint_decides_equality (mkAttr 448 0 0) [("a", file 384 "one"); ("d", dir [("b", file 384 "two")])]
    (mkAttr 448 0 0) [("a", file 384 "edited"); ("d", dir [("b", file 384 "two")])]).
  - exact transparent_inj.
  - intros m. apply fit_by. vm_compute. reflexivity.
  - intros m. apply fit_by. vm_compute. reflexivity.
  - vm_compute. reflexivity.
  - vm_compute. reflexivity.
Defined.

(** A file that its group may write, under the usual umask. *)
Lemma copy_drops_masked_permissions_witness :
  exists d', copyPlaintextTree 18 quiet quiet in_order (Some (dir [("shared", file 436 "text")])) empty = (Ok (), d') /\
    sameTreeNode (ds_nodes d' !! "shared") (Some (mkNode kind_file 436 "text" EmptyString (bytes "text"))) = false.
Proof.
  destruct (copy_drops_masked_permissions 18 quiet quiet in_order in_order_perm (mkAttr 448 0 0) [("shared", file 436 "text")]
    (nodes_of (dir [("shared", file 436 "text")])) empty "shared" (mkNode kind_file 436 "text" EmptyString (bytes "text"))) as (d' & H & Hs).
  - reflexivity.
  - reflexivity.
  - apply wf_entries. split; [repeat constructor; set_solver|]. repeat constructor; try done; set_solver.
  - vm_compute. reflexivity.
  - reflexivity.
  - vm_compute. reflexivity.
  - exists d'. split; [exact H|]. apply Hs. split; [discriminate|]. vm_compute. discriminate.
Defined.
End Snapshots.
