(* ===== verification/Registry.v ===== *)
(** The mount registry (filesystem/mount/store.go): the durable records of
    desired mounts and of pending unmounts, with the reservation of
    mountpoints and writable dataset branches. *)

From stdpp Require Import base decidable gmap strings list.
From Stdlib Require Import Ascii ZArith.
From S2P Require Import Prelude GoText Branch Durable.

Definition registryVersion : N := 1.

Definition ErrNotFound := ErrorsNew "mount binding not found".
Definition ErrInvalidSpec := ErrorsNew "invalid mount specification".
Definition ErrIdentityReuse := ErrorsNew "mount identity is already bound differently".
Definition ErrMountpointUse := ErrorsNew "mountpoint is already reserved".
Definition ErrWritableViewUse := ErrorsNew "writable dataset branch is already reserved".
Definition ErrPendingUnmount := ErrorsNew "mount has a pending unmount".

Definition CacheVerified : string := "verified".
Definition WriteReadOnly : string := "read_only".
Definition WriteBack : string := "write_back".
Definition ConflictFailReadOnly : string := "fail_read_only".
Definition ConflictPreserveLocal : string := "preserve_local".
Definition LayoutRootedV1 : string := "rooted-v1".
Definition LayoutFlatV1 : string := "flat-v1".
Definition LayoutHybridV1 : string := "hybrid-v1".

Record Spec := mkSpec {
  ID : string; sp_DatasetID : string; sp_Branch : string; Mountpoint : string; TrustAlias : string;
  CachePolicy : string; WritePolicy : string; LayoutPolicy : string; sp_EncryptionEpoch : N; ConflictPolicy : string
}.
#[global] Instance Spec_eq_dec : EqDecision Spec.
Proof. solve_decision. Defined.

(** [Desired = false] is an unmount tombstone. *)
Record MountRecord := mkRecord { rec_Spec : Spec; Desired : bool; rec_UpdatedAt : time }.

Record registryState := mkRegistry { reg_Version : N; Records : gmap string MountRecord }.
Definition emptyRegistry : registryState := mkRegistry registryVersion ∅.

(** ** Specifications *)

(** [filepath.Clean], [filepath.IsAbs] and [filepath.Dir] on Unix. *)
Definition filepath_IsAbs (p : string) : bool := HasPrefix p "/".
Definition filepath_Dir (p : string) : string :=
  path_Clean (join_slash (removelast (Split p slash) ++ [EmptyString])).

Definition usable (value : string) : bool :=
  negb (bool_decide (value = EmptyString) || negb (ValidString value) || ContainsNUL value).

Definition check_policies (write conflict layout : string) : result unit :=
  if bool_decide (write = WriteReadOnly) then
    fail_if (negb (bool_decide (conflict = ConflictFailReadOnly)) || negb (bool_decide (layout = EmptyString)))
      (Errorf "read-only mount requires fail-read-only conflict policy and no write layout")
  else if bool_decide (write = WriteBack) then
    _ ← fail_if (negb (bool_decide (conflict = ConflictPreserveLocal)))
          (Errorf "write-back mount requires preserve-local conflict policy");
    fail_if (negb (bool_decide (layout = LayoutFlatV1)) && negb (bool_decide (layout = LayoutHybridV1)) &&
             negb (bool_decide (layout = LayoutRootedV1)))
      (Errorf "write-back mount requires flat-v1, hybrid-v1 or rooted-v1 layout policy")
  else Err (Errorf "mount write policy is unsupported").

Definition or_default (value d : string) : string := if bool_decide (value = EmptyString) then d else value.

(** The body of [normalizeSpec], before the deferred wrapping of its error. *)
Definition normalize_body (spec : Spec) : result Spec :=
  let id := TrimSpace (ID spec) in
  let dataset := TrimSpace (sp_DatasetID spec) in
  let branch := TrimSpace (sp_Branch spec) in
  let mountpoint := TrimSpace (Mountpoint spec) in
  let alias := TrimSpace (TrustAlias spec) in
  _ ← fail_if (negb (forallb usable [id; dataset; branch; mountpoint; alias])) (Errorf "mount field is empty or invalid UTF-8");
  _ ← fail_if (128 <? String.length id) (Errorf "mount id exceeds 128 bytes");
  _ ← fail_if (bool_decide (id = ".") || bool_decide (id = "..")) (Errorf "mount id is a reserved path segment");
  _ ← fail_if (negb (forallb identifier_byte (bytes id))) (Errorf "mount id contains unsupported character");
  _ ← fail_if (negb (filepath_IsAbs mountpoint)) (Errorf "mountpoint must be an absolute path");
  let mountpoint := path_Clean mountpoint in
  _ ← fail_if (bool_decide (filepath_Dir mountpoint = mountpoint)) (Errorf "refusing to use a filesystem root as mountpoint");
  let cache := or_default (CachePolicy spec) CacheVerified in
  let write := or_default (WritePolicy spec) WriteReadOnly in
  let conflict := or_default (ConflictPolicy spec)
                    (if bool_decide (write = WriteBack) then ConflictPreserveLocal else ConflictFailReadOnly) in
  _ ← fail_if (negb (bool_decide (cache = CacheVerified))) (Errorf "mount cache policy is unsupported");
  _ ← check_policies write conflict (LayoutPolicy spec);
  Ok (mkSpec id dataset branch mountpoint alias cache write (LayoutPolicy spec) (sp_EncryptionEpoch spec) conflict).

Definition normalizeSpec (spec : Spec) : result Spec :=
  match normalize_body spec with
  | Ok s => Ok s
  | Err e => if errors_Is e ErrInvalidSpec then Err e else Err (Wrapf "invalid" ErrInvalidSpec)
  end.

Definition NormalizeSpec (spec : Spec) : result Spec := normalizeSpec spec.

Definition mountpointKey (path : string) : string := path_Clean path.

Definition sameWritableView (left right : Spec) : bool :=
  bool_decide (WritePolicy left = WriteBack) && bool_decide (WritePolicy right = WriteBack) &&
  bool_decide (sp_DatasetID left = sp_DatasetID right) && bool_decide (sp_Branch left = sp_Branch right).

(** ** Loading *)
Definition view_key (spec : Spec) : string := sp_DatasetID spec +:+ nul +:+ sp_Branch spec.

(** The maps [reserved] and [writableViews] of [reloadLocked]. *)
Record reservations := mkReserved { reserved : gmap string string; writableViews : gmap string string }.

Definition reserve_writable (id : string) (spec : Spec) (views : gmap string string) : result (gmap string string) :=
  if bool_decide (WritePolicy spec = WriteBack) then
    _ ← fail_if (bool_decide (is_Some (views !! view_key spec)))
          (Errorf "mount records reserve the same writable dataset branch");
    Ok (<[view_key spec := id]> views)
  else Ok views.

Definition load_record (acc : reservations) (item : string * MountRecord) : result reservations :=
  let '(id, record) := item in
  normalized ← wrap_err "mount record" (normalizeSpec (rec_Spec record));
  _ ← fail_if (negb (bool_decide (normalized = rec_Spec record)) || negb (bool_decide (ID normalized = id)) ||
               time_IsZero (rec_UpdatedAt record))
        (Errorf "mount record has invalid persisted identity or timestamp");
  let key := mountpointKey (Mountpoint normalized) in
  _ ← fail_if (bool_decide (is_Some (reserved acc !! key))) (Errorf "mount records reserve the same mountpoint");
  views ← reserve_writable id normalized (writableViews acc);
  Ok (mkReserved (<[key := id]> (reserved acc)) views).

(** A loaded record equals the stored one, so the map is the stored map. *)
Definition decode (s : registryState) : result registryState :=
  _ ← fail_if (negb (bool_decide (reg_Version s = registryVersion))) (Errorf "unsupported mount registry version");
  _ ← foldM load_record (mkReserved ∅ ∅) (map_to_list (Records s));
  Ok (mkRegistry registryVersion (Records s)).

Record record_ok (id : string) (r : MountRecord) : Prop := {
  ro_stable : normalizeSpec (rec_Spec r) = Ok (rec_Spec r);
  ro_id : ID (rec_Spec r) = id;
  ro_time : rec_UpdatedAt r <> 0%Z
}.
Definition apart (s1 s2 : Spec) : Prop :=
  mountpointKey (Mountpoint s1) <> mountpointKey (Mountpoint s2) /\ sameWritableView s1 s2 = false.

Record wf (s : registryState) : Prop := {
  wf_version : reg_Version s = registryVersion;
  wf_records : map_Forall record_ok (Records s);
  wf_apart : forall id1 id2 r1 r2, Records s !! id1 = Some r1 -> Records s !! id2 = Some r2 -> id1 <> id2 ->
    apart (rec_Spec r1) (rec_Spec r2)
}.

#[global] Instance registry_store : DurableStore registryState :=
  {| ds_empty := emptyRegistry; ds_decode := decode; ds_wf := wf |}.

Definition registry_file : Type := file registryState.

(** ** Operations *)
Definition withState {A} (w : io) (write : bool) (op : registryState -> result (A * registryState)) (f : registry_file)
    : result A * registry_file := with_state synced_writer w write op f.

Definition OpenStore (w : io) (path : string) (f : registry_file) : result unit * registry_file :=
  if bool_decide (TrimSpace path = EmptyString) then (Err (Errorf "mount registry path is empty"), f)
  else withState w false (fun s => Ok ((), s)) f.

Definition List_records (w : io) (f : registry_file) : result (list MountRecord) * registry_file :=
  withState w false (fun s => Ok (sort_by_string (fun r => ID (rec_Spec r)) (map_to_list (Records s)).*2, s)) f.

Definition Get (w : io) (id : string) (f : registry_file) : result MountRecord * registry_file :=
  let id := TrimSpace id in
  withState w false (fun s => r ← or_err (Records s !! id) ErrNotFound; Ok (r, s)) f.

(** The loop of [PutDesired] over the other records. *)
Definition check_other (spec : Spec) (item : string * MountRecord) : result unit :=
  let '(id, existing) := item in
  let other := negb (bool_decide (id = ID spec)) in
  _ ← fail_if (other && bool_decide (mountpointKey (Mountpoint (rec_Spec existing)) = mountpointKey (Mountpoint spec)))
        ErrMountpointUse;
  fail_if (other && sameWritableView (rec_Spec existing) spec) ErrWritableViewUse.

Definition putLocked (now : time) (spec : Spec) (s : registryState) : result (MountRecord * registryState) :=
  _ ← match Records s !! ID spec with
      | Some existing =>
          _ ← fail_if (negb (bool_decide (rec_Spec existing = spec))) ErrIdentityReuse;
          fail_if (negb (Desired existing)) ErrPendingUnmount
      | None => Ok ()
      end;
  _ ← mapM (check_other spec) (map_to_list (Records s));
  let result := mkRecord spec true now in
  Ok (result, mkRegistry registryVersion (<[ID spec := result]> (Records s))).

Definition PutDesired (w : io) (now : time) (spec : Spec) (f : registry_file) : result MountRecord * registry_file :=
  match normalizeSpec spec with
  | Err e => (Err e, f)
  | Ok spec => withState w true (putLocked now spec) f
  end.

Definition markLocked (now : time) (id : string) (s : registryState) : result (MountRecord * registryState) :=
  existing ← or_err (Records s !! id) ErrNotFound;
  let existing := mkRecord (rec_Spec existing) false now in
  Ok (existing, mkRegistry registryVersion (<[id := existing]> (Records s))).

Definition MarkPendingUnmount (w : io) (now : time) (id : string) (f : registry_file) : result MountRecord * registry_file :=
  withState w true (markLocked now (TrimSpace id)) f.

Definition deleteLocked (id : string) (s : registryState) : result (unit * registryState) :=
  existing ← or_err (Records s !! id) ErrNotFound;
  _ ← fail_if (Desired existing) (Errorf "refusing to delete desired mount");
  Ok ((), mkRegistry registryVersion (base.delete id (Records s))).

Definition DeleteUnmounted (w : io) (id : string) (f : registry_file) : result unit * registry_file :=
  withState w true (deleteLocked (TrimSpace id)) f.

#[global] Arguments normalizeSpec : simpl never.
#[global] Arguments normalize_body : simpl never.
#[global] Arguments mountpointKey : simpl never.
