(* ===== verification/RegistryFacts.v ===== *)
(** The mount registry: its loader accepts exactly the well-formed registries,
    and what each operation does to the records. *)

From stdpp Require Import base decidable gmap strings list.
From Stdlib Require Import Ascii ZArith Lia.
From S2P Require Import Prelude GoText Branch Durable Registry.

(** ** Loading *)
Definition item_key (it : string * MountRecord) : string := mountpointKey (Mountpoint (rec_Spec it.2)).
Definition item_writable (it : string * MountRecord) : Prop := WritePolicy (rec_Spec it.2) = WriteBack.
#[global] Instance item_writable_dec it : Decision (item_writable it).
Proof. unfold item_writable. apply _. Defined.
Definition item_view (it : string * MountRecord) : string := view_key (rec_Spec it.2).
Definition writable_keys (l : list (string * MountRecord)) : list string := item_view <$> filter item_writable l.

(** New keys, apart from those that are taken. *)
Definition fresh_keys (taken : gmap string string) (keys : list string) : Prop :=
  NoDup keys /\ Forall (fun k => taken !! k = None) keys.

Lemma fresh_keys_cons taken k keys id :
  fresh_keys taken (k :: keys) <-> taken !! k = None /\ fresh_keys (<[k := id]> taken) keys.
Proof.
  unfold fresh_keys. rewrite NoDup_cons, Forall_cons. split.
  - intros [[Hk Hd] [Hn Hf]]. split_and!; [done|done|]. rewrite Forall_forall in *. intros k' Hk'.
    rewrite lookup_insert_ne; [by apply Hf|]. by intros ->.
  - intros [Hn [Hd Hf]]. rewrite Forall_forall in Hf. split_and!; [|done|done|].
    + intros Hk. specialize (Hf k Hk). by rewrite lookup_insert_eq in Hf.
    + apply Forall_forall. intros k' Hk'. specialize (Hf k' Hk'). by apply lookup_insert_None in Hf as [? _].
Qed.

Lemma reserve_writable_Ok id it views views' keys :
  reserve_writable id (rec_Spec it.2) views = Ok views' ->
  fresh_keys views (writable_keys (it :: keys)) <-> fresh_keys views' (writable_keys keys).
Proof.
  unfold reserve_writable, writable_keys. rewrite filter_cons. unfold item_writable at 1.
  case_bool_decide as Hw; [rewrite decide_True by done|rewrite decide_False by done]; intros H; simplify_result; [|done].
  simplify_guards. cbn [fmap list_fmap]. rewrite fresh_keys_cons. unfold item_view at 1.
  rewrite (eq_None_not_Some (views !! _)). naive_solver.
Qed.

Lemma reserve_writable_total id it views keys :
  fresh_keys views (writable_keys (it :: keys)) -> exists views', reserve_writable id (rec_Spec it.2) views = Ok views'.
Proof.
  unfold reserve_writable, writable_keys. rewrite filter_cons. unfold item_writable at 1.
  case_bool_decide as Hw; [rewrite decide_True by done|eauto]. cbn [fmap list_fmap]. rewrite (fresh_keys_cons _ _ _ id).
  intros [Hn _]. unfold item_view in Hn. rewrite Hn. rewrite bool_decide_eq_false_2 by (by intros [? ?]). cbn. eauto.
Qed.

Definition loadable (acc : reservations) (l : list (string * MountRecord)) : Prop :=
  Forall (fun it => record_ok it.1 it.2) l /\ fresh_keys (reserved acc) (item_key <$> l) /\
  fresh_keys (writableViews acc) (writable_keys l).

Lemma load_record_Ok acc it acc' l :
  load_record acc it = Ok acc' -> record_ok it.1 it.2 /\ (loadable acc (it :: l) <-> loadable acc' l).
Proof.
  destruct it as [id r]. unfold load_record. intros H. simplify_result. simplify_guards. subst.
  assert (record_ok (ID (rec_Spec r)) r) as Hok by (split; [done|done|by eapply bool_decide_eq_false_1]).
  split; [done|]. unfold loadable. cbn [reserved writableViews]. rewrite Forall_cons.
  match goal with H : reserve_writable _ _ _ = _ |- _ =>
    rewrite (reserve_writable_Ok _ (ID (rec_Spec r), r) _ _ l H) end.
  cbn [fmap list_fmap]. rewrite (fresh_keys_cons _ _ _ (ID (rec_Spec r))). unfold item_key at 1. cbn.
  rewrite (eq_None_not_Some (reserved acc !! _)). naive_solver.
Qed.

Lemma load_record_total acc it l : loadable acc (it :: l) -> exists acc', load_record acc it = Ok acc'.
Proof.
  destruct it as [id r]. intros ([[Hs Hid Ht] _]%Forall_cons & Hk & Hv). cbn in *.
  apply (fresh_keys_cons _ _ _ id) in Hk as [Hn _]. unfold item_key in Hn. cbn in Hn.
  destruct (reserve_writable_total id (id, r) _ l Hv) as [views E]. unfold load_record.
  rewrite Hs. cbn. unfold time_IsZero. rewrite (bool_decide_eq_true_2 (rec_Spec r = rec_Spec r)) by done.
  rewrite (bool_decide_eq_true_2 (ID (rec_Spec r) = id)) by done. rewrite (bool_decide_eq_false_2 (rec_UpdatedAt r = _)) by done. cbn.
  rewrite Hn. rewrite bool_decide_eq_false_2 by (by intros [? ?]). cbn. cbn in E. rewrite E. cbn. eauto.
Qed.

Lemma load_all acc l : loadable acc l <-> exists acc', foldM load_record acc l = Ok acc'.
Proof.
  revert acc. induction l as [|it l IH]; intros acc; cbn.
  - split; [eauto|]. intros _. unfold loadable, fresh_keys, writable_keys. cbn. by repeat split; constructor.
  - split.
    + intros H. destruct (load_record_total _ _ _ H) as [acc1 E]. rewrite E. cbn. apply IH.
      apply (load_record_Ok _ _ _ l) in E as [_ E]. by apply E.
    + intros [acc' H]. apply bind_Ok in H as (acc1 & E & H). apply (load_record_Ok _ _ _ l) in E as [_ E]. apply E, IH. eauto.
Qed.

(** ** The pairwise form *)
Lemma usable_no_nul s : usable s = true -> ContainsNUL s = false.
Proof. unfold usable. intros H. by simplify_guards. Qed.

Lemma normalizeSpec_body spec s : normalizeSpec spec = Ok s <-> normalize_body spec = Ok s.
Proof. unfold normalizeSpec. destruct (normalize_body spec); [done|]. by case_match. Qed.

Lemma normalizeSpec_usable spec s : normalizeSpec spec = Ok s -> ContainsNUL (sp_DatasetID s) = false /\ TrimSpace (ID s) = ID s.
Proof.
  intros H%normalizeSpec_body. unfold normalize_body in H. simplify_result. cbn [forallb] in *. simplify_guards. cbn.
  split; [by apply usable_no_nul|]. apply TrimSpace_idemp.
Qed.

Lemma apart_keys id1 id2 r1 r2 :
  record_ok id1 r1 -> record_ok id2 r2 ->
  apart (rec_Spec r1) (rec_Spec r2) <->
  item_key (id1, r1) <> item_key (id2, r2) /\
  ~ (item_writable (id1, r1) /\ item_writable (id2, r2) /\ item_view (id1, r1) = item_view (id2, r2)).
Proof.
  intros [H1%normalizeSpec_usable _ _] [H2%normalizeSpec_usable _ _].
  unfold apart, item_key, item_writable, item_view, sameWritableView, view_key. cbn. split.
  - intros [Hm Hw]. split; [done|]. intros (W1 & W2 & E). apply nul_split in E as [E1 E2]; [|tauto|tauto].
    by rewrite !bool_decide_eq_true_2 in Hw.
  - intros [Hm Hw]. split; [done|]. apply not_true_is_false. intros H. apply Hw. simplify_guards. split_and!; congruence.
Qed.

Lemma map_pairwise {A K} (key : string * A -> K) (Q : string * A -> Prop) `{!forall x, Decision (Q x)} (m : gmap string A) :
  NoDup (key <$> filter Q (map_to_list m)) <->
  forall id1 id2 a1 a2, m !! id1 = Some a1 -> m !! id2 = Some a2 -> id1 <> id2 ->
    ~ (Q (id1, a1) /\ Q (id2, a2) /\ key (id1, a1) = key (id2, a2)).
Proof.
  split.
  - intros Hd id1 id2 a1 a2 H1%elem_of_map_to_list H2%elem_of_map_to_list Hne (Q1 & Q2 & E).
    assert ((id1, a1) = (id2, a2)) by (eapply NoDup_key_inj; [exact Hd|by apply list_elem_of_filter..|done]). congruence.
  - intros Hp. apply NoDup_fmap_2_strong; [|apply NoDup_filter, NoDup_map_to_list].
    intros [id1 a1] [id2 a2] [Q1 H1%elem_of_map_to_list]%list_elem_of_filter [Q2 H2%elem_of_map_to_list]%list_elem_of_filter E.
    destruct (decide (id1 = id2)) as [->|Hne]; [congruence|]. by destruct (Hp id1 id2 a1 a2 H1 H2 Hne).
Qed.

Lemma wf_loadable s :
  reg_Version s = registryVersion -> wf s <-> loadable (mkReserved ∅ ∅) (map_to_list (Records s)).
Proof.
  intros Hv. unfold loadable, fresh_keys. cbn [reserved writableViews].
  assert (forall keys : list string, Forall (fun k => (∅ : gmap string string) !! k = None) keys) as He.
  { intros keys. apply Forall_forall. intros k _. apply lookup_empty. }
  assert (item_key <$> map_to_list (Records s) = item_key <$> filter (fun _ => True) (map_to_list (Records s))) as Ek.
  { f_equal. induction (map_to_list (Records s)) as [|x l IH]; [done|]. rewrite filter_cons_True by done. by rewrite <- IH. }
  rewrite Ek. unfold writable_keys. rewrite !map_pairwise.
  assert (Forall (fun it => record_ok it.1 it.2) (map_to_list (Records s)) <-> map_Forall record_ok (Records s)) as Ef.
  { rewrite map_Forall_to_list. apply Forall_iff. by intros [id r]. }
  rewrite Ef. split.
  - intros [_ Hr Ha]. split_and!; try done.
    + intros id1 id2 r1 r2 H1 H2 Hne (_ & _ & E).
      by destruct (proj1 (apart_keys id1 id2 r1 r2 (Hr _ _ H1) (Hr _ _ H2)) (Ha _ _ _ _ H1 H2 Hne)).
    + intros id1 id2 r1 r2 H1 H2 Hne.
      by destruct (proj1 (apart_keys id1 id2 r1 r2 (Hr _ _ H1) (Hr _ _ H2)) (Ha _ _ _ _ H1 H2 Hne)).
  - intros (Hr & [Hk _] & [Hw _]). split; [done|done|]. intros id1 id2 r1 r2 H1 H2 Hne.
    apply (apart_keys id1 id2); [by apply Hr|by apply Hr|]. split; [|exact (Hw id1 id2 r1 r2 H1 H2 Hne)].
    intros E. by apply (Hk id1 id2 r1 r2 H1 H2 Hne).
Qed.

#[global] Instance registry_laws : DurableLaws registryState.
Proof.
  split.
  - split; [done|apply map_Forall_empty|]. cbn. by intros id1 id2 r1 r2 ?%lookup_empty_Some.
  - intros s s' H. unfold ds_decode in H. cbn in H. unfold decode in H. simplify_result. simplify_guards.
    assert (wf s) as [H1 H2 H3] by (apply wf_loadable; [done|]; apply load_all; eauto). by split.
  - intros s Hs. pose proof (wf_version _ Hs) as Hv. apply wf_loadable in Hs; [|done]. apply load_all in Hs as [acc E].
    unfold ds_decode. cbn. unfold decode. rewrite bool_decide_eq_true_2 by done. cbn. rewrite E. cbn. rewrite <- Hv. by destruct s.
Qed.

(** ** The records after each operation *)

(** A specification whose normal form is one. *)
Definition stable_spec (spec : Spec) : Prop := forall s, normalizeSpec spec = Ok s -> normalizeSpec s = Ok s.

Lemma putLocked_wf now spec s r s' :
  now <> 0%Z -> normalizeSpec spec = Ok spec -> wf s -> putLocked now spec s = Ok (r, s') -> wf s'.
Proof.
  intros Hnow Hn [Hv Hr Ha] H. unfold putLocked in H. simplify_result.
  match goal with H : mapM _ _ = Ok _ |- _ => rename H into Hm end.
  assert (forall id r0, Records s !! id = Some r0 -> id <> ID spec -> apart (rec_Spec r0) spec) as Ho.
  { intros id rec Hl Hne. apply elem_of_map_to_list in Hl. destruct (mapM_visits _ _ _ _ Hm Hl) as [[] Hc].
    unfold check_other in Hc. rewrite (bool_decide_eq_false_2 (id = _)) in Hc by done. cbn in Hc. simplify_result.
    simplify_guards. by split. }
  assert (forall s1 s2, apart s1 s2 -> apart s2 s1) as Hsym.
  { intros s1 s2 [H1 H2]. split; [by intros E; apply H1|]. apply not_true_is_false. intros H3.
    apply not_true_iff_false in H2. apply H2. unfold sameWritableView in *. simplify_guards.
    by rewrite !bool_decide_eq_true_2. }
  split; [done|by apply map_Forall_insert_2|]. cbn. intros id1 id2 ra rb H1 H2 Hne.
  apply lookup_insert_Some in H1 as [[<- <-]|[? H1]], H2 as [[<- <-]|[? H2]]; [done| | |by eapply Ha].
  - apply Hsym. by apply (Ho id2).
  - by apply (Ho id1).
Qed.

Lemma markLocked_wf now id s r s' : now <> 0%Z -> wf s -> markLocked now id s = Ok (r, s') -> wf s'.
Proof.
  intros Hnow [Hv Hr Ha] H. unfold markLocked in H. simplify_result.
  match goal with H : Records s !! id = Some ?r |- _ => rename H into Hl; rename r into old end.
  destruct (Hr id old Hl) as [H1 H2 H3]. split; [done|by apply map_Forall_insert_2|]. cbn. intros id1 id2 ra rb L1 L2 Hne.
  apply lookup_insert_Some in L1 as [[<- <-]|[? L1]], L2 as [[<- <-]|[? L2]]; [done| | |by eapply Ha]; cbn; by eapply Ha.
Qed.

Lemma deleteLocked_wf id s s' : wf s -> deleteLocked id s = Ok ((), s') -> wf s'.
Proof.
  intros [Hv Hr Ha] H. unfold deleteLocked in H. simplify_result. split; [done|by apply map_Forall_delete|]. cbn.
  intros id1 id2 ra rb [_ L1]%lookup_delete_Some [_ L2]%lookup_delete_Some. by eapply Ha.
Qed.

(** The visible records of a registry that loads. *)
Definition records (f : registry_file) : gmap string MountRecord :=
  match Durable.view f with Some s => Records s | None => ∅ end.

Lemma registry_view_wf f s : Durable.view f = Some s -> wf s.
Proof. apply (view_wf (S := registry_store)). Qed.

Lemma records_Decodes s : wf s -> records (Some (Decodes s)) = Records s.
Proof. intros H. unfold records. by rewrite (view_Decodes (S := registry_store) s H). Qed.

(** An operation reports an error and leaves the records alone, or installs
    the new ones. *)
Lemma PutDesired_cases w now spec f r f' :
  now <> 0%Z -> stable_spec spec -> loads f -> PutDesired w now spec f = (r, f') ->
  loads f' /\
  (f' = f /\ is_ok r = false \/
   exists s, normalizeSpec spec = Ok s /\ records f' = <[ID s := mkRecord s true now]> (records f) /\
     (forall old, records f !! ID s = Some old -> rec_Spec old = s /\ Desired old = true) /\
     (forall r', r = Ok r' -> r' = mkRecord s true now)).
Proof.
  intros Hnow Hst Hl H. unfold PutDesired in H. destruct (normalizeSpec spec) as [s|e] eqn:En; [|simplify_eq; split; [done|by left]].
  specialize (Hst s En). unfold withState in H. split.
  { change f' with (r, f').2. rewrite <- H. apply with_state_loads; [done|apply _| |done]. intros. by eapply putLocked_wf. }
  apply with_state_cases in H as [?|(st & r0 & st' & Hv & Hop & -> & Hr)]; [by left| |done]. right. exists s.
  assert (wf st') as Hwf by (eapply putLocked_wf; [..|exact Hop]; [done|done|by eapply registry_view_wf]).
  rewrite (records_Decodes _ Hwf). unfold records. rewrite Hv. unfold putLocked in Hop. simplify_result. split_and!; [done|done| |done].
  intros old Ho. rewrite Ho in *. simplify_result. by simplify_guards.
Qed.

Lemma MarkPendingUnmount_cases w now id f r f' :
  now <> 0%Z -> loads f -> MarkPendingUnmount w now id f = (r, f') ->
  loads f' /\
  (f' = f /\ is_ok r = false \/
   exists old, records f !! TrimSpace id = Some old /\ records f' = <[TrimSpace id := mkRecord (rec_Spec old) false now]> (records f) /\
     (forall r', r = Ok r' -> r' = mkRecord (rec_Spec old) false now)).
Proof.
  intros Hnow Hl H. unfold MarkPendingUnmount, withState in H. split.
  { change f' with (r, f').2. rewrite <- H. apply with_state_loads; [done|apply _| |done]. intros. by eapply markLocked_wf. }
  apply with_state_cases in H as [?|(st & r0 & st' & Hv & Hop & -> & Hr)]; [by left| |done]. right.
  assert (wf st') as Hwf by (eapply markLocked_wf; [..|exact Hop]; [done|by eapply registry_view_wf]).
  rewrite (records_Decodes _ Hwf). unfold records. rewrite Hv. unfold markLocked in Hop. simplify_result. eauto.
Qed.

Lemma DeleteUnmounted_cases w id f r f' :
  loads f -> DeleteUnmounted w id f = (r, f') ->
  loads f' /\
  (f' = f /\ is_ok r = false \/
   exists old, records f !! TrimSpace id = Some old /\ Desired old = false /\ records f' = base.delete (TrimSpace id) (records f)).
Proof.
  intros Hl H. unfold DeleteUnmounted, withState in H. split.
  { change f' with (r, f').2. rewrite <- H. apply with_state_loads; [done|apply _| |done].
    intros s [] s'. by apply deleteLocked_wf. }
  apply with_state_cases in H as [?|(st & [] & st' & Hv & Hop & -> & Hr)]; [by left| |done]. right.
  assert (wf st') as Hwf by (eapply deleteLocked_wf; [|exact Hop]; by eapply registry_view_wf).
  rewrite (records_Decodes _ Hwf). unfold records. rewrite Hv. unfold deleteLocked in Hop. simplify_result. eauto.
Qed.

Lemma records_ok f : map_Forall record_ok (records f).
Proof.
  unfold records. destruct (Durable.view f) as [s|] eqn:E; [|apply map_Forall_empty]. by apply registry_view_wf in E as [_ ? _].
Qed.
Lemma records_apart f id1 id2 r1 r2 :
  records f !! id1 = Some r1 -> records f !! id2 = Some r2 -> id1 <> id2 -> apart (rec_Spec r1) (rec_Spec r2).
Proof.
  unfold records. destruct (Durable.view f) as [s|] eqn:E; [|by intros ?%lookup_empty_Some]. apply registry_view_wf in E as [_ _ H]. apply H.
Qed.
