(* ===== verification/Install.v ===== *)
(** Durable installation of prepared directories (application/backup/
    install.go): a journaled transaction that swaps every destination with its
    prepared next tree, and the recovery of an interrupted one.

    The state is the objects at the paths that the entries name, and the
    journal file.  The environment answers every system call: it may fail
    without an effect, or, for the calls that are not atomic, after a part of
    it.  A process that stops at some call is the environment in which that
    call and all later ones fail without an effect. *)

From stdpp Require Import base decidable gmap strings list.
From Stdlib Require Import Ascii ZArith.
From S2P Require Import Prelude Effect GoText Cache PlainTree Registry.

Definition ErrNotExist := ErrorsNew "file does not exist".
(** [RecoveryQuarantineError]. *)
Definition ErrRecoveryQuarantine := ErrorsNew "edits made after an interrupted sync were preserved for manual recovery".

Definition installTransactionVersion : Z := 2.

Inductive installState := installStatePrepared | installStateCommitted | InstallStateOther (text : string).
Inductive installPhase := installPhasePrepared | installPhasePreserved | installPhaseInstalled | InstallPhaseOther (text : string).
#[global] Instance installState_eq_dec : EqDecision installState.
Proof. solve_decision. Defined.
#[global] Instance installPhase_eq_dec : EqDecision installPhase.
Proof. solve_decision. Defined.

Record installTransactionEntry := mkEntry {
  e_Name : string; e_Destination : string; e_Staging : string; e_Next : string; e_Rollback : string;
  e_ParentPin : string; e_ParentToken : string; e_ExpectedFingerprint : string; e_OriginalFingerprint : string;
  e_InstalledFingerprint : string; e_HadCurrent : bool; e_Phase : installPhase
}.
#[global] Instance installTransactionEntry_eq_dec : EqDecision installTransactionEntry.
Proof. solve_decision. Defined.
Record installTransaction := mkTransaction {
  tx_Version : Z; tx_PlanID : string; tx_State : installState; tx_Entries : list installTransactionEntry
}.

Definition set_fingerprints (original installed : string) (e : installTransactionEntry) : installTransactionEntry :=
  mkEntry (e_Name e) (e_Destination e) (e_Staging e) (e_Next e) (e_Rollback e) (e_ParentPin e) (e_ParentToken e)
    (e_ExpectedFingerprint e) original installed (e_HadCurrent e) (e_Phase e).
Definition set_phase (phase : installPhase) (e : installTransactionEntry) : installTransactionEntry :=
  mkEntry (e_Name e) (e_Destination e) (e_Staging e) (e_Next e) (e_Rollback e) (e_ParentPin e) (e_ParentToken e)
    (e_ExpectedFingerprint e) (e_OriginalFingerprint e) (e_InstalledFingerprint e) (e_HadCurrent e) phase.

(** The paths below the pinned parent. *)
Definition e_Quarantine (e : installTransactionEntry) : string := e_Staging e +:+ "-recovery".
Definition filepath_Join (parent name : string) : string := path_Clean (parent +:+ "/" +:+ name).
Definition e_Pin (e : installTransactionEntry) : string := filepath_Join (filepath_Dir (e_Destination e)) (e_ParentPin e).

(** [filepath.Base] of a Unix path. *)
Definition filepath_Base (p : string) : string :=
  match List.rev (List.filter (fun w => negb (bool_decide (w = EmptyString))) (Split p slash)) with
  | w :: _ => w
  | [] => if bool_decide (p = EmptyString) then "." else "/"
  end.

Definition hex_token (s : string) : bool :=
  (length (bytes s) =? 64) && forallb (fun a => in_range 48 57 a || in_range 97 102 a) (bytes s).

(** One entry of [validateInstallTransaction]. *)
Definition valid_entry (e : installTransactionEntry) : result unit :=
  let base := filepath_Base (e_Destination e) in
  _ ← fail_if (bool_decide (TrimSpace (e_Name e) = EmptyString) || negb (filepath_IsAbs (e_Destination e)) ||
               negb (filepath_IsAbs (e_Staging e)) ||
               negb (bool_decide (e_Next e = filepath_Join (e_Staging e) "next")) ||
               negb (bool_decide (e_Rollback e = filepath_Join (e_Staging e) "previous")) ||
               negb (bool_decide (filepath_Dir (e_Destination e) = filepath_Dir (e_Staging e))) ||
               bool_decide (base = ".") || bool_decide (base = "/") ||
               negb (bool_decide (filepath_Base (e_ParentPin e) = e_ParentPin e)) ||
               negb (HasPrefix (e_ParentPin e) ".malt-install-pin-") || negb (hex_token (e_ParentToken e)) ||
               (negb (HasPrefix (filepath_Base (e_Staging e)) ".malt-sync-") &&
                negb (HasPrefix (filepath_Base (e_Staging e)) ".malt-restore-")) ||
               match e_Phase e with InstallPhaseOther _ => true | _ => false end)
        (Errorf "filesystem installation entry is invalid");
  fail_if (bool_decide (e_InstalledFingerprint e = EmptyString) ||
           (e_HadCurrent e && bool_decide (e_OriginalFingerprint e = EmptyString)) ||
           (negb (e_HadCurrent e) && negb (bool_decide (e_OriginalFingerprint e = EmptyString))))
    (Errorf "filesystem installation entry lacks recovery fingerprints").

Fixpoint valid_entries (destinations staging : gset string) (entries : list installTransactionEntry) : result unit :=
  match entries with
  | [] => Ok ()
  | e :: rest =>
      _ ← valid_entry e;
      _ ← fail_if (bool_decide (e_Destination e ∈ destinations)) (Errorf "duplicate filesystem installation destination");
      _ ← fail_if (bool_decide (e_Staging e ∈ staging)) (Errorf "duplicate filesystem installation staging path");
      valid_entries ({[e_Destination e]} ∪ destinations) ({[e_Staging e]} ∪ staging) rest
  end.

Definition validateInstallTransaction (t : installTransaction) : result unit :=
  _ ← fail_if (negb (bool_decide (tx_Version t = installTransactionVersion)) ||
               bool_decide (TrimSpace (tx_PlanID t) = EmptyString) ||
               match tx_State t with InstallStateOther _ => true | _ => false end ||
               bool_decide (tx_Entries t = []))
        (Errorf "filesystem installation journal is incomplete");
  valid_entries ∅ ∅ (tx_Entries t).

(** ** The host filesystem *)
Record iworld := mkIw { iw_fs : gmap string ftree; iw_journal : option installTransaction; iw_tick : nat }.

Record ienv := mkIenv {
  (** The error of the [t]-th system call, and whether it fails after its effect. *)
  ie_fail : nat -> option error;
  ie_dirty : nat -> bool;
  (** What remains of an object when a recursive removal fails. *)
  ie_left : nat -> string -> ftree -> option ftree;
  (** The fingerprint that is found behind a symbolic link. *)
  ie_link : nat -> result string
}.

Section Install.
Context {SH : Sha256} (E : ienv).

Definition with_fs (f : gmap string ftree -> gmap string ftree) (w : iworld) : iworld := mkIw (f (iw_fs w)) (iw_journal w) (iw_tick w).
Definition with_journal (j : option installTransaction) (w : iworld) : iworld := mkIw (iw_fs w) j (iw_tick w).
Definition ticked (w : iworld) : iworld := mkIw (iw_fs w) (iw_journal w) (S (iw_tick w)).

(** A system call: its answer and effect, and what a failure can leave. *)
Definition syscall {A} (act : iworld -> result A * iworld) (partial : nat -> iworld -> iworld) : Act iworld A := fun w =>
  match ie_fail E (iw_tick w) with
  | None => act (ticked w)
  | Some e => (Err e, if ie_dirty E (iw_tick w) then partial (iw_tick w) (ticked w) else ticked w)
  end.
Definition atomic {A} (act : iworld -> result A * iworld) : Act iworld A := syscall act (fun _ w => w).

(** Opening, closing and synchronising directories. *)
Definition handle : Act iworld unit := atomic (fun w => (Ok (), w)).

Definition lstat (path : string) : Act iworld ftree := atomic (fun w => (or_err (iw_fs w !! path) ErrNotExist, w)).
Definition pathExistsRoot (path : string) : Act iworld bool := atomic (fun w => (Ok (bool_decide (is_Some (iw_fs w !! path))), w)).

Definition fingerprint_with (f : ftree -> result string) (path : string) : Act iworld string := fun w =>
  atomic (fun w' =>
    (match iw_fs w' !! path with
     | None => Err ErrNotExist
     | Some (FLink _ _) => ie_link E (iw_tick w)
     | Some t => f t
     end, w')) w.
Definition plaintextContentFingerprintRoot : string -> Act iworld string := fingerprint_with plaintextContentFingerprint.
Definition fingerprintRootedDirectory (path displayName : string) : Act iworld string :=
  fingerprint_with (fingerprintPinnedSource displayName) path.

Definition replaceable (moved there : ftree) : bool :=
  match moved, there with
  | FDir _ _, FDir _ [] => true
  | FDir _ _, _ | _, FDir _ _ => false
  | _, _ => true
  end.

(** [Rename] below a pinned parent, into [into] when the target lies deeper. *)
Definition rename (into : option string) (source target : string) : Act iworld unit := atomic (fun w =>
  match iw_fs w !! source with
  | None => (Err ErrNotExist, w)
  | Some t =>
      if match into with Some d => bool_decide (iw_fs w !! d = None) | None => false end then (Err ErrNotExist, w)
      else if match iw_fs w !! target with None => true | Some d => replaceable t d end
      then (Ok (), with_fs (fun fs => <[target := t]> (base.delete source fs)) w)
      else (Err (Errorf "file exists"), w)
  end).

(** [Remove] of one file. *)
Definition remove_one (path : string) : Act iworld unit := atomic (fun w =>
  match iw_fs w !! path with
  | None => (Err ErrNotExist, w)
  | Some _ => (Ok (), with_fs (base.delete path) w)
  end).

(** [Mkdir], or an exclusive create. *)
Definition create_new (path : string) (t : ftree) : Act iworld unit := atomic (fun w =>
  match iw_fs w !! path with
  | Some _ => (Err (Errorf "file exists"), w)
  | None => (Ok (), with_fs <[path := t]> w)
  end).

Definition leave (t : nat) (path : string) (fs : gmap string ftree) : gmap string ftree :=
  match fs !! path with
  | None => fs
  | Some tree => match ie_left E t path tree with Some rest => <[path := rest]> fs | None => base.delete path fs end
  end.

(** [RemoveAll] of the objects at the paths. *)
Definition remove_all (paths : list string) : Act iworld unit :=
  syscall (fun w => (Ok (), with_fs (fun fs => foldr base.delete fs paths) w))
    (fun t => with_fs (fun fs => foldr (leave t) fs paths)).

(** ** Pinned parents *)
Definition read_pin (e : installTransactionEntry) : Act iworld unit := atomic (fun w =>
  (match iw_fs w !! e_Pin e with
   | Some (FFile _ data) => fail_if (negb (bool_decide (of_bytes data = e_ParentToken e))) (Errorf "filesystem installation parent identity changed")
   | Some _ => Err (Errorf "is a directory")
   | None => Err ErrNotExist
   end, w)).

Definition openInstallRoot (e : installTransactionEntry) : Act iworld unit :=
  _ ← handle; wrapped "filesystem installation parent pin is unavailable" (read_pin e).
Definition openPinnedInstallParent (e : installTransactionEntry) : Act iworld unit := _ ← handle; read_pin e.

(** ** Preparation

    [id] and [token] are the random texts; the directories above the
    destination are made by [mkdirAllDurable]. *)
Definition plain_attr (mode : N) : attr := mkAttr mode 0 0.

Definition ignored (m : Act iworld unit) : Act iworld unit := _ ← outcome m; mret ().

(** Continue, or clean up and return the error. *)
Definition or_clean (m clean : Act iworld unit) : Act iworld unit :=
  done ← outcome m;
  match done with
  | Ok _ => mret ()
  | Err err => _ ← clean; pure (Err err)
  end.

Definition prepareInstallEntry (name destination stagingPrefix id token : string) : Act iworld installTransactionEntry :=
  _ ← pure (fail_if (bool_decide (destination = EmptyString)) (Errorf "filesystem installation destination is empty"));
  let parent := filepath_Dir destination in
  _ ← handle;
  _ ← wrapped "pin filesystem installation parent" handle;
  _ ← handle;
  let staging := filepath_Join parent (stagingPrefix +:+ String.substring 0 24 id) in
  let parentPin := ".malt-install-pin-" +:+ String.substring 24 24 id in
  let pin := filepath_Join parent parentPin in
  _ ← create_new staging (FDir (plain_attr 448) []);
  _ ← or_clean handle (ignored (remove_all [staging]));
  _ ← or_clean (create_new pin (FFile (plain_attr 384) (bytes token))) (ignored (remove_all [staging]));
  _ ← or_clean handle (_ ← ignored (remove_one pin); ignored (remove_all [staging]));
  _ ← or_clean handle (_ ← ignored (remove_one pin); ignored (remove_all [staging]));
  mret (mkEntry name destination staging (filepath_Join staging "next") (filepath_Join staging "previous") parentPin token
          EmptyString EmptyString EmptyString false installPhasePrepared).

(** ** Journal *)
Definition writeInstallTransaction (t : installTransaction) : Act iworld unit :=
  _ ← pure (validateInstallTransaction t);
  syscall (fun w => (Ok (), with_journal (Some t) w)) (fun _ => with_journal (Some t)).
Definition readInstallTransaction : Act iworld (option installTransaction) := atomic (fun w => (Ok (iw_journal w), w)).
Definition removeInstallTransaction : Act iworld unit :=
  syscall (fun w => (Ok (), with_journal None w)) (fun _ => with_journal None).

(** ** Cleanup *)
Definition staging_paths (e : installTransactionEntry) : list string := [e_Staging e; e_Next e; e_Rollback e].

Definition remove_staging (e : installTransactionEntry) : Act iworld unit :=
  _ ← wrapped "pin installation cleanup parent" (openPinnedInstallParent e);
  wrapped "remove installation staging" (_ ← remove_all (staging_paths e); _ ← handle; handle).
Definition removeInstallStaging (entries : list installTransactionEntry) : Act iworld unit := _ ← each remove_staging entries; mret ().

(** The pin is removed unless its parent or itself is gone. *)
Definition remove_pin (e : installTransactionEntry) : Act iworld unit :=
  opened ← outcome (openPinnedInstallParent e);
  match opened with
  | Err err => if errors_Is err ErrNotExist then mret () else pure (Err (Wrapf "pin installation marker parent" err))
  | Ok _ => wrapped "remove installation parent marker" (_ ← remove_one (e_Pin e); _ ← handle; handle)
  end.
Definition removeInstallPins (entries : list installTransactionEntry) : Act iworld unit := _ ← each remove_pin entries; mret ().

Definition cleanupInstallStaging (entries : list installTransactionEntry) : Act iworld unit :=
  _ ← removeInstallStaging entries; removeInstallPins entries.

(** [cleanupInstallError(operationErr, entries)] for an error. *)
Definition cleanupInstallError {A} (operationErr : error) (entries : list installTransactionEntry) : Act iworld A :=
  cleaned ← outcome (cleanupInstallStaging entries);
  pure (Err (match cleaned with
             | Ok _ => operationErr
             | Err c => ErrorsJoin operationErr (Wrapf "clean prepared filesystem installation" c)
             end)).

(** ** Commit *)
Definition check_committed (e : installTransactionEntry) : Act iworld unit :=
  _ ← wrapped "pin committed installation parent" (openInstallRoot e);
  info ← wrapped "committed installation destination is unavailable" (lstat (e_Destination e));
  _ ← handle;
  pure (fail_if (negb (is_dir info)) (Errorf "committed installation destination is unavailable")).

Definition finalizeCommittedInstall (t : installTransaction) : Act iworld unit :=
  _ ← each check_committed (tx_Entries t);
  _ ← removeInstallStaging (tx_Entries t);
  _ ← removeInstallTransaction;
  removeInstallPins (tx_Entries t).

(** ** Recovery *)

(** The quarantine that was created, if any. *)
Definition preserveChangedInstallation (e : installTransactionEntry) : Act iworld (list string) :=
  fingerprint ← plaintextContentFingerprintRoot (e_Destination e);
  if bool_decide (fingerprint = e_InstalledFingerprint e) then
    _ ← wrapped "remove interrupted installation" (remove_all [e_Destination e]);
    _ ← handle; mret []
  else
    there ← outcome (lstat (e_Quarantine e));
    match there with
    | Ok _ => pure (Err (Errorf "recovery quarantine already exists"))
    | Err err =>
        if errors_Is err ErrNotExist then
          _ ← wrapped "quarantine edits" (rename None (e_Destination e) (e_Quarantine e));
          _ ← handle; mret [e_Quarantine e]
        else pure (Err err)
    end.

(** Restore the destination from the preserved tree. *)
Definition restore_preserved (e : installTransactionEntry) (destinationExists quarantineExists : bool) : Act iworld (list string) :=
  moved ← (if destinationExists then preserveChangedInstallation e else mret []);
  _ ← wrapped "restore preserved" (rename None (e_Rollback e) (e_Destination e));
  _ ← handle;
  mret ((if quarantineExists then [e_Quarantine e] else []) ++ moved).

(** The destination was not preserved: it must be untouched. *)
Definition keep_original (e : installTransactionEntry) (destinationExists nextExists quarantineExists : bool) : Act iworld (list string) :=
  untouched ← (if destinationExists
               then fingerprint ← plaintextContentFingerprintRoot (e_Destination e);
                    mret (bool_decide (fingerprint = e_OriginalFingerprint e))
               else mret false);
  if (untouched : bool) then mret (if quarantineExists then [e_Quarantine e] else [])
  else
    _ ← pure (fail_if quarantineExists (Errorf "cannot safely recover original while recovery quarantine exists"));
    _ ← pure (fail_if (negb destinationExists || negb nextExists || negb (bool_decide (e_Phase e = installPhasePrepared)))
                (Errorf "cannot safely recover original from interrupted installation"));
    mret [].

(** There was no destination before. *)
Definition remove_new (e : installTransactionEntry) (destinationExists nextExists quarantineExists : bool) : Act iworld (list string) :=
  if destinationExists then
    _ ← pure (fail_if (nextExists && bool_decide (e_Phase e = installPhasePrepared)) (Errorf "cannot remove unexpected destination"));
    preserveChangedInstallation e
  else mret (if quarantineExists then [e_Quarantine e] else []).

Definition recover_entry (e : installTransactionEntry) : Act iworld (list string) :=
  _ ← wrapped "pin recovery parent" (openInstallRoot e);
  destinationExists ← pathExistsRoot (e_Destination e);
  rollbackExists ← pathExistsRoot (e_Rollback e);
  nextExists ← pathExistsRoot (e_Next e);
  quarantineExists ← pathExistsRoot (e_Quarantine e);
  if e_HadCurrent e then
    if (rollbackExists : bool) then restore_preserved e destinationExists quarantineExists
    else keep_original e destinationExists nextExists quarantineExists
  else remove_new e destinationExists nextExists quarantineExists.

(** Undo a prepared transaction, last entry first. *)
Definition undo (t : installTransaction) : Act iworld unit :=
  quarantined ← each recover_entry (rev (tx_Entries t));
  _ ← removeInstallStaging (tx_Entries t);
  _ ← removeInstallTransaction;
  _ ← removeInstallPins (tx_Entries t);
  pure (fail_if (negb (bool_decide (concat quarantined = []))) ErrRecoveryQuarantine).

Definition recoverInstallTransaction (planID : string) : Act iworld unit :=
  found ← readInstallTransaction;
  match found with
  | None => mret ()
  | Some t =>
      _ ← pure (fail_if (negb (bool_decide (tx_PlanID t = planID))) (Errorf "filesystem installation journal belongs to another backup plan"));
      _ ← pure (fail_if (negb (bool_decide (tx_Version t = installTransactionVersion))) (Errorf "unsupported filesystem installation journal version"));
      _ ← pure (wrap_err "unsafe filesystem installation journal" (validateInstallTransaction t));
      if bool_decide (tx_State t = installStateCommitted) then finalizeCommittedInstall t else undo t
  end.

(** ** Installation *)

(** Only directories, regular files and symbolic links can be persisted. *)
Fixpoint syncable (t : ftree) : bool :=
  match t with
  | FDir _ entries => forallb (fun e => syncable e.2) entries
  | FFile _ _ | FLink _ _ => true
  | FOther _ => false
  end.

(** [syncInstallTree] of the staging directory and what it holds. *)
Definition syncInstallTree (e : installTransactionEntry) : Act iworld unit := atomic (fun w =>
  (match iw_fs w !! e_Staging e with
   | None => Err ErrNotExist
   | Some _ =>
       fail_if (negb (forallb (fun path => match iw_fs w !! path with Some t => syncable t | None => true end) (staging_paths e)))
         (Errorf "prepared installation contains unsupported file type")
   end, w)).

Definition prepare_entry (e : installTransactionEntry) : Act iworld installTransactionEntry :=
  _ ← wrapped "pin prepared installation" (openInstallRoot e);
  original ← (if e_HadCurrent e then wrapped "fingerprint original" (plaintextContentFingerprintRoot (e_Destination e))
              else mret (e_OriginalFingerprint e));
  installed ← wrapped "fingerprint prepared" (plaintextContentFingerprintRoot (e_Next e));
  _ ← wrapped "persist prepared" (syncInstallTree e);
  _ ← wrapped "persist prepared installation parent" handle;
  _ ← handle;
  mret (set_fingerprints original installed e).

Definition transaction_of (planID : string) (state : installState) (entries : list installTransactionEntry) : installTransaction :=
  mkTransaction installTransactionVersion planID state entries.

(** Move the current destination aside. *)
Definition preserve_current (record : installTransactionEntry -> Act iworld unit) (e : installTransactionEntry) : Act iworld installTransactionEntry :=
  _ ← (if bool_decide (e_ExpectedFingerprint e = EmptyString) then mret () else
         actual ← wrapped "recheck before installation" (fingerprintRootedDirectory (e_Destination e) (filepath_Base (e_Destination e)));
         pure (fail_if (negb (bool_decide (actual = e_ExpectedFingerprint e))) (Errorf "changed after backup")));
  current ← wrapped "fingerprint before installation" (plaintextContentFingerprintRoot (e_Destination e));
  _ ← pure (fail_if (negb (bool_decide (current = e_OriginalFingerprint e))) (Errorf "changed while synchronization was being prepared"));
  info ← outcome (lstat (e_Destination e));
  _ ← pure (fail_if (match info with Ok t => negb (is_dir t) | Err _ => true end) (Errorf "binding destination changed during installation"));
  _ ← wrapped "preserve before installation" (rename (Some (e_Staging e)) (e_Destination e) (e_Rollback e));
  _ ← wrapped "persist preserved" handle;
  let e' := set_phase installPhasePreserved e in
  _ ← wrapped "journal preserved" (record e');
  mret e'.

(** The destination must be absent. *)
Definition require_absent (e : installTransactionEntry) : Act iworld installTransactionEntry :=
  there ← outcome (lstat (e_Destination e));
  match there with
  | Err err => if errors_Is err ErrNotExist then mret e else pure (Err (Errorf "binding destination appeared during installation"))
  | Ok _ => pure (Err (Errorf "binding destination appeared during installation"))
  end.

Definition install_entry (record : installTransactionEntry -> Act iworld unit) (e : installTransactionEntry) : Act iworld installTransactionEntry :=
  _ ← wrapped "pin installation parent" (openInstallRoot e);
  e ← (if e_HadCurrent e then preserve_current record e else require_absent e);
  _ ← wrapped "install" (rename None (e_Next e) (e_Destination e));
  _ ← wrapped "persist installed" handle;
  _ ← wrapped "close installation parent" handle;
  let e' := set_phase installPhaseInstalled e in
  _ ← wrapped "journal installed" (record e');
  mret e'.

Fixpoint install_entries (planID : string) (done todo : list installTransactionEntry) : Act iworld (list installTransactionEntry) :=
  match todo with
  | [] => mret done
  | e :: rest =>
      e' ← install_entry (fun e' => writeInstallTransaction (transaction_of planID installStatePrepared (done ++ e' :: rest))) e;
      install_entries planID (done ++ [e']) rest
  end.

(** From the journaled transaction to its commit record. *)
Definition swap (planID : string) (entries : list installTransactionEntry) : Act iworld installTransaction :=
  installed ← install_entries planID [] entries;
  let t := transaction_of planID installStateCommitted installed in
  _ ← wrapped "commit filesystem installation journal" (writeInstallTransaction t);
  mret t.

Definition roll_back {A} (planID : string) (operationErr : error) : Act iworld A :=
  recovered ← outcome (recoverInstallTransaction planID);
  pure (Err (match recovered with Ok _ => operationErr | Err r => Wrapf "automatic rollback also failed" r end)).

(** Fingerprint, persist and journal the prepared entries. *)
Definition begin (planID : string) (entries : list installTransactionEntry) : Act iworld (list installTransactionEntry) :=
  prepared ← each prepare_entry entries;
  let t := transaction_of planID installStatePrepared prepared in
  _ ← pure (validateInstallTransaction t);
  _ ← wrapped "journal prepared filesystem installation" (writeInstallTransaction t);
  mret prepared.

Definition installPrepared (planID : string) (entries : list installTransactionEntry) : Act iworld unit :=
  begun ← outcome (begin planID entries);
  match begun with
  | Err err => cleanupInstallError err entries
  | Ok prepared =>
      swapped ← outcome (swap planID prepared);
      match swapped with
      | Err err => roll_back planID err
      | Ok t => wrapped "finalize committed filesystem installation" (finalizeCommittedInstall t)
      end
  end.
End Install.
