(* ===== verification/InstallFacts.v ===== *)
(** What the system calls of an installation do, and what recovery can do to
    the objects of one entry. *)

From stdpp Require Import base decidable gmap strings list relations.
From Stdlib Require Import Ascii ZArith.
From S2P Require Import Prelude Effect GoText Cache PlainTree Registry Install.

Section Facts.
Context {SH : Sha256} (E : ienv).

(** ** Specifications of actions

    An assertion speaks about the objects and the journal.  [spec P m Q R]:
    from [P], the action ends in [Q] with its value or in [R] with an error. *)
Definition assertion : Type := gmap string ftree -> option installTransaction -> Prop.
Definition holds (P : assertion) (w : iworld) : Prop := P (iw_fs w) (iw_journal w).

Definition spec {A} (P : assertion) (m : Act iworld A) (Q : A -> assertion) (R : assertion) : Prop :=
  forall w, holds P w -> match m w with (Ok a, w') => holds (Q a) w' | (Err _, w') => holds R w' end.

Lemma spec_bind {A B} P (m : Act iworld A) (f : A -> Act iworld B) Q Q' R :
  spec P m Q R -> (forall a, spec (Q a) (f a) Q' R) -> spec P (m ≫= f) Q' R.
Proof. intros Hm Hf w Hw. specialize (Hm w Hw). unfold mbind, Act_bind. destruct (m w) as [[a|e] w']; [|done]. by apply Hf. Qed.

Lemma spec_conseq {A} (P P' : assertion) (m : Act iworld A) (Q Q' : A -> assertion) (R R' : assertion) :
  spec P' m Q' R' -> (forall fs j, P fs j -> P' fs j) -> (forall a fs j, Q' a fs j -> Q a fs j) -> (forall fs j, R' fs j -> R fs j) -> spec P m Q R.
Proof. intros Hm HP HQ HR w Hw. specialize (Hm w (HP _ _ Hw)). destruct (m w) as [[a|e] w']; [by apply HQ|by apply HR]. Qed.

(** A fact of the precondition that does not depend on the state. *)
Lemma spec_fact {A} (P : assertion) (C : Prop) (m : Act iworld A) Q R : (C -> spec P m Q R) -> spec (fun fs j => P fs j /\ C) m Q R.
Proof. intros H w [HP HC]. by apply H. Qed.

Lemma spec_ret {A} (P : assertion) (a : A) (Q : A -> assertion) R : (forall fs j, P fs j -> Q a fs j) -> spec P (mret a) Q R.
Proof. intros H w Hw. by apply H. Qed.

Lemma spec_pure {A} (P : assertion) (r : result A) (Q : A -> assertion) (R : assertion) :
  (forall a fs j, r = Ok a -> P fs j -> Q a fs j) -> (forall fs j, P fs j -> R fs j) -> spec P (pure r) Q R.
Proof. intros H1 H2 w Hw. unfold pure. destruct r; [by apply H1|by apply H2]. Qed.

Lemma spec_wrapped {A} P t (m : Act iworld A) Q R : spec P m Q R -> spec P (wrapped t m) Q R.
Proof. intros H w Hw. specialize (H w Hw). unfold wrapped. by destruct (m w) as [[a|e] w']. Qed.

Lemma spec_outcome {A} (P : assertion) (m : Act iworld A) (Q : A -> assertion) R (R' : assertion) :
  spec P m Q R -> spec P (outcome m) (fun r => match r with Ok a => Q a | Err _ => R end) R'.
Proof. intros H w Hw. specialize (H w Hw). unfold outcome. by destruct (m w) as [[a|e] w']. Qed.

Lemma spec_each {A B} (P : assertion) (f : A -> Act iworld B) l :
  (forall a, a ∈ l -> spec P (f a) (fun _ => P) P) -> spec P (each f l) (fun _ => P) P.
Proof.
  induction l as [|a l IH]; intros H; cbn; [by apply spec_ret|]. eapply spec_bind; [apply H; by left|]. intros b.
  eapply spec_bind; [apply IH; intros; apply H; by right|]. intros bs. by apply spec_ret.
Qed.

(** Calls that only look. *)
Lemma spec_look {A} (P : assertion) (f : iworld -> result A) (R : assertion) : (forall fs j, P fs j -> R fs j) ->
  spec P (atomic E (fun w => (f w, w))) (fun _ => P) R.
Proof.
  intros HR w Hw. unfold atomic, syscall. destruct (ie_fail E (iw_tick w)); [destruct (ie_dirty E (iw_tick w)); by apply HR|].
  destruct (f (ticked w)); [done|by apply HR].
Qed.

Lemma spec_handle (P R : assertion) : (forall fs j, P fs j -> R fs j) -> spec P (handle E) (fun _ => P) R.
Proof. apply (spec_look P (fun _ => Ok ())). Qed.

Lemma spec_exists (P : assertion) path (R : assertion) : (forall fs j, P fs j -> R fs j) ->
  spec P (pathExistsRoot E path) (fun b fs j => P fs j /\ b = bool_decide (is_Some (fs !! path))) R.
Proof.
  intros HR w Hw. unfold pathExistsRoot, atomic, syscall. destruct (ie_fail E (iw_tick w)); [|done].
  destruct (ie_dirty E (iw_tick w)); by apply HR.
Qed.

Definition is_link (t : ftree) : bool := match t with FLink _ _ => true | _ => false end.

(** A fingerprint that a call read: of the tree itself or, for a symbolic link,
    of what the link led to at that call. *)
Definition read_as (f : ftree -> result string) (t : ftree) (s : string) : Prop :=
  f t = Ok s \/ is_link t = true /\ exists tick, ie_link E tick = Ok s.

Lemma spec_fingerprint (P : assertion) f path (R : assertion) : (forall fs j, P fs j -> R fs j) ->
  spec P (fingerprint_with E f path) (fun s fs j => P fs j /\ exists t, fs !! path = Some t /\ read_as f t s) R.
Proof.
  intros HR w Hw. unfold fingerprint_with, atomic, syscall. destruct (ie_fail E (iw_tick w)); [destruct (ie_dirty E (iw_tick w)); by apply HR|].
  change (iw_fs (ticked w)) with (iw_fs w). destruct (iw_fs w !! path) as [t|] eqn:Ep; [|by apply HR].
  assert (forall r, (r = f t \/ is_link t = true /\ r = ie_link E (iw_tick w)) -> match (r, ticked w) with
    | (Ok s, w') => P (iw_fs w') (iw_journal w') /\ exists t0, iw_fs w' !! path = Some t0 /\ read_as f t0 s
    | (Err _, w') => holds R w' end) as Hr.
  { intros [s|err] Hr; [|by apply HR]. split; [done|]. exists t. split; [done|]. destruct Hr as [Hr|[Hl Hr]]; [by left|right; eauto]. }
  destruct t; apply Hr; auto.
Qed.

Lemma spec_lstat (P : assertion) path (R : assertion) : (forall fs j, P fs j -> R fs j) ->
  spec P (lstat E path) (fun t fs j => P fs j /\ fs !! path = Some t) R.
Proof.
  intros HR w Hw. unfold lstat, atomic, syscall. destruct (ie_fail E (iw_tick w)); [destruct (ie_dirty E (iw_tick w)); by apply HR|].
  change (iw_fs (ticked w)) with (iw_fs w). destruct (iw_fs w !! path) eqn:Ep; [|by apply HR]. by split.
Qed.

(** The pin of the entry, with its token. *)
Definition pinned (fs : gmap string ftree) (e : installTransactionEntry) : Prop :=
  exists a, fs !! e_Pin e = Some (FFile a (bytes (e_ParentToken e))).

Lemma spec_pin (P : assertion) e (R : assertion) : (forall fs j, P fs j -> R fs j) ->
  spec P (read_pin E e) (fun _ fs j => P fs j /\ pinned fs e) R.
Proof.
  intros HR w Hw. unfold read_pin, atomic, syscall. destruct (ie_fail E (iw_tick w)); [destruct (ie_dirty E (iw_tick w)); by apply HR|].
  change (iw_fs (ticked w)) with (iw_fs w). destruct (iw_fs w !! e_Pin e) as [[a es|a d|a l|a]|] eqn:Ep; try by apply HR.
  case_bool_decide as Et; cbn; [|by apply HR]. split; [done|]. exists a. unfold ticked. cbn. rewrite <- Et, bytes_of_bytes. done.
Qed.

Lemma spec_open (P : assertion) e (R : assertion) : (forall fs j, P fs j -> R fs j) ->
  spec P (openInstallRoot E e) (fun _ fs j => P fs j /\ pinned fs e) R.
Proof. intros HR. eapply spec_bind; [by apply spec_handle|]. intros ?. cbn beta. by apply spec_wrapped, spec_pin. Qed.
Lemma spec_open_parent (P : assertion) e (R : assertion) : (forall fs j, P fs j -> R fs j) ->
  spec P (openPinnedInstallParent E e) (fun _ fs j => P fs j /\ pinned fs e) R.
Proof. intros HR. eapply spec_bind; [by apply spec_handle|]. intros ?. cbn beta. by apply spec_pin. Qed.

(** ** Renames and removals *)
Lemma spec_rename (P : assertion) into source target (R : assertion) : (forall fs j, P fs j -> R fs j) ->
  spec P (rename E into source target)
    (fun _ fs' j => exists fs t, P fs j /\ fs !! source = Some t /\
       match fs !! target with None => True | Some d => replaceable t d = true end /\ fs' = <[target := t]> (base.delete source fs)) R.
Proof.
  intros HR w Hw. unfold rename, atomic, syscall. destruct (ie_fail E (iw_tick w)); [destruct (ie_dirty E (iw_tick w)); by apply HR|].
  change (iw_fs (ticked w)) with (iw_fs w). destruct (iw_fs w !! source) as [t|] eqn:Es; [|by apply HR].
  destruct (match into with Some d => _ | None => false end); [by apply HR|]. destruct (iw_fs w !! target) as [d|] eqn:Et.
  - destruct (replaceable t d) eqn:Er; [|by apply HR]. exists (iw_fs w), t. rewrite Et. by split_and!.
  - exists (iw_fs w), t. rewrite Et. by split_and!.
Qed.

Lemma spec_remove_all (P : assertion) paths (R : assertion) :
  (forall fs j, P fs j -> R fs j) -> (forall fs j t, P fs j -> R (foldr (leave E t) fs paths) j) ->
  spec P (remove_all E paths) (fun _ fs' j => exists fs, P fs j /\ fs' = foldr base.delete fs paths) R.
Proof.
  intros H1 H2 w Hw. unfold remove_all, syscall. destruct (ie_fail E (iw_tick w)).
  - destruct (ie_dirty E (iw_tick w)); [by apply H2|by apply H1].
  - exists (iw_fs w). by split.
Qed.

Lemma spec_remove_one (P : assertion) path (R : assertion) : (forall fs j, P fs j -> R fs j) ->
  spec P (remove_one E path) (fun _ fs' j => exists fs, P fs j /\ fs' = base.delete path fs) R.
Proof.
  intros HR w Hw. unfold remove_one, atomic, syscall. destruct (ie_fail E (iw_tick w)); [destruct (ie_dirty E (iw_tick w)); by apply HR|].
  change (iw_fs (ticked w)) with (iw_fs w). destruct (iw_fs w !! path); [|by apply HR]. exists (iw_fs w). by split.
Qed.

Lemma spec_write (P : assertion) t (R : assertion) :
  (forall fs j, P fs j -> R fs j) -> (forall fs j, validateInstallTransaction t = Ok () -> P fs j -> R fs (Some t)) ->
  spec P (writeInstallTransaction E t) (fun _ fs j => validateInstallTransaction t = Ok () /\ j = Some t /\ exists j0, P fs j0) R.
Proof.
  intros H1 H2 w Hw. unfold writeInstallTransaction, mbind, Act_bind, pure. destruct (validateInstallTransaction t) as [[]|] eqn:Hv; [|by apply H1].
  unfold syscall. destruct (ie_fail E (iw_tick w)).
  - destruct (ie_dirty E (iw_tick w)); [by eapply H2|by apply H1].
  - split_and!; [done|done|]. by eexists.
Qed.

Lemma leave_lookup t path fs k :
  leave E t path fs !! k = if bool_decide (k = path) then fs !! path ≫= ie_left E t path else fs !! k.
Proof.
  unfold leave. case_bool_decide as Hk; [subst k|].
  - destruct (fs !! path) as [tree|] eqn:Ep; cbn; [|done]. destruct (ie_left E t path tree); [by rewrite lookup_insert_eq|by rewrite lookup_delete_eq].
  - destruct (fs !! path) as [tree|] eqn:Ep; [|done]. destruct (ie_left E t path tree); [by rewrite lookup_insert_ne|by rewrite lookup_delete_ne].
Qed.

Lemma leaves_outside t paths fs k : k ∉ paths -> foldr (leave E t) fs paths !! k = fs !! k.
Proof.
  induction paths as [|p paths IH]; intros Hk; [done|]. cbn. rewrite leave_lookup, bool_decide_eq_false_2 by set_solver. apply IH. set_solver.
Qed.
Lemma leaves_absent t paths fs k : fs !! k = None -> foldr (leave E t) fs paths !! k = None.
Proof.
  intros Hk. induction paths as [|p paths IH]; [done|]. cbn. rewrite leave_lookup. case_bool_decide; [subst; by rewrite IH|done].
Qed.
Lemma deletes_outside {A} (paths : list string) (fs : gmap string A) k : k ∉ paths -> foldr base.delete fs paths !! k = fs !! k.
Proof. induction paths as [|p paths IH]; intros Hk; [done|]. cbn. rewrite lookup_delete_ne by set_solver. apply IH. set_solver. Qed.
Lemma deletes_absent {A} (paths : list string) (fs : gmap string A) k : fs !! k = None -> foldr base.delete fs paths !! k = None.
Proof. intros Hk. induction paths as [|p paths IH]; [done|]. cbn. destruct (decide (k = p)) as [->|]; [by rewrite lookup_delete_eq|by rewrite lookup_delete_ne]. Qed.
Lemma deletes_inside {A} (paths : list string) (fs : gmap string A) k : k ∈ paths -> foldr base.delete fs paths !! k = None.
Proof.
  induction paths as [|p paths IH]; [set_solver|]. intros Hk. cbn. destruct (decide (k = p)) as [->|]; [by rewrite lookup_delete_eq|].
  rewrite lookup_delete_ne by done. apply IH. set_solver.
Qed.

(** ** The objects of an entry *)
Record slots := mkSlots { sl_dest : option ftree; sl_next : option ftree; sl_prev : option ftree; sl_quar : option ftree }.

Definition slots_of (fs : gmap string ftree) (e : installTransactionEntry) : slots :=
  mkSlots (fs !! e_Destination e) (fs !! e_Next e) (fs !! e_Rollback e) (fs !! e_Quarantine e).

(** What recovery may take for the tree that it installed. *)
Definition looks_installed (e : installTransactionEntry) (t : ftree) : Prop :=
  read_as plaintextContentFingerprint t (e_InstalledFingerprint e).

(** Recovery moves the destination only when the preserved tree is there, or
    when there was none before and the prepared tree was installed. *)
Definition removable (e : installTransactionEntry) (s : slots) : Prop :=
  if e_HadCurrent e then is_Some (sl_prev s) else sl_next s = None \/ e_Phase e <> installPhasePrepared.

Inductive undo_step (e : installTransactionEntry) : slots -> slots -> Prop :=
  | undo_remove t n p q rest :
      removable e (mkSlots (Some t) n p q) -> looks_installed e t ->
      rest = None \/ (exists tick, rest = ie_left E tick (e_Destination e) t) ->
      undo_step e (mkSlots (Some t) n p q) (mkSlots rest n p q)
  | undo_quarantine t n p :
      removable e (mkSlots (Some t) n p None) ->
      undo_step e (mkSlots (Some t) n p None) (mkSlots None n p (Some t))
  | undo_restore n o q :
      e_HadCurrent e = true ->
      undo_step e (mkSlots None n (Some o) q) (mkSlots (Some o) n None q).

(** The paths that recovery of an entry may change. *)
Definition touched (e : installTransactionEntry) : list string := [e_Destination e; e_Rollback e; e_Quarantine e].
Definition distinct_paths (e : installTransactionEntry) : Prop :=
  NoDup [e_Destination e; e_Staging e; e_Next e; e_Rollback e; e_Quarantine e; e_Pin e].

Lemma distinct_ne e : distinct_paths e ->
  (e_Destination e <> e_Staging e /\ e_Destination e <> e_Next e /\ e_Destination e <> e_Rollback e /\
   e_Destination e <> e_Quarantine e /\ e_Destination e <> e_Pin e) /\
  (e_Staging e <> e_Next e /\ e_Staging e <> e_Rollback e /\ e_Staging e <> e_Quarantine e /\ e_Staging e <> e_Pin e) /\
  (e_Next e <> e_Rollback e /\ e_Next e <> e_Quarantine e /\ e_Next e <> e_Pin e) /\
  (e_Rollback e <> e_Quarantine e /\ e_Rollback e <> e_Pin e) /\ e_Quarantine e <> e_Pin e.
Proof. unfold distinct_paths. rewrite !NoDup_cons, !not_elem_of_cons. naive_solver. Qed.
End Facts.

(** Inequalities between the paths of an entry. *)
Ltac paths :=
  match goal with
  | He : distinct_paths ?e |- _ =>
      let H := fresh in pose proof (distinct_ne e He) as H; destruct H as ((?&?&?&?&?)&(?&?&?&?)&(?&?&?)&(?&?)&?); congruence
  end.

(** * Recovery of one entry is a sequence of undo steps. *)

(** Failures of system calls do not claim that something is absent, and what
    remains of a directory is a directory that can be read. *)
Definition scannable {SH : Sha256} (t : ftree) : Prop := is_dir t = true /\ exists f, plaintextContentFingerprint t = Ok f.

Section Undo.
Context {SH : Sha256} (E : ienv).

Record sane : Prop := {
  sane_fail : forall t e, ie_fail E t = Some e -> errors_Is e ErrNotExist = false;
  sane_left : forall t path tree rest, scannable tree -> ie_left E t path tree = Some rest -> scannable rest
}.
Context (HE : sane).

Lemma spec_try_lstat (P : assertion) path (R : assertion) :
  spec P (outcome (lstat E path)) (fun r fs j => P fs j /\
    match r with Ok t => fs !! path = Some t | Err err => errors_Is err ErrNotExist = true -> fs !! path = None end) R.
Proof.
  intros w Hw. unfold outcome, lstat, atomic, syscall. destruct (ie_fail E (iw_tick w)) as [err|] eqn:Ef.
  - apply (sane_fail HE) in Ef. destruct (ie_dirty E (iw_tick w)); (split; [done|]); by rewrite Ef.
  - change (iw_fs (ticked w)) with (iw_fs w). destruct (iw_fs w !! path) as [t|] eqn:Ep; cbn; (split; [done|]); [done|]. intros _. exact Ep.
Qed.

Context (e : installTransactionEntry) (He : distinct_paths e) (fs0 : gmap string ftree) (j0 : option installTransaction).

Definition reach (fs : gmap string ftree) : Prop :=
  rtc (undo_step E e) (slots_of fs0 e) (slots_of fs e) /\ forall k, k ∉ touched e -> fs !! k = fs0 !! k.
Definition reached : assertion := fun fs j => j = j0 /\ reach fs.

Lemma reach_refl : reach fs0.
Proof. by split. Qed.

Lemma reach_step fs fs' : reach fs -> undo_step E e (slots_of fs e) (slots_of fs' e) -> (forall k, k ∉ touched e -> fs' !! k = fs !! k) -> reach fs'.
Proof. intros [H1 H2] Hs Hf. split; [by eapply rtc_r|]. intros k Hk. by rewrite Hf, H2. Qed.

Lemma reach_rename_away fs t : reach fs -> fs !! e_Destination e = Some t -> fs !! e_Quarantine e = None -> removable e (slots_of fs e) ->
  reach (<[e_Quarantine e := t]> (base.delete (e_Destination e) fs)).
Proof.
  intros Hr Ht Hq Hrem. apply (reach_step fs); [done| |].
  - unfold slots_of in *. rewrite Ht, Hq in *. rewrite !lookup_insert_ne by paths. rewrite lookup_insert_eq, lookup_delete_eq, !lookup_delete_ne by paths.
    by apply undo_quarantine.
  - intros k Hk. unfold touched in Hk. rewrite lookup_insert_ne, lookup_delete_ne by set_solver. done.
Qed.

Lemma reach_restore fs o : reach fs -> fs !! e_Rollback e = Some o -> fs !! e_Destination e = None -> e_HadCurrent e = true ->
  reach (<[e_Destination e := o]> (base.delete (e_Rollback e) fs)).
Proof.
  intros Hr Ho Hd Hh. apply (reach_step fs); [done| |].
  - unfold slots_of. rewrite Ho, Hd. rewrite lookup_insert_eq, !lookup_insert_ne by paths. rewrite lookup_delete_eq, !lookup_delete_ne by paths.
    by apply undo_restore.
  - intros k Hk. unfold touched in Hk. rewrite lookup_insert_ne, lookup_delete_ne by set_solver. done.
Qed.

Lemma reach_remove fs t fs' rest : reach fs -> fs !! e_Destination e = Some t -> removable e (slots_of fs e) -> looks_installed E e t ->
  rest = None \/ (exists tick, rest = ie_left E tick (e_Destination e) t) ->
  (forall k, fs' !! k = if bool_decide (k = e_Destination e) then rest else fs !! k) -> reach fs'.
Proof.
  intros Hr Ht Hrem Hl Hrest Hf. apply (reach_step fs); [done| |].
  - unfold slots_of in *. rewrite !Hf, bool_decide_eq_true_2, !bool_decide_eq_false_2 by (done || paths). rewrite Ht in *. by apply undo_remove.
  - intros k Hk. unfold touched in Hk. rewrite Hf, bool_decide_eq_false_2 by set_solver. done.
Qed.

(** Clearing the destination. *)
Definition starting : assertion := fun fs j => fs = fs0 /\ j = j0.
Lemma starting_reached fs j : starting fs j -> reached fs j.
Proof. intros [-> ->]. split; [done|apply reach_refl]. Qed.

Definition cleared : assertion := fun fs j => reached fs j /\ fs !! e_Destination e = None /\ fs !! e_Rollback e = fs0 !! e_Rollback e.

Lemma looks_by f t : f = e_InstalledFingerprint e -> read_as E plaintextContentFingerprint t f -> looks_installed E e t.
Proof. by intros ->. Qed.

Lemma spec_preserve : removable e (slots_of fs0 e) -> spec starting (preserveChangedInstallation E e) (fun _ => cleared) reached.
Proof.
  intros Hrem. unfold preserveChangedInstallation. eapply spec_bind; [apply spec_fingerprint, starting_reached|].
  intros f. cbn beta. case_bool_decide as Ef.
  - apply (spec_bind _ _ _ (fun _ => cleared)).
    2: { intros ?. eapply spec_bind; [apply spec_handle; by intros fs j [? _]|]. intros ?. by apply spec_ret. }
    apply spec_wrapped. eapply spec_conseq; [apply (spec_remove_all E _ [e_Destination e] reached)|intros fs j H; exact H| |intros fs j H; exact H].
    + intros fs j [? _]. by apply starting_reached.
    + intros fs j t [[-> ->] (tree & Ht & Hl)]. split; [done|].
      eapply (reach_remove fs0 tree _ (ie_left E t (e_Destination e) tree)); eauto using looks_by, reach_refl.
      intros k. cbn. rewrite leave_lookup. case_bool_decide; [|done]. by rewrite Ht.
    + intros ? fs' j (fs & [[-> ->] (tree & Ht & Hl)] & ->). cbn [foldr]. split; [|rewrite lookup_delete_eq; split; [done|by rewrite lookup_delete_ne by paths]].
      split; [done|]. eapply (reach_remove fs0 tree _ None); eauto using looks_by, reach_refl.
      intros k. case_bool_decide as Hk; [subst; by rewrite lookup_delete_eq|by rewrite lookup_delete_ne].
  - eapply spec_bind; [apply spec_try_lstat|]. intros [t|err]; cbn beta iota.
    { apply spec_pure; [done|]. intros fs j [[? _] _]. by apply starting_reached. }
    destruct (errors_Is err ErrNotExist); [|apply spec_pure; [done|]; intros fs j [[? _] _]; by apply starting_reached].
    apply (spec_bind _ _ _ (fun _ => cleared)).
    2: { intros ?. eapply spec_bind; [apply spec_handle; by intros fs j [? _]|]. intros ?. by apply spec_ret. }
    apply spec_wrapped. eapply spec_conseq; [apply (spec_rename E _ _ _ _ reached)|intros fs j H; exact H| |intros fs j H; exact H].
    { intros fs j [[? _] _]. by apply starting_reached. }
    intros ? fs' j (fs & t & [[[-> ->] _] Hq] & Ht & _ & ->). specialize (Hq eq_refl). split; [|split].
    + split; [done|]. by apply reach_rename_away; [apply reach_refl|..].
    + rewrite lookup_insert_ne, lookup_delete_eq by paths. done.
    + by rewrite lookup_insert_ne, lookup_delete_ne by paths.
Qed.

(** The entry is as before the installation. *)
Definition settled (fs : gmap string ftree) : Prop :=
  if e_HadCurrent e then
    match fs0 !! e_Rollback e with
    | Some o => fs !! e_Destination e = Some o /\ fs !! e_Rollback e = None
    | None => fs = fs0 /\ is_Some (fs0 !! e_Destination e)
    end
  else fs !! e_Destination e = None.
Definition restored : assertion := fun fs j => reached fs j /\ settled fs.

Lemma spec_restore o q : e_HadCurrent e = true -> fs0 !! e_Rollback e = Some o ->
  spec starting (restore_preserved E e (bool_decide (is_Some (fs0 !! e_Destination e))) q) (fun _ => restored) reached.
Proof.
  intros Hh Ho. unfold restore_preserved. apply (spec_bind _ _ _ (fun _ => cleared)).
  { case_bool_decide as Hd.
    - apply spec_preserve. unfold removable, slots_of. rewrite Hh. cbn. by rewrite Ho.
    - apply spec_ret. intros fs j Hs. split_and!; [by apply starting_reached| |by destruct Hs as [-> _]].
      destruct Hs as [-> _]. destruct (fs0 !! e_Destination e); [|done]. by destruct Hd. }
  intros moved. apply (spec_bind _ _ _ (fun _ => restored)).
  2: { intros ?. eapply spec_bind; [apply spec_handle; by intros fs j [? _]|]. intros ?. by apply spec_ret. }
  apply spec_wrapped. eapply spec_conseq; [apply (spec_rename E _ _ _ _ reached)|intros fs j H; exact H| |intros fs j H; exact H].
  { by intros fs j [? _]. }
  intros ? fs' j (fs & t & [[-> Hr] [Hd Hp]] & Ht & _ & ->). rewrite Hp, Ho in Ht. injection Ht as <-. split.
  - split; [done|]. apply reach_restore; [done|by rewrite Hp|done|done].
  - unfold settled. rewrite Hh, Ho, lookup_insert_eq. split; [done|]. by rewrite lookup_insert_ne, lookup_delete_eq by paths.
Qed.

Lemma spec_keep n q : e_HadCurrent e = true -> fs0 !! e_Rollback e = None ->
  spec starting (keep_original E e (bool_decide (is_Some (fs0 !! e_Destination e))) n q) (fun _ => restored) reached.
Proof.
  intros Hh Ho. assert (is_Some (fs0 !! e_Destination e) -> forall fs j, starting fs j -> restored fs j) as Hs.
  { intros Hd fs j H. split; [by apply starting_reached|]. unfold settled. rewrite Hh, Ho. by destruct H as [-> _]. }
  unfold keep_original. case_bool_decide as Hd.
  - apply (spec_bind _ _ _ (fun _ => starting)).
    { eapply spec_bind; [apply spec_fingerprint, starting_reached|]. intros f. apply spec_ret. by intros fs j [? _]. }
    intros untouched. destruct untouched; [apply spec_ret, Hs; done|].
    apply (spec_bind _ _ _ (fun _ => starting)); [apply spec_pure; [done|apply starting_reached]|]. intros ?.
    apply (spec_bind _ _ _ (fun _ => starting)); [apply spec_pure; [done|apply starting_reached]|]. intros ?. apply spec_ret, Hs. done.
  - apply (spec_bind _ _ _ (fun u fs j => u = false /\ starting fs j)); [by apply spec_ret|]. intros [|]; [intros w [? _]; done|].
    apply (spec_bind _ _ _ (fun _ => starting)); [apply spec_pure; [by intros ? ? ? _ [_ ?]|intros ? ? [_ ?]; by apply starting_reached]|]. intros ?.
    eapply spec_bind; [apply (spec_pure starting _ (fun _ _ _ => False)); [done|apply starting_reached]|]. intros ?. by apply spec_ret.
Qed.

Lemma spec_remove_new (q : bool) : e_HadCurrent e = false ->
  spec starting (remove_new E e (bool_decide (is_Some (fs0 !! e_Destination e))) (bool_decide (is_Some (fs0 !! e_Next e))) q) (fun _ => restored) reached.
Proof.
  intros Hh. unfold remove_new. case_bool_decide as Hd.
  - destruct (decide (is_Some (fs0 !! e_Next e) /\ e_Phase e = installPhasePrepared)) as [[Hn Hp]|Hn].
    + rewrite !bool_decide_eq_true_2 by done. eapply spec_bind; [apply (spec_pure starting _ (fun _ _ _ => False)); [done|apply starting_reached]|].
      intros ? w Hw. destruct Hw.
    + assert (bool_decide (is_Some (fs0 !! e_Next e)) && bool_decide (e_Phase e = installPhasePrepared) = false) as ->.
      { apply andb_false_iff. rewrite !bool_decide_eq_false. destruct (decide (is_Some (fs0 !! e_Next e))); [right|left]; naive_solver. }
      apply (spec_bind _ _ _ (fun _ => starting)); [apply spec_pure; [done|apply starting_reached]|]. intros ?.
      eapply spec_conseq; [apply spec_preserve|done| |done].
      * unfold removable, slots_of. rewrite Hh. cbn. destruct (fs0 !! e_Next e) eqn:En; [right; intros Hp; destruct Hn; eauto|by left].
      * intros ? fs j (Hr & Hd' & _). split; [done|]. unfold settled. by rewrite Hh.
  - apply spec_ret. intros fs j H. split; [by apply starting_reached|]. unfold settled. rewrite Hh. destruct H as [-> _].
    destruct (fs0 !! e_Destination e); [by destruct Hd|done].
Qed.

(** Recovery of an entry: whatever fails, the journal stays and the objects of
    the entry only take undo steps; when it succeeds, the entry is settled. *)
Lemma spec_recover_entry : spec starting (recover_entry E e) (fun _ => restored) reached.
Proof.
  unfold recover_entry. eapply spec_bind; [apply spec_wrapped, spec_open, starting_reached|]. intros ?. cbn beta.
  eapply (spec_bind _ _ _ (fun d fs j => starting fs j /\ d = bool_decide (is_Some (fs0 !! e_Destination e)))).
  { eapply spec_conseq; [apply (spec_exists E starting _ reached), starting_reached|by intros fs j [? _]|by intros ? fs j [[-> ->] ->]|done]. }
  intros d. eapply (spec_bind _ _ _ (fun r fs j => starting fs j /\ d = bool_decide (is_Some (fs0 !! e_Destination e)) /\ r = bool_decide (is_Some (fs0 !! e_Rollback e)))).
  { intros w [Hs ->]. pose proof (spec_exists E starting (e_Rollback e) reached starting_reached w Hs) as H.
    destruct (pathExistsRoot E (e_Rollback e) w) as [[b|err] w']; [|done]. destruct H as [[Hf ?] ->]. rewrite Hf. split_and!; [|done|done]. by split. }
  intros r. eapply (spec_bind _ _ _ (fun n fs j => starting fs j /\ d = bool_decide (is_Some (fs0 !! e_Destination e)) /\
    r = bool_decide (is_Some (fs0 !! e_Rollback e)) /\ n = bool_decide (is_Some (fs0 !! e_Next e)))).
  { intros w (Hs & -> & ->). pose proof (spec_exists E starting (e_Next e) reached starting_reached w Hs) as H.
    destruct (pathExistsRoot E (e_Next e) w) as [[b|err] w']; [|done]. destruct H as [[Hf ?] ->]. rewrite Hf. split_and!; [|done..]. by split. }
  intros n. eapply (spec_bind _ _ _ (fun q fs j => starting fs j /\ d = bool_decide (is_Some (fs0 !! e_Destination e)) /\
    r = bool_decide (is_Some (fs0 !! e_Rollback e)) /\ n = bool_decide (is_Some (fs0 !! e_Next e)))).
  { intros w (Hs & -> & -> & ->). pose proof (spec_exists E starting (e_Quarantine e) reached starting_reached w Hs) as H.
    destruct (pathExistsRoot E (e_Quarantine e) w) as [[b|err] w']; [|done]. destruct H as [[Hf ?] ->]. split_and!; [|done..]. by split. }
  intros q w (Hs & -> & -> & ->). revert w Hs. destruct (e_HadCurrent e) eqn:Hh; [|by apply spec_remove_new].
  case_bool_decide as Hp; [destruct Hp as [o Ho]; by eapply spec_restore|]. apply spec_keep; [done|]. destruct (fs0 !! e_Rollback e); [by destruct Hp|done].
Qed.
End Undo.
