(* ===== verification/InstallRuns.v ===== *)
(** The invariant of an installation: before the commit record every original
    is at its destination or preserved, and the objects of every entry are in a
    state from which recovery restores it. *)

From stdpp Require Import base decidable gmap strings list relations.
From Stdlib Require Import Ascii ZArith.
From S2P Require Import Prelude Effect GoText Cache PlainTree Registry Install InstallFacts.

Definition keys (e : installTransactionEntry) : list string :=
  [e_Destination e; e_Staging e; e_Next e; e_Rollback e; e_Quarantine e; e_Pin e].

(** No two entries name the same object. *)
Definition separate (ts : list installTransactionEntry) : Prop := NoDup (concat (keys <$> ts)).

Lemma separate_cons t ts : separate (t :: ts) <-> distinct_paths t /\ (forall k, k ∈ keys t -> forall t', t' ∈ ts -> k ∉ keys t') /\ separate ts.
Proof.
  unfold separate, distinct_paths. cbn [fmap list_fmap concat]. fold (keys t). rewrite NoDup_app. f_equiv. f_equiv.
  split; intros H k Hk; [intros t' Ht' Hk'|]; [|intros (l & Hl & Hkl)%list_elem_of_In%in_concat].
  - apply (H k Hk). apply list_elem_of_In, in_concat. exists (keys t'). split; [|by apply list_elem_of_In].
    by apply list_elem_of_In, list_elem_of_fmap_2.
  - apply list_elem_of_In, list_elem_of_fmap in Hl as (t' & -> & Ht'). apply (H k Hk t' Ht'). by apply list_elem_of_In.
Qed.

Lemma separate_distinct ts t : separate ts -> t ∈ ts -> distinct_paths t.
Proof. induction ts as [|x ts IH]; [set_solver|]. intros (Hd & _ & Hs)%separate_cons [->|Hin]%elem_of_cons; [done|by apply IH]. Qed.

Lemma separate_unique ts t t' k : separate ts -> t ∈ ts -> t' ∈ ts -> k ∈ keys t -> k ∈ keys t' -> t = t'.
Proof.
  induction ts as [|x ts IH]; [set_solver|]. intros (_ & Ha & Hs)%separate_cons [->|Ht]%elem_of_cons [->|Ht']%elem_of_cons Hk Hk'.
  - done.
  - by destruct (Ha k Hk t' Ht').
  - by destruct (Ha k Hk' t Ht).
  - by apply IH.
Qed.

Lemma separate_Permutation ts ts' : ts ≡ₚ ts' -> separate ts -> separate ts'.
Proof. unfold separate. intros Hp. by rewrite Hp. Qed.

(** The same entry at another point of the transaction. *)
Record same_entry (e e' : installTransactionEntry) : Prop := {
  se_keys : keys e' = keys e;
  se_had : e_HadCurrent e' = e_HadCurrent e;
  se_token : e_ParentToken e' = e_ParentToken e
}.

Lemma same_entry_refl e : same_entry e e.
Proof. by split. Qed.
Lemma same_entry_trans e1 e2 e3 : same_entry e1 e2 -> same_entry e2 e3 -> same_entry e1 e3.
Proof. intros [? ? ?] [? ? ?]. split; congruence. Qed.
Lemma same_slots fs e e' : same_entry e e' -> slots_of fs e' = slots_of fs e.
Proof. intros [H _ _]. unfold keys in H. unfold slots_of. congruence. Qed.
Lemma same_distinct e e' : same_entry e e' -> distinct_paths e -> distinct_paths e'.
Proof. intros [H _ _]. unfold distinct_paths. fold (keys e) (keys e'). by rewrite H. Qed.
Lemma same_pinned fs e e' : same_entry e e' -> pinned fs e -> pinned fs e'.
Proof. intros [H _ Ht]. unfold keys in H. unfold pinned. rewrite Ht. by assert (e_Pin e' = e_Pin e) as -> by congruence. Qed.

Section Inv.
Context {SH : Sha256}.

(** ** One entry

    [o] is the destination before the installation. *)
Definition recoverable (o : option ftree) (e : installTransactionEntry) (s : slots) : Prop :=
  if e_HadCurrent e then
    exists t, o = Some t /\ plaintextContentFingerprint t = Ok (e_OriginalFingerprint e) /\ is_link t = false /\
      (sl_prev s = Some t /\ (sl_dest s = None \/ exists x, sl_dest s = Some x /\ scannable x /\ sl_quar s = None) \/
       sl_prev s = None /\ sl_dest s = Some t)
  else
    o = None /\ (sl_dest s = None \/
      exists x, sl_dest s = Some x /\ scannable x /\ sl_quar s = None /\ (sl_next s = None \/ e_Phase e <> installPhasePrepared)).

Lemma undo_recoverable E o e s s' : sane E -> undo_step E e s s' -> recoverable o e s -> recoverable o e s'.
Proof.
  intros HE Hs. unfold recoverable. destruct (e_HadCurrent e) eqn:Hh.
  - intros (t & -> & Hf & Hlk & H). exists t. split_and!; [done..|]. destruct Hs as [x n p q rest Hrem Hl Hrest|x n p Hrem|n o' q _]; cbn in *.
    + destruct H as [[-> [?|(x' & [= <-] & Hsc & ->)]]|[-> ?]]; [done| |unfold removable in Hrem; rewrite Hh in Hrem; by destruct Hrem].
      left. split; [done|]. destruct Hrest as [->|(tick & ->)]; [by left|].
      destruct (ie_left E tick (e_Destination e) x) as [y|] eqn:Ey; [right|by left]. exists y. split_and!; [done|by eapply sane_left|done].
    + destruct H as [[-> _]|[-> ?]]; [left; split; [done|by left]|]. unfold removable in Hrem. rewrite Hh in Hrem. by destruct Hrem.
    + destruct H as [[[= <-] _]|[? _]]; [by right|done].
  - intros [-> H]. split; [done|]. destruct Hs as [x n p q rest Hrem Hl Hrest|x n p Hrem|n o' q Hx]; cbn in *; [| |congruence].
    + destruct H as [?|(x' & [= <-] & Hsc & -> & Hn)]; [done|]. destruct Hrest as [->|(tick & ->)]; [by left|].
      destruct (ie_left E tick (e_Destination e) x) as [y|] eqn:Ey; [right|by left]. exists y. split_and!; [done|by eapply sane_left|done|done].
    + by left.
Qed.

Lemma rtc_recoverable E o e s s' : sane E -> rtc (undo_step E e) s s' -> recoverable o e s -> recoverable o e s'.
Proof. intros HE. induction 1; [done|]. intros Hr. by eapply IHrtc, undo_recoverable. Qed.

(** The entry is undone: its destination is the original, nothing is preserved. *)
Definition undone (o : option ftree) (e : installTransactionEntry) (fs : gmap string ftree) : Prop :=
  fs !! e_Destination e = o /\ (e_HadCurrent e = true -> fs !! e_Rollback e = None).

(** The facts that the journal records about the original. *)
Definition recorded (o : option ftree) (e : installTransactionEntry) : Prop :=
  if e_HadCurrent e then exists t, o = Some t /\ plaintextContentFingerprint t = Ok (e_OriginalFingerprint e) /\ is_link t = false else o = None.

Lemma recoverable_recorded o e s : recoverable o e s -> recorded o e.
Proof. unfold recoverable, recorded. destruct (e_HadCurrent e); naive_solver. Qed.

Lemma undone_recoverable o e fs : recorded o e -> undone o e fs -> recoverable o e (slots_of fs e).
Proof.
  unfold recorded, undone, recoverable. destruct (e_HadCurrent e).
  - intros (t & -> & Hf & Hl) [Hd Hp]. exists t. split_and!; [done..|]. right. cbn. split; [by apply Hp|done].
  - intros -> [Hd _]. split; [done|]. by left.
Qed.

Lemma settled_undone o e fs0 fs : recoverable o e (slots_of fs0 e) -> settled e fs0 fs -> undone o e fs.
Proof.
  unfold recoverable, settled, undone. destruct (e_HadCurrent e).
  - intros (t & -> & _ & _ & H) Hs. cbn in H. destruct (fs0 !! e_Rollback e) as [p|] eqn:Ep.
    + destruct H as [[[= ->] _]|[? _]]; [|done]. destruct Hs as [-> ->]. done.
    + destruct H as [[? _]|[_ Hd]]; [done|]. destruct Hs as [-> _]. rewrite Hd, Ep. done.
  - intros [-> _] ->. done.
Qed.

(** ** All entries

    [orig] is the destination before the installation; it only depends on the
    path. *)
Context (before : gmap string ftree).
Definition orig (e : installTransactionEntry) : option ftree := before !! e_Destination e.
Definition all_undone (ts : list installTransactionEntry) (fs : gmap string ftree) : Prop := forall t, t ∈ ts -> undone (orig t) t fs.
Definition all_recorded (ts : list installTransactionEntry) : Prop := forall t, t ∈ ts -> recorded (orig t) t.
Definition all_recoverable (ts : list installTransactionEntry) (fs : gmap string ftree) : Prop :=
  forall t, t ∈ ts -> recoverable (orig t) t (slots_of fs t).

Lemma slots_ext fs fs' e : (forall k, k ∈ keys e -> fs' !! k = fs !! k) -> slots_of fs' e = slots_of fs e.
Proof. intros H. unfold slots_of. rewrite !H by (unfold keys; set_solver). done. Qed.

Lemma undone_ext o fs fs' e : (forall k, k ∈ keys e -> fs' !! k = fs !! k) -> undone o e fs -> undone o e fs'.
Proof. intros H. unfold undone. by rewrite !H by (unfold keys; set_solver). Qed.

(** A change at the keys of one entry does not affect the others. *)
Lemma other_keys ts t t' (fs fs' : gmap string ftree) : separate ts -> t ∈ ts -> t' ∈ ts -> t <> t' ->
  (forall k, k ∉ keys t -> fs' !! k = fs !! k) -> forall k, k ∈ keys t' -> fs' !! k = fs !! k.
Proof. intros Hs Ht Ht' Hne Hf k Hk. apply Hf. intros Hin. apply Hne. by eapply separate_unique. Qed.

Lemma touched_keys e k : k ∉ keys e -> k ∉ touched e.
Proof. unfold keys, touched. set_solver. Qed.

Context (E : ienv) (HE : sane E).

(** Recovering some of the entries. *)
Lemma spec_recover_each ts l j0 done_ : separate ts -> l ⊆ ts -> done_ ⊆ ts ->
  spec (fun fs j => j = j0 /\ all_recoverable ts fs /\ all_undone done_ fs) (each (recover_entry E) l)
    (fun _ fs j => j = j0 /\ all_recoverable ts fs /\ all_undone (done_ ++ l) fs) (fun fs j => j = j0 /\ all_recoverable ts fs).
Proof using HE.
  intros Hs. revert done_. induction l as [|e l IH]; intros done_ Hl Hd; cbn [each].
  { apply spec_ret. intros fs j. by rewrite app_nil_r. }
  assert (e ∈ ts) as He by (apply Hl; by left).
  apply (spec_bind _ _ _ (fun _ fs j => j = j0 /\ all_recoverable ts fs /\ all_undone (done_ ++ [e]) fs)).
  - intros w (Hj & Hr & Hu). pose proof (spec_recover_entry E HE e (separate_distinct _ _ Hs He) (iw_fs w) (iw_journal w) w) as H.
    specialize (H (conj eq_refl eq_refl)).
    assert (forall fs', reach E e (iw_fs w) fs' -> all_recoverable ts fs' /\ forall t, t ∈ ts -> t <> e -> forall k, k ∈ keys t -> fs' !! k = iw_fs w !! k) as Hstep.
    { intros fs' [Hrt Hf]. assert (forall t, t ∈ ts -> t <> e -> forall k, k ∈ keys t -> fs' !! k = iw_fs w !! k) as Hk.
      { intros t Ht Hne. apply (other_keys ts e t); [done..|]. intros k Hk. by apply Hf, touched_keys. }
      split; [|done]. intros t Ht. destruct (decide (t = e)) as [->|Hne]; [eapply rtc_recoverable; [done|exact Hrt|by apply Hr]|].
      rewrite (slots_ext _ _ _ (Hk t Ht Hne)). by apply Hr. }
    destruct (recover_entry E e w) as [[q|err] w'].
    + destruct H as [[Hj' Hre] Hset]. destruct (Hstep _ Hre) as [Hr' Hk]. split_and!; [by rewrite Hj'|done|].
      intros t [Ht| ->%list_elem_of_singleton]%elem_of_app; [|by eapply settled_undone; [apply Hr|]].
      destruct (decide (t = e)) as [->|Hne]; [by eapply settled_undone; [apply Hr|]|].
      eapply undone_ext; [|by apply Hu]. apply Hk; [by apply Hd|done].
    + destruct H as [Hj' Hre]. destruct (Hstep _ Hre) as [Hr' _]. split; [by rewrite Hj'|done].
  - intros q. eapply spec_bind.
    { apply (IH (done_ ++ [e])); [intros t Ht; apply Hl; by right|]. intros t [Ht| ->%list_elem_of_singleton]%elem_of_app; [by apply Hd|done]. }
    intros qs. cbn beta. apply spec_ret. intros fs j (Hj & Hr & Hu). split_and!; [done|done|]. by rewrite <- app_assoc in Hu.
Qed.
End Inv.

(** * Whole runs of installation and recovery keep the invariant. *)

Section Runs.
Context {SH : Sha256} (before : gmap string ftree) (es : list installTransactionEntry) (planID : string).
Context (Hsep : separate es).

Definition versions (ts : list installTransactionEntry) : Prop := Forall2 same_entry es ts.

Lemma versions_keys ts : versions ts -> keys <$> ts = keys <$> es.
Proof. unfold versions. clear Hsep. induction 1 as [|e t l l' [Hk _ _] _ IH]; [done|]. rewrite !fmap_cons. by rewrite Hk, IH. Qed.
Lemma versions_separate ts : versions ts -> separate ts.
Proof. intros H. unfold separate. by rewrite (versions_keys _ H). Qed.
Lemma versions_elem ts t : versions ts -> t ∈ ts -> exists e, e ∈ es /\ same_entry e t.
Proof.
  intros H Ht. destruct (list_elem_of_lookup_1 _ _ Ht) as [i Hi]. destruct (Forall2_lookup_r _ _ _ _ _ H Hi) as (e & He & Hs).
  exists e. split; [by eapply list_elem_of_lookup_2|done].
Qed.
Lemma versions_elem' ts e : versions ts -> e ∈ es -> exists t, t ∈ ts /\ same_entry e t.
Proof.
  intros H He. destruct (list_elem_of_lookup_1 _ _ He) as [i Hi]. destruct (Forall2_lookup_l _ _ _ _ _ H Hi) as (t & Ht & Hs).
  exists t. split; [by eapply list_elem_of_lookup_2|done].
Qed.
Lemma same_orig e t : same_entry e t -> orig before t = orig before e.
Proof. intros [H _ _]. unfold keys in H. unfold orig. congruence. Qed.
Lemma same_undone o fs e t : same_entry e t -> undone o e fs <-> undone o t fs.
Proof. intros [H Hh _]. unfold keys in H. unfold undone. rewrite Hh. by assert (e_Destination t = e_Destination e /\ e_Rollback t = e_Rollback e) as [-> ->] by (split; congruence). Qed.

(** ** The invariant *)
Definition inst (e : installTransactionEntry) : option ftree := before !! e_Next e.
Definition all_orig (fs : gmap string ftree) : Prop := forall e, e ∈ es -> fs !! e_Destination e = orig before e.
Definition all_inst (fs : gmap string ftree) : Prop := forall e, e ∈ es -> fs !! e_Destination e = inst e.
Definition all_pinned (fs : gmap string ftree) : Prop := forall e, e ∈ es -> pinned fs e.

Record journaled (T : installTransaction) : Prop := {
  jo_versions : versions (tx_Entries T);
  jo_plan : tx_PlanID T = planID;
  jo_valid : validateInstallTransaction T = Ok ()
}.

(** With [pins], the parents of a journaled transaction are still pinned. *)
Definition Inv (pins : bool) : assertion := fun fs j =>
  match j with
  | None => all_orig fs \/ all_inst fs
  | Some T => journaled T /\ (pins = true -> all_pinned fs) /\
      match tx_State T with
      | installStatePrepared => all_recoverable before (tx_Entries T) fs
      | installStateCommitted => all_inst fs
      | InstallStateOther _ => False
      end
  end.

(** ** Cleaning up *)

(** Predicates that removing staged objects or pins does not affect. *)
Definition staging_stable (ts : list installTransactionEntry) (P : gmap string ftree -> Prop) : Prop :=
  forall t fs fs', t ∈ ts -> P fs -> (forall k, k ∉ staging_paths t -> fs' !! k = fs !! k) -> (forall k, fs !! k = None -> fs' !! k = None) -> P fs'.
Definition pin_stable (ts : list installTransactionEntry) (P : gmap string ftree -> Prop) : Prop :=
  forall t fs, t ∈ ts -> P fs -> P (base.delete (e_Pin t) fs).

Lemma staging_key t k : k ∈ staging_paths t -> k ∈ keys t.
Proof. clear Hsep. unfold staging_paths, keys. set_solver. Qed.

Lemma dest_not_staging ts t t' : separate ts -> t ∈ ts -> t' ∈ ts -> e_Destination t ∉ staging_paths t'.
Proof. clear Hsep.
  intros Hs Ht Ht' Hin. assert (t = t') as -> by (eapply (separate_unique ts t t' (e_Destination t)); [done|done|done|by left|by apply staging_key]).
  pose proof (separate_distinct _ _ Hs Ht') as Hd. unfold staging_paths in Hin. rewrite !elem_of_cons in Hin. destruct Hin as [?|[?|[?|?]]]; try paths; set_solver.
Qed.
Lemma pin_not_staging ts t t' : separate ts -> t ∈ ts -> t' ∈ ts -> e_Pin t ∉ staging_paths t'.
Proof. clear Hsep.
  intros Hs Ht Ht' Hin. assert (e_Pin t ∈ keys t) as Hk by (unfold keys; set_solver).
  assert (t = t') as -> by (eapply (separate_unique ts t t' (e_Pin t)); [done|done|done|done|by apply staging_key]).
  pose proof (separate_distinct _ _ Hs Ht') as Hd. unfold staging_paths in Hin. rewrite !elem_of_cons in Hin. destruct Hin as [?|[?|[?|?]]]; try paths; set_solver.
Qed.
Lemma key_not_pin ts t t' k : separate ts -> t ∈ ts -> t' ∈ ts -> k ∈ [e_Destination t; e_Rollback t; e_Next t; e_Quarantine t] -> k <> e_Pin t'.
Proof. clear Hsep.
  intros Hs Ht Ht' Hk ->. assert (t = t') as -> by (eapply (separate_unique ts t t' (e_Pin t')); [done|done|done|unfold keys; set_solver|unfold keys; set_solver]).
  pose proof (separate_distinct _ _ Hs Ht') as Hd. rewrite !elem_of_cons in Hk. destruct Hk as [?|[?|[?|[?|?]]]]; try paths; set_solver.
Qed.

Lemma stable_and ts P Q : staging_stable ts P -> staging_stable ts Q -> staging_stable ts (fun fs => P fs /\ Q fs).
Proof. intros HP HQ t fs fs' Ht [? ?] H1 H2. split; [by eapply HP|by eapply HQ]. Qed.

Lemma undone_stable ts : versions ts -> staging_stable ts (all_undone before ts) /\ pin_stable ts (all_undone before ts).
Proof.
  intros Hv%versions_separate. split.
  - intros t fs fs' Ht Hu H1 H2 t' Ht'. destruct (Hu t' Ht') as [Hd Hp]. split; [|intros Hh; by apply H2, Hp].
    rewrite H1; [done|]. by eapply dest_not_staging.
  - intros t fs Ht Hu t' Ht'. destruct (Hu t' Ht') as [Hd Hp]. unfold undone.
    rewrite !lookup_delete_ne by (apply not_eq_sym, (key_not_pin ts t' t); [done..|set_solver]). done.
Qed.

Lemma inst_stable ts : versions ts -> staging_stable ts all_inst /\ pin_stable ts all_inst.
Proof.
  intros Hv. pose proof (versions_separate _ Hv) as Hs. split.
  - intros t fs fs' Ht Hi H1 _ e He. destruct (versions_elem' _ _ Hv He) as (t' & Ht' & Hsame).
    assert (e_Destination e = e_Destination t') as E by (destruct Hsame as [H _ _]; unfold keys in H; congruence).
    rewrite E, H1, <- E; [by apply Hi|]. by eapply dest_not_staging.
  - intros t fs Ht Hi e He. destruct (versions_elem' _ _ Hv He) as (t' & Ht' & Hsame).
    assert (e_Destination e = e_Destination t') as E by (destruct Hsame as [H _ _]; unfold keys in H; congruence).
    rewrite lookup_delete_ne; [by apply Hi|]. rewrite E. apply not_eq_sym, (key_not_pin ts t' t); [done..|set_solver].
Qed.

Lemma pinned_stable ts : versions ts -> staging_stable ts all_pinned.
Proof.
  intros Hv t fs fs' Ht Hi H1 _ e He. destruct (versions_elem' _ _ Hv He) as (t' & Ht' & Hsame).
  assert (e_Pin e = e_Pin t') as E by (destruct Hsame as [H _ _]; unfold keys in H; congruence).
  unfold pinned. rewrite E, H1, <- E; [by apply Hi|]. eapply pin_not_staging; [by apply versions_separate|done|done].
Qed.

Context (E : ienv).

Lemma spec_remove_stagings ts (P : gmap string ftree -> Prop) (J : option installTransaction -> Prop) : staging_stable ts P ->
  spec (fun fs j => J j /\ P fs) (removeInstallStaging E ts) (fun _ fs j => J j /\ P fs) (fun fs j => J j /\ P fs).
Proof.
  intros HP. unfold removeInstallStaging. eapply spec_bind; [|intros ?; cbn beta; apply spec_ret; intros fs j H; exact H].
  apply spec_each. intros t Ht. unfold remove_staging. eapply spec_bind; [apply spec_wrapped, spec_open_parent; intros fs j H; exact H|]. intros ?. cbn beta.
  apply spec_wrapped, (spec_bind _ _ _ (fun _ fs j => J j /\ P fs)).
  - eapply spec_conseq; [apply (spec_remove_all E (fun fs j => J j /\ P fs) (staging_paths t) (fun fs j => J j /\ P fs))|by intros fs j [? _]| |intros fs j H; exact H].
    + intros fs j H. exact H.
    + intros fs j n [? HPf]. split; [done|]. eapply HP; [done|exact HPf|intros k Hk; by apply leaves_outside|intros k Hk; by apply leaves_absent].
    + intros ? fs' j (fs & [? HPf] & ->). split; [done|]. eapply HP; [done|exact HPf|intros k Hk; by apply deletes_outside|intros k Hk; by apply deletes_absent].
  - intros ?. eapply spec_bind; [apply spec_handle; intros fs j H; exact H|]. intros ?. cbn beta. apply spec_handle. intros fs j H. exact H.
Qed.

Lemma spec_remove_pins ts (P : gmap string ftree -> Prop) (J : option installTransaction -> Prop) : pin_stable ts P ->
  spec (fun fs j => J j /\ P fs) (removeInstallPins E ts) (fun _ fs j => J j /\ P fs) (fun fs j => J j /\ P fs).
Proof.
  intros HP. unfold removeInstallPins. eapply spec_bind; [|intros ?; cbn beta; apply spec_ret; intros fs j H; exact H].
  apply spec_each. intros t Ht. unfold remove_pin.
  eapply spec_bind; [eapply spec_outcome, spec_open_parent; intros fs j H; exact H|]. intros [u|err]; cbn beta iota.
  - apply spec_wrapped, (spec_bind _ _ _ (fun _ fs j => J j /\ P fs)).
    + eapply spec_conseq; [apply (spec_remove_one E (fun fs j => J j /\ P fs) (e_Pin t) (fun fs j => J j /\ P fs)); intros fs j H; exact H|by intros fs j [? _]| |intros fs j H; exact H].
      intros ? fs' j (fs & [? HPf] & ->). split; [done|]. by apply HP.
    + intros ?. eapply spec_bind; [apply spec_handle; intros fs j H; exact H|]. intros ?. cbn beta. apply spec_handle. intros fs j H. exact H.
  - destruct (errors_Is err ErrNotExist); [apply spec_ret|apply spec_pure; [done|]]; intros fs j H; exact H.
Qed.

Lemma spec_remove_journal (P : gmap string ftree -> Prop) T :
  spec (fun fs j => j = Some T /\ P fs) (removeInstallTransaction E) (fun _ fs j => j = None /\ P fs)
    (fun fs j => (j = Some T \/ j = None) /\ P fs).
Proof.
  intros w [Hj HP]. unfold removeInstallTransaction, syscall. destruct (ie_fail E (iw_tick w)); [|done].
  destruct (ie_dirty E (iw_tick w)); (split; [|done]); [by right|by left].
Qed.

(** ** Recovery *)
Context (HE : sane E).

Lemma undone_orig ts fs : versions ts -> all_undone before ts fs -> all_orig fs.
Proof.
  intros Hv Hu e He. destruct (versions_elem' _ _ Hv He) as (t & Ht & Hs). destruct (Hu t Ht) as [Hd _]. rewrite (same_orig _ _ Hs) in Hd.
  by assert (e_Destination e = e_Destination t) as -> by (destruct Hs as [H _ _]; unfold keys in H; congruence).
Qed.

Lemma undone_recoverable_all ts fs : all_recorded before ts -> all_undone before ts fs -> all_recoverable before ts fs.
Proof. intros Hr Hu t Ht. apply undone_recoverable; [by apply Hr|by apply Hu]. Qed.

(** The transaction is journaled and undone, or already forgotten. *)
Definition undone_inv (pins : bool) (T : installTransaction) (fs : gmap string ftree) : Prop :=
  all_undone before (tx_Entries T) fs /\ (pins = true -> all_pinned fs).

Lemma undone_inv_Inv pins T fs j : journaled T -> tx_State T = installStatePrepared -> all_recorded before (tx_Entries T) ->
  (j = Some T \/ j = None) -> undone_inv pins T fs -> Inv pins fs j.
Proof.
  intros HT Hs Hrec Hj [Hu Hp]. destruct Hj as [->| ->]; cbn.
  - rewrite Hs. split_and!; [done|done|]. by apply undone_recoverable_all.
  - left. eapply undone_orig; [apply (jo_versions _ HT)|done].
Qed.

Lemma undone_inv_stable pins T : journaled T -> staging_stable (tx_Entries T) (undone_inv pins T).
Proof.
  intros HT. pose proof (jo_versions _ HT) as Hv. destruct (undone_stable _ Hv) as [Hst _]. pose proof (pinned_stable _ Hv) as Hps.
  intros t fs fs' Ht [Hu Hp] H1 H2. split; [by eapply Hst|]. intros Hpins. eapply Hps; [done|by apply Hp|done|done].
Qed.

(** Recovery of an entry does not touch a pin. *)
Lemma recover_keeps_pins (pins : bool) ts t : versions ts -> t ∈ ts ->
  spec (fun fs _ => pins = true -> all_pinned fs) (recover_entry E t) (fun _ fs _ => pins = true -> all_pinned fs) (fun fs _ => pins = true -> all_pinned fs).
Proof.
  intros Hv Ht w Hp. pose proof (versions_separate _ Hv) as Hsp.
  pose proof (spec_recover_entry E HE t (separate_distinct _ _ Hsp Ht) (iw_fs w) (iw_journal w) w (conj eq_refl eq_refl)) as Hx.
  assert (forall fs', reach E t (iw_fs w) fs' -> pins = true -> all_pinned fs') as Hk.
  { intros fs' [_ Hf] Hpins e He. destruct (versions_elem' _ _ Hv He) as (t' & Ht' & Hsame). specialize (Hp Hpins e He). unfold pinned in *.
    rewrite Hf; [done|]. assert (e_Pin e = e_Pin t') as -> by (destruct Hsame as [Hk _ _]; unfold keys in Hk; congruence).
    intros Hin. assert (e_Pin t' <> e_Pin t') as Hne; [|done]. apply (key_not_pin _ t t' _ Hsp Ht Ht'). unfold touched in Hin. set_solver. }
  destruct (recover_entry E t w) as [[q|err] w2]; [destruct Hx as [[_ Hx] _]|destruct Hx as [_ Hx]]; exact (Hk _ Hx).
Qed.

Lemma elem_of_rev {A} (l : list A) x : x ∈ rev l <-> x ∈ l.
Proof. clear Hsep. rewrite !list_elem_of_In. symmetry. apply in_rev. Qed.

Definition to_undo (pins : bool) (T : installTransaction) : assertion := fun fs j =>
  j = Some T /\ all_recoverable before (tx_Entries T) fs /\ (pins = true -> all_pinned fs).

Lemma spec_recover_all pins T : journaled T -> tx_State T = installStatePrepared ->
  spec (to_undo pins T) (each (recover_entry E) (rev (tx_Entries T))) (fun _ fs j => j = Some T /\ undone_inv pins T fs) (Inv pins).
Proof.
  intros HT Hs w (Hj & Hr & Hp). pose proof (jo_versions _ HT) as Hv. pose proof (versions_separate _ Hv) as Hsp.
  assert (rev (tx_Entries T) ⊆ tx_Entries T) as Hsub by (intros t Ht; by apply elem_of_rev).
  pose proof (spec_recover_each before E HE (tx_Entries T) (rev (tx_Entries T)) (Some T) [] Hsp Hsub ltac:(set_solver) w) as H.
  assert (spec (fun fs _ => pins = true -> all_pinned fs) (each (recover_entry E) (rev (tx_Entries T))) (fun _ fs _ => pins = true -> all_pinned fs)
    (fun fs _ => pins = true -> all_pinned fs)) as Hpin.
  { apply spec_each. intros t Ht. by apply (recover_keeps_pins pins (tx_Entries T)); [|apply Hsub]. }
  specialize (Hpin w Hp). specialize (H ltac:(split_and!; [done|done|intros t Ht; set_solver])).
  destruct (each (recover_entry E) (rev (tx_Entries T)) w) as [[q|err] w1].
  - destruct H as (H1 & H2 & H3). split; [done|]. split; [|done]. intros t Ht. apply H3. cbn. by apply elem_of_rev.
  - destruct H as (H1 & H2). unfold holds, Inv. rewrite H1, Hs. by split_and!.
Qed.

Lemma spec_undo pins T : journaled T -> tx_State T = installStatePrepared ->
  spec (to_undo pins T) (undo E T) (fun _ fs j => j = None /\ all_orig fs) (Inv pins).
Proof.
  intros HT Hs w Hw. pose proof (jo_versions _ HT) as Hv.
  assert (all_recorded before (tx_Entries T)) as Hrec by (intros t Ht; by eapply recoverable_recorded, Hw).
  assert (forall fs j, (j = Some T \/ j = None) /\ undone_inv pins T fs -> Inv pins fs j) as Hend.
  { intros fs j [Hj' Hu]. by eapply undone_inv_Inv. }
  revert w Hw. fold (spec (to_undo pins T) (undo E T) (fun _ fs j => j = None /\ all_orig fs) (Inv pins)).
  unfold undo. eapply spec_bind; [by apply spec_recover_all|]. intros q. cbn beta. eapply spec_bind.
  { eapply spec_conseq; [apply (spec_remove_stagings _ (undone_inv pins T) (fun j => j = Some T)), undone_inv_stable, HT|intros fs j H; exact H|intros ? fs j H; exact H|].
    intros fs j [-> ?]. apply Hend. split; [by left|done]. }
  intros ?. cbn beta. eapply spec_bind; [eapply spec_conseq; [apply spec_remove_journal|intros fs j H; exact H|intros ? fs j H; exact H|apply Hend]|].
  intros ?. cbn beta. apply (spec_bind _ _ _ (fun _ fs j => j = None /\ all_undone before (tx_Entries T) fs)).
  { eapply spec_conseq; [apply (spec_remove_pins _ (all_undone before (tx_Entries T)) (fun j => j = None)); apply (undone_stable _ Hv)| | |].
    - intros fs j [-> [? _]]. done.
    - intros ? fs j H. exact H.
    - intros fs j [-> Hu]. left. by eapply undone_orig. }
  intros ?. apply spec_pure; [intros ? fs j _ [-> Hu]|intros fs j [-> Hu]; left]; [split; [done|]|]; by eapply undone_orig.
Qed.

(** Finishing a committed transaction. *)
Definition committed (pins : bool) (T : installTransaction) : assertion := fun fs j =>
  j = Some T /\ all_inst fs /\ (pins = true -> all_pinned fs).

Lemma spec_finalize pins T : journaled T -> tx_State T = installStateCommitted ->
  spec (committed pins T) (finalizeCommittedInstall E T) (fun _ fs j => j = None /\ all_inst fs) (Inv pins).
Proof.
  intros HT Hs. pose proof (jo_versions _ HT) as Hv. destruct (inst_stable _ Hv) as [Hst Hpi].
  assert (forall fs j, (j = Some T \/ j = None) /\ all_inst fs /\ (pins = true -> all_pinned fs) -> Inv pins fs j) as Hend.
  { intros fs j [[->| ->] [Hi Hp]]; cbn; [rewrite Hs|]; auto. }
  assert (forall fs j, committed pins T fs j -> Inv pins fs j) as Hc by (intros fs j [-> ?]; apply Hend; auto).
  unfold finalizeCommittedInstall. apply (spec_bind _ _ _ (fun _ => committed pins T)).
  { eapply spec_conseq; [apply (spec_each (committed pins T))|intros fs j H; exact H|intros ? fs j H; exact H|exact Hc]. intros t Ht. unfold check_committed.
    eapply spec_bind; [apply spec_wrapped, spec_open; intros fs j H; exact H|]. intros ?. cbn beta.
    eapply spec_bind; [apply spec_wrapped, spec_lstat; by intros fs j [? _]|]. intros i. cbn beta.
    eapply spec_bind; [apply spec_handle; by intros fs j [[? _] _]|]. intros ?. cbn beta.
    apply spec_pure; [by intros ? fs j _ [[? _] _]|by intros fs j [[? _] _]]. }
  intros ?. eapply spec_bind.
  { eapply spec_conseq; [apply (spec_remove_stagings (tx_Entries T) (fun fs => all_inst fs /\ (pins = true -> all_pinned fs)) (fun j => j = Some T))|
      intros fs j H; exact H|intros ? fs j H; exact H|intros fs j [-> ?]; apply Hend; auto].
    apply stable_and; [exact Hst|]. intros t fs fs' Ht Hp H1 H2 Hpins. eapply (pinned_stable _ Hv); eauto. }
  intros ?. cbn beta. eapply spec_bind; [eapply spec_conseq; [apply spec_remove_journal|intros fs j H; exact H|intros ? fs j H; exact H|apply Hend]|].
  intros ?. cbn beta. eapply spec_conseq; [apply (spec_remove_pins _ all_inst (fun j => j = None)), Hpi|by intros fs j [-> [? _]]|intros ? fs j H; exact H|].
  intros fs j [-> Hi]. by right.
Qed.

(** Recovery keeps the invariant, and ends without a journal when it succeeds. *)
Lemma spec_recover pins : spec (Inv pins) (recoverInstallTransaction E planID) (fun _ fs j => j = None /\ Inv pins fs None) (Inv pins).
Proof.
  unfold recoverInstallTransaction. apply (spec_bind _ _ _ (fun f fs j => f = j /\ Inv pins fs j)).
  { intros w Hw. unfold readInstallTransaction, atomic, syscall. destruct (ie_fail E (iw_tick w)); [by destruct (ie_dirty E (iw_tick w))|done]. }
  intros [T|]; [|apply spec_ret; by intros fs j [<- ?]].
  assert (forall c e, spec (fun fs j => Some T = j /\ Inv pins fs j) (pure (fail_if c e)) (fun _ fs j => Some T = j /\ Inv pins fs j) (Inv pins)) as Hg.
  { intros c e. apply spec_pure; [done|]. by intros fs j [_ ?]. }
  eapply spec_bind; [apply Hg|]. intros ?. cbn beta. eapply spec_bind; [apply Hg|]. intros ?. cbn beta.
  eapply spec_bind; [apply (spec_pure _ _ (fun _ fs j => Some T = j /\ Inv pins fs j) (Inv pins)); [done|by intros fs j [_ ?]]|]. intros ?. cbn beta.
  intros w [Hj Hi]. rewrite <- Hj in Hi. cbn in Hi. destruct Hi as (HT & Hp & Hst). symmetry in Hj. case_bool_decide as Hc.
  - rewrite Hc in Hst. pose proof (spec_finalize pins T HT Hc w) as H. specialize (H ltac:(by split_and!)).
    destruct (finalizeCommittedInstall E T w) as [[u|err] w']; [|done]. destruct H as [Hn Hi]. split; [done|]. by right.
  - destruct (tx_State T) eqn:Es; [|done|done]. pose proof (spec_undo pins T HT Es w) as H. specialize (H ltac:(by split_and!)).
    destruct (undo E T w) as [[u|err] w']; [|done]. destruct H as [Hn Ho]. split; [done|]. by left.
Qed.
End Runs.
