(* ===== verification/InstallSwap.v ===== *)
(** The installation itself: from the prepared entries to the commit record,
    every failure leaves a state that recovery understands. *)

From stdpp Require Import base decidable gmap strings list relations.
From Stdlib Require Import Ascii ZArith.
From S2P Require Import Prelude Effect GoText Cache PlainTree Registry Install InstallFacts InstallRuns.

Section Swap.
Context {SH : Sha256} (before : gmap string ftree) (es : list installTransactionEntry) (planID : string).

(** What [prepareInstallEntry] and the caller have set up: the next trees are
    staged, nothing is preserved or quarantined, and [HadCurrent] tells whether
    the destination is there. *)
Record ready : Prop := {
  rd_separate : separate es;
  rd_pinned : all_pinned es before;
  rd_dest : forall e, e ∈ es -> if e_HadCurrent e then forall t, before !! e_Destination e = Some t -> is_link t = false else before !! e_Destination e = None;
  rd_next : forall e i, e ∈ es -> before !! e_Next e = Some i -> is_dir i = true;
  rd_rollback : forall e, e ∈ es -> before !! e_Rollback e = None;
  rd_quarantine : forall e, e ∈ es -> before !! e_Quarantine e = None
}.
Context (Hready : ready).

(** ** Where the objects of an entry are *)
Inductive stage := Waiting | Preserved | Landed.

Definition stage_slots (s : stage) (e : installTransactionEntry) : slots :=
  match s with
  | Waiting => mkSlots (orig before e) (inst before e) None None
  | Preserved => mkSlots None (inst before e) (orig before e) None
  | Landed => mkSlots (inst before e) None (if e_HadCurrent e then orig before e else None) None
  end.

(** The recorded fingerprints are those of the trees. *)
Record known (e : installTransactionEntry) : Prop := {
  kn_orig : recorded (orig before e) e;
  kn_inst : exists i, inst before e = Some i /\ scannable i
}.

Definition placed (fs : gmap string ftree) (p : installTransactionEntry * stage) : Prop :=
  slots_of fs p.1 = stage_slots p.2 p.1 /\ (p.2 = Preserved -> e_HadCurrent p.1 = true).

Lemma placed_recoverable fs e s ph : known e -> placed fs (e, s) -> recoverable (orig before e) (set_phase ph e) (slots_of fs (set_phase ph e)).
Proof.
  intros [Ho (i & Hi & Hsc)] [Hs Hp]. cbn in Hs, Hp. change (slots_of fs (set_phase ph e)) with (slots_of fs e). rewrite Hs.
  unfold recorded, recoverable in *. cbn. destruct (e_HadCurrent e) eqn:Hh.
  - destruct Ho as (t & Ht & Hf & Hl). exists t. split_and!; [done..|]. destruct s; cbn; rewrite ?Hh, ?Ht, ?Hi; [by right|left; auto|].
    left. split; [done|]. right. by exists i.
  - split; [done|]. destruct s; cbn; rewrite ?Hh, ?Hi; [by left|by left|]. right. exists i. auto.
Qed.

(** ** The invariant of the loop

    The entries in memory with their stages; the journal may hold an earlier
    phase of an entry. *)
Definition rephased (e e' : installTransactionEntry) : Prop := exists ph, e' = set_phase ph e.

Lemma rephased_refl e : rephased e e.
Proof. exists (e_Phase e). by destruct e. Qed.

Record swapping (l : list (installTransactionEntry * stage)) (fs : gmap string ftree) (j : option installTransaction) : Prop := {
  sw_pinned : all_pinned es fs;
  sw_versions : versions es l.*1;
  sw_known : Forall known l.*1;
  sw_placed : Forall (placed fs) l;
  sw_journal : exists T, j = Some T /\ validateInstallTransaction T = Ok () /\ tx_PlanID T = planID /\
    tx_State T = installStatePrepared /\ Forall2 rephased l.*1 (tx_Entries T)
}.

Lemma rephased_versions ts ts' : versions es ts -> Forall2 rephased ts ts' -> versions es ts'.
Proof.
  unfold versions. clear Hready. intros H. revert ts'. induction H as [|e t l l' Hs _ IH]; intros ts' Hr; inversion Hr as [|? t' ? l2 [ph ->] Hr']; subst; constructor; [|by apply IH].
  destruct Hs. by split.
Qed.

Lemma swapping_Inv l fs j : swapping l fs j -> Inv before es planID true fs j.
Proof.
  intros [Hp Hv Hk Hl (T & -> & Hval & Hid & Hst & Hr)]. cbn. rewrite Hst. split_and!; [split; [by eapply rephased_versions|done|done]|done|].
  intros t Ht. destruct (list_elem_of_lookup_1 _ _ Ht) as [n Hn]. destruct (Forall2_lookup_r _ _ _ _ _ Hr Hn) as (e & He & ph & ->).
  rewrite list_lookup_fmap in He. destruct (l !! n) as [[e' s]|] eqn:Eln; [|done]. cbn in He. injection He as ->.
  apply (placed_recoverable fs e s); [|by eapply Forall_lookup_1]. eapply Forall_lookup_1; [exact Hk|]. by rewrite list_lookup_fmap, Eln.
Qed.

(** The objects of one entry move. *)
Definition moved (e : installTransactionEntry) : list string := [e_Destination e; e_Next e; e_Rollback e].

Lemma swapping_move l1 l2 e s s' fs fs' j :
  swapping (l1 ++ (e, s) :: l2) fs j -> (forall k, k ∉ moved e -> fs' !! k = fs !! k) -> placed fs' (e, s') -> swapping (l1 ++ (e, s') :: l2) fs' j.
Proof.
  intros [Hp Hv Hk Hl Hj] Hf Hs'. rewrite !fmap_app, !fmap_cons in *. cbn [fst] in *.
  pose proof (versions_separate _ (rd_separate Hready) _ Hv) as Hsep.
  assert (forall k, k ∉ keys e -> fs' !! k = fs !! k) as Hf'. { intros k Hk'. apply Hf. unfold keys, moved in *. set_solver. }
  assert (forall p, p ∈ l1 ++ l2 -> placed fs p -> placed fs' p) as Hother.
  { intros [e2 s2] Hin [H1 H2]. split; [|done]. cbn in *. rewrite <- H1. apply slots_ext. apply (other_keys (l1.*1 ++ e :: l2.*1) e e2); [done|set_solver| | |done].
    - apply (list_elem_of_fmap_2 fst) in Hin. rewrite fmap_app in Hin. cbn in Hin. set_solver.
    - intros <-. apply separate_Permutation with (ts' := e :: l1.*1 ++ l2.*1) in Hsep; [|by rewrite Permutation_middle].
      apply separate_cons in Hsep as (_ & Hx & _). apply (Hx (e_Pin e)) with e; [unfold keys; set_solver| |unfold keys; set_solver].
      apply (list_elem_of_fmap_2 fst) in Hin. by rewrite fmap_app in Hin. }
  split; rewrite ?fmap_app, ?fmap_cons; cbn [fst]; [|done|done| |done].
  - intros e0 He0. destruct (versions_elem' es _ _ Hv He0) as (t & Ht & Hsame). specialize (Hp e0 He0). unfold pinned in *.
    assert (e_Pin e0 = e_Pin t) as Hpin by (destruct Hsame as [H _ _]; unfold keys in H; congruence). rewrite Hf; [done|].
    intros Hin. rewrite Hpin in Hin. assert (e_Pin t <> e_Pin t); [|done]. apply (key_not_pin _ e t _ Hsep); [set_solver|done|]. unfold moved in Hin. set_solver.
  - apply Forall_app in Hl as [H1 H2]. apply Forall_cons in H2 as [_ H2]. apply Forall_app. split; [|apply Forall_cons; split; [done|]].
    + apply Forall_forall. intros p Hp'. apply Hother; [set_solver|]. by eapply Forall_forall in H1.
    + apply Forall_forall. intros p Hp'. apply Hother; [set_solver|]. by eapply Forall_forall in H2.
Qed.

(** A phase is recorded. *)
Lemma swapping_record l1 l2 e s ph fs j :
  swapping (l1 ++ (e, s) :: l2) fs j -> validateInstallTransaction (transaction_of planID installStatePrepared (l1.*1 ++ set_phase ph e :: l2.*1)) = Ok () ->
  swapping (l1 ++ (set_phase ph e, s) :: l2) fs (Some (transaction_of planID installStatePrepared (l1.*1 ++ set_phase ph e :: l2.*1))).
Proof.
  intros [Hp Hv Hk Hl _] Hval. rewrite !fmap_app, !fmap_cons in *. cbn [fst] in *. split; rewrite ?fmap_app, ?fmap_cons; cbn [fst].
  - done.
  - eapply rephased_versions; [exact Hv|]. apply Forall2_app; [|constructor; [by exists ph|]]; apply Forall_Forall2_diag, Forall_true, rephased_refl.
  - apply Forall_app in Hk as [H1 H2]. apply Forall_cons in H2 as [[H2 H2'] H3]. apply Forall_app. split; [done|]. apply Forall_cons. by split.
  - apply Forall_app in Hl as [H1 H2]. apply Forall_cons in H2 as [[H2 H2'] H3]. apply Forall_app. split; [done|]. apply Forall_cons. by split.
  - eexists. split_and!; [done|done|done|done|]. cbn. apply Forall_Forall2_diag, Forall_true, rephased_refl.
Qed.

(** ** The two renames of an entry *)
Lemma place_preserve fs e t : distinct_paths e -> e_HadCurrent e = true -> placed fs (e, Waiting) -> fs !! e_Destination e = Some t ->
  placed (<[e_Rollback e := t]> (base.delete (e_Destination e) fs)) (e, Preserved).
Proof.
  intros He Hh [Hs _] Ht. cbn in Hs. unfold slots_of in Hs. injection Hs as Hd Hn _ Hq. rewrite Ht in Hd. split; [|done]. cbn. unfold slots_of.
  rewrite lookup_insert_eq, !lookup_insert_ne by paths. rewrite lookup_delete_eq, !lookup_delete_ne by paths. by rewrite Hn, Hq, Hd.
Qed.

Lemma place_install fs e t : distinct_paths e -> placed fs (e, if e_HadCurrent e then Preserved else Waiting) -> fs !! e_Next e = Some t ->
  placed (<[e_Destination e := t]> (base.delete (e_Next e) fs)) (e, Landed).
Proof.
  intros He [Hs _] Ht. cbn in Hs. unfold slots_of in Hs. split; [|done]. cbn. unfold slots_of.
  rewrite lookup_insert_eq, !lookup_insert_ne by paths. rewrite lookup_delete_eq, !lookup_delete_ne by paths.
  destruct (e_HadCurrent e); injection Hs as Hd Hn Hp Hq; by rewrite Hp, Hq, <- Hn, Ht.
Qed.

Lemma rename_frame e source target (t : ftree) (fs : gmap string ftree) : source ∈ moved e -> target ∈ moved e ->
  forall k, k ∉ moved e -> <[target := t]> (base.delete source fs) !! k = fs !! k.
Proof. intros Hs Ht k Hk. rewrite lookup_insert_ne, lookup_delete_ne; [done|by intros ->|by intros ->]. Qed.

Lemma swapping_placed l1 l2 e s fs j : swapping (l1 ++ (e, s) :: l2) fs j -> placed fs (e, s) /\ distinct_paths e.
Proof.
  intros [_ Hv _ Hl _]. split; [apply Forall_app in Hl as [_ Hl]; by apply Forall_cons in Hl as [? _]|].
  eapply separate_distinct; [by eapply versions_separate; [apply rd_separate, Hready|]|]. rewrite fmap_app, fmap_cons. set_solver.
Qed.

Context (E : ienv) (HE : sane E).
Notation inv := (Inv before es planID true).

Definition record (l1 l2 : list (installTransactionEntry * stage)) (e : installTransactionEntry) : Act iworld unit :=
  writeInstallTransaction E (transaction_of planID installStatePrepared (l1.*1 ++ e :: l2.*1)).

Lemma spec_record l1 l2 e s ph :
  spec (swapping (l1 ++ (e, s) :: l2)) (record l1 l2 (set_phase ph e)) (fun _ => swapping (l1 ++ (set_phase ph e, s) :: l2)) inv.
Proof.
  eapply spec_conseq; [apply (spec_write E (swapping (l1 ++ (e, s) :: l2)) _ inv)|intros fs j H; exact H| |intros fs j H; exact H].
  - intros fs j H. by eapply swapping_Inv.
  - intros fs j Hval H. eapply swapping_Inv. by eapply swapping_record.
  - intros ? fs j (Hval & -> & j0 & H). by eapply swapping_record.
Qed.

Lemma spec_preserve_current l1 l2 e : e_HadCurrent e = true ->
  spec (swapping (l1 ++ (e, Waiting) :: l2)) (preserve_current E (record l1 l2) e)
    (fun e' fs j => e' = set_phase installPhasePreserved e /\ swapping (l1 ++ (e', Preserved) :: l2) fs j) inv.
Proof.
  intros Hh. set (P := swapping (l1 ++ (e, Waiting) :: l2)). assert (forall fs j, P fs j -> inv fs j) as HP by (intros fs j; apply swapping_Inv).
  assert (forall fs j, swapping (l1 ++ (e, Preserved) :: l2) fs j -> inv fs j) as HP' by (intros fs j; apply swapping_Inv).
  unfold preserve_current. apply (spec_bind _ _ _ (fun _ => P)).
  { case_bool_decide; [by apply spec_ret|]. eapply spec_bind; [by apply spec_wrapped, spec_fingerprint|]. intros a. cbn beta.
    apply spec_pure; [by intros ? fs j _ [? _]|intros fs j [? _]; by apply HP]. }
  intros ?. eapply spec_bind; [by apply spec_wrapped, spec_fingerprint|]. intros c. cbn beta.
  apply (spec_bind _ _ _ (fun _ => P)); [apply spec_pure; [by intros ? fs j _ [? _]|intros fs j [? _]; by apply HP]|]. intros ?.
  apply (spec_bind _ _ _ (fun _ => P)).
  { eapply spec_conseq; [apply (spec_try_lstat E HE P (e_Destination e) inv)|done|by intros ? fs j [? _]|done]. }
  intros i. apply (spec_bind _ _ _ (fun _ => P)); [apply spec_pure; [done|exact HP]|]. intros ?.
  apply (spec_bind _ _ _ (fun _ => swapping (l1 ++ (e, Preserved) :: l2))).
  { apply spec_wrapped. eapply spec_conseq; [by apply (spec_rename E P _ _ _ inv)|done| |done].
    intros ? fs' j (fs & t & H & Ht & _ & ->). destruct (swapping_placed _ _ _ _ _ _ H) as [Hp Hd].
    eapply swapping_move; [exact H|apply rename_frame; unfold moved; set_solver|]. by apply place_preserve. }
  intros ?. eapply spec_bind; [by apply spec_wrapped, spec_handle|]. intros ?. cbn beta zeta.
  eapply spec_bind; [apply spec_wrapped, spec_record|]. intros ?. cbn beta. by apply spec_ret.
Qed.

Lemma spec_install_entry l1 l2 e :
  spec (swapping (l1 ++ (e, Waiting) :: l2)) (install_entry E (record l1 l2) e)
    (fun e' => swapping (l1 ++ (e', Landed) :: l2)) inv.
Proof.
  unfold install_entry. set (P := swapping (l1 ++ (e, Waiting) :: l2)). assert (forall fs j, P fs j -> inv fs j) as HP by (intros fs j; apply swapping_Inv).
  eapply spec_bind; [by apply spec_wrapped, spec_open|]. intros ?. cbn beta.
  apply (spec_bind _ _ _ (fun e' => swapping (l1 ++ (e', if e_HadCurrent e' then Preserved else Waiting) :: l2))).
  { destruct (e_HadCurrent e) eqn:Hh.
    - eapply spec_conseq; [by apply spec_preserve_current|by intros fs j [? _]| |done]. intros e' fs j [-> H]. cbn. by rewrite Hh.
    - unfold require_absent. apply (spec_bind _ _ _ (fun _ => P)).
      { eapply spec_conseq; [apply (spec_try_lstat E HE P (e_Destination e) inv)|by intros fs j [? _]|by intros ? fs j [? _]|done]. }
      intros [t|err]; [by apply spec_pure|]. destruct (errors_Is err ErrNotExist); [|by apply spec_pure]. apply spec_ret. intros fs j H. by rewrite Hh. }
  intros e1. set (P1 := swapping (l1 ++ (e1, Landed) :: l2)). assert (forall fs j, P1 fs j -> inv fs j) as HP1 by (intros fs j; apply swapping_Inv).
  apply (spec_bind _ _ _ (fun _ => P1)).
  { apply spec_wrapped. eapply spec_conseq; [apply (spec_rename E (swapping (l1 ++ (e1, if e_HadCurrent e1 then Preserved else Waiting) :: l2)) _ _ _ inv)|done| |done].
    { intros fs j H. by eapply swapping_Inv. }
    intros ? fs' j (fs & t & H & Ht & _ & ->). destruct (swapping_placed _ _ _ _ _ _ H) as [Hp Hd].
    eapply swapping_move; [exact H|apply rename_frame; unfold moved; set_solver|]. by apply place_install. }
  intros ?. eapply spec_bind; [by apply spec_wrapped, spec_handle|]. intros ?. cbn beta.
  eapply spec_bind; [by apply spec_wrapped, spec_handle|]. intros ?. cbn beta zeta.
  eapply spec_bind; [apply spec_wrapped, spec_record|]. intros ?. cbn beta. by apply spec_ret.
Qed.

(** ** The loop and the commit record *)
Definition landed (l : list installTransactionEntry) : list (installTransactionEntry * stage) := (fun e => (e, Landed)) <$> l.
Definition waiting (l : list installTransactionEntry) : list (installTransactionEntry * stage) := (fun e => (e, Waiting)) <$> l.

Lemma landed_fst l : (landed l).*1 = l.
Proof. unfold landed. rewrite <- list_fmap_compose. apply list_fmap_id. Qed.
Lemma waiting_fst l : (waiting l).*1 = l.
Proof. unfold waiting. rewrite <- list_fmap_compose. apply list_fmap_id. Qed.

Lemma spec_install_entries l2 : forall l1,
  spec (swapping (landed l1 ++ waiting l2)) (install_entries E planID l1 l2) (fun l => swapping (landed l)) inv.
Proof.
  induction l2 as [|e l2 IH]; intros l1; cbn [install_entries]; [apply spec_ret; intros fs j; by rewrite app_nil_r|].
  pose proof (spec_install_entry (landed l1) (waiting l2) e) as H. unfold record in H. rewrite landed_fst, waiting_fst in H.
  eapply spec_bind; [exact H|]. intros e'. cbn beta. eapply spec_conseq; [apply IH| |done|done].
  intros fs j Hs. unfold landed. rewrite fmap_app, <- app_assoc. exact Hs.
Qed.

Lemma landed_inst l fs : versions es l -> Forall (placed fs) (landed l) -> all_inst before es fs.
Proof.
  intros Hv Hl e He. destruct (versions_elem' es _ _ Hv He) as (t & Ht & [Hk _ _]).
  assert (placed fs (t, Landed)) as [Hs _]. { eapply Forall_forall in Hl; [exact Hl|]. unfold landed. by apply (list_elem_of_fmap_2 (fun e => (e, Landed))). }
  cbn in Hs. unfold slots_of in Hs. injection Hs as Hd _ _ _. unfold inst in *. unfold keys in Hk.
  assert (e_Destination t = e_Destination e /\ e_Next t = e_Next e) as [E1 E2] by (split; congruence). by rewrite <- E1, <- E2.
Qed.

Lemma spec_swap ps :
  spec (swapping (waiting ps)) (swap E planID ps)
    (fun T fs j => journaled es planID T /\ tx_State T = installStateCommitted /\ committed before es true T fs j) inv.
Proof.
  unfold swap. eapply spec_bind; [apply (spec_install_entries ps [])|]. intros l. cbn beta zeta.
  set (T := transaction_of planID installStateCommitted l).
  assert (forall fs j, validateInstallTransaction T = Ok () -> swapping (landed l) fs j ->
    journaled es planID T /\ tx_State T = installStateCommitted /\ committed before es true T fs (Some T)) as Hc.
  { intros fs j Hval [Hp Hv _ Hl _]. rewrite landed_fst in Hv. split_and!; [by split|done|]. split_and!; [done|by eapply landed_inst|done]. }
  apply (spec_bind _ _ _ (fun _ fs j => validateInstallTransaction T = Ok () /\ j = Some T /\ exists j0, swapping (landed l) fs j0)).
  - apply spec_wrapped, spec_write; [intros fs j H; by eapply swapping_Inv|]. intros fs j Hval H. destruct (Hc _ _ Hval H) as (HT & _ & _ & Hi & Hp). by split_and!.
  - intros ?. apply spec_ret. intros fs j (Hval & -> & j0 & H). by eapply Hc.
Qed.

(** ** Preparation *)
Definition untouched : assertion := fun fs j => fs = before /\ j = None.

Lemma spec_prepare_entry e : e ∈ es ->
  spec untouched (prepare_entry E e) (fun t fs j => untouched fs j /\ same_entry e t /\ known t) untouched.
Proof.
  intros He. unfold prepare_entry. eapply spec_bind; [by apply spec_wrapped, spec_open|]. intros ?. cbn beta.
  apply (spec_bind _ _ _ (fun o fs j => untouched fs j /\ recorded (orig before e) (set_fingerprints o EmptyString e))).
  { destruct (e_HadCurrent e) eqn:Hh.
    - apply spec_wrapped. eapply spec_conseq; [by apply (spec_fingerprint E untouched _ _ untouched)|by intros fs j [? _]| |done].
      intros o fs j [[-> ->] (t & Ht & Hf)]. split; [done|]. pose proof (rd_dest Hready e He) as Hl. rewrite Hh in Hl. specialize (Hl t Ht).
      unfold recorded. cbn. rewrite Hh. exists t. split_and!; [done| |done]. destruct Hf as [|[Hf _]]; [done|congruence].
    - apply spec_ret. intros fs j [? _]. split; [done|]. unfold recorded. cbn. rewrite Hh. pose proof (rd_dest Hready e He) as Hl. by rewrite Hh in Hl. }
  intros o. apply (spec_bind _ _ _ (fun i fs j => untouched fs j /\ known (set_fingerprints o i e))).
  { apply spec_wrapped. eapply spec_conseq; [apply (spec_fingerprint E (fun fs j => untouched fs j /\ recorded (orig before e) (set_fingerprints o EmptyString e)) _ _ untouched)|done| |done].
    { by intros fs j [? _]. }
    intros i fs j [[[-> ->] Hr] (t & Ht & Hf)]. split; [done|]. pose proof (rd_next Hready e t He Ht) as Hdir. split; [done|].
    exists t. split; [done|]. split; [done|]. destruct Hf as [?|[Hf _]]; [by eexists|]. by destruct t. }
  intros i. set (P := fun fs j => untouched fs j /\ known (set_fingerprints o i e)). assert (forall fs j, P fs j -> untouched fs j) as HP by by intros fs j [? _].
  eapply spec_bind; [apply spec_wrapped; unfold syncInstallTree; apply (spec_look E P), HP|]. intros ?. cbn beta.
  eapply spec_bind; [by apply spec_wrapped, spec_handle|]. intros ?. cbn beta. eapply spec_bind; [by apply spec_handle|]. intros ?. cbn beta.
  apply spec_ret. intros fs j [? ?]. by split_and!.
Qed.

Lemma spec_prepare l : l ⊆ es ->
  spec untouched (each (prepare_entry E) l) (fun ps fs j => untouched fs j /\ Forall2 same_entry l ps /\ Forall known ps) untouched.
Proof.
  induction l as [|e l IH]; intros Hl; cbn [each]; [apply spec_ret; intros fs j H; split_and!; [done|constructor|constructor]|].
  apply (spec_bind _ _ _ (fun t fs j => untouched fs j /\ same_entry e t /\ known t)); [apply spec_prepare_entry, Hl; by left|]. intros t.
  apply spec_fact. intros [Hs Hk]. apply (spec_bind _ _ _ (fun ps fs j => untouched fs j /\ Forall2 same_entry l ps /\ Forall known ps)); [apply IH; intros x Hx; apply Hl; by right|].
  intros ps. apply spec_ret. intros fs j (? & ? & ?). split_and!; [done|by constructor|by constructor].
Qed.

Lemma swapping_begin ps : versions es ps -> Forall known ps -> validateInstallTransaction (transaction_of planID installStatePrepared ps) = Ok () ->
  swapping (waiting ps) before (Some (transaction_of planID installStatePrepared ps)).
Proof.
  intros Hv Hk Hval. split; rewrite ?waiting_fst; [apply (rd_pinned Hready)|done|done| |].
  - unfold waiting. apply Forall_fmap, Forall_forall. intros t Ht. destruct (versions_elem es _ _ Hv Ht) as (e & He & [Hkeys _ _]).
    split; [|done]. cbn. unfold slots_of, orig, inst. unfold keys in Hkeys. injection Hkeys as Hd _ Hn Hr Hq _.
    by rewrite Hr, Hq, (rd_rollback Hready e He), (rd_quarantine Hready e He).
  - eexists. split_and!; [done|done|done|done|]. cbn. apply Forall_Forall2_diag, Forall_true, rephased_refl.
Qed.

(** A failure before the swap leaves the objects as they were, and at most an
    unacknowledged journal. *)
Definition unstarted : assertion := fun fs j =>
  fs = before /\ match j with None => True | Some T => journaled es planID T /\ tx_State T = installStatePrepared /\ all_recorded before (tx_Entries T) end.

Lemma spec_begin : spec untouched (begin E planID es) (fun ps => swapping (waiting ps)) unstarted.
Proof.
  assert (forall fs j, untouched fs j -> unstarted fs j) as HU by by intros fs j [-> ->].
  unfold begin. eapply spec_bind; [eapply spec_conseq; [by apply spec_prepare|intros fs j H; exact H|intros ? fs j H; exact H|exact HU]|].
  intros ps. cbn beta zeta. apply spec_fact. intros [Hv Hk].
  apply (spec_bind _ _ _ (fun _ => untouched)); [by apply spec_pure|]. intros ?. set (T := transaction_of planID installStatePrepared ps).
  apply (spec_bind _ _ _ (fun _ fs j => validateInstallTransaction T = Ok () /\ j = Some T /\ exists j0, untouched fs j0)).
  - apply spec_wrapped, spec_write; [exact HU|]. intros fs j Hval [-> _]. split; [done|]. split_and!; [by split|done|]. cbn.
    intros t Ht. eapply Forall_forall in Hk; [|exact Ht]. apply Hk.
  - intros ?. apply spec_ret. intros fs j (Hval & -> & j0 & -> & _). by apply swapping_begin.
Qed.

(** [cleanupInstallError] removes what was staged, and the pins. *)
Lemma spec_cleanup {A} err : spec unstarted (cleanupInstallError (A := A) E err es) (fun _ _ _ => False) (Inv before es planID false).
Proof.
  assert (versions es es) as Hv by (apply Forall_Forall2_diag, Forall_true, same_entry_refl).
  destruct (undone_stable before es (rd_separate Hready) es Hv) as [Hst Hpi].
  set (J := fun j => match j with None => True | Some T => journaled es planID T /\ tx_State T = installStatePrepared /\ all_recorded before (tx_Entries T) end).
  set (P := fun fs j => J j /\ all_undone before es fs).
  assert (forall fs j, P fs j -> Inv before es planID false fs j) as Hend.
  { intros fs [T|] [Hj Hu]; [|left; by eapply undone_orig]. destruct Hj as (HT & Hs & Hrec).
    apply (undone_inv_Inv before es planID false T fs (Some T) HT Hs Hrec); [by left|]. split; [|done].
    intros t Ht. destruct (versions_elem es _ _ (jo_versions _ _ _ HT) Ht) as (e & He & Hsame). rewrite (same_orig before _ _ Hsame). by apply (same_undone _ _ _ _ Hsame), Hu. }
  unfold cleanupInstallError. apply (spec_bind _ _ _ (fun _ => P)); [|intros ?; by apply spec_pure].
  eapply spec_conseq; [apply (spec_outcome P (cleanupInstallStaging E es) (fun _ => P) P (Inv before es planID false))| |intros [?|?] fs j H; exact H|done].
  - unfold cleanupInstallStaging. eapply spec_bind; [by apply spec_remove_stagings|]. intros ?. cbn beta. by apply spec_remove_pins.
  - intros fs j [-> Hj]. split; [done|]. intros e He. split; [done|]. intros _. by apply (rd_rollback Hready).
Qed.

(** ** The whole installation *)
Lemma spec_roll_back {A} err : spec inv (roll_back (A := A) E planID err) (fun _ _ _ => False) inv.
Proof.
  unfold roll_back. apply (spec_bind _ _ _ (fun _ => inv)); [|intros ?; by apply spec_pure].
  eapply spec_conseq; [eapply spec_outcome, (spec_recover before es planID (rd_separate Hready) E HE true)|done| |done]. intros [?|?] fs j; [by intros [-> ?]|done].
Qed.

(** Once the journal is there, the parents stay pinned until it is removed. *)
Lemma spec_after_begin ps : spec (swapping (waiting ps))
  (swapped ← outcome (swap E planID ps);
   match swapped with
   | Err err => roll_back E planID err
   | Ok t => wrapped "finalize committed filesystem installation" (finalizeCommittedInstall E t)
   end) (fun _ fs j => j = None /\ all_inst before es fs) inv.
Proof.
  eapply spec_bind; [eapply spec_outcome, spec_swap|]. intros [T|err]; cbn beta iota.
  - eapply spec_conseq; [apply (spec_fact (committed before es true T) (journaled es planID T /\ tx_State T = installStateCommitted))|
      by intros fs j (? & ? & ?)|intros ? fs j H; exact H|done].
    intros [HT Hs]. by apply spec_wrapped, spec_finalize; [apply rd_separate, Hready|..].
  - eapply spec_conseq; [apply spec_roll_back|done|done|done].
Qed.

Lemma Inv_weaken fs j : inv fs j -> Inv before es planID false fs j.
Proof. destruct j as [T|]; cbn; [|done]. intros (HT & _ & Hs). by split_and!. Qed.

Lemma spec_install : spec untouched (installPrepared E planID es) (fun _ fs j => j = None /\ all_inst before es fs) (Inv before es planID false).
Proof.
  unfold installPrepared. eapply spec_bind; [eapply spec_outcome, spec_begin|]. intros [ps|err]; cbn beta iota.
  - eapply spec_conseq; [apply spec_after_begin|done|done|apply Inv_weaken].
  - eapply spec_conseq; [apply spec_cleanup|done|done|done].
Qed.
End Swap.

(** * When no call fails, recovery comes to an end. *)

(** [ends m w Q]: the action succeeds from [w], in [Q]. *)
Definition ends {A} (m : Act iworld A) (w : iworld) (Q : A -> iworld -> Prop) : Prop := exists a w', m w = (Ok a, w') /\ Q a w'.

Lemma ends_bind {A B} (m : Act iworld A) (f : A -> Act iworld B) w Q : ends m w (fun a w' => ends (f a) w' Q) -> ends (m ≫= f) w Q.
Proof. intros (a & w1 & Hm & b & w2 & Hf & HQ). exists b, w2. split; [|done]. by rewrite (act_bind_run _ _ _ _ _ Hm). Qed.
Lemma ends_ret {A} (a : A) w (Q : A -> iworld -> Prop) : Q a w -> ends (mret a) w Q.
Proof. by exists a, w. Qed.
Lemma ends_pure {A} (r : result A) a w (Q : A -> iworld -> Prop) : r = Ok a -> Q a w -> ends (pure r) w Q.
Proof. intros -> ?. by exists a, w. Qed.
Lemma ends_wrapped {A} t (m : Act iworld A) w Q : ends m w Q -> ends (wrapped t m) w Q.
Proof. intros (a & w1 & Hm & HQ). exists a, w1. split; [|done]. unfold wrapped. by rewrite Hm. Qed.
Lemma ends_outcome {A} (m : Act iworld A) w Q : ends m w Q -> ends (outcome m) w (fun r w' => exists a, r = Ok a /\ Q a w').
Proof. intros (a & w1 & Hm & HQ). exists (Ok a), w1. split; [unfold outcome; by rewrite Hm|eauto]. Qed.
Lemma ends_mono {A} (m : Act iworld A) w (Q Q' : A -> iworld -> Prop) : ends m w Q -> (forall a w', Q a w' -> Q' a w') -> ends m w Q'.
Proof. intros (a & w1 & Hm & HQ) H. exists a, w1. eauto. Qed.

(** A specification says where a terminating action ends. *)
Lemma ends_spec {A} (m : Act iworld A) w P Q R : spec P m Q R -> holds P w -> ends m w (fun _ _ => True) -> ends m w (fun a w' => holds (Q a) w').
Proof. intros Hs Hw (a & w1 & Hm & _). exists a, w1. split; [done|]. specialize (Hs w Hw). by rewrite Hm in Hs. Qed.

Lemma ends_each {A B} (P : assertion) (f : A -> Act iworld B) l w :
  (forall a w, a ∈ l -> holds P w -> ends (f a) w (fun _ => holds P)) -> holds P w -> ends (each f l) w (fun _ => holds P).
Proof.
  revert w. induction l as [|a l IH]; intros w Hf Hw; cbn [each]; [by apply ends_ret|]. apply ends_bind.
  eapply ends_mono; [apply Hf; [by left|done]|]. intros b w1 Hw1. cbn beta. apply ends_bind. eapply ends_mono; [apply IH; [|done]|].
  - intros x w' Hx. apply Hf. by right.
  - intros bs w2 Hw2. cbn beta. by apply ends_ret.
Qed.

Section Live.
Context {SH : Sha256} (F : ienv).

(** No call fails. *)
Definition quiet : Prop := forall t, ie_fail F t = None.
Context (HF : quiet).

Lemma quiet_call {A} (act : iworld -> result A * iworld) partial w : syscall F act partial w = act (ticked w).
Proof. unfold syscall. by rewrite HF. Qed.

Lemma ends_handle w (Q : unit -> iworld -> Prop) : Q () (ticked w) -> ends (handle F) w Q.
Proof. intros. unfold handle, atomic. eexists _, _. by rewrite quiet_call. Qed.
Lemma ends_exists path w (Q : bool -> iworld -> Prop) : Q (bool_decide (is_Some (iw_fs w !! path))) (ticked w) -> ends (pathExistsRoot F path) w Q.
Proof. intros. unfold pathExistsRoot, atomic. eexists _, _. by rewrite quiet_call. Qed.
Lemma ends_lstat path w t (Q : ftree -> iworld -> Prop) : iw_fs w !! path = Some t -> Q t (ticked w) -> ends (lstat F path) w Q.
Proof. intros Ht. unfold lstat, atomic. exists t, (ticked w). rewrite quiet_call. cbn. by rewrite Ht. Qed.
Lemma ends_fingerprint f path w t s (Q : string -> iworld -> Prop) :
  iw_fs w !! path = Some t -> is_link t = false -> f t = Ok s -> Q s (ticked w) -> ends (fingerprint_with F f path) w Q.
Proof.
  intros Ht Hl Hf HQ. unfold fingerprint_with, atomic. exists s, (ticked w). rewrite quiet_call. cbn. rewrite Ht. split; [|done]. destruct t; by rewrite ?Hf.
Qed.
Lemma ends_rename path target w t (Q : unit -> iworld -> Prop) : iw_fs w !! path = Some t -> iw_fs w !! target = None ->
  Q () (with_fs (fun fs => <[target := t]> (base.delete path fs)) (ticked w)) -> ends (rename F None path target) w Q.
Proof. intros Hs Ht HQ. unfold rename, atomic. eexists _, _. rewrite quiet_call. cbn. rewrite Hs, Ht. done. Qed.
Lemma ends_remove_all l w (Q : unit -> iworld -> Prop) : Q () (with_fs (fun fs => foldr base.delete fs l) (ticked w)) -> ends (remove_all F l) w Q.
Proof. intros HQ. unfold remove_all. eexists _, _. by rewrite quiet_call. Qed.
Lemma ends_pin e w (Q : unit -> iworld -> Prop) : pinned (iw_fs w) e -> Q () (ticked w) -> ends (read_pin F e) w Q.
Proof.
  intros [a Ha] HQ. unfold read_pin, atomic. exists (), (ticked w). rewrite quiet_call. cbn. rewrite Ha. split; [|done].
  by rewrite of_bytes_bytes, bool_decide_eq_true_2.
Qed.
Lemma ends_open e w (Q : unit -> iworld -> Prop) : pinned (iw_fs w) e -> Q () (ticked (ticked w)) -> ends (openInstallRoot F e) w Q.
Proof. intros Hp HQ. apply ends_bind, ends_handle. by apply ends_wrapped, ends_pin. Qed.
Lemma ends_open_parent e w (Q : unit -> iworld -> Prop) : pinned (iw_fs w) e -> Q () (ticked (ticked w)) -> ends (openPinnedInstallParent F e) w Q.
Proof. intros Hp HQ. apply ends_bind, ends_handle. by apply ends_pin. Qed.

(** ** One entry *)
Lemma ends_preserve e w x (Q : list string -> iworld -> Prop) : iw_fs w !! e_Destination e = Some x -> scannable x -> iw_fs w !! e_Quarantine e = None ->
  (forall q w', iw_fs w' !! e_Destination e = None -> (forall k, k ∉ [e_Destination e; e_Quarantine e] -> iw_fs w' !! k = iw_fs w !! k) -> Q q w') ->
  distinct_paths e -> ends (preserveChangedInstallation F e) w Q.
Proof.
  intros Hx [Hdir [f Hf]] Hq HQ He. unfold preserveChangedInstallation, plaintextContentFingerprintRoot. apply ends_bind.
  apply (ends_fingerprint _ _ _ x f); [done|by destruct x|done|]. case_bool_decide as Ei.
  - apply ends_bind, ends_wrapped, ends_remove_all, ends_bind, ends_handle, ends_ret. apply HQ; cbn; [by rewrite lookup_delete_eq|].
    intros k Hk. rewrite lookup_delete_ne by set_solver. done.
  - apply ends_bind. exists (Err ErrNotExist). eexists. split; [unfold outcome, lstat, atomic; rewrite quiet_call; cbn; by rewrite Hq|]. 
    assert (errors_Is ErrNotExist ErrNotExist = true) as -> by done.
    apply ends_bind, ends_wrapped, (ends_rename _ _ _ x); [done|done|]. apply ends_bind, ends_handle, ends_ret. apply HQ; cbn.
    + rewrite lookup_insert_ne, lookup_delete_eq by paths. done.
    + intros k Hk. rewrite lookup_insert_ne, lookup_delete_ne by set_solver. done.
Qed.

Lemma ends_recover_entry o e w : distinct_paths e -> recoverable o e (slots_of (iw_fs w) e) -> pinned (iw_fs w) e ->
  ends (recover_entry F e) w (fun _ _ => True).
Proof.
  intros He Hr Hp. unfold recover_entry. apply ends_bind, ends_wrapped, ends_open; [done|]. do 4 apply ends_bind, ends_exists. cbn.
  unfold recoverable in Hr. destruct (e_HadCurrent e) eqn:Hh; cbn in Hr.
  - destruct Hr as (t & -> & Hf & Hl & [[Hprev Hd]|[Hprev Hd]]).
    + rewrite Hprev. rewrite (bool_decide_eq_true_2 (is_Some (Some t))) by done. unfold restore_preserved. apply ends_bind.
      assert (forall w', iw_fs w' !! e_Destination e = None -> iw_fs w' !! e_Rollback e = Some t ->
        forall A (k : Act iworld A), (forall w'', ends k w'' (fun _ _ => True)) ->
        ends (_ ← wrapped "restore preserved" (rename F None (e_Rollback e) (e_Destination e)); k) w' (fun _ _ => True)) as Hrest.
      { intros w' Hd' Hp' A k Hk. by apply ends_bind, ends_wrapped, (ends_rename _ _ _ t). }
      assert (forall q w'', ends (_ ← handle F; mret (M := Act iworld) q) w'' (fun (_ : list string) _ => True)) as Hfin.
      { intros q w''. by apply ends_bind, ends_handle, ends_ret. }
      destruct Hd as [Hd|(x & Hd & Hx & Hq)].
      * rewrite Hd. rewrite bool_decide_eq_false_2 by by intros []. apply ends_ret, Hrest; [done|done|apply Hfin].
      * rewrite Hd, bool_decide_eq_true_2 by done. eapply ends_preserve; [exact Hd|done|done| |done].
        intros q w' H1 H2. apply Hrest; [done| |apply Hfin]. rewrite H2; [done|]. rewrite !not_elem_of_cons. split_and!; [paths|paths|apply not_elem_of_nil].
    + rewrite Hprev, Hd. rewrite bool_decide_eq_false_2 by by intros []. rewrite bool_decide_eq_true_2 by done. unfold keep_original.
      apply ends_bind, ends_bind. eapply ends_fingerprint; [exact Hd|done|exact Hf|]. cbn beta. apply ends_ret.
      rewrite bool_decide_eq_true_2 by done. by apply ends_ret.
  - destruct Hr as [-> [Hd|(x & Hd & Hx & Hq & Hn)]]; unfold remove_new; rewrite Hd.
    + rewrite bool_decide_eq_false_2 by by intros []. by apply ends_ret.
    + rewrite bool_decide_eq_true_2 by done. apply ends_bind. apply (ends_pure _ ()).
      * match goal with |- fail_if ?b _ = _ => assert (b = false) as -> end; [|done]. apply andb_false_iff. rewrite !bool_decide_eq_false.
        destruct Hn as [-> |Hn]; [left; by intros []|by right].
      * by eapply ends_preserve.
Qed.

(** ** All entries *)
Context (before : gmap string ftree) (es : list installTransactionEntry) (planID : string) (Hsep : separate es) (HS : sane F).
Notation inv := (Inv before es planID).

Lemma spec_recover_one ts e j0 : separate ts -> e ∈ ts ->
  spec (fun fs j => j = j0 /\ all_recoverable before ts fs) (recover_entry F e) (fun _ fs j => j = j0 /\ all_recoverable before ts fs) (fun fs j => j = j0 /\ all_recoverable before ts fs).
Proof.
  intros Hs He w Hw. pose proof (spec_recover_each before F HS ts [e] j0 [] Hs ltac:(set_solver) ltac:(set_solver) w) as H.
  specialize (H ltac:(destruct Hw; split_and!; [done|done|intros t Ht; set_solver])).
  cbn [each] in H. unfold mbind, Act_bind, mret, Act_ret in H. destruct (recover_entry F e w) as [[q|err] w1]; [|done]. destruct H as (? & ? & ?). by split.
Qed.

Lemma ends_recover_each ts l w : versions es ts -> l ⊆ ts -> all_recoverable before ts (iw_fs w) -> all_pinned es (iw_fs w) -> 
  ends (each (recover_entry F) l) w (fun _ _ => True).
Proof.
  intros Hv Hl Hr Hp. pose proof (versions_separate es Hsep ts Hv) as Hs.
  eapply ends_mono; [apply (ends_each (fun fs j => all_recoverable before ts fs /\ all_pinned es fs))|done]; [|done].
  intros e w1 He [Hr1 Hp1]. specialize (Hl e He).
  assert (ends (recover_entry F e) w1 (fun _ _ => True)) as Hends.
  { eapply ends_recover_entry; [by eapply separate_distinct|by apply Hr1|]. destruct (versions_elem es _ _ Hv Hl) as (e0 & He0 & Hsame).
    eapply same_pinned; [done|by apply Hp1]. }
  destruct Hends as (q & w2 & Hq & _). exists q, w2. split; [done|].
  pose proof (spec_recover_one ts e (iw_journal w1) Hs Hl w1 (conj eq_refl Hr1)) as H1. rewrite Hq in H1.
  pose proof (recover_keeps_pins es Hsep F HS true ts e Hv Hl w1 (fun _ => Hp1)) as H2. rewrite Hq in H2. split; [apply H1|by apply H2].
Qed.

Lemma ends_remove_staging ts w : versions es ts -> all_pinned es (iw_fs w) -> ends (removeInstallStaging F ts) w (fun _ w' => all_pinned es (iw_fs w')).
Proof.
  intros Hv Hp. unfold removeInstallStaging. apply ends_bind. eapply ends_mono; [apply (ends_each (fun fs _ => all_pinned es fs)); [|exact Hp]|intros ? w' Hw'; by apply ends_ret].
  intros t w1 Ht Hp1. destruct (versions_elem es _ _ Hv Ht) as (e0 & He0 & Hsame). unfold remove_staging.
  apply ends_bind, ends_wrapped, ends_open_parent; [eapply same_pinned; [done|by apply Hp1]|]. apply ends_wrapped, ends_bind, ends_remove_all.
  apply ends_bind, ends_handle, ends_handle. unfold holds. cbn [iw_fs ticked with_fs]. eapply (pinned_stable es Hsep ts Hv); [done|exact Hp1|intros k Hk; by apply deletes_outside|intros k Hk; by apply deletes_absent].
Qed.

(** Every pin is there or gone. *)
Definition loosely_pinned (fs : gmap string ftree) : Prop := forall e, e ∈ es -> pinned fs e \/ fs !! e_Pin e = None.

Lemma ends_remove_pins ts w : versions es ts -> loosely_pinned (iw_fs w) ->
  ends (removeInstallPins F ts) w (fun _ w' => iw_journal w' = iw_journal w).
Proof.
  intros Hv Hp. unfold removeInstallPins. apply ends_bind. eapply ends_mono; [apply (ends_each (fun fs j => loosely_pinned fs /\ j = iw_journal w)); [|done]|intros ? w' [_ Hw']; by apply ends_ret].
  intros t w1 Ht [Hp1 Hj1]. destruct (versions_elem es _ _ Hv Ht) as (e0 & He0 & Hsame). unfold remove_pin. destruct (Hp1 e0 He0) as [Hpin|Hnone].
  - pose proof (same_pinned _ _ _ Hsame Hpin) as [a Ha]. apply ends_bind. eapply ends_mono; [apply ends_outcome, ends_open_parent with (Q := fun _ w' => w' = ticked (ticked w1)); [by exists a|done]|].
    intros r w2 ([] & -> & ->). apply ends_wrapped, ends_bind. exists (), (with_fs (base.delete (e_Pin t)) (ticked (ticked (ticked w1)))). split.
    { unfold remove_one, atomic. rewrite quiet_call. cbn. by rewrite Ha. }
    apply ends_bind, ends_handle, ends_handle. split; [|done]. cbn. intros e He. destruct (decide (e_Pin e = e_Pin t)) as [->|Hne]; [right; by rewrite lookup_delete_eq|].
    unfold pinned. rewrite lookup_delete_ne by done. by apply Hp1.
  - assert (iw_fs w1 !! e_Pin t = None) as Hn by (destruct Hsame as [Hk _ _]; unfold keys in Hk; rewrite <- Hnone; f_equal; congruence).
    apply ends_bind. exists (Err ErrNotExist), (ticked (ticked w1)). split.
    { unfold outcome, openPinnedInstallParent, mbind, Act_bind, handle, read_pin, atomic. rewrite !quiet_call. cbn. by rewrite Hn. }
    by apply ends_ret.
Qed.

(** ** Whole recoveries *)
Lemma ends_remove_journal w (Q : unit -> iworld -> Prop) : Q () (with_journal None (ticked w)) -> ends (removeInstallTransaction F) w Q.
Proof. intros HQ. unfold removeInstallTransaction. eexists _, _. by rewrite quiet_call. Qed.

(** A journaled transaction whose parents are pinned and whose next trees were
    directories. *)
Definition staged : Prop := forall e, e ∈ es -> exists i, inst before e = Some i /\ is_dir i = true.

Lemma ends_undo T w : journaled es planID T -> tx_State T = installStatePrepared -> holds (to_undo before es true T) w ->
  exists r w', undo F T w = (r, w') /\ iw_journal w' = None /\ (r = Ok () \/ r = Err ErrRecoveryQuarantine).
Proof.
  intros HT Hs Hw. pose proof (jo_versions _ _ _ HT) as Hv. destruct Hw as (Hj & Hr & Hp). specialize (Hp eq_refl).
  assert (ends (q ← each (recover_entry F) (rev (tx_Entries T)); _ ← removeInstallStaging F (tx_Entries T);
                _ ← removeInstallTransaction F; _ ← removeInstallPins F (tx_Entries T); mret q) w (fun _ w' => iw_journal w' = None)) as (q & w' & Hrun & Hn).
  { apply ends_bind. eapply ends_mono; [apply (ends_spec _ _ (to_undo before es true T) (fun _ fs j => j = Some T /\ undone_inv before es true T fs) (inv true))|].
    - by apply spec_recover_all.
    - by split_and!.
    - apply (ends_recover_each (tx_Entries T)); [done|intros t; apply elem_of_rev|done|done].
    - intros q w1 (_ & _ & Hp1). specialize (Hp1 eq_refl). cbn beta. apply ends_bind. eapply ends_mono; [by apply ends_remove_staging|]. intros ? w2 Hp2. cbn beta.
      apply ends_bind, ends_remove_journal, ends_bind. eapply ends_mono; [apply ends_remove_pins; [exact Hv|]|]; [intros e He; left; by apply Hp2|].
      intros ? w3 Hj3. by apply ends_ret. }
  unfold undo. simplify_act. match goal with H : each _ _ w = (Ok ?q, _) |- _ => exists (fail_if (negb (bool_decide (concat q = []))) ErrRecoveryQuarantine) end.
  eexists. split; [|split; [exact Hn|]].
  - do 4 (erewrite act_bind_run; [|eassumption]). done.
  - unfold fail_if. destruct (negb _); [by right|by left].
Qed.

Lemma ends_finalize T w : journaled es planID T -> staged -> holds (committed before es true T) w ->
  ends (finalizeCommittedInstall F T) w (fun _ w' => iw_journal w' = None).
Proof.
  intros HT Hst (Hj & Hi & Hp). specialize (Hp eq_refl). pose proof (jo_versions _ _ _ HT) as Hv. unfold finalizeCommittedInstall. apply ends_bind.
  eapply ends_mono; [apply (ends_each (fun fs _ => all_inst before es fs /\ all_pinned es fs)); [|done]|].
  - intros t w1 Ht [Hi1 Hp1]. destruct (versions_elem es _ _ Hv Ht) as (e & He & Hsame). destruct (Hst e He) as (i & Hie & Hdir).
    assert (iw_fs w1 !! e_Destination t = Some i) as Hd.
    { rewrite <- Hie, <- (Hi1 e He). destruct Hsame as [Hk _ _]. unfold keys in Hk. f_equal. congruence. }
    unfold check_committed. apply ends_bind, ends_wrapped, ends_open; [eapply same_pinned; [done|by apply Hp1]|].
    apply ends_bind, ends_wrapped, (ends_lstat _ _ i); [done|]. apply ends_bind, ends_handle. apply (ends_pure _ ()); [by rewrite Hdir|done].
  - intros ? w1 [_ Hp1]. cbn beta. apply ends_bind. eapply ends_mono; [by apply ends_remove_staging|]. intros ? w2 Hp2. cbn beta.
    apply ends_bind, ends_remove_journal. apply ends_remove_pins; [done|]. intros e He. left. by apply Hp2.
Qed.

Lemma ends_recover w : staged -> holds (inv true) w ->
  exists r w', recoverInstallTransaction F planID w = (r, w') /\ iw_journal w' = None /\ (r = Ok () \/ r = Err ErrRecoveryQuarantine).
Proof.
  intros Hst Hw. unfold recoverInstallTransaction.
  assert (readInstallTransaction F w = (Ok (iw_journal w), ticked w)) as Hread by (unfold readInstallTransaction, atomic; by rewrite quiet_call).
  rewrite (act_bind_run _ _ _ _ _ Hread). unfold holds, Inv in Hw. destruct (iw_journal w) as [T|] eqn:Hj; [|by exists (Ok ()), (ticked w); auto].
  destruct Hw as (HT & Hp & Hs). pose proof (jo_plan _ _ _ HT) as Hid. pose proof (jo_valid _ _ _ HT) as Hval.
  assert (tx_Version T = installTransactionVersion) as Hver.
  { unfold validateInstallTransaction, fail_if in Hval. destruct (decide (tx_Version T = installTransactionVersion)); [done|]. by rewrite bool_decide_eq_false_2 in Hval. }
  rewrite Hid, Hver, Hval. rewrite (bool_decide_eq_true_2 (planID = planID)), (bool_decide_eq_true_2 (installTransactionVersion = _)) by done. cbn [negb fail_if wrap_err].
  unfold mbind at 1 2 3, Act_bind at 1 2 3, pure at 1 2 3. case_bool_decide as Hc.
  - rewrite Hc in Hs. destruct (ends_finalize T (ticked w) HT Hst) as ([] & w' & Hf & Hn); [by split_and!|]. exists (Ok ()), w'. auto.
  - destruct (tx_State T) eqn:Es; [|done|done]. apply ends_undo; [done|done|by split_and!].
Qed.
End Live.
