(* ===== verification/InstallThms.v ===== *)
(** Installations are all or nothing, recovery loses nothing and comes to an
    end. *)

From stdpp Require Import base decidable gmap strings list relations.
From Stdlib Require Import Ascii ZArith.
From S2P Require Import Prelude Effect GoText Cache PlainTree Registry Install InstallFacts InstallRuns InstallSwap.

(** The recoveries of later runs, each in its own environment. *)
Definition later {SH : Sha256} (planID : string) (Es : list ienv) (w : iworld) : iworld :=
  foldl (fun w E => (recoverInstallTransaction E planID w).2) w Es.

Section Theorems.
Context {SH : Sha256}.

Lemma spec_holds {A} P (m : Act iworld A) (Q R : assertion) w : spec P m (fun _ => Q) R -> (forall fs j, Q fs j -> R fs j) -> holds P w -> holds R (m w).2.
Proof. intros Hs HQ Hw. specialize (Hs w Hw). destruct (m w) as [[a|e] w']; [by apply HQ|done]. Qed.

Lemma later_inv before es planID pins Es w : separate es -> Forall sane Es ->
  holds (Inv before es planID pins) w -> holds (Inv before es planID pins) (later planID Es w).
Proof.
  intros Hsep HEs. revert w. induction HEs as [|E Es HE _ IH]; intros w Hw; [done|]. cbn. apply IH.
  eapply spec_holds; [by apply (spec_recover before es planID Hsep E HE pins)| |exact Hw]. by intros fs j [-> ?].
Qed.

Lemma begun_staged before es planID E w ps w1 : ready before es -> sane E -> holds (untouched before) w -> begin E planID es w = (Ok ps, w1) ->
  holds (swapping before es planID (waiting ps)) w1 /\ staged before es.
Proof.
  intros Hr HE Hw Hb. pose proof (spec_begin before es planID Hr E w Hw) as H. rewrite Hb in H. split; [done|].
  intros e He. destruct H as [_ Hv Hk _ _]. rewrite waiting_fst in Hv, Hk. destruct (versions_elem' es _ _ Hv He) as (t & Ht & [Hkeys _ _]).
  eapply Forall_forall in Hk; [|exact Ht]. destruct (kn_inst _ _ Hk) as (i & Hi & Hdir & _). exists i. split; [|done].
  rewrite <- Hi. unfold inst. unfold keys in Hkeys. f_equal. congruence.
Qed.

(** C14. An installation of several directories is all or nothing.  Whatever
    calls of the installation fail, before or after their effect, or from
    wherever on they fail because the process stopped, and however many
    recoveries are attempted and interrupted afterwards: as soon as no journal
    remains, either every destination is its original again (absent, if it was
    absent), or every destination is its prepared tree.  An installation that
    reports success has installed every tree. *)
Theorem install_all_or_nothing before es planID E Es w r w1 :
  ready before es -> sane E -> Forall sane Es -> iw_fs w = before -> iw_journal w = None ->
  installPrepared E planID es w = (r, w1) ->
  (iw_journal (later planID Es w1) = None -> all_orig before es (iw_fs (later planID Es w1)) \/ all_inst before es (iw_fs (later planID Es w1))) /\
  (r = Ok () -> iw_journal w1 = None /\ all_inst before es (iw_fs w1)).
Proof.
  intros Hr HE HEs Hfs Hj Hrun. pose proof (spec_install before es planID Hr E HE w (conj Hfs Hj)) as H. rewrite Hrun in H.
  assert (holds (Inv before es planID false) w1) as Hinv.
  { destruct r as [[]|err]; [|done]. destruct H as [Hn Hi]. unfold holds. rewrite Hn. by right. }
  split.
  - intros Hn. apply (later_inv _ _ _ _ Es) in Hinv; [|apply (rd_separate _ _ Hr)|done]. unfold holds in Hinv. by rewrite Hn in Hinv.
  - by intros ->.
Qed.

(** C15. Recovery comes to an end.  When the prepared transaction was journaled,
    then whatever happened to the rest of the installation and to any number of
    recoveries, the next recovery in which no call fails removes the journal,
    with every destination its original or every destination its prepared tree;
    it reports success, or that it preserved edits in a quarantine. *)
Theorem interrupted_install_recovers before es planID E Es F w ps wb :
  ready before es -> sane E -> Forall sane Es -> sane F -> quiet F -> iw_fs w = before -> iw_journal w = None ->
  begin E planID es w = (Ok ps, wb) ->
  let w1 := later planID Es (installPrepared E planID es w).2 in
  exists r w2, recoverInstallTransaction F planID w1 = (r, w2) /\ iw_journal w2 = None /\ (r = Ok () \/ r = Err ErrRecoveryQuarantine) /\
    (all_orig before es (iw_fs w2) \/ all_inst before es (iw_fs w2)).
Proof.
  intros Hr HE HEs HF HQ Hfs Hj Hb w1. destruct (begun_staged before es planID E w ps wb Hr HE (conj Hfs Hj) Hb) as [Hsw Hst].
  assert (holds (Inv before es planID true) w1) as Hinv.
  { apply later_inv; [apply (rd_separate _ _ Hr)|done|]. unfold installPrepared.
    erewrite act_bind_run by (unfold outcome; by rewrite Hb). cbn beta iota.
    eapply spec_holds; [by apply (spec_after_begin before es planID Hr E HE ps)| |exact Hsw]. intros fs j [-> ?]. by right. }
  destruct (ends_recover F HQ before es planID (rd_separate _ _ Hr) HF w1 Hst Hinv) as (r & w2 & Hrun & Hn & Hres). exists r, w2. split_and!; [done|done|done|].
  pose proof (later_inv before es planID true [F] w1 (rd_separate _ _ Hr) (Forall_cons_2 _ _ _ HF (Forall_nil_2 _)) Hinv) as H.
  unfold holds in H. cbn in H. rewrite Hrun in H. cbn in H. by rewrite Hn in H.
Qed.

(** ** Nothing is lost *)
Lemma undo_keeps_preserved E e o s s' : e_HadCurrent e = true -> rtc (undo_step E e) s s' ->
  (sl_prev s = Some o \/ sl_prev s = None /\ sl_dest s = Some o) -> sl_prev s' = Some o \/ sl_prev s' = None /\ sl_dest s' = Some o.
Proof.
  intros Hh. induction 1 as [|s1 s2 s3 Hs _ IH]; [done|]. intros H. apply IH. destruct Hs as [t n p q rest Hrem _ _|t n p Hrem|n o' q _]; cbn in *.
  - unfold removable in Hrem. rewrite Hh in Hrem. destruct H as [?|[-> _]]; [by left|by destruct Hrem].
  - unfold removable in Hrem. rewrite Hh in Hrem. destruct H as [?|[-> _]]; [by left|by destruct Hrem].
  - destruct H as [?|[? _]]; [by right|done].
Qed.

Lemma undo_keeps_destination E e x s s' : rtc (undo_step E e) s s' ->
  (sl_dest s = Some x \/ sl_quar s = Some x \/ looks_installed E e x) -> sl_dest s' = Some x \/ sl_quar s' = Some x \/ looks_installed E e x.
Proof.
  induction 1 as [|s1 s2 s3 Hs _ IH]; [done|]. intros H. apply IH. destruct Hs as [t n p q rest _ Hl _|t n p _|n o' q _]; cbn in *.
  - destruct H as [[= <-]|[?|?]]; naive_solver.
  - destruct H as [[= <-]|[?|?]]; naive_solver.
  - destruct H as [?|[?|?]]; naive_solver.
Qed.

(** C16. Recovery of an entry loses nothing, whichever of its calls fail: the
    journal and every object outside the entry stay; a preserved original is
    still preserved or is the destination again; and the tree that recovery
    found at the destination is still there, or in the quarantine, or has the
    fingerprint of the tree that was to be installed, or is a symbolic link and
    that fingerprint was read through it (the code follows the link).  When the recovery of the
    entry succeeds, the preserved original is the destination. *)
Theorem recovery_loses_nothing E e w r w' : sane E -> distinct_paths e -> recover_entry E e w = (r, w') ->
  iw_journal w' = iw_journal w /\ (forall k, k ∉ touched e -> iw_fs w' !! k = iw_fs w !! k) /\
  (forall o, e_HadCurrent e = true -> iw_fs w !! e_Rollback e = Some o ->
     (iw_fs w' !! e_Rollback e = Some o \/ iw_fs w' !! e_Rollback e = None /\ iw_fs w' !! e_Destination e = Some o) /\
     (forall q, r = Ok q -> iw_fs w' !! e_Destination e = Some o)) /\
  (forall x, iw_fs w !! e_Destination e = Some x ->
     iw_fs w' !! e_Destination e = Some x \/ iw_fs w' !! e_Quarantine e = Some x \/ looks_installed E e x).
Proof.
  intros HE He Hrun. pose proof (spec_recover_entry E HE e He (iw_fs w) (iw_journal w) w (conj eq_refl eq_refl)) as H. rewrite Hrun in H.
  assert (reached E e (iw_fs w) (iw_journal w) (iw_fs w') (iw_journal w')) as [Hj [Hrt Hf]] by (destruct r; [apply H|done]).
  split_and!; [done|done| |].
  - intros o Hh Ho. split; [by apply (undo_keeps_preserved E e o _ _ Hh Hrt); left|]. intros q ->. destruct H as [_ Hs]. unfold settled in Hs. rewrite Hh, Ho in Hs. by destruct Hs.
  - intros x Hx. apply (undo_keeps_destination E e x _ _ Hrt). by left.
Qed.

(** ** Recovery without a pin *)
Lemma unpinned_recovery_fails E planID w T l e : iw_journal w = Some T -> tx_State T = installStatePrepared -> tx_Entries T = l ++ [e] -> iw_fs w !! e_Pin e = None ->
  exists err, (recoverInstallTransaction E planID w).1 = Err err /\ iw_journal (recoverInstallTransaction E planID w).2 = Some T /\
    iw_fs (recoverInstallTransaction E planID w).2 = iw_fs w.
Proof.
  intros Hj Hs He Hpin. set (P := fun fs j => fs = iw_fs w /\ j = Some T).
  assert (spec P (recoverInstallTransaction E planID) (fun _ _ _ => False) P) as Hspec.
  { unfold recoverInstallTransaction. apply (spec_bind _ _ _ (fun f fs j => P fs j /\ f = Some T)).
    { intros w0 [Hf Hj0]. unfold readInstallTransaction, atomic, syscall. destruct (ie_fail E (iw_tick w0)); [by destruct (ie_dirty E (iw_tick w0))|].
      split; [by split|done]. }
    intros f. apply spec_fact. intros ->. do 3 (apply (spec_bind _ _ _ (fun _ => P)); [by apply spec_pure|intros ?]).
    rewrite Hs, bool_decide_eq_false_2 by done. unfold undo. apply (spec_bind _ _ _ (fun _ _ _ => False)); [|by intros ? ? ?].
    rewrite He, rev_app_distr. cbn [rev app each]. apply (spec_bind _ _ _ (fun _ _ _ => False)); [|by intros ? ? ?].
    unfold recover_entry. apply (spec_bind _ _ _ (fun _ _ _ => False)); [|by intros ? ? ?].
    apply spec_wrapped. eapply spec_conseq; [by apply (spec_open E P e P)|done| |done]. intros ? fs j [[-> _] [at_ Ha]]. by rewrite Hpin in Ha. }
  specialize (Hspec w (conj eq_refl Hj)). destruct (recoverInstallTransaction E planID w) as [[u|err] w']; [done|]. destruct Hspec as [Hf Hj']. by exists err.
Qed.

Lemma unpinned_later planID Es w T l e : iw_journal w = Some T -> tx_State T = installStatePrepared -> tx_Entries T = l ++ [e] -> iw_fs w !! e_Pin e = None ->
  iw_journal (later planID Es w) = Some T /\ iw_fs (later planID Es w) = iw_fs w.
Proof.
  intros Hj Hs He. revert w Hj. induction Es as [|E Es IH]; intros w Hj Hp; [done|]. cbn.
  destruct (unpinned_recovery_fails E planID w T l e Hj Hs He Hp) as (err & _ & Hj' & Hf). destruct (IH _ Hj') as [H1 H2]; [by rewrite Hf|]. split; [exact H1|]. transitivity (iw_fs (recoverInstallTransaction E planID w).2); [exact H2|exact Hf].
Qed.
End Theorems.
