(* ===== verification/InstallWitness.v ===== *)
(** Installations of two directories. *)

From stdpp Require Import base decidable gmap strings list relations.
From Stdlib Require Import Ascii ZArith.
From S2P Require Import Prelude Effect GoText Cache PlainTree Registry Install InstallFacts InstallRuns InstallSwap InstallThms.

Module Installations.
(** A digest without collisions. *)
#[local] Instance transparent : Sha256 := {| sha256_hex := of_bytes |}.

Definition text (s : string) : ftree := FFile (mkAttr 384 (N.of_nat (length (bytes s))) 0) (bytes s).
Definition folder (entries : list (string * ftree)) : ftree := FDir (mkAttr 448 0 0) entries.
Definition token : string := "0123456789abcdef0123456789abcdef0123456789abcdef0123456789abcdef".

Definition entry (name : string) (had : bool) : installTransactionEntry :=
  mkEntry name ("/home/" +:+ name) ("/home/.malt-sync-" +:+ name) ("/home/.malt-sync-" +:+ name +:+ "/next") ("/home/.malt-sync-" +:+ name +:+ "/previous")
    (".malt-install-pin-" +:+ name) token EmptyString EmptyString EmptyString had installPhasePrepared.
(** One destination is there, the other is new. *)
Definition entries : list installTransactionEntry := [entry "docs" true; entry "notes" false].

Definition scene : gmap string ftree := list_to_map [
  ("/home/docs", folder [("a", text "old")]);
  ("/home/.malt-sync-docs", folder []);
  ("/home/.malt-sync-docs/next", folder [("a", text "new")]);
  ("/home/.malt-install-pin-docs", text token);
  ("/home/.malt-sync-notes", folder []);
  ("/home/.malt-sync-notes/next", folder [("n", text "note")]);
  ("/home/.malt-install-pin-notes", text token)].
Definition start : iworld := mkIw scene None 0.

Definition no_left (t : nat) (path : string) (tree : ftree) : option ftree := None.
Definition no_link (t : nat) : result string := Err (Errorf "no link").
(** Everything works. *)
Definition calm : ienv := mkIenv (fun _ => None) (fun _ => false) no_left no_link.
(** The process stops at call [n]. *)
Definition stops_at (n : nat) : ienv := mkIenv (fun t => if n <=? t then Some (Errorf "stopped") else None) (fun _ => false) no_left no_link.
(** Call [n] fails after its effect. *)
Definition dirty_at (n : nat) : ienv := mkIenv (fun t => if n =? t then Some (Errorf "sync failed") else None) (fun _ => true) no_left no_link.

Lemma calm_sane : sane calm.
Proof. by split. Qed.
Lemma calm_quiet : quiet calm.
Proof. done. Qed.
Lemma stops_sane n : sane (stops_at n).
Proof. split; [|done]. intros t e. cbn. destruct (n <=? t); [|done]. by intros [= <-]. Qed.

Lemma scene_ready : ready scene entries.
Proof.
  split.
  - vm_compute. repeat (constructor; [set_solver|]). constructor.
  - intros e [->|[->|[]%elem_of_nil]%elem_of_cons]%elem_of_cons; eexists; vm_compute; reflexivity.
  - intros e [->|[->|[]%elem_of_nil]%elem_of_cons]%elem_of_cons; cbn; [|reflexivity]. intros t H. vm_compute in H. by injection H as <-.
  - intros e i [->|[->|[]%elem_of_nil]%elem_of_cons]%elem_of_cons H; vm_compute in H; by injection H as <-.
  - intros e [->|[->|[]%elem_of_nil]%elem_of_cons]%elem_of_cons; reflexivity.
  - intros e [->|[->|[]%elem_of_nil]%elem_of_cons]%elem_of_cons; reflexivity.
Qed.

(** The process stops after the first destination was swapped; a recovery stops
    as well, and the next one succeeds. *)
Definition interrupted : iworld := (installPrepared (stops_at 27) "plan" entries start).2.

Lemma install_all_or_nothing_witness :
  iw_fs interrupted !! "/home/docs" = Some (folder [("a", text "new")]) /\
  let final := later "plan" [stops_at 33; calm] interrupted in
  iw_journal final = None /\ (all_orig scene entries (iw_fs final) \/ all_inst scene entries (iw_fs final)).
Proof.
  split; [vm_compute; reflexivity|]. split; [vm_compute; reflexivity|].
  refine (proj1 (install_all_or_nothing scene entries "plan" (stops_at 27) [stops_at 33; calm] start (installPrepared (stops_at 27) "plan" entries start).1 interrupted _ _ _ _ _ _) _).
  - exact scene_ready.
  - apply stops_sane.
  - constructor; [apply stops_sane|constructor; [apply calm_sane|constructor]].
  - reflexivity.
  - reflexivity.
  - symmetry. apply surjective_pairing.
  - vm_compute. reflexivity.
Defined.

Definition prepared : list installTransactionEntry := match (begin (stops_at 27) "plan" entries start).1 with Ok ps => ps | Err _ => [] end.

Lemma interrupted_install_recovers_witness :
  exists r w2, recoverInstallTransaction calm "plan" (later "plan" [stops_at 33] interrupted) = (r, w2) /\ iw_journal w2 = None /\
    (r = Ok () \/ r = Err ErrRecoveryQuarantine) /\ (all_orig scene entries (iw_fs w2) \/ all_inst scene entries (iw_fs w2)).
Proof.
  apply (interrupted_install_recovers scene entries "plan" (stops_at 27) [stops_at 33] calm start prepared (begin (stops_at 27) "plan" entries start).2).
  - exact scene_ready.
  - apply stops_sane.
  - constructor; [apply stops_sane|constructor].
  - exact calm_sane.
  - exact calm_quiet.
  - reflexivity.
  - reflexivity.
  - vm_compute. reflexivity.
Defined.

(** The installed tree is edited before the recovery: the edit is quarantined. *)
Definition edited : iworld := mkIw (<["/home/docs" := folder [("a", text "edit")]]> (iw_fs interrupted)) (iw_journal interrupted) (iw_tick interrupted).
Definition first_entry : installTransactionEntry :=
  match iw_journal interrupted with Some t => List.hd (entry "docs" true) (tx_Entries t) | None => entry "docs" true end.

Lemma recovery_loses_nothing_witness :
  iw_fs (recover_entry calm first_entry edited).2 !! e_Quarantine first_entry = Some (folder [("a", text "edit")]) /\
  iw_fs (recover_entry calm first_entry edited).2 !! e_Destination first_entry = Some (folder [("a", text "old")]).
Proof.
  split; [vm_compute; reflexivity|].
  destruct (recovery_loses_nothing calm first_entry edited (recover_entry calm first_entry edited).1 (recover_entry calm first_entry edited).2) as (_ & _ & H & _).
  - exact calm_sane.
  - vm_compute. repeat (constructor; [set_solver|]). constructor.
  - apply surjective_pairing.
  - destruct (H (folder [("a", text "old")])) as [_ H']; [vm_compute; reflexivity|vm_compute; reflexivity|].
    apply (H' [e_Quarantine first_entry]). vm_compute. reflexivity.
Defined.

(** The first write of the journal fails after its rename: the journal is there,
    and the installation removes the pins of the parents. *)
Definition stuck : result unit * iworld := installPrepared (dirty_at 13) "plan" entries start.

(** C34. When the write of the prepared journal fails after the journal was put
    in place (its directory could not be synchronised), the installation takes
    the journal for unwritten and removes the pins of the parents: nothing was
    installed, but every later recovery, in whatever environment, fails and
    leaves the journal, so that the plan cannot be synchronised again. *)
Theorem unsynced_journal_blocks_recovery :
  (exists err, stuck.1 = Err err) /\ all_orig scene entries (iw_fs stuck.2) /\
  forall Es E, iw_journal (later "plan" Es stuck.2) <> None /\
    exists err, (recoverInstallTransaction E "plan" (later "plan" Es stuck.2)).1 = Err err.
Proof.
  split; [eexists; vm_compute; reflexivity|]. split.
  { intros e [->|[->|[]%elem_of_nil]%elem_of_cons]%elem_of_cons; vm_compute; reflexivity. }
  destruct (iw_journal stuck.2) as [T|] eqn:ET; [|vm_compute in ET; discriminate ET].
  assert (tx_State T = installStatePrepared /\ exists l e, tx_Entries T = l ++ [e] /\ iw_fs stuck.2 !! e_Pin e = None) as (Hs & l & e & He & Hp).
  { vm_compute in ET. injection ET as <-. split; [reflexivity|]. eexists [_], _. split; [reflexivity|]. vm_compute. reflexivity. }
  intros Es E. destruct (unpinned_later "plan" Es stuck.2 T l e ET Hs He Hp) as [Hj Hf]. split; [by rewrite Hj|].
  destruct (unpinned_recovery_fails E "plan" (later "plan" Es stuck.2) T l e Hj Hs He) as (err & Herr & _); [by rewrite Hf|]. by exists err.
Qed.
End Installations.
