(* ===== verification/History.v ===== *)
(** The history of backups (application/backup/scheduler.go): the durable state
    of every plan, the journal of the candidate that is being published and the
    checkout of a conflict.

    The state of [History] is its file; every method is one critical section. *)

From stdpp Require Import base decidable gmap strings list.
From Stdlib Require Import Ascii ZArith.
From S2P Require Import Prelude GoText CidLib Durable NodeApi BucketSync.

Definition historyVersion : N := 2.
(** [encryptedfs.ProfileID]. *)
Definition ProfileID : string := "malt.encrypted-unixfs/v1".

(** The zero [PushOutcome] is [None]. *)
Record Result := mkResult {
  re_PlanID : string; re_PlanName : string; re_Branch : string; re_Source : string; re_Profile : string;
  re_KeyEpoch : N; re_EncryptedBytes : Z; re_SourceFingerprint : string; re_BindingFingerprints : gmap string string;
  re_ManifestFingerprint : string; re_ChangedBindings : list string; re_Skipped : bool; re_Base : Head;
  re_CandidateRoot : string; re_Push : option (ApplyResult * Workspace); re_CompletedAt : time;
  re_RetriedPending : bool; re_ReconciledPending : bool
}.

Record PlanState := mkPlanState {
  ps_Name : string; ps_LastCheckedAt : time; ps_LastAttemptAt : time; ps_LastSuccessAt : time; ps_LastError : string;
  ps_FailureCount : Z; ps_AttemptActive : bool; ps_LastResult : option Result
}.
Definition zeroPlanState : PlanState := mkPlanState EmptyString 0 0 0 EmptyString 0 false None.

Record PendingBackup := mkPending {
  pb_BucketID : string; pb_PlanID : string; pb_Message : string; pb_StashID : string; pb_PushID : string;
  pb_CandidateBase : string; pb_CandidateRecorded : bool; pb_Result : Result; pb_CreatedAt : time
}.

Record BindingConflict := mkBindingConflict { bc_BindingID : string; bc_BindingName : string; bc_Paths : list string }.

Record ConflictCheckout := mkCheckout {
  cc_PlanID : string; cc_StashID : string; cc_Branch : string; cc_BaseRoot : string; cc_LocalRoot : string;
  cc_RemoteRoot : string; cc_Path : string; cc_Bindings : list BindingConflict; cc_CreatedAt : time
}.

Record historyFile := mkHistory {
  hf_Version : N; hf_Plans : gmap string PlanState; hf_Pending : option PendingBackup; hf_Conflict : option ConflictCheckout
}.
Definition emptyHistory : historyFile := mkHistory historyVersion ∅ None None.

Definition candidate_of (p : PendingBackup) : string := re_CandidateRoot (pb_Result p).

(** ** Loading *)
Definition check_pending (pending : option PendingBackup) : result unit :=
  match pending with
  | None => Ok ()
  | Some p =>
      fail_if (negb (bool_decide (is_empty (pb_StashID p) = is_empty (pb_PushID p))))
        (Errorf "pending backup journal has incomplete frozen stash identity")
  end.

Definition check_conflict (pending : option PendingBackup) (conflict : option ConflictCheckout) : result unit :=
  match conflict with
  | None => Ok ()
  | Some c =>
      fail_if (match pending with
               | None => true
               | Some p => is_empty (cc_StashID c) || negb (bool_decide (cc_StashID c = pb_StashID p)) ||
                           negb (bool_decide (cc_LocalRoot c = candidate_of p))
               end || is_empty (cc_Path c) || bool_decide (cc_Bindings c = []))
        (Errorf "backup conflict checkout does not match pending backup")
  end.

Definition decode (s : historyFile) : result historyFile :=
  _ ← fail_if (negb (bool_decide (hf_Version s = historyVersion))) (Errorf "unsupported backup history version");
  _ ← check_pending (hf_Pending s);
  _ ← check_conflict (hf_Pending s) (hf_Conflict s);
  Ok s.

(** The checkout belongs to the pending candidate. *)
Definition belongs (c : ConflictCheckout) (p : PendingBackup) : Prop :=
  cc_StashID c <> EmptyString /\ cc_StashID c = pb_StashID p /\ cc_LocalRoot c = candidate_of p /\
  cc_Path c <> EmptyString /\ cc_Bindings c <> [].

Record wf (s : historyFile) : Prop := {
  wf_version : hf_Version s = historyVersion;
  wf_identity : forall p, hf_Pending s = Some p -> pb_StashID p = EmptyString <-> pb_PushID p = EmptyString;
  wf_conflict : forall c, hf_Conflict s = Some c -> exists p, hf_Pending s = Some p /\ belongs c p
}.

#[global] Instance history_store : DurableStore historyFile := {| ds_empty := emptyHistory; ds_decode := decode; ds_wf := wf |}.

(** [History.write]. *)
Definition history_writer : list syscall :=
  [Mkdir; Marshal; CreateTemp; SecureTemp; WriteTemp; SyncTemp; CloseTemp; Rename; SyncParent].

Definition history_file := file historyFile.

Definition mutate (w : io) (update : historyFile -> result historyFile) (f : history_file) : result unit * history_file :=
  with_state history_writer w true (fun s => s' ← update s; Ok ((), s')) f.
Definition reading {A} (w : io) (read : historyFile -> A) (f : history_file) : result A * history_file :=
  with_state history_writer w false (fun s => Ok (read s, s)) f.
Definition guarded (args : result unit) (f : history_file) (body : result unit * history_file) : result unit * history_file :=
  match args with Err e => (Err e, f) | Ok _ => body end.

(** ** Reads *)
Definition Snapshot (w : io) (f : history_file) : result (gmap string PlanState) * history_file := reading w hf_Plans f.
Definition NewHistory (w : io) (path : string) (f : history_file) : result unit * history_file :=
  guarded (fail_if (is_empty path) (Errorf "backup history path is empty")) f (reading w (fun _ => ()) f).
Definition Pending (w : io) (f : history_file) : result (option PendingBackup) * history_file := reading w hf_Pending f.
Definition Conflict (w : io) (f : history_file) : result (option ConflictCheckout) * history_file := reading w hf_Conflict f.

(** ** The publication journal *)
Definition set_Pending (p : option PendingBackup) (s : historyFile) : historyFile :=
  mkHistory (hf_Version s) (hf_Plans s) p (hf_Conflict s).
Definition set_Conflict (c : option ConflictCheckout) (s : historyFile) : historyFile :=
  mkHistory (hf_Version s) (hf_Plans s) (hf_Pending s) c.
Definition set_Plan (name : string) (st : PlanState) (s : historyFile) : historyFile :=
  mkHistory (hf_Version s) (<[name := st]> (hf_Plans s)) (hf_Pending s) (hf_Conflict s).

Definition blank (s : string) : bool := is_empty (TrimSpace s).

Definition setPendingLocked (pending : PendingBackup) (s : historyFile) : result historyFile :=
  _ ← fail_if (bool_decide (is_Some (hf_Pending s))) (Errorf "pending backup candidate must be retried before recording another candidate");
  Ok (set_Pending (Some pending) s).

Definition SetPending (w : io) (pending : PendingBackup) (f : history_file) : result unit * history_file :=
  guarded
    (_ ← fail_if (blank (pb_BucketID pending) || blank (pb_PlanID pending) ||
                  negb (bool_decide (pb_PlanID pending = re_PlanID (pb_Result pending))) ||
                  blank (re_Source (pb_Result pending)) || blank (candidate_of pending) || time_IsZero (pb_CreatedAt pending))
           (Errorf "pending backup journal is incomplete");
     fail_if (bool_decide (re_Profile (pb_Result pending) = ProfileID) && negb (pb_CandidateRecorded pending))
       (Errorf "encrypted filesystem pending backup lacks a recorded local candidate")) f
    (mutate w (setPendingLocked pending) f).

Definition clearPendingLocked (candidate : string) (s : historyFile) : result historyFile :=
  match hf_Pending s with
  | None => Ok s
  | Some p =>
      _ ← fail_if (negb (bool_decide (candidate_of p = candidate))) (Errorf "pending backup candidate changed");
      Ok (set_Pending None s)
  end.

Definition ClearPending (w : io) (candidate : string) (f : history_file) : result unit * history_file :=
  let candidate := TrimSpace candidate in
  guarded (fail_if (is_empty candidate) (Errorf "pending backup candidate is empty")) f
    (mutate w (clearPendingLocked candidate) f).

(** The pending backup of a candidate. *)
Definition pending_for (candidate : string) (s : historyFile) : result PendingBackup :=
  match hf_Pending s with
  | Some p => if bool_decide (candidate_of p = candidate) then Ok p else Err (Errorf "pending backup candidate is unavailable")
  | None => Err (Errorf "pending backup candidate is unavailable")
  end.

Definition succeeded (planID : string) (res : Result) (st : PlanState) : PlanState :=
  mkPlanState planID (ps_LastCheckedAt st) (ps_LastAttemptAt st) (re_CompletedAt res) EmptyString 0 false (Some res).

Definition completePendingLocked (candidate planID : string) (res : Result) (s : historyFile) : result historyFile :=
  p ← pending_for candidate s;
  _ ← fail_if (negb (bool_decide (pb_PlanID p = planID))) (Errorf "pending backup candidate belongs to another backup plan");
  let state := default zeroPlanState (hf_Plans s !! planID) in
  Ok (set_Plan planID (succeeded planID res state) (set_Pending None s)).

Definition CompletePending (w : io) (candidate planID : string) (res : Result) (f : history_file) : result unit * history_file :=
  let candidate := TrimSpace candidate in
  let planID := TrimSpace planID in
  guarded (fail_if (is_empty candidate || is_empty planID || negb (bool_decide (re_PlanID res = planID)) ||
                    negb (bool_decide (re_CandidateRoot res = candidate)))
             (Errorf "completed backup candidate does not match its result")) f
    (mutate w (completePendingLocked candidate planID res) f).

Definition set_identity (stashID pushID : string) (p : PendingBackup) : PendingBackup :=
  mkPending (pb_BucketID p) (pb_PlanID p) (pb_Message p) stashID pushID (pb_CandidateBase p) (pb_CandidateRecorded p)
    (pb_Result p) (pb_CreatedAt p).
Definition set_Result (r : Result) (p : PendingBackup) : PendingBackup :=
  mkPending (pb_BucketID p) (pb_PlanID p) (pb_Message p) (pb_StashID p) (pb_PushID p) (pb_CandidateBase p)
    (pb_CandidateRecorded p) r (pb_CreatedAt p).

Definition markStagedLocked (candidate : string) (stash : Stash) (s : historyFile) : result historyFile :=
  p ← pending_for candidate s;
  _ ← fail_if (negb (bool_decide (st_Base stash = re_Base (pb_Result p))) || negb (bool_decide (st_Message stash = pb_Message p)) ||
               negb (is_empty (st_ChangeSetCID stash)) || (negb (is_pending stash) && negb (is_branched stash)))
        (Errorf "pending backup candidate does not match its staged request");
  _ ← fail_if (negb (is_empty (pb_StashID p)) &&
               (negb (bool_decide (pb_StashID p = st_ID stash)) || negb (bool_decide (pb_PushID p = st_PushID stash))))
        (Errorf "pending backup candidate changed its frozen stash identity");
  Ok (set_Pending (Some (set_identity (st_ID stash) (st_PushID stash) p)) s).

Definition MarkPendingStaged (w : io) (candidate : string) (stash : Stash) (f : history_file) : result unit * history_file :=
  let candidate := TrimSpace candidate in
  guarded (fail_if (is_empty candidate || is_empty (st_ID stash) || is_empty (st_PushID stash) ||
                    negb (bool_decide (st_CandidateRoot stash = candidate)))
             (Errorf "staged backup journal metadata is incomplete")) f
    (mutate w (markStagedLocked candidate stash) f).

Definition push_status (r : Result) : string := match re_Push r with Some (a, _) => res_Status a | None => EmptyString end.
Definition push_branch (r : Result) : option ObservedHead := match re_Push r with Some (a, _) => res_Branch a | None => None end.

Definition markConflictLocked (candidate : string) (res : Result) (s : historyFile) : result historyFile :=
  p ← pending_for candidate s;
  Ok (set_Pending (Some (set_Result res p)) s).

Definition MarkPendingConflict (w : io) (candidate : string) (res : Result) (f : history_file) : result unit * history_file :=
  let candidate := TrimSpace candidate in
  guarded (fail_if (is_empty candidate || negb (bool_decide (re_CandidateRoot res = candidate)) ||
                    negb (bool_decide (push_status res = status_branched)) ||
                    match push_branch res with None => true | Some b => blank (oh_Name b) end)
             (Errorf "branched backup journal metadata is incomplete")) f
    (mutate w (markConflictLocked candidate res) f).

(** ** The checkout of a conflict *)
Definition setConflictLocked (conflict : ConflictCheckout) (s : historyFile) : result historyFile :=
  _ ← fail_if (match hf_Pending s with
               | None => true
               | Some p => negb (bool_decide (pb_StashID p = cc_StashID conflict)) || negb (bool_decide (candidate_of p = cc_LocalRoot conflict))
               end) (Errorf "backup conflict checkout does not match the pending candidate");
  Ok (set_Conflict (Some conflict) s).

Definition SetConflictCheckout (w : io) (conflict : ConflictCheckout) (f : history_file) : result unit * history_file :=
  guarded (fail_if (blank (cc_PlanID conflict) || blank (cc_StashID conflict) || blank (cc_LocalRoot conflict) ||
                    blank (cc_RemoteRoot conflict) || blank (cc_Path conflict) || time_IsZero (cc_CreatedAt conflict) ||
                    bool_decide (cc_Bindings conflict = []))
             (Errorf "backup conflict checkout is incomplete")) f
    (mutate w (setConflictLocked conflict) f).

Definition clearConflictLocked (stashID : string) (s : historyFile) : result historyFile :=
  _ ← fail_if (match hf_Conflict s with Some c => negb (bool_decide (cc_StashID c = stashID)) | None => false end)
        (Errorf "backup conflict checkout belongs to another stash");
  Ok (set_Conflict None s).

Definition ClearConflictCheckout (w : io) (stashID : string) (f : history_file) : result unit * history_file :=
  let stashID := TrimSpace stashID in
  guarded (fail_if (is_empty stashID) (Errorf "backup conflict stash ID is empty")) f
    (mutate w (clearConflictLocked stashID) f).

(** ** The state of a plan *)
Definition named (name : string) (st : PlanState) : PlanState :=
  mkPlanState name (ps_LastCheckedAt st) (ps_LastAttemptAt st) (ps_LastSuccessAt st) (ps_LastError st) (ps_FailureCount st)
    (ps_AttemptActive st) (ps_LastResult st).

Definition update (w : io) (name : string) (change : PlanState -> PlanState) (f : history_file) : result unit * history_file :=
  mutate w (fun s => Ok (set_Plan name (change (named name (default zeroPlanState (hf_Plans s !! name)))) s)) f.

Definition RecordResult (w : io) (name : string) (res : Result) (f : history_file) : result unit * history_file :=
  let name := TrimSpace name in
  guarded (fail_if (is_empty name || time_IsZero (re_CompletedAt res)) (Errorf "backup result name and completion time are required")) f
    (update w name (fun st => mkPlanState (ps_Name st) (re_CompletedAt res) (ps_LastAttemptAt st) (re_CompletedAt res)
                                EmptyString 0 false (Some res)) f).

Definition RecordPlanAttempt (w : io) (name : string) (at_ : time) (f : history_file) : result unit * history_file :=
  let name := TrimSpace name in
  guarded (fail_if (is_empty name) (Errorf "backup plan attempt name is empty")) f
    (update w name (fun st => mkPlanState (ps_Name st) at_ at_ (ps_LastSuccessAt st) (ps_LastError st) (ps_FailureCount st)
                                true (ps_LastResult st)) f).

(** [runErr] is the text of the error, if there is one. *)
Definition RecordPlanFailure (w : io) (name : string) (at_ : time) (runErr : option string) (f : history_file)
    : result unit * history_file :=
  let name := TrimSpace name in
  guarded (fail_if (is_empty name || bool_decide (runErr = None)) (Errorf "backup plan failure name and error are required")) f
    (update w name (fun st => mkPlanState (ps_Name st) at_ at_ (ps_LastSuccessAt st) (default EmptyString runErr)
                                (ps_FailureCount st + 1) false (ps_LastResult st)) f).

(** * The history of backups: its loader accepts exactly the well-formed files,
    and what each method does to the pending backup and the checkout. *)

Lemma is_empty_true s : is_empty s = true <-> s = EmptyString.
Proof. unfold is_empty. apply bool_decide_eq_true. Qed.
Lemma is_empty_false s : is_empty s = false <-> s <> EmptyString.
Proof. unfold is_empty. apply bool_decide_eq_false. Qed.
Lemma blank_false s : blank s = false -> s <> EmptyString.
Proof. unfold blank. rewrite is_empty_false. intros H ->. by apply H. Qed.

Lemma check_pending_iff pending :
  check_pending pending = Ok () <-> forall p, pending = Some p -> pb_StashID p = EmptyString <-> pb_PushID p = EmptyString.
Proof.
  unfold check_pending. destruct pending as [p|]; [|done]. rewrite fail_if_Ok, negb_false_iff, bool_decide_eq_true. split.
  - intros H q [= <-]. by rewrite <- !is_empty_true, H.
  - intros H. specialize (H p eq_refl). by apply bool_decide_ext.
Qed.

Lemma check_conflict_iff pending conflict :
  check_conflict pending conflict = Ok () <-> forall c, conflict = Some c -> exists p, pending = Some p /\ belongs c p.
Proof.
  unfold check_conflict, belongs. destruct conflict as [c|]; [|done]. rewrite fail_if_Ok. split.
  - intros H d [= <-]. destruct pending as [p|]; [|done]. exists p. split; [done|]. simplify_guards.
    rewrite !is_empty_false in *. naive_solver.
  - intros H. destruct (H c eq_refl) as (p & -> & H1 & H2 & H3 & H4 & H5). rewrite !orb_false_iff, !negb_false_iff, !is_empty_false, !bool_decide_eq_true, bool_decide_eq_false.
    naive_solver.
Qed.

Lemma history_decode_iff s s' : decode s = Ok s' <-> s' = s /\ wf s.
Proof.
  unfold decode. split.
  - intros H. simplify_result. simplify_guards. split; [done|]. split; [done|apply check_pending_iff|apply check_conflict_iff];
      match goal with |- ?x = Ok () => by destruct x as [[]|] end.
  - intros [-> [Hv Hi Hc]]. rewrite bool_decide_eq_true_2 by done. cbn. rewrite (proj2 (check_pending_iff _) Hi). cbn.
    by rewrite (proj2 (check_conflict_iff _ _) Hc).
Qed.

#[global] Instance history_laws : DurableLaws historyFile.
Proof.
  split.
  - by split.
  - intros s s' H. by apply history_decode_iff in H as [-> ?].
  - intros s H. by apply history_decode_iff.
Qed.

Lemma history_ordered : ordered NoTemp history_writer = true.
Proof. done. Qed.

(** ** Methods *)
Lemma mutate_inv w up f r f' : mutate w up f = (r, f') ->
  (f' = f /\ is_ok r = false) \/ exists s s', view f = Some s /\ up s = Ok s' /\ f' = Some (Decodes s').
Proof.
  intros H. apply (with_state_cases _ history_ordered) in H as [H|(s & a & s' & Hv & Hop & -> & _)]; [by left|right].
  simplify_result. eauto.
Qed.

Lemma reading_inv {A} w (read : historyFile -> A) f r f' : reading w read f = (r, f') ->
  f' = f /\ forall a, r = Ok a -> exists s, view f = Some s /\ a = read s.
Proof.
  intros H. apply (with_state_inv _ history_ordered) in H as [[->|(s & a & s' & Hw & _)] Hr]; [|done]. split; [done|].
  intros a Ha. destruct (Hr a Ha) as (s & s' & Hv & Hop & _). simplify_result. eauto.
Qed.

Lemma mutate_loads w up f : (forall s s', wf s -> up s = Ok s' -> wf s') -> loads f -> loads (mutate w up f).2.
Proof.
  intros Hup Hf. destruct (mutate w up f) as [r f'] eqn:E. cbn. apply mutate_inv in E as [[-> _]|(s & s' & Hv & Hs & ->)]; [done|].
  apply loads_Decodes. eapply Hup; [|exact Hs]. exact (view_wf _ _ Hv).
Qed.

Lemma guarded_inv args f body r f' : guarded args f body = (r, f') -> (f' = f /\ is_ok r = false) \/ (args = Ok () /\ body = (r, f')).
Proof. unfold guarded. destruct args as [[]|e]; intros H; [by right|]. left. by simplify_eq. Qed.

Lemma pending_for_iff candidate s p : pending_for candidate s = Ok p <-> hf_Pending s = Some p /\ candidate_of p = candidate.
Proof.
  unfold pending_for. destruct (hf_Pending s) as [q|]; [|split; [done|by intros [? _]]]. case_bool_decide; split; intros H1; simplify_eq; naive_solver.
Qed.

Lemma wf_same_pending s s' : wf s -> hf_Version s' = hf_Version s -> hf_Pending s' = hf_Pending s -> hf_Conflict s' = hf_Conflict s -> wf s'.
Proof. intros [H1 H2 H3] Ev Ep Ec. split; [congruence|by rewrite Ep|by rewrite Ep, Ec]. Qed.

Lemma setPending_wf pending s s' : wf s -> (pb_StashID pending = EmptyString <-> pb_PushID pending = EmptyString) ->
  setPendingLocked pending s = Ok s' -> wf s' /\ hf_Pending s = None /\ hf_Conflict s' = None /\ hf_Pending s' = Some pending.
Proof.
  intros [H1 H2 H3] Hid H. unfold setPendingLocked in H. simplify_result. simplify_guards.
  assert (hf_Pending s = None) as Hn by (destruct (hf_Pending s); [exfalso; eauto|done]).
  assert (hf_Conflict s = None) as Hc. { destruct (hf_Conflict s) as [c|] eqn:E; [|done]. destruct (H3 c eq_refl) as (p & Hp & _). congruence. }
  split_and!; [|done|done|done]. split; cbn; [done|by intros p [= <-]|rewrite Hc; done].
Qed.

Lemma clearPending_wf candidate s s' : wf s -> hf_Conflict s = None -> clearPendingLocked candidate s = Ok s' -> wf s' /\ hf_Pending s' = None.
Proof.
  intros Hw Hc H. unfold clearPendingLocked in H. destruct (hf_Pending s) eqn:E; simplify_result; [|done]. split; [|done].
  destruct Hw. split; cbn; [done|done|by rewrite Hc].
Qed.

Lemma completePending_wf candidate planID res s s' : wf s -> hf_Conflict s = None -> completePendingLocked candidate planID res s = Ok s' ->
  wf s' /\ hf_Pending s' = None /\ exists p, hf_Pending s = Some p /\ candidate_of p = candidate /\ pb_PlanID p = planID.
Proof.
  intros Hw Hc H. unfold completePendingLocked in H. simplify_result. simplify_guards.
  match goal with H : pending_for _ _ = Ok _ |- _ => apply pending_for_iff in H as [Hp Hcand] end.
  split_and!; [|done|eauto]. destruct Hw. split; cbn; [done|done|by rewrite Hc].
Qed.

Lemma markStaged_wf candidate stash s s' : wf s -> st_ID stash <> EmptyString -> st_PushID stash <> EmptyString -> markStagedLocked candidate stash s = Ok s' ->
  wf s' /\ hf_Conflict s' = hf_Conflict s /\ exists p, hf_Pending s = Some p /\ candidate_of p = candidate /\ st_Base stash = re_Base (pb_Result p) /\
    st_Message stash = pb_Message p /\ hf_Pending s' = Some (set_identity (st_ID stash) (st_PushID stash) p) /\
    (pb_StashID p <> EmptyString -> pb_StashID p = st_ID stash /\ pb_PushID p = st_PushID stash).
Proof.
  intros Hw Hid Hpush H. unfold markStagedLocked in H. simplify_result.
  match goal with H : pending_for _ _ = Ok _ |- _ => apply pending_for_iff in H as [Hp Hcand] end.
  match goal with H : _ && _ = false |- _ => rename H into Hsame end. simplify_guards.
  assert (forall p, hf_Pending s = Some p -> pb_StashID p <> EmptyString -> pb_StashID p = st_ID stash /\ pb_PushID p = st_PushID stash) as Hold.
  { intros p Hp' Hne. rewrite Hp in Hp'. injection Hp' as <-. apply andb_false_iff in Hsame as [Hx|Hx].
    - apply negb_false_iff, is_empty_true in Hx. done.
    - apply orb_false_iff in Hx as [E1%negb_false_iff%bool_decide_eq_true E2%negb_false_iff%bool_decide_eq_true]. done. }
  split_and!; [|done|eexists; split_and!; [exact Hp|done|done|done|done|by apply Hold]].
  destruct Hw as [W1 W2 W3]. split; cbn; [done| |].
  - intros q [= <-]. cbn. done.
  - intros c Hc. destruct (W3 c Hc) as (p & Hp' & Hb). eexists. split; [done|]. rewrite Hp in Hp'. injection Hp' as <-.
    destruct Hb as (Hb1 & Hb2 & Hb3 & Hb4). destruct (Hold _ Hp) as [E1 E2]; [by rewrite <- Hb2|]. unfold belongs. cbn. by rewrite <- E1.
Qed.

Lemma markConflict_wf candidate res s s' : wf s -> re_CandidateRoot res = candidate -> markConflictLocked candidate res s = Ok s' ->
  wf s' /\ hf_Conflict s' = hf_Conflict s /\ exists p, hf_Pending s = Some p /\ candidate_of p = candidate /\ hf_Pending s' = Some (set_Result res p).
Proof.
  intros Hw Hr H. unfold markConflictLocked in H. simplify_result.
  match goal with H : pending_for _ _ = Ok _ |- _ => apply pending_for_iff in H as [Hp Hcand] end.
  split_and!; [|done|eauto]. destruct Hw as [H1 H2 H3]. split; cbn; [done| |].
  - intros q [= <-]. cbn. by apply H2.
  - intros c Hc. destruct (H3 c Hc) as (p & Hp' & Hb1 & Hb2 & Hb3 & Hb4 & Hb5). eexists. split; [done|]. rewrite Hp in Hp'. injection Hp' as <-.
    unfold belongs, candidate_of in *. cbn. split_and!; [done|done|congruence|done|done].
Qed.

Lemma setConflict_wf conflict s s' : wf s -> cc_StashID conflict <> EmptyString -> cc_Path conflict <> EmptyString -> cc_Bindings conflict <> [] ->
  setConflictLocked conflict s = Ok s' -> wf s' /\ hf_Pending s' = hf_Pending s /\ hf_Conflict s' = Some conflict.
Proof.
  intros Hw Hid Hpath Hb H. unfold setConflictLocked in H. simplify_result. split_and!; [|done|done]. destruct Hw as [H1 H2 H3]. split; cbn; [done|done|].
  intros c [= <-]. destruct (hf_Pending s) as [p|]; [|simplify_guards; done]. simplify_guards. exists p. split; [done|]. unfold belongs. naive_solver.
Qed.

Lemma clearConflict_wf stashID s s' : wf s -> clearConflictLocked stashID s = Ok s' -> wf s' /\ hf_Pending s' = hf_Pending s /\ hf_Conflict s' = None.
Proof. intros [H1 H2 H3] H. unfold clearConflictLocked in H. simplify_result. split_and!; [|done|done]. by split. Qed.
