(* ===== verification/Plans.v ===== *)
(** Backup plans (application/backup/plans.go, path_helpers.go): the durable
    store of plans and of the local directories that each binds, with the rule
    that bound directories never overlap.

    What the host answers about paths (the working directory, symbolic links)
    is an argument. *)

From stdpp Require Import base decidable gmap strings list.
From Stdlib Require Import Ascii ZArith.
From S2P Require Import Prelude GoText Branch Durable NodeApi Registry PlainTree Install.

Definition planStoreVersion : N := 1.

Record Binding := mkBinding { b_ID : string; b_Name : string; b_Source : string; b_PathName : string; b_CreatedAt : time }.

Record Plan := mkPlan {
  p_ID : string; p_Name : string; p_BucketID : string; p_BucketName : string; p_Branch : string; p_Bindings : list Binding;
  p_Every : Z; p_Enabled : bool; p_Message : string; p_CreatedAt : time; p_UpdatedAt : time
}.

Record planFile := mkPlans { pf_Version : N; pf_Plans : gmap string Plan }.
Definition emptyPlans : planFile := mkPlans planStoreVersion ∅.

(** ** Paths *)

(** [filepath.EvalSymlinks] and the working directory. *)
Record host := mkHost { h_eval : string -> result string; h_cwd : string }.

Definition filepath_Abs (h : host) (value : string) : string :=
  if filepath_IsAbs value then path_Clean value else filepath_Join (h_cwd h) value.

(** The names of a clean absolute path, and back. *)
Definition segments (p : string) : list string := List.filter (fun w => negb (is_empty w)) (Split p slash).
Definition rooted_path (names : list string) : string := "/" +:+ join_slash names.

(** [filepath.Rel] of clean absolute paths. *)
Fixpoint strip_common (base target : list string) : list string * list string :=
  match base, target with
  | b :: base', t :: target' => if bool_decide (b = t) then strip_common base' target' else (base, target)
  | _, _ => (base, target)
  end.
Definition filepath_Rel (base target : string) : string :=
  match strip_common (segments base) (segments target) with
  | ([], []) => "."
  | (b, t) => join_slash (((fun _ => "..") <$> b) ++ t)
  end.

Definition pathWithin (h : host) (root target : string) : result bool :=
  _ ← fail_if (is_empty root || is_empty target) (ErrorsNew "filesystem containment paths must not be empty");
  let relative := filepath_Rel (filepath_Abs h root) (filepath_Abs h target) in
  Ok (bool_decide (relative = ".") || (negb (bool_decide (relative = "..")) && negb (HasPrefix relative "../"))).

(** The loop of [resolveExistingAncestors]: [names] is the current path, last
    name first, and [suffix] what was split off. *)
Fixpoint resolve_up (h : host) (names suffix : list string) : result string :=
  match h_eval h (rooted_path (rev names)) with
  | Ok resolved => Ok (foldl filepath_Join resolved suffix)
  | Err err =>
      if errors_Is err ErrNotExist then
        match names with
        | [] => Err err
        | name :: parent => resolve_up h parent (name :: suffix)
        end
      else Err err
  end.

Definition resolveExistingAncestors (h : host) (value : string) : result string :=
  _ ← fail_if (is_empty value) (ErrorsNew "filesystem path must not be empty");
  resolve_up h (rev (segments (filepath_Abs h value))) [].

Definition resolvedPathWithin (h : host) (root target : string) : result bool :=
  resolvedRoot ← resolveExistingAncestors h root;
  resolvedTarget ← resolveExistingAncestors h target;
  pathWithin h resolvedRoot resolvedTarget.

Definition bindingSourcesOverlap (h : host) (left right : string) : result bool :=
  if bool_decide (left = right) then Ok true else
  leftInsideRight ← resolvedPathWithin h right left;
  rightInsideLeft ← resolvedPathWithin h left right;
  Ok (leftInsideRight || rightInsideLeft).

(** ** Validation *)
Definition ContainsAny (s chars : string) : bool := existsb (fun a => bool_decide (a ∈ bytes chars)) (bytes s).

Definition separators : string := byte_str [47; 92].
Definition blanks : string := byte_str [32; 9; 13; 10; 0].
Definition line_breaks : string := byte_str [13; 10; 0].
Definition segment_breaks : string := byte_str [47; 92; 0].

Definition validateOpaqueID (value kind : string) : result unit :=
  fail_if (negb (ValidString value) || negb (bool_decide (TrimSpace value = value)) || is_empty value || (128 <? String.length value) ||
           ContainsAny value separators || ContainsAny value blanks) (Errorf ("invalid backup ID" +:+ kind)).

Definition validateDisplayName (value kind : string) : result unit :=
  _ ← fail_if (negb (ValidString value)) (Errorf ("invalid backup name" +:+ kind));
  let value := TrimSpace value in
  fail_if (is_empty value || (128 <? String.length value) || ContainsAny value line_breaks) (Errorf ("invalid backup name" +:+ kind)).

Definition validatePathName (value : string) : result unit :=
  fail_if (negb (ValidString value) || is_empty value || (128 <? String.length value) || bool_decide (value = ".") ||
           bool_decide (value = "..") || HasPrefix value "@" || ContainsAny value segment_breaks)
    (Errorf "backup path name must be one portable path segment").

Definition normalizePlanBranch (raw : string) : result string := NormalizeSelector raw.

(** The maps of names seen so far. *)
Record seen := mkSeen { seenNames : gset string; seenSources : gset string; seenPathNames : gset string }.

Definition check_binding (acc : seen) (b : Binding) : result seen :=
  _ ← fail_if (is_empty (b_ID b) || is_empty (b_Name b) || is_empty (b_Source b) || is_empty (b_PathName b) || time_IsZero (b_CreatedAt b))
        (Errorf "binding is incomplete");
  _ ← validateOpaqueID (b_ID b) "binding";
  _ ← fail_if (bool_decide (b_Name b ∈ seenNames acc)) (Errorf "duplicate binding name");
  _ ← fail_if (bool_decide (b_Source b ∈ seenSources acc)) (Errorf "duplicate binding source");
  _ ← fail_if (bool_decide (b_PathName b ∈ seenPathNames acc)) (Errorf "duplicate backup path name");
  Ok (mkSeen ({[b_Name b]} ∪ seenNames acc) ({[b_Source b]} ∪ seenSources acc) ({[b_PathName b]} ∪ seenPathNames acc)).

Section Store.
Context (h : host).

(** One pair of the nested loops of [validatePlan]. *)
Definition check_pair (left right : Binding) : result unit :=
  leftInsideRight ← resolvedPathWithin h (b_Source right) (b_Source left);
  rightInsideLeft ← resolvedPathWithin h (b_Source left) (b_Source right);
  fail_if (leftInsideRight || rightInsideLeft) (Errorf "binding sources overlap").

Fixpoint check_pairs (bindings : list Binding) : result unit :=
  match bindings with
  | [] => Ok ()
  | b :: rest => _ ← foldM (fun _ other => check_pair b other) () rest; check_pairs rest
  end.

Definition validatePlan (plan : Plan) : result unit :=
  _ ← fail_if (is_empty (p_ID plan) || is_empty (p_BucketID plan) || is_empty (p_Name plan) || is_empty (p_Branch plan) ||
               time_IsZero (p_CreatedAt plan)) (Errorf "record is incomplete");
  _ ← validateOpaqueID (p_ID plan) "plan";
  _ ← normalizePlanBranch (p_Branch plan);
  _ ← foldM check_binding (mkSeen ∅ ∅ ∅) (p_Bindings plan);
  check_pairs (p_Bindings plan).

(** No overlap between two bindings of different plans. *)
Definition check_apart (left right : Binding) : result unit :=
  overlap ← bindingSourcesOverlap h (b_Source left) (b_Source right);
  fail_if overlap (Errorf "overlapping binding sources").
Definition check_all_apart (lefts rights : list Binding) : result unit :=
  foldM (fun _ left => foldM (fun _ right => check_apart left right) () rights) () lefts.

(** ** Loading *)
Definition target_key (plan : Plan) : string := p_BucketID plan +:+ nul +:+ p_Branch plan.

Definition check_record (item : string * Plan) : result unit :=
  _ ← fail_if (negb (bool_decide (item.1 = p_ID item.2))) (Errorf "backup plan key does not match record");
  wrap_err "backup plan" (validatePlan item.2).
Definition check_target (targets : gmap string string) (plan : Plan) : result (gmap string string) :=
  _ ← fail_if (match targets !! target_key plan with Some existing => negb (is_empty existing) | None => false end)
        (Errorf "backup plans target the same Bucket branch");
  Ok (<[target_key plan := p_ID plan]> targets).
Fixpoint check_plans (plans : list Plan) : result unit :=
  match plans with
  | [] => Ok ()
  | plan :: rest =>
      _ ← foldM (fun _ other => check_all_apart (p_Bindings plan) (p_Bindings other)) () rest;
      check_plans rest
  end.

Definition decode (s : planFile) : result planFile :=
  _ ← fail_if (negb (bool_decide (pf_Version s = planStoreVersion))) (Errorf "unsupported backup plan version");
  _ ← foldM (fun _ item => check_record item) () (map_to_list (pf_Plans s));
  _ ← foldM check_target ∅ (snd <$> map_to_list (pf_Plans s));
  _ ← check_plans (snd <$> map_to_list (pf_Plans s));
  Ok s.

(** ** Operations *)
Definition clonePlan (plan : Plan) : Plan := plan.

Definition plan_before (a b : Plan) : bool :=
  if negb (bool_decide (p_BucketName a = p_BucketName b)) then String.leb (p_BucketName a) (p_BucketName b)
  else if negb (bool_decide (p_Branch a = p_Branch b)) then String.leb (p_Branch a) (p_Branch b)
  else String.leb (p_Name a) (p_Name b).
Fixpoint insert_plan (p : Plan) (l : list Plan) : list Plan :=
  match l with
  | [] => [p]
  | q :: l' => if plan_before p q then p :: l else q :: insert_plan p l'
  end.
Definition listLocked (s : planFile) : list Plan := foldr insert_plan [] (snd <$> map_to_list (pf_Plans s)).

(** The plan with an identity or with a name ([selectPlan]). *)
Definition with_name (selector : string) (plans : gmap string Plan) : list (string * Plan) :=
  filter (fun item => p_Name item.2 = selector) (map_to_list plans).
Definition selectPlan (plans : gmap string Plan) (selector : string) : result (string * Plan) :=
  let selector := TrimSpace selector in
  match plans !! selector with
  | Some plan => Ok (selector, plan)
  | None =>
      match with_name selector plans with
      | [] => Err (Errorf "backup plan was not found")
      | [item] => Ok item
      | _ => Err (Errorf "backup plan name is ambiguous")
      end
  end.

Definition getLocked (idOrName : string) (s : planFile) : result (option Plan) :=
  match pf_Plans s !! idOrName with
  | Some plan => Ok (Some plan)
  | None =>
      match with_name idOrName (pf_Plans s) with
      | [] => Ok None
      | [item] => Ok (Some item.2)
      | _ => Err (Errorf "backup plan name is ambiguous; use its ID")
      end
  end.

Definition on_target (bucketID branch : string) (item : string * Plan) : bool :=
  bool_decide (p_BucketID item.2 = bucketID) && bool_decide (p_Branch item.2 = branch).

Definition findTargetLocked (bucketID branch : string) (s : planFile) : result (option Plan) :=
  match List.filter (on_target bucketID branch) (map_to_list (pf_Plans s)) with
  | [] => Ok None
  | [item] => Ok (Some item.2)
  | _ => Err (Errorf "multiple backup plans target the Bucket branch")
  end.

(** [randomPlanID] of 16 random bytes. *)
Definition randomPlanID (prefix : string) (random : option string) : result string :=
  raw ← or_err random (Errorf "read random bytes"); Ok (prefix +:+ "_" +:+ EncodeToString raw).

Record BindRequest := mkBindRequest {
  rq_PlanName : string; rq_BucketID : string; rq_BucketName : string; rq_Branch : string; rq_BindingName : string;
  rq_Source : string; rq_PathName : string; rq_Merge : bool
}.

Definition put_plan (plan : Plan) (s : planFile) : planFile := mkPlans (pf_Version s) (<[p_ID plan := plan]> (pf_Plans s)).

Definition all_bindings (s : planFile) : list Binding := concat ((fun item : string * Plan => p_Bindings item.2) <$> map_to_list (pf_Plans s)).

(** A binding that does not reuse a name of the plan. *)
Definition check_names (name pathName : string) (existing : Binding) : result unit :=
  _ ← fail_if (bool_decide (b_Name existing = name)) (Errorf "backup binding name is already used in this plan");
  fail_if (bool_decide (b_PathName existing = pathName)) (Errorf "backup path name is already used in this plan").

Definition new_plan (now : time) (random : option string) (req : BindRequest) (branch : string) : result Plan :=
  id ← randomPlanID "plan" random;
  let name := if is_empty (rq_PlanName req)
              then rq_BucketName req +:+ (if bool_decide (branch = "main") then EmptyString else "/" +:+ branch)
              else rq_PlanName req in
  _ ← validateDisplayName name "plan";
  Ok (mkPlan id name (rq_BucketID req) (rq_BucketName req) branch [] 0 true EmptyString now 0).

Definition add_binding (now : time) (b : Binding) (plan : Plan) : Plan :=
  mkPlan (p_ID plan) (p_Name plan) (p_BucketID plan) (p_BucketName plan) (p_Branch plan)
    (sort_by_string b_Name (p_Bindings plan ++ [b])) (p_Every plan) (p_Enabled plan) (p_Message plan) (p_CreatedAt plan) now.

(** [random] are the bytes for a new plan and for the binding. *)
Definition bindLocked (now : time) (random : option string * option string) (req : BindRequest) (branch source : string) (s : planFile)
    : result ((Plan * Binding) * planFile) :=
  let found := List.find (on_target (rq_BucketID req) branch) (map_to_list (pf_Plans s)) in
  _ ← foldM (fun _ existing =>
         overlap ← bindingSourcesOverlap h (b_Source existing) source;
         fail_if overlap (Errorf "binding sources must be globally disjoint")) () (all_bindings s);
  _ ← fail_if (match found with Some item => negb (bool_decide (p_Bindings item.2 = [])) | None => false end && negb (rq_Merge req))
        (Errorf "Bucket branch already has bindings; choose another branch or explicitly merge");
  plan ← match found with Some item => Ok item.2 | None => new_plan now random.1 req branch end;
  _ ← foldM (fun _ existing => check_names (rq_BindingName req) (rq_PathName req) existing) () (p_Bindings plan);
  bindingID ← randomPlanID "binding" random.2;
  let binding := mkBinding bindingID (rq_BindingName req) source (rq_PathName req) now in
  let plan := add_binding now binding plan in
  Ok ((plan, binding), put_plan plan s).

Definition importLocked (plan : Plan) (s : planFile) : result (Plan * planFile) :=
  _ ← fail_if (bool_decide (is_Some (pf_Plans s !! p_ID plan))) (Errorf "backup plan already exists");
  _ ← foldM (fun _ item =>
         _ ← fail_if (on_target (p_BucketID plan) (p_Branch plan) item) (Errorf "Bucket branch already has a local plan");
         check_all_apart (p_Bindings item.2) (p_Bindings plan)) () (map_to_list (pf_Plans s));
  Ok (plan, put_plan plan s).

Definition set_schedule (every : Z) (enabled : bool) (message : string) (now : time) (plan : Plan) : Plan :=
  mkPlan (p_ID plan) (p_Name plan) (p_BucketID plan) (p_BucketName plan) (p_Branch plan) (p_Bindings plan) every enabled message
    (p_CreatedAt plan) now.

Definition scheduleLocked (selector : string) (every : Z) (enabled : bool) (message : string) (now : time) (s : planFile)
    : result (Plan * planFile) :=
  '(id, plan) ← selectPlan (pf_Plans s) selector;
  let plan := set_schedule every enabled message now plan in
  Ok (plan, mkPlans (pf_Version s) (<[id := plan]> (pf_Plans s))).
End Store.

(** ** The file *)
Definition plans_writer : list Durable.syscall :=
  [Marshal; CreateTemp; SecureTemp; WriteTemp; SyncTemp; CloseTemp; Rename; SecureTarget; SyncParent].

(** Two directories that are not inside one another. *)
Definition disjoint (h : host) (a b : Binding) : Prop :=
  b_Source a <> b_Source b /\ resolvedPathWithin h (b_Source b) (b_Source a) = Ok false /\ resolvedPathWithin h (b_Source a) (b_Source b) = Ok false.

Record binding_ok (b : Binding) : Prop := {
  bo_complete : b_ID b <> EmptyString /\ b_Name b <> EmptyString /\ b_Source b <> EmptyString /\ b_PathName b <> EmptyString;
  bo_time : b_CreatedAt b <> 0%Z;
  bo_id : validateOpaqueID (b_ID b) "binding" = Ok ()
}.

Record plan_ok (h : host) (plan : Plan) : Prop := {
  po_complete : p_ID plan <> EmptyString /\ p_BucketID plan <> EmptyString /\ p_Name plan <> EmptyString /\ p_Branch plan <> EmptyString;
  po_time : p_CreatedAt plan <> 0%Z;
  po_id : validateOpaqueID (p_ID plan) "plan" = Ok ();
  po_branch : is_ok (normalizePlanBranch (p_Branch plan)) = true;
  po_bindings : Forall binding_ok (p_Bindings plan);
  po_names : NoDup (b_Name <$> p_Bindings plan);
  po_paths : NoDup (b_PathName <$> p_Bindings plan);
  po_disjoint : ForallOrdPairs (disjoint h) (p_Bindings plan)
}.

Record wf (h : host) (s : planFile) : Prop := {
  wf_version : pf_Version s = planStoreVersion;
  wf_plans : map_Forall (fun id plan => id = p_ID plan /\ plan_ok h plan) (pf_Plans s);
  wf_targets : forall id1 id2 p1 p2, pf_Plans s !! id1 = Some p1 -> pf_Plans s !! id2 = Some p2 -> id1 <> id2 ->
    ~ (p_BucketID p1 = p_BucketID p2 /\ p_Branch p1 = p_Branch p2);
  wf_disjoint : forall id1 id2 p1 p2 b1 b2, pf_Plans s !! id1 = Some p1 -> pf_Plans s !! id2 = Some p2 -> id1 <> id2 ->
    b1 ∈ p_Bindings p1 -> b2 ∈ p_Bindings p2 -> disjoint h b1 b2
}.

Definition plans_file := file planFile.

Section Methods.
Context (h : host).

#[local] Instance plans_store : DurableStore planFile := {| ds_empty := emptyPlans; ds_decode := decode h; ds_wf := wf h |}.

Definition withFile {A} (w : io) (write : bool) (op : planFile -> result (A * planFile)) (f : plans_file) : result A * plans_file :=
  with_state plans_writer w write op f.
Definition checked {A B} (args : result A) (f : plans_file) (body : A -> result B * plans_file) : result B * plans_file :=
  match args with Err e => (Err e, f) | Ok a => body a end.

Definition List_plans (w : io) (f : plans_file) : result (list Plan) * plans_file :=
  withFile w false (fun s => Ok (listLocked s, s)) f.
Definition OpenPlanStore (w : io) (path : string) (f : plans_file) : result unit * plans_file :=
  checked (fail_if (is_empty path) (Errorf "backup plan store path is empty")) f (fun _ => withFile w false (fun s => Ok ((), s)) f).

Definition GetPlan (w : io) (idOrName : string) (f : plans_file) : result Plan * plans_file :=
  let idOrName := TrimSpace idOrName in
  checked (fail_if (is_empty idOrName) (Errorf "backup plan selector is empty")) f (fun _ =>
  let '(r, f') := withFile w false (fun s => found ← getLocked idOrName s; Ok (found, s)) f in
  (found ← r; or_err found (Errorf "backup plan was not found"), f')).

Definition FindTarget (w : io) (bucketID branch : string) (f : plans_file) : result (option Plan) * plans_file :=
  let bucketID := TrimSpace bucketID in
  checked (normalizePlanBranch branch) f (fun branch =>
  withFile w false (fun s => found ← findTargetLocked bucketID branch s; Ok (found, s)) f).

(** [stat] is whether the source is a directory. *)
Definition Bind (w : io) (now : time) (random : option string * option string) (stat : string -> result bool) (req : BindRequest) (f : plans_file)
    : result (Plan * Binding) * plans_file :=
  checked
    (let req := mkBindRequest (TrimSpace (rq_PlanName req)) (TrimSpace (rq_BucketID req)) (TrimSpace (rq_BucketName req)) (rq_Branch req)
                  (TrimSpace (rq_BindingName req)) (rq_Source req) (rq_PathName req) (rq_Merge req) in
     branch ← normalizePlanBranch (rq_Branch req);
     _ ← fail_if (is_empty (rq_BucketID req)) (Errorf "backup binding Bucket ID is empty");
     _ ← fail_if (is_empty (rq_Source req)) (Errorf "backup binding source is empty");
     let source := filepath_Abs h (rq_Source req) in
     dir ← wrap_err "stat backup binding source" (stat source);
     _ ← fail_if (negb dir) (Errorf "backup binding source must be a directory");
     let name := if is_empty (rq_BindingName req) then filepath_Base source else rq_BindingName req in
     let pathName := if is_empty (rq_PathName req) then name else rq_PathName req in
     _ ← validateDisplayName name "binding";
     _ ← validatePathName pathName;
     Ok (mkBindRequest (rq_PlanName req) (rq_BucketID req) (rq_BucketName req) branch name source pathName (rq_Merge req))) f (fun req =>
  withFile w true (bindLocked h now random req (rq_Branch req) (rq_Source req)) f).

Definition SetSchedule (w : io) (now : time) (selector : string) (every : Z) (enabled : bool) (message : string) (f : plans_file)
    : result Plan * plans_file :=
  checked (fail_if (every <=? 0)%Z (Errorf "backup schedule interval must be positive")) f (fun _ =>
  withFile w true (scheduleLocked selector every enabled (TrimSpace message) now) f).

Definition ClearSchedule (w : io) (now : time) (selector : string) (f : plans_file) : result Plan * plans_file :=
  withFile w true (scheduleLocked selector 0 false EmptyString now) f.

Definition ImportRestored (w : io) (plan : Plan) (f : plans_file) : result Plan * plans_file :=
  checked (_ ← validatePlan h plan; fail_if (bool_decide (p_Bindings plan = [])) (Errorf "restored backup plan has no bindings")) f (fun _ =>
  withFile w true (importLocked h plan) f).

Definition NewRestorePlan (now : time) (random : option string) (bucketID bucketName branch : string) : result Plan :=
  let bucketID := TrimSpace bucketID in
  let bucketName := TrimSpace bucketName in
  branch ← normalizePlanBranch branch;
  _ ← fail_if (is_empty bucketID) (Errorf "restore Bucket ID is empty");
  id ← randomPlanID "restore" random;
  Ok (mkPlan id (if is_empty bucketName then bucketID else bucketName) bucketID bucketName branch [] 0 true EmptyString now now).
End Methods.
