(* ===== verification/PlansFacts.v ===== *)
(** Backup plans: the loader accepts exactly the well-formed files. *)

From stdpp Require Import base decidable gmap strings list relations.
From Stdlib Require Import Ascii ZArith Lia Permutation.
From S2P Require Import Prelude GoText Branch Durable NodeApi Registry PlainTree Install History Plans.

(** ** Pairs of a list *)
Lemma pairs_Permutation {A} (R : A -> A -> Prop) l l' : (forall x y, R x y -> R y x) -> l ≡ₚ l' -> ForallOrdPairs R l -> ForallOrdPairs R l'.
Proof.
  intros Hsym. induction 1 as [|x l l' Hp IH|x y l|l1 l2 l3 _ IH1 _ IH2]; intros H; [done| | |by apply IH2, IH1].
  - inversion H as [|? ? Hx Hl]; subst. constructor; [|by apply IH]. by rewrite <- Hp.
  - inversion H as [|? ? Hy Hl]; subst. inversion Hl as [|? ? Hx Hl']; subst. apply Forall_cons in Hy as [Hyx Hy].
    constructor; [constructor; [by apply Hsym|done]|by constructor].
Qed.

Lemma pairs_app {A} (R : A -> A -> Prop) l x : ForallOrdPairs R l -> Forall (fun y => R y x) l -> ForallOrdPairs R (l ++ [x]).
Proof.
  induction 1 as [|y l Hy Hl IH]; intros Hx; cbn; [by repeat constructor|]. apply Forall_cons in Hx as [Hyx Hx].
  constructor; [apply Forall_app; split; [done|by constructor]|by apply IH].
Qed.

Lemma pairs_map {A B} (R : B -> B -> Prop) (f : A -> B) l : (forall x y, R x y -> R y x) -> NoDup l ->
  ForallOrdPairs R (f <$> l) <-> forall x y, x ∈ l -> y ∈ l -> x <> y -> R (f x) (f y).
Proof.
  intros Hsym. induction 1 as [|x l Hx Hl IH]; cbn.
  - split; [intros _ x y H; by apply elem_of_nil in H|constructor].
  - split.
    + intros H. inversion H as [|? ? H1 H2]; subst. rewrite Forall_fmap, Forall_forall in H1. rewrite IH in H2.
      intros a b [->|Ha]%elem_of_cons [->|Hb]%elem_of_cons Hne; [done|by apply H1|by apply Hsym, H1|by apply H2].
    + intros H. constructor.
      * apply Forall_fmap, Forall_forall. intros y Hy. apply H; [by left|by right|]. by intros ->.
      * apply IH. intros a b Ha Hb. apply H; by right.
Qed.

Lemma pairs_of_map {A} (R : A -> A -> Prop) (m : gmap string A) : (forall x y, R x y -> R y x) ->
  ForallOrdPairs R (snd <$> map_to_list m) <-> forall id1 id2 a1 a2, m !! id1 = Some a1 -> m !! id2 = Some a2 -> id1 <> id2 -> R a1 a2.
Proof.
  intros Hsym. rewrite pairs_map by (done || apply NoDup_map_to_list). split.
  - intros H id1 id2 a1 a2 H1 H2 Hne. apply (H (id1, a1) (id2, a2)); [by apply elem_of_map_to_list..|congruence].
  - intros H [id1 a1] [id2 a2] H1%elem_of_map_to_list H2%elem_of_map_to_list Hne. cbn. apply (H id1 id2); [done|done|].
    intros ->. apply Hne. congruence.
Qed.

(** ** Branches hold no NUL *)
Section NoNul.
Context (s2 : ascii -> ascii -> bool) (s3 : ascii -> ascii -> ascii -> bool).
Context (H2 : forall a b, s2 a b = true -> a <> Ascii.zero /\ b <> Ascii.zero).
Context (H3 : forall a b c, s3 a b c = true -> a <> Ascii.zero /\ b <> Ascii.zero /\ c <> Ascii.zero).

Lemma space1_zero a : space1 a = true -> a <> Ascii.zero.
Proof. intros H ->. by vm_compute in H. Qed.

Lemma drop_space_zero l : Ascii.zero ∈ l -> Ascii.zero ∈ drop_space s2 s3 l.
Proof.
  induction l as [l IH] using (Wf_nat.induction_ltof1 _ (@length ascii)); unfold Wf_nat.ltof in IH.
  destruct l as [|a l1]; [done|]. cbn [drop_space]. intros Hz. destruct (space1 a) eqn:E1.
  { apply IH; [cbn; lia|]. apply space1_zero in E1. set_solver. }
  destruct l1 as [|b l2]; [done|]. destruct (s2 a b) eqn:E2.
  { apply IH; [cbn; lia|]. apply H2 in E2. set_solver. }
  destruct l2 as [|c l3]; [done|]. destruct (s3 a b c) eqn:E3; [|done].
  apply IH; [cbn; lia|]. apply H3 in E3. set_solver.
Qed.
End NoNul.

Lemma TrimSpace_zero s : Ascii.zero ∈ bytes s -> Ascii.zero ∈ bytes (TrimSpace s).
Proof.
  assert (forall n a, is_byte n a = true -> n <> 0%N -> a <> Ascii.zero) as Hb.
  { intros n a H Hn ->. unfold is_byte in H. apply N.eqb_eq in H. by cbn in H. }
  assert (forall lo hi a, in_range lo hi a = true -> (lo <> 0)%N -> a <> Ascii.zero) as Hr.
  { intros lo hi a H Hn ->. unfold in_range in H. apply andb_true_iff in H as [H _]. apply N.leb_le in H. cbn in H. lia. }
  intros H. unfold TrimSpace. rewrite bytes_of_bytes. unfold trim_right, trim_left. rewrite list_elem_of_In, <- in_rev, <- list_elem_of_In.
  assert (forall a b, space2 a b = true -> a <> Ascii.zero /\ b <> Ascii.zero) as S2.
  { intros a b Hs. unfold space2 in Hs. simplify_guards. split; [by eapply Hb|].
    match goal with H : _ || _ = true |- _ => apply orb_true_iff in H as [H|H] end; by eapply Hb. }
  assert (forall a b c, space3 a b c = true -> a <> Ascii.zero /\ b <> Ascii.zero /\ c <> Ascii.zero) as S3.
  { intros a b c Hs. unfold space3 in Hs. repeat rewrite ?orb_true_iff, ?andb_true_iff in Hs. naive_solver (eauto using Hb, Hr). }
  apply drop_space_zero; [naive_solver|naive_solver|]. rewrite list_elem_of_In, <- in_rev, <- list_elem_of_In. by apply drop_space_zero.
Qed.

Lemma branch_no_zero raw : is_ok (normalizePlanBranch raw) = true -> Ascii.zero ∉ bytes raw.
Proof.
  intros H Hz%TrimSpace_zero. unfold normalizePlanBranch, NormalizeSelector in H.
  destruct (bool_decide (TrimSpace raw = EmptyString) || bool_decide (TrimSpace raw = "main")) eqn:E.
  { apply orb_true_iff in E as [E%bool_decide_eq_true|E%bool_decide_eq_true]; rewrite E in Hz; apply list_elem_of_In in Hz; cbn in Hz; naive_solver. }
  rewrite NormalizeExplicit_unfold, TrimSpace_idemp in H. cbv zeta in H. destruct (explicit_ok _) eqn:Ee; [|done].
  apply explicit_branch_bytes in Ee. rewrite forallb_forall in Ee.
  assert (Ascii.zero ∈ bytes (TrimPrefix (TrimSpace raw) heads_prefix)) as Hin.
  { unfold TrimPrefix. destruct (strip_prefix heads_prefix (TrimSpace raw)) as [r|] eqn:Es; [|done].
    apply strip_prefix_Some in Es. rewrite Es, bytes_app in Hz. apply elem_of_app in Hz as [Hz|?]; [|done]. apply list_elem_of_In in Hz. cbn in Hz. naive_solver. }
  specialize (Ee Ascii.zero). rewrite <- list_elem_of_In in Ee. specialize (Ee Hin). by vm_compute in Ee.
Qed.

Lemma target_key_inj p1 p2 : is_ok (normalizePlanBranch (p_Branch p1)) = true -> is_ok (normalizePlanBranch (p_Branch p2)) = true ->
  target_key p1 = target_key p2 <-> p_BucketID p1 = p_BucketID p2 /\ p_Branch p1 = p_Branch p2.
Proof.
  intros H1%branch_no_zero H2%branch_no_zero. unfold target_key. split; [|by intros [-> ->]]. intros E. apply (f_equal bytes) in E.
  rewrite !bytes_app in E. change (bytes nul) with [Ascii.zero] in E. cbn [app] in E. apply last_separator in E as [E1 E2]; [|done|done].
  apply (f_equal of_bytes) in E1, E2. by rewrite !of_bytes_bytes in E1, E2.
Qed.

(** ** One plan *)
Section Loader.
Context (h : host).

Lemma binding_disjoint_sym a b : disjoint h a b -> disjoint h b a.
Proof. intros (H1 & H2 & H3). split_and!; [congruence|done|done]. Qed.

Lemma check_pair_iff a b : check_pair h a b = Ok () <-> resolvedPathWithin h (b_Source b) (b_Source a) = Ok false /\ resolvedPathWithin h (b_Source a) (b_Source b) = Ok false.
Proof.
  unfold check_pair. split.
  - intros H. simplify_result. by simplify_guards; subst.
  - intros [-> ->]. done.
Qed.

Lemma check_apart_iff a b : check_apart h a b = Ok () <-> disjoint h a b.
Proof.
  unfold check_apart, bindingSourcesOverlap, disjoint. case_bool_decide as Es; [split; [done|by intros [? _]]|]. split.
  - intros H. simplify_result. by simplify_guards; subst.
  - intros (_ & -> & ->). done.
Qed.

Lemma check_all_apart_iff l l' : check_all_apart h l l' = Ok () <-> forall a b, a ∈ l -> b ∈ l' -> disjoint h a b.
Proof.
  unfold check_all_apart. rewrite foldM_check, Forall_forall. setoid_rewrite foldM_check. setoid_rewrite Forall_forall. setoid_rewrite check_apart_iff. naive_solver.
Qed.

Lemma check_pairs_iff l : check_pairs h l = Ok () <->
  ForallOrdPairs (fun a b => resolvedPathWithin h (b_Source b) (b_Source a) = Ok false /\ resolvedPathWithin h (b_Source a) (b_Source b) = Ok false) l.
Proof.
  induction l as [|b l IH]; cbn; [split; [constructor|done]|]. rewrite bind_Ok. split.
  - intros ([] & H1 & H2). constructor; [|by apply IH]. apply foldM_check in H1. eapply Forall_impl; [exact H1|]. intros c. apply check_pair_iff.
  - intros H. inversion H as [|? ? H1 H2]; subst. exists (). split; [|by apply IH]. apply foldM_check. eapply Forall_impl; [exact H1|]. intros c. apply check_pair_iff.
Qed.

Lemma check_binding_Ok acc b acc' : check_binding acc b = Ok acc' <->
  binding_ok b /\ b_Name b ∉ seenNames acc /\ b_Source b ∉ seenSources acc /\ b_PathName b ∉ seenPathNames acc /\
  acc' = mkSeen ({[b_Name b]} ∪ seenNames acc) ({[b_Source b]} ∪ seenSources acc) ({[b_PathName b]} ∪ seenPathNames acc).
Proof.
  unfold check_binding. split.
  - intros H. simplify_result. simplify_guards. rewrite !is_empty_false in *. split_and!; try done. split; [done| |by destruct (validateOpaqueID (b_ID b) "binding") as [[]|]].
    unfold time_IsZero in *. by simplify_guards.
  - intros ([(H1 & H2 & H3 & H4) Ht Hid] & Hn & Hs & Hp & ->). rewrite Hid. unfold time_IsZero.
    apply is_empty_false in H1, H2, H3, H4. rewrite H1, H2, H3, H4. rewrite !bool_decide_eq_false_2 by done. done.
Qed.

Lemma check_bindings_iff l : forall acc, (exists acc', foldM check_binding acc l = Ok acc') <->
  Forall binding_ok l /\ NoDup (b_Name <$> l) /\ NoDup (b_Source <$> l) /\ NoDup (b_PathName <$> l) /\
  Forall (fun b => b_Name b ∉ seenNames acc /\ b_Source b ∉ seenSources acc /\ b_PathName b ∉ seenPathNames acc) l.
Proof.
  induction l as [|b l IH]; intros acc; cbn [foldM fmap list_fmap].
  - split; [|eauto]. intros _. by repeat (split || constructor).
  - split.
    + intros (acc' & H). apply bind_Ok in H as (acc1 & Hb & H). apply check_binding_Ok in Hb as (Hok & H1 & H2 & H3 & ->).
      apply (ex_intro (fun a => _ = Ok a) acc') in H. apply IH in H as (F & N1 & N2 & N3 & Fs). cbn in Fs. rewrite !NoDup_cons, !Forall_cons.
      rewrite Forall_forall in Fs.
      split_and!; try done; try (intros (c & E & Hc)%list_elem_of_fmap; specialize (Fs c Hc); set_solver).
      apply Forall_forall. intros c Hc. specialize (Fs c Hc). set_solver.
    + rewrite !NoDup_cons, !Forall_cons. intros ([Hok F] & [N1 N1'] & [N2 N2'] & [N3 N3'] & [(H1 & H2 & H3) Fs]).
      eassert (check_binding acc b = Ok _) as ->; [by apply check_binding_Ok; split_and!|]. cbn. apply IH. split_and!; try done. cbn.
      rewrite Forall_forall in *. intros c Hc. specialize (Fs c Hc) as (F1 & F2 & F3). rewrite !not_elem_of_union, !not_elem_of_singleton.
      split_and!; try done; intros E; [apply N1|apply N2|apply N3]; rewrite <- E; by apply list_elem_of_fmap_2.
Qed.

Lemma validatePlan_iff plan : validatePlan h plan = Ok () <-> plan_ok h plan.
Proof.
  unfold validatePlan. split.
  - intros H. simplify_result. simplify_guards. rewrite !is_empty_false in *.
    match goal with H : foldM _ _ _ = Ok ?a |- _ => assert (exists a, foldM check_binding (mkSeen ∅ ∅ ∅) (p_Bindings plan) = Ok a) as Hb by (exists a; exact H) end.
    apply check_bindings_iff in Hb as (F & N1 & N2 & N3 & _). apply check_pairs_iff in H. split; try done.
    + unfold time_IsZero in *. by simplify_guards.
    + by destruct (validateOpaqueID (p_ID plan) "plan") as [[]|].
    + by destruct (normalizePlanBranch (p_Branch plan)).
    + clear -H N2. induction H as [|b l Hb Hl IH]; constructor.
      * cbn in N2. apply NoDup_cons in N2 as [Hn _]. rewrite Forall_forall in *. intros c Hc. split; [|by apply Hb]. intros E. apply Hn. rewrite E. by apply list_elem_of_fmap_2.
      * apply IH. cbn in N2. by apply NoDup_cons in N2 as [_ ?].
  - intros [(H1 & H2 & H3 & H4) Ht Hid Hb F N1 N3 D]. apply is_empty_false in H1, H2, H3, H4. rewrite H1, H2, H3, H4, Hid.
    unfold time_IsZero. rewrite bool_decide_eq_false_2 by done. cbn. destruct (normalizePlanBranch (p_Branch plan)); [|done]. cbn.
    destruct (proj2 (check_bindings_iff (p_Bindings plan) (mkSeen ∅ ∅ ∅))) as [acc ->].
    + split_and!; try done; [|apply Forall_forall; set_solver]. clear -D. induction D as [|b l Hb Hl IH]; cbn; constructor; [|done].
      intros (c & E & Hc)%list_elem_of_fmap. rewrite Forall_forall in Hb. by destruct (Hb c Hc) as [? _].
    + cbn. apply check_pairs_iff. clear -D. induction D as [|b l Hb Hl IH]; constructor; [|done]. eapply Forall_impl; [exact Hb|]. by intros c (_ & ? & ?).
Qed.

(** ** The file *)
Lemma check_targets_iff l : Forall (fun p => p_ID p <> EmptyString) l -> forall targets : gmap string string, map_Forall (fun _ id => id <> EmptyString) targets ->
  (exists t, foldM check_target targets l = Ok t) <-> NoDup (target_key <$> l) /\ Forall (fun p => targets !! target_key p = None) l.
Proof.
  induction 1 as [|p l Hp Hl IH]; intros targets Ht; cbn [foldM fmap list_fmap].
  - split; [|eauto]. intros _. by split; constructor.
  - assert (map_Forall (fun _ id => id <> EmptyString) (<[target_key p := p_ID p]> targets)) as Ht' by by apply map_Forall_insert_2.
    rewrite NoDup_cons, Forall_cons. split.
    + intros (t & H). apply bind_Ok in H as (t1 & H1 & H). unfold check_target in H1. simplify_result. assert (targets !! target_key p = None) as Hn.
      { destruct (targets !! target_key p) as [id|] eqn:E; [|done]. apply Ht in E. by destruct (is_empty id) eqn:Ei; [apply is_empty_true in Ei|]. }
      assert (exists t, foldM check_target (<[target_key p := p_ID p]> targets) l = Ok t) as [Hd Hf]%(IH _ Ht') by (by eexists). rewrite Forall_forall in Hf. split_and!; [|done|done|].
      * intros (q & E & Hq)%list_elem_of_fmap. specialize (Hf q Hq). rewrite <- E, lookup_insert_eq in Hf. done.
      * apply Forall_forall. intros q Hq. specialize (Hf q Hq). by apply lookup_insert_None in Hf as [? _].
    + intros ([Hk Hd] & Hn & Hf). assert (check_target targets p = Ok (<[target_key p := p_ID p]> targets)) as -> by (unfold check_target; by rewrite Hn). cbn. apply IH; [done|]. split; [done|]. rewrite Forall_forall in *. intros q Hq.
      rewrite lookup_insert_ne; [by apply Hf|]. intros E. apply Hk. rewrite E. by apply list_elem_of_fmap_2.
Qed.

Lemma check_plans_iff l : check_plans h l = Ok () <-> ForallOrdPairs (fun p q => forall a b, a ∈ p_Bindings p -> b ∈ p_Bindings q -> disjoint h a b) l.
Proof.
  induction l as [|p l IH]; cbn; [split; [constructor|done]|]. rewrite bind_Ok. split.
  - intros ([] & H1 & H2). constructor; [|by apply IH]. apply foldM_check in H1. eapply Forall_impl; [exact H1|]. intros q. apply check_all_apart_iff.
  - intros H. inversion H as [|? ? H1 H2]; subst. exists (). split; [|by apply IH]. apply foldM_check. eapply Forall_impl; [exact H1|]. intros q. apply check_all_apart_iff.
Qed.

Lemma check_record_iff item : check_record h item = Ok () <-> item.1 = p_ID item.2 /\ plan_ok h item.2.
Proof.
  unfold check_record. split.
  - intros H. simplify_result. simplify_guards. split; [done|]. apply validatePlan_iff. by destruct (validatePlan h item.2) as [[]|].
  - intros [Hid Hok%validatePlan_iff]. rewrite bool_decide_eq_true_2 by done. cbn. by rewrite Hok.
Qed.

Lemma plans_decode_iff s s' : decode h s = Ok s' <-> s' = s /\ wf h s.
Proof.
  assert (forall (Q : string * Plan -> Prop), Forall Q (map_to_list (pf_Plans s)) <-> map_Forall (fun id p => Q (id, p)) (pf_Plans s)) as Hall.
  { intros Q. rewrite map_Forall_to_list. apply Forall_iff. by intros [id p]. }
  assert (forall m : gmap string Plan, map_Forall (fun id p => id = p_ID p /\ plan_ok h p) m -> Forall (fun p => p_ID p <> EmptyString) (snd <$> map_to_list m)) as Hids.
  { intros m Hm. apply Forall_fmap, Forall_forall. intros [id p] Hp%elem_of_map_to_list. cbn. destruct (Hm _ _ Hp) as [_ Hok]. apply (po_complete _ _ Hok). }
  assert (forall m : gmap string Plan, map_Forall (fun id p => id = p_ID p /\ plan_ok h p) m -> NoDup (target_key <$> (snd <$> map_to_list m)) <->
    forall id1 id2 p1 p2, m !! id1 = Some p1 -> m !! id2 = Some p2 -> id1 <> id2 -> ~ (p_BucketID p1 = p_BucketID p2 /\ p_Branch p1 = p_Branch p2)) as Htarget.
  { intros m Hm. rewrite <- list_fmap_compose. split.
    - intros Hd id1 id2 p1 p2 H1 H2 Hne E. destruct (Hm _ _ H1) as [_ O1], (Hm _ _ H2) as [_ O2].
      assert ((id1, p1) = (id2, p2)) as Heq; [|congruence]. apply (NoDup_key_inj (target_key ∘ snd) (map_to_list m)); [done|by apply elem_of_map_to_list..|]. cbn.
      apply target_key_inj; [apply (po_branch _ _ O1)|apply (po_branch _ _ O2)|done].
    - intros H. apply NoDup_fmap_2_strong; [|apply NoDup_map_to_list]. intros [id1 p1] [id2 p2] H1%elem_of_map_to_list H2%elem_of_map_to_list E. cbn in E.
      destruct (Hm _ _ H1) as [_ O1], (Hm _ _ H2) as [_ O2]. apply target_key_inj in E; [|apply (po_branch _ _ O1)|apply (po_branch _ _ O2)].
      destruct (decide (id1 = id2)) as [->|Hne]; [congruence|]. by destruct (H _ _ _ _ H1 H2 Hne). }
  assert (forall p q : Plan, (forall a b, a ∈ p_Bindings p -> b ∈ p_Bindings q -> disjoint h a b) -> forall a b, a ∈ p_Bindings q -> b ∈ p_Bindings p -> disjoint h a b) as Hsym.
  { intros p q H a b Ha Hb. by apply binding_disjoint_sym, H. }
  unfold decode. split.
  - intros H. simplify_result. simplify_guards. split; [done|].
    match goal with H : foldM (fun _ item => check_record h item) _ _ = Ok ?u |- _ => destruct u; apply foldM_check, (Forall_impl _ (fun item => item.1 = p_ID item.2 /\ plan_ok h item.2)) in H; [|intros ?; apply check_record_iff]; rename H into Hrec end.
    apply Hall in Hrec. cbn in Hrec. split; [done|done| |].
    + apply Htarget; [done|]. match goal with H : foldM check_target _ _ = Ok ?t |- _ => destruct (proj1 (check_targets_iff _ (Hids _ Hrec) ∅ (map_Forall_empty _))) as [Hd _]; [exists t; exact H|done] end.
    + intros id1 id2 p1 p2 b1 b2 H1 H2 Hne. match goal with H : check_plans h _ = Ok ?u |- _ => destruct u; apply check_plans_iff in H; rewrite pairs_of_map in H by exact Hsym; rename H into Hp end.
      intros Hb1 Hb2. exact (Hp _ _ _ _ H1 H2 Hne _ _ Hb1 Hb2).
  - intros [-> [Hv Hp Ht Hd]]. rewrite bool_decide_eq_true_2 by done. cbn.
    rewrite (proj2 (foldM_check (check_record h) _)). 2: { apply Hall. intros id p Hid. apply check_record_iff. by apply Hp. }
    cbn. destruct (proj2 (check_targets_iff _ (Hids _ Hp) ∅ (map_Forall_empty _))) as [t ->].
    { split; [by apply Htarget|]. apply Forall_forall. intros q _. apply lookup_empty. }
    cbn. rewrite (proj2 (check_plans_iff _)); [done|]. apply pairs_of_map; [exact Hsym|]. intros id1 id2 p1 p2 H1 H2 Hne a b. by apply (Hd id1 id2 p1 p2).
Qed.
End Loader.

(** * The plan store: bound directories stay disjoint, and every file that the
    operations write loads again. *)

(** ** Random identities are valid *)
Lemma ascii_valid l : Forall (fun a => in_range 0 127 a = true) l -> utf8_valid l = true.
Proof. induction 1 as [|a l Ha _ IH]; [done|]. cbn. by rewrite Ha. Qed.

Lemma identifier_plain a : identifier_byte a = true -> in_range 0 127 a = true /\ a ∉ bytes separators /\ a ∉ bytes blanks.
Proof.
  intros H. assert (branch_byte a = true) as [_ Hlt]%branch_byte_not_space by (unfold branch_byte; by rewrite H). split_and!.
  - unfold in_range. apply andb_true_iff. rewrite !N.leb_le. lia.
  - intros Hin%list_elem_of_In. cbn in Hin. destruct Hin as [<-|[<-|[]]]; by vm_compute in H.
  - intros Hin%list_elem_of_In. cbn in Hin. destruct Hin as [<-|[<-|[<-|[<-|[<-|[]]]]]]; by vm_compute in H.
Qed.

Lemma base64_length l : length (base64 l) <= 2 * length l.
Proof.
  induction l as [l IH] using (Wf_nat.induction_ltof1 _ (@length ascii)); unfold Wf_nat.ltof in IH.
  destruct l as [|x [|y [|z l]]]; cbn [base64 app length]; try lia. specialize (IH l ltac:(cbn; lia)). lia.
Qed.

Lemma bytes_length s : length (bytes s) = String.length s.
Proof. induction s as [|a s IH]; cbn; [done|]. by rewrite <- IH. Qed.

(** The bytes that [rand.Read] fills. *)
Definition sixteen (random : option string) : Prop := forall raw, random = Some raw -> String.length raw = 16.

Lemma random_valid prefix kind random id : forallb identifier_byte (bytes prefix) = true -> String.length prefix <= 64 -> sixteen random ->
  randomPlanID prefix random = Ok id -> validateOpaqueID id kind = Ok () /\ id <> EmptyString.
Proof.
  intros Hp Hlen Hr H. unfold randomPlanID in H. destruct random as [r|]; [|done]. cbn in H. injection H as <-. specialize (Hr r eq_refl).
  set (id := prefix +:+ "_" +:+ EncodeToString r).
  assert (bytes id = bytes prefix ++ "_"%char :: base64 (bytes r)) as Hb by (unfold id, EncodeToString; by rewrite !bytes_app, bytes_of_bytes).
  assert (forall a, a ∈ bytes id -> identifier_byte a = true) as Hid.
  { intros a. rewrite Hb, elem_of_app, elem_of_cons. intros [Ha|[->|Ha]]; [|done|].
    - rewrite forallb_forall in Hp. by apply Hp, list_elem_of_In.
    - apply base64_alphabet in Ha. assert (forallb identifier_byte alphabet = true) as HA by done. rewrite forallb_forall in HA. by apply HA, list_elem_of_In. }
  assert (id <> EmptyString) as Hne by (intros E; rewrite E in Hb; by destruct (bytes prefix)). split; [|done].
  unfold validateOpaqueID. apply fail_if_Ok. rewrite !orb_false_iff, negb_false_iff, is_empty_false. split_and!.
  - apply ascii_valid, Forall_forall. intros a Ha. by apply identifier_plain, Hid.
  - apply negb_false_iff, bool_decide_eq_true, branch_bytes_trimmed, forallb_forall. intros a Ha%list_elem_of_In. unfold branch_byte. by rewrite Hid.
  - done.
  - apply Nat.ltb_ge. rewrite <- bytes_length, Hb, length_app. cbn [length]. pose proof (base64_length (bytes r)) as Hl. rewrite !bytes_length in *. lia.
  - apply not_true_is_false. unfold ContainsAny. rewrite existsb_exists. intros (a & Ha%list_elem_of_In & Hc%bool_decide_eq_true). by destruct (identifier_plain a (Hid a Ha)) as (_ & ? & ?).
  - apply not_true_is_false. unfold ContainsAny. rewrite existsb_exists. intros (a & Ha%list_elem_of_In & Hc%bool_decide_eq_true). by destruct (identifier_plain a (Hid a Ha)) as (_ & ? & ?).
Qed.

Lemma path_Clean_nonempty p : path_Clean p <> EmptyString.
Proof. unfold path_Clean. repeat case_match; try done. by case_bool_decide. Qed.
Lemma filepath_Abs_nonempty h p : filepath_Abs h p <> EmptyString.
Proof. unfold filepath_Abs, filepath_Join. case_match; apply path_Clean_nonempty. Qed.

Section Preserved.
Context (h : host).

#[global] Instance plans_laws : DurableLaws planFile (S := plans_store h).
Proof.
  split.
  - split; cbn; [done|apply map_Forall_empty|by intros ? ? ? ? ?%lookup_empty_Some|by intros ? ? ? ? ? ? ?%lookup_empty_Some].
  - intros s s' H. by apply plans_decode_iff in H as [-> ?].
  - intros s H. by apply plans_decode_iff.
Qed.

(** Replacing or adding a plan that is apart from all others. *)
Lemma wf_put s plan : wf h s -> plan_ok h plan ->
  (forall id other, pf_Plans s !! id = Some other -> id <> p_ID plan -> ~ (p_BucketID other = p_BucketID plan /\ p_Branch other = p_Branch plan)) ->
  (forall id other a b, pf_Plans s !! id = Some other -> id <> p_ID plan -> a ∈ p_Bindings other -> b ∈ p_Bindings plan -> disjoint h a b) ->
  wf h (put_plan plan s).
Proof.
  intros [Hv Hp Ht Hd] Hok Hn Ha. split; cbn; [done|by apply map_Forall_insert_2| |].
  - intros id1 id2 p1 p2 H1 H2 Hne. apply lookup_insert_Some in H1 as [[<- <-]|[N1 H1]], H2 as [[<- <-]|[N2 H2]]; [done| | |by eapply Ht].
    + intros [E1 E2]. by apply (Hn _ _ H2 (not_eq_sym N2)).
    + by apply (Hn _ _ H1 (not_eq_sym N1)).
  - intros id1 id2 p1 p2 b1 b2 H1 H2 Hne Hb1 Hb2. apply lookup_insert_Some in H1 as [[<- <-]|[N1 H1]], H2 as [[<- <-]|[N2 H2]]; [done| | |by eapply (Hd id1 id2)].
    + by apply binding_disjoint_sym, (Ha id2 p2).
    + by apply (Ha id1 p1).
Qed.

Lemma selectPlan_found plans selector id plan : selectPlan plans selector = Ok (id, plan) -> plans !! id = Some plan.
Proof.
  unfold selectPlan. destruct (plans !! TrimSpace selector) eqn:E; [by intros [= <- <-]|]. destruct (with_name _ _) as [|[id' p'] [|]] eqn:Ew; [done| |done].
  intros [= <- <-]. assert ((id', p') ∈ with_name (TrimSpace selector) plans) as H by (rewrite Ew; by left). unfold with_name in H.
  apply list_elem_of_filter in H as [_ H]. by apply elem_of_map_to_list.
Qed.

Lemma scheduleLocked_wf selector every enabled message now s plan s' : wf h s -> scheduleLocked selector every enabled message now s = Ok (plan, s') -> wf h s'.
Proof.
  intros Hw H. unfold scheduleLocked in H. apply bind_Ok in H as ([id p] & Hsel & H). simplify_result. apply selectPlan_found in Hsel.
  destruct (wf_plans _ _ Hw _ _ Hsel) as [-> Hok]. apply (wf_put s (set_schedule every enabled message now p)); [done|by destruct Hok| |].
  - intros id other Ho Hne. exact (wf_targets _ _ Hw _ _ _ _ Ho Hsel Hne).
  - intros id other a b Ho Hne Ha Hb. exact (wf_disjoint _ _ Hw _ _ _ _ _ _ Ho Hsel Hne Ha Hb).
Qed.

Lemma importLocked_wf plan s r s' : wf h s -> plan_ok h plan -> importLocked h plan s = Ok (r, s') -> wf h s'.
Proof.
  intros Hw Hok H. unfold importLocked in H. simplify_result. match goal with H : foldM _ _ _ = Ok ?u |- _ => destruct u; apply foldM_check in H; rename H into Hall end.
  rewrite Forall_forall in Hall. simplify_guards.
  assert (forall id other, pf_Plans s !! id = Some other -> on_target (p_BucketID r) (p_Branch r) (id, other) = false /\ check_all_apart h (p_Bindings other) (p_Bindings r) = Ok ()) as Hother.
  { intros id other Ho. specialize (Hall (id, other) ltac:(by apply elem_of_map_to_list)). cbn in Hall. simplify_result. split; [done|]. by destruct (check_all_apart _ _ _) as [[]|]. }
  apply wf_put; [done|done| |].
  - intros id other Ho _ [E1 E2]. destruct (Hother id other Ho) as [Ht _]. unfold on_target in Ht. cbn in Ht. by rewrite E1, E2, !bool_decide_eq_true_2 in Ht.
  - intros id other a b Ho _ Ha Hb. destruct (Hother id other Ho) as [_ Hap]. by eapply check_all_apart_iff.
Qed.

(** ** Binding a directory *)
Definition request_ok (req : BindRequest) : Prop :=
  rq_BucketID req <> EmptyString /\ rq_BindingName req <> EmptyString /\ rq_Source req <> EmptyString /\ rq_PathName req <> EmptyString /\
  is_ok (normalizePlanBranch (rq_Branch req)) = true /\ rq_Branch req <> EmptyString.

Lemma add_binding_ok now b plan : now <> 0%Z -> plan_ok h plan -> binding_ok b ->
  Forall (fun e => b_Name e <> b_Name b /\ b_PathName e <> b_PathName b /\ disjoint h e b) (p_Bindings plan) -> plan_ok h (add_binding now b plan).
Proof.
  intros Hnow [H1 H2 H3 H4 H5 H6 H7 H8] Hb Hf. pose proof (sort_by_Permutation b_Name String.leb (p_Bindings plan ++ [b])) as Hp.
  assert (forall (A : Type) (f : Binding -> A), NoDup (f <$> p_Bindings plan) -> Forall (fun e => f e <> f b) (p_Bindings plan) -> NoDup (f <$> sort_by_string b_Name (p_Bindings plan ++ [b]))) as Hnd.
  { intros A f Hn Hx. unfold sort_by_string. rewrite Hp, fmap_app. apply NoDup_app. split_and!; [done| |apply NoDup_singleton].
    intros x (e & -> & He)%list_elem_of_fmap Hin%list_elem_of_singleton. rewrite Forall_forall in Hx. by apply (Hx e). }
  split; cbn; try done.
  - unfold sort_by_string. rewrite Hp. apply Forall_app. split; [done|by constructor].
  - apply Hnd; [done|]. eapply Forall_impl; [exact Hf|naive_solver].
  - apply Hnd; [done|]. eapply Forall_impl; [exact Hf|naive_solver].
  - eapply pairs_Permutation; [intros x y; apply binding_disjoint_sym|symmetry; exact Hp|]. apply pairs_app; [done|]. eapply Forall_impl; [exact Hf|naive_solver].
Qed.

Lemma new_plan_ok now random req plan : now <> 0%Z -> sixteen random -> request_ok req -> new_plan now random req (rq_Branch req) = Ok plan ->
  plan_ok h plan /\ p_Bindings plan = [] /\ p_BucketID plan = rq_BucketID req /\ p_Branch plan = rq_Branch req /\ randomPlanID "plan" random = Ok (p_ID plan).
Proof.
  intros Hnow Hr (Hb & _ & _ & _ & Hbr & Hbn) H. unfold new_plan in H. simplify_result.
  match goal with H : randomPlanID _ _ = Ok _ |- _ => destruct (random_valid "plan" "plan" random _ ltac:(done) ltac:(cbn; lia) Hr H) as [Hv Hne]; rename H into Hid end.
  match goal with H : validateDisplayName ?n _ = Ok _ |- _ => assert (n <> EmptyString) as Hname by (intros E; rewrite E in H; by vm_compute in H) end.
  split_and!; try done. split; cbn; try done; by constructor.
Qed.

Lemma bindLocked_wf now random req s r s' : wf h s -> now <> 0%Z -> sixteen random.1 -> sixteen random.2 -> request_ok req ->
  (forall id, randomPlanID "plan" random.1 = Ok id -> pf_Plans s !! id = None) ->
  bindLocked h now random req (rq_Branch req) (rq_Source req) s = Ok (r, s') -> wf h s'.
Proof.
  intros Hw Hnow Hr1 Hr2 Hreq Hfresh H. unfold bindLocked in H. set (found := List.find _ _) in H.
  apply bind_Ok in H as ([] & Hall & H). apply bind_Ok in H as ([] & _ & H). apply bind_Ok in H as (plan & Hplan & H).
  apply bind_Ok in H as ([] & Hnames & H). apply bind_Ok in H as (bid & Hbid & H). simplify_result.
  apply foldM_check in Hall, Hnames. rewrite Forall_forall in Hall, Hnames.
  set (b := mkBinding bid (rq_BindingName req) (rq_Source req) (rq_PathName req) now).
  assert (binding_ok b) as Hbok.
  { destruct (random_valid "binding" "binding" random.2 _ ltac:(done) ltac:(cbn; lia) Hr2 Hbid) as [Hv Hne]. destruct Hreq as (_ & ? & ? & ? & _). by split. }
  assert (forall id other e, pf_Plans s !! id = Some other -> e ∈ p_Bindings other -> disjoint h e b) as Hdis.
  { intros id other e Ho He. specialize (Hall e). assert (e ∈ all_bindings s) as Hin.
    { unfold all_bindings. apply list_elem_of_In, in_concat. exists (p_Bindings other). split; [|by apply list_elem_of_In].
      apply list_elem_of_In, list_elem_of_fmap. exists (id, other). split; [done|by apply elem_of_map_to_list]. }
    specialize (Hall Hin). apply (check_apart_iff h e b). unfold check_apart, b. cbn in *. by destruct (bindingSourcesOverlap h (b_Source e) (rq_Source req)) as [[]|]. }
  assert (plan_ok h plan /\ (forall e, e ∈ p_Bindings plan -> disjoint h e b) /\
    (forall id other, pf_Plans s !! id = Some other -> id <> p_ID plan -> ~ (p_BucketID other = p_BucketID plan /\ p_Branch other = p_Branch plan)) /\
    (forall id other x y, pf_Plans s !! id = Some other -> id <> p_ID plan -> x ∈ p_Bindings other -> y ∈ p_Bindings plan -> disjoint h x y)) as (Hok & Hd1 & Ht & Hd2).
  { destruct found as [[id p]|] eqn:Ef.
    - injection Hplan as <-. apply find_some in Ef as [Hin%list_elem_of_In%elem_of_map_to_list _]. destruct (wf_plans _ _ Hw _ _ Hin) as [-> Hok]. cbn. split_and!; [done| | |].
      + intros e He. by eapply Hdis.
      + intros id other Ho Hne. exact (wf_targets _ _ Hw _ _ _ _ Ho Hin Hne).
      + intros id other x y Ho Hne Hx Hy. exact (wf_disjoint _ _ Hw _ _ _ _ _ _ Ho Hin Hne Hx Hy).
    - destruct (new_plan_ok now random.1 req plan Hnow Hr1 Hreq Hplan) as (Hok & Hb & Hbu & Hbr & Hid). split_and!; [done|rewrite Hb; set_solver| |rewrite Hb; set_solver].
      intros id other Ho _ [E1 E2]. apply find_none with (x := (id, other)) in Ef; [|by apply list_elem_of_In, elem_of_map_to_list].
      unfold on_target in Ef. cbn in Ef. by rewrite E1, E2, Hbu, Hbr, !bool_decide_eq_true_2 in Ef. }
  apply wf_put; [done| | |].
  - apply add_binding_ok; [done|done|done|]. apply Forall_forall. intros e He. specialize (Hnames e He). unfold check_names in Hnames. simplify_result. simplify_guards.
    split_and!; [done|done|by apply Hd1].
  - exact Ht.
  - cbn. intros id other x y Ho Hne Hx. unfold sort_by_string. rewrite (sort_by_Permutation b_Name String.leb), elem_of_app, list_elem_of_singleton.
    intros [Hy| ->]; [by eapply Hd2|by eapply Hdis].
Qed.
End Preserved.
