(* ===== verification/PlansRuns.v ===== *)
(** Histories of calls on the plan store, with any failures: every file loads
    again and the directories that plans bind never overlap.  Every file that a
    call leaves goes through its JSON document. *)

From stdpp Require Import base decidable gmap strings list relations.
From Stdlib Require Import Ascii ZArith Lia Permutation.
From S2P Require Import Prelude GoText Branch Durable NodeApi Registry PlainTree Install History Plans PlansFacts Json.

(** ** The JSON document

    [write] marshals the plans and [load] decodes them strictly: bytes that are
    not UTF-8 come back as replacement characters, and two identities that come
    back as one make a duplicate key, which the decoder refuses. *)
Definition json_binding (b : Binding) : Binding :=
  mkBinding (json_text (b_ID b)) (json_text (b_Name b)) (json_text (b_Source b)) (json_text (b_PathName b)) (b_CreatedAt b).
Definition json_plan (p : Plan) : Plan :=
  mkPlan (json_text (p_ID p)) (json_text (p_Name p)) (json_text (p_BucketID p)) (json_text (p_BucketName p)) (json_text (p_Branch p))
    (json_binding <$> p_Bindings p) (p_Every p) (p_Enabled p) (json_text (p_Message p)) (p_CreatedAt p) (p_UpdatedAt p).
Definition json_item (item : string * Plan) : string * Plan := (json_text item.1, json_plan item.2).
(** [None] when the document has a duplicate key. *)
Definition json_plans (s : planFile) : option planFile :=
  let items := json_item <$> map_to_list (pf_Plans s) in
  if bool_decide (NoDup items.*1) then Some (mkPlans (pf_Version s) (list_to_map items)) else None.
(** What a file that a call left holds when it is read. *)
Definition plans_on_disk (f : plans_file) : plans_file :=
  match f with
  | Some (Decodes s) => match json_plans s with Some s' => Some (Decodes s') | None => Some Garbage end
  | f => f
  end.

(** Texts that the document keeps. *)
Definition utf8 (s : string) : Prop := ValidString s = true.
Record binding_texts (b : Binding) : Prop := { bt_id : utf8 (b_ID b); bt_name : utf8 (b_Name b); bt_source : utf8 (b_Source b); bt_path : utf8 (b_PathName b) }.
Record plan_texts (p : Plan) : Prop := {
  pt_id : utf8 (p_ID p); pt_name : utf8 (p_Name p); pt_bucket : utf8 (p_BucketID p); pt_bucket_name : utf8 (p_BucketName p);
  pt_branch : utf8 (p_Branch p); pt_bindings : Forall binding_texts (p_Bindings p); pt_message : utf8 (p_Message p)
}.
Definition file_texts (s : planFile) : Prop := map_Forall (fun id p => utf8 id /\ plan_texts p) (pf_Plans s).
(** A file as it was read from a disk. *)
Definition texts_kept (f : plans_file) : Prop := match f with Some (Decodes s) => file_texts s | _ => True end.
(** What [bindLocked] takes over of its request. *)
Definition request_texts (req : BindRequest) : Prop :=
  utf8 (rq_BucketID req) /\ utf8 (rq_BucketName req) /\ utf8 (rq_Branch req) /\ utf8 (rq_BindingName req) /\ utf8 (rq_Source req) /\ utf8 (rq_PathName req).

Lemma json_plan_id p : plan_texts p -> json_plan p = p.
Proof.
  intros []. unfold json_plan. rewrite !json_text_id by done. destruct p as [? ? ? ? ? bs]. cbn in *. f_equal.
  match goal with H : Forall binding_texts bs |- _ => induction H as [|b bs [] _ IH] end; cbn; [done|]. rewrite IH. f_equal. unfold json_binding. rewrite !json_text_id by done. by destruct b.
Qed.

Lemma plans_on_disk_id f : texts_kept f -> plans_on_disk f = f.
Proof.
  destruct f as [[s|]|]; try done. cbn. intros Hs. unfold json_plans.
  assert (json_item <$> map_to_list (pf_Plans s) = map_to_list (pf_Plans s)) as ->.
  { rewrite <- (list_fmap_id (map_to_list (pf_Plans s))) at 2. apply list_fmap_ext. intros i [id p] Hi%list_elem_of_lookup_2%elem_of_map_to_list.
    destruct (Hs _ _ Hi) as [Hid Hp]. unfold json_item. cbn. by rewrite json_text_id, json_plan_id. }
  rewrite bool_decide_eq_true_2 by apply NoDup_fst_map_to_list. rewrite list_to_map_to_list. by destruct s.
Qed.

(** Whatever is read from a disk has such texts, so this is no condition on files. *)
Lemma binding_texts_json b : binding_texts (json_binding b).
Proof. split; apply json_text_valid. Qed.
Lemma texts_kept_on_disk f : texts_kept (plans_on_disk f).
Proof.
  destruct f as [[s|]|]; try done. cbn. destruct (json_plans s) as [s'|] eqn:E; [|done]. unfold json_plans in E. case_bool_decide; [|done]. injection E as <-.
  intros id p Hl. cbn in Hl. apply elem_of_list_to_map_2, list_elem_of_fmap in Hl as ([id0 p0] & [= -> ->] & _). split; [apply json_text_valid|].
  split; try apply json_text_valid. apply Forall_fmap, Forall_forall. intros b _. apply binding_texts_json.
Qed.

Lemma selector_texts raw branch : normalizePlanBranch raw = Ok branch -> utf8 branch.
Proof.
  intros [->|(name & H%explicit_branch_bytes & ->)]%NormalizeSelector_inv; [done|]. unfold utf8, ValidString. apply ascii_valid, Forall_forall.
  assert (forallb branch_byte (bytes (selector name)) = true) as Hb by (unfold selector; destruct (HasPrefix _ _); [by rewrite bytes_app, forallb_app, H|done]).
  rewrite forallb_forall in Hb. intros a Ha%list_elem_of_In%Hb%branch_byte_not_space. unfold in_range. apply andb_true_iff. rewrite !N.leb_le. lia.
Qed.
Lemma display_texts value kind u : validateDisplayName value kind = Ok u -> utf8 value.
Proof. unfold validateDisplayName, utf8. intros H. simplify_result. by simplify_guards. Qed.
Lemma path_texts value u : validatePathName value = Ok u -> utf8 value.
Proof. unfold validatePathName, utf8. intros H. simplify_result. by simplify_guards. Qed.
Lemma random_texts prefix random id : forallb identifier_byte (bytes prefix) = true -> String.length prefix <= 64 -> sixteen random ->
  randomPlanID prefix random = Ok id -> utf8 id.
Proof.
  intros Hp Hl Hr H. destruct (random_valid prefix "plan" random id Hp Hl Hr H) as [Hv _]. unfold validateOpaqueID in Hv. simplify_result. by simplify_guards.
Qed.

Lemma put_plan_texts s plan : file_texts s -> plan_texts plan -> file_texts (put_plan plan s).
Proof. intros Hs Hp. apply map_Forall_insert_2; [|done]. split; [by apply pt_id|done]. Qed.

Section Runs.
Context (h : host).

#[local] Hint Extern 0 (DurableStore planFile) => exact (plans_store h) : typeclass_instances.
#[local] Existing Instance plans_laws.

Lemma plans_ordered : ordered NoTemp plans_writer = true.
Proof. done. Qed.

(** The request that [Bind] passes on. *)
Definition given_texts (req : BindRequest) : Prop :=
  utf8 (TrimSpace (rq_BucketID req)) /\ utf8 (TrimSpace (rq_BucketName req)) /\ utf8 (filepath_Abs h (rq_Source req)).
Lemma bind_args w now random stat req f r f' : given_texts req -> Bind h w now random stat req f = (r, f') ->
  (f' = f /\ is_ok r = false) \/
  exists req', request_ok req' /\ request_texts req' /\ withFile h w true (bindLocked h now random req' (rq_Branch req') (rq_Source req')) f = (r, f').
Proof.
  intros (Ht1 & Ht2 & Ht3). unfold Bind, checked. match goal with |- context [match ?x with Ok _ => _ | Err _ => _ end] => destruct x as [req'|e] eqn:E end; intros H; [|by left; simplify_eq].
  right. exists req'. split; [|split; [|done]]; cbn in E; simplify_result; [|by unfold request_texts; cbn; split_and!; eauto using selector_texts, display_texts, path_texts].
  simplify_guards. rewrite !is_empty_false in *. unfold request_ok. cbn.
  match goal with H : normalizePlanBranch _ = Ok _ |- _ => pose proof (NormalizeSelector_idemp_lemma _ _ H) as Hb; apply NormalizeSelector_inv in H; rename H into Hinv end.
  match goal with H : validateDisplayName ?n _ = Ok _ |- _ => assert (n <> EmptyString) as Hname by (intros En; rewrite En in H; by vm_compute in H) end.
  match goal with H : validatePathName ?n = Ok _ |- _ => assert (n <> EmptyString) as Hpath by (intros En; rewrite En in H; by vm_compute in H) end.
  split_and!; try done; [apply filepath_Abs_nonempty|unfold normalizePlanBranch; by rewrite Hb|].
  destruct Hinv as [->|(raw & Hok & ->)]; [done|]. intros Es. destruct (selector_not_main raw Hok) as [? _]. congruence.
Qed.

(** One call, by any process, with any failures.  The random bytes that [Bind]
    draws for a new plan do not repeat an earlier identity, and the texts that
    a call has stored are valid UTF-8: the plan of an import, the message of a
    schedule, the Bucket and the absolute path of a binding. *)
Inductive step (f f' : plans_file) : Prop :=
  | step_bind w now random stat req r : now <> 0%Z -> sixteen random.1 -> sixteen random.2 -> given_texts req ->
      (forall s id, view f = Some s -> randomPlanID "plan" random.1 = Ok id -> pf_Plans s !! id = None) ->
      Bind h w now random stat req f = (r, f') -> step f f'
  | step_set w now selector every enabled message r : utf8 (TrimSpace message) -> SetSchedule h w now selector every enabled message f = (r, f') -> step f f'
  | step_clear w now selector r : ClearSchedule h w now selector f = (r, f') -> step f f'
  | step_import w plan r : plan_texts plan -> ImportRestored h w plan f = (r, f') -> step f f'
  | step_open w path r : OpenPlanStore h w path f = (r, f') -> step f f'
  | step_list w r : List_plans h w f = (r, f') -> step f f'
  | step_get w selector r : GetPlan h w selector f = (r, f') -> step f f'
  | step_find w bucketID branch r : FindTarget h w bucketID branch f = (r, f') -> step f f'.

Lemma file_cases {A} w (op : planFile -> result (A * planFile)) f r f' : withFile h w true op f = (r, f') ->
  (f' = f /\ is_ok r = false) \/ exists s a s', view f = Some s /\ op s = Ok (a, s') /\ f' = Some (Decodes s') /\ (is_ok r = true -> r = Ok a).
Proof.
  intros H. apply (with_state_cases _ plans_ordered) in H as [H|(s & a & s' & Hv & Hop & -> & Hr)]; [by left|]. right. exists s, a, s'. split_and!; try done.
  intros Ho. destruct r; [|done]. naive_solver.
Qed.

Lemma file_reads {A} w (op : planFile -> result (A * planFile)) f r f' : withFile h w false op f = (r, f') -> f' = f.
Proof. intros H. by apply (with_state_inv _ plans_ordered) in H as [[->|(? & ? & ? & ? & _)] _]. Qed.

Lemma checked_cases {A B} (args : result A) f (body : A -> result B * plans_file) r f' : checked args f body = (r, f') ->
  (f' = f /\ is_ok r = false) \/ exists a, args = Ok a /\ body a = (r, f').
Proof. unfold checked. destruct args as [a|e]; intros H; [right; eauto|left; by simplify_eq]. Qed.

Lemma file_loads {A} w (op : planFile -> result (A * planFile)) f r f' : withFile h w true op f = (r, f') ->
  (forall s a s', view f = Some s -> wf h s -> op s = Ok (a, s') -> wf h s') -> loads f -> loads f'.
Proof.
  intros H Hop Hf. apply file_cases in H as [[-> _]|(s & a & s' & Hv & Hs & -> & _)]; [done|]. apply loads_Decodes. eapply Hop; [exact Hv| |exact Hs]. exact (view_wf _ _ Hv).
Qed.

Lemma step_loads f f' : step f f' -> loads f -> loads f'.
Proof.
  destruct 1 as [w now random stat req r Hnow H1 H2 Htexts Hfresh H|w now sel every enabled message r _ H|w now sel r H|w plan r _ H|w path r H|w r H|w sel r H|w bucketID branch r H]; intros Hf.
  - apply (bind_args _ _ _ _ _ _ _ _ Htexts) in H as [[-> _]|(req' & Hreq & _ & H)]; [done|]. eapply (file_loads _ _ _ _ _ H); [|done]. intros s a s' Hv Hw Hs.
    eapply (bindLocked_wf h now random req' s); eauto.
  - apply checked_cases in H as [[-> _]|(a & _ & H)]; [done|]. eapply (file_loads _ _ _ _ _ H); [|done]. intros s a' s' _ Hw Hs. by eapply scheduleLocked_wf.
  - eapply (file_loads _ _ _ _ _ H); [|done]. intros s a' s' _ Hw Hs. by eapply scheduleLocked_wf.
  - apply checked_cases in H as [[-> _]|(a & Ha & H)]; [done|]. simplify_result. match goal with H : validatePlan h plan = Ok ?u |- _ => destruct u; apply validatePlan_iff in H; rename H into Hok end.
    eapply (file_loads _ _ _ _ _ H); [|done]. intros s a' s' _ Hw Hs. by eapply importLocked_wf.
  - apply checked_cases in H as [[-> _]|(a & _ & H)]; [done|]. by apply file_reads in H as ->.
  - by apply file_reads in H as ->.
  - unfold GetPlan in H. apply checked_cases in H as [[-> _]|(a & _ & H)]; [done|]. destruct (withFile _ _ _ _ _) as [r0 f0] eqn:E. apply file_reads in E as ->. by simplify_eq.
  - apply checked_cases in H as [[-> _]|(a & _ & H)]; [done|]. by apply file_reads in H as ->.
Qed.

(** ** What a call stores is UTF-8 *)
Lemma file_keeps {A} w (op : planFile -> result (A * planFile)) f r f' : withFile h w true op f = (r, f') ->
  (forall s a s', file_texts s -> op s = Ok (a, s') -> file_texts s') -> texts_kept f -> texts_kept f'.
Proof.
  intros H Hop Hf. apply file_cases in H as [[-> _]|(s & a & s' & Hv & Hs & -> & _)]; [done|]. cbn. eapply Hop; [|exact Hs].
  destruct f as [[s0|]|]; [|done|injection Hv as <-; apply map_Forall_empty]. 
  unfold view in Hv. cbn in Hv. destruct (decode h s0) as [s1|e] eqn:Ed; [|done]. injection Hv as <-. apply plans_decode_iff in Ed as [-> _]. exact Hf.
Qed.

Lemma scheduleLocked_texts selector every enabled message now s r s' : utf8 message ->
  file_texts s -> scheduleLocked selector every enabled message now s = Ok (r, s') -> file_texts s'.
Proof.
  intros Hm Hs H. unfold scheduleLocked in H. simplify_result. match goal with H : selectPlan _ _ = Ok (?id, ?p) |- _ => apply selectPlan_found in H; destruct (Hs _ _ H) as [Hid []] end.
  by apply map_Forall_insert_2.
Qed.

Lemma bindLocked_texts now random req s r s' : sixteen random.1 -> sixteen random.2 -> request_texts req ->
  file_texts s -> bindLocked h now random req (rq_Branch req) (rq_Source req) s = Ok (r, s') -> file_texts s'.
Proof.
  intros H1 H2 (Hb & Hbn & Hbr & Hn & Hsrc & Hpn) Hs H. unfold bindLocked in H. set (found := List.find _ _) in H.
  apply bind_Ok in H as ([] & _ & H). apply bind_Ok in H as ([] & _ & H). apply bind_Ok in H as (plan & Hplan & H).
  apply bind_Ok in H as ([] & _ & H). apply bind_Ok in H as (bid & Hbid & H). injection H as <- <-. apply put_plan_texts; [done|].
  assert (plan_texts plan) as [].
  { destruct found as [[id p]|] eqn:Ef.
    - injection Hplan as <-. apply find_some in Ef as [Hin%list_elem_of_In%elem_of_map_to_list _]. apply (Hs _ _ Hin).
    - unfold new_plan in Hplan. cbv zeta in Hplan. simplify_result. split; cbn; try done; [eapply (random_texts "plan"); [done|cbn; lia|exact H1|done]|by eapply display_texts]. }
  split; cbn; try done. unfold sort_by_string. rewrite (sort_by_Permutation b_Name String.leb). apply Forall_app. split; [done|]. constructor; [|done].
  split; try done. eapply (random_texts "binding"); [done|cbn; lia|exact H2|done].
Qed.

Lemma step_texts f f' : step f f' -> texts_kept f -> texts_kept f'.
Proof.
  destruct 1 as [w now random stat req r Hnow H1 H2 Htexts Hfresh H|w now sel every enabled message r Hm H|w now sel r H|w plan r Hp H|w path r H|w r H|w sel r H|w bucketID branch r H]; intros Hf.
  - apply (bind_args _ _ _ _ _ _ _ _ Htexts) in H as [[-> _]|(req' & _ & Hreq & H)]; [done|]. eapply (file_keeps _ _ _ _ _ H); [|done]. intros s a s'. by apply bindLocked_texts.
  - apply checked_cases in H as [[-> _]|(a & _ & H)]; [done|]. eapply (file_keeps _ _ _ _ _ H); [|done]. intros s a' s'. by apply scheduleLocked_texts.
  - eapply (file_keeps _ _ _ _ _ H); [|done]. intros s a' s'. by apply scheduleLocked_texts.
  - apply checked_cases in H as [[-> _]|(a & _ & H)]; [done|]. eapply (file_keeps _ _ _ _ _ H); [|done]. intros s a' s' Hs Hi. unfold importLocked in Hi.
    simplify_result. by apply put_plan_texts.
  - apply checked_cases in H as [[-> _]|(a & _ & H)]; [done|]. by apply file_reads in H as ->.
  - by apply file_reads in H as ->.
  - unfold GetPlan in H. apply checked_cases in H as [[-> _]|(a & _ & H)]; [done|]. destruct (withFile _ _ _ _ _) as [r0 f0] eqn:E. apply file_reads in E as ->. by simplify_eq.
  - apply checked_cases in H as [[-> _]|(a & _ & H)]; [done|]. by apply file_reads in H as ->.
Qed.

(** A call and the document that it leaves. *)
Definition stored_step (f f' : plans_file) : Prop := exists f0, step f f0 /\ f' = plans_on_disk f0.

Lemma stored_steps_load f f' : rtc stored_step f f' -> texts_kept f -> loads f -> loads f'.
Proof.
  induction 1 as [|f f1 f' (f0 & Hs & ->) _ IH]; [done|]. intros Ht Hf. pose proof (step_texts _ _ Hs Ht) as Ht0. rewrite plans_on_disk_id in IH by done.
  apply IH; [done|]. by apply (step_loads f).
Qed.

(** ** All bindings of all plans *)
Lemma pairs_concat {A} (R : A -> A -> Prop) (ls : list (list A)) : Forall (ForallOrdPairs R) ls ->
  ForallOrdPairs (fun l l' => forall a b, a ∈ l -> b ∈ l' -> R a b) ls -> ForallOrdPairs R (concat ls).
Proof.
  intros Hf Hp. induction Hp as [|l ls Hl Hp IH]; cbn; [constructor|]. apply Forall_cons in Hf as [Hfl Hf]. specialize (IH Hf).
  assert (forall a b, a ∈ l -> b ∈ concat ls -> R a b) as Hx.
  { intros a b Ha (l' & Hl' & Hb%list_elem_of_In)%list_elem_of_In%in_concat. rewrite Forall_forall in Hl. apply list_elem_of_In in Hl'. by eapply Hl. }
  clear Hl. induction Hfl as [|a l Ha Hfl IHl]; cbn; [done|]. constructor.
  - apply Forall_app. split; [done|]. apply Forall_forall. intros b Hb. apply Hx; [by left|done].
  - apply IHl. intros a' b Ha' Hb. apply Hx; [by right|done].
Qed.

Lemma wf_all_disjoint s : wf h s -> ForallOrdPairs (disjoint h) (all_bindings s).
Proof.
  intros Hw. unfold all_bindings. apply pairs_concat.
  - apply Forall_fmap, Forall_forall. intros [id p] Hp%elem_of_map_to_list. apply (po_disjoint _ _ (proj2 (wf_plans _ _ Hw _ _ Hp))).
  - apply pairs_map; [intros l l' H a b Ha Hb; by apply binding_disjoint_sym, H|apply NoDup_map_to_list|].
    intros [id1 p1] [id2 p2] H1%elem_of_map_to_list H2%elem_of_map_to_list Hne a b. cbn. apply (wf_disjoint _ _ Hw id1 id2 p1 p2); [done|done|]. intros ->. apply Hne. congruence.
Qed.

Lemma wf_find_target s bucketID branch : wf h s -> is_ok (findTargetLocked bucketID branch s) = true.
Proof.
  intros Hw. unfold findTargetLocked. destruct (List.filter _ _) as [|[id1 p1] [|[id2 p2] l]] eqn:E; [done|done|].
  assert (forall x, x ∈ (id1, p1) :: (id2, p2) :: l -> on_target bucketID branch x = true /\ pf_Plans s !! x.1 = Some x.2) as Hx.
  { intros x. rewrite <- E, list_elem_of_In, filter_In, <- list_elem_of_In. destruct x. rewrite elem_of_map_to_list. naive_solver. }
  destruct (Hx (id1, p1)) as [T1 L1]; [by left|]. destruct (Hx (id2, p2)) as [T2 L2]; [by right; left|]. unfold on_target in *. cbn in *. simplify_guards.
  assert (NoDup ((id1, p1) :: (id2, p2) :: l)) as Hd by (rewrite <- E; apply NoDup_ListNoDup, List.NoDup_filter, NoDup_ListNoDup, NoDup_map_to_list).
  apply NoDup_cons in Hd as [Hn _]. destruct (decide (id1 = id2)) as [->|Hne]; [destruct Hn; rewrite L1 in L2; injection L2 as <-; by left|]. destruct (wf_targets _ _ Hw _ _ _ _ L1 L2 Hne). split; congruence.
Qed.

(** C23. While symbolic links and the working directory stay as they are,
    and every text that the calls store is valid UTF-8 (paths, Bucket names,
    messages: other bytes come back changed from the JSON document), whatever
    calls the processes of a host make on the plan store, and whichever of
    their system calls fail, a file that loaded still loads from its document:
    its plans are valid, a plan is found for a Bucket branch without ambiguity,
    and the directories that any two bindings of any plans name are apart,
    neither inside the other once symbolic links are resolved. *)
Theorem bound_directories_stay_disjoint f f' :
  plans_on_disk f = f -> loads f -> rtc stored_step f f' ->
  exists s, view f' = Some s /\ OpenPlanStore h io_ok "plans.json" f' = (Ok (), f') /\
    map_Forall (fun id plan => id = p_ID plan /\ validatePlan h plan = Ok ()) (pf_Plans s) /\
    (forall bucketID branch, is_ok (findTargetLocked bucketID branch s) = true) /\
    ForallOrdPairs (fun a b => bindingSourcesOverlap h (b_Source a) (b_Source b) = Ok false) (all_bindings s).
Proof.
  intros Hd Hf H. assert (texts_kept f) as Ht by (rewrite <- Hd; apply texts_kept_on_disk). pose proof (stored_steps_load _ _ H Ht Hf) as Hl. clear Hd. destruct (loads_view _ Hl) as [s Hv]. pose proof (view_wf _ _ Hv) as Hw. exists s. split_and!; [done| | | |].
  - unfold OpenPlanStore, checked. cbn. unfold withFile. by erewrite (with_state_ok _ plans_ordered).
  - intros id plan Hp. destruct (wf_plans _ _ Hw _ _ Hp) as [Hid Hok]. split; [done|]. by apply validatePlan_iff.
  - intros bucketID branch. by apply wf_find_target.
  - pose proof (wf_all_disjoint s Hw) as Hd. induction Hd as [|a l Ha Hd IH]; constructor; [|done]. eapply Forall_impl; [exact Ha|].
    intros b (H1 & H2 & H3). unfold bindingSourcesOverlap. by rewrite bool_decide_eq_false_2, H2, H3.
Qed.

(** ** What a bind leaves *)
Lemma valid_id_trimmed id kind : validateOpaqueID id kind = Ok () -> TrimSpace id = id /\ id <> EmptyString.
Proof. unfold validateOpaqueID. intros H. simplify_result. simplify_guards. by rewrite is_empty_false in *. Qed.

Lemma get_recorded f s id plan : view f = Some s -> pf_Plans s !! id = Some plan -> GetPlan h io_ok id f = (Ok plan, f).
Proof.
  intros Hv Hp. pose proof (view_wf _ _ Hv) as Hw. destruct (wf_plans _ _ Hw _ _ Hp) as [-> Hok]. destruct (valid_id_trimmed _ _ (po_id _ _ Hok)) as [Ht Hne].
  unfold GetPlan, checked. rewrite Ht. rewrite (proj2 (is_empty_false _) Hne). cbn. unfold withFile.
  erewrite (with_state_ok _ plans_ordered false); [| |unfold getLocked; by rewrite Hp]; done.
Qed.

Lemma bindLocked_result now random req s plan b s' : bindLocked h now random req (rq_Branch req) (rq_Source req) s = Ok ((plan, b), s') ->
  s' = put_plan plan s /\ b ∈ p_Bindings plan /\ b_Source b = rq_Source req.
Proof.
  intros H. unfold bindLocked in H. set (found := List.find _ _) in H. apply bind_Ok in H as ([] & _ & H). apply bind_Ok in H as ([] & _ & H).
  apply bind_Ok in H as (plan0 & _ & H). apply bind_Ok in H as ([] & _ & H). apply bind_Ok in H as (bid & _ & H). injection H as <- <- <-. split_and!; [done| |done].
  cbn. unfold sort_by_string. rewrite (sort_by_Permutation b_Name String.leb), elem_of_app, list_elem_of_singleton. by right.
Qed.

(** A successful bind is durable: the plan that it returns holds the binding
    with the absolute path of the source, a reader that opens the file finds
    that plan, and every other plan is as it was. *)
Theorem bind_reads_back w now random stat req f plan b f' :
  loads f -> now <> 0%Z -> sixteen random.1 -> sixteen random.2 -> given_texts req ->
  (forall s id, view f = Some s -> randomPlanID "plan" random.1 = Ok id -> pf_Plans s !! id = None) ->
  Bind h w now random stat req f = (Ok (plan, b), f') ->
  b ∈ p_Bindings plan /\ b_Source b = filepath_Abs h (rq_Source req) /\ GetPlan h io_ok (p_ID plan) f' = (Ok plan, f') /\
  forall s id other, view f = Some s -> pf_Plans s !! id = Some other -> id <> p_ID plan -> GetPlan h io_ok id f' = (Ok other, f').
Proof.
  intros Hf Hnow H1 H2 Htexts Hfresh H. pose proof (step_loads _ _ (step_bind _ _ _ _ _ _ _ _ Hnow H1 H2 Htexts Hfresh H) Hf) as Hl.
  assert (exists req', rq_Source req' = filepath_Abs h (rq_Source req) /\ withFile h w true (bindLocked h now random req' (rq_Branch req') (rq_Source req')) f = (Ok (plan, b), f')) as (req' & Hsrc & Hb).
  { unfold Bind in H. apply checked_cases in H as [[_ ?]|(req' & Hreq & H)]; [done|]. exists req'. split; [|done]. cbn in Hreq. by simplify_result. }
  apply file_cases in Hb as [[_ ?]|(s & [plan0 b0] & s' & Hv & Hop & -> & Hr)]; [done|]. specialize (Hr eq_refl). injection Hr as <- <-.
  apply bindLocked_result in Hop as (-> & Hin & Hs). assert (view (Some (Decodes (put_plan plan s))) = Some (put_plan plan s)) as Hv'.
  { destruct Hl as [s1 Hd]. apply plans_decode_iff in Hd as [-> Hw]. by apply view_Decodes. }
  split_and!; [done|congruence|eapply get_recorded; [done|by cbn; rewrite lookup_insert_eq]|].
  intros s0 id other Hv0 Ho Hne. rewrite Hv in Hv0. injection Hv0 as <-. eapply get_recorded; [done|]. cbn. by rewrite lookup_insert_ne.
Qed.
End Runs.

(** * Plan stores of one host: two directories bound to two branches, and a
    nested one that is refused. *)

Module PlanScenes.

(** No symbolic links. *)
Definition plain_host : host := mkHost (fun p => Ok p) "/home".

Definition request (branch source : string) : BindRequest := mkBindRequest EmptyString "bucket" "photos" branch EmptyString source EmptyString false.
Definition stat (p : string) : result bool := Ok true.

Definition bytes_a : option string * option string := (Some "0123456789abcdef", Some "0123456789abcdeF").
Definition bytes_b : option string * option string := (Some "1123456789abcdef", Some "1123456789abcdeF").

Definition first : result (Plan * Binding) * plans_file := Bind plain_host io_ok 5 bytes_a stat (request EmptyString "photos") None.
Definition second : result (Plan * Binding) * plans_file := Bind plain_host io_ok 6 bytes_b stat (request "dev" "/home/videos/") first.2.
Definition nested : result (Plan * Binding) * plans_file := Bind plain_host io_ok 7 bytes_b stat (request "old" "photos/2024") second.2.

Lemma sixteen_by o : match o with Some raw => String.length raw = 16 | None => True end -> sixteen o.
Proof. intros H raw ->. exact H. Qed.

(** The plans of a file that loads, as a computed map. *)
Definition plans_of (f : plans_file) : gmap string Plan := match view (S := plans_store plain_host) f with Some s => pf_Plans s | None => ∅ end.

Lemma fresh_by (f : plans_file) random : match randomPlanID "plan" random with Ok id => plans_of f !! id = None | Err _ => True end ->
  forall s id, view (S := plans_store plain_host) f = Some s -> randomPlanID "plan" random = Ok id -> pf_Plans s !! id = None.
Proof. intros H s id Hv Hid. rewrite Hid in H. unfold plans_of in H. by rewrite Hv in H. Qed.

Lemma texts_of req : forallb ValidString [TrimSpace (rq_BucketID req); TrimSpace (rq_BucketName req); filepath_Abs plain_host (rq_Source req)] = true ->
  given_texts plain_host req.
Proof. cbn. rewrite !andb_true_iff. unfold given_texts, utf8. naive_solver. Qed.

Lemma steps_second : rtc (stored_step plain_host) None second.2.
Proof.
  apply (rtc_l _ _ first.2); [exists first.2; split|apply rtc_once; exists second.2; split].
  - apply (step_bind _ _ _ io_ok 5 bytes_a stat (request EmptyString "photos") first.1); [done|by apply sixteen_by..|by apply texts_of|apply fresh_by; vm_compute; reflexivity|apply surjective_pairing].
  - vm_compute. reflexivity.
  - apply (step_bind _ _ _ io_ok 6 bytes_b stat (request "dev" "/home/videos/") second.1); [done|by apply sixteen_by..|by apply texts_of|apply fresh_by; vm_compute; reflexivity|apply surjective_pairing].
  - vm_compute. reflexivity.
Qed.

Lemma bound_directories_stay_disjoint_witness :
  (b_Source <$> (concat ((fun item : string * Plan => p_Bindings item.2) <$> map_to_list (plans_of second.2)))) ≡ₚ ["/home/photos"; "/home/videos"] /\
  is_ok nested.1 = false /\
  exists s, view (S := plans_store plain_host) second.2 = Some s /\
    ForallOrdPairs (fun a b => bindingSourcesOverlap plain_host (b_Source a) (b_Source b) = Ok false) (all_bindings s).
Proof.
  split_and!; [vm_compute; apply Permutation_refl || (apply perm_swap)|vm_compute; reflexivity|].
  destruct (bound_directories_stay_disjoint plain_host None second.2 eq_refl I steps_second) as (s & Hv & _ & _ & _ & Hd). exists s. split; [exact Hv|exact Hd].
Defined.

Lemma bind_reads_back_witness : exists plan b, first.1 = Ok (plan, b) /\ b_Source b = "/home/photos" /\ GetPlan plain_host io_ok (p_ID plan) first.2 = (Ok plan, first.2).
Proof.
  destruct first as [[[plan b]|e] f1] eqn:E; [|exfalso; apply (f_equal (fun x => is_ok x.1)) in E; vm_compute in E; discriminate].
  exists plan, b. unfold first in E.
  destruct (bind_reads_back plain_host io_ok 5 bytes_a stat (request EmptyString "photos") None plan b f1) as (_ & Hs & Hg & _);
    [done|done|by apply sixteen_by|by apply sixteen_by|by apply texts_of|apply fresh_by; vm_compute; reflexivity|exact E|].
  split_and!; [done|rewrite Hs; vm_compute; reflexivity|exact Hg].
Defined.
End PlanScenes.
