(* ===== verification/PlanManifest.v ===== *)
(** The manifest of a backup plan (application/backup/plan_manifest.go,
    service.go, plan_restore.go): what a dataset says about the plan it belongs
    to, the checks of it, and the checks of local paths against the state of the
    runtime. *)

From stdpp Require Import base decidable gmap strings list.
From Stdlib Require Import Ascii ZArith Lia Permutation.
From S2P Require Import Prelude GoText CidLib Branch Durable NodeApi BucketSync Registry PlainTree Install History Plans PlansFacts.

Record manifestBinding := mkManifestBinding { mb_ID : string; mb_Name : string; mb_PathName : string }.
Record planManifest := mkPlanManifest {
  pm_Version : Z; pm_PlanID : string; pm_PlanName : string; pm_Branch : string; pm_Bindings : list manifestBinding
}.

#[global] Instance manifestBinding_eq_dec : EqDecision manifestBinding.
Proof. solve_decision. Defined.

Definition manifest_of_binding (b : Binding) : manifestBinding := mkManifestBinding (b_ID b) (b_Name b) (b_PathName b).

(** The value that [manifestData] encodes. *)
Definition manifestData (plan : Plan) : planManifest :=
  mkPlanManifest 1 (p_ID plan) (p_Name plan) (p_Branch plan) (manifest_of_binding <$> p_Bindings plan).

(** unixfs/encrypted/profile.go and reader.go. *)
Record BindingManifest := mkBindingManifest { bm_ID : string; bm_Name : string; bm_PathName : string; bm_Token : string }.
Record DatasetManifest := mkDatasetManifest {
  dm_Profile : string; dm_Version : Z; dm_DatasetID : string; dm_PlanID : string; dm_DatasetName : string; dm_Branch : string;
  dm_Bindings : list BindingManifest
}.

Definition planManifestFromDataset (m : DatasetManifest) : planManifest :=
  mkPlanManifest 1 (dm_PlanID m) (dm_DatasetName m) (dm_Branch m)
    ((fun b => mkManifestBinding (bm_ID b) (bm_Name b) (bm_PathName b)) <$> dm_Bindings m).

(** The loop of [validatePlanManifest] with the path names seen. *)
Definition check_manifest_binding (local : gmap string Binding) (seenNames : gset string) (b : manifestBinding) : result (gset string) :=
  _ ← fail_if (match local !! mb_ID b with
               | None => true
               | Some l => negb (bool_decide (mb_Name b = b_Name l)) || negb (bool_decide (mb_PathName b = b_PathName l))
               end) (Errorf "remote backup plan binding does not match local plan metadata");
  _ ← validatePathName (mb_PathName b);
  _ ← fail_if (bool_decide (mb_PathName b ∈ seenNames)) (Errorf "remote backup plan has duplicate path names");
  Ok ({[mb_PathName b]} ∪ seenNames).

(** The map is filled in order, so the last binding of an identity stays. *)
Definition local_bindings (plan : Plan) : gmap string Binding :=
  foldl (fun m b => <[b_ID b := b]> m) ∅ (p_Bindings plan).

Definition validatePlanManifest (m : planManifest) (local : Plan) : result unit :=
  _ ← fail_if (negb (bool_decide (pm_Version m = 1%Z)) || negb (bool_decide (pm_PlanID m = p_ID local)) ||
               negb (bool_decide (pm_PlanName m = p_Name local)) || negb (bool_decide (pm_Branch m = p_Branch local)) ||
               bool_decide (pm_Bindings m = []))
        (Errorf "remote backup plan manifest does not match the selected local plan");
  _ ← foldM (check_manifest_binding (local_bindings local)) ∅ (pm_Bindings m);
  fail_if (negb (length (pm_Bindings m) =? size (local_bindings local)))
    (Errorf "remote backup plan binding count does not match local plan metadata").

Definition validateDatasetIdentity (m : DatasetManifest) (plan : Plan) : result unit :=
  fail_if (negb (bool_decide (dm_DatasetID m = p_BucketID plan)) || negb (bool_decide (dm_PlanID m = p_ID plan)) ||
           negb (bool_decide (dm_Branch m = p_Branch plan)))
    (Errorf "remote encrypted filesystem does not match the selected local plan").
Definition validateDatasetForPlan (m : DatasetManifest) (plan : Plan) : result unit :=
  _ ← validateDatasetIdentity m plan; validatePlanManifest (planManifestFromDataset m) plan.

(** A manifest of a branch whose plan is not known here. *)
Record discovered := mkDiscovered { dc_IDs : gset string; dc_Names : gset string; dc_Paths : gset string }.
Definition check_discovered (acc : discovered) (b : manifestBinding) : result discovered :=
  _ ← validateOpaqueID (mb_ID b) "binding";
  _ ← validateDisplayName (mb_Name b) "binding";
  _ ← validatePathName (mb_PathName b);
  _ ← fail_if (bool_decide (mb_ID b ∈ dc_IDs acc)) (Errorf "remote backup plan has duplicate binding IDs");
  _ ← fail_if (bool_decide (mb_Name b ∈ dc_Names acc)) (Errorf "remote backup plan has duplicate binding names");
  _ ← fail_if (bool_decide (mb_PathName b ∈ dc_Paths acc)) (Errorf "remote backup plan has duplicate path names");
  Ok (mkDiscovered ({[mb_ID b]} ∪ dc_IDs acc) ({[mb_Name b]} ∪ dc_Names acc) ({[mb_PathName b]} ∪ dc_Paths acc)).

Definition validateDiscoveredPlanManifest (m : planManifest) (branch : string) : result unit :=
  _ ← fail_if (negb (bool_decide (pm_Version m = 1%Z)) || is_empty (pm_PlanID m) || is_empty (pm_PlanName m) ||
               negb (bool_decide (pm_Branch m = branch)) || bool_decide (pm_Bindings m = []))
        (Errorf "remote backup plan manifest is incomplete or targets another branch");
  _ ← validateOpaqueID (pm_PlanID m) "plan";
  _ ← validateDisplayName (pm_PlanName m) "plan";
  _ ← foldM check_discovered (mkDiscovered ∅ ∅ ∅) (pm_Bindings m);
  Ok ().

(** ** Names *)
Definition PlanRootAlias (bucketID branch : string) : string := "backup:" +:+ TrimSpace bucketID +:+ ":" +:+ TrimSpace branch.
Definition observationSource (datasetID : string) : string := "dataset:" +:+ TrimSpace datasetID.

Definition firstBranchedStash (ws : Workspace) : option Stash := List.find is_branched (ws_Stashes ws).

(** ** Local paths *)
Definition ErrProtectedSource := ErrorsNew "backup source contains MALT runtime key or state".

Section Paths.
Context (h : host).

Definition ValidateSource (source : string) (protected : list string) : result unit :=
  foldM (fun _ candidate =>
    if is_empty (TrimSpace candidate) then Ok () else
    overlap ← wrap_err "compare backup source and protected runtime path" (bindingSourcesOverlap h source candidate);
    fail_if overlap (Wrapf "choose a narrower source" ErrProtectedSource)) () protected.

(** [home] is [os.UserHomeDir], if it is known. *)
Definition validateRestoreDestination (home : option string) (destination : string) (protected : list string) (bindings : list Binding)
    : result unit :=
  _ ← fail_if (is_empty destination) (Errorf "restore destination is empty");
  let destination := filepath_Abs h destination in
  _ ← fail_if (bool_decide (destination = "/")) (Errorf "restore destination must not be a filesystem root");
  _ ← match home with
      | None => Ok ()
      | Some home =>
          overlap ← bindingSourcesOverlap h home destination;
          fail_if (overlap && bool_decide (destination = path_Clean home)) (Errorf "restore destination must not replace the user home directory")
      end;
  _ ← foldM (fun _ candidate =>
         if is_empty (TrimSpace candidate) then Ok () else
         overlap ← bindingSourcesOverlap h destination candidate;
         fail_if overlap (Errorf "restore destination overlaps protected MALT runtime state")) () protected;
  foldM (fun _ b =>
    overlap ← bindingSourcesOverlap h destination (b_Source b);
    fail_if overlap (Errorf "restore destination overlaps binding")) () bindings.
End Paths.

(** ** The bindings to back up *)
Definition changedBindings (bindings : list Binding) (current previous : gmap string string) : list Binding :=
  List.filter (fun b => negb (bool_decide (default EmptyString (current !! b_ID b) = default EmptyString (previous !! b_ID b)))) bindings.
Definition bindingNames (values : list Binding) : list string := sort_by_string id (b_Name <$> values).
Definition cloneFingerprints (values : gmap string string) : gmap string string := values.

Section Digests.
Context {SH : Sha256}.
Definition zero_byte : list ascii := [Ascii.zero].
Definition combined_bytes (values : gmap string string) : list ascii :=
  concat ((fun item : string * string => bytes item.1 ++ zero_byte ++ bytes item.2 ++ zero_byte) <$>
    sort_by_string fst (map_to_list values)).
Definition combinedFingerprint (values : gmap string string) : string := sha256_hex (combined_bytes values).
End Digests.

(** * A manifest is accepted for a plan exactly when it describes the bindings of
    the plan. *)

#[local] Notation add_local := (fun (m : gmap string Binding) (b : Binding) => <[b_ID b := b]> m).

Lemma add_local_lookup l : NoDup (b_ID <$> l) -> forall m id b, (forall x, x ∈ l -> m !! b_ID x = None) ->
  foldl add_local m l !! id = Some b <-> m !! id = Some b \/ (b ∈ l /\ b_ID b = id).
Proof.
  induction l as [|x l IH]; cbn; intros Hnd m id b Hm; [set_solver|]. apply NoDup_cons in Hnd as [Hx Hnd]. rewrite IH; [|done|].
  - rewrite lookup_insert_Some, elem_of_cons. split.
    + intros [[[<- <-]|[_ ?]]|[? ?]]; [right; split; [by left|done]|by left|right; split; [by right|done]].
    + intros [H|[[->|Hb] <-]]; [|by left; left|by right]. left; right. split; [|done]. intros E. rewrite <- E, Hm in H by (by left). done.
  - intros y Hy. rewrite lookup_insert_ne; [apply Hm; by right|]. intros E. apply Hx. rewrite E. by apply list_elem_of_fmap_2.
Qed.

Lemma add_local_size l : NoDup (b_ID <$> l) -> forall m, (forall x, x ∈ l -> m !! b_ID x = None) -> size (foldl add_local m l) = size m + length l.
Proof.
  induction l as [|x l IH]; cbn; intros Hnd m Hm; [lia|]. apply NoDup_cons in Hnd as [Hx Hnd]. rewrite IH; [|done|].
  - rewrite map_size_insert_None by (apply Hm; by left). lia.
  - intros y Hy. rewrite lookup_insert_ne; [apply Hm; by right|]. intros E. apply Hx. rewrite E. by apply list_elem_of_fmap_2.
Qed.

Lemma local_lookup plan id b : NoDup (b_ID <$> p_Bindings plan) -> local_bindings plan !! id = Some b <-> b ∈ p_Bindings plan /\ b_ID b = id.
Proof. intros H. unfold local_bindings. rewrite (add_local_lookup _ H ∅ id b); [by rewrite lookup_empty; naive_solver|]. intros x _. apply lookup_empty. Qed.
Lemma local_size plan : NoDup (b_ID <$> p_Bindings plan) -> size (local_bindings plan) = length (p_Bindings plan).
Proof. intros H. unfold local_bindings. rewrite (add_local_size _ H); [done|]. intros x _. apply lookup_empty. Qed.

Lemma check_manifest_iff local l : forall seen, (exists seen', foldM (check_manifest_binding local) seen l = Ok seen') <->
  Forall (fun b => (exists x, local !! mb_ID b = Some x /\ mb_Name b = b_Name x /\ mb_PathName b = b_PathName x) /\ validatePathName (mb_PathName b) = Ok ()) l /\
  NoDup (mb_PathName <$> l) /\ Forall (fun b => mb_PathName b ∉ seen) l.
Proof.
  induction l as [|b l IH]; intros seen; cbn [foldM fmap list_fmap].
  { split; [|eauto]. intros _. by repeat (split || constructor). }
  rewrite NoDup_cons, !Forall_cons. split.
  - intros (seen' & H). apply bind_Ok in H as (seen1 & Hb & H). unfold check_manifest_binding in Hb. simplify_result.
    destruct (local !! mb_ID b) as [x|] eqn:Ex; [|done]. simplify_guards. apply (ex_intro (fun a => _ = Ok a) seen') in H. apply IH in H as (F & N & Fs). rewrite Forall_forall in Fs.
    split_and!; try done.
    + eauto.
    + by destruct (validatePathName (mb_PathName b)) as [[]|].
    + intros (c & E & Hc)%list_elem_of_fmap. specialize (Fs c Hc). set_solver.
    + apply Forall_forall. intros c Hc. specialize (Fs c Hc). set_solver.
  - intros ([((x & Hx & E1 & E2) & Hv) F] & [N1 N] & [Hs Fs]).
    assert (check_manifest_binding local seen b = Ok ({[mb_PathName b]} ∪ seen)) as ->.
    { unfold check_manifest_binding. rewrite Hx, E1, <- E2. rewrite (bool_decide_eq_true_2 (b_Name x = b_Name x)), (bool_decide_eq_true_2 (mb_PathName b = mb_PathName b)), Hv by done. cbn. by rewrite bool_decide_eq_false_2. }
    cbn. apply IH. split_and!; [done|done|]. rewrite Forall_forall in *. intros c Hc. rewrite not_elem_of_union, not_elem_of_singleton. split; [|by apply Fs].
    intros E. apply N1. rewrite <- E. by apply list_elem_of_fmap_2.
Qed.

(** A dataset is accepted for a plan exactly when its manifest is about that
    plan: for a plan whose bindings have distinct identities and path names, the
    check passes if and only if version, plan, name and branch are those of the
    plan and the manifest lists its bindings, each once and no other, under
    portable path names. *)
Theorem manifest_describes_plan (m : planManifest) (plan : Plan) :
  NoDup (b_ID <$> p_Bindings plan) -> NoDup (b_PathName <$> p_Bindings plan) ->
  validatePlanManifest m plan = Ok () <->
  pm_Version m = 1%Z /\ pm_PlanID m = p_ID plan /\ pm_PlanName m = p_Name plan /\ pm_Branch m = p_Branch plan /\ p_Bindings plan <> [] /\
  Forall (fun b => validatePathName (b_PathName b) = Ok ()) (p_Bindings plan) /\ pm_Bindings m ≡ₚ manifest_of_binding <$> p_Bindings plan.
Proof.
  intros Hid Hpath. assert (NoDup (manifest_of_binding <$> p_Bindings plan)) as Hnd.
  { apply (NoDup_fmap_1 mb_PathName). by rewrite <- list_fmap_compose. }
  unfold validatePlanManifest. split.
  - intros H. simplify_result. simplify_guards. rewrite local_size in * by done. match goal with H : (_ =? _) = true |- _ => apply Nat.eqb_eq in H end.
    match goal with H : foldM _ _ _ = Ok ?a |- _ => destruct (proj1 (check_manifest_iff _ _ ∅) (ex_intro _ a H)) as (F & N & _) end. rewrite Forall_forall in F.
    assert (pm_Bindings m ≡ₚ manifest_of_binding <$> p_Bindings plan) as Hp.
    { apply submseteq_length_Permutation; [|rewrite length_fmap; lia]. apply NoDup_submseteq; [by eapply NoDup_fmap_1|].
      intros b Hb. destruct (F b Hb) as [(x & Hx & E1 & E2) _]. apply local_lookup in Hx as [Hx Ei]; [|done]. apply list_elem_of_fmap. exists x. split; [|done]. destruct b. cbn in *. unfold manifest_of_binding. congruence. }
    split_and!; try done.
    + intros E. rewrite E in Hp. cbn in Hp. by apply Permutation_nil_r in Hp.
    + apply Forall_forall. intros b Hb. apply (F (manifest_of_binding b)). rewrite Hp. by apply list_elem_of_fmap_2.
  - intros (H1 & H2 & H3 & H4 & H5 & F & Hp). rewrite H1, H2, H3, H4, !bool_decide_eq_true_2 by done. cbn [negb orb].
    rewrite bool_decide_eq_false_2. 2: { intros E. rewrite E in Hp. apply Permutation_nil_l, eq_sym, fmap_nil_inv in Hp. done. }
    cbn [fail_if mbind result_bind]. destruct (proj2 (check_manifest_iff (local_bindings plan) (pm_Bindings m) ∅)) as [seen' ->].
    + split_and!; [|rewrite Hp, <- list_fmap_compose; done|apply Forall_forall; set_solver]. apply Forall_forall. intros b. rewrite Hp. intros (x & -> & Hx)%list_elem_of_fmap.
      rewrite Forall_forall in F. split; [|by apply F]. exists x. by rewrite local_lookup.
    + cbn. rewrite local_size, Hp, length_fmap, Nat.eqb_refl by done. done.
Qed.

(** The manifest that a plan writes is accepted for it. *)
Lemma manifest_describes_plan_witness :
  let b := Plans.mkBinding "binding_1" "photos" "/home/photos" "photos" 3 in
  let plan := mkPlan "plan_1" "photos" "bucket" "photos" "team" [b] 0 true EmptyString 3 3 in
  validatePlanManifest (manifestData plan) plan = Ok ().
Proof.
  apply (manifest_describes_plan (manifestData (mkPlan "plan_1" "photos" "bucket" "photos" "team" [Plans.mkBinding "binding_1" "photos" "/home/photos" "photos" 3] 0 true EmptyString 3 3))
    (mkPlan "plan_1" "photos" "bucket" "photos" "team" [Plans.mkBinding "binding_1" "photos" "/home/photos" "photos" 3] 0 true EmptyString 3 3)).
  - apply NoDup_singleton.
  - apply NoDup_singleton.
  - split_and!; [reflexivity|reflexivity|reflexivity|reflexivity|discriminate|repeat constructor; vm_compute; reflexivity|reflexivity].
Defined.
