(* ===== verification/PlanBackup.v ===== *)
(** Publishing a backup (application/backup/plan_backup.go, plan_service.go):
    [PlanService.Backup] and the retry of an interrupted publication, over the
    history of the plan, the Bucket workspace and the trusted roots.

    The service holds the operation lock of its plan; the Bucket file is shared
    with the services of other branches, whose steps between the sections are an
    argument.  The encrypted file system, the keys and what the local sources
    hold are the ports of the service. *)

From stdpp Require Import base decidable gmap strings list.
From Stdlib Require Import Ascii ZArith.
From S2P Require Import Prelude GoText CidLib Effect Durable Trust Branch NodeApi BucketSync Roots Registry PlainTree Install History Plans PlanManifest.

Definition ErrPendingWorkspace := ErrorsNew "Bucket has pending or branched local work".
Definition ErrBackupConflict := ErrorsNew "backup candidate could not be merged".
Definition ErrUnacceptedRoot := ErrorsNew "remote backup root is not locally accepted".
(** [ConflictError] and [UnacceptedRootError] unwrap to these. *)
Definition ConflictError : error := Wrapf "backup conflict" ErrBackupConflict.
Definition UnacceptedRootError : error := Wrapf "unaccepted root" ErrUnacceptedRoot.
Definition NamespaceKeyEpoch : N := 1.

Section PlanBackup.
Context {L : CidLib} {SH : Sha256}.

(** The three stores, and every request that the remote was sent. *)
Record node := mkNode { nd_history : history_file; nd_bucket : bucket_file; nd_trust : trust_file; nd_sent : list ApplyRequest }.

Definition on_history {A} (m : history_file -> result A * history_file) : Act node A := fun n =>
  let '(r, f) := m (nd_history n) in (r, mkNode f (nd_bucket n) (nd_trust n) (nd_sent n)).
Definition on_bucket {A} (m : bucket_file -> result A * bucket_file) : Act node A := fun n =>
  let '(r, f) := m (nd_bucket n) in (r, mkNode (nd_history n) f (nd_trust n) (nd_sent n)).
Definition on_trust {A} (m : trust_file -> result A * trust_file) : Act node A := fun n =>
  let '(r, f) := m (nd_trust n) in (r, mkNode (nd_history n) (nd_bucket n) f (nd_sent n)).
Definition others (f : bucket_file -> bucket_file) : Act node unit :=
  modify (fun n => mkNode (nd_history n) (f (nd_bucket n)) (nd_trust n) (nd_sent n)).

(** A handler that returns a partial result next to its error. *)
Definition Flow (A : Type) : Type := node -> (A + (option Result * error)) * node.
#[local] Instance Flow_ret : MRet Flow := fun A a n => (inl a, n).
#[local] Instance Flow_bind : MBind Flow := fun A B f m n =>
  match m n with (inl a, n') => f a n' | (inr e, n') => (inr e, n') end.
Definition try {A} (res : option Result) (m : Act node A) : Flow A := fun n =>
  let '(r, n') := m n in (match r with Ok a => inl a | Err e => inr (res, e) end, n').
Definition fail {A} (res : option Result) (e : error) : Flow A := fun n => (inr (res, e), n).
Definition check (res : option Result) (r : result unit) : Flow unit := try res (pure r).

(** ** The service and its environment *)
Record PlanService := mkPlanService { sv_plan : Plan; sv_protected : list string; sv_restoreProtected : list string }.
(** The service of [bucketsync] that the plan is configured with. *)
Definition sv_sync (s : PlanService) : Service := mkService (p_BucketID (sv_plan s)) (p_Branch (sv_plan s)).
Definition sv_alias (s : PlanService) : string := PlanRootAlias (p_BucketID (sv_plan s)) (p_Branch (sv_plan s)).

(** What the encrypted file system answers. *)
Record BindingView := mkBindingView { bv_Manifest : BindingManifest; bv_Root : option Cid }.
Record PlanDataset := mkPlanDataset { pd_root : Cid; pd_manifest : DatasetManifest; pd_bindings : list BindingView }.
Record PreparedBinding := mkPrepared { pr_Manifest : BindingManifest; pr_Root : option Cid; pr_EncryptedBytes : Z; pr_SourceFingerprint : string }.

Definition dataset_Binding (d : option PlanDataset) (id : string) : option BindingView :=
  d ← d; List.find (fun b => bool_decide (bm_ID (bv_Manifest b) = id)) (pd_bindings d).

Record ports := mkPorts {
  pt_host : host;
  pt_recoverSnapshots : result unit;
  pt_recoverInstall : result unit;
  (** [FingerprintSource] of a binding. *)
  pt_fingerprint : Binding -> result string;
  (** The digest of the encoded manifest. *)
  pt_digest : planManifest -> result string;
  (** [maltcid.ParseRoot] and [maltcid.Profile]: the algorithm of a Prefix Root with byte-label inputs. *)
  pt_backend : Cid -> result string;
  pt_defaultBackend : result string;
  pt_load : Cid -> result PlanDataset;
  pt_activeEpoch : N;
  pt_bucketKey : N -> result unit;
  pt_begin : string -> result unit;
  (** [openPinnedSource], and the fingerprints of what it pinned. *)
  pt_pin : Binding -> result unit;
  pt_pinnedBefore : Binding -> result string;
  pt_prepare : Binding -> result PreparedBinding;
  pt_pinnedAfter : Binding -> result string;
  (** [BuildDataset]; the flag is whether the base manifest is reused. *)
  pt_build : list PreparedBinding -> bool -> result (option Cid * Z);
  pt_publish : result unit;
  pt_close : result unit
}.

(** The outcome of the system calls, the clocks, the random identity, the
    answers of the remote and the interference of one call. *)
Record env := mkEnv {
  e_lock : io; e_pending : io; e_last : io; e_skip : io; e_skipAt : time; e_status : io; e_pull : section_env;
  e_pulled : result (option ObservedHead); e_base : io; e_accepted : io; e_has : io; e_observe : section_env;
  e_createdAt : time; e_set : io; e_stage : section_env; e_random : option string; e_restore : section_env; e_mark : io;
  e_push1 : section_env; e_push2 : section_env; e_push3 : section_env; e_observed : result (option ObservedHead);
  e_remote : ApplyRequest -> result (option ApplyResult); e_completedAt : time; e_done : io;
  (** Before the status, the pull, the base, the staging, the push and inside it. *)
  e_o1 : bucket_file -> bucket_file; e_o2 : bucket_file -> bucket_file; e_o3 : bucket_file -> bucket_file;
  e_o4 : bucket_file -> bucket_file; e_o5 : bucket_file -> bucket_file; e_o6 : bucket_file -> bucket_file; e_o7 : bucket_file -> bucket_file
}.

Section Service.
Context (s : PlanService) (p : ports) (e : env).

(** ** The store operations of the service *)
Definition sync_Status : Act node Workspace := _ ← others (e_o1 e); on_bucket (StatusOf (e_status e) (sv_sync s)).
Definition sync_Pull : Act node Workspace :=
  _ ← others (e_o2 e); on_bucket (Pull (se_io (e_pull e)) (se_now (e_pull e)) (sv_sync s) (e_pulled e)).
Definition sync_CurrentBase (root : option Cid) : Act node Head := _ ← others (e_o3 e); on_bucket (CurrentBase (e_base e) (sv_sync s) root).
Definition sync_Stage (candidate : Cid) (base : Head) (message : string) : Act node Stash :=
  _ ← others (e_o4 e);
  on_bucket (Stage (se_io (e_stage e)) (se_now (e_stage e)) (sv_sync s) (e_random e) (Some candidate) base None message).
Definition sync_RestorePending (stash : Stash) : Act node Stash :=
  _ ← others (e_o4 e); on_bucket (RestorePending (se_io (e_restore e)) (se_now (e_restore e)) (sv_sync s) stash).

(** The request that a push submits, if it gets so far. *)
Definition pushed_request (candidate : Cid) (message : string) (f : bucket_file) : option ApplyRequest :=
  let '(frozen, f1) := push_freeze (e_push1 e) (sv_sync s) (cid_String candidate) None message f in
  match frozen with
  | Err _ => None
  | Ok stash =>
      match (Pull (se_io (e_push2 e)) (se_now (e_push2 e)) (sv_sync s) (e_observed e) (e_o6 e f1)).1 with
      | Err _ => None
      | Ok _ => match push_request (sv_sync s) stash with Ok r => Some r | Err _ => None end
      end
  end.

Definition push_logged (candidate : Cid) (message : string) : Act node (ApplyResult * Workspace) := fun n =>
    let '(r, f) := Push (e_push1 e) (e_push2 e) (e_push3 e) (e_o6 e) (e_o7 e) (sv_sync s) (Some candidate) None message
                     (e_observed e) (e_remote e) (nd_bucket n) in
    (r, mkNode (nd_history n) f (nd_trust n) (nd_sent n ++ option_list (pushed_request candidate message (nd_bucket n)))).
Definition sync_Push (candidate : Cid) (message : string) : Act node (ApplyResult * Workspace) :=
  _ ← others (e_o5 e); push_logged candidate message.

Definition roots_accepted : Act node Cid := reads (fun n => roots_AcceptedRoot (e_accepted e) (nd_trust n) (sv_alias s)).
Definition roots_hasCandidate (candidate : Cid) (base : option Cid) : Act node bool :=
  reads (fun n => HasCandidate (e_has e) (sv_alias s) (Some candidate) base (nd_trust n)).
Definition roots_observeCandidate (candidate : Cid) (base : option Cid) (source : string) : Act node unit :=
  on_trust (ObserveCandidate (se_io (e_observe e)) (se_now (e_observe e)) (sv_alias s) (Some candidate) base source).

(** ** Helpers of plan_backup.go *)
Definition rootCID (raw : string) : result (option Cid) :=
  if is_empty (TrimSpace raw) then Ok None else value ← wrap_err "decode backup base root" (parse_cid raw); Ok (Some value).

Definition bindingFingerprints : result (gmap string string) :=
  foldM (fun acc b =>
    _ ← wrap_err "binding" (ValidateSource (pt_host p) (b_Source b) (sv_protected s));
    fingerprint ← wrap_err "fingerprint binding" (pt_fingerprint p b);
    Ok (<[b_ID b := fingerprint]> acc)) ∅ (p_Bindings (sv_plan s)).

Definition last_of (states : gmap string PlanState) : result (gmap string string * string) :=
  match ps_LastResult (default zeroPlanState (states !! p_ID (sv_plan s))) with
  | None => Ok (∅, EmptyString)
  | Some last =>
      _ ← fail_if (negb (bool_decide (re_Profile last = ProfileID))) (Errorf "backup history uses unsupported profile");
      Ok (cloneFingerprints (re_BindingFingerprints last), re_ManifestFingerprint last)
  end.
Definition lastFingerprints : Act node (gmap string string * string) :=
  states ← on_history (Snapshot (e_last e)); pure (last_of states).

Definition manifestFingerprint : result string := pt_digest p (manifestData (sv_plan s)).

Definition pendingStash (ws : Workspace) (pending : PendingBackup) (candidate : string) : result (option Stash) :=
  (fix scan (l : list Stash) : result (option Stash) :=
    match l with
    | [] => Ok None
    | stash :: rest =>
        if negb (is_empty (pb_StashID pending)) then
          if negb (bool_decide (st_ID stash = pb_StashID pending)) then scan rest
          else
          _ ← fail_if (negb (bool_decide (st_PushID stash = pb_PushID pending)) || negb (bool_decide (st_CandidateRoot stash = candidate)) ||
                       negb (bool_decide (st_Base stash = re_Base (pb_Result pending))) || negb (bool_decide (st_Message stash = pb_Message pending)) ||
                       negb (is_empty (st_ChangeSetCID stash)) || (negb (is_pending stash) && negb (is_branched stash)))
                (Errorf "pending backup stash conflicts with its journaled push identity");
          Ok (Some stash)
        else if bool_decide (st_CandidateRoot stash = candidate) && (is_pending stash || is_branched stash) then
          _ ← fail_if (negb (bool_decide (st_Base stash = re_Base (pb_Result pending))) || negb (bool_decide (st_Message stash = pb_Message pending)) ||
                       negb (is_empty (st_ChangeSetCID stash)))
                (Errorf "pending backup candidate conflicts with an existing Bucket stash");
          Ok (Some stash)
        else scan rest
    end) (ws_Stashes ws).

(** ** Results *)
Definition zeroResult : Result :=
  mkResult EmptyString EmptyString EmptyString EmptyString EmptyString 0 0 EmptyString ∅ EmptyString [] false zeroHead EmptyString
    None 0 false false.
(** The fields that every result of the plan has. *)
Definition plan_result (base : Head) (candidate : string) : Result :=
  mkResult (p_ID (sv_plan s)) (p_Name (sv_plan s)) (p_Branch (sv_plan s)) (p_ID (sv_plan s)) ProfileID 0 0 EmptyString ∅ EmptyString [] false
    base candidate None 0 false false.
Definition skipped_result (before : gmap string string) (manifest : string) (now : time) : Result :=
  mkResult (p_ID (sv_plan s)) (p_Name (sv_plan s)) (p_Branch (sv_plan s)) (p_ID (sv_plan s)) ProfileID 0 0 (combinedFingerprint before) before
    manifest [] true zeroHead EmptyString None now false false.
Definition candidate_result (epoch : N) (encrypted : Z) (before : gmap string string) (changed : list Binding) (manifest : string) (base : Head)
    (candidate : Cid) : Result :=
  mkResult (p_ID (sv_plan s)) (p_Name (sv_plan s)) (p_Branch (sv_plan s)) (p_ID (sv_plan s)) ProfileID epoch encrypted
    (combinedFingerprint before) (cloneFingerprints before) manifest (bindingNames changed) false base (cid_String candidate) None 0 false false.
Definition set_Push (push : option (ApplyResult * Workspace)) (at_ : time) (r : Result) : Result :=
  mkResult (re_PlanID r) (re_PlanName r) (re_Branch r) (re_Source r) (re_Profile r) (re_KeyEpoch r) (re_EncryptedBytes r)
    (re_SourceFingerprint r) (re_BindingFingerprints r) (re_ManifestFingerprint r) (re_ChangedBindings r) (re_Skipped r) (re_Base r)
    (re_CandidateRoot r) push at_ (re_RetriedPending r) (re_ReconciledPending r).
Definition set_Retried (reconciled : bool) (r : Result) : Result :=
  mkResult (re_PlanID r) (re_PlanName r) (re_Branch r) (re_Source r) (re_Profile r) (re_KeyEpoch r) (re_EncryptedBytes r)
    (re_SourceFingerprint r) (re_BindingFingerprints r) (re_ManifestFingerprint r) (re_ChangedBindings r) (re_Skipped r) (re_Base r)
    (re_CandidateRoot r) (re_Push r) (re_CompletedAt r) true (reconciled || re_ReconciledPending r).

(** The result of the last push, which may be the zero value. *)
Definition zeroObservedHead : ObservedHead := mkObservedHead EmptyString EmptyString EmptyString EmptyString EmptyString EmptyString 0 EmptyString 0 0.
Definition zeroCommit : Commit := mkCommit EmptyString EmptyString EmptyString [] EmptyString EmptyString EmptyString EmptyString EmptyString 0.
Definition zeroApplyResult : ApplyResult := mkApplyResult EmptyString zeroObservedHead zeroCommit zeroCommit None EmptyString [].
Definition push_result (r : Result) : ApplyResult := match re_Push r with Some (a, _) => a | None => zeroApplyResult end.

(** ** Publication: freeze the identity, push, settle the journal *)

(** The end of both paths, from the staged stash on. *)
Definition finish (candidate : Cid) (message : string) (result : Result) (stash : Stash) : Flow Result :=
  _ ← try (Some result) (on_history (MarkPendingStaged (e_mark e) (cid_String candidate) stash));
  push ← try (Some result) (sync_Push candidate message);
  let result := set_Push (Some push) (e_completedAt e) result in
  if bool_decide (res_Status push.1 = status_branched) then
    _ ← try (Some result) (on_history (MarkPendingConflict (e_done e) (cid_String candidate) result));
    fail (Some result) ConflictError
  else
    _ ← try (Some result) (on_history (CompletePending (e_done e) (cid_String candidate) (p_ID (sv_plan s)) result));
    mret result.

(** The stash that [RestorePending] is given. *)
Definition restored_stash (pending : PendingBackup) (candidate : Cid) : Stash :=
  mkStash (pb_StashID pending) (pb_PushID pending) (cid_String candidate) (re_Base (pb_Result pending)) EmptyString (pb_Message pending)
    true status_pending EmptyString [] (pb_CreatedAt pending) 0.

Definition retryPending (pending : PendingBackup) : Flow Result :=
  _ ← check (Some (pb_Result pending)) (fail_if (negb (bool_decide (re_Profile (pb_Result pending) = ProfileID)))
        (Wrapf "pending backup uses unsupported profile" ErrPendingWorkspace));
  _ ← check None (fail_if (negb (bool_decide (pb_BucketID pending = p_BucketID (sv_plan s))) || negb (bool_decide (pb_PlanID pending = p_ID (sv_plan s))) ||
                           negb (bool_decide (re_PlanID (pb_Result pending) = p_ID (sv_plan s))))
        (Wrapf "pending work belongs to another backup plan" ErrPendingWorkspace));
  candidate ← try None (pure (parse_cid (candidate_of pending)));
  _ ← check (Some (pb_Result pending)) (fail_if (negb (pb_CandidateRecorded pending))
        (Wrapf "pending backup has no durable local-candidate record" ErrPendingWorkspace));
  candidateBase ← try None (wrapped "decode pending backup candidate base" (pure (rootCID (pb_CandidateBase pending))));
  accepted ← try None (outcome roots_accepted);
  _ ← (if match accepted with Ok root => bool_decide (root = candidate) | Err _ => false end then mret ()
       else
       found ← try None (wrapped "validate locally verified pending candidate" (roots_hasCandidate candidate candidateBase));
       check None (fail_if (negb found) (Wrapf "durable trust state has no exact pending candidate" ErrPendingWorkspace)));
  let result := set_Retried false (pb_Result pending) in
  workspace ← try (Some result) sync_Status;
  found ← try (Some result) (pure (pendingStash workspace pending (cid_String candidate)));
  _ ← check (Some result) (fail_if (negb (ws_Initialized workspace)) (Wrapf "plan workspace is not initialized" ErrPendingWorkspace));
  found ← (match found with
           | None => if negb (is_empty (pb_StashID pending))
                     then stash ← try (Some result) (sync_RestorePending (restored_stash pending candidate)); mret (Some stash)
                     else mret None
           | Some _ => mret found
           end);
  stash ← (match found with
           | Some stash =>
               if is_branched stash then
                 let result := set_Retried true result in
                 let result := if negb (bool_decide (push_status result = status_branched))
                               then set_Push (Some (push_result result, workspace)) (re_CompletedAt result) result else result in
                 fail (Some result) ConflictError
               else mret stash
           | None => try (Some result) (sync_Stage candidate (re_Base result) (pb_Message pending))
           end);
  finish candidate (pb_Message pending) result stash.

(** ** A new candidate *)

(** One changed binding: what was fingerprinted is what was encrypted. *)
Definition prepare_binding (before : gmap string string) (b : Binding) : result PreparedBinding :=
  let want := default EmptyString (before !! b_ID b) in
  _ ← wrap_err "binding" (ValidateSource (pt_host p) (b_Source b) (sv_protected s));
  _ ← wrap_err "pin binding" (pt_pin p b);
  pinnedBefore ← wrap_err "fingerprint pinned binding" (pt_pinnedBefore p b);
  _ ← fail_if (negb (bool_decide (pinnedBefore = want))) (Errorf "binding changed before its encrypted MALT-native snapshot was pinned; retry");
  prepared ← wrap_err "build local encrypted MALT-native binding" (pt_prepare p b);
  _ ← fail_if (negb (bool_decide (pr_SourceFingerprint prepared = pinnedBefore))) (Errorf "binding changed while its bytes were encrypted; retry");
  after ← pt_pinnedAfter p b;
  _ ← fail_if (negb (bool_decide (after = want))) (Errorf "binding changed while its encrypted MALT-native snapshot was being created; retry");
  Ok prepared.

(** The map of the prepared bindings, and their encrypted bytes. *)
Definition prepare_changed (before : gmap string string) (changed : list Binding) : result (gmap string PreparedBinding * Z) :=
  foldM (fun acc b =>
    prepared ← prepare_binding before b;
    Ok (<[b_ID b := prepared]> acc.1, acc.2 + pr_EncryptedBytes prepared)%Z) (∅, 0%Z) changed.

Definition all_prepared (base : option PlanDataset) (preparedByID : gmap string PreparedBinding) (bindings : list Binding) : result (list PreparedBinding) :=
  foldM (fun acc b =>
    match preparedByID !! b_ID b with
    | Some value => Ok (acc ++ [value])
    | None =>
        view ← or_err (dataset_Binding base (b_ID b)) (Errorf "encrypted filesystem base root has no unchanged binding");
        Ok (acc ++ [mkPrepared (mkBindingManifest (b_ID b) (b_Name b) (b_PathName b) (bm_Token (bv_Manifest view))) (bv_Root view) 0 EmptyString])
    end) [] bindings.

Definition select_backend (base : option Cid) : result string :=
  match base with
  | Some root => pt_backend p root
  | None =>
      backend ← wrap_err "select encrypted filesystem commitment backend" (pt_defaultBackend p);
      _ ← fail_if (negb (bool_decide (backend = "kzg")) && negb (bool_decide (backend = "ipa")))
            (Errorf "encrypted filesystem commitment backend is unsupported");
      Ok backend
  end.

(** The base dataset, when something of it is reused. *)
Definition load_base (wanted : bool) (base : option Cid) : result (option PlanDataset) :=
  if negb wanted then Ok None else
  root ← or_err base (Errorf "encrypted filesystem base root is required to reuse unchanged data");
  dataset ← wrap_err "load encrypted filesystem base root" (pt_load p root);
  _ ← validateDatasetIdentity (pd_manifest dataset) (sv_plan s);
  _ ← validateDatasetForPlan (pd_manifest dataset) (sv_plan s);
  Ok (Some dataset).

Definition load_keys : result N :=
  let epoch := pt_activeEpoch p in
  _ ← pt_bucketKey p epoch;
  _ ← wrap_err "load encrypted filesystem namespace key" (pt_bucketKey p NamespaceKeyEpoch);
  Ok epoch.

(** The deferred close of the snapshot. *)
Definition closing (m : Flow Result) : Flow Result := fun n =>
  let '(r, n') := m n in
  match pt_close p with
  | Ok _ => (r, n')
  | Err err =>
      let err := Wrapf "clean local encrypted filesystem snapshot" err in
      (match r with inl result => inr (Some result, err) | inr (result, first) => inr (result, ErrorsJoin first err) end, n')
  end.

Definition choose_message (message : string) : string :=
  let message := TrimSpace message in
  let message := if is_empty message then TrimSpace (p_Message (sv_plan s)) else message in
  if is_empty message then "encrypted MALT-native backup" else message.

Definition new_pending (message : string) (candidateBase : option Cid) (result : Result) : PendingBackup :=
  mkPending (p_BucketID (sv_plan s)) (p_ID (sv_plan s)) message EmptyString EmptyString (cid_text candidateBase) true result (e_createdAt e).

(** Record the candidate, journal it, stage it and publish it. *)
Definition publish (message : string) (candidate : Cid) (candidateBase : option Cid) (base : Head) (result : Result) : Flow Result :=
  _ ← try None (wrapped "record locally verified encrypted filesystem candidate"
        (roots_observeCandidate candidate candidateBase ("encrypted-backup:" +:+ p_ID (sv_plan s))));
  let message := choose_message message in
  _ ← try (Some result) (wrapped "journal backup plan candidate" (on_history (SetPending (e_set e) (new_pending message candidateBase result))));
  stash ← try (Some result) (wrapped "stage backup plan candidate" (sync_Stage candidate base message));
  finish candidate message result stash.

Definition backup_changed (message : string) (before : gmap string string) (changed : list Binding) (manifestChanged : bool) (manifest : string)
    : Flow Result :=
  workspace ← try None sync_Status;
  _ ← check None (match firstBranchedStash workspace with Some _ => Err ConflictError | None => Ok () end);
  workspace ← (if negb (ws_Initialized workspace) then try None sync_Pull else mret workspace);
  _ ← check None (fail_if (negb (bool_decide (ws_Stashes workspace = []))) (Wrapf "resolve existing branch work first" ErrPendingWorkspace));
  baseCID ← try None (pure (rootCID (hd_Root (ws_Base workspace))));
  accepted ← try None (outcome roots_accepted);
  let acceptedBase := match baseCID, accepted with Some base, Ok root => bool_decide (root = base) | _, _ => false end in
  let needsUnchanged := negb (length changed =? length (p_Bindings (sv_plan s))) in
  _ ← check None (fail_if (needsUnchanged && negb acceptedBase) UnacceptedRootError);
  backend ← try None (pure (select_backend baseCID));
  base ← try None (sync_CurrentBase baseCID);
  baseDataset ← try None (pure (load_base (needsUnchanged || (negb manifestChanged && acceptedBase)) baseCID));
  epoch ← try None (pure load_keys);
  _ ← check None (wrap_err "begin local encrypted filesystem snapshot" (pt_begin p backend));
  closing (
    '(preparedByID, encrypted) ← try None (pure (prepare_changed before changed));
    prepared ← try None (pure (all_prepared baseDataset preparedByID (p_Bindings (sv_plan s))));
    '(root, more) ← try None (pure (wrap_err "build encrypted MALT-native dataset"
                     (pt_build p prepared (negb manifestChanged && bool_decide (baseDataset <> None)))));
    candidate ← try None (pure (or_err root (Errorf "backup plan produced no candidate root")));
    _ ← check None (wrap_err "publish locally verified encrypted MALT-native snapshot" (pt_publish p));
    let candidateBase := match accepted with Ok root => Some root | Err _ => None end in
    publish message candidate candidateBase base
      (candidate_result epoch (encrypted + more) before changed manifest base candidate)).

Definition Backup (message : string) : Flow Result :=
  _ ← check None (fail_if (negb (e_lock e Lock)) (Errorf "lock backup plan"));
  _ ← check None (wrap_err "recover local encrypted filesystem snapshots" (pt_recoverSnapshots p));
  _ ← check None (pt_recoverInstall p);
  pending ← try None (on_history (Pending (e_pending e)));
  match pending with
  | Some pending => retryPending pending
  | None =>
      before ← try None (pure bindingFingerprints);
      '(last, lastManifest) ← try None lastFingerprints;
      manifest ← try None (pure manifestFingerprint);
      let changed := changedBindings (p_Bindings (sv_plan s)) before last in
      let manifestChanged := negb (bool_decide (manifest = lastManifest)) in
      if bool_decide (changed = []) && negb manifestChanged then
        workspace ← try None sync_Status;
        match firstBranchedStash workspace with
        | Some stash => fail (Some (plan_result (st_Base stash) (st_CandidateRoot stash))) ConflictError
        | None =>
            let result := skipped_result before manifest (e_skipAt e) in
            _ ← try (Some result) (on_history (RecordResult (e_skip e) (p_ID (sv_plan s)) result));
            mret result
        end
      else backup_changed message before changed manifestChanged manifest
  end.
End Service.
End PlanBackup.
