(* ===== verification/PlanSync.v ===== *)
(** Synchronising a plan and resolving its conflicts
    (application/backup/plan_sync.go, plan_manifest.go, plan_restore.go): what
    these operations do to the history, the Bucket workspace and the trusted
    roots.  Restoring, merging and installing plaintext trees are the ports
    here; the trees themselves are modelled with the merge and the installer. *)

From stdpp Require Import base decidable gmap strings list.
From Stdlib Require Import Ascii ZArith.
From S2P Require Import Prelude GoText CidLib Effect Durable Trust Branch NodeApi BucketSync Roots Registry PlainTree Install History Plans PlanManifest PlanBackup.

(** [ManualMergeError] unwraps to the conflict. *)
Definition ManualMergeError : error := Wrapf "manual merge" ErrBackupConflict.

Inductive ConflictResolution := ConflictManual | ConflictKeepLocal | ConflictKeepRemote.

#[global] Instance ConflictResolution_eq_dec : EqDecision ConflictResolution.
Proof. solve_decision. Defined.

Section PlanSync.
Context {L : CidLib} {SH : Sha256}.

(** What the local trees answer. *)
Record tree_ports := mkTreePorts {
  (** The bindings that need a manual merge, after all versions are restored and merged. *)
  tp_merge : Stash -> Cid -> result (list BindingConflict);
  (** [cleanupInstallStaging] and the rename of the checkout. *)
  tp_checkout : result string;
  tp_install : result unit;
  tp_installManual : ConflictCheckout -> result unit;
  (** [pathWithin] of the checkout in the directory of conflicts, and not that directory. *)
  tp_checkoutSafe : string -> bool;
  tp_removeCheckout : result unit;
  tp_installBindings : Cid -> gmap string string -> result unit
}.

Record sync_env := mkSyncEnv {
  y_lock : io; y_pull : section_env; y_pulled : result (option ObservedHead); y_observe : section_env; y_accepted : io;
  y_conflict : io; y_status : io; y_createdAt : time; y_set : io; y_clearConflict : io; y_pending : io; y_clearPending : io;
  y_resolve : section_env; y_record : io; y_completedAt : time;
  (** Before the pull, the status and the resolution. *)
  y_o1 : bucket_file -> bucket_file; y_o2 : bucket_file -> bucket_file; y_o3 : bucket_file -> bucket_file
}.

Section Service.
Context (s : PlanService) (p : ports) (t : tree_ports) (y : sync_env).

Definition locked_plan : Act node unit := pure (fail_if (negb (y_lock y Lock)) (Errorf "lock backup plan")).

(** ** The accepted root of the branch *)
Definition observed_head (ws : Workspace) : Head := if is_empty (TrimSpace (hd_Root (ws_Remote ws))) then ws_Base ws else ws_Remote ws.

Definition acceptedObservedRoot : Act node Cid :=
  _ ← others (y_o1 y);
  workspace ← on_bucket (Pull (se_io (y_pull y)) (se_now (y_pull y)) (sv_sync s) (y_pulled y));
  _ ← pure (fail_if (existsb is_pending (ws_Stashes workspace)) (Wrapf "plan" ErrPendingWorkspace));
  let head := observed_head workspace in
  observed ← pure (wrap_err "decode observed backup branch root" (parse_cid (TrimSpace (hd_Root head))));
  _ ← wrapped "record remote backup head" (on_trust (roots_ObserveHead (se_io (y_observe y)) (se_now (y_observe y)) (sv_alias s)
        (observationSource (p_BucketID (sv_plan s))) (p_BucketID (sv_plan s)) (p_Branch (sv_plan s)) (hd_CommitID head) (Some observed) (hd_Revision head)));
  accepted ← outcome (reads (fun n => roots_AcceptedRoot (y_accepted y) (nd_trust n) (sv_alias s)));
  pure (match accepted with
        | Ok root => if bool_decide (observed = root) then Ok root else Err UnacceptedRootError
        | Err _ => Err UnacceptedRootError
        end).
Definition acceptedObservedRootWithLock : Act node Cid := _ ← locked_plan; acceptedObservedRoot.

(** ** Conflicts *)
Definition sync_StatusOf : Act node Workspace := _ ← others (y_o2 y); on_bucket (StatusOf (y_status y) (sv_sync s)).
Definition sync_Resolve (stash : Stash) : Act node Workspace :=
  _ ← others (y_o3 y);
  on_bucket (ResolveBranched (se_io (y_resolve y)) (se_now (y_resolve y)) (sv_sync s) (st_ID stash) (st_CandidateRoot stash)).

(** The end of both resolutions: the journal first, then the workspace. *)
Definition forget_candidate (stash : Stash) : Act node unit :=
  pending ← on_history (Pending (y_pending y));
  _ ← (match pending with
       | None => mret ()
       | Some pending =>
           _ ← pure (fail_if (negb (bool_decide (pb_StashID pending = st_ID stash)) || negb (bool_decide (candidate_of pending = st_CandidateRoot stash)))
                 (Errorf "pending backup does not match the selected conflict"));
           on_history (ClearPending (y_clearPending y) (st_CandidateRoot stash))
       end);
  _ ← sync_Resolve stash;
  mret ().

Definition checkout_of (stash : Stash) (remoteRoot : Cid) (path : string) (bindings : list BindingConflict) : ConflictCheckout :=
  mkCheckout (p_ID (sv_plan s)) (st_ID stash) (st_Branch stash) (hd_Root (st_Base stash)) (st_CandidateRoot stash) (cid_String remoteRoot)
    path bindings (y_createdAt y).

Definition mergeBranchedCandidate (remoteRoot : Cid) : Act node unit :=
  _ ← locked_plan;
  existing ← on_history (Conflict (y_conflict y));
  _ ← pure (fail_if (bool_decide (is_Some existing)) ManualMergeError);
  workspace ← sync_StatusOf;
  _ ← pure (fail_if (negb (bool_decide (hd_Root (ws_Remote workspace) = cid_String remoteRoot)))
        (Errorf "accepted conflict root is not the latest observed branch root"));
  stash ← pure (match List.filter is_branched (ws_Stashes workspace) with
                | [] => Err (Errorf "plan has no branched candidate to merge")
                | [stash] => Ok stash
                | _ => Err (Errorf "plan has multiple unresolved conflict stashes")
                end);
  _ ← pure (parse_cid (st_CandidateRoot stash));
  _ ← pure (rootCID (hd_Root (st_Base stash)));
  bindings ← pure (tp_merge t stash remoteRoot);
  if negb (bool_decide (bindings = [])) then
    path ← pure (tp_checkout t);
    _ ← on_history (SetConflictCheckout (y_set y) (checkout_of stash remoteRoot path bindings));
    pure (Err ManualMergeError)
  else
    _ ← pure (tp_install t);
    forget_candidate stash.

Definition ConflictStatus : Act node (list Stash * option ConflictCheckout) :=
  workspace ← sync_StatusOf;
  checkout ← on_history (Conflict (y_conflict y));
  mret (List.filter is_branched (ws_Stashes workspace), checkout).

Definition clearConflictState : Act node unit :=
  _ ← locked_plan;
  workspace ← sync_StatusOf;
  stash ← pure (or_err (firstBranchedStash workspace) (Errorf "plan has no unresolved conflict"));
  checkout ← on_history (Conflict (y_conflict y));
  _ ← (match checkout with
       | None => mret ()
       | Some checkout =>
           _ ← pure (fail_if (negb (tp_checkoutSafe t (cc_Path checkout))) (Errorf "unsafe backup conflict checkout path"));
           _ ← on_history (ClearConflictCheckout (y_clearConflict y) (st_ID stash));
           pure (wrap_err "conflict was resolved but checkout cleanup failed" (tp_removeCheckout t))
       end);
  forget_candidate stash.

Definition installManualConflictCheckout : Act node unit :=
  _ ← locked_plan;
  checkout ← on_history (Conflict (y_conflict y));
  checkout ← pure (or_err checkout (Errorf "plan has no manual conflict checkout"));
  _ ← pure (fail_if (negb (tp_checkoutSafe t (cc_Path checkout))) (Errorf "unsafe backup conflict checkout path"));
  pure (tp_installManual t checkout).

(** ** Baselines *)
Definition baseline (candidate : string) (fingerprints : gmap string string) (manifest : string) : Result :=
  mkResult (p_ID (sv_plan s)) (p_Name (sv_plan s)) (p_Branch (sv_plan s)) (p_ID (sv_plan s)) ProfileID 0 0 (combinedFingerprint fingerprints)
    fingerprints manifest [] false zeroHead candidate None (y_completedAt y) false false.

Definition RecordRestoredBaseline : Act node Result :=
  _ ← locked_plan;
  root ← reads (fun n => roots_AcceptedRoot (y_accepted y) (nd_trust n) (sv_alias s));
  fingerprints ← pure (bindingFingerprints s p);
  manifest ← pure (manifestFingerprint s p);
  let result := baseline (cid_String root) fingerprints manifest in
  _ ← on_history (RecordResult (y_record y) (p_ID (sv_plan s)) result);
  mret result.

(** [ResolveConflict] up to the backup that ends the other resolutions;
    [manual], [remote] and [clear] are the environments of its parts. *)
Definition keep_remote : Act node unit :=
  root ← acceptedObservedRootWithLock;
  _ ← locked_plan;
  fingerprints ← pure (bindingFingerprints s p);
  pure (tp_installBindings t root fingerprints).
Definition record_remote : Act node Result :=
  fingerprints ← pure (bindingFingerprints s p);
  manifest ← pure (manifestFingerprint s p);
  let result := baseline EmptyString fingerprints manifest in
  _ ← on_history (RecordResult (y_record y) (p_ID (sv_plan s)) result);
  mret result.

(** The end of [SyncWithOptions], after a backup with result [result]. *)
Definition synced (result : Result) (fingerprints : gmap string string) : Result :=
  mkResult (p_ID (sv_plan s)) (p_Name (sv_plan s)) (p_Branch (sv_plan s)) (p_ID (sv_plan s)) (re_Profile result) (re_KeyEpoch result)
    (re_EncryptedBytes result) (combinedFingerprint fingerprints) fingerprints (re_ManifestFingerprint result) (re_ChangedBindings result)
    (re_Skipped result) (re_Base result) (re_CandidateRoot result) (re_Push result) (y_completedAt y) (re_RetriedPending result)
    (re_ReconciledPending result).
Definition sync_install (last : Result) (after : result (gmap string string)) : Act node Result :=
  _ ← locked_plan;
  _ ← (if is_empty (TrimSpace (re_CandidateRoot last)) then mret () else
       _ ← pure (wrap_err "decode locally verified backup candidate" (parse_cid (re_CandidateRoot last))); mret ());
  root ← acceptedObservedRoot;
  _ ← pure (tp_installBindings t root (re_BindingFingerprints last));
  fingerprints ← pure after;
  let result := synced last fingerprints in
  _ ← on_history (RecordResult (y_record y) (p_ID (sv_plan s)) result);
  mret result.
End Service.

(** ** The operations of the plan *)
Definition lift {A} (m : Act node A) : Flow A := try None m.
Definition resolve_first (s : PlanService) (p : ports) (t : tree_ports) (resolution : ConflictResolution) (prepare clear : sync_env) : Act node unit :=
  _ ← (match resolution with
       | ConflictManual => installManualConflictCheckout t prepare
       | ConflictKeepRemote => keep_remote s p t prepare
       | ConflictKeepLocal => mret ()
       end);
  clearConflictState s t clear.

Definition ResolveConflict (s : PlanService) (p : ports) (t : tree_ports) (resolution : ConflictResolution) (prepare clear record : sync_env) (e : env)
    (message : string) : Flow Result := fun n =>
  match lift (resolve_first s p t resolution prepare clear) n with
  | (inr err, n1) => (inr err, n1)
  | (inl _, n1) =>
      if bool_decide (resolution = ConflictKeepRemote) then lift (record_remote s p record) n1 else Backup s p e message n1
  end.

(** [e1] and [e2] are the environments of the two backups; [after] are the
    fingerprints once the bindings are installed. *)
Definition SyncWithOptions (s : PlanService) (p : ports) (t : tree_ports) (MergeConflicts : bool) (e1 e2 : env) (trust merge install : sync_env)
    (after : result (gmap string string)) (message : string) : Flow Result := fun n =>
  let finish (result : Result) (n : node) := try (Some result) (sync_install s t install result after) n in
  match Backup s p e1 message n with
  | (inl result, n1) => finish result n1
  | (inr (result, err), n1) =>
      if negb (errors_Is err ErrBackupConflict) then (inr (result, err), n1) else
      match try result (acceptedObservedRootWithLock s trust) n1 with
      | (inr e, n2) => (inr e, n2)
      | (inl root, n2) =>
          if negb MergeConflicts then (inr (result, err), n2) else
          match try result (mergeBranchedCandidate s t merge root) n2 with
          | (inr e, n3) => (inr e, n3)
          | (inl _, n3) =>
              match Backup s p e2 message n3 with
              | (inl result, n4) => finish result n4
              | (inr e, n4) => (inr e, n4)
              end
          end
      end
  end.
End PlanSync.
