(* ===== verification/PlanLinked.v ===== *)
(** The publication of a plan as a state machine: what the journal of the
    history and the stashes of the workspace say about one another, and what
    every operation of the two stores does to that link. *)

From stdpp Require Import base decidable gmap strings list.
From Stdlib Require Import Ascii ZArith Lia.
From S2P Require Import Prelude GoText CidLib Effect Durable Trust Roots Registry PlainTree Install Branch NodeApi BucketSync BucketSyncFacts BucketSyncThms History Plans PlanManifest PlanBackup.

Section Linked.
Context {L : CidLib} {LL : CidLaws L} {SH : Sha256}.
Context (s : PlanService).

Definition staged (p : PendingBackup) : Prop := pb_StashID p <> EmptyString /\ pb_PushID p <> EmptyString.
Definition unstaged (p : PendingBackup) : Prop := pb_StashID p = EmptyString /\ pb_PushID p = EmptyString.

(** The request that the journal stands for. *)
Definition journal_request (p : PendingBackup) : result ApplyRequest :=
  let base := re_Base (pb_Result p) in
  NormalizeApplyRequest (p_Branch (sv_plan s))
    (mkApplyRequest (pb_PushID p) (p_Branch (sv_plan s)) (hd_CommitID base) (hd_Root base) (candidate_of p) (hd_Revision base) EmptyString
       (pb_Message p) EmptyString).

(** A journal of this plan, as [Backup] writes it. *)
Record journal_ok (p : PendingBackup) : Prop := {
  jo_bucket : pb_BucketID p = p_BucketID (sv_plan s);
  jo_plan : pb_PlanID p = p_ID (sv_plan s);
  jo_result : re_PlanID (pb_Result p) = p_ID (sv_plan s);
  jo_profile : re_Profile (pb_Result p) = ProfileID;
  jo_recorded : pb_CandidateRecorded p = true;
  jo_candidate : canonical (candidate_of p);
  jo_candidateBase : exists base, pb_CandidateBase p = cid_text base;
  jo_message : TrimSpace (pb_Message p) = pb_Message p /\ pb_Message p <> EmptyString;
  jo_created : pb_CreatedAt p <> 0%Z;
  jo_base : validateHead (re_Base (pb_Result p)) = Ok ()
}.

(** The stash is the one of the journal. *)
Definition matches (p : PendingBackup) (st : Stash) : Prop :=
  st_CandidateRoot st = candidate_of p /\ st_Base st = re_Base (pb_Result p) /\ st_Message st = pb_Message p /\ st_ChangeSetCID st = EmptyString.
Definition owns (p : PendingBackup) (st : Stash) : Prop := st_ID st = pb_StashID p /\ st_PushID st = pb_PushID p /\ matches p st.

(** The states of a publication. *)
Inductive linked : option PendingBackup -> option ConflictCheckout -> list Stash -> Prop :=
  (** Nothing is being published. *)
  | linked_idle : linked None None []
  (** The journal of a resolved conflict is gone, its stash not yet. *)
  | linked_left st : is_branched st = true -> linked None None [st]
  (** The candidate is in the journal only. *)
  | linked_journaled p : journal_ok p -> unstaged p -> linked (Some p) None []
  (** It is staged, and the journal does not know the identity yet. *)
  | linked_staged p st : journal_ok p -> unstaged p -> is_pending st = true -> matches p st -> linked (Some p) None [st]
  (** The identity is frozen. *)
  | linked_frozen p st : journal_ok p -> staged p -> is_pending st = true -> owns p st -> linked (Some p) None [st]
  (** The remote settled it, and the journal does not know yet. *)
  | linked_settled p : journal_ok p -> staged p -> linked (Some p) None []
  (** The remote kept the candidate on a conflict branch. *)
  | linked_branched p c st : journal_ok p -> staged p -> is_branched st = true -> owns p st -> linked (Some p) c [st].

Lemma linked_unstaged p c l : linked (Some p) c l -> unstaged p ->
  journal_ok p /\ c = None /\ (l = [] \/ exists st, l = [st] /\ is_pending st = true /\ matches p st).
Proof.
  intros H [Hu _]. inversion H as [| |? Hj|? st Hj ? Hp Hm|? ? ? [Hs _]|? ? [Hs _]|? ? ? ? [Hs _]]; subst; try done; [by eauto|].
  split_and!; [done|done|]. right. by exists st.
Qed.
Lemma linked_staged_cases p c l : linked (Some p) c l -> staged p ->
  journal_ok p /\ ((c = None /\ l = []) \/ (c = None /\ exists st, l = [st] /\ is_pending st = true /\ owns p st) \/ (exists st, l = [st] /\ is_branched st = true /\ owns p st)).
Proof.
  intros H [Hs _]. inversion H as [| |? ? [Hu _]|? ? ? [Hu _]|? st Hj ? Hp Ho|? Hj|? ? st Hj ? Hb Ho]; subst; try done; (split; [done|]).
  - right; left. split; [done|]. by exists st.
  - by left.
  - right; right. by exists st.
Qed.
Lemma linked_none c l : linked None c l -> c = None /\ (l = [] \/ exists st, l = [st] /\ is_branched st = true).
Proof. intros H. inversion H as [|st Hb| | | | |]; subst; [by eauto|]. split; [done|]. right. by exists st. Qed.
Lemma linked_journal p c l : linked (Some p) c l -> journal_ok p /\ (staged p \/ unstaged p).
Proof. intros H. inversion H; subst; eauto. Qed.

(** An operation identity names one request. *)
Record keys (sent : list ApplyRequest) (pending : option PendingBackup) (stashes : list Stash) : Prop := {
  ks_sent : forall r1 r2, r1 ∈ sent -> r2 ∈ sent -> ar_OperationID r1 = ar_OperationID r2 -> r1 = r2;
  ks_stash : forall r st, r ∈ sent -> st ∈ stashes -> ar_OperationID r = TrimSpace (st_PushID st) -> push_request (sv_sync s) st = Ok r;
  ks_journal : forall r p, r ∈ sent -> pending = Some p -> staged p -> ar_OperationID r = TrimSpace (pb_PushID p) -> journal_request p = Ok r
}.

Record good (n : node) (h : historyFile) (ws : Workspace) : Prop := {
  gd_history : view (nd_history n) = Some h;
  gd_bucket : exists b, view (nd_bucket n) = Some b /\ state_inv b /\ workspace (sv_sync s) b = ws;
  gd_linked : linked (hf_Pending h) (hf_Conflict h) (ws_Stashes ws);
  gd_ready : hf_Pending h <> None -> ws_Initialized ws = true;
  gd_keys : keys (nd_sent n) (hf_Pending h) (ws_Stashes ws)
}.

Definition inv (n : node) : Prop := exists h ws, good n h ws.

(** ** Requests *)
Lemma request_id svc st r : push_request svc st = Ok r -> ar_OperationID r = TrimSpace (st_PushID st).
Proof. unfold push_request, NormalizeApplyRequest. intros H. by simplify_result. Qed.

Lemma owns_request p st : owns p st -> push_request (sv_sync s) st = journal_request p.
Proof. intros (_ & H2 & H3 & H4 & H5 & H6). unfold push_request, journal_request. cbn. by rewrite H2, H3, H4, H5, H6. Qed.

Lemma journal_key p r : journal_request p = Ok r -> ar_OperationID r = TrimSpace (pb_PushID p).
Proof. unfold journal_request, NormalizeApplyRequest. intros H. by simplify_result. Qed.

Lemma keys_no_stash sent pending stashes : keys sent pending stashes -> keys sent pending [].
Proof. intros [H1 H2 H3]. split; [done|set_solver|done]. Qed.
Lemma keys_no_journal sent pending stashes : keys sent pending stashes -> keys sent None stashes.
Proof. intros [H1 H2 H3]. by split. Qed.
Lemma keys_unstaged sent pending stashes p : keys sent pending stashes -> unstaged p -> keys sent (Some p) stashes.
Proof. intros [H1 H2 H3] [Hu _]. split; [done|done|]. intros r q _ [= <-] [Hs _]. done. Qed.

(** The journal takes over the identity of its stash. *)
Lemma keys_owned sent pending p st : keys sent pending [st] -> owns p st -> keys sent (Some p) [st].
Proof.
  intros [H1 H2 H3] Ho. split; [done|done|]. intros r q Hr [= <-] _ Hk. rewrite <- (owns_request _ _ Ho). apply H2; [done|by left|].
  destruct Ho as (_ & -> & _). done.
Qed.
(** A stash made from the journal. *)
Lemma keys_restored sent p st : keys sent (Some p) [] -> staged p -> owns p st -> keys sent (Some p) [st].
Proof.
  intros [H1 H2 H3] Hs Ho. split; [done| |done]. intros r st' Hr ->%list_elem_of_singleton Hk. rewrite (owns_request _ _ Ho). apply H3; [done|done|done|].
  destruct Ho as (_ & <- & _). done.
Qed.
(** A request of the journal is sent. *)
Lemma keys_send sent p st r : keys sent (Some p) [st] -> staged p -> owns p st -> journal_request p = Ok r -> keys (sent ++ [r]) (Some p) [st].
Proof.
  intros [H1 H2 H3] Hs Ho Hr. assert (forall r', r' ∈ sent -> ar_OperationID r' = ar_OperationID r -> r' = r) as Hsame.
  { intros r' Hin Hid. rewrite (journal_key _ _ Hr) in Hid. specialize (H3 r' p Hin eq_refl Hs Hid). congruence. }
  split.
  - intros r1 r2 [Hr1| ->%list_elem_of_singleton]%elem_of_app [Hr2| ->%list_elem_of_singleton]%elem_of_app Hid; [by apply H1|by apply Hsame|symmetry; by apply Hsame|done].
  - intros r' st' [Hr'| ->%list_elem_of_singleton]%elem_of_app ->%list_elem_of_singleton Hk; [apply H2; [done|by left|done]|]. by rewrite (owns_request _ _ Ho).
  - intros r' q [Hr'| ->%list_elem_of_singleton]%elem_of_app [= <-] _ Hk; [by apply H3|done].
Qed.

(** ** Sections of the Bucket file *)
Lemma bucket_cases {A} w (op : persistedState -> result (A * persistedState)) (f : bucket_file) b r f' :
  view f = Some b -> withState w true op f = (r, f') ->
  (f' = f /\ is_ok r = false) \/ exists a b', op b = Ok (a, b') /\ f' = Some (Decodes b') /\ (forall a', r = Ok a' -> a' = a).
Proof.
  intros Hv H. apply (with_state_cases best_effort_writer eq_refl) in H as [H|(b0 & a & b' & Hv0 & Hop & -> & Hr)]; [by left|right].
  assert (b0 = b) as -> by congruence. eauto.
Qed.
Lemma bucket_reads {A} w (op : persistedState -> result (A * persistedState)) (f : bucket_file) b r f' :
  view f = Some b -> withState w false op f = (r, f') -> f' = f /\ forall a, r = Ok a -> exists b', op b = Ok (a, b').
Proof.
  intros Hv H. apply (with_state_inv best_effort_writer eq_refl) in H as [[->|(? & ? & ? & ? & _)] Hr]; [|done]. split; [done|].
  intros a Ha. destruct (Hr a Ha) as (b0 & b' & Hv0 & Hop & _). assert (b0 = b) as -> by congruence. eauto.
Qed.

(** What other processes may do: nothing to this workspace. *)
Definition rely (o : bucket_file -> bucket_file) : Prop := forall f b, view f = Some b -> state_inv b ->
  exists b', view (o f) = Some b' /\ state_inv b' /\ workspace (sv_sync s) b' = workspace (sv_sync s) b.

Context (Hsvc : svc_ok (sv_sync s)).

(** A successful section leaves a state that loads. *)
Lemma stepped_view b b' : state_step b b' -> view (Some (Decodes b')) = Some b' /\ state_inv b'.
Proof. intros Hs. split; [apply view_Decodes, Hs|by eapply state_step_inv]. Qed.

Lemma Pull_spec w now observed (f : bucket_file) b r f' : view f = Some b -> state_inv b -> Pull w now (sv_sync s) observed f = (r, f') ->
  exists b', view f' = Some b' /\ state_inv b' /\ ws_Stashes (workspace (sv_sync s) b') = ws_Stashes (workspace (sv_sync s) b) /\
    (ws_Initialized (workspace (sv_sync s) b) = true -> ws_Initialized (workspace (sv_sync s) b') = true) /\
    forall ws, r = Ok ws -> ws = workspace (sv_sync s) b' /\ ws_Initialized ws = true.
Proof.
  intros Hv Hi H. unfold Pull in H. set (args := mbind _ _) in H. destruct args as [remote|] eqn:Ea; cbn [method] in H.
  2: { injection H as <- <-. exists b. by split_and!. }
  apply (bucket_cases _ _ _ _ _ _ Hv) in H as [[-> Hr]|(ws & b' & Hop & -> & Hr)].
  { exists b. split_and!; try done. intros ws ->. done. }
  assert (validateHead remote = Ok ()) as Hrv. { unfold args in Ea. simplify_result. by eapply headFromRef_ok. }
  destruct (pullLocked_step _ _ _ _ _ _ Hi Hsvc Hrv Hop) as [Hst Hws]. destruct (stepped_view _ _ Hst) as [Hv' Hi'].
  exists b'. rewrite Hws. unfold pullLocked in Hop. simplify_result. split_and!; try done. intros ws' Hws'. by rewrite (Hr _ Hws').
Qed.

Lemma Stage_new w now random c base message (f : bucket_file) b r f' : view f = Some b -> state_inv b -> ws_Stashes (workspace (sv_sync s) b) = [] ->
  (forall id, random = Some id -> id <> EmptyString) ->
  Stage w now (sv_sync s) random (Some c) base None message f = (r, f') ->
  (f' = f /\ is_ok r = false) \/
  exists b' id st, random = Some id /\ st = mkStash id ("push_" +:+ id) (cid_String c) base EmptyString (TrimSpace message) false status_pending EmptyString [] now now /\
    view f' = Some b' /\ state_inv b' /\ ws_Stashes (workspace (sv_sync s) b') = [st] /\
    ws_Initialized (workspace (sv_sync s) b') = ws_Initialized (workspace (sv_sync s) b) /\ forall st', r = Ok st' -> st' = st.
Proof.
  intros Hv Hi Hl Hrand H. unfold Stage in H. cbn [or_err mbind result_bind] in H. destruct (validateHead base) as [[]|] eqn:Hb; cbn [wrap_err mbind result_bind method] in H.
  2: { left. by simplify_eq. }
  apply (bucket_cases _ _ _ _ _ _ Hv) in H as [H|(st & b' & Hop & -> & Hr)]; [by left|]. right.
  assert (state_step b b') as Hst. { eapply stageLocked_step; eauto. intros id Hid. split; [by apply Hrand|]. unfold ids. rewrite Hl. apply not_elem_of_nil. }
  destruct (stepped_view _ _ Hst) as [Hv' Hi']. unfold stageLocked, randomID in Hop. rewrite Hl in Hop. cbn [List.find] in Hop. simplify_result.
  eexists _, _, _. split_and!; [done|done|exact Hv'|done|by rewrite workspace_store|by rewrite workspace_store|done].
Qed.

Lemma Stage_again w now random c base message (f : bucket_file) b st r f' : view f = Some b -> state_inv b -> ws_Stashes (workspace (sv_sync s) b) = [st] ->
  is_pending st = true -> st_CandidateRoot st = cid_String c ->
  Stage w now (sv_sync s) random (Some c) base None message f = (r, f') ->
  view f' = Some b /\ forall st', r = Ok st' -> st' = st.
Proof.
  intros Hv Hi Hl Hp Hc H. unfold Stage in H. cbn [or_err mbind result_bind] in H. destruct (validateHead base) as [[]|] eqn:Hb; cbn [wrap_err mbind result_bind method] in H.
  2: { by simplify_eq. }
  apply (bucket_cases _ _ _ _ _ _ Hv) in H as [[-> H]|(st' & b' & Hop & -> & Hr)]; [split; [done|by intros ? ->]|].
  unfold stageLocked in Hop. rewrite Hl in Hop. cbn [List.find] in Hop. rewrite Hp, bool_decide_eq_true_2 in Hop by done. cbn [andb] in Hop. simplify_result.
  split; [|done]. apply view_Decodes. apply Hi.
Qed.

Lemma Restore_new w now st (f : bucket_file) b r f' : view f = Some b -> state_inv b -> ws_Stashes (workspace (sv_sync s) b) = [] ->
  RestorePending w now (sv_sync s) st f = (r, f') ->
  (f' = f /\ is_ok r = false) \/
  exists b', view f' = Some b' /\ state_inv b' /\ ws_Stashes (workspace (sv_sync s) b') = [touch (trim_Message st) now] /\ is_pending st = true /\
    ws_Initialized (workspace (sv_sync s) b') = ws_Initialized (workspace (sv_sync s) b) /\ ws_Remote (workspace (sv_sync s) b') = ws_Remote (workspace (sv_sync s) b) /\
    forall st', r = Ok st' -> st' = touch (trim_Message st) now.
Proof.
  intros Hv Hi Hl H. unfold RestorePending in H. set (args := mbind _ _) in H. destruct args as [st0|] eqn:Ea; cbn [method] in H; [|left; by simplify_eq].
  unfold args in Ea. clear args. simplify_result. repeat (match goal with H : context [let _ := _ in _] |- _ => cbv zeta in H end; simplify_result).
  apply (bucket_cases _ _ _ _ _ _ Hv) in H as [H|(st' & b' & Hop & -> & Hret)]; [by left|]. right.
  assert (check_stash (trim_Message st) = Ok ()) as Hcs.
  { change (check_stash st = Ok ()). simplify_guards. unfold check_stash. repeat match goal with u : unit |- _ => destruct u end.
    repeat match goal with H : _ = _ :> bool |- _ => rewrite H; clear H end. cbn. match goal with H : validateHead _ = _ |- _ => by rewrite H end. }
  pose proof (restoreLocked_step _ _ _ _ _ _ Hi Hsvc Hcs Hop) as Hst. destruct (stepped_view _ _ Hst) as [Hv' Hi'].
  unfold restoreLocked in Hop. rewrite Hl in Hop. cbn [restore_scan] in Hop. simplify_result. simplify_guards. exists (store (sv_sync s) (set_UpdatedAt (set_Stashes (workspace (sv_sync s) b) ([] ++ [touch (trim_Message st) now])) now) b).
  split_and!; [exact Hv'|done|by rewrite workspace_store|done|by rewrite workspace_store|by rewrite workspace_store|done].
Qed.

Lemma Resolve_spec w now id c (f : bucket_file) b st r f' : view f = Some b -> state_inv b -> ws_Stashes (workspace (sv_sync s) b) = [st] ->
  ResolveBranched w now (sv_sync s) id c f = (r, f') ->
  (f' = f /\ is_ok r = false) \/ exists b', view f' = Some b' /\ state_inv b' /\ ws_Stashes (workspace (sv_sync s) b') = [].
Proof.
  intros Hv Hi Hl H. unfold ResolveBranched in H. set (args := mbind _ _) in H. destruct args as [u|]; cbn [method] in H; [|left; by simplify_eq].
  apply (bucket_cases _ _ _ _ _ _ Hv) in H as [H|(ws & b' & Hop & -> & Hr)]; [by left|]. right.
  pose proof (resolveLocked_step _ _ _ _ _ _ _ Hi Hsvc Hop) as Hst. destruct (stepped_view _ _ Hst) as [Hv' Hi'].
  unfold resolveLocked in Hop. rewrite Hl in Hop. cbn [resolve_scan] in Hop. simplify_result. exists (store (sv_sync s) (set_heads (set_Stashes (workspace (sv_sync s) b) r0) r1 (ws_Remote (workspace (sv_sync s) b)) now) b).
  split_and!; [exact Hv'|done|]. rewrite workspace_store by done. cbn. case_bool_decide; cbn in *; by simplify_result.
Qed.
End Linked.

(** * What the push and the operations of the history do to a linked
    publication. *)

Section Push.
Context {L : CidLib} {LL : CidLaws L} {SH : Sha256}.
Context (s : PlanService) (Hsvc : svc_ok (sv_sync s)).

Definition same_request (st st' : Stash) : Prop :=
  st_ID st' = st_ID st /\ st_PushID st' = st_PushID st /\ st_CandidateRoot st' = st_CandidateRoot st /\ st_Base st' = st_Base st /\
  st_Message st' = st_Message st /\ st_ChangeSetCID st' = st_ChangeSetCID st.

Lemma same_request_eq st st' : same_request st st' -> push_request (sv_sync s) st' = push_request (sv_sync s) st.
Proof. intros (_ & H2 & H3 & H4 & H5 & H6). unfold push_request. by rewrite H2, H3, H4, H5, H6. Qed.
Lemma same_request_owns p st st' : same_request st st' -> owns p st -> owns p st'.
Proof. intros (H1 & H2 & H3 & H4 & H5 & H6) (O1 & O2 & O3 & O4 & O5 & O6). unfold owns, matches. split_and!; congruence. Qed.

Lemma freeze_one now c st m st' l : is_pending st = true -> st_CandidateRoot st = c -> st_Message st = m -> st_ChangeSetCID st = EmptyString -> m <> EmptyString ->
  freeze_scan now c EmptyString m [st] = Ok (st', l) -> l = [st'] /\ same_request st st' /\ is_pending st' = true.
Proof.
  intros Hp Hc Hm Hcs Hne H. cbn [freeze_scan] in H. rewrite Hp, bool_decide_eq_true_2 in H by done. cbn [negb orb] in H. simplify_result.
  unfold freeze_stash in Hr. apply is_empty_false in Hne. split; [done|]. unfold same_request, is_pending in *.
  destruct (st_RequestFrozen st); simplify_result; cbn; split_and!; try done. by rewrite Hne.
Qed.

Lemma push_freeze_one e c m (f : bucket_file) b st r f' : view f = Some b -> state_inv b -> ws_Stashes (workspace (sv_sync s) b) = [st] -> is_pending st = true ->
  st_CandidateRoot st = c -> st_Message st = m -> st_ChangeSetCID st = EmptyString -> TrimSpace m = m -> m <> EmptyString ->
  push_freeze e (sv_sync s) c None m f = (r, f') ->
  exists b' st', view f' = Some b' /\ state_inv b' /\ ws_Stashes (workspace (sv_sync s) b') = [st'] /\ same_request st st' /\ is_pending st' = true /\
    ws_Initialized (workspace (sv_sync s) b') = ws_Initialized (workspace (sv_sync s) b) /\ forall a, r = Ok a -> a = st'.
Proof.
  intros Hv Hi Hl Hp Hc Hm Hcs Ht Hne H. apply (bucket_cases _ _ _ _ _ _ Hv) in H as [[-> Hr]|(st' & b' & Hop & -> & Hr)].
  { exists b, st. split_and!; try done. by intros a ->. }
  destruct (freezeLocked_step _ _ _ _ _ _ _ _ _ Hi Hsvc Hop) as (Hst & _). destruct (stepped_view _ _ Hst) as [Hv' Hi'].
  unfold freezeLocked in Hop. rewrite Hl, Ht in Hop. cbn [cid_text] in Hop. simplify_result.
  match goal with H : freeze_scan _ _ _ _ _ = Ok _ |- _ => apply freeze_one in H as (-> & Hs & Hp'); [|done..] end.
  eexists _, _. split_and!; [exact Hv'|done|by rewrite workspace_store|done|done|by rewrite workspace_store|done].
Qed.

Lemma settle_one now now2 st value b ws b' : ws_Stashes (workspace (sv_sync s) b) = [st] -> settleLocked now now2 (sv_sync s) (st_ID st) value b = Ok (ws, b') ->
  ws_Initialized (workspace (sv_sync s) b') = ws_Initialized (workspace (sv_sync s) b) /\
  ((res_Status value <> status_branched /\ ws_Stashes (workspace (sv_sync s) b') = []) \/
   (res_Status value = status_branched /\ exists st', ws_Stashes (workspace (sv_sync s) b') = [st'] /\ same_request st st' /\ is_branched st' = true)).
Proof.
  intros Hl H. unfold settleLocked in H. rewrite Hl in H. cbn [settle_scan] in H. rewrite bool_decide_eq_true_2 in H by done. cbn [negb] in H. simplify_result.
  rewrite workspace_store by done. split; [done|]. cbn [ws_Stashes set_heads set_Stashes]. case_bool_decide; [right|left]; (split; [done|]); [|done].
  eexists. split; [done|]. by split_and!.
Qed.

(** A push of the candidate of the only stash of the workspace. *)
Lemma Push_one e c m (f : bucket_file) b st r f' : rely s (e_o6 e) -> rely s (e_o7 e) ->
  view f = Some b -> state_inv b -> ws_Stashes (workspace (sv_sync s) b) = [st] -> is_pending st = true ->
  st_CandidateRoot st = cid_String c -> st_Message st = m -> st_ChangeSetCID st = EmptyString -> TrimSpace m = m -> m <> EmptyString ->
  Push (e_push1 e) (e_push2 e) (e_push3 e) (e_o6 e) (e_o7 e) (sv_sync s) (Some c) None m (e_observed e) (e_remote e) f = (r, f') ->
  (forall rq, pushed_request s e c m f = Some rq -> push_request (sv_sync s) st = Ok rq) /\
  exists b', view f' = Some b' /\ state_inv b' /\ (ws_Initialized (workspace (sv_sync s) b) = true -> ws_Initialized (workspace (sv_sync s) b') = true) /\
    ((is_ok r = false /\ exists st', ws_Stashes (workspace (sv_sync s) b') = [st'] /\ same_request st st' /\ is_pending st' = true) \/
     (exists rq value, pushed_request s e c m f = Some rq /\ e_remote e rq = Ok (Some value) /\
        ValidateApplyResult (svc_bucketID (sv_sync s)) rq value = Ok () /\ (forall a, r = Ok a -> a.1 = value) /\
        ((res_Status value <> status_branched /\ ws_Stashes (workspace (sv_sync s) b') = []) \/
         (res_Status value = status_branched /\ exists st', ws_Stashes (workspace (sv_sync s) b') = [st'] /\ same_request st st' /\ is_branched st' = true)))).
Proof.
  intros H6 H7 Hv Hi Hl Hp Hc Hm Hcs Ht Hne H. unfold Push in H. unfold pushed_request.
  destruct (push_freeze _ _ _ _ _ f) as [frozen f1] eqn:Ef.
  destruct (push_freeze_one _ _ _ _ _ _ _ _ Hv Hi Hl Hp Hc Hm Hcs Ht Hne Ef) as (b1 & st1 & Hv1 & Hi1 & Hl1 & Hs1 & Hp1 & Hin1 & Hr1).
  destruct frozen as [stash|err]; [rewrite (Hr1 stash eq_refl) in *|].
  2: { simplify_eq. split; [done|]. exists b1. split_and!; [done|done|congruence|]. left. eauto. }
  destruct (H6 f1 b1 Hv1 Hi1) as (b2 & Hv2 & Hi2 & Hw2). destruct (Pull _ _ _ _ _) as [pulled f2] eqn:Ep. cbn [fst].
  destruct (Pull_spec s Hsvc _ _ _ _ _ _ _ Hv2 Hi2 Ep) as (b3 & Hv3 & Hi3 & Hl3 & Hin3 & _). rewrite Hw2 in *.
  assert (ws_Initialized (workspace (sv_sync s) b) = true -> ws_Initialized (workspace (sv_sync s) b3) = true) as Hin by (intros Hx; apply Hin3; congruence).
  rewrite Hl1 in Hl3. assert (forall rq, push_request (sv_sync s) st1 = Ok rq -> push_request (sv_sync s) st = Ok rq) as Hreq by (intros rq Hq; by rewrite <- (same_request_eq _ _ Hs1)).
  split. { intros rq. destruct pulled; [|done]. destruct (push_request _ st1) eqn:Eq; [|done]. intros [= <-]. by apply Hreq. }
  destruct (mbind _ _) as [value|err] eqn:Em. 2: { simplify_eq. exists b3. split_and!; [done|done|done|]. left. split; [done|eauto]. }
  simplify_result. match goal with H : push_request _ st1 = Ok ?rq |- _ => rewrite H; rename H into Hrq end. cbn [option_list].
  destruct (H7 f2 b3 Hv3 Hi3) as (b4 & Hv4 & Hi4 & Hw4). destruct (push_settle _ _ _ _ _) as [settled f3] eqn:Es.
  assert (is_ok r = is_ok settled /\ f' = f3 /\ forall a, r = Ok a -> a.1 = value) as (Hok & -> & Hval) by (destruct settled; simplify_eq; by split_and!; [..|intros ? [= <-]]).
  apply (bucket_cases _ _ _ _ _ _ Hv4) in Es as [[-> Hbad]|(ws5 & b5 & Hop & -> & _)].
  - exists b4. split_and!; [done|done|by rewrite Hw4|]. left. split; [congruence|]. rewrite Hw4. eauto.
  - destruct (settleLocked_step _ _ _ _ _ _ _ _ Hi4 Hsvc Hop) as (Hst & _). destruct (stepped_view _ _ Hst) as [Hv5 Hi5].
    destruct (settle_one _ _ _ _ _ _ _ ltac:(by rewrite Hw4) Hop) as [Hin5 Hcase]. exists b5. split_and!; [exact Hv5|done|by rewrite Hin5, Hw4|]. right.
    match goal with u : unit |- _ => destruct u end. eexists _, value. split_and!; try done.
    destruct Hcase as [?|(Hb & st' & Hl' & Hs' & Hb')]; [by left|right]. split; [done|]. exists st'. split_and!; [done| |done].
    destruct Hs1 as (? & ? & ? & ? & ? & ?), Hs' as (? & ? & ? & ? & ? & ?). split_and!; congruence.
Qed.
End Push.
