(* ===== verification/PlanFlow.v ===== *)
(** A calculus for the handlers of a plan, and what each of their store
    operations does to a linked publication. *)

From stdpp Require Import base decidable gmap strings list.
From Stdlib Require Import Ascii ZArith Lia.
From S2P Require Import Prelude GoText CidLib Effect Durable Trust Roots Registry PlainTree Install Branch NodeApi BucketSync BucketSyncFacts BucketSyncThms History Plans PlanManifest PlanBackup PlanLinked TrustFacts TrustThms.

Section Flow.
Context {L : CidLib} {LL : CidLaws L} {SH : Sha256}.
Context (s : PlanService) (Hsvc : svc_ok (sv_sync s)).

(** The trust store has the candidate, or it has accepted it. *)
Definition recorded (f : trust_file) (c : Cid) : Prop :=
  exists w, roots_AcceptedRoot w f (sv_alias s) = Ok c \/ exists base, HasCandidate w (sv_alias s) (Some c) base f = Ok true.

(** Where a call that began with the requests [sent] may stop. *)
Definition fin (sent : list ApplyRequest) (n : node) : Prop :=
  inv s n /\ (nd_sent n = sent \/ exists rq c, nd_sent n = sent ++ [rq] /\ ar_CandidateRoot rq = cid_String c /\ recorded (nd_trust n) c).

Context (sent : list ApplyRequest).

Definition wpa {A} (m : Act node A) (Q : A -> node -> Prop) (n : node) : Prop :=
  match m n with (Ok a, n') => Q a n' | (Err _, n') => fin sent n' end.
Definition wp {A} (m : Flow A) (Q : A -> node -> Prop) (n : node) : Prop :=
  match m n with (inl a, n') => Q a n' | (inr _, n') => fin sent n' end.

Lemma wp_try {A} res (m : Act node A) Q n : wpa m Q n -> wp (try res m) Q n.
Proof. unfold wpa, wp, try. by destruct (m n) as [[a|e] n']. Qed.
Lemma wp_bind {A B} (m : Flow A) (f : A -> Flow B) Q n : wp m (fun a => wp (f a) Q) n -> wp (Flow_bind _ _ f m) Q n.
Proof. unfold wp, Flow_bind. by destruct (m n) as [[a|e] n']. Qed.
Lemma wp_ret {A} (a : A) Q n : Q a n -> wp (Flow_ret _ a) Q n.
Proof. done. Qed.
Lemma wp_fail {A} res e (Q : A -> node -> Prop) n : fin sent n -> wp (fail res e) Q n.
Proof. done. Qed.
Lemma wp_mono {A} (m : Flow A) (Q Q' : A -> node -> Prop) n : wp m Q n -> (forall a n', Q a n' -> Q' a n') -> wp m Q' n.
Proof. unfold wp. destruct (m n) as [[a|e] n']; eauto. Qed.
Lemma wpa_bind {A B} (m : Act node A) (f : A -> Act node B) Q n : wpa m (fun a => wpa (f a) Q) n -> wpa (m ≫= f) Q n.
Proof. unfold wpa, mbind, Act_bind. by destruct (m n) as [[a|e] n']. Qed.
Lemma wpa_ret {A} (a : A) Q n : Q a n -> wpa (mret a) Q n.
Proof. done. Qed.
Lemma wpa_pure {A} (r : result A) Q n : fin sent n -> (forall a, r = Ok a -> Q a n) -> wpa (pure r) Q n.
Proof. intros Hf HQ. unfold wpa, pure. destruct r; [by apply HQ|done]. Qed.
Lemma wpa_reads {A} (f : node -> result A) Q n : fin sent n -> (forall a, f n = Ok a -> Q a n) -> wpa (reads f) Q n.
Proof. intros Hf HQ. unfold wpa, reads. destruct (f n); [by apply HQ|done]. Qed.
Lemma wpa_wrapped {A} t (m : Act node A) Q n : wpa m Q n -> wpa (wrapped t m) Q n.
Proof. unfold wpa, wrapped. by destruct (m n) as [[a|e] n']. Qed.
Lemma wp_check res r Q n : fin sent n -> (r = Ok () -> Q () n) -> wp (check res r) Q n.
Proof. intros Hf HQ. apply wp_try, wpa_pure; [done|]. by intros []. Qed.
Lemma wpa_outcome_reads {A} (f : node -> result A) Q n : Q (f n) n -> wpa (outcome (reads f)) Q n.
Proof. done. Qed.

(** ** The state *)
Definition at_ (h : historyFile) (ws : Workspace) (n : node) : Prop := good s n h ws /\ nd_sent n = sent.

Lemma at_fin h ws n : at_ h ws n -> fin sent n.
Proof. intros [Hg Hs]. split; [by exists h, ws|by left]. Qed.

Lemma good_history n h ws h' ws' f' : good s n h ws -> view f' = Some h' -> ws' = ws ->
  linked s (hf_Pending h') (hf_Conflict h') (ws_Stashes ws) -> (hf_Pending h' <> None -> ws_Initialized ws = true) ->
  keys s (nd_sent n) (hf_Pending h') (ws_Stashes ws) -> good s (mkNode f' (nd_bucket n) (nd_trust n) (nd_sent n)) h' ws'.
Proof. intros [H1 H2 H3 H4 H5] Hv -> Hl Hr Hk. by split. Qed.

Lemma good_bucket n h ws b f' sent' : good s n h ws -> view f' = Some b -> state_inv b ->
  linked s (hf_Pending h) (hf_Conflict h) (ws_Stashes (workspace (sv_sync s) b)) ->
  (hf_Pending h <> None -> ws_Initialized (workspace (sv_sync s) b) = true) ->
  keys s sent' (hf_Pending h) (ws_Stashes (workspace (sv_sync s) b)) ->
  good s (mkNode (nd_history n) f' (nd_trust n) sent') h (workspace (sv_sync s) b).
Proof. intros [H1 H2 H3 H4 H5] Hv Hi Hl Hr Hk. split; try done. by exists b. Qed.

(** ** Bucket operations *)
Lemma wpa_others o Q n h ws : rely s o -> at_ h ws n ->
  (forall n', at_ h ws n' -> nd_trust n' = nd_trust n -> Q () n') -> wpa (others o) Q n.
Proof.
  intros Ho [[H1 (b & Hv & Hi & <-) H3 H4 H5] Hs] HQ. unfold wpa, others, modify. apply HQ; [|done]. destruct (Ho _ _ Hv Hi) as (b' & Hv' & Hi' & E).
  split; [|done]. split; try done. by exists b'.
Qed.

Lemma wpa_status w Q n h ws : at_ h ws n -> Q ws n -> wpa (on_bucket (StatusOf w (sv_sync s))) Q n.
Proof.
  intros Hat HQ. pose proof Hat as [[_ (b & Hv & _ & <-) _ _ _] _]. unfold wpa, on_bucket. destruct (StatusOf w (sv_sync s) (nd_bucket n)) as [r f] eqn:E.
  apply (bucket_reads _ _ _ _ _ _ Hv) in E as [-> Hr]. assert (mkNode (nd_history n) (nd_bucket n) (nd_trust n) (nd_sent n) = n) as -> by by destruct n.
  destruct r as [a|e]; [|by eapply at_fin]. destruct (Hr a eq_refl) as (b' & [= <- _]). done.
Qed.

Lemma wpa_base w root Q n h ws : at_ h ws n -> (validateHead (ws_Base ws) = Ok () -> Q (ws_Base ws) n) -> wpa (on_bucket (CurrentBase w (sv_sync s) root)) Q n.
Proof.
  intros Hat HQ. pose proof Hat as [[_ (b & Hv & Hi & <-) _ _ _] _]. unfold wpa, on_bucket. destruct (CurrentBase w (sv_sync s) root (nd_bucket n)) as [r f] eqn:E.
  apply (bucket_reads _ _ _ _ _ _ Hv) in E as [-> Hr]. assert (mkNode (nd_history n) (nd_bucket n) (nd_trust n) (nd_sent n) = n) as -> by by destruct n.
  destruct r as [a|e]; [|by eapply at_fin]. destruct (Hr a eq_refl) as (b' & Hop). cbv zeta in Hop. simplify_result. apply HQ. apply workspace_ok, Hi.
Qed.

Lemma wpa_pull w now observed Q n h ws : at_ h ws n ->
  (forall ws' n', at_ h ws' n' -> nd_trust n' = nd_trust n -> ws_Stashes ws' = ws_Stashes ws -> ws_Initialized ws' = true -> Q ws' n') ->
  wpa (on_bucket (Pull w now (sv_sync s) observed)) Q n.
Proof.
  intros [Hg Hs] HQ. pose proof Hg as [_ (b & Hv & Hi & <-) H3 H4 H5]. unfold wpa, on_bucket. destruct (Pull w now _ _ _) as [r f] eqn:E.
  destruct (Pull_spec s Hsvc _ _ _ _ _ _ _ Hv Hi E) as (b' & Hv' & Hi' & Hst & Hin & Hr).
  assert (at_ h (workspace (sv_sync s) b') (mkNode (nd_history n) f (nd_trust n) (nd_sent n))) as Hat.
  { split; [|done]. eapply good_bucket; rewrite ?Hst; try done. intros Hp. by apply Hin, H4. }
  destruct r as [ws|e]; [|by eapply at_fin]. destruct (Hr ws eq_refl) as [-> Hi0]. by apply HQ.
Qed.

Lemma pending_not_branched st : is_pending st = true -> is_branched st = true -> False.
Proof. unfold is_pending, is_branched. intros H1%bool_decide_eq_true H2%bool_decide_eq_true. rewrite H1 in H2. by vm_compute in H2. Qed.

(** Staging the journaled candidate, for the first time or again. *)
Definition fresh_id (random : option string) : Prop :=
  forall id, random = Some id -> id <> EmptyString /\ forall r, r ∈ sent -> ar_OperationID r <> TrimSpace ("push_" +:+ id).

Lemma wpa_stage w now random c p Q n h ws : at_ h ws n -> hf_Pending h = Some p -> unstaged p -> candidate_of p = cid_String c -> fresh_id random ->
  (forall st ws' n', at_ h ws' n' -> nd_trust n' = nd_trust n -> ws_Stashes ws' = [st] -> is_pending st = true -> matches p st -> Q st n') ->
  wpa (on_bucket (Stage w now (sv_sync s) random (Some c) (re_Base (pb_Result p)) None (pb_Message p))) Q n.
Proof.
  intros [Hg Hs] Hp Hu Hc Hfresh HQ. pose proof Hg as [_ (b & Hv & Hi & <-) H3 H4 H5]. rewrite Hp in *. unfold wpa, on_bucket. destruct (Stage _ _ _ _ _ _ _ _ _) as [r f] eqn:E.
  destruct (linked_unstaged s p _ _ H3 Hu) as (Hj & Ecn & [E3|(st & E3 & Hpe & Hm)]); rewrite E3, ?Ecn in *.
  - destruct (Stage_new s Hsvc _ _ _ _ _ _ _ _ _ _ Hv Hi E3 (fun id Hid => proj1 (Hfresh id Hid)) E) as [[-> Hr]|(b' & id & st & Hid & Est & Hv' & Hi' & Hl & Hin & Hr)].
    { destruct r; [done|]. destruct n. by apply (at_fin h (workspace (sv_sync s) b)). }
    destruct Hj as [? ? ? ? ? ? ? [Ht Hne] ? ?]. assert (matches p st) as Hm by (rewrite Est; unfold matches; by cbn).
    assert (at_ h (workspace (sv_sync s) b') (mkNode (nd_history n) f (nd_trust n) (nd_sent n))) as Hat.
    { split; [|done]. eapply good_bucket; try done; rewrite ?Hl, ?Hin, ?Hp, ?Ecn; [|by intros _; apply H4|].
      - apply linked_staged; try done. by rewrite Est.
      - destruct H5 as [K1 K2 K3]. split; [done| |done]. intros rq st' Hrq ->%list_elem_of_singleton Hk. rewrite Est in Hk. cbn in Hk. rewrite Hs in Hrq. by destruct (proj2 (Hfresh id Hid) rq Hrq). }
    destruct r as [st'|e]; [|by eapply at_fin]. rewrite (Hr st' eq_refl). eapply HQ; try done. by rewrite Est.
  - destruct (Stage_again s _ _ _ _ _ _ _ _ _ _ _ Hv Hi E3 Hpe ltac:(destruct Hm as (-> & _); done) E) as [Hv' Hr].
    assert (at_ h (workspace (sv_sync s) b) (mkNode (nd_history n) f (nd_trust n) (nd_sent n))) as Hat by (split; [|done]; eapply good_bucket; rewrite ?Hp, ?E3, ?Ecn; try done; by apply linked_staged).
    destruct r as [st'|e]; [|by eapply at_fin]. rewrite (Hr st' eq_refl). by eapply HQ.
Qed.

Lemma wpa_restore w now c p Q n h ws : at_ h ws n -> hf_Pending h = Some p -> staged p -> candidate_of p = cid_String c -> ws_Stashes ws = [] ->
  (forall st ws' n', at_ h ws' n' -> nd_trust n' = nd_trust n -> ws_Stashes ws' = [st] -> is_pending st = true -> owns p st -> ws_Remote ws' = ws_Remote ws -> Q st n') ->
  wpa (on_bucket (RestorePending w now (sv_sync s) (restored_stash p c))) Q n.
Proof.
  intros [Hg Hs] Hp Hst Hc Hl HQ. pose proof Hg as [_ (b & Hv & Hi & <-) H3 H4 H5]. rewrite Hp, Hl in *. unfold wpa, on_bucket. destruct (RestorePending _ _ _ _ _) as [r f] eqn:E.
  assert (journal_ok s p /\ hf_Conflict h = None) as [Hj Hcn] by (inversion H3; by subst).
  destruct (Restore_new s Hsvc _ _ _ _ _ _ _ Hv Hi Hl E) as [[-> Hr]|(b' & Hv' & Hi' & Hl' & Hpe & Hin & Hrem & Hr)].
  { destruct r; [done|]. destruct n. by apply (at_fin h (workspace (sv_sync s) b)). }
  set (st := touch (trim_Message (restored_stash p c)) now) in *. assert (owns p st) as Ho.
  { destruct Hj as [? ? ? ? ? ? ? [Ht Hne] ? ?]. unfold owns, matches. cbn. split_and!; try done. }
  assert (at_ h (workspace (sv_sync s) b') (mkNode (nd_history n) f (nd_trust n) (nd_sent n))) as Hat.
  { split; [|done]. eapply good_bucket; try done; rewrite ?Hl', ?Hin, ?Hp, ?Hcn; [|by intros _; apply H4|by apply keys_restored].
    by apply linked_frozen. }
  destruct r as [st'|e]; [|by eapply at_fin]. rewrite (Hr st' eq_refl). by eapply HQ.
Qed.

Lemma journal_candidate p rq c : candidate_of p = cid_String c -> journal_request s p = Ok rq -> ar_CandidateRoot rq = cid_String c.
Proof.
  intros Hc H. unfold journal_request, NormalizeApplyRequest in H. simplify_result. cbn [ar_CandidateRoot] in *.
  match goal with H : canonicalCID _ = Ok _ |- _ => rewrite Hc, (cid_string_trimmed c), canonicalCID_id in H by (by eexists); by injection H end.
Qed.

Lemma wpa_push_logged e c p st Q n h ws : at_ h ws n -> hf_Pending h = Some p -> staged p -> candidate_of p = cid_String c ->
  ws_Stashes ws = [st] -> is_pending st = true -> owns p st -> recorded (nd_trust n) c -> rely s (e_o6 e) -> rely s (e_o7 e) ->
  (forall value w rq ws' n', good s n' h ws' -> nd_sent n' = sent ++ [rq] -> nd_trust n' = nd_trust n -> journal_request s p = Ok rq ->
     e_remote e rq = Ok (Some value) -> ValidateApplyResult (p_BucketID (sv_plan s)) rq value = Ok () ->
     ((res_Status value <> status_branched /\ ws_Stashes ws' = []) \/
      (res_Status value = status_branched /\ exists st', ws_Stashes ws' = [st'] /\ owns p st' /\ is_branched st' = true)) -> Q (value, w) n') ->
  wpa (push_logged s e c (pb_Message p)) Q n.
Proof.
  intros [Hg Hs] Hp Hst Hc Hl Hpe Ho Hrec H6 H7 HQ. pose proof Hg as [_ (b & Hv & Hi & Hws) H3 H4 H5]. rewrite <- Hws in *. clear ws Hws.
  rewrite Hp, Hl in *. destruct (linked_staged_cases s p _ _ H3 Hst) as [Hj Hcase]. destruct (jo_message _ _ Hj) as [Ht Hne].
  pose proof Ho as (_ & _ & M1 & M2 & M3 & M4). unfold wpa, push_logged. destruct (Push _ _ _ _ _ _ _ _ _ _ _ _) as [r f] eqn:E.
  assert (st_CandidateRoot st = cid_String c) as Hcst by by rewrite M1.
  destruct (Push_one s Hsvc e c (pb_Message p) _ b st r f H6 H7 Hv Hi Hl Hpe Hcst M3 M4 Ht Hne E) as (Hrq & b' & Hv' & Hi' & Hin & Hout).
  set (log := nd_sent n ++ option_list (pushed_request s e c (pb_Message p) (nd_bucket n))).
  assert (forall rq, pushed_request s e c (pb_Message p) (nd_bucket n) = Some rq -> journal_request s p = Ok rq) as Hjr by (intros rq Hq; rewrite <- (owns_request s _ _ Ho); by apply Hrq).
  assert (keys s log (Some p) [st]) as Hk.
  { unfold log. destruct (pushed_request s e c _ _) as [rq|]; cbn; [|by rewrite app_nil_r]. by apply keys_send; [| | |apply Hjr]. }
  assert (forall l, l = [] \/ (exists st', l = [st'] /\ same_request st st') -> keys s log (Some p) l) as Hks.
  { intros l [->|(st' & -> & Hsame)]; [by eapply keys_no_stash|]. destruct Hk as [K1 K2 K3]. split; [done| |done]. intros rq x Hin' ->%list_elem_of_singleton Hkey.
    rewrite (same_request_eq s _ _ Hsame). apply K2; [done|by left|]. by destruct Hsame as (_ & <- & _). }
  assert (forall l, linked s (Some p) (hf_Conflict h) l -> ws_Stashes (workspace (sv_sync s) b') = l -> (l = [] \/ exists st', l = [st'] /\ same_request st st') ->
    good s (mkNode (nd_history n) f (nd_trust n) log) h (workspace (sv_sync s) b')) as Hgood.
  { intros l Hlk El Hor. eapply good_bucket; try done; rewrite ?El, ?Hp; [done|intros _; by apply Hin, H4|by apply Hks]. }
  assert (forall ws', good s (mkNode (nd_history n) f (nd_trust n) log) h ws' -> fin sent (mkNode (nd_history n) f (nd_trust n) log)) as Hfin.
  { intros ws' Hg'. split; [by eexists _, _|]. cbn. unfold log. destruct (pushed_request s e c _ _) as [rq|] eqn:Eq; cbn; [right|left; by rewrite app_nil_r].
    exists rq, c. rewrite Hs. split_and!; [done| |done]. by apply (journal_candidate p); [|apply Hjr]. }
  assert (hf_Conflict h = None) as Ecn.
  { destruct Hcase as [[? ?]|[[? ?]|(st0 & [= <-] & Hb & _)]]; [done|done|]. by destruct (pending_not_branched st). }
  destruct Hout as [(Hbad & st' & El & Hsame & Hpe')|(rq & value & Hpr & Hrem & Hval & Hr & Hset)].
  - assert (owns p st') as Ho' by by eapply same_request_owns. assert (good s (mkNode (nd_history n) f (nd_trust n) log) h (workspace (sv_sync s) b')) as Hg'.
    { apply (Hgood [st']); [rewrite Ecn; by apply linked_frozen|done|right; by exists st']. }
    destruct r; [done|]. by eapply Hfin.
  - assert (good s (mkNode (nd_history n) f (nd_trust n) log) h (workspace (sv_sync s) b')) as Hg'.
    { destruct Hset as [[_ El]|(_ & st' & El & Hsame & Hb)].
      - apply (Hgood []); [rewrite Ecn; by apply linked_settled|done|by left].
      - apply (Hgood [st']); [|done|right; by exists st']. apply linked_branched; [done|done|done|by eapply same_request_owns]. }
    destruct r as [[value' w]|]; [|by eapply Hfin]. specialize (Hr _ eq_refl). cbn in Hr. subst value'. eapply HQ; [exact Hg'|..]; try done.
    + cbn. unfold log. by rewrite Hpr, Hs.
    + by apply Hjr.
    + destruct Hset as [?|(Hb & st' & El & Hsame & Hb')]; [by left|right]. split; [done|]. exists st'. split_and!; [done|by eapply same_request_owns|done].
Qed.

Lemma wpa_push e c p st Q n h ws : at_ h ws n -> hf_Pending h = Some p -> staged p -> candidate_of p = cid_String c ->
  ws_Stashes ws = [st] -> is_pending st = true -> owns p st -> recorded (nd_trust n) c -> rely s (e_o5 e) -> rely s (e_o6 e) -> rely s (e_o7 e) ->
  (forall value w rq ws' n', good s n' h ws' -> nd_sent n' = sent ++ [rq] -> nd_trust n' = nd_trust n -> journal_request s p = Ok rq ->
     e_remote e rq = Ok (Some value) -> ValidateApplyResult (p_BucketID (sv_plan s)) rq value = Ok () ->
     ((res_Status value <> status_branched /\ ws_Stashes ws' = []) \/
      (res_Status value = status_branched /\ exists st', ws_Stashes ws' = [st'] /\ owns p st' /\ is_branched st' = true)) -> Q (value, w) n') ->
  wpa (sync_Push s e c (pb_Message p)) Q n.
Proof.
  intros Hat Hp Hst Hc Hl Hpe Ho Hrec H5 H6 H7 HQ. apply wpa_bind, (wpa_others _ _ _ _ _ H5 Hat). intros n' Hat' Htr.
  eapply wpa_push_logged; try done; [by rewrite Htr|]. intros value w rq ws' n2 Hg2 Hs2 Ht2. apply (HQ value w rq ws'); try done. congruence.
Qed.

Lemma wpa_resolve w now id c Q n h ws st : at_ h ws n -> hf_Pending h = None -> ws_Stashes ws = [st] ->
  (forall a n', fin sent n' -> Q a n') -> wpa (on_bucket (ResolveBranched w now (sv_sync s) id c)) Q n.
Proof.
  intros [Hg Hs] Hp Hl HQ. pose proof Hg as [_ (b & Hv & Hi & Hws) H3 H4 H5]. rewrite <- Hws in *. clear ws Hws. rewrite Hp, Hl in *.
  destruct (linked_none s _ _ H3) as [Ecn _]. unfold wpa, on_bucket. destruct (ResolveBranched _ _ _ _ _ _) as [r f] eqn:E.
  assert (fin sent (mkNode (nd_history n) f (nd_trust n) (nd_sent n))) as Hfin; [|destruct r; [apply HQ, Hfin|exact Hfin]].
  destruct (Resolve_spec s Hsvc _ _ _ _ _ _ _ _ _ Hv Hi Hl E) as [[-> Hr]|(b' & Hv' & Hi' & Hl')].
  - destruct n. by apply (at_fin h (workspace (sv_sync s) b)).
  - apply (at_fin h (workspace (sv_sync s) b')). split; [|done]. eapply good_bucket; try done; rewrite ?Hl', ?Hp, ?Ecn; try done; [apply linked_idle|by eapply keys_no_stash].
Qed.

(** ** The history *)
Definition stops (n : node) : Prop := forall n', inv s n' -> nd_sent n' = nd_sent n -> nd_trust n' = nd_trust n -> fin sent n'.

Lemma at_stops h ws n : at_ h ws n -> stops n.
Proof. intros [_ Hs] n' Hi Hs' _. split; [done|]. left. congruence. Qed.

Lemma wpa_reading {A} w (read : historyFile -> A) Q n h ws : good s n h ws -> stops n -> Q (read h) n -> wpa (on_history (reading w read)) Q n.
Proof.
  intros Hg Hst HQ. unfold wpa, on_history. destruct (reading w read (nd_history n)) as [r f] eqn:E. apply reading_inv in E as [-> Hr].
  assert (mkNode (nd_history n) (nd_bucket n) (nd_trust n) (nd_sent n) = n) as -> by by destruct n.
  destruct r as [a|e]; [|apply Hst; [by eexists _, _|done|done]]. destruct (Hr a eq_refl) as (h' & Hv & ->). rewrite (gd_history _ _ _ _ Hg) in Hv. by injection Hv as <-.
Qed.

Lemma wpa_mutate w args up Q n h ws : good s n h ws -> stops n ->
  (forall h', args = Ok () -> up h = Ok h' -> History.wf h' /\ linked s (hf_Pending h') (hf_Conflict h') (ws_Stashes ws) /\
     (hf_Pending h' <> None -> ws_Initialized ws = true) /\ keys s (nd_sent n) (hf_Pending h') (ws_Stashes ws)) ->
  (forall h' n', args = Ok () -> up h = Ok h' -> good s n' h' ws -> nd_sent n' = nd_sent n -> nd_trust n' = nd_trust n -> nd_history n' = Some (Decodes h') -> Q () n') ->
  wpa (on_history (fun f => guarded args f (mutate w up f))) Q n.
Proof.
  intros Hg Hst Hup HQ. unfold wpa, on_history. destruct (guarded _ _ _) as [r f] eqn:E.
  assert (mkNode (nd_history n) (nd_bucket n) (nd_trust n) (nd_sent n) = n) as En by by destruct n.
  apply guarded_inv in E as [[-> Hbad]|[Hargs E]]; [destruct r; [done|]; rewrite En; apply Hst; [by eexists _, _|done|done]|].
  apply mutate_inv in E as [[-> Hbad]|(h0 & h' & Hv & Hh' & ->)]; [destruct r; [done|]; rewrite En; apply Hst; [by eexists _, _|done|done]|].
  rewrite (gd_history _ _ _ _ Hg) in Hv. injection Hv as <-. destruct (Hup h' Hargs Hh') as (Hwf & Hl & Hr & Hk).
  assert (good s (mkNode (Some (Decodes h')) (nd_bucket n) (nd_trust n) (nd_sent n)) h' ws) as Hg' by (eapply good_history; try done; by apply view_Decodes).
  destruct r as [[]|e]; [by apply (HQ h')|apply Hst; [by eexists _, _|done|done]].
Qed.
End Flow.

(** * What the operations of the history do to a linked publication. *)

Section Journal.
Context {L : CidLib} {LL : CidLaws L} {SH : Sha256}.
Context (s : PlanService) (Hsvc : svc_ok (sv_sync s)) (sent : list ApplyRequest).

Notation at_ := (at_ s sent).
Notation fin := (fin s sent).
Notation wpa := (wpa s sent).
Notation wp := (wp s sent).
Notation stops := (stops s sent).

(** The plan, profile, candidate and base of a result are those of the journal. *)
Definition same_result (p : PendingBackup) (r : Result) : Prop :=
  re_PlanID r = p_ID (sv_plan s) /\ re_Profile r = ProfileID /\ re_CandidateRoot r = candidate_of p /\ re_Base r = re_Base (pb_Result p).

Lemma journal_ok_identity p id push : journal_ok s p -> journal_ok s (set_identity id push p).
Proof. intros []. by split. Qed.
Lemma journal_ok_result p r : journal_ok s p -> same_result p r -> journal_ok s (set_Result r p).
Proof. intros [] (H1 & H2 & H3 & H4). split; cbn; try done; unfold candidate_of in *; cbn; [by rewrite H3|by rewrite H4]. Qed.
Lemma owns_result p r st : same_result p r -> owns p st -> owns (set_Result r p) st.
Proof. intros (_ & _ & H3 & H4) (O1 & O2 & O3 & O4 & O5 & O6). unfold owns, matches, candidate_of in *. cbn. split_and!; congruence. Qed.
Lemma journal_request_result p r : same_result p r -> journal_request s (set_Result r p) = journal_request s p.
Proof. intros (_ & _ & H3 & H4). unfold journal_request, candidate_of in *. cbn. by rewrite H3, H4. Qed.

Lemma good_wf n h ws : good s n h ws -> History.wf h.
Proof. intros Hg. exact (view_wf _ _ (gd_history _ _ _ _ Hg)). Qed.

Ltac open_method := unfold MarkPendingStaged, MarkPendingConflict, CompletePending, SetPending, ClearPending, SetConflictCheckout, ClearConflictCheckout; cbv zeta.

Lemma wpa_mark w c p st Q n h ws : at_ h ws n -> hf_Pending h = Some p -> ws_Stashes ws = [st] -> is_pending st = true ->
  (unstaged p /\ matches p st \/ staged p /\ owns p st) ->
  (forall h' n', at_ h' ws n' -> nd_trust n' = nd_trust n -> hf_Pending h' = Some (set_identity (st_ID st) (st_PushID st) p) ->
     staged (set_identity (st_ID st) (st_PushID st) p) -> owns (set_identity (st_ID st) (st_PushID st) p) st -> Q () n') ->
  wpa (on_history (MarkPendingStaged w (cid_String c) st)) Q n.
Proof.
  intros Hat Hp Hl Hpe Hown HQ. pose proof Hat as [Hg Hs]. pose proof Hg as [H1 _ H3 H4 H5]. open_method. rewrite (cid_string_trimmed c).
  assert (hf_Conflict h = None) as Ecn.
  { rewrite Hp, Hl in H3. destruct Hown as [[Hu _]|[Hst _]]; [by apply (linked_unstaged s p _ _ H3 Hu)|].
    destruct (linked_staged_cases s p _ _ H3 Hst) as [_ [[? _]|[[? _]|(st' & [= <-] & Hb & _)]]]; [done|done|]. by destruct (pending_not_branched st). }
  destruct (linked_journal s p (hf_Conflict h) (ws_Stashes ws) ltac:(by rewrite <- Hp)) as [Hj _].
  assert (matches p st) as Hm by (destruct Hown as [[_ ?]|[_ (_ & _ & ?)]]; done).
  assert (owns (set_identity (st_ID st) (st_PushID st) p) st) as Ho by (by unfold owns).
  apply (wpa_mutate _ _ _ _ _ _ _ h ws); [done|by eapply at_stops| |].
  - intros h' Hargs Hup. simplify_result. simplify_guards. rewrite !is_empty_false in *.
    apply markStaged_wf in Hup as (Hw & Ec & p0 & Hp0 & _ & _ & _ & Hp' & _); [|by eapply good_wf|done|done]. rewrite Hp in Hp0. injection Hp0 as <-.
    rewrite Hp', Ec, Ecn, Hl. split_and!; [done| | |].
    + apply linked_frozen; [by apply journal_ok_identity|done|done|done].
    + intros _. apply H4. by rewrite Hp.
    + eapply keys_owned; [|done]. by rewrite <- Hl.
  - intros h' n' Hargs Hup Hg' Hs' Htr _. simplify_result. simplify_guards. rewrite !is_empty_false in *.
    apply markStaged_wf in Hup as (Hw & Ec & p0 & Hp0 & _ & _ & _ & Hp' & _); [|by eapply good_wf|done|done]. rewrite Hp in Hp0. injection Hp0 as <-.
    eapply HQ; try done; (split; [done|congruence]).
Qed.

Lemma wpa_conflict w c p r st Q n h ws : good s n h ws -> stops n -> hf_Pending h = Some p -> staged p -> candidate_of p = cid_String c -> same_result p r ->
  ws_Stashes ws = [st] -> is_branched st = true -> owns p st -> (forall n', fin n' -> Q () n') ->
  wpa (on_history (MarkPendingConflict w (cid_String c) r)) Q n.
Proof.
  intros Hg Hst Hp Hsg Hc Hr Hl Hb Ho HQ. pose proof Hg as [H1 _ H3 H4 H5]. open_method. rewrite (cid_string_trimmed c).
  destruct (linked_journal s p (hf_Conflict h) (ws_Stashes ws) ltac:(by rewrite <- Hp)) as [Hj _].
  apply (wpa_mutate _ _ _ _ _ _ _ h ws); [done|done| |].
  - intros h' Hargs Hup. simplify_result. simplify_guards. apply markConflict_wf in Hup as (Hw & Ec & p0 & Hp0 & _ & Hp'); [|by eapply good_wf|done].
    rewrite Hp in Hp0. injection Hp0 as <-. rewrite Hp', Ec, Hl. split_and!; [done| | |].
    + apply linked_branched; [by apply journal_ok_result|done|done|by apply owns_result].
    + intros _. apply H4. by rewrite Hp.
    + rewrite Hp, Hl in H5. eapply keys_owned; [done|]. by apply owns_result.
  - intros h' n' Hargs Hup Hg' Hs' Htr _. apply HQ, Hst; [by eexists _, _|done|done].
Qed.

Lemma wpa_complete w c p r Q n h ws : good s n h ws -> stops n -> hf_Pending h = Some p -> staged p -> ws_Stashes ws = [] ->
  (forall h' n', good s n' h' ws -> nd_sent n' = nd_sent n -> nd_trust n' = nd_trust n -> hf_Pending h' = None ->
     (hf_Plans h' !! p_ID (sv_plan s)) ≫= ps_LastResult = Some r -> Q () n') ->
  p_ID (sv_plan s) = TrimSpace (p_ID (sv_plan s)) ->
  wpa (on_history (CompletePending w (cid_String c) (p_ID (sv_plan s)) r)) Q n.
Proof.
  intros Hg Hst Hp Hsg Hl HQ Hid. pose proof Hg as [H1 _ H3 H4 H5]. open_method. rewrite (cid_string_trimmed c), <- Hid.
  assert (hf_Conflict h = None) as Ecn by (rewrite Hp, Hl in H3; by destruct (linked_staged_cases s p _ _ H3 Hsg) as [_ [[? _]|[[? _]|(? & ? & _)]]]).
  apply (wpa_mutate _ _ _ _ _ _ _ h ws); [done|done| |].
  - intros h' Hargs Hup. pose proof Hup as Hup'. apply completePending_wf in Hup as (Hw & Hp' & _); [|by eapply good_wf|done]. unfold completePendingLocked in Hup'. simplify_result.
    cbn in *. rewrite Ecn, Hl. split_and!; [done|apply linked_idle|done|]. rewrite Hl in H5. by eapply keys_no_journal.
  - intros h' n' Hargs Hup Hg' Hs' Htr _. pose proof Hup as Hup'. apply completePending_wf in Hup as (Hw & Hp' & _); [|by eapply good_wf|done].
    eapply HQ; try done. unfold completePendingLocked in Hup'. simplify_result. cbn. by rewrite lookup_insert_eq.
Qed.

Lemma wpa_setPending w p Q n h ws : at_ h ws n -> hf_Pending h = None -> ws_Stashes ws = [] -> ws_Initialized ws = true -> journal_ok s p -> unstaged p ->
  (forall h' n', at_ h' ws n' -> nd_trust n' = nd_trust n -> hf_Pending h' = Some p -> Q () n') -> wpa (on_history (SetPending w p)) Q n.
Proof.
  intros Hat Hp Hl Hin Hj Hu HQ. pose proof Hat as [Hg Hs]. pose proof Hg as [H1 _ H3 H4 H5]. open_method.
  assert (pb_StashID p = EmptyString <-> pb_PushID p = EmptyString) as Hiff by (destruct Hu; done).
  apply (wpa_mutate _ _ _ _ _ _ _ h ws); [done|by eapply at_stops| |].
  - intros h' Hargs Hup. apply setPending_wf in Hup as (Hw & _ & Ec & Hp'); [|by eapply good_wf|done]. rewrite Hp', Ec, Hl. split_and!; [done|by apply linked_journaled|done|].
    rewrite Hl in H5. by eapply keys_unstaged.
  - intros h' n' Hargs Hup Hg' Hs' Htr _. apply setPending_wf in Hup as (Hw & _ & Ec & Hp'); [|by eapply good_wf|done]. eapply HQ; try done; (split; [done|congruence]).
Qed.

(** Updates of the states of the plans leave the publication alone. *)
Lemma wpa_update w args name change Q n h ws : good s n h ws -> stops n ->
  (forall h' n', args = Ok () -> good s n' h' ws -> nd_sent n' = nd_sent n -> nd_trust n' = nd_trust n -> Q () n') ->
  wpa (on_history (fun f => guarded args f (update w name change f))) Q n.
Proof.
  intros Hg Hst HQ. pose proof Hg as [H1 _ H3 H4 H5]. apply (wpa_mutate _ _ _ _ _ _ _ h ws); [done|done| |].
  - intros h' _ [= <-]. split_and!; [by eapply wf_same_pending; [by eapply good_wf|..]|done|done|done].
  - intros h' n' Hargs _ Hg' Hs' Htr _. by eapply HQ.
Qed.

(** ** Conflicts *)
Lemma wpa_clearPending w c p st Q n h ws : at_ h ws n -> hf_Pending h = Some p -> hf_Conflict h = None -> ws_Stashes ws = [st] -> is_branched st = true ->
  (forall h' n', at_ h' ws n' -> hf_Pending h' = None -> Q () n') -> wpa (on_history (ClearPending w c)) Q n.
Proof.
  intros Hat Hp Ecn Hl Hb HQ. pose proof Hat as [Hg Hs]. pose proof Hg as [H1 _ H3 H4 H5]. open_method.
  apply (wpa_mutate _ _ _ _ _ _ _ h ws); [done|by eapply at_stops| |].
  - intros h' Hargs Hup. pose proof Hup as Hup'. apply clearPending_wf in Hup as (Hw & Hp'); [|by eapply good_wf|done].
    assert (hf_Conflict h' = None) as Ecn' by (unfold clearPendingLocked in Hup'; rewrite Hp in Hup'; by simplify_result).
    rewrite Hp', Ecn', Hl. split_and!; [done|by apply linked_left|done|]. rewrite Hl in H5. by eapply keys_no_journal.
  - intros h' n' Hargs Hup Hg' Hs' Htr _. apply clearPending_wf in Hup as (Hw & Hp'); [|by eapply good_wf|done]. eapply HQ; [|done]; by (split; [done|congruence]).
Qed.

Lemma wpa_setConflict w co st Q n h ws : at_ h ws n -> ws_Stashes ws = [st] -> is_branched st = true ->
  (forall n', fin n' -> Q () n') -> wpa (on_history (SetConflictCheckout w co)) Q n.
Proof.
  intros Hat Hl Hb HQ. pose proof Hat as [Hg Hs]. pose proof Hg as [H1 _ H3 H4 H5]. open_method.
  apply (wpa_mutate _ _ _ _ _ _ _ h ws); [done|by eapply at_stops| |].
  - intros h' Hargs Hup. pose proof Hup as Hup'. simplify_result. simplify_guards.
    apply setConflict_wf in Hup as (Hw & Hp' & Ec'); [|by eapply good_wf|by apply blank_false|by apply blank_false|done].
    rewrite Hp', Ec'. split_and!; [done| |done|done]. unfold setConflictLocked in Hup'. destruct (hf_Pending h) as [p|] eqn:Ep; [|done]. rewrite Hl in *.
    destruct (linked_journal s p _ _ H3) as [Hj [Hst|Hu]].
    + destruct (linked_staged_cases s p _ _ H3 Hst) as [_ [[_ ?]|[(_ & st' & [= <-] & Hpe & _)|(st' & [= <-] & _ & Ho)]]]; [done|by destruct (pending_not_branched st)|by apply linked_branched].
    + destruct (linked_unstaged s p _ _ H3 Hu) as (_ & _ & [?|(st' & [= <-] & Hpe & _)]); [done|by destruct (pending_not_branched st)].
  - intros h' n' Hargs Hup Hg' Hs' Htr _. apply HQ. by eapply at_fin; split; [|congruence].
Qed.

Lemma wpa_clearConflict w id st Q n h ws : at_ h ws n -> ws_Stashes ws = [st] -> is_branched st = true ->
  (forall h' n', at_ h' ws n' -> hf_Pending h' = hf_Pending h -> hf_Conflict h' = None -> Q () n') -> wpa (on_history (ClearConflictCheckout w id)) Q n.
Proof.
  intros Hat Hl Hb HQ. pose proof Hat as [Hg Hs]. pose proof Hg as [H1 _ H3 H4 H5]. open_method.
  apply (wpa_mutate _ _ _ _ _ _ _ h ws); [done|by eapply at_stops| |].
  - intros h' Hargs Hup. apply clearConflict_wf in Hup as (Hw & Hp' & Ec'); [|by eapply good_wf]. rewrite Hp', Ec'. split_and!; [done| |done|done]. rewrite Hl in *.
    destruct (hf_Pending h) as [p|] eqn:Ep; [|by destruct (linked_none s _ _ H3) as [<- _]].
    destruct (linked_journal s p _ _ H3) as [Hj [Hst|Hu]].
    + destruct (linked_staged_cases s p _ _ H3 Hst) as [_ [[_ ?]|[(_ & st' & [= <-] & Hpe & _)|(st' & [= <-] & _ & Ho)]]]; [done|by destruct (pending_not_branched st)|by apply linked_branched].
    + by destruct (linked_unstaged s p _ _ H3 Hu) as (_ & <- & _).
  - intros h' n' Hargs Hup Hg' Hs' Htr _. apply clearConflict_wf in Hup as (Hw & Hp' & Ec'); [|by eapply good_wf]. eapply HQ; [|done|done]; by (split; [done|congruence]).
Qed.
End Journal.

(** * A candidate that was recorded can be looked up, or is the accepted root. *)

Section Recorded.
Context {L : CidLib} {LL : CidLaws L}.

Lemma GetState_view (f : trust_file) s alias v : view f = Some s -> Roots s !! normalizeAlias alias = Some v -> (GetState io_ok alias f).1 = Ok v.
Proof. intros Hv Hl. unfold GetState, locked. erewrite (critical_read synced_writer); [done|exact Hv|]. by rewrite Hl. Qed.

Lemma base_text base b : (if negb (bool_decide (TrimSpace (cid_or_empty base) = EmptyString)) then wrap_err "invalid candidate base root" (canonicalCID (cid_or_empty base)) else Ok EmptyString) = Ok b ->
  b = cid_or_empty base.
Proof.
  destruct base as [c|]; cbn [cid_or_empty].
  - rewrite (cid_string_trimmed c), bool_decide_eq_false_2 by apply cid_string_nonempty. cbn [negb]. rewrite canonicalCID_id by (by eexists). by intros [= <-].
  - by intros [= <-].
Qed.

Lemma root_for_accepted_in s alias a : Accepted (root_for s alias) = Some a -> exists v, Roots s !! alias = Some v /\ Accepted v = Some a.
Proof. unfold root_for, set_Alias. destruct (Roots s !! alias) as [v|]; cbn; [|done]. eauto. Qed.

Lemma observe_recorded w now alias c base source (f f' : trust_file) :
  ObserveCandidate w now alias (Some c) base source f = (Ok (), f') ->
  roots_AcceptedRoot io_ok f' alias = Ok c \/ HasCandidate io_ok alias (Some c) base f' = Ok true.
Proof.
  intros H. unfold ObserveCandidate, RecordCandidate in H. case_bool_decide as Ha; [done|]. unfold AddCandidate, normalizeAlias in H.
  rewrite (bool_decide_eq_false_2 (TrimSpace alias = EmptyString)) in H by done. cbn [fail_if mbind result_bind] in H. rewrite (canonicalCID_id (cid_String c)) in H by (by eexists). cbn [wrap_err mbind result_bind] in H.
  match goal with H : context [if negb ?b then ?x else ?y] |- _ => destruct (if negb b then x else y) as [b0|] eqn:Eb end; cbn [mbind result_bind Trust.method] in H; [|done].
  apply base_text in Eb as ->. destruct (Trust.locked _ _ f) as [[r|] f1] eqn:E; [|done]. cbn in H. injection H as <-.
  assert (TrimSpace alias <> EmptyString /\ TrimSpace (TrimSpace alias) = TrimSpace alias) as [Hne Ht] by (split; [done|apply TrimSpace_idemp]).
  apply critical_inv in E as [[-> Hr]|(s & a & s' & Hv & Hop & _ & Hr)]; [| |done].
  - left. destruct (Hr _ eq_refl) as (s & Hv & Hop). unfold addCandidateLocked in Hop. simplify_result.
    destruct (Accepted (root_for s (TrimSpace alias))) as [acc|] eqn:Eacc; [|done]. case_bool_decide as Ec; [|done].
    apply root_for_accepted_in in Eacc as (v & Hl & Hacc). unfold roots_AcceptedRoot, LookupAlias. cbn [or_err mbind result_bind]. rewrite bool_decide_eq_false_2 by done. cbn [fail_if mbind result_bind].
    unfold AcceptedRoot. cbn [or_err mbind result_bind]. rewrite (GetState_view f s (TrimSpace alias) v) by (unfold normalizeAlias; by rewrite ?Ht). cbn [mbind result_bind]. rewrite Hacc. cbn [or_err mbind result_bind].
    rewrite <- Ec. unfold parse_cid. rewrite cid_parse_string. done.
  - right. destruct (Hr _ eq_refl) as [<- ->].
    assert (view (Some (Decodes s')) = Some s') as Hv'.
    { apply view_Decodes. eapply (addCandidate_step (CallAddCandidate EmptyString EmptyString EmptyString EmptyString)); [by eapply trust_view_wf|done|done|by eexists|exact Hop]. }
    unfold addCandidateLocked in Hop. simplify_result. match type of Hop with (if ?b then _ else _) = _ => destruct b end; simplify_result.
    unfold HasCandidate. rewrite (GetState_view _ _ alias _ Hv' (lookup_insert_eq _ _ _)). cbn [mbind result_bind Candidates set_Candidates]. f_equal.
    apply existsb_exists. eexists. split; [apply in_or_app; right; by left|]. cbn. by rewrite !bool_decide_eq_true_2.
Qed.
End Recorded.
