(* ===== verification/PlanRuns.v ===== *)
(** The handlers of a plan keep the publication linked, whatever fails. *)

From stdpp Require Import base decidable gmap strings list relations.
From Stdlib Require Import Ascii ZArith Lia.
From S2P Require Import Prelude GoText CidLib Effect Durable Trust Roots PlanFlow Registry PlainTree Install Branch NodeApi BucketSync BucketSyncFacts BucketSyncThms History Plans PlanManifest PlanBackup PlanSync PlanLinked.

Section Handlers.
Context {L : CidLib} {LL : CidLaws L} {SH : Sha256}.
Context (s : PlanService) (Hsvc : svc_ok (sv_sync s)) (sent : list ApplyRequest).
Context (Hid : TrimSpace (p_ID (sv_plan s)) = p_ID (sv_plan s)).

Notation at_ := (at_ s sent).
Notation fin := (fin s sent).
Notation wpa := (wpa s sent).
Notation wp := (wp s sent).

(** The other services of the host leave the workspace alone, random identities
    do not repeat, and the clock is set. *)
Record env_ok (e : env) : Prop := {
  eo_rely : rely s (e_o1 e) /\ rely s (e_o2 e) /\ rely s (e_o3 e) /\ rely s (e_o4 e) /\ rely s (e_o5 e) /\ rely s (e_o6 e) /\ rely s (e_o7 e);
  eo_random : fresh_id sent (e_random e);
  eo_clock : e_createdAt e <> 0%Z
}.

(** The remote applied the candidate of the result, and the history says so. *)
Definition published (e : env) (result : Result) (n : node) : Prop :=
  exists h ws rq value, good s n h ws /\ hf_Pending h = None /\ (hf_Plans h !! p_ID (sv_plan s)) ≫= ps_LastResult = Some result /\
    nd_sent n = sent ++ [rq] /\ ar_CandidateRoot rq = re_CandidateRoot result /\ e_remote e rq = Ok (Some value) /\
    ValidateApplyResult (p_BucketID (sv_plan s)) rq value = Ok () /\ res_Status value <> status_branched /\ push_result result = value.

Definition done_ (e : env) (result : Result) (n : node) : Prop :=
  fin n /\ (published e result n \/ (nd_sent n = sent /\ re_Skipped result = true)).

Section Backup.
Context (p : ports) (e : env) (He : env_ok e).

Lemma wp_finish c j st result n h ws : at_ h ws n -> hf_Pending h = Some j -> candidate_of j = cid_String c -> ws_Stashes ws = [st] -> is_pending st = true ->
  (unstaged j /\ matches j st \/ staged j /\ owns j st) -> recorded s (nd_trust n) c -> same_result s j result ->
  wp (finish s e c (pb_Message j) result st) (done_ e) n.
Proof.
  intros Hat Hj Hc Hl Hpe Hown Hrec Hres. destruct (eo_rely _ He) as (_ & _ & _ & _ & R5 & R6 & R7). unfold finish.
  apply wp_bind, wp_try. eapply (wpa_mark s sent); try done. intros h1 n1 Hat1 Htr1 Hj1 Hst1 Ho1. set (j1 := set_identity _ _ _) in *.
  apply wp_bind, wp_try. change (pb_Message j) with (pb_Message j1). eapply (wpa_push s Hsvc sent e c j1 st); try done; [by rewrite Htr1|].
  intros value w rq ws2 n2 Hg2 Hs2 Htr2 Hrq Hrem Hval Hset. cbn [fst].
  assert (ar_CandidateRoot rq = cid_String c) as Hcr by by apply (journal_candidate s j1).
  assert (stops s sent n2) as Hstop.
  { intros n' Hi' Hs' Ht'. split; [done|right]. exists rq, c. split_and!; [congruence|done|]. by rewrite Ht', Htr2, Htr1. }
  assert (same_result s j1 (set_Push (Some (value, w)) (e_completedAt e) result)) as Hres1 by exact Hres.
  destruct Hset as [[Hnb Hl2]|(Hb & st' & Hl2 & Ho2 & Hb2)].
  - rewrite bool_decide_eq_false_2 by done. apply wp_bind, wp_try. eapply (wpa_complete s sent (e_done e) c j1); [done|done|done|done|done| |done].
    intros h3 n3 Hg3 Hs3 Ht3 Hp3 Hlast. apply wp_ret. split; [apply Hstop; [by eexists _, _|done|done]|left]. exists h3, ws2, rq, value. split_and!; try done; [congruence|].
    cbn. destruct Hres as (_ & _ & E & _). congruence.
  - rewrite bool_decide_eq_true_2 by done. apply wp_bind, wp_try. by eapply (wpa_conflict s sent (e_done e) c j1 _ st').
Qed.

Lemma canonical_parse raw c : canonical raw -> parse_cid raw = Ok c -> raw = cid_String c.
Proof. intros [c' ->]. unfold parse_cid. rewrite cid_parse_string. cbn. by intros [= <-]. Qed.

(** The scan of the workspace finds the stash of the journal. *)
Lemma pendingStash_linked ws j c found conflict : linked s (Some j) conflict (ws_Stashes ws) -> candidate_of j = cid_String c ->
  pendingStash ws j (cid_String c) = Ok found ->
  (found = None /\ ws_Stashes ws = [] /\ (staged j \/ unstaged j)) \/
  exists st, found = Some st /\ ws_Stashes ws = [st] /\ (is_pending st = true \/ is_branched st = true) /\ (unstaged j /\ matches j st \/ staged j /\ owns j st).
Proof.
  intros Hl Hc H. destruct (linked_journal s j _ _ Hl) as [_ [Hst|Hu]].
  - destruct (linked_staged_cases s j _ _ Hl Hst) as [_ [[_ E]|[(_ & st & E & Hp & Ho)|(st & E & Hb & Ho)]]]; unfold pendingStash in H; rewrite E in *.
    + left. simplify_result. auto.
    + right. exists st. rewrite (proj2 (is_empty_false _) (proj1 Hst)) in H. destruct Ho as (O1 & Ho). rewrite O1, bool_decide_eq_true_2 in H by done. cbn in H. simplify_result.
      split_and!; [done|done|by left|right; by split; [|split]].
    + right. exists st. rewrite (proj2 (is_empty_false _) (proj1 Hst)) in H. destruct Ho as (O1 & Ho). rewrite O1, bool_decide_eq_true_2 in H by done. cbn in H. simplify_result.
      split_and!; [done|done|by right|right; by split; [|split]].
  - destruct (linked_unstaged s j _ _ Hl Hu) as (_ & _ & [E|(st & E & Hp & Hm)]); unfold pendingStash in H; rewrite E in *.
    + left. simplify_result. auto.
    + right. exists st. rewrite (proj2 (is_empty_true _) (proj1 Hu)) in H. cbn in H. destruct Hm as (M1 & Hm). rewrite M1, Hc, bool_decide_eq_true_2, Hp in H by done. cbn in H. simplify_result.
      split_and!; [done|done|by left|left; split; [done|by split; [congruence|]]].
Qed.

Lemma wp_retry j n h ws : at_ h ws n -> hf_Pending h = Some j -> wp (retryPending s e j) (done_ e) n.
Proof.
  intros Hat Hj. destruct (eo_rely _ He) as (R1 & R2 & R3 & R4 & _). unfold retryPending.
  assert (fin n) as Hf by by eapply at_fin. pose proof Hat as [Hg Hs]. pose proof (gd_linked _ _ _ _ Hg) as Hl. rewrite Hj in Hl. destruct (linked_journal s j _ _ Hl) as [Hjo _].
  apply wp_bind, wp_check; [done|]. intros _. apply wp_bind, wp_check; [done|]. intros _.
  apply wp_bind, wp_try, wpa_pure; [done|]. intros c Hc. apply (canonical_parse _ _ (jo_candidate _ _ Hjo)) in Hc.
  apply wp_bind, wp_check; [done|]. intros _. apply wp_bind, wp_try, wpa_wrapped, wpa_pure; [done|]. intros cb _.
  apply wp_bind, wp_try. unfold roots_accepted. apply wpa_outcome_reads. set (accepted := roots_AcceptedRoot _ _ _).
  assert (forall (Q : unit -> node -> Prop), (recorded s (nd_trust n) c -> Q () n) ->
    wp (if match accepted with Ok root => bool_decide (root = c) | Err _ => false end then Flow_ret _ ()
        else Flow_bind _ _ (fun found => check None (fail_if (negb found) (Wrapf "durable trust state has no exact pending candidate" ErrPendingWorkspace)))
               (try None (wrapped "validate locally verified pending candidate" (roots_hasCandidate s e c cb)))) Q n) as Htrust.
  { intros Q HQ. destruct accepted as [root|] eqn:Ea; [case_bool_decide as Er|].
    - apply wp_ret, HQ. exists (e_accepted e). left. by rewrite <- Er.
    - apply wp_bind, wp_try, wpa_wrapped, wpa_reads; [done|]. intros found Hfound. apply wp_check; [done|]. intros E. destruct found; [|done]. apply HQ. exists (e_has e). eauto.
    - apply wp_bind, wp_try, wpa_wrapped, wpa_reads; [done|]. intros found Hfound. apply wp_check; [done|]. intros E. destruct found; [|done]. apply HQ. exists (e_has e). eauto. }
  apply wp_bind, Htrust. intros Hrec. clear Htrust accepted.
  apply wp_bind, wp_try. unfold sync_Status. apply wpa_bind. eapply wpa_others; [done|done|]. clear Hat Hg Hs Hf. intros n1 Hat Htr. rewrite <- Htr in Hrec. clear n Htr.
  rename n1 into n. assert (fin n) as Hf by by eapply at_fin. pose proof Hat as [Hg Hs].
  eapply wpa_status; [done|]. apply wp_bind, wp_try, wpa_pure; [done|]. intros found Hfound. apply wp_bind, wp_check; [done|]. intros _.
  assert (same_result s j (set_Retried false (pb_Result j))) as Hres by (destruct Hjo; by split_and!).
  apply (pendingStash_linked ws j c found (hf_Conflict h)) in Hfound; [|done|done].
  destruct Hfound as [(-> & El & [Hst|Hu])|(st & -> & El & Hpb & Hown)].
  - rewrite (proj2 (is_empty_false _) (proj1 Hst)). cbn [negb]. apply wp_bind, wp_bind, wp_try. unfold sync_RestorePending. apply wpa_bind. eapply wpa_others; [done|done|].
    intros n1 Hat1 Htr1. eapply (wpa_restore s Hsvc sent); try done. intros st ws2 n2 Hat2 Htr2 El2 Hpe2 Ho2 _. apply wp_ret. apply wp_bind.
    assert (is_branched st = false) as -> by (apply not_true_is_false; by intros ?%(pending_not_branched st)). apply wp_ret.
    eapply wp_finish; try done; [by right|congruence].
  - rewrite (proj2 (is_empty_true _) (proj1 Hu)). cbn [negb]. apply wp_bind, wp_ret. apply wp_bind, wp_try. unfold sync_Stage. apply wpa_bind. eapply wpa_others; [done|done|].
    intros n1 Hat1 Htr1. change (re_Base (set_Retried false (pb_Result j))) with (re_Base (pb_Result j)). eapply (wpa_stage s Hsvc sent); try done; [apply He|].
    intros st ws2 n2 Hat2 Htr2 El2 Hpe2 Hm2. eapply wp_finish; try done; [by left|congruence].
  - apply wp_bind, wp_ret, wp_bind. destruct (is_branched st) eqn:Eb; [by apply wp_fail|]. apply wp_ret. destruct Hpb as [Hpe|?]; [|congruence].
    by eapply wp_finish.
Qed.

(** ** A new candidate *)
Lemma wpa_observe c base source Q n h ws : at_ h ws n ->
  (forall n', at_ h ws n' -> recorded s (nd_trust n') c -> Q () n') -> wpa (roots_observeCandidate s e c base source) Q n.
Proof.
  intros Hat HQ. unfold roots_observeCandidate, on_trust, PlanFlow.wpa. destruct (ObserveCandidate _ _ _ _ _ _ _) as [r f] eqn:E.
  assert (at_ h ws (mkNode (nd_history n) (nd_bucket n) f (nd_sent n))) as Hat' by (destruct Hat as [[] ?]; by split; [split|]).
  destruct r as [[]|]; [|by eapply at_fin]. apply HQ; [done|]. destruct (observe_recorded _ _ _ _ _ _ _ _ E); exists io_ok; eauto.
Qed.

Lemma choose_message_ok m : TrimSpace (choose_message s m) = choose_message s m /\ choose_message s m <> EmptyString.
Proof.
  unfold choose_message. destruct (is_empty (TrimSpace m)) eqn:E1; [destruct (is_empty (TrimSpace (p_Message (sv_plan s)))) eqn:E2|].
  - by vm_compute.
  - apply is_empty_false in E2. split; [apply TrimSpace_idemp|done].
  - rewrite E1. apply is_empty_false in E1. split; [apply TrimSpace_idemp|done].
Qed.

Lemma wp_publish m c cb base result n h ws : at_ h ws n -> hf_Pending h = None -> ws_Stashes ws = [] -> ws_Initialized ws = true ->
  validateHead base = Ok () -> re_PlanID result = p_ID (sv_plan s) -> re_Profile result = ProfileID -> re_CandidateRoot result = cid_String c -> re_Base result = base ->
  wp (publish s e m c cb base result) (done_ e) n.
Proof.
  intros Hat Hp Hl Hin Hb Hr1 Hr2 Hr3 Hr4. destruct (eo_rely _ He) as (_ & _ & _ & R4 & _). unfold publish.
  apply wp_bind, wp_try, wpa_wrapped. eapply wpa_observe; [done|]. clear n Hat. intros n Hat Hrec.
  set (j := new_pending s e (choose_message s m) cb result). destruct (choose_message_ok m) as [Hm1 Hm2].
  assert (journal_ok s j) as Hj.
  { split; first [done|apply He|by exists cb|by rewrite <- Hr4 in Hb|exists c; exact Hr3]. }
  apply wp_bind, wp_try, wpa_wrapped. eapply (wpa_setPending s sent _ j); try done. intros h1 n1 Hat1 Htr1 Hp1.
  apply wp_bind, wp_try, wpa_wrapped. unfold sync_Stage. apply wpa_bind. eapply wpa_others; [done|done|]. intros n2 Hat2 Htr2.
  replace base with (re_Base (pb_Result j)) by done. change (choose_message s m) with (pb_Message j) at 1. eapply (wpa_stage s Hsvc sent _ _ _ _ j); try done; [apply He|].
  intros st ws3 n3 Hat3 Htr3 Hl3 Hpe3 Hm3. change (choose_message s m) with (pb_Message j). eapply wp_finish; try done; [by left|by rewrite Htr3, Htr2, Htr1].
Qed.

Lemma wp_closing m Q n : wp m (fun a n' => Q a n' /\ fin n') n -> wp (closing p m) Q n.
Proof.
  unfold PlanFlow.wp, closing. destruct (m n) as [[a|[res err]] n']; destruct (pt_close p); try done; by intros [? ?] || intros ?.
Qed.

Lemma wp_changed m before changed mc manifest n h ws : at_ h ws n -> hf_Pending h = None ->
  wp (backup_changed s p e m before changed mc manifest) (done_ e) n.
Proof.
  intros Hat Hp. destruct (eo_rely _ He) as (R1 & R2 & R3 & _). unfold backup_changed.
  apply wp_bind, wp_try. unfold sync_Status. apply wpa_bind. eapply wpa_others; [done|done|]. intros n1 Hat1 _; clear n Hat; rename n1 into n, Hat1 into Hat.
  eapply wpa_status; [done|]. apply wp_bind, wp_check; [by eapply at_fin|]. intros _. apply wp_bind.
  assert (forall (Q : Workspace -> node -> Prop), (forall ws' n', at_ h ws' n' -> ws_Initialized ws' = true -> Q ws' n') ->
    wp (if negb (ws_Initialized ws) then try None (sync_Pull s e) else Flow_ret _ ws) Q n) as Hpull.
  { intros Q HQ. destruct (ws_Initialized ws) eqn:Ei; cbn [negb]; [by apply wp_ret, HQ|]. apply wp_try. unfold sync_Pull. apply wpa_bind. eapply wpa_others; [done|done|].
    intros n1 Hat1 _. eapply (wpa_pull s Hsvc sent); [done|]. intros ws' n' Hat' _ _ Hi'. by apply HQ. }
  apply Hpull. clear n ws Hat Hpull. intros ws n Hat Hin.
  apply wp_bind, wp_check; [by eapply at_fin|]. intros Hl. simplify_guards. apply fail_if_Ok, negb_false_iff, bool_decide_eq_true in Hl.
  apply wp_bind, wp_try, wpa_pure; [by eapply at_fin|]. intros baseCID _. apply wp_bind, wp_try. apply wpa_outcome_reads. set (accepted := roots_AcceptedRoot _ _ _).
  apply wp_bind, wp_check; [by eapply at_fin|]. intros _. apply wp_bind, wp_try, wpa_pure; [by eapply at_fin|]. intros backend _.
  apply wp_bind, wp_try. unfold sync_CurrentBase. apply wpa_bind. eapply wpa_others; [done|done|]. clearbody accepted. intros n1 Hat1 _; clear n Hat; rename n1 into n, Hat1 into Hat.
  eapply wpa_base; [done|]. intros Hb. do 2 (apply wp_bind, wp_try, wpa_pure; [by eapply at_fin|]; intros ? _). apply wp_bind, wp_check; [by eapply at_fin|]. intros _.
  apply wp_closing. apply wp_bind, wp_try, wpa_pure; [by eapply at_fin|]. intros [preparedByID encrypted] _.
  apply wp_bind, wp_try, wpa_pure; [by eapply at_fin|]. intros prepared _. apply wp_bind, wp_try, wpa_pure; [by eapply at_fin|]. intros [root more] _.
  apply wp_bind, wp_try, wpa_pure; [by eapply at_fin|]. intros c _. apply wp_bind, wp_check; [by eapply at_fin|]. intros _.
  eapply wp_mono; [eapply wp_publish; done|]. intros result n' Hd. split; [done|apply Hd].
Qed.

Lemma wp_Backup m n h ws : at_ h ws n -> wp (Backup s p e m) (done_ e) n.
Proof.
  intros Hat. destruct (eo_rely _ He) as (R1 & _). unfold Backup.
  do 3 (apply wp_bind, wp_check; [by eapply at_fin|]; intros _). apply wp_bind, wp_try. eapply (wpa_reading s sent); [apply Hat|by eapply at_stops|].
  destruct (hf_Pending h) as [j|] eqn:Ep; [by eapply wp_retry|].
  apply wp_bind, wp_try, wpa_pure; [by eapply at_fin|]. intros before _. apply wp_bind, wp_try. unfold lastFingerprints. apply wpa_bind.
  eapply (wpa_reading s sent); [apply Hat|by eapply at_stops|]. apply wpa_pure; [by eapply at_fin|]. intros [last lastManifest] _.
  apply wp_bind, wp_try, wpa_pure; [by eapply at_fin|]. intros manifest _. destruct (_ && _); [|by eapply wp_changed].
  apply wp_bind, wp_try. unfold sync_Status. apply wpa_bind. eapply wpa_others; [done|done|]. intros n1 Hat1 _; clear n Hat; rename n1 into n, Hat1 into Hat. eapply wpa_status; [done|].
  destruct (firstBranchedStash ws); [by eapply wp_fail, at_fin|]. apply wp_bind, wp_try. unfold RecordResult. cbv zeta.
  eapply (wpa_update s sent); [apply Hat|by eapply at_stops|]. intros h' n' _ Hg' Hs' _. apply wp_ret. destruct Hat as [_ Hs].
  assert (at_ h' ws n') as Hat' by (split; [done|congruence]). split; [by eapply at_fin|right]. split; [congruence|done].
Qed.
End Backup.
End Handlers.

(** * Synchronising and resolving conflicts keep the publication linked; a
    history of calls of the plan. *)

Section Conflicts.
Context {L : CidLib} {LL : CidLaws L} {SH : Sha256}.
Context (s : PlanService) (Hsvc : svc_ok (sv_sync s)) (sent : list ApplyRequest).

Notation at_ := (at_ s sent).
Notation fin := (fin s sent).
Notation wpa := (wpa s sent).
Notation ends := (fun _ => PlanFlow.fin s sent).

Record sync_ok (y : sync_env) : Prop := { so_rely : rely s (y_o1 y) /\ rely s (y_o2 y) /\ rely s (y_o3 y) }.

Lemma wpa_trust {A} (m : trust_file -> result A * trust_file) Q n h ws : at_ h ws n ->
  (forall a n', at_ h ws n' -> Q a n') -> wpa (on_trust m) Q n.
Proof.
  intros Hat HQ. unfold on_trust, PlanFlow.wpa. destruct (m (nd_trust n)) as [r f].
  assert (at_ h ws (mkNode (nd_history n) (nd_bucket n) f (nd_sent n))) as Hat' by (destruct Hat as [[] ?]; by split; [split|]).
  destruct r; [by apply HQ|by eapply at_fin].
Qed.

Section Operations.
Context (p : ports) (t : tree_ports) (y : sync_env) (Hy : sync_ok y).

Lemma wpa_locked Q n h ws : at_ h ws n -> Q () n -> wpa (locked_plan y) Q n.
Proof. intros Hat HQ. apply wpa_pure; [by eapply at_fin|]. by intros []. Qed.

Lemma wpa_accepted Q n h ws : at_ h ws n -> (forall c ws' n', at_ h ws' n' -> ws_Stashes ws' = ws_Stashes ws -> Q c n') -> wpa (acceptedObservedRoot s y) Q n.
Proof.
  intros Hat HQ. destruct (so_rely _ Hy) as (R1 & _). unfold acceptedObservedRoot. apply wpa_bind. eapply wpa_others; [done|done|]. intros n1 Hat1 _.
  apply wpa_bind. eapply (wpa_pull s Hsvc sent); [done|]. intros ws2 n2 Hat2 _ Hl2 _. do 2 (apply wpa_bind, wpa_pure; [by eapply at_fin|]; intros ? _).
  apply wpa_bind, wpa_wrapped. eapply wpa_trust; [done|]. intros _ n3 Hat3. apply wpa_bind, wpa_outcome_reads, wpa_pure; [by eapply at_fin|].
  intros c _. by eapply HQ.
Qed.

Lemma wpa_accepted_locked Q n h ws : at_ h ws n -> (forall c ws' n', at_ h ws' n' -> ws_Stashes ws' = ws_Stashes ws -> Q c n') -> wpa (acceptedObservedRootWithLock s y) Q n.
Proof. intros Hat HQ. apply wpa_bind. eapply wpa_locked; [done|]. by eapply wpa_accepted. Qed.

Lemma wpa_statusOf Q n h ws : at_ h ws n -> (forall n', at_ h ws n' -> Q ws n') -> wpa (sync_StatusOf s y) Q n.
Proof.
  intros Hat HQ. destruct (so_rely _ Hy) as (_ & R2 & _). apply wpa_bind. eapply wpa_others; [done|done|]. intros n1 Hat1 _. eapply wpa_status; [done|]. by apply HQ.
Qed.

(** A branched stash is the only one, and it is of the journal if there is one. *)
Lemma linked_has_branched h ws st : linked s (hf_Pending h) (hf_Conflict h) (ws_Stashes ws) -> st ∈ ws_Stashes ws -> is_branched st = true -> ws_Stashes ws = [st].
Proof.
  intros Hl Hin Hb. inversion Hl as [E1 E2 E3|st' Hb' E1 E2 E3|? ? ? E1 E2 E3|? st' ? ? ? ? E1 E2 E3|? st' ? ? ? ? E1 E2 E3|? ? ? E1 E2 E3|? ? st' ? ? ? ? E1 E2 E3];
    rewrite <- E3 in Hin; try (by apply elem_of_nil in Hin); apply list_elem_of_singleton in Hin; by subst.
Qed.

Lemma wpa_forget st n h ws : at_ h ws n -> ws_Stashes ws = [st] -> is_branched st = true -> hf_Conflict h = None -> wpa (forget_candidate s y st) ends n.
Proof.
  intros Hat Hl Hb Hcn. destruct (so_rely _ Hy) as (_ & _ & R3). unfold forget_candidate. apply wpa_bind. eapply (wpa_reading s sent); [apply Hat|by eapply at_stops|].
  assert (forall h' n', at_ h' ws n' -> hf_Pending h' = None -> wpa (sync_Resolve s y st ≫= fun _ => mret ()) ends n') as Htail.
  { intros h' n' Hat' Hp'. apply wpa_bind. unfold sync_Resolve. apply wpa_bind. eapply wpa_others; [done|done|]. intros n2 Hat2 _.
    eapply (wpa_resolve s Hsvc sent); [done|done|done|]. intros ws' n3 Hf3. by apply wpa_ret. }
  apply wpa_bind. destruct (hf_Pending h) as [j|] eqn:Ep; [|apply wpa_ret; by eapply Htail].
  apply wpa_bind, wpa_pure; [by eapply at_fin|]. intros _ _. by eapply (wpa_clearPending s sent).
Qed.

Lemma wpa_merge root n h ws : at_ h ws n -> wpa (mergeBranchedCandidate s t y root) ends n.
Proof.
  intros Hat. unfold mergeBranchedCandidate. apply wpa_bind. eapply wpa_locked; [done|]. apply wpa_bind. eapply (wpa_reading s sent); [apply Hat|by eapply at_stops|].
  apply wpa_bind, wpa_pure; [by eapply at_fin|]. intros [] Hc. apply fail_if_Ok, bool_decide_eq_false in Hc.
  assert (hf_Conflict h = None) as Hcn by (destruct (hf_Conflict h); [exfalso; eauto|done]).
  apply wpa_bind. eapply wpa_statusOf; [done|]. clear n Hat. intros n Hat. apply wpa_bind, wpa_pure; [by eapply at_fin|]. intros _ _.
  apply wpa_bind, wpa_pure; [by eapply at_fin|]. intros st Hst. pose proof Hat as [Hg _]. pose proof (gd_linked _ _ _ _ Hg) as Hl.
  assert (st ∈ ws_Stashes ws /\ is_branched st = true) as [Hin Hb].
  { destruct (List.filter is_branched (ws_Stashes ws)) as [|x [|]] eqn:E; simplify_result. assert (st ∈ List.filter is_branched (ws_Stashes ws)) as H by (rewrite E; by left).
    by rewrite list_elem_of_In, filter_In, <- list_elem_of_In in H. }
  pose proof (linked_has_branched _ _ _ Hl Hin Hb) as El.
  do 3 (apply wpa_bind, wpa_pure; [by eapply at_fin|]; intros ? _). destruct (negb _).
  - apply wpa_bind, wpa_pure; [by eapply at_fin|]. intros path _. apply wpa_bind. by eapply (wpa_setConflict s sent _ _ st).
  - apply wpa_bind, wpa_pure; [by eapply at_fin|]. intros _ _. by eapply wpa_forget.
Qed.

Lemma wpa_clearState n h ws : at_ h ws n -> wpa (clearConflictState s t y) ends n.
Proof.
  intros Hat. unfold clearConflictState. apply wpa_bind. eapply wpa_locked; [done|]. apply wpa_bind. eapply wpa_statusOf; [done|]. clear n Hat. intros n Hat.
  apply wpa_bind, wpa_pure; [by eapply at_fin|]. intros st Hst. unfold firstBranchedStash in Hst. destruct (List.find _ _) as [x|] eqn:Ef; simplify_result.
  apply find_some in Ef as [Hin%list_elem_of_In Hb]. pose proof Hat as [Hg _]. pose proof (linked_has_branched _ _ _ (gd_linked _ _ _ _ Hg) Hin Hb) as El.
  apply wpa_bind. eapply (wpa_reading s sent); [apply Hat|by eapply at_stops|]. apply wpa_bind. destruct (hf_Conflict h) as [co|] eqn:Ec; [|apply wpa_ret; by eapply wpa_forget].
  apply wpa_bind, wpa_pure; [by eapply at_fin|]. intros _ _. apply wpa_bind. eapply (wpa_clearConflict s sent); try done. intros h' n' Hat' _ Ec'.
  apply wpa_pure; [by eapply at_fin|]. intros _ _. by eapply wpa_forget.
Qed.

Lemma wpa_record res Q n h ws : at_ h ws n -> (forall n', fin n' -> Q () n') -> wpa (on_history (RecordResult (y_record y) (p_ID (sv_plan s)) res)) Q n.
Proof.
  intros Hat HQ. unfold RecordResult. cbv zeta. eapply (wpa_update s sent); [apply Hat|by eapply at_stops|]. intros h' n' _ Hg' Hs' _. apply HQ.
  eapply at_fin. split; [done|]. destruct Hat. congruence.
Qed.

Lemma wpa_sync_install last after n h ws : at_ h ws n -> wpa (sync_install s t y last after) ends n.
Proof.
  intros Hat. unfold sync_install. apply wpa_bind. eapply wpa_locked; [done|]. apply wpa_bind.
  assert (forall n, at_ h ws n -> wpa (root ← acceptedObservedRoot s y; _ ← pure (tp_installBindings t root (re_BindingFingerprints last)); fingerprints ← pure after;
    _ ← on_history (RecordResult (y_record y) (p_ID (sv_plan s)) (synced s y last fingerprints)); mret (synced s y last fingerprints)) ends n) as Htail.
  { clear n Hat. intros n Hat. apply wpa_bind. eapply wpa_accepted; [done|]. intros c ws' n' Hat' _. do 2 (apply wpa_bind, wpa_pure; [by eapply at_fin|]; intros ? _).
    apply wpa_bind. eapply wpa_record; [done|]. intros n2 Hf. by apply wpa_ret. }
  destruct (is_empty _); [apply wpa_ret; by apply Htail|]. apply wpa_bind, wpa_pure; [by eapply at_fin|]. intros c _. apply wpa_ret. by apply Htail.
Qed.

Lemma wpa_baseline n h ws : at_ h ws n -> wpa (RecordRestoredBaseline s p y) ends n.
Proof.
  intros Hat. apply wpa_bind. eapply wpa_locked; [done|]. apply wpa_bind, wpa_reads; [by eapply at_fin|]. intros c _.
  do 2 (apply wpa_bind, wpa_pure; [by eapply at_fin|]; intros ? _). apply wpa_bind. eapply wpa_record; [done|]. intros n2 Hf. by apply wpa_ret.
Qed.

Lemma wpa_record_remote n h ws : at_ h ws n -> wpa (record_remote s p y) ends n.
Proof.
  intros Hat. unfold record_remote. do 2 (apply wpa_bind, wpa_pure; [by eapply at_fin|]; intros ? _). apply wpa_bind. eapply wpa_record; [done|]. intros n2 Hf. by apply wpa_ret.
Qed.

Lemma wpa_keep_remote n h ws : at_ h ws n -> wpa (keep_remote s p t y) ends n.
Proof.
  intros Hat. unfold keep_remote. apply wpa_bind. eapply wpa_accepted_locked; [done|]. intros c ws' n' Hat' _. apply wpa_bind. eapply wpa_locked; [done|].
  apply wpa_bind, wpa_pure; [by eapply at_fin|]. intros fp _. apply wpa_pure; [by eapply at_fin|]. intros _ _. by eapply at_fin.
Qed.

Lemma wpa_manual n h ws : at_ h ws n -> wpa (installManualConflictCheckout t y) ends n.
Proof.
  intros Hat. unfold installManualConflictCheckout. apply wpa_bind. eapply wpa_locked; [done|]. apply wpa_bind. eapply (wpa_reading s sent); [apply Hat|by eapply at_stops|].
  do 2 (apply wpa_bind, wpa_pure; [by eapply at_fin|]; intros ? _). apply wpa_pure; [by eapply at_fin|]. intros _ _. by eapply at_fin.
Qed.
End Operations.
End Conflicts.
