(* ===== verification/PublicationThms.v ===== *)
(** What a plan guarantees about publication over any history of its calls,
    whichever system calls fail and wherever a process stops. *)

From stdpp Require Import base decidable gmap strings list relations.
From Stdlib Require Import Ascii ZArith Lia.
From S2P Require Import Prelude GoText CidLib Effect Durable Trust Roots PlanFlow Registry PlainTree Install Branch NodeApi BucketSync BucketSyncFacts BucketSyncThms History Plans PlansRuns PlanManifest PlanBackup PlanSync PlanLinked PlanRuns.

Section Publication.
Context {L : CidLib} {LL : CidLaws L} {SH : Sha256}.
Context (s : PlanService).

(** One call of the plan, with any failures; a step of a service of another
    branch; or a change of the trusted roots by anyone. *)
Inductive step (n n' : node) : Prop :=
  | step_backup p e m r : env_ok s (nd_sent n) e -> Backup s p e m n = (r, n') -> step n n'
  | step_accepted y r : sync_ok s y -> acceptedObservedRootWithLock s y n = (r, n') -> step n n'
  | step_merge t y root r : sync_ok s y -> mergeBranchedCandidate s t y root n = (r, n') -> step n n'
  | step_clear t y r : sync_ok s y -> clearConflictState s t y n = (r, n') -> step n n'
  | step_manual t y r : installManualConflictCheckout t y n = (r, n') -> step n n'
  | step_keep_remote p t y r : sync_ok s y -> keep_remote s p t y n = (r, n') -> step n n'
  | step_record_remote p y r : record_remote s p y n = (r, n') -> step n n'
  | step_install t y last after r : sync_ok s y -> sync_install s t y last after n = (r, n') -> step n n'
  | step_baseline p y r : RecordRestoredBaseline s p y n = (r, n') -> step n n'
  | step_attempt w at_ r : on_history (RecordPlanAttempt w (p_ID (sv_plan s)) at_) n = (r, n') -> step n n'
  | step_failure w at_ err r : on_history (RecordPlanFailure w (p_ID (sv_plan s)) at_ err) n = (r, n') -> step n n'
  | step_others o r : rely s o -> others o n = (r, n') -> step n n'
  | step_trust f : n' = mkNode (nd_history n) (nd_bucket n) f (nd_sent n) -> step n n'.

(** Before the first backup. *)
Record start (n : node) : Prop := {
  sr_history : nd_history n = None;
  sr_bucket : exists b, view (nd_bucket n) = Some b /\ state_inv b /\ ws_Stashes (workspace (sv_sync s) b) = [];
  sr_sent : nd_sent n = []
}.

(** A plan as the plan store keeps it. *)
Definition plan_valid : Prop := svc_ok (sv_sync s) /\ validateOpaqueID (p_ID (sv_plan s)) "plan" = Ok ().

Lemma start_inv n : start n -> inv s n.
Proof.
  intros [H1 (b & Hv & Hi & Hl) H3]. exists emptyHistory, (workspace (sv_sync s) b). split.
  - by rewrite H1.
  - by exists b.
  - rewrite Hl. apply linked_idle.
  - done.
  - rewrite H3. split; set_solver.
Qed.

Lemma wpa_fin {A} sent (m : Act node A) n r n' : PlanFlow.wpa s sent m (fun _ => fin s sent) n -> m n = (r, n') -> fin s sent n'.
Proof. intros H E. unfold wpa in H. rewrite E in H. by destruct r. Qed.

Context (Hplan : plan_valid).

Lemma plan_trimmed : TrimSpace (p_ID (sv_plan s)) = p_ID (sv_plan s).
Proof. by apply (valid_id_trimmed _ "plan"), Hplan. Qed.

Lemma Backup_spec p e m n r n' : inv s n -> env_ok s (nd_sent n) e -> Backup s p e m n = (r, n') ->
  fin s (nd_sent n) n' /\ forall result, r = inl result -> done_ s (nd_sent n) e result n'.
Proof.
  intros (h & ws & Hg) He E. pose proof (wp_Backup s (proj1 Hplan) (nd_sent n) plan_trimmed p e He m n h ws (conj Hg eq_refl)) as H. unfold wp in H. rewrite E in H.
  destruct r as [a|]; [|done]. split; [apply H|]. by intros result [= <-].
Qed.

Lemma step_inv n n' : inv s n -> step n n' -> inv s n'.
Proof.
  intros Hi Hs. enough (fin s (nd_sent n) n') as [? _] by done. pose proof Hi as (h & ws & Hg). assert (at_ s (nd_sent n) h ws n) as Hat by done. pose proof (proj1 Hplan) as Hsvc.
  destruct Hs as [p e m r He E|y r Hy E|t y root r Hy E|t y r Hy E|t y r E|p t y r Hy E|p y r E|t y last after r Hy E|p y r E|w a r E|w a err r E|o r Ho E|f ->].
  - exact (proj1 (Backup_spec _ _ _ _ _ _ Hi He E)).
  - eapply wpa_fin, E. eapply wpa_accepted_locked; try done. intros c ws' n1 Hat1 _. by eapply at_fin.
  - eapply wpa_fin, E. by eapply wpa_merge.
  - eapply wpa_fin, E. by eapply wpa_clearState.
  - eapply wpa_fin, E. by eapply wpa_manual.
  - eapply wpa_fin, E. by eapply wpa_keep_remote.
  - eapply wpa_fin, E. by eapply wpa_record_remote.
  - eapply wpa_fin, E. by eapply wpa_sync_install.
  - eapply wpa_fin, E. by eapply wpa_baseline.
  - eapply wpa_fin, E. unfold RecordPlanAttempt. cbv zeta. eapply wpa_update; [done|by eapply at_stops|]. intros h' n1 _ Hg' Hs' _. eapply at_fin. by split.
  - eapply wpa_fin, E. unfold RecordPlanFailure. cbv zeta. eapply wpa_update; [done|by eapply at_stops|]. intros h' n1 _ Hg' Hs' _. eapply at_fin. by split.
  - eapply wpa_fin, E. eapply wpa_others; [done|done|]. intros n1 Hat1 _. by eapply at_fin.
  - eapply (at_fin _ _ h ws). destruct Hat as [[] ?]. by split; [split|].
Qed.

Lemma steps_inv n n' : inv s n -> rtc step n n' -> inv s n'.
Proof. intros Hi Hr. induction Hr as [|n n1 n' Hs _ IH]; [done|]. by eapply IH, step_inv. Qed.

(** The composed calls are histories of steps. *)
Lemma resolve_steps p t resolution prepare clear record e m n r n' : inv s n -> sync_ok s prepare -> sync_ok s clear ->
  (forall n1, rtc step n n1 -> env_ok s (nd_sent n1) e) -> ResolveConflict s p t resolution prepare clear record e m n = (r, n') -> rtc step n n'.
Proof.
  intros Hi Hp Hc He H. unfold ResolveConflict, lift, try in H. destruct (resolve_first s p t resolution prepare clear n) as [r1 n1] eqn:E1.
  assert (rtc step n n1) as H1.
  { unfold resolve_first, mbind, Act_bind in E1. destruct resolution.
    - destruct (installManualConflictCheckout t prepare n) as [[u|] n0] eqn:E0; [|simplify_eq; apply rtc_once; by eapply step_manual].
      apply (rtc_l _ _ n0); [by eapply step_manual|]. apply rtc_once. by (eapply step_clear; [|exact E1]).
    - cbn in E1. apply rtc_once. by (eapply step_clear; [|exact E1]).
    - destruct (keep_remote s p t prepare n) as [[u|] n0] eqn:E0; [|simplify_eq; apply rtc_once; by (eapply step_keep_remote; [|exact E0])].
      apply (rtc_l _ _ n0); [by (eapply step_keep_remote; [|exact E0])|]. apply rtc_once. by (eapply step_clear; [|exact E1]). }
  destruct r1 as [u|err]; [|by simplify_eq]. case_bool_decide.
  - destruct (record_remote s p record n1) as [r2 n2] eqn:E2. simplify_eq. eapply rtc_r; [exact H1|by eapply step_record_remote].
  - eapply rtc_r; [exact H1|]. eapply step_backup; [|exact H]. by apply He.
Qed.

Lemma sync_steps p t mc e1 e2 trust merge install after m n r n' : inv s n -> sync_ok s trust -> sync_ok s merge -> sync_ok s install ->
  (forall n1, rtc step n n1 -> env_ok s (nd_sent n1) e1 /\ env_ok s (nd_sent n1) e2) ->
  SyncWithOptions s p t mc e1 e2 trust merge install after m n = (r, n') -> rtc step n n'.
Proof.
  intros Hi Ht Hm Hin He H. unfold SyncWithOptions, try in H. destruct (Backup s p e1 m n) as [[result|[res err]] n1] eqn:E1.
  all: assert (rtc step n n1) as H1 by (apply rtc_once; eapply step_backup; [|exact E1]; by apply He).
  { destruct (sync_install _ _ _ _ _ n1) as [r2 n2] eqn:E2. simplify_eq. eapply rtc_r; [exact H1|by (eapply step_install; [|exact E2])]. }
  destruct (negb _); [by simplify_eq|]. destruct (acceptedObservedRootWithLock s trust n1) as [r2 n2] eqn:E2.
  assert (rtc step n n2) as H2 by (eapply rtc_r; [exact H1|by (eapply step_accepted; [|exact E2])]).
  destruct r2 as [root|]; [|by simplify_eq]. destruct (negb mc); [by simplify_eq|]. destruct (mergeBranchedCandidate s t merge root n2) as [r3 n3] eqn:E3.
  assert (rtc step n n3) as H3 by (eapply rtc_r; [exact H2|by (eapply step_merge; [|exact E3])]). destruct r3 as [u|]; [|by simplify_eq].
  destruct (Backup s p e2 m n3) as [[result|err4] n4] eqn:E4.
  all: assert (rtc step n n4) as H4 by (eapply rtc_r; [exact H3|]; eapply step_backup; [|exact E4]; by apply He).
  - destruct (sync_install _ _ _ _ _ n4) as [r5 n5] eqn:E5. simplify_eq. eapply rtc_r; [exact H4|by (eapply step_install; [|exact E5])].
  - by simplify_eq.
Qed.

(** ** The guarantees *)

(** C9. An operation identity never names two requests.  Over any history of
    backups, synchronisations and conflict resolutions of a plan, with any
    failures between journaling, staging, pushing and settling, two requests
    that the remote received under the same operation identity are the same
    request, so a remote that deduplicates by identity applies a candidate at
    most once. *)
Theorem push_identity_names_one_request n n' r1 r2 :
  start n -> rtc step n n' -> r1 ∈ nd_sent n' -> r2 ∈ nd_sent n' -> ar_OperationID r1 = ar_OperationID r2 -> r1 = r2.
Proof. intros Hs Hr. destruct (steps_inv n n' (start_inv n Hs) Hr) as (h & ws & [_ _ _ _ [Hk _ _]]). apply Hk. Qed.

(** C10. The journal and the workspace always agree.  After any such history both
    files load, and the pair of the journal with its checkout and the stashes of
    the workspace is in one of the seven states of a publication: in particular
    at most one candidate is in flight, a frozen identity is the identity of its
    stash, and a checkout is recorded only while its candidate is branched. *)
Theorem journal_and_workspace_agree n n' :
  start n -> rtc step n n' ->
  exists h b, view (nd_history n') = Some h /\ view (nd_bucket n') = Some b /\
    linked s (hf_Pending h) (hf_Conflict h) (ws_Stashes (workspace (sv_sync s) b)).
Proof.
  intros Hs Hr. destruct (steps_inv n n' (start_inv n Hs) Hr) as (h & ws & [Hh (b & Hb & _ & <-) Hl _ _]). by exists h, b.
Qed.

(** C11. A backup that succeeds was applied.  When [Backup] reports a result that
    it did not skip, it submitted exactly one request, for the candidate root of
    the result; the remote answered it with a result that is bound to it and is
    not a conflict; and the history has no pending candidate and records the
    result. *)
Theorem completed_backup_was_applied p e m n n1 n' result :
  start n -> rtc step n n1 -> env_ok s (nd_sent n1) e -> Backup s p e m n1 = (inl result, n') -> re_Skipped result = false ->
  exists h rq value, view (nd_history n') = Some h /\ hf_Pending h = None /\ (hf_Plans h !! p_ID (sv_plan s)) ≫= ps_LastResult = Some result /\
    nd_sent n' = nd_sent n1 ++ [rq] /\ ar_CandidateRoot rq = re_CandidateRoot result /\ e_remote e rq = Ok (Some value) /\
    ValidateApplyResult (p_BucketID (sv_plan s)) rq value = Ok () /\ res_Status value <> status_branched.
Proof.
  intros Hs Hr He H Hsk. pose proof (steps_inv n n1 (start_inv n Hs) Hr) as Hi. destruct (Backup_spec _ _ _ _ _ _ Hi He H) as [_ Hd].
  destruct (Hd result eq_refl) as [_ [(h & ws & rq & value & Hg & H1 & H2 & H3 & H4 & H5 & H6 & H7 & _)|[_ ?]]]; [|congruence].
  exists h, rq, value. split_and!; try done. apply Hg.
Qed.

(** C12. Only verified candidates are published.  Every request that a call of
    [Backup] submits is for a candidate that the trust store holds as recorded
    by this device or as the accepted root of the plan, and a call submits at
    most one request. *)
Theorem only_recorded_candidates_are_published p e m n n1 r n' :
  start n -> rtc step n n1 -> env_ok s (nd_sent n1) e -> Backup s p e m n1 = (r, n') ->
  nd_sent n' = nd_sent n1 \/ exists rq c, nd_sent n' = nd_sent n1 ++ [rq] /\ ar_CandidateRoot rq = cid_String c /\ recorded s (nd_trust n') c.
Proof.
  intros Hs Hr He H. pose proof (steps_inv n n1 (start_inv n Hs) Hr) as Hi. by destruct (Backup_spec _ _ _ _ _ _ Hi He H) as [[_ Hf] _].
Qed.
End Publication.
