(* ===== verification/PublicationLive.v ===== *)
(** A publication that was interrupted after its identity was frozen is
    completed by the next backup, with the request that was frozen. *)

From stdpp Require Import base decidable gmap strings list relations.
From Stdlib Require Import Ascii ZArith Lia.
From S2P Require Import Prelude GoText CidLib Effect Durable Trust Roots PlanFlow Registry PlainTree Install Branch NodeApi BucketSync BucketSyncFacts BucketSyncThms History Plans PlansRuns PlanManifest PlanBackup PlanSync PlanLinked PlanRuns PublicationThms.

Section Live.
Context {L : CidLib} {LL : CidLaws L} {SH : Sha256}.
Context (s : PlanService) (Hplan : plan_valid s).

(** ** Total runs *)
Definition tpa {A} (m : Act node A) (Q : A -> node -> Prop) (n : node) : Prop := exists a n', m n = (Ok a, n') /\ Q a n'.
Definition tp {A} (m : Flow A) (Q : A -> node -> Prop) (n : node) : Prop := exists a n', m n = (inl a, n') /\ Q a n'.

Lemma tp_try {A} res (m : Act node A) Q n : tpa m Q n -> tp (try res m) Q n.
Proof. intros (a & n' & E & HQ). exists a, n'. unfold try. by rewrite E. Qed.
Lemma tp_bind {A B} (m : Flow A) (f : A -> Flow B) Q n : tp m (fun a => tp (f a) Q) n -> tp (Flow_bind _ _ f m) Q n.
Proof. intros (a & n' & E & b & n2 & E2 & HQ). exists b, n2. unfold Flow_bind. by rewrite E. Qed.
Lemma tp_ret {A} (a : A) Q n : Q a n -> tp (Flow_ret _ a) Q n.
Proof. intros HQ. by exists a, n. Qed.
Lemma tp_check res r (Q : unit -> node -> Prop) n : r = Ok () -> Q () n -> tp (check res r) Q n.
Proof. intros -> HQ. by exists (), n. Qed.
Lemma tpa_pure {A} (r : result A) a Q n : r = Ok a -> Q a n -> tpa (pure r) Q n.
Proof. intros -> HQ. by exists a, n. Qed.
Lemma tpa_bind {A B} (m : Act node A) (f : A -> Act node B) Q n : tpa m (fun a => tpa (f a) Q) n -> tpa (m ≫= f) Q n.
Proof. intros (a & n' & E & b & n2 & E2 & HQ). exists b, n2. unfold mbind, Act_bind. by rewrite E. Qed.
(** A specified action that succeeds. *)
Lemma tpa_of {A} sent (m : Act node A) Q n : wpa s sent m Q n -> is_ok (m n).1 = true -> tpa m Q n.
Proof. unfold wpa, tpa. destruct (m n) as [[a|e] n']; cbn; [|done]. intros HQ _. by exists a, n'. Qed.

(** ** Sections that succeed *)
Lemma ok_reading {A} (read : historyFile -> A) n h : view (nd_history n) = Some h -> is_ok (on_history (reading io_ok read) n).1 = true.
Proof. intros Hv. unfold on_history, reading. by erewrite (with_state_ok history_writer history_ordered). Qed.
Lemma ok_mutate args up n h h' : view (nd_history n) = Some h -> args = Ok () -> up h = Ok h' -> is_ok (on_history (fun f => guarded args f (mutate io_ok up f)) n).1 = true.
Proof. intros Hv -> Hup. unfold on_history, guarded, mutate. erewrite (with_state_ok history_writer history_ordered true); [done|exact Hv|]. by rewrite Hup. Qed.
Lemma ok_status n b : view (nd_bucket n) = Some b -> is_ok (on_bucket (StatusOf io_ok (sv_sync s)) n).1 = true.
Proof. intros Hv. unfold on_bucket, StatusOf, withState. by erewrite (with_state_ok best_effort_writer eq_refl false). Qed.

Lemma ok_restore now c j n b : view (nd_bucket n) = Some b -> ws_Stashes (workspace (sv_sync s) b) = [] -> ws_Initialized (workspace (sv_sync s) b) = true ->
  journal_ok s j -> staged j -> is_ok (on_bucket (RestorePending io_ok now (sv_sync s) (restored_stash j c)) n).1 = true.
Proof.
  intros Hv Hl Hin Hj [H1 H2]. unfold on_bucket, RestorePending. cbn [restored_stash st_ID st_PushID st_CandidateRoot st_Base st_ChangeSetCID is_pending st_Status st_RequestFrozen].
  rewrite (proj2 (is_empty_false _) H1), (proj2 (is_empty_false _) H2). unfold is_pending. cbn [restored_stash st_Status]. rewrite bool_decide_eq_true_2 by done. cbn [negb orb fail_if mbind result_bind].
  rewrite is_ok_parse. cbn [negb fail_if mbind result_bind]. rewrite (jo_base _ _ Hj). change (check_if_set _ EmptyString) with (Ok () : result unit). cbn [wrap_err mbind result_bind].
  unfold time_IsZero. cbn [trim_Message restored_stash st_CreatedAt]. rewrite bool_decide_eq_false_2 by apply Hj. cbn [fail_if mbind result_bind method].
  unfold withState. erewrite (with_state_ok best_effort_writer eq_refl true); [done|exact Hv|]. unfold restoreLocked. rewrite Hin, Hl. done.
Qed.

(** The answers that let a push of the journal succeed. *)
Record answered (e : env) (ws : Workspace) (rq : ApplyRequest) (value : ApplyResult) : Prop := {
  an_io : se_io (e_push1 e) = io_ok /\ se_io (e_push2 e) = io_ok /\ se_io (e_push3 e) = io_ok /\ e_o6 e = id /\ e_o7 e = id;
  an_observed : exists head head' remote next, e_observed e = Ok (Some head) /\ ValidateObservedHead (p_BucketID (sv_plan s)) (p_Branch (sv_plan s)) head = Ok () /\
    headFromRef head = Ok head' /\ monotonicHead (ws_Remote ws) head' = Ok remote /\ headFromRef (res_Head value) = Ok next /\ head_after remote next;
  an_remote : e_remote e rq = Ok (Some value);
  an_valid : ValidateApplyResult (p_BucketID (sv_plan s)) rq value = Ok ();
  an_status : res_Status value <> status_branched
}.

Lemma freeze_ok now st c m : is_pending st = true -> st_CandidateRoot st = c -> st_Message st = m -> st_ChangeSetCID st = EmptyString -> m <> EmptyString ->
  exists st', freeze_scan now c EmptyString m [st] = Ok (st', [st']).
Proof.
  intros Hp Hc Hm Hcs Hne. cbn [freeze_scan]. rewrite Hp, bool_decide_eq_true_2 by done. cbn [negb orb]. unfold freeze_stash.
  apply is_empty_false in Hne. destruct (st_RequestFrozen st); cbn; [|eauto]. rewrite Hne, bool_decide_eq_true_2 by done. cbn. eauto.
Qed.

Lemma ok_push e c j st n b rq value : view (nd_bucket n) = Some b -> state_inv b -> ws_Stashes (workspace (sv_sync s) b) = [st] -> is_pending st = true ->
  ws_Initialized (workspace (sv_sync s) b) = true -> journal_ok s j -> owns j st -> candidate_of j = cid_String c -> journal_request s j = Ok rq ->
  answered e (workspace (sv_sync s) b) rq value -> is_ok (push_logged s e c (pb_Message j) n).1 = true.
Proof.
  intros Hv Hi Hl Hp Hin Hj Ho Hc Hrq [(I1 & I2 & I3 & O6 & O7) (head & head' & remote & next & Hob & Hvo & Hh & Hmono & Hnext & Hafter) Hrem Hval Hnb].
  destruct (jo_message _ _ Hj) as [Ht Hne]. pose proof Ho as (_ & _ & M1 & M2 & M3 & M4). pose proof (proj1 Hplan) as Hsvc.
  unfold push_logged, Push. unfold push_freeze. cbn [cid_text]. rewrite I1, Hob, O6, O7.
  destruct (freeze_ok (se_now (e_push1 e)) st (cid_String c) (pb_Message j) Hp ltac:(by rewrite M1) M3 M4 Hne) as [st1 Hf].
  destruct (freeze_one _ _ _ _ _ _ Hp ltac:(by rewrite M1) M3 M4 Hne Hf) as (_ & Hsame & Hp1).
  assert (freezeLocked (se_now (e_push1 e)) (se_now2 (e_push1 e)) (sv_sync s) (cid_String c) EmptyString (pb_Message j) b =
    Ok (st1, store (sv_sync s) (set_UpdatedAt (set_Stashes (workspace (sv_sync s) b) [st1]) (se_now2 (e_push1 e))) b)) as Hop1.
  { unfold freezeLocked. rewrite Hin, Hl, Ht. cbn [negb fail_if mbind result_bind]. by rewrite Hf. }
  destruct (freezeLocked_step _ _ _ _ _ _ _ _ _ Hi Hsvc Hop1) as (Hst1 & _). destruct (stepped_view _ _ Hst1) as [Hv1 Hi1].
  rewrite (bucket_withState_ok _ _ _ _ _ Hv Hop1). set (b1 := store _ _ _) in *.
  assert (workspace (sv_sync s) b1 = set_UpdatedAt (set_Stashes (workspace (sv_sync s) b) [st1]) (se_now2 (e_push1 e))) as Hw1 by by apply workspace_store.
  unfold Pull. cbn [mbind result_bind or_err id sv_sync svc_bucketID svc_branch]. rewrite Hvo. cbn [mbind result_bind]. rewrite Hh. cbn [mbind result_bind method]. rewrite I2.
  eassert (pullLocked (se_now (e_push2 e)) (sv_sync s) head' b1 = Ok (_, _)) as Hop2.
  { unfold pullLocked. rewrite Hw1. cbn [ws_Remote set_UpdatedAt set_Stashes set_Initialized]. rewrite Hmono. cbn [wrap_err mbind result_bind]. unfold advance_base, hasPending.
    cbn [ws_Stashes set_UpdatedAt set_Stashes set_Initialized existsb]. rewrite Hp1. cbn [orb negb mbind result_bind]. reflexivity. }
  destruct (pullLocked_step _ _ _ _ _ _ Hi1 Hsvc (headFromRef_ok _ _ Hh) Hop2) as [Hst2 Hw2]. destruct (stepped_view _ _ Hst2) as [Hv2 Hi2].
  rewrite (bucket_withState_ok _ _ _ _ _ Hv1 Hop2). set (b2 := store _ _ b1) in *. cbn [mbind result_bind fst].
  rewrite (same_request_eq s _ _ Hsame), (owns_request s _ _ Ho), Hrq. cbn [mbind result_bind]. rewrite Hrem. cbn [mbind result_bind or_err].
  change (svc_bucketID (sv_sync s)) with (p_BucketID (sv_plan s)). rewrite Hval. cbn [mbind result_bind]. unfold push_settle. rewrite I3.
  eassert (settleLocked (se_now (e_push3 e)) (se_now2 (e_push3 e)) (sv_sync s) (st_ID st1) value b2 = Ok (_, _)) as Hop3.
  { unfold settleLocked. rewrite Hw2. cbn [ws_Stashes set_heads set_Initialized set_UpdatedAt set_Stashes settle_scan]. rewrite bool_decide_eq_true_2 by done. cbn [negb].
    rewrite bool_decide_eq_false_2 by done. rewrite Hnext. cbn [mbind result_bind ws_Remote ws_Base ws_Stashes set_heads set_Stashes set_Initialized set_UpdatedAt]. rewrite (monotonicHead_after _ _ Hafter).
    cbn [wrap_err mbind result_bind]. unfold advance_base. cbn [hasPending existsb negb].
    rewrite monotonicHead_after; [reflexivity|]. pose proof (proj1 (proj2 Hi2 (sv_sync s))) as Hbr. rewrite Hw2 in Hbr. by transitivity remote. }
  by rewrite (bucket_withState_ok _ _ _ _ _ Hv2 Hop3).
Qed.

(** ** The retry *)
Record healthy (p : ports) (e : env) : Prop := {
  hl_io : e_lock e Lock = true /\ e_pending e = io_ok /\ e_accepted e = io_ok /\ e_has e = io_ok /\ e_status e = io_ok /\
    se_io (e_restore e) = io_ok /\ e_mark e = io_ok /\ e_done e = io_ok;
  hl_ports : pt_recoverSnapshots p = Ok () /\ pt_recoverInstall p = Ok ()
}.

Context (p : ports) (e : env) (Hh : healthy p e).

Lemma at_bucket sent h ws n : at_ s sent h ws n -> exists b, view (nd_bucket n) = Some b /\ state_inv b /\ workspace (sv_sync s) b = ws.
Proof. intros [[_ Hb _ _ _] _]. done. Qed.

Lemma tp_others sent o Q n h ws : rely s o -> at_ s sent h ws n ->
  (forall n', at_ s sent h ws n' -> nd_trust n' = nd_trust n -> tpa (A := unit) (fun n => (Ok (), n)) Q n') -> tpa (others o) Q n.
Proof.
  intros Ho Hat HQ. apply (tpa_of sent); [|done]. eapply wpa_others; [done|done|]. intros n' Hat' Htr. destruct (HQ n' Hat' Htr) as (u & n2 & E & HQ'). by injection E as <- <-.
Qed.

Lemma tp_finish sent c j st result rq value n h ws : env_ok s sent e -> at_ s sent h ws n -> hf_Pending h = Some j -> candidate_of j = cid_String c ->
  ws_Stashes ws = [st] -> is_pending st = true -> staged j -> owns j st -> recorded s (nd_trust n) c -> same_result s j result ->
  journal_request s j = Ok rq -> answered e ws rq value ->
  tp (finish s e c (pb_Message j) result st) (fun _ n' => exists h' ws', good s n' h' ws' /\ hf_Pending h' = None /\ nd_sent n' = sent ++ [rq]) n.
Proof.
  intros He Hat Hj Hc Hl Hpe Hst Ho Hrec Hres Hrq Han. destruct (hl_io _ _ Hh) as (_ & _ & _ & _ & _ & _ & I7 & I8). destruct (eo_rely _ _ _ He) as (_ & _ & _ & _ & R5 & R6 & R7).
  pose proof Hat as [Hg _]. pose proof (gd_linked _ _ _ _ Hg) as Hlk. rewrite Hj in Hlk. destruct (linked_journal s j _ _ Hlk) as [Hjo _].
  pose proof (gd_ready _ _ _ _ Hg ltac:(by rewrite Hj)) as Hin. pose proof Ho as (O1 & O2 & M1 & M2 & M3 & M4). unfold finish.
  apply tp_bind, tp_try, (tpa_of sent).
  2: { rewrite I7. unfold MarkPendingStaged. cbv zeta. rewrite (cid_string_trimmed c). eapply ok_mutate; [apply Hg| |].
       - apply fail_if_Ok. destruct Hst as [S1 S2]. rewrite O1, O2, !(proj2 (is_empty_false _)) by (done || apply cid_string_nonempty). cbn. by rewrite M1, Hc, bool_decide_eq_true_2.
       - unfold markStagedLocked. rewrite (proj2 (pending_for_iff (cid_String c) h j)) by done. cbn [mbind result_bind].
         rewrite M2, M3, M4, Hpe, !bool_decide_eq_true_2 by done. cbn [negb orb andb is_empty fail_if mbind result_bind].
         rewrite andb_false_r. reflexivity. }
  eapply (wpa_mark s sent); try done; [by right|]. intros h1 n1 Hat1 Htr1 Hj1 Hst1 Ho1. set (j1 := set_identity _ _ _) in *.
  assert (journal_request s j1 = Ok rq) as Hrq1 by (rewrite <- Hrq; unfold journal_request, j1; cbn; by rewrite O2).
  assert (journal_ok s j1) as Hjo1 by by apply journal_ok_identity.
  apply tp_bind, tp_try. unfold sync_Push. apply tpa_bind. eapply tp_others; [done|done|]. intros n2 Hat2 Htr2. exists (), n2. split; [done|].
  destruct (at_bucket _ _ _ _ Hat2) as (b & Hv & Hi & Hw). change (pb_Message j) with (pb_Message j1).
  apply (tpa_of sent). 2: { eapply (ok_push e c j1 st n2 b rq value); rewrite ?Hw; done. }
  eapply (wpa_push_logged s (proj1 Hplan) sent e c j1 st); try done; [by rewrite Htr2, Htr1|].
  intros value' w rq' ws3 n3 Hg3 Hs3 Htr3 Hrq3 Hrem3 Hval3 Hset. cbn [fst]. assert (rq' = rq) as -> by congruence.
  rewrite (an_remote _ _ _ _ Han) in Hrem3. injection Hrem3 as <-. destruct Hset as [[Hnb Hl3]|[Hb _]]; [|by destruct (an_status _ _ _ _ Han)].
  rewrite bool_decide_eq_false_2 by done. apply tp_bind, tp_try.
  assert (hf_Conflict h1 = None) as Hcn.
  { pose proof (gd_linked _ _ _ _ Hg3) as Hlk3. rewrite Hj1, Hl3 in Hlk3. by destruct (linked_staged_cases s j1 _ _ Hlk3 Hst1) as [_ [[? _]|[[? _]|(? & ? & _)]]]. }
  apply (tpa_of (nd_sent n3)).
  2: { rewrite I8. unfold CompletePending. cbv zeta. rewrite (cid_string_trimmed c), (plan_trimmed s Hplan). destruct Hres as (E1 & E2 & E3 & E4). eapply ok_mutate; [apply Hg3| |].
       - apply fail_if_Ok. cbn [set_Push re_PlanID re_CandidateRoot]. rewrite E1, E3, Hc, !bool_decide_eq_true_2 by done. rewrite (proj2 (is_empty_false _)) by apply cid_string_nonempty.
         destruct (valid_id_trimmed _ _ (proj2 Hplan)) as [_ Hne]. by rewrite (proj2 (is_empty_false _) Hne).
       - unfold completePendingLocked. rewrite (proj2 (pending_for_iff (cid_String c) h1 j1)) by done. cbn [mbind result_bind]. rewrite bool_decide_eq_true_2 by apply Hjo1. cbn. reflexivity. }
  eapply (wpa_complete s (nd_sent n3) (e_done e) c j1); try done.
  - intros n' Hi' Hs' _. split; [done|by left].
  - intros h4 n4 Hg4 Hs4 _ Hp4 _. apply tp_ret. exists h4, ws3. split_and!; [done|done|congruence].
  - by rewrite (plan_trimmed s Hplan).
Qed.

Lemma rootCID_text base : rootCID (cid_text base) = Ok base.
Proof.
  destruct base as [c|]; [|done]. unfold rootCID. cbn [cid_text]. rewrite (cid_string_trimmed c), (proj2 (is_empty_false _)) by apply cid_string_nonempty.
  unfold parse_cid. by rewrite cid_parse_string.
Qed.

(** The trust store knows the candidate of the journal. *)
Definition known (f : trust_file) (j : PendingBackup) : Prop := exists c base, candidate_of j = cid_String c /\ pb_CandidateBase j = cid_text base /\
  (roots_AcceptedRoot io_ok f (sv_alias s) = Ok c \/ HasCandidate io_ok (sv_alias s) (Some c) base f = Ok true).

Lemma pendingStash_owned ws j st : ws_Stashes ws = [st] -> staged j -> is_pending st = true -> owns j st -> pendingStash ws j (candidate_of j) = Ok (Some st).
Proof.
  intros Hl [Hs _] Hp (O1 & O2 & M1 & M2 & M3 & M4). unfold pendingStash. rewrite Hl, (proj2 (is_empty_false _) Hs). cbn [negb].
  rewrite O1, O2, M1, M2, M3, M4, Hp, !bool_decide_eq_true_2 by done. done.
Qed.

Lemma tp_retry sent j rq value n h ws : env_ok s sent e -> at_ s sent h ws n -> hf_Pending h = Some j -> staged j -> existsb is_branched (ws_Stashes ws) = false ->
  known (nd_trust n) j -> journal_request s j = Ok rq -> answered e ws rq value ->
  tp (retryPending s e j) (fun _ n' => exists h' ws', good s n' h' ws' /\ hf_Pending h' = None /\ nd_sent n' = sent ++ [rq]) n.
Proof.
  intros He Hat Hj Hst Hnb (c & base & Hc & Hcb & Hkn) Hrq Han. destruct (hl_io _ _ Hh) as (_ & _ & I3 & I4 & I5 & I6 & _). destruct (eo_rely _ _ _ He) as (R1 & _ & _ & R4 & _).
  pose proof Hat as [Hg _]. pose proof (gd_linked _ _ _ _ Hg) as Hlk. rewrite Hj in Hlk. destruct (linked_staged_cases s j _ _ Hlk Hst) as [Hjo Hcase].
  pose proof (gd_ready _ _ _ _ Hg ltac:(by rewrite Hj)) as Hin. unfold retryPending.
  apply tp_bind, tp_check; [apply fail_if_Ok; by rewrite bool_decide_eq_true_2 by apply Hjo|].
  apply tp_bind, tp_check; [apply fail_if_Ok; by rewrite !bool_decide_eq_true_2 by apply Hjo|].
  apply tp_bind, tp_try, (tpa_pure _ c); [rewrite Hc; unfold parse_cid; by rewrite cid_parse_string|].
  apply tp_bind, tp_check; [by rewrite (jo_recorded _ _ Hjo)|].
  apply tp_bind, tp_try. exists base, n. split; [unfold wrapped, pure; by rewrite Hcb, rootCID_text|].
  apply tp_bind, tp_try. eexists _, n. split; [reflexivity|]. rewrite I3. set (accepted := roots_AcceptedRoot _ _ _) in *.
  assert (recorded s (nd_trust n) c) as Hrec by (exists io_ok; naive_solver).
  apply tp_bind. exists (), n. split.
  { destruct (match accepted with Ok root => bool_decide (root = c) | Err _ => false end) eqn:Ea; [done|].
    destruct Hkn as [Hac|Hhas]; [rewrite Hac, bool_decide_eq_true_2 in Ea by done; done|].
    unfold mbind, Flow_bind, try, wrapped, roots_hasCandidate, reads. rewrite I4, Hhas. done. }
  apply tp_bind, tp_try. unfold sync_Status. apply tpa_bind. eapply tp_others; [done|done|]. intros n1 Hat1 Htr1. exists (), n1. split; [done|].
  destruct (at_bucket _ _ _ _ Hat1) as (b & Hv & Hi & Hw). apply (tpa_of sent); [|rewrite I5; by eapply ok_status]. eapply wpa_status; [done|].
  assert (same_result s j (set_Retried false (pb_Result j))) as Hres by (destruct Hjo; by split_and!). rewrite <- Htr1 in Hrec.
  destruct Hcase as [[_ El]|[(_ & st & El & Hpe & Ho)|(st & El & Hb & _)]]; [| |rewrite El in Hnb; cbn in Hnb; by rewrite Hb in Hnb].
  - apply tp_bind, tp_try, (tpa_pure _ None); [unfold pendingStash; by rewrite El|]. apply tp_bind, tp_check; [by rewrite Hin|].
    rewrite (proj2 (is_empty_false _) (proj1 Hst)). cbn [negb]. apply tp_bind, tp_bind, tp_try. unfold sync_RestorePending. apply tpa_bind. eapply tp_others; [done|done|].
    intros n2 Hat2 Htr2. exists (), n2. split; [done|]. destruct (at_bucket _ _ _ _ Hat2) as (b2 & Hv2 & Hi2 & Hw2). apply (tpa_of sent).
    2: { rewrite I6. eapply (ok_restore _ _ _ _ b2); try done; by rewrite Hw2. }
    eapply (wpa_restore s (proj1 Hplan) sent); try done. intros st ws3 n3 Hat3 Htr3 El3 Hpe3 Ho3 Hrem3. apply tp_ret, tp_bind.
    assert (is_branched st = false) as -> by (apply not_true_is_false; by intros ?%(pending_not_branched st)). apply tp_ret.
    eapply tp_finish; try done; [by rewrite Htr3, Htr2|]. destruct Han as [A1 A2 A3 A4 A5]. split; try done. by rewrite Hrem3.
  - apply tp_bind, tp_try, (tpa_pure _ (Some st)); [rewrite <- Hc; by apply pendingStash_owned|]. apply tp_bind, tp_check; [by rewrite Hin|].
    apply tp_bind, tp_ret, tp_bind. assert (is_branched st = false) as -> by (apply not_true_is_false; by intros ?%(pending_not_branched st)). apply tp_ret.
    by eapply tp_finish.
Qed.

(** C13. Interrupted publications complete.  Once the journal has frozen an
    identity, whatever stopped the earlier call, before its push reached the
    remote, after the remote applied it, or after the stash was settled, the
    next backup on a healthy host submits the frozen request again and, when the
    remote answers it, reports success and leaves no pending candidate. *)
Theorem interrupted_backup_completes m n n1 h j rq value :
  start s n -> rtc (step s) n n1 -> view (nd_history n1) = Some h -> hf_Pending h = Some j -> staged j -> journal_request s j = Ok rq ->
  known (nd_trust n1) j -> env_ok s (nd_sent n1) e ->
  (forall b, view (nd_bucket n1) = Some b -> existsb is_branched (ws_Stashes (workspace (sv_sync s) b)) = false /\ answered e (workspace (sv_sync s) b) rq value) ->
  exists result n', Backup s p e m n1 = (inl result, n') /\ nd_sent n' = nd_sent n1 ++ [rq] /\
    exists h', view (nd_history n') = Some h' /\ hf_Pending h' = None.
Proof.
  intros Hs Hr Hv Hj Hst Hrq Hkn He Hb. destruct (steps_inv s Hplan n n1 (start_inv s n Hs) Hr) as (h0 & ws & Hg).
  pose proof (gd_history _ _ _ _ Hg) as Hv0. rewrite Hv in Hv0. injection Hv0 as <-. destruct (gd_bucket _ _ _ _ Hg) as (b & Hvb & _ & <-). destruct (Hb b Hvb) as [Hnb Han].
  assert (tp (Backup s p e m) (fun _ n' => exists h' ws', good s n' h' ws' /\ hf_Pending h' = None /\ nd_sent n' = nd_sent n1 ++ [rq]) n1) as (result & n' & E & h' & ws' & Hg' & Hp' & Hs').
  { destruct (hl_io _ _ Hh) as (I1 & I2 & _), (hl_ports _ _ Hh) as (P1 & P2). unfold Backup.
    apply tp_bind, tp_check; [by rewrite I1|]. apply tp_bind, tp_check; [by rewrite P1|]. apply tp_bind, tp_check; [done|].
    apply tp_bind, tp_try, (tpa_of (nd_sent n1)); [|rewrite I2; by eapply ok_reading].
    eapply wpa_reading; [done|by eapply (at_stops _ _ h)|]. rewrite Hj. by eapply tp_retry. }
  exists result, n'. split_and!; [done|done|]. exists h'. split; [apply Hg'|done].
Qed.
End Live.
