(* ===== verification/PublicationWitness.v ===== *)
(** One plan of one host: a backup whose push does not reach the remote, and
    the retry that completes it. *)

From stdpp Require Import base decidable gmap strings list relations.
From Stdlib Require Import Ascii ZArith Lia.
From S2P Require Import Prelude GoText CidLib Effect Durable Trust Roots PlanFlow Registry PlainTree Install Branch NodeApi BucketSync BucketSyncFacts BucketSyncThms History Plans PlansRuns PlanManifest PlanBackup PlanSync PlanLinked PlanRuns PublicationThms PublicationLive.

Module Publications.
#[local] Existing Instance TallyCid.lib.
#[local] Existing Instance TallyCid.laws.
#[local] Instance transparent : Sha256 := {| sha256_hex := of_bytes |}.

Definition photos : Binding := Plans.mkBinding "binding_1" "photos" "/home/photos" "photos" 3.
Definition plan : Plan := mkPlan "plan_1" "photos" "bucket" "photos" "team" [photos] 0 true EmptyString 3 3.
Definition service : PlanService := mkPlanService plan ["/home/.malt"] [].

Definition prepared : PreparedBinding := mkPrepared (mkBindingManifest "binding_1" "photos" "photos" "token") (Some 3) 40 "fp1".
Definition fs : ports :=
  mkPorts PlanScenes.plain_host (Ok ()) (Ok ()) (fun _ => Ok "fp1") (fun _ => Ok "manifest") (fun _ => Ok "kzg") (Ok "kzg")
    (fun _ => Err (Errorf "no dataset")) 1 (fun _ => Ok ()) (fun _ => Ok ()) (fun _ => Ok ()) (fun _ => Ok "fp1") (fun _ => Ok prepared) (fun _ => Ok "fp1")
    (fun _ _ => Ok (Some 2, 8%Z)) (Ok ()) (Ok ()).

Definition sec (now : time) : section_env := SectionEnv io_ok now now.
Definition environment (random : string) (remote : ApplyRequest -> result (option ApplyResult)) : env :=
  mkEnv io_ok io_ok io_ok io_ok 9 io_ok (sec 10) (Ok (Some (Witness.remote_head "c1" "bafya" 1))) io_ok io_ok io_ok (sec 11) 12 io_ok (sec 13)
    (Some random) (sec 14) io_ok (sec 15) (sec 16) (sec 17) (Ok (Some (Witness.remote_head "c1" "bafya" 1))) remote 18 io_ok
    id id id id id id id.

Definition offline : env := environment "id1" (fun _ => Err (Errorf "offline")).
Definition online : env := environment "id2" (fun _ => Ok (Some Witness.answer)).

Definition node0 : node := mkNode None None None [].
Definition interrupted := Backup service fs offline "note" node0.
Definition completed := Backup service fs online "note" interrupted.2.

Lemma rely_id : rely service id.
Proof. intros f b Hv Hi. by exists b. Qed.

Lemma valid : plan_valid service.
Proof. split; vm_compute; reflexivity. Qed.

Lemma start0 : start service node0.
Proof.
  split; [done| |done]. exists emptyState. split_and!; [vm_compute; reflexivity|apply empty_inv|vm_compute; reflexivity].
Qed.

Lemma env_ok_by sent random remote : random <> EmptyString -> Forall (fun r => ar_OperationID r <> TrimSpace ("push_" +:+ random)) sent ->
  env_ok service sent (environment random remote).
Proof.
  intros Hr Hf. rewrite Forall_forall in Hf. split; [split_and!; exact rely_id| |done]. intros id [= <-]. split; [done|exact Hf].
Qed.

Lemma offline_ok : env_ok service (nd_sent node0) offline.
Proof. apply env_ok_by; [done|constructor]. Qed.

Definition sent_ids (n : node) : list string := ar_OperationID <$> nd_sent n.

Lemma online_ok : env_ok service (nd_sent interrupted.2) online.
Proof.
  apply env_ok_by; [done|]. apply Forall_forall. intros r Hr. apply (list_elem_of_fmap_2 ar_OperationID) in Hr.
  assert ((ar_OperationID <$> nd_sent interrupted.2) = ["push_id1"]) as E by (vm_compute; reflexivity). rewrite E in Hr. apply list_elem_of_singleton in Hr. rewrite Hr. by vm_compute.
Qed.

Lemma one_step : rtc (step service) node0 interrupted.2.
Proof. apply rtc_once. eapply step_backup; [exact offline_ok|apply surjective_pairing]. Qed.
Lemma two_steps : rtc (step service) node0 completed.2.
Proof. eapply rtc_r; [exact one_step|]. eapply step_backup; [exact online_ok|apply surjective_pairing]. Qed.

Lemma push_identity_names_one_request_witness :
  sent_ids completed.2 = ["push_id1"; "push_id1"] /\ forall r1 r2, r1 ∈ nd_sent completed.2 -> r2 ∈ nd_sent completed.2 -> ar_OperationID r1 = ar_OperationID r2 -> r1 = r2.
Proof.
  split; [vm_compute; reflexivity|]. intros r1 r2. apply (push_identity_names_one_request service valid node0 completed.2 r1 r2 start0 two_steps).
Defined.

Lemma journal_and_workspace_agree_witness :
  exists h b, view (nd_history interrupted.2) = Some h /\ view (nd_bucket interrupted.2) = Some b /\
    linked service (hf_Pending h) (hf_Conflict h) (ws_Stashes (workspace (sv_sync service) b)).
Proof. exact (journal_and_workspace_agree service valid node0 interrupted.2 start0 one_step). Defined.

Lemma completed_backup_was_applied_witness : exists result rq value, completed.1 = inl result /\ re_CandidateRoot result = "bafyaa" /\
  ar_CandidateRoot rq = "bafyaa" /\ ValidateApplyResult "bucket" rq value = Ok ().
Proof.
  destruct (completed.1) as [result|e] eqn:E; [|exfalso; apply (f_equal (fun x => match x with inl _ => true | inr _ => false end)) in E; vm_compute in E; discriminate].
  assert (re_CandidateRoot result = "bafyaa" /\ re_Skipped result = false) as [Hc Hs].
  { split; [transitivity (match completed.1 with inl r => re_CandidateRoot r | inr _ => EmptyString end)|transitivity (match completed.1 with inl r => re_Skipped r | inr _ => true end)];
      [by rewrite E|vm_compute; reflexivity|by rewrite E|vm_compute; reflexivity]. }
  destruct (completed_backup_was_applied service valid fs online "note" node0 interrupted.2 completed.2 result start0 one_step online_ok) as (h & rq & value & _ & _ & _ & _ & H1 & _ & H2 & _).
  - unfold completed in *. rewrite <- E. apply surjective_pairing.
  - exact Hs.
  - exists result, rq, value. split_and!; [done|exact Hc|congruence|exact H2].
Defined.

Lemma only_recorded_candidates_are_published_witness : sent_ids interrupted.2 = ["push_id1"] /\
  exists rq c, nd_sent interrupted.2 = [rq] /\ ar_CandidateRoot rq = cid_String c /\ recorded service (nd_trust interrupted.2) c.
Proof.
  split; [vm_compute; reflexivity|].
  destruct (only_recorded_candidates_are_published service valid fs offline "note" node0 node0 interrupted.1 interrupted.2 start0 (rtc_refl _ _) offline_ok) as [H|H].
  - apply surjective_pairing.
  - exfalso. apply (f_equal length) in H. vm_compute in H. discriminate.
  - exact H.
Defined.

(** The journal that the interrupted call left. *)
Definition journal : option PendingBackup := view (nd_history interrupted.2) ≫= hf_Pending.

Lemma interrupted_backup_completes_witness : exists result n', Backup service fs online "note" interrupted.2 = (inl result, n') /\ length (nd_sent n') = 2.
Proof.
  destruct (view (nd_history interrupted.2)) as [h|] eqn:Eh; [|vm_compute in Eh; discriminate].
  destruct (hf_Pending h) as [j|] eqn:Ej.
  2: { exfalso. assert (journal = None) as H by (unfold journal; rewrite Eh; exact Ej). vm_compute in H. discriminate. }
  assert (journal = Some j) as Hj by (unfold journal; rewrite Eh; exact Ej). vm_compute in Hj. injection Hj as Hj.
  destruct (journal_request service j) as [rq|] eqn:Erq; [|rewrite <- Hj in Erq; vm_compute in Erq; discriminate].
  destruct (interrupted_backup_completes service valid fs online) with (m := "note") (n := node0) (n1 := interrupted.2) (h := h) (j := j) (rq := rq) (value := Witness.answer)
    as (result & n' & E & Hs & _).
  - split; [by split_and!|by split].
  - exact start0.
  - exact one_step.
  - exact Eh.
  - exact Ej.
  - rewrite <- Hj. by split.
  - exact Erq.
  - exists 2, None. rewrite <- Hj. split_and!; [vm_compute; reflexivity|vm_compute; reflexivity|right; vm_compute; reflexivity].
  - exact online_ok.
  - intros b Hb. vm_compute in Hb. injection Hb as <-. split; [vm_compute; reflexivity|]. rewrite <- Hj in Erq. vm_compute in Erq. injection Erq as <-. split; [by split_and!| | |vm_compute; reflexivity|by vm_compute].
    + eexists _, _, _, _. split_and!; [reflexivity|vm_compute; reflexivity|vm_compute; reflexivity|vm_compute; reflexivity|vm_compute; reflexivity|]. split; vm_compute; [discriminate|discriminate].
    + reflexivity.
  - exists result, n'. split; [exact E|]. rewrite Hs, length_app. assert (length (nd_sent interrupted.2) = 1) as -> by (vm_compute; reflexivity). reflexivity.
Defined.
End Publications.
