(* ===== verification/PlanBatch.v ===== *)
(** Running several plans (application/backup/batch.go and batch_runner.go):
    the selection of plans, the loop over them, and the report of a batch. *)

From stdpp Require Import base decidable gmap strings list.
From Stdlib Require Import Ascii ZArith Lia.
From S2P Require Import Prelude GoText CidLib Durable BucketSync NodeApi Json DirManifest Chunks History Plans.

Record PlanRequest := mkPlanRequest { rq_Plans : list string; rq_Message : string; rq_MergeConflicts : bool }.
Record PlanRun := mkPlanRun { pn_PlanID : string; pn_PlanName : string; pn_BucketID : string; pn_Branch : string; pn_Result : Result }.
Record PlanFailure := mkPlanFailure {
  pf_PlanID : string; pf_PlanName : string; pf_BucketID : string; pf_Branch : string; pf_Conflict : bool; pf_ConflictBranch : string;
  pf_MergeAvailable : bool; pf_Checkout : option ConflictCheckout; pf_TrustAlias : string; pf_ObservedRoot : string; pf_AcceptedRoot : string;
  pf_CandidateRecorded : bool; pf_Error : string
}.
Record BatchResult := mkBatchResult { ba_Operation : string; ba_Runs : list PlanRun; ba_Failures : list PlanFailure; ba_CompletedAt : time }.

(** An error of a plan operation, as [errors.Is] and [errors.As] see it: whether
    it is a conflict, and the first [UnacceptedRootError], [ConflictError] and
    [ManualMergeError] in its tree. *)
Record unaccepted := mkUnaccepted { un_Alias : string; un_Observed : string; un_Accepted : option string; un_CandidateRecorded : bool }.
Record branched := mkBranched { br_Branch : string; br_PushBranch : option string }.
Record plan_error := mkPlanError {
  pe_Text : string; pe_IsConflict : bool; pe_Root : option unaccepted; pe_Conflict : option branched; pe_Manual : option ConflictCheckout
}.
Definition simple_error (text : string) : plan_error := mkPlanError text false None None None.

Definition first_of {A} (a b : option A) : option A := match a with Some _ => a | None => b end.
(** [errors.Join] of two errors, either of which may be nil. *)
Definition errors_Join (a b : option plan_error) : option plan_error :=
  match a, b with
  | None, None => None
  | Some a, None => Some a
  | None, Some b => Some b
  | Some a, Some b =>
      Some (mkPlanError (pe_Text a +:+ byte_str [10] +:+ pe_Text b) (pe_IsConflict a || pe_IsConflict b) (first_of (pe_Root a) (pe_Root b))
              (first_of (pe_Conflict a) (pe_Conflict b)) (first_of (pe_Manual a) (pe_Manual b)))
  end.

Definition newPlanFailure (plan : Plan) (err : plan_error) : PlanFailure :=
  mkPlanFailure (p_ID plan) (p_Name plan) (p_BucketID plan) (p_Branch plan) (pe_IsConflict err)
    (match pe_Conflict err with Some c => default (br_Branch c) (br_PushBranch c) | None => EmptyString end)
    (match pe_Manual err, pe_Conflict err with Some _, _ => false | None, Some _ => true | None, None => false end)
    (pe_Manual err)
    (match pe_Root err with Some r => un_Alias r | None => EmptyString end)
    (match pe_Root err with Some r => un_Observed r | None => EmptyString end)
    (match pe_Root err with Some r => default EmptyString (un_Accepted r) | None => EmptyString end)
    (match pe_Root err with Some r => un_CandidateRecorded r | None => false end)
    (pe_Text err).

(** ** The error of a batch *)
Record BatchError := mkBatchError { be_Operation : string; be_Failures : list PlanFailure; be_causes : list plan_error }.
Definition NewBatchError (operation : string) (failures : list PlanFailure) (causes : list plan_error) : option BatchError :=
  if bool_decide (failures = []) then None else Some (mkBatchError (TrimSpace operation) failures causes).
Definition text_of_nat (n : nat) : string := of_bytes (decimal (N.of_nat n)).
Definition BatchError_Error (e : BatchError) : string :=
  let conflicts := length (List.filter pf_Conflict (be_Failures e)) in
  if bool_decide (conflicts = length (be_Failures e)) then be_Operation e +:+ " completed with " +:+ text_of_nat conflicts +:+ " backup conflict(s)"
  else if negb (bool_decide (conflicts = 0)) then
    be_Operation e +:+ " completed with " +:+ text_of_nat (length (be_Failures e)) +:+ " failure(s), including " +:+ text_of_nat conflicts +:+ " backup conflict(s)"
  else be_Operation e +:+ " completed with " +:+ text_of_nat (length (be_Failures e)) +:+ " failure(s)".
Definition BatchError_Unwrap (e : BatchError) : list plan_error := be_causes e.

(** ** The runner *)
Section Runner.
Context {W : Type}.

(** [PlanOperations], and the optional [Close]. *)
Record operations := mkOperations {
  op_Backup : string -> W -> (option Result * option plan_error) * W;
  op_SyncWithOptions : string -> bool -> W -> (option Result * option plan_error) * W;
  op_Close : option (W -> option plan_error * W)
}.
(** [BatchEnvironment]. *)
Record environment := mkEnvironment {
  en_List : W -> (plan_error + list Plan) * W;
  en_Get : string -> W -> (plan_error + Plan) * W;
  en_PlanService : Plan -> W -> (plan_error + option operations) * W
}.
(** The context of the call, and the factory of environments and the clock of
    the runner. *)
Context (ctx_Err : W -> option plan_error) (openEnvironment : W -> (plan_error + option environment) * W) (now : W -> time).

Fixpoint select_each (catalog : environment) (selectors : list string) (seen : gset string) (w : W) : (plan_error + list Plan) * W :=
  match selectors with
  | [] => (inr [], w)
  | selector :: selectors =>
      match en_Get catalog selector w with
      | (inl e, w1) => (inl e, w1)
      | (inr value, w1) =>
          if bool_decide (p_ID value ∈ seen) then select_each catalog selectors seen w1 else
          match select_each catalog selectors ({[p_ID value]} ∪ seen) w1 with
          | (inl e, w2) => (inl e, w2)
          | (inr values, w2) => (inr (value :: values), w2)
          end
      end
  end.
Definition selectPlans (catalog : environment) (selectors : list string) (w : W) : (plan_error + list Plan) * W :=
  if bool_decide (selectors = []) then
    match en_List catalog w with
    | (inl e, w1) => (inl e, w1)
    | (inr [], w1) => (inl (simple_error "no backup plans are configured"), w1)
    | (inr values, w1) => (inr values, w1)
    end
  else select_each catalog selectors ∅ w.

(** What one round of the loop does with a plan, from its service to [Close]. *)
Definition attempt (e : environment) (operation : string) (request : PlanRequest) (plan : Plan) (w : W) : (option Result * option plan_error) * W :=
  match en_PlanService e plan w with
  | (inl err, w1) => ((None, Some err), w1)
  | (inr None, w1) => ((None, Some (simple_error "backup plan service is nil")), w1)
  | (inr (Some service), w1) =>
      let '((run, err), w2) := if bool_decide (operation = "sync") then op_SyncWithOptions service (rq_Message request) (rq_MergeConflicts request) w1
                               else op_Backup service (rq_Message request) w1 in
      match op_Close service with
      | None => ((run, err), w2)
      | Some close => let '(closed, w3) := close w2 in ((run, errors_Join err closed), w3)
      end
  end.

Record report := mkReport { rp_Runs : list PlanRun; rp_Failures : list PlanFailure; rp_causes : list plan_error }.
Definition add_run (plan : Plan) (run : option Result) (rp : report) : report :=
  match run with
  | None => rp
  | Some r => mkReport (rp_Runs rp ++ [mkPlanRun (p_ID plan) (p_Name plan) (p_BucketID plan) (p_Branch plan) r]) (rp_Failures rp) (rp_causes rp)
  end.
Definition add_failure (plan : Plan) (err : option plan_error) (rp : report) : report :=
  match err with
  | None => rp
  | Some err => mkReport (rp_Runs rp) (rp_Failures rp ++ [newPlanFailure plan err]) (rp_causes rp ++ [err])
  end.

Fixpoint run_each (e : environment) (operation : string) (request : PlanRequest) (plans : list Plan) (rp : report) (w : W) : report * W :=
  match plans with
  | [] => (rp, w)
  | plan :: plans =>
      match ctx_Err w with
      | Some err => (add_failure plan (Some err) rp, w)
      | None =>
          let '((run, err), w1) := attempt e operation request plan w in
          run_each e operation request plans (add_failure plan err (add_run plan run rp)) w1
      end
  end.

(** The result is the pair of the Go function; an error before the loop is an
    error of a plan. *)
Definition run (operation : string) (request : PlanRequest) (w : W) : (plan_error + (BatchResult * option BatchError)) * W :=
  match openEnvironment w with
  | (inl err, w1) => (inl err, w1)
  | (inr None, w1) => (inl (simple_error "backup batch environment is nil"), w1)
  | (inr (Some e), w1) =>
      match selectPlans e (rq_Plans request) w1 with
      | (inl err, w2) => (inl err, w2)
      | (inr plans, w2) =>
          let '(rp, w3) := run_each e operation request plans (mkReport [] [] []) w2 in
          (inr (mkBatchResult operation (rp_Runs rp) (rp_Failures rp) (now w3), NewBatchError operation (rp_Failures rp) (rp_causes rp)), w3)
      end
  end.
Definition BackupPlans (request : PlanRequest) (w : W) : (plan_error + (BatchResult * option BatchError)) * W := run "backup" request w.
Definition SyncPlans (request : PlanRequest) (w : W) : (plan_error + (BatchResult * option BatchError)) * W := run "sync" request w.

(** ** Selection *)
Lemma select_each_spec catalog selectors seen w plans w' : select_each catalog selectors seen w = (inr plans, w') ->
  NoDup (p_ID <$> plans) /\ (forall plan, plan ∈ plans -> p_ID plan ∉ seen) /\
  exists answers, length answers = length selectors /\ (forall plan, plan ∈ plans -> plan ∈ answers) /\
    forall plan, plan ∈ answers -> p_ID plan ∈ seen \/ p_ID plan ∈ p_ID <$> plans.
Proof.
  revert seen w plans w'. induction selectors as [|x selectors IH]; intros seen w plans w' H; cbn in H.
  { injection H as <- _. split_and!; [constructor|by intros ? ?%elem_of_nil|]. exists []. split_and!; [done|by intros ? ?%elem_of_nil|by intros ? ?%elem_of_nil]. }
  destruct (en_Get catalog x w) as [[?|value] w1]; [done|]. case_bool_decide as Hin.
  - destruct (IH _ _ _ _ H) as (H1 & H2 & answers & H3 & H4 & H5). split_and!; [done|done|]. exists (value :: answers). split_and!; [cbn; lia|intros; right; auto|].
    intros plan [->|Hp]%elem_of_cons; [by left|by apply H5].
  - destruct (select_each catalog selectors _ w1) as [[?|values] w2] eqn:E; [done|]. injection H as <- _. destruct (IH _ _ _ _ E) as (H1 & H2 & answers & H3 & H4 & H5). split_and!.
    + cbn. constructor; [|done]. intros (y & Ey & Hy)%list_elem_of_fmap. apply (H2 y Hy). rewrite <- Ey. set_solver.
    + intros plan [->|Hp]%elem_of_cons; [done|]. specialize (H2 plan Hp). set_solver.
    + exists (value :: answers). split_and!; [cbn; lia|intros plan [->|Hp]%elem_of_cons; [by left|right; auto]|].
      intros plan [->|Hp]%elem_of_cons; [right; cbn; by left|]. destruct (H5 plan Hp) as [Hs|Hs]; [|right; cbn; by right]. apply elem_of_union in Hs as [->%elem_of_singleton|Hs]; [right; cbn; by left|by left].
Qed.

(** ** The loop *)
(** The plans that a loop attempts, with what each attempt answered. *)
Inductive attempts (e : environment) (operation : string) (request : PlanRequest) : list Plan -> W -> list (Plan * (option Result * option plan_error)) -> W -> Prop :=
  | attempts_nil w : attempts e operation request [] w [] w
  | attempts_cons plan plans w o w1 os w2 : ctx_Err w = None -> attempt e operation request plan w = (o, w1) -> attempts e operation request plans w1 os w2 ->
      attempts e operation request (plan :: plans) w ((plan, o) :: os) w2.

Definition runs_of (os : list (Plan * (option Result * option plan_error))) : list PlanRun :=
  omap (fun '(plan, (run, _)) => (fun r => mkPlanRun (p_ID plan) (p_Name plan) (p_BucketID plan) (p_Branch plan) r) <$> run) os.
Definition causes_of (os : list (Plan * (option Result * option plan_error))) : list (Plan * plan_error) :=
  omap (fun '(plan, (_, err)) => (fun e => (plan, e)) <$> err) os.

Lemma run_each_spec e operation request plans rp w : exists done rest os w', plans = done ++ rest /\ attempts e operation request done w os w' /\
  (rest = [] \/ exists err, ctx_Err w' = Some err) /\
  let failed := causes_of os ++ match rest with [] => [] | plan :: _ => match ctx_Err w' with Some err => [(plan, err)] | None => [] end end in
  run_each e operation request plans rp w =
  (mkReport (rp_Runs rp ++ runs_of os) (rp_Failures rp ++ ((fun x => newPlanFailure x.1 x.2) <$> failed)) (rp_causes rp ++ (snd <$> failed)), w').
Proof.
  revert rp w. induction plans as [|plan plans IH]; intros rp w.
  { exists [], [], [], w. split_and!; [done|constructor|by left|]. cbn. rewrite !app_nil_r. by destruct rp. }
  cbn [run_each]. destruct (ctx_Err w) as [err|] eqn:Ec.
  { exists [], (plan :: plans), [], w. split_and!; [done|constructor|eauto|]. cbn. rewrite Ec. cbn. by rewrite app_nil_r. }
  destruct (attempt e operation request plan w) as [[run err] w1] eqn:E. destruct (IH (add_failure plan err (add_run plan run rp)) w1) as (done & rest & os & w' & -> & H1 & H2 & H3).
  exists (plan :: done), rest, ((plan, (run, err)) :: os), w'. split_and!; [done|by econstructor|done|]. rewrite H3. destruct run, err; cbn; by rewrite <- ?app_assoc.
Qed.

(** Every plan of a batch is attempted, whatever happens to the others.  A
    batch attempts its plans in order, once each, until they are done or the
    context is cancelled; the report lists the result of every attempt that
    returned one and a failure for every attempt that failed, and, if the context
    was cancelled, one for the plan it was cancelled at; the batch succeeds
    exactly when nothing failed. *)
Theorem batch_attempts_every_plan e operation request plans w w1 w2 result err w3 :
  openEnvironment w = (inr (Some e), w1) -> selectPlans e (rq_Plans request) w1 = (inr plans, w2) -> run operation request w = (inr (result, err), w3) ->
  exists done rest os, plans = done ++ rest /\ attempts e operation request done w2 os w3 /\ ba_Runs result = runs_of os /\
    (rest = [] \/ exists c, ctx_Err w3 = Some c) /\
    let failed := causes_of os ++ match rest with [] => [] | plan :: _ => match ctx_Err w3 with Some c => [(plan, c)] | None => [] end end in
    ba_Failures result = ((fun x => newPlanFailure x.1 x.2) <$> failed) /\ (BatchError_Unwrap <$> err = if bool_decide (failed = []) then None else Some (snd <$> failed)).
Proof.
  intros Ho Hs H. unfold run in H. rewrite Ho, Hs in H. destruct (run_each_spec e operation request plans (mkReport [] [] []) w2) as (done & rest & os & w' & -> & H1 & H2 & H3).
  rewrite H3 in H. cbn in H. injection H as <- <- <-. exists done, rest, os. split_and!; [done|done|done|done|]. cbn. split; [done|]. set (failed := causes_of os ++ _). unfold NewBatchError.
  destruct failed as [|x failed]; [done|]. by rewrite !bool_decide_eq_false_2.
Qed.
End Runner.
