(* ===== verification/StagedTree.v ===== *)
(** The staged tree and its materialisation (unixfs/staged_tree.go,
    staged_remove.go, staged_load.go, staged_materialize.go, projection.go,
    layout.go and the check of a candidate in verified_facade.go): a tree of
    nodes that remember the roots they were loaded from, the edits of it, and
    the bottom-up write that reuses the root of every directory that no edit
    marked as changed.

    A tree is a value here: the code owns the nodes it edits, and a tree is
    dropped when its materialisation fails.  Two pointers matter to the code
    only in [MergeStagedNodes], which returns a flag for that.  The field
    [Chunks] of a node is never used. *)

From stdpp Require Import base decidable gmap strings list sorting.
From Stdlib Require Import Ascii ZArith Lia.
From S2P Require Import Prelude GoText CidLib Cache WritePlan Paths Staging Effect Cas Json DirManifest Chunks.

Definition StagedKindMapDirectory : string := "mapdir".

(** [LayoutKind], as far as [NewLayout] knows it. *)
Inductive LayoutKind := LayoutFlatV1 | LayoutRootedV1 | LayoutHybridV1.
#[global] Instance LayoutKind_eq_dec : EqDecision LayoutKind.
Proof. solve_decision. Defined.

Definition NewLayout (kind : string) : result LayoutKind :=
  if bool_decide (kind = "rooted-v1") then Ok LayoutRootedV1 else if bool_decide (kind = "flat-v1") then Ok LayoutFlatV1
  else if bool_decide (kind = "hybrid-v1") then Ok LayoutHybridV1 else Err (Errorf "unsupported MALT UnixFS layout").

(** [strings.ToLower], as far as a comparison with ASCII text sees it: a Kelvin
    sign and a dotted capital I also have an ASCII lower case. *)
Definition lower_rune (r : N) : N :=
  if (65 <=? r)%N && (r <=? 90)%N then (r + 32)%N else if (r =? 0x212A)%N then 107%N else if (r =? 0x130)%N then 105%N else r.
Definition ToLower (s : string) : string := of_bytes (concat (EncodeRune <$> (lower_rune <$> runes (bytes s)))).
Definition ParseLayoutKind (raw : string) : result LayoutKind := NewLayout (ToLower (TrimSpace raw)).

Section Tree.
Context {L : CidLib}.

(** [StagedNode]; the children of the Go map are a list by name. *)
Inductive StagedNode := mkStagedNode (Kind StorageKind : string) (Key : option Cid) (Changed : bool) (Children : list (string * StagedNode)).

Definition sn_Kind (n : StagedNode) : string := let '(mkStagedNode k _ _ _ _) := n in k.
Definition sn_StorageKind (n : StagedNode) : string := let '(mkStagedNode _ s _ _ _) := n in s.
Definition sn_Key (n : StagedNode) : option Cid := let '(mkStagedNode _ _ k _ _) := n in k.
Definition sn_Changed (n : StagedNode) : bool := let '(mkStagedNode _ _ _ c _) := n in c.
Definition sn_Children (n : StagedNode) : list (string * StagedNode) := let '(mkStagedNode _ _ _ _ cs) := n in cs.

(** Induction with the children. *)
Lemma StagedNode_nested (P : StagedNode -> Prop) :
  (forall kind storage key changed children, Forall (fun c => P c.2) children -> P (mkStagedNode kind storage key changed children)) -> forall n, P n.
Proof.
  intros H. fix IH 1. intros [kind storage key changed children]. apply H. induction children as [|[name child] children IHc]; constructor; [apply IH|exact IHc].
Qed.

Definition mark (n : StagedNode) : StagedNode := mkStagedNode (sn_Kind n) (sn_StorageKind n) (sn_Key n) true (sn_Children n).
Definition is_dir (n : StagedNode) : bool := bool_decide (sn_Kind n = StagedKindDirectory).

Definition lookup_child (name : string) (cs : list (string * StagedNode)) : option StagedNode := snd <$> List.find (fun c => bool_decide (c.1 = name)) cs.
Definition delete_child (name : string) (cs : list (string * StagedNode)) : list (string * StagedNode) := List.filter (fun c => negb (bool_decide (c.1 = name))) cs.
Fixpoint put_child (name : string) (child : StagedNode) (cs : list (string * StagedNode)) : list (string * StagedNode) :=
  match cs with
  | [] => [(name, child)]
  | (n, x) :: cs => if bool_decide (n = name) then (name, child) :: cs else (n, x) :: put_child name child cs
  end.
Definition set_child (name : string) (child n : StagedNode) : StagedNode :=
  mkStagedNode (sn_Kind n) (sn_StorageKind n) (sn_Key n) true (put_child name child (sn_Children n)).

(** ** Edits *)
Definition NewStagedDirectory : StagedNode := mkStagedNode StagedKindDirectory EmptyString None false [].

Definition SplitStagedPath (p : string) : list string :=
  let clean := CanonicalStagedPath p in
  if bool_decide (clean = EmptyString) then [] else
  List.filter (fun part => negb (bool_decide (part = EmptyString)) && negb (bool_decide (part = "."))) (Split clean slash).

(** The loop of [EnsureStagedDirectory], with what its caller does to the
    directory that it returns. *)
Fixpoint ensure (segments : list string) (edit : StagedNode -> StagedNode) (cur : StagedNode) : StagedNode :=
  match segments with
  | [] => edit cur
  | seg :: segments =>
      let child := match lookup_child seg (sn_Children cur) with
                   | Some child => if is_dir child then child else mark NewStagedDirectory
                   | None => mark NewStagedDirectory
                   end in
      set_child seg (ensure segments edit child) cur
  end.
Definition EnsureStagedDirectory (root : StagedNode) (p : string) (edit : StagedNode -> StagedNode) : StagedNode :=
  if bool_decide (p = EmptyString) then edit (mark root) else ensure (SplitStagedPath p) edit (mark root).

(** A path of at least one segment: its parent and its name. *)
Definition split_last (segments : list string) : option (list string * string) :=
  match rev segments with name :: parents => Some (rev parents, name) | [] => None end.

Section Storage.
Context {BK : BlockLib} {IL : InlineLib}.

Definition SetStagedFile (root : StagedNode) (p : string) (key : option Cid) : result StagedNode :=
  segments ← ParseCanonicalStagedPath p;
  '(parents, name) ← or_err (split_last segments) (Errorf "file path must not be empty");
  Ok (EnsureStagedDirectory root (join_slash parents) (fun parent =>
    match lookup_child name (sn_Children parent) with
    | Some existing =>
        if bool_decide (sn_Kind existing = StagedKindFile) && bool_decide (sn_Key existing = key) then parent
        else set_child name (mkStagedNode StagedKindFile (StorageKindFromCID key) key true []) parent
    | None => set_child name (mkStagedNode StagedKindFile (StorageKindFromCID key) key true []) parent
    end)).
End Storage.

Definition SetStagedMapDirectory (root : StagedNode) (p : string) (key : option Cid) : result StagedNode :=
  segments ← ParseCanonicalStagedPath p;
  '(parents, name) ← or_err (split_last segments) (Errorf "map directory path must not be empty");
  Ok (EnsureStagedDirectory root (join_slash parents) (set_child name (mkStagedNode StagedKindMapDirectory "prefix" key true []))).

(** [path.Dir]. *)
Definition path_Dir (p : string) : string :=
  match Split p slash with
  | [] | [_] => "."
  | segs => path_Clean (join_slash (removelast segs) +:+ "/")
  end.
Definition EnsureStagedFile (root : StagedNode) (p : string) : option StagedNode :=
  '(_, name) ← split_last (SplitStagedPath p);
  let parentPath := path_Dir p in
  let parentPath := if bool_decide (parentPath = ".") then EmptyString else parentPath in
  Some (EnsureStagedDirectory root parentPath (set_child name (mkStagedNode StagedKindFile "raw" None true []))).

Fixpoint removeStagedSegments (segments : list string) (parent : StagedNode) : result StagedNode :=
  match segments with
  | [] => Err (Errorf "cannot remove the staged root")
  | seg :: rest =>
      child ← or_err (lookup_child seg (sn_Children parent)) (Wrapf seg ErrPathNotFound);
      match rest with
      | [] => Ok (mkStagedNode (sn_Kind parent) (sn_StorageKind parent) (sn_Key parent) true (delete_child seg (sn_Children parent)))
      | _ :: _ =>
          _ ← fail_if (negb (is_dir child)) (Wrapf seg ErrNotDirectory);
          child ← removeStagedSegments rest child;
          Ok (set_child seg child parent)
      end
  end.
Definition RemoveStagedPath (root : StagedNode) (rawPath : string) : result StagedNode :=
  _ ← fail_if (negb (is_dir root)) (Errorf "staged root is not a directory");
  segments ← ParseCanonicalStagedPath rawPath;
  removeStagedSegments segments root.

(** One round of the loop of [MergeStagedNodes]; the flag tells whether a node
    that it returns is the pointer [existing]. *)
Definition merge_child (cur : StagedNode) (step : string * (option StagedNode -> StagedNode * bool)) : StagedNode :=
  let '(name, merge) := step in
  let '(merged, same) := merge (lookup_child name (sn_Children cur)) in
  mkStagedNode (sn_Kind cur) (sn_StorageKind cur) (sn_Key cur) (sn_Changed cur || negb same || sn_Changed merged) (put_child name merged (sn_Children cur)).
Fixpoint MergeStagedNodes (staged : StagedNode) (existing : option StagedNode) : StagedNode * bool :=
  match existing with
  | None => (staged, false)
  | Some existing =>
      if negb (is_dir staged) then
        if bool_decide (sn_Kind existing = sn_Kind staged) && bool_decide (sn_Key existing = sn_Key staged) then (existing, true) else (staged, false)
      else if negb (is_dir existing) then (staged, false)
      else
        let '(mkStagedNode _ _ _ _ children) := staged in
        (foldl merge_child existing (map (fun '(name, child) => (name, MergeStagedNodes child)) children), true)
  end.

(** ** Projection *)
Record DirectoryChild := mkDirectoryChild { dc_Name : string; dc_Directory : bool; dc_Root : option Cid; dc_Manifest : option Cid; dc_Descendants : gmap string (option Cid) }.

Definition flat_label (path : string) : string := match FlatPathLabel path with Ok label => label | Err _ => EmptyString end.
Definition child_binding (layout : LayoutKind) (child : DirectoryChild) : string * option Cid :=
  (if bool_decide (layout = LayoutFlatV1) then flat_label (dc_Name child) else dc_Name child,
   if bool_decide (layout = LayoutFlatV1) && dc_Directory child then dc_Manifest child else dc_Root child).
Definition descendant_label (layout : LayoutKind) (child : DirectoryChild) (name : string) : string :=
  if bool_decide (layout = LayoutFlatV1) then flat_label (dc_Name child +:+ "/" +:+ TrimPrefix name "/") else dc_Name child +:+ "/" +:+ name.
Definition project_child (layout : LayoutKind) (bindings : gmap string (option Cid)) (child : DirectoryChild) : gmap string (option Cid) :=
  let '(name, target) := child_binding layout child in
  let bindings := <[name := target]> bindings in
  if negb (bool_decide (layout = LayoutRootedV1)) && dc_Directory child
  then foldl (fun acc '(name, target) => <[descendant_label layout child name := target]> acc) bindings (map_to_list (dc_Descendants child))
  else bindings.
Definition ProjectDirectoryBindings (layout : LayoutKind) (children : list DirectoryChild) : gmap string (option Cid) := foldl (project_child layout) ∅ children.

(** ** Checking a candidate *)
Fixpoint verifyStagedProjection (expected : StagedNode) (projected : option StagedNode) : result unit :=
  match projected, expected with
  | None, _ => Err (Errorf "candidate path does not match materialized node")
  | Some projected, mkStagedNode kind _ key _ children =>
      let expectedKind := if bool_decide (kind = StagedKindMapDirectory) then StagedKindDirectory else kind in
      _ ← fail_if (negb (bool_decide (sn_Kind projected = expectedKind)) || negb (bool_decide (sn_Key projected = key)))
            (Errorf "candidate path does not match materialized node");
      if bool_decide (kind = StagedKindMapDirectory) || bool_decide (kind = StagedKindFile) then Ok () else
      _ ← fail_if (negb (bool_decide (kind = StagedKindDirectory))) (Errorf "unsupported staged kind");
      _ ← fail_if (negb (bool_decide (length (sn_Children projected) = length children))) (Errorf "entries do not match materialized manifest");
      _ ← mapM (fun '(name, verify) =>
             child ← or_err (lookup_child name (sn_Children projected)) (Errorf "entries do not match materialized manifest");
             verify (Some child))
           (map (fun '(name, child) => (name, verifyStagedProjection child)) children);
      Ok ()
  end.

(** ** Loading *)
Record StagedPathStat := mkStagedPathStat { ps_Kind : string; ps_StorageKind : string; ps_Key : string; ps_Payload : string }.

Section Load.
Context {BK : BlockLib} {St : Type} (ctx : result unit).

(** The statter that the load uses and the [BlockGetter] behind its cache. *)
Context (StatStagedPath : string -> string -> Act St StagedPathStat) (inner_Get : Cid -> Act St (list ascii)).

(** [stagedLoadBlockCache]: the blocks of one load. *)
Definition loading : Type := St * list (Cid * list ascii).
Definition outside {A} (m : Act St A) : Act loading A := fun '(s, blocks) => let '(r, s') := m s in (r, (s', blocks)).
Definition cached_Get (key : Cid) : Act loading (list ascii) := fun st =>
  match ctx with
  | Err e => (Err e, st)
  | Ok _ =>
      match List.find (fun b => bool_decide (b.1 = key)) st.2 with
      | Some b => (Ok b.2, st)
      | None => (payload ← outside (inner_Get key); _ ← modify (fun st => (st.1, (key, payload) :: st.2)); mret payload) st
      end
  end.

Definition load_child (loadDir : string -> StagedPathStat -> Act loading StagedNode) (root currentPath : string) (entry : DirectoryEntry) : Act loading (string * StagedNode) :=
  let childPath := if bool_decide (currentPath = EmptyString) then dn_Name entry else path_Clean (currentPath +:+ "/" +:+ dn_Name entry) in
  childStat ← outside (StatStagedPath root childPath);
  _ ← pure (fail_if (negb (bool_decide (ps_Kind childStat = dn_Type entry))) (Errorf "manifest and stat disagree on a kind"));
  if bool_decide (dn_Type entry = StagedKindDirectory) then child ← loadDir childPath childStat; mret (dn_Name entry, child)
  else if bool_decide (dn_Type entry = StagedKindFile) then
    childKey ← pure (wrap_err "decode file key" (parse_cid (ps_Key childStat)));
    mret (dn_Name entry, mkStagedNode StagedKindFile (ps_StorageKind childStat) (Some childKey) false [])
  else pure (Err (Errorf "unsupported child kind")).

Definition load_manifest (stat : StagedPathStat) : Act loading DirectoryManifest :=
  payloadCID ← pure (wrap_err "decode directory payload" (parse_cid (ps_Payload stat)));
  payload ← wrapped "read directory manifest" (cached_Get payloadCID);
  computed ← pure (wrap_err "compute directory manifest CID" (or_err (cid_Sum payloadCID payload) (Errorf "sum")));
  _ ← pure (fail_if (negb (bool_decide (computed = payloadCID))) (Errorf "directory manifest bytes do not match authenticated CID"));
  pure (wrap_err "parse directory manifest" (ParseDirectoryManifest (Some payloadCID) payload)).

(** The depth of a loaded tree is that of the directories the statter reports,
    which nothing bounds: [too_deep] stands for a load that is not finished at
    the depth [fuel]. *)
Definition too_deep : error := Errorf "fuel".
Fixpoint loadStagedCurrentDirRecursive (fuel : nat) (root currentPath : string) (stat : StagedPathStat) : Act loading StagedNode :=
  match fuel with
  | O => pure (Err too_deep)
  | S fuel =>
      keyCID ← pure (wrap_err "decode directory key" (parse_cid (ps_Key stat)));
      if bool_decide (TrimSpace (ps_Payload stat) = EmptyString) then mret (mkStagedNode StagedKindDirectory (ps_StorageKind stat) (Some keyCID) false [])
      else
        manifest ← load_manifest stat;
        children ← each (load_child (loadStagedCurrentDirRecursive fuel root) root currentPath) (dn_Entries manifest);
        mret (mkStagedNode StagedKindDirectory (ps_StorageKind stat) (Some keyCID) false children)
  end.

Definition LoadStagedCurrentTree (fuel : nat) (rootCID : string) : Act St StagedNode := fun s =>
  let '(r, (s', _)) :=
    (rootStat ← outside (StatStagedPath rootCID EmptyString);
     _ ← pure (fail_if (negb (bool_decide (ps_Kind rootStat = StagedKindDirectory))) (Errorf "current root must be directory"));
     loadStagedCurrentDirRecursive fuel (ps_Key rootStat) EmptyString rootStat) (s, []) in
  (r, s').
End Load.

(** ** Materialisation *)
Record StagedMaterializeResult := mkMaterialized {
  sm_Key : option Cid; sm_ArcCount : nat; sm_Descendants : gmap string (option Cid); sm_ImmutableObjects : nat; sm_MALTObjects : nat; sm_MALTMaps : nat;
  sm_MALTLists : nat; sm_ArcSets : nat; sm_Arcs : nat
}.
Definition zeroResult : StagedMaterializeResult := mkMaterialized None 0 ∅ 0 0 0 0 0 0.
Definition AddStagedMaterializeStats (dst src : StagedMaterializeResult) : StagedMaterializeResult :=
  mkMaterialized (sm_Key dst) (sm_ArcCount dst + sm_ArcCount src) (sm_Descendants dst) (sm_ImmutableObjects dst + sm_ImmutableObjects src)
    (sm_MALTObjects dst + sm_MALTObjects src) (sm_MALTMaps dst + sm_MALTMaps src) (sm_MALTLists dst + sm_MALTLists src) (sm_ArcSets dst + sm_ArcSets src)
    (sm_Arcs dst + sm_Arcs src).

Definition check_child_name (name : string) : result unit :=
  segments ← wrap_err "invalid staged directory child" (ParseCanonicalStagedPath name);
  fail_if (negb (bool_decide (segments = [name]))) (Errorf "child name must be one losslessly canonical portable path segment").

Section Materialize.
Context {BK : BlockLib} {St : Type}.

(** [StagedBlockStore] with its optional [Flush], [StagedRootWriter], and the
    text of the undefined CID, which is code of go-cid. *)
Context (putWithCodec : list ascii -> N -> Act St (option Cid)) (flush : option (Act St unit)).
Context (UpdateStagedRoot : option Cid -> gmap string string -> Act St (option Cid)) (undef_text : string).

Definition cid_text (c : option Cid) : string := match c with Some c => cid_String c | None => undef_text end.
Definition root_bindings (payload : Cid) (projected : gmap string (option Cid)) : gmap string string :=
  (cid_text <$> projected) ∪ {["@payload" := cid_String payload]}.

(** What the loop over the children keeps of one. *)
Record visited := mkVisited { vi_Child : DirectoryChild; vi_Entry : DirectoryEntry; vi_Stats : StagedMaterializeResult; vi_Node : StagedNode }.

Definition visit_child (layout : LayoutKind) (item : string * (StagedNode * Act St (StagedMaterializeResult * StagedNode))) : Act St visited :=
  let '(name, (child, materialize)) := item in
  v ← (if is_dir child then
         '(result, child') ← materialize;
         mret (mkVisited (mkDirectoryChild name true (sm_Key result) (sm_Key result) (sm_Descendants result)) (mkDirectoryEntry name DirectoryEntryTypeDir) result child')
       else if bool_decide (sn_Kind child = StagedKindMapDirectory) then
         _ ← pure (fail_if (bool_decide (layout = LayoutFlatV1)) (Errorf "flat layout cannot retain opaque map directory"));
         mret (mkVisited (mkDirectoryChild name true (sn_Key child) None ∅) (mkDirectoryEntry name DirectoryEntryTypeDir) zeroResult child)
       else if bool_decide (sn_Kind child = StagedKindFile) then
         mret (mkVisited (mkDirectoryChild name false (sn_Key child) None ∅) (mkDirectoryEntry name DirectoryEntryTypeFile) zeroResult child)
       else pure (Err (Errorf "unsupported staged child kind")));
  _ ← pure (fail_if (negb (bool_decide (is_Some (dc_Root (vi_Child v))))) (Errorf "staged child has no materialized target"));
  mret v.

Definition upload_manifest (entries : list DirectoryEntry) : Act St Cid :=
  manifest ← pure (wrap_err "marshal directory manifest" (EncodeDirectoryManifest entries));
  payload ← wrapped "upload directory manifest" (putWithCodec (db_Data manifest) (db_Codec manifest));
  expected ← pure (NewDirectoryManifestCID (db_Data manifest));
  _ ← pure (fail_if (negb (bool_decide (payload = Some expected))) (Errorf "directory manifest upload returned a different CID"));
  mret expected.

(** The counters of a directory: [objects] manifests and [roots] roots with
    [bindings] arcs on top of those of its children. *)
Definition conclude (d : gmap string (option Cid)) (key : option Cid) (objects bindings roots : nat) (r : StagedMaterializeResult) : StagedMaterializeResult :=
  mkMaterialized key (sm_ArcCount r + bindings) d (sm_ImmutableObjects r + objects) (sm_MALTObjects r + roots) (sm_MALTMaps r + roots) (sm_MALTLists r)
    (sm_ArcSets r + roots) (sm_Arcs r + bindings).

Definition reusable (layout : LayoutKind) (changed : bool) (base : option Cid) : bool :=
  negb (bool_decide (layout = LayoutFlatV1)) && negb changed && bool_decide (is_Some base).

(** The rest of a directory, once its children are materialised. *)
Definition finish_directory (layout : LayoutKind) (top : bool) (storage : string) (base : option Cid) (changed : bool) (vs : list visited)
    : Act St (StagedMaterializeResult * StagedNode) :=
  let stats := foldl AddStagedMaterializeStats zeroResult (vi_Stats <$> vs) in
  let children := vi_Child <$> vs in
  let nodes := (fun v => (dc_Name (vi_Child v), vi_Node v)) <$> vs in
  let descendants := ProjectDirectoryBindings LayoutHybridV1 children in
  if reusable layout changed base then mret (conclude descendants base 0 0 0 stats, mkStagedNode StagedKindDirectory storage base changed nodes)
  else
    payload ← upload_manifest (vi_Entry <$> vs);
    if bool_decide (layout = LayoutFlatV1) && negb top
    then mret (conclude descendants (Some payload) 1 0 0 stats, mkStagedNode StagedKindDirectory "raw" (Some payload) false nodes)
    else
      _ ← (match flush with Some flush => wrapped "flush directory manifests" flush | None => mret () end);
      let bindings := root_bindings payload (ProjectDirectoryBindings layout children) in
      root ← UpdateStagedRoot base bindings;
      mret (conclude descendants root 1 (size bindings) 1 stats, mkStagedNode StagedKindDirectory "prefix" root false nodes).

(** On success also the tree with the fields that the code assigns. *)
Fixpoint materializeDirectory (layout : LayoutKind) (top : bool) (node : StagedNode) : Act St (StagedMaterializeResult * StagedNode) :=
  match node with
  | mkStagedNode kind storage base changed children =>
      _ ← pure (fail_if (negb (bool_decide (kind = StagedKindDirectory))) (Errorf "directory materialization requires a directory node"));
      _ ← pure (mapM check_child_name children.*1);
      vs ← each (visit_child layout) (sort_by_string fst (map (fun '(name, child) => (name, (child, materializeDirectory layout false child))) children));
      finish_directory layout top storage base changed vs
  end.
Definition Materialize (layout : LayoutKind) (node : StagedNode) : Act St (StagedMaterializeResult * StagedNode) := materializeDirectory layout true node.

(** ** The reference: every directory is written, whatever its flag *)
Context (commit : option Cid -> gmap string string -> Cid).

Definition describe (layout : LayoutKind) (item : string * (StagedNode * option (Cid * gmap string (option Cid)))) : option (DirectoryChild * DirectoryEntry) :=
  let '(name, (child, rebuilt)) := item in
  if is_dir child then
    '(key, d) ← rebuilt; Some (mkDirectoryChild name true (Some key) (Some key) d, mkDirectoryEntry name DirectoryEntryTypeDir)
  else if bool_decide (sn_Kind child = StagedKindMapDirectory) then
    if bool_decide (layout = LayoutFlatV1) then None else
    _ ← sn_Key child; Some (mkDirectoryChild name true (sn_Key child) None ∅, mkDirectoryEntry name DirectoryEntryTypeDir)
  else if bool_decide (sn_Kind child = StagedKindFile) then
    _ ← sn_Key child; Some (mkDirectoryChild name false (sn_Key child) None ∅, mkDirectoryEntry name DirectoryEntryTypeFile)
  else None.

Definition manifest_key (entries : list DirectoryEntry) : option Cid :=
  match (block ← EncodeDirectoryManifest entries; NewDirectoryManifestCID (db_Data block)) with Ok key => Some key | Err _ => None end.

Definition assemble (layout : LayoutKind) (top : bool) (base : option Cid) (described : list (DirectoryChild * DirectoryEntry)) : option (Cid * gmap string (option Cid)) :=
  payload ← manifest_key described.*2;
  Some (if bool_decide (layout = LayoutFlatV1) && negb top then payload
        else commit base (root_bindings payload (ProjectDirectoryBindings layout described.*1)),
        ProjectDirectoryBindings LayoutHybridV1 described.*1).

Fixpoint rebuild (layout : LayoutKind) (top : bool) (node : StagedNode) : option (Cid * gmap string (option Cid)) :=
  match node with
  | mkStagedNode kind storage base changed children =>
      if bool_decide (kind = StagedKindDirectory) && forallb (fun name => is_ok (check_child_name name)) children.*1 then
        described ← list.mapM (describe layout) (sort_by_string fst (map (fun '(name, child) => (name, (child, rebuild layout false child))) children));
        assemble layout top base described
      else None
  end.

(** ** Trees whose recorded roots are those of their contents *)
Inductive settled (layout : LayoutKind) : StagedNode -> Prop :=
  | settled_node kind storage key changed children :
      NoDup children.*1 ->
      Forall (fun c => settled layout c.2) children ->
      (kind = StagedKindDirectory -> changed = false -> layout <> LayoutFlatV1 -> forall k, key = Some k ->
         exists d, rebuild layout true (mkStagedNode kind storage key changed children) = Some (k, d)) ->
      settled layout (mkStagedNode kind storage key changed children).

Lemma settled_children layout n : settled layout n -> NoDup (sn_Children n).*1 /\ Forall (fun c => settled layout c.2) (sn_Children n).
Proof. by destruct 1. Qed.

Lemma settled_changed layout kind storage key children :
  NoDup children.*1 -> Forall (fun c => settled layout c.2) children -> settled layout (mkStagedNode kind storage key true children).
Proof. intros H1 H2. by constructor. Qed.

Lemma settled_leaf layout kind storage key changed : kind <> StagedKindDirectory -> settled layout (mkStagedNode kind storage key changed []).
Proof. intros H. constructor; [constructor|constructor|done]. Qed.

Lemma settled_mark layout n : settled layout n -> settled layout (mark n).
Proof. intros [H1 H2]%settled_children. by apply settled_changed. Qed.

Lemma settled_new layout : settled layout NewStagedDirectory.
Proof. constructor; [constructor|constructor|done]. Qed.

Lemma lookup_child_elem name cs x : lookup_child name cs = Some x -> (name, x) ∈ cs.
Proof.
  unfold lookup_child. destruct (List.find _ cs) as [[n y]|] eqn:E; [|done]. intros [= <-].
  apply List.find_some in E as [Hin Hn]. apply bool_decide_eq_true in Hn. cbn in Hn. subst. by apply list_elem_of_In.
Qed.

Lemma settled_lookup layout name cs x : Forall (fun c => settled layout c.2) cs -> lookup_child name cs = Some x -> settled layout x.
Proof. intros H Hx%lookup_child_elem. rewrite Forall_forall in H. apply (H _ Hx). Qed.

Lemma put_child_names name x cs : (put_child name x cs).*1 = if bool_decide (name ∈ cs.*1) then cs.*1 else cs.*1 ++ [name].
Proof.
  induction cs as [|[n y] cs IH]; cbn [put_child fmap list_fmap]; [done|]. destruct (decide (n = name)) as [E|E]; [rewrite (bool_decide_eq_true_2 (n = name)) by done|rewrite (bool_decide_eq_false_2 (n = name)) by done].
  - subst. cbn [fmap list_fmap fst]. by rewrite bool_decide_eq_true_2 by apply list_elem_of_here.
  - cbn [fmap list_fmap fst]. rewrite IH. destruct (decide (name ∈ cs.*1)) as [Hn|Hn].
    + rewrite !bool_decide_eq_true_2 by (try apply list_elem_of_further; done). done.
    + rewrite !bool_decide_eq_false_2; [done| |done]. intros [->|?]%elem_of_cons; done.
Qed.

Lemma put_child_NoDup name x cs : NoDup cs.*1 -> NoDup (put_child name x cs).*1.
Proof.
  intros H. rewrite put_child_names. case_bool_decide; [done|]. apply NoDup_app. split_and!; [done| |apply NoDup_singleton].
  intros n Hn ->%list_elem_of_singleton. done.
Qed.

Lemma put_child_Forall (P : StagedNode -> Prop) name x cs : P x -> Forall (fun c => P c.2) cs -> Forall (fun c => P c.2) (put_child name x cs).
Proof. intros Hx. induction 1 as [|[n y] cs Hy Hcs IH]; cbn; [by repeat constructor|]. destruct (bool_decide _); by constructor. Qed.

Lemma settled_set_child layout name x n : settled layout x -> settled layout n -> settled layout (set_child name x n).
Proof. intros Hx [H1 H2]%settled_children. apply settled_changed; [by apply put_child_NoDup|by apply put_child_Forall]. Qed.

Lemma delete_child_NoDup name cs : NoDup cs.*1 -> NoDup (delete_child name cs).*1.
Proof.
  induction cs as [|[n y] cs IH]; cbn; [done|]. intros [Hn H]%NoDup_cons. destruct (bool_decide _); cbn; [by apply IH|].
  constructor; [|by apply IH]. intros (c & -> & Hc)%list_elem_of_fmap. apply Hn. apply list_elem_of_fmap. exists c. split; [done|].
  apply list_elem_of_In. apply list_elem_of_In in Hc. by apply filter_In in Hc as [? _].
Qed.

Lemma settled_delete layout name n : settled layout n ->
  settled layout (mkStagedNode (sn_Kind n) (sn_StorageKind n) (sn_Key n) true (delete_child name (sn_Children n))).
Proof.
  intros [H1 H2]%settled_children. apply settled_changed; [by apply delete_child_NoDup|]. rewrite Forall_forall in H2 |- *. intros c Hc. apply H2.
  apply list_elem_of_In. apply list_elem_of_In in Hc. by apply filter_In in Hc as [? _].
Qed.

(** *** Every edit keeps them *)
Lemma ensure_settled layout segments edit n :
  (forall x, settled layout x -> settled layout (edit x)) -> settled layout n -> settled layout (ensure segments edit n).
Proof.
  intros He. revert n. induction segments as [|seg segments IH]; intros n Hn; cbn; [by apply He|].
  apply settled_set_child; [|done]. apply IH. pose proof (settled_children _ _ Hn) as [_ Hc].
  destruct (lookup_child seg (sn_Children n)) as [x|] eqn:Ex; [|apply settled_mark, settled_new].
  destruct (is_dir x); [by eapply settled_lookup|apply settled_mark, settled_new].
Qed.

Lemma EnsureStagedDirectory_settled layout root p edit :
  (forall x, settled layout x -> settled layout (edit x)) -> settled layout root -> settled layout (EnsureStagedDirectory root p edit).
Proof.
  intros He Hr. unfold EnsureStagedDirectory. apply settled_mark in Hr. case_bool_decide; [by apply He|by apply ensure_settled].
Qed.

Lemma removeStagedSegments_settled layout segments n n' : settled layout n -> removeStagedSegments segments n = Ok n' -> settled layout n'.
Proof.
  revert n n'. induction segments as [|seg rest IH]; intros n n' Hn H; cbn [removeStagedSegments] in H; [done|].
  apply bind_Ok in H as (child & Hc & H). apply or_err_Ok in Hc. destruct rest as [|seg' rest].
  - injection H as <-. by apply settled_delete.
  - simplify_result. apply settled_set_child; [|done]. eapply IH; [|done]. eapply settled_lookup; [|done]. by apply settled_children.
Qed.

Lemma put_child_same name x cs : lookup_child name cs = Some x -> put_child name x cs = cs.
Proof.
  unfold lookup_child. induction cs as [|[n y] cs IH]; cbn; [done|]. destruct (decide (n = name)) as [->|E].
  - rewrite bool_decide_eq_true_2 by done. by intros [= ->].
  - rewrite bool_decide_eq_false_2 by done. intros Hx. by rewrite (IH Hx).
Qed.

Lemma merge_child_changed cur step : sn_Changed cur = true -> sn_Changed (merge_child cur step) = true.
Proof. destruct step as [name f]. unfold merge_child. destruct (f _) as [m same]. cbn. by intros ->. Qed.
Lemma merge_children_changed steps cur : sn_Changed cur = true -> sn_Changed (foldl merge_child cur steps) = true.
Proof. revert cur. induction steps as [|step steps IH]; intros cur H; cbn; [done|]. by apply IH, merge_child_changed. Qed.

(** A step of a merge that leaves its node unmarked leaves it alone. *)
Definition quiet (step : string * (option StagedNode -> StagedNode * bool)) : Prop :=
  (step.2 None).2 = false /\ forall e m, step.2 (Some e) = (m, true) -> sn_Changed m = false -> m = e.

Lemma merge_child_quiet cur step : quiet step -> sn_Changed (merge_child cur step) = false -> merge_child cur step = cur.
Proof.
  intros [H0 H1]. destruct step as [name f], cur as [kind storage key changed children]. unfold merge_child. cbn [sn_Children sn_Changed] in *.
  destruct (f (lookup_child name children)) as [m same] eqn:E. cbn. rewrite !orb_false_iff, negb_false_iff. intros [[-> ->] Hm].
  destruct (lookup_child name children) as [e|] eqn:El; [|cbn in H0; rewrite E in H0; done].
  cbn. rewrite Hm, (H1 _ _ E Hm), put_child_same by done. done.
Qed.

Lemma merge_children_quiet steps cur : Forall quiet steps -> sn_Changed (foldl merge_child cur steps) = false -> foldl merge_child cur steps = cur.
Proof.
  intros H. revert cur. induction H as [|step steps Hq _ IH]; intros cur Hc; cbn in *; [done|].
  destruct (sn_Changed (merge_child cur step)) eqn:E; [by rewrite merge_children_changed in Hc|].
  rewrite (merge_child_quiet cur step Hq E) in *. by apply IH.
Qed.

Lemma MergeStagedNodes_quiet staged name : quiet (name, MergeStagedNodes staged).
Proof.
  revert name. induction staged as [kind storage key changed children IH] using StagedNode_nested. intros name. split; [done|].
  intros e m H Hm. cbn [snd MergeStagedNodes] in H. destruct (negb (is_dir _)); [by destruct (_ && _); simplify_eq|].
  destruct (negb (is_dir e)); [done|]. injection H as <-. apply merge_children_quiet; [|done].
  apply Forall_fmap. eapply Forall_impl; [exact IH|]. intros [n child] Hq. apply Hq.
Qed.

Lemma MergeStagedNodes_settled layout staged e : settled layout staged -> (forall x, e = Some x -> settled layout x) ->
  settled layout (MergeStagedNodes staged e).1.
Proof.
  revert e. induction staged as [kind storage key changed children IH] using StagedNode_nested. intros e Hs He.
  destruct e as [e|]; [|done]. specialize (He _ eq_refl). cbn [MergeStagedNodes]. destruct (negb (is_dir _)); [by destruct (_ && _)|].
  destruct (negb (is_dir e)); [done|]. cbn [fst]. apply settled_children in Hs as [_ Hs]. cbn [sn_Children] in Hs. revert e He.
  induction children as [|[n child] children IHc]; intros e He; cbn [map foldl]; [done|]. apply Forall_cons in IH as [IH1 IH], Hs as [Hs1 Hs].
  apply IHc; [done|done|]. destruct (sn_Changed (merge_child e (n, MergeStagedNodes child))) eqn:E.
  - unfold merge_child in *. pose proof (settled_children _ _ He) as [H1 H2]. specialize (IH1 (lookup_child n (sn_Children e)) Hs1). cbn [snd] in IH1.
    destruct (MergeStagedNodes child _) as [m same]. cbn in E. rewrite E. apply settled_changed; [by apply put_child_NoDup|].
    apply put_child_Forall; [|done]. apply IH1. intros x Hx. by eapply settled_lookup.
  - rewrite merge_child_quiet; [done|apply MergeStagedNodes_quiet|done].
Qed.

(** The operations on a tree that the workflows compose; an operation that
    fails leaves the tree as it is. *)
Inductive edit :=
  | SetFile (p : string) (key : option Cid)
  | SetMapDirectory (p : string) (key : option Cid)
  | EnsureDirectory (p : string)
  | EnsureFile (p : string)
  | RemovePath (p : string)
  | Merge (staged : StagedNode).

Context {IL : InlineLib}.

Definition keep (root : StagedNode) (r : result StagedNode) : StagedNode := match r with Ok n => n | Err _ => root end.
Definition apply_edit (root : StagedNode) (e : edit) : StagedNode :=
  match e with
  | SetFile p key => keep root (SetStagedFile root p key)
  | SetMapDirectory p key => keep root (SetStagedMapDirectory root p key)
  | EnsureDirectory p => EnsureStagedDirectory root p id
  | EnsureFile p => default root (EnsureStagedFile root p)
  | RemovePath p => keep root (RemoveStagedPath root p)
  | Merge staged => (MergeStagedNodes staged (Some root)).1
  end.
Definition edit_settled (layout : LayoutKind) (e : edit) : Prop := match e with Merge staged => settled layout staged | _ => True end.

Lemma apply_edit_settled layout root e : edit_settled layout e -> settled layout root -> settled layout (apply_edit root e).
Proof.
  intros He Hr. destruct e as [p key|p key|p|p|p|staged]; cbn [apply_edit].
  - unfold SetStagedFile. destruct (ParseCanonicalStagedPath p) as [segments|]; [|done]. cbn. destruct (split_last segments) as [[parents name]|]; [|done]. cbn.
    apply EnsureStagedDirectory_settled; [|done]. intros x Hx.
    destruct (lookup_child name (sn_Children x)); [destruct (_ && _); [done|]|]; by apply settled_set_child; [apply settled_leaf|].
  - unfold SetStagedMapDirectory. destruct (ParseCanonicalStagedPath p) as [segments|]; [|done]. cbn. destruct (split_last segments) as [[parents name]|]; [|done]. cbn.
    apply EnsureStagedDirectory_settled; [|done]. intros x Hx. by apply settled_set_child; [apply settled_leaf|].
  - by apply EnsureStagedDirectory_settled.
  - unfold EnsureStagedFile. destruct (split_last _) as [[parents name]|]; [|done]. cbn.
    apply EnsureStagedDirectory_settled; [|done]. intros x Hx. by apply settled_set_child; [apply settled_leaf|].
  - unfold RemoveStagedPath. destruct (negb (is_dir root)); [done|]. cbn. destruct (ParseCanonicalStagedPath p) as [segments|]; [|done]. cbn.
    destruct (removeStagedSegments segments root) eqn:E; [by eapply removeStagedSegments_settled|done].
  - apply MergeStagedNodes_settled; [done|]. by intros x [= <-].
Qed.

(** *** The items of both loops, in order *)
Definition mat_item (layout : LayoutKind) (c : string * StagedNode) := (c.1, (c.2, materializeDirectory layout false c.2)).
Definition reb_item (layout : LayoutKind) (c : string * StagedNode) := (c.1, (c.2, rebuild layout false c.2)).
Definition names_ok (children : list (string * StagedNode)) : bool := forallb (fun name => is_ok (check_child_name name)) children.*1.

Lemma sort_map {A B} (f : A -> B) (ka : A -> string) (kb : B -> string) l :
  (forall x, kb (f x) = ka x) -> sort_by_string kb (map f l) = map f (sort_by_string ka l).
Proof.
  intros Hk. unfold sort_by_string. induction l as [|x l IH]; cbn; [done|]. rewrite IH. generalize (sort_by ka String.leb l). intros l'.
  induction l' as [|y l' IH']; cbn; [done|]. rewrite !Hk. destruct (String.leb _ _); [done|]. cbn. by rewrite IH'.
Qed.

Lemma materialize_items layout children :
  sort_by_string fst (map (fun '(name, child) => (name, (child, materializeDirectory layout false child))) children) = mat_item layout <$> sort_by_string fst children.
Proof. rewrite <- (sort_map (mat_item layout) fst fst) by done. f_equal. apply map_ext. by intros [name child]. Qed.

Lemma rebuild_eq layout top kind storage base changed children :
  rebuild layout top (mkStagedNode kind storage base changed children) =
  if bool_decide (kind = StagedKindDirectory) && names_ok children
  then described ← list.mapM (describe layout) (reb_item layout <$> sort_by_string fst children); assemble layout top base described else None.
Proof.
  cbn [rebuild]. unfold names_ok. destruct (_ && _); [|done]. f_equal. f_equal. rewrite <- (sort_map (reb_item layout) fst fst) by done. f_equal.
  apply map_ext. by intros [name child].
Qed.

Lemma assemble_top layout top top' base described : layout <> LayoutFlatV1 -> assemble layout top base described = assemble layout top' base described.
Proof. intros H. unfold assemble. by rewrite bool_decide_eq_false_2. Qed.
Lemma rebuild_top layout top top' n : layout <> LayoutFlatV1 -> rebuild layout top n = rebuild layout top' n.
Proof.
  intros H. destruct n as [kind storage base changed children]. rewrite !rebuild_eq. destruct (_ && _); [|done].
  destruct (list.mapM _ _) as [described|]; [|done]. cbn. by apply assemble_top.
Qed.

Lemma assemble_descendants layout top base described k d : assemble layout top base described = Some (k, d) -> d = ProjectDirectoryBindings LayoutHybridV1 described.*1.
Proof. unfold assemble. destruct (manifest_key _); cbn; [by intros [= _ <-]|done]. Qed.

(** *** One child *)
Definition silent (r : StagedMaterializeResult) : Prop := AddStagedMaterializeStats zeroResult r = zeroResult.
Definition described (v : visited) : DirectoryChild * DirectoryEntry := (vi_Child v, vi_Entry v).

(** A directory that needs no more work. *)
Definition idle (layout : LayoutKind) (n : StagedNode) (k : Cid) (d : gmap string (option Cid)) : Prop :=
  forall top s, exists r, materializeDirectory layout top n s = (Ok (r, n), s) /\ sm_Key r = Some k /\ sm_Descendants r = d /\ silent r.

Definition sound (layout : LayoutKind) (top : bool) (n : StagedNode) (r : StagedMaterializeResult) (n' : StagedNode) : Prop :=
  exists k, sm_Key r = Some k /\ rebuild layout top n = Some (k, sm_Descendants r) /\ rebuild layout top n' = Some (k, sm_Descendants r) /\
    settled layout n' /\ is_dir n' = true /\ (layout <> LayoutFlatV1 -> idle layout n' k (sm_Descendants r)).

Definition faithful (layout : LayoutKind) (c : string * StagedNode) (v : visited) : Prop :=
  dc_Name (vi_Child v) = c.1 /\ describe layout (reb_item layout c) = Some (described v) /\ describe layout (reb_item layout (c.1, vi_Node v)) = Some (described v) /\
  settled layout (vi_Node v) /\
  (layout <> LayoutFlatV1 -> forall s, exists st, silent st /\ visit_child layout (mat_item layout (c.1, vi_Node v)) s = (Ok (mkVisited (vi_Child v) (vi_Entry v) st (vi_Node v)), s)).

Lemma visit_child_faithful layout c s v s' : settled layout c.2 ->
  (forall s r n' s', materializeDirectory layout false c.2 s = (Ok (r, n'), s') -> sound layout false c.2 r n') ->
  visit_child layout (mat_item layout c) s = (Ok v, s') -> faithful layout c v.
Proof.
  destruct c as [name child]. cbn [snd]. intros Hs IH H. unfold mat_item, visit_child in H. cbn [fst snd] in H.
  apply act_bind_Ok in H as (v0 & s1 & H & H'). simplify_act. destruct (is_dir child) eqn:Ed.
  - apply act_bind_Ok in H as ([r child'] & s2 & H & H1). apply ret_Ok in H1 as [-> ->].
    destruct (IH _ _ _ _ H) as (k & Hk & Hr & Hr' & Hs' & Hd' & Hi). unfold faithful, described, reb_item, describe, mat_item, visit_child. cbn [fst snd dc_Name vi_Child vi_Entry vi_Node].
    rewrite Ed, Hd', Hr, Hr', Hk. cbn. split_and!; [done|done|done|done|]. intros Hl s0. destruct (Hi Hl false s0) as (r' & Hmat & Hk' & Hde & Hsi).
    exists r'. split; [done|]. unfold mbind, Act_bind. rewrite Hmat, Hk', Hde. done.
  - unfold faithful, described, reb_item, describe, mat_item, visit_child.
    destruct (bool_decide (sn_Kind child = StagedKindMapDirectory)) eqn:Em; [|destruct (bool_decide (sn_Kind child = StagedKindFile)) eqn:Ef]; simplify_act; cbn in *.
    + rewrite Ed, Em. match goal with E : bool_decide (layout = LayoutFlatV1) = false |- _ => rewrite E end. destruct (sn_Key child) as [k|] eqn:Ek; [|done]. cbn. split_and!; [done|done|done|done|]. intros _ s0. exists zeroResult. by split.
    + rewrite Ed, Em, Ef. destruct (sn_Key child) as [k|] eqn:Ek; [|done]. cbn. split_and!; [done|done|done|done|]. intros _ s0. exists zeroResult. by split.
Qed.

(** *** All children *)
Definition nodes_of (vs : list visited) : list (string * StagedNode) := (fun v => (dc_Name (vi_Child v), vi_Node v)) <$> vs.

Lemma described_children vs : (described <$> vs).*1 = vi_Child <$> vs.
Proof. induction vs; cbn; [done|]. by f_equal. Qed.
Lemma described_entries vs : (described <$> vs).*2 = vi_Entry <$> vs.
Proof. induction vs; cbn; [done|]. by f_equal. Qed.

Lemma faithful_names layout sc vs : Forall2 (faithful layout) sc vs -> (nodes_of vs).*1 = sc.*1.
Proof. induction 1 as [|c v sc vs (Hn & _) _ IH]; cbn; [done|]. by rewrite Hn, <- IH. Qed.

Lemma faithful_described layout sc vs : Forall2 (faithful layout) sc vs ->
  list.mapM (describe layout) (reb_item layout <$> sc) = Some (described <$> vs) /\ list.mapM (describe layout) (reb_item layout <$> nodes_of vs) = Some (described <$> vs).
Proof.
  intros H. split; apply mapM_Some; unfold nodes_of; rewrite <- ?list_fmap_compose; apply Forall2_fmap_2.
  - eapply Forall2_impl; [exact H|]. by intros c v (_ & ? & _).
  - apply Forall2_same_length_lookup. split; [done|]. intros i v v' Hv Hv'. rewrite Hv in Hv'. injection Hv' as <-.
    destruct (Forall2_lookup_r _ _ _ _ _ H Hv) as (c & _ & Hn & _ & Hd & _). cbn. by rewrite Hn.
Qed.

Lemma faithful_settled layout sc vs : Forall2 (faithful layout) sc vs -> Forall (fun c => settled layout c.2) (nodes_of vs).
Proof. induction 1 as [|c v sc vs (_ & _ & _ & Hs & _) _ IH]; by constructor. Qed.

Lemma faithful_idle layout sc vs s : layout <> LayoutFlatV1 -> Forall2 (faithful layout) sc vs -> exists vs',
  each (visit_child layout) (mat_item layout <$> nodes_of vs) s = (Ok vs', s) /\ vi_Child <$> vs' = vi_Child <$> vs /\ nodes_of vs' = nodes_of vs /\ Forall silent (vi_Stats <$> vs').
Proof.
  intros Hl. induction 1 as [|c v sc vs (Hn & _ & _ & _ & Hi) _ (vs' & He & Hc & Hno & Hsi)]; [by exists []|].
  destruct (Hi Hl s) as (st & Hst & Hv). exists (mkVisited (vi_Child v) (vi_Entry v) st (vi_Node v) :: vs'). unfold nodes_of in *. cbn [fmap list_fmap].
  rewrite Hn. split_and!.
  - cbn [each]. rewrite (act_bind_run _ _ _ _ _ Hv). by rewrite (act_bind_run _ _ _ _ _ He).
  - cbn. by rewrite Hc.
  - cbn. by rewrite Hn, Hno.
  - by constructor.
Qed.

Lemma silent_sum rs : Forall silent rs -> foldl AddStagedMaterializeStats zeroResult rs = zeroResult.
Proof. induction 1 as [|r rs H _ IH]; cbn; [done|]. by rewrite H. Qed.

Lemma sorted_by_names (l l' : list (string * StagedNode)) : l.*1 = l'.*1 -> StronglySorted (key_le fst String.leb) l' -> StronglySorted (key_le fst String.leb) l.
Proof.
  intros E H. revert l E. induction H as [|[n x] l' _ IH Hx]; intros [|[m y] l] E; cbn in E; try done; [constructor|]. injection E as -> E. constructor; [by apply IH|].
  rewrite Forall_forall in Hx |- *. intros [n' x'] Hin. assert (n' ∈ l'.*1) as ([n2 x2] & ? & H2)%list_elem_of_fmap by (rewrite <- E; by apply (list_elem_of_fmap_2 fst _ _ Hin)).
  cbn in *. subst. apply (Hx _ H2).
Qed.

Lemma sort_names (children l : list (string * StagedNode)) : l.*1 = (sort_by_string fst children).*1 -> sort_by_string fst l = l.
Proof.
  intros E. apply sort_by_id; eauto using string_leb_trans, leb_total. eapply sorted_by_names; [exact E|]. apply sort_by_string_sorted.
Qed.

Lemma names_perm (children l : list (string * StagedNode)) : l.*1 = (sort_by_string fst children).*1 -> l.*1 ≡ₚ children.*1.
Proof. intros ->. apply fmap_Permutation. apply sort_by_Permutation. Qed.

Lemma names_ok_perm (l l' : list (string * StagedNode)) : l.*1 ≡ₚ l'.*1 -> names_ok l' = true -> names_ok l = true.
Proof.
  unfold names_ok. rewrite !forallb_forall. intros E H x Hx. apply H. by rewrite <- E.
Qed.

Lemma check_names (children : list (string * StagedNode)) : is_ok (mapM check_child_name children.*1) = names_ok children.
Proof.
  unfold names_ok. induction children.*1 as [|n names IH]; cbn; [done|]. rewrite <- IH. destruct (check_child_name n); cbn; [|done]. by destruct (mapM _ _).
Qed.

Lemma upload_manifest_Ok es s p s' : upload_manifest es s = (Ok p, s') -> manifest_key es = Some p.
Proof.
  unfold upload_manifest, manifest_key. intros H. simplify_act. rewrite Hm. cbn. by rewrite Hm1.
Qed.

(** *** A directory *)
Lemma materialize_eq layout top kind storage base changed children s :
  materializeDirectory layout top (mkStagedNode kind storage base changed children) s =
  (_ ← pure (fail_if (negb (bool_decide (kind = StagedKindDirectory))) (Errorf "directory materialization requires a directory node"));
   _ ← pure (mapM check_child_name children.*1);
   vs ← each (visit_child layout) (mat_item layout <$> sort_by_string fst children);
   finish_directory layout top storage base changed vs) s.
Proof. cbn [materializeDirectory]. by rewrite materialize_items. Qed.

Lemma idle_directory layout storage k vs sc : layout <> LayoutFlatV1 -> Forall2 (faithful layout) sc vs -> names_ok (nodes_of vs) = true ->
  sort_by_string fst (nodes_of vs) = nodes_of vs ->
  idle layout (mkStagedNode StagedKindDirectory storage (Some k) false (nodes_of vs)) k (ProjectDirectoryBindings LayoutHybridV1 (vi_Child <$> vs)).
Proof.
  intros Hl Hf Hn Hsort top s. destruct (faithful_idle layout sc vs s Hl Hf) as (vs' & He & Hc & Hno & Hsi). rewrite materialize_eq, Hsort.
  rewrite <- check_names in Hn. apply is_ok_true in Hn as [u Hu]. unfold mbind, Act_bind, pure. cbn [fail_if negb bool_decide]. rewrite bool_decide_eq_true_2 by done.
  cbn [fail_if negb]. rewrite Hu, He. unfold finish_directory, reusable. rewrite (bool_decide_eq_false_2 _ Hl), bool_decide_eq_true_2 by done. cbn [negb andb].
  rewrite (silent_sum _ Hsi), Hc. fold (nodes_of vs'). rewrite Hno. eexists. split_and!; reflexivity.
Qed.

(** *** Loaded trees

    Every directory of a loaded tree is unmarked and has a root, so outside of
    the flat layout a load followed by no edit writes nothing. *)
Inductive loaded : StagedNode -> Prop :=
  | loaded_file storage k : loaded (mkStagedNode StagedKindFile storage (Some k) false [])
  | loaded_directory storage k children :
      StronglySorted (key_le fst String.leb) children -> NoDup children.*1 -> Forall (fun c => loaded c.2) children ->
      loaded (mkStagedNode StagedKindDirectory storage (Some k) false children).

Lemma manifest_names key data m : ParseDirectoryManifest key data = Ok m -> Forall entry_ok (dn_Entries m) /\ StronglySorted before (dn_Entries m).
Proof.
  unfold ParseDirectoryManifest. intros H. apply bind_Ok in H as ([] & _ & H). apply manifest_parser_accepts_canonical in H as [H _]. by apply validated in H as (_ & ? & ?).
Qed.

Section LoadFacts.
Context (ctx : result unit) (StatStagedPath : string -> string -> Act St StagedPathStat) (inner_Get : Cid -> Act St (list ascii)).

Lemma load_loaded fuel root p stat s n s' : loadStagedCurrentDirRecursive ctx StatStagedPath inner_Get fuel root p stat s = (Ok n, s') -> loaded n /\ is_dir n = true.
Proof.
  revert p stat s n s'. induction fuel as [|fuel IH]; intros p stat s n s' H; cbn [loadStagedCurrentDirRecursive] in H; [by simplify_act|].
  apply act_bind_Ok in H as (k & s1 & _ & H). case_bool_decide.
  { apply ret_Ok in H as [-> ->]. split; [|done]. repeat constructor. }
  apply act_bind_Ok in H as (m & s2 & Hm & H). apply act_bind_Ok in H as (cs & s3 & Hc & H). apply ret_Ok in H as [-> ->]. split; [|done].
  unfold load_manifest in Hm. apply act_bind_Ok in Hm as (pc & s4 & _ & Hm). apply act_bind_Ok in Hm as (body & s5 & _ & Hm). apply act_bind_Ok in Hm as (c & s6 & _ & Hm).
  apply act_bind_Ok in Hm as (u & s7 & _ & Hm). simplify_act. apply manifest_names in Hm as [_ Hs].
  apply (each_Forall2 _ (fun e c => c.1 = dn_Name e /\ loaded c.2)) in Hc.
  - assert (cs.*1 = dn_Name <$> dn_Entries m) as En by (clear -Hc; induction Hc as [|e c es cs [E _] _ IH]; cbn; [done|by rewrite E, IH]).
    assert (Forall (fun c => loaded c.2) cs) as Hl by (clear -Hc; induction Hc as [|e c es cs [_ E] _ IH]; by constructor).
    apply loaded_directory; [|rewrite En; by apply before_sorted|done]. clear -Hs Hc. induction Hc as [|e c es cs [E _] Hc IH]; [constructor|].
    inversion Hs as [|? ? Hs' Hb]; subst. constructor; [by apply IH|]. clear IH Hs Hs'. induction Hc as [|e' c' es cs [E' _] _ IH]; [constructor|]. apply Forall_cons in Hb as [Hb1 Hb]. constructor; [|by apply IH].
    unfold key_le, before in *. rewrite E, E'. destruct (leb_total (dn_Name e) (dn_Name e')) as [?|?]; [done|congruence].
  - intros e s8 [name child] s9 _ Hch. unfold load_child in Hch. apply act_bind_Ok in Hch as (st & s10 & _ & Hch). apply act_bind_Ok in Hch as (u2 & s11 & _ & Hch).
    case_bool_decide; [|case_bool_decide; [|by simplify_act]].
    + apply act_bind_Ok in Hch as (x & s12 & Hx & Hch). apply ret_Ok in Hch as [[= -> ->] ->]. split; [done|]. by eapply IH.
    + apply act_bind_Ok in Hch as (x & s12 & Hx & Hch). apply ret_Ok in Hch as [[= -> ->] ->]. split; [done|]. constructor.
Qed.

(** A deeper bound does not change a load that is finished. *)
Lemma load_deeper fuel fuel' root p stat s n s' : fuel <= fuel' ->
  loadStagedCurrentDirRecursive ctx StatStagedPath inner_Get fuel root p stat s = (Ok n, s') -> loadStagedCurrentDirRecursive ctx StatStagedPath inner_Get fuel' root p stat s = (Ok n, s').
Proof.
  revert fuel' p stat s n s'. induction fuel as [|fuel IH]; intros fuel' p stat s n s' Hf H; [done|]. destruct fuel' as [|fuel']; [lia|]. cbn [loadStagedCurrentDirRecursive] in *.
  apply act_bind_Ok in H as (k & s1 & Hk & H). rewrite (act_bind_run _ _ _ _ _ Hk). destruct (bool_decide _); [done|].
  apply act_bind_Ok in H as (m & s2 & Hm & H). rewrite (act_bind_run _ _ _ _ _ Hm). apply act_bind_Ok in H as (cs & s3 & Hc & H). rewrite (act_bind_run (each _ _) _ _ cs s3); [exact H|].
  clear Hm H. revert s2 cs s3 Hc. induction (dn_Entries m) as [|e es IHe]; intros s2 cs s3 Hc; cbn [each] in *; [done|].
  apply act_bind_Ok in Hc as (c & s4 & He & Hc). apply act_bind_Ok in Hc as (cs' & s5 & Hes & Hc). rewrite (act_bind_run _ _ _ c s4); [by rewrite (act_bind_run _ _ _ _ _ (IHe _ _ _ Hes))|].
  unfold load_child in *. apply act_bind_Ok in He as (st & s6 & Hst & He). rewrite (act_bind_run _ _ _ _ _ Hst). apply act_bind_Ok in He as (u & s7 & Hu & He). rewrite (act_bind_run _ _ _ _ _ Hu).
  destruct (bool_decide (dn_Type e = StagedKindDirectory)); [|done]. apply act_bind_Ok in He as (x & s8 & Hx & He). rewrite (act_bind_run _ _ _ x s8); [exact He|]. apply IH; [lia|done].
Qed.
End LoadFacts.

Lemma loaded_unchanged layout n top s r n' s' : layout <> LayoutFlatV1 -> loaded n ->
  materializeDirectory layout top n s = (Ok (r, n'), s') -> n' = n /\ s' = s /\ sm_Key r = sn_Key n /\ silent r.
Proof.
  intros Hl. revert top s r n' s'. induction n as [kind storage base changed children IH] using StagedNode_nested. intros top s r n' s' Hn H. rewrite materialize_eq in H.
  apply act_bind_Ok in H as (u & s1 & H1 & H). apply act_bind_Ok in H as (us & s2 & H2 & H). apply act_bind_Ok in H as (vs & s3 & H3 & H). simplify_act.
  inversion Hn as [|? k ? Hs _ Hc]; subst; [done|]. rewrite (sort_by_id _ _ _ Hs) in H3 || (unfold sort_by_string in H3; rewrite sort_by_id in H3 by done).
  assert (s3 = s /\ nodes_of vs = children /\ Forall silent (vi_Stats <$> vs)) as (-> & En & Hsi).
  { clear H H2 Hs Hn. revert s vs s3 H3. induction children as [|[name child] children IHc]; intros s vs s3 H3; cbn in H3; [apply ret_Ok in H3 as [-> ->]; by repeat constructor|].
    apply act_bind_Ok in H3 as (v & s4 & Hv & H3). apply act_bind_Ok in H3 as (vs' & s5 & Hvs & H3). apply ret_Ok in H3 as [-> ->].
    apply Forall_cons in IH as [IH1 IH], Hc as [Hc1 Hc]. destruct (IHc IH Hc _ _ _ Hvs) as (-> & En & Hsi).
    assert (s4 = s /\ dc_Name (vi_Child v) = name /\ vi_Node v = child /\ silent (vi_Stats v)) as (-> & <- & <- & Hv').
    { unfold mat_item, visit_child in Hv. cbn [fst snd] in *. apply act_bind_Ok in Hv as (v0 & s5 & Hv & Hv'). simplify_act. inversion Hc1; subst; unfold is_dir in Hv; cbn [sn_Kind] in Hv.
      - rewrite bool_decide_eq_false_2, bool_decide_eq_false_2, bool_decide_eq_true_2 in Hv by done. simplify_act. done.
      - rewrite bool_decide_eq_true_2 in Hv by done. apply act_bind_Ok in Hv as ([r0 c0] & s6 & Hmat & Hv). apply ret_Ok in Hv as [-> ->]. destruct (IH1 _ _ _ _ _ Hc1 Hmat) as (-> & -> & _ & ?). done. }
    cbn. split_and!; [done| |by constructor]. unfold nodes_of in *. cbn. by rewrite En. }
  unfold finish_directory, reusable in H. rewrite (bool_decide_eq_false_2 _ Hl), bool_decide_eq_true_2 in H by done. cbn [negb andb] in H. apply ret_Ok in H as [[= -> ->] ->].
  rewrite (silent_sum _ Hsi). fold (nodes_of vs). rewrite En. done.
Qed.

(** *** Checked candidates *)
Fixpoint node_at (path : list string) (n : StagedNode) : option StagedNode :=
  match path with
  | [] => Some n
  | seg :: path => if is_dir n then child ← lookup_child seg (sn_Children n); node_at path child else None
  end.
Definition projected_kind (n : StagedNode) : string := if bool_decide (sn_Kind n = StagedKindMapDirectory) then StagedKindDirectory else sn_Kind n.

Lemma verify_inv e p : verifyStagedProjection e (Some p) = Ok () -> sn_Kind p = projected_kind e /\ sn_Key p = sn_Key e /\
  (is_dir e = true -> length (sn_Children p) = length (sn_Children e) /\
     forall name ce, (name, ce) ∈ sn_Children e -> exists cp, lookup_child name (sn_Children p) = Some cp /\ verifyStagedProjection ce (Some cp) = Ok ()).
Proof.
  destruct e as [kind storage key changed children]. unfold projected_kind, is_dir. cbn [verifyStagedProjection sn_Kind sn_Key sn_Children]. intros H. apply bind_Ok in H as ([] & H1 & H).
  apply fail_if_Ok, orb_false_iff in H1 as [H1 H2]. apply negb_false_iff, bool_decide_eq_true in H1, H2. split_and!; [done|done|]. intros Hd%bool_decide_eq_true. subst kind.
  rewrite bool_decide_eq_false_2, bool_decide_eq_false_2 in H by done. cbn [orb] in H. apply bind_Ok in H as ([] & _ & H). apply bind_Ok in H as ([] & H3 & H). apply bind_Ok in H as (us & H4 & _).
  apply fail_if_Ok, negb_false_iff, bool_decide_eq_true in H3. split; [done|]. intros name ce Hin. destruct (mapM_visits _ _ _ (name, verifyStagedProjection ce) H4) as [u Hu].
  { apply list_elem_of_fmap. by exists (name, ce). }
  apply bind_Ok in Hu as (cp & Hcp & Hu). apply or_err_Ok in Hcp. destruct u. by exists cp.
Qed.

(** What a check accepts has at every path of the expected tree a node of its
    kind and key, and the same names in every directory. *)
Lemma verified_path e p path ne : verifyStagedProjection e (Some p) = Ok () -> node_at path e = Some ne ->
  exists np, node_at path p = Some np /\ verifyStagedProjection ne (Some np) = Ok () /\ sn_Key np = sn_Key ne /\ sn_Kind np = projected_kind ne.
Proof.
  revert e p. induction path as [|seg path IH]; intros e p Hv Hn; pose proof (verify_inv _ _ Hv) as (Hk & Hkey & Hd); cbn in Hn.
  - injection Hn as <-. by exists p.
  - destruct (is_dir e) eqn:Ed; [|done]. destruct (lookup_child seg (sn_Children e)) as [ce|] eqn:El; [|done]. cbn in Hn. apply lookup_child_elem in El.
    destruct (Hd eq_refl) as [_ Hc]. destruct (Hc _ _ El) as (cp & Hcp & Hv'). destruct (IH _ _ Hv' Hn) as (np & Hnp & ?). exists np. split; [|done].
    cbn. unfold is_dir in *. apply bool_decide_eq_true in Ed. unfold projected_kind in Hk. rewrite Ed in Hk. rewrite bool_decide_eq_false_2 in Hk by done. rewrite Hk, bool_decide_eq_true_2 by done. by rewrite Hcp.
Qed.

Lemma verified_names e p : verifyStagedProjection e (Some p) = Ok () -> is_dir e = true -> NoDup (sn_Children e).*1 -> (sn_Children e).*1 ≡ₚ (sn_Children p).*1.
Proof.
  intros Hv Hd Hn. destruct (verify_inv _ _ Hv) as (_ & _ & Hi). destruct (Hi Hd) as [Hl Hc]. apply submseteq_length_Permutation; [|by rewrite !length_fmap, Hl].
  apply NoDup_submseteq; [done|]. intros name ([n ce] & -> & Hin)%list_elem_of_fmap. destruct (Hc _ _ Hin) as (cp & Hcp%lookup_child_elem & _). by apply (list_elem_of_fmap_2 fst _ _ Hcp).
Qed.

(** What the writer of the roots promises: the root is a function of the root
    it starts from and of the bindings, and writing the bindings that a root
    already has gives that root. *)
Section Sound.
Context (commit_root : forall base b s root s', UpdateStagedRoot base b s = (Ok root, s') -> root = Some (commit base b)).
Context (commit_again : forall base b, commit (Some (commit base b)) b = commit base b).

Lemma assemble_again layout top base l k d : layout <> LayoutFlatV1 \/ top = true -> assemble layout top base l = Some (k, d) -> assemble layout top (Some k) l = Some (k, d).
Proof.
  intros Hl. unfold assemble. destruct (manifest_key l.*2) as [payload|]; [|done]. cbn. intros [= Hk Hd].
  assert (bool_decide (layout = LayoutFlatV1) && negb top = false) as E by (destruct Hl as [Hl| ->]; [by rewrite bool_decide_eq_false_2|apply andb_false_r]).
  rewrite E in *. subst. by rewrite commit_again.
Qed.

Lemma finish_directory_key layout top storage base changed vs s r n' s' :
  finish_directory layout top storage base changed vs s = (Ok (r, n'), s') ->
  sm_Descendants r = ProjectDirectoryBindings LayoutHybridV1 (vi_Child <$> vs) /\ exists storage' k, n' = mkStagedNode StagedKindDirectory storage' (Some k) false (nodes_of vs) /\ sm_Key r = Some k /\
  (layout <> LayoutFlatV1 /\ changed = false /\ base = Some k \/ assemble layout top base (described <$> vs) = Some (k, sm_Descendants r)).
Proof.
  unfold finish_directory. destruct (reusable layout changed base) eqn:E.
  - intros H. apply ret_Ok in H as [[= -> ->] ->]. split; [done|]. unfold reusable in E. rewrite !andb_true_iff, !negb_true_iff, bool_decide_eq_false, bool_decide_eq_true in E.
    destruct E as [[Hl ->] [k ->]]. exists storage, k. split_and!; try done. by left.
  - intros H. apply act_bind_Ok in H as (payload & s1 & Hp & H). apply upload_manifest_Ok in Hp. unfold assemble. rewrite described_entries, described_children, Hp. cbn.
    destruct (bool_decide (layout = LayoutFlatV1) && negb top).
    + apply ret_Ok in H as [[= -> ->] ->]. split; [done|]. exists "raw", payload. split_and!; try done. by right.
    + apply act_bind_Ok in H as (u & s2 & _ & H). apply act_bind_Ok in H as (root & s3 & Hr & H). apply commit_root in Hr as ->. apply ret_Ok in H as [[= -> ->] ->]. split; [done|].
      eexists "prefix", _. split_and!; [done|done|]. by right.
Qed.

Lemma finish_directory_sound layout top storage base changed children vs s r n' s' :
  settled layout (mkStagedNode StagedKindDirectory storage base changed children) -> names_ok children = true -> Forall2 (faithful layout) (sort_by_string fst children) vs ->
  finish_directory layout top storage base changed vs s = (Ok (r, n'), s') -> sound layout top (mkStagedNode StagedKindDirectory storage base changed children) r n'.
Proof.
  intros Hs Hn Hf H. pose proof (faithful_names _ _ _ Hf) as En. pose proof (sort_names _ _ En) as Es. pose proof (names_perm _ _ En) as Ep.
  pose proof (names_ok_perm _ _ Ep Hn) as Hn'. pose proof (faithful_described _ _ _ Hf) as [D D'].
  assert (forall top st b ch, rebuild layout top (mkStagedNode StagedKindDirectory st b ch children) = assemble layout top b (described <$> vs)) as R.
  { intros. by rewrite rebuild_eq, bool_decide_eq_true_2, Hn, D. }
  assert (forall top st b ch, rebuild layout top (mkStagedNode StagedKindDirectory st b ch (nodes_of vs)) = assemble layout top b (described <$> vs)) as R'.
  { intros. by rewrite rebuild_eq, bool_decide_eq_true_2, Hn', Es, D'. }
  apply finish_directory_key in H as (Hd & st & k & -> & Hk & Hb).
  assert (assemble layout top base (described <$> vs) = Some (k, sm_Descendants r)) as A.
  { destruct Hb as [(Hl & -> & ->)|?]; [|done]. inversion Hs as [? ? ? ? ? _ _ Hset]; subst. destruct (Hset eq_refl eq_refl Hl k eq_refl) as [d Hr]. rewrite R in Hr.
    rewrite (assemble_top _ top true) by done. rewrite Hr. apply assemble_descendants in Hr as ->. by rewrite described_children, Hd. }
  exists k. rewrite R, R'. split_and!; [done|done| | |done|].
  - destruct (decide (layout = LayoutFlatV1 /\ top = false)) as [[-> ->]|Hl]; [exact A|]. eapply assemble_again; [|exact A]. destruct top; [by right|left]. intros ->. by apply Hl.
  - constructor; [rewrite Ep; by apply settled_children in Hs as [? _]|by eapply faithful_settled|]. intros _ _ Hl k' [= <-]. rewrite R'. eexists.
    rewrite (assemble_top _ true top) by done. eapply assemble_again; [by left|exact A].
  - intros Hl. rewrite Hd. by eapply idle_directory.
Qed.

Lemma visit_children layout l s vs s' :
  (forall c, c ∈ l -> settled layout c.2 /\ forall s r n' s', materializeDirectory layout false c.2 s = (Ok (r, n'), s') -> sound layout false c.2 r n') ->
  each (visit_child layout) (mat_item layout <$> l) s = (Ok vs, s') -> Forall2 (faithful layout) l vs.
Proof.
  intros Hl H. apply (each_Forall2 _ (fun a v => exists c, a = mat_item layout c /\ faithful layout c v)) in H.
  - apply Forall2_fmap_l in H. eapply Forall2_impl; [exact H|]. intros [name child] v ([name' child'] & [= -> ->] & Hv). exact Hv.
  - intros a s1 v s2 (c & -> & Hc)%list_elem_of_fmap Hv. exists c. split; [done|]. destruct (Hl c Hc). by eapply visit_child_faithful.
Qed.

Lemma materialize_sound layout n top s r n' s' :
  settled layout n -> materializeDirectory layout top n s = (Ok (r, n'), s') -> sound layout top n r n'.
Proof.
  revert top s r n' s'. induction n as [kind storage base changed children IH] using StagedNode_nested. intros top s r n' s' Hs H. rewrite materialize_eq in H.
  apply act_bind_Ok in H as (u & s1 & H1 & H). apply act_bind_Ok in H as (us & s2 & H2 & H). apply act_bind_Ok in H as (vs & s3 & H3 & H). simplify_act.
  apply negb_false_iff, bool_decide_eq_true in H1 as ->. assert (names_ok children = true) as Hn by (rewrite <- check_names; apply is_ok_true; by eexists).
  eapply finish_directory_sound; [done|done| |exact H]. eapply visit_children; [|exact H3]. intros c Hc%elem_of_sort_by.
  apply settled_children in Hs as [_ Hs]. rewrite Forall_forall in Hs, IH. split; [apply (Hs _ Hc)|]. intros. eapply (IH _ Hc); [apply (Hs _ Hc)|done].
Qed.

(** *** The other direction: a tree that can be written is written *)
Section Live.
Context (put_ok : forall data c s, NewDirectoryManifestCID data = Ok c -> exists s', putWithCodec data DirectoryManifestCodec s = (Ok (Some c), s')).
Context (flush_ok : forall a s, flush = Some a -> exists s', a s = (Ok (), s')).
Context (update_ok : forall base b s, exists s', UpdateStagedRoot base b s = (Ok (Some (commit base b)), s')).

Lemma upload_manifest_runs es p s : manifest_key es = Some p -> exists s', upload_manifest es s = (Ok p, s').
Proof.
  unfold manifest_key, upload_manifest. destruct (EncodeDirectoryManifest es) as [block|] eqn:E; [|done]. cbn. destruct (NewDirectoryManifestCID (db_Data block)) as [c|] eqn:Ec; [|done].
  intros [= <-]. unfold EncodeDirectoryManifest in E. simplify_result. destruct (put_ok _ _ s Ec) as [s' Hp]. exists s'. unfold mbind, Act_bind, pure, wrapped.
  cbn [db_Data db_Codec wrap_err] in *. rewrite Hp. cbn [wrap_err]. rewrite Ec. by rewrite bool_decide_eq_true_2.
Qed.

Lemma finish_directory_runs layout top storage base changed vs s kd : assemble layout top base (described <$> vs) = Some kd ->
  exists r n' s', finish_directory layout top storage base changed vs s = (Ok (r, n'), s').
Proof.
  unfold assemble, finish_directory. rewrite described_entries. destruct (manifest_key _) as [payload|] eqn:Ep; [|done]. intros _.
  destruct (reusable _ _ _); [by eexists _, _, _|]. destruct (upload_manifest_runs _ _ s Ep) as [s1 Hp]. rewrite (act_bind_run _ _ _ _ _ Hp).
  destruct (_ && _); [by eexists _, _, _|].
  assert (exists s2, match flush with Some flush => wrapped "flush directory manifests" flush | None => mret () end s1 = (Ok (), s2)) as [s2 Hf].
  { destruct flush as [a|] eqn:Ea; [|by eexists]. destruct (flush_ok a s1 eq_refl) as [s2 Hf]. exists s2. unfold wrapped. by rewrite Hf. }
  rewrite (act_bind_run _ _ _ _ _ Hf). edestruct update_ok as [s3 Hu]. rewrite (act_bind_run _ _ _ _ _ Hu). by eexists _, _, _.
Qed.

Lemma each_runs {A B} (f : A -> Act St B) l s : (forall a s, a ∈ l -> exists b s', f a s = (Ok b, s')) -> exists bs s', each f l s = (Ok bs, s').
Proof.
  revert s. induction l as [|a l IH]; intros s H; [by eexists _, _|]. destruct (H a s) as (b & s1 & Hb); [by left|]. destruct (IH s1) as (bs & s2 & Hbs); [intros; apply H; by right|].
  exists (b :: bs), s2. cbn. rewrite (act_bind_run _ _ _ _ _ Hb). by rewrite (act_bind_run _ _ _ _ _ Hbs).
Qed.

Lemma visit_child_runs layout c s : settled layout c.2 -> is_Some (describe layout (reb_item layout c)) ->
  (forall kd s, rebuild layout false c.2 = Some kd -> exists r n' s', materializeDirectory layout false c.2 s = (Ok (r, n'), s')) ->
  exists v s', visit_child layout (mat_item layout c) s = (Ok v, s').
Proof.
  destruct c as [name child]. cbn [snd]. intros Hs [de Hd] IH. unfold describe, reb_item in Hd. unfold visit_child, mat_item. cbn [fst snd] in *.
  destruct (is_dir child).
  - destruct (rebuild layout false child) as [[k d]|]; [|done]. destruct (IH _ s eq_refl) as (r & n' & s' & Hm). destruct (materialize_sound _ _ _ _ _ _ _ Hs Hm) as (k' & Hk & _).
    exists (mkVisited (mkDirectoryChild name true (sm_Key r) (sm_Key r) (sm_Descendants r)) (mkDirectoryEntry name DirectoryEntryTypeDir) r n'), s'.
    unfold mbind, Act_bind. rewrite Hm. cbn. by rewrite Hk.
  - destruct (bool_decide (sn_Kind child = StagedKindMapDirectory)); [|destruct (bool_decide (sn_Kind child = StagedKindFile)); [|done]].
    + destruct (bool_decide (layout = LayoutFlatV1)); [done|]. destruct (sn_Key child) eqn:E; [|done]. eexists _, s. unfold mbind, Act_bind, pure. cbn. done.
    + destruct (sn_Key child) eqn:E; [|done]. eexists _, s. unfold mbind, Act_bind, pure. cbn. done.
Qed.

Lemma materialize_runs layout n top s kd :
  settled layout n -> rebuild layout top n = Some kd -> exists r n' s', materializeDirectory layout top n s = (Ok (r, n'), s').
Proof.
  revert top s kd. induction n as [kind storage base changed children IH] using StagedNode_nested. intros top s kd Hs Hr. rewrite rebuild_eq in Hr.
  destruct (bool_decide (kind = StagedKindDirectory)) eqn:Ek; [|done]. destruct (names_ok children) eqn:En; [|done]. cbn [andb] in Hr.
  destruct (list.mapM _ _) as [ds|] eqn:Ed; [|done]. cbn in Hr. apply settled_children in Hs as [_ Hs]. cbn [sn_Children] in Hs. rewrite Forall_forall in Hs, IH.
  assert (forall c, c ∈ sort_by_string fst children -> is_Some (describe layout (reb_item layout c))) as Hd.
  { intros c Hc. apply mapM_Some, Forall2_fmap_l in Ed. apply list_elem_of_lookup in Hc as [i Hi]. destruct (Forall2_lookup_l _ _ _ _ _ Ed Hi) as (y & _ & Hy). by eexists. }
  rewrite materialize_eq, Ek. rewrite <- check_names in En. apply is_ok_true in En as [us Eu].
  destruct (each_runs (visit_child layout) (mat_item layout <$> sort_by_string fst children) s) as (vs & s1 & Hv).
  { intros a s1 (c & -> & Hc)%list_elem_of_fmap. pose proof (Hd c Hc) as Hdc. apply elem_of_sort_by in Hc. apply visit_child_runs; [apply (Hs _ Hc)|done|]. intros. eapply (IH _ Hc); [apply (Hs _ Hc)|done]. }
  unfold mbind, Act_bind, pure. cbn [negb fail_if]. rewrite Eu, Hv. eapply finish_directory_runs.
  assert (Forall2 (faithful layout) (sort_by_string fst children) vs) as Hf.
  { eapply visit_children; [|exact Hv]. intros c Hc%elem_of_sort_by. split; [apply (Hs _ Hc)|]. intros. eapply materialize_sound; [apply (Hs _ Hc)|done]. }
  apply faithful_described in Hf as [Hf _]. rewrite Ed in Hf. injection Hf as <-. exact Hr.
Qed.
End Live.

Lemma edits_settled layout edits root : Forall (edit_settled layout) edits -> settled layout root -> settled layout (foldl apply_edit root edits).
Proof. intros H. revert root. induction H as [|e edits He _ IH]; intros root Hr; cbn; [done|]. by apply IH, apply_edit_settled. Qed.

(** C25. Reusing the roots of the directories that no edit marked is sound.
    The root that the root writer returns is taken to be a function of the root
    it starts from and of the bindings, and writing the same bindings again to
    change nothing.  Take a tree in which every unmarked directory records the
    root of its contents, any sequence of edits and of merges with such trees,
    and a materialisation that succeeds: its root and its bindings are those of writing every directory
    again, the tree it leaves is again such a tree, and outside of the flat
    layout materialising it once more writes nothing and returns the same root.
    Conversely, over block and root writers that do not fail, a tree that can be
    written is written, with that root. *)
Theorem reuse_equals_rebuild layout t edits s :
  settled layout t -> Forall (edit_settled layout) edits ->
  let t' := foldl apply_edit t edits in
  (forall r n' s', Materialize layout t' s = (Ok (r, n'), s') -> exists k,
     sm_Key r = Some k /\ rebuild layout true t' = Some (k, sm_Descendants r) /\ settled layout n' /\ rebuild layout true n' = Some (k, sm_Descendants r) /\
     (layout <> LayoutFlatV1 -> forall s2, exists r2, Materialize layout n' s2 = (Ok (r2, n'), s2) /\ sm_Key r2 = Some k /\ sm_ImmutableObjects r2 = 0 /\ sm_MALTObjects r2 = 0)) /\
  ((forall data c s, NewDirectoryManifestCID data = Ok c -> exists s', putWithCodec data DirectoryManifestCodec s = (Ok (Some c), s')) ->
   (forall a s, flush = Some a -> exists s', a s = (Ok (), s')) ->
   (forall base b s, exists s', UpdateStagedRoot base b s = (Ok (Some (commit base b)), s')) ->
   forall k d, rebuild layout true t' = Some (k, d) -> exists r n' s', Materialize layout t' s = (Ok (r, n'), s') /\ sm_Key r = Some k /\ sm_Descendants r = d).
Proof.
  intros Ht He t'. assert (settled layout t') as Hs by by apply edits_settled. unfold Materialize. split.
  - intros r n' s' H. destruct (materialize_sound _ _ _ _ _ _ _ Hs H) as (k & Hk & Hr & Hr' & Hs' & _ & Hi). exists k. split_and!; try done.
    intros Hl s2. destruct (Hi Hl true s2) as (r2 & Hm & Hk2 & _ & Hsi). exists r2. injection Hsi as ? ? ? ? ? ? ?. by split_and!.
  - intros H1 H2 H3 k d Hr. destruct (materialize_runs H1 H2 H3 _ _ _ s _ Hs Hr) as (r & n' & s' & Hm). exists r, n', s'.
    destruct (materialize_sound _ _ _ _ _ _ _ Hs Hm) as (k' & Hk & Hr' & _). rewrite Hr in Hr'. by simplify_eq.
Qed.
End Sound.
End Materialize.
End Tree.

(** *** A concrete tree *)
Module Trees.
(** Identifiers that are the bytes themselves. *)
#[local] Instance text_cid : CidLib := {| Cid := list ascii; cid_Parse s := Some (bytes s); cid_String c := of_bytes c; cid_Sum _ data := Some data |}.
#[local] Instance text_blocks : BlockLib := {| mh_Sum data := Some data; NewCidV1 _ h := h; cid_Type _ := Raw; cid_Digest c := c |}.
#[local] Instance text_inline : InlineLib := {| mh_Identity data := Some data; cid_Identity c := Some c; root_Layout _ := None |}.

(** Writers that count what they write. *)
Definition count_put (data : list ascii) (codec : N) : Act (nat * nat) (option Cid) := fun '(m, r) => (Ok (Some data), (S m, r)).
Definition list_commit (base : option Cid) (b : gmap string string) : Cid := concat ((fun x => bytes (x.1 +:+ "=" +:+ x.2 +:+ ";")) <$> map_to_list b).
Definition count_update (base : option Cid) (b : gmap string string) : Act (nat * nat) (option Cid) := fun '(m, r) => (Ok (Some (list_commit base b)), (m, S r)).

Definition first_edits : list edit := [SetFile "docs/a" (Some (bytes "A")); EnsureDirectory "media"; SetFile "b" (Some (bytes "B"))].
Definition run (layout : LayoutKind) (t : StagedNode) (edits : list edit) (s : nat * nat) :=
  Materialize count_put None count_update EmptyString layout (foldl apply_edit t edits) s.

(** The first materialisation writes three directories; after an edit of one
    of them the second writes that directory and the top. *)
Example second_write :
  match run LayoutHybridV1 NewStagedDirectory first_edits (0, 0) with
  | (Ok (r, n), s) => Some (s, (run LayoutHybridV1 n [SetFile "docs/c" (Some (bytes "C"))] s).2)
  | (Err _, _) => None
  end = Some ((3, 3), (5, 5)).
Proof. vm_compute. reflexivity. Qed.

Lemma reuse_equals_rebuild_witness : exists r n' s', run LayoutHybridV1 NewStagedDirectory first_edits (0, 0) = (Ok (r, n'), s') /\
  sm_Key r = fst <$> rebuild EmptyString list_commit LayoutHybridV1 true (foldl apply_edit NewStagedDirectory first_edits).
Proof.
  destruct (rebuild EmptyString list_commit LayoutHybridV1 true (foldl apply_edit NewStagedDirectory first_edits)) as [[k d]|] eqn:E; [|vm_compute in E; discriminate E].
  assert (forall base b s root s', count_update base b s = (Ok root, s') -> root = Some (list_commit base b)) as H1 by (intros base b [m r] root s' H; by injection H).
  assert (forall base b, list_commit (Some (list_commit base b)) b = list_commit base b) as H2 by done.
  destruct (reuse_equals_rebuild count_put None count_update EmptyString list_commit H1 H2 LayoutHybridV1 NewStagedDirectory first_edits (0, 0)) as [_ Hr];
    [apply settled_new|repeat constructor|].
  destruct (Hr ltac:(intros data c [m r] H; injection H as <-; by eexists) ltac:(done) ltac:(intros base b [m r]; by eexists) k d E) as (r & n' & s' & Hm & Hk & _).
  exists r, n', s'. split; [exact Hm|]. by rewrite Hk.
Defined.
End Trees.
