(* ===== verification/Mount.v ===== *)
(** The mount manager (filesystem/mount/manager.go): the lifecycle of platform
    mounts over the durable registry.

    Every call that leaves the manager is an event of a trace: the registry
    sections, the view selector, the leases and writable bindings of the
    filesystem, the platform adapter and its sessions.  Sessions, bindings and
    leases are objects; an object is named by the position of the event that
    created it.  The environment answers each call by the position at which it
    is made, and may answer anything. *)

From stdpp Require Import base decidable gmap strings list.
From Stdlib Require Import Ascii ZArith.
From S2P Require Import Prelude GoText CidLib Durable Registry Journal Cache Paths Staging.

Definition ErrManagerClosed := ErrorsNew "mount manager is closed".
Definition ErrWritePolicyUnavailable := ErrorsNew "mount write policy is unavailable".
Definition ErrMountCleanupPending := ErrorsNew "mount cleanup is pending".

(** [errors.Join] with an error that may be nil, and of a list. *)
Definition join (e : error) (r : result unit) : error := match r with Ok _ => e | Err e' => ErrorsJoin e e' end.
Definition join_all (failures : list error) : result unit :=
  match failures with [] => Ok () | e :: es => Err (foldl ErrorsJoin e es) end.

Section Mount.
Context {L : CidLib}.

(** ** The outside *)
Inductive mevent :=
  | EvRegistry (f : registry_file)
  | EvSelect (spec : Spec)
  | EvAcquire (view : View) (ok : bool)
  | EvRelease (lease : nat) (ok : bool)
  | EvBind (spec : Spec) (view : View) (created : bool)
  | EvClose (binding : nat) (ok : bool)
  | EvMount (spec : Spec) (binding lease : option nat) (session : bool)
  | EvUnmount (session : nat) (ok : bool)
  | EvRecover (spec : Spec) (ok : bool)
  | EvEnded (session : nat)
  | EvCloseFilesystem
  | EvUnlock
  | EvRestart.

(** What [Adapter.Mount] returns: a session or nil, whether [Done()] of the
    session is a channel, and an error. *)
Record adapter_answer := mkAnswer { aa_session : bool; aa_done : bool; aa_err : option error }.

Record menv := mkMenv {
  me_io : nat -> io; me_now : nat -> time;
  (** [acquireOperation]: [Some e] when the context ended first. *)
  me_gate : nat -> option error;
  me_name : string;
  (** The optional capabilities of the filesystem. *)
  me_leases : bool; me_writable : bool; me_closer : bool;
  me_SelectView : nat -> Spec -> result View;
  me_AcquireView : nat -> result unit; me_ReleaseView : nat -> result unit;
  me_BindWritable : nat -> bool * option error; me_Close : nat -> result unit;
  me_Mount : nat -> adapter_answer; me_Unmount : nat -> result unit; me_RecoverUnmount : nat -> result unit;
  me_CloseFilesystem : nat -> result unit; me_Unlock : nat -> result unit
}.

(** ** State *)
Record liveMount := mkLive {
  lm_session : option nat; lm_view : View; lm_binding : option nat; lm_viewLease : option nat; lm_token : N;
  lm_cleanupOnly : bool; lm_needsUnmount : bool; lm_expectedDone : bool
}.

Record Manager := mkManager {
  mg_live : gmap string liveMount; mg_errors : gmap string error; mg_nextToken : N; mg_leaseUnlock : bool; mg_closed : bool
}.
Definition NewManager : Manager := mkManager ∅ ∅ 1 true false.

(** A goroutine that waits for a session. *)
Record monitor_t := mkMonitor { mo_id : string; mo_token : N; mo_session : nat }.

(** The registry file, the manager, the [closed] flags of the managed bindings
    and view leases, the goroutines, and the trace, newest event first. *)
Record mworld := mkMw {
  mw_registry : registry_file; mw_manager : Manager; mw_bindings : gset nat; mw_leases : gset nat;
  mw_monitors : list monitor_t; mw_trace : list mevent
}.

Definition Mn (A : Type) : Type := mworld -> A * mworld.
#[global] Instance Mn_ret : MRet Mn := fun A a w => (a, w).
#[global] Instance Mn_bind : MBind Mn := fun A B f m w => let '(a, w') := m w in f a w'.

(** Continue, or return the error. *)
Definition then_ {A B} (r : result A) (f : A -> Mn (result B)) : Mn (result B) :=
  match r with Ok a => f a | Err e => mret (Err e) end.

Definition here (w : mworld) : nat := length (mw_trace w).
Definition emit (e : mevent) : Mn nat := fun w =>
  (here w, mkMw (mw_registry w) (mw_manager w) (mw_bindings w) (mw_leases w) (mw_monitors w) (e :: mw_trace w)).

Definition get_manager : Mn Manager := fun w => (mw_manager w, w).
Definition put_manager (m : Manager) : Mn unit := fun w =>
  ((), mkMw (mw_registry w) m (mw_bindings w) (mw_leases w) (mw_monitors w) (mw_trace w)).
Definition update (f : Manager -> Manager) : Mn unit := fun w => put_manager (f (mw_manager w)) w.

Definition with_live (f : gmap string liveMount -> gmap string liveMount) (m : Manager) : Manager :=
  mkManager (f (mg_live m)) (mg_errors m) (mg_nextToken m) (mg_leaseUnlock m) (mg_closed m).
Definition with_errors (f : gmap string error -> gmap string error) (m : Manager) : Manager :=
  mkManager (mg_live m) (f (mg_errors m)) (mg_nextToken m) (mg_leaseUnlock m) (mg_closed m).
Definition set_error (id : string) (e : error) : Mn unit := update (with_errors <[id := e]>).
Definition clear_error (id : string) : Mn unit := update (with_errors (base.delete id)).

Definition closed_binding (b : nat) : Mn unit := fun w =>
  ((), mkMw (mw_registry w) (mw_manager w) ({[b]} ∪ mw_bindings w) (mw_leases w) (mw_monitors w) (mw_trace w)).
Definition closed_lease (l : nat) : Mn unit := fun w =>
  ((), mkMw (mw_registry w) (mw_manager w) (mw_bindings w) ({[l]} ∪ mw_leases w) (mw_monitors w) (mw_trace w)).
Definition spawn (mo : monitor_t) : Mn unit := fun w =>
  ((), mkMw (mw_registry w) (mw_manager w) (mw_bindings w) (mw_leases w) (mo :: mw_monitors w) (mw_trace w)).

Context (E : menv).

(** ** Calls *)
Definition in_registry {A} (op : io -> time -> registry_file -> result A * registry_file) : Mn (result A) := fun w =>
  let '(r, f) := op (me_io E (here w)) (me_now E (here w)) (mw_registry w) in
  (r, mkMw f (mw_manager w) (mw_bindings w) (mw_leases w) (mw_monitors w) (EvRegistry f :: mw_trace w)).

Definition ask {A} (answer : nat -> A) (e : A -> mevent) : Mn (A * nat) := fun w =>
  let a := answer (here w) in let '(n, w') := emit (e a) w in ((a, n), w').

Definition session_Unmount (s : nat) : Mn (result unit) :=
  r ← ask (me_Unmount E) (fun r => EvUnmount s (is_ok r)); mret r.1.
Definition RecoverUnmount (spec : Spec) : Mn (result unit) :=
  r ← ask (me_RecoverUnmount E) (fun r => EvRecover spec (is_ok r)); mret r.1.

(** [managedWritableBinding.close] and [managedViewLease.close]; nil closes. *)
Definition binding_close (b : option nat) : Mn (result unit) :=
  match b with
  | None => mret (Ok ())
  | Some b => fun w =>
      if bool_decide (b ∈ mw_bindings w) then (Ok (), w) else
      (r ← ask (me_Close E) (fun r => EvClose b (is_ok r));
       match r.1 with Err e => mret (Err e) | Ok _ => _ ← closed_binding b; mret (Ok ()) end) w
  end.
Definition lease_close (l : option nat) : Mn (result unit) :=
  match l with
  | None => mret (Ok ())
  | Some l => fun w =>
      if bool_decide (l ∈ mw_leases w) then (Ok (), w) else
      (r ← ask (me_ReleaseView E) (fun r => EvRelease l (is_ok r));
       match r.1 with Err e => mret (Err e) | Ok _ => _ ← closed_lease l; mret (Ok ()) end) w
  end.

Definition acquireViewLease (view : View) : Mn (result (option nat)) :=
  if negb (me_leases E) then mret (Ok None) else
  r ← ask (me_AcquireView E) (fun r => EvAcquire view (is_ok r));
  match r.1 with
  | Err e => mret (Err (Wrapf "acquire filesystem View resources" e))
  | Ok _ => mret (Ok (Some r.2))
  end.

(** ** Status *)
Record MountStatus := mkMStatus {
  ms_Spec : Spec; ms_Desired : bool; ms_Active : bool; ms_Adapter : string; ms_SelectedRoot : string; ms_Revision : N;
  ms_LastError : option error
}.
Definition status_of (m : Manager) (record : MountRecord) (view : option View) (active : bool) : MountStatus :=
  match view ≫= v_Root with
  | Some root => mkMStatus (rec_Spec record) (Desired record) active (me_name E) (cid_String root)
                   (default 0%N (v_Revision <$> view)) (mg_errors m !! ID (rec_Spec record))
  | None => mkMStatus (rec_Spec record) (Desired record) active (me_name E) EmptyString 0 (mg_errors m !! ID (rec_Spec record))
  end.
(** The live mount of [statusLocked], when there is one. *)
Definition statusLocked (m : Manager) (record : MountRecord) (live : option liveMount) (active : bool) : MountStatus :=
  status_of m record (lm_view <$> live) (active && negb (default false (lm_cleanupOnly <$> live))).

Definition failureStatus (record : MountRecord) (view : option View) (err : error) : Mn MountStatus :=
  _ ← set_error (ID (rec_Spec record)) err;
  m ← get_manager;
  match mg_live m !! ID (rec_Spec record) with
  | Some live => mret (statusLocked m record (Some live) true)
  | None => mret (status_of m record view false)
  end.

(** ** Cleanup *)
Definition if_current (token : N) (f : liveMount -> liveMount) (id : string) : Mn unit :=
  update (with_live (fun live =>
    match live !! id with
    | Some current => if bool_decide (lm_token current = token) then <[id := f current]> live else live
    | None => live
    end)).

Definition set_expected (expected : bool) (l : liveMount) : liveMount :=
  mkLive (lm_session l) (lm_view l) (lm_binding l) (lm_viewLease l) (lm_token l) (lm_cleanupOnly l) (lm_needsUnmount l) expected.
Definition set_detached (expected : bool) (l : liveMount) : liveMount :=
  mkLive (lm_session l) (lm_view l) (lm_binding l) (lm_viewLease l) (lm_token l) true false expected.

Definition markSessionDoneExpected (id : string) (live : liveMount) (expected : bool) : Mn unit :=
  if_current (lm_token live) (set_expected expected) id.
(** Called on a copy of the live mount with [expectedDone] set. *)
Definition markDetached (id : string) (live : liveMount) : Mn unit :=
  if_current (lm_token live) (set_detached true) id.

Definition close_both (binding lease : option nat) : Mn (result unit) :=
  r ← binding_close binding; then_ r (fun _ => lease_close lease).

Definition cleanupLive (id : string) (live : liveMount) : Mn (result unit) :=
  detached ← match lm_session live with
    | Some s =>
        if lm_needsUnmount live then
          _ ← markSessionDoneExpected id live true;
          r ← session_Unmount s;
          match r with
          | Err e => _ ← markSessionDoneExpected id live false; mret (Err e)
          | Ok _ => _ ← markDetached id live; mret (Ok ())
          end
        else mret (Ok ())
    | None => mret (Ok ())
    end;
  then_ detached (fun _ => close_both (lm_binding live) (lm_viewLease live)).

(** [delete(m.live, id)] when the entry is still the one that was handled. *)
Definition delete_current (id : string) (token : N) : Mn unit :=
  update (with_live (fun live =>
    match live !! id with
    | Some current => if bool_decide (lm_token current = token) then base.delete id live else live
    | None => live
    end)).

Definition next_token : Mn N :=
  m ← get_manager;
  _ ← put_manager (mkManager (mg_live m) (mg_errors m) (u64 (mg_nextToken m + 1)) (mg_leaseUnlock m) (mg_closed m));
  mret (mg_nextToken m).

Definition retainCleanup (id : string) (view : View) (session : option nat) (done : bool) (binding lease : option nat)
    (needsUnmount : bool) : Mn unit :=
  token ← next_token;
  _ ← update (with_live <[id := mkLive session view binding lease token true needsUnmount
        (bool_decide (is_Some session) && negb needsUnmount)]>);
  match session with
  | Some s => if done then spawn (mkMonitor id token s) else mret ()
  | None => mret ()
  end.

(** [rollbackFailedMount] once no session is attached. *)
Definition rollback_close (id : string) (view : View) (session : option nat) (done : bool) (binding lease : option nat)
    : Mn (result unit) :=
  r ← binding_close binding;
  match r with
  | Err e => _ ← retainCleanup id view session done binding lease false; mret (Err (Wrapf "close failed mount binding" e))
  | Ok _ =>
      r ← lease_close lease;
      match r with
      | Err e => _ ← retainCleanup id view session done binding lease false; mret (Err (Wrapf "release failed mount view" e))
      | Ok _ => mret (Ok ())
      end
  end.

Definition rollbackFailedMount (id : string) (view : View) (session : option nat) (done : bool) (binding lease : option nat)
    : Mn (result unit) :=
  match session with
  | Some s =>
      r ← session_Unmount s;
      match r with
      | Err e => _ ← retainCleanup id view session done binding lease true; mret (Err (Wrapf "detach failed mount" e))
      | Ok _ => rollback_close id view session done binding lease
      end
  | None => rollback_close id view session done binding lease
  end.

(** ** Mount *)
Definition check_view (spec : Spec) (view : View) : result View :=
  _ ← fail_if (negb (bool_decide (v_DatasetID view = sp_DatasetID spec)) || negb (bool_decide (v_Branch view = sp_Branch spec)) ||
               negb (bool_decide (v_EncryptionEpoch view = sp_EncryptionEpoch spec)) || negb (bool_decide (is_Some (v_Root view))))
        (Errorf "local view selector returned a mismatched mount identity");
  Ok view.

Definition selectView (spec : Spec) : Mn (result View) :=
  r ← ask (fun t => me_SelectView E t spec) (fun _ => EvSelect spec);
  then_ r.1 (fun view => mret (check_view spec view)).

(** The binding of a write-back mount, or the error with what is left to roll
    back; a read-only mount has none. *)
Definition bindWritable (spec : Spec) (view : View) : Mn (result (option nat) * option nat) :=
  if negb (bool_decide (WritePolicy spec = WriteBack)) then mret (Ok None, None) else
  if negb (me_writable E)
  then mret (Err (Wrapf "filesystem does not implement write-back" ErrWritePolicyUnavailable), None) else
  r ← ask (me_BindWritable E) (fun r => EvBind spec view r.1);
  let '((created, err), b) := (r : (bool * option error) * nat) in
  match err with
  | Some e => mret (Err (ErrorsJoin ErrWritePolicyUnavailable e), if created then Some b else None)
  | None => if created then mret (Ok (Some b), None)
            else mret (Err (Wrapf "binder returned nil write-back filesystem" ErrWritePolicyUnavailable), None)
  end.

(** A method returns a status and an error. *)
Definition mount_result : Type := option MountStatus * option error.

Definition failed (record : MountRecord) (view : option View) (err : error) : Mn mount_result :=
  status ← failureStatus record view err; mret (Some status, Some err).

Definition install_live (record : MountRecord) (view : View) (s : nat) (binding lease : option nat) : Mn mount_result :=
  token ← next_token;
  let live := mkLive (Some s) view binding lease token false true false in
  _ ← update (with_live <[ID (rec_Spec record) := live]>);
  _ ← clear_error (ID (rec_Spec record));
  m ← get_manager;
  _ ← spawn (mkMonitor (ID (rec_Spec record)) token s);
  mret (Some (statusLocked m record (Some live) true), None).

(** From the adapter call on. *)
Definition attach (record : MountRecord) (view : View) (binding lease : option nat) : Mn mount_result :=
  let spec := rec_Spec record in
  r ← ask (me_Mount E) (fun a => EvMount spec binding lease (aa_session a));
  let '(answer, n) := r in
  let session := if aa_session answer then Some n else None in
  match aa_err answer with
  | Some e =>
      rolled ← rollbackFailedMount (ID spec) view session (aa_done answer) binding lease;
      failed record (Some view) (join e rolled)
  | None =>
      match session with
      | Some s =>
          if aa_done answer then install_live record view s binding lease else
          rolled ← rollbackFailedMount (ID spec) view session false binding lease;
          failed record (Some view) (join (Errorf "mount adapter returned an incomplete session") rolled)
      | None =>
          rolled ← rollbackFailedMount (ID spec) view None false binding lease;
          failed record (Some view) (join (Errorf "mount adapter returned an incomplete session") rolled)
      end
  end.

(** From the view selection on, with no live mount of this identity. *)
Definition mount_fresh (record : MountRecord) : Mn mount_result :=
  let spec := rec_Spec record in
  r ← selectView spec;
  match r with
  | Err e => failed record None e
  | Ok view =>
      r ← acquireViewLease view;
      match r with
      | Err e => failed record (Some view) e
      | Ok lease =>
          r ← bindWritable spec view;
          match r with
          | (Err e, leftover) =>
              rolled ← rollbackFailedMount (ID spec) view None false leftover lease;
              failed record (Some view) (join e rolled)
          | (Ok binding, _) => attach record view binding lease
          end
      end
  end.

Definition mount (spec : Spec) : Mn mount_result :=
  r ← in_registry (fun io now => PutDesired io now spec);
  match r with
  | Err e => mret (None, Some e)
  | Ok record =>
      let id := ID (rec_Spec record) in
      m ← get_manager;
      match mg_live m !! id with
      | None => mount_fresh record
      | Some current =>
          if negb (lm_cleanupOnly current) then mret (Some (statusLocked m record (Some current) true), None) else
          r ← cleanupLive id current;
          match r with
          | Err e => failed record (Some (lm_view current)) (Wrapf "pending" ErrMountCleanupPending)
          | Ok _ => _ ← delete_current id (lm_token current); mount_fresh record
          end
      end
  end.

(** [acquireOperation] and [ensureOpen] around an operation. *)
Definition gated {A} (refused : error -> A) (op : Mn A) : Mn A := fun w =>
  match me_gate E (here w) with
  | Some e => (refused e, w)
  | None => if mg_closed (mw_manager w) then (refused ErrManagerClosed, w) else op w
  end.

Definition Mount (spec : Spec) : Mn mount_result := gated (fun e => (None, Some e)) (mount spec).

(** ** Unmount *)
Definition note (id : string) (e : error) : Mn (result unit) := _ ← set_error id e; mret (Err e).

Definition Unmount (id : string) : Mn (result unit) := gated Err (
  r ← in_registry (fun io now => MarkPendingUnmount io now id);
  then_ r (fun record =>
  let spec := rec_Spec record in
  m ← get_manager;
  r ← match mg_live m !! ID spec with
      | Some live => cleanupLive (ID spec) live
      | None => RecoverUnmount spec
      end;
  match r with
  | Err e => note (ID spec) e
  | Ok _ =>
      r ← in_registry (fun io _ => DeleteUnmounted io (ID spec));
      match r with
      | Err e => note (ID spec) e
      | Ok _ =>
          _ ← update (with_live (base.delete (ID spec)));
          _ ← clear_error (ID spec);
          mret (Ok ())
      end
  end)).

(** ** Restore *)
Fixpoint restore_tombstones (records : list MountRecord) : Mn (list error) :=
  match records with
  | [] => mret []
  | record :: rest =>
      if Desired record then restore_tombstones rest else
      r ← RecoverUnmount (rec_Spec record);
      failure ← match r with
        | Err e => mret [Wrapf "recover unmount" e]
        | Ok _ =>
            r ← in_registry (fun io _ => DeleteUnmounted io (ID (rec_Spec record)));
            mret match r with
                 | Err e => if errors_Is e Registry.ErrNotFound then [] else [Wrapf "finish recovered unmount" e]
                 | Ok _ => []
                 end
        end;
      failures ← restore_tombstones rest;
      mret (failure ++ failures)
  end.

Fixpoint restore_desired (records : list MountRecord) : Mn (list error) :=
  match records with
  | [] => mret []
  | record :: rest =>
      if negb (Desired record) then restore_desired rest else
      r ← mount (rec_Spec record);
      failures ← restore_desired rest;
      mret (match r.2 with Some e => Wrapf "restore mount" e :: failures | None => failures end)
  end.

Definition Restore : Mn (result unit) := gated Err (
  m ← get_manager;
  if negb (bool_decide (mg_live m = ∅)) then mret (Err (Errorf "restore requires a fresh manager with no live sessions")) else
  r ← in_registry (fun io _ => List_records io);
  then_ r (fun records =>
  failures1 ← restore_tombstones records;
  failures2 ← restore_desired records;
  mret (join_all (failures1 ++ failures2)))).

(** ** Shutdown *)
Fixpoint shutdown_each (live : list (string * liveMount)) : Mn (list error) :=
  match live with
  | [] => mret []
  | (id, l) :: rest =>
      r ← cleanupLive id l;
      failure ← match r with
        | Err e => _ ← set_error id e; mret [Wrapf "shutdown mount" e]
        | Ok _ => _ ← delete_current id (lm_token l); _ ← clear_error id; mret []
        end;
      failures ← shutdown_each rest;
      mret (failure ++ failures)
  end.

(** The optional [Close] of the filesystem. *)
Definition close_filesystem : Mn (result unit) :=
  if me_closer E then r ← ask (me_CloseFilesystem E) (fun _ => EvCloseFilesystem); mret r.1 else mret (Ok ()).

Definition Shutdown : Mn (result unit) := fun w =>
  match me_gate E (here w) with
  | Some e => (Err e, w)
  | None =>
      if mg_closed (mw_manager w) then (Ok (), w) else
      (m ← get_manager;
       failures ← shutdown_each (sort_by_string fst (map_to_list (mg_live m)));
       if negb (bool_decide (failures = [])) then mret (join_all failures) else
       r ← close_filesystem;
       match r with
       | Err e => mret (Err (Wrapf "close filesystem resources" e))
       | Ok _ =>
           m ← get_manager;
           _ ← put_manager (mkManager (mg_live m) (mg_errors m) (mg_nextToken m) false true);
           if negb (mg_leaseUnlock m) then mret (Ok ()) else
           r ← ask (me_Unlock E) (fun _ => EvUnlock);
           mret (wrap_err "release mount manager lease" r.1)
       end) w
  end.

Definition list_status (m : Manager) (record : MountRecord) : MountStatus :=
  let live := mg_live m !! ID (rec_Spec record) in statusLocked m record live (bool_decide (is_Some live)).
Definition List_mounts : Mn (result (list MountStatus)) := fun w =>
  if mg_closed (mw_manager w) then (Err ErrManagerClosed, w) else
  (r ← in_registry (fun io _ => List_records io);
   m ← get_manager;
   then_ r (fun records => mret (Ok (map (list_status m) records)))) w.

(** ** The monitor of a session

    [<-done] returned; the rest runs under the operation gate. *)
Definition monitor (mo : monitor_t) (err : error) : Mn unit :=
  _ ← emit (EvEnded (mo_session mo));
  m ← get_manager;
  let id := mo_id mo in
  match mg_live m !! id with
  | None => mret ()
  | Some live =>
      if negb (bool_decide (lm_token live = mo_token mo)) || lm_expectedDone live then mret () else
      _ ← update (with_live <[id := set_detached (lm_expectedDone live) live]>);
      _ ← set_error id err;
      r ← close_both (lm_binding live) (lm_viewLease live);
      match r with
      | Ok _ => delete_current id (mo_token mo)
      | Err e =>
          m ← get_manager;
          match mg_live m !! id with
          | Some current => if bool_decide (lm_token current = mo_token mo) then set_error id (ErrorsJoin err e) else mret ()
          | None => mret ()
          end
      end
  end.
End Mount.
