(* ===== verification/MountRuns.v ===== *)
(** Ownership in the mount manager: what the platform holds along a trace, and
    the invariant that every session, writable binding and view lease is owned
    by exactly one entry. *)

From stdpp Require Import base decidable gmap strings list.
From Stdlib Require Import Ascii ZArith Lia.
From S2P Require Import Prelude GoText CidLib Durable Registry RegistryFacts Journal Cache Paths Staging Mount.

Section Platform.
Context {L : CidLib}.

(** ** The platform *)
Record attachment := mkAttach { at_spec : Spec; at_binding : option nat; at_lease : option nat }.

(** The attached sessions of this process, the mounts that an earlier process
    left behind, the open bindings, the held leases and the registry. *)
Record platform := mkPlatform {
  pf_attached : gmap nat attachment; pf_stale : gset string; pf_open : gset nat; pf_held : gset nat; pf_registry : registry_file
}.

Definition with_attached (f : gmap nat attachment -> gmap nat attachment) (p : platform) : platform :=
  mkPlatform (f (pf_attached p)) (pf_stale p) (pf_open p) (pf_held p) (pf_registry p).
Definition with_stale (f : gset string -> gset string) (p : platform) : platform :=
  mkPlatform (pf_attached p) (f (pf_stale p)) (pf_open p) (pf_held p) (pf_registry p).
Definition with_open (f : gset nat -> gset nat) (p : platform) : platform :=
  mkPlatform (pf_attached p) (pf_stale p) (f (pf_open p)) (pf_held p) (pf_registry p).
Definition with_held (f : gset nat -> gset nat) (p : platform) : platform :=
  mkPlatform (pf_attached p) (pf_stale p) (pf_open p) (f (pf_held p)) (pf_registry p).

Definition attached_ids (m : gmap nat attachment) : gset string :=
  list_to_set ((fun sa => ID (at_spec sa.2)) <$> map_to_list m).

(** The effect of an event at position [n], by the contract of the ports: a
    mount reconciles a stale mount of its specification, and a nil session owns
    no platform path; a process that stops leaves its sessions behind. *)
Definition observe (n : nat) (e : mevent) (p : platform) : platform :=
  match e with
  | EvRegistry f => mkPlatform (pf_attached p) (pf_stale p) (pf_open p) (pf_held p) f
  | EvAcquire _ true => with_held (fun h => {[n]} ∪ h) p
  | EvRelease l true => with_held (fun h => h ∖ {[l]}) p
  | EvBind _ _ true => with_open (fun o => {[n]} ∪ o) p
  | EvClose b true => with_open (fun o => o ∖ {[b]}) p
  | EvMount spec b l true => with_attached <[n := mkAttach spec b l]> (with_stale (fun s => s ∖ {[ID spec]}) p)
  | EvMount spec _ _ false => with_stale (fun s => s ∖ {[ID spec]}) p
  | EvUnmount s true | EvEnded s => with_attached (base.delete s) p
  | EvRecover spec true => with_stale (fun s => s ∖ {[ID spec]}) p
  | EvRestart => mkPlatform ∅ (attached_ids (pf_attached p) ∪ pf_stale p) ∅ ∅ (pf_registry p)
  | _ => p
  end.

Fixpoint platform_of (tr : list mevent) : platform :=
  match tr with
  | [] => mkPlatform ∅ ∅ ∅ ∅ None
  | e :: tr => observe (length tr) e (platform_of tr)
  end.

(** ** Safety *)
Definition opt_in (o : option nat) (X : gset nat) : Prop := forall x, o = Some x -> x ∈ X.

(** The registry loads; an attached session has a registry record of its specification, its
    writable binding is open, its view lease is held, and no other attached
    session has its identity. *)
Record safe (p : platform) : Prop := {
  safe_loads : loads (pf_registry p);
  safe_recorded : forall s a, pf_attached p !! s = Some a ->
    exists r, records (pf_registry p) !! ID (at_spec a) = Some r /\ rec_Spec r = at_spec a;
  safe_open : forall s a, pf_attached p !! s = Some a -> opt_in (at_binding a) (pf_open p);
  safe_held : forall s a, pf_attached p !! s = Some a -> opt_in (at_lease a) (pf_held p);
  safe_single : forall s1 s2 a1 a2, pf_attached p !! s1 = Some a1 -> pf_attached p !! s2 = Some a2 ->
    ID (at_spec a1) = ID (at_spec a2) -> s1 = s2
}.

(** At every moment of a trace. *)
Fixpoint safe_trace (tr : list mevent) : Prop :=
  match tr with [] => True | e :: tr' => safe (platform_of (e :: tr')) /\ safe_trace tr' end.

(** ** Ownership *)
Record holding := mkHold { h_session : option nat; h_binding : option nat; h_lease : option nat }.

Definition disjoint_options (o1 o2 : option nat) : Prop := forall x, o1 = Some x -> o2 <> Some x.
Definition disjoint_holdings (h1 h2 : holding) : Prop :=
  disjoint_options (h_session h1) (h_session h2) /\ disjoint_options (h_binding h1) (h_binding h2) /\
  disjoint_options (h_lease h1) (h_lease h2).

Definition opt_lt (o : option nat) (n : nat) : Prop := forall x, o = Some x -> x < n.

(** The objects of a holding were created before position [n]. *)
Definition below (n : nat) (h : holding) : Prop := opt_lt (h_session h) n /\ opt_lt (h_binding h) n /\ opt_lt (h_lease h) n.

Definition owned (own : gmap string holding) (get : holding -> option nat) (x : nat) : Prop :=
  exists id h, own !! id = Some h /\ get h = Some x.

Definition now_at (w : mworld) : platform := platform_of (mw_trace w).

Record Core (own : gmap string holding) (w : mworld) : Prop := {
  c_registry : pf_registry (now_at w) = mw_registry w;
  c_loads : loads (mw_registry w);
  c_att : forall s a, pf_attached (now_at w) !! s = Some a ->
    own !! ID (at_spec a) = Some (mkHold (Some s) (at_binding a) (at_lease a)) /\
    (forall x, at_binding a = Some x -> x ∉ mw_bindings w) /\ (forall x, at_lease a = Some x -> x ∉ mw_leases w) /\
    exists r, records (mw_registry w) !! ID (at_spec a) = Some r /\ rec_Spec r = at_spec a;
  c_open : forall b, b ∈ pf_open (now_at w) <-> b ∉ mw_bindings w /\ owned own h_binding b;
  c_held : forall l, l ∈ pf_held (now_at w) <-> l ∉ mw_leases w /\ owned own h_lease l;
  c_distinct : forall id1 id2 h1 h2, own !! id1 = Some h1 -> own !! id2 = Some h2 -> id1 <> id2 -> disjoint_holdings h1 h2;
  c_fresh : map_Forall (fun _ => below (here w)) own;
  c_fresh_closed : (forall b, b ∈ mw_bindings w -> b < here w) /\ (forall l, l ∈ mw_leases w -> l < here w)
}.

Lemma core_safe own w : Core own w -> safe (now_at w).
Proof.
  intros H. split.
  - rewrite (c_registry _ _ H). apply (c_loads _ _ H).
  - intros s a Ha. rewrite (c_registry _ _ H). by destruct (c_att _ _ H s a Ha) as (_ & _ & _ & ?).
  - intros s a Ha x Hx. destruct (c_att _ _ H s a Ha) as (Ho & Hb & _). apply (c_open _ _ H). split; [by apply Hb|].
    by exists (ID (at_spec a)), (mkHold (Some s) (at_binding a) (at_lease a)).
  - intros s a Ha x Hx. destruct (c_att _ _ H s a Ha) as (Ho & _ & Hb & _). apply (c_held _ _ H). split; [by apply Hb|].
    by exists (ID (at_spec a)), (mkHold (Some s) (at_binding a) (at_lease a)).
  - intros s1 s2 a1 a2 H1 H2 E. destruct (c_att _ _ H s1 a1 H1) as (O1 & _). destruct (c_att _ _ H s2 a2 H2) as (O2 & _).
    rewrite E in O1. congruence.
Qed.

Definition Inv (own : gmap string holding) (w : mworld) : Prop := Core own w /\ safe_trace (mw_trace w).

Lemma inv_event own w e tr : Core own w -> mw_trace w = e :: tr -> safe_trace tr -> Inv own w.
Proof. intros H E Ht. split; [done|]. rewrite E. cbn [safe_trace]. split; [|done]. rewrite <- E. by eapply core_safe. Qed.

(** A step that does not touch what the invariant reads. *)
Definition quietly (w w' : mworld) : Prop :=
  mw_registry w' = mw_registry w /\ mw_bindings w' = mw_bindings w /\ mw_leases w' = mw_leases w /\ mw_trace w' = mw_trace w.

Lemma inv_quiet own w w' : quietly w w' -> Inv own w -> Inv own w'.
Proof.
  intros (Er & Eb & El & Et) [[? ? ? ? ? ? ? ?] Hs]. unfold Inv. rewrite Et. split; [|done].
  split; unfold now_at, here in *; rewrite ?Er, ?Eb, ?El, ?Et; done.
Qed.

(** Events that change at most the stale mounts. *)
Definition silent (e : mevent) : bool :=
  match e with
  | EvSelect _ | EvAcquire _ false | EvRelease _ false | EvBind _ _ false | EvClose _ false | EvUnmount _ false
  | EvRecover _ _ | EvCloseFilesystem | EvUnlock | EvMount _ _ _ false => true
  | _ => false
  end.

Lemma silent_observe n e p : silent e = true ->
  pf_attached (observe n e p) = pf_attached p /\ pf_open (observe n e p) = pf_open p /\
  pf_held (observe n e p) = pf_held p /\ pf_registry (observe n e p) = pf_registry p.
Proof. destruct e as [| |? []|? []|? ? []|? []|? ? ? []|? []|? []| | | |]; by cbn. Qed.

Lemma opt_lt_le o n m : n <= m -> opt_lt o n -> opt_lt o m.
Proof. intros Hnm H x Hx. specialize (H x Hx). lia. Qed.

Lemma below_le h n m : n <= m -> below n h -> below m h.
Proof. intros Hle (? & ? & ?). split_and!; by eapply opt_lt_le. Qed.
Lemma fresh_le (own : gmap string holding) n m : n <= m -> map_Forall (fun _ => below n) own -> map_Forall (fun _ => below m) own.
Proof. intros Hle H id h Ho. eapply below_le; [exact Hle|by apply (H id)]. Qed.

Lemma inv_silent own w e : silent e = true -> Inv own w -> Inv own (emit e w).2.
Proof.
  intros He [H Hs]. destruct (silent_observe (here w) e (now_at w) He) as (E1 & E2 & E3 & E4). eapply inv_event; [|done|done].
  destruct H as [? ? ? ? ? ? Hf [Hb Hl]]. split; unfold now_at in *; cbn [emit snd mw_trace mw_registry mw_bindings mw_leases platform_of];
    unfold here in E1, E2, E3, E4; rewrite ?E1, ?E2, ?E3, ?E4; try done.
  - eapply fresh_le; [|exact Hf]. unfold here. cbn. lia.
  - unfold here in *. cbn. split; intros x Hx; [specialize (Hb x Hx)|specialize (Hl x Hx)]; lia.
Qed.

(** ** Changes of ownership *)
Lemma owned_same own get id h h' x :
  own !! id = Some h -> get h' = get h -> owned (<[id := h']> own) get x <-> owned own get x.
Proof.
  intros Ho E. split; intros (i & g & Hg & Ex).
  - apply lookup_insert_Some in Hg as [[<- <-]|[_ Hg]]; [exists id, h; by rewrite <- E|by exists i, g].
  - destruct (decide (i = id)) as [->|Hne]; [|exists i, g; by rewrite lookup_insert_ne].
    exists id, h'. rewrite lookup_insert_eq. split; [done|]. rewrite E. congruence.
Qed.

Lemma owned_add own get id h h' n x :
  own !! id = Some h -> get h = None -> get h' = Some n -> owned (<[id := h']> own) get x <-> x = n \/ owned own get x.
Proof.
  intros Ho E E'. split.
  - intros (i & g & Hg & Ex). apply lookup_insert_Some in Hg as [[<- <-]|[_ Hg]]; [left; congruence|right; by exists i, g].
  - intros [->|(i & g & Hg & Ex)]; [exists id, h'; by rewrite lookup_insert_eq|].
    exists i, g. rewrite lookup_insert_ne; [done|]. intros ->. congruence.
Qed.

Definition distinct (own : gmap string holding) : Prop :=
  forall id1 id2 h1 h2, own !! id1 = Some h1 -> own !! id2 = Some h2 -> id1 <> id2 -> disjoint_holdings h1 h2.

Lemma disjoint_options_sym o1 o2 : disjoint_options o1 o2 -> disjoint_options o2 o1.
Proof. intros H x E2 E1. by apply (H x). Qed.
Lemma disjoint_sym h1 h2 : disjoint_holdings h1 h2 -> disjoint_holdings h2 h1.
Proof. intros (? & ? & ?). split_and!; by apply disjoint_options_sym. Qed.

Lemma distinct_insert own id h :
  distinct own -> (forall id2 h2, own !! id2 = Some h2 -> id2 <> id -> disjoint_holdings h h2) -> distinct (<[id := h]> own).
Proof.
  intros Hd Hn id1 id2 h1 h2 H1 H2 Hne.
  apply lookup_insert_Some in H1 as [[<- <-]|[? H1]], H2 as [[<- <-]|[? H2]]; [done|by eapply Hn| |by eapply Hd].
  apply disjoint_sym. by eapply Hn.
Qed.

Lemma disjoint_none o : disjoint_options None o.
Proof. by intros x ?. Qed.
Lemma disjoint_new o n : opt_lt o n -> disjoint_options (Some n) o.
Proof. intros H x [= <-] E. specialize (H n E). lia. Qed.

(** An entry without a session has none attached. *)
Lemma att_other own w s a id h :
  Core own w -> pf_attached (now_at w) !! s = Some a -> own !! id = Some h -> h_session h <> Some s -> ID (at_spec a) <> id.
Proof. intros H Ha Ho Hn <-. destruct (c_att _ _ H s a Ha) as (E & _). rewrite Ho in E. injection E as ->. by apply Hn. Qed.

(** ** The events *)
Section Events.
Context (own : gmap string holding) (w : mworld) (H : Inv own w).

#[local] Ltac enter_event :=
  destruct H as [Hc Hs]; eapply inv_event; [|reflexivity|exact Hs]; pose proof Hc as [Hr Hl Ha Ho Hh Hd Hf [Hfb Hfl]];
  split; unfold now_at in *; cbn [emit snd mw_trace mw_registry mw_bindings mw_leases platform_of observe
    with_attached with_open with_held with_stale pf_attached pf_open pf_held pf_registry pf_stale closed_binding closed_lease]; try done.
#[local] Ltac later_here := unfold here in *; cbn [mw_trace emit snd length closed_binding closed_lease].

(** A session of an entry ends; the entry lets it go. *)
Lemma inv_detach id h s e :
  own !! id = Some h -> (h_session h = Some s \/ h_session h = None) -> e = EvUnmount s true \/ e = EvEnded s ->
  Inv (<[id := mkHold None (h_binding h) (h_lease h)]> own) (emit e w).2.
Proof.
  intros Hid Hses He. enter_event.
  - by destruct He as [-> | ->].
  - intros s' a Hs'. assert (s' <> s /\ pf_attached (platform_of (mw_trace w)) !! s' = Some a) as [Hne Hs1].
    { destruct He as [-> | ->]; cbn in Hs'; apply lookup_delete_Some in Hs' as [? ?]; (split; [congruence|done]). }
    rewrite lookup_insert_ne; [by apply Ha|]. intros E. symmetry in E. revert E.
    eapply att_other; [exact Hc|exact Hs1|exact Hid|]. destruct Hses as [-> | ->]; congruence.
  - intros b. rewrite (owned_same _ h_binding id h) by done. rewrite <- Ho. by destruct He as [-> | ->].
  - intros l. rewrite (owned_same _ h_lease id h) by done. rewrite <- Hh. by destruct He as [-> | ->].
  - apply distinct_insert; [exact Hd|]. intros id2 h2 H2 Hne. destruct (Hd id id2 h h2) as (_ & ? & ?); [done..|by intros ->|].
    split_and!; [apply disjoint_none|done|done].
  - later_here. apply map_Forall_insert_2; [|eapply fresh_le; [|exact Hf]; lia].
    destruct (Hf id h Hid) as (_ & Hb & Hle). split_and!; [by intros ? ?|by eapply opt_lt_le; [|exact Hb]; lia|by eapply opt_lt_le; [|exact Hle]; lia].
  - later_here. split; intros x Hx; [specialize (Hfb x Hx)|specialize (Hfl x Hx)]; lia.
Qed.

(** A session that is not attached, or whose entry is gone, ends. *)
Lemma inv_ended s : Inv own (emit (EvEnded s) w).2.
Proof.
  enter_event.
  - intros s' a [_ Hs1]%lookup_delete_Some. by apply Ha.
  - later_here. eapply fresh_le; [|exact Hf]. lia.
  - later_here. split; intros x Hx; [specialize (Hfb x Hx)|specialize (Hfl x Hx)]; lia.
Qed.

(** An entry without a session closes its binding. *)
Lemma inv_close id h b :
  own !! id = Some h -> h_session h = None -> h_binding h = Some b ->
  Inv own (closed_binding b (emit (EvClose b true) w).2).2.
Proof.
  intros Hid Hses Hb. enter_event.
  - intros s a Hs1. destruct (Ha s a Hs1) as (E & Hx & Hy & Hz). split_and!; try done. intros x Ex Hin.
    apply elem_of_union in Hin as [->%elem_of_singleton|Hin]; [|by apply (Hx x)].
    assert (ID (at_spec a) <> id) as Hne by (eapply att_other; [exact Hc|exact Hs1|exact Hid|congruence]).
    destruct (Hd _ _ _ _ E Hid Hne) as (_ & Hdis & _). by apply (Hdis b).
  - intros b'. rewrite elem_of_difference, Ho. set_solver.
  - later_here. eapply fresh_le; [|exact Hf]. lia.
  - later_here. split; intros x Hx; [|specialize (Hfl x Hx); lia].
    apply elem_of_union in Hx as [->%elem_of_singleton|Hx]; [|specialize (Hfb x Hx); lia].
    destruct (Hf id h Hid) as (_ & Hlt & _). specialize (Hlt b Hb). lia.
Qed.

Lemma inv_release id h l :
  own !! id = Some h -> h_session h = None -> h_lease h = Some l ->
  Inv own (closed_lease l (emit (EvRelease l true) w).2).2.
Proof.
  intros Hid Hses Hb. enter_event.
  - intros s a Hs1. destruct (Ha s a Hs1) as (E & Hx & Hy & Hz). split_and!; try done. intros x Ex Hin.
    apply elem_of_union in Hin as [->%elem_of_singleton|Hin]; [|by apply (Hy x)].
    assert (ID (at_spec a) <> id) as Hne by (eapply att_other; [exact Hc|exact Hs1|exact Hid|congruence]).
    destruct (Hd _ _ _ _ E Hid Hne) as (_ & _ & Hdis). by apply (Hdis l).
  - intros l'. rewrite elem_of_difference, Hh. set_solver.
  - later_here. eapply fresh_le; [|exact Hf]. lia.
  - later_here. split; intros x Hx; [specialize (Hfb x Hx); lia|].
    apply elem_of_union in Hx as [->%elem_of_singleton|Hx]; [|specialize (Hfl x Hx); lia].
    destruct (Hf id h Hid) as (_ & _ & Hlt). specialize (Hlt l Hb). lia.
Qed.

Lemma distinct_fresh id h h' :
  distinct own -> map_Forall (fun _ => below (here w)) own -> own !! id = Some h ->
  (h_session h' = h_session h \/ h_session h' = Some (here w)) -> (h_binding h' = h_binding h \/ h_binding h' = Some (here w)) ->
  (h_lease h' = h_lease h \/ h_lease h' = Some (here w)) -> distinct (<[id := h']> own).
Proof.
  intros Hd Hf Hid E1 E2 E3. apply distinct_insert; [done|]. intros id2 h2 H2 Hne.
  destruct (Hd id id2 h h2) as (D1 & D2 & D3); [done..|by intros ->|]. destruct (Hf id2 h2 H2) as (F1 & F2 & F3).
  split_and!; [destruct E1 as [-> | ->]|destruct E2 as [-> | ->]|destruct E3 as [-> | ->]]; done || by apply disjoint_new.
Qed.

(** An entry without a session takes a lease, a binding, a session. *)
Lemma inv_acquire id h view :
  own !! id = Some h -> h_session h = None -> h_lease h = None ->
  Inv (<[id := mkHold None (h_binding h) (Some (here w))]> own) (emit (EvAcquire view true) w).2.
Proof.
  intros Hid Hses Hle. enter_event.
  - intros s a Hs1. rewrite lookup_insert_ne; [by apply Ha|]. intros E. symmetry in E. revert E.
    eapply att_other; [exact Hc|exact Hs1|exact Hid|congruence].
  - intros b. rewrite (owned_same _ h_binding id h) by done. apply Ho.
  - intros l. rewrite (owned_add _ h_lease id h _ (here w)) by done. rewrite elem_of_union, elem_of_singleton, Hh.
    assert (here w ∉ mw_leases w) by (intros Hin; specialize (Hfl _ Hin); lia). unfold here in *. naive_solver.
  - eapply distinct_fresh; [exact Hd|exact Hf|exact Hid|by left|by left|by right].
  - later_here. apply map_Forall_insert_2; [|eapply fresh_le; [|exact Hf]; lia].
    destruct (Hf id h Hid) as (_ & Hb & _). split_and!; [by intros ? ?|by eapply opt_lt_le; [|exact Hb]; lia|]. intros x [= <-]. lia.
  - later_here. split; intros x Hx; [specialize (Hfb x Hx)|specialize (Hfl x Hx)]; lia.
Qed.

Lemma inv_bind id h spec view :
  own !! id = Some h -> h_session h = None -> h_binding h = None ->
  Inv (<[id := mkHold None (Some (here w)) (h_lease h)]> own) (emit (EvBind spec view true) w).2.
Proof.
  intros Hid Hses Hle. enter_event.
  - intros s a Hs1. rewrite lookup_insert_ne; [by apply Ha|]. intros E. symmetry in E. revert E.
    eapply att_other; [exact Hc|exact Hs1|exact Hid|congruence].
  - intros b. rewrite (owned_add _ h_binding id h _ (here w)) by done. rewrite elem_of_union, elem_of_singleton, Ho.
    assert (here w ∉ mw_bindings w) by (intros Hin; specialize (Hfb _ Hin); lia). unfold here in *. naive_solver.
  - intros l. rewrite (owned_same _ h_lease id h) by done. apply Hh.
  - eapply distinct_fresh; [exact Hd|exact Hf|exact Hid|by left|by right|by left].
  - later_here. apply map_Forall_insert_2; [|eapply fresh_le; [|exact Hf]; lia].
    destruct (Hf id h Hid) as (_ & _ & Hb). split_and!; [by intros ? ?| |by eapply opt_lt_le; [|exact Hb]; lia]. intros x [= <-]. lia.
  - later_here. split; intros x Hx; [specialize (Hfb x Hx)|specialize (Hfl x Hx)]; lia.
Qed.

Lemma inv_mount spec h r :
  own !! ID spec = Some h -> h_session h = None ->
  (forall x, h_binding h = Some x -> x ∉ mw_bindings w) -> (forall x, h_lease h = Some x -> x ∉ mw_leases w) ->
  records (mw_registry w) !! ID spec = Some r -> rec_Spec r = spec ->
  Inv (<[ID spec := mkHold (Some (here w)) (h_binding h) (h_lease h)]> own) (emit (EvMount spec (h_binding h) (h_lease h) true) w).2.
Proof.
  intros Hid Hses Hnb Hnl Hrec Hspec. enter_event.
  - intros s a [[<- <-]|[Hne Hs1]]%lookup_insert_Some.
    + cbn. rewrite lookup_insert_eq. split_and!; [done|done|done|]. by exists r.
    + rewrite lookup_insert_ne; [by apply Ha|]. intros E. symmetry in E. revert E.
      eapply att_other; [exact Hc|exact Hs1|exact Hid|congruence].
  - intros b. rewrite (owned_same _ h_binding _ h) by done. apply Ho.
  - intros l. rewrite (owned_same _ h_lease _ h) by done. apply Hh.
  - eapply distinct_fresh; [exact Hd|exact Hf|exact Hid|by right|by left|by left].
  - later_here. apply map_Forall_insert_2; [|eapply fresh_le; [|exact Hf]; lia].
    destruct (Hf _ h Hid) as (_ & Hb & Hle). split_and!; [intros x [= <-]; lia|by eapply opt_lt_le; [|exact Hb]; lia|by eapply opt_lt_le; [|exact Hle]; lia].
  - later_here. split; intros x Hx; [specialize (Hfb x Hx)|specialize (Hfl x Hx)]; lia.
Qed.

(** The registry changes and keeps the records of attached sessions. *)
Lemma inv_registry f :
  loads f ->
  (forall s a r, pf_attached (now_at w) !! s = Some a -> records (mw_registry w) !! ID (at_spec a) = Some r ->
     exists r', records f !! ID (at_spec a) = Some r' /\ rec_Spec r' = rec_Spec r) ->
  Inv own (mkMw f (mw_manager w) (mw_bindings w) (mw_leases w) (mw_monitors w) (EvRegistry f :: mw_trace w)).
Proof.
  intros Hlf Hk. enter_event.
  - intros s a Hs1. destruct (Ha s a Hs1) as (E & Hx & Hy & r & Hrec & Hspec). split_and!; try done.
    destruct (Hk s a r Hs1 Hrec) as (r' & Hr' & E'). exists r'. split; [done|]. congruence.
  - later_here. eapply fresh_le; [|exact Hf]. lia.
  - later_here. split; intros x Hx; [specialize (Hfb x Hx)|specialize (Hfl x Hx)]; lia.
Qed.

(** An empty entry may be added, and an entry that holds nothing dropped. *)
Lemma inv_claim id : own !! id = None -> Inv (<[id := mkHold None None None]> own) w.
Proof.
  intros Hn. destruct H as [[Hr Hl Ha Ho Hh Hd Hf Hfc] Hs]. split; [|done].
  assert (forall get x, get (mkHold None None None) = None -> owned (<[id := mkHold None None None]> own) get x <-> owned own get x) as Hown.
  { intros get x Hg. split; intros (i & g & Hi & Ex); exists i, g; (split; [|done]).
    - apply lookup_insert_Some in Hi as [[_ <-]|[_ Hi]]; [congruence|done].
    - rewrite lookup_insert_ne; [done|]. intros ->. congruence. }
  split; try done.
  - intros s a Hs1. destruct (Ha s a Hs1) as (E & ?). rewrite lookup_insert_ne; [done|]. intros ->. congruence.
  - intros b. rewrite Hown by done. apply Ho.
  - intros l. rewrite Hown by done. apply Hh.
  - apply distinct_insert; [exact Hd|]. intros id2 h2 _ _. split_and!; apply disjoint_none.
  - apply map_Forall_insert_2; [|done]. by split_and!; intros ? ?.
Qed.

Definition holds_nothing (h : holding) : Prop :=
  h_session h = None /\ opt_in (h_binding h) (mw_bindings w) /\ opt_in (h_lease h) (mw_leases w).

Lemma inv_forget id h : own !! id = Some h -> holds_nothing h -> Inv (base.delete id own) w.
Proof.
  intros Hid (Hn & Hb & Hle). destruct H as [Hc Hs]. split; [|done]. pose proof Hc as [Hr Hl Ha Ho Hh Hd Hf Hfc].
  assert (forall get x, (get h = Some x -> False) -> owned (base.delete id own) get x <-> owned own get x) as Hown.
  { intros get x Hg. split; intros (i & g & Hi & Ex); exists i, g; (split; [|done]).
    - by apply lookup_delete_Some in Hi as [_ Hi].
    - rewrite lookup_delete_ne; [done|]. intros ->. apply Hg. congruence. }
  split; try done.
  - intros s a Hs1. destruct (Ha s a Hs1) as (E & Hrest). rewrite lookup_delete_ne; [done|]. intros ->.
    rewrite Hid in E. injection E as ->. done.
  - intros b. rewrite Ho. destruct (decide (b ∈ mw_bindings w)) as [|Hnb]; [naive_solver|]. rewrite Hown; [done|]. intros E. by apply Hnb, Hb.
  - intros l. rewrite Hh. destruct (decide (l ∈ mw_leases w)) as [|Hnl]; [naive_solver|]. rewrite Hown; [done|]. intros E. by apply Hnl, Hle.
  - intros id1 id2 h1 h2 [_ H1]%lookup_delete_Some [_ H2]%lookup_delete_Some. by eapply Hd.
  - by apply map_Forall_delete.
Qed.
End Events.
End Platform.

(** * The operations of the mount manager keep the ownership invariant. *)

Create HintDb mount.

(** ** Traces grow *)
Section Growth.
Context {L : CidLib}.

Definition extends (w w' : mworld) : Prop := exists t, mw_trace w' = t ++ mw_trace w.
#[global] Instance extends_refl : Reflexive extends.
Proof. intros w. by exists []. Qed.
#[global] Instance extends_trans : Transitive extends.
Proof. intros w1 w2 w3 [t1 E1] [t2 E2]. exists (t2 ++ t1). by rewrite E2, E1, app_assoc. Qed.

Definition mono {A} (m : Mn A) : Prop := forall w, extends w (m w).2.

Lemma mono_ret {A} (a : A) : mono (mret a).
Proof. intros w. reflexivity. Qed.
Lemma mono_bind {A B} (m : Mn A) (f : A -> Mn B) : mono m -> (forall a, mono (f a)) -> mono (m ≫= f).
Proof.
  intros Hm Hf w. unfold mbind, Mn_bind. specialize (Hm w). destruct (m w) as [a w']. etransitivity; [exact Hm|apply Hf].
Qed.
Lemma mono_emit e : mono (emit e).
Proof. intros w. by exists [e]. Qed.
Lemma mono_same {A} (m : Mn A) : (forall w, mw_trace (m w).2 = mw_trace w) -> mono m.
Proof. intros H w. by exists []. Qed.
Lemma mono_update f : mono (update f).
Proof. by apply mono_same. Qed.
Lemma mono_get : mono get_manager.
Proof. by apply mono_same. Qed.
Lemma mono_put m : mono (put_manager m).
Proof. by apply mono_same. Qed.
Lemma mono_spawn mo : mono (spawn mo).
Proof. by apply mono_same. Qed.
Lemma mono_closed_binding b : mono (closed_binding b).
Proof. by apply mono_same. Qed.
Lemma mono_closed_lease l : mono (closed_lease l).
Proof. by apply mono_same. Qed.
Lemma mono_ask {A} (answer : nat -> A) e : mono (ask answer e).
Proof. intros w. by eexists [_]. Qed.
Lemma mono_then {A B} (r : result A) (f : A -> Mn (result B)) : (forall a, mono (f a)) -> mono (then_ r f).
Proof. intros H. destruct r; [apply H|apply mono_ret]. Qed.
Lemma mono_at {A} (m : Mn A) w : mono m -> extends w (m w).2.
Proof. intros H. apply H. Qed.
Lemma mono_in_registry E {A} (op : io -> time -> registry_file -> result A * registry_file) : mono (in_registry E op).
Proof. intros w. unfold in_registry. destruct (op _ _ _). by eexists [_]. Qed.
End Growth.
#[export] Hint Resolve mono_ret mono_emit mono_update mono_get mono_put mono_spawn mono_closed_binding mono_closed_lease
  mono_ask mono_in_registry : mount.

(** Decompose a program into its calls. *)
Ltac mono_step :=
  match goal with
  | |- mono (mbind _ _) => apply mono_bind; [|intros ?]
  | |- mono (then_ _ _) => apply mono_then; intros ?
  | |- mono (let '(_, _) := ?x in _) => destruct x
  | |- mono (match ?x with _ => _ end) => destruct x
  | |- mono _ => solve [eauto with mount nocore]
  end.
Ltac solve_mono := repeat mono_step.

Section GrowthOps.
Context {L : CidLib} (E : menv).
Lemma mono_set_error id e : mono (set_error id e).
Proof. apply mono_update. Qed.
Lemma mono_clear_error id : mono (clear_error id).
Proof. apply mono_update. Qed.
Lemma mono_if_current token f id : mono (if_current token f id).
Proof. apply mono_update. Qed.
Lemma mono_delete_current id token : mono (delete_current id token).
Proof. apply mono_update. Qed.
Hint Resolve mono_set_error mono_clear_error mono_if_current mono_delete_current : mount.
Lemma mono_unmount s : mono (session_Unmount E s).
Proof. unfold session_Unmount. solve_mono. Qed.
Lemma mono_recover spec : mono (RecoverUnmount E spec).
Proof. unfold RecoverUnmount. solve_mono. Qed.
Lemma mono_binding_close b : mono (binding_close E b).
Proof.
  unfold binding_close. destruct b as [b|]; [|apply mono_ret].
  intros w. case_bool_decide; [reflexivity|]. apply mono_at. solve_mono.
Qed.
Lemma mono_lease_close l : mono (lease_close E l).
Proof.
  unfold lease_close. destruct l as [l|]; [|apply mono_ret].
  intros w. case_bool_decide; [reflexivity|]. apply mono_at. solve_mono.
Qed.
Hint Resolve mono_unmount mono_recover mono_binding_close mono_lease_close : mount.
Lemma mono_close_both b l : mono (close_both E b l).
Proof. unfold close_both. solve_mono. Qed.
Lemma mono_retain id view s d b l n : mono (retainCleanup id view s d b l n).
Proof. unfold retainCleanup, next_token. solve_mono. Qed.
Hint Resolve mono_close_both mono_retain : mount.
Lemma mono_cleanup id live : mono (cleanupLive E id live).
Proof. unfold cleanupLive, markSessionDoneExpected, markDetached. solve_mono. Qed.
Lemma mono_rollback_close id view s d b l : mono (rollback_close E id view s d b l).
Proof. unfold rollback_close. solve_mono. Qed.
Hint Resolve mono_rollback_close : mount.
Lemma mono_rollback id view s d b l : mono (rollbackFailedMount E id view s d b l).
Proof. unfold rollbackFailedMount. solve_mono. Qed.
Lemma mono_failed record view e : mono (failed E record view e).
Proof. unfold failed, failureStatus. solve_mono. Qed.
Hint Resolve mono_cleanup mono_rollback mono_failed : mount.
Lemma mono_mount_fresh record : mono (mount_fresh E record).
Proof. unfold mount_fresh, selectView, acquireViewLease, bindWritable, attach, install_live, next_token. solve_mono. Qed.
Hint Resolve mono_mount_fresh : mount.
Lemma mono_mount spec : mono (mount E spec).
Proof. unfold mount. solve_mono. Qed.
Hint Resolve mono_mount : mount.
Lemma mono_restore_tombstones records : mono (restore_tombstones E records).
Proof. induction records; cbn [restore_tombstones]; solve_mono. Qed.
Lemma mono_restore_desired records : mono (restore_desired E records).
Proof. induction records; cbn [restore_desired]; solve_mono. Qed.
Lemma mono_shutdown_each live : mono (shutdown_each E live).
Proof. induction live; cbn [shutdown_each]; solve_mono. Qed.
End GrowthOps.

(** Run the calls of a program. *)
Ltac run_in H := unfold then_, mbind, Mn_bind, mret, Mn_ret, ask in H; cbn in H.

(** ** Between and within operations *)
Section Good.
Context {L : CidLib} (E : menv).

Definition holding_of (lm : liveMount) : holding :=
  mkHold (if lm_needsUnmount lm then lm_session lm else None) (lm_binding lm) (lm_viewLease lm).
Definition owners (w : mworld) : gmap string holding := holding_of <$> mg_live (mw_manager w).

(** The monitors refer to the sessions of their tokens. *)
Record Tok (w : mworld) : Prop := {
  tk_live : map_Forall (fun _ lm => (lm_token lm < mg_nextToken (mw_manager w))%N) (mg_live (mw_manager w));
  tk_mon : Forall (fun mo => (mo_token mo < mg_nextToken (mw_manager w))%N /\
      forall lm, mg_live (mw_manager w) !! mo_id mo = Some lm -> lm_token lm = mo_token mo -> lm_session lm = Some (mo_session mo))
    (mw_monitors w);
  tk_next : (mg_nextToken (mw_manager w) <= N.of_nat (here w) + 1)%N
}.
Definition slack (w : mworld) : Prop := (mg_nextToken (mw_manager w) <= N.of_nat (here w))%N.
(** Fewer than 2^64 calls so far. *)
Definition roomy (w : mworld) : Prop := (N.of_nat (here w) + 2 < two64)%N.

Record Good (w : mworld) : Prop := { g_inv : Inv (owners w) w; g_tok : Tok w }.

(** An operation holds [h] for an identity that has no live mount. *)
Record Inflight (id : string) (h : holding) (w : mworld) : Prop := {
  if_none : mg_live (mw_manager w) !! id = None;
  if_inv : Inv (<[id := h]> (owners w)) w;
  if_tok : Tok w;
  if_slack : slack w
}.

Lemma extends_here w w' : extends w w' -> here w <= here w'.
Proof. intros [t Et]. unfold here. rewrite Et, length_app. lia. Qed.
Lemma roomy_before w w' : extends w w' -> roomy w' -> roomy w.
Proof. intros H%extends_here. unfold roomy. lia. Qed.

(** Calls that touch only the flags and the trace. *)
Record frame (w w' : mworld) : Prop := {
  fr_registry : mw_registry w' = mw_registry w;
  fr_manager : mw_manager w' = mw_manager w;
  fr_monitors : mw_monitors w' = mw_monitors w;
  fr_trace : extends w w';
  fr_bindings : mw_bindings w ⊆ mw_bindings w';
  fr_leases : mw_leases w ⊆ mw_leases w'
}.
#[global] Instance frame_refl : Reflexive frame.
Proof. intros w. by split. Qed.
#[global] Instance frame_trans : Transitive frame.
Proof. intros w1 w2 w3 [? ? ? ? ? ?] [? ? ? ? ? ?]. split; try congruence; [by etransitivity|set_solver|set_solver]. Qed.

Lemma frame_emit e w : frame w (emit e w).2.
Proof. split; try done. by exists [e]. Qed.
Lemma frame_owners w w' : frame w w' -> owners w' = owners w.
Proof. intros H. unfold owners. by rewrite (fr_manager _ _ H). Qed.
Lemma tok_frame w w' : frame w w' -> Tok w -> Tok w'.
Proof.
  intros [_ Em Eo Ht _ _] [? ? ?]. apply extends_here in Ht. split; rewrite ?Em, ?Eo; try done. lia.
Qed.
Lemma slack_frame w w' : frame w w' -> slack w -> slack w'.
Proof. intros [_ Em _ Ht _ _]. apply extends_here in Ht. unfold slack. rewrite Em. lia. Qed.

Lemma inflight_frame id h h' w w' :
  frame w w' -> Inv (<[id := h']> (owners w)) w' -> Inflight id h w -> Inflight id h' w'.
Proof.
  intros Hf Hi [Hn _ Ht Hs]. split; [by rewrite (fr_manager _ _ Hf)|by rewrite (frame_owners _ _ Hf)|by eapply tok_frame|by eapply slack_frame].
Qed.

(** ** Closing *)
Lemma binding_close_inv own w id h r w' :
  Inv own w -> own !! id = Some h -> h_session h = None -> binding_close E (h_binding h) w = (r, w') ->
  Inv own w' /\ frame w w' /\ (is_ok r = true -> opt_in (h_binding h) (mw_bindings w')).
Proof.
  intros Hi Hid Hs H. unfold binding_close in H. destruct (h_binding h) as [b|] eqn:Eb.
  - case_bool_decide as Hin; [simplify_eq; split_and!; [done|reflexivity|by intros _ x [= <-]]|].
    run_in H. destruct (me_Close E (here w)) as [[]|e]; cbn in H; simplify_eq; cbn.
    + split_and!; [by eapply inv_close| |by intros _ x [= <-]; set_solver].
      split; cbn; try done; [by eexists [_]|set_solver].
    + split_and!; [by apply (inv_silent own w)|apply (frame_emit (EvClose b false))|done].
  - run_in H. simplify_eq. split_and!; [done|reflexivity|by intros _ x ?].
Qed.

Lemma lease_close_inv own w id h r w' :
  Inv own w -> own !! id = Some h -> h_session h = None -> lease_close E (h_lease h) w = (r, w') ->
  Inv own w' /\ frame w w' /\ (is_ok r = true -> opt_in (h_lease h) (mw_leases w')).
Proof.
  intros Hi Hid Hs H. unfold lease_close in H. destruct (h_lease h) as [l|] eqn:El.
  - case_bool_decide as Hin; [simplify_eq; split_and!; [done|reflexivity|by intros _ x [= <-]]|].
    run_in H. destruct (me_ReleaseView E (here w)) as [[]|e]; cbn in H; simplify_eq; cbn.
    + split_and!; [by eapply inv_release| |by intros _ x [= <-]; set_solver].
      split; cbn; try done; [by eexists [_]|set_solver].
    + split_and!; [by apply (inv_silent own w)|apply (frame_emit (EvRelease l false))|done].
  - run_in H. simplify_eq. split_and!; [done|reflexivity|by intros _ x ?].
Qed.

Lemma close_both_inv own w id h r w' :
  Inv own w -> own !! id = Some h -> h_session h = None -> close_both E (h_binding h) (h_lease h) w = (r, w') ->
  Inv own w' /\ frame w w' /\ (is_ok r = true -> holds_nothing w' h).
Proof.
  intros Hi Hid Hs H. unfold close_both, mbind, Mn_bind in H. destruct (binding_close E (h_binding h) w) as [r1 w1] eqn:E1.
  destruct (binding_close_inv _ _ _ _ _ _ Hi Hid Hs E1) as (Hi1 & Hf1 & Hb). destruct r1 as [[]|e]; run_in H; [|simplify_eq; by split_and!].
  destruct (lease_close_inv _ _ _ _ _ _ Hi1 Hid Hs H) as (Hi2 & Hf2 & Hl). split_and!; [done|by etransitivity|].
  intros Hok. split_and!; [done| |by apply Hl]. intros x Hx. apply (fr_bindings _ _ Hf2). by apply Hb.
Qed.

Lemma unmount_inv own w id h s r w' :
  Inv own w -> own !! id = Some h -> (h_session h = Some s \/ h_session h = None) -> session_Unmount E s w = (r, w') ->
  frame w w' /\ if is_ok r then Inv (<[id := mkHold None (h_binding h) (h_lease h)]> own) w' else Inv own w'.
Proof.
  intros Hi Hid Hs H. unfold session_Unmount in H. run_in H. destruct (me_Unmount E (here w)) as [[]|e]; cbn in H; simplify_eq; cbn.
  - split; [apply (frame_emit (EvUnmount s true))|]. by apply (inv_detach _ _ Hi _ _ s (EvUnmount s true) Hid Hs (or_introl eq_refl)).
  - split; [apply (frame_emit (EvUnmount s false))|]. by apply (inv_silent own w).
Qed.

(** ** Live entries *)
Lemma tok_insert w id lm :
  Tok w -> (lm_token lm < mg_nextToken (mw_manager w))%N ->
  (forall mo, mo ∈ mw_monitors w -> mo_id mo = id -> lm_token lm = mo_token mo -> lm_session lm = Some (mo_session mo)) ->
  Tok (update (with_live <[id := lm]>) w).2.
Proof.
  intros [Hl Hm Hn] Hlt Hmo. split; cbn; [by apply map_Forall_insert_2| |done]. rewrite Forall_forall in *. intros mo Hin.
  destruct (Hm mo Hin) as [Hlt' Hs]. split; [done|]. intros lm' [[Eid <-]|[_ H]]%lookup_insert_Some; [by apply Hmo|by apply Hs].
Qed.

Lemma tok_delete w f : (forall m, f m ⊆ m) -> Tok w -> Tok (update (with_live f) w).2.
Proof.
  intros Hf [Hl Hm Hn]. specialize (Hf (mg_live (mw_manager w))). split; cbn; [| |done].
  - intros id lm H. apply (Hl id). by eapply lookup_weaken.
  - eapply Forall_impl; [exact Hm|]. intros mo [Hlt' Hs]. split; [done|]. intros lm H. apply Hs. by eapply lookup_weaken.
Qed.

Lemma tok_errors w f : Tok w -> Tok (update (with_errors f) w).2.
Proof. intros [? ? ?]. by split. Qed.
Lemma good_errors w f : Good w -> Good (update (with_errors f) w).2.
Proof. intros [Hi Ht]. split; [by eapply inv_quiet; [|exact Hi]|by apply tok_errors]. Qed.

(** A live mount is replaced by one with the same session and token. *)
Lemma good_update w id lm lm' :
  Tok w -> mg_live (mw_manager w) !! id = Some lm -> lm_token lm' = lm_token lm -> lm_session lm' = lm_session lm ->
  Inv (<[id := holding_of lm']> (owners w)) w -> Good (update (with_live <[id := lm']>) w).2.
Proof.
  intros Ht Hl Et Es Hi. split.
  - unfold owners. cbn. rewrite fmap_insert. by eapply inv_quiet; [|exact Hi].
  - apply tok_insert; [done|rewrite Et; by apply (tk_live _ Ht id)|]. intros mo Hin <- E1. rewrite Es.
    pose proof (tk_mon _ Ht) as Hm. rewrite Forall_forall in Hm. destruct (Hm mo Hin) as [_ Hs]. apply Hs; [done|congruence].
Qed.

Lemma if_current_self w id lm f :
  mg_live (mw_manager w) !! id = Some lm -> (if_current (lm_token lm) f id w) = update (with_live <[id := f lm]>) w.
Proof.
  intros Hl. unfold if_current, update, mbind, Mn_bind, get_manager, put_manager, with_live. rewrite Hl.
  by rewrite bool_decide_eq_true_2.
Qed.

Lemma owners_lookup w id lm : mg_live (mw_manager w) !! id = Some lm -> owners w !! id = Some (holding_of lm).
Proof. intros H. unfold owners. by rewrite lookup_fmap, H. Qed.

Lemma good_expected w id lm b :
  Good w -> mg_live (mw_manager w) !! id = Some lm -> Good (update (with_live <[id := set_expected b lm]>) w).2.
Proof.
  intros [Hi Ht] Hl. eapply good_update; [done|done|done|done|]. change (holding_of (set_expected b lm)) with (holding_of lm).
  rewrite insert_id; [done|by apply owners_lookup].
Qed.
End Good.

(** * Mount, unmount, restore, shutdown and the monitors keep the ownership
    invariant, whatever the environment answers. *)

Section Runs.
Context {L : CidLib} (E : menv).

(** ** Cleanup of a live mount *)

(** The live mounts of [w'] are those of [w] with [id] replaced. *)
Record replaced (id : string) (lm' : liveMount) (w w' : mworld) : Prop := {
  re_registry : mw_registry w' = mw_registry w;
  re_live : mg_live (mw_manager w') = <[id := lm']> (mg_live (mw_manager w));
  re_next : mg_nextToken (mw_manager w') = mg_nextToken (mw_manager w);
  re_closed : mg_closed (mw_manager w') = mg_closed (mw_manager w);
  re_trace : extends w w'
}.

Lemma replaced_frame id lm w w1 w2 : replaced id lm w w1 -> frame w1 w2 -> replaced id lm w w2.
Proof.
  intros [? ? ? ? ?] [Er Em _ Ht _ _]. split; rewrite ?Er, ?Em; try done. by etransitivity.
Qed.

Lemma close_live_good w0 w id lm r w' :
  Good w -> mg_live (mw_manager w) !! id = Some lm -> h_session (holding_of lm) = None -> replaced id lm w0 w ->
  close_both E (lm_binding lm) (lm_viewLease lm) w = (r, w') ->
  Good w' /\ replaced id lm w0 w' /\ (is_ok r = true -> holds_nothing w' (holding_of lm)).
Proof.
  intros [Hi Ht] Hl Hs Hre H. change (close_both E (h_binding (holding_of lm)) (h_lease (holding_of lm)) w = (r, w')) in H.
  destruct (close_both_inv E _ _ id _ _ _ Hi (owners_lookup _ _ _ Hl) Hs H) as (Hi' & Hf & Hn).
  split_and!; [|by eapply replaced_frame|done]. split; [by rewrite (frame_owners _ _ Hf)|by eapply tok_frame].
Qed.

Lemma cleanupLive_good w id lm r w' :
  Good w -> mg_live (mw_manager w) !! id = Some lm -> cleanupLive E id lm w = (r, w') ->
  Good w' /\ exists lm', lm_token lm' = lm_token lm /\ replaced id lm' w w' /\ (is_ok r = true -> holds_nothing w' (holding_of lm')).
Proof.
  intros Hg Hl H. unfold cleanupLive in H.
  assert (replaced id lm w w) as Hself by (split; try done; by rewrite insert_id).
  assert (h_session (holding_of lm) = None -> close_both E (lm_binding lm) (lm_viewLease lm) w = (r, w') ->
    Good w' /\ exists lm', lm_token lm' = lm_token lm /\ replaced id lm' w w' /\ (is_ok r = true -> holds_nothing w' (holding_of lm'))) as Hdone.
  { intros Hs Hc. destruct (close_live_good w w id lm r w' Hg Hl Hs Hself Hc) as (? & ? & ?). eauto. }
  destruct (lm_session lm) as [s|] eqn:Es; [|run_in H; apply Hdone; [unfold holding_of; cbn; rewrite Es; by case_match|done]].
  destruct (lm_needsUnmount lm) eqn:En; [|run_in H; apply Hdone; [unfold holding_of; by rewrite En|done]].
  unfold markSessionDoneExpected, markDetached in H. unfold mbind at 1 2 3, Mn_bind in H. rewrite (if_current_self _ _ _ _ Hl) in H.
  set (w1 := (update (with_live <[id := set_expected true lm]>) w).2) in H.
  assert (Good w1) as Hg1 by (by apply good_expected).
  assert (mg_live (mw_manager w1) !! id = Some (set_expected true lm)) as Hl1 by apply lookup_insert_eq.
  cbn [update put_manager] in H. change (mkMw _ _ _ _ _ _) with w1 in H.
  destruct (session_Unmount E s w1) as [r1 w2] eqn:Eu.
  destruct (unmount_inv E (owners w1) w1 id (holding_of (set_expected true lm)) s r1 w2) as [Hf Hi2];
    [apply Hg1|by apply owners_lookup|left; cbn; by rewrite En|done|].
  assert (mg_live (mw_manager w2) !! id = Some (set_expected true lm)) as Hl2 by (by rewrite (fr_manager _ _ Hf)).
  assert (forall e, if_current (lm_token lm) e id w2 = update (with_live <[id := e (set_expected true lm)]>) w2) as Ecur.
  { intros e. by apply (if_current_self w2 id (set_expected true lm) e). }
  assert (forall lm', replaced id lm' w (update (with_live <[id := lm']>) w2).2) as Hrep.
  { intros lm'. destruct Hf as [Er Em _ Hx _ _]. split; cbn; rewrite ?Er, ?Em; cbn; try done.
    by rewrite insert_insert_eq. }
  assert (Tok w2) as Ht2 by (eapply tok_frame; [exact Hf|apply Hg1]).
  destruct r1 as [[]|e]; cbn in Hi2; unfold mbind, Mn_bind in H; cbv beta iota in H; rewrite Ecur in H;
    unfold update, put_manager, then_, mret, Mn_ret in H; cbv beta iota in H.
  - set (lm' := set_detached true (set_expected true lm)) in *.
    assert (Good (update (with_live <[id := lm']>) w2).2) as Hg3.
    { eapply good_update; [done|exact Hl2|done|done|]. by rewrite (frame_owners _ _ Hf). }
    destruct (close_live_good w _ id lm' r w' Hg3) as (? & ? & ?);
      [apply lookup_insert_eq|done|apply Hrep|exact H|]. split; [done|]. by exists lm'.
  - injection H as <- <-. split; [|exists (set_expected false (set_expected true lm)); split_and!; [done|apply Hrep|done]].
    eapply good_update; [done|exact Hl2|done|done|]. rewrite insert_id; [by rewrite (frame_owners _ _ Hf)|]. exact (owners_lookup _ _ _ Hl2).
Qed.

Lemma delete_current_self w id lm :
  mg_live (mw_manager w) !! id = Some lm ->
  delete_current id (lm_token lm) w = update (with_live (base.delete id)) w.
Proof.
  intros Hl. unfold delete_current, update, with_live. rewrite Hl. by rewrite bool_decide_eq_true_2.
Qed.

(** An entry that holds nothing can be dropped. *)
Lemma good_delete w id lm :
  Good w -> mg_live (mw_manager w) !! id = Some lm -> holds_nothing w (holding_of lm) ->
  Good (update (with_live (base.delete id)) w).2.
Proof.
  intros [Hi Ht] Hl Hn. split.
  - unfold owners. cbn. rewrite fmap_delete. eapply inv_quiet; [|eapply (inv_forget _ _ Hi); [by apply owners_lookup|done]]. done.
  - apply tok_delete; [|done]. intros m. apply delete_subseteq.
Qed.

(** ** Entering a live mount *)
Lemma next_token_room w : Tok w -> slack w -> roomy w ->
  u64 (mg_nextToken (mw_manager w) + 1) = (mg_nextToken (mw_manager w) + 1)%N.
Proof. intros _ Hs Hr. apply u64_small. unfold slack, roomy in *. lia. Qed.

(** The entry of an operation becomes a live mount. *)
Definition entered (id : string) (lm : liveMount) (w : mworld) : mworld :=
  let m := mw_manager w in
  mkMw (mw_registry w) (mkManager (<[id := lm]> (mg_live m)) (mg_errors m) (u64 (mg_nextToken m + 1)) (mg_leaseUnlock m) (mg_closed m))
    (mw_bindings w) (mw_leases w) (mw_monitors w) (mw_trace w).

Lemma entered_good id h lm w :
  Inflight id h w -> roomy w -> lm_token lm = mg_nextToken (mw_manager w) -> holding_of lm = h -> Good (entered id lm w).
Proof.
  intros [Hn Hi Ht Hs] Hr Etok Eh. pose proof (next_token_room w Ht Hs Hr) as Eu. split.
  - unfold owners. cbn. rewrite fmap_insert, Eh. by eapply inv_quiet; [|exact Hi].
  - destruct Ht as [Hl Hm Hnx]. split; cbn; rewrite Eu.
    + apply map_Forall_insert_2; [rewrite Etok; lia|]. eapply map_Forall_impl; [exact Hl|]. cbn. intros; lia.
    + eapply Forall_impl; [exact Hm|]. cbn. intros mo [Hlt Hses]. split; [lia|].
      intros lm' [[_ <-]|[_ Hl']]%lookup_insert_Some; [lia|by apply Hses].
    + unfold slack, here in *. cbn. lia.
Qed.

Lemma spawn_good w mo lm :
  Good w -> mg_live (mw_manager w) !! mo_id mo = Some lm -> lm_token lm = mo_token mo -> lm_session lm = Some (mo_session mo) ->
  Good (spawn mo w).2.
Proof.
  intros [Hi [Hl Hm Hn]] Hlm Et Es. split; [by eapply inv_quiet; [|exact Hi]|]. split; cbn; [done| |done].
  constructor; [|done]. split; [rewrite <- Et; by apply (Hl (mo_id mo))|]. intros lm' Hl' _. congruence.
Qed.

Lemma retain_good id view session done b l (needs : bool) w :
  Inflight id (mkHold (if needs then session else None) b l) w -> roomy w ->
  Good (retainCleanup id view session done b l needs w).2.
Proof.
  intros Hi Hr. unfold retainCleanup, next_token, mbind, Mn_bind, get_manager, put_manager, mret, Mn_ret, update. cbv beta iota zeta.
  cbn [mw_manager mw_registry mw_bindings mw_leases mw_monitors mw_trace with_live mg_live mg_errors mg_nextToken mg_leaseUnlock mg_closed].
  match goal with |- context [<[id := ?x]>] => set (lm := x) end.
  assert (Good (entered id lm w)) as Hg by (by eapply entered_good).
  destruct session as [s|]; [|exact Hg]. destruct done; [|exact Hg].
  apply (spawn_good (entered id lm w) (mkMonitor id (mg_nextToken (mw_manager w)) s) lm Hg); [apply lookup_insert_eq|done|done].
Qed.

(** ** Rolling a failed mount back *)
Lemma inflight_forget id h w : Inflight id h w -> holds_nothing w h -> Good w.
Proof.
  intros [Hn Hi Ht _] Hh. split; [|done]. pose proof (inv_forget _ _ Hi id h (lookup_insert_eq _ _ _) Hh) as H.
  rewrite delete_insert_id in H; [done|]. unfold owners. by rewrite lookup_fmap, Hn.
Qed.

Lemma retain_run {A} id view session done b l (needs : bool) (a : A) w r w' :
  Inflight id (mkHold (if needs then session else None) b l) w -> roomy w' ->
  (_ ← retainCleanup id view session done b l needs; mret a) w = (r, w') -> Good w'.
Proof.
  intros Hi Hr H. unfold mbind, Mn_bind in H. pose proof (mono_retain id view session done b l needs w) as Hm.
  pose proof (retain_good id view session done b l needs w Hi) as Hg.
  destruct (retainCleanup _ _ _ _ _ _ _ w) as [[] w1]. injection H as <- <-. apply Hg. by eapply roomy_before.
Qed.

Lemma rollback_close_good id view session done b l w r w' :
  Inflight id (mkHold None b l) w -> roomy w' -> rollback_close E id view session done b l w = (r, w') -> Good w'.
Proof.
  intros Hi Hr H. unfold rollback_close in H. unfold mbind at 1, Mn_bind in H. destruct (binding_close E b w) as [r1 w2] eqn:E1.
  destruct (binding_close_inv E _ w id (mkHold None b l) r1 w2 (if_inv _ _ _ Hi) (lookup_insert_eq _ _ _) eq_refl E1) as (Hv & Hf & Hb).
  assert (Inflight id (mkHold None b l) w2) as Hi2 by (by eapply inflight_frame).
  destruct r1 as [[]|e]; [|by eapply (retain_run id view session done b l false)].
  unfold mbind at 1, Mn_bind in H. destruct (lease_close E l w2) as [r2 w3] eqn:E2.
  destruct (lease_close_inv E _ w2 id (mkHold None b l) r2 w3 (if_inv _ _ _ Hi2) (lookup_insert_eq _ _ _) eq_refl E2) as (Hv3 & Hf3 & Hl).
  assert (Inflight id (mkHold None b l) w3) as Hi3 by (by eapply inflight_frame).
  destruct r2 as [[]|e]; [|by eapply (retain_run id view session done b l false)].
  injection H as <- <-. eapply inflight_forget; [done|]. split_and!; [done| |by apply Hl].
  intros x Hx1. apply (fr_bindings _ _ Hf3). by apply Hb.
Qed.

Lemma rollback_good id view session done b l w r w' :
  Inflight id (mkHold session b l) w -> roomy w' -> rollbackFailedMount E id view session done b l w = (r, w') -> Good w'.
Proof.
  intros Hi Hr H. unfold rollbackFailedMount in H. destruct session as [s|]; [|by eapply rollback_close_good].
  unfold mbind at 1, Mn_bind in H. destruct (session_Unmount E s w) as [r1 w1] eqn:Eu.
  destruct (unmount_inv E _ w id _ s r1 w1 (if_inv _ _ _ Hi) (lookup_insert_eq _ _ _) (or_introl eq_refl) Eu) as [Hf Hi1].
  destruct r1 as [[]|e]; cbn [is_ok] in Hi1.
  - cbn in Hi1. rewrite insert_insert_eq in Hi1. eapply rollback_close_good; [|done|exact H]. by eapply inflight_frame.
  - eapply (retain_run id view (Some s) done b l true); [|done|exact H]. by eapply inflight_frame.
Qed.

(** ** Mounting *)
Lemma good_silent e w : silent e = true -> Good w -> Good (emit e w).2.
Proof.
  intros He [Hi Ht]. split; [|eapply tok_frame; [apply (frame_emit e)|done]].
  change (Inv (owners w) (emit e w).2). by apply inv_silent.
Qed.
Lemma failed_world record view e w : (failed E record view e w).2 = (set_error (ID (rec_Spec record)) e w).2.
Proof.
  unfold failed, failureStatus, mbind, Mn_bind, get_manager, mret, Mn_ret. cbn.
  by destruct (mg_live (mw_manager w) !! ID (rec_Spec record)).
Qed.
Lemma failed_good record view e w r w' : Good w -> failed E record view e w = (r, w') -> Good w'.
Proof.
  intros Hg H. change w' with (r, w').2. rewrite <- H, failed_world. by apply good_errors.
Qed.
Lemma failed_here record view e w r w' : failed E record view e w = (r, w') -> here w' = here w.
Proof. intros H. change w' with (r, w').2. by rewrite <- H, failed_world. Qed.

Lemma rollback_failed_good id view session done b l w record (v : option View) (f : result unit -> error) (r : mount_result) w' :
  Inflight id (mkHold session b l) w -> roomy w' ->
  (rolled ← rollbackFailedMount E id view session done b l; failed E record v (f rolled)) w = (r, w') -> Good w'.
Proof.
  intros Hi Hr H. unfold mbind, Mn_bind in H. destruct (rollbackFailedMount _ _ _ _ _ _ _ w) as [r1 w1] eqn:E1.
  eapply failed_good; [|exact H]. eapply rollback_good; [exact Hi| |exact E1]. unfold roomy in *. by rewrite <- (failed_here _ _ _ _ _ _ H).
Qed.

#[local] Ltac rolled_back H :=
  match type of H with context [join ?e] => by eapply (rollback_failed_good _ _ _ _ _ _ _ _ _ (join e)) end.

Definition unclosed (w : mworld) (b l : option nat) : Prop :=
  (forall x, b = Some x -> x ∉ mw_bindings w) /\ (forall x, l = Some x -> x ∉ mw_leases w).

Definition recorded_as (w : mworld) (record : MountRecord) : Prop :=
  exists r, records (mw_registry w) !! ID (rec_Spec record) = Some r /\ rec_Spec r = rec_Spec record.

Lemma install_good record view s b l w r w' :
  Inflight (ID (rec_Spec record)) (mkHold (Some s) b l) w -> roomy w' -> install_live E record view s b l w = (r, w') -> Good w'.
Proof.
  intros Hi Hr H. unfold install_live, next_token, mbind, Mn_bind, get_manager, put_manager, mret, Mn_ret, clear_error, update, spawn in H.
  cbv beta iota zeta in H. injection H as _ <-. set (id := ID (rec_Spec record)) in *.
  set (lm := mkLive (Some s) view b l (mg_nextToken (mw_manager w)) false true false).
  assert (Good (entered id lm w)) as Hg by (by eapply entered_good).
  pose proof (good_errors _ (base.delete id) Hg) as Hg2.
  apply (spawn_good (update (with_errors (base.delete id)) (entered id lm w)).2 (mkMonitor id (mg_nextToken (mw_manager w)) s) lm Hg2);
    [apply lookup_insert_eq|done|done].
Qed.

Lemma attach_good record view b l w r w' :
  Inflight (ID (rec_Spec record)) (mkHold None b l) w -> unclosed w b l -> recorded_as w record -> roomy w' ->
  attach E record view b l w = (r, w') -> Good w'.
Proof.
  intros Hi [Hb Hl] (r0 & Hrec & Hspec) Hr H. unfold attach in H. unfold mbind at 1, Mn_bind, ask in H. cbv beta zeta in H.
  set (spec := rec_Spec record) in *. destruct (me_Mount E (here w)) as [ses dn err]. cbn [aa_session aa_done aa_err] in H.
  cbn [emit] in H. set (w1 := mkMw _ _ _ _ _ _) in H.
  assert (Inflight (ID spec) (mkHold (if ses then Some (here w) else None) b l) w1) as Hi1.
  { destruct ses.
    - eapply inflight_frame; [apply (frame_emit (EvMount spec b l true))| |exact Hi].
      pose proof (inv_mount _ _ (if_inv _ _ _ Hi) spec (mkHold None b l) r0 (lookup_insert_eq _ _ _) eq_refl Hb Hl Hrec Hspec) as Hm.
      by rewrite insert_insert_eq in Hm.
    - eapply inflight_frame; [apply (frame_emit (EvMount spec b l false))|by apply (inv_silent _ w), Hi|exact Hi]. }
  cbn [aa_session aa_done aa_err] in H. destruct err as [e|]; [rolled_back H|].
  destruct ses; [|rolled_back H]. destruct dn; [|rolled_back H].
  by eapply install_good.
Qed.

Lemma select_frame spec w r w' : selectView E spec w = (r, w') -> w' = (emit (EvSelect spec) w).2.
Proof.
  unfold selectView. intros H. run_in H. destruct (me_SelectView E (here w) spec); by simplify_eq.
Qed.

Lemma acquire_inflight id view w r w' :
  Good w -> slack w -> mg_live (mw_manager w) !! id = None -> acquireViewLease E view w = (r, w') ->
  frame w w' /\ mw_registry w' = mw_registry w /\
  match r with
  | Ok l => Inflight id (mkHold None None l) w' /\ unclosed w' None l
  | Err _ => Good w'
  end.
Proof.
  intros [Hi Ht] Hsl Hn H.
  assert (Inv (<[id := mkHold None None None]> (owners w)) w) as Hi0.
  { apply inv_claim; [done|]. unfold owners. by rewrite lookup_fmap, Hn. }
  assert (Inflight id (mkHold None None None) w) as Hf0 by done.
  unfold acquireViewLease in H. destruct (negb (me_leases E)).
  { run_in H. simplify_eq. split_and!; [reflexivity|done|done|]. by split; intros x ?. }
  run_in H. destruct (me_AcquireView E (here w)) as [[]|e]; cbn in H; simplify_eq.
  - pose proof (frame_emit (EvAcquire view true) w) as Hf. split_and!; [done|done| |].
    + eapply inflight_frame; [exact Hf| |exact Hf0].
      pose proof (inv_acquire _ _ Hi0 id (mkHold None None None) view (lookup_insert_eq _ _ _) eq_refl eq_refl) as Ha.
      by rewrite insert_insert_eq in Ha.
    + split; [by intros x ?|]. intros x [= <-] Hin. destruct Hi as [[? ? ? ? ? ? ? [_ Hl]] _]. specialize (Hl _ Hin). lia.
  - pose proof (frame_emit (EvAcquire view false) w) as Hf. split_and!; [done|done|].
    by apply (good_silent (EvAcquire view false)).
Qed.

Lemma bind_inflight id spec view l w r leftover w' :
  Inflight id (mkHold None None l) w -> unclosed w None l -> bindWritable E spec view w = ((r, leftover), w') ->
  let b := match r with Ok b => b | Err _ => leftover end in
  Inflight id (mkHold None b l) w' /\ unclosed w' b l /\ mw_registry w' = mw_registry w.
Proof.
  intros Hi [_ Hl] H. unfold bindWritable in H. destruct (negb (bool_decide _)).
  { run_in H. simplify_eq. cbn. split_and!; [done|by split; [intros x ?|]|done]. }
  destruct (negb (me_writable E)).
  { run_in H. simplify_eq. cbn. split_and!; [done|by split; [intros x ?|]|done]. }
  run_in H. destruct (me_BindWritable E (here w)) as [created err]. cbn in H.
  assert (Inflight id (mkHold None (if created then Some (here w) else None) l) (emit (EvBind spec view created) w).2 /\
    unclosed w (if created then Some (here w) else None) l) as [Hi1 Hu].
  { destruct created.
    - split.
      + eapply inflight_frame; [apply frame_emit| |exact Hi].
        pose proof (inv_bind _ _ (if_inv _ _ _ Hi) id (mkHold None None l) spec view (lookup_insert_eq _ _ _) eq_refl eq_refl) as Hb.
        by rewrite insert_insert_eq in Hb.
      + split; [|done]. intros x [= <-] Hin. destruct (if_inv _ _ _ Hi) as [[? ? ? ? ? ? ? [Hb _]] _]. specialize (Hb _ Hin). lia.
    - split; [|by split; [intros x ?|]].
      eapply inflight_frame; [apply frame_emit|by apply (inv_silent _ w), Hi|exact Hi]. }
  destruct err as [e|], created; cbn in H; injection H as <- <- <-; by split_and!.
Qed.

Lemma mount_fresh_good record w r w' :
  Good w -> slack w -> mg_live (mw_manager w) !! ID (rec_Spec record) = None -> recorded_as w record -> roomy w' ->
  mount_fresh E record w = (r, w') -> Good w'.
Proof.
  intros [Hi Ht] Hsl Hn Hrec Hr H. unfold mount_fresh in H. unfold mbind at 1, Mn_bind in H.
  destruct (selectView E (rec_Spec record) w) as [r1 w1] eqn:E1. apply select_frame in E1 as ->.
  pose proof (frame_emit (EvSelect (rec_Spec record)) w) as Hf. set (w1 := (emit (EvSelect (rec_Spec record)) w).2) in *.
  assert (Good w1) as Hg1 by (by apply (good_silent (EvSelect _))).
  destruct r1 as [view|e]; [|by eapply failed_good]. unfold mbind at 1, Mn_bind in H.
  destruct (acquireViewLease E view w1) as [r2 w2] eqn:E2.
  destruct (acquire_inflight (ID (rec_Spec record)) view w1 r2 w2) as (Hf2 & Er2 & Hacq); [done|by eapply slack_frame|done|done|].
  destruct r2 as [l|e]; [|by eapply failed_good]. destruct Hacq as [Hi2 Hu2].
  unfold mbind at 1, Mn_bind in H. destruct (bindWritable E (rec_Spec record) view w2) as [[r3 leftover] w3] eqn:E3.
  destruct (bind_inflight _ _ _ _ _ _ _ _ Hi2 Hu2 E3) as (Hi3 & Hu3 & Er3).
  destruct r3 as [b|e]; [|rolled_back H].
  eapply attach_good; [exact Hi3|exact Hu3| |exact Hr|exact H]. unfold recorded_as. by rewrite Er3, Er2.
Qed.

(** ** Registry sections *)
Context (Hnow : forall t, me_now E t <> 0%Z).

(** Only the registry and the trace change. *)
Record registry_step (w w' : mworld) : Prop := {
  rs_manager : mw_manager w' = mw_manager w;
  rs_monitors : mw_monitors w' = mw_monitors w;
  rs_bindings : mw_bindings w' = mw_bindings w;
  rs_leases : mw_leases w' = mw_leases w;
  rs_here : here w' = S (here w)
}.

Lemma registry_good w f :
  Good w -> loads f ->
  (forall s a r, pf_attached (now_at w) !! s = Some a -> records (mw_registry w) !! ID (at_spec a) = Some r ->
     exists r', records f !! ID (at_spec a) = Some r' /\ rec_Spec r' = rec_Spec r) ->
  let w' := mkMw f (mw_manager w) (mw_bindings w) (mw_leases w) (mw_monitors w) (EvRegistry f :: mw_trace w) in
  Good w' /\ slack w' /\ registry_step w w'.
Proof.
  intros [Hi Ht] Hl Hk w'. split_and!; [split; [by apply inv_registry|]| |by split].
  - destruct Ht as [? ? Hn]. split; [done|done|]. unfold here in *. cbn. lia.
  - unfold slack, here. cbn. pose proof (tk_next _ Ht). unfold here in *. lia.
Qed.

Lemma good_loads w : Good w -> loads (mw_registry w).
Proof. intros [[[? ? ? ? ? ? ? ?] _] _]. done. Qed.

Lemma put_good spec w r w' :
  Good w -> stable_spec spec -> in_registry E (fun io now => PutDesired io now spec) w = (r, w') ->
  Good w' /\ slack w' /\ registry_step w w' /\ forall record, r = Ok record -> recorded_as w' record.
Proof.
  intros Hg Hst H. unfold in_registry in H. destruct (PutDesired _ _ spec (mw_registry w)) as [r0 f] eqn:Ep. injection H as <- <-.
  apply PutDesired_cases in Ep as [Hl Hc]; [|apply Hnow|done|by apply good_loads].
  destruct (registry_good w f Hg Hl) as (Hg' & Hs & Hrs).
  { intros s a r Ha Hr. destruct Hc as [[-> _]|(n & _ & -> & Hold & _)]; [by exists r|].
    destruct (decide (ID n = ID (at_spec a))) as [Eid|Hne]; [|rewrite lookup_insert_ne by done; by exists r].
    rewrite Eid, lookup_insert_eq. eexists. split; [done|]. rewrite <- Eid in Hr. by destruct (Hold r Hr) as [-> _]. }
  split_and!; [done|done|done|]. intros record ->. destruct Hc as [[_ ?]|(n & Hn & Er & _ & Heq)]; [done|].
  rewrite (Heq record eq_refl). exists (mkRecord n true (me_now E (here w))). cbn. by rewrite Er, lookup_insert_eq.
Qed.

Lemma mark_good id w r w' :
  Good w -> in_registry E (fun io now => MarkPendingUnmount io now id) w = (r, w') ->
  Good w' /\ slack w' /\ registry_step w w' /\ forall record, r = Ok record -> TrimSpace (ID (rec_Spec record)) = ID (rec_Spec record).
Proof.
  intros Hg H. unfold in_registry in H. destruct (MarkPendingUnmount _ _ id (mw_registry w)) as [r0 f] eqn:Ep. injection H as <- <-.
  apply MarkPendingUnmount_cases in Ep as [Hl Hc]; [|apply Hnow|by apply good_loads].
  destruct (registry_good w f Hg Hl) as (Hg' & Hs & Hrs).
  { intros s a r Ha Hr. destruct Hc as [[-> _]|(old & Hold & -> & _)]; [by exists r|].
    destruct (decide (TrimSpace id = ID (at_spec a))) as [Eid|Hne]; [|rewrite lookup_insert_ne by done; by exists r].
    rewrite Eid, lookup_insert_eq. eexists. split; [done|]. rewrite <- Eid in Hr. cbn. congruence. }
  split_and!; [done|done|done|]. intros record ->. destruct Hc as [[_ ?]|(old & Hold & _ & Heq)]; [done|].
  rewrite (Heq record eq_refl). cbn. destruct (records_ok _ _ _ Hold) as [Hn _ _]. by apply normalizeSpec_usable in Hn as [_ ?].
Qed.

Lemma delete_good id w r w' :
  Good w -> (forall h, owners w !! TrimSpace id = Some h -> h_session h = None) ->
  in_registry E (fun io _ => DeleteUnmounted io id) w = (r, w') -> Good w' /\ slack w' /\ registry_step w w'.
Proof.
  intros Hg Hno H. unfold in_registry in H. destruct (DeleteUnmounted _ id (mw_registry w)) as [r0 f] eqn:Ep. injection H as <- <-.
  apply DeleteUnmounted_cases in Ep as [Hl Hc]; [|by apply good_loads].
  apply (registry_good w f Hg Hl). intros s a r Ha Hr. destruct Hc as [[-> _]|(old & Hold & _ & ->)]; [by exists r|].
  rewrite lookup_delete_ne; [by exists r|]. intros Eid. destruct Hg as [[Hc _] _]. destruct (c_att _ _ Hc s a Ha) as (Ho & _).
  rewrite <- Eid in Ho. by specialize (Hno _ Ho).
Qed.

Lemma list_good w r w' :
  Good w -> in_registry E (fun io _ => List_records io) w = (r, w') ->
  Good w' /\ registry_step w w' /\ forall l, r = Ok l -> Forall (fun record => normalizeSpec (rec_Spec record) = Ok (rec_Spec record)) l.
Proof.
  intros Hg H. unfold in_registry in H. destruct (List_records _ (mw_registry w)) as [r0 f] eqn:Ep. injection H as <- <-.
  unfold List_records, withState in Ep. apply with_state_inv in Ep as [Hf Hr]; [|done].
  assert (f = mw_registry w) as -> by (destruct Hf as [->|(? & ? & ? & ? & _)]; done).
  destruct (registry_good w (mw_registry w) Hg) as (? & _ & ?); [by apply good_loads|intros s a r; by exists r|]. split_and!; [done|done|].
  intros l ->. destruct (Hr l eq_refl) as (st & st' & Hv & Hop & _). simplify_eq. apply Forall_forall. intros record.
  unfold sort_by_string. rewrite elem_of_sort_by. intros [[id rec] [-> Hin%elem_of_map_to_list]]%list_elem_of_fmap. cbn.
  apply registry_view_wf in Hv as [_ Hr' _]. by destruct (Hr' id rec Hin).
Qed.

(** ** Mount *)
Lemma mount_good spec w r w' :
  Good w -> stable_spec spec -> roomy w' -> mount E spec w = (r, w') -> Good w'.
Proof.
  intros Hg Hst Hr H. unfold mount in H. unfold mbind at 1, Mn_bind in H.
  destruct (in_registry E _ w) as [r1 w1] eqn:E1. destruct (put_good spec w r1 w1 Hg Hst E1) as (Hg1 & Hs1 & _ & Hrec).
  destruct r1 as [record|e]; [|run_in H; by simplify_eq]. specialize (Hrec record eq_refl).
  unfold mbind at 1, Mn_bind, get_manager in H. destruct (mg_live (mw_manager w1) !! ID (rec_Spec record)) as [lm|] eqn:El;
    [|by eapply mount_fresh_good]. destruct (negb (lm_cleanupOnly lm)); [run_in H; by simplify_eq|].
  unfold mbind at 1, Mn_bind in H. destruct (cleanupLive E (ID (rec_Spec record)) lm w1) as [r2 w2] eqn:E2.
  destruct (cleanupLive_good w1 _ lm r2 w2 Hg1 El E2) as (Hg2 & lm' & Etok & Hre & Hn).
  destruct r2 as [[]|e]; [|by eapply failed_good]. unfold mbind at 1, Mn_bind in H.
  assert (mg_live (mw_manager w2) !! ID (rec_Spec record) = Some lm') as El2 by (rewrite (re_live _ _ _ _ Hre); apply lookup_insert_eq).
  rewrite <- Etok, (delete_current_self w2 _ lm' El2) in H. set (w3 := (update (with_live (base.delete (ID (rec_Spec record)))) w2).2) in *.
  eapply (mount_fresh_good record w3); [by eapply good_delete; [| |apply Hn]| |apply lookup_delete_eq| |exact Hr|exact H].
  - unfold slack in *. cbn. rewrite (re_next _ _ _ _ Hre). pose proof (extends_here _ _ (re_trace _ _ _ _ Hre)); unfold here in *; cbn; lia.
  - destruct Hrec as (r0 & ? & ?). exists r0. cbn. by rewrite (re_registry _ _ _ _ Hre).
Qed.

(** ** Unmount *)
Lemma note_good id e w r w' : Good w -> note id e w = (r, w') -> Good w'.
Proof. intros Hg H. unfold note, set_error in H. run_in H. simplify_eq. by apply good_errors. Qed.

Lemma gated_good {A} (refused : error -> A) (op : Mn A) w r w' :
  Good w -> (op w = (r, w') -> Good w') -> gated E refused op w = (r, w') -> Good w'.
Proof. intros Hg Hop H. unfold gated in H. destruct (me_gate E (here w)); [by simplify_eq|]. destruct (mg_closed _); [by simplify_eq|auto]. Qed.

Lemma Unmount_good id w r w' : Good w -> Unmount E id w = (r, w') -> Good w'.
Proof.
  intros Hg. unfold Unmount. apply gated_good; [done|]. intros H. unfold mbind at 1, Mn_bind in H.
  destruct (in_registry E _ w) as [r1 w1] eqn:E1. destruct (mark_good id w r1 w1 Hg E1) as (Hg1 & _ & _ & Hid).
  destruct r1 as [record|e]; [|run_in H; by simplify_eq]. specialize (Hid record eq_refl). unfold then_ in H.
  set (key := ID (rec_Spec record)) in *. unfold mbind at 1, Mn_bind, get_manager in H. unfold mbind at 1, Mn_bind in H.
  assert (exists r2 w2, match mg_live (mw_manager w1) !! key with
      | Some live => cleanupLive E key live | None => RecoverUnmount E (rec_Spec record) end w1 = (r2, w2) /\ Good w2 /\
    (is_ok r2 = true -> forall lm, mg_live (mw_manager w2) !! key = Some lm -> holds_nothing w2 (holding_of lm))) as (r2 & w2 & E2 & Hg2 & Hn).
  { destruct (mg_live (mw_manager w1) !! key) as [lm|] eqn:El.
    - destruct (cleanupLive E key lm w1) as [r2 w2] eqn:E2. destruct (cleanupLive_good w1 key lm r2 w2 Hg1 El E2) as (Hg2 & lm' & _ & Hre & Hn).
      exists r2, w2. split_and!; [done|done|]. intros Hok lm2 Hl2. rewrite (re_live _ _ _ _ Hre), lookup_insert_eq in Hl2.
      injection Hl2 as <-. by apply Hn.
    - unfold RecoverUnmount. unfold mbind, Mn_bind, ask, mret, Mn_ret. cbn. eexists _, _. split_and!; [done| |].
      + by apply (good_silent (EvRecover _ _)).
      + intros _ lm Hl. cbn in Hl. congruence. }
  rewrite E2 in H. destruct r2 as [[]|e]; [|by eapply note_good]. unfold mbind at 1, Mn_bind in H.
  destruct (in_registry E _ w2) as [r3 w3] eqn:E3. destruct (delete_good key w2 r3 w3 Hg2) as (Hg3 & _ & Hrs); [|done|].
  { rewrite Hid. intros h Ho. unfold owners in Ho. rewrite lookup_fmap in Ho.
    destruct (mg_live (mw_manager w2) !! key) as [lm|] eqn:El; [|done]. injection Ho as <-. by destruct (Hn eq_refl lm eq_refl). }
  destruct r3 as [[]|e]; [|by eapply note_good]. run_in H. injection H as <- <-.
  apply (good_errors (update (with_live (base.delete key)) w3).2 (base.delete key)).
  destruct Hrs as [Em _ Eb El _]. destruct (mg_live (mw_manager w3) !! key) as [lm|] eqn:Elm.
  - eapply good_delete; [done|exact Elm|]. rewrite Em in Elm. destruct (Hn eq_refl lm Elm) as (? & ? & ?).
    unfold holds_nothing. by rewrite Eb, El.
  - assert ((update (with_live (base.delete key)) w3).2 = w3) as ->; [|done].
    unfold update, put_manager, with_live. cbn. rewrite delete_id by done. by destruct w3 as [? [] ? ? ? ?].
Qed.
End Runs.
