(* ===== verification/MountThms.v ===== *)
(** The lifecycle of platform mounts: histories of calls, session ends and
    crashes, what holds at every moment of them, and recovery. *)

From stdpp Require Import base decidable gmap strings list.
From Stdlib Require Import Ascii ZArith Lia.
From S2P Require Import Prelude GoText CidLib Durable Registry RegistryFacts Journal Cache Paths Staging Mount MountRuns.

Section Histories.
Context {L : CidLib} (E : menv) (Hnow : forall t, me_now E t <> 0%Z).

(** ** Restore *)
Lemma recover_good spec w r w' :
  Good w -> RecoverUnmount E spec w = (r, w') -> Good w' /\ frame w w'.
Proof.
  intros Hg H. unfold RecoverUnmount in H. run_in H. simplify_eq. split; [by apply (good_silent (EvRecover _ _))|apply (frame_emit (EvRecover _ _))].
Qed.

Lemma restore_tombstones_good l w r w' :
  Good w -> mg_live (mw_manager w) = ∅ -> restore_tombstones E l w = (r, w') -> Good w' /\ mg_live (mw_manager w') = ∅.
Proof.
  revert w r w'. induction l as [|record l IH]; intros w r w' Hg Hl H; cbn [restore_tombstones] in H; [run_in H; by simplify_eq|].
  destruct (Desired record); [by eapply IH|]. unfold mbind at 1, Mn_bind in H.
  destruct (RecoverUnmount E (rec_Spec record) w) as [r1 w1] eqn:E1. destruct (recover_good _ _ _ _ Hg E1) as [Hg1 Hf].
  assert (mg_live (mw_manager w1) = ∅) as Hl1 by (by rewrite (fr_manager _ _ Hf)).
  unfold mbind at 1, Mn_bind in H. destruct r1 as [[]|e].
  - unfold mbind at 1, Mn_bind in H. destruct (in_registry E _ w1) as [r2 w2] eqn:E2.
    destruct (delete_good E (ID (rec_Spec record)) w1 r2 w2 Hg1) as (Hg2 & _ & Hrs); [|done|].
    { intros h Ho. unfold owners in Ho. by rewrite Hl1, lookup_fmap, lookup_empty in Ho. }
    assert (mg_live (mw_manager w2) = ∅) as Hl2 by (by rewrite (rs_manager _ _ Hrs)).
    unfold mbind at 1, Mn_bind in H. run_in H. destruct (restore_tombstones E l w2) as [r3 w3] eqn:E3. injection H as _ <-. by eapply IH.
  - run_in H. destruct (restore_tombstones E l w1) as [r3 w3] eqn:E3. injection H as _ <-. by eapply IH.
Qed.

Lemma restore_desired_good l w r w' :
  Good w -> Forall (fun record => normalizeSpec (rec_Spec record) = Ok (rec_Spec record)) l -> roomy w' ->
  restore_desired E l w = (r, w') -> Good w'.
Proof.
  intros Hg Hl Hr. revert w r Hg. induction Hl as [|record l Hst _ IH]; intros w r Hg H; cbn [restore_desired] in H; [run_in H; by simplify_eq|].
  destruct (negb (Desired record)); [by eapply IH|]. unfold mbind at 1, Mn_bind in H.
  destruct (mount E (rec_Spec record) w) as [r1 w1] eqn:E1. unfold mbind at 1, Mn_bind in H.
  destruct (restore_desired E l w1) as [r2 w2] eqn:E2. run_in H. injection H as _ <-. eapply IH; [|exact E2].
  eapply (mount_good E Hnow); [exact Hg| | |exact E1]; [intros s Hs; congruence|]. eapply roomy_before; [|exact Hr].
  change w2 with (r2, w2).2. rewrite <- E2. apply mono_restore_desired.
Qed.

Lemma Restore_good w r w' : Good w -> roomy w' -> Restore E w = (r, w') -> Good w'.
Proof.
  intros Hg Hr. unfold Restore. apply gated_good; [done|]. intros H. unfold mbind at 1, Mn_bind, get_manager in H.
  case_bool_decide as Hl; [|run_in H; by simplify_eq]. cbn [negb] in H. unfold mbind at 1, Mn_bind in H.
  destruct (in_registry E _ w) as [r1 w1] eqn:E1. destruct (list_good E w r1 w1 Hg E1) as (Hg1 & Hrs & Hst).
  destruct r1 as [records|e]; [|run_in H; by simplify_eq]. unfold then_ in H. unfold mbind at 1, Mn_bind in H.
  destruct (restore_tombstones E records w1) as [f1 w2] eqn:E2.
  destruct (restore_tombstones_good records w1 f1 w2) as [Hg2 _]; [done|by rewrite (rs_manager _ _ Hrs)|done|].
  unfold mbind at 1, Mn_bind in H. destruct (restore_desired E records w2) as [f2 w3] eqn:E3. run_in H. injection H as _ <-.
  eapply restore_desired_good; [exact Hg2|by apply Hst|exact Hr|exact E3].
Qed.

(** ** Shutdown *)
Lemma shutdown_each_good l w r w' :
  Good w -> NoDup l.*1 -> Forall (fun it => mg_live (mw_manager w) !! it.1 = Some it.2) l -> shutdown_each E l w = (r, w') ->
  Good w' /\ mw_registry w' = mw_registry w /\ mg_closed (mw_manager w') = mg_closed (mw_manager w) /\
  (r = [] -> forall id, mg_live (mw_manager w') !! id = if decide (id ∈ l.*1) then None else mg_live (mw_manager w) !! id).
Proof.
  revert w r. induction l as [|[id lm] l IH]; intros w r Hg Hnd Hl H; cbn [shutdown_each] in H.
  { run_in H. simplify_eq. split_and!; [done|done|done|]. intros _ id. by rewrite decide_False by apply not_elem_of_nil. }
  apply Forall_cons in Hl as [Hid Hl]. cbn in Hid. cbn [fmap list_fmap fst] in Hnd. apply NoDup_cons in Hnd as [Hnid Hnd].
  unfold mbind at 1, Mn_bind in H. destruct (cleanupLive E id lm w) as [r1 w1] eqn:E1.
  destruct (cleanupLive_good E w id lm r1 w1 Hg Hid E1) as (Hg1 & lm' & Etok & Hre & Hn).
  assert (forall i, i <> id -> mg_live (mw_manager w1) !! i = mg_live (mw_manager w) !! i) as Hother.
  { intros i Hne. by rewrite (re_live _ _ _ _ Hre), lookup_insert_ne. }
  assert (mg_live (mw_manager w1) !! id = Some lm') as Hid1 by (rewrite (re_live _ _ _ _ Hre); apply lookup_insert_eq).
  unfold mbind at 1, Mn_bind in H. destruct r1 as [[]|e].
  - unfold mbind at 1 2, Mn_bind in H. rewrite <- Etok, (delete_current_self w1 id lm' Hid1) in H.
    unfold clear_error, update, put_manager, mret, Mn_ret in H. cbv beta iota in H. unfold mbind, Mn_bind in H.
    set (w2 := (update (with_errors (base.delete id)) (update (with_live (base.delete id)) w1).2).2).
    assert (Good w2) as Hg2 by (apply good_errors; by eapply good_delete; [| |apply Hn]).
    change (mkMw _ _ _ _ _ _) with w2 in H. destruct (shutdown_each E l w2) as [r2 w3] eqn:E3. injection H as <- <-.
    destruct (IH w2 r2 Hg2 Hnd) as (Hg3 & Er3 & Ec3 & Hlive); [|done|].
    { rewrite Forall_forall in Hl |- *. intros it Hin. cbn. rewrite lookup_delete_ne; [rewrite Hother; [by apply Hl|]|];
        intros Eid; apply Hnid; [rewrite <- Eid|rewrite Eid]; by apply list_elem_of_fmap_2. }
    split_and!; [done|by rewrite Er3; apply (re_registry _ _ _ _ Hre)|by rewrite Ec3; apply (re_closed _ _ _ _ Hre)|]. intros -> i. rewrite (Hlive eq_refl i). cbn.
    destruct (decide (i = id)) as [->|Hne].
    + rewrite (decide_True (P := id ∈ id :: _)) by left. by rewrite decide_False, lookup_delete_eq.
    + rewrite lookup_delete_ne, Hother by done. destruct (decide (i ∈ l.*1)); [by rewrite decide_True by by right|].
      rewrite decide_False; [done|]. by intros [?|?]%elem_of_cons.
  - unfold set_error, update, put_manager, mbind, Mn_bind, mret, Mn_ret in H. cbv beta iota in H.
    set (w2 := (update (with_errors <[id := e]>) w1).2). change (mkMw _ _ _ _ _ _) with w2 in H.
    destruct (shutdown_each E l w2) as [r2 w3] eqn:E3. injection H as <- <-.
    destruct (IH w2 r2) as (Hg3 & Er3 & Ec3 & _); [by apply good_errors|done| |done|].
    { rewrite Forall_forall in Hl |- *. intros it Hin. cbn. rewrite Hother; [by apply Hl|].
      intros Eid. apply Hnid. rewrite <- Eid. by apply list_elem_of_fmap_2. }
    split_and!; [done|by rewrite Er3; apply (re_registry _ _ _ _ Hre)|by rewrite Ec3; apply (re_closed _ _ _ _ Hre)|done].
Qed.

Lemma live_list (m : gmap string liveMount) :
  NoDup (sort_by_string fst (map_to_list m)).*1 /\
  Forall (fun it => m !! it.1 = Some it.2) (sort_by_string fst (map_to_list m)) /\
  forall id, id ∈ (sort_by_string fst (map_to_list m)).*1 <-> is_Some (m !! id).
Proof.
  unfold sort_by_string. pose proof (sort_by_Permutation (A := string * liveMount) fst String.leb (map_to_list m)) as Hp. split_and!.
  - rewrite Hp. apply NoDup_fst_map_to_list.
  - rewrite Hp. apply Forall_forall. intros [id lm] Hin. by apply elem_of_map_to_list.
  - intros id. rewrite Hp. rewrite list_elem_of_fmap. split.
    + intros [[i lm] [-> Hin%elem_of_map_to_list]]. by exists lm.
    + intros [lm Hlm]. exists (id, lm). split; [done|]. by apply elem_of_map_to_list.
Qed.

Lemma Shutdown_run w r w' :
  Good w -> Shutdown E w = (r, w') ->
  Good w' /\ mw_registry w' = mw_registry w /\
  (mg_closed (mw_manager w) = false -> mg_closed (mw_manager w') = true -> mg_live (mw_manager w') = ∅).
Proof.
  intros Hg H. unfold Shutdown in H. destruct (me_gate E (here w)); [simplify_eq; split_and!; [done|done|congruence]|].
  destruct (mg_closed (mw_manager w)) eqn:Ec; [by simplify_eq|].
  unfold mbind at 1, Mn_bind, get_manager in H. unfold mbind at 1, Mn_bind in H. destruct (shutdown_each E _ w) as [f w1] eqn:E1.
  destruct (live_list (mg_live (mw_manager w))) as (Hnd & Hfa & Hin).
  destruct (shutdown_each_good _ _ _ _ Hg Hnd Hfa E1) as (Hg1 & Er1 & Ec1 & Hlive).
  case_bool_decide as Hf; cbn [negb] in H; [|run_in H; simplify_eq; split_and!; [done|done|congruence]]. subst f.
  assert (mg_live (mw_manager w1) = ∅) as Hnone.
  { apply map_empty. intros id. rewrite (Hlive eq_refl id). case_decide as Hd; [done|]. apply eq_None_not_Some. by rewrite <- Hin. }
  assert (exists r2 w2, close_filesystem E w1 = (r2, w2) /\
    Good w2 /\ mw_registry w2 = mw_registry w1 /\ mw_manager w2 = mw_manager w1) as (r2 & w2 & E2 & Hg2 & Er2 & Em2).
  { unfold close_filesystem. destruct (me_closer E); [|by eexists _, _]. unfold mbind, Mn_bind, ask, mret, Mn_ret. cbn. eexists _, _. split_and!; [done| |done|done].
    by apply (good_silent EvCloseFilesystem). }
  unfold mbind at 1, Mn_bind in H. rewrite E2 in H. destruct r2 as [[]|e];
    [|run_in H; simplify_eq; split_and!; [done|congruence|rewrite Em2; congruence]].
  assert (forall u c, Good (mkMw (mw_registry w2) (mkManager (mg_live (mw_manager w2)) (mg_errors (mw_manager w2)) (mg_nextToken (mw_manager w2)) u c)
    (mw_bindings w2) (mw_leases w2) (mw_monitors w2) (mw_trace w2))) as Hset.
  { intros u c. destruct Hg2 as [Hi [? ? ?]]. split; [by eapply inv_quiet; [|exact Hi]|by split]. }
  unfold mbind, Mn_bind, get_manager, put_manager in H. cbv beta iota in H. destruct (negb (mg_leaseUnlock (mw_manager w2))).
  - run_in H. simplify_eq. cbn. split_and!; [done|congruence|]. intros _ _. by rewrite Em2.
  - run_in H. simplify_eq. cbn. split_and!; [exact (good_silent EvUnlock _ eq_refl (Hset false true))|congruence|]. intros _ _. by rewrite Em2.
Qed.

(** ** Monitors *)
Lemma monitor_good mo err w r w' : Good w -> mo ∈ mw_monitors w -> monitor E mo err w = (r, w') -> Good w'.
Proof.
  intros Hg Hmo H. unfold monitor in H. unfold mbind at 1, Mn_bind in H. cbn [emit] in H. change (mkMw _ _ _ _ _ _) with (emit (EvEnded (mo_session mo)) w).2 in H.
  set (w1 := (emit (EvEnded (mo_session mo)) w).2) in H. pose proof (frame_emit (EvEnded (mo_session mo)) w) as Hf. change (emit _ w).2 with w1 in Hf.
  assert (Good w1) as Hg1.
  { split; [|eapply tok_frame; [exact Hf|apply Hg]]. rewrite (frame_owners _ _ Hf). apply (inv_ended _ _ (g_inv _ Hg)). }
  unfold mbind at 1, Mn_bind, get_manager in H. cbv zeta in H. destruct (mg_live (mw_manager w1) !! mo_id mo) as [lm|] eqn:El; [|run_in H; by simplify_eq].
  destruct (negb (bool_decide (lm_token lm = mo_token mo)) || lm_expectedDone lm) eqn:Ec; [run_in H; by simplify_eq|].
  simplify_guards. unfold mbind at 1, Mn_bind in H.
  set (lm' := set_detached (lm_expectedDone lm) lm) in *.
  assert (lm_session lm = Some (mo_session mo)) as Hs.
  { pose proof (tk_mon _ (g_tok _ Hg)) as Hm. rewrite Forall_forall in Hm. destruct (Hm mo Hmo) as [_ Hm']. by apply Hm'. }
  assert (Good (update (with_live <[mo_id mo := lm']>) w1).2) as Hg2.
  { eapply good_update; [apply Hg1|exact El|done|done|]. rewrite (frame_owners _ _ Hf).
    apply (inv_detach _ _ (g_inv _ Hg) (mo_id mo) (holding_of lm) (mo_session mo) (EvEnded (mo_session mo))); [by apply owners_lookup| |by right].
    unfold holding_of. cbn. destruct (lm_needsUnmount lm); [by left|by right]. }
  cbn [update put_manager] in H. unfold mbind at 1, Mn_bind in H. cbn [set_error update put_manager] in H.
  set (w2 := (update (with_errors <[mo_id mo := err]>) (update (with_live <[mo_id mo := lm']>) w1).2).2).
  change (mkMw _ (with_errors _ _) _ _ _ _) with w2 in H. assert (Good w2) as Hg3 by (by apply good_errors).
  unfold mbind at 1, Mn_bind in H. destruct (close_both E (lm_binding lm) (lm_viewLease lm) w2) as [r1 w3] eqn:E3.
  assert (mg_live (mw_manager w2) !! mo_id mo = Some lm') as El2 by apply lookup_insert_eq.
  destruct (close_live_good E w2 w2 (mo_id mo) lm' r1 w3 Hg3 El2 eq_refl) as (Hg4 & Hre & Hn); [|exact E3|].
  { split; try done. by rewrite insert_id. }
  assert (mg_live (mw_manager w3) !! mo_id mo = Some lm') as El3 by (rewrite (re_live _ _ _ _ Hre); apply lookup_insert_eq).
  destruct r1 as [[]|e].
  - assert (lm_token lm' = mo_token mo) as Et by done. rewrite <- Et, (delete_current_self w3 _ lm' El3) in H.
    change w' with (r, w').2. rewrite <- H. by eapply good_delete; [| |apply Hn].
  - unfold mbind, Mn_bind, get_manager in H. rewrite El3, bool_decide_eq_true_2 in H by done.
    change w' with (r, w').2. rewrite <- H. by apply good_errors.
Qed.

(** ** Histories *)
#[global] Instance monitor_eq_dec : EqDecision monitor_t.
Proof. solve_decision. Defined.

Inductive mcall :=
  | CallMount (spec : Spec) | CallUnmount (id : string) | CallRestore | CallShutdown | CallList
  | CallDone (mo : monitor_t) (err : error).

(** The goroutine of [mo] leaves. *)
Definition finish (mo : monitor_t) (w : mworld) : mworld :=
  mkMw (mw_registry w) (mw_manager w) (mw_bindings w) (mw_leases w) (filter (fun mo' => mo' <> mo) (mw_monitors w)) (mw_trace w).

Definition serve_call (c : mcall) (w : mworld) : mworld :=
  match c with
  | CallMount spec => (Mount E spec w).2
  | CallUnmount id => (Unmount E id w).2
  | CallRestore => (Restore E w).2
  | CallShutdown => (Shutdown E w).2
  | CallList => (List_mounts E w).2
  | CallDone mo err => finish mo (monitor E mo err w).2
  end.

(** A mount request names a stable specification, and a session that ends has
    its goroutine waiting. *)
Definition may_call (c : mcall) (w : mworld) : Prop :=
  match c with CallMount spec => stable_spec spec | CallDone mo _ => mo ∈ mw_monitors w | _ => True end.

Definition started (f : registry_file) : mworld := mkMw f NewManager ∅ ∅ [] [EvRegistry f].
(** A new process after a crash at the end of [tr]. *)
Definition restarted (tr : list mevent) : mworld :=
  mkMw (pf_registry (platform_of tr)) NewManager ∅ ∅ [] (EvRestart :: tr).

(** The process may crash between two calls to the outside, in the middle of
    an operation. *)
Inductive reachable : mworld -> Prop :=
  | reach_start f : loads f -> reachable (started f)
  | reach_call w c : reachable w -> may_call c w -> roomy (serve_call c w) -> reachable (serve_call c w)
  | reach_crash w c tr :
      reachable w -> may_call c w -> roomy (serve_call c w) -> suffix tr (mw_trace (serve_call c w)) -> suffix (mw_trace w) tr ->
      reachable (restarted tr).

Lemma safe_empty f : loads f -> safe (mkPlatform ∅ ∅ ∅ ∅ f).
Proof. intros Hf. split; cbn; [done|..]; intros; simplify_map_eq. Qed.

Lemma fresh_good f tr :
  loads f -> safe_trace tr -> pf_registry (platform_of tr) = f ->
  pf_attached (platform_of tr) = ∅ -> pf_open (platform_of tr) = ∅ -> pf_held (platform_of tr) = ∅ ->
  Good (mkMw f NewManager ∅ ∅ [] tr).
Proof.
  intros Hf Hs Er Ea Eo Eh. assert (forall get x, ~ owned ∅ get x) as Hno by (by intros get x (? & ? & ?%lookup_empty_Some & _)).
  split.
  - unfold owners. cbn. rewrite fmap_empty. split; [|done]. split; unfold now_at; cbn [mw_trace mw_registry mw_bindings mw_leases]; try done.
    + rewrite Ea. by intros ? ? ?%lookup_empty_Some.
    + rewrite Eo. intros b. specialize (Hno h_binding b). set_solver.
    + rewrite Eh. intros l. specialize (Hno h_lease l). set_solver.
  - split; cbn; [apply map_Forall_empty|constructor|]. unfold here. cbn. lia.
Qed.

Lemma suffix_safe tr tr' : suffix tr tr' -> safe_trace tr' -> safe_trace tr.
Proof. intros [t ->]. induction t as [|e t IH]; [done|]. cbn. intros [_ ?]. auto. Qed.

Lemma safe_now tr : safe_trace tr -> safe (platform_of tr).
Proof. destruct tr as [|e tr]; [by intros _; apply safe_empty|by intros [? _]]. Qed.

Lemma serve_good c w : Good w -> may_call c w -> roomy (serve_call c w) -> Good (serve_call c w).
Proof.
  intros Hg Hc Hr. destruct c as [spec|id| | | |mo err]; cbn in *.
  - destruct (Mount E spec w) as [r w'] eqn:Em. revert Em. unfold Mount. apply gated_good; [done|]. by apply (mount_good E Hnow).
  - destruct (Unmount E id w) as [r w'] eqn:Em. by eapply (Unmount_good E Hnow).
  - destruct (Restore E w) as [r w'] eqn:Em. by eapply Restore_good.
  - destruct (Shutdown E w) as [r w'] eqn:Em. by eapply Shutdown_run.
  - destruct (List_mounts E w) as [r w'] eqn:Em. unfold List_mounts in Em. destruct (mg_closed _); [by simplify_eq|].
    unfold mbind at 1, Mn_bind in Em. destruct (in_registry E _ w) as [r1 w1] eqn:E1. destruct (list_good E w r1 w1 Hg E1) as (Hg1 & _).
    destruct r1; run_in Em; by simplify_eq.
  - destruct (monitor E mo err w) as [r w'] eqn:Em. pose proof (monitor_good mo err w r w' Hg Hc Em) as [Hi [? Hm ?]].
    split; [by eapply inv_quiet; [|exact Hi]|]. split; [done| |done]. cbn in *. rewrite Forall_forall in *. intros mo' [_ Hin]%list_elem_of_filter. by apply Hm.
Qed.

Lemma reachable_good w : reachable w -> Good w.
Proof.
  induction 1 as [f Hf|w c _ IH Hc Hr|w c tr _ IH Hc Hr Htr _].
  - by apply fresh_good.
  - by apply serve_good.
  - assert (safe_trace tr) as Hs by (eapply suffix_safe; [exact Htr|apply (serve_good c w IH Hc Hr)]).
    pose proof (safe_now tr Hs) as Hp. apply fresh_good; try done; [by apply safe_loads|]. cbn [safe_trace platform_of observe].
    split; [|done]. destruct Hp as [Hl _ _ _ _]. split; cbn; [done|..]; intros; simplify_map_eq.
Qed.

(** C20. At every moment of every history that starts from a registry that loads
    and in which every mount request names a specification whose normal form is
    stable (normalising it again changes nothing, which the manager itself does
    not check), whatever the environment answers, which call fails and where
    the process crashed before, as long as the 64-bit session counters do not
    wrap: each session attached to the platform has a registry record of
    exactly its specification, so that a restart finds it; its writable binding
    is open and its view lease is held; and no other attached session has its
    identity. *)
Theorem mounts_always_recorded_and_backed w : reachable w -> safe_trace (mw_trace w).
Proof. intros [[_ H] _]%reachable_good. done. Qed.

(** Attached sessions exclude each other: they have different mountpoints, and
    no two of them write to the same dataset branch. *)
Theorem attached_mounts_exclusive w s1 s2 a1 a2 :
  reachable w -> pf_attached (now_at w) !! s1 = Some a1 -> pf_attached (now_at w) !! s2 = Some a2 -> s1 <> s2 ->
  mountpointKey (Mountpoint (at_spec a1)) <> mountpointKey (Mountpoint (at_spec a2)) /\
  ~ (WritePolicy (at_spec a1) = WriteBack /\ WritePolicy (at_spec a2) = WriteBack /\
     sp_DatasetID (at_spec a1) = sp_DatasetID (at_spec a2) /\ sp_Branch (at_spec a1) = sp_Branch (at_spec a2)).
Proof.
  intros [[Hc _] _]%reachable_good H1 H2 Hne. pose proof (core_safe _ _ Hc) as Hs.
  destruct (safe_recorded _ Hs _ _ H1) as (r1 & L1 & E1). destruct (safe_recorded _ Hs _ _ H2) as (r2 & L2 & E2).
  assert (ID (at_spec a1) <> ID (at_spec a2)) as Hid by (intros Eid; by apply Hne, (safe_single _ Hs _ _ _ _ H1 H2)).
  destruct (records_apart _ _ _ _ _ L1 L2 Hid) as [Hm Hw]. rewrite E1, E2 in *. split; [done|].
  intros (W1 & W2 & Ed & Eb). unfold sameWritableView in Hw. by rewrite !bool_decide_eq_true_2 in Hw.
Qed.

(** C21. Nothing leaks: in the same histories (stable specifications, counters
    that do not wrap), every attached session, open binding and held lease of this
    process belongs to a live mount of the manager, and to no other. *)
Theorem manager_owns_every_resource w :
  reachable w ->
  let live := mg_live (mw_manager w) in
  (forall s a, pf_attached (now_at w) !! s = Some a -> exists lm, live !! ID (at_spec a) = Some lm /\
     lm_session lm = Some s /\ lm_needsUnmount lm = true /\ lm_binding lm = at_binding a /\ lm_viewLease lm = at_lease a) /\
  (forall b, b ∈ pf_open (now_at w) -> exists id lm, live !! id = Some lm /\ lm_binding lm = Some b /\
     forall id' lm', live !! id' = Some lm' -> lm_binding lm' = Some b -> id' = id) /\
  (forall l, l ∈ pf_held (now_at w) -> exists id lm, live !! id = Some lm /\ lm_viewLease lm = Some l /\
     forall id' lm', live !! id' = Some lm' -> lm_viewLease lm' = Some l -> id' = id).
Proof.
  intros [[Hc _] _]%reachable_good live. split_and!.
  - intros s a Ha. destruct (c_att _ _ Hc s a Ha) as (Ho & _). unfold owners in Ho. rewrite lookup_fmap in Ho. fold live in Ho.
    destruct (live !! ID (at_spec a)) as [lm|]; [|done]. exists lm. unfold holding_of in Ho. cbn in Ho.
    destruct (lm_needsUnmount lm); by simplify_eq.
  - intros b (_ & id & h & Hl & Hb)%(c_open _ _ Hc). unfold owners in Hl. rewrite lookup_fmap in Hl. fold live in Hl.
    destruct (live !! id) as [lm|] eqn:El; [|done]. injection Hl as <-. exists id, lm. split_and!; [done|done|].
    intros id' lm' Hl' Hb'. destruct (decide (id' = id)) as [|Hne]; [done|].
    destruct (c_distinct _ _ Hc _ _ _ _ (owners_lookup _ _ _ Hl') (owners_lookup _ _ _ El) Hne) as (_ & Hd & _). by destruct (Hd b Hb').
  - intros l (_ & id & h & Hl & Hb)%(c_held _ _ Hc). unfold owners in Hl. rewrite lookup_fmap in Hl. fold live in Hl.
    destruct (live !! id) as [lm|] eqn:El; [|done]. injection Hl as <-. exists id, lm. split_and!; [done|done|].
    intros id' lm' Hl' Hb'. destruct (decide (id' = id)) as [|Hne]; [done|].
    destruct (c_distinct _ _ Hc _ _ _ _ (owners_lookup _ _ _ Hl') (owners_lookup _ _ _ El) Hne) as (_ & _ & Hd). by destruct (Hd l Hb').
Qed.

(** When a shutdown closes the manager, no session is attached, no binding is
    open and no lease is held any more, and the registry is as it was: the next
    process restores the same mounts. *)
Theorem shutdown_releases_everything w r w' :
  reachable w -> mg_closed (mw_manager w) = false -> Shutdown E w = (r, w') -> mg_closed (mw_manager w') = true ->
  pf_attached (now_at w') = ∅ /\ pf_open (now_at w') = ∅ /\ pf_held (now_at w') = ∅ /\ mw_registry w' = mw_registry w.
Proof.
  intros Hg%reachable_good Hop H Hcl. destruct (Shutdown_run w r w' Hg H) as ([[Hc _] _] & Er & Hlive).
  specialize (Hlive Hop Hcl). assert (owners w' = ∅) as Eo by (unfold owners; by rewrite Hlive, fmap_empty).
  rewrite Eo in Hc. split_and!; [| | |done].
  - apply map_empty. intros s. destruct (pf_attached (now_at w') !! s) as [a|] eqn:Ea; [|done].
    destruct (c_att _ _ Hc s a Ea) as (Hl & _). by rewrite lookup_empty in Hl.
  - apply elem_of_equiv_empty_L. intros b (_ & id & h & Hl & _)%(c_open _ _ Hc). by rewrite lookup_empty in Hl.
  - apply elem_of_equiv_empty_L. intros l (_ & id & h & Hl & _)%(c_held _ _ Hc). by rewrite lookup_empty in Hl.
Qed.
End Histories.
