(* ===== verification/MountRecovery.v ===== *)
(** Recovery of mounts after a restart, when the ports answer without error,
    and the two ways in which the registry loses track of a mount. *)

From stdpp Require Import base decidable gmap strings list.
From Stdlib Require Import Ascii ZArith Lia.
From S2P Require Import Prelude GoText CidLib Durable Journal Cache Paths Staging Registry RegistryFacts Mount MountRuns MountThms.

(** ** The registry without failures *)
Lemma mapM_total {A B} (f : A -> result B) l : Forall (fun a => exists b, f a = Ok b) l -> exists l', mapM f l = Ok l'.
Proof.
  induction 1 as [|a l [b Hb] _ [l' IH]]; [by exists []|]. exists (b :: l'). cbn. by rewrite Hb, IH.
Qed.

Lemma view_records f st : Durable.view f = Some st -> records f = Records st.
Proof. intros H. unfold records. by rewrite H. Qed.

Lemma loads_records f : loads f -> exists st, Durable.view f = Some st /\ records f = Records st /\ wf st.
Proof.
  intros [st Hv]%loads_view. exists st. split_and!; [done|by apply view_records|by eapply registry_view_wf].
Qed.

Lemma view_same st st' : Durable.view (Some (Decodes st)) = Some st' -> st' = st.
Proof.
  unfold Durable.view, reload. cbn [io_ok negb fail_if mbind result_bind]. destruct (ds_decode st) as [s|] eqn:Ed; [|done].
  intros [= <-]. unfold ds_decode in Ed. cbn in Ed. unfold decode in Ed. simplify_result. simplify_guards. by destruct st; cbn in *; subst.
Qed.

(** Mounting again what is recorded as desired. *)
Lemma PutDesired_again now spec f r :
  now <> 0%Z -> loads f -> records f !! ID spec = Some r -> rec_Spec r = spec -> Desired r = true ->
  exists f', PutDesired io_ok now spec f = (Ok (mkRecord spec true now), f') /\
    records f' = <[ID spec := mkRecord spec true now]> (records f) /\ loads f'.
Proof.
  intros Hnow Hl Hr <- Hd. destruct (loads_records f Hl) as (st & Hv & Er & Hwf). rewrite Er in Hr.
  destruct (wf_records _ Hwf _ _ Hr) as [Hn _ _]. unfold PutDesired, withState. rewrite Hn.
  assert (exists st', putLocked now (rec_Spec r) st = Ok (mkRecord (rec_Spec r) true now, st') /\
    Records st' = <[ID (rec_Spec r) := mkRecord (rec_Spec r) true now]> (Records st)) as (st' & Hp & Est).
  { unfold putLocked. rewrite Hr, bool_decide_eq_true_2, Hd by done. cbn.
    destruct (mapM_total (check_other (rec_Spec r)) (map_to_list (Records st))) as [l' ->]; [|cbn; eauto].
    apply Forall_forall. intros [id other] Hin%elem_of_map_to_list. exists (). unfold check_other.
    destruct (decide (id = ID (rec_Spec r))) as [->|Hne]; [by rewrite bool_decide_eq_true_2|].
    destruct (wf_apart _ Hwf _ _ _ _ Hin Hr Hne) as [Hm Hw].
    rewrite (bool_decide_eq_false_2 (id = _)), (bool_decide_eq_false_2 (mountpointKey _ = _)) by done. cbn. by rewrite Hw. }
  assert (wf st') as Hwf' by (eapply putLocked_wf; [..|exact Hp]; done).
  eexists. split; [by apply (with_state_ok synced_writer eq_refl true _ f st)|].
  rewrite (records_Decodes _ Hwf'), Er. split; [done|by apply (loads_Decodes (S := registry_store))].
Qed.

Lemma DeleteUnmounted_now id f r :
  loads f -> TrimSpace id = id -> records f !! id = Some r -> Desired r = false ->
  exists f', DeleteUnmounted io_ok id f = (Ok (), f') /\ records f' = base.delete id (records f) /\ loads f'.
Proof.
  intros Hl Ht Hr Hd. destruct (loads_records f Hl) as (st & Hv & Er & Hwf). rewrite Er in Hr.
  unfold DeleteUnmounted, withState. rewrite Ht.
  assert (deleteLocked id st = Ok ((), mkRegistry registryVersion (base.delete id (Records st)))) as Hp.
  { unfold deleteLocked. by rewrite Hr; cbn; rewrite Hd. }
  assert (wf (mkRegistry registryVersion (base.delete id (Records st)))) as Hwf' by (by eapply deleteLocked_wf).
  eexists. split; [by apply (with_state_ok synced_writer eq_refl true _ f st)|].
  rewrite (records_Decodes _ Hwf'), Er. split; [done|by apply (loads_Decodes (S := registry_store))].
Qed.

(** A successful [PutDesired] leaves a registry that loads exactly when the
    normal form of the specification is itself normal. *)
Lemma put_desired_loads_iff_stable w now spec f r f' :
  now <> 0%Z -> loads f -> PutDesired w now spec f = (Ok r, f') ->
  loads f' <-> normalizeSpec (rec_Spec r) = Ok (rec_Spec r).
Proof.
  intros Hnow Hl H. destruct (loads_records f Hl) as (st & Hv & Er & Hwf). unfold PutDesired, withState in H.
  destruct (normalizeSpec spec) as [s|] eqn:En; [|done]. apply with_state_cases in H as [[_ ?]|(st0 & r0 & st' & Hv0 & Hp & -> & Hr)]; [done| |done].
  assert (st0 = st) as -> by congruence. rewrite (Hr r eq_refl). pose proof Hp as Hp'. unfold putLocked in Hp'. simplify_result. split.
  - intros (st' & Hv' & _ & [_ Hrec _])%loads_records.
    assert (st' = mkRegistry registryVersion (<[ID s := mkRecord s true now]> (Records st))) as ->.
    { by apply view_same in Hv'. }
    by destruct (Hrec (ID s) (mkRecord s true now) (lookup_insert_eq _ _ _)) as [? _ _].
  - intros Hs. apply (loads_Decodes (S := registry_store)). by eapply putLocked_wf.
Qed.

(** The sections that the registry offers, each with the system calls that may
    fail during it: whether it succeeded, and the file after it. *)
Inductive reg_section :=
  | SOpen (path : string) | SList | SGet (id : string) | SPut (now : time) (spec : Spec)
  | SMark (now : time) (id : string) | SDelete (id : string).
Definition judged {A} (r : result A * registry_file) : bool * registry_file := (is_ok r.1, r.2).
Definition enter (w : io) (c : reg_section) (f : registry_file) : bool * registry_file :=
  match c with
  | SOpen path => judged (OpenStore w path f)
  | SList => judged (List_records w f)
  | SGet id => judged (Get w id f)
  | SPut now spec => judged (PutDesired w now spec f)
  | SMark now id => judged (MarkPendingUnmount w now id f)
  | SDelete id => judged (DeleteUnmounted w id f)
  end.

Lemma unloadable_section {A} w b (op : registryState -> result (A * registryState)) (f : registry_file) :
  Durable.view f = None -> judged (withState w b op f) = (false, f).
Proof.
  intros Hn. unfold judged, withState. destruct (with_state synced_writer w b op f) as [r f'] eqn:E. apply with_state_inv in E as [Hf Hr]; [|done].
  assert (f' = f) as -> by (destruct Hf as [->|(s & a & s' & _ & Hv & _)]; congruence).
  destruct r as [a|e]; [|done]. destruct (Hr a eq_refl) as (s & s' & Hv & _). congruence.
Qed.
Lemma unloadable_enter w c (f : registry_file) : Durable.view f = None -> enter w c f = (false, f).
Proof.
  intros Hn. destruct c; cbn [enter]; unfold OpenStore, List_records, Get, PutDesired, MarkPendingUnmount, DeleteUnmounted; cbv zeta;
    first [by apply unloadable_section | case_bool_decide; [done|by apply unloadable_section] | destruct (normalizeSpec spec); [by apply unloadable_section|done]].
Qed.

(** C37. A mount request whose recorded form is not stable under normalisation
    makes the registry unusable.  When [PutDesired] records a specification
    that normalises to something else (such as the mountpoint "/mnt/b /", which
    becomes "/mnt/b " and then "/mnt/b"), the file it leaves does not load: in
    every sequence of later sections, of this or any other process, each one
    (opening, listing, reading, recording, marking or deleting) fails and
    leaves the file as it is, so that no mount can be listed, restored or
    unmounted any more. *)
Theorem unstable_mount_bricks_registry w now spec f r f' h c :
  now <> 0%Z -> loads f -> PutDesired w now spec f = (Ok r, f') -> normalizeSpec (rec_Spec r) <> Ok (rec_Spec r) ->
  ~ loads f' /\ foldl (fun f '(w, c) => (enter w c f).2) f' h = f' /\ forall w, enter w c f' = (false, f').
Proof.
  intros Hnow Hl H Hs. assert (~ loads f') as Hn by (by rewrite (put_desired_loads_iff_stable _ _ _ _ _ _ Hnow Hl H)).
  assert (Durable.view f' = None) as Hv by (destruct (Durable.view f') eqn:E; [destruct Hn; by eapply view_loads|done]).
  split; [done|]. split; [|intros w'; by apply unloadable_enter].
  induction h as [|[w' c'] h IH]; [done|]. cbn [foldl]. by rewrite (unloadable_enter w' c' f' Hv).
Qed.

(** ** Ports that answer without error *)
Section Recovery.
Context {L : CidLib} (E : menv).

Record healthy : Prop := {
  hl_now : forall t, me_now E t <> 0%Z;
  hl_io : forall t, me_io E t = io_ok;
  hl_gate : forall t, me_gate E t = None;
  hl_select : forall t spec, exists view, me_SelectView E t spec = Ok view /\ check_view spec view = Ok view;
  hl_acquire : forall t, me_AcquireView E t = Ok ();
  hl_writable : me_writable E = true;
  hl_bind : forall t, me_BindWritable E t = (true, None);
  hl_mount : forall t, me_Mount E t = mkAnswer true true None;
  hl_recover : forall t, me_RecoverUnmount E t = Ok ()
}.
Context (H : healthy).

Lemma attached_below tr : map_Forall (fun s _ => s < length tr) (pf_attached (platform_of tr)).
Proof.
  induction tr as [|e tr IH]; [apply map_Forall_empty|].
  assert (map_Forall (fun s _ => s < length (e :: tr)) (pf_attached (platform_of tr))) as IH'.
  { intros s a Hs. specialize (IH s a Hs). cbn in *. lia. }
  destruct e as [| |? []|? []|? ? []|? []|? ? ? []|? []|? []| | | |]; cbn; try done; try by apply map_Forall_delete.
  - apply map_Forall_insert_2; [lia|done].
Qed.

(** The effect of a mount on the state of the manager and of the platform. *)
Record mounts (spec : Spec) (w w' : mworld) : Prop := {
  mt_loads : loads (mw_registry w');
  mt_records : exists now, records (mw_registry w') = <[ID spec := mkRecord spec true now]> (records (mw_registry w));
  mt_closed : mg_closed (mw_manager w') = mg_closed (mw_manager w);
  mt_live : exists lm s a, mg_live (mw_manager w') = <[ID spec := lm]> (mg_live (mw_manager w)) /\ lm_cleanupOnly lm = false /\
    lm_session lm = Some s /\ pf_attached (now_at w') = <[s := a]> (pf_attached (now_at w)) /\ at_spec a = spec /\
    pf_attached (now_at w) !! s = None;
  mt_stale : pf_stale (now_at w') = pf_stale (now_at w) ∖ {[ID spec]}
}.

Lemma attach_healthy record view b l w :
  exists st w', attach E record view b l w = ((st, None), w') /\ mw_registry w' = mw_registry w /\
    mg_closed (mw_manager w') = mg_closed (mw_manager w) /\
    mg_live (mw_manager w') = <[ID (rec_Spec record) :=
      mkLive (Some (here w)) view b l (mg_nextToken (mw_manager w)) false true false]> (mg_live (mw_manager w)) /\
    now_at w' = observe (here w) (EvMount (rec_Spec record) b l true) (now_at w).
Proof.
  unfold attach. unfold mbind at 1, Mn_bind, ask. rewrite (hl_mount H). cbn [emit aa_session aa_done aa_err].
  unfold install_live, next_token, mbind, Mn_bind, get_manager, put_manager, mret, Mn_ret, clear_error, update, spawn. cbv beta iota zeta.
  eexists _, _. split; [reflexivity|]. by split_and!.
Qed.

Lemma select_healthy spec w : exists view, selectView E spec w = (Ok view, (emit (EvSelect spec) w).2).
Proof.
  destruct (hl_select H (here w) spec) as (view & Es & Hv). exists view. unfold selectView, mbind, Mn_bind, ask. rewrite Es. cbn.
  unfold mret, Mn_ret. by rewrite Hv.
Qed.

Lemma mount_fresh_healthy record w :
  exists st w' lm s a, mount_fresh E record w = ((st, None), w') /\ mw_registry w' = mw_registry w /\
    mg_closed (mw_manager w') = mg_closed (mw_manager w) /\
    mg_live (mw_manager w') = <[ID (rec_Spec record) := lm]> (mg_live (mw_manager w)) /\ lm_cleanupOnly lm = false /\
    lm_session lm = Some s /\ pf_attached (now_at w') = <[s := a]> (pf_attached (now_at w)) /\ at_spec a = rec_Spec record /\
    here w <= s /\ pf_stale (now_at w') = pf_stale (now_at w) ∖ {[ID (rec_Spec record)]}.
Proof.
  unfold mount_fresh. unfold mbind at 1, Mn_bind. destruct (select_healthy (rec_Spec record) w) as [view ->].
  set (w1 := (emit (EvSelect (rec_Spec record)) w).2).
  assert (exists l w2, acquireViewLease E view w1 = (Ok l, w2) /\ mw_registry w2 = mw_registry w /\ mw_manager w2 = mw_manager w /\
    pf_attached (now_at w2) = pf_attached (now_at w) /\ pf_stale (now_at w2) = pf_stale (now_at w) /\ here w <= here w2) as (l & w2 & E2 & R2 & M2 & A2 & S2 & T2).
  { unfold acquireViewLease. destruct (negb (me_leases E)); [eexists _, _; split; [done|]; split_and!; try done; unfold here; cbn; lia|].
    unfold mbind, Mn_bind, ask. rewrite (hl_acquire H). cbn. eexists _, _. split; [done|]. split_and!; try done. unfold here; cbn; lia. }
  unfold mbind at 1, Mn_bind. rewrite E2.
  assert (exists b w3, bindWritable E (rec_Spec record) view w2 = ((Ok b, None), w3) /\ mw_registry w3 = mw_registry w2 /\ mw_manager w3 = mw_manager w2 /\
    pf_attached (now_at w3) = pf_attached (now_at w2) /\ pf_stale (now_at w3) = pf_stale (now_at w2) /\ here w2 <= here w3) as (b & w3 & E3 & R3 & M3 & A3 & S3 & T3).
  { unfold bindWritable. destruct (negb (bool_decide _)); [by eexists _, _|]. rewrite (hl_writable H). cbn [negb].
    unfold mbind, Mn_bind, ask. rewrite (hl_bind H). cbn. eexists _, _. split; [done|]. split_and!; try done. unfold here; cbn; lia. }
  unfold mbind at 1, Mn_bind. rewrite E3. destruct (attach_healthy record view b l w3) as (st & w4 & -> & R4 & C4 & L4 & N4).
  eexists st, w4, _, (here w3), _. split; [done|]. rewrite R4, C4, L4, N4, M3, M2. cbn. rewrite A3, A2, S3, S2. split_and!; try done; [congruence|lia].
Qed.

Lemma mount_healthy spec w r :
  loads (mw_registry w) -> records (mw_registry w) !! ID spec = Some r -> rec_Spec r = spec -> Desired r = true ->
  mg_live (mw_manager w) !! ID spec = None -> exists st w', mount E spec w = ((st, None), w') /\ mounts spec w w'.
Proof.
  intros Hl Hr Hs Hd Hn. unfold mount. unfold mbind at 1, Mn_bind, in_registry. rewrite (hl_io H).
  destruct (PutDesired_again (me_now E (here w)) spec (mw_registry w) r) as (f' & -> & Ef & Hl'); [apply (hl_now H)|done..|].
  unfold mbind at 1, Mn_bind, get_manager. cbn [mw_manager rec_Spec]. rewrite Hn. set (w1 := mkMw _ _ _ _ _ _).
  destruct (mount_fresh_healthy (mkRecord spec true (me_now E (here w))) w1) as (st & w' & lm & s & a & -> & R & C & Lv & Hc & Hses & Ha & Hspec & Hge & Hst).
  exists st, w'. split; [done|]. split.
  - by rewrite R.
  - rewrite R. by eexists.
  - done.
  - exists lm, s, a. split_and!; try done. destruct (pf_attached (now_at w) !! s) as [a'|] eqn:Es; [|done].
    pose proof (attached_below (mw_trace w) s a' Es) as Hb. subst w1. unfold here in Hge. cbn in Hge, Hb. lia.
  - done.
Qed.

Lemma recover_healthy spec w : RecoverUnmount E spec w = (Ok (), (emit (EvRecover spec true) w).2).
Proof. unfold RecoverUnmount, mbind, Mn_bind, ask. by rewrite (hl_recover H). Qed.

(** ** Restore *)
Definition rid (r : MountRecord) : string := ID (rec_Spec r).
Definition dead (l : list MountRecord) : list string := rid <$> filter (fun r => Desired r = false) l.
Definition wanted (l : list MountRecord) : list string := rid <$> filter (fun r => Desired r = true) l.

Lemma tombstones_healthy l w :
  loads (mw_registry w) -> NoDup (rid <$> l) -> Forall (fun r => records (mw_registry w) !! rid r = Some r) l ->
  exists w', restore_tombstones E l w = ([], w') /\ loads (mw_registry w') /\ mw_manager w' = mw_manager w /\
    (forall id, records (mw_registry w') !! id = if decide (id ∈ dead l) then None else records (mw_registry w) !! id) /\
    (forall id, id ∈ pf_stale (now_at w') -> id ∈ pf_stale (now_at w) /\ id ∉ dead l).
Proof.
  revert w. induction l as [|record l IH]; intros w Hl Hnd Hf; cbn [restore_tombstones].
  { exists w. split_and!; try done. intros id Hid. split; [done|]. apply not_elem_of_nil. }
  cbn [fmap list_fmap] in Hnd. apply NoDup_cons in Hnd as [Hni Hnd]. apply Forall_cons in Hf as [Hr Hf].
  unfold dead. destruct (Desired record) eqn:Ed.
  { destruct (IH w Hl Hnd Hf) as (w' & E' & ?). exists w'. rewrite filter_cons_False by congruence. done. }
  rewrite filter_cons_True by done. cbn [fmap list_fmap]. fold (dead l). unfold mbind at 1, Mn_bind. rewrite recover_healthy.
  destruct (records_ok _ _ _ Hr) as [Hn _ _]. destruct (normalizeSpec_usable _ _ Hn) as [_ Ht].
  destruct (DeleteUnmounted_now (rid record) (mw_registry w) record Hl Ht Hr Ed) as (f' & Edel & Er & Hl'). unfold rid in Edel.
  unfold mbind at 1. unfold mbind at 1. unfold in_registry. rewrite (hl_io H). cbn [emit snd mw_registry]. rewrite Edel.
  set (w1 := mkMw _ _ _ _ _ _). unfold mret at 1, Mn_ret.
  destruct (IH w1 Hl' Hnd) as (w' & E1 & Hl1 & Hm1 & Hrec & Hst).
  { eapply Forall_impl; [|intros r Hr'; exact Hr']. rewrite Forall_forall in Hf |- *. intros r Hin. cbn. rewrite Er.
    rewrite lookup_delete_ne; [by apply Hf|]. intros Eid. apply Hni. rewrite Eid. by apply list_elem_of_fmap_2. }
  unfold mbind at 1. rewrite E1. exists w'. split; [done|]. split_and!; [done|done| |].
  - intros id. rewrite Hrec. cbn [w1 mw_registry]. rewrite Er. destruct (decide (id = rid record)) as [->|Hne].
    + rewrite lookup_delete_eq. rewrite (decide_True (P := rid record ∈ _ :: _)) by left. by case_decide.
    + rewrite lookup_delete_ne by done. destruct (decide (id ∈ dead l)); [by rewrite decide_True by by right|].
      rewrite decide_False; [done|]. by intros [?|?]%elem_of_cons.
  - intros id [Hin Hnd']%Hst. cbn in Hin. apply elem_of_difference in Hin as [Hin Hne]. split; [done|].
    rewrite not_elem_of_cons. split; [|done]. by intros ->; apply Hne, elem_of_singleton.
Qed.

(** The mount of a specification works. *)
Definition mounted_now (spec : Spec) (w : mworld) : Prop :=
  exists r lm s a, records (mw_registry w) !! ID spec = Some r /\ rec_Spec r = spec /\ Desired r = true /\
    mg_live (mw_manager w) !! ID spec = Some lm /\ lm_cleanupOnly lm = false /\ lm_session lm = Some s /\
    pf_attached (now_at w) !! s = Some a /\ at_spec a = spec.

Lemma mounted_elsewhere spec spec' w w' : mounts spec' w w' -> ID spec' <> ID spec -> mounted_now spec w -> mounted_now spec w'.
Proof.
  intros [_ [now Er] _ (lm' & s' & a' & El & _ & _ & Ea & _ & Hfr) _] Hne (r & lm & s & a & H1 & H2 & H3 & H4 & H5 & H6 & H7 & H8).
  exists r, lm, s, a. assert (s' <> s) by (intros ->; congruence). rewrite Er, El, Ea, !lookup_insert_ne by done. done.
Qed.

Lemma mounted_here spec w w' : mounts spec w w' -> mounted_now spec w'.
Proof.
  intros [_ [now Er] _ (lm & s & a & El & Hc & Hs & Ea & Hsp & _) _]. exists (mkRecord spec true now), lm, s, a.
  by rewrite Er, El, Ea, !lookup_insert_eq.
Qed.

Lemma desired_healthy l w :
  loads (mw_registry w) -> NoDup (rid <$> l) ->
  Forall (fun record => Desired record = true -> mg_live (mw_manager w) !! rid record = None /\
    exists r, records (mw_registry w) !! rid record = Some r /\ rec_Spec r = rec_Spec record /\ Desired r = true) l ->
  exists w', restore_desired E l w = ([], w') /\ loads (mw_registry w') /\
    (forall id, id ∉ wanted l -> records (mw_registry w') !! id = records (mw_registry w) !! id) /\
    (forall spec, ID spec ∉ wanted l -> mounted_now spec w -> mounted_now spec w') /\
    (forall record, record ∈ l -> Desired record = true -> mounted_now (rec_Spec record) w') /\
    (forall id, id ∈ pf_stale (now_at w') -> id ∈ pf_stale (now_at w) /\ id ∉ wanted l).
Proof.
  revert w. induction l as [|record l IH]; intros w Hl Hnd Hf; cbn [restore_desired].
  { exists w. split_and!; try done; [by intros ? ?%not_elem_of_nil|]. intros id Hid. split; [done|]. apply not_elem_of_nil. }
  cbn [fmap list_fmap] in Hnd. apply NoDup_cons in Hnd as [Hni Hnd]. apply Forall_cons in Hf as [Hr Hf].
  unfold wanted. destruct (Desired record) eqn:Ed; cbn [negb].
  2: { destruct (IH w Hl Hnd Hf) as (w' & E' & Hl' & H1 & H2 & H3 & H4). exists w'. rewrite filter_cons_False by congruence.
       split_and!; try done. intros r [->|Hin]%elem_of_cons; [congruence|by apply H3]. }
  rewrite filter_cons_True by done. cbn [fmap list_fmap]. fold (wanted l). destruct (Hr eq_refl) as (Hn & r & Hrec & Hs & Hd).
  destruct (mount_healthy (rec_Spec record) w r Hl Hrec Hs Hd Hn) as (st & w1 & Em & Hm).
  pose proof Hm as [Hl1 [now Er] _ (lm & s & a & El & _) Hst]. unfold mbind at 1, Mn_bind. rewrite Em.
  assert (rid record ∉ wanted l) as Hnw.
  { intros Hin. apply Hni. unfold wanted in Hin. apply list_elem_of_fmap in Hin as (r' & -> & [_ Hin]%list_elem_of_filter). by apply list_elem_of_fmap_2. }
  destruct (IH w1 Hl1 Hnd) as (w' & E' & Hl' & H1 & H2 & H3 & H4).
  { rewrite Forall_forall in Hf |- *. intros r' Hin Hd'. assert (rid record <> rid r') as Hne.
    { intros Eid. apply Hni. rewrite Eid. by apply list_elem_of_fmap_2. }
    destruct (Hf r' Hin Hd') as (Hn' & Hr'). unfold rid in *. by rewrite El, Er, !lookup_insert_ne by done. }
  unfold mbind at 1. rewrite E'. exists w'. split; [done|]. split_and!; [done| | | |].
  - intros id [Hne Hid]%not_elem_of_cons. rewrite H1 by done. by rewrite Er, lookup_insert_ne by (intros Eid; by apply Hne).
  - intros spec [Hne Hid]%not_elem_of_cons Hmo. apply H2; [done|]. eapply mounted_elsewhere; [exact Hm|by intros Eid; apply Hne|done].
  - intros r' [->|Hin]%elem_of_cons Hd'; [|by apply H3]. apply H2; [done|by eapply mounted_here].
  - intros id [Hin Hid]%H4. rewrite Hst in Hin. apply elem_of_difference in Hin as [Hin Hne]. split; [done|].
    rewrite not_elem_of_cons. split; [|done]. by intros ->; apply Hne, elem_of_singleton.
Qed.

Lemma list_healthy w :
  loads (mw_registry w) ->
  exists l, in_registry E (fun io _ => List_records io) w =
    (Ok l, mkMw (mw_registry w) (mw_manager w) (mw_bindings w) (mw_leases w) (mw_monitors w) (EvRegistry (mw_registry w) :: mw_trace w)) /\
    NoDup (rid <$> l) /\ forall r, r ∈ l <-> records (mw_registry w) !! rid r = Some r.
Proof.
  intros (st & Hv & Er & Hwf)%loads_records. unfold in_registry. rewrite (hl_io H).
  set (l := sort_by_string (fun r => ID (rec_Spec r)) (map_to_list (Records st)).*2).
  assert (List_records io_ok (mw_registry w) = (Ok l, mw_registry w)) as ->.
  { unfold List_records, withState. by eapply (with_state_ok synced_writer eq_refl false _ _ st). }
  exists l. split; [done|]. assert (l ≡ₚ (map_to_list (Records st)).*2) as Hp by apply sort_by_Permutation.
  assert (rid <$> (map_to_list (Records st)).*2 = (map_to_list (Records st)).*1) as Ek.
  { rewrite <- list_fmap_compose. apply list_fmap_ext. intros i [id r] Hl. apply list_elem_of_lookup_2, elem_of_map_to_list in Hl.
    unfold rid. cbn. apply (ro_id _ _ (wf_records _ Hwf _ _ Hl)). }
  split; [rewrite Hp, Ek; apply NoDup_fst_map_to_list|]. intros r. rewrite Hp, Er, list_elem_of_fmap. split.
  - intros ([id r'] & -> & Hin%elem_of_map_to_list). cbn. unfold rid. by rewrite (ro_id _ _ (wf_records _ Hwf _ _ Hin)).
  - intros Hl. exists (rid r, r). split; [done|]. by apply elem_of_map_to_list.
Qed.

(** C22. Recovery: a fresh manager whose ports answer without error restores the
    registry completely.  Every desired record is mounted, with an attached
    session of its specification; every tombstone is gone from the registry;
    nothing else is recorded; and no mount of a recorded identity is left
    behind by an earlier process. *)
Theorem restore_recovers w :
  loads (mw_registry w) -> mg_live (mw_manager w) = ∅ -> mg_closed (mw_manager w) = false ->
  exists w', Restore E w = (Ok (), w') /\
    (forall id r, records (mw_registry w) !! id = Some r ->
       (if Desired r then mounted_now (rec_Spec r) w' else records (mw_registry w') !! id = None) /\ id ∉ pf_stale (now_at w')) /\
    (forall id, records (mw_registry w) !! id = None -> records (mw_registry w') !! id = None).
Proof.
  intros Hl Hn Hc. unfold Restore, gated. rewrite (hl_gate H), Hc. unfold mbind at 1, Mn_bind, get_manager.
  rewrite bool_decide_eq_true_2 by done. cbn [negb]. destruct (list_healthy w Hl) as (l & E0 & Hnd & Hin).
  unfold mbind at 1. rewrite E0. unfold then_. set (w0 := mkMw _ _ _ _ _ _).
  assert (Forall (fun r => records (mw_registry w0) !! rid r = Some r) l) as Hf by (apply Forall_forall; intros r; apply Hin).
  destruct (tombstones_healthy l w0 Hl Hnd Hf) as (w1 & E1 & Hl1 & Hm1 & Hr1 & Hs1). unfold mbind at 1. rewrite E1.
  assert (forall r, r ∈ l -> Desired r = true -> rid r ∉ dead l) as Hnd'.
  { intros r Hr Hd Hdead. unfold dead in Hdead. apply list_elem_of_fmap in Hdead as (r' & Eid & [Hd' Hr']%list_elem_of_filter).
    assert (r = r') by (by eapply NoDup_key_inj). congruence. }
  destruct (desired_healthy l w1 Hl1 Hnd) as (w2 & E2 & Hl2 & Hr2 & _ & Hmo & Hs2).
  { apply Forall_forall. intros r Hr Hd. split; [rewrite Hm1; cbn [w0 mw_manager]; rewrite Hn; apply lookup_empty|].
    exists r. rewrite Hr1, decide_False by auto. split; [by apply Hin|done]. }
  unfold mbind at 1. rewrite E2. exists w2. split; [done|]. split.
  - intros id r Hid. assert (rid r = id) as <- by (by apply (ro_id _ _ (records_ok _ _ _ Hid))).
    assert (r ∈ l) as Hrl by (by apply Hin). destruct (Desired r) eqn:Ed.
    + split; [by apply Hmo|]. intros [_ Hst]%Hs2. apply Hst. unfold wanted. apply list_elem_of_fmap_2, list_elem_of_filter. done.
    + assert (rid r ∈ dead l) as Hd by (by apply list_elem_of_fmap_2, list_elem_of_filter). split; [|by intros [[_ ?]%Hs1 _]%Hs2].
      rewrite Hr2, Hr1, decide_True; [done|done|]. unfold wanted. intros (r' & Eid & [Hd' Hr']%list_elem_of_filter)%list_elem_of_fmap.
      assert (r = r') by (by eapply NoDup_key_inj). congruence.
  - intros id Hid. rewrite Hr2, Hr1; [case_decide; [done|exact Hid]|]. unfold wanted.
    intros (r & -> & [_ Hr%Hin]%list_elem_of_filter)%list_elem_of_fmap. congruence.
Qed.
End Recovery.
