(* ===== verification/MountWitness.v ===== *)
(** The mount theorems at concrete histories, and two histories in which the
    registry and the platform disagree. *)

From stdpp Require Import base decidable gmap strings list.
From Stdlib Require Import Ascii ZArith Lia.
From S2P Require Import Prelude GoText CidLib Durable Journal Cache Paths Staging Registry RegistryFacts Mount MountRuns MountThms MountRecovery.

Module Mounts.
Import TallyCid.

Ltac evaluate := vm_compute; reflexivity.

Definition spec_at (id dataset mountpoint write layout : string) : Spec :=
  mkSpec id dataset "main" mountpoint "docs" EmptyString write layout 0 EmptyString.
Definition writer : Spec := spec_at "w" "d" "/mnt/w" WriteBack LayoutFlatV1.
Definition reader : Spec := spec_at "r" "d" "/mnt/r" EmptyString EmptyString.

Definition accepted_view (spec : Spec) : View (L := TallyCid.lib) :=
  mkView (sp_DatasetID spec) (sp_Branch spec) (Some 1) 1 (sp_EncryptionEpoch spec).
Definition accepted (spec : Spec) : result View := Ok (accepted_view spec).

(** Ports that answer without error, except that the binder returns a binding
    with an error at the positions [fails], and that it cannot be closed at
    [busy]. *)
Definition ports (fails busy : nat -> bool) : menv (L := TallyCid.lib) :=
  mkMenv (fun _ => io_ok) (fun _ => 7%Z) (fun _ => None) "fuse" true true true
    (fun _ => accepted) (fun _ => Ok ()) (fun _ => Ok ())
    (fun t => (true, if fails t then Some (Errorf "no layout") else None)) (fun t => if busy t then Err (Errorf "busy") else Ok ())
    (fun _ => mkAnswer true true None) (fun _ => Ok ()) (fun _ => Ok ()) (fun _ => Ok ()) (fun _ => Ok ()).
Definition never (_ : nat) : bool := false.
Definition good : menv := ports never never.

Lemma good_now t : me_now good t <> 0%Z.
Proof. discriminate. Qed.

Definition is_stable (spec : Spec) : bool :=
  match normalizeSpec spec with
  | Ok s => match normalizeSpec s with Ok s' => bool_decide (s' = s) | Err _ => false end
  | Err _ => true
  end.
Lemma stable_by (spec : Spec) : is_stable spec = true -> stable_spec spec.
Proof.
  unfold is_stable. intros H s Hs. rewrite Hs in H. destruct (normalizeSpec s) as [s'|]; [|discriminate H].
  apply bool_decide_eq_true in H as ->. reflexivity.
Qed.
Lemma writer_stable : stable_spec writer.
Proof. apply stable_by. evaluate. Qed.
Lemma reader_stable : stable_spec reader.
Proof. apply stable_by. evaluate. Qed.

Lemma roomy_by w : (N.of_nat (length (mw_trace w)) + 2 <? two64)%N = true -> roomy w.
Proof. unfold roomy, here. apply N.ltb_lt. Qed.

(** Two mounts. *)
Definition first : mworld := serve_call good (CallMount writer) (started None).
Definition both : mworld := serve_call good (CallMount reader) first.


Lemma first_reached : reachable good first.
Proof. apply reach_call; [by apply reach_start|apply writer_stable|]. apply roomy_by. evaluate. Qed.
Lemma both_reached : reachable good both.
Proof. apply reach_call; [apply first_reached|apply reader_stable|]. apply roomy_by. evaluate. Qed.

Definition attachments (w : mworld (L := TallyCid.lib)) : list (nat * string) :=
  (fun sa => (sa.1, ID (at_spec sa.2))) <$> map_to_list (pf_attached (now_at w)).

(** ** Witnesses *)
Lemma mounts_always_recorded_and_backed_witness : safe_trace (mw_trace both).
Proof. apply (mounts_always_recorded_and_backed good good_now both both_reached). Defined.

Definition attached_to (w : mworld (L := TallyCid.lib)) (s : nat) : attachment := default (mkAttach writer None None) (pf_attached (now_at w) !! s).
Lemma attached_by (w : mworld (L := TallyCid.lib)) s :
  bool_decide (is_Some (pf_attached (now_at w) !! s)) = true -> pf_attached (now_at w) !! s = Some (attached_to w s).
Proof. unfold attached_to. by intros [a ->]%bool_decide_eq_true. Qed.

Lemma attached_mounts_exclusive_witness :
  mountpointKey (Mountpoint (at_spec (attached_to both 5))) <> mountpointKey (Mountpoint (at_spec (attached_to both 9))).
Proof.
  apply (attached_mounts_exclusive good good_now both 5 9 _ _ both_reached);
    [apply attached_by; evaluate|apply attached_by; evaluate|discriminate].
Defined.

Lemma manager_owns_every_resource_witness :
  exists lm, mg_live (mw_manager both) !! ID (at_spec (attached_to both 5)) = Some lm /\ lm_session lm = Some 5.
Proof.
  destruct (manager_owns_every_resource good good_now both both_reached) as (H & _).
  destruct (H 5 (attached_to both 5)) as (lm & H1 & H2 & _); [apply attached_by; evaluate|]. exists lm. split; [exact H1|exact H2].
Defined.

Lemma shutdown_releases_everything_witness :
  pf_attached (now_at (Shutdown good both).2) = ∅ /\ mw_registry (Shutdown good both).2 = mw_registry both.
Proof.
  destruct (shutdown_releases_everything good good_now both (Shutdown good both).1 (Shutdown good both).2 both_reached) as (H1 & _ & _ & H2).
  - evaluate.
  - apply surjective_pairing.
  - evaluate.
  - split; [exact H1|exact H2].
Defined.

Lemma ports_healthy : healthy good.
Proof.
  split; try done. intros t spec.
  exists (accepted_view spec).
  split; [reflexivity|]. unfold check_view. cbn. by rewrite !bool_decide_eq_true_2.
Qed.

(** A restart after a crash with two mounts and one pending unmount. *)
Definition pending : mworld := serve_call (ports never (fun t => t =? 12)) (CallUnmount "w") both.
Definition again : mworld := restarted (mw_trace pending).

Lemma loads_by (f : registry_file) : bool_decide (is_Some (Durable.view f)) = true -> loads f.
Proof. intros [s H]%bool_decide_eq_true. exact (view_loads f s H). Qed.

Definition record_at (w : mworld (L := TallyCid.lib)) (id : string) : MountRecord :=
  default (mkRecord writer true 0) (records (mw_registry w) !! id).
Lemma record_by (w : mworld (L := TallyCid.lib)) id :
  bool_decide (is_Some (records (mw_registry w) !! id)) = true -> records (mw_registry w) !! id = Some (record_at w id).
Proof. unfold record_at. by intros [r ->]%bool_decide_eq_true. Qed.
Lemma if_desired (r : MountRecord) (P Q : Prop) (b : bool) : Desired r = b -> (if Desired r then P else Q) -> if b then P else Q.
Proof. by intros ->. Qed.

Lemma restore_recovers_witness :
  exists w', Restore good again = (Ok (), w') /\ records (mw_registry w') !! "w" = None /\
    mounted_now (rec_Spec (record_at again "r")) w' /\ "w" ∉ pf_stale (now_at w').
Proof.
  destruct (restore_recovers good ports_healthy again) as (w' & H1 & H2 & _).
  - apply loads_by. evaluate.
  - reflexivity.
  - reflexivity.
  - destruct (H2 "w" (record_at again "w")) as [Hw Hs]; [apply record_by; evaluate|].
    destruct (H2 "r" (record_at again "r")) as [Hr _]; [apply record_by; evaluate|].
    apply (if_desired _ _ _ false) in Hw; [|evaluate]. apply (if_desired _ _ _ true) in Hr; [|evaluate].
    exists w'. split; [exact H1|]. split; [exact Hw|]. split; [exact Hr|exact Hs].
Defined.

(** ** Registries that lose track *)

(** A mountpoint whose cleaned form ends in a blank. *)
Definition blank : Spec := spec_at "b" "d" "/mnt/b /" EmptyString EmptyString.

Definition put (spec : Spec) : result MountRecord * registry_file := PutDesired io_ok 7 spec None.
Definition put_spec (spec : Spec) : Spec := match (put spec).1 with Ok r => rec_Spec r | Err _ => spec end.
Lemma put_by spec : is_ok (put spec).1 = true -> exists r, PutDesired io_ok 7 spec None = (Ok r, (put spec).2) /\ rec_Spec r = put_spec spec.
Proof. unfold put_spec, put. destruct (PutDesired io_ok 7 spec None) as [[r|e] f]; [|discriminate]. intros _. by exists r. Qed.

Lemma unstable_mount_bricks_registry_witness :
  is_ok (put blank).1 = true /\ ~ loads (put blank).2 /\ enter io_ok SList (put blank).2 = (false, (put blank).2).
Proof.
  split; [evaluate|]. destruct (put_by blank ltac:(evaluate)) as (r & H & Hr).
  destruct (unstable_mount_bricks_registry io_ok 7 blank None r (put blank).2 [] SList) as (H1 & _ & H2).
  - discriminate.
  - exact I.
  - exact H.
  - rewrite Hr. vm_compute. discriminate.
  - split; [exact H1|apply H2].
Defined.

(** The binder fails during the restore, and its binding cannot be closed at
    first: the manager keeps an entry without a session. *)
Definition rough : menv := ports (fun t => 8 <=? t) (fun t => t =? 12).
Definition rough_first : mworld := serve_call rough (CallMount writer) (started None).
Definition rough_again : mworld := restarted (mw_trace rough_first).
Definition rough_restored : mworld := serve_call rough CallRestore rough_again.
Definition forgotten : mworld := serve_call rough (CallUnmount "w") rough_restored.

Lemma forgotten_reached : reachable rough forgotten.
Proof.
  apply reach_call; [|exact I|apply roomy_by; evaluate]. apply reach_call; [|exact I|apply roomy_by; evaluate].
  apply (reach_crash rough (started None) (CallMount writer)); [by apply reach_start|apply writer_stable|apply roomy_by; evaluate|reflexivity|].
  exists (take 5 (mw_trace rough_first)). evaluate.
Qed.

(** C36. An unmount can delete the record of a mount that is still there: after a
    crash left a mount behind and the restore failed before it reached the
    platform, unmounting closes the kept binding, does not ask the platform to
    clean the mountpoint, and deletes the record. *)
Theorem unmount_can_forget_stale_mount :
  exists (E : menv (L := TallyCid.lib)) (w : mworld) (id : string),
    (forall t, me_now E t <> 0%Z) /\ reachable E w /\ id ∈ pf_stale (now_at w) /\ records (mw_registry w) !! id = None.
Proof.
  exists rough, forgotten, "w". split; [discriminate|]. split; [apply forgotten_reached|]. split; [|evaluate].
  apply (bool_decide_eq_true_1 ("w" ∈ pf_stale (now_at forgotten))). evaluate.
Qed.
End Mounts.
